(* ===== verification/_CoqProject ===== *)
-Q . S2P
Prelude.v
CString.v
OnesComplement.v
NvFs.v
NvBuf.v
NvPacket.v
NvSync.v
NvRequest.v
NvThreads.v
NvServer.v
ModemCrc.v
ModemPacket.v
ModemBoot.v
ModemMain.v
CmrMsg.v
CmrMem.v
CmrLayout.v
CmrCapture.v
DmMd5.v
DmBase64.v
DmNum.v
JpegCodec.v
JpegStream.v
JpegParse.v
JpegHeader.v
JpegRoundtrip.v
JpegImage.v
JpegEncoder.v
JpegTotal.v
JpegHuff.v
ExifTypes.v
ExifStream.v
ExifWriter.v
ExifReader.v
ExifDirectory.v
ExifLayout.v
ExifFields.v
ExifRoundtrip.v
ExifApp1.v
ExifImage.v
EngFrame.v
EngText.v
EngMac.v
EngDiag.v
EngVdiag.v
EngRelay.v
WcndMac.v
WcndManager.v
WcndCommand.v
WcndThreads.v
AgpsQueue.v
AgpsParser.v
AgpsChannel.v
AgpsAgent.v
