(* ===== verification/Prelude.v ===== *)
(** * Verification of the Spreadtrum vendor daemons and codecs

    The repository is the open-source part of a phone vendor's Android tree: some
    small daemons and libraries of the vendor's own, and a large body of HAL glue,
    sensor tables and imported code around them.  This development models the
    parts whose correctness rests on their own logic, and proves what makes
    them correct.

    ** The program and the files that model it

    The NV daemon (src/apps/nvitem) keeps the modem's non-volatile items.  The
    modem sends requests over a channel; the daemon cuts them into tokens, edits
    the buffers of the partitions, commits a complete request, and a second thread
    writes the committed buffers to two images per partition.
    - NvFs models nvitem_fs.c: the two images, header, checksum, [ramDisk_Read]
      with its random first choice and its repair, [ramDisk_Write], over a file map
      in which the power can fail after any effect, and a file then has any of the contents
      it had since its last [fsync].
    - NvBuf models nvitem_buf.c: the three buffers of a partition, their dirty
      tables, [backupData], [restoreData], [__getData], [saveToDisk].  It is written
      against the classes [NvStore] and [NvStoreLaws] that NvFs implements.
    - NvPacket models nvitem_packet.c and the channel, NvSync the request analyser
      nvitem_sync.c, NvServer the start-up and the loop of nvitem_server.c.
    - NvThreads interleaves the analyser and the saver thread (nvitem_server.c,
      nvitem_os.c) as a step relation.
    - NvRequest is the abstract meaning of a request, as an abstract machine over
      images, which the analyser implements.

    The modem manager (src/apps/modem_control) downloads the modem's software and
    watches it.
    - ModemCrc models crc16.c, ModemPacket the framing and messages of packet.c over
      scripted devices, ModemBoot the image table, image check and downloads of
      modem_boot.c, ModemMain the state machine of main.c.

    The camera library's message queue (src/libs/libcamera/sc8830/src/cmr_msg.c) is
    CmrMsg: each call as a whole, and the interleaving of many threads' calls at
    the grain of the semaphore, the mutex and the unprotected reads.  The memory of a
    capture (cmr_mem.c of the same directory) is CmrMem: the size of the block and the steps
    that cut the buffers out of it, as a state monad over what is left of the block.
    CmrLayout has the calculus of these steps and the ledger of the regions in use,
    CmrCapture the theorems; the allocator behind them is the class [Allocator].

    The device-management library (src/libs/libdm/src/sprd_dm_md5_b64.c) is DmMd5 (the
    digest and its credential string), DmBase64 (encoder, credential string, decoder)
    and DmNum (numbers in text).

    The JPEG codec's firmware library (src/libs/libcamera/jpeg/jpeg_fw_8830, with the
    register driver under src/libs/libcamera/vsp/sc8830) reads and writes the headers of
    pictures and sets up the hardware that codes their data.
    - JpegCodec holds the codec's record and the constant tables (jpegcodec_def.h,
      jpeg_common.h, jpegcodec_table.c).
    - JpegStream models the stream of the decoder, over the caller's buffer or refilled
      through its callback (jpegdec_bitstream.c), and the memory pool
      (jpegdec_malloc.c); JpegParse every segment of the header and the two kinds of file
      (jpegdec_parse.c, [JPEG_FWParseHead] of jpegdec_interface.c).
    - JpegHeader models the header writer (jpegenc_header.c, [JPEG_HWWriteHead]) over the
      byte register of the bitstream module, whose polls are a script.
    - JpegEncoder models the set-up of the encoder (jpegenc_init.c, [JPEG_HWEncInit] and
      [JPEG_HWEncStart]) as a log of register writes; what a register reads and the reset
      of the module are parameters.
    - JpegHuff models the Huffman set-up of the decoder (jpegdec_vld.c).
    - JpegRoundtrip, JpegImage and JpegTotal hold the theory: segment by segment what is
      written is read, whole headers, and the progress of the parser.
    - ExifTypes holds the structures of the EXIF data (jpeg_exif_header.h,
      jpeg_exif_type.h), ExifStream the write stream with its buffer and callback
      (jpeg_stream.c), ExifWriter every directory and value of exif_writer.c up to
      [Jpeg_WriteAPP1], ExifImage the calls that put the segment into a picture
      ([JPEG_AddExifToMemory], [JPEG_AddExifToFile], [IMGJPEG_WriteExif], and
      [_jpeg_enc_wexif] of src/libs/libcamera/sc8830/src/jpeg_codec.c).
    - ExifReader is the specification of the writer: a reader of EXIF data, written from
      the format and not from the code.  ExifDirectory (one entry), ExifLayout (a directory
      between its entries and its values), ExifFields (which fields a structure has),
      ExifRoundtrip (the directories of a picture) and ExifApp1 (the segment) relate the
      two, each on top of the one before.

    The engineering mode (src/apps/engmode) talks to a diagnostic tool: it finds frames in
    what the tool sends, handles some commands, and relays the rest to the modem and the
    modem's answers to the tool.
    - EngFrame models frames: how answers are framed (adc_calibration.c), the removal of
      escapes in place, hexadecimal text (eng_diag.c) and the CRC (crc16.c); EngText what
      is used of C strings in a buffer, and the tokeniser eng_attok.c.
    - EngMac models the Bluetooth and WiFi addresses: the files (eng_btwifiaddr.c), the
      diagnostic command ([eng_diag_btwifi]) and the AT commands of eng_cmd4linuxhdlr.c.
    - EngDiag models [eng_diag_parse], which decides who handles a frame, and [eng_diag],
      which has it handled and writes the answer (eng_diag.c).
    - EngVdiag models the thread that reads from the tool (vdiag.c), over the class
      [DiagHandler] that EngDiag implements; EngRelay the two threads of vlog.c, as a step
      relation over the array they share.

    The connectivity daemon (src/apps/wcnd) looks after CP2, the processor of WiFi, Bluetooth
    and FM: it serves clients that give commands and want to know when CP2 fails, and loads
    its software anew.
    - WcndMac models the files of the addresses, which it prepares at its start from those
      that the diagnostic tool wrote (EngMac), WcndManager the manager, its notifications and
      the reset with the download, WcndCommand the commands of the clients, the executers
      (also wcnd_eng_cmd_executer.c), a round of the serving thread and [main].  What the
      kernel, CP2 and the clients answer is a record of functions of the number of calls made.
    - WcndThreads interleaves the three threads over the two flags they share without a lock.

    The aGPS agent (src/apps/aGPS) connects the modem's positioning messages with a GPS stack.
    - AgpsQueue models the linked list of the callbacks (atc.c), on a heap; AgpsParser the
      fields of a line (parser.c); AgpsChannel the reader of the modem's lines, the commands
      with their responses and the two channels (atc.c, atd.c); AgpsAgent the messages and
      requests (sprd_agps_agent.c).  What the device sends is a list of pieces, what it takes
      a list of the results of [write]; a call of the stack is an entry in a log.

    Prelude holds the outcome monad, machine integers, byte buffers with checked
    accesses, the tactics, the hint databases and the shared lemmas; CString the
    parts of the C library that the sources use on strings; OnesComplement the
    reference of the checksum that four routines compute.

    ** Conventions

    Integers are [Z] with the wrap-around of their type written out; the target is
    32-bit ARM: [int] and [long] have 32 bits and [char] is unsigned.  A buffer is a
    list of bytes.  An access outside a buffer, an undefined shift and the use of an
    indeterminate string give [Undef].  A loop that is not structural runs on fuel, and
    running out is [Fuel], never a result.  The fuels are shown to be enough where the
    loop is bounded: [analyse_fuel] of the analyser (each round consumes a byte of the
    packet or ends the loop), the packets a channel holds for a session, the data left
    for the base64 encoder, eleven rounds for the digits of 32 bits, one round of the JPEG
    parser for each byte of the file (eleven for a header the encoder wrote), seventeen
    lengths for a Huffman table.  Where the code waits for a device for ever, as when it
    connects to the modem, the loop runs on the length of the device's script, and a
    script that has run out is [Fuel] and stands for the wait.  The theorems on the JPEG
    parser take a memory pool of at least 5503 bytes, room for the tables of a header
    ([pool_ok]), and a callback that delivers the file ([source]).  Those on the EXIF writer
    take structures whose arrays have their declared lengths, whose width and length are below
    65536 and whose subject area is not valid ([exif_wf]), a thumbnail of at
    most 50000 bytes, which keeps the segment below 64 KB, and the room that the callers
    give it, 20 KB beside the thumbnail; [malloc], the memory before a call and the callback
    are parameters.  Those on captures take sizes up to 16384 in either direction, below
    which no product overflows ([request_ok]), and a block inside the address space.
    Those on the diagnostic channel take reads and frames of less than 8192 bytes, half of the
    receive buffer; the loop that removes escapes runs once for each byte of
    the frame, and the loop that writes to the modem until a script of its answers ends,
    which is shown not to happen when the modem has had room as often as there are bytes.
    The download of CP2 runs at most once for each byte of the image.  Of the answers of CP2
    the theorems on its daemon ask that they fit the arrays they are read into as strings
    ([short_answers], [answers_fit]; [long_answers_overrun] has the others), and of the test
    tools that they are safe on the commands that clients send them ([tools_fine]).  Those on the aGPS agent take lines below the 8192 bytes
    of the buffer; the reader runs once for each line and once more for the end, and reads at
    most once for each byte that the device still has.

    ** What the theorems show

    - The store: at whatever effect of a write over a good origin image the power fails, a
      read returns the old or the new data, and with the backup as the only good image a
      second failure loses both; what was written is read (roundtrip); a corrupt image is
      tolerated and repaired, and the one pattern of failures that lets an image of
      0xFF bytes pass.
    - The protocol: a request whose packets end at token boundaries commits exactly
      its sectors, and which of its packets are answered; the loops of every session end,
      and one whose accesses are defined, as those of requests that fit are, leaves no
      partition half edited; packet numbering; what happens to a token that a packet cuts.
    - The threads: no committed partition that can be written is forgotten in any
      interleaving, a round of the saver saves what is marked, and the one lost-signal
      interleaving.
    - The modem: frames and packets (round trip, CRC residue, error detection,
      equivalence of the table and bit versions), the exact bytes a download sends,
      the table that a configuration file gives, image selection, and the invariant of the
      state machine and exactly what makes it boot the modem.
    - The queue: refinement of a bounded FIFO for one thread, exact order and progress
      for any number of threads.
    - Captures: the buffers with memory of their own do not meet and lie where memory was
      given for them, for every format, and which buffers share memory; the blocks of the
      tables are large enough for YUV captures without rotation and scaling down, and some
      captures that they are too small for.
    - The codecs: MD5 in pieces is RFC 1321, base64 and numbers round trip, the decoder
      stays in its buffers, the reader accepts exactly the numerals of 32 bits.
    - Pictures: the header the encoder writes is parsed back, and for a caller's parameters
      says what the caller asked for; the loops of the parser end on every file; the decoder's
      Huffman registers are the canonical prefix code, for the default tables too; the
      encoder's quantisation and code memories agree with the tables of the header.
    - EXIF data: a reader finds in the segment exactly the fields, values and thumbnail of
      the structures, but for the three valid bits that the writer does not look at; put into a picture, the header parser decodes the same picture; the
      callback gets the bytes that memory would.
    - The diagnostic channel: for any reads, which frames are handled, what reaches the modem
      and what is dropped; nothing is when no read goes over the edge of a frame; addresses that a frame stored are
      what a later frame is answered; the relays lose nothing as long as they do not use
      their shared array at once, and what happens when they do.
    - The connectivity daemon: the addresses that the tool stored are those the drivers get;
      commands run as they were printed; a reset ends, every client whose socket takes the
      messages hears of its attempts, and CP2 gets exactly the image; no input of a client to
      its own commands makes it leave its buffers, nor does an answer of CP2 that fits them;
      in which interleavings a failure of CP2 is never lost, and the one in which it is.
    - The aGPS agent: the cells of its queue are a list; every message of the modem reaches
      the stack once, in order and with its bytes, however the lines arrive; a request goes
      out as one line, and what its result is when a response was left from before, comes
      after it, comes too late or does not come, and when the device fails.

    Theorems that are not in the manifest's list record further behaviour, some of
    it faults of the code that the manifest reports as findings.

    ** Not modelled

    Opening, closing and configuring devices, delays, logging, power pins and signal
    set-up, which are system calls with no state of the program; the older image-table
    parser and the channel variant that the build does not use; the decoding of JPEG data,
    done by the hardware (the software decoder for progressive pictures is compiled out),
    and the entry points that map memory and call the device; the XML session of
    libdm, which walks the trees of an external parser; the handlers of the engineering mode
    that read sysfs files, databases and test tools, which are arguments of EngDiag, and the
    WiFi and Bluetooth test tools behind two commands of the connectivity daemon, which are
    arguments of WcndCommand; the
    supervisor modemd, which repeats the structure of wcnd for other modems;
    the camera sensors and the camera, audio, display and Bluetooth HALs, which are
    register tables and calls into kernel drivers and closed libraries. *)

From Stdlib Require Export ZArith Lia.
From stdpp Require Export base numbers list option gmap strings.

#[global] Open Scope Z_scope.

(** ** Outcomes of C code

    A C function of the model either finishes with a value ([Done]), runs into
    behaviour the C standard leaves undefined ([Undef]: an access outside an
    object, a shift by the width of the type), or exhausts the fuel of a loop
    ([Fuel]).  Theorems about termination exclude [Fuel]; theorems about memory
    safety exclude [Undef]. *)
Inductive outcome (A : Type) : Type :=
| Done (a : A)
| Undef
| Fuel.
Arguments Done {A} a.
Arguments Undef {A}.
Arguments Fuel {A}.

Definition obind {A B : Type} (m : outcome A) (k : A -> outcome B) : outcome B :=
  match m with
  | Done a => k a
  | Undef => Undef
  | Fuel => Fuel
  end.

Declare Scope c_scope.
Delimit Scope c_scope with C.
Notation "'let*' p ':=' m 'in' k" := (obind m (fun p => k))
  (at level 10, p pattern, m at level 100, k at level 200) : c_scope.
#[global] Open Scope c_scope.

Definition is_done {A} (m : outcome A) : Prop := exists a, m = Done a.

(** ** Machine integers: [w]-bit unsigned values are [Z] reduced modulo [2^w] *)
Definition wrap (w x : Z) : Z := x mod 2 ^ w.
Definition u8 (x : Z) : Z := wrap 8 x.
Definition u16 (x : Z) : Z := wrap 16 x.
Definition u32 (x : Z) : Z := wrap 32 x.

(** Reading a 32-bit pattern as a signed [int]. *)
Definition s32 (x : Z) : Z :=
  let y := u32 x in if y <? 2 ^ 31 then y else y - 2 ^ 32.

Definition byte_ok (b : Z) : Prop := 0 <= b < 256.
Definition u32_ok (x : Z) : Prop := 0 <= x < 2 ^ 32.

(** ** Byte buffers *)
Definition zlen {A} (l : list A) : Z := Z.of_nat (length l).

(** [l[i]], undefined outside the object. *)
Definition rd {A} (l : list A) (i : Z) : outcome A :=
  if 0 <=? i then
    match l !! Z.to_nat i with Some x => Done x | None => Undef end
  else Undef.

(** [l[i] = v], undefined outside the object. *)
Definition wr {A} (l : list A) (i : Z) (v : A) : outcome (list A) :=
  if (0 <=? i) && (i <? zlen l) then Done (<[Z.to_nat i := v]> l) else Undef.

(** [&src[off]] read for [n] bytes. *)
Definition slice {A} (src : list A) (off n : Z) : outcome (list A) :=
  if (0 <=? off) && (0 <=? n) && (off + n <=? zlen src)
  then Done (take (Z.to_nat n) (drop (Z.to_nat off) src)) else Undef.

(** [memcpy (&dst[off], src, length src)]. *)
Definition splice {A} (dst : list A) (off : Z) (src : list A) : outcome (list A) :=
  if (0 <=? off) && (off + zlen src <=? zlen dst)
  then Done (take (Z.to_nat off) dst ++ src ++ drop (Z.to_nat off + length src) dst)
  else Undef.

(** Little-endian encoding of [n] bytes. *)
Fixpoint le_bytes (n : nat) (x : Z) : list Z :=
  match n with
  | O => []
  | S n' => x mod 256 :: le_bytes n' (x / 256)
  end.

Fixpoint le_val (l : list Z) : Z :=
  match l with
  | [] => 0
  | b :: l' => b + 256 * le_val l'
  end.

(** ** Automation *)
Create HintDb cbounds.
Create HintDb nvstore.
Create Rewrite HintDb cnorm.

(** Turn the boolean tests of the code into propositions. *)
Ltac btrue :=
  repeat match goal with
  | H : (_ && _)%bool = true |- _ => apply andb_true_iff in H; destruct H
  | H : (_ && _)%bool = false |- _ => apply andb_false_iff in H
  | H : (_ || _)%bool = false |- _ => apply orb_false_iff in H; destruct H
  | H : (_ || _)%bool = true |- _ => apply orb_true_iff in H
  | H : negb _ = true |- _ => apply negb_true_iff in H
  | H : negb _ = false |- _ => apply negb_false_iff in H
  | H : (_ <=? _) = true |- _ => apply Z.leb_le in H
  | H : (_ <=? _) = false |- _ => apply Z.leb_gt in H
  | H : (_ <? _) = true |- _ => apply Z.ltb_lt in H
  | H : (_ <? _) = false |- _ => apply Z.ltb_ge in H
  | H : (_ =? _) = true |- _ => apply Z.eqb_eq in H
  | H : (_ =? _) = false |- _ => apply Z.eqb_neq in H
  end.

(** Split on the next boolean test of the goal, keeping its equation. *)
Ltac cif :=
  match goal with
  | |- context [if ?b then _ else _] => let E := fresh "E" in destruct b eqn:E
  end; btrue.

(** Invert an equation between a monadic bind and a result. *)
Ltac obind_inv H :=
  let a := fresh "a" in let E := fresh "E" in
  match type of H with
  | obind ?m _ = Done _ => destruct m as [a| |] eqn:E; cbn [obind] in H; try discriminate H
  end.

(** Discharge a boolean guard in the goal by [lia]. *)
Ltac guard_true b := replace b with true by (symmetry; repeat rewrite ?andb_true_iff, ?Z.leb_le, ?Z.ltb_lt, ?Z.eqb_eq; repeat split; lia).
Ltac guard_false b := replace b with false by (symmetry; repeat rewrite ?andb_false_iff, ?Z.leb_gt, ?Z.ltb_ge, ?Z.eqb_neq; lia).

(** ** Generic lemmas *)
Lemma obind_Done {A B} (a : A) (k : A -> outcome B) : obind (Done a) k = k a.
Proof. reflexivity. Qed.

Lemma obind_assoc {A B D} (m : outcome A) (f : A -> outcome B) (g : B -> outcome D) :
  obind (obind m f) g = obind m (fun x => obind (f x) g).
Proof. by destruct m. Qed.

Lemma wrap_range w x : 0 <= w -> 0 <= wrap w x < 2 ^ w.
Proof. intros. apply Z.mod_pos_bound. lia. Qed.

Lemma u32_range x : u32_ok (u32 x).
Proof. apply wrap_range. lia. Qed.

Lemma u16_range x : 0 <= u16 x < 65536.
Proof. apply (wrap_range 16). lia. Qed.

Lemma u8_range x : byte_ok (u8 x).
Proof. apply (wrap_range 8). lia. Qed.

Lemma u32_small x : u32_ok x -> u32 x = x.
Proof. apply Z.mod_small. Qed.

Lemma u16_small x : 0 <= x < 65536 -> u16 x = x.
Proof. apply Z.mod_small. Qed.

Lemma u8_small x : byte_ok x -> u8 x = x.
Proof. apply Z.mod_small. Qed.

#[export] Hint Resolve u32_range u16_range u8_range : cbounds.
#[export] Hint Rewrite @obind_Done : cnorm.

Lemma zlen_nil {A} : zlen (@nil A) = 0.
Proof. reflexivity. Qed.

Lemma zlen_cons {A} (x : A) l : zlen (x :: l) = 1 + zlen l.
Proof. unfold zlen. cbn [length]. lia. Qed.

Lemma zlen_app {A} (l k : list A) : zlen (l ++ k) = zlen l + zlen k.
Proof. unfold zlen. rewrite length_app. lia. Qed.

Lemma zlen_nonneg {A} (l : list A) : 0 <= zlen l.
Proof. unfold zlen. lia. Qed.

Lemma zlen_replicate {A} n (x : A) : zlen (replicate n x) = Z.of_nat n.
Proof. unfold zlen. by rewrite length_replicate. Qed.

Lemma zlen_take {A} n (l : list A) : 0 <= n <= zlen l -> zlen (take (Z.to_nat n) l) = n.
Proof. unfold zlen. intros. rewrite length_take. lia. Qed.

#[export] Hint Rewrite @zlen_nil @zlen_cons @zlen_app @zlen_replicate : cnorm.

Lemma take_min_length {A} n (l : list A) : take (Nat.min (length l) n) l = take n l.
Proof. rewrite <- take_take, take_ge; [done|]. rewrite length_take. lia. Qed.

(** Bounded reads and writes. *)
Lemma rd_Some {A} (l : list A) i x : 0 <= i -> l !! Z.to_nat i = Some x -> rd l i = Done x.
Proof. intros Hi H. unfold rd. rewrite H. by guard_true (0 <=? i). Qed.

Lemma rd_inv {A} (l : list A) i x :
  rd l i = Done x -> 0 <= i < zlen l /\ l !! Z.to_nat i = Some x.
Proof.
  unfold rd. destruct (0 <=? i) eqn:E; [|discriminate]. btrue.
  destruct (l !! Z.to_nat i) eqn:L; [|discriminate]. intros [= ->].
  apply lookup_lt_Some in L as ?. unfold zlen. split; [lia|done].
Qed.

Lemma rd_lt {A} (l : list A) i : 0 <= i < zlen l -> exists x, rd l i = Done x /\ l !! Z.to_nat i = Some x.
Proof.
  intros H. destruct (lookup_lt_is_Some_2 l (Z.to_nat i)) as [x Hx].
  { unfold zlen in H. lia. }
  exists x. split; [|done]. apply rd_Some; [lia|done].
Qed.

Lemma rd_oob {A} (l : list A) i : i < 0 \/ zlen l <= i -> rd l i = Undef.
Proof.
  intros H. unfold rd. cif; [|done].
  rewrite lookup_ge_None_2; [done|]. unfold zlen in H. lia.
Qed.

Lemma wr_in {A} (l : list A) i v : 0 <= i < zlen l -> wr l i v = Done (<[Z.to_nat i := v]> l).
Proof. intros H. unfold wr. by guard_true ((0 <=? i) && (i <? zlen l)). Qed.

Lemma wr_oob {A} (l : list A) i v : i < 0 \/ zlen l <= i -> wr l i v = Undef.
Proof. intros H. unfold wr. cif; [lia|done]. Qed.

Lemma slice_in {A} (l : list A) off n :
  0 <= off -> 0 <= n -> off + n <= zlen l ->
  slice l off n = Done (take (Z.to_nat n) (drop (Z.to_nat off) l)).
Proof. intros. unfold slice. by guard_true ((0 <=? off) && (0 <=? n) && (off + n <=? zlen l)). Qed.

Lemma slice_inv {A} (l : list A) off n k :
  slice l off n = Done k ->
  0 <= off /\ 0 <= n /\ off + n <= zlen l /\ zlen k = n /\
  k = take (Z.to_nat n) (drop (Z.to_nat off) l).
Proof.
  unfold slice. cif; [|discriminate]. intros [= <-]. repeat split; try lia.
  unfold zlen in *. rewrite length_take, length_drop. lia.
Qed.

Lemma splice_in {A} (dst : list A) off src :
  0 <= off -> off + zlen src <= zlen dst ->
  splice dst off src =
    Done (take (Z.to_nat off) dst ++ src ++ drop (Z.to_nat off + length src) dst).
Proof. intros. unfold splice. by guard_true ((0 <=? off) && (off + zlen src <=? zlen dst)). Qed.

Lemma splice_inv {A} (dst : list A) off src r :
  splice dst off src = Done r ->
  0 <= off /\ off + zlen src <= zlen dst /\ zlen r = zlen dst /\
  r = take (Z.to_nat off) dst ++ src ++ drop (Z.to_nat off + length src) dst.
Proof.
  unfold splice. cif; [|discriminate]. intros [= <-]. repeat split; try lia.
  unfold zlen in *. rewrite !length_app, length_take, length_drop. lia.
Qed.

Lemma splice_oob {A} (dst : list A) off src :
  off < 0 \/ zlen dst < off + zlen src -> splice dst off src = Undef.
Proof. intros H. unfold splice. cif; [lia|done]. Qed.

(** Accesses at the end of a prefix. *)
Lemma rd_app {A} (a b : list A) x i : zlen a = i -> rd (a ++ x :: b) i = Done x.
Proof.
  intros <-. apply rd_Some; [apply zlen_nonneg|]. unfold zlen. rewrite Nat2Z.id.
  by rewrite lookup_app_r, Nat.sub_diag by lia.
Qed.

Lemma wr_app {A} (a b : list A) x i v : zlen a = i -> wr (a ++ x :: b) i v = Done (a ++ v :: b).
Proof.
  intros <-. pose proof (zlen_nonneg a). pose proof (zlen_nonneg b).
  rewrite wr_in by (rewrite zlen_app, zlen_cons; lia). unfold zlen. rewrite Nat2Z.id.
  by rewrite insert_app_r_alt, Nat.sub_diag by lia.
Qed.

(** What a splice changes: the bytes of the range and no others. *)
Lemma splice_lookup {A} (dst : list A) off src r i :
  splice dst off src = Done r ->
  r !! i = if (decide (Z.to_nat off <= i < Z.to_nat off + length src)%nat)
           then src !! (i - Z.to_nat off)%nat else dst !! i.
Proof.
  intros H. apply splice_inv in H as (H1 & H2 & _ & ->). unfold zlen in *.
  assert (Hl : length (take (Z.to_nat off) dst) = Z.to_nat off) by (rewrite length_take; lia).
  case_decide.
  - rewrite lookup_app_r, Hl by lia. rewrite lookup_app_l by lia. done.
  - destruct (decide (i < Z.to_nat off)%nat).
    + rewrite lookup_app_l by lia. by rewrite lookup_take_lt by lia.
    + rewrite lookup_app_r, Hl by lia. rewrite lookup_app_r by lia.
      rewrite lookup_drop. f_equal. lia.
Qed.

(** Accesses to the middle of a concatenation. *)
Lemma slice_app {A} (a b c : list A) off n :
  zlen a = off -> zlen b = n -> slice (a ++ b ++ c) off n = Done b.
Proof.
  intros <- <-. pose proof (zlen_nonneg a). pose proof (zlen_nonneg b). pose proof (zlen_nonneg c).
  rewrite slice_in by (rewrite ?zlen_app; lia). unfold zlen. rewrite !Nat2Z.id, drop_app_length.
  by rewrite take_app_length.
Qed.

Lemma slice_app_l {A} (b c : list A) n : zlen b = n -> slice (b ++ c) 0 n = Done b.
Proof. intros Hb. by apply (slice_app [] b c 0 n). Qed.

Lemma splice_app {A} (a b c b' : list A) off :
  zlen a = off -> zlen b' = zlen b -> splice (a ++ b ++ c) off b' = Done (a ++ b' ++ c).
Proof.
  intros <- Hb. pose proof (zlen_nonneg a). pose proof (zlen_nonneg c).
  rewrite splice_in by (rewrite ?zlen_app; lia). unfold zlen in *. rewrite Nat2Z.id.
  rewrite take_app_length. do 3 f_equal. rewrite <- drop_drop, drop_app_length.
  by rewrite drop_app_length' by lia.
Qed.

(** Accesses to a whole list. *)
Lemma slice_all {A} (l : list A) : slice l 0 (zlen l) = Done l.
Proof. rewrite <- (app_nil_r l) at 1. by apply slice_app_l. Qed.

Lemma splice_all {A} (l k : list A) : zlen k = zlen l -> splice l 0 k = Done k.
Proof.
  intros H. rewrite <- (app_nil_r l), (splice_app [] l [] k) by done. by rewrite app_nil_r.
Qed.

(** ** Little-endian encodings *)
Lemma length_le_bytes n x : length (le_bytes n x) = n.
Proof. revert x. induction n; intros; cbn; auto. Qed.

Lemma zlen_le_bytes n x : zlen (le_bytes n x) = Z.of_nat n.
Proof. unfold zlen. by rewrite length_le_bytes. Qed.

Lemma le_bytes_ok n x : Forall byte_ok (le_bytes n x).
Proof.
  revert x. induction n; intros; constructor; auto.
  apply Z.mod_pos_bound. lia.
Qed.

Lemma le_val_le_bytes n x : le_val (le_bytes n x) = x mod 256 ^ Z.of_nat n.
Proof.
  revert x. induction n as [|n IH]; intros x; cbn [le_bytes le_val].
  - by rewrite Z.mod_1_r.
  - rewrite IH, Nat2Z.inj_succ, Z.pow_succ_r by lia.
    rewrite (Z.rem_mul_r x 256) by lia. lia.
Qed.

Lemma le_val_u32 x : u32_ok x -> le_val (le_bytes 4 x) = x.
Proof. intros H. rewrite le_val_le_bytes. apply Z.mod_small. exact H. Qed.

Lemma le_val_range l : Forall byte_ok l -> 0 <= le_val l < 256 ^ zlen l.
Proof.
  induction 1 as [|b l Hb Hl IH]; cbn [le_val]; [by vm_compute|].
  rewrite zlen_cons, Z.pow_add_r by (pose proof (zlen_nonneg l); lia).
  unfold byte_ok in Hb. lia.
Qed.

#[export] Hint Rewrite zlen_le_bytes length_le_bytes : cnorm.
#[export] Hint Resolve le_bytes_ok : cbounds.

(** ** Bits *)
Lemma land_ff x : Z.land x 255 = x mod 256.
Proof. change 255 with (Z.ones 8). by rewrite Z.land_ones by lia. Qed.

Lemma testbit_small a k i : 0 <= a < 2 ^ k -> 0 <= k <= i -> Z.testbit a i = false.
Proof.
  intros Ha Hk. rewrite <- (Z.mod_small a (2 ^ k)) by lia.
  apply Z.mod_pow2_bits_high. lia.
Qed.

Lemma testbit_wrap w x i :
  0 <= w -> 0 <= i -> Z.testbit (wrap w x) i = (i <? w) && Z.testbit x i.
Proof.
  intros Hw Hi. unfold wrap. destruct (Z.ltb_spec i w).
  - by rewrite Z.mod_pow2_bits_low by lia.
  - by rewrite Z.mod_pow2_bits_high by lia.
Qed.

Lemma lor_disjoint k a b : 0 <= k -> 0 <= a < 2 ^ k -> Z.lor a (b * 2 ^ k) = a + b * 2 ^ k.
Proof.
  intros Hk Ha.
  assert (Z.land a (b * 2 ^ k) = 0) as H.
  { apply Z.bits_inj'. intros i Hi. rewrite Z.land_spec, Z.bits_0.
    destruct (Z.lt_ge_cases i k).
    - rewrite Z.mul_pow2_bits_low by lia. apply andb_false_r.
    - by rewrite (testbit_small a k) by lia. }
  rewrite <- Z.lxor_lor, <- Z.add_nocarry_lxor by done. done.
Qed.

Lemma u32_u32_add a b : u32 (u32 a + b) = u32 (a + b).
Proof. unfold u32, wrap. apply Zplus_mod_idemp_l. Qed.
