(* ===== verification/CString.v ===== *)
(** * C strings

    The parts of the C library the sources use on strings: [strtol] and [atoi]
    with 32-bit [long], and the conversions [%s] and [%x] of [sscanf].  Strings hold no NUL. *)

From S2P Require Import Prelude.
From Stdlib Require Export Ascii.

(** The bytes of a string constant. *)
Fixpoint bytes_of (s : string) : list Z :=
  match s with
  | EmptyString => []
  | String c s' => Z.of_nat (nat_of_ascii c) :: bytes_of s'
  end.

(** ** strtol and atoi *)
Definition is_space (c : ascii) : bool :=
  let n := Z.of_nat (nat_of_ascii c) in (n =? 32) || ((9 <=? n) && (n <=? 13)).

Definition digit_val (c : ascii) : option Z :=
  let n := Z.of_nat (nat_of_ascii c) in
  if (48 <=? n) && (n <=? 57) then Some (n - 48)
  else if (65 <=? n) && (n <=? 90) then Some (n - 55)
  else if (97 <=? n) && (n <=? 122) then Some (n - 87)
  else None.

Fixpoint skip_space (s : string) : string :=
  match s with
  | String c s' => if is_space c then skip_space s' else s
  | EmptyString => s
  end.

Fixpoint digits (base : Z) (acc : Z) (s : string) : Z :=
  match s with
  | EmptyString => acc
  | String c s' =>
      match digit_val c with
      | Some v => if v <? base then digits base (acc * base + v) s' else acc
      | None => acc
      end
  end.

(** The optional [0x], which counts only before a hexadecimal digit. *)
Definition skip_prefix (base : Z) (s : string) : string :=
  match s with
  | String "0" (String x (String c s')) =>
      if (base =? 16) && ((x =? "x") || (x =? "X"))%char &&
         match digit_val c with Some v => v <? 16 | None => false end
      then String c s' else s
  | _ => s
  end.

Definition strtol (s : string) (base : Z) : Z :=
  let s := skip_space s in
  let '(neg, s) := match s with
    | String "-" s' => (true, s')
    | String "+" s' => (false, s')
    | _ => (false, s)
    end in
  let v := digits base 0 (skip_prefix base s) in
  if neg then Z.max (- 2 ^ 31) (- v) else Z.min (2 ^ 31 - 1) v.

Definition atoi (s : string) : Z := strtol s 10.

(** ** sscanf *)

(** The longest prefix without blanks, and the rest. *)
Fixpoint span_word (s : string) : string * string :=
  match s with
  | EmptyString => ("", "")
  | String c s' =>
      if is_space c then ("", s)
      else let '(w, r) := span_word s' in (String c w, r)
  end.

(** [%s]: [None] at the end of the input. *)
Definition scan_s (s : string) : option (string * string) :=
  match skip_space s with
  | EmptyString => None
  | s => Some (span_word s)
  end.

(** The rest of a string after its digits. *)
Fixpoint skip_digits (base : Z) (s : string) : string :=
  match s with
  | EmptyString => s
  | String c s' =>
      match digit_val c with
      | Some v => if v <? base then skip_digits base s' else s
      | None => s
      end
  end.

(** [%x]: [None] at the end of the input or when no digit is found. *)
Definition scan_x (s : string) : option (Z * string) :=
  let s := skip_space s in
  let '(neg, s) := match s with
    | String "-" s' => (true, s')
    | String "+" s' => (false, s')
    | _ => (false, s)
    end in
  let s := skip_prefix 16 s in
  let r := skip_digits 16 s in
  if (String.length r =? String.length s)%nat then None
  else
    let x := Z.min (2 ^ 32 - 1) (digits 16 0 s) in
    Some (u32 (if neg then - x else x), r).

(** [%d] at the start of a string. *)
Definition scan_d (s : string) : option Z :=
  let s := skip_space s in
  let '(neg, s) := match s with
    | String "-" s' => (true, s')
    | String "+" s' => (false, s')
    | _ => (false, s)
    end in
  if (String.length (skip_digits 10 s) =? String.length s)%nat then None
  else Some (if neg then Z.max (- 2 ^ 31) (- digits 10 0 s) else Z.min (2 ^ 31 - 1) (digits 10 0 s)).

(** ** Concrete values *)
Example strtol_hex : strtol "0x20000" 16 = 131072 /\ strtol "-7fffffffff" 16 = - 2 ^ 31 /\ strtol "0x" 16 = 0.
Proof. done. Qed.

Example scan_line : scan_s "  /dev/a 0x3400 zz" = Some ("/dev/a", " 0x3400 zz") /\
  scan_x " 0x3400 zz" = Some (13312, " zz") /\ scan_x " zz" = None.
Proof. done. Qed.
