(* ===== verification/OnesComplement.v ===== *)
(** * The 16-bit one's complement sum

    Reference definition of the checksum that four routines of the sources
    compute: [calc_checksum] of nvitem_fs.c, [frm_chk] and [boot_checksum] of
    modem_control/crc16.c, and [calc_checksum] of modem_control/modem_boot.c.
    The lemmas here give its closed form and its error-detection property; the
    component files show that the routines compute it. *)

From S2P Require Import Prelude.

(** Sum of the little-endian halfwords; an odd last byte counts as itself. *)
Fixpoint halfword_sum (l : list Z) : Z :=
  match l with
  | [] => 0
  | [b] => b
  | lo :: hi :: l' => lo + 256 * hi + halfword_sum l'
  end.

(** The two folding lines and the complement every routine ends with, on a
    32-bit accumulator:
    [s = (s >> 16) + (s & 0xffff); s += (s >> 16); return ~s;]. *)
Definition oc_finish (s : Z) : Z :=
  let s1 := u32 (Z.shiftr s 16 + Z.land s 0xffff) in
  let s2 := u32 (s1 + Z.shiftr s1 16) in
  u16 (Z.lnot s2).

Definition oc_checksum (l : list Z) : Z := oc_finish (u32 (halfword_sum l)).

(** Representative in [1..65535] of a positive sum modulo 65535. *)
Definition oc_residue (s : Z) : Z := if s =? 0 then 0 else (s - 1) mod 65535 + 1.

Lemma shiftr16 s : Z.shiftr s 16 = s / 65536.
Proof. by rewrite Z.shiftr_div_pow2 by lia. Qed.

Lemma land_ffff s : Z.land s 0xffff = s mod 65536.
Proof. change 0xffff with (Z.ones 16). by rewrite Z.land_ones by lia. Qed.

(** Halfwords are summed exactly while the accumulator does not overflow. *)
Lemma halfword_sum_range l :
  Forall byte_ok l -> 0 <= halfword_sum l <= 65535 * ((zlen l + 1) / 2).
Proof.
  remember (length l) as n eqn:Hn. revert l Hn.
  induction n as [n IH] using lt_wf_ind. intros [|a [|b l]] Hn Hb.
  - by vm_compute.
  - inversion Hb; subst. unfold byte_ok in *. change ((zlen [a] + 1) / 2) with 1.
    cbn [halfword_sum]. lia.
  - inversion Hb as [|? ? Ha Hb']; subst. inversion Hb' as [|? ? Hb2 Hl]; subst.
    cbn [halfword_sum]. specialize (IH (length l) ltac:(cbn; lia) l eq_refl Hl).
    rewrite !zlen_cons. replace (1 + (1 + zlen l) + 1) with (zlen l + 1 + 1 * 2) by lia.
    rewrite Z.div_add by lia. unfold byte_ok in *. lia.
Qed.

(** Closed form of the final folding: the complement of the residue. *)
Lemma oc_finish_spec s : 0 <= s < 2 ^ 32 -> oc_finish s = 65535 - oc_residue s.
Proof.
  intros Hs. unfold oc_finish, oc_residue, u32, u16, wrap. rewrite !shiftr16, land_ffff.
  change (2 ^ 32) with 4294967296 in *. change (2 ^ 16) with 65536.
  rewrite (Z.mod_small (s / 65536 + s mod 65536)) by (Z.div_mod_to_equations; lia).
  set (s1 := s / 65536 + s mod 65536).
  assert (Hs1 : 0 <= s1 <= 131070) by (unfold s1; Z.div_mod_to_equations; lia).
  rewrite (Z.mod_small (s1 + s1 / 65536)) by (Z.div_mod_to_equations; lia).
  unfold Z.lnot. rewrite <- Z.sub_1_r.
  assert (Hc : s mod 65535 = s1 mod 65535).
  { unfold s1. rewrite (Z.div_mod s 65536) at 1 by lia.
    replace (65536 * (s / 65536) + s mod 65536)
      with (s / 65536 + s mod 65536 + (s / 65536) * 65535) by lia.
    apply Z.mod_add. lia. }
  destruct (Z.eqb_spec s 0) as [->|Hne]; [reflexivity|].
  assert (0 < s1) by (unfold s1; Z.div_mod_to_equations; lia).
  assert (Hr : (s - 1) mod 65535 = (s1 - 1) mod 65535).
  { rewrite Zminus_mod, Hc, <- Zminus_mod. done. }
  rewrite Hr. clear Hr Hc. clearbody s1. Z.div_mod_to_equations. lia.
Qed.

Lemma oc_finish_range s : 0 <= oc_finish s < 65536.
Proof. apply u16_range. Qed.

(** Two sums whose distance is positive and below 65535 fold to different
    checksums. *)
Lemma oc_finish_separates s t :
  0 <= s < 2 ^ 32 -> 0 <= t < 2 ^ 32 -> 0 < Z.abs (s - t) < 65535 ->
  oc_finish s <> oc_finish t.
Proof.
  intros Hs Ht Hd. rewrite !oc_finish_spec by done. unfold oc_residue.
  destruct (Z.eqb_spec s 0), (Z.eqb_spec t 0); Z.div_mod_to_equations; lia.
Qed.

(** A sum and its checksum add up to zero in one's complement arithmetic: the
    receiver's verification. *)
Lemma oc_finish_verify s :
  0 < s < 2 ^ 32 -> (s + oc_finish s) mod 65535 = 0.
Proof.
  intros Hs. rewrite oc_finish_spec by lia. unfold oc_residue.
  destruct (Z.eqb_spec s 0); [lia|]. Z.div_mod_to_equations. lia.
Qed.

(** Replacing one byte moves the sum by the byte difference, at weight 1 or
    256. *)
Lemma halfword_sum_insert l i b c :
  l !! i = Some b ->
  halfword_sum (<[i := c]> l)
  = halfword_sum l + (if Nat.even i then 1 else 256) * (c - b).
Proof.
  revert i. remember (length l) as n eqn:Hn. revert l Hn.
  induction n as [n IH] using lt_wf_ind. intros l Hn i Hi.
  destruct l as [|x [|y l]]; [discriminate Hi| |].
  - destruct i as [|i]; [|discriminate Hi].
    cbn in Hi |- *. injection Hi as ->. lia.
  - destruct i as [|[|i]]; cbn in Hi |- *.
    + injection Hi as ->. destruct l; lia.
    + injection Hi as ->. lia.
    + rewrite (IH (length l)) by (subst; cbn; lia || done). destruct i; cbn; lia.
Qed.

(** The checksum detects every change of a single byte in a buffer whose sum
    does not overflow the 32-bit accumulator. *)
Lemma oc_checksum_detects l i b c :
  Forall byte_ok l -> zlen l <= 131072 -> l !! i = Some b -> byte_ok c -> b <> c ->
  oc_checksum (<[i := c]> l) <> oc_checksum l.
Proof.
  intros Hl Hlen Hi Hc Hne. unfold oc_checksum.
  assert (Hb : byte_ok b) by (eapply Forall_lookup_1; eauto).
  assert (Hl' : Forall byte_ok (<[i:=c]> l)) by (apply Forall_insert; auto).
  assert (Hlen' : zlen (<[i:=c]> l) = zlen l) by (unfold zlen; by rewrite length_insert).
  pose proof (halfword_sum_range l Hl) as R1.
  pose proof (halfword_sum_range _ Hl') as R2. rewrite Hlen' in R2.
  assert (65535 * ((zlen l + 1) / 2) < 2 ^ 32).
  { change (2 ^ 32) with 4294967296. Z.div_mod_to_equations. lia. }
  rewrite !u32_small by (unfold u32_ok; lia).
  apply oc_finish_separates; [lia|lia|].
  rewrite (halfword_sum_insert _ _ b) by done. unfold byte_ok in *.
  destruct (Nat.even i); lia.
Qed.

(** An even-sized block of 0xFF bytes has checksum 0. *)
Lemma halfword_sum_ff k : halfword_sum (replicate (2 * k) 255) = 65535 * Z.of_nat k.
Proof.
  induction k as [|k IH]; [done|].
  replace (2 * S k)%nat with (S (S (2 * k))) by lia.
  cbn [replicate halfword_sum]. rewrite IH. lia.
Qed.

Lemma oc_checksum_ff k : (0 < k)%nat -> Z.of_nat k <= 65537 -> oc_checksum (replicate (2 * k) 255) = 0.
Proof.
  intros Hk Hk'. unfold oc_checksum. rewrite halfword_sum_ff.
  rewrite u32_small by (unfold u32_ok; lia).
  rewrite oc_finish_spec by lia. unfold oc_residue.
  destruct (Z.eqb_spec (65535 * Z.of_nat k) 0); [lia|]. Z.div_mod_to_equations. lia.
Qed.
