(* ===== verification/NvFs.v ===== *)
(** * apps/nvitem/nvitem_fs.c: the two-image store of the NV daemon

    Every partition has an origin image and a backup image, each a 512-byte
    header followed by the data.  [ramDisk_Write] writes the backup image and
    then the origin image; [ramDisk_Read] picks one of the two at random,
    accepts it when its length and checksum fit, and otherwise falls back to
    the other image and repairs the first one.

    The file system is a finite map from paths to contents, as programs see
    them, and for every path the contents that it had since its last [fsync]:
    when the power fails the medium holds, for each path independently, the
    present content or one of those.  Opening with [O_TRUNC | O_CREAT] and
    [write] change a file, byte by byte; [creatable] and [quota] say which
    opens succeed and how far a file can grow, and [power] bounds the effects
    (a truncation, a byte, an [fsync]) that the program still gets to, so that
    [Some n] for every [n] covers every point at which the power can fail.
    The model is the build without [CONFIG_NAND_UBI_VOL]; [read] on a regular
    file returns the bytes that are there. *)

From S2P Require Import Prelude OnesComplement.

Definition RAMNV_NUM : Z := 15.
Definition RAMNV_SECT_SIZE : Z := 512.
Definition NV_HEAD_MAGIC : Z := 0x00004e56.
Definition NV_VERSION : Z := 101.

Record RAM_NV_CONFIG := {
  partId : Z;
  image_path : string;
  imageBak_path : string;
  image_size : Z
}.

(** ** The medium *)
Record disk := {
  files : gmap string (list Z);
  unsynced : gmap string (list (option (list Z)));
  creatable : string -> bool;
  quota : string -> Z;
  power : option nat
}.

(** A new content of [path], after the contents [past] that it had before. *)
Definition store (d : disk) (path : string) (content : list Z) (past : list (option (list Z))) (p : option nat) : disk :=
  {| files := <[path := content]> (files d);
     unsynced := <[path := past ++ default [] (unsynced d !! path)]> (unsynced d);
     creatable := creatable d; quota := quota d; power := p |}.

(** [open(path, O_RDWR | O_CREAT | O_TRUNC, ...)]: whether it succeeds, and
    the truncation. *)
Definition open_trunc (d : disk) (path : string) : bool * disk :=
  if creatable d path then
    match power d with
    | Some O => (true, d)
    | Some (S n) => (true, store d path [] [files d !! path] (Some n))
    | None => (true, store d path [] [files d !! path] None)
    end
  else (false, d).

(** The contents before each of [n] bytes of [data] after [cur]. *)
Definition steps (cur data : list Z) (n : nat) : list (option (list Z)) := (fun i => Some (cur ++ take i data)) <$> seq 0 n.

(** [write(fd, data, n)] at the end of the file: the count and the effect.  Once
    the power is gone nothing changes any more and the count is immaterial. *)
Definition fd_write (d : disk) (path : string) (data : list Z) : Z * disk :=
  let cur := default [] (files d !! path) in
  let n := Z.to_nat (Z.max 0 (Z.min (zlen data) (quota d path - zlen cur))) in
  match power d with
  | Some O => (zlen data, d)
  | Some p => let k := Nat.min n p in (Z.of_nat n, store d path (cur ++ take k data) (steps cur data k) (Some (p - n)%nat))
  | None => (Z.of_nat n, store d path (cur ++ take n data) (steps cur data n) None)
  end.

(** [fsync(fd)]: the medium has the present content. *)
Definition sync (d : disk) (path : string) (p : option nat) : disk :=
  {| files := files d; unsynced := delete path (unsynced d); creatable := creatable d; quota := quota d; power := p |}.
Definition fsync (d : disk) (path : string) : disk :=
  match power d with
  | Some O => d
  | Some (S n) => sync d path (Some n)
  | None => sync d path None
  end.

(** ** The checksum *)

(** [while (len > 1)] of [calc_checksum]; [dat] is the object of [len] bytes. *)
Fixpoint calc_loop (dat : list Z) (chkSum : Z) : Z :=
  match dat with
  | lo :: hi :: dat' =>
      let num := Z.lor (u16 lo) (u16 (Z.shiftl (u16 hi) 8)) in
      calc_loop dat' (u32 (chkSum + num))
  | [b] => u32 (chkSum + b)
  | [] => chkSum
  end.

Definition calc_checksum (dat : list Z) : Z :=
  let chkSum := calc_loop dat 0 in
  let chkSum := u32 (Z.shiftr chkSum 16 + Z.land chkSum 0xffff) in
  let chkSum := u32 (chkSum + Z.shiftr chkSum 16) in
  u16 (Z.lnot chkSum).

Definition _chkNVEcc (buf : list Z) (checksum : Z) : bool :=
  calc_checksum buf =? u16 checksum.

(** ** Partition table *)

Section Config.
Variables fixnv_ori_path fixnv_bak_path runnv_ori_path runnv_bak_path : string.
Variables fixnv_size runnv_size : Z.

(** The initial value of [_ramdiskCfg]. *)
Definition _ramdiskCfg_init : list RAM_NV_CONFIG :=
  [ {| partId := 1; image_path := "/fixnv/fixnv.bin"; imageBak_path := ""; image_size := 0x20000 |};
    {| partId := 2; image_path := "/runtimenv/runtimenv.bin"; imageBak_path := ""; image_size := 0x40000 |};
    {| partId := 0; image_path := ""; imageBak_path := ""; image_size := 0 |} ]
  ++ replicate 13 {| partId := 0; image_path := ""; imageBak_path := ""; image_size := 0 |}.

Definition strlen (s : string) : Z := Z.of_nat (String.length s).

Definition ramDisk_Init (_ramdiskCfg : list RAM_NV_CONFIG) : list RAM_NV_CONFIG :=
  if (100 <? strlen fixnv_ori_path) || (100 <? strlen fixnv_bak_path)
     || (100 <? strlen runnv_ori_path) || (100 <? strlen runnv_bak_path)
  then _ramdiskCfg
  else
    {| partId := 1; image_path := fixnv_ori_path; imageBak_path := fixnv_bak_path;
       image_size := fixnv_size |} ::
    {| partId := 2; image_path := runnv_ori_path; imageBak_path := runnv_bak_path;
       image_size := runnv_size |} ::
    replicate 14 {| partId := 0; image_path := ""; imageBak_path := ""; image_size := 0 |}.
End Config.

Definition ramDisk_Open (partId : Z) : Z := partId.

(** The search loop: stop at the terminating entry, at a match or at the end. *)
Fixpoint _getIdx_from (cfg : list RAM_NV_CONFIG) (i : Z) (id : Z) : Z :=
  match cfg with
  | [] => -1
  | c :: cfg' =>
      if partId c =? 0 then -1
      else if id =? partId c then i
      else _getIdx_from cfg' (i + 1) id
  end.

Definition _getIdx (cfg : list RAM_NV_CONFIG) (handle : Z) : Z := _getIdx_from cfg 0 handle.

(** ** Reading *)

(** [memset(buf, v, n)]. *)
Definition memset (buf : list Z) (v n : Z) : outcome (list Z) :=
  splice buf 0 (replicate (Z.to_nat n) v).

(** [header_ptr->checksum]: bytes 8..11 of the header. *)
Definition header_checksum (header : list Z) : Z := le_val (take 4 (drop 8 header)).

(** The two [read] calls on an open image: header, buffer and the two counts. *)
Definition read_image (content buf : list Z) (size : Z)
  : outcome (list Z * list Z * Z * Z) :=
  let h := take (Z.to_nat RAMNV_SECT_SIZE) content in
  let b := take (Z.to_nat size) (drop (Z.to_nat RAMNV_SECT_SIZE) content) in
  let* header := splice (replicate (Z.to_nat RAMNV_SECT_SIZE) 0) 0 h in
  let* buf' := splice buf 0 b in
  Done (header, buf', zlen h, zlen b).

(** The first [do ... while(0)] block: [inl buf] when the image is accepted
    (the function returns), [inr (buf, ret2)] when control falls through. *)
Definition read_first (d : disk) (name : string) (buf : list Z) (size : Z)
  : outcome (list Z + list Z * Z) :=
  let* buf := memset buf 0xFF size in
  match files d !! name with
  | None => Done (inr (buf, 0))
  | Some content =>
      let* (header, buf, ret1, ret2) := read_image content buf size in
      if negb (ret1 =? RAMNV_SECT_SIZE) then Done (inr (buf, ret2))
      else
        let* data := slice buf 0 size in
        if (ret2 =? size) && _chkNVEcc data (header_checksum header)
        then Done (inl buf) else Done (inr (buf, ret2))
  end.

(** The repair of the first image at the end of the function. *)
Definition rewrite_first (d : disk) (name : string) (header data : list Z) : disk :=
  let '(ok, d) := open_trunc d name in
  if ok then
    let '(_, d) := fd_write d name header in
    let '(_, d) := fd_write d name data in fsync d name
  else d.

(** The second half of [ramDisk_Read]; [ret2] is what the first half left. *)
Definition read_second (d : disk) (firstName secondName : string) (buf : list Z)
    (size ret2 : Z) : outcome (bool * list Z * disk) :=
  let* buf := memset buf 0xFF size in
  let header := replicate (Z.to_nat RAMNV_SECT_SIZE) 0 in
  let* (header, buf, ret1, ret2) :=
    match files d !! secondName with
    | Some content => read_image content buf size
    | None => Done (header, buf, RAMNV_SECT_SIZE, ret2)
    end in
  if negb (ret1 =? RAMNV_SECT_SIZE) then Done (true, buf, d)
  else if negb (ret2 =? size) then Done (true, buf, d)
  else
    let* data := slice buf 0 size in
    if negb (_chkNVEcc data (header_checksum header)) then Done (true, buf, d)
    else Done (true, buf, rewrite_first d firstName header data).

(** [rnd] is the value of [rand()]. *)
Definition ramDisk_Read (cfg : list RAM_NV_CONFIG) (rnd : Z) (d : disk) (handle : Z)
    (buf : list Z) (size : Z) : outcome (bool * list Z * disk) :=
  let idx := _getIdx cfg handle in
  if idx =? -1 then Done (false, buf, d)
  else
    let* c := rd cfg idx in
    let '(firstName, secondName) :=
      if negb (rnd mod 2 =? 0) then (image_path c, imageBak_path c)
      else (imageBak_path c, image_path c) in
    let* r := read_first d firstName buf size in
    match r with
    | inl buf => Done (true, buf, d)
    | inr (buf, ret2) => read_second d firstName secondName buf size ret2
    end.

(** ** Writing *)

Definition make_header (size checksum : Z) : list Z :=
  le_bytes 4 NV_HEAD_MAGIC ++ le_bytes 4 size ++ le_bytes 4 checksum ++ le_bytes 4 NV_VERSION
  ++ replicate 496 0.

(** One image: open, write the header, write the data, [fsync].  A failed open
    leaves [ret] as it is. *)
Definition write_image (d : disk) (path : string) (header data : list Z) (ret : bool)
  : bool * disk :=
  let '(ok, d) := open_trunc d path in
  if ok then
    let '(n1, d) := fd_write d path header in
    let ret := if negb (n1 =? RAMNV_SECT_SIZE) then false else ret in
    let '(n2, d) := fd_write d path data in
    let ret := if negb (n2 =? zlen data) then false else ret in
    (ret, fsync d path)
  else (ret, d).

Definition ramDisk_Write (cfg : list RAM_NV_CONFIG) (d : disk) (handle : Z)
    (buf : list Z) (size : Z) : outcome (bool * disk) :=
  let idx := _getIdx cfg handle in
  if idx =? -1 then Done (false, d)
  else
    let* c := rd cfg idx in
    let* data := slice buf 0 size in
    let header := make_header size (calc_checksum data) in
    let '(ret, d) := write_image d (imageBak_path c) header data true in
    let '(ret, d) := write_image d (image_path c) header data ret in
    Done (ret, d).

Definition ramDisk_Close (handle : Z) (d : disk) : disk := d.

(** ** The checksum is the one's complement sum *)

Lemma halfword_or lo hi :
  byte_ok lo -> byte_ok hi -> Z.lor (u16 lo) (u16 (Z.shiftl (u16 hi) 8)) = lo + 256 * hi.
Proof.
  unfold byte_ok. intros Hl Hh. rewrite !(u16_small lo), !(u16_small hi) by lia.
  rewrite Z.shiftl_mul_pow2 by lia. change (2 ^ 8) with 256. rewrite u16_small by lia.
  change 256 with (2 ^ 8) at 1. rewrite lor_disjoint by lia. lia.
Qed.

Lemma calc_loop_spec dat acc :
  Forall byte_ok dat -> u32 acc = acc -> calc_loop dat acc = u32 (acc + halfword_sum dat).
Proof.
  remember (length dat) as n eqn:Hn. revert dat acc Hn.
  induction n as [n IH] using lt_wf_ind. intros [|lo [|hi dat]] acc Hn Hb Ha.
  - cbn. by rewrite Z.add_0_r.
  - reflexivity.
  - inversion Hb as [|? ? H1 Hb']; subst. inversion Hb' as [|? ? H2 Hd]; subst.
    cbn [calc_loop halfword_sum]. rewrite halfword_or by done.
    rewrite (IH (length dat)) by (auto; try (cbn; lia); apply u32_small; auto with cbounds).
    rewrite u32_u32_add. f_equal. lia.
Qed.

Lemma calc_checksum_spec dat : Forall byte_ok dat -> calc_checksum dat = oc_checksum dat.
Proof.
  intros H. unfold calc_checksum, oc_checksum, oc_finish.
  by rewrite calc_loop_spec, Z.add_0_l by done.
Qed.

Lemma calc_checksum_range dat : 0 <= calc_checksum dat < 65536.
Proof. apply u16_range. Qed.

(** ** Images *)

(** A complete image of [data] with a matching checksum. *)
Definition valid_image (data content : list Z) : Prop :=
  exists header, content = header ++ data /\ zlen header = RAMNV_SECT_SIZE /\
    calc_checksum data = u16 (header_checksum header).

(** An image cut short. *)
Definition torn_image (size : Z) (content : list Z) : Prop :=
  zlen content < RAMNV_SECT_SIZE + size.

Lemma zlen_make_header size ck : zlen (make_header size ck) = RAMNV_SECT_SIZE.
Proof. unfold make_header. autorewrite with cnorm. reflexivity. Qed.

Lemma header_checksum_make size ck :
  0 <= ck < 65536 -> header_checksum (make_header size ck) = ck.
Proof.
  intros H. unfold header_checksum, make_header.
  rewrite !app_assoc, <- (app_assoc _ (le_bytes 4 NV_VERSION)), <- app_assoc.
  rewrite drop_app_length' by (rewrite length_app, !length_le_bytes; done).
  rewrite take_app_length' by (by rewrite length_le_bytes).
  apply le_val_u32. unfold u32_ok. lia.
Qed.

Lemma make_header_valid data :
  valid_image data (make_header (zlen data) (calc_checksum data) ++ data).
Proof.
  exists (make_header (zlen data) (calc_checksum data)).
  split; [done|split; [apply zlen_make_header|]].
  pose proof (calc_checksum_range data).
  rewrite header_checksum_make by done. by rewrite u16_small.
Qed.

(** ** Effects of the file operations *)

(** With the medium writable and large enough, one image write persists the
    image up to the power budget. *)
Definition can_hold (d : disk) (path : string) (n : Z) : Prop :=
  creatable d path = true /\ n <= quota d path.


(** A disk whose [path] has a synced content. *)
Definition written (d : disk) (path : string) (content : list Z) (p : option nat) : disk :=
  {| files := <[path := content]> (files d); unsynced := delete path (unsynced d);
     creatable := creatable d; quota := quota d; power := p |}.

Lemma fd_write_none d path data :
  power d = None -> zlen data <= quota d path - zlen (default [] (files d !! path)) ->
  let cur := default [] (files d !! path) in
  fd_write d path data = (zlen data, store d path (cur ++ data) (steps cur data (length data)) None).
Proof.
  intros Hp H cur. unfold fd_write. pose proof (zlen_nonneg data). fold cur in H |- *.
  replace (Z.to_nat (Z.max 0 (Z.min (zlen data) _))) with (length data) by (unfold zlen in *; lia).
  by rewrite Hp, take_ge by lia.
Qed.

Lemma fd_write_some d path data p :
  power d = Some (S p) -> zlen data <= quota d path - zlen (default [] (files d !! path)) ->
  let cur := default [] (files d !! path) in
  let k := Nat.min (length data) (S p) in
  fd_write d path data = (zlen data, store d path (cur ++ take k data) (steps cur data k) (Some (S p - length data)%nat)).
Proof.
  intros Hp H cur k. unfold fd_write. pose proof (zlen_nonneg data). fold cur in H |- *.
  replace (Z.to_nat (Z.max 0 (Z.min (zlen data) _))) with (length data) by (unfold zlen in *; lia).
  by rewrite Hp.
Qed.

Lemma write_image_none d path header data ret :
  can_hold d path (zlen header + zlen data) -> zlen header = RAMNV_SECT_SIZE ->
  power d = None ->
  write_image d path header data ret = (ret, written d path (header ++ data) None).
Proof.
  intros [Hc Hq] Hh Hp. pose proof (zlen_nonneg data). pose proof (zlen_nonneg header).
  unfold write_image, open_trunc. rewrite Hc, Hp.
  rewrite fd_write_none; cbn [store files power quota]; rewrite ?lookup_insert_eq;
    cbn [from_option id app]; [|done|rewrite (@zlen_nil Z); lia].
  rewrite fd_write_none; cbn [store files power quota]; rewrite ?lookup_insert_eq;
    cbn [from_option id app]; [|done|lia].
  rewrite Hh, !Z.eqb_refl. cbn [negb fsync power store]. unfold sync, written. cbn [files unsynced creatable quota store].
  by rewrite !insert_insert_eq, delete_insert_eq.
Qed.

Lemma rewrite_first_none d path header data :
  can_hold d path (zlen header + zlen data) -> zlen header = RAMNV_SECT_SIZE ->
  power d = None ->
  rewrite_first d path header data = written d path (header ++ data) None.
Proof.
  intros Hc Hh Hp. transitivity (snd (write_image d path header data true)).
  - unfold write_image, rewrite_first. destruct (open_trunc d path) as [[] d0]; [|done].
    destruct (fd_write d0 path header) as [n1 d1]. by destruct (fd_write d1 path data).
  - by rewrite write_image_none.
Qed.

(** What the medium may hold at [q] when the power fails. *)
Definition possible (d : disk) (q : string) : list (option (list Z)) := files d !! q :: default [] (unsynced d !! q).

Lemma possible_store d path content past p o :
  o ∈ possible (store d path content past p) path -> o = Some content \/ o ∈ past \/ o ∈ default [] (unsynced d !! path).
Proof.
  unfold possible, store. cbn [files unsynced]. rewrite !lookup_insert_eq. cbn [from_option id].
  rewrite elem_of_cons, elem_of_app. tauto.
Qed.

Lemma elem_of_steps cur data n o : o ∈ steps cur data n -> exists i, (i < n)%nat /\ o = Some (cur ++ take i data).
Proof. unfold steps. intros (i & -> & Hi)%list_elem_of_fmap. exists i. split; [|done]. apply elem_of_seq in Hi. lia. Qed.

(** The files other than [path] are as they were. *)
Definition frame (d d' : disk) (path : string) : Prop :=
  creatable d' = creatable d /\ quota d' = quota d /\ forall q, q <> path -> possible d' q = possible d q /\ files d' !! q = files d !! q.

Lemma frame_store d path content past p : frame d (store d path content past p) path.
Proof. split_and!; [done..|]. intros q Hq. unfold possible, store. cbn [files unsynced]. by rewrite !lookup_insert_ne. Qed.
Lemma frame_written d path content p : frame d (written d path content p) path.
Proof. split_and!; [done..|]. intros q Hq. unfold possible, written. cbn [files unsynced]. by rewrite lookup_insert_ne, lookup_delete_ne. Qed.
Lemma files_frame_refl d path : frame d d path.
Proof. done. Qed.
Lemma files_frame_trans d d1 d2 path : frame d d1 path -> frame d1 d2 path -> frame d d2 path.
Proof.
  intros (H1 & H2 & H3) (H4 & H5 & H6). split_and!; [congruence..|]. intros q Hq.
  destruct (H3 q Hq), (H6 q Hq). split; congruence.
Qed.
#[local] Hint Resolve frame_store frame_written files_frame_refl : nvstore.

(** What is on the way to [content]: what was possible, and beginnings of it. *)
Definition partial (d d' : disk) (path : string) (content : list Z) (n : nat) : Prop :=
  forall o, o ∈ possible d' path -> o ∈ possible d path \/ exists i, (i <= n)%nat /\ o = Some (take i content).

(** With [S n] effects left (the truncation is one), the image reaches the
    medium in part, or as a whole with the [fsync]. *)
Lemma write_image_some d path header data ret n :
  can_hold d path (zlen header + zlen data) -> zlen header = RAMNV_SECT_SIZE ->
  power d = Some (S n) ->
  exists ret' d', write_image d path header data ret = (ret', d') /\ frame d d' path /\
    (if decide (n <= length header + length data)%nat
     then power d' = Some O /\ partial d d' path (header ++ data) n
     else d' = written d path (header ++ data) (Some (n - length header - length data - 1)%nat)).
Proof.
  intros [Hc Hq] Hh Hp. pose proof (zlen_nonneg data) as Hzd. pose proof (zlen_nonneg header) as Hzh.
  unfold write_image, open_trunc. rewrite Hc, Hp. set (d0 := store d path [] _ _).
  assert (H0 : partial d d0 path (header ++ data) O).
  { intros o Ho. apply possible_store in Ho as [-> | [Ho|Ho]].
    - right. exists O. by rewrite take_0.
    - left. apply list_elem_of_singleton in Ho as ->. left.
    - left. by right. }
  assert (Hcur0 : default [] (files d0 !! path) = []) by (cbn; by rewrite lookup_insert_eq).
  destruct n as [|m].
  { unfold fd_write. cbn [power d0 store]. eexists _, d0. split; [unfold fsync; done|]. split; [apply frame_store|].
    rewrite decide_True by lia. done. }
  rewrite (fd_write_some d0 path header m) by (done || rewrite Hcur0; cbn [quota d0 store]; change (zlen []) with 0; lia).
  cbn zeta. rewrite Hcur0. cbn [app]. set (k := Nat.min (length header) (S m)). set (d1 := store d0 path _ _ _).
  assert (F1 : frame d d1 path) by (eapply files_frame_trans; apply frame_store).
  assert (H1 : partial d d1 path (header ++ data) k).
  { intros o Ho. apply possible_store in Ho as [-> | [Ho|Ho]].
    - right. exists k. split; [done|]. by rewrite take_app_le by lia.
    - right. apply elem_of_steps in Ho as (i & Hi & ->). exists i. split; [lia|]. by rewrite take_app_le by lia.
    - destruct (H0 o) as [?|(i & Hi & ->)]; [by right|by left|]. right. exists i. split; [lia|done]. }
  destruct (decide (S m <= length header)%nat) as [Hm|Hm].
  { assert (Hp1 : power d1 = Some O) by (cbn [power d1 store]; f_equal; lia). unfold fd_write. rewrite Hp1. eexists _, d1.
    split; [unfold fsync; by rewrite Hp1|]. split; [done|]. rewrite decide_True by lia. split; [done|].
    intros o Ho. destruct (H1 o Ho) as [?|(i & Hi & ->)]; [by left|]. right. exists i. split; [lia|done]. }
  set (j := (S m - length header - 1)%nat). assert (Hp1 : power d1 = Some (S j)) by (cbn [power d1 store]; f_equal; lia).
  assert (Hk : k = length header) by lia.
  assert (Hcur1 : default [] (files d1 !! path) = header).
  { cbn. rewrite lookup_insert_eq. cbn. by rewrite Hk, firstn_all. }
  rewrite (fd_write_some d1 path data j) by (done || rewrite Hcur1; cbn [quota d1 d0 store]; lia). cbn zeta. rewrite Hcur1.
  set (l := Nat.min (length data) (S j)). set (d2 := store d1 path _ _ _).
  assert (F2 : frame d d2 path) by (eapply files_frame_trans; [exact F1|apply frame_store]).
  assert (H2 : partial d d2 path (header ++ data) (length header + l)).
  { intros o Ho. apply possible_store in Ho as [-> | [Ho|Ho]].
    - right. exists (length header + l)%nat. split; [done|]. by rewrite take_app_add.
    - right. apply elem_of_steps in Ho as (i & Hi & ->). exists (length header + i)%nat. split; [lia|]. by rewrite take_app_add.
    - destruct (H1 o) as [?|(i & Hi & ->)]; [by right|by left|]. right. exists i. split; [lia|done]. }
  case_decide as Hd.
  - assert (Hp2 : power d2 = Some O) by (cbn [power d2 store]; f_equal; lia). eexists _, d2. split; [unfold fsync; by rewrite Hp2|].
    split; [done|]. split; [done|].
    intros o Ho. destruct (H2 o Ho) as [?|(i & Hi & ->)]; [by left|]. right. exists i. split; [lia|done].
  - set (e := (S m - length header - length data - 1)%nat).
    assert (Hp2 : power d2 = Some (S e)) by (cbn [power d2 store]; f_equal; lia).
    eexists _, _. split; [unfold fsync; by rewrite Hp2|].
    assert (Hw : sync d2 path (Some e) = written d path (header ++ data) (Some e)).
    { unfold sync, written. cbn [files unsynced creatable quota d2 d1 d0 store]. rewrite !insert_insert_eq, !delete_insert_eq.
      by rewrite (take_ge data l) by lia. }
    rewrite Hw. split; [apply frame_written|done].
Qed.

Lemma write_image_dead d path header data ret :
  creatable d path = true -> power d = Some O ->
  exists ret', write_image d path header data ret = (ret', d).
Proof.
  intros Hc Hp. unfold write_image, open_trunc. rewrite Hc, Hp.
  unfold fd_write, fsync. rewrite !Hp. by eexists.
Qed.

(** ** Reading an image *)

Lemma read_image_full header data buf :
  zlen header = RAMNV_SECT_SIZE -> zlen data <= zlen buf ->
  read_image (header ++ data) buf (zlen data) =
    Done (header, data ++ drop (length data) buf, RAMNV_SECT_SIZE, zlen data).
Proof.
  intros Hh Hb. unfold read_image.
  assert (Hl : Z.to_nat RAMNV_SECT_SIZE = length header) by (unfold zlen in Hh; lia).
  rewrite Hl, take_app_length, drop_app_length.
  rewrite take_ge by (unfold zlen; lia).
  rewrite splice_in by (rewrite ?zlen_replicate; unfold zlen in *; lia). cbn [obind].
  rewrite splice_in by lia. cbn [obind Z.to_nat Nat.add]. rewrite take_0, !app_nil_l.
  rewrite (drop_ge (replicate _ _)) by (rewrite length_replicate; lia).
  by rewrite app_nil_r, Hh.
Qed.

(** Whatever the content, the two reads stay inside the buffers. *)
Lemma read_image_total content buf size :
  0 <= size <= zlen buf ->
  exists header buf', read_image content buf size =
      Done (header, buf', Z.min RAMNV_SECT_SIZE (zlen content),
            Z.min size (Z.max 0 (zlen content - RAMNV_SECT_SIZE))) /\
    zlen buf' = zlen buf /\ drop (Z.to_nat size) buf' = drop (Z.to_nat size) buf.
Proof.
  intros Hs. unfold read_image.
  set (h := take (Z.to_nat RAMNV_SECT_SIZE) content).
  set (b := take (Z.to_nat size) _).
  assert (Hh : zlen h = Z.min RAMNV_SECT_SIZE (zlen content)).
  { unfold h, zlen. rewrite length_take. unfold RAMNV_SECT_SIZE. lia. }
  assert (Hb : zlen b = Z.min size (Z.max 0 (zlen content - RAMNV_SECT_SIZE))).
  { unfold b, zlen. rewrite length_take, length_drop. unfold RAMNV_SECT_SIZE. lia. }
  rewrite splice_in by (rewrite ?zlen_replicate; unfold RAMNV_SECT_SIZE in *; lia). cbn [obind].
  rewrite splice_in by lia. cbn [obind]. eexists _, _. split; [by rewrite Hh, Hb|].
  cbn [Z.to_nat Nat.add]. rewrite take_0, app_nil_l. unfold zlen in *. split.
  - rewrite length_app, length_drop. lia.
  - rewrite drop_app_ge, drop_drop by lia. f_equal. lia.
Qed.

Lemma memset_in buf v n :
  0 <= n <= zlen buf -> memset buf v n = Done (replicate (Z.to_nat n) v ++ drop (Z.to_nat n) buf).
Proof.
  intros H. unfold memset. rewrite splice_in by (rewrite ?zlen_replicate; lia).
  by rewrite length_replicate.
Qed.

Lemma memset_inv buf v n :
  0 <= n <= zlen buf ->
  exists b, memset buf v n = Done b /\ zlen b = zlen buf /\ drop (Z.to_nat n) b = drop (Z.to_nat n) buf.
Proof.
  intros H. rewrite memset_in by done. eexists. split; [done|]. unfold zlen in *. split.
  - rewrite length_app, length_replicate, length_drop. lia.
  - by rewrite drop_app_length' by (by rewrite length_replicate).
Qed.

Lemma slice_prefix (data buf : list Z) :
  slice (data ++ drop (length data) buf) 0 (zlen data) = Done data.
Proof.
  rewrite slice_in; [|lia|apply zlen_nonneg|rewrite zlen_app; pose proof (zlen_nonneg (drop (length data) buf)); lia].
  change (Z.to_nat 0) with 0%nat. rewrite drop_0.
  by rewrite take_app_length' by (unfold zlen; lia).
Qed.

Lemma read_image_valid data content buf :
  valid_image data content -> zlen data <= zlen buf ->
  exists header, zlen header = RAMNV_SECT_SIZE /\ content = header ++ data /\
    read_image content buf (zlen data) =
      Done (header, data ++ drop (length data) buf, RAMNV_SECT_SIZE, zlen data) /\
    _chkNVEcc data (header_checksum header) = true.
Proof.
  intros (h & -> & Hh & Hc) Hb. exists h. repeat split; [done| |].
  - by apply read_image_full.
  - unfold _chkNVEcc. rewrite Hc. apply Z.eqb_refl.
Qed.

Lemma read_first_valid d name data content buf :
  files d !! name = Some content -> valid_image data content -> zlen data <= zlen buf ->
  read_first d name buf (zlen data) = Done (inl (data ++ drop (length data) buf)).
Proof.
  intros Hf Hv Hb. pose proof (zlen_nonneg data). unfold read_first.
  destruct (memset_inv buf 255 (zlen data)) as (b & -> & Hl & Hd); [lia|]. cbn [obind].
  rewrite Hf. destruct (read_image_valid data content b Hv) as (h & Hh & _ & -> & Hc); [lia|].
  cbn [obind]. rewrite Z.eqb_refl. cbn [negb]. rewrite slice_prefix. cbn [obind].
  rewrite Z.eqb_refl, Hc. cbn [andb]. do 3 f_equal.
  unfold zlen in Hd. rewrite Nat2Z.id in Hd. done.
Qed.

(** An image that is cut short, or complete with a wrong checksum, is refused
    and leaves the bytes beyond [size] alone. *)
Definition refused (size : Z) (content : list Z) : Prop :=
  torn_image size content \/
  exists header data, content = header ++ data /\ zlen header = RAMNV_SECT_SIZE /\
    zlen data = size /\ calc_checksum data <> u16 (header_checksum header).

Lemma read_first_bad d name header data buf :
  files d !! name = Some (header ++ data) -> zlen header = RAMNV_SECT_SIZE ->
  calc_checksum data <> u16 (header_checksum header) -> zlen data <= zlen buf ->
  read_first d name buf (zlen data) = Done (inr (data ++ drop (length data) buf, zlen data)).
Proof.
  intros Hf Hh Hne Hs. pose proof (zlen_nonneg data). unfold read_first.
  destruct (memset_inv buf 255 (zlen data)) as (b & -> & Hl & Hd); [lia|]. cbn [obind].
  rewrite Hf, read_image_full by (done || lia). cbn [obind].
  rewrite Z.eqb_refl. cbn [negb]. rewrite slice_prefix. cbn [obind].
  unfold _chkNVEcc. rewrite (proj2 (Z.eqb_neq _ _) Hne), andb_false_r.
  unfold zlen in Hd. rewrite Nat2Z.id in Hd. by rewrite Hd.
Qed.

Lemma read_first_refused d name content buf size :
  files d !! name = Some content -> refused size content -> 0 <= size <= zlen buf ->
  exists b r, read_first d name buf size = Done (inr (b, r)) /\
    zlen b = zlen buf /\ drop (Z.to_nat size) b = drop (Z.to_nat size) buf.
Proof.
  intros Hf [Ht|(h & data & -> & Hh & <- & Hne)] Hs.
  - unfold read_first.
    destruct (memset_inv buf 255 size) as (b & -> & Hl & Hd); [lia|]. cbn [obind]. rewrite Hf.
    destruct (read_image_total content b size) as (h & b' & -> & Hl' & Hd'); [lia|]. cbn [obind].
    unfold torn_image, RAMNV_SECT_SIZE in *. cif; [by eexists _, _; rewrite Hl', Hd'|].
    rewrite slice_in by lia. cbn [obind]. cif; [|by eexists _, _; rewrite Hl', Hd'].
    pose proof (zlen_nonneg content). lia.
  - rewrite (read_first_bad d name h data) by (done || lia).
    eexists _, _. split; [done|]. unfold zlen in *. rewrite Nat2Z.id in *.
    rewrite drop_app_length, length_app, length_drop. split; [lia|done].
Qed.

Lemma read_second_valid d first second data content buf r :
  files d !! second = Some content -> valid_image data content -> zlen data <= zlen buf ->
  exists header, content = header ++ data /\ zlen header = RAMNV_SECT_SIZE /\
  read_second d first second buf (zlen data) r =
    Done (true, data ++ drop (length data) buf, rewrite_first d first header data).
Proof.
  intros Hf Hv Hb. pose proof (zlen_nonneg data). unfold read_second.
  destruct (memset_inv buf 255 (zlen data)) as (b & -> & Hl & Hd); [lia|]. cbn [obind].
  rewrite Hf. destruct (read_image_valid data content b Hv) as (h & Hh & Hc & -> & Hk); [lia|].
  exists h. split; [done|split; [done|]]. cbn [obind].
  rewrite !Z.eqb_refl. cbn [negb]. rewrite slice_prefix. cbn [obind]. rewrite Hk. cbn [negb].
  unfold zlen in Hd. rewrite Nat2Z.id in Hd. by rewrite Hd.
Qed.

(** ** The store as a whole *)

(** [handle] is an entry of the partition table. *)
Definition partition (cfg : list RAM_NV_CONFIG) (handle : Z) (c : RAM_NV_CONFIG) : Prop :=
  rd cfg (_getIdx cfg handle) = Done c.

(** No file, an image that is refused, or a good image of some data in [P]. *)
Definition image_is (P : list Z -> Prop) (size : Z) (o : option (list Z)) : Prop :=
  match o with
  | None => True
  | Some content => refused size content \/ exists x, P x /\ zlen x = size /\ valid_image x content
  end.
Definition holds_image (P : list Z -> Prop) (size : Z) (d : disk) (path : string) : Prop := image_is P size (files d !! path).

Definition holds_good (P : list Z -> Prop) (size : Z) (d : disk) (path : string) : Prop :=
  exists content x, files d !! path = Some content /\ P x /\ zlen x = size /\
    valid_image x content.

Lemma partition_found cfg handle c :
  partition cfg handle c -> (_getIdx cfg handle =? -1) = false.
Proof.
  intros H. apply Z.eqb_neq. intros E. unfold partition in H. rewrite E in H. discriminate H.
Qed.

Lemma refused_not_valid size content x : refused size content -> zlen x = size -> valid_image x content -> False.
Proof.
  intros Hr Hx (h & -> & Hh & Hck). destruct Hr as [Ht|(h' & x' & E & Hh' & Hx' & Hne)].
  - unfold torn_image in Ht. rewrite zlen_app in Ht. lia.
  - apply app_inj_1 in E as [-> ->]; [done|unfold zlen in *; lia].
Qed.

(** A first image that is missing or refused. *)
Lemma read_first_bad_image d name buf size :
  match files d !! name with None => True | Some content => refused size content end -> 0 <= size <= zlen buf ->
  exists b r, read_first d name buf size = Done (inr (b, r)) /\
    zlen b = zlen buf /\ drop (Z.to_nat size) b = drop (Z.to_nat size) buf.
Proof.
  intros H Hs. destruct (files d !! name) as [content|] eqn:Hf; [by eapply read_first_refused|].
  unfold read_first. destruct (memset_inv buf 255 size) as (b & -> & Hl & Hd); [lia|]. cbn [obind]. rewrite Hf. by eexists _, _.
Qed.

(** The two-name core of [ramDisk_Read]. *)
Lemma read_two P d first second buf size :
  0 <= size <= zlen buf ->
  holds_image P size d first ->
  holds_good P size d first \/ holds_good P size d second ->
  exists x d',
    (let* r := read_first d first buf size in
     match r with
     | inl b => Done (true, b, d)
     | inr (b, ret2) => read_second d first second b size ret2
     end) = Done (true, x ++ drop (Z.to_nat size) buf, d') /\ P x /\ zlen x = size.
Proof.
  intros Hs Hf Hg.
  assert (Hcase : match files d !! first with None => True | Some content => refused size content end \/ holds_good P size d first).
  { unfold holds_image, image_is in Hf. destruct (files d !! first) as [ct|] eqn:E; [|by left].
    destruct Hf as [Hr|(x & Px & Hx & Hv)]; [by left|]. right. by exists ct, x. }
  destruct Hcase as [Hbad|(ct & x & Hct & Px & Hx & Hv)].
  - assert (holds_good P size d second) as (ct & x & Hct & Px & Hx & Hv).
    { destruct Hg as [(ct & x & Hct & Px & Hx & Hv)|Hg]; [|done]. rewrite Hct in Hbad. by destruct (refused_not_valid _ _ _ Hbad Hx Hv). }
    destruct (read_first_bad_image d first buf size Hbad Hs) as (b & r & -> & Hl & Hd). cbn [obind]. subst size.
    destruct (read_second_valid d first second x ct b r Hct Hv) as (h & _ & _ & ->); [lia|].
    eexists x, _. split; [|done]. unfold zlen in Hd |- *. rewrite Nat2Z.id in *. by rewrite Hd.
  - subst size. rewrite (read_first_valid d first x ct buf Hct Hv) by lia. cbn [obind].
    exists x, d. split; [|done]. unfold zlen. by rewrite Nat2Z.id.
Qed.

Lemma ramDisk_Read_two P cfg rnd d handle c buf size :
  partition cfg handle c -> 0 <= size <= zlen buf ->
  holds_image P size d (image_path c) -> holds_image P size d (imageBak_path c) ->
  holds_good P size d (image_path c) \/ holds_good P size d (imageBak_path c) ->
  exists x d', ramDisk_Read cfg rnd d handle buf size =
      Done (true, x ++ drop (Z.to_nat size) buf, d') /\ P x /\ zlen x = size.
Proof.
  intros Hp Hs H1 H2 Hg. unfold ramDisk_Read. rewrite (partition_found _ _ _ Hp).
  unfold partition in Hp. rewrite Hp. cbn [obind].
  destruct (negb (rnd mod 2 =? 0)); apply read_two; tauto.
Qed.

Lemma valid_good (P : list Z -> Prop) d path content x :
  files d !! path = Some content -> P x -> valid_image x content ->
  holds_good P (zlen x) d path.
Proof. intros. exists content, x. auto. Qed.

Lemma good_image P size d path : holds_good P size d path -> holds_image P size d path.
Proof. intros (ct & x & H & ? & ? & ?). unfold holds_image. rewrite H. right. eauto. Qed.

#[export] Hint Resolve valid_good good_image : nvstore.

(** The disk with [n] effects left before the power fails. *)
Definition power_left (d : disk) (n : nat) : disk :=
  {| files := files d; unsynced := unsynced d; creatable := creatable d; quota := quota d; power := Some n |}.

(** The disk [d'] after the power failed on [d] and is back: each file has, on
    its own, one of the contents that were possible. *)
Definition crashed (d d' : disk) : Prop :=
  (forall q, files d' !! q ∈ possible d q) /\ unsynced d' = ∅ /\ creatable d' = creatable d /\ quota d' = quota d /\ power d' = None.

(** Both images of a partition are good copies of [data]. *)
Definition both_hold (d : disk) (c : RAM_NV_CONFIG) (data : list Z) : Prop :=
  (exists ct, files d !! image_path c = Some ct /\ valid_image data ct) /\
  (exists ct, files d !! imageBak_path c = Some ct /\ valid_image data ct).

Definition writable (d : disk) (c : RAM_NV_CONFIG) (size : Z) : Prop :=
  image_path c <> imageBak_path c /\
  can_hold d (image_path c) (RAMNV_SECT_SIZE + size) /\
  can_hold d (imageBak_path c) (RAMNV_SECT_SIZE + size).

(** What may be at a path while an image of [data] in [P] is written over it. *)
Lemma write_image_crash P d path data n ret :
  can_hold d path (RAMNV_SECT_SIZE + zlen data) -> power d = Some n -> P data ->
  (forall o, o ∈ possible d path -> image_is P (zlen data) o) ->
  exists ret' d', write_image d path (make_header (zlen data) (calc_checksum data)) data ret = (ret', d') /\
    frame d d' path /\ (exists m, power d' = Some m) /\
    (forall o, o ∈ possible d' path -> image_is P (zlen data) o) /\
    (possible d' path = [Some (make_header (zlen data) (calc_checksum data) ++ data)] \/ power d' = Some O) /\
    (n = O -> d' = d).
Proof.
  intros [Hc Hq] Hp Pn Hold. set (h := make_header _ _).
  assert (Hh : zlen h = RAMNV_SECT_SIZE) by apply zlen_make_header.
  assert (Hpart : forall i, image_is P (zlen data) (Some (take i (h ++ data)))).
  { intros i. destruct (decide (i < length h + length data)%nat) as [Hi|Hi].
    - left. left. unfold torn_image. rewrite <- Hh. unfold zlen. rewrite length_take, length_app. lia.
    - right. exists data. split; [done|]. split; [done|]. rewrite take_ge by (rewrite length_app; lia). apply make_header_valid. }
  destruct n as [|n].
  { destruct (write_image_dead d path h data ret Hc Hp) as [r ->]. exists r, d. split_and!; eauto with nvstore. }
  destruct (write_image_some d path h data ret n) as (r & d' & -> & Hf & Hx); [split; [done|lia]|done|done|].
  exists r, d'. split; [done|]. split; [done|]. case_decide as Hn.
  - destruct Hx as [Hpw Hx]. split; [by eexists|]. split; [|split; [by right|done]].
    intros o Ho. destruct (Hx o Ho) as [Ho'|(i & _ & ->)]; [by apply Hold|apply Hpart].
  - assert (Hpos : possible d' path = [Some (h ++ data)]).
    { rewrite Hx. unfold possible, written. cbn [files unsynced]. by rewrite lookup_insert_eq, lookup_delete_eq. }
    split; [rewrite Hx; by eexists|]. split; [|split; [by left|done]].
    rewrite Hpos. intros o ->%list_elem_of_singleton. rewrite <- (take_ge (h ++ data) (length (h ++ data))) by done. apply Hpart.
Qed.

(** The origin image is on the medium as a good copy of [old]; the backup may be
    missing, cut short, damaged, or a good copy of [old]. *)
Definition origin_good (d : disk) (c : RAM_NV_CONFIG) (old : list Z) : Prop :=
  (exists ct, possible d (image_path c) = [Some ct] /\ valid_image old ct) /\
  forall o, o ∈ possible d (imageBak_path c) -> image_is (fun x => x = old) (zlen old) o.


(** A completed write leaves two good copies and no other change. *)
Lemma ramDisk_Write_effect cfg d handle c buf size data :
  partition cfg handle c -> writable d c size -> power d = None ->
  slice buf 0 size = Done data ->
  exists d', ramDisk_Write cfg d handle buf size = Done (true, d') /\ both_hold d' c data /\
    power d' = None /\ creatable d' = creatable d /\ quota d' = quota d /\
    (forall q, q <> image_path c -> q <> imageBak_path c -> files d' !! q = files d !! q).
Proof.
  intros Hp (Hne & [Ho1 Ho2] & [Hb1 Hb2]) Hpw Hsl.
  pose proof (slice_inv _ _ _ _ Hsl) as (_ & _ & _ & Hl & _).
  unfold ramDisk_Write. rewrite (partition_found _ _ _ Hp). unfold partition in Hp. rewrite Hp.
  cbn [obind]. rewrite Hsl. cbn [obind]. rewrite <- Hl in *.
  set (h := make_header _ _). assert (Hh : zlen h = RAMNV_SECT_SIZE) by apply zlen_make_header.
  rewrite write_image_none; [|split; [done|lia]|done|done].
  rewrite write_image_none; [|split; [done|cbn [quota written]; lia]|done|done].
  eexists. split; [done|]. split; [split|].
  - eexists. split; [apply lookup_insert_eq|apply make_header_valid].
  - eexists. split; [|apply make_header_valid]. cbn. rewrite lookup_insert_ne by done.
    apply lookup_insert_eq.
  - cbn. repeat split. intros q H1 H2. by rewrite !lookup_insert_ne by done.
Qed.

(** Whatever becomes of a write, it changes no other file. *)
Lemma write_image_frame d path header data ret ret' d' :
  power d = None -> write_image d path header data ret = (ret', d') -> power d' = None /\ frame d d' path.
Proof.
  intros Hp Hw. unfold write_image, open_trunc in Hw. rewrite Hp in Hw.
  destruct (creatable d path); [|by injection Hw as <- <-].
  unfold fd_write in Hw. cbn [power store] in Hw. unfold fsync in Hw. cbn [power store] in Hw.
  injection Hw as <- <-. split; [done|]. split_and!; [done..|]. intros q Hq. unfold possible, sync, store.
  cbn [files unsynced]. by rewrite lookup_delete_ne, !lookup_insert_ne by done.
Qed.

Lemma ramDisk_Write_frame cfg d handle buf size ret d' :
  power d = None -> ramDisk_Write cfg d handle buf size = Done (ret, d') ->
  power d' = None /\ creatable d' = creatable d /\ quota d' = quota d /\
  forall q, (forall c, partition cfg handle c -> q <> image_path c /\ q <> imageBak_path c) -> files d' !! q = files d !! q.
Proof.
  intros Hp Hw. unfold ramDisk_Write in Hw. destruct (_getIdx cfg handle =? -1); [by injection Hw as <- <-|].
  obind_inv Hw. obind_inv Hw. destruct (write_image d _ _ _ _) as [r1 d1] eqn:E1.
  destruct (write_image d1 _ _ _ _) as [r2 d2] eqn:E2. injection Hw as <- <-.
  apply write_image_frame in E1 as (Hp1 & Hc1 & Hq1 & F1); [|done].
  apply write_image_frame in E2 as (Hp2 & Hc2 & Hq2 & F2); [|done].
  split_and!; [done|congruence|congruence|]. intros q Hq. destruct (Hq a E) as [Ho Hb].
  destruct (F1 q Hb) as [_ G1], (F2 q Ho) as [_ G2]. congruence.
Qed.

(** C26. Write/read round trip: after [ramDisk_Write] of the first [size]
    bytes of [buf], [ramDisk_Read] returns 1 with those bytes, for either
    outcome of its random choice, and leaves the bytes of its buffer beyond
    [size] alone. *)
Theorem ramDisk_Write_Read cfg d handle c buf size data rnd buf' :
  partition cfg handle c -> writable d c size -> power d = None ->
  slice buf 0 size = Done data -> size <= zlen buf' ->
  exists d' d'', ramDisk_Write cfg d handle buf size = Done (true, d') /\
    ramDisk_Read cfg rnd d' handle buf' size =
      Done (true, data ++ drop (Z.to_nat size) buf', d'').
Proof.
  intros Hp Hw Hpw Hsl Hb.
  pose proof (slice_inv _ _ _ _ Hsl) as (_ & Hs & _ & Hl & _).
  destruct (ramDisk_Write_effect cfg d handle c buf size data)
    as (d' & HW & ((co & Ho & Hvo) & (cb & Hbk & Hvb)) & _); try done.
  pose (P := fun x : list Z => x = data).
  assert (H1 : holds_good P (zlen data) d' (image_path c)) by (eapply valid_good; done).
  assert (H2 : holds_good P (zlen data) d' (imageBak_path c)) by (eapply valid_good; done).
  rewrite Hl in *.
  destruct (ramDisk_Read_two P cfg rnd d' handle c buf' size) as (x & d'' & HR & -> & _);
    eauto using good_image.
Qed.

(** C37. Tolerance of one damaged image: when one byte of the data of one image
    is changed (in any image, at any offset, to any other value) and the other
    image is good, [ramDisk_Read] still returns the stored data.  The size
    bound is the size of the fixed NV partition. *)
Theorem ramDisk_Read_tolerates_corruption cfg d handle c header data i b b' bad good rnd buf other :
  partition cfg handle c -> zlen data <= 131072 -> Forall byte_ok data ->
  zlen header = RAMNV_SECT_SIZE -> calc_checksum data = u16 (header_checksum header) ->
  data !! i = Some b -> byte_ok b' -> b' <> b ->
  (bad = image_path c /\ good = imageBak_path c \/ bad = imageBak_path c /\ good = image_path c) ->
  files d !! bad = Some (header ++ <[i := b']> data) ->
  files d !! good = Some other -> valid_image data other -> zlen data <= zlen buf ->
  exists d', ramDisk_Read cfg rnd d handle buf (zlen data) =
    Done (true, data ++ drop (length data) buf, d').
Proof.
  intros Hp Hlen Hby Hh Hck Hi Hb' Hne Hpaths Hbad Hgood Hv Hbuf.
  pose (P := fun x : list Z => x = data).
  assert (H1 : holds_image P (zlen data) d bad).
  { unfold holds_image. rewrite Hbad. left. right. exists header, (<[i:=b']> data). split; [done|].
    split; [done|]. split; [unfold zlen; by rewrite length_insert|]. rewrite <- Hck.
    rewrite !calc_checksum_spec by (try apply Forall_insert; done).
    eapply oc_checksum_detects; eauto. }
  assert (H2 : holds_good P (zlen data) d good) by (eapply valid_good; done).
  pose proof (zlen_nonneg data).
  destruct (ramDisk_Read_two P cfg rnd d handle c buf (zlen data)) as (x & d' & HR & -> & _);
    [done|lia|destruct Hpaths as [[-> ->]|[-> ->]]; auto using good_image..|].
  exists d'. rewrite HR. unfold zlen. by rewrite Nat2Z.id.
Qed.

(** Repair: when the image that [ramDisk_Read] tries first is cut short
    or fails its checksum and the other one is good, the first image is
    rewritten as a byte-for-byte copy of the good one. *)
Theorem ramDisk_Read_repairs cfg rnd d handle c first second ct good data buf :
  partition cfg handle c -> power d = None -> image_path c <> imageBak_path c ->
  (first, second) = (if negb (rnd mod 2 =? 0) then (image_path c, imageBak_path c)
                     else (imageBak_path c, image_path c)) ->
  files d !! first = Some ct -> refused (zlen data) ct ->
  files d !! second = Some good -> valid_image data good ->
  can_hold d first (RAMNV_SECT_SIZE + zlen data) -> zlen data <= zlen buf ->
  exists d', ramDisk_Read cfg rnd d handle buf (zlen data) =
      Done (true, data ++ drop (length data) buf, d') /\
    files d' !! first = Some good /\ files d' !! second = Some good.
Proof.
  intros Hp Hpw Hne Hfs Hf Hr Hg Hv Hcan Hb. pose proof (zlen_nonneg data).
  assert (Hns : first <> second) by (destruct (negb _); injection Hfs as -> ->; congruence).
  unfold ramDisk_Read. rewrite (partition_found _ _ _ Hp). unfold partition in Hp. rewrite Hp.
  cbn [obind]. rewrite <- Hfs.
  destruct (read_first_refused d first ct buf (zlen data)) as (b & r & -> & Hl & Hd); [done|done|lia|].
  cbn [obind].
  destruct (read_second_valid d first second data good b r) as (h & -> & Hh & ->); [done|done|lia|].
  eexists. split; [unfold zlen in Hd; rewrite Nat2Z.id in Hd; by rewrite Hd|].
  rewrite rewrite_first_none by (rewrite ?Hh; done). cbn.
  rewrite lookup_insert_eq, lookup_insert_ne by done. done.
Qed.

(** Data loss in [ramDisk_Read]: when the image tried first is complete
    but fails its checksum and the other image does not exist, the count
    [ret2] of the failed first read is compared again, the all-0xFF buffer
    passes the check against the all-zero header, and the function reports
    success with 0xFF data and overwrites the only image by it. *)
Theorem ramDisk_Read_poisons cfg rnd d handle c header data k buf :
  partition cfg handle c -> power d = None -> rnd mod 2 <> 0 ->
  files d !! image_path c = Some (header ++ data) -> zlen header = RAMNV_SECT_SIZE ->
  zlen data = 2 * Z.of_nat k -> (0 < k)%nat -> Z.of_nat k <= 65537 ->
  calc_checksum data <> u16 (header_checksum header) ->
  files d !! imageBak_path c = None ->
  can_hold d (image_path c) (RAMNV_SECT_SIZE + zlen data) -> zlen data <= zlen buf ->
  exists d', ramDisk_Read cfg rnd d handle buf (zlen data) =
      Done (true, replicate (2 * k) 255 ++ drop (2 * k) buf, d') /\
    files d' !! image_path c =
      Some (replicate (Z.to_nat RAMNV_SECT_SIZE) 0 ++ replicate (2 * k) 255).
Proof.
  intros Hp Hpw Hrnd Hf Hh Hd Hk Hk' Hck Hn Hcan Hb.
  unfold ramDisk_Read. rewrite (partition_found _ _ _ Hp). unfold partition in Hp. rewrite Hp.
  cbn [obind]. rewrite (proj2 (Z.eqb_neq _ _) Hrnd). cbn [negb].
  rewrite (read_first_bad d _ header data buf) by done. cbn [obind].
  set (b := data ++ drop (length data) buf).
  assert (Hkl : length data = (2 * k)%nat) by (unfold zlen in Hd; lia).
  assert (Hbl : zlen b = zlen buf).
  { unfold b, zlen in *. rewrite length_app, length_drop. lia. }
  assert (Hbd : drop (2 * k) b = drop (2 * k) buf).
  { unfold b. rewrite Hkl. by rewrite drop_app_length' by done. }
  unfold read_second. rewrite memset_in by lia. cbn [obind]. rewrite Hn. cbn [obind].
  replace (Z.to_nat (zlen data)) with (2 * k)%nat by lia. rewrite Hbd.
  rewrite !Z.eqb_refl. cbn [negb].
  replace (slice _ 0 _) with (Done (replicate (2 * k) 255)).
  2:{ rewrite slice_in, drop_0, take_app_length'; rewrite ?length_replicate; try lia; [done|].
      rewrite zlen_app, zlen_replicate. pose proof (zlen_nonneg (drop (2 * k) buf)). lia. }
  cbn [obind]. unfold _chkNVEcc.
  rewrite calc_checksum_spec by (apply Forall_replicate; unfold byte_ok; lia).
  rewrite oc_checksum_ff by done. change (0 =? u16 _) with true. cbn [negb].
  eexists. split; [done|].
  rewrite rewrite_first_none; [apply lookup_insert_eq| |done|done].
  rewrite !zlen_replicate. destruct Hcan. split; [done|]. unfold RAMNV_SECT_SIZE in *. lia.
Qed.

(** Silent write failure: when neither image can be opened for writing,
    [ramDisk_Write] changes nothing and still returns 1. *)
Theorem ramDisk_Write_reports_unwritten cfg d handle c buf size data :
  partition cfg handle c -> slice buf 0 size = Done data ->
  creatable d (image_path c) = false -> creatable d (imageBak_path c) = false ->
  ramDisk_Write cfg d handle buf size = Done (true, d).
Proof.
  intros Hp Hsl Ho Hb. unfold ramDisk_Write. rewrite (partition_found _ _ _ Hp).
  unfold partition in Hp. rewrite Hp. cbn [obind]. rewrite Hsl. cbn [obind].
  unfold write_image, open_trunc. by rewrite Hb, Ho.
Qed.

(** ** Concrete instances *)

Definition ex_cfg : list RAM_NV_CONFIG := ramDisk_Init "/f1" "/f2" "/r1" "/r2" 4 6 _ramdiskCfg_init.
Definition ex_c : RAM_NV_CONFIG :=
  {| partId := 1; image_path := "/f1"; imageBak_path := "/f2"; image_size := 4 |}.
Definition ex_image (data : list Z) : list Z := make_header (zlen data) (calc_checksum data) ++ data.
Definition ex_disk (ori bak : option (list Z)) : disk :=
  {| files := from_option (fun x => <["/f1" := x]>) id ori
               (from_option (fun x => <["/f2" := x]>) id bak ∅);
     unsynced := ∅; creatable := fun _ => true; quota := fun _ => 4096; power := None |}.
Definition ex_old : list Z := [1; 2; 3; 4].
Definition ex_new : list Z := [9; 8; 7; 6].

Lemma ex_writable ori bak : writable (ex_disk ori bak) ex_c 4.
Proof. repeat split; done. Qed.

(** The origin image is good and the backup cut short. *)
Lemma ex_origin_good : origin_good (ex_disk (Some (ex_image ex_old)) (Some [7])) ex_c ex_old.
Proof.
  split; [eexists; split; [reflexivity|apply make_header_valid]|].
  intros o Ho. apply list_elem_of_singleton in Ho as ->. left. left. done.
Qed.


(** The disk after a power failure at which every file keeps its present content. *)
Definition settle (d : disk) : disk :=
  {| files := files d; unsynced := ∅; creatable := creatable d; quota := quota d; power := None |}.
Lemma settle_crashed d : crashed d (settle d).
Proof. split_and!; try done. intros q. left. Qed.

(** Two failures lose the data: the first cuts the origin image short, the
    restart reads the backup first and does not look at the origin, and the
    second failure cuts the backup short.  The last read reports success with
    0xFF bytes. *)
Example second_crash_loses :
  (let* (_, d1) := ramDisk_Write ex_cfg (power_left (ex_disk (Some (ex_image ex_old)) (Some (ex_image ex_old))) 520) 1 ex_new 4 in
   let* (_, b1, d1) := ramDisk_Read ex_cfg 0 (settle d1) 1 [0; 0; 0; 0] 4 in
   let* (_, d2) := ramDisk_Write ex_cfg (power_left d1 5) 1 ex_old 4 in
   let* (ok, b2, _) := ramDisk_Read ex_cfg 0 (settle d2) 1 [0; 0; 0; 0] 4 in
   Done (b1, ok, b2)) = Done (ex_new, true, [255; 255; 255; 255]).
Proof. by vm_compute. Qed.

Lemma ramDisk_Write_Read_witness :
  exists d' d'', ramDisk_Write ex_cfg (ex_disk None None) 1 ex_new 4 = Done (true, d') /\
    ramDisk_Read ex_cfg 1 d' 1 [0; 0; 0; 0; 5] 4 = Done (true, ex_new ++ drop (Z.to_nat 4) [0; 0; 0; 0; 5], d'').
Proof.
  apply (ramDisk_Write_Read ex_cfg _ 1 ex_c ex_new 4 ex_new 1 [0; 0; 0; 0; 5]);
    [reflexivity|apply ex_writable|reflexivity|reflexivity|vm_compute; discriminate].
Defined.

Lemma ramDisk_Read_tolerates_corruption_witness :
  exists d', ramDisk_Read ex_cfg 1
      (ex_disk (Some (make_header 4 (calc_checksum ex_old) ++ <[2%nat := 77]> ex_old)) (Some (ex_image ex_old)))
      1 [0; 0; 0; 0; 5] (zlen ex_old) = Done (true, ex_old ++ drop (length ex_old) [0; 0; 0; 0; 5], d').
Proof.
  apply (ramDisk_Read_tolerates_corruption ex_cfg _ 1 ex_c (make_header 4 (calc_checksum ex_old))
           ex_old 2 3 77 "/f1" "/f2" 1 [0; 0; 0; 0; 5] (ex_image ex_old));
    try reflexivity; try (vm_compute; discriminate); try (split; vm_compute; congruence).
  - repeat constructor; vm_compute; congruence.
  - left. split; reflexivity.
  - apply make_header_valid.
Defined.

Lemma ramDisk_Read_repairs_witness :
  exists d', ramDisk_Read ex_cfg 1 (ex_disk (Some [1]) (Some (ex_image ex_old)))
      1 [0; 0; 0; 0; 5] (zlen ex_old) = Done (true, ex_old ++ drop (length ex_old) [0; 0; 0; 0; 5], d') /\
    files d' !! "/f1" = Some (ex_image ex_old) /\ files d' !! "/f2" = Some (ex_image ex_old).
Proof.
  apply (ramDisk_Read_repairs ex_cfg 1 _ 1 ex_c "/f1" "/f2" [1] (ex_image ex_old) ex_old [0; 0; 0; 0; 5]);
    [reflexivity|reflexivity|discriminate|reflexivity|reflexivity|left; reflexivity|reflexivity
    |apply make_header_valid|split; [reflexivity|vm_compute; discriminate]|vm_compute; discriminate].
Defined.

Lemma ramDisk_Read_poisons_witness :
  exists d', ramDisk_Read ex_cfg 1
      (ex_disk (Some (make_header 4 7 ++ ex_old)) None) 1 [0; 0; 0; 0; 5] (zlen ex_old)
    = Done (true, replicate (2 * 2) 255 ++ drop (2 * 2) [0; 0; 0; 0; 5], d') /\
    files d' !! image_path ex_c = Some (replicate (Z.to_nat RAMNV_SECT_SIZE) 0 ++ replicate (2 * 2) 255).
Proof.
  apply (ramDisk_Read_poisons ex_cfg 1 _ 1 ex_c (make_header 4 7) ex_old 2 [0; 0; 0; 0; 5]);
    try reflexivity; try (vm_compute; discriminate); try lia.
  split; [reflexivity|vm_compute; discriminate].
Defined.

Lemma ramDisk_Write_reports_unwritten_witness :
  let d := {| files := ∅; unsynced := ∅; creatable := fun _ => false; quota := fun _ => 0; power := None |} in
  ramDisk_Write ex_cfg d 1 ex_new 4 = Done (true, d).
Proof.
  apply (ramDisk_Write_reports_unwritten ex_cfg _ 1 ex_c ex_new 4 ex_new); reflexivity.
Defined.
