(* ===== verification/NvBuf.v ===== *)
(** * apps/nvitem/nvitem_buf.c: the three buffers of a partition

    Every partition has three copies of its image with a table of dirty bits
    each: [fromChannel] receives the data of the modem, [backup] is the last
    complete request, [toDisk] is what is being written.  The module is
    written against the interface [NvStore] of the image store and its laws
    [NvStoreLaws]; nvitem_fs.c implements them ([fs_store_laws] at the end).

    [malloc] returns bytes of no particular value: the section variable
    [garbage].  [getMutex]/[putMutex] bracket one atomic definition each; the
    interleaving of the two threads is in NvThreads. *)

From S2P Require Import Prelude OnesComplement NvFs.

(** ** The store the buffers are written to *)

Class NvStore (St : Type) := {
  st_read : Z -> St -> Z -> list Z -> Z -> outcome (bool * list Z * St);
  st_write : St -> Z -> list Z -> Z -> outcome (bool * St)
}.

(** What nvitem_buf.c relies on: on a working medium a write succeeds and its
    data is what is read back; a write, successful or not, leaves the other
    partitions as they were. *)
Class NvStoreLaws (St : Type) `{NvStore St} := {
  st_ok : St -> Z -> Z -> Prop;
  st_holds : St -> Z -> list Z -> Prop;
  st_write_spec : forall s h buf size data,
    st_ok s h size -> slice buf 0 size = Done data ->
    exists s', st_write s h buf size = Done (true, s') /\ st_holds s' h data /\
      (forall h' n, st_ok s h' n -> st_ok s' h' n) /\
      (forall h' n x, h' <> h -> st_ok s h' n -> st_holds s h' x -> st_holds s' h' x);
  st_read_spec : forall rnd s h buf size data,
    st_ok s h size -> st_holds s h data -> zlen data = size -> size <= zlen buf ->
    exists s', st_read rnd s h buf size = Done (true, data ++ drop (Z.to_nat size) buf, s');
  st_write_returns : forall s h buf size, st_write s h buf size <> Fuel;
  st_write_others : forall s h buf size ok s' h' n, st_write s h buf size = Done (ok, s') ->
    h' <> h -> st_ok s h' n -> st_ok s' h' n /\ forall x, st_holds s h' x -> st_holds s' h' x
}.

(** ** Data *)
Definition RAMNV_DIRTYTABLE_MAXSIZE : Z := 32.
Definition _U32MASK : Z := u32 (-1).

Record _RAMNV_BUF_CTRL := {
  diskbuf : list Z;
  dirty : list Z
}.

Record _RAMNV_PART_CTRL := {
  pt_partId : Z;
  sctNum : Z;
  fromChannel : _RAMNV_BUF_CTRL;
  backup : _RAMNV_BUF_CTRL;
  toDisk : _RAMNV_BUF_CTRL;
  fdhandle : Z
}.

Record _RAMNV_CTL := {
  partNum : Z;
  part : list _RAMNV_PART_CTRL
}.

Definition with_bufs (p : _RAMNV_PART_CTRL) (f b t : _RAMNV_BUF_CTRL) : _RAMNV_PART_CTRL :=
  {| pt_partId := pt_partId p; sctNum := sctNum p; fromChannel := f; backup := b; toDisk := t;
     fdhandle := fdhandle p |}.

Definition set_part (c : _RAMNV_CTL) (id : Z) (p : _RAMNV_PART_CTRL) : outcome _RAMNV_CTL :=
  let* l := wr (part c) id p in Done {| partNum := partNum c; part := l |}.

(** [RAMNV_SECT_SIZE * sctNum], a 32-bit product. *)
Definition part_bytes (p : _RAMNV_PART_CTRL) : Z := u32 (RAMNV_SECT_SIZE * sctNum p).

(** ** Operations *)
Section Ops.
Context {St : Type} `{NvStore St}.
Variable garbage : nat -> Z.

Definition malloc (n : Z) : list Z := map garbage (seq 0 (Z.to_nat n)).

Definition clean_table : list Z := replicate (Z.to_nat RAMNV_DIRTYTABLE_MAXSIZE) 0.

(** The two nested loops that clear the control block. *)
Definition clear_part (p : _RAMNV_PART_CTRL) : _RAMNV_PART_CTRL :=
  {| pt_partId := pt_partId p; sctNum := 0;
     fromChannel := {| diskbuf := diskbuf (fromChannel p); dirty := clean_table |};
     backup := {| diskbuf := diskbuf (backup p); dirty := clean_table |};
     toDisk := {| diskbuf := diskbuf (toDisk p); dirty := clean_table |};
     fdhandle := fdhandle p |}.

(** [while (config->partId)]; [rnds] are the values of [rand()], one per
    image read. *)
Fixpoint initBuf_loop (config : list RAM_NV_CONFIG) (i : Z) (c : _RAMNV_CTL)
    (st : St) (rnds : list Z) : outcome (_RAMNV_CTL * St) :=
  match config with
  | [] => Undef
  | cf :: config' =>
      if partId cf =? 0 then Done (c, st)
      else
        let* p := rd (part c) i in
        let fd := ramDisk_Open (partId cf) in
        if fd =? 0 then
          let* c := set_part c i {| pt_partId := pt_partId p; sctNum := sctNum p;
            fromChannel := fromChannel p; backup := backup p; toDisk := toDisk p; fdhandle := fd |} in
          initBuf_loop config' i c st rnds
        else
          let n := u32 (image_size cf + 4) in
          let* from := memset (malloc n) 0 (image_size cf) in
          let* (ok, from, st) := st_read (hd 0 rnds) st fd from (image_size cf) in
          if negb ok then
            let freed b := {| diskbuf := []; dirty := dirty b |} in
            let* c := set_part c i {| pt_partId := partId cf;
              sctNum := image_size cf / RAMNV_SECT_SIZE; fromChannel := freed (fromChannel p);
              backup := freed (backup p); toDisk := freed (toDisk p); fdhandle := fd |} in
            initBuf_loop config' i c st (tl rnds)
          else
            let filled b := {| diskbuf := from; dirty := dirty b |} in
            let* c := set_part c i {| pt_partId := partId cf;
              sctNum := image_size cf / RAMNV_SECT_SIZE; fromChannel := filled (fromChannel p);
              backup := filled (backup p); toDisk := filled (toDisk p); fdhandle := fd |} in
            initBuf_loop config' (i + 1) {| partNum := u32 (partNum c + 1); part := part c |}
              st (tl rnds)
  end.

Definition initBuf (c : _RAMNV_CTL) (config : list RAM_NV_CONFIG) (st : St) (rnds : list Z)
  : outcome (_RAMNV_CTL * St) :=
  initBuf_loop config 0 {| partNum := 0; part := map clear_part (part c) |} st rnds.

(** Close the partitions and free their buffers. *)
Definition uninitBuf (c : _RAMNV_CTL) : outcome _RAMNV_CTL :=
  if partNum c <=? zlen (part c) then
    let k := Z.to_nat (partNum c) in
    let closed p := {| pt_partId := pt_partId p; sctNum := 0;
      fromChannel := {| diskbuf := []; dirty := dirty (fromChannel p) |};
      backup := {| diskbuf := []; dirty := dirty (backup p) |};
      toDisk := {| diskbuf := []; dirty := dirty (toDisk p) |}; fdhandle := fdhandle p |} in
    Done {| partNum := 0; part := map closed (take k (part c)) ++ drop k (part c) |}
  else Undef.

(** [(uint32)-1] when there is no such partition. *)
Fixpoint getCtlId_from (ps : list _RAMNV_PART_CTRL) (n : nat) (i id : Z) : outcome Z :=
  match n, ps with
  | O, _ => Done _U32MASK
  | S n', p :: ps' => if id =? pt_partId p then Done i else getCtlId_from ps' n' (i + 1) id
  | S _, [] => Undef
  end.

Definition getCtlId (c : _RAMNV_CTL) (id : Z) : outcome Z :=
  getCtlId_from (part c) (Z.to_nat (partNum c)) 0 id.

(** [table[i] |= m]. *)
Definition or_word (table : list Z) (i m : Z) : outcome (list Z) :=
  let* w := rd table i in wr table i (Z.lor w m).

(** The loop of [_markDirtyInfo]: a shift by the width of the type is
    undefined, and so is a word outside the table.  The index grows with every
    round, so one round more than the table has words is enough. *)
Fixpoint mark_loop (fuel : nat) (table : list Z) (_bytes _bits scts : Z) : outcome (list Z) :=
  match fuel with
  | O => Fuel
  | S fuel =>
      if 32 - _bits <? scts then
        let* table := or_word table _bytes (u32 (Z.shiftl _U32MASK _bits)) in
        mark_loop fuel table (u32 (_bytes + 1)) 0 (u32 (scts - (32 - _bits)))
      else if 32 <=? 32 - scts then Undef
      else or_word table _bytes (u32 (Z.shiftl (Z.shiftr _U32MASK (32 - scts)) _bits))
  end.

Definition mark_table (table : list Z) (start scts : Z) : outcome (list Z) :=
  let _bytes := Z.shiftr start 5 in
  let _bits := u32 (start - u32 (Z.shiftl _bytes 5)) in
  mark_loop (S (Z.to_nat RAMNV_DIRTYTABLE_MAXSIZE)) table _bytes _bits scts.

Definition _markDirtyInfo (c : _RAMNV_CTL) (id start scts : Z) : outcome _RAMNV_CTL :=
  let* p := rd (part c) id in
  let* t := mark_table (dirty (fromChannel p)) start scts in
  set_part c id (with_bufs p {| diskbuf := diskbuf (fromChannel p); dirty := t |} (backup p) (toDisk p)).

Definition __ifHasDirty (p : _RAMNV_PART_CTRL) : bool :=
  existsb (fun w => negb (w =? 0)) (dirty (backup p)).

(** [buf] is what the pointer addresses, [bytesLen] bytes of it are copied. *)
Definition writeData (c : _RAMNV_CTL) (id start bytesLen : Z) (buf : list Z) : outcome _RAMNV_CTL :=
  if bytesLen =? 0 then Done c
  else
    let* p := rd (part c) id in
    let* data := slice buf 0 bytesLen in
    let* d := splice (diskbuf (fromChannel p)) start data in
    set_part c id (with_bufs p {| diskbuf := d; dirty := dirty (fromChannel p) |} (backup p) (toDisk p)).

(** [memcpy(dst, src, n)] between two whole buffers. *)
Definition copy_buf (dst src : list Z) (n : Z) : outcome (list Z) :=
  let* s := slice src 0 n in splice dst 0 s.

(** The critical section of [backupData]. *)
Definition backup_part (p : _RAMNV_PART_CTRL) : outcome _RAMNV_PART_CTRL :=
  let* d := copy_buf (diskbuf (backup p)) (diskbuf (fromChannel p)) (part_bytes p) in
  Done (with_bufs p (fromChannel p)
          {| diskbuf := d; dirty := zip_with Z.lor (dirty (backup p)) (dirty (fromChannel p)) |}
          (toDisk p)).

Definition restore_part (p : _RAMNV_PART_CTRL) : outcome _RAMNV_PART_CTRL :=
  let* d := copy_buf (diskbuf (fromChannel p)) (diskbuf (backup p)) (part_bytes p) in
  let* t := copy_buf (dirty (fromChannel p)) (dirty (backup p)) RAMNV_DIRTYTABLE_MAXSIZE in
  Done (with_bufs p {| diskbuf := d; dirty := t |} (backup p) (toDisk p)).

Definition getData_part (p : _RAMNV_PART_CTRL) : outcome _RAMNV_PART_CTRL :=
  let* d := copy_buf (diskbuf (toDisk p)) (diskbuf (backup p)) (part_bytes p) in
  Done (with_bufs p (fromChannel p)
          {| diskbuf := diskbuf (backup p); dirty := map (fun _ => 0) (dirty (backup p)) |}
          {| diskbuf := d; dirty := zip_with Z.lor (dirty (toDisk p)) (dirty (backup p)) |}).

Definition on_part (c : _RAMNV_CTL) (id : Z)
    (f : _RAMNV_PART_CTRL -> outcome _RAMNV_PART_CTRL) : outcome _RAMNV_CTL :=
  let* p := rd (part c) id in let* p := f p in set_part c id p.

Definition restoreData (c : _RAMNV_CTL) (id : Z) : outcome _RAMNV_CTL := on_part c id restore_part.
Definition __getData (c : _RAMNV_CTL) (id : Z) : outcome _RAMNV_CTL := on_part c id getData_part.

Definition clean_toDisk (p : _RAMNV_PART_CTRL) : _RAMNV_PART_CTRL :=
  with_bufs p (fromChannel p) (backup p)
    {| diskbuf := diskbuf (toDisk p); dirty := map (fun _ => 0) (dirty (toDisk p)) |}.

(** The write of one partition after [__getData]. *)
Definition flush_part (c : _RAMNV_CTL) (st : St) (id : Z) : outcome (_RAMNV_CTL * St) :=
  let* p := rd (part c) id in
  let* (ok, st) := st_write st (fdhandle p) (diskbuf (toDisk p)) (part_bytes p) in
  if ok then let* c := set_part c id (clean_toDisk p) in Done (c, st) else Done (c, st).

(** One round of the loop of [saveToDisk]. *)
Definition save_one (c : _RAMNV_CTL) (st : St) (id : Z) : outcome (_RAMNV_CTL * St) :=
  let* p := rd (part c) id in
  if __ifHasDirty p then
    let* c := __getData c id in flush_part c st id
  else Done (c, st).

Fixpoint save_from (n : nat) (id : Z) (c : _RAMNV_CTL) (st : St) : outcome (_RAMNV_CTL * St) :=
  match n with
  | O => Done (c, st)
  | S n' => let* (c, st) := save_one c st id in save_from n' (id + 1) c st
  end.

Definition saveToDisk (c : _RAMNV_CTL) (st : St) : outcome (_RAMNV_CTL * St) :=
  save_from (Z.to_nat (partNum c)) 0 c st.

(** The result, whether [giveEvent] was called, and the new state. *)
Definition backupData (is_cali_mode : bool) (c : _RAMNV_CTL) (st : St) (id : Z)
  : outcome (bool * bool * _RAMNV_CTL * St) :=
  let* c := on_part c id backup_part in
  if is_cali_mode then
    let* (c, st) := saveToDisk c st in Done (true, false, c, st)
  else Done (true, true, c, st).
End Ops.

(** ** Dirty bits *)

(** Sector [k] is marked in the table. *)
Definition dirty_bit (table : list Z) (k : Z) : bool :=
  Z.testbit (default 0 (table !! Z.to_nat (k / 32))) (k mod 32).

Definition in_range (start scts k : Z) : bool := (start <=? k) && (k <? start + scts).

Lemma or_word_in table i m :
  0 <= i < zlen table ->
  exists w, table !! Z.to_nat i = Some w /\
    or_word table i m = Done (<[Z.to_nat i := Z.lor w m]> table).
Proof.
  intros Hi. destruct (rd_lt table i Hi) as (w & Hr & Hl). exists w. split; [done|].
  unfold or_word. rewrite Hr. cbn [obind]. by apply wr_in.
Qed.

Lemma or_word_oob table i m : zlen table <= i -> or_word table i m = Undef.
Proof. intros. unfold or_word. by rewrite rd_oob by lia. Qed.

Lemma dirty_bit_or table i w m k :
  table !! Z.to_nat i = Some w -> 0 <= i -> 0 <= k ->
  dirty_bit (<[Z.to_nat i := Z.lor w m]> table) k =
    dirty_bit table k || ((k / 32 =? i) && Z.testbit m (k mod 32)).
Proof.
  intros Hw Hi Hk. unfold dirty_bit. apply lookup_lt_Some in Hw as Hlt.
  assert (0 <= k / 32) by (apply Z.div_pos; lia).
  destruct (Z.eqb_spec (k / 32) i) as [->|Hne].
  - rewrite list_lookup_insert_eq by done. rewrite Hw. cbn. apply Z.lor_spec.
  - rewrite list_lookup_insert_ne by lia. cbn. by rewrite orb_false_r.
Qed.

(** The two masks of the loop. *)
Lemma mask_high bits j :
  0 <= bits < 32 -> 0 <= j < 32 -> Z.testbit (u32 (Z.shiftl _U32MASK bits)) j = (bits <=? j).
Proof.
  intros Hb Hj. unfold u32. rewrite testbit_wrap by lia. guard_true (j <? 32). cbn [andb].
  rewrite Z.shiftl_spec by lia. change _U32MASK with (Z.ones 32).
  destruct (Z.leb_spec bits j).
  - by rewrite Z.ones_spec_low by lia.
  - by rewrite Z.testbit_neg_r by lia.
Qed.

Lemma mask_mid bits scts j :
  0 <= bits < 32 -> 1 <= scts <= 32 - bits -> 0 <= j < 32 ->
  Z.testbit (u32 (Z.shiftl (Z.shiftr _U32MASK (32 - scts)) bits)) j = in_range bits scts j.
Proof.
  intros Hb Hs Hj. unfold u32. rewrite testbit_wrap by lia. guard_true (j <? 32). cbn [andb].
  rewrite Z.shiftl_spec by lia. change _U32MASK with (Z.ones 32). unfold in_range.
  destruct (Z.leb_spec bits j); [|by rewrite Z.testbit_neg_r by lia].
  rewrite Z.shiftr_spec by lia. cbn [andb]. destruct (Z.ltb_spec j (bits + scts)).
  - by rewrite Z.ones_spec_low by lia.
  - by rewrite Z.ones_spec_high by lia.
Qed.

Lemma mark_loop_spec fuel table bytes bits scts :
  zlen table = 32 -> 0 <= bytes -> 0 <= bits < 32 -> 1 <= scts ->
  32 * bytes + bits + scts <= 1024 -> 32 - bytes < Z.of_nat fuel ->
  exists t, mark_loop fuel table bytes bits scts = Done t /\ zlen t = 32 /\
    forall k, 0 <= k < 1024 ->
      dirty_bit t k = dirty_bit table k || in_range (32 * bytes + bits) scts k.
Proof.
  revert table bytes bits scts.
  induction fuel as [|fuel IH]; intros table bytes bits scts Hl Hby Hbi Hs Hr Hf; [lia|].
  cbn [mark_loop]. cif.
  - destruct (or_word_in table bytes (u32 (Z.shiftl _U32MASK bits))) as (w & Hw & ->); [lia|].
    cbn [obind]. rewrite (u32_small (bytes + 1)), (u32_small (scts - _)) by (unfold u32_ok; lia).
    edestruct (IH (<[Z.to_nat bytes := Z.lor w (u32 (Z.shiftl _U32MASK bits))]> table)
                  (bytes + 1) 0 (scts - (32 - bits))) as (t & -> & Hlt & Ht);
      [unfold zlen in *; rewrite length_insert; lia|lia..|].
    exists t. split; [done|split; [done|]]. intros k Hk. rewrite Ht by done.
    rewrite dirty_bit_or by (done || lia). rewrite mask_high by (Z.div_mod_to_equations; lia).
    rewrite <- orb_assoc. f_equal. unfold in_range.
    apply eq_true_iff_eq. rewrite !orb_true_iff, !andb_true_iff, !Z.leb_le, !Z.ltb_lt, Z.eqb_eq.
    Z.div_mod_to_equations. lia.
  - cif; [lia|].
    destruct (or_word_in table bytes (u32 (Z.shiftl (Z.shiftr _U32MASK (32 - scts)) bits)))
      as (w & Hw & ->); [lia|].
    eexists. split; [done|]. split; [unfold zlen in *; rewrite length_insert; lia|].
    intros k Hk. rewrite dirty_bit_or by (done || lia).
    rewrite mask_mid by (try (Z.div_mod_to_equations; lia); lia). f_equal. unfold in_range.
    apply eq_true_iff_eq. rewrite !andb_true_iff, !Z.leb_le, !Z.ltb_lt, Z.eqb_eq.
    Z.div_mod_to_equations. lia.
Qed.

Lemma mark_loop_undef fuel table bytes bits scts :
  zlen table = 32 -> 0 <= bytes -> bytes + Z.of_nat fuel < 2 ^ 32 -> 0 <= bits < 32 ->
  u32_ok scts -> scts = 0 \/ 1024 < 32 * bytes + bits + scts -> 32 - bytes < Z.of_nat fuel ->
  (0 < fuel)%nat -> mark_loop fuel table bytes bits scts = Undef.
Proof.
  revert table bytes bits scts.
  induction fuel as [|fuel IH]; intros table bytes bits scts Hl Hby Hbf Hbi Hs Hr Hf H0; [lia|].
  unfold u32_ok in Hs. cbn [mark_loop]. cif.
  - destruct (Z.lt_ge_cases bytes 32).
    + destruct (or_word_in table bytes (u32 (Z.shiftl _U32MASK bits))) as (w & Hw & ->); [lia|].
      cbn [obind]. rewrite !(u32_small (bytes + 1)), !(u32_small (scts - _)) by (unfold u32_ok; lia).
      apply IH; unfold u32_ok; try lia. unfold zlen in *. rewrite length_insert. lia.
    + by rewrite or_word_oob by lia.
  - cif; [done|]. apply or_word_oob. lia.
Qed.

Lemma mark_table_start start :
  u32_ok start -> u32 (start - u32 (Z.shiftl (Z.shiftr start 5) 5)) = start mod 32 /\
                  Z.shiftr start 5 = start / 32.
Proof.
  unfold u32_ok. intros H. rewrite Z.shiftr_div_pow2, Z.shiftl_mul_pow2 by lia.
  change (2 ^ 5) with 32. split; [|done].
  rewrite (u32_small (_ * _)) by (unfold u32_ok; Z.div_mod_to_equations; lia).
  rewrite u32_small by (unfold u32_ok; Z.div_mod_to_equations; lia).
  Z.div_mod_to_equations. lia.
Qed.

Lemma mark_table_spec table start scts :
  zlen table = 32 -> u32_ok start -> u32_ok scts ->
  (1 <= scts /\ start + scts <= 1024 ->
     exists t, mark_table table start scts = Done t /\ zlen t = 32 /\
       forall k, 0 <= k < 1024 -> dirty_bit t k = dirty_bit table k || in_range start scts k) /\
  (scts = 0 \/ 1024 < start + scts -> mark_table table start scts = Undef).
Proof.
  intros Hl Hst Hsc. unfold mark_table. destruct (mark_table_start start Hst) as [-> ->].
  unfold u32_ok, RAMNV_DIRTYTABLE_MAXSIZE in *. split; intros Hr.
  - edestruct (mark_loop_spec (S (Z.to_nat 32)) table (start / 32) (start mod 32) scts)
      as (t & -> & Hlt & Ht); try lia; try (Z.div_mod_to_equations; lia).
    exists t. split; [done|split; [done|]]. intros k Hk. rewrite Ht by done.
    by rewrite <- Z.div_mod by lia.
  - apply mark_loop_undef; unfold u32_ok; try lia; Z.div_mod_to_equations; lia.
Qed.

(** [_markDirtyInfo] marks exactly the requested sectors: for a 32-word
    table and 32-bit arguments it is defined if and only if the range is
    non-empty and inside the 1024 sectors of the table, and then sector [k] is
    marked afterwards exactly when it was before or lies in
    [start, start + scts). *)
Theorem markDirtyInfo_exact table start scts :
  zlen table = 32 -> u32_ok start -> u32_ok scts ->
  (1 <= scts /\ start + scts <= 1024 ->
     exists t, mark_table table start scts = Done t /\ zlen t = 32 /\
       forall k, 0 <= k < 1024 -> dirty_bit t k = dirty_bit table k || in_range start scts k) /\
  (scts = 0 \/ 1024 < start + scts -> mark_table table start scts = Undef).
Proof. apply mark_table_spec. Qed.

Lemma markDirtyInfo_exact_witness :
  exists t, mark_table (replicate 32 0) 30 5 = Done t /\ zlen t = 32 /\
    forall k, 0 <= k < 1024 -> dirty_bit t k = dirty_bit (replicate 32 0) k || in_range 30 5 k.
Proof.
  apply (markDirtyInfo_exact (replicate 32 0) 30 5); [reflexivity|split; lia|split; lia|lia].
Defined.

(** ** Well-formed control blocks *)

Record part_wf (p : _RAMNV_PART_CTRL) : Prop := {
  wf_sct : 0 <= sctNum p;
  wf_u32 : RAMNV_SECT_SIZE * sctNum p < 2 ^ 32;
  wf_from : RAMNV_SECT_SIZE * sctNum p <= zlen (diskbuf (fromChannel p));
  wf_backup : RAMNV_SECT_SIZE * sctNum p <= zlen (diskbuf (backup p));
  wf_toDisk : RAMNV_SECT_SIZE * sctNum p <= zlen (diskbuf (toDisk p));
  wf_dfrom : zlen (dirty (fromChannel p)) = 32;
  wf_dbackup : zlen (dirty (backup p)) = 32;
  wf_dtoDisk : zlen (dirty (toDisk p)) = 32
}.

Record ctl_wf (c : _RAMNV_CTL) : Prop := {
  wf_num : 0 <= partNum c <= RAMNV_NUM;
  wf_len : zlen (part c) = RAMNV_NUM;
  wf_parts : forall i p, (i < Z.to_nat (partNum c))%nat -> part c !! i = Some p -> part_wf p;
  wf_handles : forall i j p q, (i < Z.to_nat (partNum c))%nat -> (j < Z.to_nat (partNum c))%nat ->
    part c !! i = Some p -> part c !! j = Some q -> fdhandle p = fdhandle q -> i = j
}.

(** The sectors of an image: its first [512 * sctNum] bytes. *)
Definition image (p : _RAMNV_PART_CTRL) (b : _RAMNV_BUF_CTRL) : list Z :=
  take (Z.to_nat (part_bytes p)) (diskbuf b).

Lemma part_bytes_wf p : part_wf p -> part_bytes p = RAMNV_SECT_SIZE * sctNum p.
Proof. intros []. apply u32_small. unfold u32_ok, RAMNV_SECT_SIZE in *. lia. Qed.

Lemma part_bytes_nonneg p : 0 <= part_bytes p.
Proof. apply u32_range. Qed.

Lemma copy_buf_eq dst src n :
  0 <= n <= zlen src -> n <= zlen dst ->
  copy_buf dst src n = Done (take (Z.to_nat n) src ++ drop (Z.to_nat n) dst).
Proof.
  intros Hs Hd. unfold copy_buf. rewrite slice_in by lia. cbn [obind].
  change (Z.to_nat 0) with 0%nat. rewrite drop_0, splice_in by (rewrite ?zlen_take; lia).
  change (Z.to_nat 0) with 0%nat. rewrite take_0, app_nil_l. do 3 f_equal.
  rewrite length_take. unfold zlen in *. lia.
Qed.

Lemma copy_image (dst src : list Z) n :
  0 <= n <= zlen src ->
  take (Z.to_nat n) (take (Z.to_nat n) src ++ drop (Z.to_nat n) dst) = take (Z.to_nat n) src.
Proof. intros H. apply take_app_length'. rewrite length_take. unfold zlen in H. lia. Qed.

Lemma zlen_copy (dst src : list Z) n :
  0 <= n <= zlen src -> n <= zlen dst ->
  zlen (take (Z.to_nat n) src ++ drop (Z.to_nat n) dst) = zlen dst.
Proof. intros. unfold zlen in *. rewrite length_app, length_take, length_drop. lia. Qed.

Lemma zlen_zip_lor (l k : list Z) : zlen l = zlen k -> zlen (zip_with Z.lor l k) = zlen l.
Proof. unfold zlen. intros. rewrite length_zip_with. lia. Qed.

Lemma zlen_map {A B} (f : A -> B) l : zlen (map f l) = zlen l.
Proof. unfold zlen. by rewrite length_map. Qed.

Lemma existsb_cleaned {A} (l : list A) :
  existsb (fun w => negb (w =? 0)) (map (fun _ => 0) l) = false.
Proof. by induction l. Qed.

(** The three copies on a well-formed partition. *)
Lemma backup_part_eq p :
  part_wf p -> exists p', backup_part p = Done p' /\ part_wf p' /\
    fromChannel p' = fromChannel p /\ toDisk p' = toDisk p /\ fdhandle p' = fdhandle p /\
    sctNum p' = sctNum p /\ pt_partId p' = pt_partId p /\
    image p' (backup p') = image p (fromChannel p) /\
    dirty (backup p') = zip_with Z.lor (dirty (backup p)) (dirty (fromChannel p)).
Proof.
  intros W. pose proof (part_bytes_wf p W) as Hb. destruct W.
  unfold backup_part. rewrite copy_buf_eq by (unfold RAMNV_SECT_SIZE in *; lia).
  cbn [obind]. eexists. split; [done|]. unfold image, with_bufs; cbn.
  split; [|repeat split; try done].
  - constructor; cbn; try done.
    + rewrite zlen_copy; unfold RAMNV_SECT_SIZE in *; lia.
    + rewrite zlen_zip_lor; lia.
  - change (part_bytes _) with (part_bytes p). apply copy_image. unfold RAMNV_SECT_SIZE in *. lia.
Qed.

Lemma restore_part_eq p :
  part_wf p -> exists p', restore_part p = Done p' /\ part_wf p' /\
    backup p' = backup p /\ toDisk p' = toDisk p /\ fdhandle p' = fdhandle p /\
    sctNum p' = sctNum p /\ pt_partId p' = pt_partId p /\
    image p' (fromChannel p') = image p (backup p) /\
    zlen (diskbuf (fromChannel p')) = zlen (diskbuf (fromChannel p)) /\
    dirty (fromChannel p') = dirty (backup p).
Proof.
  intros W. pose proof (part_bytes_wf p W) as Hb. destruct W.
  unfold restore_part. rewrite copy_buf_eq by (unfold RAMNV_SECT_SIZE in *; lia).
  cbn [obind]. rewrite copy_buf_eq by (unfold RAMNV_DIRTYTABLE_MAXSIZE; lia). cbn [obind].
  assert (Hd : take (Z.to_nat RAMNV_DIRTYTABLE_MAXSIZE) (dirty (backup p)) ++
               drop (Z.to_nat RAMNV_DIRTYTABLE_MAXSIZE) (dirty (fromChannel p)) = dirty (backup p)).
  { unfold RAMNV_DIRTYTABLE_MAXSIZE, zlen in *. rewrite take_ge, drop_ge by lia. apply app_nil_r. }
  eexists. split; [done|]. unfold image, with_bufs; cbn. rewrite Hd.
  assert (Hz : zlen (take (Z.to_nat (part_bytes p)) (diskbuf (backup p)) ++
                drop (Z.to_nat (part_bytes p)) (diskbuf (fromChannel p))) = zlen (diskbuf (fromChannel p)))
    by (apply zlen_copy; unfold RAMNV_SECT_SIZE in *; lia).
  split; [|repeat split; try done].
  - constructor; cbn; try done. by rewrite Hz.
  - change (part_bytes _) with (part_bytes p). apply copy_image. unfold RAMNV_SECT_SIZE in *. lia.
Qed.

Lemma getData_part_eq p :
  part_wf p -> exists p', getData_part p = Done p' /\ part_wf p' /\
    fromChannel p' = fromChannel p /\ diskbuf (backup p') = diskbuf (backup p) /\
    fdhandle p' = fdhandle p /\ sctNum p' = sctNum p /\ pt_partId p' = pt_partId p /\
    image p' (toDisk p') = image p (backup p) /\ __ifHasDirty p' = false /\
    dirty (toDisk p') = zip_with Z.lor (dirty (toDisk p)) (dirty (backup p)).
Proof.
  intros W. pose proof (part_bytes_wf p W) as Hb. destruct W.
  unfold getData_part. rewrite copy_buf_eq by (unfold RAMNV_SECT_SIZE in *; lia).
  cbn [obind]. eexists. split; [done|]. unfold image, with_bufs, __ifHasDirty; cbn.
  split; [|repeat split; try done].
  - constructor; cbn; try done.
    + rewrite zlen_copy; unfold RAMNV_SECT_SIZE in *; lia.
    + by rewrite zlen_map.
    + rewrite zlen_zip_lor; lia.
  - change (part_bytes _) with (part_bytes p). apply copy_image. unfold RAMNV_SECT_SIZE in *. lia.
  - apply existsb_cleaned.
Qed.

(** Updating one entry of the control block. *)
Lemma set_part_in c i p :
  (i < Z.to_nat (partNum c))%nat -> ctl_wf c ->
  set_part c (Z.of_nat i) p = Done {| partNum := partNum c; part := <[i := p]> (part c) |}.
Proof.
  intros Hi []. unfold set_part. rewrite wr_in by lia. cbn [obind]. by rewrite Nat2Z.id.
Qed.

Lemma rd_part c i p : part c !! i = Some p -> rd (part c) (Z.of_nat i) = Done p.
Proof. intros H. apply rd_Some; [lia|]. by rewrite Nat2Z.id. Qed.

Lemma ctl_wf_insert c i p p' :
  ctl_wf c -> (i < Z.to_nat (partNum c))%nat -> part c !! i = Some p ->
  part_wf p' -> fdhandle p' = fdhandle p ->
  ctl_wf {| partNum := partNum c; part := <[i := p']> (part c) |}.
Proof.
  intros [Hn Hl Hp Hh] Hi Hpi W Hfd. constructor; cbn.
  - done.
  - unfold zlen in *. by rewrite length_insert.
  - intros j q Hj. rewrite list_lookup_insert_Some. intros [(-> & <- & _)|(? & ?)]; eauto.
  - intros j k q r Hj Hk Hq Hr Hqr.
    rewrite list_lookup_insert_Some in Hq. rewrite list_lookup_insert_Some in Hr.
    destruct Hq as [(-> & <- & _)|(? & Hq)], Hr as [(-> & <- & _)|(? & Hr)]; try done.
    + rewrite Hfd in Hqr. by eapply Hh.
    + rewrite Hfd in Hqr. by eapply Hh.
    + by eapply Hh.
Qed.

#[export] Hint Resolve part_bytes_nonneg : cbounds.

(** ** Saving *)
Section Saving.
Context {St : Type} `{NvStoreLaws St}.

(** Every partition of the control block can be written. *)
Definition all_writable (c : _RAMNV_CTL) (st : St) : Prop :=
  forall i p, (i < Z.to_nat (partNum c))%nat -> part c !! i = Some p ->
    st_ok st (fdhandle p) (part_bytes p).

(** What saving does to one partition: its image is on the store when its
    backup was dirty, and nothing changes when it was clean. *)
Definition saved (st st' : St) (p p' : _RAMNV_PART_CTRL) : Prop :=
  fromChannel p' = fromChannel p /\ diskbuf (backup p') = diskbuf (backup p) /\
  fdhandle p' = fdhandle p /\ sctNum p' = sctNum p /\ pt_partId p' = pt_partId p /\
  __ifHasDirty p' = false /\
  (__ifHasDirty p = true -> st_holds st' (fdhandle p) (image p (backup p))) /\
  (__ifHasDirty p = false -> p' = p /\
     forall x, st_holds st (fdhandle p) x -> st_holds st' (fdhandle p) x).

Lemma flush_part_eq c st i p :
  ctl_wf c -> (i < Z.to_nat (partNum c))%nat -> part c !! i = Some p ->
  st_ok st (fdhandle p) (part_bytes p) ->
  exists st', flush_part c st (Z.of_nat i) =
      Done ({| partNum := partNum c; part := <[i := clean_toDisk p]> (part c) |}, st') /\
    st_holds st' (fdhandle p) (image p (toDisk p)) /\
    (forall h n, st_ok st h n -> st_ok st' h n) /\
    (forall h n x, h <> fdhandle p -> st_ok st h n -> st_holds st h x -> st_holds st' h x).
Proof.
  intros W Hi Hp Hok. pose proof (wf_parts c W i p Hi Hp) as Wp.
  pose proof (part_bytes_wf p Wp) as Hb. destruct Wp.
  unfold flush_part. rewrite (rd_part c i p Hp). cbn [obind].
  destruct (st_write_spec st (fdhandle p) (diskbuf (toDisk p)) (part_bytes p)
              (image p (toDisk p)) Hok) as (st' & -> & Hh & Hk & Ho).
  { rewrite slice_in by (unfold RAMNV_SECT_SIZE in *; lia).
    change (Z.to_nat 0) with 0%nat. by rewrite drop_0. }
  cbn [obind]. rewrite set_part_in by done. cbn [obind]. eauto 10.
Qed.

Lemma save_one_eq c st i p :
  ctl_wf c -> (i < Z.to_nat (partNum c))%nat -> part c !! i = Some p -> all_writable c st ->
  exists p' st', save_one c st (Z.of_nat i) =
      Done ({| partNum := partNum c; part := <[i := p']> (part c) |}, st') /\
    part_wf p' /\ saved st st' p p' /\
    (forall h n, st_ok st h n -> st_ok st' h n) /\
    (forall h n x, h <> fdhandle p -> st_ok st h n -> st_holds st h x -> st_holds st' h x).
Proof.
  intros W Hi Hp Hall. pose proof (wf_parts c W i p Hi Hp) as Wp.
  unfold save_one. rewrite (rd_part c i p Hp). cbn [obind].
  destruct (__ifHasDirty p) eqn:Hd.
  - destruct (getData_part_eq p Wp) as (q & Hg & Wq & Hf & Hbk & Hfd & Hs & Hid & Him & Hcl & Hdt).
    unfold __getData, on_part. rewrite (rd_part c i p Hp). cbn [obind]. rewrite Hg. cbn [obind].
    rewrite set_part_in by done. cbn [obind].
    set (c1 := {| partNum := _; part := _ |}).
    assert (W1 : ctl_wf c1) by by eapply ctl_wf_insert.
    assert (Hlt : (i < length (part c))%nat) by by eapply lookup_lt_Some.
    destruct (flush_part_eq c1 st i q W1 Hi) as (st' & -> & Hh & Hk & Ho).
    { by apply list_lookup_insert_eq. }
    { rewrite Hfd. unfold part_bytes. rewrite Hs. by apply (Hall i p). }
    exists (clean_toDisk q), st'. cbn [partNum part c1]. rewrite list_insert_insert_eq.
    split; [done|]. split.
    { destruct Wq. constructor; cbn; try done. by rewrite zlen_map. }
    rewrite Hfd in Hh, Ho. unfold saved. cbn. rewrite Him in Hh. rewrite Hd.
    repeat split; done.
  - exists p, st. rewrite list_insert_id by done. split; [by destruct c|].
    split; [done|]. split; [|split; [done|by intros]].
    unfold saved. rewrite Hd. repeat split; done.
Qed.

Lemma all_writable_insert c st st' i p p' :
  all_writable c st -> part c !! i = Some p -> fdhandle p' = fdhandle p -> sctNum p' = sctNum p ->
  (i < Z.to_nat (partNum c))%nat -> (forall h n, st_ok st h n -> st_ok st' h n) ->
  all_writable {| partNum := partNum c; part := <[i := p']> (part c) |} st'.
Proof.
  intros Hall Hp Hf Hs Hi Hk j q Hj. cbn in *. rewrite list_lookup_insert_Some.
  intros [(-> & <- & _)|(_ & Hq)].
  - unfold part_bytes. rewrite Hf, Hs. apply Hk, (Hall j p Hj Hp).
  - apply Hk, (Hall j q Hj Hq).
Qed.

Lemma save_from_eq n : forall j c st,
  ctl_wf c -> all_writable c st -> (j + n = Z.to_nat (partNum c))%nat ->
  exists c' st', save_from n (Z.of_nat j) c st = Done (c', st') /\ ctl_wf c' /\
    partNum c' = partNum c /\ all_writable c' st' /\
    forall i p, (i < Z.to_nat (partNum c))%nat -> part c !! i = Some p ->
      exists p', part c' !! i = Some p' /\
        if decide (j <= i)%nat then saved st st' p p'
        else p' = p /\ forall x, st_holds st (fdhandle p) x -> st_holds st' (fdhandle p) x.
Proof.
  induction n as [|n IH]; intros j c st W Hall Hj.
  { exists c, st. split_and!; try done. intros i p Hi Hp. exists p. split; [done|].
    case_decide; [lia|done]. }
  cbn [save_from].
  destruct (lookup_lt_is_Some_2 (part c) j) as [pj Hpj].
  { destruct W as [? Hl _ _]. unfold zlen in Hl. lia. }
  destruct (save_one_eq c st j pj W ltac:(lia) Hpj Hall) as (p' & st1 & -> & Wp' & Hsv & Hk & Ho).
  cbn [obind]. set (c1 := {| partNum := _; part := _ |}).
  pose proof Hsv as (Hf & Hbk & Hfd & Hsn & Hid & Hcl & _).
  assert (W1 : ctl_wf c1) by (eapply ctl_wf_insert; eauto; lia).
  assert (Hall1 : all_writable c1 st1) by (eapply all_writable_insert; eauto; lia).
  replace (Z.of_nat j + 1) with (Z.of_nat (S j)) by lia.
  destruct (IH (S j) c1 st1 W1 Hall1 ltac:(cbn; lia)) as (c' & st' & -> & W' & Hn & Hall' & Hparts).
  exists c', st'. split_and!; try done. intros i p Hi Hp.
  destruct (decide (i = j)) as [->|Hij].
  - rewrite Hpj in Hp. injection Hp as <-.
    destruct (Hparts j p' Hi) as (q & Hq & Hrest).
    { apply list_lookup_insert_eq. by eapply lookup_lt_Some. }
    rewrite decide_False in Hrest by lia. destruct Hrest as [-> Hpres].
    exists p'. split; [done|]. rewrite decide_True by lia. rewrite Hfd in Hpres.
    destruct Hsv as (_ & _ & _ & _ & _ & _ & H1 & H2). split_and!; try done; [auto|].
    intros Hd. destruct (H2 Hd) as [? H3]. split; [done|]. auto.
  - destruct (Hparts i p Hi) as (q & Hq & Hrest). { cbn [part c1]. by rewrite list_lookup_insert_ne. }
    exists q. split; [done|].
    assert (Hh : forall x, st_holds st (fdhandle p) x -> st_holds st1 (fdhandle p) x).
    { intros x Hx. eapply Ho; [|by apply (Hall i)|done]. intros E. apply Hij.
      eapply (wf_handles c W i j p pj); eauto; lia. }
    repeat case_decide; try lia.
    + destruct Hrest as (? & ? & ? & ? & ? & ? & Hr1 & Hr2). split_and!; try done.
      intros Hd. destruct (Hr2 Hd) as [? Hr3]. split; [done|]. auto.
    + destruct Hrest as [-> Hp']. auto.
Qed.

Lemma saveToDisk_eq c st :
  ctl_wf c -> all_writable c st ->
  exists c' st', saveToDisk c st = Done (c', st') /\ ctl_wf c' /\ partNum c' = partNum c /\
    all_writable c' st' /\
    forall i p, (i < Z.to_nat (partNum c))%nat -> part c !! i = Some p ->
      exists p', part c' !! i = Some p' /\ saved st st' p p'.
Proof.
  intros W Hall. destruct (save_from_eq (Z.to_nat (partNum c)) 0 c st W Hall eq_refl)
    as (c' & st' & HS & W' & Hn & Hall' & Hparts).
  exists c', st'. split_and!; done.
Qed.

(** [saveToDisk] against the store interface: on a well-formed control
    block and a working store it is memory safe and terminates, afterwards
    no backup is dirty, the store holds the backup image of every partition
    whose backup was dirty, and the other partitions are untouched. *)
Theorem saveToDisk_persists c st :
  ctl_wf c -> all_writable c st ->
  exists c' st', saveToDisk c st = Done (c', st') /\ ctl_wf c' /\
    forall i p, (i < Z.to_nat (partNum c))%nat -> part c !! i = Some p ->
      exists p', part c' !! i = Some p' /\ saved st st' p p'.
Proof.
  intros W Hall. destruct (saveToDisk_eq c st W Hall) as (c' & st' & ? & ? & _ & _ & ?). eauto.
Qed.

(** A completed request in calibration mode reaches the disk before
    [backupData] returns: the store holds the image received from the
    channel, provided some sector of it is marked dirty. *)
Theorem backupData_cali_persists c st i p :
  ctl_wf c -> all_writable c st -> (i < Z.to_nat (partNum c))%nat -> part c !! i = Some p ->
  existsb (fun w => negb (w =? 0)) (zip_with Z.lor (dirty (backup p)) (dirty (fromChannel p))) = true ->
  exists c' st', backupData true c st (Z.of_nat i) = Done (true, false, c', st') /\
    ctl_wf c' /\ st_holds st' (fdhandle p) (image p (fromChannel p)).
Proof.
  intros W Hall Hi Hp Hdirty. pose proof (wf_parts c W i p Hi Hp) as Wp.
  destruct (backup_part_eq p Wp) as (q & Hb & Wq & Hf & Ht & Hfd & Hs & Hid & Him & Hd).
  unfold backupData, on_part. rewrite (rd_part c i p Hp). cbn [obind]. rewrite Hb. cbn [obind].
  rewrite set_part_in by done. cbn [obind].
  destruct (saveToDisk_eq {| partNum := partNum c; part := <[i := q]> (part c) |} st)
    as (c' & st' & -> & W' & _ & _ & Hparts).
  { by eapply ctl_wf_insert. } { by eapply all_writable_insert. }
  cbn [obind]. exists c', st'. split; [done|split; [done|]].
  destruct (Hparts i q Hi) as (q' & _ & Hsv).
  { apply list_lookup_insert_eq. by eapply lookup_lt_Some. }
  destruct Hsv as (_ & _ & _ & _ & _ & _ & Hh & _). rewrite Hfd, Him in Hh.
  apply Hh. unfold __ifHasDirty. by rewrite Hd.
Qed.
End Saving.

(** ** A store that refuses writes *)
Section Refusing.
Context {St : Type} `{NvStore St}.
Variable st : St.
Hypothesis refuses : forall h buf size, st_write st h buf size = Done (false, st).

Lemma save_one_refused c i p :
  ctl_wf c -> (i < Z.to_nat (partNum c))%nat -> part c !! i = Some p ->
  exists p', save_one c st (Z.of_nat i) =
      Done ({| partNum := partNum c; part := <[i := p']> (part c) |}, st) /\
    part_wf p' /\ fdhandle p' = fdhandle p /\ __ifHasDirty p' = false.
Proof.
  intros W Hi Hp. pose proof (wf_parts c W i p Hi Hp) as Wp.
  unfold save_one. rewrite (rd_part c i p Hp). cbn [obind].
  destruct (__ifHasDirty p) eqn:Hd.
  - destruct (getData_part_eq p Wp) as (q & Hg & Wq & _ & _ & Hfd & _ & _ & _ & Hcl & _).
    unfold __getData, on_part. rewrite (rd_part c i p Hp). cbn [obind]. rewrite Hg. cbn [obind].
    rewrite set_part_in by done. cbn [obind]. unfold flush_part.
    rewrite (rd_part _ i q) by (apply list_lookup_insert_eq; by eapply lookup_lt_Some).
    cbn [obind]. rewrite refuses. cbn [obind]. by exists q.
  - exists p. rewrite list_insert_id by done. by destruct c.
Qed.

Lemma save_from_clean n : forall j c,
  (j + n <= length (part c))%nat ->
  (forall i p, (j <= i < j + n)%nat -> part c !! i = Some p -> __ifHasDirty p = false) ->
  save_from n (Z.of_nat j) c st = Done (c, st).
Proof.
  induction n as [|n IH]; intros j c Hl Hcl; [done|]. cbn [save_from].
  destruct (lookup_lt_is_Some_2 (part c) j) as [p Hp]; [lia|].
  unfold save_one. rewrite (rd_part c j p Hp). cbn [obind]. rewrite (Hcl j p) by (done || lia).
  cbn [obind]. replace (Z.of_nat j + 1) with (Z.of_nat (S j)) by lia.
  apply IH; [lia|]. intros i q Hi. apply Hcl. lia.
Qed.

Lemma save_from_refused n : forall j c,
  ctl_wf c -> (j + n = Z.to_nat (partNum c))%nat ->
  (forall i p, (i < j)%nat -> part c !! i = Some p -> __ifHasDirty p = false) ->
  exists c', save_from n (Z.of_nat j) c st = Done (c', st) /\ ctl_wf c' /\
    partNum c' = partNum c /\
    forall i p, (i < Z.to_nat (partNum c))%nat -> part c' !! i = Some p -> __ifHasDirty p = false.
Proof.
  induction n as [|n IH]; intros j c W Hj Hcl.
  { exists c. split_and!; try done. intros i p Hi. apply Hcl. lia. }
  cbn [save_from]. destruct (lookup_lt_is_Some_2 (part c) j) as [p Hp].
  { destruct W as [? Hl _ _]. unfold zlen in Hl. lia. }
  destruct (save_one_refused c j p W ltac:(lia) Hp) as (p' & -> & Wp' & Hfd & Hd).
  cbn [obind]. replace (Z.of_nat j + 1) with (Z.of_nat (S j)) by lia.
  apply (IH (S j) {| partNum := partNum c; part := <[j := p']> (part c) |}).
  - eapply ctl_wf_insert; eauto; lia.
  - cbn. lia.
  - intros i q Hi. cbn. rewrite list_lookup_insert_Some.
    intros [(-> & <- & _)|(Hne & Hq)]; [done|]. apply (Hcl i); [lia|done].
Qed.

(** A failed write is not retried: when the store refuses the write,
    [saveToDisk] still empties the dirty table of every backup, so the next
    [saveToDisk] does nothing at all and the data stays off the disk until
    another request arrives. *)
Theorem saveToDisk_drops_failed_write c :
  ctl_wf c ->
  exists c', saveToDisk c st = Done (c', st) /\ saveToDisk c' st = Done (c', st).
Proof.
  intros W. unfold saveToDisk.
  destruct (save_from_refused (Z.to_nat (partNum c)) 0 c W eq_refl) as (c' & HS & W' & Hn & Hcl).
  { intros i p Hi. lia. }
  exists c'. split; [done|]. rewrite Hn. apply (save_from_clean _ 0).
  - destruct W' as [? Hl _ _]. unfold zlen in Hl. lia.
  - intros i p Hi. apply Hcl. lia.
Qed.
End Refusing.

(** ** nvitem_fs.c implements the interface *)
Record fs_state := { fs_cfg : list RAM_NV_CONFIG; fs_disk : disk }.

#[export] Instance fs_store : NvStore fs_state := {
  st_read rnd s h buf size :=
    let* (ok, b, d) := ramDisk_Read (fs_cfg s) rnd (fs_disk s) h buf size in
    Done (ok, b, {| fs_cfg := fs_cfg s; fs_disk := d |});
  st_write s h buf size :=
    let* (ok, d) := ramDisk_Write (fs_cfg s) (fs_disk s) h buf size in
    Done (ok, {| fs_cfg := fs_cfg s; fs_disk := d |})
}.

(** Different partitions use different files. *)
Definition disjoint_paths (cfg : list RAM_NV_CONFIG) : Prop :=
  forall h1 h2 c1 c2, partition cfg h1 c1 -> partition cfg h2 c2 -> h1 <> h2 ->
    image_path c1 <> image_path c2 /\ image_path c1 <> imageBak_path c2 /\
    imageBak_path c1 <> image_path c2 /\ imageBak_path c1 <> imageBak_path c2.

Definition fs_ok (s : fs_state) (h size : Z) : Prop :=
  power (fs_disk s) = None /\ disjoint_paths (fs_cfg s) /\
  exists c, partition (fs_cfg s) h c /\ writable (fs_disk s) c size.

Definition fs_holds (s : fs_state) (h : Z) (data : list Z) : Prop :=
  exists c, partition (fs_cfg s) h c /\ both_hold (fs_disk s) c data.

Lemma partition_fun cfg h c c' : partition cfg h c -> partition cfg h c' -> c = c'.
Proof. unfold partition. congruence. Qed.

#[export] Program Instance fs_store_laws : NvStoreLaws fs_state := {
  st_ok := fs_ok;
  st_holds := fs_holds
}.
Next Obligation.
  intros [cfg d] h buf size data (Hpw & Hdj & c & Hp & Hw) Hsl. cbn in *.
  destruct (ramDisk_Write_effect cfg d h c buf size data Hp Hw Hpw Hsl)
    as (d' & -> & Hb & Hpw' & Hcr & Hq & Ho).
  cbn [obind]. eexists. split; [done|]. split; [by exists c|]. split.
  - intros h' n (_ & _ & c' & Hp' & Hne & H1 & H2). cbn in *.
    split; [done|split; [done|]]. exists c'. unfold writable, can_hold in *. cbn.
    by rewrite Hcr, Hq.
  - intros h' n x Hne _ (c' & Hp' & (co & Hco & Hvo) & (cb & Hcb & Hvb)). cbn in *.
    destruct (Hdj h' h c' c Hp' Hp Hne) as (? & ? & ? & ?).
    exists c'. cbn. split; [done|]. split; eexists; rewrite Ho by done; eauto.
Qed.
Next Obligation.
  intros rnd [cfg d] h buf size data (Hpw & Hdj & c & Hp & Hw) (c' & Hp' & Hbh) Hl Hb. cbn in *.
  rewrite <- (partition_fun _ _ _ _ Hp Hp') in Hbh.
  destruct Hbh as ((co & Hco & Hvo) & (cb & Hcb & Hvb)).
  pose (P := fun x : list Z => x = data). subst size. pose proof (zlen_nonneg data).
  destruct (ramDisk_Read_two P cfg rnd d h c buf (zlen data)) as (x & d' & -> & -> & _);
    [done|lia|eapply good_image, valid_good; done|eapply good_image, valid_good; done
    |left; eapply valid_good; done|].
  cbn [obind]. eauto.
Qed.
Next Obligation.
  intros [cfg d] h buf size. cbn -[ramDisk_Write]. unfold ramDisk_Write.
  destruct (_getIdx cfg h =? -1); [discriminate|].
  destruct (rd cfg (_getIdx cfg h)) as [c| |] eqn:E1; [|discriminate|exfalso].
  - destruct (slice buf 0 size) as [x| |] eqn:E2; [|discriminate|exfalso].
    + cbn [obind]. destruct (write_image _ _ _ _ _) as [r d1]. by destruct (write_image d1 _ _ _ _).
    + unfold slice in E2. by destruct (_ && _).
  - unfold rd in E1. destruct (0 <=? _); [|done]. by destruct (cfg !! _).
Qed.
Next Obligation.
  intros [cfg d] h buf size ok s' h' n Hw Hne (Hpw & Hdj & c & Hp & Hpath & H1 & H2). cbn -[ramDisk_Write] in *.
  obind_inv Hw. destruct a as [ok1 d']. injection Hw as <- <-.
  destruct (ramDisk_Write_frame _ _ _ _ _ _ _ Hpw E) as (Hpw' & Hcr & Hq & Ho). split.
  - split; [done|]. split; [done|]. exists c. unfold writable, can_hold in *. cbn. by rewrite Hcr, Hq.
  - intros x (c' & Hp' & (co & Hco & Hvo) & (cb & Hcb & Hvb)). cbn in *.
    assert (Hd : forall c0, partition cfg h c0 -> (image_path c' <> image_path c0 /\ image_path c' <> imageBak_path c0) /\
      (imageBak_path c' <> image_path c0 /\ imageBak_path c' <> imageBak_path c0)).
    { intros c0 Hc0. destruct (Hdj h' h c' c0 Hp' Hc0 Hne) as (? & ? & ? & ?). done. }
    exists c'. cbn. split; [done|]. split; eexists; rewrite Ho by (intros c0 Hc0; apply (Hd c0 Hc0)); eauto.
Qed.

(** ** Concrete instances *)
Definition ex_fs : fs_state :=
  {| fs_cfg := ramDisk_Init "/f1" "/f2" "/r1" "/r2" 512 1024 _ramdiskCfg_init;
     fs_disk := {| files := ∅; unsynced := ∅; creatable := fun _ => true; quota := fun _ => 4096; power := None |} |}.

Definition zero_buf : _RAMNV_BUF_CTRL := {| diskbuf := []; dirty := replicate 32 0 |}.
Definition zero_part : _RAMNV_PART_CTRL :=
  {| pt_partId := 0; sctNum := 0; fromChannel := zero_buf; backup := zero_buf; toDisk := zero_buf;
     fdhandle := 0 |}.
Definition zero_ctl : _RAMNV_CTL := {| partNum := 0; part := replicate 15 zero_part |}.

Definition run_init (s : fs_state) : _RAMNV_CTL * fs_state :=
  match initBuf (fun _ => 170) zero_ctl (fs_cfg s) s [] with Done r => r | _ => (zero_ctl, s) end.
Definition ex_ctl : _RAMNV_CTL := Eval vm_compute in fst (run_init ex_fs).

(** The control block after the head of a request has marked sector 0 of the
    first partition and its data has been written. *)
Definition ex_ctl_marked : _RAMNV_CTL := Eval vm_compute in
  match _markDirtyInfo ex_ctl 0 0 1 with
  | Done c => match writeData c 0 0 4 [1; 2; 3; 4] with Done c' => c' | _ => c end
  | _ => ex_ctl
  end.

Lemma ex_part_wf sct f b t :
  0 <= sct -> 512 * sct < 2 ^ 32 -> 512 * sct <= zlen (diskbuf f) -> 512 * sct <= zlen (diskbuf b) ->
  512 * sct <= zlen (diskbuf t) -> zlen (dirty f) = 32 -> zlen (dirty b) = 32 -> zlen (dirty t) = 32 ->
  forall id fd, part_wf {| pt_partId := id; sctNum := sct; fromChannel := f; backup := b; toDisk := t;
                           fdhandle := fd |}.
Proof. by constructor. Qed.

Lemma ex_ctl_wf : ctl_wf ex_ctl_marked.
Proof.
  constructor; [vm_compute; split; discriminate|reflexivity| |].
  - intros [|[|i]] p Hi Hp; [| |exfalso; vm_compute in Hi; lia];
      injection Hp as <-; apply ex_part_wf; vm_compute; congruence.
  - intros [|[|i]] [|[|j]] p q Hi Hj Hp Hq Hf; try done;
      try (exfalso; vm_compute in Hi, Hj; lia);
      injection Hp as <-; injection Hq as <-; vm_compute in Hf; discriminate Hf.
Qed.

Lemma ex_partition h c :
  partition (fs_cfg ex_fs) h c ->
  h = 1 /\ c = {| partId := 1; image_path := "/f1"; imageBak_path := "/f2"; image_size := 512 |} \/
  h = 2 /\ c = {| partId := 2; image_path := "/r1"; imageBak_path := "/r2"; image_size := 1024 |}.
Proof.
  unfold partition, _getIdx. set (cfg := fs_cfg ex_fs). vm_compute in cfg.
  cbn [cfg _getIdx_from partId]. change (1 =? 0) with false. change (2 =? 0) with false.
  change (0 =? 0) with true. cbv iota.
  destruct (Z.eqb_spec h 1) as [->|]; [intros [= <-]; auto|].
  destruct (Z.eqb_spec h 2) as [->|]; [intros [= <-]; auto|]. discriminate.
Qed.

Lemma ex_disjoint : disjoint_paths (fs_cfg ex_fs).
Proof.
  intros h1 h2 c1 c2 [[-> ->]|[-> ->]]%ex_partition [[-> ->]|[-> ->]]%ex_partition Hne; done.
Qed.

Lemma ex_all_writable : all_writable ex_ctl_marked ex_fs.
Proof.
  intros [|[|i]] p Hi Hp; [| |exfalso; vm_compute in Hi; lia]; injection Hp as <-;
    (split; [reflexivity|split; [apply ex_disjoint|]]).
  - exists {| partId := 1; image_path := "/f1"; imageBak_path := "/f2"; image_size := 512 |}.
    split; [reflexivity|]. repeat split; first [reflexivity|vm_compute; discriminate].
  - exists {| partId := 2; image_path := "/r1"; imageBak_path := "/r2"; image_size := 1024 |}.
    split; [reflexivity|]. repeat split; first [reflexivity|vm_compute; discriminate].
Qed.

Lemma saveToDisk_persists_witness :
  exists c' st', saveToDisk ex_ctl_marked ex_fs = Done (c', st') /\ ctl_wf c' /\
    forall i p, (i < Z.to_nat (partNum ex_ctl_marked))%nat -> part ex_ctl_marked !! i = Some p ->
      exists p', part c' !! i = Some p' /\ saved ex_fs st' p p'.
Proof. exact (saveToDisk_persists ex_ctl_marked ex_fs ex_ctl_wf ex_all_writable). Defined.

Definition ex_part0 : _RAMNV_PART_CTRL := default zero_part (part ex_ctl_marked !! 0%nat).

Lemma backupData_cali_persists_witness :
  exists c' st', backupData true ex_ctl_marked ex_fs (Z.of_nat 0) = Done (true, false, c', st') /\
    ctl_wf c' /\ fs_holds st' (fdhandle ex_part0) (image ex_part0 (fromChannel ex_part0)).
Proof.
  apply (backupData_cali_persists ex_ctl_marked ex_fs 0 ex_part0 ex_ctl_wf ex_all_writable);
    [vm_compute; lia|reflexivity|reflexivity].
Defined.

(** A store that refuses every write. *)
Definition refusing_store : NvStore unit :=
  {| st_read _ s _ buf _ := Done (true, buf, s); st_write s _ _ _ := Done (false, s) |}.

Lemma saveToDisk_drops_failed_write_witness :
  exists c', @saveToDisk unit refusing_store ex_ctl_marked tt = Done (c', tt) /\
    @saveToDisk unit refusing_store c' tt = Done (c', tt).
Proof.
  apply (@saveToDisk_drops_failed_write unit refusing_store tt);
    [intros; reflexivity|exact ex_ctl_wf].
Defined.
