(* ===== verification/NvPacket.v ===== *)
(** * apps/nvitem/nvitem_packet.c and the channel it reads

    A packet is a 20-byte head and a 1024-byte body.  [_getPacket] reads one
    packet, checks it and classifies it as the start of a group, the
    continuation of the current group, a packet to skip, or a channel
    failure.  The channel (nvitem_channe_spipe.c) is the sequence of results
    of [read]; a channel with nothing left reads zero bytes. *)

From S2P Require Import Prelude.

(** ** Channel *)
Inductive read_result :=
| RdBytes (bs : list Z)
| RdError.

(** [channel_read(buf, size, &hasRead)]: the result, [hasRead], the buffer and
    the rest of the channel.  [hasRead] is unsigned, so that the -1 of a failed
    [read] is the largest count. *)
Definition channel_read (chan : list read_result) (buf : list Z) (size : Z)
  : outcome (bool * Z * list Z * list read_result) :=
  match chan with
  | [] => Done (negb (0 <? size), 0, buf, [])
  | RdError :: chan' =>
      let hasRead := u32 (-1) in Done (negb (hasRead <? size), hasRead, buf, chan')
  | RdBytes bs :: chan' =>
      let got := take (Z.to_nat size) bs in
      let hasRead := zlen got in
      let* buf := splice buf 0 got in
      Done (negb (hasRead <? size), hasRead, buf, chan')
  end.

(** [channel_write]: the bytes sent. *)
Definition channel_write (out : list (list Z)) (buf : list Z) : list (list Z) := out ++ [buf].

(** ** Packets *)
Definition _MAGICNUM : Z := 0x524d4e56.
Definition PACKETSIZE : Z := 1024.
Definition PACKET_HEAD_size : Z := 20.
Definition PACKETRSP_SIZE : Z := 16.

Definition _PACKET_START : Z := 0.
Definition _PACKET_CONTINUE : Z := 1.
Definition _PACKET_SKIP : Z := 2.
Definition _PACKET_FAIL : Z := 3.

(** The 32-bit field at byte offset [off]. *)
Definition field32 (buf : list Z) (off : nat) : Z := le_val (take 4 (drop off buf)).

Definition head_MAGICNUM (buf : list Z) : Z := field32 buf 0.
Definition head_ecc (buf : list Z) : Z := field32 buf 4.
Definition head_idxGrp (buf : list Z) : Z := field32 buf 8.
Definition head_idxSub (buf : list Z) : Z := field32 buf 12.
Definition head_sizeOfPacket (buf : list Z) : Z := field32 buf 16.

Record packet_state := {
  packeBuf : list Z;
  _idxGrp : Z;
  _idxSub : Z
}.

Definition _initPacket (p : packet_state) : packet_state :=
  {| packeBuf := packeBuf p; _idxGrp := u32 (-1); _idxSub := 0 |}.

Definition __makeEcc (buf : list Z) (len : Z) : Z := 0.
Definition __chkEcc (buf : list Z) (len ecc : Z) : bool := true.

(** The response: the head of the packet with size 1 and ecc 0, the answer in
    the first body byte, zeros after it. *)
Definition __sendPacketRsp (out : list (list Z)) (header : list Z) (rsp : Z) : list (list Z) :=
  let head := take 4 header ++ le_bytes 4 (__makeEcc [] 0) ++ take 8 (drop 8 header) ++ le_bytes 4 1 in
  channel_write out (head ++ u8 rsp :: replicate (Z.to_nat PACKETRSP_SIZE - 1) 0).

Definition _sendPacktRsp (p : packet_state) (out : list (list Z)) (rsp : Z) : list (list Z) :=
  __sendPacketRsp out (take (Z.to_nat PACKET_HEAD_size) (packeBuf p)) rsp.

(** [_getPacket(&buf, &size)]: the class, the size handed out for the first two
    classes, the new state and the rest of the channel.  The body handed out is
    [drop 20 (packeBuf p)]. *)
Definition _getPacket (p : packet_state) (chan : list read_result)
  : outcome (Z * Z * packet_state * list read_result) :=
  let* (ok, hasRead, b, chan) := channel_read chan (packeBuf p) (PACKET_HEAD_size + PACKETSIZE) in
  let p := {| packeBuf := b; _idxGrp := _idxGrp p; _idxSub := _idxSub p |} in
  if negb ok then Done (_PACKET_FAIL, 0, p, chan)
  else if hasRead <? PACKET_HEAD_size then Done (_PACKET_SKIP, 0, p, chan)
  else if negb (_MAGICNUM =? head_MAGICNUM b) then Done (_PACKET_SKIP, 0, p, chan)
  else if negb (__chkEcc [] 0 0) then Done (_PACKET_SKIP, 0, p, chan)
  else if hasRead <? u32 (PACKET_HEAD_size + head_sizeOfPacket b) then Done (_PACKET_SKIP, 0, p, chan)
  else if _idxGrp p =? head_idxGrp b then
    if u32 (_idxSub p + 1) =? head_idxSub b then
      Done (_PACKET_CONTINUE, head_sizeOfPacket b,
            {| packeBuf := b; _idxGrp := _idxGrp p; _idxSub := u32 (_idxSub p + 1) |}, chan)
    else Done (_PACKET_SKIP, 0, p, chan)
  else if 0 =? head_idxSub b then
    Done (_PACKET_START, head_sizeOfPacket b,
          {| packeBuf := b; _idxGrp := head_idxGrp b; _idxSub := 0 |}, chan)
  else Done (_PACKET_SKIP, 0, p, chan).

(** ** Building packets (the modem's side) *)
Definition mk_head (grp sub size : Z) : list Z :=
  le_bytes 4 _MAGICNUM ++ le_bytes 4 0 ++ le_bytes 4 grp ++ le_bytes 4 sub ++ le_bytes 4 size.

(** A packet with the given payload, padded to the full 1044 bytes. *)
Definition mk_packet (grp sub : Z) (payload : list Z) : list Z :=
  mk_head grp sub (zlen payload) ++ payload ++ replicate (Z.to_nat (PACKETSIZE - zlen payload)) 0.

Definition packet_wf (p : packet_state) : Prop :=
  zlen (packeBuf p) = PACKET_HEAD_size + PACKETSIZE /\ u32_ok (_idxGrp p) /\ u32_ok (_idxSub p).

(** ** Lemmas *)
Lemma field32_app_l l k off :
  (off + 4 <= length l)%nat -> field32 (l ++ k) off = field32 l off.
Proof.
  intros H. unfold field32. rewrite drop_app_le by lia. rewrite take_app_le; [done|].
  rewrite length_drop. lia.
Qed.

Lemma field32_app_r l k off :
  length l = off -> field32 (l ++ k) off = field32 k 0.
Proof. intros <-. unfold field32. by rewrite drop_app_length, drop_0. Qed.

Lemma field32_le x k : u32_ok x -> field32 (le_bytes 4 x ++ k) 0 = x.
Proof.
  intros H. unfold field32. rewrite drop_0, take_app_length' by (by rewrite length_le_bytes).
  by apply le_val_u32.
Qed.

Lemma zlen_mk_head g s n : zlen (mk_head g s n) = 20.
Proof. unfold mk_head. by autorewrite with cnorm. Qed.

Lemma mk_head_fields g s n k :
  u32_ok g -> u32_ok s -> u32_ok n ->
  head_MAGICNUM (mk_head g s n ++ k) = _MAGICNUM /\ head_idxGrp (mk_head g s n ++ k) = g /\
  head_idxSub (mk_head g s n ++ k) = s /\ head_sizeOfPacket (mk_head g s n ++ k) = n.
Proof.
  intros Hg Hs Hn. unfold head_MAGICNUM, head_idxGrp, head_idxSub, head_sizeOfPacket, mk_head.
  split_and!.
  - rewrite <- app_assoc. apply field32_le. unfold u32_ok, _MAGICNUM. lia.
  - rewrite <- !app_assoc, app_assoc. rewrite field32_app_r by reflexivity. by apply field32_le.
  - rewrite <- !app_assoc, app_assoc, app_assoc. rewrite field32_app_r by reflexivity. by apply field32_le.
  - rewrite <- !app_assoc, app_assoc, app_assoc, app_assoc.
    rewrite field32_app_r by reflexivity. by apply field32_le.
Qed.

Lemma zlen_mk_packet g s pl :
  zlen pl <= PACKETSIZE -> zlen (mk_packet g s pl) = PACKET_HEAD_size + PACKETSIZE.
Proof.
  intros H. unfold mk_packet. autorewrite with cnorm. rewrite zlen_mk_head.
  unfold PACKETSIZE, PACKET_HEAD_size in *. pose proof (zlen_nonneg pl). lia.
Qed.

(** Reading a full packet replaces the whole packet buffer. *)
Lemma channel_read_full b pkt chan :
  zlen pkt = PACKET_HEAD_size + PACKETSIZE -> zlen b = PACKET_HEAD_size + PACKETSIZE ->
  channel_read (RdBytes pkt :: chan) b (PACKET_HEAD_size + PACKETSIZE) =
    Done (true, PACKET_HEAD_size + PACKETSIZE, pkt, chan).
Proof.
  intros Hp Hb. unfold channel_read. rewrite take_ge by (unfold zlen in Hp; lia).
  rewrite splice_in by lia. change (Z.to_nat 0) with 0%nat. cbn [obind Nat.add].
  rewrite take_0, app_nil_l, drop_ge, app_nil_r by (unfold zlen in *; lia).
  rewrite Hp, Z.ltb_irrefl. done.
Qed.

(** What [_getPacket] does with a packet built by [mk_packet]. *)
Lemma getPacket_mk p grp sub payload chan :
  packet_wf p -> u32_ok grp -> u32_ok sub -> zlen payload <= PACKETSIZE ->
  _getPacket p (RdBytes (mk_packet grp sub payload) :: chan) =
    let b := mk_packet grp sub payload in
    if _idxGrp p =? grp then
      if u32 (_idxSub p + 1) =? sub then
        Done (_PACKET_CONTINUE, zlen payload,
              {| packeBuf := b; _idxGrp := grp; _idxSub := sub |}, chan)
      else Done (_PACKET_SKIP, 0, {| packeBuf := b; _idxGrp := _idxGrp p; _idxSub := _idxSub p |}, chan)
    else if 0 =? sub then
      Done (_PACKET_START, zlen payload, {| packeBuf := b; _idxGrp := grp; _idxSub := 0 |}, chan)
    else Done (_PACKET_SKIP, 0, {| packeBuf := b; _idxGrp := _idxGrp p; _idxSub := _idxSub p |}, chan).
Proof.
  intros (Hb & _) Hg Hs Hp. pose proof (zlen_nonneg payload).
  assert (Hn : u32_ok (zlen payload)) by (unfold u32_ok, PACKETSIZE in *; lia).
  unfold _getPacket. rewrite channel_read_full by (done || by apply zlen_mk_packet).
  cbn [obind negb _idxGrp _idxSub packeBuf]. unfold mk_packet.
  destruct (mk_head_fields grp sub (zlen payload)
              (payload ++ replicate (Z.to_nat (PACKETSIZE - zlen payload)) 0) Hg Hs Hn)
    as (-> & -> & -> & ->).
  change (PACKET_HEAD_size + PACKETSIZE <? PACKET_HEAD_size) with false.
  rewrite Z.eqb_refl. cbn [negb __chkEcc].
  rewrite u32_small by (unfold u32_ok, PACKETSIZE, PACKET_HEAD_size in *; lia).
  guard_false (PACKET_HEAD_size + PACKETSIZE <? PACKET_HEAD_size + zlen payload).
  cbv zeta. destruct (Z.eqb_spec (_idxGrp p) grp) as [->|]; [|done].
  destruct (Z.eqb_spec (u32 (_idxSub p + 1)) sub) as [<-|]; done.
Qed.

(** ** Properties *)

(** The shape of an accepted packet. *)
Lemma getPacket_accept p chan code size p' chan' :
  packet_wf p -> _getPacket p chan = Done (code, size, p', chan') ->
  code = _PACKET_START \/ code = _PACKET_CONTINUE ->
  head_idxGrp (packeBuf p') = _idxGrp p' /\ head_idxSub (packeBuf p') = _idxSub p' /\
  size = head_sizeOfPacket (packeBuf p') /\ zlen (packeBuf p') = PACKET_HEAD_size + PACKETSIZE /\
  (code = _PACKET_CONTINUE -> _idxGrp p' = _idxGrp p /\ _idxSub p' = u32 (_idxSub p + 1)) /\
  (code = _PACKET_START -> _idxGrp p' <> _idxGrp p /\ _idxSub p' = 0).
Proof.
  intros (Hb & Hg & Hs) HP Hc. unfold _getPacket in HP. obind_inv HP.
  destruct a as [[[ok hasRead] b] ch]. cbn [_idxGrp _idxSub] in HP.
  assert (Hzb : zlen b = PACKET_HEAD_size + PACKETSIZE).
  { unfold channel_read in E. destruct chan as [|[bs|] chan1].
    - injection E as <- <- <- <-. done.
    - obind_inv E. injection E as <- <- <- <-. apply splice_inv in E0 as (_ & _ & ? & _). congruence.
    - injection E as <- <- <- <-. done. }
  repeat match type of HP with
  | (if ?b then _ else _) = _ => destruct b eqn:?
  end; injection HP as <- <- <- <-; cbn [packeBuf _idxGrp _idxSub]; btrue;
    destruct Hc as [Hc|Hc]; try discriminate Hc; split_and!; try done; try congruence.
Qed.

(** Numbering of the packets of a group: an accepted continuation belongs
    to the current group and carries the successor (modulo 2^32) of the last
    number, and an accepted start opens another group with number 0.  The
    packet buffer keeps its size. *)
Theorem getPacket_numbering p chan code size p' chan' :
  packet_wf p -> _getPacket p chan = Done (code, size, p', chan') ->
  (code = _PACKET_CONTINUE ->
     _idxGrp p' = _idxGrp p /\ _idxSub p' = u32 (_idxSub p + 1) /\
     zlen (packeBuf p') = PACKET_HEAD_size + PACKETSIZE) /\
  (code = _PACKET_START ->
     _idxGrp p' <> _idxGrp p /\ _idxSub p' = 0 /\
     zlen (packeBuf p') = PACKET_HEAD_size + PACKETSIZE).
Proof.
  intros W HP. split; intros Hc;
    [destruct (getPacket_accept _ _ _ _ _ _ W HP (or_intror Hc)) as (_ & _ & _ & Hz & H1 & _)
    |destruct (getPacket_accept _ _ _ _ _ _ W HP (or_introl Hc)) as (_ & _ & _ & Hz & _ & H1)];
    destruct (H1 Hc); auto.
Qed.

(** A failed [read] is not taken for a new packet. *)
Lemma getPacket_read_error p chan :
  packet_wf p -> head_idxGrp (packeBuf p) = _idxGrp p -> head_idxSub (packeBuf p) = _idxSub p ->
  exists size, _getPacket p (RdError :: chan) = Done (_PACKET_SKIP, size, p, chan).
Proof.
  intros (Hb & Hg & Hs) Hgrp Hsub. unfold _getPacket, channel_read. cbn [obind negb].
  change (negb (u32 (-1) <? PACKET_HEAD_size + PACKETSIZE)) with true.
  change (u32 (-1) <? PACKET_HEAD_size) with false. cbn [negb _idxGrp _idxSub].
  replace ({| packeBuf := packeBuf p; _idxGrp := _idxGrp p; _idxSub := _idxSub p |}) with p
    by (by destruct p).
  rewrite Hgrp, Hsub, Z.eqb_refl.
  destruct (Z.eqb_spec (u32 (_idxSub p + 1)) (_idxSub p)) as [E|_].
  { exfalso. unfold u32, wrap, u32_ok in *. change (2 ^ 32) with 4294967296 in *.
    Z.div_mod_to_equations. lia. }
  repeat cif; eauto.
Qed.

(** A failed [read] of the channel is counted as 4294967295 bytes because
    [hasRead] is unsigned, so it does not end the session; but after any
    accepted packet it cannot make the stale buffer be processed again: the
    packet is skipped and the state is unchanged. *)
Theorem getPacket_error_not_replayed p chan code size p' chan1 chan2 :
  packet_wf p -> _getPacket p chan = Done (code, size, p', chan1) ->
  code = _PACKET_START \/ code = _PACKET_CONTINUE -> Forall byte_ok (packeBuf p') ->
  exists n, _getPacket p' (RdError :: chan2) = Done (_PACKET_SKIP, n, p', chan2).
Proof.
  intros W HP Hc Hby. destruct (getPacket_accept _ _ _ _ _ _ W HP Hc) as (H1 & H2 & _ & H3 & _).
  assert (Hf : forall off, (off + 4 <= 1044)%nat -> u32_ok (field32 (packeBuf p') off)).
  { intros off Ho. unfold u32_ok, field32.
    assert (E : zlen (take 4 (drop off (packeBuf p'))) = 4).
    { unfold zlen, PACKET_HEAD_size, PACKETSIZE in *. rewrite length_take, length_drop. lia. }
    pose proof (le_val_range (take 4 (drop off (packeBuf p')))) as R. rewrite E in R.
    apply R. by apply Forall_take, Forall_drop. }
  apply getPacket_read_error; [|done|done]. split; [done|]. rewrite <- H1, <- H2.
  split; apply Hf; lia.
Qed.

(** The size check of [_getPacket] overflows: a packet of a new group
    whose size field is one of the 20 largest 32-bit values passes it, and
    that value is handed out as the number of body bytes although the body has
    1024. *)
Theorem getPacket_size_overflow p grp size body chan :
  packet_wf p -> u32_ok grp -> _idxGrp p <> grp -> 2 ^ 32 - 20 <= size < 2 ^ 32 ->
  zlen body = PACKETSIZE ->
  exists p', _getPacket p (RdBytes (mk_head grp 0 size ++ body) :: chan) =
    Done (_PACKET_START, size, p', chan).
Proof.
  intros (Hb & _) Hg Hne Hs Hbl. unfold _getPacket.
  rewrite channel_read_full by (first [done|rewrite zlen_app, zlen_mk_head, Hbl; done]).
  cbn [obind negb]. destruct (mk_head_fields grp 0 size body Hg ltac:(split; lia) ltac:(split; lia))
    as (-> & -> & -> & ->).
  change (PACKET_HEAD_size + PACKETSIZE <? PACKET_HEAD_size) with false. rewrite Z.eqb_refl.
  cbn [negb __chkEcc _idxGrp]. rewrite (proj2 (Z.eqb_neq _ _) Hne).
  replace (PACKET_HEAD_size + PACKETSIZE <? u32 (PACKET_HEAD_size + size)) with false; [by eexists|].
  symmetry. apply Z.ltb_ge. unfold u32, wrap, PACKET_HEAD_size, PACKETSIZE.
  change (2 ^ 32) with 4294967296 in *. Z.div_mod_to_equations. lia.
Qed.

(** Responses: the answer to a packet is 36 bytes long, names the group
    and the number of that packet, has size 1 and carries the answer code in
    its first body byte. *)
Theorem sendPacktRsp_echo p out grp sub payload rsp :
  u32_ok grp -> u32_ok sub -> zlen payload <= PACKETSIZE -> byte_ok rsp ->
  packeBuf p = mk_packet grp sub payload ->
  exists r, _sendPacktRsp p out rsp = out ++ [r] /\ zlen r = 36 /\
    r = mk_head grp sub 1 ++ rsp :: replicate 15 0.
Proof.
  intros Hg Hs Hp Hr Hb. unfold _sendPacktRsp, __sendPacketRsp, channel_write. rewrite Hb.
  unfold mk_packet. rewrite take_app_length' by reflexivity.
  rewrite u8_small by done. eexists. split; [done|]. split; [reflexivity|]. reflexivity.
Qed.

(** ** Concrete instances *)
Definition ex_packet_state : packet_state :=
  _initPacket {| packeBuf := replicate 1044 0; _idxGrp := 0; _idxSub := 0 |}.

Lemma ex_packet_wf : packet_wf ex_packet_state.
Proof. repeat split; vm_compute; congruence. Qed.

Definition ex_packet_state' : packet_state :=
  {| packeBuf := mk_packet 5 0 [1; 2; 3]; _idxGrp := 5; _idxSub := 0 |}.

Lemma ex_getPacket :
  _getPacket ex_packet_state [RdBytes (mk_packet 5 0 [1; 2; 3])] =
    Done (_PACKET_START, 3, ex_packet_state', []).
Proof. vm_compute. reflexivity. Qed.

Lemma getPacket_numbering_witness :
  _idxGrp ex_packet_state' <> _idxGrp ex_packet_state /\ _idxSub ex_packet_state' = 0 /\
  zlen (packeBuf ex_packet_state') = PACKET_HEAD_size + PACKETSIZE.
Proof. apply (getPacket_numbering _ _ _ _ _ _ ex_packet_wf ex_getPacket). reflexivity. Defined.

Lemma getPacket_error_not_replayed_witness :
  exists n, _getPacket ex_packet_state' [RdError] = Done (_PACKET_SKIP, n, ex_packet_state', []).
Proof.
  apply (getPacket_error_not_replayed _ _ _ _ _ _ [] ex_packet_wf ex_getPacket); [by left|].
  apply (Forall_impl (fun b => ((0 <=? b) && (b <? 256))%bool = true)).
  - apply Forall_forall. intros x Hx. revert x Hx. apply Forall_forall. vm_compute. repeat constructor.
  - intros b Hb. btrue. split; lia.
Defined.

Lemma getPacket_size_overflow_witness :
  exists p', _getPacket ex_packet_state (RdBytes (mk_head 5 0 4294967290 ++ replicate 1024 0) :: []) =
    Done (_PACKET_START, 4294967290, p', []).
Proof.
  apply (getPacket_size_overflow ex_packet_state 5 4294967290 (replicate 1024 0) []);
    [exact ex_packet_wf|split; lia|vm_compute; discriminate|lia|reflexivity].
Defined.

Lemma sendPacktRsp_echo_witness :
  exists r, _sendPacktRsp ex_packet_state' [] 1 = [] ++ [r] /\ zlen r = 36 /\
    r = mk_head 5 0 1 ++ 1 :: replicate 15 0.
Proof.
  apply (sendPacktRsp_echo ex_packet_state' [] 5 0 [1; 2; 3] 1);
    [split; lia|split; lia|vm_compute; discriminate|split; lia|reflexivity].
Defined.
