(* ===== verification/NvSync.v ===== *)
(** * apps/nvitem/nvitem_sync.c: the request analyser

    A request is a head, any number of bodies each followed by its sectors,
    and a tail.  Every one of the three is a 20-byte token ([SYNC_REQ]).  The
    analyser is a state machine that is fed the bodies of the packets:
    [_syncState] 0 expects a head, 1 a body or the tail, 2 the sectors of the
    last body.

    Pointers into the packet body are modelled by the bytes from the pointer
    to the end of the packet buffer, so that a read past the buffer is
    undefined.  [syncReqBuf] is an array of 20 pointers: 80 bytes on the 32-bit
    target, and [syncReqBuf + _ofst] is byte [4 * _ofst]. *)

From S2P Require Import Prelude OnesComplement NvFs NvBuf NvPacket.

Definition SYNC_REQ_HEAD : Z := 0.
Definition SYNC_REQ_BODY : Z := 1.
Definition SYNC_REQ_TAIL : Z := 2.
Definition SYNC_REQ_size : Z := 20.

Inductive sync_ret := SYNC_CONTINUE | SYNC_NEXT | SYNC_DONE | SYNC_FAIL.

Record sync_vars := {
  _syncState : Z;
  _syncBusy : bool;
  syncReqFrame : Z;
  syncReqBuf : list Z;
  _ofst : Z;
  _id : Z;
  _start : Z;
  _len : Z
}.

(** The fields of the token. *)
Definition req_packet_type (b : list Z) : Z := field32 b 0.
Definition req_reqIdx (b : list Z) : Z := field32 b 4.
Definition req_partId (b : list Z) : Z := field32 b 8.
Definition req_start (b : list Z) : Z := field32 b 12.
Definition req_num (b : list Z) : Z := field32 b 16.

Definition _syncInit (v : sync_vars) : sync_vars :=
  {| _syncState := 0; _syncBusy := false; syncReqFrame := 0; syncReqBuf := syncReqBuf v;
     _ofst := 0; _id := u32 (-1); _start := 0; _len := 0 |}.

Definition set_state (v : sync_vars) (st : Z) : sync_vars :=
  {| _syncState := st; _syncBusy := _syncBusy v; syncReqFrame := syncReqFrame v;
     syncReqBuf := syncReqBuf v; _ofst := _ofst v; _id := _id v; _start := _start v; _len := _len v |}.

Definition set_busy (v : sync_vars) : sync_vars :=
  {| _syncState := _syncState v; _syncBusy := true; syncReqFrame := syncReqFrame v;
     syncReqBuf := syncReqBuf v; _ofst := _ofst v; _id := _id v; _start := _start v; _len := _len v |}.

Definition set_token (v : sync_vars) (b : list Z) (o : Z) : sync_vars :=
  {| _syncState := _syncState v; _syncBusy := _syncBusy v; syncReqFrame := syncReqFrame v;
     syncReqBuf := b; _ofst := o; _id := _id v; _start := _start v; _len := _len v |}.

Definition set_head (v : sync_vars) (frame id : Z) : sync_vars :=
  {| _syncState := _syncState v; _syncBusy := _syncBusy v; syncReqFrame := frame;
     syncReqBuf := syncReqBuf v; _ofst := _ofst v; _id := id; _start := _start v; _len := _len v |}.

Definition set_data (v : sync_vars) (frame start len : Z) : sync_vars :=
  {| _syncState := _syncState v; _syncBusy := _syncBusy v; syncReqFrame := frame;
     syncReqBuf := syncReqBuf v; _ofst := _ofst v; _id := _id v; _start := start; _len := len |}.

(** ** The daemon: the analyser, the packet layer, the buffers and the store *)
Record daemon (St : Type) := {
  sv : sync_vars;
  pk : packet_state;
  ctl : _RAMNV_CTL;
  store : St;
  out : list (list Z);
  events : nat
}.
Arguments sv {St}. Arguments pk {St}. Arguments ctl {St}. Arguments store {St}.
Arguments out {St}. Arguments events {St}.

Section Sync.
Context {St : Type} `{NvStore St}.
Variable is_cali_mode : bool.

Definition with_sv (d : daemon St) (v : sync_vars) : daemon St :=
  {| sv := v; pk := pk d; ctl := ctl d; store := store d; out := out d; events := events d |}.
Definition with_ctl (d : daemon St) (c : _RAMNV_CTL) : daemon St :=
  {| sv := sv d; pk := pk d; ctl := c; store := store d; out := out d; events := events d |}.
Definition with_pk (d : daemon St) (p : packet_state) : daemon St :=
  {| sv := sv d; pk := p; ctl := ctl d; store := store d; out := out d; events := events d |}.

Definition respond (d : daemon St) (rsp : Z) : daemon St :=
  {| sv := sv d; pk := pk d; ctl := ctl d; store := store d;
     out := _sendPacktRsp (pk d) (out d) rsp; events := events d |}.

Definition _syncReset (d : daemon St) (ifSuc : bool) : outcome (bool * daemon St) :=
  if ifSuc then
    let* (ret, ev, c, st) := backupData is_cali_mode (ctl d) (store d) (_id (sv d)) in
    Done (ret, {| sv := _syncInit (sv d); pk := pk d; ctl := c; store := st; out := out d;
                  events := (if ev then S (events d) else events d) |})
  else if negb (_syncState (sv d) =? 0) then
    let* c := restoreData (ctl d) (_id (sv d)) in
    Done (true, with_sv (with_ctl d c) (_syncInit (sv d)))
  else Done (true, with_sv d (_syncInit (sv d))).

(** The result, the variables, the rest of the body and of its size. *)
Definition __getToken (v : sync_vars) (buf : list Z) (size : Z)
  : outcome (bool * sync_vars * list Z * Z) :=
  let need := u32 (SYNC_REQ_size - _ofst v) in
  if size <? need then
    if negb (size =? 0) then Done (false, v, buf, size)
    else
      let* b := slice buf 0 size in
      let* rb := splice (syncReqBuf v) (4 * _ofst v) b in
      Done (false, set_token v rb (u32 (_ofst v + size)), drop (Z.to_nat size) buf, 0)
  else if need =? 0 then Done (true, set_token v (syncReqBuf v) 0, buf, size)
  else
    let* b := slice buf 0 need in
    let* rb := splice (syncReqBuf v) (4 * _ofst v) b in
    Done (true, set_token v rb 0, drop (Z.to_nat need) buf, u32 (size - need)).

Definition _syncGetHead (d : daemon St) (buf : list Z) (size : Z)
  : outcome (sync_ret * daemon St * list Z * Z) :=
  let* (got, v, buf, size) := __getToken (sv d) buf size in
  if negb got then Done (SYNC_CONTINUE, with_sv d v, buf, size)
  else
    let head := syncReqBuf v in
    if negb (SYNC_REQ_HEAD =? req_packet_type head) then Done (SYNC_FAIL, with_sv d v, buf, size)
    else
      let* id := getCtlId (ctl d) (req_partId head) in
      let v := set_head v (req_reqIdx head) id in
      if u32 (-1) =? id then Done (SYNC_FAIL, with_sv d v, buf, size)
      else Done (SYNC_NEXT, with_sv d v, buf, size).

Definition _syncGetBody (d : daemon St) (buf : list Z) (size : Z)
  : outcome (sync_ret * daemon St * list Z * Z) :=
  let* (got, v, buf, size) := __getToken (sv d) buf size in
  if negb got then Done (SYNC_CONTINUE, with_sv d v, buf, size)
  else
    let req := syncReqBuf v in
    if SYNC_REQ_BODY =? req_packet_type req then
      if negb (u32 (syncReqFrame v + 1) =? req_reqIdx req) then Done (SYNC_FAIL, with_sv d v, buf, size)
      else
        let* c := _markDirtyInfo (ctl d) (_id v) (req_start req) (req_num req) in
        let v := set_data v (u32 (syncReqFrame v + 1)) (u32 (req_start req * RAMNV_SECT_SIZE))
                   (u32 (req_num req * RAMNV_SECT_SIZE)) in
        Done (SYNC_NEXT, with_sv (with_ctl d c) v, buf, size)
    else if SYNC_REQ_TAIL =? req_packet_type req then
      if negb (u32 (syncReqFrame v + 1) =? req_reqIdx req) then Done (SYNC_FAIL, with_sv d v, buf, size)
      else Done (SYNC_DONE, with_sv d (set_data v (u32 (syncReqFrame v + 1)) (_start v) (_len v)), buf, size)
    else Done (SYNC_FAIL, with_sv d v, buf, size).

Definition _syncGetData (d : daemon St) (buf : list Z) (size : Z)
  : outcome (sync_ret * daemon St * list Z * Z) :=
  let v := sv d in
  if _len v <=? size then
    let* c := writeData (ctl d) (_id v) (_start v) (_len v) buf in
    Done (SYNC_NEXT, with_sv (with_ctl d c) (set_data v (syncReqFrame v) (u32 (_start v + _len v)) 0),
          drop (Z.to_nat (_len v)) buf, u32 (size - _len v))
  else
    let* c := writeData (ctl d) (_id v) (_start v) size buf in
    Done (SYNC_CONTINUE,
          with_sv (with_ctl d c) (set_data v (syncReqFrame v) (u32 (_start v + size)) (u32 (_len v - size))),
          drop (Z.to_nat size) buf, 0).

(** [while (0 != size)] of [syncAnalyzer]. *)
Fixpoint analyse (fuel : nat) (d : daemon St) (buf : list Z) (size : Z) : outcome (daemon St) :=
  match fuel with
  | O => Fuel
  | S fuel =>
    if size =? 0 then Done d
    else if _syncState (sv d) =? 0 then
      let* (r, d, buf, size) := _syncGetHead d buf size in
      match r with
      | SYNC_FAIL => let* (_, d) := _syncReset d false in Done (respond d 0)
      | SYNC_NEXT => analyse fuel (with_sv d (set_state (sv d) 1)) buf size
      | SYNC_CONTINUE => Done (respond d 1)
      | SYNC_DONE => analyse fuel d buf size
      end
    else if _syncState (sv d) =? 1 then
      let* (r, d, buf, size) := _syncGetBody d buf size in
      match r with
      | SYNC_FAIL => let* (_, d) := _syncReset d false in Done (respond d 0)
      | SYNC_NEXT => analyse fuel (with_sv d (set_state (sv d) 2)) buf size
      | SYNC_CONTINUE => Done (respond d 1)
      | SYNC_DONE => let* (ret, d) := _syncReset d true in
                     Done (respond d (if ret then 1 else 0))
      end
    else
      let* (r, d, buf, size) := _syncGetData d buf size in
      match r with
      | SYNC_CONTINUE => Done (respond d 1)
      | SYNC_NEXT => analyse fuel (with_sv d (set_state (sv d) 1)) buf size
      | _ => analyse fuel d buf size
      end
  end.

(** Rounds that are enough for [size] bytes: every round consumes a byte or
    leaves state 2. *)
Definition analyse_fuel (size : Z) : nat := (2 * Z.to_nat size + 2)%nat.

(** One round of [do ... while(1)]; [false] is the [return]. *)
Definition sync_packet (d : daemon St) (chan : list read_result)
  : outcome (bool * daemon St * list read_result) :=
  let* (code, size, p, chan) := _getPacket (pk d) chan in
  let d := with_pk d p in
  let buf := drop (Z.to_nat PACKET_HEAD_size) (packeBuf p) in
  if code =? _PACKET_FAIL then
    let* (_, d) := _syncReset d false in Done (false, d, chan)
  else if (code =? _PACKET_START) && _syncBusy (sv d) then
    let* (_, d) := _syncReset d false in
    let* d := analyse (analyse_fuel size) (with_sv d (set_busy (sv d))) buf size in
    Done (true, d, chan)
  else if (code =? _PACKET_CONTINUE) && negb (_syncBusy (sv d)) then Done (true, respond d 0, chan)
  else if code =? _PACKET_SKIP then Done (true, d, chan)
  else
    let* d := analyse (analyse_fuel size) (with_sv d (set_busy (sv d))) buf size in
    Done (true, d, chan).

(** The loop over the channel: a session ends at the first short read, at the
    latest when nothing is left ([S (length chan)] rounds). *)
Fixpoint syncAnalyzer_loop (fuel : nat) (d : daemon St) (chan : list read_result)
  : outcome (daemon St * list read_result) :=
  match fuel with
  | O => Fuel
  | S fuel =>
      let* (more, d, chan) := sync_packet d chan in
      if more then syncAnalyzer_loop fuel d chan else Done (d, chan)
  end.

Definition syncAnalyzer (d : daemon St) (chan : list read_result)
  : outcome (daemon St * list read_result) :=
  syncAnalyzer_loop (S (length chan)) d chan.

(** One connection of the main loop in nvitem_server.c. *)
Definition session (d : daemon St) (chan : list read_result)
  : outcome (daemon St * list read_result) :=
  syncAnalyzer (with_sv (with_pk d (_initPacket (pk d))) (_syncInit (sv d))) chan.
End Sync.

(** ** Invariant of the analyser *)

(** The partition holds no data of an unfinished request. *)
Definition clean_part (p : _RAMNV_PART_CTRL) : Prop :=
  image p (fromChannel p) = image p (backup p).

Record sync_wf {St : Type} (d : daemon St) : Prop := {
  sw_ctl : ctl_wf (ctl d);
  sw_ofst : _ofst (sv d) = 0;
  sw_buf : zlen (syncReqBuf (sv d)) = 80;
  sw_bytes : Forall byte_ok (syncReqBuf (sv d));
  sw_len : u32_ok (_len (sv d));
  sw_frame : u32_ok (syncReqFrame (sv d));
  sw_state : _syncState (sv d) = 0 \/ _syncState (sv d) = 1 \/ _syncState (sv d) = 2;
  sw_id : _syncState (sv d) <> 0 -> 0 <= _id (sv d) < partNum (ctl d);
  sw_clean : forall i p, (i < Z.to_nat (partNum (ctl d)))%nat -> part (ctl d) !! i = Some p ->
    _syncState (sv d) = 0 \/ Z.of_nat i <> _id (sv d) -> clean_part p
}.

(** Only the analyser's own partition may change its data; the rest of a
    control block stays. *)
Definition same_but_dirty (p p' : _RAMNV_PART_CTRL) : Prop :=
  sctNum p' = sctNum p /\ pt_partId p' = pt_partId p /\ fdhandle p' = fdhandle p /\
  diskbuf (fromChannel p') = diskbuf (fromChannel p) /\ diskbuf (backup p') = diskbuf (backup p).

Lemma same_but_dirty_refl p : same_but_dirty p p.
Proof. done. Qed.

Lemma same_but_dirty_trans p q r : same_but_dirty p q -> same_but_dirty q r -> same_but_dirty p r.
Proof. unfold same_but_dirty. intuition congruence. Qed.

Lemma same_clean p p' : same_but_dirty p p' -> clean_part p -> clean_part p'.
Proof.
  intros (Hs & _ & _ & Hf & Hb). unfold clean_part, image, part_bytes. by rewrite Hs, Hf, Hb.
Qed.

(** Two control blocks that agree up to dirty tables and [toDisk]. *)
Definition same_ctl (c c' : _RAMNV_CTL) : Prop :=
  ctl_wf c' /\ partNum c' = partNum c /\
  forall i p, (i < Z.to_nat (partNum c))%nat -> part c !! i = Some p ->
    exists p', part c' !! i = Some p' /\ same_but_dirty p p'.

Lemma same_ctl_refl c : ctl_wf c -> same_ctl c c.
Proof. intros W. split; [done|split; [done|]]. eauto using same_but_dirty_refl. Qed.

Lemma same_ctl_trans a b c : same_ctl a b -> same_ctl b c -> same_ctl a c.
Proof.
  intros (Wb & Hn & Hp) (Wc & Hn' & Hp'). split; [done|split; [congruence|]].
  intros i p Hi Hi'. destruct (Hp i p Hi Hi') as (q & Hq & Hs).
  destruct (Hp' i q) as (r & Hr & Hs'); [by rewrite Hn|done|]. eauto using same_but_dirty_trans.
Qed.

(** Inversion of an update of the control block. *)
Lemma on_part_inv c id f c' :
  ctl_wf c -> 0 <= id < partNum c -> on_part c id f = Done c' ->
  exists p p', part c !! Z.to_nat id = Some p /\ part_wf p /\ f p = Done p' /\
    c' = {| partNum := partNum c; part := <[Z.to_nat id := p']> (part c) |}.
Proof.
  intros W Hid HO. unfold on_part in HO. obind_inv HO. obind_inv HO.
  apply rd_inv in E as [_ E]. exists a, a0.
  assert (Wa : part_wf a) by (eapply (wf_parts c W (Z.to_nat id)); [lia|done]).
  rewrite <- (Z2Nat.id id) in HO by lia. rewrite set_part_in in HO by (done || lia).
  injection HO as <-. done.
Qed.

Lemma same_ctl_insert c i p p' :
  ctl_wf c -> (i < Z.to_nat (partNum c))%nat -> part c !! i = Some p -> part_wf p' ->
  same_but_dirty p p' -> same_ctl c {| partNum := partNum c; part := <[i := p']> (part c) |}.
Proof.
  intros W Hi Hp Wp' Hs. split; [eapply ctl_wf_insert; eauto; apply Hs|]. split; [done|].
  intros j q Hj Hq. cbn. destruct (decide (i = j)) as [<-|Hne].
  - exists p'. rewrite list_lookup_insert_eq by (by eapply lookup_lt_Some). split; [done|].
    rewrite Hp in Hq. by injection Hq as <-.
  - exists q. by rewrite list_lookup_insert_ne by done.
Qed.

Lemma getData_same c j c' :
  ctl_wf c -> (j < Z.to_nat (partNum c))%nat -> __getData c (Z.of_nat j) = Done c' -> same_ctl c c'.
Proof.
  intros W Hj HG. unfold __getData in HG.
  apply on_part_inv in HG as (p & q & Hp & Wp & Hq & ->); [|done|lia]. rewrite Nat2Z.id in *.
  destruct (getData_part_eq p Wp) as (q' & Hg & Wq & Hf & Hb & Hfd & Hsn & Hid & _).
  rewrite Hg in Hq. injection Hq as ->.
  eapply same_ctl_insert; eauto. unfold same_but_dirty. by rewrite Hf, Hb.
Qed.

Lemma flush_same {St} `{NvStore St} c st j c' st' :
  ctl_wf c -> (j < Z.to_nat (partNum c))%nat -> flush_part c st (Z.of_nat j) = Done (c', st') ->
  same_ctl c c'.
Proof.
  intros W Hj HF. unfold flush_part in HF. obind_inv HF. obind_inv HF.
  destruct a0 as [[] st2]; [|injection HF as <- <-; by apply same_ctl_refl].
  obind_inv HF. injection HF as <- <-. apply rd_inv in E as [_ E]. rewrite Nat2Z.id in E.
  pose proof (wf_parts _ W j a Hj E) as Wa. rewrite set_part_in in E1 by done. injection E1 as <-.
  eapply same_ctl_insert; eauto; [|done].
  destruct Wa. constructor; cbn; try done. by rewrite zlen_map.
Qed.

Lemma save_one_same {St} `{NvStore St} c st j c' st' :
  ctl_wf c -> (j < Z.to_nat (partNum c))%nat -> save_one c st (Z.of_nat j) = Done (c', st') ->
  same_ctl c c'.
Proof.
  intros W Hj HS. unfold save_one in HS. obind_inv HS.
  destruct (__ifHasDirty a); [|injection HS as <- <-; by apply same_ctl_refl].
  obind_inv HS. pose proof (getData_same c j a0 W Hj E0) as S1.
  eapply same_ctl_trans; [exact S1|]. destruct S1 as (W1 & Hn & _).
  eapply flush_same; [done| |exact HS]. by rewrite Hn.
Qed.

Lemma save_from_same {St} `{NvStore St} n : forall j c st c' st',
  ctl_wf c -> (j + n <= Z.to_nat (partNum c))%nat ->
  save_from n (Z.of_nat j) c st = Done (c', st') -> same_ctl c c'.
Proof.
  induction n as [|n IH]; intros j c st c' st' W Hj HS.
  { injection HS as <- <-. by apply same_ctl_refl. }
  cbn [save_from] in HS. obind_inv HS. destruct a as [c1 st1].
  pose proof (save_one_same c st j c1 st1 W ltac:(lia) E) as Hs1.
  replace (Z.of_nat j + 1) with (Z.of_nat (S j)) in HS by lia.
  eapply same_ctl_trans; [exact Hs1|]. destruct Hs1 as (W1 & Hn & _).
  eapply IH; [done| |exact HS]. lia.
Qed.

Lemma saveToDisk_same {St} `{NvStore St} c st c' st' :
  ctl_wf c -> saveToDisk c st = Done (c', st') -> same_ctl c c'.
Proof. intros W HS. eapply (save_from_same (Z.to_nat (partNum c)) 0); [done|lia|exact HS]. Qed.

(** ** Fuel of the buffer operations: none of them can run out *)
Definition no_fuel {A} (m : outcome A) : Prop := m <> Fuel.

Lemma no_fuel_bind {A B} (m : outcome A) (k : A -> outcome B) :
  no_fuel m -> (forall a, m = Done a -> no_fuel (k a)) -> no_fuel (obind m k).
Proof. unfold no_fuel. destruct m; cbn; auto; congruence. Qed.

Lemma no_fuel_rd {A} (l : list A) i : no_fuel (rd l i).
Proof. unfold no_fuel, rd. cif; [|done]. by destruct (l !! Z.to_nat i). Qed.

Lemma no_fuel_wr {A} (l : list A) i v : no_fuel (wr l i v).
Proof. unfold no_fuel, wr. by cif. Qed.

Lemma no_fuel_slice {A} (l : list A) i n : no_fuel (slice l i n).
Proof. unfold no_fuel, slice. by cif. Qed.

Lemma no_fuel_splice {A} (l : list A) i k : no_fuel (splice l i k).
Proof. unfold no_fuel, splice. by cif. Qed.

Lemma no_fuel_Done {A} (a : A) : no_fuel (Done a).
Proof. done. Qed.

Create HintDb nofuel.
#[export] Hint Resolve no_fuel_rd no_fuel_wr no_fuel_slice no_fuel_splice no_fuel_Done : nofuel.
Ltac nofuel := repeat (apply no_fuel_bind; [auto with nofuel|intros ? ?]); auto with nofuel.

Lemma no_fuel_set_part c i p : no_fuel (set_part c i p).
Proof. unfold set_part. nofuel. Qed.
#[export] Hint Resolve no_fuel_set_part : nofuel.

Lemma no_fuel_copy d s n : no_fuel (copy_buf d s n).
Proof. unfold copy_buf. nofuel. Qed.
#[export] Hint Resolve no_fuel_copy : nofuel.

Lemma no_fuel_on_part c i f : (forall p, no_fuel (f p)) -> no_fuel (on_part c i f).
Proof. intros Hf. unfold on_part. nofuel. Qed.

Lemma no_fuel_mark table start scts :
  zlen table = 32 -> u32_ok start -> u32_ok scts -> no_fuel (mark_table table start scts).
Proof.
  intros Hl Hs Hc. unfold mark_table, no_fuel. destruct (mark_table_start start Hs) as [-> ->].
  unfold u32_ok, RAMNV_DIRTYTABLE_MAXSIZE in *.
  destruct (decide (scts = 0 \/ 1024 < start + scts)) as [Hu|Hu].
  - rewrite mark_loop_undef; unfold u32_ok; try done; try lia; Z.div_mod_to_equations; lia.
  - edestruct (mark_loop_spec (S (Z.to_nat 32)) table (start / 32) (start mod 32) scts)
      as (t & -> & _); try done; try lia; Z.div_mod_to_equations; lia.
Qed.

(** ** One step of the analyser *)

Lemma field32_range b off :
  Forall byte_ok b -> (off + 4 <= length b)%nat -> u32_ok (field32 b off).
Proof.
  intros Hb Ho. unfold field32, u32_ok.
  assert (E : zlen (take 4 (drop off b)) = 4) by (unfold zlen; rewrite length_take, length_drop; lia).
  pose proof (le_val_range (take 4 (drop off b))) as R. rewrite E in R.
  apply R. by apply Forall_take, Forall_drop.
Qed.

(** With nothing buffered, [__getToken] takes 20 bytes or leaves everything. *)
Lemma getToken_eq v buf size :
  _ofst v = 0 -> zlen (syncReqBuf v) = 80 -> u32_ok size -> size <> 0 ->
  __getToken v buf size =
    if size <? 20 then Done (false, v, buf, size)
    else let* b := slice buf 0 20 in
         Done (true, set_token v (b ++ drop 20 (syncReqBuf v)) 0, drop 20 buf, size - 20).
Proof.
  unfold u32_ok. intros Ho Hl Hs Hne. unfold __getToken. rewrite Ho.
  change (u32 (SYNC_REQ_size - 0)) with 20. cif.
  - by rewrite (proj2 (Z.eqb_neq _ _) Hne).
  - change (20 =? 0) with false. cbn match. destruct (slice buf 0 20) as [b| |] eqn:Eb; cbn [obind]; [|done..].
    apply slice_inv in Eb as (_ & _ & _ & Hlb & _).
    rewrite splice_in by lia. cbn [obind]. change (Z.to_nat (4 * 0)) with 0%nat.
    rewrite take_0, app_nil_l. rewrite u32_small by (unfold u32_ok; lia). do 4 f_equal.
    f_equal. unfold zlen in Hlb. cbn [Nat.add]. by replace (length b) with 20%nat by lia.
Qed.

Lemma getCtlId_range c id r :
  ctl_wf c -> getCtlId c id = Done r -> r = u32 (-1) \/ 0 <= r < partNum c.
Proof.
  intros W. unfold getCtlId. destruct W as [[H0 _] _ _ _].
  assert (G : forall ps n i, getCtlId_from ps n i id = Done r ->
            r = u32 (-1) \/ i <= r < i + Z.of_nat n).
  { induction ps as [|p ps IH]; intros [|n] i; cbn [getCtlId_from]; try discriminate.
    - intros [= <-]. by left.
    - intros [= <-]. by left.
    - cif; [intros [= <-]; lia|]. intros HG. destruct (IH n (i + 1) HG); [by left|lia]. }
  intros HG. destruct (G _ _ _ HG); [by left|right]. lia.
Qed.

(** A step of the token reader keeps the invariant. *)
Lemma set_token_wf {St} (d : daemon St) b :
  sync_wf d -> zlen b = 20 -> Forall byte_ok b ->
  sync_wf (with_sv d (set_token (sv d) (b ++ drop 20 (syncReqBuf (sv d))) 0)).
Proof.
  intros [] Hb Hby. constructor; cbn; try done.
  - rewrite zlen_app. unfold zlen in *. rewrite length_drop. lia.
  - apply Forall_app. split; [done|by apply Forall_drop].
Qed.

Definition step_ok {St} (d : daemon St) (buf : list Z) (size : Z) (next : Z)
    (r : outcome (sync_ret * daemon St * list Z * Z)) : Prop :=
  match r with
  | Done (SYNC_CONTINUE, d', _, _) => pk d' = pk d /\ sync_wf d'
  | Done (SYNC_FAIL, d', _, _) => pk d' = pk d /\ sync_wf d' /\ _syncState (sv d) <> 2
  | Done (SYNC_DONE, d', _, _) => pk d' = pk d /\ sync_wf d' /\ _syncState (sv d) = 1 /\ _syncState (sv d') = 1
  | Done (SYNC_NEXT, d', buf', size') =>
      pk d' = pk d /\
      sync_wf (with_sv d' (set_state (sv d') next)) /\ Forall byte_ok buf' /\ u32_ok size' /\
      (size' < size \/ size' = size /\ _syncState (sv d) = 2)
  | Undef => True
  | Fuel => False
  end.

Lemma slice_bytes buf o n b : Forall byte_ok buf -> slice buf o n = Done b -> Forall byte_ok b.
Proof. intros Hb Hs. apply slice_inv in Hs as (_ & _ & _ & _ & ->). by apply Forall_take, Forall_drop. Qed.

Lemma no_fuel_getCtlId c id : no_fuel (getCtlId c id).
Proof.
  unfold getCtlId, no_fuel. generalize (Z.to_nat (partNum c)) as n. generalize 0 as i.
  induction (part c) as [|p ps IH]; intros i [|n]; cbn [getCtlId_from]; try done.
  cif; [done|apply IH].
Qed.

Lemma getHead_ok {St} (d : daemon St) buf size :
  sync_wf d -> Forall byte_ok buf -> u32_ok size -> size <> 0 -> _syncState (sv d) = 0 ->
  step_ok d buf size 1 (_syncGetHead d buf size).
Proof.
  intros W Hby Hs Hne Hst. unfold _syncGetHead. rewrite getToken_eq by (apply W || done).
  destruct (Z.ltb_spec size 20); cbn [obind negb].
  { cbn. split; [done|]. by destruct d. }
  destruct (slice buf 0 20) as [b| |] eqn:Eb; cbn [obind negb]; [|done|by apply no_fuel_slice in Eb].
  pose proof (slice_bytes _ _ _ _ Hby Eb) as Hbb.
  apply slice_inv in Eb as (_ & _ & _ & Hlb & _).
  pose proof (set_token_wf d b W Hlb Hbb) as W1. set (v := set_token _ _ _) in *.
  cif; [split_and!; [done|done|lia]|]. destruct (getCtlId (ctl d) (req_partId (syncReqBuf v))) as [id| |] eqn:Ei;
    cbn [obind]; [|done|by apply no_fuel_getCtlId in Ei].
  assert (Hfr : u32_ok (req_reqIdx (syncReqBuf v))).
  { apply field32_range; [apply W1|]. destruct W1 as [_ _ Hl _ _ _ _ _ _]. unfold zlen in Hl. cbn in Hl |- *. lia. }
  pose proof (getCtlId_range _ _ _ (sw_ctl d W) Ei) as Hid. cif.
  - split_and!; [done| |lia]. destruct W1. constructor; cbn in *; try done. eauto.
  - cbn. split_and!; [done| |by apply Forall_drop|unfold u32_ok in *; lia|lia].
    destruct Hid as [Hid|Hid]; [congruence|].
    destruct W1. constructor; cbn in *; try done; [auto|].
    intros i p Hi Hp [Hx|_]; [lia|]. apply (sw_clean0 i p); auto.
Qed.

(** The analyser's variables may change as long as they stay in range, and the
    control block up to the dirty tables. *)
Lemma sync_wf_same {St} (d : daemon St) c v st :
  sync_wf d -> same_ctl (ctl d) c -> _syncState v = _syncState (sv d) -> _id v = _id (sv d) ->
  _ofst v = 0 -> zlen (syncReqBuf v) = 80 -> Forall byte_ok (syncReqBuf v) -> u32_ok (_len v) ->
  u32_ok (syncReqFrame v) -> (st = 0 \/ st = 1 \/ st = 2) -> (st = 0 <-> _syncState v = 0) ->
  sync_wf (with_sv (with_ctl d c) (set_state v st)).
Proof.
  intros W (Wc & Hn & Hp) Hs Hi Ho Hb Hby Hl Hf Hst Hz. constructor; cbn; try done.
  - rewrite Hn, Hi. intros Hne. apply W. rewrite <- Hs. tauto.
  - rewrite Hn. intros i p' Hlt Hp' Hor. destruct (lookup_lt_is_Some_2 (part (ctl d)) i) as [p Hpi].
    { destruct (sw_ctl d W) as [? Hl' _ _]. unfold zlen, RAMNV_NUM in *. lia. }
    destruct (Hp i p Hlt Hpi) as (q & Hq & Hsb). rewrite Hq in Hp'. injection Hp' as ->.
    eapply same_clean; [exact Hsb|]. eapply sw_clean; eauto. rewrite <- Hs, <- Hi. tauto.
Qed.

Lemma markDirty_same c id start num c' :
  ctl_wf c -> 0 <= id < partNum c -> u32_ok start -> u32_ok num ->
  _markDirtyInfo c id start num = Done c' -> same_ctl c c'.
Proof.
  intros W Hid Hs Hn HM.
  pose (f := fun p => let* t := mark_table (dirty (fromChannel p)) start num in
               Done (with_bufs p {| diskbuf := diskbuf (fromChannel p); dirty := t |} (backup p) (toDisk p))).
  assert (HO : on_part c id f = Done c').
  { unfold _markDirtyInfo in HM. unfold on_part, f. obind_inv HM. cbn [obind].
    destruct (mark_table _ _ _); exact HM. }
  apply on_part_inv in HO as (p & p' & Hp & Wp & Hf & ->); [|done..]. unfold f in Hf. obind_inv Hf.
  injection Hf as <-. eapply same_ctl_insert; [done|lia|done| |done].
  destruct (mark_table_spec (dirty (fromChannel p)) start num) as [Hd Hu]; [apply Wp|done..|].
  destruct (decide (num = 0 \/ 1024 < start + num)) as [Hb|Hb]; [by rewrite Hu in E|].
  destruct Hd as (t & Ht & Hlt & _); [unfold u32_ok in *; lia|].
  rewrite Ht in E. injection E as <-. destruct Wp. constructor; cbn; done.
Qed.

Lemma no_fuel_markDirty c id start num :
  ctl_wf c -> 0 <= id < partNum c -> u32_ok start -> u32_ok num ->
  no_fuel (_markDirtyInfo c id start num).
Proof.
  intros W Hid Hs Hn. unfold _markDirtyInfo. apply no_fuel_bind; [auto with nofuel|].
  intros p Hp. apply rd_inv in Hp as [_ Hp]. apply no_fuel_bind; [|auto with nofuel].
  apply no_fuel_mark; [|done..]. eapply (wf_parts c W); [|exact Hp]. lia.
Qed.

Lemma no_fuel_writeData c id start n buf : no_fuel (writeData c id start n buf).
Proof. unfold writeData. cif; nofuel. Qed.

Lemma writeData_wf c id start n buf c' :
  ctl_wf c -> 0 <= id < partNum c -> writeData c id start n buf = Done c' ->
  ctl_wf c' /\ partNum c' = partNum c /\
  forall i, Z.of_nat i <> id -> part c' !! i = part c !! i.
Proof.
  intros W Hid HW. unfold writeData in HW. destruct (n =? 0); [by injection HW as <-|].
  obind_inv HW. obind_inv HW. obind_inv HW. apply rd_inv in E as [_ E].
  rewrite <- (Z2Nat.id id) in HW by lia. rewrite set_part_in in HW by (done || lia).
  injection HW as <-. split; [|split; [done|]].
  - apply splice_inv in E1 as (_ & _ & Hz & _).
    eapply ctl_wf_insert; [done|lia|done| |done].
    pose proof (wf_parts c W (Z.to_nat id) a ltac:(lia) E) as []. constructor; cbn; try done. lia.
  - intros i Hi. cbn. apply list_lookup_insert_ne. lia.
Qed.

Lemma getBody_ok {St} (d : daemon St) buf size :
  sync_wf d -> Forall byte_ok buf -> u32_ok size -> size <> 0 -> _syncState (sv d) = 1 ->
  step_ok d buf size 2 (_syncGetBody d buf size).
Proof.
  intros W Hby Hs Hne Hst. unfold _syncGetBody. rewrite getToken_eq by (apply W || done).
  destruct (Z.ltb_spec size 20); cbn [obind negb].
  { cbn. split; [done|]. by destruct d. }
  destruct (slice buf 0 20) as [b| |] eqn:Eb; cbn [obind negb]; [|done|by apply no_fuel_slice in Eb].
  pose proof (slice_bytes _ _ _ _ Hby Eb) as Hbb.
  apply slice_inv in Eb as (_ & _ & _ & Hlb & _).
  pose proof (set_token_wf d b W Hlb Hbb) as W1. set (v := set_token _ _ _) in *.
  assert (Hfr : forall off, (off + 4 <= 80)%nat -> u32_ok (field32 (syncReqBuf v) off)).
  { intros off Ho. apply field32_range; [apply W1|]. pose proof (sw_buf _ W1) as Hl.
    unfold zlen in Hl. cbn in Hl |- *. lia. }
  pose proof (sw_id d W ltac:(lia)) as Hid.
  cif; [cif; [split_and!; [done|done|lia]|]|cif; [cif; [split_and!; [done|done|lia]|]|split_and!; [done|done|lia]]].
  - destruct (_markDirtyInfo _ _ _ _) as [c'| |] eqn:Em; cbn [obind]; [|done|].
    + split_and!; [done| |by apply Forall_drop|unfold u32_ok in *; lia|lia].
      apply markDirty_same in Em; [|apply W|done|apply Hfr; lia|apply Hfr; lia].
      apply sync_wf_same; cbn; try done; try (by apply W1); auto with cbounds; lia.
    + exfalso. revert Em. apply no_fuel_markDirty; [apply W|done|apply Hfr; lia|apply Hfr; lia].
  - split_and!; [done| |done|done]. destruct W1. constructor; cbn in *; try done. auto with cbounds.
Qed.

Lemma getData_ok {St} (d : daemon St) buf size :
  sync_wf d -> Forall byte_ok buf -> u32_ok size -> size <> 0 -> _syncState (sv d) = 2 ->
  step_ok d buf size 1 (_syncGetData d buf size).
Proof.
  intros W Hby Hs Hne Hst. pose proof (sw_id d W ltac:(lia)) as Hid. pose proof (sw_len d W) as Hl.
  assert (Hw : forall n c', writeData (ctl d) (_id (sv d)) (_start (sv d)) n buf = Done c' ->
     forall v st, _id v = _id (sv d) -> _ofst v = 0 -> zlen (syncReqBuf v) = 80 ->
       Forall byte_ok (syncReqBuf v) -> u32_ok (_len v) -> u32_ok (syncReqFrame v) ->
       st = 1 \/ st = 2 -> sync_wf (with_sv (with_ctl d c') (set_state v st))).
  { intros n c' HW v st Hi Ho Hb Hbb Hlv Hf Hst'.
    destruct (writeData_wf _ _ _ _ _ _ (sw_ctl d W) Hid HW) as (Wc & Hn & Hp).
    constructor; cbn; try done; [lia|by rewrite Hn, Hi|].
    rewrite Hn. intros i p Hi' Hpi [?|Hne']; [lia|]. rewrite Hi in Hne'.
    rewrite Hp in Hpi by done. eapply sw_clean; eauto. }
  unfold _syncGetData. cif.
  - destruct (writeData _ _ _ _ _) as [c'| |] eqn:Ew; cbn [obind];
      [|done|by apply no_fuel_writeData in Ew].
    unfold u32_ok in *. rewrite (u32_small (size - _len (sv d))) by (unfold u32_ok; lia).
    split_and!; [done| |by apply Forall_drop|unfold u32_ok; lia|lia].
    eapply Hw; eauto; cbn; try (by apply W); unfold u32_ok; lia.
  - destruct (writeData _ _ _ _ _) as [c'| |] eqn:Ew; cbn [obind];
      [|done|by apply no_fuel_writeData in Ew].
    split; [done|]. replace (with_sv _ _) with (with_sv (with_ctl d c') (set_state (set_data (sv d) (syncReqFrame (sv d))
      (u32 (_start (sv d) + size)) (u32 (_len (sv d) - size))) 2)).
    + eapply Hw; eauto; cbn; try (by apply W); auto with cbounds.
    + unfold set_state, set_data. cbn. by rewrite Hst.
Qed.

(** ** Resets *)

(** Every partition of the block is clean. *)
Definition all_clean (c : _RAMNV_CTL) : Prop :=
  forall i p, (i < Z.to_nat (partNum c))%nat -> part c !! i = Some p -> clean_part p.

Lemma idle_clean {St} (d : daemon St) : sync_wf d -> _syncState (sv d) = 0 -> all_clean (ctl d).
Proof. intros W Hs i p Hi Hp. eapply sw_clean; eauto. Qed.

(** After [_syncInit] the invariant is that every partition is clean. *)
Lemma init_wf {St} (d d' : daemon St) :
  sync_wf d -> ctl_wf (ctl d') -> all_clean (ctl d') -> sv d' = _syncInit (sv d) -> sync_wf d'.
Proof.
  intros W Wc Hc Hv. pose proof (sw_buf d W). pose proof (sw_bytes d W).
  constructor; rewrite ?Hv; cbn; try done; [by left|]. eauto.
Qed.

(** What a critical section does to the block when it makes its partition clean. *)
Lemma on_part_clean {St} (d : daemon St) f :
  sync_wf d -> 0 <= _id (sv d) < partNum (ctl d) ->
  (forall p, part_wf p -> exists p', f p = Done p' /\ part_wf p' /\ fdhandle p' = fdhandle p /\ clean_part p') ->
  exists c', on_part (ctl d) (_id (sv d)) f = Done c' /\ ctl_wf c' /\ all_clean c'.
Proof.
  intros W Hid Hf. pose proof (sw_ctl d W) as Wc. unfold on_part.
  destruct (rd_lt (part (ctl d)) (_id (sv d))) as (p & -> & Hp).
  { pose proof (wf_len _ Wc). pose proof (wf_num _ Wc). lia. }
  cbn [obind]. destruct (Hf p) as (p' & -> & Wp' & Hfd & Hcl); [eapply (wf_parts _ Wc); [|done]; lia|].
  cbn [obind]. rewrite <- (Z2Nat.id (_id (sv d))) by lia. rewrite set_part_in by (done || lia).
  eexists. split; [done|]. split; [eapply ctl_wf_insert; eauto; lia|].
  intros i q Hi Hq. cbn in *. apply list_lookup_insert_Some in Hq as [(_ & <- & _)|(Hne & Hq)]; [done|].
  eapply (sw_clean d W); [exact Hi|done|lia].
Qed.

Lemma restore_clean p :
  part_wf p -> exists p', restore_part p = Done p' /\ part_wf p' /\ fdhandle p' = fdhandle p /\ clean_part p'.
Proof.
  intros Wp. destruct (restore_part_eq p Wp) as (p' & -> & Wp' & Hb & _ & Hfd & Hs & _ & Him & _).
  exists p'. split_and!; try done. unfold clean_part. rewrite Him, Hb. unfold image, part_bytes. by rewrite Hs.
Qed.

Lemma backup_clean p :
  part_wf p -> exists p', backup_part p = Done p' /\ part_wf p' /\ fdhandle p' = fdhandle p /\ clean_part p'.
Proof.
  intros Wp. destruct (backup_part_eq p Wp) as (p' & -> & Wp' & Hf & _ & Hfd & Hs & _ & Him & _).
  exists p'. split_and!; try done. unfold clean_part. rewrite Him, Hf. unfold image, part_bytes. by rewrite Hs.
Qed.

Lemma all_clean_same c c' : ctl_wf c -> same_ctl c c' -> all_clean c -> all_clean c'.
Proof.
  intros Wc (_ & Hn & Hp) Hc i p' Hi Hp'. rewrite Hn in Hi.
  destruct (lookup_lt_is_Some_2 (part c) i) as [p Hpi].
  { pose proof (wf_num c Wc). pose proof (wf_len c Wc). unfold zlen, RAMNV_NUM in *. lia. }
  destruct (Hp i p Hi Hpi) as (q & Hq & Hs). rewrite Hq in Hp'. injection Hp' as ->.
  eapply same_clean; eauto.
Qed.

Lemma reset_false_wf {St} `{NvStore St} cali (d : daemon St) :
  sync_wf d ->
  exists d', _syncReset cali d false = Done (true, d') /\ sync_wf d' /\
    sv d' = _syncInit (sv d) /\ pk d' = pk d /\ store d' = store d.
Proof.
  intros W. unfold _syncReset. destruct (Z.eqb_spec (_syncState (sv d)) 0) as [Hs|Hs]; cbn [negb].
  - eexists. split; [done|]. split; [|done]. eapply init_wf; eauto; [apply W|exact (idle_clean d W Hs)].
  - destruct (on_part_clean d restore_part W (sw_id d W Hs) restore_clean) as (c' & Hr & Wc & Hc).
    unfold restoreData. rewrite Hr. cbn [obind].
    eexists. split; [done|]. split; [|done]. eapply init_wf; eauto; by cbn.
Qed.

(** ** Fuel of saving *)
Section NoFuelSave.
Context {St : Type} `{NvStoreLaws St}.

Lemma no_fuel_save_one (c : _RAMNV_CTL) (st : St) id : no_fuel (save_one c st id).
Proof.
  unfold save_one. apply no_fuel_bind; [auto with nofuel|]. intros p Hp. cif; [|done].
  apply no_fuel_bind.
  - apply no_fuel_on_part. intros q. unfold getData_part. nofuel.
  - intros c' _. unfold flush_part. apply no_fuel_bind; [auto with nofuel|]. intros q _.
    apply no_fuel_bind; [apply st_write_returns|]. intros [[] st'] _; nofuel.
Qed.

Lemma no_fuel_save_from n : forall id (c : _RAMNV_CTL) (st : St), no_fuel (save_from n id c st).
Proof.
  induction n as [|n IH]; intros id c st; cbn [save_from]; [done|].
  apply no_fuel_bind; [apply no_fuel_save_one|]. intros [c' st'] _. apply IH.
Qed.

Lemma reset_true_wf cali (d : daemon St) :
  sync_wf d -> _syncState (sv d) <> 0 ->
  _syncReset cali d true = Undef \/
  exists r d', _syncReset cali d true = Done (r, d') /\ sync_wf d' /\
    sv d' = _syncInit (sv d) /\ pk d' = pk d.
Proof.
  intros W Hs. unfold _syncReset, backupData.
  destruct (on_part_clean d backup_part W (sw_id d W Hs) backup_clean) as (c' & -> & Wc & Hc).
  cbn [obind]. destruct cali.
  - destruct (saveToDisk c' (store d)) as [[c2 st2]| |] eqn:Es; cbn [obind]; [|by left|].
    + right. pose proof (saveToDisk_same _ _ _ _ Wc Es) as Hsame.
      do 2 eexists. split; [done|]. split; [|done].
      eapply init_wf; [exact W|apply Hsame|eapply all_clean_same; [exact Wc|exact Hsame|done]|done].
    + by apply no_fuel_save_from in Es.
  - right. do 2 eexists. split; [done|]. split; [|done]. eapply init_wf; eauto; by cbn.
Qed.
End NoFuelSave.

(** ** The packet layer below the analyser *)
Definition read_ok (r : read_result) : Prop :=
  match r with RdBytes bs => Forall byte_ok bs | RdError => True end.

Definition pk_ok (p : packet_state) : Prop := packet_wf p /\ Forall byte_ok (packeBuf p).

Lemma channel_read_ok chan b n :
  Forall read_ok chan -> Forall byte_ok b -> 0 < n <= zlen b ->
  exists ok hasRead b' chan', channel_read chan b n = Done (ok, hasRead, b', chan') /\
    Forall read_ok chan' /\ Forall byte_ok b' /\ zlen b' = zlen b /\
    length chan' = pred (length chan) /\ (chan = [] -> ok = false).
Proof.
  intros Hc Hb Hn. destruct chan as [|[bs|] chan]; cbn [channel_read].
  - guard_true (0 <? n). exists false, 0, b, []. by split_and!.
  - inversion Hc as [|? ? Hbs Hch]; subst. cbn in Hbs.
    assert (Hz : zlen (take (Z.to_nat n) bs) <= n) by (unfold zlen; rewrite length_take; lia).
    destruct (splice b 0 (take (Z.to_nat n) bs)) as [b'| |] eqn:Es.
    + apply splice_inv in Es as (_ & _ & Hzb & ->). cbn [obind]. do 4 eexists. split; [done|].
      split_and!; try done. apply Forall_app. split; [by apply Forall_take|].
      apply Forall_app. split; [by apply Forall_take|by apply Forall_drop].
    + rewrite splice_in in Es by lia. done.
    + by apply no_fuel_splice in Es.
  - inversion Hc; subst. do 4 eexists. split; [done|]. by split_and!.
Qed.

Lemma getPacket_ok p chan :
  pk_ok p -> Forall read_ok chan ->
  exists code size p' chan', _getPacket p chan = Done (code, size, p', chan') /\
    pk_ok p' /\ Forall read_ok chan' /\ u32_ok size /\ length chan' = pred (length chan) /\
    (chan = [] -> code = _PACKET_FAIL).
Proof.
  intros [(Hl & Hg & Hs) Hby] Hc. unfold _getPacket.
  destruct (channel_read_ok chan (packeBuf p) (PACKET_HEAD_size + PACKETSIZE) Hc Hby)
    as (ok & n & b & chan' & -> & Hc' & Hb & Hzb & Hlen & Hnil).
  { rewrite Hl. unfold PACKET_HEAD_size, PACKETSIZE. lia. }
  cbn [obind _idxGrp _idxSub]. rewrite Hl in Hzb.
  assert (Hf : forall off, (off + 4 <= 1044)%nat -> u32_ok (field32 b off)).
  { intros off Ho. apply field32_range; [done|]. unfold zlen, PACKET_HEAD_size, PACKETSIZE in Hzb. lia. }
  assert (Hok : forall g s, u32_ok g -> u32_ok s -> pk_ok {| packeBuf := b; _idxGrp := g; _idxSub := s |}).
  { intros g s Hg' Hs'. done. }
  assert (H0 : u32_ok 0) by (split; lia).
  repeat cif; do 4 eexists; (split; [done|]); split_and!; try done; auto with cbounds;
    try (apply Hok; auto with cbounds); try (apply Hf; lia);
    intros ->; specialize (Hnil eq_refl); congruence.
Qed.

(** ** Every session terminates and leaves no half-done request *)
Section Session.
Context {St : Type} `{NvStoreLaws St}.
Variable cali : bool.

(** [m] is undefined or ends in a daemon with the invariant and the given
    packet state. *)
Definition ends_wf (p : packet_state) (m : outcome (daemon St)) : Prop :=
  m = Undef \/ exists d, m = Done d /\ sync_wf d /\ pk d = p.

Lemma respond_wf (d : daemon St) r : sync_wf d -> sync_wf (respond d r).
Proof. intros []. by constructor. Qed.

Lemma analyse_wf fuel : forall (d : daemon St) buf size,
  sync_wf d -> Forall byte_ok buf -> u32_ok size ->
  2 * size + (if _syncState (sv d) =? 2 then 1 else 0) < Z.of_nat fuel ->
  ends_wf (pk d) (analyse cali fuel d buf size).
Proof.
  induction fuel as [|fuel IH]; intros d buf size W Hb Hs Hf; [unfold u32_ok in *; destruct (_ =? 2); lia|].
  cbn [analyse]. destruct (Z.eqb_spec size 0) as [->|Hne].
  { right. by exists d. }
  assert (Hfail : forall d1, sync_wf d1 -> pk d1 = pk d ->
    ends_wf (pk d) (let* (_, d) := _syncReset cali d1 false in Done (respond d 0))).
  { intros d1 W1 <-. destruct (reset_false_wf cali d1 W1) as (d2 & -> & W2 & _ & Hp & _).
    right. eexists. split; [done|]. split; [by apply respond_wf|done]. }
  assert (Hcont : forall d1 r, sync_wf d1 -> pk d1 = pk d -> ends_wf (pk d) (Done (respond d1 r))).
  { intros d1 r W1 Hp. right. eexists. split; [done|]. split; [by apply respond_wf|done]. }
  assert (Hstep : forall d1 buf1 size1 st, pk d1 = pk d ->
    sync_wf (with_sv d1 (set_state (sv d1) st)) -> Forall byte_ok buf1 -> u32_ok size1 ->
    (size1 < size \/ size1 = size /\ _syncState (sv d) = 2 /\ st = 1) ->
    ends_wf (pk d) (analyse cali fuel (with_sv d1 (set_state (sv d1) st)) buf1 size1)).
  { intros d1 buf1 size1 st Hp W1 Hb1 Hs1 Hlt. rewrite <- Hp.
    apply (IH (with_sv d1 (set_state (sv d1) st))); try done. cbn.
    unfold u32_ok in *. destruct Hlt as [Hlt|(-> & H2 & ->)];
      [destruct (st =? 2), (_syncState (sv d) =? 2); lia|].
    rewrite H2 in Hf. cbn in Hf |- *. lia. }
  destruct (Z.eqb_spec (_syncState (sv d)) 0) as [Hz|Hz].
  - pose proof (getHead_ok d buf size W Hb Hs Hne Hz) as Hk.
    destruct (_syncGetHead d buf size) as [[[[[] d1] buf1] size1]| |]; cbn [step_ok obind] in Hk |- *;
      [| | | |by left|done]; destruct Hk as [Hp Hk].
    + by apply Hcont.
    + destruct Hk as (W1 & Hb1 & Hs1 & Hlt). apply Hstep; try done. lia.
    + lia.
    + apply Hfail; [apply Hk|done].
  - destruct (Z.eqb_spec (_syncState (sv d)) 1) as [Ho|Ho].
    + pose proof (getBody_ok d buf size W Hb Hs Hne Ho) as Hk.
      destruct (_syncGetBody d buf size) as [[[[[] d1] buf1] size1]| |]; cbn [step_ok obind] in Hk |- *;
        [| | | |by left|done]; destruct Hk as [Hp Hk].
      * by apply Hcont.
      * destruct Hk as (W1 & Hb1 & Hs1 & Hlt). apply Hstep; try done. lia.
      * destruct Hk as (W1 & _ & Hst1).
        destruct (reset_true_wf cali d1 W1) as [->|(r & d2 & -> & W2 & _ & Hp2)]; [lia|by left|].
        apply Hcont; [done|congruence].
      * apply Hfail; [apply Hk|done].
    + assert (H2 : _syncState (sv d) = 2) by (pose proof (sw_state d W); lia).
      pose proof (getData_ok d buf size W Hb Hs Hne H2) as Hk.
      destruct (_syncGetData d buf size) as [[[[[] d1] buf1] size1]| |]; cbn [step_ok obind] in Hk |- *;
        [| | | |by left|done]; destruct Hk as [Hp Hk].
      * by apply Hcont.
      * destruct Hk as (W1 & Hb1 & Hs1 & Hlt). apply Hstep; try done. lia.
      * lia.
      * lia.
Qed.

Lemma sv_busy_wf (d : daemon St) : sync_wf d -> sync_wf (with_sv d (set_busy (sv d))).
Proof. intros []. by constructor. Qed.

Lemma with_pk_wf (d : daemon St) p : sync_wf d -> sync_wf (with_pk d p).
Proof. intros []. by constructor. Qed.

Lemma analyse_fuel_ok (d : daemon St) buf size :
  sync_wf d -> Forall byte_ok buf -> u32_ok size ->
  ends_wf (pk d) (analyse cali (analyse_fuel size) d buf size).
Proof.
  intros W Hb Hs. apply analyse_wf; try done. unfold analyse_fuel, u32_ok in *.
  destruct (_ =? 2); lia.
Qed.

Lemma sync_packet_wf (d : daemon St) chan :
  sync_wf d -> pk_ok (pk d) -> Forall read_ok chan ->
  sync_packet cali d chan = Undef \/
  exists more d' chan', sync_packet cali d chan = Done (more, d', chan') /\
    sync_wf d' /\ pk_ok (pk d') /\ Forall read_ok chan' /\ length chan' = pred (length chan) /\
    (chan = [] -> more = false) /\ (more = false -> sv d' = _syncInit (sv d)).
Proof.
  intros W Hp Hc. unfold sync_packet.
  destruct (getPacket_ok (pk d) chan Hp Hc) as (code & size & p' & chan' & -> & Hp' & Hc' & Hs & Hl & Hnil).
  cbn [obind]. pose proof (with_pk_wf d p' W) as W1.
  set (buf := drop (Z.to_nat PACKET_HEAD_size) (packeBuf p')).
  assert (Hb : Forall byte_ok buf) by (apply Forall_drop, Hp').
  assert (Hgo : forall d1, sync_wf d1 -> pk d1 = p' -> chan <> [] ->
    let m := let* d := analyse cali (analyse_fuel size) (with_sv d1 (set_busy (sv d1))) buf size in
             Done (true, d, chan') in
    m = Undef \/ exists more d' chan'0, m = Done (more, d', chan'0) /\ sync_wf d' /\ pk_ok (pk d') /\
      Forall read_ok chan'0 /\ length chan'0 = pred (length chan) /\
      (chan = [] -> more = false) /\ (more = false -> sv d' = _syncInit (sv d))).
  { intros d1 Wd Hpd Hne. pose proof (sv_busy_wf d1 Wd) as Wb.
    destruct (analyse_fuel_ok _ buf size Wb Hb Hs) as [->|(d2 & -> & W2 & Hp2)]; [by left|].
    right. cbn in Hp2. rewrite Hpd in Hp2. cbn. do 3 eexists. split; [done|]. rewrite Hp2. by split_and!. }
  destruct (Z.eqb_spec code _PACKET_FAIL) as [->|Hnf].
  { destruct (reset_false_wf cali _ W1) as (d2 & -> & W2 & Hv & Hpk & _). right. cbn [obind].
    do 3 eexists. split; [done|]. rewrite Hpk. by split_and!. }
  assert (Hne : chan <> []) by (intros ->; auto).
  destruct ((code =? _PACKET_START) && _syncBusy (sv (with_pk d p'))).
  { destruct (reset_false_wf cali _ W1) as (d2 & -> & W2 & Hv & Hpk & _). cbn [obind]. by apply Hgo. }
  destruct (_ && _); [right|destruct (code =? _PACKET_SKIP); [right|by apply Hgo]].
  - do 3 eexists. split; [done|]. split_and!; try done. by apply respond_wf.
  - do 3 eexists. split; [done|]. by split_and!.
Qed.

Lemma syncAnalyzer_loop_wf fuel : forall (d : daemon St) chan,
  sync_wf d -> pk_ok (pk d) -> Forall read_ok chan -> (length chan < fuel)%nat ->
  syncAnalyzer_loop cali fuel d chan = Undef \/
  exists d' chan', syncAnalyzer_loop cali fuel d chan = Done (d', chan') /\
    sync_wf d' /\ pk_ok (pk d') /\ _syncState (sv d') = 0 /\ _syncBusy (sv d') = false.
Proof.
  induction fuel as [|fuel IH]; intros d chan W Hp Hc Hf; [lia|]. cbn [syncAnalyzer_loop].
  destruct (sync_packet_wf d chan W Hp Hc) as [->|(more & d' & chan' & -> & W' & Hp' & Hc' & Hl & Hnil & Hst)];
    [by left|]. cbn [obind]. destruct more.
  - apply IH; try done. destruct chan; [|cbn in *; lia]. by specialize (Hnil eq_refl).
  - right. do 2 eexists. split; [done|]. by rewrite Hst.
Qed.

(** A daemon between two connections. *)
Record between (d : daemon St) : Prop := {
  bt_ctl : ctl_wf (ctl d);
  bt_clean : all_clean (ctl d);
  bt_pk : pk_ok (pk d);
  bt_buf : zlen (syncReqBuf (sv d)) = 80;
  bt_bytes : Forall byte_ok (syncReqBuf (sv d))
}.

Lemma session_start (d : daemon St) :
  between d -> let d0 := with_sv (with_pk d (_initPacket (pk d))) (_syncInit (sv d)) in
  sync_wf d0 /\ pk_ok (pk d0).
Proof.
  intros [Wc Hcl [(Hl & _ & _) Hb] Hz Hbz]. split; [constructor; cbn; try done; [by left|eauto]|].
  assert (H32 : u32_ok (u32 (-1)) /\ u32_ok 0) by (split; [auto with cbounds|split; lia]). by destruct H32.
Qed.

Lemma session_wf (d : daemon St) chan :
  between d -> Forall read_ok chan ->
  session cali d chan = Undef \/
  exists d' chan', session cali d chan = Done (d', chan') /\ sync_wf d' /\ pk_ok (pk d') /\
    _syncState (sv d') = 0 /\ _syncBusy (sv d') = false.
Proof.
  intros Hbt Hc. destruct (session_start d Hbt) as [W0 Hp0].
  apply syncAnalyzer_loop_wf; [done|done|done|lia].
Qed.

Lemma session_between (d : daemon St) chan d' chan' :
  between d -> Forall read_ok chan -> session cali d chan = Done (d', chan') -> between d'.
Proof.
  intros Hd Hc Hs. destruct (session_wf d chan Hd Hc) as [E|(d2 & ch2 & E & W2 & Hp & Hst & _)];
    rewrite E in Hs; [done|]. injection Hs as <- <-.
  constructor; try (by apply W2); [by eapply idle_clean|done].
Qed.

(** ** Channels on which a session is defined

    A request is taken as it comes: a body may announce no sector at all, or
    sectors beyond the partition, and a packet a size close to 2^32.  The checks
    below run along a session and say that none of these happens. *)

(** The token at the head of the rest of the packet, when it is a body that
    follows, announces at least one sector and only sectors of the partition. *)
Definition body_fits (d : daemon St) (buf : list Z) (size : Z) : bool :=
  let t := take 20 buf in
  if (20 <=? size) && (SYNC_REQ_BODY =? req_packet_type t) && (u32 (syncReqFrame (sv d) + 1) =? req_reqIdx t)
  then match part (ctl d) !! Z.to_nat (_id (sv d)) with
       | Some p => (1 <=? req_num t) && (req_start t + req_num t <=? Z.min (sctNum p) 1024)
       | None => false
       end
  else true.

(** All bodies of a packet. *)
Fixpoint bodies_fit (fuel : nat) (d : daemon St) (buf : list Z) (size : Z) : bool :=
  match fuel with
  | O => true
  | S fuel =>
      if size =? 0 then true
      else
        let '(r, next) := if _syncState (sv d) =? 0 then (_syncGetHead d buf size, 1)
                          else if _syncState (sv d) =? 1 then (_syncGetBody d buf size, 2)
                          else (_syncGetData d buf size, 1) in
        (negb (_syncState (sv d) =? 1) || body_fits d buf size) &&
        match r with
        | Done (SYNC_NEXT, d, buf, size) => bodies_fit fuel (with_sv d (set_state (sv d) next)) buf size
        | _ => true
        end
  end.

(** The daemon that analyses an accepted packet. *)
Definition analyser (d : daemon St) (code : Z) (p : packet_state) : daemon St :=
  let d := with_pk d p in
  let d := if (code =? _PACKET_START) && _syncBusy (sv d)
           then match _syncReset cali d false with Done (_, d) => d | _ => d end else d in
  with_sv d (set_busy (sv d)).

(** All packets of a channel. *)
Fixpoint channel_fits (fuel : nat) (d : daemon St) (chan : list read_result) : bool :=
  match fuel with
  | O => true
  | S fuel =>
      match _getPacket (pk d) chan with
      | Done (code, size, p, _) =>
          ((code =? _PACKET_FAIL) || (code =? _PACKET_SKIP) ||
           (code =? _PACKET_CONTINUE) && negb (_syncBusy (sv d)) ||
           (size <=? PACKETSIZE) &&
           bodies_fit (analyse_fuel size) (analyser d code p) (drop (Z.to_nat PACKET_HEAD_size) (packeBuf p)) size)
      | _ => true
      end &&
      match sync_packet cali d chan with
      | Done (true, d, chan) => channel_fits fuel d chan
      | _ => true
      end
  end.

Definition requests_fit (d : daemon St) (chan : list read_result) : bool :=
  channel_fits (S (length chan)) (with_sv (with_pk d (_initPacket (pk d))) (_syncInit (sv d))) chan.

(** Two blocks with the same partitions. *)
Definition same_shape (c c' : _RAMNV_CTL) : Prop :=
  partNum c' = partNum c /\
  forall i p, (i < Z.to_nat (partNum c))%nat -> part c !! i = Some p ->
    exists p', part c' !! i = Some p' /\ fdhandle p' = fdhandle p /\ sctNum p' = sctNum p.

Lemma same_ctl_shape c c' : same_ctl c c' -> same_shape c c'.
Proof.
  intros (_ & Hn & Hp). split; [done|]. intros i p Hi Hpi.
  destruct (Hp i p Hi Hpi) as (q & Hq & Hs & _ & Hf & _). eauto.
Qed.

Lemma same_shape_insert c i p p' :
  part c !! i = Some p -> fdhandle p' = fdhandle p -> sctNum p' = sctNum p ->
  same_shape c {| partNum := partNum c; part := <[i := p']> (part c) |}.
Proof.
  intros Hp Hf Hs. split; [done|]. intros j q Hj Hq. cbn. destruct (decide (i = j)) as [<-|Hne].
  - exists p'. rewrite list_lookup_insert_eq by (by eapply lookup_lt_Some). rewrite Hp in Hq. by injection Hq as <-.
  - exists q. by rewrite list_lookup_insert_ne by done.
Qed.

Lemma on_part_shape c id f c' :
  ctl_wf c -> 0 <= id < partNum c -> on_part c id f = Done c' ->
  (forall p p', part_wf p -> f p = Done p' -> fdhandle p' = fdhandle p /\ sctNum p' = sctNum p) ->
  same_shape c c'.
Proof.
  intros W Hid HO Hf. apply on_part_inv in HO as (p & p' & Hp & Wp & Hfp & ->); [|done..].
  destruct (Hf p p' Wp Hfp). by eapply same_shape_insert.
Qed.

Lemma all_writable_shape c c' (st : St) :
  ctl_wf c -> same_shape c c' -> all_writable c st -> all_writable c' st.
Proof.
  intros Wc (Hn & Hp) Hc i p' Hi Hp'. rewrite Hn in Hi.
  destruct (lookup_lt_is_Some_2 (part c) i) as [p Hpi].
  { pose proof (wf_num c Wc). pose proof (wf_len c Wc). unfold zlen, RAMNV_NUM in *. lia. }
  destruct (Hp i p Hi Hpi) as (q & Hq & Hf & Hs). rewrite Hq in Hp'. injection Hp' as ->.
  unfold part_bytes. rewrite Hf, Hs. by apply (Hc i p).
Qed.

Lemma getCtlId_done c id : ctl_wf c -> getCtlId c id <> Undef.
Proof.
  intros [Hn Hl _ _]. unfold getCtlId. assert (Hle : (Z.to_nat (partNum c) <= length (part c))%nat) by (unfold zlen in Hl; lia).
  clear Hl Hn. revert Hle. generalize (Z.to_nat (partNum c)) as n. generalize 0 as i.
  induction (part c) as [|p ps IH]; intros i [|n] Hle; cbn [getCtlId_from length] in *; try done; try lia.
  cif; [done|]. apply IH.
  lia.
Qed.

(** The sectors still expected lie in the partition. *)
Definition data_ok (d : daemon St) : Prop :=
  _syncState (sv d) = 2 -> exists p, part (ctl d) !! Z.to_nat (_id (sv d)) = Some p /\
    0 <= _start (sv d) /\ _start (sv d) + _len (sv d) <= RAMNV_SECT_SIZE * sctNum p.

Definition step_good (d : daemon St) (next : Z) (r : outcome (sync_ret * daemon St * list Z * Z)) : Prop :=
  match r with
  | Done (ret, d', buf', size') =>
      store d' = store d /\ same_shape (ctl d) (ctl d') /\
      match ret with
      | SYNC_NEXT => size' <= zlen buf' /\ data_ok (with_sv d' (set_state (sv d') next))
      | SYNC_CONTINUE => data_ok d'
      | _ => True
      end
  | Undef => False
  | Fuel => True
  end.

Lemma same_shape_refl c : same_shape c c.
Proof. split; [done|]. eauto. Qed.

Lemma zlen_drop_Z (l : list Z) n : 0 <= n <= zlen l -> zlen (drop (Z.to_nat n) l) = zlen l - n.
Proof. unfold zlen. rewrite length_drop. lia. Qed.

Lemma getHead_good (d : daemon St) buf size :
  sync_wf d -> u32_ok size -> size <> 0 -> size <= zlen buf -> _syncState (sv d) = 0 ->
  step_good d 1 (_syncGetHead d buf size).
Proof.
  intros W Hs Hne Hle Hst. unfold _syncGetHead. rewrite getToken_eq by (apply W || done).
  pose proof (same_shape_refl (ctl d)). unfold u32_ok in Hs.
  destruct (Z.ltb_spec size 20); cbn [obind negb].
  { split_and!; try done. intros E. cbn in E. lia. }
  rewrite slice_in by lia. cbn [obind negb]. cif; [done|].
  pose proof (getCtlId_done (ctl d)) as Hd.
  destruct (getCtlId _ _) as [id| |] eqn:Ei; cbn [obind]; [|by apply Hd in Ei; [|apply W]|done].
  cif; [done|]. split_and!; try done. pose proof (zlen_drop_Z buf 20 ltac:(lia)) as Hz.
  change (Z.to_nat 20) with 20%nat in Hz. lia.
Qed.

Lemma getBody_good (d : daemon St) buf size :
  sync_wf d -> Forall byte_ok buf -> u32_ok size -> size <> 0 -> size <= zlen buf -> _syncState (sv d) = 1 ->
  body_fits d buf size = true -> step_good d 2 (_syncGetBody d buf size).
Proof.
  intros W Hby Hs Hne Hle Hst Hfit. unfold _syncGetBody. rewrite getToken_eq by (apply W || done).
  pose proof (same_shape_refl (ctl d)) as Hrefl. unfold u32_ok in Hs.
  destruct (Z.ltb_spec size 20); cbn [obind negb].
  { split_and!; try done. intros E. cbn in E. lia. }
  rewrite slice_in by lia. cbn [obind negb]. change (Z.to_nat 20) with 20%nat. change (Z.to_nat 0) with 0%nat. rewrite drop_0.
  assert (Hl20 : length (take 20 buf) = 20%nat) by (rewrite length_take; unfold zlen in Hle; lia).
  assert (Hfld : forall off k, (off + 4 <= 20)%nat -> field32 (take 20 buf ++ k) off = field32 (take 20 buf) off).
  { intros off k Ho. apply field32_app_l. lia. }
  assert (Hu : forall off, (off + 4 <= 20)%nat -> u32_ok (field32 (take 20 buf) off)).
  { intros off Ho. apply field32_range; [by apply Forall_take|lia]. }
  cbn [set_token syncReqBuf syncReqFrame]. unfold req_packet_type, req_reqIdx, req_start, req_num in *.
  rewrite !Hfld by lia. unfold body_fits, req_packet_type, req_reqIdx, req_start, req_num in Hfit.
  rewrite (proj2 (Z.leb_le 20 size)) in Hfit by lia. cbn [andb] in Hfit.
  destruct (SYNC_REQ_BODY =? _) eqn:Et; cbn [andb] in Hfit; [|cif; [cif; done|done]].
  destruct (u32 (syncReqFrame (sv d) + 1) =? _) eqn:Ef; cbn [negb]; [|done].
  destruct (part (ctl d) !! Z.to_nat (_id (sv d))) as [p|] eqn:Ep; [|discriminate]. btrue.
  pose proof (sw_id d W ltac:(lia)) as Hid. pose proof (Hu 12%nat ltac:(lia)) as H12. pose proof (Hu 16%nat ltac:(lia)) as H16.
  unfold u32_ok in H12, H16. pose proof (sw_ctl d W) as Wc. pose proof (wf_parts _ Wc (Z.to_nat (_id (sv d))) p ltac:(lia) Ep) as Wp.
  destruct (_markDirtyInfo _ _ _ _) as [c'| |] eqn:Em; cbn [obind]; [| |done].
  - apply markDirty_same in Em; [|done|done|by apply Hu; lia|by apply Hu; lia].
    pose proof (same_ctl_shape _ _ Em) as Hsh. destruct Hsh as [Hn Hp].
    split_and!; [done|done|pose proof (zlen_drop_Z buf 20 ltac:(lia)) as Hz; change (Z.to_nat 20) with 20%nat in Hz; lia|].
    intros _. cbn. destruct (Hp (Z.to_nat (_id (sv d))) p ltac:(lia) Ep) as (p' & Hp' & _ & Hsn). exists p'. rewrite Hsn. split; [done|].
    pose proof (wf_u32 p Wp). unfold RAMNV_SECT_SIZE in *. rewrite !u32_small by (unfold u32_ok; lia). lia.
  - revert Em. cbn [set_token _id]. unfold _markDirtyInfo. rewrite (rd_Some _ _ p) by (done || lia). cbn [obind].
    destruct (mark_table_spec (dirty (fromChannel p)) (field32 (take 20 buf) 12) (field32 (take 20 buf) 16)) as [Hd _];
      [apply Wp|by apply Hu; lia|by apply Hu; lia|].
    destruct Hd as (t & -> & _); [lia|]. cbn [obind]. rewrite <- (Z2Nat.id (_id (sv d))) by lia.
    by rewrite set_part_in by (done || lia).
Qed.

Lemma getData_good (d : daemon St) buf size :
  sync_wf d -> u32_ok size -> size <> 0 -> size <= zlen buf -> _syncState (sv d) = 2 -> data_ok d ->
  step_good d 1 (_syncGetData d buf size).
Proof.
  intros W Hs Hne Hle Hst Hd. destruct (Hd Hst) as (p & Hp & Hst0 & Hfit). unfold u32_ok in Hs.
  pose proof (sw_id d W ltac:(lia)) as Hid. pose proof (sw_len d W) as Hl. unfold u32_ok in Hl.
  pose proof (sw_ctl d W) as Wc. pose proof (wf_parts _ Wc (Z.to_nat (_id (sv d))) p ltac:(lia) Hp) as Wp.
  pose proof (wf_u32 p Wp) as Hu. pose proof (wf_from p Wp) as Hfr.
  assert (Hw : forall n, 0 <= n <= _len (sv d) -> n <= size -> exists c',
    writeData (ctl d) (_id (sv d)) (_start (sv d)) n buf = Done c' /\ same_shape (ctl d) c').
  { intros n Hn Hns. unfold writeData. destruct (Z.eqb_spec n 0); [eexists; split; [done|apply same_shape_refl]|].
    rewrite (rd_Some _ _ p) by (done || lia). cbn [obind]. rewrite slice_in by lia. cbn [obind].
    rewrite splice_in by (unfold zlen in *; rewrite ?length_take, ?length_drop; lia). cbn [obind].
    rewrite <- (Z2Nat.id (_id (sv d))) by lia. rewrite set_part_in by (done || lia).
    eexists. split; [done|]. by eapply same_shape_insert. }
  unfold _syncGetData. cif.
  - destruct (Hw (_len (sv d))) as (c' & -> & Hsh); [lia..|]. cbn [obind]. split_and!; try done.
    rewrite zlen_drop_Z by lia. rewrite u32_small by (unfold u32_ok; lia). lia.
  - destruct (Hw size) as (c' & -> & [Hn Hsh]); [lia..|]. cbn [obind]. split_and!; try done.
    intros _. cbn. destruct (Hsh (Z.to_nat (_id (sv d))) p ltac:(lia) Hp) as (p' & Hp' & _ & Hsn). exists p'. rewrite Hsn.
    rewrite !u32_small by (unfold u32_ok; lia). split; [done|]. lia.
Qed.

(** In calibration mode the partitions can be saved. *)
Definition can_save (d : daemon St) : Prop := cali = true -> all_writable (ctl d) (store d).

Definition good (d : daemon St) : Prop := data_ok d /\ can_save d.

Definition fine (m : outcome (daemon St)) : Prop :=
  match m with Done d => good d | Undef => False | Fuel => True end.

Lemma can_save_shape (d d' : daemon St) :
  sync_wf d -> same_shape (ctl d) (ctl d') -> store d' = store d -> can_save d -> can_save d'.
Proof. intros W Hs Hst Hc E. rewrite Hst. eapply all_writable_shape; [apply W|done|by apply Hc]. Qed.

Lemma idle_good (d : daemon St) : _syncState (sv d) = 0 -> can_save d -> good d.
Proof. intros Hs Hc. split; [|done]. intros E. lia. Qed.

Lemma reset_false_good (d : daemon St) :
  sync_wf d -> can_save d -> exists d', _syncReset cali d false = Done (true, d') /\ good d'.
Proof.
  intros W Hc. destruct (reset_false_wf cali d W) as (d' & Hr & W' & Hv & _ & Hst). exists d'. split; [done|].
  apply idle_good; [by rewrite Hv|]. apply (can_save_shape d d' W); [|done|done]. revert Hr. unfold _syncReset.
  destruct (Z.eqb_spec (_syncState (sv d)) 0) as [Hs|Hs]; cbn [negb]; intros Hr.
  - injection Hr as <-. apply same_shape_refl.
  - obind_inv Hr. injection Hr as <-. cbn. eapply on_part_shape; [apply W|by apply W|exact E|].
    intros p p' Wp Hp. destruct (restore_part_eq p Wp) as (q & Hq & _ & _ & _ & Hf & Hn & _).
    rewrite Hq in Hp. by injection Hp as <-.
Qed.

Lemma reset_true_good (d : daemon St) :
  sync_wf d -> _syncState (sv d) <> 0 -> can_save d ->
  exists r d', _syncReset cali d true = Done (r, d') /\ good d'.
Proof.
  intros W Hs Hc. unfold _syncReset, backupData.
  destruct (on_part_clean d backup_part W (sw_id d W Hs) backup_clean) as (c' & Ho & Wc & Hcl).
  rewrite Ho. cbn [obind].
  assert (Hsh : same_shape (ctl d) c').
  { eapply on_part_shape; [apply W|by apply W|exact Ho|]. intros p p' Wp Hp.
    destruct (backup_part_eq p Wp) as (q & Hq & _ & _ & _ & Hf & Hn & _). rewrite Hq in Hp. by injection Hp as <-. }
  unfold can_save in Hc. destruct cali eqn:Ec.
  - destruct (saveToDisk_eq c' (store d) Wc) as (c2 & st2 & -> & _ & _ & Hw & _).
    { eapply all_writable_shape; [apply W|done|auto]. }
    cbn [obind]. do 2 eexists. split; [done|]. apply idle_good; [done|]. by intros _.
  - do 2 eexists. split; [done|]. apply idle_good; [done|]. intros E. congruence.
Qed.

Lemma respond_good (d : daemon St) r : good d -> good (respond d r).
Proof. done. Qed.

Lemma analyse_good fuel : forall (d : daemon St) buf size,
  sync_wf d -> Forall byte_ok buf -> u32_ok size -> size <= zlen buf -> good d ->
  bodies_fit fuel d buf size = true -> fine (analyse cali fuel d buf size).
Proof.
  induction fuel as [|fuel IH]; intros d buf size W Hb Hs Hle Hg Hfit; [done|].
  cbn [analyse bodies_fit] in *. destruct (Z.eqb_spec size 0) as [->|Hne]; [done|].
  destruct Hg as [Hd Hc].
  assert (Hfail : forall d1, sync_wf d1 -> can_save d1 ->
    fine (let* (_, d) := _syncReset cali d1 false in Done (respond d 0))).
  { intros d1 W1 Hc1. by destruct (reset_false_good d1 W1 Hc1) as (d2 & -> & Hg2). }
  destruct (Z.eqb_spec (_syncState (sv d)) 0) as [Hz|Hz]; [rewrite ?Hz in Hfit|
    destruct (Z.eqb_spec (_syncState (sv d)) 1) as [Ho|Ho]; [rewrite ?Ho in Hfit|]]; cbn [negb orb andb] in Hfit.
  - change (0 =? 1) with false in Hfit. cbn [negb orb andb] in Hfit.
    pose proof (getHead_ok d buf size W Hb Hs Hne Hz) as Hk. pose proof (getHead_good d buf size W Hs Hne Hle Hz) as Hgd.
    destruct (_syncGetHead d buf size) as [[[[[] d1] buf1] size1]| |]; cbn [step_ok step_good obind] in *; try done;
      destruct Hgd as (Hst & Hsh & Hgd); pose proof (can_save_shape d d1 W Hsh Hst Hc) as Hc1.
    + by split.
    + destruct Hk as (_ & W1 & Hb1 & Hs1 & _). destruct Hgd as [Hle1 Hd1]. apply IH; try done.
    + destruct Hk as (_ & _ & Hk & _). lia.
    + apply Hfail; [apply Hk|done].
  - apply andb_true_iff in Hfit as [Hbf Hfit].
    pose proof (getBody_ok d buf size W Hb Hs Hne Ho) as Hk. pose proof (getBody_good d buf size W Hb Hs Hne Hle Ho Hbf) as Hgd.
    destruct (_syncGetBody d buf size) as [[[[[] d1] buf1] size1]| |]; cbn [step_ok step_good obind] in *; try done;
      destruct Hgd as (Hst & Hsh & Hgd); pose proof (can_save_shape d d1 W Hsh Hst Hc) as Hc1.
    + by split.
    + destruct Hk as (_ & W1 & Hb1 & Hs1 & _). destruct Hgd as [Hle1 Hd1]. apply IH; try done.
    + destruct Hk as (_ & W1 & _ & Hs1). by destruct (reset_true_good d1 W1 ltac:(lia) Hc1) as (r & d2 & -> & Hg2).
    + apply Hfail; [apply Hk|done].
  - assert (H2 : _syncState (sv d) = 2) by (pose proof (sw_state d W); lia).
    pose proof (getData_ok d buf size W Hb Hs Hne H2) as Hk. pose proof (getData_good d buf size W Hs Hne Hle H2 Hd) as Hgd.
    destruct (_syncGetData d buf size) as [[[[[] d1] buf1] size1]| |]; cbn [step_ok step_good obind] in *; try done;
      destruct Hgd as (Hst & Hsh & Hgd); pose proof (can_save_shape d d1 W Hsh Hst Hc) as Hc1.
    + by split.
    + destruct Hk as (_ & W1 & Hb1 & Hs1 & _). destruct Hgd as [Hle1 Hd1]. apply IH; try done.
    + destruct Hk as (_ & _ & Hk & _). lia.
    + destruct Hk as (_ & _ & Hk). lia.
Qed.

Lemma sync_packet_good (d : daemon St) chan fuel :
  sync_wf d -> pk_ok (pk d) -> Forall read_ok chan -> good d -> channel_fits (S fuel) d chan = true ->
  match sync_packet cali d chan with
  | Done (more, d', chan') => good d' /\ (more = true -> channel_fits fuel d' chan' = true)
  | Undef => False
  | Fuel => True
  end.
Proof.
  intros W Hp Hc Hg Hfit. cbn [channel_fits] in Hfit. apply andb_true_iff in Hfit as [Hpk Hrest].
  assert (Hgood : match sync_packet cali d chan with Done (_, d', _) => good d' | Undef => False | Fuel => True end).
  { clear Hrest. unfold sync_packet.
    destruct (getPacket_ok (pk d) chan Hp Hc) as (code & size & p' & chan' & E & Hp' & _ & Hs & _ & _).
    rewrite E in Hpk |- *. cbn [obind]. pose proof (with_pk_wf d p' W) as W1. destruct Hg as [Hd Hcs].
    set (buf := drop (Z.to_nat PACKET_HEAD_size) (packeBuf p')) in *.
    assert (Hb : Forall byte_ok buf) by (apply Forall_drop, Hp').
    assert (Hz : zlen buf = PACKETSIZE).
    { destruct Hp' as [(Hl & _) _]. unfold buf. rewrite zlen_drop_Z; unfold PACKET_HEAD_size, PACKETSIZE in *; lia. }
    destruct (Z.eqb_spec code _PACKET_FAIL) as [->|Hnf].
    { by destruct (reset_false_good (with_pk d p') W1 Hcs) as (d2 & -> & Hg2). }
    assert (Hgo : forall d1, sync_wf d1 -> good d1 -> size <= PACKETSIZE ->
      bodies_fit (analyse_fuel size) (with_sv d1 (set_busy (sv d1))) buf size = true ->
      match let* d := analyse cali (analyse_fuel size) (with_sv d1 (set_busy (sv d1))) buf size in Done (true, d, chan') with
      | Done (_, d', _) => good d' | Undef => False | Fuel => True end).
    { intros d1 Wd Hgd Hle Hf. pose proof (sv_busy_wf d1 Wd) as Wb.
      pose proof (analyse_good _ (with_sv d1 (set_busy (sv d1))) buf size Wb Hb Hs ltac:(lia) Hgd Hf) as Hm.
      by destruct (analyse _ _ _ _ _). }
    unfold analyser in Hpk. cbn [orb sv with_pk] in *.
    destruct ((code =? _PACKET_START) && _syncBusy (sv d)) eqn:Es.
    { apply andb_true_iff in Es as [Es Hbu]. apply Z.eqb_eq in Es as ->. rewrite Hbu in Hpk.
      destruct (reset_false_good (with_pk d p') W1 Hcs) as (d2 & E2 & Hg2).
      destruct (reset_false_wf cali (with_pk d p') W1) as (d3 & E3 & W3 & _). rewrite E2 in E3. injection E3 as <-.
      rewrite E2 in Hpk |- *. cbn in Hpk. apply andb_true_iff in Hpk as [Hle Hf]. apply Hgo; try done. by apply Z.leb_le. }
    destruct ((code =? _PACKET_CONTINUE) && negb (_syncBusy (sv d))); [done|].
    destruct (code =? _PACKET_SKIP); [done|]. cbn [orb] in Hpk.
    apply andb_true_iff in Hpk as [Hle Hf]. apply (Hgo (with_pk d p')); try done. by apply Z.leb_le. }
  destruct (sync_packet cali d chan) as [[[[] d'] chan']| |]; [|by split|done..]. split; [done|]. by intros _.
Qed.

Lemma loop_good fuel : forall (d : daemon St) chan,
  sync_wf d -> pk_ok (pk d) -> Forall read_ok chan -> good d -> channel_fits fuel d chan = true ->
  syncAnalyzer_loop cali fuel d chan <> Undef.
Proof.
  induction fuel as [|fuel IH]; intros d chan W Hp Hc Hg Hfit; [done|].
  pose proof (sync_packet_good d chan fuel W Hp Hc Hg Hfit) as Hk. cbn [syncAnalyzer_loop].
  destruct (sync_packet_wf d chan W Hp Hc) as [E|(more & d' & chan' & E & W' & Hp' & Hc' & _)];
    rewrite E in Hk |- *; [done|]. cbn [obind]. destruct more; [|done]. destruct Hk as [Hg' Hf']. apply IH; auto.
Qed.

(** C22. A session over any finite sequence of reads returns, and it is
    transactional.  Start from an idle daemon whose partitions are clean; the
    channel delivers any bytes, short reads, errors and packets in any
    order, and then nothing.  The loops of the session end; if every access was
    defined the session ends idle, with a well-formed block and every partition
    clean: the data of a request that its tail did not complete is gone from
    the channel buffers.  Every access is defined when no accepted packet claims more
    than 1024 bytes, every body announces at least one sector and only sectors of
    its partition ([requests_fit], checked along the session), and, in
    calibration mode, the partitions can be saved. *)
Theorem session_terminates_clean (d : daemon St) chan :
  ctl_wf (ctl d) -> all_clean (ctl d) -> pk_ok (pk d) -> Forall read_ok chan ->
  zlen (syncReqBuf (sv d)) = 80 -> Forall byte_ok (syncReqBuf (sv d)) ->
  session cali d chan <> Fuel /\
  (forall d' chan', session cali d chan = Done (d', chan') ->
    ctl_wf (ctl d') /\ all_clean (ctl d') /\ _syncState (sv d') = 0 /\ _syncBusy (sv d') = false) /\
  (requests_fit d chan = true -> (cali = true -> all_writable (ctl d) (store d)) ->
    exists d' chan', session cali d chan = Done (d', chan')).
Proof.
  intros Wc Hcl Hp Hc Hz Hbz. assert (Hbt : between d) by done.
  destruct (session_start d Hbt) as [W0 Hp0]. split_and!.
  - by destruct (session_wf d chan Hbt Hc) as [->|(? & ? & -> & _)].
  - intros d' chan' E. destruct (session_wf d chan Hbt Hc) as [E'|(d2 & ch2 & E' & W2 & _ & Hs & Hbu)];
      rewrite E' in E; [done|]. injection E as <- <-. split_and!; try done; [apply W2|by eapply idle_clean].
  - intros Hfit Hw. pose proof (loop_good (S (length chan)) _ chan W0 Hp0 Hc) as Hu.
    destruct (session_wf d chan Hbt Hc) as [E|(d2 & ch2 & E & _)]; [|by exists d2, ch2].
    exfalso. apply Hu; [by apply idle_good|done|exact E].
Qed.

End Session.

(** ** Concrete instance *)
Definition zero_sync : sync_vars :=
  {| _syncState := 0; _syncBusy := false; syncReqFrame := 0; syncReqBuf := replicate 80 0;
     _ofst := 0; _id := u32 (-1); _start := 0; _len := 0 |}.

Definition ex_daemon : daemon fs_state :=
  {| sv := zero_sync; pk := ex_packet_state; ctl := ex_ctl; store := ex_fs; out := []; events := 0 |}.

Lemma ex_ctl0_wf : ctl_wf ex_ctl.
Proof.
  constructor; [vm_compute; split; discriminate|reflexivity| |].
  - intros [|[|i]] p Hi Hp; [| |exfalso; vm_compute in Hi; lia];
      injection Hp as <-; apply ex_part_wf; vm_compute; congruence.
  - intros [|[|i]] [|[|j]] p q Hi Hj Hp Hq Hf; try done;
      try (exfalso; vm_compute in Hi, Hj; lia);
      injection Hp as <-; injection Hq as <-; vm_compute in Hf; discriminate Hf.
Qed.

Lemma ex_ctl0_clean : all_clean ex_ctl.
Proof.
  intros [|[|i]] p Hi Hp; [| |exfalso; vm_compute in Hi; lia];
    injection Hp as <-; vm_compute; reflexivity.
Qed.

Lemma bytes_ok_dec l : forallb (fun b => (0 <=? b) && (b <? 256)) l = true -> Forall byte_ok l.
Proof.
  induction l as [|b l IH]; cbn; intros E; [done|]. btrue. constructor; [by split|by apply IH].
Qed.

Lemma ex_pk_ok : pk_ok ex_packet_state.
Proof. split; [exact ex_packet_wf|]. apply bytes_ok_dec. vm_compute. reflexivity. Qed.

(** A head packet, then a short read. *)
Definition ex_chan : list read_result :=
  [RdBytes (mk_packet 5 0 (le_bytes 4 0 ++ le_bytes 4 9 ++ le_bytes 4 1 ++ le_bytes 4 512 ++ le_bytes 4 0));
   RdBytes [1; 2; 3]].

Lemma session_terminates_clean_witness :
  session false ex_daemon ex_chan <> Fuel /\
  exists d' chan', session false ex_daemon ex_chan = Done (d', chan') /\
    ctl_wf (ctl d') /\ all_clean (ctl d') /\ _syncState (sv d') = 0 /\ _syncBusy (sv d') = false.
Proof.
  destruct (session_terminates_clean false ex_daemon ex_chan) as (Hf & Hd & Hx).
  - exact ex_ctl0_wf.
  - exact ex_ctl0_clean.
  - exact ex_pk_ok.
  - apply Forall_cons; split; [|apply Forall_singleton]; apply bytes_ok_dec; vm_compute; reflexivity.
  - reflexivity.
  - apply bytes_ok_dec. reflexivity.
  - split; [exact Hf|]. destruct Hx as (d' & chan' & E); [vm_compute; reflexivity|discriminate|].
    exists d', chan'. split; [exact E|]. exact (Hd d' chan' E).
Defined.

(** The session really finishes. *)
Example ex_session_done :
  match session false ex_daemon ex_chan with Done (d, []) => _syncState (sv d) =? 0 | _ => false end = true.
Proof. vm_compute. reflexivity. Qed.
