(* ===== verification/NvRequest.v ===== *)
(** * What a request means: the protocol of apps/nvitem

    The specification of the analyser of nvitem_sync.c.  A request is a
    sequence of pieces; an abstract machine gives their meaning as updates of
    an image.  The theorems show that the code implements it on the packets
    that carry the pieces, and where the code and the protocol part. *)

From S2P Require Import Prelude OnesComplement NvFs NvBuf NvPacket NvSync.

(** ** Pieces and their encoding *)
Inductive piece :=
| PHead (partId frame sctSize : Z)
| PBody (frame partId start num : Z)
| PData (bs : list Z)
| PTail (frame partId : Z).

Definition enc_token (ty idx id a b : Z) : list Z :=
  le_bytes 4 ty ++ le_bytes 4 idx ++ le_bytes 4 id ++ le_bytes 4 a ++ le_bytes 4 b.

Definition enc_piece (p : piece) : list Z :=
  match p with
  | PHead id f s => enc_token SYNC_REQ_HEAD f id s 0
  | PBody f id s n => enc_token SYNC_REQ_BODY f id s n
  | PData bs => bs
  | PTail f id => enc_token SYNC_REQ_TAIL f id 0 0
  end.

Definition enc_pieces (ps : list piece) : list Z := concat (map enc_piece ps).

Definition piece_ok (p : piece) : Prop :=
  match p with
  | PHead id f s => u32_ok id /\ u32_ok f /\ u32_ok s
  | PBody f id s n => u32_ok f /\ u32_ok id /\ u32_ok s /\ u32_ok n
  | PData bs => Forall byte_ok bs
  | PTail f id => u32_ok f /\ u32_ok id
  end.

(** ** The abstract machine *)

(** A request in progress: its partition, the last number seen, the image
    built so far and the sector ranges announced. *)
Record areq := {
  r_id : nat;
  r_sct : Z;
  r_frame : Z;
  r_img : list Z;
  r_marks : list (Z * Z)
}.

Inductive astate :=
| AIdle
| ABody (r : areq)
| AData (r : areq) (start len : Z)
| ADone (r : areq).

Definition set_img (img : list Z) (start : Z) (bs : list Z) : list Z :=
  take (Z.to_nat start) img ++ bs ++ drop (Z.to_nat start + length bs) img.

Definition marked (ms : list (Z * Z)) (k : Z) : bool :=
  existsb (fun '(s, n) => in_range s n k) ms.

Definition astep (c0 : _RAMNV_CTL) (a : astate) (p : piece) : option astate :=
  match a, p with
  | AIdle, PHead id f _ =>
      match getCtlId c0 id with
      | Done i =>
          if i =? u32 (-1) then None
          else match part c0 !! Z.to_nat i with
               | Some q => Some (ABody {| r_id := Z.to_nat i; r_sct := sctNum q; r_frame := f;
                                          r_img := diskbuf (fromChannel q); r_marks := [] |})
               | None => None
               end
      | _ => None
      end
  | ABody r, PBody f _ s n =>
      if (f =? u32 (r_frame r + 1)) && (1 <=? n) && (s + n <=? r_sct r) && (s + n <=? 1024)
      then Some (AData {| r_id := r_id r; r_sct := r_sct r; r_frame := f; r_img := r_img r;
                          r_marks := (s, n) :: r_marks r |}
                       (RAMNV_SECT_SIZE * s) (RAMNV_SECT_SIZE * n))
      else None
  | AData r start len, PData bs =>
      let r' := {| r_id := r_id r; r_sct := r_sct r; r_frame := r_frame r;
                   r_img := set_img (r_img r) start bs; r_marks := r_marks r |} in
      if zlen bs =? 0 then None
      else if zlen bs =? len then Some (ABody r')
      else if zlen bs <? len then Some (AData r' (start + zlen bs) (len - zlen bs))
      else None
  | ABody r, PTail f _ => if f =? u32 (r_frame r + 1) then Some (ADone r) else None
  | _, _ => None
  end.

(** Sectors that are not yet complete and the tail end their packet. *)
Definition ends_packet (a : astate) (p : piece) : bool :=
  match a, p with
  | AData _ _ _, PData _ | ADone _, _ => true
  | _, _ => false
  end.

(** The pieces of one packet. *)
Fixpoint arun (c0 : _RAMNV_CTL) (a : astate) (ps : list piece) : option astate :=
  match ps with
  | [] => Some a
  | p :: ps' =>
      match astep c0 a p with
      | Some a' => if ends_packet a' p then match ps' with [] => Some a' | _ => None end
                   else arun c0 a' ps'
      | None => None
      end
  end.

(** Whether a packet is answered: it is when it ends inside the sectors of a body
    or with the tail, and not when it ends with a token or a complete body. *)
Fixpoint acks (c0 : _RAMNV_CTL) (a : astate) (ps : list piece) : bool :=
  match ps with
  | [] => false
  | p :: ps' =>
      match astep c0 a p with
      | Some a' => if ends_packet a' p then true else acks c0 a' ps'
      | None => false
      end
  end.

(** The positive answer to a packet. *)
Definition answer (g sub : Z) : list Z := mk_head g sub 1 ++ 1 :: replicate 15 0.

(** The answers to the packets of a request. *)
Fixpoint answers (c0 : _RAMNV_CTL) (a : astate) (g sub : Z) (pss : list (list piece)) : list (list Z) :=
  match pss with
  | [] => []
  | ps :: pss' =>
      (if acks c0 a ps then [answer g sub] else []) ++
      match arun c0 a ps with Some a' => answers c0 a' g (u32 (sub + 1)) pss' | None => [] end
  end.

(** The packets of one request. *)
Fixpoint arun_packets (c0 : _RAMNV_CTL) (a : astate) (pss : list (list piece)) : option astate :=
  match pss with
  | [] => Some a
  | ps :: pss' => match arun c0 a ps with
                  | Some a' => arun_packets c0 a' pss'
                  | None => None
                  end
  end.

Definition packet_ok (ps : list piece) : Prop :=
  Forall piece_ok ps /\ 0 < zlen (enc_pieces ps) <= PACKETSIZE.

(** ** The relation between the abstract machine and the daemon *)
Section Refine.
Context {St : Type} `{NvStore St}.
Variables (cali : bool) (c0 : _RAMNV_CTL) (st0 : St) (ev0 : nat).

(** The partition of a request in progress: only the channel buffer differs
    from the block the request started from. *)
Definition in_progress (r : areq) (d : daemon St) : Prop :=
  exists p0 t, (r_id r < Z.to_nat (partNum c0))%nat /\ part c0 !! r_id r = Some p0 /\
    r_sct r = sctNum p0 /\ zlen (r_img r) = zlen (diskbuf (fromChannel p0)) /\
    zlen t = 32 /\ u32_ok (r_frame r) /\
    (forall k, 0 <= k < 1024 -> dirty_bit t k = dirty_bit (dirty (fromChannel p0)) k || marked (r_marks r) k) /\
    ctl d = {| partNum := partNum c0;
               part := <[r_id r := with_bufs p0 {| diskbuf := r_img r; dirty := t |} (backup p0) (toDisk p0)]>
                       (part c0) |} /\
    store d = st0 /\ events d = ev0 /\ _id (sv d) = Z.of_nat (r_id r) /\ syncReqFrame (sv d) = r_frame r /\
    _syncBusy (sv d) = true.

(** What follows the copy to the backup, which left the block [c1]: in calibration
    mode the block is saved at once, else the saver is woken. *)
Definition after_backup (c1 : _RAMNV_CTL) (d : daemon St) : Prop :=
  if cali then saveToDisk c1 st0 = Done (ctl d, store d) /\ events d = ev0
  else ctl d = c1 /\ store d = st0 /\ events d = S ev0.

(** A committed request: the backup holds its image. *)
Definition committed (r : areq) (d : daemon St) : Prop :=
  exists p0 p', (r_id r < Z.to_nat (partNum c0))%nat /\ part c0 !! r_id r = Some p0 /\
    after_backup {| partNum := partNum c0; part := <[r_id r := p']> (part c0) |} d /\ part_wf p' /\
    image p' (backup p') = take (Z.to_nat (part_bytes p0)) (r_img r) /\
    image p' (fromChannel p') = image p' (backup p') /\
    toDisk p' = toDisk p0 /\ fdhandle p' = fdhandle p0 /\ sctNum p' = sctNum p0 /\
    (forall k, 0 <= k < 1024 -> dirty_bit (dirty (backup p')) k =
       dirty_bit (dirty (backup p0)) k || (dirty_bit (dirty (fromChannel p0)) k || marked (r_marks r) k)).

Definition buf_ok (v : sync_vars) : Prop := _ofst v = 0 /\ zlen (syncReqBuf v) = 80.

Definition rel (a : astate) (d : daemon St) : Prop :=
  buf_ok (sv d) /\
  match a with
  | AIdle => _syncState (sv d) = 0 /\ ctl d = c0 /\ store d = st0 /\ events d = ev0
  | ABody r => _syncState (sv d) = 1 /\ in_progress r d
  | AData r start len =>
      _syncState (sv d) = 2 /\ in_progress r d /\ _start (sv d) = start /\ _len (sv d) = len /\
      0 <= start /\ 0 < len < 2 ^ 32 /\ start + len <= RAMNV_SECT_SIZE * r_sct r
  | ADone r => _syncState (sv d) = 0 /\ _syncBusy (sv d) = false /\ committed r d
  end.
End Refine.

(** Merging two dirty tables. *)
Lemma dirty_bit_zip (l k : list Z) i :
  zlen l = zlen k -> dirty_bit (zip_with Z.lor l k) i = dirty_bit l i || dirty_bit k i.
Proof.
  intros Hl. unfold dirty_bit, zlen in *. rewrite lookup_zip_with.
  destruct (l !! Z.to_nat (i / 32)) eqn:E1, (k !! Z.to_nat (i / 32)) eqn:E2; cbn.
  - apply Z.lor_spec.
  - apply lookup_lt_Some in E1. apply lookup_ge_None in E2. lia.
  - apply lookup_lt_Some in E2. apply lookup_ge_None in E1. lia.
  - by rewrite Z.bits_0.
Qed.

(** A numeral that fits. *)
Ltac u32c := split; vm_compute; congruence.

(** ** Reading a token *)
Lemma zlen_token ty idx id a b : zlen (enc_token ty idx id a b) = 20.
Proof. unfold enc_token. by autorewrite with cnorm. Qed.

Lemma token_fields ty idx id a b k :
  u32_ok ty -> u32_ok idx -> u32_ok id -> u32_ok a -> u32_ok b ->
  let t := enc_token ty idx id a b ++ k in
  req_packet_type t = ty /\ req_reqIdx t = idx /\ req_partId t = id /\ req_start t = a /\ req_num t = b.
Proof.
  intros H1 H2 H3 H4 H5 t. unfold t, req_packet_type, req_reqIdx, req_partId, req_start, req_num, enc_token.
  split_and!.
  - rewrite <- app_assoc. by apply field32_le.
  - rewrite <- !app_assoc. rewrite field32_app_r by reflexivity. by apply field32_le.
  - rewrite <- !app_assoc, app_assoc. rewrite field32_app_r by reflexivity. by apply field32_le.
  - rewrite <- !app_assoc, app_assoc, app_assoc. rewrite field32_app_r by reflexivity. by apply field32_le.
  - rewrite <- !app_assoc, app_assoc, app_assoc, app_assoc.
    rewrite field32_app_r by reflexivity. by apply field32_le.
Qed.

(** A token at the head of the rest of the packet is read whole. *)
Lemma getToken_token v tok rest n :
  buf_ok v -> zlen tok = 20 -> 0 <= n -> 20 + n < 2 ^ 32 ->
  __getToken v (tok ++ rest) (20 + n) =
    Done (true, set_token v (tok ++ drop 20 (syncReqBuf v)) 0, rest, n).
Proof.
  intros [Ho Hb] Ht Hn Hlt. rewrite getToken_eq by (unfold u32_ok; done || lia).
  guard_false (20 + n <? 20). pose proof (zlen_nonneg rest).
  rewrite slice_in by (rewrite ?zlen_app; lia). change (Z.to_nat 0) with 0%nat. rewrite drop_0.
  unfold zlen in Ht. rewrite take_app_length' by lia. cbn [obind].
  rewrite drop_app_length' by lia. do 2 f_equal. lia.
Qed.

(** ** One piece *)
Section Steps.
Context {St : Type} `{NvStore St}.
Variables (cali : bool) (c0 : _RAMNV_CTL) (st0 : St) (ev0 : nat).
Hypothesis Wc0 : ctl_wf c0.
#[local] Notation rel := (rel cali c0 st0 ev0).

Definition same_io (d d' : daemon St) : Prop := pk d' = pk d /\ out d' = out d.

Lemma buf_ok_token v tok : buf_ok v -> zlen tok = 20 -> buf_ok (set_token v (tok ++ drop 20 (syncReqBuf v)) 0).
Proof.
  intros [_ Hb] Ht. split; [done|]. cbn. rewrite zlen_app, Ht. unfold zlen in *. rewrite length_drop. lia.
Qed.

Lemma head_step d id f s a rest n :
  rel AIdle d -> _syncBusy (sv d) = true -> piece_ok (PHead id f s) -> astep c0 AIdle (PHead id f s) = Some a ->
  0 <= n -> 20 + n < 2 ^ 32 ->
  exists d', rel a d' /\ same_io d d' /\
    forall fuel, analyse cali (S fuel) d (enc_piece (PHead id f s) ++ rest) (20 + n) = analyse cali fuel d' rest n.
Proof.
  intros (Hb & Hs & Hc & Hst & Hev) Hbu (Hid & Hf & Hsz) Ha Hn Hlt. cbn [astep] in Ha.
  destruct (getCtlId c0 id) as [i| |] eqn:Ei; try discriminate.
  destruct (Z.eqb_spec i (u32 (-1))) as [|Hi]; [discriminate|].
  destruct (part c0 !! Z.to_nat i) as [q|] eqn:Eq; [|discriminate]. injection Ha as <-.
  destruct (getCtlId_range c0 id i Wc0 Ei) as [|Hr]; [done|].
  cbn [analyse]. guard_false (20 + n =? 0). rewrite Hs, Z.eqb_refl.
  unfold _syncGetHead. rewrite getToken_token by (done || apply zlen_token). cbn [obind negb].
  destruct (token_fields SYNC_REQ_HEAD f id s 0 (drop 20 (syncReqBuf (sv d)))) as (E1 & E2 & E3 & _);
    [by u32c|done|done|done|by u32c|].
  cbn [set_token syncReqBuf enc_piece]. rewrite E1, E2, E3, Hc, Ei. cbn [obind].
  rewrite Z.eqb_refl. cbn [negb]. rewrite (proj2 (Z.eqb_neq _ _)) by congruence. cbn [obind].
  eexists. split; [|split; [|reflexivity]]; [|done].
  split; [exact (buf_ok_token (sv d) (enc_token SYNC_REQ_HEAD f id s 0) Hb (zlen_token _ _ _ _ _))|].
  cbn. split; [done|]. exists q, (dirty (fromChannel q)). cbn.
  pose proof (wf_parts _ Wc0 (Z.to_nat i) q ltac:(lia) Eq) as Wq.
  split_and!; try done; try lia; [apply Wq| |].
  - intros k Hk. by rewrite orb_false_r.
  - rewrite list_insert_id; [by destruct c0|]. rewrite Eq. f_equal. by destruct q as [? ? [] ? ? ?].
Qed.

(** Reading a record of the request in progress. *)
Lemma in_progress_mark r (d : daemon St) s n c f :
  in_progress c0 st0 ev0 r d -> 0 <= s -> 1 <= n -> s + n <= 1024 -> u32_ok f ->
  exists c', _markDirtyInfo (ctl d) (_id (sv d)) s n = Done c' /\
    forall v, _id v = _id (sv d) -> syncReqFrame v = f -> _syncBusy v = _syncBusy (sv d) ->
    in_progress c0 st0 ev0 {| r_id := r_id r; r_sct := r_sct r; r_frame := f; r_img := r_img r;
                              r_marks := (s, n) :: r_marks r |} (with_sv (with_ctl (with_ctl d c) c') v).
Proof.
  intros (p0 & t & Hi & Hp0 & Hsct & Himg & Hzt & Hfr & Ht & Hctl & Hst & Hev & Hid & Hf & Hbu) Hs Hn Hb Huf.
  unfold _markDirtyInfo. rewrite Hctl, Hid. set (p := with_bufs p0 _ _ _). set (c1 := {| partNum := _; part := _ |}).
  assert (Hlt : (r_id r < length (part c0))%nat) by (by eapply lookup_lt_Some).
  assert (Hl : part c1 !! r_id r = Some p) by (by apply list_lookup_insert_eq).
  rewrite (rd_part c1 (r_id r) p Hl). cbn [obind].
  destruct (mark_table_spec t s n) as [Hm _]; [done|unfold u32_ok; lia|unfold u32_ok; lia|].
  destruct Hm as (t' & Hm & Hzt' & Ht'); [lia|]. cbn [p with_bufs fromChannel dirty diskbuf].
  rewrite Hm. cbn [obind]. unfold set_part. rewrite wr_in
    by (unfold zlen; cbn; rewrite length_insert; lia).
  cbn [obind]. eexists. split; [done|]. intros v Hv Hvf Hvb. exists p0, t'.
  split_and!; cbn; try done; try congruence.
  - intros k Hk. rewrite Ht' by done. rewrite Ht by done.
    rewrite <- orb_assoc. f_equal. apply orb_comm.
  - rewrite Nat2Z.id. f_equal. by rewrite list_insert_insert_eq.
Qed.

Lemma body_step r d f id s k a rest n :
  rel (ABody r) d -> piece_ok (PBody f id s k) -> astep c0 (ABody r) (PBody f id s k) = Some a ->
  0 <= n -> 20 + n < 2 ^ 32 ->
  exists d', rel a d' /\ same_io d d' /\
    forall fuel, analyse cali (S fuel) d (enc_piece (PBody f id s k) ++ rest) (20 + n) = analyse cali fuel d' rest n.
Proof.
  intros (Hb & Hs & Hip) (Hf & Hid & Hks & Hk) Ha Hn Hlt. cbn [astep] in Ha.
  destruct (_ && _) eqn:E in Ha; [|discriminate]. injection Ha as <-. btrue.
  cbn [analyse]. guard_false (20 + n =? 0). rewrite Hs. cbn match.
  unfold _syncGetBody. rewrite getToken_token by (done || apply zlen_token). cbn [obind negb].
  destruct (token_fields SYNC_REQ_BODY f id s k (drop 20 (syncReqBuf (sv d)))) as (E1 & E2 & _ & E3 & E4);
    [by u32c|done|done|done|done|].
  cbn [set_token syncReqBuf enc_piece syncReqFrame _id]. rewrite E1, E2, E3, E4. cbn match.
  assert (Hfr : syncReqFrame (sv d) = r_frame r) by (by destruct Hip as (? & ? & ?); intuition).
  rewrite Hfr. replace (u32 (r_frame r + 1) =? f) with true by (symmetry; apply Z.eqb_eq; congruence).
  cbn [negb]. unfold u32_ok in Hks, Hk.
  destruct (in_progress_mark r d s k (ctl d) f Hip) as (c' & -> & Hnew); [lia..|done|]. cbn [obind].
  eexists. split; [|split; [|reflexivity]]; [|done].
  pose proof (buf_ok_token (sv d) (enc_token SYNC_REQ_BODY f id s k) Hb (zlen_token _ _ _ _ _)) as Hb'.
  split; [exact Hb'|]. split; [done|].
  destruct Hip as (p0 & ? & Hi & Hp0 & Hsct & _). pose proof (wf_parts _ Wc0 _ _ Hi Hp0) as Wp.
  destruct Wp as [? Hu _ _ _ _ _ _]. unfold RAMNV_SECT_SIZE in *.
  split; [by apply Hnew|]. cbn. rewrite !u32_small by (unfold u32_ok; lia). lia.
Qed.

Lemma in_progress_write r (d : daemon St) start bs rest :
  in_progress c0 st0 ev0 r d -> 0 < zlen bs -> 0 <= start -> start + zlen bs <= RAMNV_SECT_SIZE * r_sct r ->
  exists c', writeData (ctl d) (_id (sv d)) start (zlen bs) (bs ++ rest) = Done c' /\
    forall v, _id v = _id (sv d) -> syncReqFrame v = syncReqFrame (sv d) -> _syncBusy v = _syncBusy (sv d) ->
    in_progress c0 st0 ev0 {| r_id := r_id r; r_sct := r_sct r; r_frame := r_frame r;
                              r_img := set_img (r_img r) start bs; r_marks := r_marks r |}
      (with_sv (with_ctl d c') v).
Proof.
  intros (p0 & t & Hi & Hp0 & Hsct & Himg & Hzt & Hfr & Ht & Hctl & Hst & Hev & Hid & Hf & Hbu) Hb Hs Hle.
  unfold writeData. guard_false (zlen bs =? 0). rewrite Hctl, Hid.
  set (p := with_bufs p0 _ _ _). set (c1 := {| partNum := _; part := _ |}).
  assert (Hlt : (r_id r < length (part c0))%nat) by (by eapply lookup_lt_Some).
  assert (Hl : part c1 !! r_id r = Some p) by (by apply list_lookup_insert_eq).
  rewrite (rd_part c1 (r_id r) p Hl). cbn [obind].
  pose proof (zlen_nonneg rest). rewrite slice_in by (rewrite ?zlen_app; lia).
  change (Z.to_nat 0) with 0%nat. rewrite drop_0, take_app_length' by (unfold zlen; lia). cbn [obind].
  pose proof (wf_parts _ Wc0 _ _ Hi Hp0) as Wp. pose proof (wf_from p0 Wp).
  cbn [p with_bufs fromChannel dirty diskbuf].
  assert (Hsp : splice (r_img r) start bs = Done (set_img (r_img r) start bs)) by (apply splice_in; lia).
  rewrite Hsp. cbn [obind]. unfold set_part. rewrite wr_in by (unfold zlen; cbn; rewrite length_insert; lia).
  cbn [obind]. eexists. split; [done|]. intros v Hv Hvf Hvb. exists p0, t.
  apply splice_inv in Hsp as (_ & _ & Hz & _).
  split_and!; cbn; try done; try congruence.
  rewrite Nat2Z.id. f_equal. by rewrite list_insert_insert_eq.
Qed.

Lemma data_full_step r d start len bs a rest n :
  rel (AData r start len) d -> astep c0 (AData r start len) (PData bs) = Some a -> zlen bs = len ->
  0 <= n -> len + n < 2 ^ 32 ->
  exists d', rel a d' /\ same_io d d' /\
    forall fuel, analyse cali (S fuel) d (bs ++ rest) (len + n) = analyse cali fuel d' rest n.
Proof.
  intros (Hb & Hs & Hip & Hst & Hln & H0 & Hl & Hle) Ha Hz Hn Hlt. cbn [astep] in Ha.
  rewrite Hz, Z.eqb_refl in Ha. destruct (Z.eqb_spec len 0); [lia|]. injection Ha as <-.
  cbn [analyse]. guard_false (len + n =? 0). rewrite Hs. cbn match.
  unfold _syncGetData. rewrite Hln, Hst. guard_true (len <=? len + n).
  destruct (in_progress_write r d start bs rest Hip) as (c' & Hw & Hnew); [lia..|].
  rewrite Hz in Hw. rewrite Hw. cbn [obind].
  rewrite drop_app_length' by (unfold zlen in Hz; lia).
  rewrite (u32_small (len + n - len)) by (unfold u32_ok; lia). replace (len + n - len) with n by lia.
  eexists. split; [|split; [|reflexivity]]; [|done].
  split; [exact Hb|]. split; [done|]. by apply Hnew.
Qed.

Lemma data_part_step r d start len bs a fuel rest :
  rel (AData r start len) d -> astep c0 (AData r start len) (PData bs) = Some a -> zlen bs < len ->
  exists d', rel a d' /\ pk d' = pk d /\ out d' = _sendPacktRsp (pk d) (out d) 1 /\
    analyse cali (S fuel) d (bs ++ rest) (zlen bs) = Done d'.
Proof.
  intros (Hb & Hs & Hip & Hst & Hln & H0 & Hl & Hle) Ha Hz. cbn [astep] in Ha.
  destruct (Z.eqb_spec (zlen bs) 0) as [|Hne]; [discriminate|].
  destruct (Z.eqb_spec (zlen bs) len); [lia|]. destruct (Z.ltb_spec (zlen bs) len); [|lia].
  injection Ha as <-. pose proof (zlen_nonneg bs).
  cbn [analyse]. guard_false (zlen bs =? 0). rewrite Hs. cbn match.
  unfold _syncGetData. rewrite Hln, Hst. guard_false (len <=? zlen bs).
  destruct (in_progress_write r d start bs rest Hip) as (c' & -> & Hnew); [lia..|]. cbn [obind].
  eexists. split; [|split; [|split; [|reflexivity]]]; [|done|done].
  split; [exact Hb|]. split; [exact Hs|]. split; [by apply Hnew|]. cbn.
  assert (RAMNV_SECT_SIZE * r_sct r < 2 ^ 32).
  { destruct Hip as (p0 & ? & Hi & Hp0 & -> & _). apply (wf_parts _ Wc0 _ _ Hi Hp0). }
  rewrite !u32_small by (unfold u32_ok; lia). lia.
Qed.

(** ** One packet *)
Lemma rel_busy a p a1 d1 : astep c0 a p = Some a1 -> ends_packet a1 p = false -> rel a1 d1 ->
  _syncBusy (sv d1) = true.
Proof.
  intros Ha He Hr. destruct Hr as [_ Hr].
  destruct a1; [|destruct Hr as (_ & ? & ? & Hr)|destruct Hr as (_ & (? & ? & Hr) & _)|by destruct p].
  - destruct a, p; cbn [astep] in Ha; repeat case_match; congruence.
  - intuition.
  - intuition.
Qed.

Lemma astep_token_end a p a1 :
  astep c0 a p = Some a1 ->
  match p with PHead _ _ _ | PBody _ _ _ _ => ends_packet a1 p = false | _ => True end.
Proof.
  intros Ha. destruct a, p; try done; cbn [astep] in Ha;
    repeat case_match; try discriminate Ha; by injection Ha as <-.
Qed.

Lemma zlen_pieces p ps : zlen (enc_pieces (p :: ps)) = zlen (enc_piece p) + zlen (enc_pieces ps).
Proof. apply zlen_app. Qed.

Lemma enc_pieces_cons p ps : enc_pieces (p :: ps) = enc_piece p ++ enc_pieces ps.
Proof. done. Qed.

(** A packet that is answered ends with the piece that ends it. *)
Lemma acks_split ps : forall a a', arun c0 a ps = Some a' -> acks c0 a ps = true ->
  exists qs p a1, ps = qs ++ [p] /\ arun c0 a qs = Some a1 /\ acks c0 a qs = false /\
    astep c0 a1 p = Some a' /\ ends_packet a' p = true.
Proof.
  induction ps as [|p ps IH]; intros a a' Ha Hk; cbn [arun acks] in *; [done|].
  destruct (astep c0 a p) as [a1|] eqn:Es; [|done]. destruct (ends_packet a1 p) eqn:Ee.
  - destruct ps; [|done]. injection Ha as <-. by exists [], p, a.
  - destruct (IH a1 a' Ha Hk) as (qs & q & a2 & -> & H1 & H2 & H3 & H4). exists (p :: qs), q, a2.
    cbn [arun acks app]. rewrite Es, Ee. by split_and!.
Qed.

(** Pieces that do not end their packet. *)
Lemma arun_more ps : forall a d a' rest n,
  rel a d -> _syncBusy (sv d) = true -> Forall piece_ok ps -> arun c0 a ps = Some a' -> acks c0 a ps = false ->
  0 <= n -> zlen (enc_pieces ps) + n < 2 ^ 32 ->
  exists d', rel a' d' /\ same_io d d' /\ _syncBusy (sv d') = true /\ forall fuel,
    analyse cali (length ps + fuel) d (enc_pieces ps ++ rest) (zlen (enc_pieces ps) + n) = analyse cali fuel d' rest n.
Proof.
  induction ps as [|p ps IH]; intros a d a' rest n Hr Hbu Hok Ha Hk Hn Hz.
  { injection Ha as <-. by exists d. }
  apply Forall_cons in Hok as [Hp Hok]. cbn [arun acks] in Ha, Hk.
  destruct (astep c0 a p) as [a1|] eqn:Es; [|discriminate]. destruct (ends_packet a1 p) eqn:Ee; [discriminate|].
  rewrite zlen_pieces in *. rewrite enc_pieces_cons, <- app_assoc. cbn [length Nat.add].
  pose proof (zlen_nonneg (enc_pieces ps)) as Hnn. pose proof (zlen_nonneg (enc_piece p)) as Hnp.
  assert (Hstep : exists d1, rel a1 d1 /\ same_io d d1 /\ forall fuel,
    analyse cali (S fuel) d (enc_piece p ++ enc_pieces ps ++ rest) (zlen (enc_piece p) + (zlen (enc_pieces ps) + n)) =
    analyse cali fuel d1 (enc_pieces ps ++ rest) (zlen (enc_pieces ps) + n)).
  { destruct a as [|r|r start len|r], p as [id f s|f id s k|bs|f id]; try discriminate.
    - change (zlen (enc_piece (PHead id f s))) with (zlen (enc_token SYNC_REQ_HEAD f id s 0)) in *. rewrite zlen_token in *.
      destruct (head_step d id f s a1 (enc_pieces ps ++ rest) (zlen (enc_pieces ps) + n) Hr Hbu Hp Es ltac:(lia) ltac:(lia))
        as (d1 & Hr1 & Hio & Heq). by exists d1.
    - change (zlen (enc_piece (PBody f id s k))) with (zlen (enc_token SYNC_REQ_BODY f id s k)) in *. rewrite zlen_token in *.
      destruct (body_step r d f id s k a1 (enc_pieces ps ++ rest) (zlen (enc_pieces ps) + n) Hr Hp Es ltac:(lia) ltac:(lia))
        as (d1 & Hr1 & Hio & Heq). by exists d1.
    - cbn [astep] in Es. destruct (f =? _) in Es; [|discriminate Es]. injection Es as <-. discriminate Ee.
    - cbn [enc_piece] in *. destruct (decide (zlen bs = len)) as [He|He].
      + destruct (data_full_step r d start len bs a1 (enc_pieces ps ++ rest) (zlen (enc_pieces ps) + n) Hr Es He ltac:(lia) ltac:(lia))
          as (d1 & Hr1 & Hio & Heq). exists d1. by rewrite He.
      + cbn [astep] in Es. rewrite (proj2 (Z.eqb_neq _ _) He) in Es.
        destruct (_ =? 0) in Es; [discriminate Es|]. destruct (_ <? _) in Es; [|discriminate Es]. injection Es as <-. discriminate Ee. }
  destruct Hstep as (d1 & Hr1 & [Hpk Hout] & Heq).
  destruct (IH a1 d1 a' rest n Hr1 (rel_busy _ _ _ _ Es Ee Hr1) Hok Ha Hk Hn ltac:(lia)) as (d' & H1 & [H2 H3] & H4 & H5).
  exists d'. split; [done|]. split; [split; congruence|]. split; [done|]. intros fuel. rewrite <- Z.add_assoc, Heq. apply H5.
Qed.

Lemma arun_length ps : forall a a', arun c0 a ps = Some a' -> (length ps <= length (enc_pieces ps))%nat.
Proof.
  induction ps as [|p ps IH]; intros a a' Ha; [done|]. cbn [arun] in Ha.
  destruct (astep c0 a p) as [a1|] eqn:Es; [|discriminate].
  assert (Hp : (1 <= length (enc_piece p))%nat).
  { destruct p as [| |bs|]; cbn [enc_piece]; try (cbn; lia).
    destruct bs; [|cbn; lia]. by destruct a. }
  rewrite enc_pieces_cons, length_app. cbn [length].
  destruct (ends_packet a1 p) in Ha; [destruct ps; [cbn; lia|discriminate Ha]|].
  specialize (IH _ _ Ha). lia.
Qed.

Lemma astep_not_idle a p a1 : astep c0 a p = Some a1 -> a1 <> AIdle.
Proof. intros Ha ->. destruct a, p; cbn [astep] in Ha; repeat case_match; discriminate. Qed.

Lemma arun_not_idle a ps : ps <> [] -> arun c0 a ps <> Some AIdle.
Proof.
  revert a. induction ps as [|p ps IH]; intros a Hn Ha; [done|]. cbn [arun] in Ha.
  destruct (astep c0 a p) as [a1|] eqn:Es; [|discriminate]. apply astep_not_idle in Es.
  destruct ps as [|q ps']; [destruct (ends_packet a1 p); cbn [arun] in Ha; congruence|].
  destruct (ends_packet a1 p); [discriminate|]. by eapply IH.
Qed.

(** The packet layer accepts the packet as the next one of the request. *)
Definition next_packet (a : astate) (d : daemon St) (g sub : Z) : Prop :=
  match a with
  | AIdle => _syncBusy (sv d) = false /\ _idxGrp (pk d) <> g /\ sub = 0
  | ADone _ => False
  | _ => _idxGrp (pk d) = g /\ sub = u32 (_idxSub (pk d) + 1)
  end.

Definition accepted (d d' : daemon St) (g sub : Z) (ps : list piece) : Prop :=
  pk d' = {| packeBuf := mk_packet g sub (enc_pieces ps); _idxGrp := g; _idxSub := sub |}.

Lemma rel_set_pk a d p : rel a d -> rel a (with_pk d p).
Proof. by destruct a. Qed.

Lemma rel_set_busy a d : rel a d -> (forall r, a <> ADone r) -> rel a (with_sv d (set_busy (sv d))).
Proof.
  intros [Hb Hr] Hn. split; [done|]. destruct a as [| | |r]; cbn in *; [done| | |by destruct (Hn r)].
  - destruct Hr as (Hs & p0 & t & Hr). split; [done|]. exists p0, t. cbn. intuition.
  - destruct Hr as (Hs & (p0 & t & Hr) & Hr'). split; [done|]. split; [|done]. exists p0, t. cbn. intuition.
Qed.

(** A packet with any bytes that the packet layer accepts is analysed from the
    state it finds. *)
Lemma packet_analysed a d bs g sub chan :
  rel a d -> 0 < zlen bs <= PACKETSIZE -> packet_wf (pk d) -> u32_ok g -> next_packet a d g sub ->
  exists d1, rel a d1 /\ _syncBusy (sv d1) = true /\ out d1 = out d /\
    pk d1 = {| packeBuf := mk_packet g sub bs; _idxGrp := g; _idxSub := sub |} /\
    sync_packet cali d (RdBytes (mk_packet g sub bs) :: chan) =
      let* d' := analyse cali (analyse_fuel (zlen bs)) d1
                   (bs ++ replicate (Z.to_nat (PACKETSIZE - zlen bs)) 0) (zlen bs) in
      Done (true, d', chan).
Proof.
  intros Hr Hsz Wp Hg Hn.
  assert (Hsub : u32_ok sub) by (destruct a; [|destruct Hn as [_ ->]..|done]; auto with cbounds;
    destruct Hn as (_ & _ & ->); by u32c).
  set (p' := {| packeBuf := mk_packet g sub bs; _idxGrp := g; _idxSub := sub |}).
  assert (Hcode : exists code, _getPacket (pk d) (RdBytes (mk_packet g sub bs) :: chan) =
      Done (code, zlen bs, p', chan) /\
      (code = _PACKET_START /\ _syncBusy (sv d) = false \/ code = _PACKET_CONTINUE /\ _syncBusy (sv d) = true)).
  { rewrite getPacket_mk by (done || lia). destruct a as [| | |]; [| | |done].
    - destruct Hn as (Hb & Hne & ->). rewrite (proj2 (Z.eqb_neq _ _) Hne). cbn. eauto.
    - destruct Hn as (-> & ->). rewrite !Z.eqb_refl. eexists. split; [done|right].
      destruct Hr as (_ & _ & ? & ? & Hr). intuition.
    - destruct Hn as (-> & ->). rewrite !Z.eqb_refl. eexists. split; [done|right].
      destruct Hr as (_ & _ & (? & ? & Hr) & _). intuition. }
  destruct Hcode as (code & Hgp & Hcode). unfold sync_packet. rewrite Hgp. cbn [obind].
  set (d1 := with_sv (with_pk d p') (set_busy (sv (with_pk d p')))).
  exists d1. split; [apply rel_set_busy; [by apply rel_set_pk|intros r ->; done]|].
  split; [done|]. split; [done|]. split; [done|].
  assert (Hbuf : drop (Z.to_nat PACKET_HEAD_size) (packeBuf p') =
    bs ++ replicate (Z.to_nat (PACKETSIZE - zlen bs)) 0) by (apply drop_app_length'; done).
  rewrite Hbuf. destruct Hcode as [[-> Hb]|[-> Hb]]; cbn [sv with_pk]; rewrite Hb;
    cbn -[analyse analyse_fuel zlen]; by fold d1.
Qed.

Lemma answer_out p o bs g sub :
  pk p = {| packeBuf := mk_packet g sub bs; _idxGrp := g; _idxSub := sub |} ->
  _sendPacktRsp (pk (p : daemon St)) o 1 = o ++ [answer g sub].
Proof. intros ->. done. Qed.

(** In calibration mode a block with the same partitions can be saved. *)
Hypothesis Hsave : cali = true -> forall i p0 p', part c0 !! i = Some p0 -> (i < Z.to_nat (partNum c0))%nat -> part_wf p' ->
  fdhandle p' = fdhandle p0 -> sctNum p' = sctNum p0 ->
  exists c' st', saveToDisk {| partNum := partNum c0; part := <[i := p']> (part c0) |} st0 = Done (c', st').

Lemma tail_step r d f id a fuel rest n :
  rel (ABody r) d -> piece_ok (PTail f id) -> astep c0 (ABody r) (PTail f id) = Some a ->
  0 <= n -> 20 + n < 2 ^ 32 ->
  exists d', rel a d' /\ pk d' = pk d /\ out d' = _sendPacktRsp (pk d) (out d) 1 /\
    analyse cali (S fuel) d (enc_piece (PTail f id) ++ rest) (20 + n) = Done d'.
Proof.
  intros (Hb & Hs & Hip) (Hf & Hid) Ha Hn Hlt. cbn [astep] in Ha.
  destruct (Z.eqb_spec f (u32 (r_frame r + 1))) as [->|]; [|discriminate]. injection Ha as <-.
  cbn [analyse]. guard_false (20 + n =? 0). rewrite Hs. change (1 =? 0) with false. change (1 =? 1) with true. cbn match.
  unfold _syncGetBody. rewrite getToken_token by (done || apply zlen_token). cbn [obind negb].
  destruct (token_fields SYNC_REQ_TAIL (u32 (r_frame r + 1)) id 0 0 (drop 20 (syncReqBuf (sv d))))
    as (E1 & E2 & _); [by u32c|done|done|by u32c|by u32c|].
  destruct Hip as (p0 & t & Hi & Hp0 & Hsct & Himg & Hzt & Hfr & Ht & Hctl & Hst & Hev & Hdid & Hff & Hbu).
  cbn [set_token syncReqBuf enc_piece syncReqFrame]. rewrite E1, E2, Hff, Z.eqb_refl. cbn [negb].
  change (SYNC_REQ_BODY =? SYNC_REQ_TAIL) with false. change (SYNC_REQ_TAIL =? SYNC_REQ_TAIL) with true.
  cbn [negb obind]. unfold _syncReset, backupData. cbn [ctl with_sv sv set_data set_token _id]. rewrite Hctl, Hdid.
  unfold on_part. set (p := with_bufs p0 _ _ _). set (c1 := {| partNum := _; part := _ |}).
  assert (Hlen : (r_id r < length (part c0))%nat) by (by eapply lookup_lt_Some).
  assert (Hl : part c1 !! r_id r = Some p) by (by apply list_lookup_insert_eq).
  rewrite (rd_part c1 (r_id r) p Hl). cbn [obind].
  assert (Wp : part_wf p).
  { pose proof (wf_parts _ Wc0 _ _ Hi Hp0) as []. constructor; cbn; try done. by rewrite Himg. }
  destruct (backup_part_eq p Wp) as (p' & -> & Wp' & Hf' & Ht' & Hfd & Hsn & _ & Hbk & Hdk).
  cbn [obind]. unfold set_part. rewrite wr_in by (unfold zlen; cbn; rewrite length_insert; lia). cbn [obind].
  cbn [c1 partNum part]. rewrite Nat2Z.id, list_insert_insert_eq.
  assert (Hcom : forall dd, after_backup cali st0 ev0 {| partNum := partNum c0; part := <[r_id r := p']> (part c0) |} dd ->
    committed cali c0 st0 ev0 r dd).
  { intros dd Hdd. exists p0, p'. split_and!; try done.
    - rewrite Hbk, Hf'. unfold image, part_bytes. by rewrite Hsn.
    - intros k Hk. rewrite Hdk. rewrite dirty_bit_zip by (by rewrite (wf_dbackup p Wp), (wf_dfrom p Wp)).
      cbn. by rewrite Ht by done. }
  assert (Hbuf : buf_ok (_syncInit (set_data (set_token (sv d) (enc_token SYNC_REQ_TAIL (u32 (r_frame r + 1)) id 0 0 ++ drop 20 (syncReqBuf (sv d))) 0)
      (u32 (r_frame r + 1)) (_start (sv d)) (_len (sv d))))).
  { split; [done|]. apply (buf_ok_token (sv d) (enc_token _ _ _ _ _) Hb). apply zlen_token. }
  destruct cali eqn:Ec.
  - destruct (Hsave eq_refl (r_id r) p0 p' Hp0 Hi Wp' Hfd Hsn) as (c2 & st2 & Es). cbn [store with_sv]. rewrite Hst, Es. cbn [obind].
    eexists. split; [|split; [|split; [|reflexivity]]]; [|done|done].
    split; [exact Hbuf|]. split; [done|]. split; [done|]. apply Hcom. split; [exact Es|exact Hev].
  - eexists. split; [|split; [|split; [|reflexivity]]]; [|done|done].
    split; [exact Hbuf|]. split; [done|]. split; [done|]. apply Hcom. split; [done|]. split; [exact Hst|]. cbn. by rewrite Hev.
Qed.

(** What a packet does to the output. *)
Definition answered (a : astate) (ps : list piece) (d d' : daemon St) : Prop :=
  out d' = if acks c0 a ps then _sendPacktRsp (pk d) (out d) 1 else out d.

Lemma arun_ok ps a d a' fuel rest :
  rel a d -> _syncBusy (sv d) = true -> Forall piece_ok ps -> arun c0 a ps = Some a' ->
  (length ps < fuel)%nat -> zlen (enc_pieces ps) < 2 ^ 32 ->
  exists d', rel a' d' /\ pk d' = pk d /\ answered a ps d d' /\
    analyse cali fuel d (enc_pieces ps ++ rest) (zlen (enc_pieces ps)) = Done d'.
Proof.
  intros Hr Hbu Hok Ha Hf Hz. unfold answered. destruct (acks c0 a ps) eqn:Ek.
  - destruct (acks_split ps a a' Ha Ek) as (qs & p & a1 & -> & H1 & H2 & Es & Ee).
    apply Forall_app in Hok as [Hok Hp]. apply Forall_cons in Hp as [Hp _].
    assert (Hcat : enc_pieces (qs ++ [p]) = enc_pieces qs ++ enc_piece p).
    { unfold enc_pieces. rewrite map_app, concat_app. cbn [map concat]. by rewrite app_nil_r. }
    rewrite Hcat, zlen_app in *. rewrite <- app_assoc. rewrite length_app in Hf. cbn [length] in Hf.
    destruct (arun_more qs a d a1 (enc_piece p ++ rest) (zlen (enc_piece p)) Hr Hbu Hok H1 H2 (zlen_nonneg _) Hz)
      as (d1 & Hr1 & [Hpk Hout] & Hb1 & Heq).
    replace fuel with (length qs + S (fuel - length qs - 1))%nat by lia. rewrite Heq.
    destruct a1 as [|r|r start len|r], p as [id f s|f id s k|bs|f id]; try discriminate.
    + apply astep_token_end in Es. congruence.
    + apply astep_token_end in Es. congruence.
    + destruct (tail_step r d1 f id a' (fuel - length qs - 1) rest 0 Hr1 Hp Es ltac:(lia) ltac:(lia)) as (d2 & Hr2 & Hpk2 & Ho2 & E2).
      change (zlen (enc_piece (PTail f id))) with (20 + 0). exists d2. split_and!; try done; congruence.
    + cbn [enc_piece]. assert (Hlt : zlen bs < len).
      { cbn [astep] in Es. destruct (_ =? 0) in Es; [discriminate Es|].
        destruct (zlen bs =? len) in Es; [injection Es as <-; discriminate Ee|]. by destruct (Z.ltb_spec (zlen bs) len). }
      destruct (data_part_step r d1 start len bs a' (fuel - length qs - 1) rest Hr1 Es Hlt) as (d2 & Hr2 & Hpk2 & Ho2 & E2).
      exists d2. split_and!; try done; congruence.
  - destruct (arun_more ps a d a' rest 0 Hr Hbu Hok Ha Ek ltac:(lia) ltac:(lia)) as (d' & H1 & [H2 H3] & _ & H5).
    rewrite Z.add_0_r in H5. exists d'. split; [done|]. split; [done|]. split; [done|].
    replace fuel with (length ps + S (fuel - length ps - 1))%nat by lia. by rewrite H5.
Qed.

Lemma packet_step a d ps a' g sub chan :
  rel a d -> packet_ok ps -> packet_wf (pk d) -> u32_ok g -> arun c0 a ps = Some a' ->
  next_packet a d g sub ->
  exists d', sync_packet cali d (RdBytes (mk_packet g sub (enc_pieces ps)) :: chan) = Done (true, d', chan) /\
    rel a' d' /\ accepted d d' g sub ps /\
    out d' = out d ++ if acks c0 a ps then [answer g sub] else [].
Proof.
  intros Hr [Hok Hsz] Wp Hg Ha Hn.
  destruct (packet_analysed a d (enc_pieces ps) g sub chan Hr Hsz Wp Hg Hn) as (d1 & Hr1 & Hb1 & Ho1 & Hpk1 & ->).
  pose proof (arun_length _ _ _ Ha) as Hlen.
  destruct (arun_ok ps a d1 a' (analyse_fuel (zlen (enc_pieces ps)))
              (replicate (Z.to_nat (PACKETSIZE - zlen (enc_pieces ps))) 0) Hr1 Hb1 Hok Ha)
    as (d' & Hr' & Hpk & Hans & ->).
  { unfold analyse_fuel, zlen. lia. } { unfold PACKETSIZE in Hsz. lia. }
  exists d'. split; [done|]. split; [done|]. split; [by unfold accepted; rewrite Hpk|].
  unfold answered in Hans. rewrite Hans. destruct (acks c0 a ps); [|by rewrite Ho1, app_nil_r].
  by rewrite (answer_out _ _ _ _ _ Hpk1), Ho1.
Qed.

(** ** A whole request *)
Fixpoint packets (g sub : Z) (pss : list (list piece)) : list read_result :=
  match pss with
  | [] => []
  | ps :: pss' => RdBytes (mk_packet g sub (enc_pieces ps)) :: packets g (u32 (sub + 1)) pss'
  end.

Lemma accepted_wf d d' g sub ps :
  accepted d d' g sub ps -> packet_ok ps -> u32_ok g -> u32_ok sub -> packet_wf (pk d').
Proof. intros -> [_ Hz] Hg Hs. split; [|done]. apply zlen_mk_packet. lia. Qed.

(** At the end of the session the failed read resets an idle analyser. *)
Lemma end_of_session r d fuel :
  rel (ADone r) d -> packet_wf (pk d) ->
  exists d', syncAnalyzer_loop cali (S fuel) d [] = Done (d', []) /\
    committed cali c0 st0 ev0 r d' /\ out d' = out d /\ _syncState (sv d') = 0.
Proof.
  intros (_ & Hs & _ & Hc) _. cbn [syncAnalyzer_loop]. unfold sync_packet, _getPacket. cbn [channel_read obind].
  change (negb (negb (0 <? PACKET_HEAD_size + PACKETSIZE))) with true. cbn [obind].
  rewrite Z.eqb_refl. unfold _syncReset. cbn [sv with_pk]. rewrite Hs. cbn.
  eexists. split; [done|]. by split.
Qed.

Lemma packets_run pss : forall a d g sub r fuel,
  rel a d -> Forall packet_ok pss -> packet_wf (pk d) -> u32_ok g -> pss <> [] ->
  arun_packets c0 a pss = Some (ADone r) -> next_packet a d g sub -> (length pss < fuel)%nat ->
  exists d', syncAnalyzer_loop cali fuel d (packets g sub pss) = Done (d', []) /\
    committed cali c0 st0 ev0 r d' /\ _syncState (sv d') = 0 /\
    out d' = out d ++ answers c0 a g sub pss.
Proof.
  induction pss as [|ps pss IH]; intros a d g sub r fuel Hr Hok Wp Hg Hne Ha Hn Hf; [done|].
  apply Forall_cons in Hok as [Hps Hok]. destruct fuel as [|fuel]; [lia|]. cbn [arun_packets] in Ha.
  destruct (arun c0 a ps) as [a1|] eqn:E1; [|discriminate].
  destruct (packet_step a d ps a1 g sub (packets g (u32 (sub + 1)) pss) Hr Hps Wp Hg E1 Hn)
    as (d1 & Hrun & Hr1 & Hacc & Hout).
  cbn [packets syncAnalyzer_loop answers]. rewrite Hrun, E1. cbn [obind].
  assert (Hsub : u32_ok sub) by (destruct a; [|destruct Hn as [_ ->]..|done]; auto with cbounds;
    destruct Hn as (_ & _ & ->); by u32c).
  pose proof (accepted_wf d d1 g sub ps Hacc Hps Hg Hsub) as Wp1.
  rewrite app_assoc, <- Hout. destruct pss as [|ps2 pss].
  - cbn in Ha. injection Ha as ->. destruct fuel as [|fuel]; [cbn in Hf; lia|].
    cbn [packets answers]. rewrite app_nil_r.
    destruct (end_of_session r d1 fuel Hr1 Wp1) as (d2 & -> & Hc & Ho2 & Hs2).
    by exists d2.
  - apply (IH a1); try done; [|cbn in *; lia].
    inversion Hok as [|? ? [_ Hz2] _]; subst.
    destruct a1 as [|r1|r1 s1 l1|r1]; cbn [next_packet]; rewrite ?Hacc; try done.
    + (* a packet leaves the idle state *)
      apply arun_not_idle in E1; [done|]. intros ->. destruct Hps as [_ Hz]. change (zlen (enc_pieces [])) with 0 in Hz. lia.
    + destruct ps2 as [|p2 ps2]; [change (zlen (enc_pieces [])) with 0 in Hz2; lia|]. done.
Qed.
End Steps.

(** ** The image of a request does not depend on how it is cut *)

(** A body: the first sector and its sectors, in the chunks they arrive in. *)
Definition body : Type := Z * list (list Z).

Fixpoint bodies_pieces (id f : Z) (bodies : list body) : list piece :=
  match bodies with
  | [] => [PTail (u32 (f + 1)) id]
  | (s, chunks) :: bodies' =>
      PBody (u32 (f + 1)) id s (zlen (concat chunks) / RAMNV_SECT_SIZE)
        :: map PData chunks ++ bodies_pieces id (u32 (f + 1)) bodies'
  end.

Definition apply_bodies (img : list Z) (bodies : list body) : list Z :=
  fold_left (fun img '(s, chunks) => set_img img (RAMNV_SECT_SIZE * s) (concat chunks)) bodies img.

Fixpoint afold (c0 : _RAMNV_CTL) (a : astate) (ps : list piece) : option astate :=
  match ps with
  | [] => Some a
  | p :: ps' => match astep c0 a p with Some a' => afold c0 a' ps' | None => None end
  end.

Lemma afold_app c0 ps qs : forall a,
  afold c0 a (ps ++ qs) = match afold c0 a ps with Some a' => afold c0 a' qs | None => None end.
Proof.
  induction ps as [|p ps IH]; intros a; [done|]. cbn [app afold].
  destruct (astep c0 a p); [apply IH|done].
Qed.

Lemma arun_afold c0 ps : forall a a', arun c0 a ps = Some a' -> afold c0 a ps = Some a'.
Proof.
  induction ps as [|p ps IH]; intros a a' Ha; [done|]. cbn [arun afold] in *.
  destruct (astep c0 a p) as [a1|]; [|done]. destruct (ends_packet a1 p); [by destruct ps|by apply IH].
Qed.

Lemma arun_packets_afold c0 pss : forall a a',
  arun_packets c0 a pss = Some a' -> afold c0 a (concat pss) = Some a'.
Proof.
  induction pss as [|ps pss IH]; intros a a' Ha; [done|]. cbn [arun_packets concat] in *.
  destruct (arun c0 a ps) as [a1|] eqn:E; [|done]. rewrite afold_app, (arun_afold _ _ _ _ E). by apply IH.
Qed.

Lemma zlen_set_img img s bs :
  0 <= s -> s + zlen bs <= zlen img -> zlen (set_img img s bs) = zlen img.
Proof. intros. unfold set_img, zlen in *. rewrite !length_app, length_take, length_drop. lia. Qed.

Lemma set_img_set_img img s b1 b2 :
  0 <= s -> s + zlen b1 + zlen b2 <= zlen img ->
  set_img (set_img img s b1) (s + zlen b1) b2 = set_img img s (b1 ++ b2).
Proof.
  intros Hs Hl. unfold set_img, zlen in *. rewrite length_app.
  replace (Z.to_nat (s + Z.of_nat (length b1))) with (Z.to_nat s + length b1)%nat by lia.
  assert (Ht : length (take (Z.to_nat s) img) = Z.to_nat s) by (rewrite length_take; lia).
  rewrite (app_assoc (take (Z.to_nat s) img)).
  rewrite take_app_length' by (rewrite length_app; lia).
  rewrite <- !app_assoc. do 3 f_equal. rewrite app_assoc, drop_app, length_app, Ht.
  rewrite drop_ge by (rewrite length_app; lia). rewrite app_nil_l, drop_drop. f_equal. lia.
Qed.

(** [img] holds all sectors of the request's partition. *)
Definition fits (r : areq) : Prop := RAMNV_SECT_SIZE * r_sct r <= zlen (r_img r).

Definition with_img (r : areq) (img : list Z) : areq :=
  {| r_id := r_id r; r_sct := r_sct r; r_frame := r_frame r; r_img := img; r_marks := r_marks r |}.

Lemma afold_chunks c0 chunks : forall r start len rest r',
  afold c0 (AData r start len) (map PData chunks ++ rest) = Some (ADone r') ->
  (forall bs, head rest <> Some (PData bs)) -> fits r -> 0 <= start ->
  0 < len -> start + len <= RAMNV_SECT_SIZE * r_sct r ->
  zlen (concat chunks) = len /\
  afold c0 (ABody (with_img r (set_img (r_img r) start (concat chunks)))) rest = Some (ADone r').
Proof.
  induction chunks as [|b chunks IH]; intros r start len rest r' Ha Hrest Hfit Hs Hl Hle.
  { exfalso. destruct rest as [|p rest]; [done|]. cbn [map app afold] in Ha.
    destruct p as [| |bs|]; try discriminate. by apply (Hrest bs). }
  unfold fits in Hfit. pose proof (zlen_nonneg b).
  cbn [map app afold concat] in *. cbn [astep] in Ha.
  destruct (Z.eqb_spec (zlen b) 0); [discriminate|]. destruct (Z.eqb_spec (zlen b) len) as [Hb|Hb].
  - destruct chunks as [|b2 chunks]; [|discriminate]. cbn [map app concat] in *. rewrite app_nil_r.
    split; [done|exact Ha].
  - destruct (Z.ltb_spec (zlen b) len); [|discriminate].
    apply IH in Ha as [Hz Ha]; [|done|unfold fits; cbn; rewrite zlen_set_img; lia|lia|lia|cbn; lia].
    cbn [r_id r_sct r_frame r_img r_marks] in *. rewrite zlen_app. split; [lia|].
    rewrite set_img_set_img in Ha by lia. exact Ha.
Qed.

Lemma afold_bodies c0 id bodies : forall r r',
  afold c0 (ABody r) (bodies_pieces id (r_frame r) bodies) = Some (ADone r') -> fits r ->
  (forall s chunks, In (s, chunks) bodies -> 0 <= s) ->
  r_id r' = r_id r /\ r_img r' = apply_bodies (r_img r) bodies.
Proof.
  induction bodies as [|[s chunks] bodies IH]; intros r r' Ha Hfit Hs.
  { cbn in Ha. rewrite Z.eqb_refl in Ha. by injection Ha as <-. }
  cbn [bodies_pieces afold astep] in Ha. rewrite Z.eqb_refl in Ha. cbn [andb] in Ha.
  destruct (_ && _) eqn:E in Ha; [|discriminate]. btrue.
  assert (0 <= s) by (eapply Hs; by left). unfold RAMNV_SECT_SIZE in *.
  apply afold_chunks in Ha as [Hz Ha]; cbn [r_sct r_img]; try done; try (unfold RAMNV_SECT_SIZE; lia).
  - cbn [r_id r_sct r_frame r_img r_marks] in Ha. set (r1 := with_img _ _) in Ha.
    change (u32 (r_frame r + 1)) with (r_frame r1) in Ha. apply IH in Ha as [-> ->].
    + split; [done|]. unfold apply_bodies. cbn. done.
    + unfold fits in *. cbn in *. rewrite zlen_set_img; unfold RAMNV_SECT_SIZE in *; lia.
    + intros s' ch Hin. eapply Hs. right. exact Hin.
  - intros bs. destruct bodies as [|[? ?] ?]; cbn; congruence.
Qed.

(** ** Properties *)
Section Requests.
Context {St : Type} `{NvStoreLaws St}.



(** A packet that ends with a token is not answered.  A first packet that
    carries exactly the head of a request for a known partition is analysed
    (the daemon now expects a body), and no response is sent. *)
Theorem head_packet_not_answered cali (d : daemon St) g id f s a chan :
  ctl_wf (ctl d) -> _syncState (sv d) = 0 -> _syncBusy (sv d) = false -> buf_ok (sv d) ->
  packet_wf (pk d) -> u32_ok g -> _idxGrp (pk d) <> g -> piece_ok (PHead id f s) ->
  astep (ctl d) AIdle (PHead id f s) = Some a ->
  exists d', sync_packet cali d (RdBytes (mk_packet g 0 (enc_piece (PHead id f s))) :: chan) =
      Done (true, d', chan) /\ _syncState (sv d') = 1 /\ out d' = out d.
Proof.
  intros Wc Hs Hb Hbuf Wp Hg Hne Hok Ha.
  assert (Hr : rel cali (ctl d) (store d) (events d) AIdle d) by (by split).
  destruct (packet_analysed cali (ctl d) (store d) (events d) AIdle d (enc_piece (PHead id f s)) g 0 chan Hr)
    as (d1 & Hr1 & Hb1 & Ho1 & _ & ->); [done..|].
  change (zlen (enc_piece (PHead id f s))) with (20 + 0). change (analyse_fuel (20 + 0)) with 42%nat.
  destruct (head_step cali (ctl d) (store d) (events d) Wc d1 id f s a
              (replicate (Z.to_nat (PACKETSIZE - (20 + 0))) 0) 0) as (d' & Hr' & [_ Ho] & Hrun); try done.
  rewrite Hrun. exists d'. split; [done|]. split; [|congruence].
  cbn [astep] in Ha. repeat case_match; try discriminate. injection Ha as <-. apply Hr'.
Qed.
End Requests.

(** ** Concrete instances *)
Definition ex_request : list (list piece) :=
  [[PHead 1 9 512; PBody 10 1 0 1; PData (replicate 500 7)]; [PData (replicate 12 8); PTail 11 1]].
Definition ex_bodies : list body := [(0, [replicate 500 7; replicate 12 8])].

Definition ex_r : areq := Eval vm_compute in
  match arun_packets (ctl ex_daemon) AIdle ex_request with
  | Some (ADone r) => r
  | _ => {| r_id := 0; r_sct := 0; r_frame := 0; r_img := []; r_marks := [] |}
  end.

Lemma ex_ctl_writable : all_writable (ctl ex_daemon) (store ex_daemon).
Proof.
  intros i p Hi Hp. destruct i as [|[|i]]; [| |exfalso; vm_compute in Hi; lia];
    injection Hp as <-.
  - refine (ex_all_writable 0%nat _ _ eq_refl). vm_compute. lia.
  - refine (ex_all_writable 1%nat _ _ eq_refl). vm_compute. lia.
Qed.

(** The packets of the example request. *)
Lemma ex_request_ok : Forall packet_ok ex_request.
Proof.
  apply Forall_cons; split; [|apply Forall_singleton]; (split; [|vm_compute; split; congruence]).
  - apply Forall_cons; split; [cbn; unfold u32_ok; lia|].
    apply Forall_cons; split; [cbn; unfold u32_ok; lia|].
    apply Forall_singleton, bytes_ok_dec. reflexivity.
  - apply Forall_cons; split; [apply bytes_ok_dec; reflexivity|].
    apply Forall_singleton. cbn. unfold u32_ok. lia.
Qed.



Lemma head_packet_not_answered_witness :
  exists d', sync_packet false ex_daemon (RdBytes (mk_packet 5 0 (enc_piece (PHead 1 9 512))) :: []) =
      Done (true, d', []) /\ _syncState (sv d') = 1 /\ out d' = out ex_daemon.
Proof.
  eapply (head_packet_not_answered false ex_daemon 5 1 9 512);
    [exact ex_ctl0_wf|reflexivity|reflexivity|by split|exact ex_packet_wf|by u32c|vm_compute; discriminate
    |cbn; unfold u32_ok; lia|vm_compute; reflexivity].
Defined.
