(* ===== verification/NvThreads.v ===== *)
(** * The two threads of apps/nvitem

    The analyser thread fills [fromChannel], commits it into [backup] under the
    mutex and signals; the saver thread (nvitem_server.c, [pSaveTask]) waits
    for the signal and runs [saveToDisk].  The step relation interleaves them
    at the grain of the critical sections: the mutex brackets [backupData],
    [restoreData] and [__getData], while [__ifHasDirty] and the write of
    [toDisk] run without it.  A signal that finds nobody waiting is lost, as
    for [pthread_cond_signal]; [waiteEvent] passes a null mutex to
    [pthread_cond_wait], which is modelled as a plain wait. *)

From S2P Require Import Prelude OnesComplement NvFs NvBuf NvSync.

(** Where the saver is: waiting, about to test partition [i], about to copy it,
    about to write it. *)
Inductive saver :=
| SWait
| SCheck (i : nat)
| SGet (i : nat)
| SFlush (i : nat).

#[export] Instance saver_eq_dec : EqDecision saver.
Proof. solve_decision. Defined.

Definition giveEvent (s : saver) : saver := match s with SWait => SCheck 0 | s => s end.

Definition has_dirty (t : list Z) : bool := existsb (fun w => negb (w =? 0)) t.

Definition put_part (c : _RAMNV_CTL) (i : nat) (p : _RAMNV_PART_CTRL) : _RAMNV_CTL :=
  {| partNum := partNum c; part := <[i := p]> (part c) |}.

Section Threads.
Context {St : Type} `{NvStore St}.

Record nvstate := { n_ctl : _RAMNV_CTL; n_store : St; n_saver : saver }.

Definition mk (c : _RAMNV_CTL) (st : St) (s : saver) : nvstate :=
  {| n_ctl := c; n_store := st; n_saver := s |}.

Inductive saver_step : nvstate -> nvstate -> Prop :=
| step_check_dirty c st i p :
    (i < Z.to_nat (partNum c))%nat -> part c !! i = Some p -> __ifHasDirty p = true ->
    saver_step (mk c st (SCheck i)) (mk c st (SGet i))
| step_check_clean c st i p :
    (i < Z.to_nat (partNum c))%nat -> part c !! i = Some p -> __ifHasDirty p = false ->
    saver_step (mk c st (SCheck i)) (mk c st (SCheck (S i)))
| step_get c st i c' :
    __getData c (Z.of_nat i) = Done c' -> saver_step (mk c st (SGet i)) (mk c' st (SFlush i))
| step_flush c st i c' st' :
    flush_part c st (Z.of_nat i) = Done (c', st') ->
    saver_step (mk c st (SFlush i)) (mk c' st' (SCheck (S i)))
| step_end c st i :
    (Z.to_nat (partNum c) <= i)%nat -> saver_step (mk c st (SCheck i)) (mk c st SWait).

(** The analyser: changes to [fromChannel] come with dirty sectors. *)
Inductive analyser_step : nvstate -> nvstate -> Prop :=
| step_edit c st s i p f :
    (i < Z.to_nat (partNum c))%nat -> part c !! i = Some p ->
    part_wf (with_bufs p f (backup p) (toDisk p)) -> has_dirty (dirty f) = true ->
    analyser_step (mk c st s) (mk (put_part c i (with_bufs p f (backup p) (toDisk p))) st s)
| step_commit c st s i c' :
    (i < Z.to_nat (partNum c))%nat -> on_part c (Z.of_nat i) backup_part = Done c' ->
    analyser_step (mk c st s) (mk c' st (giveEvent s))
| step_restore c st s i c' :
    (i < Z.to_nat (partNum c))%nat -> restoreData c (Z.of_nat i) = Done c' ->
    analyser_step (mk c st s) (mk c' st s).

Definition step (a b : nvstate) : Prop := saver_step a b \/ analyser_step a b.
End Threads.
Arguments nvstate St : clear implicits.

Lemma has_dirty_lor l k :
  zlen l = zlen k -> has_dirty (zip_with Z.lor l k) = has_dirty l || has_dirty k.
Proof.
  unfold zlen. revert k. induction l as [|x l IH]; intros [|y k] Hl; try (cbn in Hl; lia); [done|].
  cbn. unfold has_dirty in IH. rewrite IH by (cbn in Hl; lia).
  destruct (Z.eqb_spec (Z.lor x y) 0) as [E|E].
  - apply Z.lor_eq_0_iff in E as [-> ->]. done.
  - destruct (Z.eqb_spec x 0) as [->|]; [|done]. rewrite Z.lor_0_l in E.
    rewrite (proj2 (Z.eqb_neq _ _) E). cbn. by rewrite orb_true_r.
Qed.

Section Safety.
Context {St : Type} `{NvStoreLaws St}.

(** Nothing committed is forgotten: it is still marked, on its way, or on the
    store. *)
Definition kept (st : St) (s : saver) (i : nat) (p : _RAMNV_PART_CTRL) : Prop :=
  __ifHasDirty p = true \/
  if decide (s = SFlush i) then image p (toDisk p) = image p (backup p)
  else st_holds st (fdhandle p) (image p (backup p)).

Definition edited (p : _RAMNV_PART_CTRL) : Prop :=
  image p (fromChannel p) = image p (backup p) \/ has_dirty (dirty (fromChannel p)) = true.

Definition saver_in_range (c : _RAMNV_CTL) (s : saver) : Prop :=
  match s with SGet i | SFlush i => (i < Z.to_nat (partNum c))%nat | _ => True end.

Variable k : nat.

(** The state as partition [k] sees it: the store takes its writes, and its
    committed image is not forgotten. *)
Record safe (n : nvstate St) : Prop := {
  safe_ctl : ctl_wf (n_ctl n);
  safe_range : saver_in_range (n_ctl n) (n_saver n);
  safe_part : forall p, (k < Z.to_nat (partNum (n_ctl n)))%nat -> part (n_ctl n) !! k = Some p ->
    st_ok (n_store n) (fdhandle p) (part_bytes p) /\ kept (n_store n) (n_saver n) k p /\ edited p
}.

(** A step that replaces partition [i] and may change the store. *)
Lemma safe_put c st s i p p' st' s' :
  safe (mk c st s) -> (i < Z.to_nat (partNum c))%nat -> part c !! i = Some p ->
  part_wf p' -> fdhandle p' = fdhandle p -> sctNum p' = sctNum p -> saver_in_range c s' ->
  (forall h n, h <> fdhandle p -> st_ok st h n -> st_ok st' h n /\ forall x, st_holds st h x -> st_holds st' h x) ->
  (forall j, j <> i -> s = SFlush j <-> s' = SFlush j) ->
  (i = k -> st_ok st (fdhandle p) (part_bytes p) /\ kept st s k p /\ edited p ->
     st_ok st' (fdhandle p) (part_bytes p) /\ kept st' s' k p' /\ edited p') ->
  safe (mk (put_part c i p') st' s').
Proof.
  intros [W Hr Hp] Hi Hpi Wp' Hfd Hsn Hr' Hoth Hs Hk. cbn in *.
  constructor; cbn; [by eapply ctl_wf_insert|by destruct s'|].
  intros q Hj Hq. apply list_lookup_insert_Some in Hq as [(-> & -> & _)|[Hne Hq]].
  { unfold part_bytes. rewrite Hfd, Hsn. apply Hk; [done|]. by apply Hp. }
  destruct (Hp q Hj Hq) as (Hok & Hkq & Hed).
  destruct (Hoth (fdhandle q) (part_bytes q)) as [Hok' Hh']; [|done|].
  { intros E. apply Hne. by eapply (wf_handles c W i k p q). }
  split; [done|]. split; [|done]. destruct Hkq as [Hd|Hh]; [by left|right].
  specialize (Hs k (not_eq_sym Hne)). revert Hh. repeat case_decide; try tauto. apply Hh'.
Qed.

(** Moving the saver away from a write changes nothing. *)
Lemma safe_move c st s s' :
  safe (mk c st s) -> (forall j, s <> SFlush j) -> (forall j, s' <> SFlush j) -> saver_in_range c s' ->
  safe (mk c st s').
Proof.
  intros [W Hr Hps] H1 H2 Hr'. constructor; try done. intros q Hj Hq.
  destruct (Hps q Hj Hq) as (? & [?|Hk] & ?); (split; [done|split; [|done]]); [by left|right]. cbn in *.
  revert Hk. rewrite !decide_False; auto.
Qed.

(** Inversion of the critical sections. *)
Lemma on_part_put c i f c' :
  ctl_wf c -> (i < Z.to_nat (partNum c))%nat -> on_part c (Z.of_nat i) f = Done c' ->
  exists p p', part c !! i = Some p /\ part_wf p /\ f p = Done p' /\ c' = put_part c i p'.
Proof.
  intros W Hi Hf. apply on_part_inv in Hf as (p & p' & Hp & Wp & Hf & ->); [|done|lia].
  rewrite Nat2Z.id in *. eauto 10.
Qed.

(** The write of a partition: it succeeds on its working files, and whatever it
    does it leaves the files of the others alone. *)
Lemma flush_kept c st i c' st' :
  safe (mk c st (SFlush i)) -> flush_part c st (Z.of_nat i) = Done (c', st') -> safe (mk c' st' (SCheck (S i))).
Proof.
  intros S Hf. pose proof (safe_range _ S) as Hr. cbn in Hr. pose proof (safe_ctl _ S) as W. cbn in W.
  unfold flush_part in Hf. obind_inv Hf. obind_inv Hf. destruct a0 as [ok st2].
  apply rd_inv in E as [_ Hp]. rewrite Nat2Z.id in Hp. pose proof (wf_parts c W i a Hr Hp) as Wp.
  assert (Hput : exists q, (c', st') = (put_part c i q, st2) /\ (q = a /\ ok = false \/ q = clean_toDisk a)).
  { destruct ok.
    - rewrite set_part_in in Hf by done. injection Hf as <- <-. eexists. split; [done|]. by right.
    - injection Hf as <- <-. exists a. split; [|by left]. unfold put_part. rewrite list_insert_id by done. by destruct c. }
  destruct Hput as (q & [= -> ->] & Hq).
  assert (Hq' : part_wf q /\ fdhandle q = fdhandle a /\ sctNum q = sctNum a /\ fromChannel q = fromChannel a /\
    backup q = backup a) by (destruct Hq as [[-> _] | ->]; [done|destruct Wp; by split_and!; [constructor; cbn; rewrite ?zlen_map|..]]).
  destruct Hq' as (Wq & Hfd & Hsn & Hfr & Hbk).
  apply (safe_put c st (SFlush i) i a q st2); try done.
  - intros h n Hne Hok. by eapply (st_write_others _ _ _ _ _ _ _ _ E0).
  - intros j Hne. split; congruence.
  - intros -> (Hok & Hk & He).
    destruct (flush_part_eq c st k a W Hr Hp Hok) as (st3 & Hf3 & Hh & Hok3 & _).
    assert (Hst : st3 = st2).
    { unfold flush_part in Hf3. rewrite (rd_part c k a Hp) in Hf3. cbn [obind] in Hf3. rewrite E0 in Hf3. cbn [obind] in Hf3.
      destruct ok; [|by injection Hf3]. rewrite set_part_in in Hf3 by done. by injection Hf3. }
    subst st3. split; [by apply Hok3|].
    assert (Him : forall b, image q b = image a b) by (intros; unfold image, part_bytes; by rewrite Hsn).
    split; [|unfold edited in *; by rewrite Hfr, Hbk, !Him].
    unfold kept, __ifHasDirty in *. rewrite Hbk, Hfd, !Him. destruct Hk as [Hd|Hk]; [by left|right].
    rewrite decide_True in Hk by done. rewrite decide_False by done. by rewrite <- Hk.
Qed.

Lemma saver_step_safe n n' : safe n -> saver_step n n' -> safe n'.
Proof.
  intros S Hstep. destruct Hstep as [c st i p Hi Hp Hd|c st i p Hi Hp Hd|c st i c' Hg|c st i c' st' Hf|c st i Hi].
  - by eapply safe_move.
  - by eapply safe_move.
  - pose proof (safe_range _ S) as Hr. cbn in Hr.
    apply on_part_put in Hg as (p & p' & Hp & Wp & Hf & ->); [|apply S|done].
    destruct (getData_part_eq p Wp) as (q & Hq & Wq & Hfr & Hbk & Hfd & Hsn & _ & Him & _).
    rewrite Hq in Hf. injection Hf as ->. eapply safe_put; try done.
    + intros j Hne. split; congruence.
    + intros -> (Hok & _ & He). split; [done|]. split.
      * right. rewrite decide_True by done. rewrite Him. unfold image, part_bytes. by rewrite Hbk, Hsn.
      * unfold edited, image, part_bytes in *. by rewrite Hfr, Hbk, Hsn.
  - by eapply flush_kept.
  - by eapply safe_move.
Qed.

Lemma analyser_step_safe n n' : safe n -> analyser_step n n' -> safe n'.
Proof.
  intros S Hstep. pose proof (safe_ctl _ S) as W. pose proof (safe_range _ S) as Hr.
  destruct Hstep as [c st s i p f Hi Hp Wp Hd|c st s i c' Hi Hc|c st s i c' Hi Hc]; cbn in *.
  - eapply safe_put; try done. intros -> (Hok & Hk & _). split; [done|]. split; [done|]. by right.
  - apply on_part_put in Hc as (p & p' & Hp & Wp & Hf & ->); [|done..].
    destruct (backup_part_eq p Wp) as (q & Hq & Wq & Hfr & Htd & Hfd & Hsn & _ & Him & Hdb).
    rewrite Hq in Hf. injection Hf as ->.
    assert (Hd' : __ifHasDirty p' = __ifHasDirty p || has_dirty (dirty (fromChannel p))).
    { unfold __ifHasDirty. rewrite Hdb. apply has_dirty_lor. by rewrite (wf_dbackup p Wp), (wf_dfrom p Wp). }
    assert (Hpb : forall b, image p' b = image p b) by (intros; unfold image, part_bytes; by rewrite Hsn).
    eapply safe_put; try done; [by destruct s|intros j Hne; destruct s; cbn; split; congruence|].
    intros -> (Hok & Hk & He). split; [done|]. split; [|left; by rewrite Him, Hfr, Hpb].
    unfold kept in *. destruct He as [He|He]; [|left; rewrite Hd', He; apply orb_true_r].
    destruct Hk as [Hk|Hk]; [left; by rewrite Hd', Hk|]. right. rewrite Hfd, Him, He, Htd, Hpb.
    revert Hk. destruct s; cbn; repeat case_decide; congruence || done.
  - apply on_part_put in Hc as (p & p' & Hp & Wp & Hf & ->); [|done..].
    destruct (restore_part_eq p Wp) as (q & Hq & Wq & Hbk & Htd & Hfd & Hsn & _ & Him & _).
    rewrite Hq in Hf. injection Hf as ->.
    assert (Hpb : forall b, image p' b = image p b) by (intros; unfold image, part_bytes; by rewrite Hsn).
    eapply safe_put; try done. intros -> (Hok & Hk & _). split; [done|]. split.
    + unfold kept, __ifHasDirty in *. by rewrite Hbk, Hfd, Htd, !Hpb.
    + left. by rewrite Him, Hbk, Hpb.
Qed.

(** C19. The interleaving of the threads forgets no committed request of a
    partition whose files the store can write (a refused write is another matter:
    [saveToDisk_drops_failed_write]).  Take a well-formed block and such a
    partition whose backup image is marked dirty or on the store and whose
    channel image equals it or is marked dirty.  Whatever
    the analyser edits, commits and restores, however the saver is scheduled
    in between, and whether or not the writes of other partitions fail, in
    every reachable state the partition's files are still writable and its backup
    image is marked dirty, or is exactly what the saver is writing, or is held
    by the store.  So when the saver waits and the partition is not marked,
    the store holds its committed image. *)
Theorem threads_keep_committed n n' :
  ctl_wf (n_ctl n) -> saver_in_range (n_ctl n) (n_saver n) ->
  (forall p, (k < Z.to_nat (partNum (n_ctl n)))%nat -> part (n_ctl n) !! k = Some p ->
     st_ok (n_store n) (fdhandle p) (part_bytes p) /\ kept (n_store n) (n_saver n) k p /\ edited p) ->
  rtc step n n' ->
  forall p, (k < Z.to_nat (partNum (n_ctl n')))%nat -> part (n_ctl n') !! k = Some p ->
    st_ok (n_store n') (fdhandle p) (part_bytes p) /\ kept (n_store n') (n_saver n') k p /\
    (n_saver n' = SWait -> __ifHasDirty p = false ->
       st_holds (n_store n') (fdhandle p) (image p (backup p))).
Proof.
  intros W Hr Hpart Hs. assert (S' : safe n').
  { assert (S : safe n) by done. clear W Hr Hpart. induction Hs as [|a b c [Hab|Hab] _ IH]; [done| |];
      eauto using saver_step_safe, analyser_step_safe. }
  intros p Hi Hp. destruct (safe_part _ S' p Hi Hp) as (Hok & Hk & _). split; [done|]. split; [done|].
  intros Hw Hd. destruct Hk as [Hk|Hk]; [congruence|]. by rewrite Hw in Hk.
Qed.

End Safety.

(** ** The saver's own steps are [saveToDisk] *)
Section Rounds.
Context {St : Type} `{NvStoreLaws St}.

Lemma save_one_steps c st i c' st' :
  (i < Z.to_nat (partNum c))%nat -> save_one c st (Z.of_nat i) = Done (c', st') ->
  rtc saver_step (mk c st (SCheck i)) (mk c' st' (SCheck (S i))).
Proof.
  intros Hi HS. unfold save_one in HS. obind_inv HS. apply rd_inv in E as [_ E]. rewrite Nat2Z.id in E.
  destruct (__ifHasDirty a) eqn:Ed.
  - obind_inv HS. eapply rtc_l; [by eapply step_check_dirty|].
    eapply rtc_l; [by eapply step_get|]. eapply rtc_once. by eapply step_flush.
  - injection HS as <- <-. eapply rtc_once. by eapply step_check_clean.
Qed.

Lemma save_from_steps n : forall j c st c' st',
  ctl_wf c -> (j + n)%nat = Z.to_nat (partNum c) -> save_from n (Z.of_nat j) c st = Done (c', st') ->
  rtc saver_step (mk c st (SCheck j)) (mk c' st' SWait).
Proof.
  induction n as [|n IH]; intros j c st c' st' W Hj HS.
  { injection HS as <- <-. eapply rtc_once. apply step_end. lia. }
  cbn [save_from] in HS. obind_inv HS. destruct a as [c1 st1].
  destruct (save_one_same c st j c1 st1 W ltac:(lia) E) as (W1 & Hn & _).
  etransitivity; [eapply save_one_steps; [lia|exact E]|].
  replace (Z.of_nat j + 1) with (Z.of_nat (S j)) in HS by lia. eapply IH; [done|lia|exact HS].
Qed.

(** An uninterrupted run of the saver is [saveToDisk]: from the wake-up
    it reaches the wait again with exactly the control block and the store
    that [saveToDisk] computes, so one round of the saver always ends. *)
Theorem saver_round c st :
  ctl_wf c -> all_writable c st ->
  exists c' st', saveToDisk c st = Done (c', st') /\
    rtc saver_step (mk c st (giveEvent SWait)) (mk c' st' SWait).
Proof.
  intros W Hall. destruct (saveToDisk_eq c st W Hall) as (c' & st' & HS & _).
  exists c', st'. split; [done|]. eapply (save_from_steps _ 0); [done| |exact HS]. done.
Qed.

(** A wake-up can be lost.  When a request for partition [i] commits while
    the saver is past [i], the signal finds nobody waiting: the saver can
    finish its round and go back to waiting with partition [i] still dirty,
    and from there no step of the saver is possible: the committed data
    stays in memory until another request is committed. *)
Theorem commit_during_round_not_saved c st i k p :
  ctl_wf c -> all_writable c st -> (i < k <= Z.to_nat (partNum c))%nat -> part c !! i = Some p ->
  has_dirty (dirty (fromChannel p)) = true ->
  exists n', rtc step (mk c st (SCheck k)) n' /\ n_saver n' = SWait /\
    (exists p', part (n_ctl n') !! i = Some p' /\ __ifHasDirty p' = true /\
       image p' (backup p') = image p (fromChannel p)) /\
    forall n'', ~ saver_step n' n''.
Proof.
  intros W Hall Hk Hp Hd. pose proof (wf_parts c W i p ltac:(lia) Hp) as Wp.
  destruct (backup_part_eq p Wp) as (q & Hq & Wq & Hfr & Htd & Hfd & Hsn & _ & Him & Hdb).
  assert (Hc : on_part c (Z.of_nat i) backup_part = Done (put_part c i q)).
  { unfold on_part. rewrite (rd_part c i p Hp). cbn [obind]. rewrite Hq. cbn [obind].
    apply set_part_in; [lia|done]. }
  assert (W1 : ctl_wf (put_part c i q)) by (eapply ctl_wf_insert; eauto; lia).
  assert (Hall1 : all_writable (put_part c i q) st) by (eapply all_writable_insert; eauto; lia).
  destruct (save_from_eq (Z.to_nat (partNum c) - k) k (put_part c i q) st W1 Hall1) as (c2 & st2 & HS & _ & _ & _ & Hps).
  { cbn. lia. }
  exists (mk c2 st2 SWait). split_and!.
  - eapply rtc_l; [right; eapply (step_commit _ _ _ i); [lia|exact Hc]|].
    eapply (rtc_subrel saver_step); [by left|]. eapply save_from_steps; [done| |exact HS]. cbn. lia.
  - done.
  - destruct (Hps i q) as (q' & Hq' & Hsame); [cbn; lia| |].
    { apply list_lookup_insert_eq. by eapply lookup_lt_Some. }
    rewrite decide_False in Hsame by lia. destruct Hsame as [-> _]. exists q. split_and!; try done.
    unfold __ifHasDirty. rewrite Hdb. change (existsb _ ?l) with (has_dirty l). rewrite has_dirty_lor, Hd.
    + apply orb_true_r.
    + by rewrite (wf_dbackup p Wp), (wf_dfrom p Wp).
  - intros n'' Hs. inversion Hs.
Qed.
End Rounds.

(** ** Concrete instances *)
(** Both partitions marked, as after a first commit of each. *)
Definition ex_part_marked (p : _RAMNV_PART_CTRL) : _RAMNV_PART_CTRL :=
  with_bufs p (fromChannel p) {| diskbuf := diskbuf (backup p); dirty := <[0%nat := 1]> (dirty (backup p)) |} (toDisk p).
Definition ex_ctl_dirty : _RAMNV_CTL := Eval vm_compute in
  {| partNum := partNum ex_ctl_marked; part := map ex_part_marked (part ex_ctl_marked) |}.

Lemma ex_dirty_wf : ctl_wf ex_ctl_dirty.
Proof.
  constructor; [vm_compute; split; discriminate|reflexivity| |].
  - intros [|[|i]] p Hi Hp; [| |exfalso; vm_compute in Hi; lia];
      injection Hp as <-; apply ex_part_wf; vm_compute; congruence.
  - intros [|[|i]] [|[|j]] p q Hi Hj Hp Hq Hf; try done;
      try (exfalso; vm_compute in Hi, Hj; lia);
      injection Hp as <-; injection Hq as <-; vm_compute in Hf; discriminate Hf.
Qed.

Lemma ex_dirty_writable : all_writable ex_ctl_dirty ex_fs.
Proof.
  intros i p Hi Hp. assert (Hm : (part ex_ctl_dirty !! i) = ex_part_marked <$> (part ex_ctl_marked !! i)).
  { rewrite <- list_lookup_fmap. apply (f_equal (fun l : list _ => l !! i)). vm_compute. reflexivity. }
  rewrite Hm in Hp. destruct (part ex_ctl_marked !! i) as [q|] eqn:E; [|discriminate].
  injection Hp as <-. apply (ex_all_writable i q); [exact Hi|exact E].
Qed.

Lemma saver_round_witness :
  exists c' st', saveToDisk ex_ctl_dirty ex_fs = Done (c', st') /\
    rtc saver_step (mk ex_ctl_dirty ex_fs (giveEvent SWait)) (mk c' st' SWait).
Proof. exact (saver_round ex_ctl_dirty ex_fs ex_dirty_wf ex_dirty_writable). Defined.

Definition ex_committed : _RAMNV_CTL := Eval vm_compute in
  match on_part ex_ctl_dirty 0 backup_part with Done c => c | _ => ex_ctl_dirty end.

Lemma threads_keep_committed_witness :
  ctl_wf ex_ctl_dirty /\
  forall p, (1 < Z.to_nat (partNum ex_committed))%nat -> part ex_committed !! 1%nat = Some p ->
    st_ok ex_fs (fdhandle p) (part_bytes p) /\ kept ex_fs (SCheck 0) 1 p /\
    (SCheck 0 = SWait -> __ifHasDirty p = false -> st_holds ex_fs (fdhandle p) (image p (backup p))).
Proof.
  split; [exact ex_dirty_wf|].
  apply (threads_keep_committed 1 (mk ex_ctl_dirty ex_fs SWait) (mk ex_committed ex_fs (SCheck 0))).
  - exact ex_dirty_wf.
  - exact I.
  - intros p Hi Hp. split; [exact (ex_dirty_writable 1%nat p Hi Hp)|]. injection Hp as <-.
    split; [left; vm_compute; reflexivity|]. left. vm_compute. reflexivity.
  - apply rtc_once. right. apply (step_commit ex_ctl_dirty ex_fs SWait 0); [vm_compute; lia|].
    vm_compute. reflexivity.
Defined.

Definition ex_dirty_part0 : _RAMNV_PART_CTRL := default zero_part (part ex_ctl_dirty !! 0%nat).

Lemma commit_during_round_not_saved_witness :
  exists n', rtc step (mk ex_ctl_dirty ex_fs (SCheck 1)) n' /\ n_saver n' = SWait /\
    (exists p', part (n_ctl n') !! 0%nat = Some p' /\ __ifHasDirty p' = true /\
       image p' (backup p') = image ex_dirty_part0 (fromChannel ex_dirty_part0)) /\
    forall n'', ~ saver_step n' n''.
Proof.
  apply (commit_during_round_not_saved ex_ctl_dirty ex_fs 0 1 ex_dirty_part0 ex_dirty_wf ex_dirty_writable);
    [vm_compute; lia|reflexivity|reflexivity].
Defined.
