(* ===== verification/NvServer.v ===== *)
(** * apps/nvitem/nvitem_server.c: start-up and main loop of the daemon

    [main] builds the property names, the channel path, the image paths and
    the sizes from its arguments and the Android properties, initialises the
    buffers from the image store and then serves one connection after the
    other.  [property_get] is a parameter.  A character array that no branch
    has filled is an indeterminate string: using it is undefined. *)

From S2P Require Import Prelude CString OnesComplement NvFs NvBuf NvPacket NvSync.

Definition PRODUCT_PARTITION_PATH : string := "ro.product.partitionpath".
Definition RO_MODEM_CHAR : string := "ro.modem.".
Definition RO_MODEM_FIXNVSIZE : string := ".fixnv_size".
Definition RO_MODEM_RUNNVSIZE : string := ".runnv_size".
Definition RO_MODEM_NV_PATH : string := ".nvp".
Definition NV_TAIL : string := ".nv".

(** ** Start-up *)
Record setup := {
  channel_path : string;
  fixnv_ori_path : string;
  fixnv_bak_path : string;
  runnv_ori_path : string;
  runnv_bak_path : string;
  fixnv_size : Z;
  runnv_size : Z;
  is_cali_mode : Z
}.

(** [if (strlen(a) + strlen(b) < n) { strcpy(dst, a); strcat(dst, b); }] on an
    uninitialised [dst] that is used afterwards. *)
Definition cat_if (n : Z) (a b : string) : outcome string :=
  if strlen a + strlen b <? n then Done (a +:+ b) else Undef.

(** The guarded path of an image: the globals start empty. *)
Definition image_file (partition_path path_char check name : string) : string :=
  if strlen partition_path + strlen path_char + strlen check <? 100
  then partition_path +:+ (path_char +:+ name) else "".

Definition main_setup (property_get : string -> string) (argv1 argv2 : string) : outcome setup :=
  let* system_prop := cat_if 20 RO_MODEM_CHAR argv1 in
  let* channel_char := cat_if 50 system_prop NV_TAIL in
  let* fixnv_property := cat_if 50 system_prop RO_MODEM_FIXNVSIZE in
  let* runnv_property := cat_if 50 system_prop RO_MODEM_RUNNVSIZE in
  let partition_path := property_get PRODUCT_PARTITION_PATH in
  let* nvp := cat_if 50 system_prop RO_MODEM_NV_PATH in
  let path_char := property_get nvp in
  Done {| channel_path := property_get channel_char;
          fixnv_ori_path := image_file partition_path path_char "fixnv1" "fixnv1";
          fixnv_bak_path := image_file partition_path path_char "fixnv1" "fixnv2";
          runnv_ori_path := image_file partition_path path_char "runtimenv1" "runtimenv1";
          runnv_bak_path := image_file partition_path path_char "runtimenv1" "runtimenv2";
          fixnv_size := u32 (strtol (property_get fixnv_property) 16);
          runnv_size := u32 (strtol (property_get runnv_property) 16);
          is_cali_mode := u8 (atoi argv2) |}.

(** The configuration [ramDisk_Init] makes of it. *)
Definition setup_cfg (s : setup) : list RAM_NV_CONFIG :=
  ramDisk_Init (fixnv_ori_path s) (fixnv_bak_path s) (runnv_ori_path s) (runnv_bak_path s)
    (fixnv_size s) (runnv_size s) _ramdiskCfg_init.

(** Everything before the loop: the daemon as it enters it. *)
Definition main_init (property_get : string -> string) (argv1 argv2 : string) (garbage : nat -> Z)
    (rnds : list Z) (d : disk) (v : sync_vars) (p : packet_state) : outcome (setup * daemon fs_state) :=
  let* s := main_setup property_get argv1 argv2 in
  let* (c, st) := initBuf garbage zero_ctl (setup_cfg s) {| fs_cfg := setup_cfg s; fs_disk := d |} rnds in
  Done (s, {| sv := v; pk := p; ctl := c; store := st; out := []; events := 0 |}).

(** The loop: one connection after the other. *)
Fixpoint main_loop (s : setup) (d : daemon fs_state) (conns : list (list read_result))
  : outcome (daemon fs_state) :=
  match conns with
  | [] => Done d
  | chan :: conns' =>
      let* (d, _) := session (negb (is_cali_mode s =? 0)) d chan in main_loop s d conns'
  end.

(** ** Lemmas *)

(** [ramDisk_Read] stays inside the buffer whatever the disk holds. *)
Lemma read_first_total d name buf size :
  0 <= size <= zlen buf ->
  (exists b, read_first d name buf size = Done (inl b) /\ zlen b = zlen buf) \/
  exists b r, read_first d name buf size = Done (inr (b, r)) /\ zlen b = zlen buf.
Proof.
  intros Hs. unfold read_first. destruct (memset_inv buf 255 size Hs) as (b & -> & Hz & _). cbn [obind].
  destruct (files d !! name) as [content|]; [|right; eauto].
  destruct (read_image_total content b size) as (h & b' & -> & Hz' & _); [lia|]. cbn [obind].
  cif; [right; do 2 eexists; split; [done|]; lia|]. rewrite slice_in by lia. cbn [obind].
  cif; [left|right]; repeat eexists; lia.
Qed.

Lemma read_second_total d first second buf size r :
  0 <= size <= zlen buf ->
  exists b d', read_second d first second buf size r = Done (true, b, d') /\ zlen b = zlen buf.
Proof.
  intros Hs. unfold read_second. destruct (memset_inv buf 255 size Hs) as (b & -> & Hz & _). cbn [obind].
  assert (Hm : exists h b' r1 r2, match files d !! second with
    | Some content => read_image content b size
    | None => Done (replicate (Z.to_nat RAMNV_SECT_SIZE) 0, b, RAMNV_SECT_SIZE, r)
    end = Done (h, b', r1, r2) /\ zlen b' = zlen b).
  { destruct (files d !! second) as [content|]; [|by repeat eexists].
    destruct (read_image_total content b size) as (h & b' & -> & Hz' & _); [lia|]. by repeat eexists. }
  destruct Hm as (h & b' & r1 & r2 & -> & Hz'). cbn [obind].
  cif; [do 2 eexists; split; [done|]; lia|]. cif; [do 2 eexists; split; [done|]; lia|].
  rewrite slice_in by lia. cbn [obind]. cif; do 2 eexists; (split; [done|]; lia).
Qed.

Lemma ramDisk_Read_total cfg rnd d h c buf size :
  partition cfg h c -> 0 <= size <= zlen buf ->
  exists b d', ramDisk_Read cfg rnd d h buf size = Done (true, b, d') /\ zlen b = zlen buf.
Proof.
  intros Hp Hs. unfold ramDisk_Read. rewrite (partition_found _ _ _ Hp), Hp. cbn [obind].
  destruct (if negb (rnd mod 2 =? 0) then _ else _) as [n1 n2].
  destruct (read_first_total d n1 buf size Hs) as [(b & -> & Hz)|(b & r & -> & Hz)]; cbn [obind]; [eauto|].
  rewrite <- Hz. apply read_second_total. lia.
Qed.

Lemma strlen_app a b : strlen (a +:+ b) = strlen a + strlen b.
Proof.
  unfold strlen. rewrite <- Nat2Z.inj_add. f_equal.
  induction a as [|c a IH]; [done|]. exact (f_equal S IH).
Qed.

Lemma string_app_assoc (a b c : string) : a +:+ b +:+ c = (a +:+ b) +:+ c.
Proof. induction a as [|x a IH]; [done|]. exact (f_equal (String x) IH). Qed.

Lemma strlen_nonneg a : 0 <= strlen a.
Proof. unfold strlen. lia. Qed.

(** The configuration of a daemon whose paths fit. *)
Lemma setup_cfg_eq property_get argv1 argv2 :
  strlen argv1 <= 10 ->
  strlen (property_get PRODUCT_PARTITION_PATH) +
    strlen (property_get (RO_MODEM_CHAR +:+ argv1 +:+ RO_MODEM_NV_PATH)) < 90 ->
  exists s base, main_setup property_get argv1 argv2 = Done s /\
    setup_cfg s =
      {| partId := 1; image_path := base +:+ "fixnv1"; imageBak_path := base +:+ "fixnv2";
         image_size := fixnv_size s |} ::
      {| partId := 2; image_path := base +:+ "runtimenv1"; imageBak_path := base +:+ "runtimenv2";
         image_size := runnv_size s |} ::
      replicate 14 {| partId := 0; image_path := ""; imageBak_path := ""; image_size := 0 |}.
Proof.
  intros Ha Hp. pose proof (strlen_nonneg argv1). unfold main_setup, cat_if.
  change (strlen RO_MODEM_CHAR) with 9. guard_true (9 + strlen argv1 <? 20). cbn [obind].
  rewrite strlen_app. change (strlen RO_MODEM_CHAR) with 9. change (strlen NV_TAIL) with 3.
  change (strlen RO_MODEM_FIXNVSIZE) with 11. change (strlen RO_MODEM_RUNNVSIZE) with 11.
  change (strlen RO_MODEM_NV_PATH) with 4.
  guard_true (9 + strlen argv1 + 3 <? 50). cbn [obind]. guard_true (9 + strlen argv1 + 11 <? 50). cbn [obind].
  guard_true (9 + strlen argv1 + 4 <? 50). cbn [obind].
  replace ((RO_MODEM_CHAR +:+ argv1) +:+ RO_MODEM_NV_PATH)
    with (RO_MODEM_CHAR +:+ argv1 +:+ RO_MODEM_NV_PATH) by apply string_app_assoc.
  set (pp := property_get PRODUCT_PARTITION_PATH) in *. set (pc := property_get (_ +:+ argv1 +:+ _)) in *.
  exists {| channel_path := property_get ((RO_MODEM_CHAR +:+ argv1) +:+ NV_TAIL);
            fixnv_ori_path := image_file pp pc "fixnv1" "fixnv1"; fixnv_bak_path := image_file pp pc "fixnv1" "fixnv2";
            runnv_ori_path := image_file pp pc "runtimenv1" "runtimenv1";
            runnv_bak_path := image_file pp pc "runtimenv1" "runtimenv2";
            fixnv_size := u32 (strtol (property_get ((RO_MODEM_CHAR +:+ argv1) +:+ RO_MODEM_FIXNVSIZE)) 16);
            runnv_size := u32 (strtol (property_get ((RO_MODEM_CHAR +:+ argv1) +:+ RO_MODEM_RUNNVSIZE)) 16);
            is_cali_mode := u8 (atoi argv2) |}, (pp +:+ pc).
  split; [done|]. unfold setup_cfg, ramDisk_Init, image_file.
  change (strlen "fixnv1") with 6. change (strlen "runtimenv1") with 10.
  cbn [fixnv_ori_path fixnv_bak_path runnv_ori_path runnv_bak_path].
  guard_true (strlen pp + strlen pc + 6 <? 100). guard_true (strlen pp + strlen pc + 10 <? 100).
  cbn match. rewrite !strlen_app. change (strlen "fixnv1") with 6. change (strlen "fixnv2") with 6.
  change (strlen "runtimenv1") with 10. change (strlen "runtimenv2") with 10.
  rewrite !string_app_assoc.
  guard_false (100 <? strlen pp + (strlen pc + 6)). guard_false (100 <? strlen pp + (strlen pc + 10)). done.
Qed.

(** One partition of [initBuf]. *)
Lemma initBuf_part garbage cfg d i cf config c rnds p q :
  partId cf <> 0 -> partition cfg (partId cf) q -> 0 <= image_size cf < 2 ^ 32 - 4 ->
  0 <= i < zlen (part c) -> part c !! Z.to_nat i = Some p ->
  exists d' from, zlen from = image_size cf + 4 /\
    initBuf_loop garbage (cf :: config) i c {| fs_cfg := cfg; fs_disk := d |} rnds =
    initBuf_loop garbage config (i + 1)
      {| partNum := u32 (partNum c + 1);
         part := <[Z.to_nat i := {| pt_partId := partId cf; sctNum := image_size cf / RAMNV_SECT_SIZE;
                   fromChannel := {| diskbuf := from; dirty := dirty (fromChannel p) |};
                   backup := {| diskbuf := from; dirty := dirty (backup p) |};
                   toDisk := {| diskbuf := from; dirty := dirty (toDisk p) |}; fdhandle := partId cf |}]> (part c) |}
      {| fs_cfg := cfg; fs_disk := d' |} (tl rnds).
Proof.
  intros Hid Hp Hs Hi Hpi. cbn [initBuf_loop]. rewrite (proj2 (Z.eqb_neq _ _) Hid).
  rewrite (rd_Some _ _ _ (proj1 Hi) Hpi). cbn [obind]. unfold ramDisk_Open.
  rewrite (proj2 (Z.eqb_neq _ _) Hid). rewrite u32_small by (unfold u32_ok; lia).
  assert (Hz : zlen (malloc garbage (image_size cf + 4)) = image_size cf + 4).
  { unfold malloc, zlen. rewrite length_map, length_seq. lia. }
  destruct (memset_inv (malloc garbage (image_size cf + 4)) 0 (image_size cf)) as (b & -> & Hzb & _); [lia|].
  cbn [obind st_read fs_store fs_cfg fs_disk].
  destruct (ramDisk_Read_total cfg (hd 0 rnds) d (partId cf) q b (image_size cf) Hp) as (from & d' & -> & Hzf); [lia|].
  cbn [obind negb]. unfold set_part. rewrite wr_in by done. cbn [obind partNum part].
  exists d', from. split; [lia|done].
Qed.

Lemma zero_part_wf id size from fd :
  0 <= size < 2 ^ 32 - 4 -> zlen from = size + 4 ->
  part_wf {| pt_partId := id; sctNum := size / RAMNV_SECT_SIZE;
             fromChannel := {| diskbuf := from; dirty := replicate 32 0 |};
             backup := {| diskbuf := from; dirty := replicate 32 0 |};
             toDisk := {| diskbuf := from; dirty := replicate 32 0 |}; fdhandle := fd |}.
Proof.
  intros Hs Hz. constructor; cbn; try done; unfold RAMNV_SECT_SIZE in *; rewrite ?Hz;
    try (Z.div_mod_to_equations; lia).
Qed.

(** Start-up establishes what the rest of the daemon relies on.  For a
    modem name of at most 10 characters, paths that fit and sizes below
    [2^32 - 4], whatever the images on the disk contain and whatever [malloc]
    returns, [main] reaches its loop without undefined behaviour, with two
    partitions, a well-formed control block whose partitions are clean, and
    four pairwise different image files. *)
Theorem main_init_establishes property_get argv1 argv2 garbage rnds d v p :
  strlen argv1 <= 10 ->
  strlen (property_get PRODUCT_PARTITION_PATH) +
    strlen (property_get (RO_MODEM_CHAR +:+ argv1 +:+ RO_MODEM_NV_PATH)) < 90 ->
  (forall s, main_setup property_get argv1 argv2 = Done s ->
     fixnv_size s < 2 ^ 32 - 4 /\ runnv_size s < 2 ^ 32 - 4) ->
  exists s dm, main_init property_get argv1 argv2 garbage rnds d v p = Done (s, dm) /\
    ctl_wf (ctl dm) /\ all_clean (ctl dm) /\ partNum (ctl dm) = 2 /\ disjoint_paths (fs_cfg (store dm)).
Proof.
  intros Ha Hp Hsz. destruct (setup_cfg_eq property_get argv1 argv2 Ha Hp) as (s & base & Hs & Hcfg).
  destruct (Hsz s Hs) as [Hs1 Hs2].
  assert (Hr : u32_ok (fixnv_size s) /\ u32_ok (runnv_size s)).
  { unfold main_setup, cat_if in Hs. repeat obind_inv Hs. injection Hs as <-. cbn. auto with cbounds. }
  unfold u32_ok in Hr. unfold main_init. rewrite Hs. cbn [obind]. unfold initBuf.
  set (cf1 := {| partId := 1; image_path := _; imageBak_path := _; image_size := _ |}) in Hcfg.
  set (cf2 := {| partId := 2; image_path := _; imageBak_path := _; image_size := _ |}) in Hcfg.
  assert (Hp1 : partition (setup_cfg s) 1 cf1) by (unfold partition; by rewrite Hcfg).
  assert (Hp2 : partition (setup_cfg s) 2 cf2) by (unfold partition; by rewrite Hcfg).
  set (cfg := setup_cfg s) in *.
  set (tail := replicate 14 _) in Hcfg.
  assert (Hl : forall c st, initBuf_loop garbage cfg 0 c st rnds =
    initBuf_loop garbage (cf1 :: cf2 :: tail) 0 c st rnds) by (intros; by rewrite <- Hcfg).
  rewrite Hl.
  destruct (initBuf_part garbage cfg d 0 cf1
    (cf2 :: tail)
    {| partNum := 0; part := map clear_part (part zero_ctl) |} rnds zero_part cf1)
    as (d1 & f1 & Hf1 & ->); [done|done|cbn; lia|vm_compute; split; congruence|done|].
  set (c1 := {| partNum := _; part := _ |}).
  destruct (initBuf_part garbage cfg d1 (0 + 1) cf2
    tail c1 (tl rnds) zero_part cf2)
    as (d2 & f2 & Hf2 & ->); [done|done|cbn; lia|vm_compute; split; congruence|done|].
  cbn [tail replicate initBuf_loop partId Z.eqb obind]. do 2 eexists. split; [reflexivity|]. cbn [ctl store fs_cfg].
  split_and!.
  - constructor; [vm_compute; split; congruence|reflexivity| |].
    + intros [|[|i]] q Hi Hq; [| |exfalso; vm_compute in Hi; lia]; injection Hq as <-;
        apply zero_part_wf; cbn in *; lia.
    + intros [|[|i]] [|[|j]] q r Hi Hj Hq Hr' Hf; try done; try (exfalso; vm_compute in Hi, Hj; lia);
        injection Hq as <-; injection Hr' as <-; discriminate Hf.
  - intros [|[|i]] q Hi Hq; [| |exfalso; vm_compute in Hi; lia]; by injection Hq as <-.
  - reflexivity.
  - intros h1 h2 g1 g2. unfold partition, _getIdx. rewrite Hcfg. cbn [_getIdx_from partId cf1 cf2 tail replicate].
    change (1 =? 0) with false. change (2 =? 0) with false. cbn match.
    destruct (Z.eqb_spec h1 1) as [->|], (Z.eqb_spec h2 1) as [->|]; try done.
    + destruct (Z.eqb_spec h2 2) as [->|]; [|done]. intros [= <-] [= <-] _. cbn.
      split_and!; intros E%(inj (String.append base)); discriminate E.
    + destruct (Z.eqb_spec h1 2) as [->|]; [|done]. intros [= <-] [= <-] _. cbn.
      split_and!; intros E%(inj (String.append base)); discriminate E.
    + destruct (Z.eqb_spec h1 2) as [->|], (Z.eqb_spec h2 2) as [->|]; done.
Qed.

(** The main loop serves every sequence of connections: started from a
    daemon between two connections, no connection keeps it forever, and unless
    a request drives it into undefined behaviour the daemon is between two
    connections again after the last one, with well-formed and clean
    partitions. *)
Theorem main_loop_serves s dm conns :
  between dm -> Forall (Forall read_ok) conns ->
  main_loop s dm conns <> Fuel /\ (forall d', main_loop s dm conns = Done d' -> between d').
Proof.
  intros Hb Hc. revert dm Hb. induction Hc as [|chan conns Hch _ IH]; intros dm Hb; cbn [main_loop].
  { split; [done|]. by intros ? [= <-]. }
  pose proof (session_between (negb (is_cali_mode s =? 0)) dm chan) as Hnext.
  destruct (session_wf (negb (is_cali_mode s =? 0)) dm chan Hb Hch) as [E|(d1 & ch1 & E & _)];
    rewrite E in *; cbn [obind]; [done|]. apply IH. by eapply Hnext.
Qed.

(** ** Concrete instances *)
Definition ex_property (key : string) : string :=
  if String.eqb key "ro.modem.t.fixnv_size" then "0x200"
  else if String.eqb key "ro.modem.t.runnv_size" then "400"
  else if String.eqb key "ro.product.partitionpath" then "/productinfo/"
  else if String.eqb key "ro.modem.t.nvp" then "td_" else "".

Definition ex_setup : setup := Eval vm_compute in
  match main_setup ex_property "t" "0" with Done s => s | _ => {|
    channel_path := ""; fixnv_ori_path := ""; fixnv_bak_path := ""; runnv_ori_path := "";
    runnv_bak_path := ""; fixnv_size := 0; runnv_size := 0; is_cali_mode := 0 |} end.

Example ex_setup_sizes : fixnv_size ex_setup = 512 /\ runnv_size ex_setup = 1024 /\
  fixnv_ori_path ex_setup = "/productinfo/td_fixnv1".
Proof. done. Qed.

Lemma main_init_establishes_witness :
  exists s dm, main_init ex_property "t" "0" (fun _ => 7) [1; 0] (fs_disk ex_fs) zero_sync ex_packet_state =
      Done (s, dm) /\
    ctl_wf (ctl dm) /\ all_clean (ctl dm) /\ partNum (ctl dm) = 2 /\ disjoint_paths (fs_cfg (store dm)).
Proof.
  apply (main_init_establishes ex_property "t" "0" (fun _ => 7) [1; 0] (fs_disk ex_fs) zero_sync ex_packet_state).
  - vm_compute. discriminate.
  - vm_compute. reflexivity.
  - intros s Hs. vm_compute in Hs. injection Hs as <-. vm_compute. done.
Defined.

Lemma main_loop_serves_witness :
  main_loop ex_setup ex_daemon [ex_chan; ex_chan] <> Fuel /\
  (forall d', main_loop ex_setup ex_daemon [ex_chan; ex_chan] = Done d' -> between d').
Proof.
  assert (Hc : Forall read_ok ex_chan)
    by (apply Forall_cons; split; [|apply Forall_singleton]; apply bytes_ok_dec; vm_compute; reflexivity).
  apply (main_loop_serves ex_setup ex_daemon [ex_chan; ex_chan]).
  - constructor; [exact ex_ctl0_wf|exact ex_ctl0_clean|exact ex_pk_ok|reflexivity|apply bytes_ok_dec; reflexivity].
  - apply Forall_cons; split; [exact Hc|]. apply Forall_singleton. exact Hc.
Defined.
