(* ===== verification/ModemCrc.v ===== *)
(** * apps/modem_control/crc16.c: checksums of the download protocol

    [crc_16_l_calc] protects the UART packets, [frm_chk] and [boot_checksum]
    the mode switch and the SPI packets, [calculate_crc] is the table-driven
    CRC-16.  Byte buffers are lists of their bytes, as long as the [len]
    argument. *)

From S2P Require Import Prelude OnesComplement.

(** ** The code *)
Definition CRC_16_POLYNOMIAL : Z := 0x1021.
Definition CRC_16_L_POLYNOMIAL : Z := 0x8000.
Definition CRC_16_L_SEED : Z := 0x80.
Definition CRC_16_L_OK : Z := 0.

Definition crc16_table : list Z := [
   0x0000; 0xC0C1; 0xC181; 0x0140; 0xC301; 0x03C0; 0x0280; 0xC241;
   0xC601; 0x06C0; 0x0780; 0xC741; 0x0500; 0xC5C1; 0xC481; 0x0440;
   0xCC01; 0x0CC0; 0x0D80; 0xCD41; 0x0F00; 0xCFC1; 0xCE81; 0x0E40;
   0x0A00; 0xCAC1; 0xCB81; 0x0B40; 0xC901; 0x09C0; 0x0880; 0xC841;
   0xD801; 0x18C0; 0x1980; 0xD941; 0x1B00; 0xDBC1; 0xDA81; 0x1A40;
   0x1E00; 0xDEC1; 0xDF81; 0x1F40; 0xDD01; 0x1DC0; 0x1C80; 0xDC41;
   0x1400; 0xD4C1; 0xD581; 0x1540; 0xD701; 0x17C0; 0x1680; 0xD641;
   0xD201; 0x12C0; 0x1380; 0xD341; 0x1100; 0xD1C1; 0xD081; 0x1040;
   0xF001; 0x30C0; 0x3180; 0xF141; 0x3300; 0xF3C1; 0xF281; 0x3240;
   0x3600; 0xF6C1; 0xF781; 0x3740; 0xF501; 0x35C0; 0x3480; 0xF441;
   0x3C00; 0xFCC1; 0xFD81; 0x3D40; 0xFF01; 0x3FC0; 0x3E80; 0xFE41;
   0xFA01; 0x3AC0; 0x3B80; 0xFB41; 0x3900; 0xF9C1; 0xF881; 0x3840;
   0x2800; 0xE8C1; 0xE981; 0x2940; 0xEB01; 0x2BC0; 0x2A80; 0xEA41;
   0xEE01; 0x2EC0; 0x2F80; 0xEF41; 0x2D00; 0xEDC1; 0xEC81; 0x2C40;
   0xE401; 0x24C0; 0x2580; 0xE541; 0x2700; 0xE7C1; 0xE681; 0x2640;
   0x2200; 0xE2C1; 0xE381; 0x2340; 0xE101; 0x21C0; 0x2080; 0xE041;
   0xA001; 0x60C0; 0x6180; 0xA141; 0x6300; 0xA3C1; 0xA281; 0x6240;
   0x6600; 0xA6C1; 0xA781; 0x6740; 0xA501; 0x65C0; 0x6480; 0xA441;
   0x6C00; 0xACC1; 0xAD81; 0x6D40; 0xAF01; 0x6FC0; 0x6E80; 0xAE41;
   0xAA01; 0x6AC0; 0x6B80; 0xAB41; 0x6900; 0xA9C1; 0xA881; 0x6840;
   0x7800; 0xB8C1; 0xB981; 0x7940; 0xBB01; 0x7BC0; 0x7A80; 0xBA41;
   0xBE01; 0x7EC0; 0x7F80; 0xBF41; 0x7D00; 0xBDC1; 0xBC81; 0x7C40;
   0xB401; 0x74C0; 0x7580; 0xB541; 0x7700; 0xB7C1; 0xB681; 0x7640;
   0x7200; 0xB2C1; 0xB381; 0x7340; 0xB101; 0x71C0; 0x7080; 0xB041;
   0x5000; 0x90C1; 0x9181; 0x5140; 0x9301; 0x53C0; 0x5280; 0x9241;
   0x9601; 0x56C0; 0x5780; 0x9741; 0x5500; 0x95C1; 0x9481; 0x5440;
   0x9C01; 0x5CC0; 0x5D80; 0x9D41; 0x5F00; 0x9FC1; 0x9E81; 0x5E40;
   0x5A00; 0x9AC1; 0x9B81; 0x5B40; 0x9901; 0x59C0; 0x5880; 0x9841;
   0x8801; 0x48C0; 0x4980; 0x8941; 0x4B00; 0x8BC1; 0x8A81; 0x4A40;
   0x4E00; 0x8EC1; 0x8F81; 0x4F40; 0x8D01; 0x4DC0; 0x4C80; 0x8C41;
   0x4400; 0x84C1; 0x8581; 0x4540; 0x8701; 0x47C0; 0x4680; 0x8641;
   0x8201; 0x42C0; 0x4380; 0x8341; 0x4100; 0x81C1; 0x8081; 0x4040 ].

(** The body of the inner loop of [crc_16_l_calc] for the mask [i]. *)
Definition crc_16_l_bit (crc byte i : Z) : Z :=
  let crc :=
    if negb (Z.land crc CRC_16_L_POLYNOMIAL =? 0)
    then Z.lxor (u16 (Z.shiftl crc 1)) CRC_16_POLYNOMIAL
    else u16 (Z.shiftl crc 1) in
  if negb (Z.land byte i =? 0) then Z.lxor crc CRC_16_POLYNOMIAL else crc.

(** [for (i = seed; i != 0; i = i >> 1)]; 8 rounds for the seed 0x80. *)
Fixpoint crc_16_l_byte (n : nat) (crc byte i : Z) : Z :=
  match n with
  | O => crc
  | S n' => if i =? 0 then crc else crc_16_l_byte n' (crc_16_l_bit crc byte i) byte (Z.shiftr i 1)
  end.

Definition crc_16_l_calc (buf_ptr : list Z) : Z :=
  fold_left (fun crc byte => crc_16_l_byte 9 crc byte CRC_16_L_SEED) buf_ptr 0.

(** [while (len > 3)] and the [switch] of [frm_chk]. *)
Fixpoint frm_loop (src : list Z) (sum : Z) : Z :=
  match src with
  | a :: b :: c :: d :: src' => frm_loop src' (u32 (u32 (sum + (a + 256 * b)) + (c + 256 * d)))
  | [a; b; c] => u32 (u32 (sum + (a + 256 * b)) + c)
  | [a; b] => u32 (sum + (a + 256 * b))
  | [a] => u32 (sum + a)
  | [] => sum
  end.

Definition frm_chk (src : list Z) : Z :=
  let sum := frm_loop src 0 in
  let sum := u32 (Z.shiftr sum 16 + Z.land sum 0x0FFFF) in
  let sum := u32 (sum + Z.shiftr sum 16) in
  u16 (Z.lnot sum).

(** [while (size1-- > 0)] of [boot_checksum]. *)
Fixpoint boot_loop (size1 : nat) (data : list Z) (sum : Z) : Z :=
  match size1, data with
  | S size1, a :: b :: data => boot_loop size1 data (u32 (sum + (a + 256 * b)))
  | _, _ => sum
  end.

Definition boot_checksum (src : list Z) : Z :=
  let len := zlen src in
  let size1 := Z.shiftr len 1 in
  let size2 := Z.land len 1 in
  let sum :=
    if negb (len =? 0) then
      let sum := boot_loop (Z.to_nat size1) src 0 in
      if negb (size2 =? 0) then u32 (sum + default 0 (src !! Z.to_nat (len - 1))) else sum
    else 0 in
  let sum := u32 (Z.shiftr sum 16 + Z.land sum 0xFFFF) in
  let sum := u32 (sum + Z.shiftr sum 16) in
  u16 (Z.lnot sum).

Definition calculate_crc_step (crc byte : Z) : Z :=
  Z.lxor (Z.shiftr crc 8) (default 0 (crc16_table !! Z.to_nat (Z.land (Z.lxor crc byte) 0xff))).

Definition calculate_crc (crc : Z) (buffer : list Z) : Z := fold_left calculate_crc_step buffer crc.

(** ** Exclusive or on 16-bit values *)
Definition u16_ok (x : Z) : Prop := 0 <= x < 65536.

Lemma land_pow2 x k : 0 <= k -> negb (Z.land x (2 ^ k) =? 0) = Z.testbit x k.
Proof.
  intros Hk. assert (E : Z.land x (2 ^ k) = if Z.testbit x k then 2 ^ k else 0).
  { apply Z.bits_inj'. intros i Hi. rewrite Z.land_spec, Z.pow2_bits_eqb by lia.
    destruct (Z.eqb_spec k i) as [<-|Hne].
    - rewrite andb_true_r. destruct (Z.testbit x k); [|by rewrite Z.bits_0].
      rewrite Z.pow2_bits_eqb by lia. by rewrite Z.eqb_refl.
    - rewrite andb_false_r. destruct (Z.testbit x k); [|by rewrite Z.bits_0].
      rewrite Z.pow2_bits_eqb by lia. by rewrite (proj2 (Z.eqb_neq _ _) Hne). }
  rewrite E. destruct (Z.testbit x k); [|done]. apply negb_true_iff, Z.eqb_neq. lia.
Qed.

Lemma u16_lxor a b : u16 (Z.lxor a b) = Z.lxor (u16 a) (u16 b).
Proof.
  apply Z.bits_inj'. intros i Hi. unfold u16. rewrite testbit_wrap, !Z.lxor_spec, !testbit_wrap by lia.
  by destruct (i <? 16), (Z.testbit a i), (Z.testbit b i).
Qed.

Lemma lxor_u16 a b : u16_ok a -> u16_ok b -> u16_ok (Z.lxor a b).
Proof.
  intros Ha Hb. rewrite <- (u16_small a), <- (u16_small b), <- u16_lxor by done. apply u16_range.
Qed.

Lemma lxor_eq_0 a b : Z.lxor a b = 0 -> a = b.
Proof. apply Z.lxor_eq. Qed.

(** ** One bit of the CRC as a linear map *)
Definition sbit (c : Z) (b : bool) : Z :=
  Z.lxor (u16 (Z.shiftl c 1)) (if xorb (Z.testbit c 15) b then CRC_16_POLYNOMIAL else 0).

Lemma crc_16_l_bit_sbit crc byte k :
  0 <= k -> crc_16_l_bit crc byte (2 ^ k) = sbit crc (Z.testbit byte k).
Proof.
  intros Hk. unfold crc_16_l_bit, sbit. rewrite land_pow2 by done.
  change CRC_16_L_POLYNOMIAL with (2 ^ 15). rewrite land_pow2 by lia.
  destruct (Z.testbit crc 15), (Z.testbit byte k); cbn [xorb]; rewrite ?Z.lxor_0_r; try done.
  by rewrite Z.lxor_assoc, Z.lxor_nilpotent, Z.lxor_0_r.
Qed.

Definition bits_of (byte : Z) : list bool := map (Z.testbit byte) [7; 6; 5; 4; 3; 2; 1; 0].
Definition feed (c : Z) (bs : list bool) : Z := fold_left sbit bs c.

(** The masks run over the bits [k-1 .. 0]. *)
Lemma crc_byte_masks k : forall crc byte,
  crc_16_l_byte (S (S k)) crc byte (2 ^ Z.of_nat k) =
  feed crc (map (fun j => Z.testbit byte (Z.of_nat j)) (rev (seq 0 (S k)))).
Proof.
  induction k as [|k IH]; intros crc byte.
  { change (2 ^ Z.of_nat 0) with (2 ^ 0). cbn [crc_16_l_byte].
    change (2 ^ 0 =? 0) with false. change (Z.shiftr (2 ^ 0) 1 =? 0) with true. cbv iota.
    by rewrite crc_16_l_bit_sbit. }
  cbn [crc_16_l_byte]. replace (2 ^ Z.of_nat (S k) =? 0) with false
    by (symmetry; apply Z.eqb_neq; lia). cbv iota. rewrite crc_16_l_bit_sbit by lia.
  replace (Z.shiftr (2 ^ Z.of_nat (S k)) 1) with (2 ^ Z.of_nat k).
  - etransitivity; [apply IH|]. rewrite (seq_S (S k)), rev_app_distr. reflexivity.
  - rewrite Z.shiftr_div_pow2, <- Z.pow_sub_r by lia. f_equal. lia.
Qed.

Lemma crc_byte_feed crc byte : crc_16_l_byte 9 crc byte CRC_16_L_SEED = feed crc (bits_of byte).
Proof. apply (crc_byte_masks 7). Qed.

Lemma sbit_u16 c b : u16_ok (sbit c b).
Proof. apply lxor_u16; [apply u16_range|]. destruct (xorb _ _); by vm_compute. Qed.

Lemma sbit_linear c d b e : sbit (Z.lxor c d) (xorb b e) = Z.lxor (sbit c b) (sbit d e).
Proof.
  unfold sbit. rewrite Z.shiftl_lxor, u16_lxor, Z.lxor_spec.
  set (x := u16 _). set (y := u16 _).
  assert (E : (if xorb (xorb (Z.testbit c 15) (Z.testbit d 15)) (xorb b e) then CRC_16_POLYNOMIAL else 0)
    = Z.lxor (if xorb (Z.testbit c 15) b then CRC_16_POLYNOMIAL else 0)
             (if xorb (Z.testbit d 15) e then CRC_16_POLYNOMIAL else 0)).
  { by destruct (Z.testbit c 15), (Z.testbit d 15), b, e. }
  rewrite E, !Z.lxor_assoc. f_equal. rewrite (Z.lxor_comm y). rewrite !Z.lxor_assoc. f_equal. apply Z.lxor_comm.
Qed.

(** A non-zero state stays non-zero on zero bits: the polynomial is odd. *)
Lemma sbit_kernel c : u16_ok c -> sbit c false = 0 -> c = 0.
Proof.
  intros Hc H0. unfold sbit in H0. apply lxor_eq_0 in H0. rewrite xorb_false_r in H0.
  rewrite Z.shiftl_mul_pow2 in H0 by lia. unfold u16, wrap in H0.
  destruct (Z.testbit c 15) eqn:E.
  - exfalso. change CRC_16_POLYNOMIAL with 4129 in H0. change (2 ^ 16) with 65536 in H0.
    change (2 ^ 1) with 2 in H0. Z.div_mod_to_equations. lia.
  - assert (c < 32768).
    { destruct (Z.lt_ge_cases c 32768); [done|]. exfalso. revert E.
      apply not_false_iff_true. rewrite Z.testbit_true by lia. change (2 ^ 15) with 32768.
      unfold u16_ok in Hc. Z.div_mod_to_equations. lia. }
    unfold u16_ok in Hc. rewrite Z.mod_small in H0 by lia. lia.
Qed.

Lemma sbit_inj c d b : u16_ok c -> u16_ok d -> sbit c b = sbit d b -> c = d.
Proof.
  intros Hc Hd He. apply lxor_eq_0, sbit_kernel; [by apply lxor_u16|].
  rewrite <- (xorb_nilpotent b), sbit_linear, He. apply Z.lxor_nilpotent.
Qed.

Lemma feed_u16 bs : forall c, u16_ok c -> u16_ok (feed c bs).
Proof. induction bs as [|b bs IH]; intros c Hc; [done|]. apply IH, sbit_u16. Qed.

Lemma feed_inj bs : forall c d, u16_ok c -> u16_ok d -> feed c bs = feed d bs -> c = d.
Proof.
  induction bs as [|b bs IH]; intros c d Hc Hd He; [done|].
  eapply sbit_inj; [done..|]. eapply IH; [apply sbit_u16..|exact He].
Qed.

Lemma feed_linear bs : forall es c d, length bs = length es ->
  feed (Z.lxor c d) (zip_with xorb bs es) = Z.lxor (feed c bs) (feed d es).
Proof.
  induction bs as [|b bs IH]; intros [|e es] c d Hl; try discriminate Hl; [done|].
  cbn [zip_with]. unfold feed in *. cbn [fold_left]. rewrite sbit_linear. apply IH. by injection Hl.
Qed.

(** ** The residue of a message with its CRC *)
Lemma sbit_own c k :
  0 <= k <= 15 -> sbit (u16 (Z.shiftl c k)) (Z.testbit c (15 - k)) = u16 (Z.shiftl c (k + 1)).
Proof.
  intros Hk. unfold sbit.
  replace (Z.testbit (u16 (Z.shiftl c k)) 15) with (Z.testbit c (15 - k))
    by (unfold u16; by rewrite testbit_wrap, Z.shiftl_spec by lia).
  rewrite xorb_nilpotent, Z.lxor_0_r.
  rewrite <- Z.shiftl_shiftl by lia. apply Z.bits_inj'. intros i Hi. unfold u16.
  rewrite !testbit_wrap, !Z.shiftl_spec by lia.
  destruct (Z.ltb_spec i 16); [|done]. rewrite !andb_true_l.
  destruct (Z.lt_ge_cases (i - 1) 0); [by rewrite !Z.testbit_neg_r by lia|].
  rewrite testbit_wrap, Z.shiftl_spec by lia. by guard_true (i - 1 <? 16).
Qed.

(** A state that is fed its own 16 bits becomes 0. *)
Lemma feed_own c :
  u16_ok c -> feed (feed c (bits_of (Z.shiftr c 8))) (bits_of (Z.land c 0xff)) = 0.
Proof.
  intros Hc.
  assert (Hhi : bits_of (Z.shiftr c 8) = map (Z.testbit c) [15; 14; 13; 12; 11; 10; 9; 8]).
  { unfold bits_of. cbn [map]. by rewrite !Z.shiftr_spec by lia. }
  assert (Hlo : bits_of (Z.land c 0xff) = bits_of c).
  { unfold bits_of. cbn [map]. rewrite !Z.land_spec. cbn. by rewrite !andb_true_r. }
  rewrite Hhi, Hlo. unfold bits_of, feed. cbn [map fold_left].
  rewrite <- (u16_small c) at 1 by done. rewrite <- (Z.shiftl_0_r c) at 1.
  assert (S : forall k j k', 0 <= k <= 15 -> j = 15 - k -> k' = k + 1 ->
    sbit (u16 (Z.shiftl c k)) (Z.testbit c j) = u16 (Z.shiftl c k'))
    by (intros k j k' Hk -> ->; by apply sbit_own).
  rewrite (S 0 15 1), (S 1 14 2), (S 2 13 3), (S 3 12 4), (S 4 11 5), (S 5 10 6),
    (S 6 9 7), (S 7 8 8), (S 8 7 9), (S 9 6 10), (S 10 5 11),
    (S 11 4 12), (S 12 3 13), (S 13 2 14), (S 14 1 15), (S 15 0 16) by lia.
  unfold u16, wrap. rewrite Z.shiftl_mul_pow2 by lia. apply Z.mod_mul. lia.
Qed.

Lemma crc_calc_app l k :
  crc_16_l_calc (l ++ k) =
  fold_left (fun crc byte => crc_16_l_byte 9 crc byte CRC_16_L_SEED) k (crc_16_l_calc l).
Proof. apply fold_left_app. Qed.

Lemma crc_calc_u16 l : u16_ok (crc_16_l_calc l).
Proof.
  unfold crc_16_l_calc. assert (H0 : u16_ok 0) by (by vm_compute). revert H0. generalize 0.
  induction l as [|b l IH]; intros c Hc; [done|]. cbn [fold_left]. apply IH.
  rewrite crc_byte_feed. by apply feed_u16.
Qed.

(** Receivers of the UART protocol can verify a packet by running the CRC
    over the packet and the CRC itself: for every message, [crc_16_l_calc] of
    the message followed by its big-endian CRC is [CRC_16_L_OK]. *)
Theorem crc_16_l_residue m :
  crc_16_l_calc (m ++ [Z.shiftr (crc_16_l_calc m) 8; Z.land (crc_16_l_calc m) 0xff]) = CRC_16_L_OK.
Proof.
  rewrite crc_calc_app. cbn [fold_left]. rewrite !crc_byte_feed. apply feed_own, crc_calc_u16.
Qed.

(** ** Detection of a changed byte *)
Lemma bits_of_lxor a b : bits_of (Z.lxor a b) = zip_with xorb (bits_of a) (bits_of b).
Proof. unfold bits_of. cbn [map zip_with]. by rewrite !Z.lxor_spec. Qed.

Lemma bits_of_inj a b : byte_ok a -> byte_ok b -> bits_of a = bits_of b -> a = b.
Proof.
  intros Ha Hb He. unfold bits_of in He. cbn [map] in He. injection He as H7 H6 H5 H4 H3 H2 H1 H0.
  apply Z.bits_inj'. intros i Hi. destruct (Z.lt_ge_cases i 8).
  - assert (i = 0 \/ i = 1 \/ i = 2 \/ i = 3 \/ i = 4 \/ i = 5 \/ i = 6 \/ i = 7) as Hc by lia.
    by repeat destruct Hc as [->|Hc]; [..|subst].
  - unfold byte_ok in *. by rewrite !(testbit_small _ 8) by lia.
Qed.

(** The eight bits of a byte cannot cancel out. *)
Lemma feed_zero_byte b : byte_ok b -> feed 0 (bits_of b) = 0 -> b = 0.
Proof.
  assert (Hall : forallb (fun n => implb (feed 0 (bits_of (Z.of_nat n)) =? 0) (Nat.eqb n 0)) (seq 0 256) = true)
    by (vm_compute; reflexivity).
  intros Hb H0. rewrite forallb_forall in Hall. specialize (Hall (Z.to_nat b)).
  unfold byte_ok in Hb. rewrite Z2Nat.id, H0 in Hall by lia. cbn [implb] in Hall.
  assert (Hin : In (Z.to_nat b) (seq 0 256)) by (apply in_seq; lia).
  specialize (Hall Hin). apply Nat.eqb_eq in Hall. lia.
Qed.

Lemma crc_byte_inj c a b :
  byte_ok a -> byte_ok b -> feed c (bits_of a) = feed c (bits_of b) -> a = b.
Proof.
  intros Ha Hb He. apply lxor_eq_0. apply feed_zero_byte.
  - unfold byte_ok in *. rewrite <- (u8_small a), <- (u8_small b) by done.
    assert (E : Z.lxor (u8 a) (u8 b) = u8 (Z.lxor a b)); [|rewrite E; apply u8_range].
    apply Z.bits_inj'. intros i Hi. unfold u8. rewrite Z.lxor_spec, !testbit_wrap, Z.lxor_spec by lia.
    by destruct (i <? 8), (Z.testbit a i), (Z.testbit b i).
  - rewrite bits_of_lxor. pose proof (feed_linear (bits_of a) (bits_of b) c c eq_refl) as L.
    by rewrite He, !Z.lxor_nilpotent in L.
Qed.

Lemma crc_fold_inj l : forall c d, u16_ok c -> u16_ok d ->
  fold_left (fun crc byte => crc_16_l_byte 9 crc byte CRC_16_L_SEED) l c =
  fold_left (fun crc byte => crc_16_l_byte 9 crc byte CRC_16_L_SEED) l d -> c = d.
Proof.
  induction l as [|b l IH]; intros c d Hc Hd He; [done|]. cbn [fold_left] in He.
  apply (feed_inj (bits_of b)); [done..|]. rewrite <- !crc_byte_feed.
  apply IH; [..|exact He]; rewrite crc_byte_feed; by apply feed_u16.
Qed.

(** [crc_16_l_calc] detects every change of a single byte, in a message of
    any length. *)
Theorem crc_16_l_detects m i a b :
  m !! i = Some a -> byte_ok a -> byte_ok b -> a <> b ->
  crc_16_l_calc (<[i := b]> m) <> crc_16_l_calc m.
Proof.
  intros Hi Ha Hb Hne He. apply Hne.
  assert (Hlt : (i < length m)%nat) by (by eapply lookup_lt_Some).
  rewrite <- (take_drop_middle m i a Hi) in He at 2. rewrite insert_take_drop in He by done.
  rewrite !crc_calc_app in He. cbn [fold_left] in He.
  apply crc_fold_inj in He; [|rewrite crc_byte_feed; apply feed_u16, crc_calc_u16..].
  rewrite !crc_byte_feed in He. symmetry. by eapply crc_byte_inj.
Qed.

Lemma crc_16_l_detects_witness : crc_16_l_calc (<[1%nat := 9]> [1; 2; 3]) <> crc_16_l_calc [1; 2; 3].
Proof. apply (crc_16_l_detects [1; 2; 3] 1 2 9); [reflexivity|split; lia|split; lia|lia]. Defined.

(** ** The three sums *)
Lemma frm_loop_spec l : forall sum, u32_ok sum -> frm_loop l sum = u32 (sum + halfword_sum l).
Proof.
  remember (length l) as n eqn:Hn. revert l Hn.
  induction n as [n IH] using lt_wf_ind. intros [|a [|b [|c [|d l]]]] Hn sum Hs; cbn [frm_loop halfword_sum].
  - by rewrite Z.add_0_r, u32_small.
  - done.
  - by rewrite Z.add_0_r.
  - rewrite u32_u32_add. f_equal. lia.
  - rewrite (IH (length l)) by (first [done|subst; cbn; lia|apply u32_range]).
    rewrite u32_u32_add, <- Z.add_assoc, u32_u32_add. f_equal. lia.
Qed.

Lemma boot_loop_spec l : forall sum, u32_ok sum ->
  boot_loop (Nat.div2 (length l)) l sum =
  u32 (sum + halfword_sum l - (if Nat.odd (length l) then default 0 (last l) else 0)).
Proof.
  remember (length l) as n eqn:Hn. revert l Hn.
  induction n as [n IH] using lt_wf_ind. intros [|a [|b l]] Hn sum Hs; subst n.
  - cbn. by rewrite Z.add_0_r, Z.sub_0_r, u32_small.
  - cbn. replace (sum + a - a) with sum by lia. by rewrite u32_small.
  - cbn [length Nat.div2 boot_loop]. rewrite (IH (length l)) by (first [done|cbn; lia|apply u32_range]).
    cbn [halfword_sum]. replace (Nat.odd (S (S (length l)))) with (Nat.odd (length l)) by done.
    assert (Hla : Nat.odd (length l) = true -> last (a :: b :: l) = last l) by (by destruct l).
    destruct (Nat.odd (length l)); [rewrite Hla by done|].
    + replace (u32 (sum + (a + 256 * b)) + halfword_sum l - default 0 (last l))
        with (u32 (sum + (a + 256 * b)) + (halfword_sum l - default 0 (last l))) by lia.
      rewrite u32_u32_add. f_equal. lia.
    + rewrite Z.sub_0_r, u32_u32_add. f_equal. lia.
Qed.

Lemma frm_chk_spec l : frm_chk l = oc_checksum l.
Proof. unfold frm_chk. rewrite frm_loop_spec by (split; lia). done. Qed.

Lemma boot_checksum_spec l : boot_checksum l = oc_checksum l.
Proof.
  unfold boot_checksum, oc_checksum, oc_finish.
  set (s := if negb (zlen l =? 0) then _ else _).
  enough (E : s = u32 (halfword_sum l)) by (by rewrite E).
  unfold s. destruct (Z.eqb_spec (zlen l) 0) as [H0|Hne]; cbn [negb].
  { destruct l; [done|]. rewrite zlen_cons in H0. pose proof (zlen_nonneg l). lia. }
  rewrite Z.shiftr_div_pow2 by lia. change (2 ^ 1) with 2.
  replace (Z.to_nat (zlen l / 2)) with (Nat.div2 (length l))
    by (unfold zlen; rewrite Nat.div2_div; change 2 with (Z.of_nat 2); rewrite <- Nat2Z.inj_div; lia).
  rewrite boot_loop_spec by (split; lia). rewrite Z.add_0_l.
  replace (Z.land (zlen l) 1 =? 0) with (negb (Nat.odd (length l))).
  - rewrite negb_involutive. destruct (Nat.odd (length l)); [|by rewrite Z.sub_0_r].
    replace (l !! Z.to_nat (zlen l - 1)) with (last l).
    + rewrite u32_u32_add. f_equal. lia.
    + rewrite last_lookup. f_equal. unfold zlen. lia.
  - change 1 with (Z.ones 1). rewrite Z.land_ones by lia. change (2 ^ 1) with 2.
    unfold zlen. rewrite <- Nat.negb_even, negb_involutive.
    destruct (Nat.even (length l)) eqn:Ev; symmetry.
    + apply Nat.even_spec in Ev as [k Hk]. apply Z.eqb_eq. rewrite Hk. Z.div_mod_to_equations. lia.
    + apply Z.eqb_neq. assert (Ho : Nat.odd (length l) = true) by (by rewrite <- Nat.negb_even, Ev).
      apply Nat.odd_spec in Ho as [k Hk]. rewrite Hk. Z.div_mod_to_equations. lia.
Qed.

(** The two sums of crc16.c are the same function of the bytes: both
    [frm_chk], unrolled by four bytes, and [boot_checksum], which walks
    halfwords and then the odd byte, compute the 16-bit one's complement
    checksum of every buffer. *)
Theorem modem_checksums_agree l : frm_chk l = oc_checksum l /\ boot_checksum l = oc_checksum l.
Proof. split; [apply frm_chk_spec|apply boot_checksum_spec]. Qed.

(** ** The table of [calculate_crc] *)
Definition rbit (c : Z) : Z :=
  Z.lxor (Z.shiftr c 1) (if Z.testbit c 0 then 0xA001 else 0).

(** Eight steps of the bitwise CRC-16 with the reflected polynomial. *)
Definition rbyte (c : Z) : Z := Nat.iter 8 rbit c.

Lemma rbit_linear c d : rbit (Z.lxor c d) = Z.lxor (rbit c) (rbit d).
Proof.
  unfold rbit. rewrite Z.shiftr_lxor, Z.lxor_spec. set (x := Z.shiftr c 1). set (y := Z.shiftr d 1).
  destruct (Z.testbit c 0), (Z.testbit d 0); cbn [xorb]; rewrite ?Z.lxor_0_r, ?Z.lxor_assoc; try done.
  - f_equal. rewrite (Z.lxor_comm _ (Z.lxor y _)), Z.lxor_assoc, Z.lxor_nilpotent. by rewrite Z.lxor_0_r.
  - f_equal. apply Z.lxor_comm.
Qed.

Lemma rbyte_linear c d : rbyte (Z.lxor c d) = Z.lxor (rbyte c) (rbyte d).
Proof. unfold rbyte. generalize 8%nat as n. induction n as [|n IH]; [done|].
  change (rbit (Nat.iter n rbit (Z.lxor c d)) = Z.lxor (rbit (Nat.iter n rbit c)) (rbit (Nat.iter n rbit d))).
  by rewrite IH, rbit_linear.
Qed.

Lemma rbit_even n h : (n < 8)%nat ->
  rbit (Z.shiftl h (Z.of_nat (S n))) = Z.shiftl h (Z.of_nat n).
Proof.
  intros Hn. unfold rbit. rewrite Z.shiftl_spec_low by lia. rewrite Z.lxor_0_r.
  rewrite Z.shiftr_shiftl_l by lia. f_equal. lia.
Qed.

Lemma rbyte_high h : rbyte (Z.shiftl h 8) = h.
Proof.
  change (rbit (rbit (rbit (rbit (rbit (rbit (rbit (rbit (Z.shiftl h 8)))))))) = h).
  rewrite (rbit_even 7), (rbit_even 6), (rbit_even 5), (rbit_even 4), (rbit_even 3), (rbit_even 2),
    (rbit_even 1), (rbit_even 0) by lia. apply Z.shiftl_0_r.
Qed.

Lemma crc16_table_spec n : (n < 256)%nat -> crc16_table !! n = Some (rbyte (Z.of_nat n)).
Proof.
  assert (Hall : forallb (fun n => match crc16_table !! n with
    | Some v => v =? rbyte (Z.of_nat n) | None => false end) (seq 0 256) = true) by (vm_compute; reflexivity).
  intros Hn. rewrite forallb_forall in Hall. specialize (Hall n).
  assert (Hin : In n (seq 0 256)) by (apply in_seq; lia). specialize (Hall Hin).
  destruct (crc16_table !! n); [|done]. apply Z.eqb_eq in Hall. by subst.
Qed.

Lemma calculate_crc_step_spec crc byte :
  byte_ok byte -> calculate_crc_step crc byte = rbyte (Z.lxor crc byte).
Proof.
  intros Hb. unfold calculate_crc_step. set (x := Z.lxor crc byte).
  assert (Hr : 0 <= Z.land x 0xff < 256).
  { change 0xff with (Z.ones 8). rewrite Z.land_ones by lia. apply Z.mod_pos_bound. lia. }
  rewrite crc16_table_spec by lia. rewrite Z2Nat.id by lia. cbn [default].
  assert (Hx : x = Z.lxor (Z.shiftl (Z.shiftr x 8) 8) (Z.land x 0xff)).
  { apply Z.bits_inj'. intros i Hi. change 0xff with (Z.ones 8).
    rewrite Z.lxor_spec, Z.land_spec, Z.testbit_ones, Z.shiftl_spec by lia.
    guard_true (0 <=? i). rewrite andb_true_l. destruct (Z.ltb_spec i 8).
    - by rewrite (Z.testbit_neg_r _ (i - 8)), andb_true_r by lia.
    - rewrite Z.shiftr_spec by lia. replace (i - 8 + 8) with i by lia. by rewrite andb_false_r, xorb_false_r. }
  rewrite Hx at 2. rewrite rbyte_linear, rbyte_high. cbn. f_equal.
  unfold x. rewrite Z.shiftr_lxor. replace (Z.shiftr byte 8) with 0; [by rewrite Z.lxor_0_r|].
  unfold byte_ok in Hb. rewrite Z.shiftr_div_pow2 by lia. rewrite Z.div_small; lia.
Qed.

(** The table of [calculate_crc] is right in all 256 entries and its use is
    the bitwise CRC-16: for every start value and every buffer the routine
    equals eight single-bit division steps by the reflected polynomial 0xA001
    (the mirror image of the documented 0x8005) per byte. *)
Theorem calculate_crc_bitwise crc l :
  Forall byte_ok l -> calculate_crc crc l = fold_left (fun c b => rbyte (Z.lxor c b)) l crc.
Proof.
  intros Hl. revert crc. induction Hl as [|b l Hb _ IH]; intros crc; [done|].
  unfold calculate_crc in *. cbn [fold_left]. rewrite IH. by rewrite calculate_crc_step_spec.
Qed.

Lemma calculate_crc_bitwise_witness :
  calculate_crc 0 [49; 50; 51] = fold_left (fun c b => rbyte (Z.lxor c b)) [49; 50; 51] 0.
Proof. apply (calculate_crc_bitwise 0 [49; 50; 51]). repeat constructor; lia. Defined.

(** The check value of CRC-16/ARC on "123456789". *)
Example calculate_crc_check : calculate_crc 0 [49; 50; 51; 52; 53; 54; 55; 56; 57] = 0xBB3D.
Proof. reflexivity. Qed.
