(* ===== verification/ModemPacket.v ===== *)
(** * apps/modem_control/packet.c: the download protocol

    Packets are framed by 0x7E with 0x7D escapes on the UART and sent raw on
    the SPI; every message waits for the reply of the modem.  The device is a
    script of what [write] and [read] return; a script that has run out blocks,
    which is [Fuel].  [send_buffer] (1000 longs, 4000 bytes on the target) and
    the local buffers are byte lists with checked accesses. *)

From S2P Require Import Prelude OnesComplement ModemCrc.

Definition BSL_UART_PACKET : Z := 0.
Definition BSL_SPI_PACKET : Z := 1.

(** The commands the file sends and the replies it knows (cmd_def.h). *)
Inductive CMD_TYPE :=
| BSL_CMD_CONNECT
| BSL_CMD_START_DATA
| BSL_CMD_MIDST_DATA
| BSL_CMD_END_DATA
| BSL_CMD_EXEC_DATA
| BSL_CMD_SWITCH_MODE.

Definition cmd_code (c : CMD_TYPE) : Z :=
  match c with
  | BSL_CMD_CONNECT => 0
  | BSL_CMD_START_DATA => 1
  | BSL_CMD_MIDST_DATA => 2
  | BSL_CMD_END_DATA => 3
  | BSL_CMD_EXEC_DATA => 4
  | BSL_CMD_SWITCH_MODE => 0x0D
  end.

Definition BSL_REP_ACK : Z := 0x80.

Definition cpu2be16 (wValue : Z) : Z :=
  Z.lor (Z.shiftl (Z.land wValue 0xFF) 8) (Z.land (Z.shiftr wValue 8) 0xFF).

Definition cpu2be32 (dwValue : Z) : Z :=
  Z.lor (Z.lor (Z.lor (u32 (Z.shiftl (Z.land dwValue 0xFF) 24))
                      (Z.shiftl (Z.land (Z.shiftr dwValue 8) 0xFF) 16))
               (Z.shiftl (Z.land (Z.shiftr dwValue 16) 0xFF) 8))
        (Z.shiftr dwValue 24).

(** Stores of a short and of a long. *)
Definition st16 (buf : list Z) (i v : Z) : outcome (list Z) := splice buf i (le_bytes 2 v).
Definition st32 (buf : list Z) (i v : Z) : outcome (list Z) := splice buf i (le_bytes 4 v).

(** ** Framing *)

(** What the loop of [translate_packet] writes for one byte. *)
Definition escape (b : Z) : list Z :=
  if b =? 0x7E then [0x7D; 0x5E] else if b =? 0x7D then [0x7D; 0x5D] else [b].

Definition translate (src : list Z) : list Z := 0x7E :: flat_map escape src ++ [0x7E].

(** [dest] is written from its start, byte by byte. *)
Definition translate_packet (dest src : list Z) : outcome (list Z * Z) :=
  let out := translate src in
  let* dest := splice dest 0 out in Done (dest, zlen out).

(** The loop of [untranslate_packet]; [out] is what has been written to [dest].
    At the closing flag a CRC is taken over [translated_size - 2] bytes: for a
    single byte that is [(unsigned)-1] bytes, far outside the buffer. *)
Fixpoint untranslate (src : list Z) (status : Z) (out : list Z) : outcome (list Z) :=
  match src with
  | [] => Done out
  | b :: src' =>
      if status =? 0 then untranslate src' (if b =? 0x7e then 1 else 0) out
      else if status =? 1 then
        if negb (b =? 0x7e) then untranslate src' 2 (out ++ [b]) else untranslate src' 1 out
      else if b =? 0x7E then (if zlen out <? 2 then Undef else Done out)
      else if default 0 (last out) =? 0x7D then
        if b =? 0x5E then untranslate src' 2 (removelast out ++ [0x7E])
        else if b =? 0x5D then untranslate src' 2 (removelast out ++ [0x7D])
        else untranslate src' 2 out
      else untranslate src' 2 (out ++ [b])
  end.

Definition untranslate_packet (dest src : list Z) : outcome (list Z * Z) :=
  let* out := untranslate src 0 [] in
  let* dest := splice dest 0 out in Done (dest, zlen out).

(** ** Building a packet *)

(** The UART branch: type and length in big endian at byte 4, [chk] of the
    header and the data after them. *)
Definition setup_uart (msg : CMD_TYPE) (buffer : list Z) (data_size : Z)
    (chk : list Z -> Z) : outcome (list Z * Z) :=
  let length := 4 + data_size in
  let* buffer := st16 buffer 4 (cpu2be16 (cmd_code msg)) in
  let* buffer := st16 buffer 6 (cpu2be16 (u16 data_size)) in
  let* head := slice buffer 4 length in
  let* buffer := st16 buffer (length + 4) (chk head) in
  Done (buffer, length + 2).

(** The SPI branch: size, type and two sums in the first eight bytes. *)
Definition setup_spi (msg : CMD_TYPE) (buffer : list Z) (offset data_size size : Z)
  : outcome (list Z) :=
  let* buffer := st16 buffer 0 (u16 size) in
  let* buffer := st16 buffer 2 (cmd_code msg) in
  let* data := slice buffer offset data_size in
  let* buffer := st16 buffer 4 (boot_checksum data) in
  let* head := slice buffer 0 6 in
  st16 buffer 6 (boot_checksum head).

Definition setup_packet (msg : CMD_TYPE) (buffer : list Z) (offset data_size flag : Z)
  : outcome (list Z * Z) :=
  let uart := flag =? BSL_UART_PACKET in
  match msg with
  | BSL_CMD_CONNECT =>
      if uart then setup_uart msg buffer data_size (fun _ => 0)
      else
        (* byte 8 is cleared before the sums are taken *)
        let* buffer := st16 buffer 0 (u16 data_size) in
        let* buffer := st16 buffer 2 (cmd_code msg) in
        let* buffer := st16 buffer 8 0 in
        let* data := slice buffer offset data_size in
        let* buffer := st16 buffer 4 (boot_checksum data) in
        let* head := slice buffer 0 6 in
        let* buffer := st16 buffer 6 (boot_checksum head) in
        Done (buffer, 12)
  | BSL_CMD_START_DATA | BSL_CMD_EXEC_DATA =>
      if uart then setup_uart msg buffer data_size (fun h => cpu2be16 (crc_16_l_calc h))
      else let* buffer := setup_spi msg buffer offset data_size data_size in Done (buffer, data_size + 8)
  | BSL_CMD_MIDST_DATA =>
      if uart then setup_uart msg buffer data_size (fun h => cpu2be16 (crc_16_l_calc h))
      else
        let* buffer := setup_spi msg buffer offset data_size (if data_size =? 0 then 4 else data_size) in
        Done (buffer, data_size + 8)
  | BSL_CMD_END_DATA =>
      if uart then setup_uart msg buffer data_size (fun h => cpu2be16 (crc_16_l_calc h))
      else
        let* buffer := setup_spi msg buffer offset data_size 4 in
        let* buffer := st32 buffer 8 0 in Done (buffer, 12)
  | BSL_CMD_SWITCH_MODE =>
      if uart then setup_uart msg buffer data_size frm_chk
      else
        let* buffer := setup_spi msg buffer offset data_size 4 in
        let* buffer := st32 buffer 8 0 in Done (buffer, 12)
  end.

(** ** The device *)

(** What the calls return: [writes] the results of [write], [reads] the bytes a
    [read] delivers ([None] is an error).  [sent] is what went out. *)
Record device := {
  send_buffer : list Z;
  writes : list Z;
  reads : list (option (list Z));
  sent : list Z
}.

Definition with_buffer (d : device) (b : list Z) : device :=
  {| send_buffer := b; writes := writes d; reads := reads d; sent := sent d |}.

(** One [write(fd, buf, size)]. *)
Definition dev_write (d : device) (buf : list Z) (size : Z) : outcome (Z * device) :=
  match writes d with
  | [] => Fuel
  | r :: ws =>
      let* bytes := slice buf 0 size in
      let n := Z.min r size in
      Done (n, {| send_buffer := send_buffer d; writes := ws; reads := reads d;
                  sent := sent d ++ take (Z.to_nat n) bytes |})
  end.

(** One [read(fd, buf, size)]: the result and the bytes. *)
Definition dev_read (d : device) (size : Z) : outcome (Z * list Z * device) :=
  match reads d with
  | [] => Fuel
  | None :: rs =>
      Done (-1, [], {| send_buffer := send_buffer d; writes := writes d; reads := rs; sent := sent d |})
  | Some bs :: rs =>
      let got := take (Z.to_nat size) bs in
      let rest := drop (Z.to_nat size) bs in
      Done (zlen got, got,
            {| send_buffer := send_buffer d; writes := writes d;
               reads := if zlen rest =? 0 then rs else Some rest :: rs; sent := sent d |})
  end.

(** [do { retval = write(fd, send_buffer, translated_size); ... } while (translated_size > 0)]:
    the buffer is not advanced.  One round per scripted result. *)
Fixpoint write_loop (fuel : nat) (d : device) (translated_size : Z) : outcome (Z * device) :=
  match fuel with
  | O => Fuel
  | S fuel =>
      let* (retval, d) := dev_write d (send_buffer d) translated_size in
      let translated_size := if 0 <? retval then translated_size - retval else translated_size in
      if 0 <? translated_size then write_loop fuel d translated_size else Done (retval, d)
  end.

(** [do { retval = read(fd, &raw_buffer[offset], size); ... } while (size != 0)]. *)
Fixpoint read_loop (fuel : nat) (d : device) (raw_buffer : list Z) (offset size : Z)
  : outcome (Z * list Z * Z * device) :=
  match fuel with
  | O => Fuel
  | S fuel =>
      let* (retval, got, d) := dev_read d size in
      let* raw_buffer := splice raw_buffer offset got in
      let offset := if 0 <? retval then offset + retval else offset in
      let size := if 0 <? retval then size - retval else size in
      if negb (size =? 0) then read_loop fuel d raw_buffer offset size
      else Done (retval, raw_buffer, offset, d)
  end.

Definition script (d : device) : nat :=
  S (length (writes d) + length (reads d) + length (concat (map (default []) (reads d)))).

(** Sending: framed and repeated on the UART, once on the SPI. *)
Definition send_out (d : device) (packet : list Z) (size flag : Z) : outcome (Z * device) :=
  if flag =? 0 then
    let* raw := slice packet 4 size in
    let* (b, translated_size) := translate_packet (send_buffer d) raw in
    write_loop (script d) (with_buffer d b) translated_size
  else dev_write d packet size.

(** The reply: 8 bytes on the UART, 6 on the SPI; [ack] decides on its type. *)
Definition reply (d : device) (raw_buffer : list Z) (retval flag : Z) (ack : Z -> bool)
  : outcome (Z * device) :=
  if 0 <? retval then
    let* (retval, raw_buffer, offset, d) := read_loop (script d) d raw_buffer 0 (if flag =? 0 then 8 else 6) in
    if 0 <? retval then
      let* (data, d) :=
        if flag =? 0 then
          let* src := slice raw_buffer 0 offset in
          let* (b, _) := untranslate_packet (send_buffer d) src in
          Done (b, with_buffer d b)
        else Done (raw_buffer, d) in
      let* d0 := rd data 0 in
      let* d1 := rd data 1 in
      let ty := u16 (Z.lor (Z.shiftl d0 8) d1) in
      if ack ty then Done (0, d) else Done (-1, d)
    else Done (-1, d)
  else Done (-1, d).

Definition ack_strict (ty : Z) : bool := ty =? BSL_REP_ACK.
Definition ack_or_zero (ty : Z) : bool := (ty =? BSL_REP_ACK) || (ty =? 0).

Definition raw32 : list Z := replicate 32 0.

(** ** The messages *)
Definition send_connect_message (d : device) (flag : Z) : outcome (Z * device) :=
  let* (raw_buffer, size) := setup_packet BSL_CMD_CONNECT raw32 8 0 flag in
  let* (retval, d) := send_out d raw_buffer size flag in
  reply d raw_buffer retval flag ack_strict.

Definition send_start_message (d : device) (size addr flag : Z) : outcome (Z * device) :=
  let* raw_buffer := st32 raw32 8 (cpu2be32 addr) in
  let* raw_buffer := st32 raw_buffer 12 (cpu2be32 size) in
  let* (raw_buffer, size) := setup_packet BSL_CMD_START_DATA raw_buffer 8 8 flag in
  let* (retval, d) := send_out d raw_buffer size flag in
  reply d raw_buffer retval flag ack_or_zero.

Definition send_end_message (d : device) (flag : Z) : outcome (Z * device) :=
  let* (raw_buffer, size) := setup_packet BSL_CMD_END_DATA raw32 8 0 flag in
  let* (retval, d) := send_out d raw_buffer size flag in
  reply d raw_buffer retval flag ack_or_zero.

(** The SPI branch builds the packet in the caller's buffer, whose first eight
    bytes are the header: the buffer comes back. *)
Definition send_data_message (d : device) (buffer : list Z) (data_size flag : Z)
  : outcome (Z * list Z * device) :=
  if flag =? 0 then
    let* data := slice buffer 0 data_size in
    let* uart_buffer := splice (replicate 300 0) 8 data in
    let* (uart_buffer, size) := setup_packet BSL_CMD_MIDST_DATA uart_buffer 8 data_size flag in
    let* (retval, d) := send_out d uart_buffer size flag in
    let* (r, d) := reply d raw32 retval flag ack_or_zero in Done (r, buffer, d)
  else
    let* (buffer, size) := setup_packet BSL_CMD_MIDST_DATA buffer 8 data_size flag in
    let* (retval, d) := send_out d buffer size flag in
    let* (r, d) := reply d raw32 retval flag ack_or_zero in Done (r, buffer, d).

Definition send_exec_message (d : device) (addr flag : Z) : outcome (Z * device) :=
  let* raw_buffer := st32 raw32 8 (cpu2be32 addr) in
  let* (raw_buffer, size) := setup_packet BSL_CMD_EXEC_DATA raw_buffer 8 4 flag in
  let* (retval, d) := send_out d raw_buffer size flag in
  reply d raw_buffer retval flag ack_or_zero.

Definition uart_send_change_spi_mode_message (d : device) : outcome (Z * device) :=
  let* (raw_buffer, size) := setup_packet BSL_CMD_SWITCH_MODE raw32 8 0 BSL_UART_PACKET in
  let* (retval, d) := send_out d raw_buffer size BSL_UART_PACKET in
  reply d raw_buffer retval BSL_UART_PACKET ack_strict.

(** ** Framing *)
Definition plain (b : Z) : bool := negb (b =? 0x7D) && negb (b =? 0x7E).

Lemma escape_cases b :
  (b = 0x7E /\ escape b = [0x7D; 0x5E]) \/ (b = 0x7D /\ escape b = [0x7D; 0x5D]) \/
  (plain b = true /\ escape b = [b]).
Proof.
  unfold escape, plain. destruct (Z.eqb_spec b 126), (Z.eqb_spec b 125); auto.
Qed.

(** Decoding the escapes of bytes other than 0x7D. *)
Lemma untranslate_body m : forall rest out,
  Forall (fun b => b <> 0x7D) m -> default 0 (last out) <> 0x7D -> out <> [] ->
  untranslate (flat_map escape m ++ rest) 2 out = untranslate rest 2 (out ++ m).
Proof.
  induction m as [|b m IH]; intros rest out Hm Hl Hne; [by rewrite app_nil_r|].
  inversion Hm as [|? ? Hb Hm']; subst. cbn [flat_map]. rewrite <- app_assoc.
  destruct (escape_cases b) as [[-> ->]|[[-> ->]|[Hp ->]]]; [|done|]; cbn [app untranslate].
  - change (2 =? 0) with false. change (2 =? 1) with false. change (125 =? 126) with false.
    rewrite (proj2 (Z.eqb_neq _ _) Hl). cbv iota. cbn [untranslate].
    change (2 =? 0) with false. change (2 =? 1) with false. change (94 =? 126) with false. cbv iota.
    rewrite last_snoc. cbn [default from_option id]. rewrite Z.eqb_refl.
    change (94 =? 94) with true. cbv iota. rewrite removelast_last, IH; [by rewrite <- app_assoc|done| |].
    + by rewrite last_snoc.
    + by destruct out.
  - unfold plain in Hp. btrue. change (2 =? 0) with false. change (2 =? 1) with false.
    rewrite (proj2 (Z.eqb_neq b _)) by lia. rewrite (proj2 (Z.eqb_neq _ _) Hl). cbv iota.
    rewrite IH; [by rewrite <- app_assoc|done| |by destruct out].
    by rewrite last_snoc.
Qed.

(** The opening flag and the first byte. *)
Lemma untranslate_open b m rest :
  b <> 0x7D -> Forall (fun b => b <> 0x7D) m ->
  untranslate (0x7E :: flat_map escape (b :: m) ++ rest) 0 [] = untranslate rest 2 (b :: m).
Proof.
  intros Hb Hm. cbn [flat_map]. rewrite <- app_assoc.
  destruct (escape_cases b) as [[-> ->]|[[-> ->]|[Hp ->]]]; [|done|]; cbn [app untranslate Z.eqb Pos.eqb negb].
  - cbn [last default from_option id removelast app Z.eqb Pos.eqb].
    change (untranslate (flat_map escape m ++ rest) 2 [126] = untranslate rest 2 (126 :: m)).
    by rewrite untranslate_body.
  - unfold plain in Hp. btrue. rewrite (proj2 (Z.eqb_neq b 126)) by done. cbn [negb].
    change (untranslate (flat_map escape m ++ rest) 2 [b] = untranslate rest 2 (b :: m)).
    by rewrite untranslate_body.
Qed.

(** C21. Framing round trip: a packet of at least two bytes in which 0x7D occurs
    at most as the last byte is recovered by [untranslate_packet] from what
    [translate_packet] produced. *)
Theorem untranslate_translate m e :
  Forall (fun b => b <> 0x7D) m -> 1 <= zlen m ->
  untranslate (translate (m ++ [e])) 0 [] = Done (m ++ [e]).
Proof.
  intros Hm Hl. destruct m as [|b m]; [done|]. inversion Hm as [|? ? Hb Hm']; subst.
  unfold translate. rewrite flat_map_app, <- app_assoc. rewrite untranslate_open by done.
  set (out := b :: m) in *.
  assert (Hlo : default 0 (last out) <> 0x7D).
  { destruct (last out) as [x|] eqn:E; [|done]. apply last_Some_elem_of in E.
    rewrite Forall_forall in Hm. by apply Hm. }
  assert (Hz : 2 <= zlen (out ++ [e])) by (rewrite zlen_app; change (zlen [e]) with 1; lia).
  destruct (decide (e = 0x7D)) as [->|He].
  - cbn [flat_map escape app]. change (escape 125) with [125; 93]. cbn [app untranslate].
    change (2 =? 0) with false. change (2 =? 1) with false. change (125 =? 126) with false.
    rewrite (proj2 (Z.eqb_neq _ _) Hlo). cbv iota. cbn [untranslate].
    change (2 =? 0) with false. change (2 =? 1) with false. change (93 =? 126) with false. cbv iota.
    rewrite last_snoc. cbn [default from_option id]. change (125 =? 125) with true.
    change (93 =? 94) with false. change (93 =? 93) with true. cbv iota.
    rewrite removelast_last. cbn [untranslate]. change (2 =? 0) with false. change (2 =? 1) with false.
    change (126 =? 126) with true. cbv iota. by guard_false (zlen (out ++ [125]) <? 2).
  - rewrite untranslate_body; [|by constructor|done|done]. cbn [untranslate].
    change (2 =? 0) with false. change (2 =? 1) with false. change (126 =? 126) with true. cbv iota.
    by guard_false (zlen (out ++ [e]) <? 2).
Qed.

(** A 0x7D inside a packet destroys the rest of it: after the escaped 0x7D
    the decoder still sees 0x7D as the last byte and takes every following
    byte for the second half of an escape, so ordinary bytes after it are
    dropped. *)
Theorem untranslate_drops_after_7d b m1 m2 :
  Forall (fun b => b <> 0x7D) (b :: m1) ->
  Forall (fun b => plain b = true /\ b <> 0x5E /\ b <> 0x5D) m2 ->
  untranslate (translate ((b :: m1) ++ 0x7D :: m2)) 0 [] = Done ((b :: m1) ++ [0x7D]).
Proof.
  intros Hm1 Hm2. inversion Hm1 as [|? ? Hb Hm']; subst. unfold translate.
  rewrite flat_map_app, <- app_assoc. rewrite untranslate_open by done. set (out := b :: m1).
  assert (Hlo : default 0 (last out) <> 0x7D).
  { destruct (last out) as [x|] eqn:E; [|done]. apply last_Some_elem_of in E.
    rewrite Forall_forall in Hm1. by apply Hm1. }
  cbn [flat_map]. change (escape 125) with [125; 93]. cbn [app untranslate].
  change (2 =? 0) with false. change (2 =? 1) with false. change (125 =? 126) with false.
  rewrite (proj2 (Z.eqb_neq _ _) Hlo). cbv iota. cbn [untranslate].
  change (2 =? 0) with false. change (2 =? 1) with false. change (93 =? 126) with false. cbv iota.
  rewrite last_snoc. cbn [default from_option id]. change (125 =? 125) with true.
  change (93 =? 94) with false. change (93 =? 93) with true. cbv iota. rewrite removelast_last.
  assert (Hz : 2 <= zlen (out ++ [125])).
  { rewrite zlen_app. change (zlen [125]) with 1. unfold out. rewrite zlen_cons. pose proof (zlen_nonneg m1). lia. }
  induction Hm2 as [|x m2 (Hp & H5e & H5d) _ IH].
  - cbn [flat_map app untranslate]. change (2 =? 0) with false. change (2 =? 1) with false.
    change (126 =? 126) with true. cbv iota. by guard_false (zlen (out ++ [125]) <? 2).
  - unfold plain in Hp. btrue. cbn [flat_map].
    assert (Hesc : escape x = [x]) by (unfold escape; by rewrite !(proj2 (Z.eqb_neq x _)) by done).
    rewrite Hesc. cbn [app untranslate]. change (2 =? 0) with false. change (2 =? 1) with false.
    rewrite !(proj2 (Z.eqb_neq x _)) by done. cbv iota. rewrite last_snoc.
    cbn [default from_option id]. change (125 =? 125) with true. cbv iota. exact IH.
Qed.

(** A reply frame with a single byte makes [untranslate_packet] compute a
    CRC over [(unsigned)-1] bytes. *)
Theorem untranslate_short_frame b rest :
  b <> 0x7E -> untranslate (0x7E :: b :: 0x7E :: rest) 0 [] = Undef.
Proof. intros Hb. cbn. by rewrite (proj2 (Z.eqb_neq b 126)) by done. Qed.

Lemma untranslate_translate_witness :
  untranslate (translate ([0; 0x7E; 5] ++ [0x7D])) 0 [] = Done ([0; 0x7E; 5] ++ [0x7D]).
Proof. apply (untranslate_translate [0; 0x7E; 5] 0x7D); [repeat constructor; lia|by vm_compute]. Defined.

Lemma untranslate_drops_after_7d_witness :
  untranslate (translate ([0; 1] ++ 0x7D :: [2; 3])) 0 [] = Done ([0; 1] ++ [0x7D]).
Proof.
  apply (untranslate_drops_after_7d 0 [1] [2; 3]); repeat constructor; lia.
Defined.

Lemma untranslate_short_frame_witness : untranslate (0x7E :: 5 :: 0x7E :: [0; 0]) 0 [] = Undef.
Proof. apply (untranslate_short_frame 5 [0; 0]). lia. Defined.

(** ** Byte order *)
Definition be16 (v : Z) : list Z := [v / 256 mod 256; v mod 256].
Definition be32 (v : Z) : list Z := [v / 2 ^ 24 mod 256; v / 2 ^ 16 mod 256; v / 256 mod 256; v mod 256].


Lemma lor_bytes a b k : 0 <= k -> 0 <= b < 2 ^ k -> Z.lor (Z.shiftl a k) b = a * 2 ^ k + b.
Proof. intros Hk Hb. rewrite Z.shiftl_mul_pow2, Z.lor_comm, lor_disjoint by lia. lia. Qed.

Lemma cpu2be16_bytes v : le_bytes 2 (cpu2be16 v) = be16 v.
Proof.
  unfold cpu2be16. rewrite !land_ff, Z.shiftr_div_pow2 by lia. change (2 ^ 8) with 256.
  rewrite lor_bytes by (try apply Z.mod_pos_bound; lia). change (2 ^ 8) with 256.
  set (lo := v mod 256). set (hi := v / 256 mod 256).
  assert (0 <= lo < 256) by (apply Z.mod_pos_bound; lia).
  assert (0 <= hi < 256) by (apply Z.mod_pos_bound; lia).
  cbn [le_bytes]. unfold be16. fold lo hi. f_equal; [|f_equal]; Z.div_mod_to_equations; lia.
Qed.

Lemma cpu2be32_bytes v : u32_ok v -> le_bytes 4 (cpu2be32 v) = be32 v.
Proof.
  intros Hv. unfold cpu2be32. rewrite !land_ff, !Z.shiftr_div_pow2 by lia. change (2 ^ 8) with 256.
  unfold be32. set (b0 := v mod 256). set (b1 := v / 256 mod 256). set (b2 := v / 2 ^ 16 mod 256).
  assert (Hb3 : v / 2 ^ 24 mod 256 = v / 2 ^ 24).
  { apply Z.mod_small. unfold u32_ok in Hv. split; [apply Z.div_pos; lia|apply Z.div_lt_upper_bound; lia]. }
  rewrite Hb3. set (b3 := v / 2 ^ 24) in *.
  assert (0 <= b0 < 256) by (apply Z.mod_pos_bound; lia).
  assert (0 <= b1 < 256) by (apply Z.mod_pos_bound; lia).
  assert (0 <= b2 < 256) by (apply Z.mod_pos_bound; lia).
  assert (0 <= b3 < 256) by (rewrite <- Hb3; apply Z.mod_pos_bound; lia).
  rewrite u32_small by (unfold u32_ok; rewrite Z.shiftl_mul_pow2; lia).
  rewrite (lor_bytes b0 (Z.shiftl b1 16)) by (rewrite ?Z.shiftl_mul_pow2; lia).
  replace (b0 * 2 ^ 24 + Z.shiftl b1 16) with (Z.shiftl (b0 * 256 + b1) 16)
    by (rewrite !Z.shiftl_mul_pow2 by lia; lia).
  rewrite (lor_bytes _ (Z.shiftl b2 8)) by (rewrite ?Z.shiftl_mul_pow2; lia).
  replace ((b0 * 256 + b1) * 2 ^ 16 + Z.shiftl b2 8) with (Z.shiftl ((b0 * 256 + b1) * 256 + b2) 8)
    by (rewrite !Z.shiftl_mul_pow2 by lia; lia).
  rewrite lor_bytes by lia. change (2 ^ 8) with 256. cbn [le_bytes].
  clearbody b0 b1 b2 b3. clear -H H0 H1 H2. repeat f_equal; Z.div_mod_to_equations; lia.
Qed.

(** ** Packets *)

(** The UART packet in a buffer: four unused bytes, the header, the data and
    the checksum. *)
Lemma setup_uart_eq msg pre h data c tail chk :
  zlen pre = 4 -> zlen h = 4 -> zlen c = 2 -> zlen data < 65536 ->
  setup_uart msg (pre ++ h ++ data ++ c ++ tail) (zlen data) chk =
    let head := be16 (cmd_code msg) ++ be16 (zlen data) ++ data in
    Done (pre ++ head ++ le_bytes 2 (chk head) ++ tail, zlen data + 6).
Proof.
  intros Hp Hh Hc Hd. pose proof (zlen_nonneg data). unfold setup_uart, st16. cbv zeta.
  destruct h as [|h0 [|h1 [|h2 [|h3 [|]]]]]; try (unfold zlen in Hh; cbn in Hh; lia).
  change (pre ++ [h0; h1; h2; h3] ++ data ++ c ++ tail)
    with (pre ++ [h0; h1] ++ ([h2; h3] ++ data ++ c ++ tail)).
  rewrite (splice_app pre [h0; h1]) by (done || rewrite zlen_le_bytes; done). cbn [obind].
  rewrite cpu2be16_bytes, (app_assoc pre).
  rewrite (splice_app (pre ++ be16 (cmd_code msg)) [h2; h3])
    by (rewrite ?zlen_app, ?zlen_le_bytes, ?Hp; done).
  cbn [obind]. rewrite cpu2be16_bytes, u16_small by lia.
  set (head := be16 (cmd_code msg) ++ be16 (zlen data) ++ data).
  replace ((pre ++ be16 (cmd_code msg)) ++ be16 (zlen data) ++ data ++ c ++ tail)
    with (pre ++ head ++ c ++ tail) by (unfold head; by rewrite <- !app_assoc).
  assert (Hzh : zlen head = 4 + zlen data).
  { unfold head. rewrite !zlen_app. change (zlen (be16 _)) with 2. change (zlen (be16 _)) with 2. lia. }
  rewrite slice_app by done. cbn [obind]. rewrite app_assoc.
  rewrite (splice_app (pre ++ head) c) by (rewrite ?zlen_app, ?zlen_le_bytes, ?Hp, ?Hzh; lia).
  cbn [obind]. rewrite <- app_assoc. do 2 f_equal. lia.
Qed.

(** What a UART message puts on the wire. *)
Definition uart_packet (msg : CMD_TYPE) (data : list Z) : list Z :=
  let head := be16 (cmd_code msg) ++ be16 (zlen data) ++ data in
  head ++ be16 (crc_16_l_calc head).

Definition crc_message (msg : CMD_TYPE) : bool :=
  match msg with BSL_CMD_SWITCH_MODE => false | _ => true end.

Lemma setup_packet_uart msg pre h data c tail :
  crc_message msg = true -> (msg = BSL_CMD_CONNECT -> data = []) ->
  zlen pre = 4 -> zlen h = 4 -> zlen c = 2 -> zlen data < 65536 ->
  setup_packet msg (pre ++ h ++ data ++ c ++ tail) 8 (zlen data) BSL_UART_PACKET =
    Done (pre ++ uart_packet msg data ++ tail, zlen data + 6).
Proof.
  intros Hm Hcon Hp Hh Hc Hd. unfold uart_packet. rewrite <- app_assoc.
  destruct msg; try discriminate Hm; cbn [setup_packet]; change (BSL_UART_PACKET =? BSL_UART_PACKET) with true;
    cbv iota; rewrite (setup_uart_eq _ pre h data c tail) by done; cbv zeta; rewrite ?cpu2be16_bytes; try done.
  by rewrite Hcon.
Qed.

Lemma crc_be16 m : be16 (crc_16_l_calc m) = [Z.shiftr (crc_16_l_calc m) 8; Z.land (crc_16_l_calc m) 0xff].
Proof.
  pose proof (crc_calc_u16 m) as Hu. unfold u16_ok in Hu. unfold be16. rewrite land_ff, Z.shiftr_div_pow2 by lia.
  change (2 ^ 8) with 256. rewrite (Z.mod_small (_ / 256)); [done|]. Z.div_mod_to_equations. lia.
Qed.

Lemma crc_own m : crc_16_l_calc (m ++ be16 (crc_16_l_calc m)) = CRC_16_L_OK.
Proof.
  rewrite crc_be16, crc_calc_app. cbn [fold_left]. rewrite !crc_byte_feed. apply feed_own, crc_calc_u16.
Qed.

(** What [setup_packet] builds for the UART: for every command that carries
    a CRC and every payload below 64 KiB at offset 8 of a buffer that can hold
    it, the bytes from offset 4 are the big-endian type and length, the
    payload and the big-endian CRC; the rest of the buffer is unchanged, the
    returned size is the size of the packet, and the packet verifies: its CRC
    including the CRC field is [CRC_16_L_OK].  The CONNECT packet, whose CRC
    field the code sets to 0 without computing it, verifies too. *)
Theorem setup_packet_verifies msg pre h data c tail :
  crc_message msg = true -> (msg = BSL_CMD_CONNECT -> data = []) ->
  zlen pre = 4 -> zlen h = 4 -> zlen c = 2 -> zlen data < 65536 ->
  setup_packet msg (pre ++ h ++ data ++ c ++ tail) 8 (zlen data) BSL_UART_PACKET =
    Done (pre ++ uart_packet msg data ++ tail, zlen (uart_packet msg data)) /\
  crc_16_l_calc (uart_packet msg data) = CRC_16_L_OK.
Proof.
  intros. rewrite setup_packet_uart by done. split; [|apply crc_own].
  do 2 f_equal. unfold uart_packet. rewrite !zlen_app. change (zlen (be16 _)) with 2.
  change (zlen (be16 _)) with 2. change (zlen (be16 _)) with 2. lia.
Qed.

Lemma setup_packet_verifies_witness :
  setup_packet BSL_CMD_MIDST_DATA ([0; 0; 0; 0] ++ [9; 9; 9; 9] ++ [1; 2; 3] ++ [7; 7] ++ [5]) 8 (zlen [1; 2; 3])
    BSL_UART_PACKET =
    Done ([0; 0; 0; 0] ++ uart_packet BSL_CMD_MIDST_DATA [1; 2; 3] ++ [5],
          zlen (uart_packet BSL_CMD_MIDST_DATA [1; 2; 3])) /\
  crc_16_l_calc (uart_packet BSL_CMD_MIDST_DATA [1; 2; 3]) = CRC_16_L_OK.
Proof.
  apply (setup_packet_verifies BSL_CMD_MIDST_DATA [0; 0; 0; 0] [9; 9; 9; 9] [1; 2; 3] [7; 7] [5]);
    [reflexivity|discriminate|reflexivity|reflexivity|reflexivity|reflexivity].
Defined.

(** ** One exchange with the device *)
Definition next_device (d : device) (b : list Z) (ws : list Z) (rs : list (option (list Z))) (out : list Z)
  : device := {| send_buffer := b; writes := ws; reads := rs; sent := sent d ++ out |}.

(** The UART frame goes out whole when one [write] takes it. *)
Lemma send_out_uart d pre raw tail w ws :
  zlen pre = 4 -> writes d = w :: ws -> zlen (translate raw) <= w ->
  zlen (translate raw) <= zlen (send_buffer d) ->
  exists b, zlen b = zlen (send_buffer d) /\
    send_out d (pre ++ raw ++ tail) (zlen raw) 0 =
      Done (zlen (translate raw), next_device d b ws (reads d) (translate raw)).
Proof.
  intros Hp Hw Hle Hsb. unfold send_out. change (0 =? 0) with true. cbv iota.
  rewrite slice_app by done. cbn [obind]. unfold translate_packet.
  assert (Hpos : 0 < zlen (translate raw)).
  { unfold translate. rewrite zlen_cons. pose proof (zlen_nonneg (flat_map escape raw ++ [126])). lia. }
  destruct (splice (send_buffer d) 0 (translate raw)) as [b| |] eqn:Es.
  2: { rewrite splice_in in Es by lia. discriminate. }
  2: { unfold splice in Es. by destruct (_ && _). }
  apply splice_inv in Es as (_ & _ & Hzb & Hb). cbn [obind]. exists b. split; [done|].
  unfold script. cbn [write_loop]. unfold dev_write. cbn [writes with_buffer send_buffer]. rewrite Hw.
  assert (Hsl : slice b 0 (zlen (translate raw)) = Done (translate raw)).
  { rewrite Hb. change (Z.to_nat 0) with 0%nat. rewrite take_0, app_nil_l.
    by apply slice_app_l. }
  rewrite Hsl. cbn [obind]. rewrite Z.min_r by done.
  guard_true (0 <? zlen (translate raw)). rewrite Z.sub_diag. change (0 <? 0) with false. cbv iota.
  unfold next_device. rewrite take_ge by (unfold zlen; lia). done.
Qed.

(** An SPI packet goes out in one [write]. *)
Lemma send_out_spi d packet rest size w ws :
  zlen packet = size -> writes d = w :: ws -> size <= w ->
  send_out d (packet ++ rest) size 1 =
    Done (size, next_device d (send_buffer d) ws (reads d) packet).
Proof.
  intros Hz Hw Hle. unfold send_out, dev_write. change (1 =? 0) with false. cbv iota. rewrite Hw.
  rewrite slice_app_l by done. cbn [obind].
  rewrite Z.min_r by done. unfold next_device. by rewrite take_ge by (unfold zlen in Hz; lia).
Qed.

(** A reply that arrives in one [read]. *)
Lemma read_loop_one fuel d raw n r rs :
  reads d = Some r :: rs -> zlen r = n -> 0 < n <= zlen raw ->
  exists raw', read_loop (S fuel) d raw 0 n =
      Done (n, raw', n, next_device d (send_buffer d) (writes d) rs []) /\
    raw' = r ++ drop (length r) raw.
Proof.
  intros Hr Hz Hn. cbn [read_loop]. unfold dev_read. rewrite Hr.
  assert (Hl : length r = Z.to_nat n) by (unfold zlen in Hz; lia).
  rewrite take_ge, drop_ge by lia. change (zlen (@nil Z) =? 0) with true. cbn [obind].
  rewrite splice_in by lia. change (Z.to_nat 0) with 0%nat. cbn [obind Nat.add].
  rewrite take_0, app_nil_l, Hz. guard_true (0 <? n). rewrite Z.sub_diag. change (0 =? 0) with true.
  cbn [negb]. eexists. split; [|done]. unfold next_device. by rewrite app_nil_r, Z.add_0_l.
Qed.

Definition reply_type (t1 t0 : Z) : Z := u16 (Z.lor (Z.shiftl t1 8) t0).

(** A 6-byte reply on the SPI. *)
Lemma reply_spi d raw retval t1 t0 r rs ack :
  0 < retval -> reads d = Some (t1 :: t0 :: r) :: rs -> zlen r = 4 -> 6 <= zlen raw ->
  reply d raw retval 1 ack =
    Done (if ack (reply_type t1 t0) then 0 else -1, next_device d (send_buffer d) (writes d) rs []).
Proof.
  intros Hret Hr Hz Hraw. unfold reply. guard_true (0 <? retval). change (1 =? 0) with false. cbv iota.
  unfold script. destruct (read_loop_one (length (writes d) + length (reads d) +
    length (concat (map (default []) (reads d)))) d raw 6 (t1 :: t0 :: r) rs Hr) as (raw' & -> & ->).
  { rewrite !zlen_cons. lia. } { lia. }
  cbn [obind]. change (0 <? 6) with true. cbv iota. cbn [obind app].
  change (rd (t1 :: t0 :: ?l) 0) with (Done t1). cbn [obind].
  change (rd (t1 :: t0 :: ?l) 1) with (Done t0). cbn [obind]. fold (reply_type t1 t0).
  by destruct (ack (reply_type t1 t0)).
Qed.

(** An 8-byte reply frame on the UART. *)
Lemma reply_uart d raw retval t1 t0 x1 x2 x3 x4 rs ack :
  0 < retval -> reads d = Some [0x7E; t1; t0; x1; x2; x3; x4; 0x7E] :: rs ->
  Forall (fun b => plain b = true) [t1; t0; x1; x2; x3; x4] -> 8 <= zlen raw -> 6 <= zlen (send_buffer d) ->
  exists b, zlen b = zlen (send_buffer d) /\
    reply d raw retval 0 ack =
      Done (if ack (reply_type t1 t0) then 0 else -1, next_device d b (writes d) rs []).
Proof.
  intros Hret Hr Hp Hraw Hsb. unfold reply. guard_true (0 <? retval). change (0 =? 0) with true. cbv iota.
  unfold script. destruct (read_loop_one (length (writes d) + length (reads d) +
    length (concat (map (default []) (reads d)))) d raw 8 _ rs Hr eq_refl) as (raw' & -> & ->); [lia|].
  cbn [obind]. change (0 <? 8) with true. cbv iota.
  rewrite slice_app_l by done. cbn [obind].
  assert (Hu : untranslate [0x7E; t1; t0; x1; x2; x3; x4; 0x7E] 0 [] = Done [t1; t0; x1; x2; x3; x4]).
  { assert (Hpl : forall x, plain x = true -> escape x = [x] /\ x <> 0x7D).
    { intros x Hx. unfold plain, escape in *. btrue. rewrite !(proj2 (Z.eqb_neq x _)) by done. done. }
    rewrite !Forall_cons in Hp. destruct Hp as (P1 & P2 & P3 & P4 & P5 & P6 & _).
    apply Hpl in P1 as [E1 N1], P2 as [E2 N2], P3 as [E3 N3], P4 as [E4 N4], P5 as [E5 N5], P6 as [E6 N6].
    pose proof (untranslate_open t1 [t0; x1; x2; x3; x4] [0x7E] N1) as Ho.
    cbn [flat_map] in Ho. rewrite E1, E2, E3, E4, E5, E6 in Ho. cbn [app] in Ho.
    rewrite Ho by (by repeat constructor). reflexivity. }
  unfold untranslate_packet. rewrite Hu. cbn [obind next_device send_buffer].
  rewrite splice_in by (change (zlen [t1; t0; x1; x2; x3; x4]) with 6; lia).
  change (Z.to_nat 0) with 0%nat. rewrite take_0, app_nil_l. cbn [obind].
  set (b := [t1; t0; x1; x2; x3; x4] ++ _).
  exists b. split.
  { unfold b, zlen in *. rewrite length_app, length_drop. cbn [length]. lia. }
  change (rd b 0) with (Done t1). cbn [obind]. change (rd b 1) with (Done t0). cbn [obind].
  fold (reply_type t1 t0). by destruct (ack (reply_type t1 t0)).
Qed.

(** ** SPI packets *)
Definition spi_header (msg : CMD_TYPE) (size : Z) (data : list Z) : list Z :=
  let h6 := le_bytes 2 (u16 size) ++ le_bytes 2 (cmd_code msg) ++ le_bytes 2 (boot_checksum data) in
  h6 ++ le_bytes 2 (boot_checksum h6).

Lemma zlen_spi_header msg size data : zlen (spi_header msg size data) = 8.
Proof. reflexivity. Qed.

Lemma setup_spi_eq msg h data tail size :
  zlen h = 8 -> setup_spi msg (h ++ data ++ tail) 8 (zlen data) size =
    Done (spi_header msg size data ++ data ++ tail).
Proof.
  intros Hh. destruct h as [|h0 [|h1 [|h2 [|h3 [|h4 [|h5 [|h6 [|h7 [|]]]]]]]]]; try (unfold zlen in Hh; cbn in Hh; lia).
  unfold setup_spi, st16. set (s := le_bytes 2 (u16 size)). set (c := le_bytes 2 (cmd_code msg)).
  assert (Hs : zlen s = 2) by (by unfold s; rewrite zlen_le_bytes).
  assert (Hc : zlen c = 2) by (by unfold c; rewrite zlen_le_bytes).
  change ([h0; h1; h2; h3; h4; h5; h6; h7] ++ data ++ tail)
    with ([] ++ [h0; h1] ++ ([h2; h3] ++ [h4; h5] ++ [h6; h7] ++ data ++ tail)).
  rewrite splice_app by (done || lia). cbn [obind]. rewrite app_nil_l.
  rewrite (splice_app s [h2; h3]) by (done || lia). cbn [obind].
  rewrite (app_assoc s c). rewrite (app_assoc [h4; h5]), (app_assoc (s ++ c)).
  rewrite (slice_app ((s ++ c) ++ [h4; h5] ++ [h6; h7]) data tail)
    by (rewrite ?zlen_app, ?Hs, ?Hc; done). cbn [obind].
  rewrite <- !app_assoc. set (k := le_bytes 2 (boot_checksum data)).
  assert (Hk : zlen k = 2) by (by unfold k; rewrite zlen_le_bytes).
  rewrite (app_assoc s c). rewrite (splice_app (s ++ c) [h4; h5]) by (first [exact Hk|rewrite zlen_app; lia]).
  cbn [obind]. rewrite (app_assoc (s ++ c) k).
  rewrite slice_app_l by (rewrite !zlen_app; lia). cbn [obind].
  rewrite (splice_app ((s ++ c) ++ k) [h6; h7]) by (rewrite ?zlen_app, ?zlen_le_bytes; done || lia).
  unfold spi_header. fold s c k. by rewrite <- !app_assoc.
Qed.

(** A packet on the SPI carries two sums: for every payload at offset 8 the
    header holds the size, the command, the one's complement checksum of the
    payload and the checksum of the six bytes before it; nothing else of the
    buffer changes. *)
Theorem setup_packet_spi h data tail :
  zlen h = 8 -> 0 < zlen data ->
  setup_packet BSL_CMD_MIDST_DATA (h ++ data ++ tail) 8 (zlen data) BSL_SPI_PACKET =
    Done (spi_header BSL_CMD_MIDST_DATA (zlen data) data ++ data ++ tail, zlen data + 8) /\
  le_val (take 2 (drop 4 (spi_header BSL_CMD_MIDST_DATA (zlen data) data))) = oc_checksum data /\
  le_val (take 2 (drop 6 (spi_header BSL_CMD_MIDST_DATA (zlen data) data))) =
    oc_checksum (take 6 (spi_header BSL_CMD_MIDST_DATA (zlen data) data)).
Proof.
  intros Hh Hd. cbn [setup_packet]. change (BSL_SPI_PACKET =? BSL_UART_PACKET) with false. cbv iota.
  guard_false (zlen data =? 0). rewrite setup_spi_eq by done. cbn [obind]. split; [done|].
  assert (Hr : forall l, le_val (le_bytes 2 (boot_checksum l)) = oc_checksum l).
  { intros l. rewrite le_val_le_bytes, boot_checksum_spec. apply Z.mod_small. apply oc_finish_range. }
  split; [apply (Hr data)|apply (Hr (take 6 (spi_header BSL_CMD_MIDST_DATA (zlen data) data)))].
Qed.

Lemma setup_packet_spi_witness :
  setup_packet BSL_CMD_MIDST_DATA (replicate 8 0 ++ [1; 2; 3] ++ [9]) 8 (zlen [1; 2; 3]) BSL_SPI_PACKET =
    Done (spi_header BSL_CMD_MIDST_DATA (zlen [1; 2; 3]) [1; 2; 3] ++ [1; 2; 3] ++ [9], zlen [1; 2; 3] + 8) /\
  le_val (take 2 (drop 4 (spi_header BSL_CMD_MIDST_DATA (zlen [1; 2; 3]) [1; 2; 3]))) = oc_checksum [1; 2; 3] /\
  le_val (take 2 (drop 6 (spi_header BSL_CMD_MIDST_DATA (zlen [1; 2; 3]) [1; 2; 3]))) =
    oc_checksum (take 6 (spi_header BSL_CMD_MIDST_DATA (zlen [1; 2; 3]) [1; 2; 3])).
Proof. apply (setup_packet_spi (replicate 8 0) [1; 2; 3] [9]); reflexivity. Defined.

(** ** Whole messages on the SPI *)
Definition spi_reply (d : device) (w : Z) (ws : list Z) (t1 t0 : Z) (r : list Z)
    (rs : list (option (list Z))) (need : Z) : Prop :=
  writes d = w :: ws /\ need <= w /\ reads d = Some (t1 :: t0 :: r) :: rs /\ zlen r = 4.

Definition spi_start_packet (size addr : Z) : list Z :=
  let data := be32 addr ++ be32 size in spi_header BSL_CMD_START_DATA 8 data ++ data.
Definition spi_data_packet (data : list Z) : list Z :=
  spi_header BSL_CMD_MIDST_DATA (zlen data) data ++ data.
Definition spi_end_packet : list Z := spi_header BSL_CMD_END_DATA 4 [] ++ [0; 0; 0; 0].
Definition spi_exec_packet (addr : Z) : list Z := spi_header BSL_CMD_EXEC_DATA 4 (be32 addr) ++ be32 addr.

Lemma spi_exchange d packet rest size w ws t1 t0 r rs raw ack :
  zlen packet = size -> 0 < size -> spi_reply d w ws t1 t0 r rs size -> 6 <= zlen raw ->
  (let* (retval, d) := send_out d (packet ++ rest) size 1 in reply d raw retval 1 ack) =
  Done (if ack (reply_type t1 t0) then 0 else -1, next_device d (send_buffer d) ws rs packet).
Proof.
  intros Hz Hs (Hw & Hle & Hr & Hrl) Hraw. rewrite (send_out_spi d packet rest size w ws) by done.
  cbn [obind]. rewrite (reply_spi _ _ _ t1 t0 r rs) by done.
  unfold next_device. cbn [send_buffer writes sent]. by rewrite app_nil_r.
Qed.

Lemma spi_start d size addr w ws t1 t0 r rs :
  u32_ok size -> u32_ok addr -> spi_reply d w ws t1 t0 r rs 16 ->
  send_start_message d size addr 1 =
    Done (if ack_or_zero (reply_type t1 t0) then 0 else -1,
          next_device d (send_buffer d) ws rs (spi_start_packet size addr)).
Proof.
  intros Hs Ha Hd. unfold send_start_message, st32. rewrite !cpu2be32_bytes by done.
  change raw32 with (replicate 8 0 ++ replicate 4 0 ++ replicate 20 0). rewrite splice_app by done. cbn [obind].
  change (replicate 20 0) with (replicate 4 0 ++ replicate 16 0). rewrite app_assoc.
  rewrite splice_app by done. cbn [obind]. rewrite <- app_assoc.
  cbn [setup_packet]. change (1 =? BSL_UART_PACKET) with false. cbv iota.
  rewrite (app_assoc (be32 addr)). change 8 with (zlen (be32 addr ++ be32 size)) at 2 3.
  rewrite setup_spi_eq by done. cbn [obind]. rewrite (app_assoc (spi_header _ _ _)).
  change (zlen (be32 addr ++ be32 size) + 8) with 16. change (zlen (be32 addr ++ be32 size)) with 8.
  fold (spi_start_packet size addr). apply (spi_exchange d _ _ 16 w ws t1 t0 r rs); try done.
Qed.

Lemma spi_end d w ws t1 t0 r rs :
  spi_reply d w ws t1 t0 r rs 12 ->
  send_end_message d 1 =
    Done (if ack_or_zero (reply_type t1 t0) then 0 else -1,
          next_device d (send_buffer d) ws rs spi_end_packet).
Proof.
  intros Hd. unfold send_end_message, st32. cbn [setup_packet]. change (1 =? BSL_UART_PACKET) with false. cbv iota.
  change raw32 with (replicate 8 0 ++ [] ++ replicate 24 0). change 0 with (zlen (@nil Z)) at 1.
  rewrite setup_spi_eq by done. cbn [obind]. rewrite app_nil_l.
  change (replicate 24 0) with (replicate 4 0 ++ replicate 20 0).
  unfold st32. rewrite splice_app by done. cbn [obind]. rewrite app_assoc.
  change (le_bytes 4 0) with [0; 0; 0; 0]. fold spi_end_packet.
  apply (spi_exchange d _ _ 12 w ws t1 t0 r rs); try done.
Qed.

Lemma spi_exec d addr w ws t1 t0 r rs :
  u32_ok addr -> spi_reply d w ws t1 t0 r rs 12 ->
  send_exec_message d addr 1 =
    Done (if ack_or_zero (reply_type t1 t0) then 0 else -1,
          next_device d (send_buffer d) ws rs (spi_exec_packet addr)).
Proof.
  intros Ha Hd. unfold send_exec_message, st32. rewrite cpu2be32_bytes by done.
  change raw32 with (replicate 8 0 ++ replicate 4 0 ++ replicate 20 0). rewrite splice_app by done. cbn [obind].
  cbn [setup_packet]. change (1 =? BSL_UART_PACKET) with false. cbv iota.
  change 4 with (zlen (be32 addr)) at 1 2 3. rewrite setup_spi_eq by done. cbn [obind].
  rewrite app_assoc. change (zlen (be32 addr)) with 4. fold (spi_exec_packet addr).
  apply (spi_exchange d _ _ 12 w ws t1 t0 r rs); try done.
Qed.

Lemma spi_data d h data tail w ws t1 t0 r rs :
  zlen h = 8 -> 0 < zlen data -> spi_reply d w ws t1 t0 r rs (zlen data + 8) ->
  send_data_message d (h ++ data ++ tail) (zlen data) 1 =
    Done (if ack_or_zero (reply_type t1 t0) then 0 else -1,
          spi_header BSL_CMD_MIDST_DATA (zlen data) data ++ data ++ tail,
          next_device d (send_buffer d) ws rs (spi_data_packet data)).
Proof.
  intros Hh Hd Hr. unfold send_data_message. change (1 =? 0) with false. cbv iota.
  cbn [setup_packet]. change (1 =? BSL_UART_PACKET) with false. cbv iota.
  guard_false (zlen data =? 0). rewrite setup_spi_eq by done. cbn [obind].
  pose proof (spi_exchange d (spi_data_packet data) tail (zlen data + 8) w ws t1 t0 r rs raw32 ack_or_zero) as X.
  rewrite (app_assoc (spi_header _ _ _)). fold (spi_data_packet data).
  destruct (send_out d (spi_data_packet data ++ tail) (zlen data + 8) 1) as [[retval d1]| |] eqn:Eo;
    cbn [obind] in X |- *.
  - rewrite X; try done; try lia.
    unfold spi_data_packet. rewrite zlen_app, zlen_spi_header. lia.
  - discriminate X; try done; try lia. unfold spi_data_packet. rewrite zlen_app, zlen_spi_header. lia.
  - discriminate X; try done; try lia. unfold spi_data_packet. rewrite zlen_app, zlen_spi_header. lia.
Qed.

(** ** Whole messages on the UART *)
Lemma zlen_translate raw : zlen (translate raw) <= 2 * zlen raw + 2.
Proof.
  unfold translate. rewrite zlen_cons, zlen_app. change (zlen [126]) with 1.
  enough (zlen (flat_map escape raw) <= 2 * zlen raw) by lia.
  induction raw as [|b raw IH]; [done|]. cbn [flat_map]. rewrite zlen_app, zlen_cons.
  assert (zlen (escape b) <= 2) by (unfold escape; repeat cif; vm_compute; congruence). lia.
Qed.

Definition uart_reply (d : device) (w : Z) (ws : list Z) (t1 t0 : Z) (x : list Z)
    (rs : list (option (list Z))) : Prop :=
  writes d = w :: ws /\ 4000 <= w /\ zlen (send_buffer d) = 4000 /\
  reads d = Some (0x7E :: t1 :: t0 :: x ++ [0x7E]) :: rs /\ zlen x = 4 /\
  Forall (fun b => plain b = true) (t1 :: t0 :: x).

Lemma uart_exchange d pre raw tail size w ws t1 t0 x rs rb ack :
  zlen pre = 4 -> zlen raw = size -> size <= 1999 -> uart_reply d w ws t1 t0 x rs -> 8 <= zlen rb ->
  exists b, zlen b = 4000 /\
    (let* (retval, d) := send_out d (pre ++ raw ++ tail) size 0 in reply d rb retval 0 ack) =
    Done (if ack (reply_type t1 t0) then 0 else -1, next_device d b ws rs (translate raw)).
Proof.
  intros Hp <- Hs (Hw & Hle & Hsb & Hr & Hx & Hpl) Hrb. pose proof (zlen_translate raw).
  destruct (send_out_uart d pre raw tail w ws) as (b & Hb & ->); [done|done|lia|lia|]. cbn [obind].
  destruct x as [|x1 [|x2 [|x3 [|x4 [|]]]]]; try (unfold zlen in Hx; cbn in Hx; lia).
  destruct (reply_uart (next_device d b ws (reads d) (translate raw)) rb (zlen (translate raw))
              t1 t0 x1 x2 x3 x4 rs ack) as (b' & Hb' & ->); try done.
  - cbn [next_device send_buffer]. lia.
  - exists b'. cbn [next_device send_buffer] in Hb'. split; [lia|].
    unfold next_device. cbn [writes sent]. by rewrite app_nil_r.
Qed.

Lemma zlen_uart_packet msg data : zlen (uart_packet msg data) = zlen data + 6.
Proof.
  unfold uart_packet. rewrite !zlen_app. change (zlen (be16 _)) with 2. change (zlen (be16 _)) with 2.
  change (zlen (be16 _)) with 2. lia.
Qed.

(** A message built in the 32-byte buffer. *)
Lemma uart_message msg data c tail d w ws t1 t0 x rs ack :
  crc_message msg = true -> (msg = BSL_CMD_CONNECT -> data = []) ->
  zlen c = 2 -> zlen data <= 8 -> uart_reply d w ws t1 t0 x rs -> zlen tail = 22 - zlen data ->
  exists b, zlen b = 4000 /\
    (let* (raw_buffer, size) := setup_packet msg (replicate 4 0 ++ replicate 4 0 ++ data ++ c ++ tail) 8
                               (zlen data) BSL_UART_PACKET in
     let* (retval, d) := send_out d raw_buffer size 0 in
     reply d raw_buffer retval 0 ack) =
    Done (if ack (reply_type t1 t0) then 0 else -1, next_device d b ws rs (translate (uart_packet msg data))).
Proof.
  intros Hm Hc0 Hc Hd Hr Ht. pose proof (zlen_nonneg data).
  rewrite (setup_packet_uart msg (replicate 4 0) (replicate 4 0) data c tail) by (done || lia). cbn [obind].
  apply (uart_exchange d (replicate 4 0) (uart_packet msg data) tail (zlen data + 6) w ws t1 t0 x rs); try done.
  - apply zlen_uart_packet.
  - lia.
  - rewrite !zlen_app, zlen_uart_packet. change (zlen (replicate 4 0)) with 4. lia.
Qed.

Lemma uart_start d size addr w ws t1 t0 x rs :
  u32_ok size -> u32_ok addr -> uart_reply d w ws t1 t0 x rs ->
  exists b, zlen b = 4000 /\ send_start_message d size addr 0 =
    Done (if ack_or_zero (reply_type t1 t0) then 0 else -1,
          next_device d b ws rs (translate (uart_packet BSL_CMD_START_DATA (be32 addr ++ be32 size)))).
Proof.
  intros Hs Ha Hd. unfold send_start_message, st32. rewrite !cpu2be32_bytes by done.
  change raw32 with (replicate 8 0 ++ replicate 4 0 ++ replicate 20 0). rewrite splice_app by done. cbn [obind].
  change (replicate 20 0) with (replicate 4 0 ++ replicate 16 0). rewrite app_assoc.
  rewrite splice_app by done. cbn [obind]. rewrite <- app_assoc.
  exact (uart_message BSL_CMD_START_DATA (be32 addr ++ be32 size) (replicate 2 0) (replicate 14 0)
           d w ws t1 t0 x rs ack_or_zero eq_refl ltac:(done) eq_refl
           ltac:(vm_compute; congruence) Hd eq_refl).
Qed.

Lemma uart_end d w ws t1 t0 x rs :
  uart_reply d w ws t1 t0 x rs ->
  exists b, zlen b = 4000 /\ send_end_message d 0 =
    Done (if ack_or_zero (reply_type t1 t0) then 0 else -1,
          next_device d b ws rs (translate (uart_packet BSL_CMD_END_DATA []))).
Proof.
  intros Hd.
  exact (uart_message BSL_CMD_END_DATA [] (replicate 2 0) (replicate 22 0)
           d w ws t1 t0 x rs ack_or_zero eq_refl ltac:(done) eq_refl
           ltac:(vm_compute; congruence) Hd eq_refl).
Qed.

Lemma uart_exec d addr w ws t1 t0 x rs :
  u32_ok addr -> uart_reply d w ws t1 t0 x rs ->
  exists b, zlen b = 4000 /\ send_exec_message d addr 0 =
    Done (if ack_or_zero (reply_type t1 t0) then 0 else -1,
          next_device d b ws rs (translate (uart_packet BSL_CMD_EXEC_DATA (be32 addr)))).
Proof.
  intros Ha Hd. unfold send_exec_message, st32. rewrite cpu2be32_bytes by done.
  change raw32 with (replicate 8 0 ++ replicate 4 0 ++ replicate 20 0). rewrite splice_app by done. cbn [obind].
  exact (uart_message BSL_CMD_EXEC_DATA (be32 addr) (replicate 2 0) (replicate 18 0)
           d w ws t1 t0 x rs ack_or_zero eq_refl ltac:(done) eq_refl
           ltac:(vm_compute; congruence) Hd eq_refl).
Qed.

Lemma uart_data d data rest w ws t1 t0 x rs :
  zlen data <= 256 -> uart_reply d w ws t1 t0 x rs ->
  exists b, zlen b = 4000 /\
    send_data_message d (data ++ rest) (zlen data) 0 =
      Done (if ack_or_zero (reply_type t1 t0) then 0 else -1, data ++ rest,
            next_device d b ws rs (translate (uart_packet BSL_CMD_MIDST_DATA data))).
Proof.
  intros Hd Hr. pose proof (zlen_nonneg data). unfold send_data_message. change (0 =? 0) with true. cbv iota.
  rewrite slice_app_l by done. cbn [obind].
  assert (Hsplit : replicate 300 0 = replicate 8 0 ++ replicate (length data) 0 ++ replicate (292 - length data) 0).
  { rewrite <- !replicate_add. f_equal. unfold zlen in Hd. lia. }
  rewrite Hsplit, splice_app by (done || unfold zlen; by rewrite length_replicate). cbn [obind].
  replace (292 - length data)%nat with (2 + (290 - length data))%nat by (unfold zlen in Hd; lia).
  rewrite replicate_add. change (replicate 8 0) with (replicate 4 0 ++ replicate 4 0).
  rewrite <- app_assoc, setup_packet_uart by (done || lia). cbn [obind].
  destruct (uart_exchange d (replicate 4 0) (uart_packet BSL_CMD_MIDST_DATA data) (replicate (290 - length data) 0)
    (zlen data + 6) w ws t1 t0 x rs raw32 ack_or_zero) as (b & Hb & Hx); try done.
  - apply zlen_uart_packet.
  - lia.
  - exists b. split; [done|]. destruct (send_out _ _ _ _) as [[retval d1]| |]; cbn [obind] in *;
      [|discriminate Hx..]. by rewrite Hx.
Qed.

(** A data message over the UART, end to end: on a device that takes the
    frame in one [write] and answers with a reply frame, the message puts
    exactly the frame of the CRC-protected packet on the wire and returns 0 if
    and only if the type of the reply is [BSL_REP_ACK] or 0. *)
Theorem send_data_message_uart d data rest w ws t1 t0 x rs :
  zlen data <= 256 -> uart_reply d w ws t1 t0 x rs ->
  exists b, zlen b = 4000 /\
    send_data_message d (data ++ rest) (zlen data) 0 =
      Done (if ack_or_zero (reply_type t1 t0) then 0 else -1, data ++ rest,
            next_device d b ws rs (translate (uart_packet BSL_CMD_MIDST_DATA data))).
Proof. apply uart_data. Qed.

(** A short [write] corrupts the frame: the loop that finishes a partial
    write repeats it from the start of the buffer, so that a frame of which
    only [k] bytes were taken is followed by its own beginning. *)
Theorem write_loop_repeats_start d frame rest k w ws fuel :
  send_buffer d = frame ++ rest -> writes d = k :: w :: ws ->
  0 < k < zlen frame -> zlen frame - k <= w ->
  write_loop (S (S fuel)) d (zlen frame) =
    Done (zlen frame - k,
          next_device d (send_buffer d) ws (reads d)
            (take (Z.to_nat k) frame ++ take (Z.to_nat (zlen frame - k)) frame)).
Proof.
  intros Hb Hw Hk Hle. cbn [write_loop]. unfold dev_write. rewrite Hw, Hb.
  rewrite slice_app_l by done. cbn [obind]. rewrite Z.min_l by lia. guard_true (0 <? k). guard_true (0 <? zlen frame - k).
  cbn [writes send_buffer].
  assert (Hsl2 : slice (frame ++ rest) 0 (zlen frame - k) = Done (take (Z.to_nat (zlen frame - k)) frame)).
  { pose proof (zlen_nonneg rest). rewrite slice_in by (rewrite ?zlen_app; lia).
    change (Z.to_nat 0) with 0%nat. rewrite drop_0, take_app_le by (unfold zlen; lia). done. }
  rewrite Hsl2. cbn [obind]. rewrite Z.min_r by lia. guard_true (0 <? zlen frame - k).
  rewrite Z.sub_diag. change (0 <? 0) with false. cbv iota. unfold next_device. cbn [sent reads].
  do 3 f_equal. rewrite <- app_assoc. do 2 f_equal. apply take_ge.
  rewrite length_take. lia.
Qed.

Definition ex_uart : device :=
  {| send_buffer := replicate 4000 0; writes := [5000]; reads := [Some [0x7E; 0; 0x80; 0; 0; 1; 2; 0x7E]]; sent := [] |}.

Lemma send_data_message_uart_witness :
  exists b, zlen b = 4000 /\
    send_data_message ex_uart ([1; 0x7E; 3] ++ [9]) (zlen [1; 0x7E; 3]) 0 =
      Done (if ack_or_zero (reply_type 0 0x80) then 0 else -1, [1; 0x7E; 3] ++ [9],
            next_device ex_uart b [] [] (translate (uart_packet BSL_CMD_MIDST_DATA [1; 0x7E; 3]))).
Proof.
  apply (send_data_message_uart ex_uart [1; 0x7E; 3] [9] 5000 [] 0 0x80 [0; 0; 1; 2] []);
    [vm_compute; discriminate|].
  split_and!; try reflexivity; [vm_compute; discriminate|]. repeat constructor.
Defined.

Lemma write_loop_repeats_start_witness :
  write_loop 2 {| send_buffer := [0x7E; 1; 2; 0x7E] ++ []; writes := [1; 9]; reads := []; sent := [] |} (zlen [0x7E; 1; 2; 0x7E]) =
    Done (zlen [0x7E; 1; 2; 0x7E] - 1,
      next_device {| send_buffer := [0x7E; 1; 2; 0x7E] ++ []; writes := [1; 9]; reads := []; sent := [] |}
        ([0x7E; 1; 2; 0x7E] ++ []) [] []
        (take (Z.to_nat 1) [0x7E; 1; 2; 0x7E] ++ take (Z.to_nat (zlen [0x7E; 1; 2; 0x7E] - 1)) [0x7E; 1; 2; 0x7E])).
Proof.
  apply (write_loop_repeats_start
    {| send_buffer := [0x7E; 1; 2; 0x7E] ++ []; writes := [1; 9]; reads := []; sent := [] |}
    [0x7E; 1; 2; 0x7E] [] 1 9 [] 0); [reflexivity|reflexivity|split; reflexivity|vm_compute; discriminate].
Defined.
