(* ===== verification/ModemBoot.v ===== *)
(** * apps/modem_control/modem_boot.c: booting the modem

    The image table and its configuration file, the check of the images, the
    download of the first-stage loader over the UART and of the images over
    the SPI.  The two devices are the scripted devices of ModemPacket, the
    image files a map from paths to contents; a regular file delivers what is
    left of it.  Waiting for a device that never answers is [Fuel]. *)

From S2P Require Import Prelude CString OnesComplement ModemCrc ModemPacket.

Definition FDL_PACKET_SIZE : Z := 256.
Definition HS_PACKET_SIZE : Z := 32 * 1024.
Definition FDL_CP_UART_TIMEOUT : Z := 200.
Definition FDL_CP_PWRON_DLY : Z := 180 * 1000.
Definition DL_FAILURE : Z := -1.
Definition DL_SUCCESS : Z := 0.

Record image_info := {
  image_path : option string;
  image_path_bak : option string;
  image_size : Z;
  address : Z
}.

Definition no_image : image_info :=
  {| image_path := None; image_path_bak := None; image_size := 0; address := 0 |}.

Definition files := string -> option (list Z).

(** ** The checksum of an image *)

(** [while (pstart < pend)] and the odd byte, at an even address. *)
Fixpoint sum_even (dat : list Z) (checksum : Z) : Z :=
  match dat with
  | lo :: hi :: dat' => sum_even dat' (u32 (checksum + (lo + 256 * hi)))
  | [b] => u32 (checksum + b)
  | [] => checksum
  end.

(** At an odd address the pointer is still [unsigned short *]: every round reads
    two halfwords, four bytes, and counts two of them. *)
Definition halfword (dat : list Z) (i : Z) : outcome Z :=
  let* lo := rd dat (2 * i) in let* hi := rd dat (2 * i + 1) in Done (lo + 256 * hi).

Fixpoint sum_odd (fuel : nat) (dat : list Z) (pstart len checksum : Z) : outcome Z :=
  match fuel with
  | O => Fuel
  | S fuel =>
      if 1 <? len then
        let* a := halfword dat pstart in
        let* b := halfword dat (pstart + 1) in
        sum_odd fuel dat (pstart + 2) (len - 2) (u32 (checksum + Z.lor a (Z.shiftl b 8)))
      else if negb (len =? 0) then let* a := halfword dat pstart in Done (u32 (checksum + a))
      else Done checksum
  end.

Definition calc_checksum (odd_address : bool) (dat : list Z) (len : Z) : outcome Z :=
  let* checksum :=
    if negb odd_address then let* d := slice dat 0 len in Done (sum_even d 0)
    else sum_odd (S (Z.to_nat len)) dat 0 len 0 in
  let checksum := u32 (Z.shiftr checksum 16 + Z.land checksum 0xffff) in
  let checksum := u32 (checksum + Z.shiftr checksum 16) in
  Done (u16 (Z.lnot checksum)).

(** [buf] comes from [malloc], so its address is even. *)
Definition _chkEcc (buf : list Z) (size : Z) : outcome bool :=
  let* crc := calc_checksum false buf (u32 (size - 4)) in
  let* b3 := rd buf (size - 3) in
  let* b4 := rd buf (size - 4) in
  let crcOri := u16 (Z.lor (u16 (Z.shiftl b3 8)) b4) in
  Done (crc =? crcOri).

Definition _chkImg (fs : files) (fileName : string) (size : Z) : outcome bool :=
  if size <? 0 then Undef
  else
    match fs fileName with
    | None => Done false
    | Some content =>
        let got := take (Z.to_nat size) content in
        let* buf := splice (replicate (Z.to_nat size) 0xFF) 0 got in
        if negb (zlen got =? size) then Done false else _chkEcc buf size
    end.

(** ** The configuration file *)
Record boot_config := {
  download_image_info : list image_info;
  modem_images_count : Z;
  uart_dev : string;
  fdl_cp_poweron_delay : Z
}.

Definition UART_DEVICE_NAME : string := "/dev/ttyS1".

(** An entry of the built-in table, the same path twice. *)
Definition builtin (path : string) (size addr : Z) : image_info :=
  {| image_path := Some path; image_path_bak := Some path; image_size := size; address := addr |}.

(** The variables before the configuration file is read: the loader, the images
    of the modem and of the Wi-Fi processor, and the end mark. *)
Definition initial_boot : boot_config :=
  {| download_image_info :=
       [builtin "/dev/block/platform/sprd-sdhci.3/by-name/tddsp" 0x3400 0x20000000;
        builtin "/dev/block/platform/sprd-sdhci.3/by-name/tdmodem" 0x590c00 0x80400000;
        builtin "/dev/block/platform/sprd-sdhci.3/by-name/tdfixnv1" 0x28000 0x809B0000;
        builtin "/proc/cmdline" 0x400 0x80A10000;
        builtin "/dev/block/platform/sprd-sdhci.3/by-name/wcnmodem" 0x790000 0x81F00000;
        builtin "/dev/block/platform/sprd-sdhci.3/by-name/wcnfixnv1" 0x28000 0x82690000;
        builtin "/proc/cmdline" 0x400 0x826F0000;
        no_image];
     modem_images_count := 7; uart_dev := UART_DEVICE_NAME; fdl_cp_poweron_delay := FDL_CP_PWRON_DLY |}.

(** [line[strlen(line)-1] = 0]. *)
Fixpoint chop (s : string) : string :=
  match s with
  | EmptyString => ""
  | String c EmptyString => ""
  | String c s' => String c (chop s')
  end.

(** The state of the four targets of [sscanf]; the paths start uninitialised. *)
Record scan := { originPath : option string; bakPath : option string; sc_size : Z; sc_address : Z }.

Definition max_path : Z := 100.

(** [sscanf(line, "%s %s %x %x", ...)]: [None] for the result -1, undefined when
    a word does not fit its array. *)
Definition scan_line (line : string) (v : scan) : outcome (option scan) :=
  match scan_s line with
  | None => Done None
  | Some (w1, r) =>
      if max_path <=? Z.of_nat (String.length w1) then Undef
      else
        let v := {| originPath := Some w1; bakPath := bakPath v; sc_size := sc_size v; sc_address := sc_address v |} in
        match scan_s r with
        | None => Done (Some v)
        | Some (w2, r) =>
            if max_path <=? Z.of_nat (String.length w2) then Undef
            else
              let v := {| originPath := Some w1; bakPath := Some w2; sc_size := sc_size v; sc_address := sc_address v |} in
              match scan_x r with
              | None => Done (Some v)
              | Some (x, r) =>
                  let v := {| originPath := Some w1; bakPath := Some w2; sc_size := x; sc_address := sc_address v |} in
                  match scan_x r with
                  | None => Done (Some v)
                  | Some (y, _) =>
                      Done (Some {| originPath := Some w1; bakPath := Some w2; sc_size := x; sc_address := y |})
                  end
              end
        end
  end.

Definition max_item : Z := 7.

Definition is_comment (line : string) : bool :=
  match line with String "#" _ => true | EmptyString => true | _ => false end.

(** The loop over the lines; [cnt] is the next free entry. *)
Fixpoint parse_lines (lines : list string) (o b : option string) (c : boot_config) (cnt : Z)
  : outcome (boot_config * Z) :=
  match lines with
  | [] => Done (c, cnt)
  | raw :: lines' =>
      let line := chop raw in
      if is_comment line then parse_lines lines' o b c cnt
      else
        let* e := rd (download_image_info c) cnt in
        let* r := scan_line line {| originPath := o; bakPath := b; sc_size := image_size e; sc_address := address e |} in
        match r with
        | None => parse_lines lines' o b c cnt
        | Some v =>
            match originPath v, bakPath v with
            | Some op, Some bp =>
                let* info := wr (download_image_info c) cnt
                  {| image_path := Some op; image_path_bak := Some bp; image_size := sc_size v; address := sc_address v |} in
                if (sc_address v =? 0) || (sc_size v =? 0) then
                  let c := {| download_image_info := info; modem_images_count := modem_images_count c;
                              uart_dev := op;
                              fdl_cp_poweron_delay := if negb (sc_size v =? 0) then s32 (sc_size v)
                                                      else fdl_cp_poweron_delay c |} in
                  if max_item <=? cnt then Done (c, cnt)
                  else parse_lines lines' (Some op) (Some bp) c cnt
                else
                  let c := {| download_image_info := info; modem_images_count := modem_images_count c;
                              uart_dev := uart_dev c; fdl_cp_poweron_delay := fdl_cp_poweron_delay c |} in
                  if max_item <=? cnt + 1 then Done (c, cnt + 1)
                  else parse_lines lines' (Some op) (Some bp) c (cnt + 1)
            | _, _ => Undef
            end
        end
  end.

(** The check of one entry: the backup replaces an image that does not verify.
    [strcpy] writes over the string of the first path. *)
Definition choose_image (fs : files) (e : image_info) : outcome image_info :=
  match image_path e, image_path_bak e with
  | Some p, Some b =>
      if String.eqb p b then Done e
      else
        let* ok := _chkImg fs p (s32 (image_size e)) in
        if ok then Done e
        else
          let* okb := _chkImg fs b (s32 (image_size e)) in
          if negb okb then Done e
          else if (String.length p <? String.length b)%nat then Undef
          else Done {| image_path := Some b; image_path_bak := Some b; image_size := image_size e; address := address e |}
  | _, _ => Undef
  end.

Fixpoint choose_images (fs : files) (n : nat) (l : list image_info) : outcome (list image_info) :=
  match n, l with
  | S n', e :: l' =>
      let* e := choose_image fs e in let* l := choose_images fs n' l' in Done (e :: l)
  | _, _ => Done l
  end.

(** [lines] is what [fgets] delivers, [None] when the file cannot be opened. *)
Definition get_modem_images_info (fs : files) (lines : option (list string)) (c : boot_config)
  : outcome (Z * boot_config) :=
  match lines with
  | None => Done (0, c)
  | Some lines =>
      let c := {| download_image_info := replicate 8 no_image; modem_images_count := 0;
                  uart_dev := uart_dev c; fdl_cp_poweron_delay := fdl_cp_poweron_delay c |} in
      let* (c, cnt) := parse_lines lines None None c 0 in
      let* info := wr (download_image_info c) cnt no_image in
      let* info := choose_images fs (Z.to_nat cnt) info in
      Done (cnt, {| download_image_info := info; modem_images_count := cnt; uart_dev := uart_dev c;
                    fdl_cp_poweron_delay := fdl_cp_poweron_delay c |})
  end.

(** ** The images over the SPI *)

(** The [for] loop of [download_image]; the filling of the last packet uses the
    same [i].  One round per packet is enough: [i] never decreases. *)
Fixpoint image_loop (fuel : nat) (d : device) (rest test_buffer : list Z) (i count image_size : Z)
  : outcome (device * list Z) :=
  match fuel with
  | O => Fuel
  | S fuel =>
      if i <? count then
        let got := take (Z.to_nat HS_PACKET_SIZE) rest in
        let* test_buffer := splice test_buffer 8 got in
        let* (test_buffer, i, image_size) :=
          if image_size <? HS_PACKET_SIZE then
            let* test_buffer := splice test_buffer (8 + image_size)
                                  (replicate (Z.to_nat (HS_PACKET_SIZE - image_size)) 0xFF) in
            Done (test_buffer, HS_PACKET_SIZE, 0)
          else Done (test_buffer, i, image_size - HS_PACKET_SIZE) in
        let* (ret, test_buffer, d) := send_data_message d test_buffer HS_PACKET_SIZE 1 in
        image_loop fuel d (drop (Z.to_nat HS_PACKET_SIZE) rest) test_buffer (i + 1) count image_size
      else Done (d, test_buffer)
  end.

(** The result, the channel and the static packet buffer. *)
Definition download_image (fs : files) (d : device) (test_buffer : list Z) (info : image_info)
  : outcome (Z * device * list Z) :=
  match image_path info with
  | None => Done (DL_SUCCESS, d, test_buffer)
  | Some path =>
      match fs path with
      | None => Done (DL_SUCCESS, d, test_buffer)
      | Some content =>
          let size := s32 (image_size info) in
          if 2 ^ 31 <=? size + HS_PACKET_SIZE - 1 then Undef
          else
            let count := Z.quot (size + HS_PACKET_SIZE - 1) HS_PACKET_SIZE in
            let* (ret, d) := send_start_message d (u32 (count * HS_PACKET_SIZE)) (address info) 1 in
            if negb (ret =? DL_SUCCESS) then Done (DL_FAILURE, d, test_buffer)
            else
              let* (d, test_buffer) := image_loop (S (Z.to_nat count)) d content test_buffer 0 count size in
              let* (ret, d) := send_end_message d 1 in
              Done (ret, d, test_buffer)
      end
  end.

(** The loop of [download_images]; [ret] is uninitialised for an empty table. *)
Fixpoint images_loop (fs : files) (d : device) (test_buffer : list Z) (infos : list image_info) (ret : option Z)
  : outcome (option Z * device * list Z) :=
  match infos with
  | [] => Done (ret, d, test_buffer)
  | info :: infos' =>
      let* (r, d, test_buffer) := download_image fs d test_buffer info in
      if negb (r =? DL_SUCCESS) then Done (Some r, d, test_buffer)
      else images_loop fs d test_buffer infos' (Some r)
  end.

Definition download_images (fs : files) (c : boot_config) (d : device) (test_buffer : list Z)
  : outcome (Z * device * list Z) :=
  let image_count := modem_images_count c - 1 in
  let infos := take (Z.to_nat image_count) (drop 1 (download_image_info c)) in
  if zlen infos <? image_count then Undef
  else
    let* (ret, d, test_buffer) := images_loop fs d test_buffer infos None in
    let* (_, d) := send_exec_message d 0x80400000 1 in
    match ret with
    | Some ret => Done (ret, d, test_buffer)
    | None => Undef
    end.

(** ** The loader over the UART *)

(** The buffer has [size + 4] bytes; a file shorter than [size] is read for
    ever. *)
Definition load_fdl2memory (fs : files) (garbage : list Z) (info : image_info)
  : outcome (option (list Z * Z)) :=
  match image_path info with
  | None => Undef
  | Some path =>
      match fs path with
      | None => Done None
      | Some content =>
          let size := s32 (image_size info) in
          if size <? 0 then Undef
          else if zlen content <? size then Fuel
          else Done (Some (take (Z.to_nat size) content ++ take 4 (garbage ++ replicate 4 0), image_size info))
      end
  end.

(** [while (size)]: the pointer is the rest of the buffer.  The loop advances by
    a whole packet, so it ends only when [size] is a multiple of it, and the
    buffer bounds the rounds. *)
Fixpoint fdl_loop (fuel : nat) (d : device) (buffer : list Z) (size : Z) : outcome (Z * device) :=
  match fuel with
  | O => Fuel
  | S fuel =>
      if negb (size =? 0) then
        let* (ret, _, d) := send_data_message d buffer FDL_PACKET_SIZE 0 in
        if ret =? DL_FAILURE then Done (ret, d)
        else fdl_loop fuel d (drop (Z.to_nat FDL_PACKET_SIZE) buffer) (size - FDL_PACKET_SIZE)
      else Done (0, d)
  end.

Definition download_fdl (fs : files) (garbage : list Z) (c : boot_config) (d : device) : outcome (Z * device) :=
  let* info := rd (download_image_info c) 0 in
  let* l := load_fdl2memory fs garbage info in
  match l with
  | None => Done (DL_FAILURE, d)
  | Some (buffer, size) =>
      let* (ret, d) := send_start_message d size (address info) 0 in
      if ret =? DL_FAILURE then Done (ret, d)
      else
        let* (ret, d) := fdl_loop (S (length buffer)) d buffer (s32 size) in
        if ret =? DL_FAILURE then Done (ret, d)
        else
          let* (ret, d) := send_end_message d 0 in
          if ret =? DL_FAILURE then Done (ret, d)
          else send_exec_message d (address info) 0
  end.

(** ** Connecting *)
Definition hand_shake : list Z := [0x7E; 0x7E; 0x7E; 0x7E].

(** The inner loop: [n] bytes of the version string are in the 64-byte buffer.
    The result is the new [modem_connect]. *)
Fixpoint version_loop (fuel : nat) (d : device) (n modem_connect : Z) : outcome (Z * device) :=
  match fuel with
  | O => Fuel
  | S fuel =>
      let* (ret, got, d) := dev_read d 1 in
      let* (stop, n, modem_connect) :=
        if ret =? 1 then
          if default 0 (head got) =? 0x7E then Done (true, n, 1)
          else Done (64 <=? n + 1, n + 1, modem_connect)
        else Done (false, n, modem_connect + 2) in
      if stop then Done (modem_connect, d)
      else if modem_connect <? FDL_CP_UART_TIMEOUT then version_loop fuel d n modem_connect
      else Done (modem_connect, d)
  end.

Fixpoint connect_loop (fuel : nat) (d : device) (modem_connect : Z) : outcome device :=
  match fuel with
  | O => Fuel
  | S fuel =>
      let* (_, d) := dev_write d hand_shake 3 in
      let* (ret, got, d) := dev_read d 1 in
      let* (modem_connect, d) :=
        if ret =? 1 then
          let v := default 0 (head got) in
          if v =? 0x7E then version_loop (script d) d 1 0
          else
            if v =? 0x55 then
              let* (_, d) := dev_write d hand_shake 3 in Done (modem_connect + 40 + 2, d)
            else Done (modem_connect + 2, d)
        else Done (modem_connect, d) in
      if modem_connect =? 1 then Done d else connect_loop fuel d (modem_connect + 2)
  end.

Definition try_to_connect_modem (d : device) : outcome device := connect_loop (script d) d 0.

(** ** The boot sequence *)

(** [do { try_to_connect; send_connect } while (ret < 0)]. *)
Fixpoint connect_until (fuel : nat) (d : device) : outcome device :=
  match fuel with
  | O => Fuel
  | S fuel =>
      let* d := try_to_connect_modem d in
      let* (ret, d) := send_connect_message d 0 in
      if ret <? 0 then connect_until fuel d else Done d
  end.

(** One attempt from the label [reboot_modem]; [false] is the jump back to it.
    The UART is opened a second time for the switch to the SPI. *)
Definition boot_attempt (fs : files) (garbage : list Z) (c : boot_config) (uart spi : device) (test_buffer : list Z)
  : outcome (bool * device * device * list Z) :=
  let* uart := connect_until (script uart) uart in
  let* (ret, uart) := download_fdl fs garbage c uart in
  if ret =? DL_FAILURE then Done (false, uart, spi, test_buffer)
  else
    let* uart := try_to_connect_modem uart in
    let* (_, uart) := uart_send_change_spi_mode_message uart in
    let* (ret, spi, test_buffer) := download_images fs c spi test_buffer in
    Done (negb (ret =? DL_FAILURE), uart, spi, test_buffer).

(** [modem_boot]; [attempts] bounds the jumps back. *)
Fixpoint modem_boot (attempts : nat) (fs : files) (garbage : list Z) (c : boot_config) (uart spi : device)
    (test_buffer : list Z) : outcome (Z * device * device * list Z) :=
  match attempts with
  | O => Fuel
  | S attempts =>
      let* (ok, uart, spi, test_buffer) := boot_attempt fs garbage c uart spi test_buffer in
      if ok then Done (0, uart, spi, test_buffer)
      else modem_boot attempts fs garbage c uart spi test_buffer
  end.

(** ** The image check *)
Lemma sum_even_spec l : forall s, u32_ok s -> sum_even l s = u32 (s + halfword_sum l).
Proof.
  remember (length l) as n eqn:Hn. revert l Hn.
  induction n as [n IH] using lt_wf_ind. intros [|a [|b l]] Hn s Hs; cbn [sum_even halfword_sum].
  - by rewrite Z.add_0_r, u32_small.
  - done.
  - rewrite (IH (length l)) by (first [done|subst; cbn; lia|apply u32_range]).
    rewrite u32_u32_add. f_equal. lia.
Qed.

Lemma calc_checksum_even dat tail :
  calc_checksum false (dat ++ tail) (zlen dat) = Done (oc_checksum dat).
Proof.
  unfold calc_checksum. cbn [negb]. rewrite slice_app_l by done. cbn [obind].
  by rewrite sum_even_spec by (split; lia).
Qed.

(** The odd-address branch of [calc_checksum] overruns its buffer: the
    pointer has the type [unsigned short *], so the loop reads twice as many
    bytes as it counts, and a buffer of [len] bytes is left behind for every
    positive [len]. *)
Theorem calc_checksum_odd_overruns dat len :
  zlen dat = len -> 1 <= len -> calc_checksum true dat len = Undef.
Proof.
  intros Hz Hl. unfold calc_checksum. cbn [negb].
  enough (H : forall fuel p l c, zlen dat = p + l -> 0 <= p -> 1 <= l -> (Z.to_nat l < fuel)%nat ->
    sum_odd fuel dat p l c = Undef) by (by rewrite (H _ 0 len) by lia).
  induction fuel as [|fuel IH]; intros p l c Hd Hp Hl1 Hf; [lia|]. cbn [sum_odd].
  assert (Hoob : forall i, zlen dat < 2 * i + 2 -> 0 <= i -> halfword dat i = Undef).
  { intros i Hi H0. unfold halfword. destruct (decide (2 * i < zlen dat)).
    - destruct (rd_lt dat (2 * i)) as (x & -> & _); [lia|]. cbn [obind]. by rewrite rd_oob by lia.
    - by rewrite rd_oob by lia. }
  assert (Hin : forall i, 2 * i + 2 <= zlen dat -> 0 <= i -> exists v, halfword dat i = Done v).
  { intros i Hi H0. unfold halfword. destruct (rd_lt dat (2 * i)) as (x & -> & _); [lia|].
    destruct (rd_lt dat (2 * i + 1)) as (y & -> & _); [lia|]. by eexists. }
  destruct (Z.ltb_spec 1 l).
  - destruct (decide (2 * p + 4 <= zlen dat)).
    + destruct (Hin p) as (v & ->); [lia..|]. destruct (Hin (p + 1)) as (w & ->); [lia..|].
      cbn [obind]. apply IH; lia.
    + destruct (decide (2 * p + 2 <= zlen dat)); [|by rewrite Hoob by lia].
      destruct (Hin p) as (v & ->); [lia..|]. cbn [obind]. by rewrite Hoob by lia.
  - guard_false (l =? 0). cbn [negb]. by rewrite Hoob by lia.
Qed.

Lemma calc_checksum_odd_overruns_witness : calc_checksum true [1; 2; 3; 4] 4 = Undef.
Proof. apply (calc_checksum_odd_overruns [1; 2; 3; 4] 4); [reflexivity|lia]. Defined.

(** An image verifies: the file is long enough and the checksum stored after its
    data is the one's complement checksum of the data. *)
Definition verifies (fs : files) (path : string) (size : Z) : bool :=
  match fs path with
  | None => false
  | Some content =>
      if zlen content <? size then false
      else
        oc_checksum (take (Z.to_nat (size - 4)) content) =?
        le_val (take 2 (drop (Z.to_nat (size - 4)) content))
  end.

Definition files_ok (fs : files) : Prop := forall p c, fs p = Some c -> Forall byte_ok c.

Lemma chkImg_spec fs path size :
  files_ok fs -> 4 <= size < 2 ^ 31 -> _chkImg fs path size = Done (verifies fs path size).
Proof.
  intros Hfs Hs. unfold _chkImg, verifies. guard_false (size <? 0).
  destruct (fs path) as [content|] eqn:Ef; [|done].
  set (got := take (Z.to_nat size) content).
  assert (Hg : zlen got <= size) by (unfold got, zlen; rewrite length_take; lia).
  rewrite splice_in by (rewrite ?zlen_replicate; lia). cbn [obind].
  destruct (Z.ltb_spec (zlen content) size) as [Hlt|Hge].
  { assert (zlen got < size) by (unfold got, zlen in *; rewrite length_take; lia).
    by guard_false (zlen got =? size). }
  assert (Hge' : zlen got = size) by (unfold got, zlen in *; rewrite length_take; lia).
  rewrite Hge', Z.eqb_refl. cbn [negb]. change (Z.to_nat 0) with 0%nat. cbn [Nat.add]. rewrite take_0, app_nil_l.
  rewrite drop_ge, app_nil_r by (rewrite length_replicate; unfold zlen in Hge'; lia).
  unfold _chkEcc. rewrite u32_small by (unfold u32_ok; lia).
  set (k := Z.to_nat (size - 4)).
  assert (Hsplit : got = take k content ++ take 4 (drop k content)).
  { unfold got, k. replace (Z.to_nat size) with (Z.to_nat (size - 4) + 4)%nat by lia. by rewrite take_take_drop. }
  assert (Hzk : zlen (take k content) = size - 4) by (unfold zlen, k in *; rewrite length_take; lia).
  rewrite Hsplit at 1. rewrite <- Hzk at 1. rewrite calc_checksum_even. cbn [obind].
  destruct (rd_lt got (size - 3)) as (b3 & -> & H3); [lia|]. cbn [obind].
  destruct (rd_lt got (size - 4)) as (b4 & -> & H4); [lia|]. cbn [obind].
  assert (Hgb : Forall byte_ok got) by (apply Forall_take; by eapply Hfs).
  assert (B3 : byte_ok b3) by (eapply Forall_lookup_1; [exact Hgb|exact H3]).
  assert (B4 : byte_ok b4) by (eapply Forall_lookup_1; [exact Hgb|exact H4]).
  assert (Htail : take 2 (drop k content) = [b4; b3]).
  { apply list_eq. intros [|[|i]].
    - rewrite lookup_take_lt, lookup_drop, Nat.add_0_r by lia. cbn.
      unfold got in H4. by rewrite lookup_take_lt in H4 by lia.
    - rewrite lookup_take_lt, lookup_drop by lia. cbn. unfold got in H3.
      rewrite lookup_take_lt in H3 by lia. rewrite <- H3. f_equal. unfold k. lia.
    - rewrite lookup_ge_None_2; [done|]. rewrite length_take. lia. }
  rewrite Htail. unfold byte_ok in *. cbn [le_val]. do 3 f_equal.
  rewrite !Z.shiftl_mul_pow2 by lia. change (2 ^ 8) with 256. rewrite (u16_small (b3 * 256)) by lia.
  rewrite Z.lor_comm. change 256 with (2 ^ 8) at 1. rewrite lor_disjoint by lia.
  rewrite u16_small by lia. lia.
Qed.

(** Choice of the image: when the backup path is not longer than the
    original one, the check of an entry with a size of at least 4 bytes is
    memory safe, keeps the size and the address, and leaves a path that
    verifies whenever the original or the backup verifies; the path changes
    only from an image that does not verify to a backup that does. *)
Theorem choose_image_verifies fs e p b :
  files_ok fs -> 4 <= image_size e < 2 ^ 31 -> image_path e = Some p -> image_path_bak e = Some b ->
  (String.length b <= String.length p)%nat ->
  exists q, choose_image fs e =
      Done {| image_path := Some q; image_path_bak := Some b; image_size := image_size e; address := address e |} /\
    verifies fs q (image_size e) = verifies fs p (image_size e) || verifies fs b (image_size e) /\
    (q <> p -> verifies fs p (image_size e) = false /\ verifies fs b (image_size e) = true /\ q = b).
Proof.
  intros Hfs Hs Hp Hb Hlen. unfold choose_image. rewrite Hp, Hb.
  assert (Hkeep : Done e = Done {| image_path := Some p; image_path_bak := Some b;
                                   image_size := image_size e; address := address e |}).
  { by rewrite <- Hp, <- Hb; destruct e. }
  assert (Hs32 : s32 (image_size e) = image_size e).
  { unfold s32. rewrite u32_small by (unfold u32_ok; lia). by guard_true (image_size e <? 2 ^ 31). }
  destruct (String.eqb_spec p b) as [->|Hne].
  { exists b. rewrite orb_diag. split_and!; try done. }
  rewrite Hs32, !chkImg_spec by done. cbn [obind].
  destruct (verifies fs p (image_size e)) eqn:Vp; cbn [obind].
  { exists p. by rewrite Vp. }
  destruct (verifies fs b (image_size e)) eqn:Vb; cbn [negb orb].
  - replace (String.length p <? String.length b)%nat with false by (symmetry; apply Nat.ltb_ge; lia).
    exists b. by rewrite Vb.
  - exists p. by rewrite Vp.
Qed.

(** An entry of the table that will be downloaded. *)
Definition entry_ok (e : image_info) : Prop :=
  is_Some (image_path e) /\ is_Some (image_path_bak e) /\ image_size e <> 0 /\ address e <> 0.

Definition table_ok (l : list image_info) (cnt : Z) : Prop :=
  zlen l = 8 /\ 0 <= cnt <= max_item /\ Forall entry_ok (take (Z.to_nat cnt) l).

Lemma take_S_insert {A} (l : list A) i x :
  (i < length l)%nat -> take (S i) (<[i := x]> l) = take i l ++ [x].
Proof.
  intros Hi. rewrite (take_S_r _ _ x) by (by apply list_lookup_insert_eq). f_equal.
  by rewrite take_insert_ge by lia.
Qed.

Lemma parse_lines_ok lines : forall o b c cnt c' cnt',
  table_ok (download_image_info c) cnt -> cnt < max_item ->
  parse_lines lines o b c cnt = Done (c', cnt') -> table_ok (download_image_info c') cnt'.
Proof.
  induction lines as [|raw lines IH]; intros o b c cnt c' cnt' T Hc HP.
  { by injection HP as <- <-. }
  cbn [parse_lines] in HP. destruct (is_comment (chop raw)); [by eapply IH|].
  obind_inv HP. obind_inv HP. destruct a0 as [v|]; [|by eapply IH].
  destruct (originPath v) as [op|]; [|done]. destruct (bakPath v) as [bp|]; [|done]. obind_inv HP.
  destruct T as (Hz & H0 & Hf). unfold max_item in *.
  assert (Hl : (Z.to_nat cnt < length (download_image_info c))%nat) by (unfold zlen in Hz; lia).
  rewrite wr_in in E1 by lia. injection E1 as <-.
  assert (Hz' : forall e, zlen (<[Z.to_nat cnt := e]> (download_image_info c)) = 8)
    by (intros e; unfold zlen in *; by rewrite length_insert).
  destruct (_ || _) eqn:Eu in HP.
  - destruct (7 <=? cnt) in HP.
    + injection HP as <- <-. split; [apply Hz'|]. split; [unfold max_item; lia|]. cbn. by rewrite take_insert_ge by lia.
    + eapply IH; [| |exact HP]; [|lia]. split; [apply Hz'|]. split; [unfold max_item; lia|]. cbn.
      by rewrite take_insert_ge by lia.
  - btrue. assert (Hnew : table_ok (<[Z.to_nat cnt := {| image_path := Some op; image_path_bak := Some bp;
                image_size := sc_size v; address := sc_address v |}]> (download_image_info c)) (cnt + 1)).
    { split; [apply Hz'|]. split; [unfold max_item; lia|].
      replace (Z.to_nat (cnt + 1)) with (S (Z.to_nat cnt)) by lia. rewrite take_S_insert by done.
      apply Forall_app. split; [done|]. apply Forall_singleton. by split_and!; cbn; eauto. }
    destruct (Z.leb_spec 7 (cnt + 1)).
    + injection HP as <- <-. exact Hnew.
    + eapply IH; [| |exact HP]; [exact Hnew|lia].
Qed.

Lemma choose_image_ok fs e e' : entry_ok e -> choose_image fs e = Done e' -> entry_ok e'.
Proof.
  intros He Hc. unfold choose_image in Hc. destruct He as ([p Hp] & [b Hb] & Hs & Ha). rewrite Hp, Hb in Hc.
  destruct (String.eqb p b); [injection Hc as <-; by split_and!; rewrite ?Hp, ?Hb; eauto|].
  obind_inv Hc. destruct a; [injection Hc as <-; by split_and!; rewrite ?Hp, ?Hb; eauto|].
  obind_inv Hc. destruct (negb a); [injection Hc as <-; by split_and!; rewrite ?Hp, ?Hb; eauto|].
  destruct (_ <? _)%nat; [done|]. injection Hc as <-. by split_and!; cbn; eauto.
Qed.

Lemma choose_images_ok fs n : forall l l',
  Forall entry_ok (take n l) -> choose_images fs n l = Done l' ->
  Forall entry_ok (take n l') /\ length l' = length l /\ drop n l' = drop n l.
Proof.
  induction n as [|n IH]; intros [|e l] l' Hf Hc; cbn [choose_images take] in *; try (by injection Hc as <-).
  obind_inv Hc. obind_inv Hc. injection Hc as <-. apply Forall_cons in Hf as [He Hf].
  apply choose_image_ok in E; [|done]. destruct (IH _ _ Hf E0) as (H1 & H2 & H3).
  cbn. split_and!; [by constructor|congruence|done].
Qed.

(** The table of any file on which the function returns. *)
Definition image_table (n : Z) (c : boot_config) : Prop :=
  0 <= n <= max_item /\ modem_images_count c = n /\ zlen (download_image_info c) = 8 /\
  Forall entry_ok (take (Z.to_nat n) (download_image_info c)) /\
  download_image_info c !! Z.to_nat n = Some no_image.

Lemma images_info_table fs lines c n c' : get_modem_images_info fs (Some lines) c = Done (n, c') -> image_table n c'.
Proof.
  intros HG. unfold get_modem_images_info in HG. obind_inv HG. destruct a as [c1 cnt].
  obind_inv HG. obind_inv HG. injection HG as <- <-.
  apply parse_lines_ok in E as (Hz & Hc & Hf); [|by split_and!; cbn; try constructor|done].
  unfold max_item in *. rewrite wr_in in E0 by lia. injection E0 as <-.
  assert (Hl : (Z.to_nat cnt < length (download_image_info c1))%nat) by (unfold zlen in Hz; lia).
  apply choose_images_ok in E1 as (H1 & H2 & H3); [|by rewrite take_insert_ge by lia].
  rewrite length_insert in H2. unfold image_table. cbn [download_image_info modem_images_count].
  split_and!; try done; try (unfold max_item; lia); [unfold zlen in *; lia|].
  assert (Hd : drop (Z.to_nat cnt) a0 !! 0%nat = Some no_image).
  { rewrite H3, lookup_drop, Nat.add_0_r. by apply list_lookup_insert_eq. }
  rewrite lookup_drop, Nat.add_0_r in Hd. done.
Qed.

(** The four fields of a line: two paths, a size and an address. *)
Definition line_fields (line : string) : option (string * string * Z * Z) :=
  match scan_s line with
  | None => None
  | Some (w1, r) =>
      match scan_s r with
      | None => None
      | Some (w2, r) =>
          match scan_x r with
          | None => None
          | Some (x, r) => match scan_x r with None => None | Some (y, _) => Some (w1, w2, x, y) end
          end
      end
  end.

(** A line that the program is safe on: a comment, a blank line, or one with all four fields,
    paths that fit their arrays and, for an image whose two paths differ, a second path that fits
    the string of the first and a size that its check can read. *)
Definition line_fits (raw : string) : bool :=
  let line := chop raw in
  is_comment line || bool_decide (scan_s line = None) ||
  match line_fields line with
  | None => false
  | Some (w1, w2, x, y) =>
      (Z.of_nat (String.length w1) <? max_path) && (Z.of_nat (String.length w2) <? max_path) &&
      ((y =? 0) || (x =? 0) || String.eqb w1 w2 ||
       ((String.length w2 <=? String.length w1)%nat && (4 <=? x) && (x <? 2 ^ 31)))
  end.

(** The image that a line names: one whose size and address are not 0. *)
Definition image_of (raw : string) : option image_info :=
  let line := chop raw in
  if is_comment line then None
  else match line_fields line with
       | Some (w1, w2, x, y) =>
           if (y =? 0) || (x =? 0) then None
           else Some {| image_path := Some w1; image_path_bak := Some w2; image_size := x; address := y |}
       | None => None
       end.

Lemma scan_line_fields line v w1 w2 x y : line_fields line = Some (w1, w2, x, y) ->
  Z.of_nat (String.length w1) < max_path -> Z.of_nat (String.length w2) < max_path ->
  scan_line line v = Done (Some {| originPath := Some w1; bakPath := Some w2; sc_size := x; sc_address := y |}).
Proof.
  unfold line_fields, scan_line. intros H H1 H2. destruct (scan_s line) as [[a r]|]; [|done].
  destruct (scan_s r) as [[a' r']|]; [|done]. destruct (scan_x r') as [[x' r2]|]; [|done].
  destruct (scan_x r2) as [[y' r3]|]; [|done]. injection H as -> -> -> ->.
  guard_false (max_path <=? Z.of_nat (String.length w1)). by guard_false (max_path <=? Z.of_nat (String.length w2)).
Qed.

(** An image on which the choice between its paths is safe. *)
Definition choice_safe (e : image_info) : Prop := exists p b, image_path e = Some p /\ image_path_bak e = Some b /\
  (p = b \/ (String.length b <= String.length p)%nat /\ 4 <= image_size e < 2 ^ 31).

Lemma image_of_safe raw e : line_fits raw = true -> image_of raw = Some e -> choice_safe e.
Proof.
  unfold line_fits, image_of. destruct (is_comment (chop raw)); [done|]. cbn [orb]. intros Hf He.
  destruct (line_fields (chop raw)) as [[[[w1 w2] x] y]|] eqn:El; [|done].
  destruct ((y =? 0) || (x =? 0)) eqn:Ez; [done|]. injection He as <-. exists w1, w2. split; [done|]. split; [done|]. cbn [image_size].
  assert (Hn : scan_s (chop raw) <> None).
  { intros E. unfold line_fields in El. by rewrite E in El. }
  rewrite bool_decide_eq_false_2 in Hf by done. cbn [orb] in Hf.
  destruct (String.eqb_spec w1 w2) as [|_]; [by left|]. right. cbn [orb] in Hf. rewrite !andb_true_iff, Nat.leb_le in Hf. lia.
Qed.

(** What the loop does with a line that fits: nothing, the name of the UART, or an image. *)
Lemma parse_line_fits raw lines o b c cnt : zlen (download_image_info c) = 8 -> 0 <= cnt < max_item -> line_fits raw = true ->
  exists o' b' c', zlen (download_image_info c') = 8 /\
  match image_of raw with
  | None => parse_lines (raw :: lines) o b c cnt = parse_lines lines o' b' c' cnt /\
      take (Z.to_nat cnt) (download_image_info c') = take (Z.to_nat cnt) (download_image_info c)
  | Some e => parse_lines (raw :: lines) o b c cnt =
        (if max_item <=? cnt + 1 then Done (c', cnt + 1) else parse_lines lines o' b' c' (cnt + 1)) /\
      take (Z.to_nat (cnt + 1)) (download_image_info c') = take (Z.to_nat cnt) (download_image_info c) ++ [e]
  end.
Proof.
  intros Hz Hc Hf. unfold line_fits, image_of in *. cbn [parse_lines]. destruct (is_comment (chop raw)); [by exists o, b, c|].
  assert (Hl : (Z.to_nat cnt < length (download_image_info c))%nat) by (unfold zlen, max_item in *; lia).
  destruct (rd_lt (download_image_info c) cnt) as (e & -> & _); [unfold max_item in *; lia|]. cbn [orb obind] in *.
  assert (Hz' : forall e, zlen (<[Z.to_nat cnt := e]> (download_image_info c)) = 8)
    by (intros e'; unfold zlen in *; by rewrite length_insert).
  case_bool_decide as Hs; cbn [orb] in Hf.
  { unfold line_fields, scan_line. rewrite Hs. cbn [obind]. by exists o, b, c. }
  destruct (line_fields (chop raw)) as [[[[w1 w2] x] y]|] eqn:El; [|done]. rewrite !andb_true_iff, !Z.ltb_lt in Hf.
  destruct Hf as [[H1 H2] _]. rewrite (scan_line_fields _ _ _ _ _ _ El H1 H2). cbn [obind originPath bakPath sc_size sc_address].
  rewrite wr_in by (unfold max_item in *; lia). cbn [obind]. destruct ((y =? 0) || (x =? 0)).
  - guard_false (max_item <=? cnt). do 3 eexists. split; [|split; [reflexivity|]]; [apply Hz'|]. cbn. by rewrite take_insert_ge by lia.
  - exists (Some w1), (Some w2). eexists. split; [|split; [reflexivity|]]; [apply Hz'|]. cbn.
    replace (Z.to_nat (cnt + 1)) with (S (Z.to_nat cnt)) by lia. by apply take_S_insert.
Qed.

(** On lines that fit, the entries become the images of the lines, in order and up to seven. *)
Lemma parse_lines_images lines : forall o b c cnt, zlen (download_image_info c) = 8 -> 0 <= cnt < max_item ->
  forallb line_fits lines = true ->
  let imgs := take (Z.to_nat (max_item - cnt)) (omap image_of lines) in
  exists c', parse_lines lines o b c cnt = Done (c', cnt + zlen imgs) /\ zlen (download_image_info c') = 8 /\
    take (Z.to_nat (cnt + zlen imgs)) (download_image_info c') = take (Z.to_nat cnt) (download_image_info c) ++ imgs.
Proof.
  induction lines as [|raw lines IH]; intros o b c cnt Hz Hc Hf imgs.
  { exists c. unfold imgs. cbn [omap list_omap]. by rewrite take_nil, zlen_nil, Z.add_0_r, app_nil_r. }
  cbn [forallb] in Hf. apply andb_true_iff in Hf as [Hf Hfs].
  destruct (parse_line_fits raw lines o b c cnt Hz Hc Hf) as (o' & b' & c1 & Hz1 & H).
  unfold imgs. cbn [omap list_omap]. destruct (image_of raw) as [e|]; destruct H as [-> Ht].
  - unfold max_item in *. replace (Z.to_nat (7 - cnt)) with (S (Z.to_nat (7 - (cnt + 1)))) by lia. rewrite firstn_cons, zlen_cons.
    destruct (Z.leb_spec 7 (cnt + 1)).
    + replace (Z.to_nat (7 - (cnt + 1))) with 0%nat by lia. rewrite take_0, zlen_nil. exists c1. by rewrite Z.add_0_r.
    + destruct (IH o' b' c1 (cnt + 1) Hz1 ltac:(lia) Hfs) as (c2 & -> & Hz2 & Ht2). exists c2.
      rewrite Ht, <- app_assoc in Ht2. rewrite Z.add_assoc. done.
  - destruct (IH o' b' c1 cnt Hz1 Hc Hfs) as (c2 & -> & Hz2 & Ht2). exists c2. by rewrite Ht in Ht2.
Qed.

Lemma choose_image_returns fs e : files_ok fs -> choice_safe e -> exists e', choose_image fs e = Done e'.
Proof.
  intros Hfs (p & b & Hp & Hb & H). unfold choose_image. rewrite Hp, Hb. destruct (String.eqb_spec p b) as [|Hne]; [by eexists|].
  destruct H as [|[Hl Hs]]; [done|].
  assert (Hs32 : s32 (image_size e) = image_size e).
  { unfold s32. rewrite u32_small by (unfold u32_ok; lia). by guard_true (image_size e <? 2 ^ 31). }
  rewrite Hs32, !chkImg_spec by done. cbn [obind]. destruct (verifies fs p _); [by eexists|].
  destruct (negb _); [by eexists|]. replace (String.length p <? String.length b)%nat with false by (symmetry; apply Nat.ltb_ge; lia).
  by eexists.
Qed.

Lemma choose_images_returns fs l rest : files_ok fs -> Forall choice_safe l ->
  exists l', choose_images fs (length l) (l ++ rest) = Done (l' ++ rest) /\ Forall2 (fun e e' => choose_image fs e = Done e') l l'.
Proof.
  intros Hfs. induction 1 as [|e l He _ (l' & E & H)]; [by exists []|]. destruct (choose_image_returns fs e Hfs He) as (e' & E').
  exists (e' :: l'). cbn [length app choose_images]. rewrite E'. cbn [obind]. rewrite E. cbn [obind]. split; [done|by constructor].
Qed.

(** C39. The image table after [get_modem_images_info].  On a configuration file whose lines are
    comments, blank, or have two paths of fewer than 100 characters, a size and an address, and
    where an image with two different paths has a second path no longer than the first and a
    size from 4 to 2^31 - 1, the function returns, and the table holds the images of the first
    seven lines that name one (a size and an address different from 0), in their order, each
    after the choice between its two paths; the files are any bytes.  On any other file too, if the
    function returns, the number of images is at most 7, the table keeps its 8 entries, every
    image to download has two paths, a size and an address different from 0, and the entry after
    the last one is the empty terminator.  (A line with a longer path, or a first line with a
    single word, is undefined: [lines_undefined].) *)
Theorem get_modem_images_info_table fs lines c :
  (forall n c', get_modem_images_info fs (Some lines) c = Done (n, c') -> image_table n c') /\
  (files_ok fs -> forallb line_fits lines = true ->
   let imgs := take 7 (omap image_of lines) in
   exists c', get_modem_images_info fs (Some lines) c = Done (zlen imgs, c') /\ image_table (zlen imgs) c' /\
     Forall2 (fun e e' => choose_image fs e = Done e') imgs (take (length imgs) (download_image_info c'))).
Proof.
  split; [intros n c'; apply images_info_table|]. intros Hfs Hl imgs.
  set (c0 := {| download_image_info := replicate 8 no_image; modem_images_count := 0; uart_dev := uart_dev c;
                fdl_cp_poweron_delay := fdl_cp_poweron_delay c |}).
  destruct (parse_lines_images lines None None c0 0) as (c1 & E1 & Hz & Ht); [done|done|done|].
  change (take (Z.to_nat (max_item - 0)) (omap image_of lines)) with imgs in *. cbn [take app Z.to_nat] in Ht. rewrite Z.add_0_l in *.
  assert (Hi : zlen imgs <= 7) by (unfold imgs, zlen; rewrite length_take; lia). pose proof (zlen_nonneg imgs).
  assert (Hlen : Z.to_nat (zlen imgs) = length imgs) by (unfold zlen; lia). rewrite Hlen in Ht.
  assert (Hsafe : Forall choice_safe imgs).
  { apply Forall_take, Forall_forall. intros e He. apply list_elem_of_omap in He as (raw & Hr & He).
    apply (image_of_safe raw); [|done]. rewrite forallb_forall in Hl. apply Hl. by apply list_elem_of_In. }
  set (rest := drop (length imgs) (<[length imgs := no_image]> (download_image_info c1))).
  assert (Hsplit : <[length imgs := no_image]> (download_image_info c1) = imgs ++ rest).
  { unfold rest. rewrite <- Ht at 2. rewrite <- (take_insert_ge (download_image_info c1) (length imgs) (length imgs) no_image) by lia.
    by rewrite take_drop. }
  destruct (choose_images_returns fs imgs rest Hfs Hsafe) as (l' & E2 & H2).
  assert (E : get_modem_images_info fs (Some lines) c =
    Done (zlen imgs, {| download_image_info := l' ++ rest; modem_images_count := zlen imgs; uart_dev := uart_dev c1;
                        fdl_cp_poweron_delay := fdl_cp_poweron_delay c1 |})).
  { cbn [get_modem_images_info]. fold c0. rewrite E1. cbn [obind]. rewrite wr_in by lia. cbn [obind]. rewrite Hlen, Hsplit, E2. done. }
  eexists. split; [exact E|]. split; [by eapply images_info_table|]. cbn [download_image_info].
  rewrite take_app_le by (rewrite (Forall2_length _ _ _ H2); lia). rewrite firstn_all2; [done|]. rewrite (Forall2_length _ _ _ H2). lia.
Qed.

(** ** Downloading an image *)

(** A device that takes every packet and answers the next messages with the
    given replies. *)
Definition reply_ok (r : Z * Z * list Z) : Prop := zlen (snd r) = 4.
Definition reply_bytes (r : Z * Z * list Z) : option (list Z) := let '(t1, t0, x) := r in Some (t1 :: t0 :: x).

Definition answers (d : device) (rs : list (Z * Z * list Z)) (ws : list Z) (rest : list (option (list Z))) : Prop :=
  writes d = replicate (length rs) 65536 ++ ws /\ reads d = map reply_bytes rs ++ rest /\ Forall reply_ok rs.

Lemma answers_cons d t1 t0 x rs ws rest need :
  answers d ((t1, t0, x) :: rs) ws rest -> need <= 65536 ->
  spi_reply d 65536 (replicate (length rs) 65536 ++ ws) t1 t0 x (map reply_bytes rs ++ rest) need.
Proof.
  intros (Hw & Hr & Hf) Hn. inversion Hf as [|? ? Hx _]; subst. by split_and!.
Qed.

Lemma answers_next d b t1 t0 x rs ws rest out :
  answers d ((t1, t0, x) :: rs) ws rest ->
  answers (next_device d b (replicate (length rs) 65536 ++ ws) (map reply_bytes rs ++ rest) out) rs ws rest.
Proof. intros (Hw & Hr & Hf). inversion Hf; subst. by split_and!. Qed.

(** The image as it is sent: padded with 0xFF to whole packets. *)
Definition pad_image (size : Z) (content : list Z) : list Z :=
  take (Z.to_nat size) content ++ replicate (Z.to_nat ((- size) mod HS_PACKET_SIZE)) 0xFF.

Fixpoint chunks (k : nat) (l : list Z) : list (list Z) :=
  match k with
  | O => []
  | S k' => take (Z.to_nat HS_PACKET_SIZE) l :: chunks k' (drop (Z.to_nat HS_PACKET_SIZE) l)
  end.

Definition packet_count (size : Z) : Z := Z.quot (size + HS_PACKET_SIZE - 1) HS_PACKET_SIZE.

Lemma packet_count_div size : 0 <= size -> packet_count size = (size + HS_PACKET_SIZE - 1) / HS_PACKET_SIZE.
Proof. intros Hs. unfold packet_count, HS_PACKET_SIZE. apply Z.quot_div_nonneg; lia. Qed.

Lemma packet_count_step size :
  HS_PACKET_SIZE <= size -> packet_count size = 1 + packet_count (size - HS_PACKET_SIZE).
Proof.
  intros Hs. unfold HS_PACKET_SIZE in *. rewrite !packet_count_div by (unfold HS_PACKET_SIZE; lia).
  unfold HS_PACKET_SIZE. Z.div_mod_to_equations. lia.
Qed.

Lemma packet_count_small size : 0 < size < HS_PACKET_SIZE -> packet_count size = 1.
Proof.
  intros Hs. unfold HS_PACKET_SIZE in *. rewrite packet_count_div by lia. unfold HS_PACKET_SIZE.
  Z.div_mod_to_equations. lia.
Qed.

(** A full packet of the image. *)
Lemma pad_image_step size content :
  HS_PACKET_SIZE <= size <= zlen content ->
  take (Z.to_nat HS_PACKET_SIZE) (pad_image size content) = take (Z.to_nat HS_PACKET_SIZE) content /\
  drop (Z.to_nat HS_PACKET_SIZE) (pad_image size content) =
    pad_image (size - HS_PACKET_SIZE) (drop (Z.to_nat HS_PACKET_SIZE) content).
Proof.
  unfold pad_image, zlen. intros Hs. set (h := Z.to_nat HS_PACKET_SIZE).
  assert (Hh : (h <= length (take (Z.to_nat size) content))%nat) by (rewrite length_take; lia).
  rewrite take_app_le, drop_app_le by done. split.
  - rewrite take_take. f_equal. lia.
  - f_equal.
    + rewrite skipn_firstn_comm. f_equal. unfold h, HS_PACKET_SIZE in *. lia.
    + do 2 f_equal. unfold HS_PACKET_SIZE. Z.div_mod_to_equations. lia.
Qed.

Lemma splice_buffer (buf got : list Z) :
  zlen buf = HS_PACKET_SIZE + 128 -> zlen got <= HS_PACKET_SIZE ->
  exists buf', splice buf 8 got = Done buf' /\ zlen buf' = zlen buf /\
    buf' = take 8 buf ++ got ++ drop (8 + length got) buf.
Proof.
  intros Hb Hg. pose proof (zlen_nonneg got). exists (take 8 buf ++ got ++ drop (8 + length got) buf).
  rewrite splice_in by lia. split_and!; try done.
  unfold zlen, HS_PACKET_SIZE in *. rewrite !length_app, length_take, length_drop. lia.
Qed.

(** A last, partial packet: the read bytes, then the padding. *)
Lemma last_packet (buf content : list Z) size :
  zlen buf = HS_PACKET_SIZE + 128 -> 0 < size < HS_PACKET_SIZE -> size <= zlen content ->
  exists b1 b2, splice buf 8 (take (Z.to_nat HS_PACKET_SIZE) content) = Done b1 /\
    splice b1 (8 + size) (replicate (Z.to_nat (HS_PACKET_SIZE - size)) 0xFF) = Done b2 /\
    exists h t, b2 = h ++ pad_image size content ++ t /\ zlen h = 8 /\ zlen t = 120.
Proof.
  intros Hb Hs Hc. pose proof splice_buffer as SB. unfold pad_image in *.
  replace ((- size) mod HS_PACKET_SIZE) with (HS_PACKET_SIZE - size)
    by (unfold HS_PACKET_SIZE in *; Z.div_mod_to_equations; lia).
  revert Hb Hs SB. generalize HS_PACKET_SIZE. intros H Hb Hs SB.
  set (got := take (Z.to_nat H) content).
  assert (Hg : zlen got <= H) by (unfold got, zlen; rewrite length_take; lia).
  assert (Hg2 : size <= zlen got) by (unfold got, zlen in *; rewrite length_take; lia).
  destruct (SB buf got Hb Hg) as (b1 & -> & Hz1 & Hb1). exists b1.
  rewrite splice_in by (rewrite ?zlen_replicate; lia). eexists. split; [reflexivity|]. split; [reflexivity|].
  exists (take 8 buf), (drop (8 + Z.to_nat H) b1).
  assert (Ht8 : length (take 8 buf) = 8%nat) by (unfold zlen in Hb; rewrite length_take; lia).
  assert (Htk : take (Z.to_nat (8 + size)) b1 = take 8 buf ++ take (Z.to_nat size) content).
  { rewrite Hb1, take_app, Ht8. rewrite take_ge by lia. f_equal.
    rewrite take_app_le by (unfold zlen in Hg2; lia). unfold got. rewrite take_take. f_equal. lia. }
  split_and!.
  - rewrite length_replicate, Htk, <- !app_assoc. do 4 f_equal. lia.
  - unfold zlen. by rewrite Ht8.
  - unfold zlen in *. rewrite length_drop. lia.
Qed.

Lemma zlen_pad_last size content :
  0 < size < HS_PACKET_SIZE -> size <= zlen content -> zlen (pad_image size content) = HS_PACKET_SIZE.
Proof.
  intros Hs Hc. unfold pad_image. rewrite zlen_app, zlen_replicate, zlen_take by lia.
  replace ((- size) mod HS_PACKET_SIZE) with (HS_PACKET_SIZE - size); [lia|].
  unfold HS_PACKET_SIZE in *. Z.div_mod_to_equations. lia.
Qed.

Lemma HS_val : HS_PACKET_SIZE = 32768.
Proof. reflexivity. Qed.

#[local] Opaque HS_PACKET_SIZE.

(** One packet sent from the static buffer. *)
Lemma send_chunk d h data tail t1 t0 x rs ws more :
  zlen h = 8 -> zlen data = HS_PACKET_SIZE -> answers d ((t1, t0, x) :: rs) ws more ->
  exists ret d', send_data_message d (h ++ data ++ tail) HS_PACKET_SIZE 1 =
      Done (ret, spi_header BSL_CMD_MIDST_DATA (zlen data) data ++ data ++ tail, d') /\
    answers d' rs ws more /\ sent d' = sent d ++ spi_data_packet data.
Proof.
  intros Hh Hd Ha. pose proof HS_val.
  pose proof (answers_cons d t1 t0 x rs ws more (zlen data + 8) Ha ltac:(lia)) as Hr.
  pose proof (spi_data d h data tail _ _ _ _ _ _ Hh ltac:(lia) Hr) as Hx. rewrite Hd in Hx at 1.
  rewrite Hx. do 2 eexists. split; [reflexivity|]. split; [by eapply answers_next|done].
Qed.

Lemma image_loop_ok k : forall fuel d rest buf i count size rs rs' ws more,
  packet_count size = Z.of_nat k -> 0 <= size <= zlen rest -> i + Z.of_nat k = count ->
  count <= HS_PACKET_SIZE + 1 -> zlen buf = HS_PACKET_SIZE + 128 ->
  answers d (rs ++ rs') ws more -> length rs = k -> (k < fuel)%nat ->
  exists d' buf', image_loop fuel d rest buf i count size = Done (d', buf') /\
    answers d' rs' ws more /\ zlen buf' = HS_PACKET_SIZE + 128 /\
    sent d' = sent d ++ concat (map spi_data_packet (chunks k (pad_image size rest))).
Proof.
  pose proof HS_val as HS.
  induction k as [|k IH]; intros fuel d rest buf i count size rs rs' ws more Hk Hs Hi Hc Hb Ha Hl Hf.
  { destruct fuel as [|fuel]; [lia|]. cbn [image_loop]. guard_false (i <? count).
    destruct rs; [|discriminate Hl]. exists d, buf. split_and!; try done. cbn. by rewrite app_nil_r. }
  destruct fuel as [|fuel]; [lia|]. destruct rs as [|[[t1 t0] x] rs]; [discriminate Hl|].
  cbn [image_loop]. guard_true (i <? count). cbn [app] in Ha.
  destruct (Z.ltb_spec size HS_PACKET_SIZE) as [Hlt|Hge].
  - assert (Hpos : 0 < size).
    { destruct (decide (size = 0)) as [->|]; [|lia]. rewrite packet_count_div in Hk by lia.
      rewrite HS in Hk. change ((0 + 32768 - 1) / 32768) with 0 in Hk. lia. }
    rewrite packet_count_small in Hk by lia. assert (k = 0%nat) as -> by lia.
    destruct (last_packet buf rest size Hb ltac:(lia) ltac:(lia)) as (b1 & b2 & -> & Hb2 & h & t & -> & Hh & Ht).
    cbn [obind]. rewrite Hb2. cbn [obind]. pose proof (zlen_pad_last size rest ltac:(lia) ltac:(lia)) as Hzp.
    destruct (send_chunk d h (pad_image size rest) t t1 t0 x (rs ++ rs') ws more Hh Hzp Ha) as (ret & d' & -> & Ha' & Hsent).
    cbn [obind]. destruct fuel as [|fuel]; [lia|]. cbn [image_loop]. guard_false (HS_PACKET_SIZE + 1 <? count).
    destruct rs; [|discriminate Hl]. do 2 eexists. split; [reflexivity|]. split_and!.
    + done.
    + rewrite !zlen_app, zlen_spi_header. lia.
    + rewrite Hsent. cbn [chunks map concat]. rewrite app_nil_r. do 2 f_equal. symmetry. apply take_ge.
      unfold zlen in Hzp. lia.
  - destruct (splice_buffer buf (take (Z.to_nat HS_PACKET_SIZE) rest) Hb) as (b1 & -> & Hz1 & ->).
    { unfold zlen. rewrite length_take. lia. }
    assert (Hzg : zlen (take (Z.to_nat HS_PACKET_SIZE) rest) = HS_PACKET_SIZE) by (apply zlen_take; lia).
    cbn [obind]. assert (Hh : zlen (take 8 buf) = 8) by (unfold zlen in *; rewrite length_take; lia).
    destruct (send_chunk d (take 8 buf) (take (Z.to_nat HS_PACKET_SIZE) rest)
      (drop (8 + length (take (Z.to_nat HS_PACKET_SIZE) rest)) buf) t1 t0 x (rs ++ rs') ws more Hh Hzg Ha)
      as (ret & d' & -> & Ha' & Hsent).
    cbn [obind]. rewrite packet_count_step in Hk by done.
    destruct (pad_image_step size rest) as [Hp1 Hp2]; [lia|].
    set (b1 := spi_header _ _ _ ++ _). destruct (IH fuel d' (drop (Z.to_nat HS_PACKET_SIZE) rest) b1 (i + 1) count (size - HS_PACKET_SIZE) rs rs' ws more)
      as (d2 & b2 & -> & Ha2 & Hz2 & Hs2);
      [lia|unfold zlen in *; rewrite length_drop; lia|lia|lia| |exact Ha'|by injection Hl|lia|].
    { unfold b1. rewrite !zlen_app, zlen_spi_header. rewrite !zlen_app in Hz1. lia. }
    do 2 eexists. split; [reflexivity|]. split_and!; try done.
    rewrite Hs2, Hsent, <- app_assoc. cbn [chunks map concat]. by rewrite Hp1, Hp2.
Qed.

(** C20. Download of an image over the SPI, on a channel that takes every packet
    and answers every message: when the file holds at least [image_size] bytes
    (below 1 GiB), the bytes sent are the start message with the padded size
    and the address, then the image in packets of 32 KiB, the last one filled
    up with 0xFF, each with its checksums, then the end message.  The result
    is decided by the reply to the end message alone: the replies to the data
    messages, the middle ones of [rs], are arbitrary, so a packet the modem
    refuses does not stop the download. *)
Theorem download_image_sends fs d buf info path content s0 s1 sx rs e0 e1 ex ws more :
  image_path info = Some path -> fs path = Some content ->
  0 <= image_size info <= zlen content -> image_size info < 2 ^ 30 -> u32_ok (address info) ->
  zlen buf = HS_PACKET_SIZE + 128 ->
  answers d ((s1, s0, sx) :: rs ++ [(e1, e0, ex)]) ws more ->
  Z.of_nat (length rs) = packet_count (image_size info) -> ack_or_zero (reply_type s1 s0) = true ->
  exists d' buf', download_image fs d buf info =
      Done (if ack_or_zero (reply_type e1 e0) then DL_SUCCESS else DL_FAILURE, d', buf') /\
    sent d' = sent d ++
      spi_start_packet (packet_count (image_size info) * HS_PACKET_SIZE) (address info) ++
      concat (map spi_data_packet (chunks (length rs) (pad_image (image_size info) content))) ++
      spi_end_packet.
Proof.
  intros Hp Hf Hs Hlt Had Hb Ha Hlen Hack. pose proof HS_val as HS. unfold download_image. rewrite Hp, Hf.
  assert (Hs32 : s32 (image_size info) = image_size info).
  { unfold s32. rewrite u32_small by (unfold u32_ok; lia). by guard_true (image_size info <? 2 ^ 31). }
  rewrite Hs32. guard_false (2 ^ 31 <=? image_size info + HS_PACKET_SIZE - 1).
  fold (packet_count (image_size info)). rewrite <- Hlen.
  assert (Hcnt : Z.of_nat (length rs) <= 32768).
  { rewrite Hlen, packet_count_div, HS by lia. Z.div_mod_to_equations. lia. }
  assert (Hu : u32_ok (Z.of_nat (length rs) * HS_PACKET_SIZE)) by (unfold u32_ok; lia).
  rewrite (u32_small (Z.of_nat (length rs) * HS_PACKET_SIZE)) by done.
  pose proof (answers_cons d s1 s0 sx _ ws more 16 Ha ltac:(lia)) as Hr.
  rewrite (spi_start d _ _ _ _ _ _ _ _ Hu Had Hr). rewrite Hack. cbn [obind].
  change (negb (0 =? DL_SUCCESS)) with false. cbv iota.
  apply (answers_next d (send_buffer d) s1 s0 sx _ ws more
    (spi_start_packet (Z.of_nat (length rs) * HS_PACKET_SIZE) (address info))) in Ha.
  set (d1 := next_device _ _ _ _ _) in Ha |- *.
  destruct (image_loop_ok (length rs) (S (Z.to_nat (Z.of_nat (length rs)))) d1 content buf 0
    (Z.of_nat (length rs)) (image_size info) rs [(e1, e0, ex)] ws more)
    as (d2 & b2 & -> & Ha2 & Hz2 & Hs2); [lia|lia|lia|lia|done|done|done|lia|].
  cbn [obind]. pose proof (answers_cons d2 e1 e0 ex [] ws more 12 Ha2 ltac:(lia)) as Hre.
  rewrite (spi_end d2 _ _ _ _ _ _ Hre). cbn [obind]. do 2 eexists. split; [reflexivity|].
  cbn [next_device sent]. rewrite Hs2. unfold d1. cbn [next_device sent]. by rewrite <- !app_assoc.
Qed.

(** ** Downloading the loader *)

(** A UART that takes every frame and answers the next messages. *)
Definition uframe (r : Z * Z * list Z) : option (list Z) :=
  let '(t1, t0, x) := r in Some (0x7E :: t1 :: t0 :: x ++ [0x7E]).
Definition uframe_ok (r : Z * Z * list Z) : Prop :=
  let '(t1, t0, x) := r in
  zlen x = 4 /\ Forall (fun b => plain b = true) (t1 :: t0 :: x) /\ ack_or_zero (reply_type t1 t0) = true.

Definition acks (d : device) (n : nat) : Prop :=
  exists rs ws rest, (n <= length rs)%nat /\ writes d = replicate (length rs) 65536 ++ ws /\
    reads d = map uframe rs ++ rest /\ Forall uframe_ok rs /\ zlen (send_buffer d) = 4000.

(** The next message is acknowledged. *)
Lemma acks_reply d n :
  acks d (S n) ->
  exists w ws t1 t0 x rs, uart_reply d w ws t1 t0 x rs /\ ack_or_zero (reply_type t1 t0) = true /\
    forall b out, zlen b = 4000 -> acks (next_device d b ws rs out) n.
Proof.
  intros (rs & ws & rest & Hl & Hw & Hr & Hf & Hs).
  destruct rs as [|[[t1 t0] x] rs]; [cbn in Hl; lia|].
  apply Forall_cons in Hf as [Hr0 Hf']. unfold uframe_ok in Hr0. destruct Hr0 as (Hx & Hp & Ha).
  exists 65536, (replicate (length rs) 65536 ++ ws), t1, t0, x, (map uframe rs ++ rest). split_and!; try done; try lia.
  intros b out Hb. exists rs, ws, rest. split_and!; try done. cbn in Hl. lia.
Qed.

Fixpoint fdl_frames (n : nat) (l : list Z) : list Z :=
  match n with
  | O => []
  | S n' => translate (uart_packet BSL_CMD_MIDST_DATA (take (Z.to_nat FDL_PACKET_SIZE) l))
            ++ fdl_frames n' (drop (Z.to_nat FDL_PACKET_SIZE) l)
  end.

Lemma fdl_loop_ok n : forall k fuel d buffer,
  acks d (n + k) -> FDL_PACKET_SIZE * Z.of_nat n <= zlen buffer -> (n < fuel)%nat ->
  exists d', fdl_loop fuel d buffer (FDL_PACKET_SIZE * Z.of_nat n) = Done (0, d') /\
    acks d' k /\ sent d' = sent d ++ fdl_frames n buffer.
Proof.
  induction n as [|n IH]; intros k fuel d buffer Ha Hb Hf.
  { destruct fuel; [lia|]. exists d. split_and!; try done. cbn. by rewrite app_nil_r. }
  destruct fuel as [|fuel]; [lia|]. unfold FDL_PACKET_SIZE in *.
  set (data := take (Z.to_nat 256) buffer).
  assert (Hz : zlen data = 256) by (apply zlen_take; lia).
  assert (Hsplit : buffer = data ++ drop (Z.to_nat 256) buffer) by (symmetry; apply take_drop).
  destruct (acks_reply d (n + k) Ha) as (w & ws & t1 & t0 & x & rs & Hr & Hack & Hnext).
  destruct (uart_data d data (drop (Z.to_nat 256) buffer) w ws t1 t0 x rs) as (b & Hzb & Hs); [lia|done|].
  rewrite Hack, <- Hsplit, Hz in Hs.
  destruct (IH k fuel (next_device d b ws rs (translate (uart_packet BSL_CMD_MIDST_DATA data)))
              (drop (Z.to_nat 256) buffer)) as (d' & Hrun & Ha' & Hsent).
  { by apply Hnext. } { unfold zlen in *. rewrite length_drop. lia. } { lia. }
  exists d'. cbn [fdl_loop]. guard_false (256 * Z.of_nat (S n) =? 0). cbn [negb]. unfold FDL_PACKET_SIZE.
  rewrite Hs. cbn [obind]. change (0 =? DL_FAILURE) with false. cbv iota.
  replace (256 * Z.of_nat (S n) - 256) with (256 * Z.of_nat n) by lia.
  split_and!; [done|done|]. rewrite Hsent. cbn [next_device sent fdl_frames]. unfold FDL_PACKET_SIZE. fold data.
  by rewrite <- app_assoc.
Qed.

(** Everything the loader download sends. *)
Definition fdl_wire (content : list Z) (size addr : Z) : list Z :=
  translate (uart_packet BSL_CMD_START_DATA (be32 addr ++ be32 size)) ++
  fdl_frames (Z.to_nat (size / FDL_PACKET_SIZE)) (take (Z.to_nat size) content) ++
  translate (uart_packet BSL_CMD_END_DATA []) ++
  translate (uart_packet BSL_CMD_EXEC_DATA (be32 addr)).

Lemma fdl_frames_app n : forall l k,
  FDL_PACKET_SIZE * Z.of_nat n <= zlen l -> fdl_frames n (l ++ k) = fdl_frames n l.
Proof.
  induction n as [|n IH]; intros l k Hl; [done|]. cbn [fdl_frames]. unfold FDL_PACKET_SIZE, zlen in *.
  rewrite take_app_le, drop_app_le, IH by (rewrite ?length_drop; lia). done.
Qed.

(** Download of the first-stage loader: for a loader whose size is a
    multiple of 256 and a UART that acknowledges every message, the download
    succeeds and the wire carries the start message, the loader in frames of
    256 bytes, the end message and the execute message, in this order. *)
Theorem download_fdl_sends fs garbage c d info path content n :
  download_image_info c !! 0%nat = Some info -> image_path info = Some path -> fs path = Some content ->
  image_size info = FDL_PACKET_SIZE * Z.of_nat n -> image_size info < 2 ^ 31 ->
  image_size info <= zlen content -> u32_ok (address info) -> acks d (n + 3) ->
  exists d', download_fdl fs garbage c d = Done (0, d') /\
    sent d' = sent d ++ fdl_wire content (image_size info) (address info).
Proof.
  intros Hi Hp Hf Hn Hlt Hc Had Ha. unfold download_fdl. rewrite (rd_Some _ 0 info) by (done || lia).
  cbn [obind]. unfold load_fdl2memory. rewrite Hp, Hf. unfold FDL_PACKET_SIZE in *.
  assert (Hs32 : s32 (image_size info) = image_size info).
  { unfold s32. rewrite u32_small by (unfold u32_ok; lia). by guard_true (image_size info <? 2 ^ 31). }
  rewrite Hs32. guard_false (image_size info <? 0). guard_false (zlen content <? image_size info).
  cbn [obind]. set (img := take _ content). set (buffer := img ++ _).
  assert (Hzi : zlen img = image_size info) by (apply zlen_take; lia).
  replace (n + 3)%nat with (S (n + 2)) in Ha by lia.
  destruct (acks_reply _ _ Ha) as (w & ws & t1 & t0 & x & rs & Hr & Hack & Hnext).
  destruct (uart_start d (image_size info) (address info) w ws t1 t0 x rs) as (b & Hb & ->);
    [unfold u32_ok; lia|done|done|]. rewrite Hack. cbn [obind]. change (0 =? DL_FAILURE) with false. cbv iota.
  specialize (Hnext b (translate (uart_packet BSL_CMD_START_DATA (be32 (address info) ++ be32 (image_size info)))) Hb).
  assert (Hsz : s32 (image_size info) = FDL_PACKET_SIZE * Z.of_nat n) by (rewrite Hs32; exact Hn).
  rewrite Hsz.
  destruct (fdl_loop_ok n 2 (S (length buffer)) _ buffer Hnext) as (d2 & -> & Ha2 & Hs2).
  { unfold buffer, FDL_PACKET_SIZE. rewrite zlen_app. pose proof (zlen_nonneg (take 4 (garbage ++ replicate 4 0))). lia. }
  { unfold buffer. rewrite length_app. unfold zlen in Hzi. lia. }
  cbn [obind]. change (0 =? DL_FAILURE) with false. cbv iota.
  destruct (acks_reply _ _ Ha2) as (w2 & ws2 & u1 & u0 & y & rs2 & Hr2 & Hack2 & Hnext2).
  destruct (uart_end d2 w2 ws2 u1 u0 y rs2 Hr2) as (b2 & Hb2 & ->). rewrite Hack2. cbn [obind].
  change (0 =? DL_FAILURE) with false. cbv iota. specialize (Hnext2 b2 (translate (uart_packet BSL_CMD_END_DATA [])) Hb2).
  destruct (acks_reply _ _ Hnext2) as (w3 & ws3 & v1 & v0 & z & rs3 & Hr3 & Hack3 & _).
  destruct (uart_exec _ (address info) w3 ws3 v1 v0 z rs3 Had Hr3) as (b3 & Hb3 & ->). rewrite Hack3.
  eexists. split; [reflexivity|]. cbn [next_device sent]. rewrite Hs2. cbn [next_device sent].
  unfold fdl_wire. rewrite <- !app_assoc. do 3 f_equal.
  unfold buffer. rewrite fdl_frames_app by (unfold FDL_PACKET_SIZE; lia).
  fold img. f_equal. unfold FDL_PACKET_SIZE. rewrite Hn, Z.mul_comm, Z.div_mul by lia. by rewrite Nat2Z.id.
Qed.

(** A loop that has passed the end of the buffer reads outside it. *)
Lemma fdl_loop_overrun n : forall fuel d buffer size,
  acks d n -> zlen buffer < FDL_PACKET_SIZE * Z.of_nat n -> (length buffer < fuel)%nat ->
  size mod FDL_PACKET_SIZE <> 0 -> fdl_loop fuel d buffer size = Undef.
Proof.
  unfold FDL_PACKET_SIZE.
  induction n as [|n IH]; intros fuel d buffer size Ha Hz Hf Hm; [pose proof (zlen_nonneg buffer); lia|].
  destruct fuel as [|fuel]; [lia|]. cbn [fdl_loop].
  assert (Hne : size <> 0) by (by intros ->). guard_false (size =? 0). cbn [negb]. unfold FDL_PACKET_SIZE.
  destruct (decide (zlen buffer < 256)) as [Hlt|Hge].
  { unfold send_data_message. change (0 =? 0) with true. cbv iota. unfold slice.
    by guard_false ((0 <=? 0) && (0 <=? 256) && (0 + 256 <=? zlen buffer)). }
  set (data := take (Z.to_nat 256) buffer).
  assert (Hzd : zlen data = 256) by (apply zlen_take; lia).
  assert (Hsplit : buffer = data ++ drop (Z.to_nat 256) buffer) by (symmetry; apply take_drop).
  destruct (acks_reply d n Ha) as (w & ws & t1 & t0 & x & rs & Hr & Hack & Hnext).
  destruct (uart_data d data (drop (Z.to_nat 256) buffer) w ws t1 t0 x rs) as (b & Hzb & Hs); [lia|done|].
  rewrite Hack, <- Hsplit, Hzd in Hs. rewrite Hs. cbn [obind]. change (0 =? DL_FAILURE) with false. cbv iota.
  apply IH.
  - by apply Hnext.
  - unfold zlen in *. rewrite length_drop. lia.
  - unfold zlen in *. rewrite length_drop. lia.
  - replace (size - 256) with (size + -1 * 256) by lia. by rewrite Z.mod_add by lia.
Qed.

(** A loader whose size is not a multiple of 256 is read past its end: the
    loop counts down by whole packets and stops only at exactly 0, so on a UART
    that keeps acknowledging the download runs out of the buffer. *)
Theorem download_fdl_overruns fs garbage c d info path content n :
  download_image_info c !! 0%nat = Some info -> image_path info = Some path -> fs path = Some content ->
  0 < image_size info < 2 ^ 31 -> image_size info mod FDL_PACKET_SIZE <> 0 ->
  image_size info <= zlen content -> u32_ok (address info) ->
  acks d (S n) -> image_size info + 4 < FDL_PACKET_SIZE * Z.of_nat n ->
  download_fdl fs garbage c d = Undef.
Proof.
  intros Hi Hp Hf Hlt Hm Hc Had Ha Hn. unfold download_fdl. rewrite (rd_Some _ 0 info) by (done || lia).
  cbn [obind]. unfold load_fdl2memory. rewrite Hp, Hf.
  assert (Hs32 : s32 (image_size info) = image_size info).
  { unfold s32. rewrite u32_small by (unfold u32_ok; lia). by guard_true (image_size info <? 2 ^ 31). }
  rewrite Hs32. guard_false (image_size info <? 0). guard_false (zlen content <? image_size info). cbn [obind].
  destruct (acks_reply _ _ Ha) as (w & ws & t1 & t0 & x & rs & Hr & Hack & Hnext).
  destruct (uart_start d (image_size info) (address info) w ws t1 t0 x rs) as (b & Hb & ->);
    [unfold u32_ok; lia|done|done|]. rewrite Hack. cbn [obind]. change (0 =? DL_FAILURE) with false. cbv iota.
  rewrite Hs32, (fdl_loop_overrun n); [done|by apply Hnext| |lia|done].
  rewrite zlen_app, zlen_take by lia.
  assert (zlen (take 4 (garbage ++ replicate 4 0)) <= 4) by (unfold zlen; rewrite length_take; lia). lia.
Qed.

(** ** Concrete instances *)
Definition ex_info : image_info :=
  {| image_path := Some "/a"; image_path_bak := Some "/b"; image_size := 8; address := 0x80400000 |}.

(** "/a" is damaged, "/b" verifies. *)
Definition ex_files : files := fun p =>
  if String.eqb p "/a" then Some [1; 2; 3; 4; 0; 0; 0; 0; 5]
  else if String.eqb p "/b" then Some [1; 2; 3; 4; 0xFB; 0xF9; 0; 0] else None.

Lemma ex_files_ok : files_ok ex_files.
Proof.
  intros p c. unfold ex_files. destruct (String.eqb p "/a"); [|destruct (String.eqb p "/b"); [|done]];
    intros [= <-]; repeat constructor; lia.
Qed.

Lemma choose_image_verifies_witness :
  exists q, choose_image ex_files ex_info =
      Done {| image_path := Some q; image_path_bak := Some "/b"; image_size := image_size ex_info;
              address := address ex_info |} /\
    verifies ex_files q (image_size ex_info) =
      verifies ex_files "/a" (image_size ex_info) || verifies ex_files "/b" (image_size ex_info) /\
    (q <> "/a" -> verifies ex_files "/a" (image_size ex_info) = false /\
       verifies ex_files "/b" (image_size ex_info) = true /\ q = "/b").
Proof.
  apply (choose_image_verifies ex_files ex_info "/a" "/b" ex_files_ok); [cbn; lia|done|done|cbn; lia].
Defined.

Example ex_choice : choose_image ex_files ex_info =
  Done {| image_path := Some "/b"; image_path_bak := Some "/b"; image_size := 8; address := 0x80400000 |}.
Proof. vm_compute. reflexivity. Qed.

Definition ex_boot : boot_config :=
  {| download_image_info := [ex_info]; modem_images_count := 1; uart_dev := UART_DEVICE_NAME;
     fdl_cp_poweron_delay := FDL_CP_PWRON_DLY |}.

Definition ex_lines : list string := ["# images
"; "/a /b 0x8 0x80400000
"; "/dev/ttyS3 x 0x5 0
"].

Lemma get_modem_images_info_table_witness :
  take 7 (omap image_of ex_lines) = [ex_info] /\
  exists c', get_modem_images_info ex_files (Some ex_lines) ex_boot = Done (1, c') /\ image_table 1 c' /\
    Forall2 (fun e e' => choose_image ex_files e = Done e') [ex_info] (take 1 (download_image_info c')).
Proof.
  split; [vm_compute; reflexivity|].
  apply (proj2 (get_modem_images_info_table ex_files ex_lines ex_boot) ex_files_ok). vm_compute. reflexivity.
Defined.

(** A path of 100 characters does not fit its array; a first line of one word leaves the second
    path uninitialised. *)
Example lines_undefined :
  get_modem_images_info ex_files (Some ["/a" ++ String.concat "" (replicate 98 "x") ++ " /b 0x8 0x80400000
"]%string) ex_boot = Undef /\
  get_modem_images_info ex_files (Some ["/a
"]) ex_boot = Undef.
Proof. vm_compute. done. Qed.

Definition ex_ack : Z * Z * list Z := (0, 0x80, [0; 0; 1; 2]).
Definition ex_nack : Z * Z * list Z := (0, 0x84, [0; 0; 1; 2]).
Definition ex_spi : device :=
  {| send_buffer := []; writes := [65536; 65536; 65536];
     reads := map reply_bytes [ex_ack; ex_nack; ex_ack]; sent := [] |}.
Definition ex_packet_buffer : list Z := replicate (Z.to_nat (HS_PACKET_SIZE + 128)) 0.

Lemma download_image_sends_witness :
  exists d' buf', download_image ex_files ex_spi ex_packet_buffer ex_info =
      Done (if ack_or_zero (reply_type 0 0x80) then DL_SUCCESS else DL_FAILURE, d', buf') /\
    sent d' = sent ex_spi ++
      spi_start_packet (packet_count (image_size ex_info) * HS_PACKET_SIZE) (address ex_info) ++
      concat (map spi_data_packet (chunks (length [ex_nack]) (pad_image (image_size ex_info) [1; 2; 3; 4; 0; 0; 0; 0; 5]))) ++
      spi_end_packet.
Proof.
  apply (download_image_sends ex_files ex_spi ex_packet_buffer ex_info "/a" [1; 2; 3; 4; 0; 0; 0; 0; 5]
           0x80 0 [0; 0; 1; 2] [ex_nack] 0x80 0 [0; 0; 1; 2] [] []).
  - reflexivity.
  - reflexivity.
  - vm_compute. split; discriminate.
  - vm_compute. reflexivity.
  - split; vm_compute; congruence.
  - unfold ex_packet_buffer. rewrite zlen_replicate. pose proof HS_val. lia.
  - split; [reflexivity|]. split; [reflexivity|]. repeat constructor.
  - vm_compute. reflexivity.
  - reflexivity.
Defined.

Definition ex_fdl_content : list Z := replicate 256 0x7D.
Definition ex_fdl_files : files := fun p => if String.eqb p "/fdl" then Some ex_fdl_content else None.
Definition ex_fdl_info (size : Z) : image_info :=
  {| image_path := Some "/fdl"; image_path_bak := Some "/fdl"; image_size := size; address := 0x20000000 |}.
Definition ex_fdl_boot (size : Z) : boot_config :=
  {| download_image_info := [ex_fdl_info size]; modem_images_count := 1; uart_dev := UART_DEVICE_NAME;
     fdl_cp_poweron_delay := FDL_CP_PWRON_DLY |}.
Definition ex_fdl_uart : device :=
  {| send_buffer := replicate 4000 0; writes := [65536; 65536; 65536; 65536];
     reads := map uframe [ex_ack; ex_ack; ex_ack; ex_ack]; sent := [] |}.

Lemma ex_acks n : (n <= 4)%nat -> acks ex_fdl_uart n.
Proof.
  intros Hn. exists [ex_ack; ex_ack; ex_ack; ex_ack], [], []. split_and!; try done.
  repeat constructor.
Qed.

Lemma download_fdl_sends_witness :
  exists d', download_fdl ex_fdl_files [] (ex_fdl_boot 256) ex_fdl_uart = Done (0, d') /\
    sent d' = sent ex_fdl_uart ++ fdl_wire ex_fdl_content (image_size (ex_fdl_info 256)) (address (ex_fdl_info 256)).
Proof.
  apply (download_fdl_sends ex_fdl_files [] (ex_fdl_boot 256) ex_fdl_uart (ex_fdl_info 256) "/fdl" ex_fdl_content 1);
    [reflexivity|reflexivity|reflexivity|reflexivity|reflexivity|vm_compute; discriminate
    |split; vm_compute; congruence|apply ex_acks; lia].
Defined.

Lemma download_fdl_overruns_witness :
  download_fdl ex_fdl_files [] (ex_fdl_boot 100) ex_fdl_uart = Undef.
Proof.
  apply (download_fdl_overruns ex_fdl_files [] (ex_fdl_boot 100) ex_fdl_uart (ex_fdl_info 100) "/fdl" ex_fdl_content 1);
    [reflexivity|reflexivity|reflexivity|cbn; lia|vm_compute; discriminate|vm_compute; discriminate
    |split; vm_compute; congruence|apply ex_acks; lia|reflexivity].
Defined.
