(* ===== verification/ModemMain.v ===== *)
(** * apps/modem_control/main.c: the modem state machine

    The manager polls a state file, follows the modem through its states,
    tells the connected clients and the monitor process, and boots the modem
    when needed.  Its environment at one poll is the record [env]: the text of
    the state file, the reset property, the process id of the monitor, what the
    modem dumps over the UART when it asserts, and which clients accept a
    message.  What it does is the list of [effect]s. *)

From S2P Require Import Prelude CString.

Inductive MODEM_STA_E :=
| MODEM_STA_SHUTDOWN
| MODEM_STA_BOOT
| MODEM_STA_INIT
| MODEM_STA_ALIVE
| MODEM_STA_ASSERT
| MODEM_STA_BOOTCOMP.

#[export] Instance modem_sta_eq_dec : EqDecision MODEM_STA_E.
Proof. solve_decision. Defined.

Definition MAX_CLIENT_NUM : nat := 10.

Inductive signal := SIGUSR1 | SIGUSR2.

Inductive effect :=
| Write (fd : Z) (message : list Z)
| Close (fd : Z)
| Kill (pid : Z) (sig : signal)
| Boot.

Record manager := {
  modem_state : MODEM_STA_E;
  flash_less_flag : Z;
  client_fd : list Z
}.

Record env := {
  state_text : option string;
  reset_property : string;
  monitor_pid : Z;
  uart_dump : option (list (list Z));
  write_ok : Z -> bool
}.

Definition set_modem_state (m : manager) (s : MODEM_STA_E) : manager :=
  {| modem_state := s; flash_less_flag := flash_less_flag m; client_fd := client_fd m |}.

(** [!strncmp(prop, "1", 2)]. *)
Definition reset_modem_if_assert (e : env) : bool := String.eqb (reset_property e) "1".

(** [!strncmp(charge_prop, "charge", 6)]. *)
Definition poweron_by_charger (bootmode : string) : bool := String.prefix "charge" bootmode.

(** The first process whose command line is [name]; [procs] lists them in the
    order of [readdir]. *)
Fixpoint get_task_pid (procs : list (Z * string)) (name : string) : Z :=
  match procs with
  | [] => -1
  | (pid, cmdline) :: procs' => if String.eqb name cmdline then pid else get_task_pid procs' name
  end.

(** ** Clients *)

(** The accept loop stores a new connection in the first free slot; with no free
    slot the descriptor is dropped. *)
Fixpoint accept_client (slots : list Z) (n : Z) : list Z :=
  match slots with
  | [] => []
  | s :: slots' => if s =? -1 then n :: slots' else s :: accept_client slots' n
  end.

(** [write] of an empty message returns 0, which counts as a failure. *)
Fixpoint broadcast_modem_state (e : env) (slots : list Z) (message : list Z) : list Z * list effect :=
  match slots with
  | [] => ([], [])
  | fd :: slots' =>
      let '(rest, effs) := broadcast_modem_state e slots' message in
      if 0 <? fd then
        if write_ok e fd && (0 <? zlen message) then (fd :: rest, Write fd message :: effs)
        else (-1 :: rest, Write fd message :: Close fd :: effs)
      else (fd :: rest, effs)
  end.

Definition broadcast (e : env) (m : manager) (message : list Z) : manager * list effect :=
  let '(slots, effs) := broadcast_modem_state e (client_fd m) message in
  ({| modem_state := modem_state m; flash_less_flag := flash_less_flag m; client_fd := slots |}, effs).

(** ** The dump of an assert *)

(** The read loop: at most 100001 rounds, [size] bytes. *)
Fixpoint assert_loop (rounds : list (list Z)) (size : Z) (got : list Z) : list Z :=
  match rounds with
  | [] => got
  | bs :: rounds' =>
      let r := take (Z.to_nat size) bs in
      let size := size - zlen r in
      if 0 <? size then assert_loop rounds' size (got ++ r) else got ++ r
  end.

Definition get_modem_assert_information (e : env) (size : Z) : list Z :=
  match uart_dump e with
  | None => []
  | Some rounds => assert_loop (take (Z.to_nat 100001) rounds) size []
  end.

(** The bytes up to the first NUL: what [strlen] counts. *)
Fixpoint c_string (l : list Z) : list Z :=
  match l with
  | [] => []
  | b :: l' => if b =? 0 then [] else b :: c_string l'
  end.

(** ** The state machine *)

(** The message of the state file: undefined when no number is found. *)
Definition translate_modem_state_message (message : string) : outcome Z :=
  match scan_d message with
  | Some v => Done v
  | None => Undef
  end.

(** The flash-less bookkeeping: the new flag and [first_alive]. *)
Definition flash_less_step (flag alive_status : Z) : Z * bool :=
  if flag =? 0xff then
    if alive_status =? 1 then (0, true) else (1, false)
  else if flag =? 1 then
    if alive_status =? 1 then (2, true) else (flag, false)
  else (flag, false).

Definition kill_monitor (e : env) (sig : signal) (wanted : bool) : list effect :=
  if (0 <? monitor_pid e) && wanted then [Kill (monitor_pid e) sig] else [].

(** The [switch] on the current state. *)
Definition state_step (e : env) (m : manager) (alive_status reset_status : Z) (first_alive : bool)
  : manager * list effect :=
  match modem_state m with
  | MODEM_STA_INIT =>
      if reset_status =? 0 then
        if alive_status =? 1 then
          (set_modem_state m MODEM_STA_ALIVE, kill_monitor e SIGUSR2 (negb first_alive))
        else (set_modem_state m MODEM_STA_BOOT, [])
      else (m, [])
  | MODEM_STA_ASSERT =>
      if reset_status =? 1 then
        (set_modem_state m MODEM_STA_BOOT, kill_monitor e SIGUSR1 true)
      else (m, [])
  | MODEM_STA_BOOTCOMP =>
      if (reset_status =? 0) && (alive_status =? 1) then
        let '(m, effs) := broadcast e (set_modem_state m MODEM_STA_ALIVE) (bytes_of "Modem Alive") in
        (m, effs ++ kill_monitor e SIGUSR2 (negb first_alive))
      else (m, [])
  | MODEM_STA_ALIVE =>
      let '(m, effs) :=
        if alive_status =? 0 then
          let dump := get_modem_assert_information e 256 in
          let message := if 0 <? zlen dump then c_string dump
                         else bytes_of "Modem Assert" ++ [10] in
          broadcast e (set_modem_state m MODEM_STA_ASSERT) message
        else (m, []) in
      if (reset_status =? 1) || reset_modem_if_assert e then
        (set_modem_state m MODEM_STA_BOOT, effs ++ kill_monitor e SIGUSR1 (negb first_alive))
      else (m, effs)
  | _ => (m, [])
  end.

(** The result, [first_alive] and the effects. *)
Definition process_modem_state_message (e : env) (m : manager) (message : string)
  : outcome (manager * bool * list effect) :=
  let* ret := translate_modem_state_message message in
  if ret <? 0 then Done (m, false, [])
  else
    let alive_status := Z.land ret 1 in
    let reset_status := Z.shiftr ret 1 in
    let '(flag, first_alive) := flash_less_step (flash_less_flag m) alive_status in
    let m := {| modem_state := modem_state m; flash_less_flag := flag; client_fd := client_fd m |} in
    let '(m, effs) := state_step e m alive_status reset_status first_alive in
    Done (m, first_alive, effs).

(** One round of the loop of [main]. *)
Definition main_round (e : env) (m : manager) : outcome (manager * bool * list effect) :=
  let* (m, first, effs) :=
    match state_text e with
    | Some text => if String.eqb text "" then Done (m, false, []) else process_modem_state_message e m text
    | None => Done (m, false, [])
    end in
  if decide (modem_state m = MODEM_STA_BOOT)
  then Done (set_modem_state m MODEM_STA_BOOTCOMP, first, effs ++ [Boot])
  else Done (m, first, effs).

Definition initial_manager : manager :=
  {| modem_state := MODEM_STA_INIT; flash_less_flag := 0xff; client_fd := replicate MAX_CLIENT_NUM (-1) |}.

(** A round of the loop, or a connection taken by the accept thread in between;
    the label is what the round did. *)
Inductive step : manager -> bool * list effect -> manager -> Prop :=
| step_round e m m' first effs :
    main_round e m = Done (m', first, effs) -> step m (first, effs) m'
| step_accept m n :
    0 <= n -> step m (false, []) {| modem_state := modem_state m; flash_less_flag := flash_less_flag m;
                                    client_fd := accept_client (client_fd m) n |}.

Inductive run : manager -> list (bool * list effect) -> manager -> Prop :=
| run_nil m : run m [] m
| run_cons m l m' ls m'' : step m l m' -> run m' ls m'' -> run m (l :: ls) m''.

(** ** Invariants *)

(** The states in which the loop waits. *)
Definition waiting (s : MODEM_STA_E) : Prop :=
  s = MODEM_STA_INIT \/ s = MODEM_STA_ALIVE \/ s = MODEM_STA_ASSERT \/ s = MODEM_STA_BOOTCOMP.

Definition flag_ok (f : Z) : Prop := f = 0xff \/ f = 0 \/ f = 1 \/ f = 2.

Definition manager_ok (m : manager) : Prop :=
  waiting (modem_state m) /\ flag_ok (flash_less_flag m) /\ length (client_fd m) = MAX_CLIENT_NUM.

(** The flag has seen the modem alive. *)
Definition seen_alive (f : Z) : bool := (f =? 0) || (f =? 2).

Lemma flash_less_step_ok flag alive flag' first :
  flag_ok flag -> flash_less_step flag alive = (flag', first) ->
  flag_ok flag' /\ seen_alive flag' = seen_alive flag || first /\ (first = true -> seen_alive flag = false).
Proof.
  unfold flash_less_step, flag_ok, seen_alive.
  intros [->|[->|[->| ->]]]; cbn; destruct (alive =? 1); intros [= <- <-]; cbn; auto.
Qed.

Lemma broadcast_slots e slots msg :
  length (fst (broadcast_modem_state e slots msg)) = length slots.
Proof.
  induction slots as [|fd slots IH]; [done|]. cbn [broadcast_modem_state].
  destruct (broadcast_modem_state e slots msg) as [rest effs]. cbn in IH.
  destruct (0 <? fd); [destruct (write_ok e fd && _)|]; cbn; by rewrite IH.
Qed.

Lemma broadcast_ok e m msg m' effs :
  broadcast e m msg = (m', effs) ->
  modem_state m' = modem_state m /\ flash_less_flag m' = flash_less_flag m /\
  length (client_fd m') = length (client_fd m).
Proof.
  unfold broadcast. pose proof (broadcast_slots e (client_fd m) msg) as Hl.
  destruct (broadcast_modem_state e (client_fd m) msg) as [slots ef]. cbn in Hl. intros [= <- <-]. done.
Qed.

(** The transitions of the [switch]. *)
Definition next_state (s s' : MODEM_STA_E) : Prop :=
  s' = s \/
  match s with
  | MODEM_STA_INIT => s' = MODEM_STA_ALIVE \/ s' = MODEM_STA_BOOT
  | MODEM_STA_ALIVE => s' = MODEM_STA_ASSERT \/ s' = MODEM_STA_BOOT
  | MODEM_STA_ASSERT => s' = MODEM_STA_BOOT
  | MODEM_STA_BOOTCOMP => s' = MODEM_STA_ALIVE
  | _ => False
  end.

Lemma state_step_ok e m alive reset first m' effs :
  state_step e m alive reset first = (m', effs) ->
  next_state (modem_state m) (modem_state m') /\ flash_less_flag m' = flash_less_flag m /\
  length (client_fd m') = length (client_fd m).
Proof.
  unfold state_step, next_state. destruct (modem_state m) eqn:Es.
  - intros [= <- <-]. auto.
  - intros [= <- <-]. auto.
  - destruct (reset =? 0); [destruct (alive =? 1)|]; intros [= <- <-]; cbn; auto.
  - destruct (if alive =? 0 then _ else _) as [m1 ef] eqn:E1.
    assert (H1 : (modem_state m1 = MODEM_STA_ALIVE \/ modem_state m1 = MODEM_STA_ASSERT) /\
      flash_less_flag m1 = flash_less_flag m /\ length (client_fd m1) = length (client_fd m)).
    { destruct (alive =? 0); [|injection E1 as <- <-; auto].
      apply broadcast_ok in E1 as (H1 & H2 & H3). cbn in *. auto. }
    destruct H1 as (Hs & Hf & Hl). destruct (_ || _); intros [= <- <-]; cbn; [auto|].
    split; [|done]. destruct Hs as [->| ->]; auto.
  - destruct (reset =? 1); intros [= <- <-]; cbn; auto.
  - destruct (_ && _); [|intros [= <- <-]; auto].
    destruct (broadcast e _ _) as [m1 ef] eqn:E1. apply broadcast_ok in E1 as (H1 & H2 & H3).
    intros [= <- <-]. cbn in *. auto.
Qed.

(** The [switch] never boots the modem itself. *)
Lemma broadcast_effects e slots msg : ~ In Boot (snd (broadcast_modem_state e slots msg)).
Proof.
  induction slots as [|fd slots IH]; [by intros []|]. cbn [broadcast_modem_state].
  destruct (broadcast_modem_state e slots msg) as [rest effs]. cbn in IH.
  destruct (0 <? fd); [destruct (write_ok e fd && _)|]; cbn; [|intros [?|[?|?]]|]; try done; intros [?|?]; done.
Qed.

Lemma broadcast_no_boot e m msg m' effs : broadcast e m msg = (m', effs) -> ~ In Boot effs.
Proof.
  unfold broadcast. pose proof (broadcast_effects e (client_fd m) msg) as Hb.
  destruct (broadcast_modem_state e (client_fd m) msg) as [slots ef]. intros [= <- <-]. exact Hb.
Qed.

Lemma kill_no_boot e sig w : ~ In Boot (kill_monitor e sig w).
Proof. unfold kill_monitor. by destruct (_ && _); intros [|[]] || intros []. Qed.

Lemma state_step_effects e m alive reset first m' effs :
  state_step e m alive reset first = (m', effs) -> ~ In Boot effs.
Proof.
  unfold state_step. destruct (modem_state m); try (by intros [= <- <-] []).
  - destruct (reset =? 0); [destruct (alive =? 1)|]; intros [= <- <-]; try (by intros []). apply kill_no_boot.
  - destruct (if alive =? 0 then _ else _) as [m1 ef] eqn:E1.
    assert (H1 : ~ In Boot ef).
    { destruct (alive =? 0); [by eapply broadcast_no_boot|]. injection E1 as <- <-. by intros []. }
    destruct (_ || _); intros [= <- <-]; [|done]. rewrite in_app_iff. intros [?|Hk]; [done|by apply kill_no_boot in Hk].
  - destruct (reset =? 1); intros [= <- <-]; [apply kill_no_boot|by intros []].
  - destruct (_ && _); [|by intros [= <- <-] []].
    destruct (broadcast e _ _) as [m1 ef] eqn:E1. apply broadcast_no_boot in E1.
    intros [= <- <-]. rewrite in_app_iff. intros [?|Hk]; [done|by apply kill_no_boot in Hk].
Qed.

(** What a round of the loop does to the three variables. *)
Lemma main_round_ok e m m' first effs :
  manager_ok m -> main_round e m = Done (m', first, effs) ->
  manager_ok m' /\ seen_alive (flash_less_flag m') = seen_alive (flash_less_flag m) || first /\
  (first = true -> seen_alive (flash_less_flag m) = false) /\
  (In Boot effs -> modem_state m' = MODEM_STA_BOOTCOMP /\
     (modem_state m = MODEM_STA_INIT \/ modem_state m = MODEM_STA_ALIVE \/ modem_state m = MODEM_STA_ASSERT)).
Proof.
  intros (Hw & Hf & Hl) HM. unfold main_round in HM. obind_inv HM. destruct a as [[m1 fst1] effs1].
  assert (H1 : next_state (modem_state m) (modem_state m1) /\ flag_ok (flash_less_flag m1) /\
    seen_alive (flash_less_flag m1) = seen_alive (flash_less_flag m) || fst1 /\
    (fst1 = true -> seen_alive (flash_less_flag m) = false) /\ length (client_fd m1) = length (client_fd m) /\
    ~ In Boot effs1).
  { assert (Hid : Done (m, false, []) = Done (m1, fst1, effs1) -> next_state (modem_state m) (modem_state m1) /\
      flag_ok (flash_less_flag m1) /\ seen_alive (flash_less_flag m1) = seen_alive (flash_less_flag m) || fst1 /\
      (fst1 = true -> seen_alive (flash_less_flag m) = false) /\ length (client_fd m1) = length (client_fd m) /\
      ~ In Boot effs1).
    { intros [= <- <- <-]. split_and!; try done; [by left|by rewrite orb_false_r|by intros []]. }
    destruct (state_text e) as [text|]; [|by apply Hid]. destruct (String.eqb text ""); [by apply Hid|].
    unfold process_modem_state_message in E. obind_inv E. destruct (a <? 0); [by apply Hid|].
    destruct (flash_less_step _ _) as [flag fa] eqn:Ef. destruct (state_step _ _ _ _ _) as [m2 ef2] eqn:Es.
    injection E as <- <- <-. pose proof (state_step_effects _ _ _ _ _ _ _ Es) as Hne.
    apply state_step_ok in Es as (Hn & Hfl & Hcl). apply flash_less_step_ok in Ef as (F1 & F2 & F3); [|done].
    cbn in *. rewrite Hfl. by split_and!. }
  destruct H1 as (Hn & Hf1 & Hs1 & Hfst & Hl1 & Hnb1).
  destruct (decide (modem_state m1 = MODEM_STA_BOOT)) as [Hb|Hb]; injection HM as <- <- <-.
  - split; [split_and!; cbn; try done; [right; right; by right|congruence]|]. split; [done|]. split; [done|].
    intros _. split; [done|]. rewrite Hb in Hn.
    destruct Hw as [Hw|[Hw|[Hw|Hw]]]; rewrite Hw in *; auto. by destruct Hn.
  - split; [split_and!; try done; [|congruence]|split; [done|split; [done|done]]].
    unfold waiting in *. destruct Hn as [->|Hn]; [done|].
    destruct Hw as [Hw|[Hw|[Hw|Hw]]]; rewrite Hw in Hn; intuition.
Qed.

(** ** Runs *)

Lemma accept_slots slots n : length (accept_client slots n) = length slots.
Proof. induction slots as [|s slots IH]; [done|]. cbn. destruct (s =? -1); cbn; by rewrite ?IH. Qed.

Lemma step_ok m l m' :
  manager_ok m -> step m l m' ->
  manager_ok m' /\ seen_alive (flash_less_flag m') = seen_alive (flash_less_flag m) || l.1 /\
  (l.1 = true -> seen_alive (flash_less_flag m) = false).
Proof.
  intros Hok Hs. destruct Hs as [e m m' first effs HM|m n Hn].
  - destruct (main_round_ok _ _ _ _ _ Hok HM) as (H1 & H2 & H3 & _). done.
  - destruct Hok as (H1 & H2 & H3). cbn. rewrite orb_false_r.
    split; [|done]. by split_and!; cbn; rewrite ?accept_slots.
Qed.

(** The rounds that report the first life sign of the modem. *)
Definition first_alives (ls : list (bool * list effect)) : nat := length (filter (fun l => l.1 = true) ls).

Lemma run_ok m ls m' :
  run m ls m' -> manager_ok m ->
  manager_ok m' /\ (first_alives ls <= if seen_alive (flash_less_flag m) then 0 else 1)%nat.
Proof.
  intros Hr. induction Hr as [m|m l m' ls m'' Hs Hr IH]; intros Hok.
  { split; [done|]. cbn. lia. }
  destruct (step_ok _ _ _ Hok Hs) as (Hok' & Hsa & Hf). destruct (IH Hok') as [Hok'' Hle].
  split; [done|]. rewrite Hsa in Hle. unfold first_alives in *. rewrite filter_cons.
  destruct (decide (l.1 = true)) as [E|E].
  - rewrite E, orb_true_r in Hle. rewrite (Hf E). cbn [length]. lia.
  - apply not_true_is_false in E. rewrite E, orb_false_r in Hle. done.
Qed.

Lemma initial_ok : manager_ok initial_manager.
Proof. split_and!; [by left|by left|done]. Qed.

(** What makes a round boot the modem, in a state where the loop waits: the bits of the number in
    the state file and, in ALIVE, also the reset property, whatever the bits are (main.c tests
    [reset_modem_if_assert] there beside the reset bit). *)
Definition boot_wanted (e : env) (s : MODEM_STA_E) (v : Z) : bool :=
  let alive := Z.land v 1 in
  let reset := Z.shiftr v 1 in
  match s with
  | MODEM_STA_INIT => (reset =? 0) && negb (alive =? 1)
  | MODEM_STA_ALIVE => (reset =? 1) || reset_modem_if_assert e
  | MODEM_STA_ASSERT => reset =? 1
  | _ => false
  end.

Lemma broadcast_state e m msg m' effs : broadcast e m msg = (m', effs) -> modem_state m' = modem_state m.
Proof. intros H. by apply broadcast_ok in H as (-> & _). Qed.

Lemma state_step_boot e m v first m' effs :
  waiting (modem_state m) -> state_step e m (Z.land v 1) (Z.shiftr v 1) first = (m', effs) ->
  modem_state m' = MODEM_STA_BOOT <-> boot_wanted e (modem_state m) v = true.
Proof.
  unfold state_step, boot_wanted. intros [Hs|[Hs|[Hs|Hs]]]; rewrite Hs.
  - destruct (_ =? 0); [destruct (_ =? 1)|]; intros [= <- <-]; cbn; rewrite ?Hs; done.
  - destruct (if Z.land v 1 =? 0 then _ else _) as [m1 ef] eqn:E1.
    assert (H1 : modem_state m1 <> MODEM_STA_BOOT).
    { destruct (_ =? 0); [|injection E1 as <- <-; by rewrite Hs]. apply broadcast_state in E1. by rewrite E1. }
    destruct (_ || _); intros [= <- <-]; done.
  - destruct (_ =? 1); intros [= <- <-]; cbn; rewrite ?Hs; done.
  - destruct (_ && _); [|intros [= <- <-]; by rewrite Hs].
    destruct (broadcast e _ _) as [m1 ef] eqn:E1. apply broadcast_state in E1.
    intros [= <- <-]. rewrite E1. done.
Qed.

(** The number a round acts on. *)
Definition message_of (e : env) : option Z :=
  match state_text e with
  | Some text =>
      if String.eqb text "" then None
      else match translate_modem_state_message text with
           | Done v => if v <? 0 then None else Some v
           | _ => None
           end
  | None => None
  end.

Lemma main_round_boot e m m' first effs :
  manager_ok m -> main_round e m = Done (m', first, effs) ->
  In Boot effs <-> exists v, message_of e = Some v /\ boot_wanted e (modem_state m) v = true.
Proof.
  intros (Hw & _ & _) HM. unfold main_round in HM. obind_inv HM. destruct a as [[m1 fst1] effs1].
  assert (H1 : ~ In Boot effs1 /\ (modem_state m1 = MODEM_STA_BOOT <->
    exists v, message_of e = Some v /\ boot_wanted e (modem_state m) v = true)).
  { assert (Hid : Done (m, false, []) = Done (m1, fst1, effs1) -> message_of e = None ->
      ~ In Boot effs1 /\ (modem_state m1 = MODEM_STA_BOOT <->
      exists v, message_of e = Some v /\ boot_wanted e (modem_state m) v = true)).
    { intros [= <- <- <-] ->. split; [by intros []|]. split; [|by intros (v & ? & _)].
      intros Hb. rewrite Hb in Hw. by destruct Hw as [?|[?|[?|?]]]. }
    unfold message_of in *. destruct (state_text e) as [text|]; [|by apply Hid].
    destruct (String.eqb text ""); [by apply Hid|].
    unfold process_modem_state_message in E. obind_inv E.
    destruct (a <? 0); [by apply Hid|]. clear Hid.
    destruct (flash_less_step _ _) as [flag fa]. destruct (state_step _ _ _ _ _) as [m2 ef2] eqn:Es.
    injection E as <- <- <-. split; [by eapply state_step_effects|].
    apply state_step_boot in Es; [|done]. rewrite Es. cbn. split; [by exists a|by intros (v & [= <-] & ?)]. }
  destruct H1 as (Hne & Hiff). rewrite <- Hiff.
  destruct (decide (modem_state m1 = MODEM_STA_BOOT)) as [Hb|Hb]; injection HM as <- <- <-.
  - rewrite in_app_iff. cbn. tauto.
  - tauto.
Qed.

(** ** Broadcasts *)

(** A connected client that takes the message. *)
Definition delivered (e : env) (message : list Z) (fd : Z) : bool := write_ok e fd && (0 <? zlen message).

Definition slot_after (e : env) (message : list Z) (fd : Z) : Z :=
  if (0 <? fd) && negb (delivered e message fd) then -1 else fd.

Lemma broadcast_spec e slots msg :
  (broadcast_modem_state e slots msg).1 = map (slot_after e msg) slots /\
  forall fd, 0 < fd ->
    (In (Write fd msg) (broadcast_modem_state e slots msg).2 <-> In fd slots) /\
    (In (Close fd) (broadcast_modem_state e slots msg).2 <-> In fd slots /\ delivered e msg fd = false).
Proof.
  induction slots as [|s slots [IH1 IH2]]; [cbn; split; [done|intros; cbn; tauto]|].
  cbn [broadcast_modem_state map]. unfold slot_after at 1, delivered.
  destruct (broadcast_modem_state e slots msg) as [rest effs]. cbn in IH1, IH2. rewrite <- IH1.
  destruct (Z.ltb_spec 0 s) as [Hs|Hs]; cbn [andb].
  - destruct (write_ok e s && (0 <? zlen msg)) eqn:Ew; cbn [negb]; (split; [done|]);
      intros fd Hfd; specialize (IH2 fd Hfd) as [-> ->] || (destruct (IH2 fd Hfd) as [W C]; cbn; rewrite W, C);
      unfold delivered; (split; [split; [intros H; intuition congruence|intros [->|?]; auto]|]);
      (split; [intros H; intuition (simplify_eq; auto)|intros [[->|?] Hd]; try congruence; auto]).
  - split; [done|]. intros fd Hfd. destruct (IH2 fd Hfd) as [W C]. cbn. rewrite W, C. unfold delivered.
    split; [split; [auto|intros [->|?]; [lia|done]]|split; [intros [? ?]; auto|intros [[->|?] ?]; [lia|done]]].
Qed.

Lemma bytes_alive : zlen (bytes_of "Modem Alive") = 11.
Proof. reflexivity. Qed.

(** ** Claims *)

(** C24. Over every run of the manager (any sequence of polls with any state
    file, any dump and any client failures, interleaved with connections), the
    machine waits in INIT, ALIVE, ASSERT or BOOTCOMP, the flash-less flag is one
    of its four values, the table of clients keeps its ten slots, and the first
    life sign of the modem is reported at most once. *)
Theorem modem_run_invariant (ls : list (bool * list effect)) (m : manager) :
  run initial_manager ls m -> manager_ok m /\ (first_alives ls <= 1)%nat.
Proof. intros Hr. exact (run_ok _ _ _ Hr initial_ok). Qed.

(** The state file cannot be read, is empty or starts with a number. *)
Definition state_readable (e : env) : bool :=
  match state_text e with
  | None => true
  | Some text => String.eqb text "" || bool_decide (is_Some (scan_d text))
  end.

Lemma main_round_returns e m : state_readable e = true -> exists r, main_round e m = Done r.
Proof.
  unfold state_readable, main_round. intros Hr.
  assert (exists r, match state_text e with
    | Some text => if String.eqb text "" then Done (m, false, []) else process_modem_state_message e m text
    | None => Done (m, false, []) end = Done r) as ([[m1 first] effs] & ->).
  { destruct (state_text e) as [text|]; [|by eexists]. destruct (String.eqb text ""); [by eexists|]. cbn [orb] in Hr.
    apply bool_decide_eq_true in Hr as [v Hv]. unfold process_modem_state_message, translate_modem_state_message. rewrite Hv.
    cbn [obind]. destruct (v <? 0); [by eexists|]. destruct (flash_less_step _ _) as [flag fa]. destruct (state_step _ _ _ _ _). by eexists. }
  cbn [obind]. case_decide; by eexists.
Qed.

(** C38. In every reachable state, when the state file starts with a number, is empty or cannot be
    read (a text without a number leaves an uninitialised variable in use), a poll ends, and it
    boots the modem exactly when the file holds a number that is not negative and either the bits
    of that number ask for it, reset low and alive low in INIT, reset high in ALIVE and in ASSERT,
    or the machine is in ALIVE and the reset property is set, whatever the bits are (so a healthy
    modem is booted: [healthy_modem_rebooted]).  BOOTCOMP never boots again, and after a boot the
    machine is in BOOTCOMP. *)
Theorem modem_boots_exactly (ls : list (bool * list effect)) (m : manager) (e : env) :
  run initial_manager ls m -> state_readable e = true ->
  exists m' first effs, main_round e m = Done (m', first, effs) /\
  (In Boot effs <-> exists v, message_of e = Some v /\ boot_wanted e (modem_state m) v = true) /\
  (In Boot effs -> modem_state m' = MODEM_STA_BOOTCOMP).
Proof.
  intros Hr He. destruct (run_ok _ _ _ Hr initial_ok) as [Hok _].
  destruct (main_round_returns e m He) as ([[m' first] effs] & HM). exists m', first, effs. split; [done|].
  split; [by eapply main_round_boot|]. intros Hb. by apply (main_round_ok _ _ _ _ _ Hok HM).
Qed.

(** The test for a reset after an assert is not limited to an assert: with
    the reset property set, a modem that is alive and not in reset is booted by
    the next poll that reads its healthy state. *)
Theorem healthy_modem_rebooted (e : env) (m : manager) :
  modem_state m = MODEM_STA_ALIVE -> state_text e = Some "1" -> reset_property e = "1" ->
  exists m' first effs, main_round e m = Done (m', first, effs) /\
    modem_state m' = MODEM_STA_BOOTCOMP /\ In Boot effs.
Proof.
  intros Hm Ht Hp. unfold main_round. rewrite Ht. cbn [String.eqb].
  unfold process_modem_state_message, translate_modem_state_message.
  change (scan_d "1") with (Some 1). cbn [obind Z.ltb Z.compare].
  change (Z.land 1 1) with 1. change (Z.shiftr 1 1) with 0.
  destruct (flash_less_step _ _) as [flag fa]. unfold state_step, reset_modem_if_assert. cbn [modem_state].
  rewrite Hm, Hp. cbn. eexists _, _, _. split; [reflexivity|]. split; [done|].
  rewrite in_app_iff. right. by left.
Qed.

(** When the booted modem comes alive every connected client is told
    "Modem Alive", a client is closed exactly when it does not take the message
    and only its slot is freed, and nothing is booted. *)
Theorem modem_alive_broadcast (e : env) (m : manager) :
  modem_state m = MODEM_STA_BOOTCOMP -> state_text e = Some "1" ->
  exists m' first effs, main_round e m = Done (m', first, effs) /\
    modem_state m' = MODEM_STA_ALIVE /\ ~ In Boot effs /\
    client_fd m' = map (fun fd => if (0 <? fd) && negb (write_ok e fd) then -1 else fd) (client_fd m) /\
    forall fd, 0 < fd ->
      (In (Write fd (bytes_of "Modem Alive")) effs <-> In fd (client_fd m)) /\
      (In (Close fd) effs <-> In fd (client_fd m) /\ write_ok e fd = false).
Proof.
  intros Hm Ht. unfold main_round. rewrite Ht. cbn [String.eqb].
  unfold process_modem_state_message, translate_modem_state_message.
  change (scan_d "1") with (Some 1). cbn [obind Z.ltb Z.compare].
  change (Z.land 1 1) with 1. change (Z.shiftr 1 1) with 0.
  destruct (flash_less_step _ _) as [flag fa]. destruct (state_step _ _ _ _ _) as [m1 ef] eqn:Es.
  pose proof (state_step_effects _ _ _ _ _ _ _ Es) as Hnb.
  unfold state_step, broadcast in Es. cbn [modem_state client_fd set_modem_state flash_less_flag] in Es. rewrite Hm in Es.
  cbn in Es. destruct (broadcast_spec e (client_fd m) (bytes_of "Modem Alive")) as [H1 H2].
  unfold slot_after, delivered in H1, H2. rewrite bytes_alive in H1, H2. cbn [Z.ltb Z.compare] in H1, H2.
  change (bytes_of "Modem Alive") with [77; 111; 100; 101; 109; 32; 65; 108; 105; 118; 101] in *.
  destruct (broadcast_modem_state _ _ _) as [slots eb]. cbn [fst snd] in H1, H2. injection Es as <- <-. cbn.
  eexists _, _, _. split; [reflexivity|]. split; [done|]. split; [done|].
  split. { cbn. rewrite H1. apply map_ext. intros fd. by rewrite andb_true_r. }
  intros fd Hfd. destruct (H2 fd Hfd) as [W C]. rewrite andb_true_r in C.
  assert (Hk : forall ef sig w, (exists fd msg, ef = Write fd msg) \/ (exists fd, ef = Close fd) -> ~ In ef (kill_monitor e sig w)).
  { intros ef sig w H. unfold kill_monitor. destruct (_ && _); [|by intros []].
    intros [<-|[]]. by destruct H as [(? & ? & ?)|(? & ?)]. }
  split; rewrite in_app_iff; [rewrite W|rewrite C]; (split; [intros [H|H]; [done|]|by left]); apply Hk in H; eauto; done.
Qed.

(** ** Witnesses *)

(** A poll that reads [text], with the monitor running as process 7. *)
Definition poll (text prop : string) : env :=
  {| state_text := Some text; reset_property := prop; monitor_pid := 7; uart_dump := None; write_ok := fun _ => true |}.

Definition with_state (s : MODEM_STA_E) (flag : Z) : manager :=
  {| modem_state := s; flash_less_flag := flag; client_fd := replicate MAX_CLIENT_NUM (-1) |}.

Lemma booted_run : run initial_manager [(false, [Boot]); (true, [])] (with_state MODEM_STA_ALIVE 2).
Proof.
  eapply run_cons; [apply (step_round (poll "0" "")); reflexivity|].
  eapply run_cons; [apply (step_round (poll "1" "")); reflexivity|]. apply run_nil.
Defined.

Lemma modem_run_invariant_witness :
  manager_ok (with_state MODEM_STA_ALIVE 2) /\ (first_alives [(false, [Boot]); (true, [])] <= 1)%nat.
Proof. apply (modem_run_invariant [(false, [Boot]); (true, [])]). exact booted_run. Defined.

Lemma modem_boots_exactly_witness :
  boot_wanted (poll "2" "") MODEM_STA_ALIVE 2 = true /\
  exists m' first effs, main_round (poll "2" "") (with_state MODEM_STA_ALIVE 2) = Done (m', first, effs) /\
  (In Boot effs <-> exists v, message_of (poll "2" "") = Some v /\ boot_wanted (poll "2" "") MODEM_STA_ALIVE v = true) /\
  (In Boot effs -> modem_state m' = MODEM_STA_BOOTCOMP).
Proof.
  split; [reflexivity|].
  apply (modem_boots_exactly [(false, [Boot]); (true, [])] (with_state MODEM_STA_ALIVE 2) (poll "2" "") booted_run).
  vm_compute. reflexivity.
Defined.

Lemma healthy_modem_rebooted_witness :
  exists m' first effs, main_round (poll "1" "1") (with_state MODEM_STA_ALIVE 2) = Done (m', first, effs) /\
    modem_state m' = MODEM_STA_BOOTCOMP /\ In Boot effs.
Proof. apply (healthy_modem_rebooted (poll "1" "1") (with_state MODEM_STA_ALIVE 2)); reflexivity. Defined.

Lemma modem_alive_broadcast_witness :
  exists m' first effs, main_round (poll "1" "") (with_state MODEM_STA_BOOTCOMP 1) = Done (m', first, effs) /\
    modem_state m' = MODEM_STA_ALIVE /\ ~ In Boot effs /\
    client_fd m' = map (fun fd => if (0 <? fd) && negb (write_ok (poll "1" "") fd) then -1 else fd)
                     (client_fd (with_state MODEM_STA_BOOTCOMP 1)) /\
    forall fd, 0 < fd ->
      (In (Write fd (bytes_of "Modem Alive")) effs <-> In fd (client_fd (with_state MODEM_STA_BOOTCOMP 1))) /\
      (In (Close fd) effs <-> In fd (client_fd (with_state MODEM_STA_BOOTCOMP 1)) /\ write_ok (poll "1" "") fd = false).
Proof. apply (modem_alive_broadcast (poll "1" "") (with_state MODEM_STA_BOOTCOMP 1)); reflexivity. Defined.
