(* ===== verification/CmrMsg.v ===== *)
(** * libs/libcamera/sc8830/src/cmr_msg.c: the camera message queue

    A queue is a ring of [msg_count] cells guarded by a mutex, with a counting
    semaphore on which readers wait.  The functions are translated piece by
    piece: the checks on entry, the semaphore operation, the critical section
    and what follows it.  The whole calls compose the pieces for one thread;
    the step relation interleaves the pieces of any number of threads, since
    the semaphore is taken before the mutex and [cmr_msg_post] reads
    [msg_write] before it locks. *)

From S2P Require Import Prelude.

Record cmr_msg := { msg_type : Z; sub_msg_type : Z; data : Z; alloc_flag : Z }.

Definition zero_msg : cmr_msg := {| msg_type := 0; sub_msg_type := 0; data := 0; alloc_flag := 0 |}.

Definition sizeof_cmr_msg : Z := 16.

(** [msg_mem] is the block at [msg_head]; [msg_write] and [msg_read] are indices
    into it. *)
Record cmr_msg_cxt := {
  mutex : bool;
  msg_sem : Z;
  msg_count : Z;
  msg_number : Z;
  msg_magic : Z;
  msg_mem : list cmr_msg;
  msg_write : Z;
  msg_read : Z
}.

Definition CMR_MSG_MAGIC_CODE : Z := 0xEFFEA55A.
Definition CMR_MSG_POLLING_PERIOD : Z := 200000000.
Definition CMR_MSG_SUCCESS : Z := 0.
Definition CMR_MSG_PARAM_ERR : Z := 1.
Definition CMR_MSG_INVALID_HANDLE : Z := 2.
Definition CMR_MSG_NO_OTHER_MSG : Z := 3.
Definition CMR_MSG_NO_MEM : Z := 4.
Definition CMR_MSG_OVERFLOW : Z := 5.
Definition CMR_MSG_UNDERFLOW : Z := 6.

Definition set_mutex (c : cmr_msg_cxt) (b : bool) : cmr_msg_cxt :=
  {| mutex := b; msg_sem := msg_sem c; msg_count := msg_count c; msg_number := msg_number c;
     msg_magic := msg_magic c; msg_mem := msg_mem c; msg_write := msg_write c; msg_read := msg_read c |}.

Definition set_sem (c : cmr_msg_cxt) (n : Z) : cmr_msg_cxt :=
  {| mutex := mutex c; msg_sem := n; msg_count := msg_count c; msg_number := msg_number c;
     msg_magic := msg_magic c; msg_mem := msg_mem c; msg_write := msg_write c; msg_read := msg_read c |}.

(** The fields a critical section changes. *)
Definition set_ring (c : cmr_msg_cxt) (number : Z) (mem : list cmr_msg) (write read : Z) : cmr_msg_cxt :=
  {| mutex := mutex c; msg_sem := msg_sem c; msg_count := msg_count c; msg_number := number;
     msg_magic := msg_magic c; msg_mem := mem; msg_write := write; msg_read := read |}.

(** ** Creation *)

(** [malloc_cxt] says whether the context could be allocated; [malloc n] is the
    block of [n] bytes, seen as cells, whatever they hold. *)
Definition cmr_msg_queue_create (malloc_cxt : bool) (malloc : Z -> option (list cmr_msg)) (count : Z)
  : Z * option cmr_msg_cxt :=
  if count =? 0 then (- CMR_MSG_PARAM_ERR, None)
  else if negb malloc_cxt then (- CMR_MSG_NO_MEM, None)
  else
    match malloc (u32 (count * sizeof_cmr_msg)) with
    | None => (- CMR_MSG_NO_MEM, None)
    | Some mem =>
        (CMR_MSG_SUCCESS,
         Some {| mutex := false; msg_sem := 0; msg_count := count; msg_number := 0;
                 msg_magic := CMR_MSG_MAGIC_CODE; msg_mem := mem; msg_write := 0; msg_read := 0 |})
    end.

(** ** The pieces of the calls *)

(** The checks on entry, and [MSG_CHECK_MSG_MAGIC]: the code returned early. *)
Definition entry_check (queue_handle : Z) (message_null : bool) (c : cmr_msg_cxt) : option Z :=
  if (queue_handle =? 0) || message_null then Some (- CMR_MSG_PARAM_ERR)
  else if negb (msg_magic c =? CMR_MSG_MAGIC_CODE) then Some CMR_MSG_INVALID_HANDLE
  else None.

(** A pointer stepped past the last cell returns to [msg_head]. *)
Definition advance (c : cmr_msg_cxt) (p : Z) : Z :=
  if msg_count c - 1 <? p + 1 then 0 else p + 1.

(** The critical section of [cmr_msg_get] and [cmr_msg_timedget], entered with
    the mutex held: the code returned and what was stored in [*message]. *)
Definition get_critical (c : cmr_msg_cxt) : outcome (cmr_msg_cxt * Z * option cmr_msg) :=
  if msg_number c =? 0 then Done (set_mutex c false, CMR_MSG_UNDERFLOW, None)
  else if negb (msg_read c =? msg_write c) then
    let* m := rd (msg_mem c) (msg_read c) in
    let* mem := wr (msg_mem c) (msg_read c) zero_msg in
    Done (set_mutex (set_ring c (u32 (msg_number c - 1)) mem (msg_write c) (advance c (msg_read c))) false,
          CMR_MSG_SUCCESS, Some m)
  else
    Done (set_mutex (set_ring c (u32 (msg_number c - 1)) (msg_mem c) (msg_write c) (msg_read c)) false,
          CMR_MSG_SUCCESS, None).

(** The critical section of [cmr_msg_post]; [ori_node] was read before the lock. *)
Definition post_critical (c : cmr_msg_cxt) (ori_node : Z) (message : cmr_msg) : outcome (cmr_msg_cxt * Z) :=
  if msg_count c <=? u32 (msg_number c + 1) then Done (set_mutex c false, CMR_MSG_OVERFLOW)
  else
    let* mem := wr (msg_mem c) (msg_write c) message in
    let write := advance c (msg_write c) in
    let write := if write =? msg_read c then ori_node else write in
    Done (set_mutex (set_ring c (u32 (msg_number c + 1)) mem write (msg_read c)) false, CMR_MSG_SUCCESS).

(** The critical section of [cmr_msg_peak]: the branch that finds nothing
    returns with the mutex held. *)
Definition peak_critical (c : cmr_msg_cxt) : outcome (cmr_msg_cxt * Z * option cmr_msg) :=
  if negb (msg_read c =? msg_write c) then
    let* m := rd (msg_mem c) (msg_read c) in
    Done (set_mutex (set_ring c (u32 (msg_number c - 1)) (msg_mem c) (msg_write c) (advance c (msg_read c))) false,
          CMR_MSG_SUCCESS, Some m)
  else Done (c, - CMR_MSG_NO_OTHER_MSG, None).

(** The deadline of [cmr_msg_timedget], 200 ms after [(sec, nsec)]. *)
Definition deadline (sec nsec : Z) : option (Z * Z) :=
  if (sec <? 0) || (nsec <? 0) || (1000000000 <=? nsec) then None
  else
    let nsec := nsec + CMR_MSG_POLLING_PERIOD in
    if 1000000000 <? nsec then Some (sec + 1, nsec - 1000000000) else Some (sec, nsec).

(** ** Whole calls of one thread; [None] means that the call blocks *)

Definition lock (c : cmr_msg_cxt) : option cmr_msg_cxt := if mutex c then None else Some (set_mutex c true).
Definition sem_down (c : cmr_msg_cxt) : option cmr_msg_cxt :=
  if 0 <? msg_sem c then Some (set_sem c (msg_sem c - 1)) else None.
Definition sem_post (c : cmr_msg_cxt) : cmr_msg_cxt := set_sem c (msg_sem c + 1).

Definition locked {A} (c : cmr_msg_cxt) (k : cmr_msg_cxt -> outcome A) : outcome (option A) :=
  match lock c with
  | None => Done None
  | Some c => let* r := k c in Done (Some r)
  end.

Definition cmr_msg_get (queue_handle : Z) (message_null : bool) (c : cmr_msg_cxt)
  : outcome (option (cmr_msg_cxt * Z * option cmr_msg)) :=
  match entry_check queue_handle message_null c with
  | Some e => Done (Some (c, e, None))
  | None =>
      match sem_down c with
      | None => Done None
      | Some c => locked c get_critical
      end
  end.

(** [now] is what [clock_gettime] gives; a semaphore that stays at zero is a
    timeout. *)
Definition cmr_msg_timedget (queue_handle : Z) (message_null : bool) (now : Z * Z) (c : cmr_msg_cxt)
  : outcome (option (cmr_msg_cxt * Z * option cmr_msg)) :=
  match entry_check queue_handle message_null c with
  | Some e => Done (Some (c, e, None))
  | None =>
      match deadline (fst now) (snd now) with
      | None => Done (Some (c, - CMR_MSG_PARAM_ERR, None))
      | Some _ =>
          match sem_down c with
          | None => Done (Some (c, CMR_MSG_NO_OTHER_MSG, None))
          | Some c => locked c get_critical
          end
      end
  end.

Definition cmr_msg_post (queue_handle : Z) (message : option cmr_msg) (c : cmr_msg_cxt)
  : outcome (option (cmr_msg_cxt * Z)) :=
  match message with
  | None => Done (Some (c, - CMR_MSG_PARAM_ERR))
  | Some m =>
      let ori_node := msg_write c in
      match entry_check queue_handle false c with
      | Some e => Done (Some (c, e))
      | None =>
          let* r := locked c (fun c => post_critical c ori_node m) in
          match r with
          | None => Done None
          | Some (c, ret) =>
              if ret =? CMR_MSG_SUCCESS then Done (Some (sem_post c, ret)) else Done (Some (c, ret))
          end
      end
  end.

Definition cmr_msg_peak (queue_handle : Z) (message_null : bool) (c : cmr_msg_cxt)
  : outcome (option (cmr_msg_cxt * Z * option cmr_msg)) :=
  match entry_check queue_handle message_null c with
  | Some e => Done (Some (c, e, None))
  | None =>
      match sem_down c with
      | None => Done (Some (c, - CMR_MSG_NO_OTHER_MSG, None))
      | Some c => locked c peak_critical
      end
  end.

(** The context is wiped and freed: no context is left. *)
Definition cmr_msg_queue_destroy (queue_handle : Z) (c : cmr_msg_cxt) : Z * option cmr_msg_cxt :=
  match entry_check queue_handle false c with
  | Some e => (e, Some c)
  | None => (CMR_MSG_SUCCESS, None)
  end.

(** ** The ring *)

(** The cell [k] places after the read pointer. *)
Definition cell (c : cmr_msg_cxt) (k : nat) : cmr_msg :=
  default zero_msg (msg_mem c !! Z.to_nat ((msg_read c + Z.of_nat k) mod msg_count c)).

(** The messages held, oldest first. *)
Definition contents (c : cmr_msg_cxt) : list cmr_msg := map (cell c) (seq 0 (Z.to_nat (msg_number c))).

Record ring_ok (c : cmr_msg_cxt) : Prop := {
  ring_count : 0 < msg_count c < 2 ^ 28;
  ring_mem : zlen (msg_mem c) = msg_count c;
  ring_read : 0 <= msg_read c < msg_count c;
  ring_number : 0 <= msg_number c < msg_count c;
  ring_write : msg_write c = (msg_read c + msg_number c) mod msg_count c;
  ring_magic : msg_magic c = CMR_MSG_MAGIC_CODE
}.

Lemma advance_mod c p : 0 <= p < msg_count c -> advance c p = (p + 1) mod msg_count c.
Proof.
  intros H. unfold advance. cif.
  - replace (p + 1) with (msg_count c) by lia. by rewrite Z.mod_same by lia.
  - by rewrite Z.mod_small by lia.
Qed.

Lemma length_contents c : ring_ok c -> zlen (contents c) = msg_number c.
Proof. intros [? ? ? ? ? ?]. unfold contents, zlen. rewrite length_map, length_seq. lia. Qed.

(** Distinct places of the ring are distinct cells. *)
Lemma place_inj n r j k :
  0 < n -> 0 <= j < n -> 0 <= k < n -> (r + j) mod n = (r + k) mod n -> j = k.
Proof.
  intros Hn Hj Hk H. assert (Hz : (j - k) mod n = 0).
  { replace (j - k) with ((r + j) - (r + k)) by lia. by rewrite Zminus_mod, H, Z.sub_diag, Z.mod_0_l by lia. }
  apply Z.mod_divide in Hz as [q Hq]; [|lia]. clear H. assert (q = 0) by nia. subst q. lia.
Qed.

Lemma place_range c j : ring_ok c -> 0 <= (msg_read c + j) mod msg_count c < zlen (msg_mem c).
Proof. intros [? -> ? ? ? ?]. apply Z.mod_pos_bound. lia. Qed.

Lemma set_mutex_ring c b : ring_ok (set_mutex c b) <-> ring_ok c.
Proof. split; intros [? ? ? ? ? ?]; by constructor. Qed.

Lemma set_sem_ring c n : ring_ok (set_sem c n) <-> ring_ok c.
Proof. split; intros [? ? ? ? ? ?]; by constructor. Qed.

(** The read and write pointers meet only in an empty ring. *)
Lemma ring_meet c : ring_ok c -> msg_read c = msg_write c <-> msg_number c = 0.
Proof.
  intros [Hc Hm Hr Hn Hw Hg]. split; [|intros H0; rewrite Hw, H0, Z.add_0_r, Z.mod_small; lia].
  intros H. symmetry. apply (place_inj (msg_count c) (msg_read c)); try lia.
  rewrite <- Hw, <- H, Z.add_0_r, Z.mod_small; lia.
Qed.

(** A removal: the ring without its oldest message. *)
Lemma ring_pop c mem :
  ring_ok c -> 0 < msg_number c ->
  zlen mem = zlen (msg_mem c) ->
  (forall i, i <> Z.to_nat (msg_read c) -> mem !! i = msg_mem c !! i) ->
  let c' := set_ring c (u32 (msg_number c - 1)) mem (msg_write c) (advance c (msg_read c)) in
  ring_ok c' /\ contents c = cell c 0 :: contents c' /\ msg_number c' = msg_number c - 1.
Proof.
  intros Hok Hn0 Hl Hmem c'. pose proof Hok as [Hc Hm Hr Hn Hw Hg].
  assert (Hu : u32 (msg_number c - 1) = msg_number c - 1) by (apply u32_small; unfold u32_ok; lia).
  assert (Ha : advance c (msg_read c) = (msg_read c + 1) mod msg_count c) by (apply advance_mod; lia).
  split; [|split].
  - constructor; subst c'; cbn; try done; [lia|rewrite Ha; apply Z.mod_pos_bound; lia|lia|].
    rewrite Hw, Hu, Ha, Zplus_mod_idemp_l. f_equal. lia.
  - unfold contents. subst c'. cbn [msg_number set_ring]. rewrite Hu.
    replace (Z.to_nat (msg_number c)) with (S (Z.to_nat (msg_number c - 1))) by lia. cbn [seq map]. f_equal.
    rewrite <- seq_shift, map_map. apply map_ext_in. intros k Hk. apply in_seq in Hk.
    unfold cell. cbn [msg_mem msg_read msg_count set_ring]. rewrite Ha, Zplus_mod_idemp_l.
    replace (msg_read c + Z.of_nat (S k)) with (msg_read c + 1 + Z.of_nat k) by lia.
    rewrite Hmem; [done|]. intros E.
    assert (Hp := Z.mod_pos_bound (msg_read c + 1 + Z.of_nat k) (msg_count c) ltac:(lia)).
    apply Z2Nat.inj in E; [|lia|lia].
    assert (1 + Z.of_nat k = 0); [|lia].
    apply (place_inj (msg_count c) (msg_read c)); try lia.
    rewrite Z.add_assoc, E, Z.add_0_r, Z.mod_small; lia.
  - done.
Qed.

Lemma ring_front c : ring_ok c -> rd (msg_mem c) (msg_read c) = Done (cell c 0).
Proof.
  intros [Hc Hm Hr Hn Hw Hg]. destruct (rd_lt (msg_mem c) (msg_read c)) as (x & -> & Hx); [lia|].
  unfold cell. rewrite Z.add_0_r, Z.mod_small, Hx by lia. done.
Qed.

(** The critical sections on a ring that holds something. *)
Lemma get_critical_ok c :
  ring_ok c -> 0 < msg_number c ->
  exists c', get_critical c = Done (c', CMR_MSG_SUCCESS, Some (cell c 0)) /\
    ring_ok c' /\ contents c = cell c 0 :: contents c' /\ msg_number c' = msg_number c - 1 /\
    mutex c' = false /\ msg_sem c' = msg_sem c /\ msg_count c' = msg_count c.
Proof.
  intros Hok Hn. unfold get_critical. rewrite (proj2 (Z.eqb_neq _ _)) by lia.
  rewrite (proj2 (Z.eqb_neq _ _)) by (rewrite ring_meet by done; lia). cbn [negb].
  rewrite ring_front by done. cbn [obind]. pose proof Hok as [? ? ? ? ? ?]. rewrite wr_in by lia. cbn [obind].
  destruct (ring_pop c (<[Z.to_nat (msg_read c) := zero_msg]> (msg_mem c)) Hok Hn) as (H1 & H2 & H3).
  { unfold zlen. by rewrite length_insert. }
  { intros i Hi. by rewrite list_lookup_insert_ne. }
  eexists. split; [reflexivity|]. split; [by apply set_mutex_ring|]. split; [exact H2|]. done.
Qed.

Lemma peak_critical_ok c :
  ring_ok c -> 0 < msg_number c ->
  exists c', peak_critical c = Done (c', CMR_MSG_SUCCESS, Some (cell c 0)) /\
    ring_ok c' /\ contents c = cell c 0 :: contents c' /\ msg_number c' = msg_number c - 1 /\
    mutex c' = false /\ msg_sem c' = msg_sem c /\ msg_count c' = msg_count c.
Proof.
  intros Hok Hn. unfold peak_critical.
  rewrite (proj2 (Z.eqb_neq _ _)) by (rewrite ring_meet by done; lia). cbn [negb].
  rewrite ring_front by done. cbn [obind].
  destruct (ring_pop c (msg_mem c) Hok Hn eq_refl ltac:(done)) as (H1 & H2 & H3).
  eexists. split; [reflexivity|]. split; [by apply set_mutex_ring|]. split; [exact H2|]. done.
Qed.

(** A post: refused exactly when [msg_count - 1] messages are held, and the
    saved write pointer, however old, is never restored. *)
Lemma post_critical_ok c ori m :
  ring_ok c ->
  exists c' ret, post_critical c ori m = Done (c', ret) /\ ring_ok c' /\
    mutex c' = false /\ msg_sem c' = msg_sem c /\ msg_count c' = msg_count c /\
    if msg_number c + 1 <? msg_count c
    then ret = CMR_MSG_SUCCESS /\ contents c' = contents c ++ [m] /\ msg_number c' = msg_number c + 1
    else ret = CMR_MSG_OVERFLOW /\ contents c' = contents c /\ msg_number c' = msg_number c.
Proof.
  intros Hok. pose proof Hok as [Hc Hm Hr Hn Hw Hg]. unfold post_critical.
  rewrite u32_small by (unfold u32_ok; lia). destruct (Z.leb_spec (msg_count c) (msg_number c + 1)).
  { guard_false (msg_number c + 1 <? msg_count c). eexists _, _. split; [reflexivity|].
    split; [by apply set_mutex_ring|]. done. }
  guard_true (msg_number c + 1 <? msg_count c).
  assert (Hwr : 0 <= msg_write c < msg_count c) by (rewrite Hw; apply Z.mod_pos_bound; lia).
  rewrite wr_in by lia. cbn [obind]. rewrite advance_mod by lia.
  assert (Hw' : (msg_write c + 1) mod msg_count c = (msg_read c + (msg_number c + 1)) mod msg_count c).
  { rewrite Hw, Zplus_mod_idemp_l. f_equal. lia. }
  assert (Hne : (msg_write c + 1) mod msg_count c <> msg_read c).
  { rewrite Hw'. intros E. assert (msg_number c + 1 = 0); [|lia].
    apply (place_inj (msg_count c) (msg_read c)); try lia. rewrite E, Z.add_0_r, Z.mod_small; lia. }
  rewrite (proj2 (Z.eqb_neq _ _) Hne). eexists _, _. split; [reflexivity|].
  split; [|split_and!; try done].
  - apply set_mutex_ring. constructor; cbn; try done; [|lia]. unfold zlen in *. by rewrite length_insert.
  - unfold contents. cbn [msg_number set_mutex set_ring]. unfold set_mutex, set_ring. cbn [msg_number].
    replace (Z.to_nat (msg_number c + 1)) with (S (Z.to_nat (msg_number c))) by lia.
    rewrite seq_S, map_app. cbn [map Nat.add]. f_equal.
    + apply map_ext_in. intros k Hk. apply in_seq in Hk. unfold cell. cbn [msg_mem msg_read msg_count].
      rewrite list_lookup_insert_ne; [done|]. rewrite Hw. intros E.
      pose proof (place_range c (Z.of_nat k) Hok). pose proof (place_range c (msg_number c) Hok).
      apply Z2Nat.inj in E; [|lia|lia]. apply place_inj in E; lia.
    + f_equal. unfold cell. cbn [msg_mem msg_read msg_count]. rewrite Z2Nat.id by lia.
      rewrite <- Hw, list_lookup_insert_eq; [done|]. unfold zlen in Hm. lia.
Qed.

(** ** Threads *)

(** Where a thread is between the pieces of its call. *)
Inductive thread :=
| TIdle
| TPost (m : cmr_msg) (ori_node : Z)
| TSignal
| TGet
| TPeak.

Record system := { cxt : cmr_msg_cxt; threads : list thread }.

Inductive event :=
| Posted (m : cmr_msg)
| Received (m : option cmr_msg)
| Refused (code : Z).

Definition at_pc (s : system) (i : nat) (t : thread) : Prop := threads s !! i = Some t.

Definition goes (s : system) (i : nat) (t : thread) (c : cmr_msg_cxt) : system :=
  {| cxt := c; threads := <[i := t]> (threads s) |}.

Definition received (code : Z) (m : option cmr_msg) : event :=
  if code =? CMR_MSG_SUCCESS then Received m else Refused code.

Inductive step : system -> list event -> system -> Prop :=
| step_post_enter s i m :
    at_pc s i TIdle -> entry_check 1 false (cxt s) = None ->
    step s [] (goes s i (TPost m (msg_write (cxt s))) (cxt s))
| step_post s i m ori c c' ret :
    at_pc s i (TPost m ori) -> lock (cxt s) = Some c -> post_critical c ori m = Done (c', ret) ->
    step s [if ret =? CMR_MSG_SUCCESS then Posted m else Refused ret]
      (goes s i (if ret =? CMR_MSG_SUCCESS then TSignal else TIdle) c')
| step_signal s i :
    at_pc s i TSignal -> step s [] (goes s i TIdle (sem_post (cxt s)))
| step_wait s i c :
    at_pc s i TIdle -> entry_check 1 false (cxt s) = None -> sem_down (cxt s) = Some c ->
    step s [] (goes s i TGet c)
| step_get s i c c' ret m :
    at_pc s i TGet -> lock (cxt s) = Some c -> get_critical c = Done (c', ret, m) ->
    step s [received ret m] (goes s i TIdle c')
| step_timeout s i :
    at_pc s i TIdle -> step s [Refused CMR_MSG_NO_OTHER_MSG] s
| step_trywait s i c :
    at_pc s i TIdle -> entry_check 1 false (cxt s) = None -> sem_down (cxt s) = Some c ->
    step s [] (goes s i TPeak c)
| step_trywait_empty s i :
    at_pc s i TIdle -> sem_down (cxt s) = None -> step s [Refused (- CMR_MSG_NO_OTHER_MSG)] s
| step_peak s i c c' ret m :
    at_pc s i TPeak -> lock (cxt s) = Some c -> peak_critical c = Done (c', ret, m) ->
    step s [received ret m] (goes s i TIdle c').

Inductive run : system -> list event -> system -> Prop :=
| run_nil s : run s [] s
| run_snoc s tr s' ev s'' : run s tr s' -> step s' ev s'' -> run s (tr ++ ev) s''.

(** What a trace posted and received, in the order of the critical sections. *)
Definition posted (tr : list event) : list cmr_msg :=
  omap (fun e => match e with Posted m => Some m | _ => None end) tr.
Definition taken (tr : list event) : list (option cmr_msg) :=
  omap (fun e => match e with Received m => Some m | _ => None end) tr.

(** Threads that hold a message of the count: past the semaphore and before the
    critical section, or past the critical section and before [sem_post]. *)
Definition in_flight (t : thread) : Z :=
  match t with TSignal | TGet | TPeak => 1 | _ => 0 end.

Fixpoint flying (ts : list thread) : Z :=
  match ts with [] => 0 | t :: ts' => in_flight t + flying ts' end.

Record system_ok (s : system) : Prop := {
  sys_ring : ring_ok (cxt s);
  sys_mutex : mutex (cxt s) = false;
  sys_sem : 0 <= msg_sem (cxt s);
  sys_balance : msg_number (cxt s) = msg_sem (cxt s) + flying (threads s)
}.

Lemma in_flight_range t : 0 <= in_flight t <= 1.
Proof. destruct t; cbn; lia. Qed.

Lemma flying_nonneg ts : 0 <= flying ts.
Proof. induction ts as [|t ts IH]; cbn; [lia|]. pose proof (in_flight_range t). lia. Qed.

Lemma flying_insert ts i t t' :
  ts !! i = Some t -> flying (<[i := t']> ts) = flying ts - in_flight t + in_flight t'.
Proof.
  revert i. induction ts as [|x ts IH]; intros [|i] H; try done; [injection H as ->; cbn; lia|].
  change (<[S i := t']> (x :: ts)) with (x :: <[i := t']> ts). cbn [flying]. rewrite (IH i H). lia.
Qed.

Lemma flying_member ts i t : ts !! i = Some t -> in_flight t <= flying ts.
Proof.
  revert i. induction ts as [|x ts IH]; intros [|i] H; try done; cbn in *.
  - injection H as ->. pose proof (flying_nonneg ts). lia.
  - pose proof (in_flight_range x). specialize (IH _ H). lia.
Qed.

(** A system after a step of thread [i]. *)
Lemma system_goes s i t t' c' :
  at_pc s i t -> ring_ok c' -> mutex c' = false -> 0 <= msg_sem c' ->
  msg_number c' - msg_sem c' = flying (threads s) - in_flight t + in_flight t' ->
  system_ok (goes s i t' c').
Proof.
  intros Hi Hr Hm Hs Hb. constructor; cbn; try done. rewrite (flying_insert _ _ _ _ Hi). lia.
Qed.

Lemma lock_ok s c : system_ok s -> lock (cxt s) = Some c -> c = set_mutex (cxt s) true.
Proof. intros [_ Hm _ _]. unfold lock. rewrite Hm. by intros [= <-]. Qed.

Lemma posted_app a b : posted (a ++ b) = posted a ++ posted b.
Proof. apply omap_app. Qed.
Lemma taken_app a b : taken (a ++ b) = taken a ++ taken b.
Proof. apply omap_app. Qed.

(** One step of any thread: the invariant is kept, and the queue gains what the
    step posted and loses, in front, what the step received. *)
Definition step_effect (c : cmr_msg_cxt) (ev : list event) (c' : cmr_msg_cxt) : Prop :=
  exists got, taken ev = map Some got /\ contents c ++ posted ev = got ++ contents c' /\
    msg_count c' = msg_count c.

Lemma step_preserves s ev s' :
  system_ok s -> step s ev s' -> system_ok s' /\ step_effect (cxt s) ev (cxt s').
Proof.
  intros Hok Hs. pose proof Hok as [Hr Hm Hsem Hb]. unfold step_effect.
  destruct Hs as [s i m Hi He|s i m ori c c' ret Hi Hl Hc|s i Hi|s i c Hi He Hd|s i c c' ret m Hi Hl Hc
    |s i Hi|s i c Hi He Hd|s i Hi Hd|s i c c' ret m Hi Hl Hc].
  - split; [by eapply system_goes; eauto; cbn; lia|]. exists []. cbn. by rewrite app_nil_r.
  - apply lock_ok in Hl as ->; [|done].
    destruct (post_critical_ok (set_mutex (cxt s) true) ori m) as (c1 & r1 & E & H1 & H2 & H3 & H4 & H5).
    { by apply set_mutex_ring. }
    rewrite E in Hc. injection Hc as <- <-. cbn in H3, H4, H5.
    change (contents (set_mutex (cxt s) true)) with (contents (cxt s)) in H5.
    destruct (_ <? _); destruct H5 as (-> & Hct & Hn).
    + split; [eapply system_goes; eauto; cbn; lia|]. exists []. cbn. by rewrite Hct.
    + split; [eapply system_goes; eauto; cbn; lia|]. exists []. cbn. by rewrite Hct, app_nil_r.
  - split; [|exists []; cbn; by rewrite app_nil_r].
    eapply system_goes; eauto; [by apply set_sem_ring|cbn; lia|cbn; lia].
  - unfold sem_down in Hd. destruct (Z.ltb_spec 0 (msg_sem (cxt s))); [|done]. injection Hd as <-.
    split; [|exists []; cbn; by rewrite app_nil_r].
    eapply system_goes; eauto; [by apply set_sem_ring|cbn; lia|cbn; lia].
  - apply lock_ok in Hl as ->; [|done]. pose proof (flying_member _ _ _ Hi) as Hf. cbn in Hf.
    destruct (get_critical_ok (set_mutex (cxt s) true)) as (c1 & E & H1 & H2 & H3 & H4 & H5 & H6).
    { by apply set_mutex_ring. } { cbn. lia. }
    rewrite E in Hc. injection Hc as <- <- <-. cbn in H3, H5, H6. split; [eapply system_goes; eauto; cbn; lia|].
    eexists [_]. cbn. rewrite app_nil_r. split; [reflexivity|]. split; [exact H2|done].
  - split; [done|]. exists []. cbn. by rewrite app_nil_r.
  - unfold sem_down in Hd. destruct (Z.ltb_spec 0 (msg_sem (cxt s))); [|done]. injection Hd as <-.
    split; [|exists []; cbn; by rewrite app_nil_r].
    eapply system_goes; eauto; [by apply set_sem_ring|cbn; lia|cbn; lia].
  - split; [done|]. exists []. cbn. by rewrite app_nil_r.
  - apply lock_ok in Hl as ->; [|done]. pose proof (flying_member _ _ _ Hi) as Hf. cbn in Hf.
    destruct (peak_critical_ok (set_mutex (cxt s) true)) as (c1 & E & H1 & H2 & H3 & H4 & H5 & H6).
    { by apply set_mutex_ring. } { cbn. lia. }
    rewrite E in Hc. injection Hc as <- <- <-. cbn in H3, H5, H6. split; [eapply system_goes; eauto; cbn; lia|].
    eexists [_]. cbn. rewrite app_nil_r. split; [reflexivity|]. split; [exact H2|done].
Qed.

Lemma run_preserves s tr s' :
  run s tr s' -> system_ok s -> system_ok s' /\ step_effect (cxt s) tr (cxt s').
Proof.
  intros Hr. induction Hr as [s|s tr s' ev s'' Hr IH Hs]; intros Hok.
  { split; [done|]. exists []. cbn. by rewrite app_nil_r. }
  destruct (IH Hok) as (Hok' & got & Ht & Hc & Hn).
  destruct (step_preserves _ _ _ Hok' Hs) as (Hok'' & got' & Ht' & Hc' & Hn').
  split; [done|]. exists (got ++ got'). rewrite taken_app, posted_app, Ht, Ht', map_app.
  split; [done|]. split; [|congruence]. by rewrite app_assoc, Hc, <- app_assoc, Hc', app_assoc.
Qed.

(** ** Creation establishes the invariant *)

(** [malloc] gives the block it was asked for. *)
Definition malloc_ok (malloc : Z -> option (list cmr_msg)) : Prop :=
  forall n mem, malloc n = Some mem -> zlen mem = n / sizeof_cmr_msg.

Lemma create_ok ok malloc count ret c :
  malloc_ok malloc -> 0 <= count < 2 ^ 28 -> cmr_msg_queue_create ok malloc count = (ret, Some c) ->
  ring_ok c /\ mutex c = false /\ msg_sem c = 0 /\ msg_number c = 0 /\ msg_count c = count.
Proof.
  intros Hm Hc. unfold cmr_msg_queue_create. destruct (Z.eqb_spec count 0); [done|].
  destruct ok; [|done]. cbn [negb]. destruct (malloc _) as [mem|] eqn:E; [|done]. intros [= <- <-].
  apply Hm in E. unfold sizeof_cmr_msg in E. rewrite u32_small, Z.div_mul in E by (unfold u32_ok; lia).
  split; [|done]. constructor; cbn; try done; lia.
Qed.

Definition idle_threads (c : cmr_msg_cxt) (n : nat) : system := {| cxt := c; threads := replicate n TIdle |}.

Lemma flying_idle n : flying (replicate n TIdle) = 0.
Proof. induction n as [|n IH]; [done|]. cbn. lia. Qed.

Lemma idle_ok c n :
  ring_ok c -> mutex c = false -> msg_sem c = 0 -> msg_number c = 0 -> system_ok (idle_threads c n).
Proof. intros H1 H2 H3 H4. constructor; cbn; try done; [lia|]. rewrite flying_idle. lia. Qed.

Lemma created_system ok malloc count ret c n tr s :
  malloc_ok malloc -> 0 <= count < 2 ^ 28 -> cmr_msg_queue_create ok malloc count = (ret, Some c) ->
  run (idle_threads c n) tr s ->
  system_ok s /\ exists got, taken tr = map Some got /\ posted tr = got ++ contents (cxt s) /\ msg_count (cxt s) = count.
Proof.
  intros Hm Hc He Hr. destruct (create_ok _ _ _ _ _ Hm Hc He) as (H1 & H2 & H3 & H4 & H5).
  destruct (run_preserves _ _ _ Hr (idle_ok c n H1 H2 H3 H4)) as (Hok & got & Ht & Hq & Hn).
  split; [done|]. exists got. split; [done|]. cbn in Hq, Hn. split; [|congruence].
  rewrite <- Hq. unfold contents. by rewrite H4.
Qed.

(** ** The abstract queue *)

Inductive op :=
| OpPost (m : cmr_msg)
| OpGet
| OpTimedget (now : Z * Z)
| OpPeak.

(** A whole call by the only running thread, with a valid handle. *)
Definition call (o : op) (c : cmr_msg_cxt) : outcome (option (cmr_msg_cxt * Z * option cmr_msg)) :=
  match o with
  | OpPost m =>
      let* r := cmr_msg_post 1 (Some m) c in
      Done (match r with Some (c, ret) => Some (c, ret, None) | None => None end)
  | OpGet => cmr_msg_get 1 false c
  | OpTimedget now => cmr_msg_timedget 1 false now c
  | OpPeak => cmr_msg_peak 1 false c
  end.

(** A bounded first-in first-out queue of [cap] messages; [None] blocks. *)
Definition fifo (cap : Z) (o : op) (q : list cmr_msg) : option (list cmr_msg * Z * option cmr_msg) :=
  match o, q with
  | OpPost m, _ =>
      if zlen q <? cap then Some (q ++ [m], CMR_MSG_SUCCESS, None) else Some (q, CMR_MSG_OVERFLOW, None)
  | OpGet, [] => None
  | OpTimedget _, [] => Some ([], CMR_MSG_NO_OTHER_MSG, None)
  | OpPeak, [] => Some ([], - CMR_MSG_NO_OTHER_MSG, None)
  | _, m :: q' => Some (q', CMR_MSG_SUCCESS, Some m)
  end.

(** A sequence of calls, up to the first that blocks: the codes and messages
    returned. *)
Fixpoint calls (os : list op) (c : cmr_msg_cxt) : outcome (cmr_msg_cxt * list (Z * option cmr_msg)) :=
  match os with
  | [] => Done (c, [])
  | o :: os' =>
      let* r := call o c in
      match r with
      | None => Done (c, [])
      | Some (c, ret, m) => let* (c, rs) := calls os' c in Done (c, (ret, m) :: rs)
      end
  end.

Fixpoint fifos (cap : Z) (os : list op) (q : list cmr_msg) : list cmr_msg * list (Z * option cmr_msg) :=
  match os with
  | [] => (q, [])
  | o :: os' =>
      match fifo cap o q with
      | None => (q, [])
      | Some (q, ret, m) => let '(q, rs) := fifos cap os' q in (q, (ret, m) :: rs)
      end
  end.

(** No call is under way. *)
Record queue_ok (c : cmr_msg_cxt) : Prop := {
  queue_ring : ring_ok c;
  queue_mutex : mutex c = false;
  queue_sem : msg_sem c = msg_number c
}.

(** The clock stays in the range POSIX gives it. *)
Definition clock_ok (o : op) : Prop :=
  match o with OpTimedget (sec, nsec) => 0 <= sec /\ 0 <= nsec < 1000000000 | _ => True end.

Lemma entry_ok c : ring_ok c -> entry_check 1 false c = None.
Proof. intros [? ? ? ? ? Hg]. unfold entry_check. by rewrite Hg. Qed.

Lemma deadline_some sec nsec : 0 <= sec -> 0 <= nsec < 1000000000 -> is_Some (deadline sec nsec).
Proof.
  intros. unfold deadline. rewrite !(proj2 (Z.ltb_ge _ _)) by lia.
  rewrite (proj2 (Z.leb_gt _ _)) by lia. cbn. destruct (_ <? _); eauto.
Qed.

Lemma contents_empty c : queue_ok c -> contents c = [] <-> msg_number c = 0.
Proof.
  intros [Hr _ _]. pose proof (length_contents c Hr) as Hl. split.
  - intros E. by rewrite E in Hl.
  - intros E. apply length_zero_iff_nil. unfold zlen in Hl. lia.
Qed.

(** The semaphore of a quiescent queue that holds something lets a reader
    through to a critical section that finds it. *)
Lemma reader_ok c k :
  queue_ok c -> 0 < msg_number c ->
  (forall d, ring_ok d -> 0 < msg_number d ->
    exists d', k d = Done (d', CMR_MSG_SUCCESS, Some (cell d 0)) /\
      ring_ok d' /\ contents d = cell d 0 :: contents d' /\ msg_number d' = msg_number d - 1 /\
      mutex d' = false /\ msg_sem d' = msg_sem d /\ msg_count d' = msg_count d) ->
  exists c' m q, contents c = m :: q /\
    match sem_down c with None => Done None | Some c => locked c k end = Done (Some (c', CMR_MSG_SUCCESS, Some m)) /\
    queue_ok c' /\ contents c' = q /\ msg_count c' = msg_count c.
Proof.
  intros [Hr Hm Hs] Hn Hk. unfold sem_down. guard_true (0 <? msg_sem c).
  unfold locked, lock. cbn [mutex set_sem]. rewrite Hm.
  destruct (Hk (set_mutex (set_sem c (msg_sem c - 1)) true)) as (d & E & H1 & H2 & H3 & H4 & H5 & H6).
  { by apply set_mutex_ring, set_sem_ring. } { done. }
  cbn in H3, H5, H6. exists d, (cell c 0), (contents d). split; [exact H2|]. rewrite E.
  split; [reflexivity|]. split; [|done]. constructor; try done. lia.
Qed.

Lemma call_refines o c :
  queue_ok c -> clock_ok o ->
  match fifo (msg_count c - 1) o (contents c) with
  | None => call o c = Done None
  | Some (q, ret, m) => exists c', call o c = Done (Some (c', ret, m)) /\ queue_ok c' /\ contents c' = q /\
      msg_count c' = msg_count c
  end.
Proof.
  intros Hok Hclk. pose proof Hok as [Hr Hm Hs]. pose proof (contents_empty c Hok) as He.
  pose proof (ring_number c Hr) as Hn. pose proof (entry_ok c Hr) as Hen.
  assert (Hempty : contents c = [] -> sem_down c = None).
  { intros E. apply He in E. unfold sem_down. by guard_false (0 <? msg_sem c). }
  assert (Hfull : forall x q, contents c = x :: q -> 0 < msg_number c).
  { intros x q E. destruct (decide (msg_number c = 0)) as [E0|]; [|lia]. apply He in E0. congruence. }
  destruct o as [m| |[sec nsec]|]; cbn [fifo call].
  - rewrite (length_contents c Hr).
    destruct (post_critical_ok (set_mutex c true) (msg_write c) m) as (c1 & r1 & E & H1 & H2 & H3 & H4 & H5).
    { by apply set_mutex_ring. }
    cbn in H3, H4, H5. replace (msg_number c <? msg_count c - 1) with (msg_number c + 1 <? msg_count c) by lia.
    unfold cmr_msg_post, locked, lock. rewrite Hen, Hm, E.
    destruct (_ <? _); destruct H5 as (-> & Hct & Hnum); cbn; eexists; (split; [reflexivity|]).
    + split; [|split; [exact Hct|exact H4]]. constructor; [by apply set_sem_ring|done|cbn; lia].
    + split; [|done]. constructor; [done|done|lia].
  - unfold cmr_msg_get. rewrite Hen. destruct (contents c) as [|x q] eqn:Eq; [by rewrite Hempty|].
    destruct (reader_ok c get_critical Hok (Hfull x q eq_refl) get_critical_ok) as (c' & m & q' & E & -> & R).
    rewrite Eq in E. injection E as <- <-. eauto.
  - unfold cmr_msg_timedget. rewrite Hen. destruct Hclk as [Hsec Hnsec].
    destruct (deadline_some sec nsec Hsec Hnsec) as [d Hd]. cbn [fst snd]. rewrite Hd.
    destruct (contents c) as [|x q] eqn:Eq; [rewrite Hempty by done; by exists c|].
    pose proof (reader_ok c get_critical Hok (Hfull x q eq_refl) get_critical_ok) as (c' & m & q' & E & Hc & R).
    rewrite Eq in E. injection E as <- <-. destruct (sem_down c); [|done]. rewrite Hc. eauto.
  - unfold cmr_msg_peak. rewrite Hen.
    destruct (contents c) as [|x q] eqn:Eq; [rewrite Hempty by done; by exists c|].
    pose proof (reader_ok c peak_critical Hok (Hfull x q eq_refl) peak_critical_ok) as (c' & m & q' & E & Hc & R).
    rewrite Eq in E. injection E as <- <-. destruct (sem_down c); [|done]. rewrite Hc. eauto.
Qed.

Lemma calls_refine os c :
  queue_ok c -> Forall clock_ok os ->
  exists c', calls os c = Done (c', (fifos (msg_count c - 1) os (contents c)).2) /\ queue_ok c' /\
    contents c' = (fifos (msg_count c - 1) os (contents c)).1.
Proof.
  revert c. induction os as [|o os IH]; intros c Hok Hclk; cbn [calls fifos]; [by exists c|].
  apply Forall_cons in Hclk as [Ho Hos]. pose proof (call_refines o c Hok Ho) as Hc.
  destruct (fifo _ _ _) as [[[q ret] m]|]; [|rewrite Hc; by exists c].
  destruct Hc as (c1 & -> & Hok1 & <- & Hn). cbn [obind]. destruct (IH c1 Hok1 Hos) as (c2 & -> & Hok2 & Hq).
  rewrite Hn in *. destruct (fifos _ _ _) as [q' rs]. cbn in *. eauto.
Qed.

(** ** Claims *)

(** C3. For any number of threads posting, getting, peeking and timing out in
    any interleaving on a freshly created queue, the messages received are, in
    order, a prefix of the messages accepted and the queue holds the rest; every
    successful get or peek delivers a message, and the queue never holds more
    than [count - 1].  The unlocked read of [msg_write] in [cmr_msg_post] cannot
    lose a message. *)
Theorem queue_threads_fifo (ok : bool) (malloc : Z -> option (list cmr_msg)) (count ret : Z) (c : cmr_msg_cxt)
  (n : nat) (tr : list event) (s : system) :
  malloc_ok malloc -> 0 <= count < 2 ^ 28 -> cmr_msg_queue_create ok malloc count = (ret, Some c) ->
  run (idle_threads c n) tr s ->
  exists got, taken tr = map Some got /\ posted tr = got ++ contents (cxt s) /\
    zlen (contents (cxt s)) <= count - 1.
Proof.
  intros Hm Hc He Hr. destruct (created_system _ _ _ _ _ _ _ _ Hm Hc He Hr) as ([Hok _ _ _] & got & Ht & Hp & Hn).
  exists got. split_and!; try done. rewrite length_contents by done. pose proof (ring_number _ Hok). lia.
Qed.

(** C33. In every reachable state of such a system the mutex is free and no thread
    is stuck inside a call: a reader past the semaphore finds a message (so
    neither the underflow of [cmr_msg_get] nor the branch of [cmr_msg_peak] that
    returns with the mutex locked is ever reached), and every thread between two
    pieces of its call can take its next step. *)
Theorem queue_threads_progress (ok : bool) (malloc : Z -> option (list cmr_msg)) (count ret : Z) (c : cmr_msg_cxt)
  (n : nat) (tr : list event) (s : system) (i : nat) (t : thread) :
  malloc_ok malloc -> 0 <= count < 2 ^ 28 -> cmr_msg_queue_create ok malloc count = (ret, Some c) ->
  run (idle_threads c n) tr s -> at_pc s i t -> t <> TIdle ->
  mutex (cxt s) = false /\
  exists ev s', step s ev s' /\ ~ at_pc s' i t /\
    match t with
    | TGet | TPeak => exists m, ev = [Received (Some m)]
    | _ => True
    end.
Proof.
  intros Hm Hc He Hr Hi Hne. destruct (created_system _ _ _ _ _ _ _ _ Hm Hc He Hr) as (Hok & _).
  destruct Hok as [Hring Hmu Hsem Hb]. split; [done|]. pose proof (flying_member _ _ _ Hi) as Hf.
  assert (Hlt : (i < length (threads s))%nat) by (by eapply lookup_lt_Some).
  assert (Hgo : forall t' c', t' <> t -> ~ at_pc (goes s i t' c') i t).
  { intros t' c' Ht E. unfold at_pc, goes in E. cbn in E. rewrite list_lookup_insert_eq in E by done. congruence. }
  assert (Hl : lock (cxt s) = Some (set_mutex (cxt s) true)) by (unfold lock; by rewrite Hmu).
  assert (Hring' : ring_ok (set_mutex (cxt s) true)) by (by apply set_mutex_ring).
  destruct t as [|m ori| | |]; [done| | | |]; cbn in Hf.
  - destruct (post_critical_ok (set_mutex (cxt s) true) ori m Hring') as (c1 & r1 & E & _).
    eexists _, _. split; [by eapply step_post|]. split; [|done]. apply Hgo. by destruct (r1 =? _).
  - eexists _, _. split; [by eapply step_signal|]. split; [by apply Hgo|done].
  - destruct (get_critical_ok (set_mutex (cxt s) true) Hring') as (c1 & E & _); [cbn; lia|].
    eexists _, _. split; [by eapply step_get|]. split; [by apply Hgo|]. by eexists.
  - destruct (peak_critical_ok (set_mutex (cxt s) true) Hring') as (c1 & E & _); [cbn; lia|].
    eexists _, _. split; [by eapply step_peak|]. split; [by apply Hgo|]. by eexists.
Qed.

(** C25. The calls of one thread implement a bounded first-in first-out queue of
    [count - 1] messages: any sequence of posts, gets, timed gets and peeks on a
    created queue returns the codes and messages of the abstract queue, blocks
    where it blocks, and leaves its contents. *)
Theorem queue_refines_fifo (ok : bool) (malloc : Z -> option (list cmr_msg)) (count ret : Z) (c : cmr_msg_cxt)
  (os : list op) :
  malloc_ok malloc -> 0 <= count < 2 ^ 28 -> cmr_msg_queue_create ok malloc count = (ret, Some c) ->
  Forall clock_ok os ->
  exists c', calls os c = Done (c', (fifos (count - 1) os []).2) /\ contents c' = (fifos (count - 1) os []).1.
Proof.
  intros Hm Hc He Hclk. destruct (create_ok _ _ _ _ _ Hm Hc He) as (H1 & H2 & H3 & H4 & H5).
  destruct (calls_refine os c) as (c' & E & _ & Hq); [by constructor; [..|lia]|done|].
  assert (Hn : contents c = []) by (unfold contents; by rewrite H4). rewrite Hn, H5 in E, Hq. eauto.
Qed.

(** The deadline of a timed get is 200 ms after the clock, but it is a valid
    [timespec] except when the clock reads 800000000 nanoseconds: the carry is
    done for more than a second and not for a second exactly. *)
Theorem timedget_deadline (sec nsec : Z) :
  0 <= sec -> 0 <= nsec < 1000000000 ->
  exists sec' nsec', deadline sec nsec = Some (sec', nsec') /\
    sec' * 1000000000 + nsec' = sec * 1000000000 + nsec + 200000000 /\
    (0 <= nsec' < 1000000000 <-> nsec <> 800000000).
Proof.
  intros Hs Hn. unfold deadline, CMR_MSG_POLLING_PERIOD. rewrite !(proj2 (Z.ltb_ge _ _)) by lia.
  rewrite (proj2 (Z.leb_gt _ _)) by lia. cbn [orb].
  destruct (Z.ltb_spec 1000000000 (nsec + 200000000)); eexists _, _; (split; [reflexivity|]); lia.
Qed.

(** The size of the ring is computed in 32 bits: a queue of 2^28 cells is
    created over an empty block and its first post writes outside it. *)
Theorem create_size_wraps (malloc : Z -> option (list cmr_msg)) (c : cmr_msg_cxt) (ret : Z) (m : cmr_msg) :
  malloc_ok malloc -> cmr_msg_queue_create true malloc (2 ^ 28) = (ret, Some c) ->
  ret = CMR_MSG_SUCCESS /\ cmr_msg_post 1 (Some m) c = Undef.
Proof.
  intros Hm. unfold cmr_msg_queue_create. change (u32 (2 ^ 28 * sizeof_cmr_msg)) with 0. cbn [negb].
  rewrite (proj2 (Z.eqb_neq _ _)) by lia. destruct (malloc 0) as [mem|] eqn:E; [|done]. intros [= <- <-].
  split; [done|]. apply Hm in E. change (0 / sizeof_cmr_msg) with 0 in E.
  unfold cmr_msg_post, locked, lock, post_critical. cbn [entry_check mutex set_mutex msg_count msg_number].
  unfold entry_check. cbn. rewrite wr_oob by lia. done.
Qed.

(** ** Witnesses *)

Definition sample (k : Z) : cmr_msg := {| msg_type := k; sub_msg_type := 0; data := 0; alloc_flag := 0 |}.
Definition zero_malloc (n : Z) : option (list cmr_msg) :=
  if 0 <=? n then Some (replicate (Z.to_nat (n / sizeof_cmr_msg)) zero_msg) else None.

Lemma zero_malloc_ok : malloc_ok zero_malloc.
Proof.
  intros n mem. unfold zero_malloc. destruct (Z.leb_spec 0 n); [|done]. intros [= <-].
  rewrite zlen_replicate. unfold sizeof_cmr_msg. pose proof (Z.div_pos n 16). lia.
Defined.

(** A queue of three cells. *)
Definition small_queue (number : Z) (mem : list cmr_msg) (write : Z) : cmr_msg_cxt :=
  {| mutex := false; msg_sem := 0; msg_count := 3; msg_number := number; msg_magic := CMR_MSG_MAGIC_CODE;
     msg_mem := mem; msg_write := write; msg_read := 0 |}.

Definition after_post : system :=
  {| cxt := small_queue 1 [sample 5; zero_msg; zero_msg] 1; threads := [TSignal; TIdle] |}.

Lemma small_run : run (idle_threads (small_queue 0 (replicate 3 zero_msg) 0) 2) [Posted (sample 5)] after_post.
Proof.
  eapply (run_snoc _ [] _ [Posted (sample 5)]); [eapply (run_snoc _ [] _ [])|].
  - apply run_nil.
  - apply (step_post_enter _ 0 (sample 5)); reflexivity.
  - exact (step_post (goes (idle_threads (small_queue 0 (replicate 3 zero_msg) 0) 2) 0 (TPost (sample 5) 0)
      (small_queue 0 (replicate 3 zero_msg) 0)) 0 (sample 5) 0 (set_mutex (small_queue 0 (replicate 3 zero_msg) 0) true)
      (small_queue 1 [sample 5; zero_msg; zero_msg] 1) CMR_MSG_SUCCESS eq_refl eq_refl eq_refl).
Defined.

Lemma queue_threads_fifo_witness :
  exists got, taken [Posted (sample 5)] = map Some got /\ posted [Posted (sample 5)] = got ++ contents (cxt after_post) /\
    zlen (contents (cxt after_post)) <= 3 - 1.
Proof.
  apply (queue_threads_fifo true zero_malloc 3 CMR_MSG_SUCCESS (small_queue 0 (replicate 3 zero_msg) 0) 2).
  - exact zero_malloc_ok.
  - lia.
  - reflexivity.
  - exact small_run.
Defined.

Lemma queue_threads_progress_witness :
  mutex (cxt after_post) = false /\
  exists ev s', step after_post ev s' /\ ~ at_pc s' 0 TSignal /\ True.
Proof.
  apply (queue_threads_progress true zero_malloc 3 CMR_MSG_SUCCESS (small_queue 0 (replicate 3 zero_msg) 0) 2
    [Posted (sample 5)] after_post 0 TSignal).
  - exact zero_malloc_ok.
  - lia.
  - reflexivity.
  - exact small_run.
  - reflexivity.
  - discriminate.
Defined.

Lemma queue_refines_fifo_witness :
  exists c', calls [OpPost (sample 5); OpPost (sample 6); OpPost (sample 7); OpGet]
      (small_queue 0 (replicate 3 zero_msg) 0) =
    Done (c', (fifos (3 - 1) [OpPost (sample 5); OpPost (sample 6); OpPost (sample 7); OpGet] []).2) /\
    contents c' = (fifos (3 - 1) [OpPost (sample 5); OpPost (sample 6); OpPost (sample 7); OpGet] []).1.
Proof.
  apply (queue_refines_fifo true zero_malloc 3 CMR_MSG_SUCCESS).
  - exact zero_malloc_ok.
  - lia.
  - reflexivity.
  - repeat constructor.
Defined.

Lemma timedget_deadline_witness :
  exists sec' nsec', deadline 7 800000000 = Some (sec', nsec') /\
    sec' * 1000000000 + nsec' = 7 * 1000000000 + 800000000 + 200000000 /\
    (0 <= nsec' < 1000000000 <-> 800000000 <> 800000000).
Proof. apply (timedget_deadline 7 800000000); lia. Defined.

Lemma create_size_wraps_witness :
  CMR_MSG_SUCCESS = CMR_MSG_SUCCESS /\
  cmr_msg_post 1 (Some (sample 5)) {| mutex := false; msg_sem := 0; msg_count := 2 ^ 28; msg_number := 0;
    msg_magic := CMR_MSG_MAGIC_CODE; msg_mem := []; msg_write := 0; msg_read := 0 |} = Undef.
Proof.
  apply (create_size_wraps zero_malloc _ CMR_MSG_SUCCESS (sample 5)); [exact zero_malloc_ok|reflexivity].
Defined.

(** The abstract queue of capacity 2 refuses the third message. *)
Example fifo_refuses :
  (fifos 2 [OpPost (sample 5); OpPost (sample 6); OpPost (sample 7); OpGet] []).2 =
  [(0, None); (0, None); (5, None); (0, Some (sample 5))].
Proof. reflexivity. Qed.
