(* ===== verification/CmrMem.v ===== *)
(** * libs/libcamera/sc8830/src/cmr_mem.c: the memory of a capture

    A capture works in one block of memory, whose size a table gives for the size of the
    picture ([camera_capture_buf_size]).  [camera_arrange_capture_buf] cuts the buffers
    out of the block one after the other: the planes of the picture, which share memory
    as the picture moves through the stages, then the coded picture, the thumbnail and
    the buffer of the rotation.  What does not fit comes from a callback, [alloc_mem].

    Every quantity is a [uint32_t]; an address is physical or virtual, and both run in
    parallel. *)

From S2P Require Import Prelude.

(** ** Structures (cmr_common.h, cmr_mem.h)

    [img_frm] without [data_end] and [reserved], which the file only clears and copies. *)
Record img_size := mk_size { width : Z; height : Z }.
Record img_rect := mk_rect { start_x : Z; start_y : Z; rect_width : Z; rect_height : Z }.
Record img_addr := mk_addr { addr_y : Z; addr_u : Z; addr_v : Z }.

Record img_frm := mk_frm {
  fmt : Z;
  buf_size : Z;
  size : img_size;
  addr_phy : img_addr;
  addr_vir : img_addr
}.

Definition set_addr_y (phy vir : Z) (f : img_frm) : img_frm :=
  mk_frm (fmt f) (buf_size f) (size f) (mk_addr phy (addr_u (addr_phy f)) (addr_v (addr_phy f))) (mk_addr vir (addr_u (addr_vir f)) (addr_v (addr_vir f))).
Definition set_addr_u (phy vir : Z) (f : img_frm) : img_frm :=
  mk_frm (fmt f) (buf_size f) (size f) (mk_addr (addr_y (addr_phy f)) phy (addr_v (addr_phy f))) (mk_addr (addr_y (addr_vir f)) vir (addr_v (addr_vir f))).
Definition set_buf_size (n : Z) (f : img_frm) : img_frm := mk_frm (fmt f) n (size f) (addr_phy f) (addr_vir f).
Definition set_size (s : img_size) (f : img_frm) : img_frm := mk_frm (fmt f) (buf_size f) s (addr_phy f) (addr_vir f).
Definition set_fmt (t : Z) (f : img_frm) : img_frm := mk_frm t (buf_size f) (size f) (addr_phy f) (addr_vir f).

Definition zero_frm : img_frm := mk_frm 0 0 (mk_size 0 0) (mk_addr 0 0 0) (mk_addr 0 0 0).

Record cmr_cap_mem := mk_cap_mem {
  cap_raw : img_frm;
  cap_yuv : img_frm;
  target_yuv : img_frm;
  target_jpeg : img_frm;
  thum_yuv : img_frm;
  thum_jpeg : img_frm;
  jpeg_tmp : img_frm;
  scale_tmp : img_frm;
  cap_yuv_rot : img_frm;
  isp_tmp : img_frm
}.

Definition on_cap_raw (g : img_frm -> img_frm) (c : cmr_cap_mem) : cmr_cap_mem :=
  mk_cap_mem (g (cap_raw c)) (cap_yuv c) (target_yuv c) (target_jpeg c) (thum_yuv c) (thum_jpeg c) (jpeg_tmp c) (scale_tmp c) (cap_yuv_rot c) (isp_tmp c).
Definition on_cap_yuv (g : img_frm -> img_frm) (c : cmr_cap_mem) : cmr_cap_mem :=
  mk_cap_mem (cap_raw c) (g (cap_yuv c)) (target_yuv c) (target_jpeg c) (thum_yuv c) (thum_jpeg c) (jpeg_tmp c) (scale_tmp c) (cap_yuv_rot c) (isp_tmp c).
Definition on_target_yuv (g : img_frm -> img_frm) (c : cmr_cap_mem) : cmr_cap_mem :=
  mk_cap_mem (cap_raw c) (cap_yuv c) (g (target_yuv c)) (target_jpeg c) (thum_yuv c) (thum_jpeg c) (jpeg_tmp c) (scale_tmp c) (cap_yuv_rot c) (isp_tmp c).
Definition on_target_jpeg (g : img_frm -> img_frm) (c : cmr_cap_mem) : cmr_cap_mem :=
  mk_cap_mem (cap_raw c) (cap_yuv c) (target_yuv c) (g (target_jpeg c)) (thum_yuv c) (thum_jpeg c) (jpeg_tmp c) (scale_tmp c) (cap_yuv_rot c) (isp_tmp c).
Definition on_thum_yuv (g : img_frm -> img_frm) (c : cmr_cap_mem) : cmr_cap_mem :=
  mk_cap_mem (cap_raw c) (cap_yuv c) (target_yuv c) (target_jpeg c) (g (thum_yuv c)) (thum_jpeg c) (jpeg_tmp c) (scale_tmp c) (cap_yuv_rot c) (isp_tmp c).
Definition on_thum_jpeg (g : img_frm -> img_frm) (c : cmr_cap_mem) : cmr_cap_mem :=
  mk_cap_mem (cap_raw c) (cap_yuv c) (target_yuv c) (target_jpeg c) (thum_yuv c) (g (thum_jpeg c)) (jpeg_tmp c) (scale_tmp c) (cap_yuv_rot c) (isp_tmp c).
Definition on_jpeg_tmp (g : img_frm -> img_frm) (c : cmr_cap_mem) : cmr_cap_mem :=
  mk_cap_mem (cap_raw c) (cap_yuv c) (target_yuv c) (target_jpeg c) (thum_yuv c) (thum_jpeg c) (g (jpeg_tmp c)) (scale_tmp c) (cap_yuv_rot c) (isp_tmp c).
Definition on_cap_yuv_rot (g : img_frm -> img_frm) (c : cmr_cap_mem) : cmr_cap_mem :=
  mk_cap_mem (cap_raw c) (cap_yuv c) (target_yuv c) (target_jpeg c) (thum_yuv c) (thum_jpeg c) (jpeg_tmp c) (scale_tmp c) (g (cap_yuv_rot c)) (isp_tmp c).

Definition zero_cap_mem : cmr_cap_mem := mk_cap_mem zero_frm zero_frm zero_frm zero_frm zero_frm zero_frm zero_frm zero_frm zero_frm zero_frm.

(** ** Constants *)
Definition IMG_DATA_TYPE_JPEG : Z := 0.
Definition IMG_DATA_TYPE_YUV420 : Z := 2.
Definition IMG_DATA_TYPE_RAW : Z := 5.
Definition SENSOR_IMAGE_FORMAT_RAW : Z := 2.
Definition BACK_CAMERA_ID : Z := 0.
Definition FRONT_CAMERA_ID : Z := 1.
Definition JPEG_SMALL_SIZE : Z := 300 * 1024.
Definition JPEG_EXIF_SIZE : Z := 64 * 1024.
Definition RAWRGB_BIT_WIDTH : Z := 10.
Definition CMR_SLICE_HEIGHT : Z := 256.
Definition ISP_YUV_TO_RAW_GAP : Z := CMR_SLICE_HEIGHT.
Definition MIN_GAP_LINES : Z := 0x80.
Definition ALIGN_PAGE_SIZE : Z := 4096.

Definition CAMERA_ALIGNED_16 (w : Z) : Z := u32 (Z.shiftl (Z.shiftr (u32 (w + 16 - 1)) 4) 4).
Definition align16 (s : img_size) : img_size := mk_size (CAMERA_ALIGNED_16 (width s)) (CAMERA_ALIGNED_16 (height s)).
Definition ADDR_BY_WORD (a : Z) : Z := Z.land (u32 (a + 3)) (2 ^ 32 - 4).
Definition CMR_JPEG_SZIE (w h : Z) : Z := u32 (w * h).
Definition pixels (s : img_size) : Z := u32 (width s * height s).

(** ** The size of the block *)
Definition mega (n : Z) : Z := Z.shiftl n 20.

(** Pairs of a number of pixels and a size: thirteen rows each, of which the ones that the
    source leaves out are zero. *)
Definition back_cam_mem_size_tab : list (Z * Z) :=
  [(0x180000, mega 6); (0x200000, mega 8); (0x300000, mega 13); (0x400000, mega 14); (0x500000, mega 20); (0x600000, mega 18); (0x700000, mega 21); (0x800000, mega 22)] ++ replicate 5 (0, 0).
Definition back_cam_raw_mem_size_tab : list (Z * Z) :=
  [(0x180000, mega 5); (0x200000, mega 8); (0x300000, mega 12); (0x400000, mega 13); (0x500000, mega 16); (0x600000, mega 19); (0x700000, mega 22); (0x800000, mega 25); (0x900000, mega 35); (0xA00000, mega 35); (0xB00000, mega 36); (0xC00000, mega 36); (0xD00000, mega 37)].
Definition front_cam_mem_size_tab : list (Z * Z) :=
  [(0x180000, mega 7); (0x200000, mega 9); (0x300000, mega 13); (0x400000, mega 18); (0x500000, mega 19); (0x600000, mega 19); (0x700000, mega 21); (0x800000, mega 22)] ++ replicate 5 (0, 0).
Definition front_cam_raw_mem_size_tab : list (Z * Z) :=
  [(0x180000, mega 9); (0x200000, mega 9); (0x300000, mega 13); (0x400000, mega 18); (0x500000, mega 19); (0x600000, mega 19); (0x700000, mega 21); (0x800000, mega 22)] ++ replicate 5 (0, 0).
Definition mem_size_tab : list (Z * Z) :=
  [(0x180000, mega 4); (0x200000, mega 8); (0x300000, mega 16); (0x400000, mega 16); (0x500000, mega 16); (0x600000, mega 16); (0x700000, mega 16); (0x800000, mega 16)] ++ replicate 5 (0, 0).

Definition size_table (camera_id sn_fmt : Z) : list (Z * Z) :=
  if sn_fmt =? SENSOR_IMAGE_FORMAT_RAW then
    if camera_id =? BACK_CAMERA_ID then back_cam_raw_mem_size_tab
    else if camera_id =? FRONT_CAMERA_ID then front_cam_raw_mem_size_tab
    else mem_size_tab
  else
    if camera_id =? BACK_CAMERA_ID then back_cam_mem_size_tab
    else if camera_id =? FRONT_CAMERA_ID then front_cam_mem_size_tab
    else mem_size_tab.

Fixpoint find_row (size_pixel : Z) (tab : list (Z * Z)) : option Z :=
  match tab with
  | [] => None
  | (pixel_num, mem_size) :: tab => if size_pixel <=? pixel_num then Some mem_size else find_row size_pixel tab
  end.

(** [None]: the call returns -1 and [mem_size] is not set. *)
Definition camera_capture_buf_size (camera_id sn_fmt : Z) (image_size : option img_size) : option Z :=
  match image_size with
  | None => None
  | Some image_size => find_row (pixels image_size) (size_table camera_id sn_fmt)
  end.

(** ** The sizes of the buffers *)
Definition get_jpeg_size (w h : Z) : Z :=
  ADDR_BY_WORD (if u32 (w * h) <=? JPEG_SMALL_SIZE then u32 (CMR_JPEG_SZIE w h + JPEG_EXIF_SIZE) else CMR_JPEG_SZIE w h).
Definition get_thum_yuv_size (t : img_size) : Z := u32 (u32 (width t * height t) * 3) / 2.
Definition get_thum_jpeg_size (t : img_size) : Z := ADDR_BY_WORD (CMR_JPEG_SZIE (width t) (height t)).

(** ** The block being cut

    The record of the buffers, what is left of the block, where it starts and the size of a
    plane; the heap belongs to the callback.  A failed step keeps what has been written so
    far. *)
Section arranger.
Context {heap : Type}.

Record arr := mk_arr {
  cap : cmr_cap_mem;
  mem_res : Z;
  mem_end : Z;
  channel_size : Z;
  hp : heap
}.

Definition arranger (A : Type) : Type := arr -> option A * arr.
Definition ret {A} (a : A) : arranger A := fun s => (Some a, s).
Definition fail {A} : arranger A := fun s => (None, s).
Definition bind {A B} (m : arranger A) (k : A -> arranger B) : arranger B :=
  fun s => match m s with (Some a, s) => k a s | (None, s) => (None, s) end.

Definition get {A} (f : arr -> A) : arranger A := fun s => (Some (f s), s).
Definition upd (g : cmr_cap_mem -> cmr_cap_mem) : arranger unit :=
  fun s => (Some tt, mk_arr (g (cap s)) (mem_res s) (mem_end s) (channel_size s) (hp s)).
Definition set_mem (r e : Z) : arranger unit := fun s => (Some tt, mk_arr (cap s) r e (channel_size s) (hp s)).
Definition set_channel (n : Z) : arranger unit := fun s => (Some tt, mk_arr (cap s) (mem_res s) (mem_end s) n (hp s)).

(** [CMR_NO_MEM(n, mem_res)]. *)
Definition CMR_NO_MEM (n : Z) : arranger unit := fun s => if mem_res s <? n then fail s else ret tt s.

(** [mem_end += n; mem_res -= n]. *)
Definition take_mem (n : Z) : arranger unit := fun s => set_mem (u32 (mem_res s - n)) (u32 (mem_end s + n)) s.
End arranger.
Arguments arr : clear implicits.
Arguments arranger : clear implicits.

Notation "'do' x <- m ; k" := (bind m (fun x => k)) (at level 60, x pattern, m at next level, right associativity) : c_scope.
Notation "m ;;; k" := (bind m (fun _ => k)) (at level 60, right associativity) : c_scope.

(** The arguments that every step gets. *)
Record request := mk_request {
  sn_size : img_size;
  sn_trim : img_rect;
  image_size : img_size;
  orig_fmt : Z;
  cap_size : img_size;
  thum_size : img_size;
  need_rot : bool
}.

Section arrange.
Context {heap : Type} (alloc_mem : Z -> heap -> option (Z * Z) * heap) (mem_frm : img_frm).
Let base_phy : Z := addr_y (addr_phy mem_frm).
Let base_vir : Z := addr_y (addr_vir mem_frm).

(** [cap_2_frm->alloc_mem]: the physical and the virtual address. *)
Definition alloc (n : Z) : arranger heap (Z * Z) := fun s =>
  let '(r, h) := alloc_mem n (hp s) in (r, mk_arr (cap s) (mem_res s) (mem_end s) (channel_size s) h).

(** The addresses of the start of what is left. *)
Definition here : arranger heap (Z * Z) := get (fun s => (u32 (base_phy + mem_end s), u32 (base_vir + mem_end s))).

(** The coded picture, when no rotation follows. *)
Definition place_jpeg (need_rot : bool) : arranger heap unit :=
  if need_rot then ret tt
  else
    do n <- get (fun s => buf_size (target_jpeg (cap s)));
    CMR_NO_MEM n ;;;
    do (phy, vir) <- here;
    upd (on_target_jpeg (set_addr_y phy vir)) ;;;
    take_mem n.

(** ** Pictures from a sensor that delivers raw data *)

(** The distance between the planes of the scaled and the captured picture, and how much of
    the raw data may be overwritten. *)
Definition raw_gap (r : request) : Z * Z :=
  let im := align16 (image_size r) in
  let sa := align16 (sn_size r) in
  let gap := u32 (ISP_YUV_TO_RAW_GAP * width (sn_size r)) in
  if negb ((width im =? width sa) && (height im =? height sa)) then
    if pixels sa <? pixels im then
      let yy_to_y := u32 (pixels im - pixels sa) in
      let yy_to_y := if yy_to_y <? gap then gap else yy_to_y in
      let useless_raw := u32 (pixels sa * RAWRGB_BIT_WIDTH) / 8 in
      (yy_to_y, u32 (useless_raw - u32 (width sa * u32 (height sa - ISP_YUV_TO_RAW_GAP))))
    else (gap, u32 (gap * RAWRGB_BIT_WIDTH) / 8)
  else if negb (start_y (sn_trim r) =? 0) then
    let yy_to_y2 := u32 (pixels (image_size r) - pixels (cap_size r)) in
    let yy_to_y2 := if yy_to_y2 <? gap then gap else yy_to_y2 in
    let tmp := u32 (height (sn_size r) - rect_height (sn_trim r) - start_y (sn_trim r)) in
    let yy_to_y := Z.max yy_to_y2 (u32 (tmp * width (sn_size r))) in
    (yy_to_y, u32 (yy_to_y * RAWRGB_BIT_WIDTH) / 8)
  else (0, 0).

(** The chroma plane: in the block, or allocated. *)
Definition place_uv (uv_size : Z) : arranger heap unit :=
  do fits <- get (fun s => uv_size <? mem_res s);
  if fits : bool then
    do (phy, vir) <- here;
    upd (on_target_yuv (set_addr_u phy vir)) ;;; take_mem uv_size
  else
    do (phy, vir) <- alloc uv_size;
    upd (on_target_yuv (set_addr_u phy vir)).

Definition arrange_raw_buf (r : request) : arranger heap unit :=
  if negb (orig_fmt r =? IMG_DATA_TYPE_RAW) then fail
  else
    let sn := sn_size r in
    let channel := pixels sn in
    let raw_size := u32 (channel * RAWRGB_BIT_WIDTH) / 8 in
    let y_to_raw := u32 (ISP_YUV_TO_RAW_GAP * width sn) in
    let '(yy_to_y, useless_raw) := raw_gap r in
    let uv_size := u32 (Z.shiftr channel 1 + Z.shiftr yy_to_y 1) in
    let cap_y b := u32 (b + yy_to_y) in
    upd (on_target_yuv (set_addr_y base_phy base_vir)) ;;;
    upd (on_cap_yuv (set_addr_y (cap_y base_phy) (cap_y base_vir))) ;;;
    upd (on_cap_raw (fun f => set_buf_size raw_size (set_addr_y (u32 (cap_y base_phy + y_to_raw)) (u32 (cap_y base_vir + y_to_raw)) f))) ;;;
    let offset := u32 (raw_size + y_to_raw + yy_to_y - useless_raw) in
    CMR_NO_MEM offset ;;;
    take_mem offset ;;;
    place_jpeg (need_rot r) ;;;
    place_uv uv_size ;;;
    do t <- get (fun s => target_yuv (cap s));
    upd (on_cap_yuv (set_addr_u (u32 (addr_u (addr_phy t) + Z.shiftr yy_to_y 1)) (u32 (addr_u (addr_vir t) + Z.shiftr yy_to_y 1)))) ;;;
    let n := Z.shiftr (u32 (channel * 3)) 1 in
    upd (on_cap_yuv (fun f => set_fmt IMG_DATA_TYPE_YUV420 (set_size (mk_size (width sn) (height sn)) (set_buf_size n f)))) ;;;
    upd (on_cap_raw (fun f => set_fmt IMG_DATA_TYPE_RAW (set_size (mk_size (width sn) (height sn)) f))) ;;;
    upd (on_target_yuv (fun f => set_fmt IMG_DATA_TYPE_YUV420 (set_size (align16 (image_size r)) (set_buf_size n f)))) ;;;
    set_channel channel.

(** ** Pictures from a sensor that delivers JPEG data *)

(** At least 128 lines lie between the planes; what is missing, in pages. *)
Definition jpeg_gap (w dist : Z) : Z :=
  let lim := u32 (MIN_GAP_LINES * w) in
  if dist <? lim then Z.land (u32 (u32 (lim - dist) + ALIGN_PAGE_SIZE - 1)) (2 ^ 32 - ALIGN_PAGE_SIZE) else 0.

Definition arrange_jpeg_buf (r : request) : arranger heap unit :=
  if negb (orig_fmt r =? IMG_DATA_TYPE_JPEG) then fail
  else
    let im := align16 (image_size r) in
    let sn := sn_size r in
    let channel := pixels im in
    let yy_to_y := u32 (u32 (height sn - start_y (sn_trim r) - rect_height (sn_trim r)) * width sn) in
    let tmp := u32 (height sn * width sn) in
    let y_end := u32 (yy_to_y + Z.max channel tmp) in
    let cap_y b := u32 (u32 (b + y_end) - tmp) in
    let gap_size := jpeg_gap (width im) (u32 (cap_y base_phy - base_phy)) in
    let target_u b := u32 (u32 (b + y_end) + gap_size) in
    let cap_u b := u32 (target_u b + y_end - tmp + gap_size) in
    upd (on_target_yuv (fun f => set_addr_u (target_u base_phy) (target_u base_vir) (set_addr_y base_phy base_vir f))) ;;;
    upd (on_cap_yuv (fun f => set_addr_u (cap_u base_phy) (cap_u base_vir) (set_addr_y (u32 (cap_y base_phy + gap_size)) (u32 (cap_y base_vir + gap_size)) f))) ;;;
    let offset :=
      if need_rot r then u32 (Z.shiftr (u32 (y_end * 3)) 1 + u32 (2 * gap_size))
      else u32 (u32 (Z.shiftl y_end 1) + u32 (2 * gap_size)) in
    CMR_NO_MEM offset ;;;
    do res <- get mem_res;
    set_mem (u32 (res - offset)) offset ;;;
    place_jpeg (need_rot r) ;;;
    let n := u32 (channel * 3) / 2 in
    upd (on_cap_yuv (fun f => set_fmt IMG_DATA_TYPE_YUV420 (set_size (align16 (cap_size r)) (set_buf_size n f)))) ;;;
    upd (on_target_yuv (fun f => set_fmt IMG_DATA_TYPE_YUV420 (set_size im (set_buf_size n f)))) ;;;
    set_channel channel.

(** ** Pictures from a sensor that delivers YUV data *)
Definition arrange_yuv_buf (r : request) : arranger heap unit :=
  if (orig_fmt r =? IMG_DATA_TYPE_JPEG) || (orig_fmt r =? IMG_DATA_TYPE_RAW) then fail
  else
    let im := align16 (image_size r) in
    let tmp := pixels (cap_size r) in
    let scaling_up := tmp <? pixels im in
    let channel := if scaling_up then pixels im else tmp in
    (if scaling_up then
       let target_u b := u32 (b + channel) in
       let cap_u b := u32 (target_u b + Z.shiftr (u32 (channel - tmp)) 1) in
       upd (on_target_yuv (fun f => set_addr_u (target_u base_phy) (target_u base_vir) (set_addr_y base_phy base_vir f))) ;;;
       upd (on_cap_yuv (fun f => set_addr_u (cap_u base_phy) (cap_u base_vir) (set_addr_y (u32 (target_u base_phy - tmp)) (u32 (target_u base_vir - tmp)) f)))
     else
       upd (on_cap_yuv (fun f => set_addr_u (u32 (base_phy + tmp)) (u32 (base_vir + tmp)) (set_addr_y base_phy base_vir f))) ;;;
       upd (fun c => on_target_yuv (fun _ => cap_yuv c) c)) ;;;
    let offset := Z.shiftr (u32 (channel * 3)) 1 in
    CMR_NO_MEM offset ;;;
    do res <- get mem_res;
    set_mem (u32 (res - offset)) offset ;;;
    place_jpeg (need_rot r) ;;;
    upd (on_cap_yuv (fun f => set_fmt IMG_DATA_TYPE_YUV420 (set_size (align16 (cap_size r)) (set_buf_size offset f)))) ;;;
    upd (on_target_yuv (fun f => set_fmt IMG_DATA_TYPE_YUV420 (set_size im (set_buf_size offset f)))) ;;;
    set_channel channel.

(** ** The thumbnail *)
Definition misc_frame (n phy vir : Z) : img_frm :=
  let third := u32 (n * 2) / 3 in
  set_addr_u (u32 (phy + third)) (u32 (vir + third)) (set_addr_y phy vir (set_buf_size n zero_frm)).

(** The first loop, until a buffer does not fit: the frames, and the sizes that are left. *)
Fixpoint cut_misc (sizes : list Z) : arranger heap (list img_frm * list Z) :=
  match sizes with
  | [] => ret ([], [])
  | n :: rest =>
      do fits <- get (fun s => n <=? mem_res s);
      if fits : bool then
        do (phy, vir) <- here;
        take_mem n ;;;
        do (frames, later) <- cut_misc rest;
        ret (misc_frame n phy vir :: frames, later)
      else ret ([], sizes)
  end.

(** The second loop. *)
Fixpoint alloc_misc (sizes : list Z) : arranger heap (list img_frm) :=
  match sizes with
  | [] => ret []
  | n :: rest =>
      do (phy, vir) <- alloc n;
      do frames <- alloc_misc rest;
      ret (misc_frame n phy vir :: frames)
  end.

Definition arrange_misc_buf (r : request) : arranger heap unit :=
  do (first, later) <- cut_misc [get_thum_yuv_size (thum_size r); get_thum_jpeg_size (thum_size r)];
  do second <- alloc_misc later;
  match first ++ second with
  | [yuv; jpeg] =>
      upd (on_thum_yuv (fun f => set_size (thum_size r) (set_addr_u (addr_u (addr_phy yuv)) (addr_u (addr_vir yuv))
        (set_addr_y (addr_y (addr_phy yuv)) (addr_y (addr_vir yuv)) (set_buf_size (buf_size yuv) f))))) ;;;
      upd (on_thum_jpeg (fun f => set_addr_y (addr_y (addr_phy jpeg)) (addr_y (addr_vir jpeg)) (set_buf_size (buf_size jpeg) f))) ;;;
      upd (fun c => on_jpeg_tmp (fun f => set_addr_y (addr_u (addr_phy (cap_yuv c))) (addr_u (addr_vir (cap_yuv c))) (set_buf_size (buf_size (cap_yuv c)) f)) c)
  | _ => fail
  end.

(** ** The rotation *)
Definition arrange_rot_buf (r : request) : arranger heap unit :=
  if negb (need_rot r) then fail
  else
    do channel <- get channel_size;
    let size_pixel := if orig_fmt r =? IMG_DATA_TYPE_JPEG then u32 (Z.shiftl channel 1) else Z.shiftr (u32 (channel * 3)) 1 in
    do fits <- get (fun s => size_pixel <? mem_res s);
    (if fits : bool then
       do (phy, vir) <- here;
       take_mem size_pixel ;;;
       upd (on_cap_yuv_rot (fun f => set_addr_u (u32 (phy + channel)) (u32 (vir + channel)) (set_addr_y phy vir f)))
     else
       do (phy, vir) <- alloc channel;
       upd (on_cap_yuv_rot (set_addr_y phy vir)) ;;;
       do (phy, vir) <- alloc channel;
       upd (on_cap_yuv_rot (set_addr_u phy vir))) ;;;
    let im := align16 (image_size r) in
    upd (on_cap_yuv_rot (fun f => set_fmt IMG_DATA_TYPE_YUV420 (set_buf_size size_pixel (set_size (mk_size (height im) (width im)) f)))) ;;;
    do rot <- get (fun s => cap_yuv_rot (cap s));
    upd (on_target_jpeg (set_addr_y (addr_y (addr_phy rot)) (addr_y (addr_vir rot)))) ;;;
    upd (on_jpeg_tmp (set_addr_y (addr_u (addr_phy rot)) (addr_u (addr_vir rot)))).

(** ** The whole *)

(** The coded picture leaves room for the EXIF data before it. *)
Definition leave_exif (f : img_frm) : img_frm :=
  set_buf_size (u32 (buf_size f - JPEG_EXIF_SIZE))
    (set_addr_y (u32 (addr_y (addr_phy f) + JPEG_EXIF_SIZE)) (u32 (addr_y (addr_vir f) + JPEG_EXIF_SIZE)) f).

Definition arrange_all (r : request) : arranger heap unit :=
  let im := align16 (image_size r) in
  upd (fun _ => on_target_jpeg (set_buf_size (get_jpeg_size (width im) (height im))) zero_cap_mem) ;;;
  (if orig_fmt r =? IMG_DATA_TYPE_RAW then arrange_raw_buf r
   else if orig_fmt r =? IMG_DATA_TYPE_JPEG then arrange_jpeg_buf r
   else arrange_yuv_buf r) ;;;
  arrange_misc_buf r ;;;
  (if need_rot r then arrange_rot_buf r else ret tt) ;;;
  upd (on_target_jpeg leave_exif).
End arrange.

(** Entry 0 copied to the [n] entries after it. *)
Fixpoint copy_mem (n : nat) (c : cmr_cap_mem) (rest : list cmr_cap_mem) : outcome (list cmr_cap_mem) :=
  match n, rest with
  | O, _ => Done rest
  | S n, _ :: rest => let* rest := copy_mem n c rest in Done (c :: rest)
  | S _, [] => Undef
  end.

Definition camera_arrange_capture_buf {heap : Type} (alloc_mem : Z -> heap -> option (Z * Z) * heap) (cap_2_frm : option img_frm)
    (sn_size : option img_size) (sn_trim : option img_rect) (image_size : option img_size) (orig_fmt : Z) (cap_size thum_size : option img_size)
    (capture_mem : option (list cmr_cap_mem)) (need_rot : bool) (image_cnt : Z) (h : heap)
    : outcome (Z * option (list cmr_cap_mem) * heap) :=
  match cap_2_frm, image_size, thum_size, capture_mem, sn_size, sn_trim with
  | Some frm, Some im, Some th, Some mems, Some sn, Some trim =>
      match cap_size, mems with
      | Some cs, c :: rest =>
          let r := mk_request sn trim im orig_fmt cs th need_rot in
          match arrange_all alloc_mem frm r (mk_arr c (buf_size frm) 0 (pixels (align16 im)) h) with
          | (Some _, s) =>
              let* rest := copy_mem (Z.to_nat (image_cnt - 1)) (cap s) rest in
              Done (0, Some (cap s :: rest), hp s)
          | (None, s) => Done (-1, Some (cap s :: rest), hp s)
          end
      | _, _ => Undef
      end
  | _, _, _, _, _, _ => Done (-1, capture_mem, h)
  end.
