(* ===== verification/CmrLayout.v ===== *)
(** * The layout of the memory of a capture

    The buffers that [camera_arrange_capture_buf] hands out, as regions of memory, in the
    physical or in the virtual address space: they do not meet, and they lie in the block or
    in memory that the callback gave.  The proofs are symbolic runs of the steps, with a
    precondition calculus ([wp]) that serves the statements "when it succeeds" and "it
    succeeds" alike, and a ledger of the regions that are in use. *)

From S2P Require Import Prelude CmrMem.

(** ** Regions *)
Definition apart (a b : Z * Z) : Prop := fst a + snd a <= fst b \/ fst b + snd b <= fst a.
Definition within (a b : Z * Z) : Prop := fst b <= fst a /\ fst a + snd a <= fst b + snd b.
Definition all_apart : list (Z * Z) -> Prop := ForallOrdPairs apart.

Lemma apart_sym a b : apart a b -> apart b a.
Proof. unfold apart. tauto. Qed.

Lemma apart_within a b c : apart a b -> within c b -> apart a c.
Proof. unfold apart, within. lia. Qed.

Lemma within_trans a b c : within a b -> within b c -> within a c.
Proof. unfold within. lia. Qed.

(** What the callback promises: the memory it gives lies in the address space and apart from
    all memory in use; [live] says which that is, physical ([false]) and virtual ([true]). *)
Class Allocator {heap : Type} (alloc_mem : Z -> heap -> option (Z * Z) * heap) (live : bool -> heap -> list (Z * Z)) : Prop :=
  alloc_fresh : forall n h p q h', alloc_mem n h = (Some (p, q), h') -> forall v : bool,
    let a := if v then q else p in
    0 <= a /\ a + n < 2 ^ 32 /\ Forall (apart (a, n)) (live v h) /\ live v h' = (a, n) :: live v h.

(** ** The steps *)
Section wp.
Context {heap : Type} (alloc_mem : Z -> heap -> option (Z * Z) * heap).

(** After [m] from [s], [Q] holds; with [total], [m] succeeds. *)
Definition wp {A} (total : bool) (m : arranger heap A) (s : arr heap) (Q : A -> arr heap -> Prop) : Prop :=
  match m s with (Some a, s') => Q a s' | (None, _) => total = false end.

Context (total : bool).

Lemma wp_ret {A} (a : A) s Q : Q a s -> wp total (ret a) s Q.
Proof. done. Qed.

Lemma wp_bind {A B} (m : arranger heap A) (k : A -> arranger heap B) s Q :
  wp total m s (fun a s' => wp total (k a) s' Q) -> wp total (bind m k) s Q.
Proof. unfold wp, bind. by destruct (m s) as [[a|] s']. Qed.

Lemma wp_get {A} (f : arr heap -> A) s Q : Q (f s) s -> wp total (get f) s Q.
Proof. done. Qed.

Lemma wp_upd g s (Q : unit -> arr heap -> Prop) : Q tt (mk_arr (g (cap s)) (mem_res s) (mem_end s) (channel_size s) (hp s)) -> wp total (upd g) s Q.
Proof. done. Qed.

Lemma wp_set_mem r e s (Q : unit -> arr heap -> Prop) : Q tt (mk_arr (cap s) r e (channel_size s) (hp s)) -> wp total (set_mem r e) s Q.
Proof. done. Qed.

Lemma wp_set_channel n s (Q : unit -> arr heap -> Prop) : Q tt (mk_arr (cap s) (mem_res s) (mem_end s) n (hp s)) -> wp total (set_channel n) s Q.
Proof. done. Qed.

Lemma wp_no_mem n s (Q : unit -> arr heap -> Prop) : (total = true -> n <= mem_res s) -> (n <= mem_res s -> Q tt s) -> wp total (CMR_NO_MEM n) s Q.
Proof. intros Ht H. unfold wp, CMR_NO_MEM. destruct (Z.ltb_spec (mem_res s) n); cbn; [destruct total; [lia|done]|auto]. Qed.

Lemma wp_take n s (Q : unit -> arr heap -> Prop) :
  0 <= n <= mem_res s -> u32_ok (mem_end s + n) -> mem_res s < 2 ^ 32 ->
  Q tt (mk_arr (cap s) (mem_res s - n) (mem_end s + n) (channel_size s) (hp s)) -> wp total (take_mem n) s Q.
Proof. intros Hn He Hr H. unfold wp, take_mem, set_mem. unfold u32_ok in *. rewrite !u32_small by (unfold u32_ok; lia). done. Qed.

Lemma wp_alloc n s (Q : Z * Z -> arr heap -> Prop) :
  total = false ->
  (forall p q h', alloc_mem n (hp s) = (Some (p, q), h') -> Q (p, q) (mk_arr (cap s) (mem_res s) (mem_end s) (channel_size s) h')) ->
  wp total (alloc alloc_mem n) s Q.
Proof. intros Ht H. unfold wp, alloc. destruct (alloc_mem n (hp s)) as [[[p q]|] h'] eqn:E; [by apply H|done]. Qed.

Lemma wp_mono {A} (m : arranger heap A) s (Q Q' : A -> arr heap -> Prop) : wp total m s Q -> (forall a s', Q a s' -> Q' a s') -> wp total m s Q'.
Proof. unfold wp. intros H HQ. destruct (m s) as [[a|] s']; auto. Qed.
End wp.

(** One step of a symbolic run. *)
Ltac wp_step :=
  lazymatch goal with
  | |- wp _ (bind _ _) _ _ => apply wp_bind
  | |- wp _ (ret _) _ _ => apply wp_ret
  | |- wp _ (get _) _ _ => apply wp_get
  | |- wp _ (upd _) _ _ => apply wp_upd
  | |- wp _ (set_mem _ _) _ _ => apply wp_set_mem
  | |- wp _ (set_channel _) _ _ => apply wp_set_channel
  end.
Ltac wp_run := repeat (wp_step; cbv beta; cbn [cap mem_res mem_end channel_size hp]).

(** ** The ledger *)

(** The addresses of a frame in the space that [v] names. *)
Definition addr (v : bool) (f : img_frm) : img_addr := if v then addr_vir f else addr_phy f.

Section ledger.
Context {heap : Type} (alloc_mem : Z -> heap -> option (Z * Z) * heap) (live : bool -> heap -> list (Z * Z)) (frm : img_frm) (v : bool).

Definition base : Z := addr_y (addr v frm).
Definition block_region : Z * Z := (base, buf_size frm).

(** The block lies in the address space and is in use. *)
Definition block_ok (h : heap) : Prop :=
  0 <= base /\ 0 <= buf_size frm /\ base + buf_size frm < 2 ^ 32 /\ In block_region (live v h).

(** A region in memory that the callback gave. *)
Definition given (h : heap) (r : Z * Z) : Prop :=
  exists q, In q (live v h) /\ apart q block_region /\ (0 <= fst q /\ fst q + snd q < 2 ^ 32) /\ within r q.

(** A region in what has been cut from the block, or in memory that the callback gave. *)
Definition placed (s : arr heap) (r : Z * Z) : Prop :=
  within r (base, mem_end s) \/ given (hp s) r.

Record ledger (R : list (Z * Z)) (s : arr heap) : Prop := {
  l_sum : mem_end s + mem_res s = buf_size frm;
  l_end : 0 <= mem_end s;
  l_res : 0 <= mem_res s;
  l_block : block_ok (hp s);
  l_apart : all_apart R;
  l_placed : Forall (placed s) R
}.

(** Only the position and the heap matter. *)
Lemma ledger_same R s s' : mem_res s' = mem_res s -> mem_end s' = mem_end s -> hp s' = hp s -> ledger R s -> ledger R s'.
Proof. intros E1 E2 E3 [? ? ? ? ? H]. split; try congruence. unfold placed in *. by rewrite E2, E3. Qed.

Lemma ledger_cut R s n :
  ledger R s -> 0 <= n <= mem_res s ->
  ledger ((base + mem_end s, n) :: R) (mk_arr (cap s) (mem_res s - n) (mem_end s + n) (channel_size s) (hp s)).
Proof.
  intros [Hs He Hr Hb Ha Hp] Hn. split; cbn [mem_end mem_res hp]; try done; try lia.
  - constructor; [|done]. eapply Forall_impl; [exact Hp|]. intros [a m] [Hw|(q & Hq & Hd & _ & Hw)].
    + unfold within, apart in *. cbn in *. lia.
    + eapply apart_within; [|exact Hw]. apply apart_sym. eapply apart_within; [exact Hd|]. unfold within, block_region. cbn. lia.
  - constructor.
    + left. unfold within. cbn. lia.
    + eapply Forall_impl; [exact Hp|]. intros r [Hw|H]; [left|by right]. unfold within in *. cbn in *. lia.
Qed.

Context `{!Allocator alloc_mem live}.

Lemma ledger_alloc R s n p q h' :
  ledger R s -> alloc_mem n (hp s) = (Some (p, q), h') ->
  ledger ((if v then q else p, n) :: R) (mk_arr (cap s) (mem_res s) (mem_end s) (channel_size s) h').
Proof.
  intros [Hs He Hr (B0 & B1 & B2 & Hb) Ha Hp] E. destruct (alloc_fresh _ _ _ _ _ E v) as (A0 & A1 & Hf & El). cbv zeta in *.
  assert (forall w, In w (live v (hp s)) -> apart (if v then q else p, n) w) as Hd by by apply List.Forall_forall.
  split; cbn [mem_end mem_res hp]; try done.
  - unfold block_ok. rewrite El. split_and!; try done. by right.
  - constructor; [|done]. eapply Forall_impl; [exact Hp|]. intros r [Hw|(w & Hq & _ & _ & Hw)].
    + eapply apart_within; [by apply Hd, Hb|]. eapply within_trans; [exact Hw|]. unfold within, block_region. cbn. lia.
    + eapply apart_within; [by apply Hd|done].
  - constructor.
    + right. exists (if v then q else p, n). cbn [hp]. rewrite El. split; [by left|]. split; [by apply Hd|]. split; [done|unfold within; lia].
    + eapply Forall_impl; [exact Hp|]. intros r [Hw|(w & Hq & Hw)]; [by left|right]. exists w. split; [cbn [hp]; rewrite El; by right|done].
Qed.

(** The newest region made smaller. *)
Lemma ledger_shrink R s r r' : within r' r -> ledger (r :: R) s -> ledger (r' :: R) s.
Proof.
  intros Hw [Hs He Hr Hb Ha Hp]. inversion Ha as [|? ? H1 H2]; subst. inversion Hp as [|? ? P1 P2]; subst. split; try done.
  - constructor; [|done]. eapply Forall_impl; [exact H1|]. intros x Hx. apply apart_sym. eapply apart_within; [by apply apart_sym|done].
  - constructor; [|done]. destruct P1 as [P|(q & Hq & Hd & Hr' & P)]; [left; by eapply within_trans|right; exists q; do 3 (split; [done|]); by eapply within_trans].
Qed.

(** The newest region cut in two. *)
Lemma ledger_split R s a n m : 0 <= n -> 0 <= m -> ledger ((a, n + m) :: R) s -> ledger ((a, n) :: (a + n, m) :: R) s.
Proof.
  intros Hn Hm H. assert (within (a, n) (a, n + m)) as W1 by (unfold within; cbn; lia). destruct (ledger_shrink _ _ _ _ W1 H) as [? ? ? ? A1 P1].
  assert (within (a + n, m) (a, n + m)) as W2 by (unfold within; cbn; lia). destruct (ledger_shrink _ _ _ _ W2 H) as [? ? ? ? A2 P2].
  inversion A1; subst. inversion P1; subst. split; try done; constructor; try done. constructor; [|done]. left. cbn. lia.
Qed.

Lemma ledger_swap R s a b : ledger (a :: b :: R) s -> ledger (b :: a :: R) s.
Proof.
  intros [Hs He Hr Hb Ha Hp]. inversion Ha as [|? ? H1 H2]; subst. inversion H1; subst. inversion H2; subst. inversion Hp as [|? ? P1 P2]; subst. inversion P2; subst.
  split; try done; repeat (constructor; try (done || by apply apart_sym)).
Qed.

(** Every region lies in the address space. *)
Lemma ledger_range R s x : ledger R s -> In x R -> 0 <= fst x /\ fst x + snd x < 2 ^ 32.
Proof.
  intros [Hs He Hr (B0 & B1 & B2 & _) _ Hp] Hx. rewrite List.Forall_forall in Hp. destruct (Hp x Hx) as [Hw|(q & _ & _ & Hq & Hw)]; unfold within in Hw; cbn in *; lia.
Qed.

(** *** Cutting *)
Context (total : bool).

(** The rest of the block starts at this address, and the next [n] bytes of it are taken. *)
Lemma wp_here R s (Q : Z * Z -> arr heap -> Prop) :
  ledger R s -> (forall phy vir, (if v then vir else phy) = base + mem_end s -> Q (phy, vir) s) -> wp total (here frm) s Q.
Proof.
  intros HL HQ. destruct HL as [? ? ? (? & ? & ? & _) _ _]. unfold here. apply wp_get. apply HQ.
  unfold base, addr in *. destruct v; apply u32_small; unfold u32_ok; lia.
Qed.

Lemma wp_cut R s n (Q : unit -> arr heap -> Prop) :
  ledger R s -> 0 <= n <= mem_res s ->
  (forall s', s' = mk_arr (cap s) (mem_res s - n) (mem_end s + n) (channel_size s) (hp s) -> ledger ((base + mem_end s, n) :: R) s' -> Q tt s') ->
  wp total (take_mem n) s Q.
Proof.
  intros HL Hn HQ. pose proof HL as [? ? ? (? & ? & ? & _) _ _]. apply wp_take; [done|unfold u32_ok; lia|lia|].
  apply HQ; [done|by apply ledger_cut].
Qed.

Lemma wp_give R s n (Q : Z * Z -> arr heap -> Prop) :
  total = false -> ledger R s ->
  (forall phy vir s' h', s' = mk_arr (cap s) (mem_res s) (mem_end s) (channel_size s) h' -> ledger ((if v then vir else phy, n) :: R) s' -> Q (phy, vir) s') ->
  wp total (alloc alloc_mem n) s Q.
Proof. intros Ht HL H. apply wp_alloc; [done|]. intros p q h' E. eapply H; [done|by eapply ledger_alloc]. Qed.
End ledger.

(** Fields of a frame whose addresses were set. *)
Lemma addr_set_y v phy vir f : addr v (set_addr_y phy vir f) = mk_addr (if v then vir else phy) (addr_u (addr v f)) (addr_v (addr v f)).
Proof. by destruct v. Qed.
Lemma addr_set_u v phy vir f : addr v (set_addr_u phy vir f) = mk_addr (addr_y (addr v f)) (if v then vir else phy) (addr_v (addr v f)).
Proof. by destruct v. Qed.
Lemma addr_set_buf_size v n f : addr v (set_buf_size n f) = addr v f.
Proof. by destruct v. Qed.
Lemma addr_set_size v n f : addr v (set_size n f) = addr v f.
Proof. by destruct v. Qed.
Lemma addr_set_fmt v n f : addr v (set_fmt n f) = addr v f.
Proof. by destruct v. Qed.
Create Rewrite HintDb frames.
#[export] Hint Rewrite addr_set_y addr_set_u addr_set_buf_size addr_set_size addr_set_fmt : frames.

(** ** Sizes

    Up to 16384 in either direction nothing overflows. *)
Definition side_ok (n : Z) : Prop := 0 <= n <= 16384.
Definition size_ok (s : img_size) : Prop := side_ok (width s) /\ side_ok (height s).
Definition request_ok (r : request) : Prop := size_ok (sn_size r) /\ size_ok (image_size r) /\ size_ok (cap_size r) /\ size_ok (thum_size r).

Lemma land_high x k : 0 <= k <= 32 -> u32_ok x -> Z.land x (2 ^ 32 - 2 ^ k) = x / 2 ^ k * 2 ^ k.
Proof.
  intros Hk Hx. rewrite <- Z.shiftl_mul_pow2, <- Z.shiftr_div_pow2 by lia.
  replace (2 ^ 32 - 2 ^ k) with (Z.shiftl (Z.ones (32 - k)) k)
    by (rewrite Z.shiftl_mul_pow2, Z.ones_equiv by lia; unfold Z.pred; rewrite Z.mul_add_distr_r, <- Z.pow_add_r by lia; replace (32 - k + k) with 32 by lia; lia).
  apply Z.bits_inj'. intros i Hi. rewrite Z.land_spec. destruct (decide (i < k)).
  - rewrite !Z.shiftl_spec_low by lia. by rewrite andb_false_r.
  - rewrite !Z.shiftl_spec, Z.shiftr_spec by lia. replace (i - k + k) with i by lia. destruct (decide (i < 32)).
    + rewrite Z.ones_spec_low by lia. by rewrite andb_true_r.
    + rewrite Z.ones_spec_high by lia. rewrite andb_false_r. by rewrite (testbit_small x 32 i) by (unfold u32_ok in Hx; lia).
Qed.

Lemma pixels_ok s : size_ok s -> pixels s = width s * height s /\ 0 <= pixels s <= 2 ^ 28.
Proof.
  intros [[? ?] [? ?]]. unfold pixels. assert (0 <= width s * height s <= 16384 * 16384) by nia.
  rewrite u32_small by (unfold u32_ok; lia). lia.
Qed.

Lemma aligned_16 n : side_ok n -> n <= CAMERA_ALIGNED_16 n <= n + 15 /\ side_ok (CAMERA_ALIGNED_16 n) /\ CAMERA_ALIGNED_16 n mod 16 = 0.
Proof.
  unfold side_ok. intros Hn. unfold CAMERA_ALIGNED_16. rewrite (u32_small (n + 16 - 1)) by (unfold u32_ok; lia).
  rewrite Z.shiftr_div_pow2, Z.shiftl_mul_pow2 by lia. change (2 ^ 4) with 16.
  assert (n <= (n + 16 - 1) / 16 * 16 <= n + 15 /\ (n + 16 - 1) / 16 * 16 <= 16384) by (Z.to_euclidean_division_equations; lia).
  rewrite u32_small by (unfold u32_ok; lia). split_and!; try lia. apply Z_mod_mult.
Qed.

Lemma align16_ok s : size_ok s -> size_ok (align16 s).
Proof. intros [H1 H2]. split; cbn; by apply aligned_16. Qed.

Lemma by_word a : 0 <= a < 2 ^ 32 - 3 -> a <= ADDR_BY_WORD a <= a + 3.
Proof.
  intros Ha. unfold ADDR_BY_WORD. change (2 ^ 32 - 4) with (2 ^ 32 - 2 ^ 2). rewrite u32_small by (unfold u32_ok; lia).
  rewrite land_high by (unfold u32_ok; lia). change (2 ^ 2) with 4. Z.to_euclidean_division_equations. lia.
Qed.

(** The room of the coded picture: a byte for every pixel of the padded picture, and the
    room of the EXIF data on top when the picture is small. *)
Definition jpeg_room (r : request) : Z := get_jpeg_size (width (align16 (image_size r))) (height (align16 (image_size r))).

Lemma jpeg_room_ok r : request_ok r -> JPEG_EXIF_SIZE <= jpeg_room r <= pixels (align16 (image_size r)) + JPEG_EXIF_SIZE + 3.
Proof.
  intros (_ & Hi & _). destruct (pixels_ok _ (align16_ok _ Hi)) as [E Hp]. unfold jpeg_room, get_jpeg_size, CMR_JPEG_SZIE, JPEG_SMALL_SIZE, JPEG_EXIF_SIZE in *.
  fold (pixels (align16 (image_size r))). rewrite (u32_small (pixels _ + _)) by (unfold u32_ok; lia).
  case_match; match goal with |- _ <= ADDR_BY_WORD ?a <= _ => pose proof (by_word a) end; lia.
Qed.

Lemma thum_ok r : request_ok r -> 0 <= get_thum_yuv_size (thum_size r) <= pixels (thum_size r) * 3 / 2 /\ 0 <= get_thum_jpeg_size (thum_size r) <= pixels (thum_size r) + 3.
Proof.
  intros (_ & _ & _ & Ht). destruct (pixels_ok _ Ht) as [E Hp]. unfold get_thum_yuv_size, get_thum_jpeg_size, CMR_JPEG_SZIE. fold (pixels (thum_size r)).
  rewrite u32_small by (unfold u32_ok; lia). pose proof (by_word (pixels (thum_size r))). Z.to_euclidean_division_equations. lia.
Qed.

(** Sums that do not overflow. *)
Ltac small :=
  repeat match goal with
  | |- context[u32 ?x] => lazymatch x with context[u32 _] => fail | _ => rewrite (u32_small x) by (unfold u32_ok; Z.to_euclidean_division_equations; lia) end
  end.

(** ** The picture *)
Section picture.
Context {heap : Type} (alloc_mem : Z -> heap -> option (Z * Z) * heap) (live : bool -> heap -> list (Z * Z)) `{!Allocator alloc_mem live}.
Context (frm : img_frm) (v total : bool) (r : request).

(** The region of the coded picture, unless the rotation provides it. *)
Definition coded (c : cmr_cap_mem) : list (Z * Z) :=
  if need_rot r then [] else [(addr_y (addr v (target_jpeg c)), jpeg_room r)].

Definition coded_room : Z := if need_rot r then 0 else jpeg_room r.

Lemma wp_place_jpeg R s (Q : unit -> arr heap -> Prop) :
  request_ok r -> ledger live frm v R s -> buf_size (target_jpeg (cap s)) = jpeg_room r -> (total = true -> coded_room <= mem_res s) ->
  (forall s' phy vir, cap s' = (if need_rot r then cap s else on_target_jpeg (set_addr_y phy vir) (cap s)) ->
     mem_res s' = mem_res s - coded_room -> channel_size s' = channel_size s -> hp s' = hp s ->
     ledger live frm v (coded (cap s') ++ R) s' -> Q tt s') ->
  wp total (place_jpeg frm (need_rot r)) s Q.
Proof.
  intros Hr HL HJ Ht HQ. pose proof (jpeg_room_ok r Hr) as HJ0. unfold place_jpeg, coded, coded_room, JPEG_EXIF_SIZE in *. destruct (need_rot r).
  - apply wp_ret. apply (HQ s 0 0); (done || lia).
  - wp_run. rewrite HJ. apply wp_no_mem; [done|]. intros Hn. wp_run. eapply wp_here; [exact HL|]. intros phy vir Ha. wp_run.
    eapply wp_cut; [by eapply ledger_same; [..|exact HL]|cbn [mem_res]; lia|]. intros s' -> HL'. cbn [mem_end cap mem_res channel_size hp] in *.
    apply (HQ _ phy vir); try done. cbn [cap target_jpeg on_target_jpeg]. rewrite addr_set_y. cbn [addr_y]. by rewrite Ha.
Qed.

(** The luma and the chroma plane of the scaled picture and of the captured picture, which
    has [n] pixels. *)
Definition planes (n : Z) (c : cmr_cap_mem) : list (Z * Z) :=
  let m := pixels (align16 (image_size r)) in
  [(addr_y (addr v (target_yuv c)), m); (addr_u (addr v (target_yuv c)), m / 2);
   (addr_y (addr v (cap_yuv c)), n); (addr_u (addr v (cap_yuv c)), n / 2)].

(** The block before anything is cut from it. *)
Definition whole (s : arr heap) : Prop :=
  ledger live frm v [] s /\ mem_end s = 0 /\ buf_size (target_jpeg (cap s)) = jpeg_room r.

(** [mem_end = n; mem_res = mem_res - mem_end]. *)
Lemma wp_area {A} s n (k : arranger heap A) (Q : A -> arr heap -> Prop) :
  whole s -> 0 <= n -> (total = true -> n <= mem_res s) ->
  (forall s', cap s' = cap s -> mem_res s' = mem_res s - n -> channel_size s' = channel_size s -> hp s' = hp s ->
     ledger live frm v [(base frm v, n)] s' -> wp total k s' Q) ->
  wp total (CMR_NO_MEM n ;;; do res <- get mem_res; set_mem (u32 (res - n)) n ;;; k) s Q.
Proof.
  intros (HL & He & HJ) Hn Ht HQ. apply wp_bind. apply wp_no_mem; [done|]. intros Hle. wp_run.
  pose proof HL as [? ? ? (? & ? & ? & _) _ _]. rewrite u32_small by (unfold u32_ok; lia). apply HQ; try done.
  pose proof (ledger_cut live frm v _ _ n HL) as HC. eapply ledger_same; [done| | |rewrite He, Z.add_0_r in HC; apply HC; lia]; done.
Qed.

(** The end of the two routines that cut one area for all planes: the addresses stay. *)
Definition finish (n area channel : Z) (im : img_size) : arranger heap unit :=
  CMR_NO_MEM area ;;;
  do res <- get mem_res;
  set_mem (u32 (res - area)) area ;;;
  place_jpeg frm (need_rot r) ;;;
  upd (on_cap_yuv (fun f => set_fmt IMG_DATA_TYPE_YUV420 (set_size (align16 (cap_size r)) (set_buf_size n f)))) ;;;
  upd (on_target_yuv (fun f => set_fmt IMG_DATA_TYPE_YUV420 (set_size im (set_buf_size n f)))) ;;;
  set_channel channel.

(** What the picture leaves behind: its area, the coded picture after it. *)
Record pictured (s s' : arr heap) (area channel : Z) : Prop := {
  p_jpeg : buf_size (target_jpeg (cap s')) = jpeg_room r;
  p_channel : channel_size s' = channel;
  p_res : mem_res s' = mem_res s - area - coded_room;
  p_heap : hp s' = hp s;
  p_ledger : ledger live frm v (coded (cap s') ++ [(base frm v, area)]) s';
  p_planes : forall n, planes n (cap s') = planes n (cap s)
}.

Lemma wp_finish s n area channel im (Q : unit -> arr heap -> Prop) :
  request_ok r -> whole s -> 0 <= area -> (total = true -> area + coded_room <= mem_res s) ->
  (forall s', pictured s s' area channel -> Q tt s') -> wp total (finish n area channel im) s Q.
Proof.
  intros Hr Hw Ha Ht HQ. unfold finish. pose proof (jpeg_room_ok r Hr) as HJ. assert (0 <= coded_room) by (unfold coded_room, JPEG_EXIF_SIZE in *; destruct (need_rot r); lia).
  apply wp_area; [done|done|intros E; specialize (Ht E); lia|]. intros s1 E1 E2 E3 E4 HL. apply wp_bind.
  eapply wp_place_jpeg; [done|exact HL|by rewrite E1; apply Hw|intros E; specialize (Ht E); lia|].
  intros s2 phy vir F1 F2 F3 F4 HL2. wp_run. apply HQ. split; cbn [cap channel_size mem_res hp]; try done; try congruence.
  - cbn [target_jpeg on_target_yuv on_cap_yuv]. rewrite F1, E1. destruct (need_rot r); apply Hw.
  - eapply ledger_same; [..|exact HL2]; done.
  - intros m. unfold planes. cbn [target_yuv cap_yuv on_target_yuv on_cap_yuv]. autorewrite with frames. rewrite F1, E1. by destruct (need_rot r).
Qed.

Lemma coded_room_nonneg : request_ok r -> 0 <= coded_room.
Proof. intros Hr. pose proof (jpeg_room_ok r Hr). unfold coded_room, JPEG_EXIF_SIZE in *. destruct (need_rot r); lia. Qed.

Lemma pictured_fits s s' area channel : request_ok r -> pictured s s' area channel -> area <= mem_res s.
Proof. intros Hr [_ _ E _ [_ _ ? _ _ _] _]. pose proof (coded_room_nonneg Hr). lia. Qed.

Lemma half3 n : 0 <= n <= 2 ^ 30 -> Z.shiftr (u32 (n * 3)) 1 = n * 3 / 2.
Proof. intros Hn. rewrite u32_small by (unfold u32_ok; lia). by rewrite Z.shiftr_div_pow2 by lia. Qed.

Lemma whole_same s s' : mem_res s' = mem_res s -> mem_end s' = mem_end s -> hp s' = hp s ->
  buf_size (target_jpeg (cap s')) = buf_size (target_jpeg (cap s)) -> whole s -> whole s'.
Proof. intros E1 E2 E3 E4 (HL & He & HJ). split; [by eapply ledger_same; [..|exact HL]|]. split; congruence. Qed.

(** The planes by their addresses. *)
Lemma planes_by n m area c :
  m = pixels (align16 (image_size r)) ->
  within (addr_y (addr v (target_yuv c)), m) area -> within (addr_u (addr v (target_yuv c)), m / 2) area ->
  within (addr_y (addr v (cap_yuv c)), n) area -> within (addr_u (addr v (cap_yuv c)), n / 2) area ->
  Forall (fun p => within p area) (planes n c).
Proof. intros -> ? ? ? ?. unfold planes. repeat (apply List.Forall_cons; [done|]). apply List.Forall_nil. Qed.

(** *** YUV data *)
Definition yuv_channel : Z := Z.max (pixels (align16 (image_size r))) (pixels (cap_size r)).

Lemma yuv_phase s (Q : unit -> arr heap -> Prop) :
  request_ok r -> orig_fmt r <> IMG_DATA_TYPE_JPEG -> orig_fmt r <> IMG_DATA_TYPE_RAW -> whole s ->
  (total = true -> yuv_channel * 3 / 2 + coded_room <= mem_res s) ->
  (forall s1 s', pictured s1 s' (yuv_channel * 3 / 2) yuv_channel -> mem_res s1 = mem_res s -> hp s1 = hp s ->
     Forall (fun p => within p (base frm v, yuv_channel * 3 / 2)) (planes (pixels (cap_size r)) (cap s')) -> Q tt s') ->
  wp total (arrange_yuv_buf frm r) s Q.
Proof.
  intros Hr H1 H2 Hw Ht HQ. pose proof Hr as (Hsn & Him & Hcs & Hth).
  destruct (pixels_ok _ (align16_ok _ Him)) as [_ Pi], (pixels_ok _ Hcs) as [_ Pc].
  unfold arrange_yuv_buf. cbv zeta. guard_false ((orig_fmt r =? IMG_DATA_TYPE_JPEG) || (orig_fmt r =? IMG_DATA_TYPE_RAW)).
  assert (yuv_channel = if pixels (cap_size r) <? pixels (align16 (image_size r)) then pixels (align16 (image_size r)) else pixels (cap_size r)) as Ec
    by (unfold yuv_channel; destruct (Z.ltb_spec (pixels (cap_size r)) (pixels (align16 (image_size r)))); lia).
  rewrite <- Ec. rewrite half3 by (unfold yuv_channel; lia). set (area := yuv_channel * 3 / 2) in *.
  assert (forall s1, whole s1 -> mem_res s1 = mem_res s -> hp s1 = hp s ->
    (area <= mem_res s -> Forall (fun p => within p (base frm v, area)) (planes (pixels (cap_size r)) (cap s1))) ->
    wp total (finish area area yuv_channel (align16 (image_size r))) s1 Q) as Htail.
  { intros s1 W1 E1 E2 HP. apply wp_finish; [done|done|unfold area, yuv_channel; Z.to_euclidean_division_equations; lia|by rewrite E1|].
    intros s' Hp. eapply HQ; [exact Hp|done|done|]. rewrite (p_planes _ _ _ _ Hp). apply HP. pose proof (pictured_fits _ _ _ _ Hr Hp). lia. }
  apply wp_bind.
  lazymatch goal with |- wp _ ?m _ _ => change (wp total m s (fun _ s1 => wp total (finish area area yuv_channel (align16 (image_size r))) s1 Q)) end.
  pose proof Hw as (HL & He & HJ). pose proof HL as [Hsum _ _ (B0 & B1 & B2 & _) _ _].
  destruct (Z.ltb_spec (pixels (cap_size r)) (pixels (align16 (image_size r)))) as [Hup|Hdown]; wp_run; apply Htail; try done.
  - by eapply whole_same; [..|exact Hw].
  - intros Hf. eapply planes_by; [done|..]; unfold within; cbn [cap target_yuv cap_yuv on_target_yuv on_cap_yuv]; autorewrite with frames; cbn [addr_y addr_u fst snd]; unfold base, addr in *.
    all: destruct v; rewrite ?Z.shiftr_div_pow2 by lia; change (2 ^ 1) with 2; unfold area in *; small; Z.to_euclidean_division_equations; lia.
  - by eapply whole_same; [..|exact Hw].
  - intros Hf. eapply planes_by; [done|..]; unfold within; cbn [cap target_yuv cap_yuv on_target_yuv on_cap_yuv]; autorewrite with frames; cbn [addr_y addr_u fst snd]; unfold base, addr in *.
    all: destruct v; unfold area in *; small; Z.to_euclidean_division_equations; lia.
Qed.

(** *** JPEG data *)
Definition trim_ok : Prop := 0 <= start_y (sn_trim r) /\ 0 <= rect_height (sn_trim r) /\ start_y (sn_trim r) + rect_height (sn_trim r) <= height (sn_size r).

Lemma u32_u32_sub a b : u32 (u32 a - b) = u32 (a - b).
Proof. unfold u32, wrap. by rewrite Zminus_mod_idemp_l. Qed.

Lemma jpeg_gap_ok w dist : side_ok w -> u32_ok dist -> 0 <= jpeg_gap w dist <= 2 ^ 21 + 4095 /\ MIN_GAP_LINES * w <= dist + jpeg_gap w dist.
Proof.
  unfold side_ok, u32_ok, jpeg_gap, MIN_GAP_LINES. intros Hw Hd. rewrite (u32_small (128 * w)) by (unfold u32_ok; lia).
  destruct (Z.ltb_spec dist (128 * w)); [|lia]. unfold ALIGN_PAGE_SIZE. change 4096 with (2 ^ 12). rewrite (u32_small (128 * w - dist)) by (unfold u32_ok; lia).
  rewrite u32_small by (unfold u32_ok; lia). rewrite land_high by (unfold u32_ok; lia). change (2 ^ 12) with 4096. Z.to_euclidean_division_equations. lia.
Qed.

(** The end of the luma planes, the gap between them and the area of the picture. *)
Definition jpeg_end : Z :=
  u32 (u32 (u32 (height (sn_size r) - start_y (sn_trim r) - rect_height (sn_trim r)) * width (sn_size r)) +
       Z.max (pixels (align16 (image_size r))) (pixels (sn_size r))).
Definition jpeg_area : Z :=
  let gap := jpeg_gap (width (align16 (image_size r))) (u32 (jpeg_end - pixels (sn_size r))) in
  if need_rot r then u32 (Z.shiftr (u32 (jpeg_end * 3)) 1 + u32 (2 * gap))
  else u32 (u32 (Z.shiftl jpeg_end 1) + u32 (2 * gap)).

Lemma jpeg_phase s (Q : unit -> arr heap -> Prop) :
  request_ok r -> orig_fmt r = IMG_DATA_TYPE_JPEG -> whole s -> total = false ->
  (forall s1 s' area, area = jpeg_area -> 0 <= area -> pictured s1 s' area (pixels (align16 (image_size r))) -> mem_res s1 = mem_res s -> hp s1 = hp s ->
     (trim_ok -> need_rot r = false ->
        Forall (fun p => within p (base frm v, area)) (planes (pixels (sn_size r)) (cap s')) /\
        base frm v + MIN_GAP_LINES * width (align16 (image_size r)) <= addr_y (addr v (cap_yuv (cap s')))) -> Q tt s') ->
  wp total (arrange_jpeg_buf frm r) s Q.
Proof.
  intros Hr H1 Hw Ht HQ. pose proof Hr as (Hsn & Him & Hcs & Hth).
  destruct (pixels_ok _ (align16_ok _ Him)) as [_ Pi], (pixels_ok _ Hsn) as [Es Ps], (align16_ok _ Him) as [Hwi _].
  unfold arrange_jpeg_buf. guard_false (negb (orig_fmt r =? IMG_DATA_TYPE_JPEG)). cbv zeta.
  rewrite u32_u32_sub. replace (u32 (height (sn_size r) * width (sn_size r))) with (pixels (sn_size r)) by (unfold pixels; f_equal; lia).
  set (yy := u32 (u32 _ * width (sn_size r))). set (y_end := u32 (yy + _)).
  set (gap := jpeg_gap _ _). set (n := u32 (_ * 3) / 2). set (area := if need_rot r then _ else _).
  assert (gap = jpeg_gap (width (align16 (image_size r))) (u32 (y_end - pixels (sn_size r)))) as Eg.
  { unfold gap. f_equal. rewrite <- Z.sub_add_distr, u32_u32_sub. f_equal. lia. }
  assert (area = jpeg_area) as EA by (unfold area; rewrite Eg; reflexivity).
  pose proof (jpeg_gap_ok _ (u32 (y_end - pixels (sn_size r))) Hwi (u32_range _)) as Hg. rewrite <- Eg in Hg. clearbody gap.
  assert (u32_ok area) as Ha by (unfold area; destruct (need_rot r); apply u32_range).
  pose proof Hw as (HL & He & HJ). pose proof HL as [Hsum _ _ (B0 & B1 & B2 & _) _ _].
  apply wp_bind, wp_upd, wp_bind, wp_upd. cbn [cap mem_res mem_end channel_size hp].
  lazymatch goal with |- wp _ _ ?s1 _ => change (wp total (finish n area (pixels (align16 (image_size r))) (align16 (image_size r))) s1 Q) end.
  apply wp_finish; [done|by eapply whole_same; [..|exact Hw]|apply Ha|by rewrite Ht|]. intros s' Hp. eapply HQ; [exact EA|apply Ha|exact Hp|done|done|]. clear EA.
  pose proof (pictured_fits _ _ _ _ Hr Hp) as Hf. cbn [mem_res] in Hf.
  intros (T1 & T2 & T3) Hrot. destruct Hsn as [[W1 W2] [W3 W4]].
  assert (0 <= yy <= 2 ^ 28) as Hyy.
  { unfold yy. rewrite (u32_small (_ - _ - _)) by (unfold u32_ok; lia). rewrite u32_small; unfold u32_ok; nia. }
  assert (y_end = yy + Z.max (pixels (align16 (image_size r))) (pixels (sn_size r))) as Ey by (apply u32_small; unfold u32_ok; lia).
  clearbody yy y_end. rewrite u32_small in Hg by (unfold u32_ok; lia).
  assert (area = 2 * y_end + 2 * gap) as Ea by (unfold area; rewrite Hrot, Z.shiftl_mul_pow2 by lia; change (2 ^ 1) with 2; small; lia).
  clearbody area. clear HQ Hr Eg. split.
  - rewrite (p_planes _ _ _ _ Hp).
    eapply planes_by; [done|..]; unfold within; cbn [cap target_yuv cap_yuv on_target_yuv on_cap_yuv]; autorewrite with frames; cbn [addr_y addr_u fst snd]; unfold base, addr in *.
    all: destruct v; small; Z.to_euclidean_division_equations; lia.
  - pose proof (p_planes _ _ _ _ Hp 0) as E. injection E as _ _ -> _. cbn [cap cap_yuv on_target_yuv on_cap_yuv]. autorewrite with frames. cbn [addr_y]. unfold base, addr in *.
    destruct v; small; lia.
Qed.

(** *** Raw data *)
Definition uv_room : Z := u32 (Z.shiftr (pixels (sn_size r)) 1 + Z.shiftr (fst (raw_gap r)) 1).

(** The area of the picture: the raw data and the gaps before it, without what may be overwritten. *)
Definition raw_area : Z :=
  u32 (u32 (pixels (sn_size r) * RAWRGB_BIT_WIDTH) / 8 + u32 (ISP_YUV_TO_RAW_GAP * width (sn_size r)) + fst (raw_gap r) - snd (raw_gap r)).

Lemma wp_place_uv R s n (Q : unit -> arr heap -> Prop) :
  total = false -> 0 <= n -> ledger live frm v R s ->
  (forall s' phy vir, cap s' = on_target_yuv (set_addr_u phy vir) (cap s) -> channel_size s' = channel_size s ->
     ledger live frm v ((addr_u (addr v (target_yuv (cap s'))), n) :: R) s' -> Q tt s') ->
  wp total (place_uv alloc_mem frm n) s Q.
Proof.
  intros Ht Hn HL HQ. unfold place_uv. wp_run. destruct (Z.ltb_spec n (mem_res s)).
  - wp_run. eapply wp_here; [exact HL|]. intros phy vir Ha. wp_run. eapply wp_cut; [by eapply ledger_same; [..|exact HL]|cbn; lia|].
    cbn [cap mem_res mem_end channel_size hp]. intros s' -> HL'. apply (HQ _ phy vir); [done|done|]. cbn [cap target_yuv on_target_yuv]. rewrite addr_set_u. cbn. by rewrite Ha.
  - wp_run. eapply wp_give; [done|done|exact HL|]. intros phy vir s' h' -> HL'. wp_run. apply (HQ _ phy vir); [done|done|].
    cbn [cap target_yuv on_target_yuv]. rewrite addr_set_u. cbn [addr_u]. by eapply ledger_same; [..|exact HL'].
Qed.

Lemma raw_phase s (Q : unit -> arr heap -> Prop) :
  request_ok r -> orig_fmt r = IMG_DATA_TYPE_RAW -> whole s -> total = false ->
  (forall s' area, area = raw_area -> 0 <= area -> buf_size (target_jpeg (cap s')) = jpeg_room r -> channel_size s' = pixels (sn_size r) ->
     ledger live frm v ((addr_u (addr v (target_yuv (cap s'))), uv_room) :: coded (cap s') ++ [(base frm v, area)]) s' ->
     (raw_gap r = (0, 0) -> within (addr_y (addr v (cap_raw (cap s'))), buf_size (cap_raw (cap s'))) (base frm v, area)) -> Q tt s') ->
  wp total (arrange_raw_buf alloc_mem frm r) s Q.
Proof.
  intros Hr H1 (HL & He & HJ) Ht HQ. pose proof Hr as (Hsn & Him & Hcs & Hth).
  destruct (pixels_ok _ Hsn) as [Es Ps]. pose proof Hsn as [[W1 W2] _].
  unfold arrange_raw_buf, uv_room, raw_area in *. guard_false (negb (orig_fmt r =? IMG_DATA_TYPE_RAW)). cbv zeta. destruct (raw_gap r) as [yy useless]. cbn [fst snd] in HQ.
  set (raw := u32 (_ * RAWRGB_BIT_WIDTH) / 8). set (to_raw := u32 (ISP_YUV_TO_RAW_GAP * _)). set (area := u32 (raw + _ + _ - _)). set (uv := u32 (Z.shiftr _ 1 + Z.shiftr yy 1)) in *.
  assert (u32_ok area /\ u32_ok uv) as [Ha Hu] by (split; apply u32_range).
  pose proof HL as [Hsum _ _ (B0 & B1 & B2 & _) _ _].
  wp_run. apply wp_no_mem; [by rewrite Ht|]. cbn [mem_res]. intros Hle. wp_run.
  eapply wp_cut; [by eapply ledger_same; [..|exact HL]|cbn; unfold u32_ok in *; lia|]. intros s1 -> HL1. cbn [cap mem_res mem_end channel_size hp] in *.
  rewrite He, Z.add_0_r in HL1. apply wp_bind.
  eapply wp_place_jpeg; [done|eapply ledger_same; [..|exact HL1]; cbn; done || lia|done|by rewrite Ht|].
  intros s2 phy vir E1 E2 E3 E4 HL2. apply wp_bind. eapply wp_place_uv; [done|apply Hu|exact HL2|].
  intros s3 phy' vir' F1 F2 HL3. wp_run. cbn [cap mem_res mem_end channel_size hp] in E1.
  assert (target_jpeg (cap s3) = target_jpeg (cap s2)) as J3 by by rewrite F1.
  apply (HQ _ area); cbn [cap target_jpeg on_target_yuv on_cap_raw on_cap_yuv target_yuv cap_raw]; [done|apply Ha| |done| |].
  - rewrite J3, E1. by destruct (need_rot r).
  - autorewrite with frames. cbn [addr_u]. eapply ledger_same; [..|exact HL3 || (unfold coded in *; cbn; rewrite J3; exact HL3)]; done.
  - intros [= -> ->]. assert (0 <= raw <= 2 ^ 29 /\ 0 <= to_raw <= 2 ^ 22) as [Hraw Hto].
    { unfold raw, to_raw, RAWRGB_BIT_WIDTH, ISP_YUV_TO_RAW_GAP, CMR_SLICE_HEIGHT. small. Z.to_euclidean_division_equations. lia. }
    assert (area = raw + to_raw) as Ea by (unfold area; small; lia). clearbody raw to_raw area. clear HQ HL2 HL3.
    rewrite F1, E1. autorewrite with frames. unfold within, base, addr in *.
    destruct v, (need_rot r); cbn [addr_y addr_u addr_vir addr_phy cap_raw on_target_jpeg on_cap_raw on_target_yuv on_cap_yuv buf_size set_fmt set_size set_buf_size set_addr_y set_addr_u fst snd].
    all: small; lia.
Qed.

(** ** The thumbnail *)
Definition region (f : img_frm) : Z * Z := (addr_y (addr v f), buf_size f).

Lemma misc_region n phy vir : region (misc_frame n phy vir) = (if v then vir else phy, n).
Proof. unfold region. by destruct v. Qed.

Lemma wp_cut_misc sizes : forall R s (Q : list img_frm * list Z -> arr heap -> Prop),
  Forall (fun n => 0 <= n) sizes -> ledger live frm v R s ->
  (forall frames later s', cap s' = cap s -> channel_size s' = channel_size s -> hp s' = hp s -> sizes = map buf_size frames ++ later ->
     (foldr Z.add 0 sizes <= mem_res s -> later = []) -> ledger live frm v (rev_append (map region frames) R) s' -> Q (frames, later) s') ->
  wp total (cut_misc frm sizes) s Q.
Proof.
  induction sizes as [|n rest IH]; intros R s Q Hs HL HQ; cbn [cut_misc].
  - apply wp_ret. by apply (HQ [] []).
  - inversion Hs as [|? ? Hn Hr]; subst. wp_run. destruct (Z.leb_spec n (mem_res s)) as [Hle|Hgt]; wp_run.
    + eapply wp_here; [exact HL|]. intros phy vir Ha. wp_run. eapply wp_cut; [exact HL|lia|]. intros s1 -> HL1. wp_run. eapply IH; [done|exact HL1|].
      cbn [cap mem_res mem_end channel_size hp]. intros frames later s' E1 E2 E3 E4 Hl HL2. wp_run. apply HQ; try done.
      * cbn. by f_equal.
      * cbn. intros. apply Hl. lia.
      * cbn [map rev_append]. rewrite misc_region, Ha. done.
    + apply (HQ [] (n :: rest)); try done. cbn. intros Hsum. exfalso. assert (0 <= foldr Z.add 0 rest) by (clear -Hr; induction Hr; cbn; lia). lia.
Qed.

Lemma wp_alloc_misc sizes : forall R s (Q : list img_frm -> arr heap -> Prop),
  (total = true -> sizes = []) -> ledger live frm v R s ->
  (forall frames s', cap s' = cap s -> channel_size s' = channel_size s -> (total = true -> s' = s) -> sizes = map buf_size frames ->
     ledger live frm v (rev_append (map region frames) R) s' -> Q frames s') ->
  wp total (alloc_misc alloc_mem sizes) s Q.
Proof.
  induction sizes as [|n rest IH]; intros R s Q Ht HL HQ; cbn [alloc_misc].
  - apply wp_ret. by apply (HQ []).
  - assert (total = false) as Hf by (destruct total; [by specialize (Ht eq_refl)|done]). wp_run.
    eapply wp_give; [done|done|exact HL|]. intros phy vir s1 h' -> HL1. wp_run. eapply IH; [by rewrite Hf|exact HL1|].
    cbn [cap channel_size]. intros frames s' E1 E2 _ E3 HL2. wp_run. apply HQ; try done; [by rewrite Hf|cbn; by f_equal|].
    cbn [map rev_append]. by rewrite misc_region.
Qed.

(** What is kept of the record from the picture on. *)
Definition same_picture (c c' : cmr_cap_mem) : Prop :=
  target_jpeg c' = target_jpeg c /\ target_yuv c' = target_yuv c /\ cap_yuv c' = cap_yuv c /\ cap_raw c' = cap_raw c.

Definition thumbs (c : cmr_cap_mem) : list (Z * Z) := [region (thum_jpeg c); region (thum_yuv c)].

Lemma misc_phase R s (Q : unit -> arr heap -> Prop) :
  request_ok r -> ledger live frm v R s ->
  (total = true -> get_thum_yuv_size (thum_size r) + get_thum_jpeg_size (thum_size r) <= mem_res s) ->
  (forall s', same_picture (cap s) (cap s') -> channel_size s' = channel_size s -> (total = true -> hp s' = hp s) ->
     buf_size (thum_yuv (cap s')) = get_thum_yuv_size (thum_size r) -> buf_size (thum_jpeg (cap s')) = get_thum_jpeg_size (thum_size r) ->
     addr_y (addr v (jpeg_tmp (cap s'))) = addr_u (addr v (cap_yuv (cap s'))) ->
     ledger live frm v (thumbs (cap s') ++ R) s' -> Q tt s') ->
  wp total (arrange_misc_buf alloc_mem frm r) s Q.
Proof.
  intros Hr HL Ht HQ. destruct (thum_ok r Hr) as [[T1 _] [T2 _]]. unfold arrange_misc_buf. apply wp_bind.
  eapply wp_cut_misc; [by repeat constructor|exact HL|]. intros first later s1 E1 E2 E3 E4 Hl HL1. cbn [foldr] in Hl. apply wp_bind.
  eapply wp_alloc_misc; [intros E; apply Hl; specialize (Ht E); lia|exact HL1|]. intros second s2 F1 F2 F3 -> HL2.
  rewrite <- map_app in E4. rewrite rev_append_rev, rev_append_rev, app_assoc, <- rev_app_distr, <- map_app in HL2.
  destruct (first ++ second) as [|yuv [|jpeg [|? ?]]]; try discriminate. injection E4 as Ey Ej. wp_run. apply HQ; cbn [cap channel_size hp].
  - rewrite F1, E1. done.
  - congruence.
  - intros E. rewrite F3 by done. done.
  - cbn. by rewrite Ey.
  - cbn. by rewrite Ej.
  - by destruct v.
  - eapply ledger_same; [..|refine (eq_rect _ (fun l => ledger live frm v (l ++ R) s2) HL2 _ _)]; try done.
    unfold thumbs, region. by destruct v.
Qed.

(** ** The rotation *)

(** The two planes of the rotated picture. *)
Definition rotated (channel : Z) (c : cmr_cap_mem) : list (Z * Z) :=
  [(addr_y (addr v (cap_yuv_rot c)), channel); (addr_u (addr v (cap_yuv_rot c)), buf_size (cap_yuv_rot c) - channel)].

Definition rot_size (channel : Z) : Z := if orig_fmt r =? IMG_DATA_TYPE_JPEG then channel * 2 else channel * 3 / 2.

Lemma rot_phase R s (Q : unit -> arr heap -> Prop) :
  need_rot r = true -> total = false -> ledger live frm v R s -> 0 <= channel_size s <= 2 ^ 28 ->
  (forall s', target_yuv (cap s') = target_yuv (cap s) -> cap_yuv (cap s') = cap_yuv (cap s) -> cap_raw (cap s') = cap_raw (cap s) ->
     thum_yuv (cap s') = thum_yuv (cap s) -> thum_jpeg (cap s') = thum_jpeg (cap s) ->
     buf_size (target_jpeg (cap s')) = buf_size (target_jpeg (cap s)) ->
     addr_y (addr v (target_jpeg (cap s'))) = addr_y (addr v (cap_yuv_rot (cap s'))) ->
     buf_size (cap_yuv_rot (cap s')) = rot_size (channel_size s) ->
     addr_y (addr v (jpeg_tmp (cap s'))) = addr_u (addr v (cap_yuv_rot (cap s'))) ->
     ledger live frm v (rotated (channel_size s) (cap s') ++ R) s' -> Q tt s') ->
  wp total (arrange_rot_buf alloc_mem frm r) s Q.
Proof.
  intros Hrot Ht HL Hc HQ. unfold arrange_rot_buf. rewrite Hrot. cbn [negb]. wp_run.
  assert ((if orig_fmt r =? IMG_DATA_TYPE_JPEG then u32 (Z.shiftl (channel_size s) 1) else Z.shiftr (u32 (channel_size s * 3)) 1) = rot_size (channel_size s)) as Es.
  { unfold rot_size. rewrite half3, Z.shiftl_mul_pow2 by lia. change (2 ^ 1) with 2. small. done. }
  rewrite Es. assert (channel_size s <= rot_size (channel_size s) <= channel_size s * 2) as Hs
    by (unfold rot_size; destruct (orig_fmt r =? IMG_DATA_TYPE_JPEG); Z.to_euclidean_division_equations; lia).
  set (n := rot_size (channel_size s)) in *. pose proof HL as [_ ? ? (? & ? & ? & _) _ _]. destruct (Z.ltb_spec n (mem_res s)); wp_run.
  - eapply wp_here; [exact HL|]. intros phy vir Ha. wp_run. eapply wp_cut; [exact HL|lia|]. intros s1 -> HL1. wp_run.
    apply HQ; try done; [by destruct v..|]. replace n with (channel_size s + (n - channel_size s)) in HL1 by lia.
    apply ledger_split in HL1; [|lia|lia]. unfold rotated. cbn [cap cap_yuv_rot on_cap_yuv_rot on_target_jpeg on_jpeg_tmp]. autorewrite with frames.
    cbn [addr_y addr_u buf_size set_fmt set_buf_size]. rewrite <- Ha in HL1.
    replace (if v then u32 (vir + channel_size s) else u32 (phy + channel_size s)) with ((if v then vir else phy) + channel_size s)
      by (destruct HL as [Hsum _ _ _ _ _]; destruct v; rewrite u32_small by (unfold u32_ok; lia); done).
    eapply ledger_same; [..|exact HL1]; cbn; done || lia.
  - eapply wp_give; [done|done|exact HL|]. intros phy vir s1 h1 -> HL1. wp_run.
    eapply wp_give; [done|done|by eapply ledger_same; [..|exact HL1]|]. intros phy' vir' s2 h2 -> HL2. wp_run.
    apply HQ; try done; [by destruct v..|]. unfold rotated. cbn [cap cap_yuv_rot on_cap_yuv_rot on_target_jpeg on_jpeg_tmp]. autorewrite with frames.
    cbn [addr_y addr_u buf_size set_fmt set_buf_size]. apply ledger_swap. eapply ledger_shrink; [|by eapply ledger_same; [..|exact HL2]]. unfold within. cbn [fst snd]. lia.
Qed.
End picture.
