(* ===== verification/CmrCapture.v ===== *)
(** * Captures: the buffers do not meet, and the block is large enough

    The theorems on [camera_arrange_capture_buf] and [camera_capture_buf_size]
    (cmr_mem.c): the layout of any capture, the captures that the size tables are made for,
    and the ones that they are too small for. *)

From S2P Require Import Prelude CmrMem CmrLayout.

Section capture.
Context {heap : Type} (alloc_mem : Z -> heap -> option (Z * Z) * heap) (live : bool -> heap -> list (Z * Z)).
Context (frm : img_frm) (v : bool) (r : request).

(** The size of a plane, and of the captured picture. *)
Definition plane_size : Z :=
  if orig_fmt r =? IMG_DATA_TYPE_RAW then pixels (sn_size r)
  else if orig_fmt r =? IMG_DATA_TYPE_JPEG then pixels (align16 (image_size r))
  else yuv_channel r.
Definition captured : Z := if orig_fmt r =? IMG_DATA_TYPE_JPEG then pixels (sn_size r) else pixels (cap_size r).

(** The area of the picture at the start of the block. *)
Definition picture_area : Z :=
  if orig_fmt r =? IMG_DATA_TYPE_RAW then raw_area r
  else if orig_fmt r =? IMG_DATA_TYPE_JPEG then jpeg_area r else yuv_channel r * 3 / 2.

(** The coded picture with the room of the EXIF data before it. *)
Definition coded_region (c : cmr_cap_mem) : Z * Z :=
  (addr_y (addr v (target_jpeg c)) - JPEG_EXIF_SIZE, buf_size (target_jpeg c) + JPEG_EXIF_SIZE).
Definition coded_exif (c : cmr_cap_mem) : list (Z * Z) := if need_rot r then [] else [coded_region c].

(** The buffers of a capture that have memory of their own. *)
Definition buffers (c : cmr_cap_mem) : list (Z * Z) :=
  (if need_rot r then rotated v plane_size c else []) ++ thumbs v c ++
  (if orig_fmt r =? IMG_DATA_TYPE_RAW then [(addr_u (addr v (target_yuv c)), uv_room r)] else []) ++
  coded_exif c ++ [(base frm v, picture_area)].

(** What lies in the area: the planes of YUV and JPEG captures, with the gap that the scaler
    needs, and the raw data when nothing of it is overwritten. *)
Definition picture_inside (c : cmr_cap_mem) : Prop :=
  (orig_fmt r <> IMG_DATA_TYPE_RAW -> (orig_fmt r = IMG_DATA_TYPE_JPEG -> trim_ok r /\ need_rot r = false) ->
     Forall (fun p => within p (base frm v, picture_area)) (planes v r captured c)) /\
  (orig_fmt r = IMG_DATA_TYPE_JPEG -> trim_ok r -> need_rot r = false ->
     base frm v + MIN_GAP_LINES * width (align16 (image_size r)) <= addr_y (addr v (cap_yuv c))) /\
  (orig_fmt r = IMG_DATA_TYPE_RAW -> raw_gap r = (0, 0) -> within (region v (cap_raw c)) (base frm v, picture_area)).

(** What shares memory: the coded picture of a turned capture lies in the luma plane of the
    turned picture when it is not larger, and the scratch buffer of the encoder starts at the
    chroma plane of the picture that is coded. *)
Definition shared (c : cmr_cap_mem) : Prop :=
  (need_rot r = true -> jpeg_room r <= plane_size ->
     within (coded_region c) (addr_y (addr v (cap_yuv_rot c)), plane_size)) /\
  addr_y (addr v (jpeg_tmp c)) = addr_u (addr v (if need_rot r then cap_yuv_rot c else cap_yuv c)).

Definition laid_out (s : arr heap) : Prop :=
  ledger live frm v (buffers (cap s)) s /\ picture_inside (cap s) /\ shared (cap s).

(** The state before the room of the EXIF data is left free. *)
Record arranged (s : arr heap) : Prop := {
  a_jpeg : buf_size (target_jpeg (cap s)) = jpeg_room r;
  a_ledger : ledger live frm v ((if need_rot r then rotated v plane_size (cap s) else []) ++ thumbs v (cap s) ++
    (if orig_fmt r =? IMG_DATA_TYPE_RAW then [(addr_u (addr v (target_yuv (cap s))), uv_room r)] else []) ++
    coded v r (cap s) ++ [(base frm v, picture_area)]) s;
  a_picture : picture_inside (cap s);
  a_rot : need_rot r = true -> addr_y (addr v (target_jpeg (cap s))) = addr_y (addr v (cap_yuv_rot (cap s)));
  a_tmp : addr_y (addr v (jpeg_tmp (cap s))) = addr_u (addr v (if need_rot r then cap_yuv_rot (cap s) else cap_yuv (cap s)))
}.

(** The end of the call: the same buffers, seen from the fields. *)
Lemma coded_region_left c :
  0 <= addr_y (addr v (target_jpeg c)) -> addr_y (addr v (target_jpeg c)) + jpeg_room r < 2 ^ 32 -> request_ok r ->
  buf_size (target_jpeg c) = jpeg_room r ->
  coded_region (on_target_jpeg leave_exif c) = (addr_y (addr v (target_jpeg c)), jpeg_room r).
Proof.
  intros H0 H1 Hr HJ. pose proof (jpeg_room_ok r Hr) as Hroom. unfold coded_region.
  cbn [target_jpeg on_target_jpeg]. unfold leave_exif, JPEG_EXIF_SIZE in *. autorewrite with frames. cbn [addr_y buf_size set_buf_size set_addr_y].
  f_equal; [unfold addr in *; destruct v; small; lia|]. rewrite HJ. small. lia.
Qed.

Lemma arranged_laid_out s : request_ok r -> arranged s ->
  laid_out (mk_arr (on_target_jpeg leave_exif (cap s)) (mem_res s) (mem_end s) (channel_size s) (hp s)).
Proof.
  intros Hr [HJ HL HP HR HT]. split; [|split; [exact HP|split; [|exact HT]]].
  - apply (ledger_same live frm v _ s); [done..|]. eapply (eq_rect _ (fun l => ledger live frm v l s) HL). cbn [cap].
    unfold buffers. do 3 f_equal. f_equal. unfold coded, coded_exif in *. destruct (need_rot r); [done|].
    assert (0 <= addr_y (addr v (target_jpeg (cap s))) /\ addr_y (addr v (target_jpeg (cap s))) + jpeg_room r < 2 ^ 32) as [H0 H1]
      by (apply (ledger_range live frm v _ _ (addr_y (addr v (target_jpeg (cap s))), jpeg_room r) HL); rewrite !in_app_iff; cbn; tauto).
    by rewrite coded_region_left.
  - intros Hrot Hle. rewrite Hrot in HL. specialize (HR Hrot). cbn [cap].
    assert (0 <= addr_y (addr v (cap_yuv_rot (cap s))) /\ addr_y (addr v (cap_yuv_rot (cap s))) + plane_size < 2 ^ 32) as [H0 H1]
      by (apply (ledger_range live frm v _ _ (addr_y (addr v (cap_yuv_rot (cap s))), plane_size) HL); unfold rotated; cbn; tauto).
    rewrite coded_region_left by (done || rewrite HR; lia). unfold within. cbn [cap_yuv_rot on_target_jpeg fst snd]. rewrite HR. lia.
Qed.

(** The block before the call. *)
Definition fresh (s : arr heap) : Prop := block_ok live frm v (hp s) /\ mem_res s = buf_size frm /\ mem_end s = 0.

Lemma fresh_whole s c : fresh s -> buf_size (target_jpeg c) = jpeg_room r ->
  whole live frm v r (mk_arr c (mem_res s) (mem_end s) (channel_size s) (hp s)).
Proof.
  intros (Hb & E1 & E2) HJ. pose proof Hb as (_ & B1 & _). split; [|done]. split; cbn [mem_end mem_res hp]; try done; try lia; constructor.
Qed.

Context `{!Allocator alloc_mem live}.

(** The three ways to lay out the picture. *)
Lemma picture_phase s (Q : unit -> arr heap -> Prop) :
  request_ok r -> whole live frm v r s ->
  (forall s', buf_size (target_jpeg (cap s')) = jpeg_room r -> channel_size s' = plane_size ->
     ledger live frm v ((if orig_fmt r =? IMG_DATA_TYPE_RAW then [(addr_u (addr v (target_yuv (cap s'))), uv_room r)] else []) ++ coded v r (cap s') ++ [(base frm v, picture_area)]) s' ->
     picture_inside (cap s') -> Q tt s') ->
  wp false (if orig_fmt r =? IMG_DATA_TYPE_RAW then arrange_raw_buf alloc_mem frm r
            else if orig_fmt r =? IMG_DATA_TYPE_JPEG then arrange_jpeg_buf frm r else arrange_yuv_buf frm r) s Q.
Proof.
  intros Hr Hw HQ. unfold plane_size, picture_inside, captured, picture_area in HQ.
  destruct (Z.eqb_spec (orig_fmt r) IMG_DATA_TYPE_RAW) as [Er|Nr]; [|destruct (Z.eqb_spec (orig_fmt r) IMG_DATA_TYPE_JPEG) as [Ej|Nj]].
  - apply (raw_phase alloc_mem live frm v false r s Q Hr Er Hw eq_refl). intros s' area -> Ha HJ Hc HL Hraw. apply (HQ s'); [done..|].
    split; [by intros|]. split; [|done]. intros E. rewrite Er in E. discriminate.
  - apply (jpeg_phase live frm v false r s Q Hr Ej Hw eq_refl). intros s1 s' area -> Ha [HJ Hc _ _ HL _] _ _ Hin. apply (HQ s'); [done..|].
    split; [|split; [|by intros]]; [intros _ Hcond; destruct (Hcond Ej) as [Ht Hn]; by apply Hin|intros _ Ht Hn; by apply Hin].
  - apply (yuv_phase live frm v false r s Q Hr Nj Nr Hw); [done|]. intros s1 s' [HJ Hc _ _ HL _] _ _ Hin. apply (HQ s'); [done..|].
    split; [done|by split; intros].
Qed.

Lemma arrange_all_ok s : request_ok r -> fresh s -> wp false (arrange_all alloc_mem frm r) s (fun _ s' => laid_out s').
Proof.
  intros Hr Hf. unfold arrange_all. cbv zeta. apply wp_bind, wp_upd. apply wp_bind.
  apply picture_phase; [done|by apply fresh_whole|]. intros s1 HJ1 Hc1 HL1 HP1. apply wp_bind.
  eapply (misc_phase alloc_mem live frm v false r); [done|exact HL1|done|]. intros s2 (S1 & S2 & S3 & S4) Hc2 _ _ _ Ht2 HL2. apply wp_bind.
  assert (picture_inside (cap s2)) as HP2 by (unfold picture_inside, planes in *; by rewrite S2, S3, S4).
  destruct (need_rot r) eqn:Hrot.
  - assert (0 <= channel_size s2 <= 2 ^ 28) as Hch.
    { rewrite Hc2, Hc1. unfold plane_size, yuv_channel. destruct Hr as (H1 & H2 & H3 & _).
      destruct (pixels_ok _ H1) as [_ ?], (pixels_ok _ (align16_ok _ H2)) as [_ ?], (pixels_ok _ H3) as [_ ?]. repeat case_match; lia. }
    eapply (rot_phase alloc_mem live frm v false r); [done|done|exact HL2|done|]. intros s3 U1 U2 U3 U4 U5 U6 U7 U8 U9 HL3. apply wp_upd.
    eapply arranged_laid_out; [done|]. split; [congruence| |unfold picture_inside, planes in *; by rewrite U1, U2, U3|done|by rewrite Hrot].
    rewrite Hc2, Hc1 in HL3. rewrite Hrot. unfold coded, thumbs in *. rewrite Hrot in *. by rewrite U1, U4, U5, S2.
  - apply wp_ret, wp_upd. eapply arranged_laid_out; [done|]. split; [congruence| |done|by rewrite Hrot|by rewrite Hrot]. rewrite Hrot. unfold coded in *. rewrite Hrot in *. by rewrite S1, S2.
Qed.
End capture.

(** Where a buffer may lie after the call. *)
Definition in_memory {heap : Type} (live : bool -> heap -> list (Z * Z)) (frm : img_frm) (v : bool) (h : heap) (x : Z * Z) : Prop :=
  within x (block_region frm v) \/ given live frm v h x.

Lemma copy_mem_ok n c rest rest' : copy_mem n c rest = Done rest' -> forall i, (i < n)%nat -> rest' !! i = Some c.
Proof.
  revert rest rest'. induction n as [|n IH]; intros rest rest' E i Hi; [lia|]. destruct rest as [|d rest]; [done|]. cbn [copy_mem] in E.
  destruct (copy_mem n c rest) as [l| |] eqn:El; try done. injection E as <-. destruct i as [|i]; [done|]. apply (IH _ _ El). lia.
Qed.

(** The call with the arguments of a request. *)
Definition arrange_request {heap : Type} (alloc_mem : Z -> heap -> option (Z * Z) * heap) (frm : img_frm) (r : request) (mems : list cmr_cap_mem) (image_cnt : Z) (h : heap)
    : outcome (Z * option (list cmr_cap_mem) * heap) :=
  camera_arrange_capture_buf alloc_mem (Some frm) (Some (sn_size r)) (Some (sn_trim r)) (Some (image_size r)) (orig_fmt r) (Some (cap_size r)) (Some (thum_size r))
    (Some mems) (need_rot r) image_cnt h.

(** C8. When [camera_arrange_capture_buf] succeeds, the buffers with memory of their own do not
    meet, in the physical as in the virtual address space: the area of the picture at the
    start of the block (its size is [picture_area]), the coded picture of a capture that is
    not turned with 64 KB for EXIF data before it, the chroma plane of a raw capture, the
    two buffers of the thumbnail and the planes of the turned picture.  Each lies in the
    block or in memory that the callback has given for it.  The planes of a YUV picture lie
    in its area, those of a JPEG capture that is not turned and whose trim rectangle is
    inside the sensor as well ([jpeg_turned_meets] is the other case), with the distance
    that the scaler needs, and raw data of which nothing is to be overwritten does too.
    Two buffers share memory by design: the coded picture of a turned capture is in the
    luma plane of the turned picture when its room is not larger than that
    ([small_turned_overruns] is the other case), and the encoder's scratch buffer starts
    at the chroma plane of the picture it codes (where it ends is not claimed:
    [jpeg_tmp_meets]).  Every further picture of the series has the same buffers.  The
    sensor, the picture and the thumbnail are of any format and of any size up to 16384. *)
Theorem capture_layout (heap : Type) (alloc_mem : Z -> heap -> option (Z * Z) * heap) live frm v r mems image_cnt h mems' h' :
  Allocator alloc_mem live -> request_ok r -> block_ok live frm v h ->
  arrange_request alloc_mem frm r mems image_cnt h = Done (0, Some mems', h') ->
  exists c, all_apart (buffers frm v r c) /\ Forall (in_memory live frm v h') (buffers frm v r c) /\
    picture_inside frm v r c /\ shared v r c /\ forall i, (i < Z.to_nat (Z.max 1 image_cnt))%nat -> mems' !! i = Some c.
Proof.
  intros HA Hr Hb E. unfold arrange_request, camera_arrange_capture_buf in E. destruct mems as [|c0 rest]; [done|].
  replace (mk_request _ _ _ _ _ _ _) with r in E by by destruct r.
  pose proof (arrange_all_ok alloc_mem live frm v r (mk_arr c0 (buf_size frm) 0 (pixels (align16 (image_size r))) h) Hr ltac:(done)) as H. unfold wp in H.
  destruct (arrange_all alloc_mem frm r _) as [[[]|] s]; [|done]. destruct H as (HL & HP & HS).
  destruct (copy_mem _ (cap s) rest) as [rest'| |] eqn:Ec; try done. injection E as <- <-. exists (cap s). pose proof HL as [Hs He Hres Hbl Ha Hp].
  split; [done|]. split; [|split; [done|split; [done|]]].
  - eapply Forall_impl; [exact Hp|]. intros x [Hw|Hg]; [left|by right]. eapply within_trans; [exact Hw|]. unfold within, block_region. cbn. lia.
  - intros [|i] Hi; [done|]. apply (copy_mem_ok _ _ _ _ Ec). lia.
Qed.

(** ** The callback matters only when it is called *)

(** A callback that has nothing to give. *)
Definition no_alloc {heap : Type} (_ : Z) (h : heap) : option (Z * Z) * heap := (None, h).

(** Whatever [m] achieves, [m'] achieves. *)
Definition follows {heap A : Type} (m m' : arranger heap A) : Prop := forall s a s', m s = (Some a, s') -> m' s = (Some a, s').

Lemma follows_refl {heap A} (m : arranger heap A) : follows m m.
Proof. by intros s a s'. Qed.

Lemma follows_bind {heap A B} (m m' : arranger heap A) (k k' : A -> arranger heap B) :
  follows m m' -> (forall a, follows (k a) (k' a)) -> follows (bind m k) (bind m' k').
Proof.
  intros Hm Hk s b s' E. unfold bind in *. destruct (m s) as [[a|] s1] eqn:E1; [|done]. rewrite (Hm _ _ _ E1). by apply Hk.
Qed.

Lemma follows_alloc {heap} (alloc_mem : Z -> heap -> option (Z * Z) * heap) n : follows (alloc no_alloc n) (alloc alloc_mem n).
Proof. by intros s a s'. Qed.

Ltac follow :=
  repeat first
  [ apply follows_refl
  | apply follows_alloc
  | apply follows_bind; [|intros]
  | match goal with |- follows (let '(_, _) := ?x in _) _ => destruct x end
  | match goal with |- follows (if ?b then _ else _) _ => destruct b end ].

Lemma follows_misc {heap} (alloc_mem : Z -> heap -> option (Z * Z) * heap) sizes : follows (alloc_misc no_alloc sizes) (alloc_misc alloc_mem sizes).
Proof. induction sizes; cbn [alloc_misc]; follow. exact IHsizes. Qed.

Lemma follows_all {heap} (alloc_mem : Z -> heap -> option (Z * Z) * heap) frm r : follows (arrange_all no_alloc frm r) (arrange_all alloc_mem frm r).
Proof.
  unfold arrange_all, arrange_raw_buf, arrange_misc_buf, arrange_rot_buf, place_uv. cbv zeta. destruct (raw_gap r).
  follow; apply follows_misc.
Qed.

(** ** The block of the size tables *)

(** The block is not alive for [no_alloc], which gives nothing away. *)
Lemma no_alloc_ok {heap} frm : Allocator (@no_alloc heap) (fun v _ => [block_region frm v]).
Proof. by intros n h p q h' E. Qed.

(** A capture that needs no scaling down and no rotation, from a sensor that delivers YUV. *)
Record yuv_capture (r : request) : Prop := {
  y_image : 0 <= width (image_size r) <= 8192 /\ 0 <= height (image_size r) <= 8192;
  y_sensor : size_ok (sn_size r);
  y_cap : size_ok (cap_size r);
  y_scale : pixels (cap_size r) <= pixels (align16 (image_size r));
  y_thumb : 0 <= width (thum_size r) <= 320 /\ 0 <= height (thum_size r) <= 240;
  y_fmt : orig_fmt r <> IMG_DATA_TYPE_JPEG /\ orig_fmt r <> IMG_DATA_TYPE_RAW;
  y_rot : need_rot r = false
}.

Lemma yuv_request r : yuv_capture r -> request_ok r.
Proof. intros [[? ?] ? ? _ [? ?] _ _]. unfold request_ok, size_ok, side_ok in *. lia. Qed.

(** What the padding adds. *)
Lemma padded_pixels s : 0 <= width s <= 8192 -> 0 <= height s <= 8192 -> pixels (align16 s) <= pixels s + 245985.
Proof.
  intros Hw Hh. assert (size_ok s) as Hs by (split; unfold side_ok; lia).
  destruct (pixels_ok _ Hs) as [-> _], (pixels_ok _ (align16_ok _ Hs)) as [-> _]. cbn [align16 width height].
  destruct (aligned_16 (width s)) as [? [? _]], (aligned_16 (height s)) as [? [? _]]; [unfold side_ok; lia..|]. unfold side_ok in *. nia.
Qed.

Lemma table_room cam sn_fmt s n :
  cam = BACK_CAMERA_ID \/ cam = FRONT_CAMERA_ID -> sn_fmt <> SENSOR_IMAGE_FORMAT_RAW -> camera_capture_buf_size cam sn_fmt (Some s) = Some n ->
  5 * (pixels s + 245985) / 2 + 300000 <= n <= 22 * 2 ^ 20.
Proof.
  intros Hcam Hf E. unfold camera_capture_buf_size, size_table in E. pose proof (u32_range (width s * height s)) as Hp. fold (pixels s) in Hp. destruct Hp as [Hp _].
  destruct (Z.eqb_spec sn_fmt SENSOR_IMAGE_FORMAT_RAW) as [|_]; [done|]. generalize dependent (pixels s). intros p E Hp.
  destruct Hcam as [-> | ->].
  all: cbn [Z.eqb BACK_CAMERA_ID FRONT_CAMERA_ID Pos.eqb back_cam_mem_size_tab front_cam_mem_size_tab app replicate find_row] in E.
  all: repeat match type of E with
       | (if ?q <=? ?k then _ else _) = _ =>
           destruct (Z.leb_spec q k); [first [lia|injection E as <-; unfold mega; rewrite Z.shiftl_mul_pow2 by lia; Z.to_euclidean_division_equations; lia]|]
       end; done.
Qed.

Lemma copy_mem_fits n c rest : (n <= length rest)%nat -> exists rest', copy_mem n c rest = Done rest'.
Proof.
  revert rest. induction n as [|n IH]; intros rest Hn; [by exists rest|]. destruct rest as [|d rest]; cbn in Hn; [lia|].
  destruct (IH rest) as [l El]; [lia|]. exists (c :: l). cbn [copy_mem]. by rewrite El.
Qed.

Lemma yuv_runs {heap} frm v r c h :
  yuv_capture r -> 5 * (pixels (image_size r) + 245985) / 2 + 300000 <= buf_size frm -> 0 <= base frm v -> base frm v + buf_size frm < 2 ^ 32 ->
  wp true (arrange_all no_alloc frm r) (mk_arr c (buf_size frm) 0 (pixels (align16 (image_size r))) h) (fun _ (s' : arr heap) => hp s' = h).
Proof.
  intros Hy Hroom B0 B2. pose proof (yuv_request r Hy) as Hr. destruct Hy as [[Hw Hh] _ _ Hscale [Tw Th] [Nj Nr] Hrot].
  pose proof (no_alloc_ok (heap := heap) frm) as HA. pose proof (padded_pixels _ Hw Hh) as Hpad. pose proof (jpeg_room_ok r Hr) as [HJ0 HJ]. destruct (thum_ok r Hr) as [T1 T2].
  assert (pixels (thum_size r) <= 76800) as Ht by (destruct Hr as (_ & _ & _ & Hs); destruct (pixels_ok _ Hs) as [-> _]; nia).
  pose proof (u32_range (width (image_size r) * height (image_size r))) as [Hp _]. fold (pixels (image_size r)) in Hp.
  assert (yuv_channel r = pixels (align16 (image_size r))) as Ec by (unfold yuv_channel; lia).
  assert (coded_room r = jpeg_room r) as Ej by (unfold coded_room; by rewrite Hrot).
  assert (yuv_channel r * 3 / 2 + jpeg_room r + get_thum_yuv_size (thum_size r) + get_thum_jpeg_size (thum_size r) <= buf_size frm) as Hfit
    by (unfold JPEG_EXIF_SIZE in *; rewrite Ec; Z.to_euclidean_division_equations; lia).
  unfold arrange_all. cbv zeta. apply wp_bind, wp_upd. apply wp_bind. guard_false (orig_fmt r =? IMG_DATA_TYPE_RAW). guard_false (orig_fmt r =? IMG_DATA_TYPE_JPEG).
  cbn [cap mem_res mem_end channel_size hp].
  eapply (yuv_phase (fun v _ => [block_region frm v]) frm v true r); [done|done|done| |cbn [mem_res]; rewrite Ej; lia|].
  { apply (fresh_whole _ frm v r (mk_arr c (buf_size frm) 0 (pixels (align16 (image_size r))) h)); [|done].
    split; [|done]. split; [done|]. split; [Z.to_euclidean_division_equations; lia|]. split; [done|by left]. }
  intros s1 s2 [HJ2 _ Hres Hheap HL _] Es1 Eh1 _. cbn [mem_res hp] in Es1, Eh1. apply wp_bind.
  eapply (misc_phase no_alloc (fun v _ => [block_region frm v]) frm v true r); [done|exact HL|intros _; lia|].
  intros s3 _ _ Hh3 _ _ _ _. rewrite Hrot. apply wp_bind, wp_ret, wp_upd. cbn [hp]. rewrite Hh3 by done. congruence.
Qed.

(** C32. The block that [camera_capture_buf_size] asks for is large enough for a YUV capture
    without rotation and without scaling down (the captured picture has no more pixels
    than the padded target), with the back or the front camera, a target of at most 8192 in
    either direction and a thumbnail of at most 320 by 240: the call then succeeds in a block
    of the table's size, and it never calls the callback.  [tables_too_small] has captures
    beyond these conditions for which the block is too small. *)
Theorem yuv_capture_fits (heap : Type) (alloc_mem : Z -> heap -> option (Z * Z) * heap) cam sn_fmt frm v r c rest image_cnt h :
  cam = BACK_CAMERA_ID \/ cam = FRONT_CAMERA_ID -> sn_fmt <> SENSOR_IMAGE_FORMAT_RAW ->
  camera_capture_buf_size cam sn_fmt (Some (image_size r)) = Some (buf_size frm) ->
  yuv_capture r -> 0 <= base frm v -> base frm v + buf_size frm < 2 ^ 32 -> image_cnt <= 1 + zlen rest ->
  exists mems, arrange_request alloc_mem frm r (c :: rest) image_cnt h = Done (0, Some mems, h).
Proof.
  intros Hcam Hf Hsize Hy B0 B2 Hcnt. pose proof (yuv_request r Hy) as Hr. destruct (table_room _ _ _ _ Hcam Hf Hsize) as [Hroom Hmax].
  set (s := mk_arr c (buf_size frm) 0 (pixels (align16 (image_size r))) h).
  assert (wp true (arrange_all no_alloc frm r) s (fun _ s' => hp s' = h)) as H by by eapply yuv_runs.
  unfold wp in H. destruct (arrange_all no_alloc frm r s) as [[[]|] s'] eqn:E; [|done]. apply (follows_all alloc_mem) in E.
  destruct (copy_mem_fits (Z.to_nat (image_cnt - 1)) (cap s') rest) as [rest' Er]; [unfold zlen in Hcnt; lia|].
  exists (cap s' :: rest'). unfold arrange_request, camera_arrange_capture_buf. replace (mk_request _ _ _ _ _ _ _) with r by by destruct r.
  fold s. rewrite E, Er. cbn [obind]. by rewrite H.
Qed.

(** ** Examples *)

(** A callback that gives the memory after all that is in use. *)
Definition top (h : list (Z * Z)) : Z := foldr (fun x m => Z.max (fst x + snd x) m) 0 h.
Definition next_alloc (n : Z) (h : list (Z * Z)) : option (Z * Z) * list (Z * Z) :=
  if top h + n <? 2 ^ 32 then (Some (top h, top h), (top h, n) :: h) else (None, h).

Lemma top_ok h : 0 <= top h /\ Forall (fun x => fst x + snd x <= top h) h.
Proof.
  unfold top. induction h as [|x h [IH1 IH2]]; cbn [foldr]; [by split|]. split; [lia|]. constructor; [lia|]. eapply Forall_impl; [exact IH2|]. intros y Hy. cbn beta in *. lia.
Qed.

Lemma next_alloc_ok : Allocator next_alloc (fun _ h => h).
Proof.
  intros n h p q h' E v. unfold next_alloc in E. destruct (Z.ltb_spec (top h + n) (2 ^ 32)); [|done]. injection E as <- <- <-. destruct (top_ok h) as [H0 Ht].
  destruct v; split_and!; try done; (eapply Forall_impl; [exact Ht|]); intros x Hx; by right.
Qed.

Definition example_block (n : Z) : img_frm := mk_frm 0 n (mk_size 0 0) (mk_addr 0x80000000 0 0) (mk_addr 0x80000000 0 0).
Definition example_request (f w h : Z) (rot : bool) : request :=
  mk_request (mk_size w h) (mk_rect 0 0 w h) (mk_size w h) f (mk_size w h) (mk_size 320 240) rot.
Definition example_heap (n : Z) : list (Z * Z) := [(0x80000000, n)].

(** A picture turned in a block that has no room for the turned picture. *)
Definition turned := arrange_request next_alloc (example_block 700000) (example_request 1 640 480 true) [zero_cap_mem; zero_cap_mem] 2 (example_heap 700000).
Definition turned_mems : list cmr_cap_mem := match turned with Done (_, Some l, _) => l | _ => [] end.
Definition turned_heap : list (Z * Z) := match turned with Done (_, _, h) => h | _ => [] end.

Lemma capture_layout_witness : length turned_heap = 3%nat /\
  exists c, all_apart (buffers (example_block 700000) true (example_request 1 640 480 true) c) /\
    Forall (in_memory (fun _ h => h) (example_block 700000) true turned_heap) (buffers (example_block 700000) true (example_request 1 640 480 true) c) /\
    picture_inside (example_block 700000) true (example_request 1 640 480 true) c /\ shared true (example_request 1 640 480 true) c /\
    forall i, (i < 2)%nat -> turned_mems !! i = Some c.
Proof.
  split; [vm_compute; reflexivity|].
  apply (capture_layout (list (Z * Z)) next_alloc (fun _ h => h) (example_block 700000) true (example_request 1 640 480 true) [zero_cap_mem; zero_cap_mem] 2 (example_heap 700000)
    turned_mems turned_heap).
  - exact next_alloc_ok.
  - cbn. unfold request_ok, size_ok, side_ok. cbn. lia.
  - unfold block_ok, base, block_region. cbn. split_and!; [lia|lia|lia|by left].
  - vm_compute. reflexivity.
Defined.

Lemma yuv_capture_fits_witness : exists mems,
  arrange_request next_alloc (example_block (mega 22)) (example_request 1 3264 2448 false) [zero_cap_mem; zero_cap_mem] 2 (example_heap (mega 22)) =
    Done (0, Some mems, example_heap (mega 22)).
Proof.
  apply (yuv_capture_fits (list (Z * Z)) next_alloc BACK_CAMERA_ID 0 (example_block (mega 22)) false (example_request 1 3264 2448 false)).
  - by left.
  - done.
  - vm_compute. reflexivity.
  - split; cbn; try done; unfold size_ok, side_ok; cbn; try lia; try (split; done).
  - cbn. lia.
  - vm_compute. reflexivity.
  - vm_compute. discriminate.
Defined.

(** ** Captures that the tables and the layout are too small for *)

(** The capture in a block of the table's size. *)
Definition try_capture (cam sn_fmt f w h : Z) (rot : bool) : outcome (Z * option (list cmr_cap_mem) * list (Z * Z)) :=
  match camera_capture_buf_size cam sn_fmt (Some (mk_size w h)) with
  | Some n => arrange_request next_alloc (example_block n) (example_request f w h rot) [zero_cap_mem] 1 (example_heap n)
  | None => Undef
  end.

Definition try_code (o : outcome (Z * option (list cmr_cap_mem) * list (Z * Z))) : option Z := match o with Done (ret, _, _) => Some ret | _ => None end.
Definition try_mem (o : outcome (Z * option (list cmr_cap_mem) * list (Z * Z))) : cmr_cap_mem := match o with Done (_, Some (c :: _), _) => c | _ => zero_cap_mem end.

(** A sensor that delivers JPEG at eight million pixels, or any other camera with YUV at
    seven: the block is too small, and the call fails. *)
Lemma tables_too_small : try_code (try_capture 0 0 0 3264 2448 false) = Some (-1) /\ try_code (try_capture 2 0 1 3072 2304 false) = Some (-1).
Proof. vm_compute. done. Qed.

(** The table of the back camera has a smaller block for six million pixels than for five. *)
Lemma table_not_monotone : camera_capture_buf_size 0 0 (Some (mk_size 2592 1944)) = Some (mega 20) /\ camera_capture_buf_size 0 0 (Some (mk_size 2816 2112)) = Some (mega 18).
Proof. vm_compute. done. Qed.

(** JPEG data with rotation: the chroma plane of the captured picture reaches into the
    thumbnail. *)
Lemma jpeg_turned_meets :
  let c := try_mem (try_capture 0 0 0 2592 1944 true) in
  ~ apart (addr_u (addr_vir (cap_yuv c)), 2592 * 1944 / 2) (region true (thum_yuv c)).
Proof. vm_compute. intros [H|H]; by apply H. Qed.

(** A small picture with rotation: the coded picture, in the memory of the turned one,
    reaches past it. *)
Lemma small_turned_overruns :
  let c := try_mem (try_capture 0 0 1 320 240 true) in
  ~ within (region true (target_jpeg c)) (region true (cap_yuv_rot c)).
Proof. vm_compute. intros [H1 H2]. by apply H2. Qed.

(** The scratch buffer of the encoder starts at the chroma plane and has the size of the
    whole picture: it reaches into the coded picture. *)
Lemma jpeg_tmp_meets :
  let c := try_mem (try_capture 0 0 1 3264 2448 false) in
  ~ apart (region true (jpeg_tmp c)) (region true (target_jpeg c)).
Proof. vm_compute. intros [H|H]; by apply H. Qed.
