(* ===== verification/DmMd5.v ===== *)
(** * libs/libdm/src/sprd_dm_md5_b64.c: the MD5 digest

    The digest of the device-management credentials, in the 32-bit arithmetic of
    [unsigned long] on the target.  The code keeps a context (four state words, a
    64-bit bit count in two words, a 64-byte buffer), absorbs the input piece by
    piece and pads at the end.  The reference is RFC 1321: pad the whole message,
    cut it into blocks, run 64 steps given by a table on each. *)

From S2P Require Import Prelude CString.

(** ** The code *)

Definition S11 := 7.
Definition S12 := 12.
Definition S13 := 17.
Definition S14 := 22.
Definition S21 := 5.
Definition S22 := 9.
Definition S23 := 14.
Definition S24 := 20.
Definition S31 := 4.
Definition S32 := 11.
Definition S33 := 16.
Definition S34 := 23.
Definition S41 := 6.
Definition S42 := 10.
Definition S43 := 15.
Definition S44 := 21.

Definition PADDING : list Z := 0x80 :: replicate 63 0.

Record MD5_CTX := {
  state : list Z;
  count0 : Z;
  count1 : Z;
  buffer : list Z
}.

Definition F (x y z : Z) : Z := Z.lxor z (Z.land x (Z.lxor y z)).
Definition G (x y z : Z) : Z := Z.lxor y (Z.land z (Z.lxor y x)).
Definition H (x y z : Z) : Z := Z.lxor (Z.lxor x y) z.
Definition I (x y z : Z) : Z := Z.lxor y (Z.lor x (u32 (Z.lnot z))).

Definition ROTATE_LEFT (x n : Z) : Z := Z.lor (u32 (Z.shiftl x n)) (Z.shiftr x (32 - n)).

(** The body shared by the four macros, with [f] the value of the function. *)
Definition mix (a f b x s ac : Z) : Z := u32 (ROTATE_LEFT (u32 (a + (f + x + ac))) s + b).

Definition FF (a b c d x s ac : Z) : Z := mix a (F b c d) b x s ac.
Definition GG (a b c d x s ac : Z) : Z := mix a (G b c d) b x s ac.
Definition HH (a b c d x s ac : Z) : Z := mix a (H b c d) b x s ac.
Definition II (a b c d x s ac : Z) : Z := mix a (I b c d) b x s ac.

Definition word (x : list Z) (i : nat) : Z := nth i x 0.

(** Round 1, four lines at a time. *)
Definition round1a (x : list Z) (s : Z * Z * Z * Z) : Z * Z * Z * Z :=
  let '(a, b, c, d) := s in
  let a := FF a b c d (word x 0) S11 0xd76aa478 in
  let d := FF d a b c (word x 1) S12 0xe8c7b756 in
  let c := FF c d a b (word x 2) S13 0x242070db in
  let b := FF b c d a (word x 3) S14 0xc1bdceee in
  (a, b, c, d).

Definition round1b (x : list Z) (s : Z * Z * Z * Z) : Z * Z * Z * Z :=
  let '(a, b, c, d) := s in
  let a := FF a b c d (word x 4) S11 0xf57c0faf in
  let d := FF d a b c (word x 5) S12 0x4787c62a in
  let c := FF c d a b (word x 6) S13 0xa8304613 in
  let b := FF b c d a (word x 7) S14 0xfd469501 in
  (a, b, c, d).

Definition round1c (x : list Z) (s : Z * Z * Z * Z) : Z * Z * Z * Z :=
  let '(a, b, c, d) := s in
  let a := FF a b c d (word x 8) S11 0x698098d8 in
  let d := FF d a b c (word x 9) S12 0x8b44f7af in
  let c := FF c d a b (word x 10) S13 0xffff5bb1 in
  let b := FF b c d a (word x 11) S14 0x895cd7be in
  (a, b, c, d).

Definition round1d (x : list Z) (s : Z * Z * Z * Z) : Z * Z * Z * Z :=
  let '(a, b, c, d) := s in
  let a := FF a b c d (word x 12) S11 0x6b901122 in
  let d := FF d a b c (word x 13) S12 0xfd987193 in
  let c := FF c d a b (word x 14) S13 0xa679438e in
  let b := FF b c d a (word x 15) S14 0x49b40821 in
  (a, b, c, d).

Definition round1 (x : list Z) (s : Z * Z * Z * Z) : Z * Z * Z * Z :=
  round1d x (round1c x (round1b x (round1a x s))).

(** Round 2, four lines at a time. *)
Definition round2a (x : list Z) (s : Z * Z * Z * Z) : Z * Z * Z * Z :=
  let '(a, b, c, d) := s in
  let a := GG a b c d (word x 1) S21 0xf61e2562 in
  let d := GG d a b c (word x 6) S22 0xc040b340 in
  let c := GG c d a b (word x 11) S23 0x265e5a51 in
  let b := GG b c d a (word x 0) S24 0xe9b6c7aa in
  (a, b, c, d).

Definition round2b (x : list Z) (s : Z * Z * Z * Z) : Z * Z * Z * Z :=
  let '(a, b, c, d) := s in
  let a := GG a b c d (word x 5) S21 0xd62f105d in
  let d := GG d a b c (word x 10) S22 0x2441453 in
  let c := GG c d a b (word x 15) S23 0xd8a1e681 in
  let b := GG b c d a (word x 4) S24 0xe7d3fbc8 in
  (a, b, c, d).

Definition round2c (x : list Z) (s : Z * Z * Z * Z) : Z * Z * Z * Z :=
  let '(a, b, c, d) := s in
  let a := GG a b c d (word x 9) S21 0x21e1cde6 in
  let d := GG d a b c (word x 14) S22 0xc33707d6 in
  let c := GG c d a b (word x 3) S23 0xf4d50d87 in
  let b := GG b c d a (word x 8) S24 0x455a14ed in
  (a, b, c, d).

Definition round2d (x : list Z) (s : Z * Z * Z * Z) : Z * Z * Z * Z :=
  let '(a, b, c, d) := s in
  let a := GG a b c d (word x 13) S21 0xa9e3e905 in
  let d := GG d a b c (word x 2) S22 0xfcefa3f8 in
  let c := GG c d a b (word x 7) S23 0x676f02d9 in
  let b := GG b c d a (word x 12) S24 0x8d2a4c8a in
  (a, b, c, d).

Definition round2 (x : list Z) (s : Z * Z * Z * Z) : Z * Z * Z * Z :=
  round2d x (round2c x (round2b x (round2a x s))).

(** Round 3, four lines at a time. *)
Definition round3a (x : list Z) (s : Z * Z * Z * Z) : Z * Z * Z * Z :=
  let '(a, b, c, d) := s in
  let a := HH a b c d (word x 5) S31 0xfffa3942 in
  let d := HH d a b c (word x 8) S32 0x8771f681 in
  let c := HH c d a b (word x 11) S33 0x6d9d6122 in
  let b := HH b c d a (word x 14) S34 0xfde5380c in
  (a, b, c, d).

Definition round3b (x : list Z) (s : Z * Z * Z * Z) : Z * Z * Z * Z :=
  let '(a, b, c, d) := s in
  let a := HH a b c d (word x 1) S31 0xa4beea44 in
  let d := HH d a b c (word x 4) S32 0x4bdecfa9 in
  let c := HH c d a b (word x 7) S33 0xf6bb4b60 in
  let b := HH b c d a (word x 10) S34 0xbebfbc70 in
  (a, b, c, d).

Definition round3c (x : list Z) (s : Z * Z * Z * Z) : Z * Z * Z * Z :=
  let '(a, b, c, d) := s in
  let a := HH a b c d (word x 13) S31 0x289b7ec6 in
  let d := HH d a b c (word x 0) S32 0xeaa127fa in
  let c := HH c d a b (word x 3) S33 0xd4ef3085 in
  let b := HH b c d a (word x 6) S34 0x4881d05 in
  (a, b, c, d).

Definition round3d (x : list Z) (s : Z * Z * Z * Z) : Z * Z * Z * Z :=
  let '(a, b, c, d) := s in
  let a := HH a b c d (word x 9) S31 0xd9d4d039 in
  let d := HH d a b c (word x 12) S32 0xe6db99e5 in
  let c := HH c d a b (word x 15) S33 0x1fa27cf8 in
  let b := HH b c d a (word x 2) S34 0xc4ac5665 in
  (a, b, c, d).

Definition round3 (x : list Z) (s : Z * Z * Z * Z) : Z * Z * Z * Z :=
  round3d x (round3c x (round3b x (round3a x s))).

(** Round 4, four lines at a time. *)
Definition round4a (x : list Z) (s : Z * Z * Z * Z) : Z * Z * Z * Z :=
  let '(a, b, c, d) := s in
  let a := II a b c d (word x 0) S41 0xf4292244 in
  let d := II d a b c (word x 7) S42 0x432aff97 in
  let c := II c d a b (word x 14) S43 0xab9423a7 in
  let b := II b c d a (word x 5) S44 0xfc93a039 in
  (a, b, c, d).

Definition round4b (x : list Z) (s : Z * Z * Z * Z) : Z * Z * Z * Z :=
  let '(a, b, c, d) := s in
  let a := II a b c d (word x 12) S41 0x655b59c3 in
  let d := II d a b c (word x 3) S42 0x8f0ccc92 in
  let c := II c d a b (word x 10) S43 0xffeff47d in
  let b := II b c d a (word x 1) S44 0x85845dd1 in
  (a, b, c, d).

Definition round4c (x : list Z) (s : Z * Z * Z * Z) : Z * Z * Z * Z :=
  let '(a, b, c, d) := s in
  let a := II a b c d (word x 8) S41 0x6fa87e4f in
  let d := II d a b c (word x 15) S42 0xfe2ce6e0 in
  let c := II c d a b (word x 6) S43 0xa3014314 in
  let b := II b c d a (word x 13) S44 0x4e0811a1 in
  (a, b, c, d).

Definition round4d (x : list Z) (s : Z * Z * Z * Z) : Z * Z * Z * Z :=
  let '(a, b, c, d) := s in
  let a := II a b c d (word x 4) S41 0xf7537e82 in
  let d := II d a b c (word x 11) S42 0xbd3af235 in
  let c := II c d a b (word x 2) S43 0x2ad7d2bb in
  let b := II b c d a (word x 9) S44 0xeb86d391 in
  (a, b, c, d).

Definition round4 (x : list Z) (s : Z * Z * Z * Z) : Z * Z * Z * Z :=
  round4d x (round4c x (round4b x (round4a x s))).

Definition DMMD5Init (context : MD5_CTX) : MD5_CTX :=
  {| state := [0x67452301; 0xefcdab89; 0x98badcfe; 0x10325476]; count0 := 0; count1 := 0; buffer := buffer context |}.

(** The loops run while [j < len - 3], in unsigned arithmetic; [n] bounds the
    number of rounds. *)
Fixpoint DM_Encode_loop (n : nat) (output input : list Z) (len i j : Z) : outcome (list Z) :=
  if j <? u32 (len - 3) then
    match n with
    | O => Fuel
    | S n =>
        let* w := rd input i in
        let* output := wr output j (Z.land w 0xff) in
        let* output := wr output (j + 1) (Z.land (Z.shiftr w 8) 0xff) in
        let* output := wr output (j + 2) (Z.land (Z.shiftr w 16) 0xff) in
        let* output := wr output (j + 3) (Z.land (Z.shiftr w 24) 0xff) in
        DM_Encode_loop n output input len (i + 1) (j + 4)
    end
  else Done output.

Definition DM_Encode (output input : list Z) (len : Z) : outcome (list Z) :=
  DM_Encode_loop (length output) output input len 0 0.

Fixpoint DM_Decode_loop (n : nat) (output input : list Z) (len i j : Z) : outcome (list Z) :=
  if j <? u32 (len - 3) then
    match n with
    | O => Fuel
    | S n =>
        let* b0 := rd input j in
        let* b1 := rd input (j + 1) in
        let* b2 := rd input (j + 2) in
        let* b3 := rd input (j + 3) in
        let* output := wr output i
          (Z.lor (Z.lor (Z.lor b0 (Z.shiftl b1 8)) (Z.shiftl b2 16)) (Z.shiftl b3 24)) in
        DM_Decode_loop n output input len (i + 1) (j + 4)
    end
  else Done output.

Definition DM_Decode (output input : list Z) (len : Z) : outcome (list Z) :=
  DM_Decode_loop (length output) output input len 0 0.

Definition DM_MD5Transform (state block : list Z) : outcome (list Z) :=
  let* a := rd state 0 in
  let* b := rd state 1 in
  let* c := rd state 2 in
  let* d := rd state 3 in
  let* x := DM_Decode (replicate 16 0) block 64 in
  let '(a', b', c', d') := round4 x (round3 x (round2 x (round1 x (a, b, c, d)))) in
  Done [u32 (a + a'); u32 (b + b'); u32 (c + c'); u32 (d + d')].

(** [for (i = partLen; i + 63 < inputLen; i += 64)]. *)
Fixpoint transform_loop (n : nat) (state input : list Z) (i : Z) : outcome (list Z * Z) :=
  if u32 (i + 63) <? zlen input then
    match n with
    | O => Fuel
    | S n =>
        let* block := slice input i 64 in
        let* state := DM_MD5Transform state block in
        transform_loop n state input (u32 (i + 64))
    end
  else Done (state, i).

Definition DMMD5Update (context : MD5_CTX) (input : list Z) : outcome MD5_CTX :=
  let inputLen := zlen input in
  let index := Z.land (Z.shiftr (count0 context) 3) 0x3F in
  let bits := u32 (Z.shiftl inputLen 3) in
  let count0 := u32 (count0 context + bits) in
  let count1 := if count0 <? bits then u32 (count1 context + 1) else count1 context in
  let count1 := u32 (count1 + Z.shiftr inputLen 29) in
  let partLen := 64 - index in
  if partLen <=? inputLen then
    let* head := slice input 0 partLen in
    let* buffer := splice (buffer context) index head in
    let* state := DM_MD5Transform (state context) buffer in
    let* (state, i) := transform_loop (S (length input / 64)) state input partLen in
    let* rest := slice input i (inputLen - i) in
    let* buffer := splice buffer 0 rest in
    Done {| state := state; count0 := count0; count1 := count1; buffer := buffer |}
  else
    let* rest := slice input 0 inputLen in
    let* buffer := splice (buffer context) index rest in
    Done {| state := state context; count0 := count0; count1 := count1; buffer := buffer |}.

(** The context after [DM_MD5_memset] with zero. *)
Definition wiped : MD5_CTX := {| state := replicate 4 0; count0 := 0; count1 := 0; buffer := replicate 64 0 |}.

Definition DMMD5Final (context : MD5_CTX) : outcome (list Z * MD5_CTX) :=
  let* bits := DM_Encode (replicate 8 0) [count0 context; count1 context] 8 in
  let index := Z.land (Z.shiftr (count0 context) 3) 0x3f in
  let padLen := if index <? 56 then 56 - index else 120 - index in
  let* padding := slice PADDING 0 padLen in
  let* context := DMMD5Update context padding in
  let* context := DMMD5Update context bits in
  let* digest := DM_Encode (replicate 16 0) (state context) 16 in
  Done (digest, wiped).

(** The bytes before the first NUL; undefined when the buffer holds none. *)
Fixpoint strlen_prefix (buf : list Z) : outcome (list Z) :=
  match buf with
  | [] => Undef
  | b :: buf' => if b =? 0 then Done [] else let* s := strlen_prefix buf' in Done (b :: s)
  end.

(** [creddata] is the buffer of the caller; the digest replaces the string.  The
    buffer of the context is uninitialised: [stack] is what it holds. *)
Definition mmidm_calc_md5_cred (stack creddata : list Z) : outcome (list Z) :=
  let ctx := DMMD5Init {| state := []; count0 := 0; count1 := 0; buffer := stack |} in
  let* text := strlen_prefix creddata in
  let* ctx := DMMD5Update ctx text in
  let* (digest, _) := DMMD5Final ctx in
  let* creddata := splice creddata 0 digest in
  wr creddata 16 0.

(** ** RFC 1321 *)

Module Rfc1321.
Definition K : list Z := [
 0xd76aa478; 0xe8c7b756; 0x242070db; 0xc1bdceee; 0xf57c0faf; 0x4787c62a; 0xa8304613; 0xfd469501;
 0x698098d8; 0x8b44f7af; 0xffff5bb1; 0x895cd7be; 0x6b901122; 0xfd987193; 0xa679438e; 0x49b40821;
 0xf61e2562; 0xc040b340; 0x265e5a51; 0xe9b6c7aa; 0xd62f105d; 0x2441453; 0xd8a1e681; 0xe7d3fbc8;
 0x21e1cde6; 0xc33707d6; 0xf4d50d87; 0x455a14ed; 0xa9e3e905; 0xfcefa3f8; 0x676f02d9; 0x8d2a4c8a;
 0xfffa3942; 0x8771f681; 0x6d9d6122; 0xfde5380c; 0xa4beea44; 0x4bdecfa9; 0xf6bb4b60; 0xbebfbc70;
 0x289b7ec6; 0xeaa127fa; 0xd4ef3085; 0x4881d05; 0xd9d4d039; 0xe6db99e5; 0x1fa27cf8; 0xc4ac5665;
 0xf4292244; 0x432aff97; 0xab9423a7; 0xfc93a039; 0x655b59c3; 0x8f0ccc92; 0xffeff47d; 0x85845dd1;
 0x6fa87e4f; 0xfe2ce6e0; 0xa3014314; 0x4e0811a1; 0xf7537e82; 0xbd3af235; 0x2ad7d2bb; 0xeb86d391].

Definition rotations : list Z :=
  [7; 12; 17; 22; 7; 12; 17; 22; 7; 12; 17; 22; 7; 12; 17; 22;
   5; 9; 14; 20; 5; 9; 14; 20; 5; 9; 14; 20; 5; 9; 14; 20;
   4; 11; 16; 23; 4; 11; 16; 23; 4; 11; 16; 23; 4; 11; 16; 23;
   6; 10; 15; 21; 6; 10; 15; 21; 6; 10; 15; 21; 6; 10; 15; 21].

Definition not32 (x : Z) : Z := u32 (Z.lnot x).
Definition rotl (x n : Z) : Z := u32 (x * 2 ^ n) + x / 2 ^ (32 - n).

(** The auxiliary function of step [i]. *)
Definition aux (i : nat) (x y z : Z) : Z :=
  if (i <? 16)%nat then Z.lor (Z.land x y) (Z.land (not32 x) z)
  else if (i <? 32)%nat then Z.lor (Z.land x z) (Z.land y (not32 z))
  else if (i <? 48)%nat then Z.lxor (Z.lxor x y) z
  else Z.lxor y (Z.lor x (not32 z)).

(** The word of the block that step [i] uses. *)
Definition index (i : nat) : nat :=
  if (i <? 16)%nat then i
  else if (i <? 32)%nat then (5 * i + 1) mod 16
  else if (i <? 48)%nat then (3 * i + 5) mod 16
  else (7 * i) mod 16.

Definition step (x : list Z) (s : Z * Z * Z * Z) (i : nat) : Z * Z * Z * Z :=
  let '(a, b, c, d) := s in
  (d, u32 (b + rotl (u32 (a + aux i b c d + word x (index i) + word K i)) (word rotations i)), b, c).

Fixpoint words (n : nat) (block : list Z) : list Z :=
  match n with
  | O => []
  | S n => le_val (take 4 block) :: words n (drop 4 block)
  end.

Definition compress (s : Z * Z * Z * Z) (block : list Z) : Z * Z * Z * Z :=
  let '(a, b, c, d) := s in
  let '(a', b', c', d') := fold_left (step (words 16 block)) (seq 0 64) s in
  (u32 (a + a'), u32 (b + b'), u32 (c + c'), u32 (d + d')).

Definition init : Z * Z * Z * Z := (0x67452301, 0xefcdab89, 0x98badcfe, 0x10325476).

(** The first [n] blocks of a message. *)
Fixpoint absorb (n : nat) (s : Z * Z * Z * Z) (m : list Z) : Z * Z * Z * Z :=
  match n with
  | O => s
  | S n => absorb n (compress s (take 64 m)) (drop 64 m)
  end.

Definition pad (m : list Z) : list Z :=
  m ++ [0x80] ++ replicate (Z.to_nat ((55 - zlen m) mod 64)) 0 ++ le_bytes 8 (8 * zlen m).

Definition md5 (m : list Z) : list Z :=
  let '(a, b, c, d) := absorb (length (pad m) / 64) init (pad m) in
  le_bytes 4 a ++ le_bytes 4 b ++ le_bytes 4 c ++ le_bytes 4 d.
End Rfc1321.

(** The test suite of the RFC. *)
Example md5_abc :
  le_val (rev (Rfc1321.md5 (bytes_of "abc"))) = 0x900150983cd24fb0d6963f7d28e17f72.
Proof. vm_compute. reflexivity. Qed.

Example md5_code_abc :
  mmidm_calc_md5_cred (replicate 64 7) (bytes_of "abc" ++ replicate 20 0) =
  Done (Rfc1321.md5 (bytes_of "abc") ++ replicate 7 0).
Proof. vm_compute. reflexivity. Qed.

(** ** The 64 steps *)

Lemma testbit_not32 x i : 0 <= i -> Z.testbit (Rfc1321.not32 x) i = (i <? 32) && negb (Z.testbit x i).
Proof. intros Hi. unfold Rfc1321.not32, u32. rewrite testbit_wrap by lia. by rewrite Z.lnot_spec by lia. Qed.

Lemma F_aux x y z : u32_ok z -> F x y z = Z.lor (Z.land x y) (Z.land (Rfc1321.not32 x) z).
Proof.
  intros Hz. apply Z.bits_inj'. intros i Hi. unfold F.
  rewrite Z.lxor_spec, Z.land_spec, Z.lxor_spec, Z.lor_spec, !Z.land_spec, testbit_not32 by lia.
  destruct (Z.ltb_spec i 32) as [|Hge]; [|rewrite (testbit_small z 32 i) by (unfold u32_ok in *; lia)];
    destruct (Z.testbit x i), (Z.testbit y i); try destruct (Z.testbit z i); reflexivity.
Qed.

Lemma G_aux x y z : u32_ok y -> G x y z = Z.lor (Z.land x z) (Z.land y (Rfc1321.not32 z)).
Proof.
  intros Hy. apply Z.bits_inj'. intros i Hi. unfold G.
  rewrite Z.lxor_spec, Z.land_spec, Z.lxor_spec, Z.lor_spec, !Z.land_spec, testbit_not32 by lia.
  destruct (Z.ltb_spec i 32) as [|Hge]; [|rewrite (testbit_small y 32 i) by (unfold u32_ok in *; lia)];
    destruct (Z.testbit x i), (Z.testbit z i); try destruct (Z.testbit y i); reflexivity.
Qed.

Lemma rotate_rotl x n : u32_ok x -> 0 < n < 32 -> ROTATE_LEFT x n = Rfc1321.rotl x n.
Proof.
  intros Hx Hn. unfold ROTATE_LEFT, Rfc1321.rotl, u32_ok in *.
  rewrite Z.shiftl_mul_pow2, Z.shiftr_div_pow2 by lia.
  assert (Hq : 0 <= x / 2 ^ (32 - n) < 2 ^ n).
  { split; [apply Z.div_pos; lia|]. apply Z.div_lt_upper_bound; [lia|]. rewrite <- Z.pow_add_r by lia.
    replace (32 - n + n) with 32 by lia. lia. }
  assert (Hm : u32 (x * 2 ^ n) = (x mod 2 ^ (32 - n)) * 2 ^ n).
  { unfold u32, wrap. replace 32 with (32 - n + n) at 1 by lia. rewrite Z.pow_add_r by lia.
    by rewrite Z.mul_mod_distr_r by lia. }
  rewrite Hm, Z.lor_comm, lor_disjoint by lia. lia.
Qed.

Lemma mix_range a f b x s ac : u32_ok (mix a f b x s ac).
Proof. apply u32_range. Qed.

Definition words_ok (s : Z * Z * Z * Z) : Prop :=
  let '(a, b, c, d) := s in u32_ok a /\ u32_ok b /\ u32_ok c /\ u32_ok d.

(** A step of the RFC, its parts replaced by the macros of the code. *)
Lemma step_mix x a b c d i f s k :
  Rfc1321.aux i b c d = f -> word Rfc1321.rotations i = s -> word Rfc1321.K i = k -> 0 < s < 32 ->
  Rfc1321.step x (a, b, c, d) i = (d, mix a f b (word x (Rfc1321.index i)) s k, b, c).
Proof.
  intros <- <- <- Hs. unfold Rfc1321.step, mix. do 3 f_equal.
  rewrite rotate_rotl by (auto with cbounds). rewrite (Z.add_comm b). do 4 f_equal. lia.
Qed.

Lemma step_FF x a b c d i :
  (i < 16)%nat -> u32_ok d -> 0 < word Rfc1321.rotations i < 32 ->
  Rfc1321.step x (a, b, c, d) i =
    (d, FF a b c d (word x (Rfc1321.index i)) (word Rfc1321.rotations i) (word Rfc1321.K i), b, c).
Proof.
  intros Hi Hd Hs. apply step_mix; try done. unfold Rfc1321.aux. rewrite (proj2 (Nat.ltb_lt _ _) Hi).
  by rewrite F_aux.
Qed.

Lemma step_GG x a b c d i :
  (16 <= i < 32)%nat -> u32_ok c -> 0 < word Rfc1321.rotations i < 32 ->
  Rfc1321.step x (a, b, c, d) i =
    (d, GG a b c d (word x (Rfc1321.index i)) (word Rfc1321.rotations i) (word Rfc1321.K i), b, c).
Proof.
  intros Hi Hd Hs. apply step_mix; try done. unfold Rfc1321.aux.
  rewrite (proj2 (Nat.ltb_ge _ _)), (proj2 (Nat.ltb_lt _ _)) by lia. by rewrite G_aux.
Qed.

Lemma step_HH x a b c d i :
  (32 <= i < 48)%nat -> 0 < word Rfc1321.rotations i < 32 ->
  Rfc1321.step x (a, b, c, d) i =
    (d, HH a b c d (word x (Rfc1321.index i)) (word Rfc1321.rotations i) (word Rfc1321.K i), b, c).
Proof.
  intros Hi Hs. apply step_mix; try done. unfold Rfc1321.aux.
  by rewrite !(proj2 (Nat.ltb_ge _ _)), (proj2 (Nat.ltb_lt _ _)) by lia.
Qed.

Lemma step_II x a b c d i :
  (48 <= i)%nat -> 0 < word Rfc1321.rotations i < 32 ->
  Rfc1321.step x (a, b, c, d) i =
    (d, II a b c d (word x (Rfc1321.index i)) (word Rfc1321.rotations i) (word Rfc1321.K i), b, c).
Proof.
  intros Hi Hs. apply step_mix; try done. unfold Rfc1321.aux. by rewrite !(proj2 (Nat.ltb_ge _ _)) by lia.
Qed.

(** One line of a round: the value computed is named on both sides. *)
Ltac one_step lem :=
  lazymatch goal with
  | |- fold_left (Rfc1321.step ?x) (?i :: ?l) (?a, ?b, ?c, ?d) = (let y := ?v in @?B y) /\ _ =>
      change (fold_left (Rfc1321.step x) l (Rfc1321.step x (a, b, c, d) i) = B v /\ words_ok (B v));
      rewrite lem; [|first [lia|assumption|vm_compute; split; reflexivity] ..];
      change (fold_left (Rfc1321.step x) l (d, v, b, c) = B v /\ words_ok (B v));
      let R := fresh in
      assert (R : u32_ok v) by apply mix_range; revert R; generalize v; cbv beta; intros ? ?
  end.

(** Four lines of a round. *)
Ltac four_steps def lem :=
  match goal with
  | |- words_ok ?s -> _ => destruct s as [[[? ?] ?] ?]
  end;
  intros (? & ? & ? & ?); cbn [seq]; cbv delta [def] beta iota; do 4 one_step lem; by split; [reflexivity|].

Lemma round1a_ok x s :
  words_ok s -> fold_left (Rfc1321.step x) (seq 0 4) s = round1a x s /\ words_ok (round1a x s).
Proof. four_steps round1a step_FF. Qed.

Lemma round1b_ok x s :
  words_ok s -> fold_left (Rfc1321.step x) (seq 4 4) s = round1b x s /\ words_ok (round1b x s).
Proof. four_steps round1b step_FF. Qed.

Lemma round1c_ok x s :
  words_ok s -> fold_left (Rfc1321.step x) (seq 8 4) s = round1c x s /\ words_ok (round1c x s).
Proof. four_steps round1c step_FF. Qed.

Lemma round1d_ok x s :
  words_ok s -> fold_left (Rfc1321.step x) (seq 12 4) s = round1d x s /\ words_ok (round1d x s).
Proof. four_steps round1d step_FF. Qed.

Lemma round2a_ok x s :
  words_ok s -> fold_left (Rfc1321.step x) (seq 16 4) s = round2a x s /\ words_ok (round2a x s).
Proof. four_steps round2a step_GG. Qed.

Lemma round2b_ok x s :
  words_ok s -> fold_left (Rfc1321.step x) (seq 20 4) s = round2b x s /\ words_ok (round2b x s).
Proof. four_steps round2b step_GG. Qed.

Lemma round2c_ok x s :
  words_ok s -> fold_left (Rfc1321.step x) (seq 24 4) s = round2c x s /\ words_ok (round2c x s).
Proof. four_steps round2c step_GG. Qed.

Lemma round2d_ok x s :
  words_ok s -> fold_left (Rfc1321.step x) (seq 28 4) s = round2d x s /\ words_ok (round2d x s).
Proof. four_steps round2d step_GG. Qed.

Lemma round3a_ok x s :
  words_ok s -> fold_left (Rfc1321.step x) (seq 32 4) s = round3a x s /\ words_ok (round3a x s).
Proof. four_steps round3a step_HH. Qed.

Lemma round3b_ok x s :
  words_ok s -> fold_left (Rfc1321.step x) (seq 36 4) s = round3b x s /\ words_ok (round3b x s).
Proof. four_steps round3b step_HH. Qed.

Lemma round3c_ok x s :
  words_ok s -> fold_left (Rfc1321.step x) (seq 40 4) s = round3c x s /\ words_ok (round3c x s).
Proof. four_steps round3c step_HH. Qed.

Lemma round3d_ok x s :
  words_ok s -> fold_left (Rfc1321.step x) (seq 44 4) s = round3d x s /\ words_ok (round3d x s).
Proof. four_steps round3d step_HH. Qed.

Lemma round4a_ok x s :
  words_ok s -> fold_left (Rfc1321.step x) (seq 48 4) s = round4a x s /\ words_ok (round4a x s).
Proof. four_steps round4a step_II. Qed.

Lemma round4b_ok x s :
  words_ok s -> fold_left (Rfc1321.step x) (seq 52 4) s = round4b x s /\ words_ok (round4b x s).
Proof. four_steps round4b step_II. Qed.

Lemma round4c_ok x s :
  words_ok s -> fold_left (Rfc1321.step x) (seq 56 4) s = round4c x s /\ words_ok (round4c x s).
Proof. four_steps round4c step_II. Qed.

Lemma round4d_ok x s :
  words_ok s -> fold_left (Rfc1321.step x) (seq 60 4) s = round4d x s /\ words_ok (round4d x s).
Proof. four_steps round4d step_II. Qed.

Lemma rounds_ok x s :
  words_ok s ->
  fold_left (Rfc1321.step x) (seq 0 64) s = round4 x (round3 x (round2 x (round1 x s))) /\
  words_ok (round4 x (round3 x (round2 x (round1 x s)))).
Proof.
  intros Hs. change (seq 0 64) with
    (seq 0 4 ++ seq 4 4 ++ seq 8 4 ++ seq 12 4 ++ seq 16 4 ++ seq 20 4 ++ seq 24 4 ++ seq 28 4 ++
     seq 32 4 ++ seq 36 4 ++ seq 40 4 ++ seq 44 4 ++ seq 48 4 ++ seq 52 4 ++ seq 56 4 ++ seq 60 4).
  rewrite !fold_left_app. unfold round1, round2, round3, round4.
  destruct (round1a_ok x s Hs) as [-> ?]. destruct (round1b_ok x (round1a x s)) as [-> ?]; [done|].
  destruct (round1c_ok x (round1b x (round1a x s))) as [-> ?]; [done|].
  set (s1 := round1c x _) in *. destruct (round1d_ok x s1) as [-> ?]; [done|].
  set (s2 := round1d x s1) in *. destruct (round2a_ok x s2) as [-> ?]; [done|].
  set (s3 := round2a x s2) in *. destruct (round2b_ok x s3) as [-> ?]; [done|].
  set (s4 := round2b x s3) in *. destruct (round2c_ok x s4) as [-> ?]; [done|].
  set (s5 := round2c x s4) in *. destruct (round2d_ok x s5) as [-> ?]; [done|].
  set (s6 := round2d x s5) in *. destruct (round3a_ok x s6) as [-> ?]; [done|].
  set (s7 := round3a x s6) in *. destruct (round3b_ok x s7) as [-> ?]; [done|].
  set (s8 := round3b x s7) in *. destruct (round3c_ok x s8) as [-> ?]; [done|].
  set (s9 := round3c x s8) in *. destruct (round3d_ok x s9) as [-> ?]; [done|].
  set (s10 := round3d x s9) in *. destruct (round4a_ok x s10) as [-> ?]; [done|].
  set (s11 := round4a x s10) in *. destruct (round4b_ok x s11) as [-> ?]; [done|].
  set (s12 := round4b x s11) in *. destruct (round4c_ok x s12) as [-> ?]; [done|].
  set (s13 := round4c x s12) in *. by destruct (round4d_ok x s13) as [-> ?].
Qed.

(** ** Words and bytes *)

Lemma le_val_lor b0 b1 b2 b3 :
  byte_ok b0 -> byte_ok b1 -> byte_ok b2 -> byte_ok b3 ->
  Z.lor (Z.lor (Z.lor b0 (Z.shiftl b1 8)) (Z.shiftl b2 16)) (Z.shiftl b3 24) = le_val [b0; b1; b2; b3].
Proof.
  unfold byte_ok. intros H0 H1 H2 H3. rewrite !Z.shiftl_mul_pow2 by lia.
  rewrite (lor_disjoint 8), (lor_disjoint 16), (lor_disjoint 24) by lia. cbn [le_val]. lia.
Qed.

Lemma words_cons n b0 b1 b2 b3 rest :
  Rfc1321.words (S n) (b0 :: b1 :: b2 :: b3 :: rest) = le_val [b0; b1; b2; b3] :: Rfc1321.words n rest.
Proof. reflexivity. Qed.

(** A list of [4 * S k] bytes starts with four. *)
Lemma four_bytes (l : list Z) k :
  zlen l = 4 * Z.of_nat (S k) -> exists a b c d r, l = a :: b :: c :: d :: r /\ zlen r = 4 * Z.of_nat k.
Proof.
  intros Hl. destruct l as [|a [|b [|c [|d r]]]]; unfold zlen in *; cbn [length] in Hl; try lia.
  exists a, b, c, d, r. split; [done|]. unfold zlen. lia.
Qed.

Lemma shift_front (a b : list Z) x : a ++ x :: b = (a ++ [x]) ++ b.
Proof. by rewrite <- app_assoc. Qed.

Lemma decode_loop_ok k : forall n ws pre rest len,
  Forall byte_ok rest -> zlen rest = 4 * Z.of_nat k -> zlen pre = 4 * zlen ws ->
  len = zlen pre + zlen rest -> 4 <= len < 2 ^ 32 -> (k <= n)%nat ->
  DM_Decode_loop n (ws ++ replicate k 0) (pre ++ rest) len (zlen ws) (zlen pre) =
    Done (ws ++ Rfc1321.words k rest).
Proof.
  induction k as [|k IH]; intros n ws pre rest len Hb Hl Hp Hlen Hr Hn; destruct n as [|n]; try lia.
  1,2: cbn [DM_Decode_loop]; rewrite u32_small by (unfold u32_ok; lia);
    rewrite (proj2 (Z.ltb_ge _ _)) by lia; done.
  apply four_bytes in Hl as (b0 & b1 & b2 & b3 & r & -> & Hl).
  rewrite !Forall_cons in Hb. destruct Hb as (B0 & B1 & B2 & B3 & Hb).
  cbn [DM_Decode_loop]. rewrite u32_small by (unfold u32_ok; lia). autorewrite with cnorm in Hlen.
  pose proof (zlen_nonneg r). rewrite (proj2 (Z.ltb_lt _ _)) by lia.
  rewrite (rd_app pre) by done. cbn [obind].
  rewrite (shift_front pre), (rd_app (pre ++ [b0])) by (autorewrite with cnorm; lia). cbn [obind].
  rewrite (shift_front (pre ++ [b0])), (rd_app ((pre ++ [b0]) ++ [b1])) by (autorewrite with cnorm; lia).
  cbn [obind]. rewrite (shift_front ((pre ++ [b0]) ++ [b1])),
    (rd_app (((pre ++ [b0]) ++ [b1]) ++ [b2])) by (autorewrite with cnorm; lia). cbn [obind].
  cbn [replicate]. rewrite (wr_app ws) by done. cbn [obind]. rewrite le_val_lor by done.
  rewrite (shift_front ws), (shift_front (((pre ++ [b0]) ++ [b1]) ++ [b2])).
  replace (zlen ws + 1) with (zlen (ws ++ [le_val [b0; b1; b2; b3]])) by (autorewrite with cnorm; lia).
  replace (zlen pre + 4) with (zlen ((((pre ++ [b0]) ++ [b1]) ++ [b2]) ++ [b3])) by (autorewrite with cnorm; lia).
  rewrite IH; autorewrite with cnorm; try lia; [|done].
  by rewrite words_cons, <- app_assoc.
Qed.

Lemma decode_ok k block :
  Forall byte_ok block -> zlen block = 4 * Z.of_nat (S k) -> zlen block < 2 ^ 32 ->
  DM_Decode (replicate (S k) 0) block (zlen block) = Done (Rfc1321.words (S k) block).
Proof.
  intros Hb Hl Hr. unfold DM_Decode. rewrite length_replicate.
  apply (decode_loop_ok (S k) (S k) [] [] block); autorewrite with cnorm; try done; lia.
Qed.

Lemma le_bytes_4 w :
  le_bytes 4 w = [Z.land w 0xff; Z.land (Z.shiftr w 8) 0xff; Z.land (Z.shiftr w 16) 0xff; Z.land (Z.shiftr w 24) 0xff].
Proof.
  rewrite !land_ff, !Z.shiftr_div_pow2 by lia. cbn [le_bytes].
  rewrite !Z.div_div by lia. reflexivity.
Qed.

Lemma encode_loop_ok ws : forall n pre out wpre len,
  zlen out = 4 * zlen ws -> zlen pre = 4 * zlen wpre ->
  len = zlen pre + zlen out -> 4 <= len < 2 ^ 32 -> (length ws <= n)%nat ->
  DM_Encode_loop n (pre ++ out) (wpre ++ ws) len (zlen wpre) (zlen pre) =
    Done (pre ++ concat (map (le_bytes 4) ws)).
Proof.
  induction ws as [|w ws IH]; intros n pre out wpre len Hl Hp Hlen Hr Hn.
  - assert (out = []) as -> by (destruct out; [done|unfold zlen in Hl; cbn in Hl; lia]).
    destruct n; cbn [DM_Encode_loop]; rewrite u32_small by (unfold u32_ok; lia);
      rewrite (proj2 (Z.ltb_ge _ _)) by (autorewrite with cnorm in Hlen; lia); done.
  - destruct n as [|n]; [cbn in Hn; lia|].
    assert (Hl' : zlen out = 4 * Z.of_nat (S (length ws))) by (rewrite Hl; unfold zlen; cbn [length]; lia).
    apply four_bytes in Hl' as (b0 & b1 & b2 & b3 & r & -> & Hr').
    cbn [DM_Encode_loop]. rewrite u32_small by (unfold u32_ok; lia). autorewrite with cnorm in Hlen.
    pose proof (zlen_nonneg r). rewrite (proj2 (Z.ltb_lt _ _)) by lia.
    rewrite (rd_app wpre) by done. cbn [obind]. rewrite (wr_app pre) by done. cbn [obind].
    rewrite (shift_front pre), wr_app by (autorewrite with cnorm; lia). cbn [obind].
    rewrite (shift_front (pre ++ _)), wr_app by (autorewrite with cnorm; lia). cbn [obind].
    rewrite (shift_front ((pre ++ _) ++ _)), wr_app by (autorewrite with cnorm; lia).
    cbn [obind]. rewrite (shift_front (((pre ++ _) ++ _) ++ _)).
    rewrite (shift_front wpre). cbn [map concat]. rewrite le_bytes_4.
    match goal with |- DM_Encode_loop _ (?q ++ _) _ _ _ _ = _ => set (pre' := q) end.
    replace (zlen wpre + 1) with (zlen (wpre ++ [w])) by (autorewrite with cnorm; lia).
    assert (Hz : zlen pre' = zlen pre + 4) by (unfold pre'; autorewrite with cnorm; lia).
    rewrite <- Hz, IH; autorewrite with cnorm; try lia; [|unfold zlen in *; cbn [length] in Hl; lia|cbn in Hn; lia].
    unfold pre'. by rewrite <- !app_assoc.
Qed.

Lemma encode_ok ws out :
  (0 < length ws)%nat -> zlen out = 4 * zlen ws -> zlen out < 2 ^ 32 ->
  DM_Encode out ws (zlen out) = Done (concat (map (le_bytes 4) ws)).
Proof.
  intros H0 Hl Hr. unfold DM_Encode. apply (encode_loop_ok ws (length out) [] out []); try done.
  - unfold zlen in *. lia.
  - unfold zlen in *. lia.
Qed.

(** ** Blocks *)

Definition tuple_list (s : Z * Z * Z * Z) : list Z := let '(a, b, c, d) := s in [a; b; c; d].

Lemma compress_ok s block : words_ok (Rfc1321.compress s block).
Proof.
  destruct s as [[[a b] c] d]. unfold Rfc1321.compress. destruct (fold_left _ _ _) as [[[a' b'] c'] d'].
  split_and!; auto with cbounds.
Qed.

Lemma transform_ok s block :
  words_ok s -> Forall byte_ok block -> zlen block = 64 ->
  DM_MD5Transform (tuple_list s) block = Done (tuple_list (Rfc1321.compress s block)).
Proof.
  intros Hs Hb Hl. pose proof (rounds_ok (Rfc1321.words 16 block) s Hs) as [Hr _].
  destruct s as [[[a b] c] d]. unfold DM_MD5Transform, tuple_list. cbn [rd].
  change (rd [a; b; c; d] 0) with (Done a). change (rd [a; b; c; d] 1) with (Done b).
  change (rd [a; b; c; d] 2) with (Done c). change (rd [a; b; c; d] 3) with (Done d). cbn [obind].
  pose proof (decode_ok 15 block Hb ltac:(lia) ltac:(lia)) as Hd. rewrite Hl in Hd. rewrite Hd. cbn [obind].
  unfold Rfc1321.compress. rewrite <- Hr. by destruct (fold_left _ _ _) as [[[a' b'] c'] d'].
Qed.

Lemma absorb_ok n s m : words_ok s -> words_ok (Rfc1321.absorb n s m).
Proof. revert s m. induction n as [|n IH]; intros s m Hs; [done|]. apply IH, compress_ok. Qed.

Lemma absorb_app a b s l r :
  length l = (64 * a)%nat -> Rfc1321.absorb (a + b) s (l ++ r) = Rfc1321.absorb b (Rfc1321.absorb a s l) r.
Proof.
  revert s l. induction a as [|a IH]; intros s l Hl; [by destruct l|].
  cbn [Nat.add Rfc1321.absorb]. rewrite take_app_le, drop_app_le by lia.
  apply IH. rewrite length_drop. lia.
Qed.

Lemma absorb_one s l r : length l = 64%nat -> Rfc1321.absorb 1 s (l ++ r) = Rfc1321.compress s l.
Proof. intros Hl. cbn [Rfc1321.absorb]. by rewrite take_app_length' by done. Qed.

(** A list of [64 * r] bytes and a shorter rest. *)
Lemma split_blocks (l : list Z) :
  exists bs rest, l = bs ++ rest /\ length bs = (64 * (length l / 64))%nat /\ (length rest < 64)%nat.
Proof.
  pose proof (Nat.div_mod_eq (length l) 64) as Hd. pose proof (Nat.mod_upper_bound (length l) 64 ltac:(done)) as Hm.
  exists (take (64 * (length l / 64)) l), (drop (64 * (length l / 64)) l).
  split; [by rewrite take_drop|]. rewrite length_take, length_drop. split; lia.
Qed.

Lemma transform_loop_ok r : forall n s pre bs rest,
  words_ok s -> Forall byte_ok bs -> length bs = (64 * r)%nat -> (length rest < 64)%nat ->
  zlen (pre ++ bs ++ rest) + 64 < 2 ^ 32 -> (r <= n)%nat ->
  transform_loop n (tuple_list s) (pre ++ bs ++ rest) (zlen pre) =
    Done (tuple_list (Rfc1321.absorb r s bs), zlen pre + 64 * Z.of_nat r).
Proof.
  induction r as [|r IH]; intros n s pre bs rest Hs Hb Hl Hr Hlen Hn.
  - destruct bs; [|done]. cbn [app] in *. pose proof (zlen_nonneg pre). autorewrite with cnorm in Hlen.
    assert (0 <= zlen rest < 64) by (unfold zlen; lia).
    destruct n; cbn [transform_loop]; autorewrite with cnorm; rewrite u32_small by (unfold u32_ok; lia);
      rewrite (proj2 (Z.ltb_ge _ _)) by lia; rewrite Z.mul_0_r, Z.add_0_r; done.
  - destruct n as [|n]; [lia|]. pose proof (zlen_nonneg pre). pose proof (zlen_nonneg rest).
    set (b := take 64 bs). set (bs' := drop 64 bs).
    assert (Hbs : bs = b ++ bs') by (symmetry; apply take_drop).
    assert (Hlb : zlen b = 64) by (unfold b, zlen; rewrite length_take; lia).
    assert (Hlb' : length bs' = (64 * r)%nat) by (unfold bs'; rewrite length_drop; lia).
    assert (zlen bs' = 64 * Z.of_nat r) by (unfold zlen; lia).
    rewrite Hbs in Hb, Hlen |- *. apply Forall_app in Hb as [Hb1 Hb2]. autorewrite with cnorm in Hlen.
    cbn [transform_loop]. autorewrite with cnorm. rewrite u32_small by (unfold u32_ok; lia).
    rewrite (proj2 (Z.ltb_lt _ _)) by lia. rewrite <- app_assoc, slice_app by done. cbn [obind].
    rewrite transform_ok by done. cbn [obind]. rewrite u32_small by (unfold u32_ok; lia).
    replace (zlen pre + 64) with (zlen (pre ++ b)) by (autorewrite with cnorm; lia).
    rewrite (app_assoc pre b), IH; try done; [|apply compress_ok|autorewrite with cnorm; lia|lia].
    change (S r) with (1 + r)%nat. rewrite absorb_app by (unfold zlen in Hlb; lia).
    rewrite <- (app_nil_r b) at 3. rewrite absorb_one by (unfold zlen in Hlb; lia).
    autorewrite with cnorm. do 2 f_equal. lia.
Qed.

(** ** Contexts *)

(** The context after the bytes [m]. *)
Record absorbed (ctx : MD5_CTX) (m : list Z) : Prop := {
  ab_state : exists q M tail, m = M ++ tail /\ length M = (64 * q)%nat /\ (length tail < 64)%nat /\
    state ctx = tuple_list (Rfc1321.absorb q Rfc1321.init M) /\ take (length tail) (buffer ctx) = tail;
  ab_bytes : Forall byte_ok m;
  ab_buffer : zlen (buffer ctx) = 64;
  ab_count0 : count0 ctx = u32 (8 * zlen m);
  ab_count1 : count1 ctx = u32 (8 * zlen m / 2 ^ 32)
}.

Lemma index_mod n : Z.land (Z.shiftr (u32 (8 * n)) 3) 0x3F = n mod 64.
Proof.
  change 0x3F with (Z.ones 6). rewrite Z.land_ones, Z.shiftr_div_pow2 by lia. unfold u32, wrap.
  change (2 ^ 32) with (8 * 2 ^ 29). change (2 ^ 3) with 8. rewrite Z.mul_mod_distr_l by lia.
  rewrite Z.mul_comm, Z.div_mul by lia. change (2 ^ 6) with 64. apply Z.mod_mod_divide.
  by exists (2 ^ 23).
Qed.

(** The 64-bit count in two words. *)
Lemma count_add L n :
  0 <= L -> 0 <= n < 2 ^ 32 ->
  let bits := u32 (Z.shiftl n 3) in
  let c0 := u32 (u32 (8 * L) + bits) in
  let c1 := if c0 <? bits then u32 (u32 (8 * L / 2 ^ 32) + 1) else u32 (8 * L / 2 ^ 32) in
  c0 = u32 (8 * (L + n)) /\ u32 (c1 + Z.shiftr n 29) = u32 (8 * (L + n) / 2 ^ 32).
Proof.
  intros HL Hn bits c0 c1. unfold c1, c0, bits, u32, wrap in *. clear c0 c1 bits.
  rewrite Z.shiftl_mul_pow2, Z.shiftr_div_pow2 by lia. change (2 ^ 3) with 8. change (2 ^ 29) with 536870912.
  change (2 ^ 32) with 4294967296 in *.
  assert (E : (8 * L mod 4294967296 + n * 8 mod 4294967296) mod 4294967296 = (8 * (L + n)) mod 4294967296).
  { rewrite <- Zplus_mod. f_equal. lia. }
  split; [exact E|].
  assert (Hq : n / 536870912 = 8 * n / 4294967296) by (rewrite <- (Z.div_mul_cancel_l n 536870912 8) by lia; done).
  rewrite Hq, E. replace (n * 8) with (8 * n) by lia.
  assert (Hs : 8 * (L + n) / 4294967296 = 8 * L / 4294967296 + 8 * n / 4294967296 +
    (if (8 * (L + n)) mod 4294967296 <? 8 * n mod 4294967296 then 1 else 0)).
  { rewrite Z.mul_add_distr_l. generalize (8 * L), (8 * n). intros a b. clear.
    destruct (Z.ltb_spec ((a + b) mod 4294967296) (b mod 4294967296)); Z.to_euclidean_division_equations; lia. }
  rewrite Hs. destruct (_ <? _).
  - rewrite Zplus_mod_idemp_l. rewrite <- Z.add_assoc, Zplus_mod_idemp_l. f_equal. lia.
  - rewrite Zplus_mod_idemp_l. f_equal. lia.
Qed.

Lemma take_prefix (a b : list Z) n : length a = n -> take n (a ++ b) = a.
Proof. intros <-. by rewrite take_app_length. Qed.

Lemma slice_app_r (a b : list Z) off n : zlen a = off -> zlen b = n -> slice (a ++ b) off n = Done b.
Proof. intros Ha Hb. rewrite <- (app_nil_r b) at 1. by apply slice_app. Qed.

Lemma update_ok ctx m input :
  absorbed ctx m -> Forall byte_ok input -> zlen input + 64 < 2 ^ 32 ->
  exists ctx', DMMD5Update ctx input = Done ctx' /\ absorbed ctx' (m ++ input).
Proof.
  intros [(q & M & tail & -> & HM & Ht & Hst & Hbuf) Hby Hbl Hc0 Hc1] Hin Hlen.
  pose proof (zlen_nonneg input) as Hni. unfold DMMD5Update. rewrite Hc0, Hc1, index_mod.
  destruct (count_add (zlen (M ++ tail)) (zlen input)) as [E0 E1]; [apply zlen_nonneg|lia|].
  cbv zeta in E0, E1. rewrite E0 in E1 |- *. rewrite E1.
  assert (Hk : zlen (M ++ tail) mod 64 = zlen tail).
  { symmetry. apply (Z.mod_unique _ _ (Z.of_nat q)); autorewrite with cnorm; unfold zlen; lia. }
  rewrite Hk. destruct (Z.leb_spec (64 - zlen tail) (zlen input)) as [Hge|Hlt].
  - set (h := take (Z.to_nat (64 - zlen tail)) input). set (more := drop (Z.to_nat (64 - zlen tail)) input).
    assert (Hsp : input = h ++ more) by (symmetry; apply take_drop).
    assert (Hh : zlen h = 64 - zlen tail) by (apply zlen_take; unfold zlen in *; lia).
    destruct (split_blocks more) as (bs & rest & Hmore & Hbs & Hrest).
    set (r := (length more / 64)%nat) in *. rewrite Hsp, Hmore in Hin |- *.
    rewrite !Forall_app in Hin. destruct Hin as (Hi1 & Hi2 & Hi3). apply Forall_app in Hby as [Hb1 Hb2].
    rewrite slice_app_l by done. cbn [obind].
    assert (Hb : buffer ctx = tail ++ drop (length tail) (buffer ctx)) by (rewrite <- Hbuf at 1; by rewrite take_drop).
    rewrite Hb, <- (app_nil_r (drop _ _)), (splice_app tail _ [] h) by
      (try done; unfold zlen in *; rewrite length_drop; lia). rewrite app_nil_r. cbn [obind].
    assert (Hwt : zlen (tail ++ h) = 64) by (autorewrite with cnorm; lia).
    rewrite Hst, transform_ok; [|apply absorb_ok; vm_compute; done|by apply Forall_app|done]. cbn [obind].
    rewrite <- Hh, (transform_loop_ok r); try done;
      [|apply compress_ok| |unfold r; apply le_S, Nat.Div0.div_le_mono; rewrite <- Hmore, length_app; lia].
    2:{ rewrite Hsp, Hmore in Hlen. done. }
    assert (Hzb : zlen bs = 64 * Z.of_nat r) by (unfold zlen; lia).
    cbn [obind]. rewrite (app_assoc h), slice_app_r by (autorewrite with cnorm; lia).
    cbn [obind]. rewrite splice_in by (unfold zlen in *; lia). cbn [obind].
    eexists. split; [reflexivity|]. constructor; cbn [state buffer count0 count1].
    + exists (q + (1 + r))%nat, (M ++ (tail ++ h) ++ bs), rest. split_and!; [by rewrite <- !app_assoc| | | |].
      * rewrite !length_app. unfold zlen in *. lia.
      * lia.
      * rewrite absorb_app by done. rewrite absorb_app by (unfold zlen in *; lia).
        rewrite <- (app_nil_r (tail ++ h)) at 2. by rewrite absorb_one by (unfold zlen in *; lia).
      * change (Z.to_nat 0) with 0%nat. rewrite take_0. cbn [app]. by apply take_prefix.
    + by rewrite !Forall_app.
    + change (Z.to_nat 0) with 0%nat. rewrite take_0. cbn [app Nat.add]. unfold zlen in *. rewrite length_app, length_drop. lia.
    + by autorewrite with cnorm.
    + by autorewrite with cnorm.
  - rewrite (slice_app_r [] input) by done. cbn [obind].
    pose proof (zlen_nonneg tail).
    assert (Hb : buffer ctx = tail ++ take (length input) (drop (length tail) (buffer ctx)) ++
      drop (length input) (drop (length tail) (buffer ctx))) by (rewrite take_drop, <- Hbuf at 1; by rewrite take_drop).
    rewrite Hb, (splice_app tail) by (try done; unfold zlen in *; rewrite length_take, length_drop; lia).
    cbn [obind]. eexists. split; [reflexivity|]. constructor; cbn [state buffer count0 count1].
    + exists q, M, (tail ++ input). split_and!; [by rewrite <- app_assoc|done| |done|].
      * rewrite length_app. unfold zlen in *. lia.
      * rewrite app_assoc. by apply take_prefix.
    + by apply Forall_app.
    + autorewrite with cnorm. unfold zlen in *. rewrite !length_drop. lia.
    + by autorewrite with cnorm.
    + by autorewrite with cnorm.
Qed.

(** ** Padding *)

Lemma le_bytes_split x : le_bytes 8 x = le_bytes 4 (u32 x) ++ le_bytes 4 (u32 (x / 2 ^ 32)).
Proof.
  unfold u32, wrap. cbn [le_bytes app]. change (2 ^ 32) with 4294967296.
  assert (E : forall y, (y mod 4294967296) mod 256 = y mod 256 /\
    (y mod 4294967296) / 256 mod 256 = y / 256 mod 256 /\
    (y mod 4294967296) / 256 / 256 mod 256 = y / 256 / 256 mod 256 /\
    (y mod 4294967296) / 256 / 256 / 256 mod 256 = y / 256 / 256 / 256 mod 256).
  { intros y. Z.to_euclidean_division_equations; lia. }
  destruct (E x) as (-> & -> & -> & ->). destruct (E (x / 4294967296)) as (-> & -> & -> & ->).
  rewrite !Z.div_div by lia. reflexivity.
Qed.

Lemma pad_length m : exists q, length (Rfc1321.pad m) = (64 * q)%nat.
Proof.
  assert (E : zlen (Rfc1321.pad m) mod 64 = 0).
  { unfold Rfc1321.pad. autorewrite with cnorm. pose proof (Z.mod_pos_bound (55 - zlen m) 64 ltac:(lia)).
    rewrite Z2Nat.id by lia. Z.to_euclidean_division_equations; lia. }
  apply Z.mod_divide in E as [q Hq]; [|lia]. exists (Z.to_nat q). unfold zlen in Hq. lia.
Qed.

Lemma padding_prefix n :
  (n < 64)%nat -> slice PADDING 0 (1 + Z.of_nat n) = Done (0x80 :: replicate n 0).
Proof.
  intros Hn. unfold PADDING. replace 63%nat with (n + (63 - n))%nat by lia. rewrite replicate_add.
  change (0x80 :: replicate n 0 ++ replicate (63 - n) 0) with ((0x80 :: replicate n 0) ++ replicate (63 - n) 0).
  apply slice_app_l. autorewrite with cnorm. lia.
Qed.

Lemma bytes_count (m : list Z) : Forall byte_ok (le_bytes 8 (8 * zlen m)).
Proof. auto with cbounds. Qed.

Lemma absorbed_whole ctx m q :
  absorbed ctx m -> length m = (64 * q)%nat -> state ctx = tuple_list (Rfc1321.absorb q Rfc1321.init m).
Proof.
  intros [(q' & M & tail & -> & HM & Ht & Hst & _) _ _ _ _] Hl. rewrite length_app in Hl.
  assert (length tail = 0%nat) as Ht0 by lia. apply nil_length_inv in Ht0 as ->.
  rewrite app_nil_r. assert (q = q') as -> by (cbn in Hl; lia). done.
Qed.

Lemma digest_ok s :
  words_ok s ->
  DM_Encode (replicate 16 0) (tuple_list s) 16 =
    Done (let '(a, b, c, d) := s in le_bytes 4 a ++ le_bytes 4 b ++ le_bytes 4 c ++ le_bytes 4 d).
Proof.
  destruct s as [[[a b] c] d]. intros _. pose proof (encode_ok [a; b; c; d] (replicate 16 0)) as He.
  change (zlen (replicate 16 0)) with 16 in He. unfold tuple_list. rewrite He; [|cbn; lia|reflexivity|lia].
  cbn [map concat]. by rewrite app_nil_r.
Qed.

Lemma final_ok ctx m : absorbed ctx m -> DMMD5Final ctx = Done (Rfc1321.md5 m, wiped).
Proof.
  intros Hab. pose proof Hab as [_ Hby _ Hc0 Hc1]. unfold DMMD5Final. rewrite Hc0, Hc1, index_mod.
  pose proof (encode_ok [u32 (8 * zlen m); u32 (8 * zlen m / 2 ^ 32)] (replicate 8 0)) as He.
  change (zlen (replicate 8 0)) with 8 in He. rewrite He; [|cbn; lia|reflexivity|lia]. clear He.
  cbn [map concat obind]. rewrite app_nil_r, <- le_bytes_split.
  pose proof (Z.mod_pos_bound (zlen m) 64 ltac:(lia)) as Hm.
  pose proof (Z.mod_pos_bound (55 - zlen m) 64 ltac:(lia)) as Hm'.
  assert (Hp : (if zlen m mod 64 <? 56 then 56 - zlen m mod 64 else 120 - zlen m mod 64) =
    1 + Z.of_nat (Z.to_nat ((55 - zlen m) mod 64))).
  { rewrite Z2Nat.id by lia.
    destruct (Z.ltb_spec (zlen m mod 64) 56); Z.to_euclidean_division_equations; lia. }
  rewrite Hp, padding_prefix by lia. cbn [obind].
  destruct (update_ok ctx m (0x80 :: replicate (Z.to_nat ((55 - zlen m) mod 64)) 0)) as (c1 & -> & H1); [done| | |].
  { constructor; [unfold byte_ok; lia|]. apply Forall_replicate. unfold byte_ok. lia. }
  { autorewrite with cnorm. lia. }
  cbn [obind]. destruct (update_ok c1 _ (le_bytes 8 (8 * zlen m)) H1) as (c2 & -> & H2).
  { apply bytes_count. } { rewrite zlen_le_bytes. lia. }
  cbn [obind]. rewrite <- app_assoc in H2. change (_ ++ _ ++ _) with (Rfc1321.pad m) in H2.
  destruct (pad_length m) as [q Hq]. rewrite (absorbed_whole _ _ _ H2 Hq).
  rewrite digest_ok by (apply absorb_ok; vm_compute; done). cbn [obind]. unfold Rfc1321.md5.
  rewrite Hq, (Nat.mul_comm 64), Nat.div_mul by done. by destruct (Rfc1321.absorb _ _ _) as [[[a b] c] d].
Qed.

Lemma init_ok ctx : zlen (buffer ctx) = 64 -> absorbed (DMMD5Init ctx) [].
Proof.
  intros Hb. constructor; try done. exists 0%nat, [], []. split_and!; try done; cbn; lia.
Qed.

Lemma zlen_md5 m : zlen (Rfc1321.md5 m) = 16.
Proof. unfold Rfc1321.md5. destruct (Rfc1321.absorb _ _ _) as [[[a b] c] d]. by autorewrite with cnorm. Qed.

(** Updates in sequence. *)
Fixpoint updates (ctx : MD5_CTX) (pieces : list (list Z)) : outcome MD5_CTX :=
  match pieces with
  | [] => Done ctx
  | p :: pieces' => let* ctx := DMMD5Update ctx p in updates ctx pieces'
  end.

Lemma updates_ok pieces : forall ctx m,
  absorbed ctx m -> Forall (fun p => Forall byte_ok p /\ zlen p + 64 < 2 ^ 32) pieces ->
  exists ctx', updates ctx pieces = Done ctx' /\ absorbed ctx' (m ++ concat pieces).
Proof.
  induction pieces as [|p pieces IH]; intros ctx m Hab Hp; cbn [updates concat].
  { exists ctx. by rewrite app_nil_r. }
  apply Forall_cons in Hp as [[Hb Hl] Hp]. destruct (update_ok ctx m p Hab Hb Hl) as (c1 & -> & H1).
  cbn [obind]. rewrite app_assoc. by apply IH.
Qed.

Lemma strlen_prefix_ok t rest :
  Forall (fun b => byte_ok b /\ b <> 0) t -> strlen_prefix (t ++ 0 :: rest) = Done t.
Proof.
  induction 1 as [|b t [_ Hb] _ IH]; [done|]. cbn [strlen_prefix app]. rewrite (proj2 (Z.eqb_neq _ _)) by lia.
  by rewrite IH.
Qed.

(** ** Claims *)

(** The block function of the code, 64 unrolled lines with rewritten
    auxiliary functions and rotations by shifts, is the compression function of
    RFC 1321, 64 steps driven by a table. *)
Theorem transform_is_rfc1321 (s : Z * Z * Z * Z) (block : list Z) :
  words_ok s -> Forall byte_ok block -> zlen block = 64 ->
  DM_MD5Transform (tuple_list s) block = Done (tuple_list (Rfc1321.compress s block)).
Proof. apply transform_ok. Qed.

(** C4. However the message is cut into pieces, initialising, absorbing the pieces
    one by one and finishing gives the digest of RFC 1321 of the whole message,
    wipes the context and never reads or writes outside the buffers. *)
Theorem md5_streaming (ctx : MD5_CTX) (pieces : list (list Z)) :
  zlen (buffer ctx) = 64 -> Forall (fun p => Forall byte_ok p /\ zlen p + 64 < 2 ^ 32) pieces ->
  (let* ctx := updates (DMMD5Init ctx) pieces in DMMD5Final ctx) =
    Done (Rfc1321.md5 (concat pieces), wiped).
Proof.
  intros Hb Hp. destruct (updates_ok pieces _ _ (init_ok ctx Hb) Hp) as (c' & -> & Hab).
  cbn [obind]. by apply final_ok.
Qed.

(** The credential computation replaces the string in the buffer by its MD5
    digest and a NUL and leaves the other bytes, when the buffer has 17 bytes;
    in a shorter buffer it writes outside. *)
Theorem md5_cred_replaces (stack t rest : list Z) :
  zlen stack = 64 -> Forall (fun b => byte_ok b /\ b <> 0) t -> zlen t + 64 < 2 ^ 32 ->
  mmidm_calc_md5_cred stack (t ++ 0 :: rest) =
    if 17 <=? zlen (t ++ 0 :: rest)
    then Done (Rfc1321.md5 t ++ 0 :: drop 17 (t ++ 0 :: rest)) else Undef.
Proof.
  intros Hs Ht Hl. unfold mmidm_calc_md5_cred. rewrite strlen_prefix_ok by done. cbn [obind].
  destruct (update_ok _ [] t (init_ok {| state := []; count0 := 0; count1 := 0; buffer := stack |} Hs)) as (c & -> & Hab).
  { eapply Forall_impl; [exact Ht|]. by intros b [? _]. } { done. }
  cbn [obind]. rewrite (final_ok _ _ Hab). cbn [obind app]. set (buf := t ++ 0 :: rest).
  pose proof (zlen_md5 t) as Hm. destruct (Z.leb_spec 17 (zlen buf)) as [Hge|Hlt].
  - rewrite splice_in by lia. change (Z.to_nat 0) with 0%nat. rewrite take_0. cbn [obind app Nat.add].
    assert (Hm' : length (Rfc1321.md5 t) = 16%nat) by (unfold zlen in Hm; lia). rewrite Hm'.
    destruct (drop 16 buf) as [|x r] eqn:E.
    { apply (f_equal length) in E. rewrite length_drop in E. unfold zlen in Hge. cbn in E. lia. }
    rewrite wr_app by done. do 3 f_equal. change 17%nat with (16 + 1)%nat.
    rewrite <- drop_drop, E. cbn. by rewrite drop_0.
  - destruct (decide (zlen buf = 16)) as [E16|N16].
    + rewrite splice_in by lia. cbn [obind]. apply wr_oob. right.
      change (Z.to_nat 0) with 0%nat. rewrite take_0. cbn [app Nat.add]. autorewrite with cnorm.
      rewrite Hm. unfold zlen in *. rewrite length_drop. lia.
    + by rewrite splice_oob by lia.
Qed.

(** ** Witnesses *)

Lemma transform_is_rfc1321_witness :
  DM_MD5Transform (tuple_list Rfc1321.init) (replicate 64 1) =
    Done (tuple_list (Rfc1321.compress Rfc1321.init (replicate 64 1))).
Proof.
  apply (transform_is_rfc1321 Rfc1321.init (replicate 64 1)).
  - vm_compute. repeat split; discriminate.
  - repeat constructor; discriminate.
  - reflexivity.
Defined.

Lemma md5_streaming_witness :
  (let* ctx := updates (DMMD5Init {| state := []; count0 := 5; count1 := 6; buffer := replicate 64 9 |})
                 [bytes_of "ab"; bytes_of "c"] in DMMD5Final ctx) =
    Done (Rfc1321.md5 (concat [bytes_of "ab"; bytes_of "c"]), wiped).
Proof.
  apply (md5_streaming {| state := []; count0 := 5; count1 := 6; buffer := replicate 64 9 |} [bytes_of "ab"; bytes_of "c"]).
  - reflexivity.
  - repeat constructor; discriminate.
Defined.

Lemma md5_cred_replaces_witness :
  mmidm_calc_md5_cred (replicate 64 7) (bytes_of "abc" ++ 0 :: replicate 19 5) =
    if 17 <=? zlen (bytes_of "abc" ++ 0 :: replicate 19 5)
    then Done (Rfc1321.md5 (bytes_of "abc") ++ 0 :: drop 17 (bytes_of "abc" ++ 0 :: replicate 19 5)) else Undef.
Proof.
  apply (md5_cred_replaces (replicate 64 7) (bytes_of "abc") (replicate 19 5)).
  - reflexivity.
  - repeat constructor; discriminate.
  - reflexivity.
Defined.
