(* ===== verification/DmBase64.v ===== *)
(** * libs/libdm/src/sprd_dm_md5_b64.c: base64

    The encoder of the basic credentials, which works block by block with two
    saved bytes between the calls and a line break every 45 bytes, and the
    decoder of the nonces, which collects 123 bytes in a local buffer before it
    copies them out.  [char] is unsigned on the target; [unsigned long] has 32
    bits. *)

From S2P Require Import Prelude CString.

(** ** Encoding *)

Definition MAX_COLUMNS : Z := 45.

(** The static table [t], the padding character last. *)
Definition b64_chars : list Z :=
  bytes_of "ABCDEFGHIJKLMNOPQRSTUVWXYZabcdefghijklmnopqrstuvwxyz0123456789+/=".

(** The variables of [mmidm_base64Encode]: the target with the offset of
    [pbTarget] and the room left, the data with the offset of [pbSourceData] and
    the bytes left, the count [*pcbOffset], the saved bytes with [iSave], and the
    bytes written. *)
Record encoder := {
  target : list Z;
  pbTarget : Z;
  cbTargetSize : Z;
  pbData : list Z;
  pbSourceData : Z;
  cbDataProcessed : Z;
  pcbOffset : Z;
  pbSaveBytes : option (list Z);
  iSave : Z;
  cbCopySize : Z
}.

Definition set_target (e : encoder) (t : list Z) (n : Z) : encoder :=
  {| target := t; pbTarget := pbTarget e + n; cbTargetSize := u32 (cbTargetSize e - n); pbData := pbData e;
     pbSourceData := pbSourceData e; cbDataProcessed := cbDataProcessed e; pcbOffset := pcbOffset e;
     pbSaveBytes := pbSaveBytes e; iSave := iSave e; cbCopySize := u32 (cbCopySize e + n) |}.

Definition set_source (e : encoder) (pos left : Z) : encoder :=
  {| target := target e; pbTarget := pbTarget e; cbTargetSize := cbTargetSize e; pbData := pbData e;
     pbSourceData := pos; cbDataProcessed := left; pcbOffset := pcbOffset e;
     pbSaveBytes := pbSaveBytes e; iSave := iSave e; cbCopySize := cbCopySize e |}.

Definition set_save (e : encoder) (s : option (list Z)) (i : Z) : encoder :=
  {| target := target e; pbTarget := pbTarget e; cbTargetSize := cbTargetSize e; pbData := pbData e;
     pbSourceData := pbSourceData e; cbDataProcessed := cbDataProcessed e; pcbOffset := pcbOffset e;
     pbSaveBytes := s; iSave := i; cbCopySize := cbCopySize e |}.

Definition count_byte (e : encoder) : encoder :=
  {| target := target e; pbTarget := pbTarget e; cbTargetSize := cbTargetSize e; pbData := pbData e;
     pbSourceData := pbSourceData e; cbDataProcessed := cbDataProcessed e; pcbOffset := u32 (pcbOffset e + 1);
     pbSaveBytes := pbSaveBytes e; iSave := iSave e; cbCopySize := cbCopySize e |}.

(** [n] bytes stored at [pbTarget]. *)
Definition put (e : encoder) (bs : list Z) : outcome encoder :=
  let* t := splice (target e) (pbTarget e) bs in Done (set_target e t (zlen bs)).

Definition put_quad (e : encoder) (i0 i1 i2 i3 : Z) : outcome encoder :=
  let* c0 := rd b64_chars i0 in
  let* c1 := rd b64_chars i1 in
  let* c2 := rd b64_chars i2 in
  let* c3 := rd b64_chars i3 in
  put e [c0; c1; c2; c3].

(** Time for a line break. *)
Definition line_full (e : encoder) : bool := (0 <? pcbOffset e) && (pcbOffset e mod MAX_COLUMNS =? 0).

(** A saved byte: [pbSaveBytes [iSave]; iSave ++; pbSaveBytes [0] --]. *)
Definition take_saved (e : encoder) (s : list Z) : outcome (Z * encoder) :=
  let* byt := rd s (iSave e) in
  let* n := rd s 0 in
  let* s := wr s 0 (u8 (n - 1)) in
  Done (byt, set_save e (Some s) (iSave e + 1)).

Definition has_saved (e : encoder) : outcome bool :=
  match pbSaveBytes e with
  | None => Done false
  | Some s => let* n := rd s 0 in Done (negb (n =? 0))
  end.

(** The next byte, saved or of the data. *)
Definition next_byte (e : encoder) : outcome (Z * encoder) :=
  let* saved := has_saved e in
  match pbSaveBytes e, saved with
  | Some s, true => take_saved e s
  | _, _ =>
      let* byt := rd (pbData e) (pbSourceData e) in
      Done (byt, set_source e (pbSourceData e + 1) (u32 (cbDataProcessed e - 1)))
  end.

(** One to three bytes and their four characters. *)
Definition encode_group (e : encoder) : outcome encoder :=
  let* (byt, e) := next_byte e in
  let i0 := Z.shiftr byt 2 in
  let i1 := Z.shiftl (Z.land byt 0x0003) 4 in
  let e := count_byte e in
  if 0 <? cbDataProcessed e then
    let* (byt, e) := next_byte e in
    let i1 := i1 + Z.shiftr byt 4 in
    let i2 := Z.shiftl (Z.land byt 0x000F) 2 in
    let e := count_byte e in
    if 0 <? cbDataProcessed e then
      let* (byt, e) := next_byte e in
      let i2 := i2 + Z.shiftr (Z.land byt 0x00C0) 6 in
      let i3 := Z.land byt 0x003F in
      put_quad (count_byte e) i0 i1 i2 i3
    else put_quad e i0 i1 i2 64
  else put_quad e i0 i1 64 64.

(** The [while] loop; every round but the last uses four bytes of the room. *)
Fixpoint encode_loop (fuel : nat) (bLast : Z) (e : encoder) : outcome encoder :=
  if (4 <=? cbTargetSize e) &&
     (((3 <=? cbDataProcessed e) && (bLast =? 0)) || ((0 <? cbDataProcessed e) && (bLast =? 1))) then
    match fuel with
    | O => Fuel
    | S fuel =>
        if line_full e && (cbTargetSize e <? 6) then Done e
        else
          let* e := if line_full e then put e [13; 10] else Done e in
          let* e := encode_group e in
          encode_loop fuel bLast e
    end
  else Done e.

(** The branch without data: what is saved is taken for two bytes. *)
Definition encode_saved (bLast : Z) (e : encoder) : outcome encoder :=
  let* saved := has_saved e in
  if negb (bLast =? 0) && saved then
    match pbSaveBytes e with
    | None => Done e
    | Some s =>
        let* e := if line_full e then put e [13; 10] else Done e in
        let* (byt, e) := take_saved e s in
        let i0 := Z.shiftr byt 2 in
        let i1 := Z.shiftl (Z.land byt 0x0003) 4 in
        let e := count_byte e in
        match pbSaveBytes e with
        | None => Done e
        | Some s =>
            let* (byt, e) := take_saved e s in
            put_quad e i0 (i1 + Z.shiftr byt 4) (Z.shiftl (Z.land byt 0x000F) 2) 0
        end
    end
  else Done e.

(** The bytes kept for the next call. *)
Definition save_rest (bLast : Z) (e : encoder) : outcome encoder :=
  match pbSaveBytes e with
  | Some s =>
      if (bLast =? 0) && (cbDataProcessed e <=? 2) then
        let* s := wr s 0 (u8 (cbDataProcessed e)) in
        let* rest := slice (pbData e) (pbSourceData e) (cbDataProcessed e) in
        let* s := splice s 1 rest in
        Done (set_source (set_save e (Some s) (iSave e)) (pbSourceData e + cbDataProcessed e) 0)
      else Done e
  | None => Done e
  end.

(** [xppMemmove (pbData, pbSourceData, cbDataProcessed)]. *)
Definition shift_rest (e : encoder) : outcome encoder :=
  if 0 <? cbDataProcessed e then
    let* rest := slice (pbData e) (pbSourceData e) (cbDataProcessed e) in
    let* d := splice (pbData e) 0 rest in
    Done {| target := target e; pbTarget := pbTarget e; cbTargetSize := cbTargetSize e; pbData := d;
            pbSourceData := pbSourceData e; cbDataProcessed := cbDataProcessed e; pcbOffset := pcbOffset e;
            pbSaveBytes := pbSaveBytes e; iSave := iSave e; cbCopySize := cbCopySize e |}
  else Done e.

(** [data] is [None] for a null pointer.  The result is the final state: the
    target, the data, [*pcbDataLength], [*pcbOffset], the saved bytes and the
    number of bytes written. *)
Definition mmidm_base64Encode (tgt : list Z) (tsize : Z) (data : option (list Z)) (len off bLast : Z)
    (save : option (list Z)) : outcome encoder :=
  let e := {| target := tgt; pbTarget := 0; cbTargetSize := tsize; pbData := default [] data; pbSourceData := 0;
              cbDataProcessed := len; pcbOffset := off; pbSaveBytes := save; iSave := 1; cbCopySize := 0 |} in
  match data with
  | None => let* e := encode_saved bLast e in save_rest bLast e
  | Some _ =>
      let* e := encode_loop (S (Z.to_nat tsize)) bLast e in
      let* e := save_rest bLast e in
      shift_rest e
  end.

(** [creddata] is the buffer of the caller with the string in front; [heap] is
    what the allocated block holds, [None] when there is no memory. *)
Definition mmidm_calc_b64_cred (heap : Z -> option (list Z)) (creddata : list Z) (cbLength : Z) : outcome (list Z) :=
  if cbLength =? 0 then wr creddata 0 0
  else
    match heap (u32 (cbLength * 2 + 4)) with
    | None => Done creddata
    | Some outputdata =>
        let* e := mmidm_base64Encode outputdata 80 (Some creddata) cbLength 0 1 (Some [0; 0; 0; 0]) in
        let cbCopied := cbCopySize e in
        let* outputdata := wr (target e) cbCopied 0 in
        let* coded := slice outputdata 0 cbCopied in
        let* creddata := splice (pbData e) 0 coded in
        wr creddata cbCopied 0
    end.

(** ** Decoding *)

Definition BASE64_BUF_LEN : Z := 128.
Definition BJNK : Z := 0x7f.
Definition BPAD : Z := 0x40.

Definition decode_table : list Z := [
   127; 127; 127; 127; 127; 127; 127; 127; 127; 127; 127; 127; 127; 127; 127; 127;
   127; 127; 127; 127; 127; 127; 127; 127; 127; 127; 127; 127; 127; 127; 127; 127;
   127; 127; 127; 127; 127; 127; 127; 127; 127; 127; 127; 62; 127; 127; 127; 63;
   52; 53; 54; 55; 56; 57; 58; 59; 60; 61; 127; 127; 127; 64; 127; 127;
   127; 0; 1; 2; 3; 4; 5; 6; 7; 8; 9; 10; 11; 12; 13; 14;
   15; 16; 17; 18; 19; 20; 21; 22; 23; 24; 25; 127; 127; 127; 127; 127;
   127; 26; 27; 28; 29; 30; 31; 32; 33; 34; 35; 36; 37; 38; 39; 40;
   41; 42; 43; 44; 45; 46; 47; 48; 49; 50; 51; 127; 127; 127; 127; 127;
   127; 127; 127; 127; 127; 127; 127; 127; 127; 127; 127; 127; 127; 127; 127; 127;
   127; 127; 127; 127; 127; 127; 127; 127; 127; 127; 127; 127; 127; 127; 127; 127;
   127; 127; 127; 127; 127; 127; 127; 127; 127; 127; 127; 127; 127; 127; 127; 127;
   127; 127; 127; 127; 127; 127; 127; 127; 127; 127; 127; 127; 127; 127; 127; 127;
   127; 127; 127; 127; 127; 127; 127; 127; 127; 127; 127; 127; 127; 127; 127; 127;
   127; 127; 127; 127; 127; 127; 127; 127; 127; 127; 127; 127; 127; 127; 127; 127;
   127; 127; 127; 127; 127; 127; 127; 127; 127; 127; 127; 127; 127; 127; 127; 127;
   127; 127; 127; 127; 127; 127; 127; 127; 127; 127; 127; 127; 127; 127; 127; 127].

(** The variables of [DM_Base64_decode]: the local buffer with the offset of
    [temp_dst], the place [e] in the quantum, the bytes copied out, the
    characters since, and the destination with the room left. *)
Record decoder := {
  dst : list Z;
  temp_dst : Z;
  quantum : Z;
  rt : Z;
  cntr : Z;
  dest : list Z;
  destl : Z
}.

Definition num : Z := BASE64_BUF_LEN / 3 * 4 - 4.

Definition set_dst (d : decoder) (b : list Z) (t e : Z) : decoder :=
  {| dst := b; temp_dst := t; quantum := e; rt := rt d; cntr := cntr d; dest := dest d; destl := destl d |}.

Definition set_quantum (d : decoder) (e : Z) : decoder := set_dst d (dst d) (temp_dst d) e.

(** The bytes of the buffer copied out: [inr] is the return of -1, with the
    destination as it is. *)
Definition flush (d : decoder) : outcome (decoder + list Z) :=
  if destl d <? temp_dst d then Done (inr (dest d))
  else
    let* out := slice (dst d) 0 (temp_dst d) in
    let* dest := splice (dest d) (rt d) out in
    Done (inl {| dst := replicate (Z.to_nat BASE64_BUF_LEN) 0; temp_dst := 0; quantum := quantum d;
                 rt := u32 (rt d + temp_dst d); cntr := cntr d; dest := dest; destl := destl d - temp_dst d |}).

Definition flush_if (d : decoder) : outcome (decoder + list Z) :=
  if negb (temp_dst d =? 0) then flush d else Done (inl d).

(** [temp_dst[0] |= lo; temp_dst[1] = hi], the pointer moved. *)
Definition join_split (d : decoder) (lo hi e : Z) : outcome (decoder + list Z) :=
  let* x := rd (dst d) (temp_dst d) in
  let* b := wr (dst d) (temp_dst d) (Z.lor x lo) in
  let* b := wr b (temp_dst d + 1) hi in
  Done (inl (set_dst d b (temp_dst d + 1) e)).

(** A valid character of value [c]. *)
Definition decode_valid (d : decoder) (c : Z) : outcome (decoder + list Z) :=
  if quantum d =? 0 then
    let* b := wr (dst d) (temp_dst d) (u8 (Z.shiftl c 2)) in
    Done (inl (set_dst d b (temp_dst d) 1))
  else if quantum d =? 1 then join_split d (Z.shiftr c 4) (u8 (Z.shiftl c 4)) 2
  else if quantum d =? 2 then join_split d (Z.shiftr c 2) (u8 (Z.shiftl c 6)) 3
  else if quantum d =? 3 then
    let* x := rd (dst d) (temp_dst d) in
    let* b := wr (dst d) (temp_dst d) (Z.lor x c) in
    let d := {| dst := b; temp_dst := temp_dst d + 1; quantum := 0; rt := rt d; cntr := u32 (cntr d + 4);
                dest := dest d; destl := destl d |} in
    if cntr d =? num then
      let* r := flush d in
      match r with
      | inl d => Done (inl {| dst := dst d; temp_dst := temp_dst d; quantum := quantum d; rt := rt d; cntr := 0;
                              dest := dest d; destl := destl d |})
      | inr x => Done (inr x)
      end
    else Done (inl d)
  else Done (inl (set_quantum d (u16 (quantum d + 1)))).

(** The loop over what follows the padding: a valid character ends it too. *)
Fixpoint skip_tail (src : list Z) : outcome unit :=
  match src with
  | [] => Done tt
  | ch :: src' =>
      let* c := rd decode_table ch in
      if (c =? BJNK) || (c =? BPAD) then skip_tail src' else Done tt
  end.

Fixpoint decode_loop (src : list Z) (d : decoder) : outcome (decoder + list Z) :=
  match src with
  | [] => Done (inl d)
  | ch :: src' =>
      let* c := rd decode_table ch in
      if c =? BJNK then decode_loop src' d
      else if c =? BPAD then
        let e := quantum d in
        let d := set_quantum d (u16 (e + 1)) in
        if e =? 3 then let* _ := skip_tail src' in flush_if d
        else if e =? 2 then
          match src' with
          | [] => let* r := flush_if d in Done (inr (match r with inl d => dest d | inr x => x end))
          | next :: _ => if next =? 61 then decode_loop src' d else Done (inr (dest d))
          end
        else Done (inr (dest d))
      else
        let* r := decode_valid d c in
        match r with
        | inl d => decode_loop src' d
        | inr x => Done (inr x)
        end
  end.

(** The value returned and the destination. *)
Definition DM_Base64_decode (src : list Z) (dest0 : list Z) (destl0 : Z) : outcome (Z * list Z) :=
  let* r := decode_loop src {| dst := replicate (Z.to_nat BASE64_BUF_LEN) 0; temp_dst := 0; quantum := 0; rt := 0;
                               cntr := 0; dest := dest0; destl := destl0 |} in
  match r with
  | inr x => Done (-1, x)
  | inl d =>
      let* r := flush_if d in
      match r with
      | inr x => Done (-1, x)
      | inl d =>
          if destl d <? 1 then Done (-1, dest d)
          else let* x := wr (dest d) (rt d) 0 in Done (s32 (rt d), x)
      end
  end.

Example encode_hello :
  mmidm_calc_b64_cred (fun n => Some (replicate (Z.to_nat n) 9)) (bytes_of "user:pass" ++ replicate 10 7) 9 =
  Done (bytes_of "dXNlcjpwYXNz" ++ [0] ++ replicate 6 7).
Proof. reflexivity. Qed.

Example decode_hello :
  DM_Base64_decode (bytes_of "dXNlcjpwYXM=") (replicate 10 7) 10 = Done (8, bytes_of "user:pas" ++ [0; 7]).
Proof. reflexivity. Qed.

(** ** Reference encoding *)

Definition chr (i : Z) : Z := nth (Z.to_nat i) b64_chars 0.

(** The four characters of a group of one, two or three bytes. *)
Definition quad_of (l : list Z) : list Z :=
  match l with
  | a :: b :: c :: _ => [chr (a / 4); chr (a mod 4 * 16 + b / 16); chr (b mod 16 * 4 + c / 64); chr (c mod 64)]
  | [a; b] => [chr (a / 4); chr (a mod 4 * 16 + b / 16); chr (b mod 16 * 4); 61]
  | [a] => [chr (a / 4); chr (a mod 4 * 16); 61; 61]
  | [] => []
  end.

(** The line break before the byte number [off]. *)
Definition brk (off : Z) : list Z := if (0 <? off) && (off mod MAX_COLUMNS =? 0) then [13; 10] else [].

Fixpoint b64 (off : Z) (l : list Z) : list Z :=
  match l with
  | [] => []
  | _ :: [] | _ :: _ :: [] => brk off ++ quad_of l
  | _ :: _ :: _ :: r => brk off ++ quad_of l ++ b64 (off + 3) r
  end.

(** What fits in [s] characters, and the bytes left. *)
Fixpoint fit (s off : Z) (l : list Z) : list Z * list Z :=
  let n := zlen (brk off) + 4 in
  match l with
  | [] => ([], [])
  | _ :: [] | _ :: _ :: [] => if s <? n then ([], l) else (brk off ++ quad_of l, [])
  | _ :: _ :: _ :: r =>
      if s <? n then ([], l)
      else let '(o, rest) := fit (s - n) (off + 3) r in (brk off ++ quad_of l ++ o, rest)
  end.

Lemma b64_eq off l : l <> [] -> b64 off l = brk off ++ quad_of l ++ b64 (off + 3) (drop 3 l).
Proof. destruct l as [|a [|b [|c r]]]; intros H; [done| | |reflexivity]; cbn [b64 drop]; by rewrite app_nil_r. Qed.

Lemma fit_eq s off l :
  l <> [] ->
  fit s off l = if s <? zlen (brk off) + 4 then ([], l)
    else let '(o, r) := fit (s - (zlen (brk off) + 4)) (off + 3) (drop 3 l) in (brk off ++ quad_of l ++ o, r).
Proof.
  destruct l as [|a [|b [|c r]]]; intros H; [done| | |reflexivity];
    cbn [fit drop]; (destruct (_ <? _); [done|]); by rewrite app_nil_r.
Qed.

Lemma zlen_quad l : l <> [] -> zlen (quad_of l) = 4.
Proof. by destruct l as [|a [|b [|c r]]]. Qed.

(** ** The loop of the encoder *)

(** [room] characters may be written in all; [pre] has been written, [front]
    encoded, [data] not yet. *)
Record enc_at (room : Z) (e : encoder) (pre free front data extra : list Z) : Prop := {
  ea_target : target e = pre ++ free;
  ea_pos : pbTarget e = zlen pre;
  ea_size : cbTargetSize e = room - zlen pre;
  ea_data : pbData e = front ++ data ++ extra;
  ea_source : pbSourceData e = zlen front;
  ea_left : cbDataProcessed e = zlen data;
  ea_offset : pcbOffset e = zlen front;
  ea_copied : cbCopySize e = zlen pre;
  ea_save : has_saved e = Done false
}.

(** Nothing wraps around. *)
Definition enc_small (room : Z) (front data : list Z) : Prop :=
  0 <= room < 2 ^ 32 /\ zlen front + zlen data < 2 ^ 32.

Lemma put_at room e pre free front data extra x bs :
  enc_at room e pre (x ++ free) front data extra -> 0 <= room < 2 ^ 32 ->
  zlen x = zlen bs -> zlen pre + zlen bs <= room ->
  exists e', put e bs = Done e' /\ enc_at room e' (pre ++ bs) free front data extra /\ pbSaveBytes e' = pbSaveBytes e.
Proof.
  intros [Ht Hp Hs Hd Hso Hl Ho Hc Hsv] Hr Hx Hb. unfold put. rewrite Ht, Hp, splice_app by done.
  cbn [obind]. pose proof (zlen_nonneg pre). pose proof (zlen_nonneg bs).
  eexists. split; [reflexivity|]. split; [|done].
  constructor; cbn; try done; autorewrite with cnorm; [by rewrite <- app_assoc|lia| |].
  - rewrite Hs, u32_small; unfold u32_ok; lia.
  - rewrite Hc, u32_small; unfold u32_ok; lia.
Qed.

Lemma next_at room e pre free front b data extra :
  enc_at room e pre free front (b :: data) extra -> zlen front + zlen (b :: data) < 2 ^ 32 ->
  exists e1, next_byte e = Done (b, e1) /\ enc_at room (count_byte e1) pre free (front ++ [b]) data extra /\
    pbSaveBytes e1 = pbSaveBytes e /\ cbDataProcessed e1 = zlen data.
Proof.
  intros [Ht Hp Hs Hd Hso Hl Ho Hc Hsv] Hb. unfold next_byte. rewrite Hsv. cbn [obind].
  pose proof (zlen_nonneg front). pose proof (zlen_nonneg data). autorewrite with cnorm in Hb.
  assert (E : (let* byt := rd (pbData e) (pbSourceData e) in
    Done (byt, set_source e (pbSourceData e + 1) (u32 (cbDataProcessed e - 1)))) =
    Done (b, set_source e (zlen front + 1) (zlen data))).
  { rewrite Hd, Hso. cbn [app]. rewrite rd_app by done. cbn [obind]. rewrite Hl. autorewrite with cnorm.
    rewrite u32_small by (unfold u32_ok; lia). do 3 f_equal. lia. }
  exists (set_source e (zlen front + 1) (zlen data)).
  split; [destruct (pbSaveBytes e); exact E|]. split; [|done].
  constructor; cbn; try done; autorewrite with cnorm; [rewrite Hd; by rewrite <- app_assoc|lia|].
  rewrite Ho, u32_small; unfold u32_ok; lia.
Qed.

Lemma chars_rd i : 0 <= i < 65 -> rd b64_chars i = Done (chr i).
Proof.
  intros Hi. apply rd_Some; [lia|]. unfold chr.
  assert (H : (Z.to_nat i < length b64_chars)%nat) by (change (length b64_chars) with 65%nat; lia).
  destruct (lookup_lt_is_Some_2 b64_chars _ H) as [x Hx]. rewrite Hx. f_equal. symmetry. by apply nth_lookup_Some.
Qed.

Lemma put_quad_at room e pre free front data extra x i0 i1 i2 i3 :
  enc_at room e pre (x ++ free) front data extra -> 0 <= room < 2 ^ 32 -> zlen x = 4 -> zlen pre + 4 <= room ->
  0 <= i0 < 65 -> 0 <= i1 < 65 -> 0 <= i2 < 65 -> 0 <= i3 < 65 ->
  exists e', put_quad e i0 i1 i2 i3 = Done e' /\
    enc_at room e' (pre ++ [chr i0; chr i1; chr i2; chr i3]) free front data extra /\ pbSaveBytes e' = pbSaveBytes e.
Proof.
  intros He Hr Hx Hp H0 H1 H2 H3. unfold put_quad. rewrite !chars_rd by lia. cbn [obind].
  by apply (put_at room e pre free front data extra x).
Qed.

(** The indices computed by the code. *)
Lemma group_indices a b c :
  byte_ok a -> byte_ok b -> byte_ok c ->
  Z.shiftr a 2 = a / 4 /\ Z.shiftl (Z.land a 3) 4 = a mod 4 * 16 /\ Z.shiftr b 4 = b / 16 /\
  Z.shiftl (Z.land b 15) 2 = b mod 16 * 4 /\ Z.shiftr (Z.land c 192) 6 = c / 64 /\ Z.land c 63 = c mod 64.
Proof.
  unfold byte_ok. intros Ha Hb Hc. rewrite !Z.shiftl_mul_pow2, !Z.shiftr_div_pow2 by lia.
  change 3 with (Z.ones 2). change 15 with (Z.ones 4). change 63 with (Z.ones 6).
  rewrite !Z.land_ones by lia. split_and!; try reflexivity.
  assert (H : forallb (fun n => Z.land (Z.of_nat n) 192 / 2 ^ 6 =? Z.of_nat n / 64) (seq 0 256) = true)
    by (vm_compute; reflexivity).
  rewrite forallb_forall in H. specialize (H (Z.to_nat c)). rewrite Z2Nat.id in H by lia.
  apply Z.eqb_eq, H, in_seq. lia.
Qed.

Lemma group_at room e pre free front data extra x :
  enc_at room e pre (x ++ free) front data extra -> enc_small room front data ->
  data <> [] -> Forall byte_ok data -> zlen x = 4 -> zlen pre + 4 <= room ->
  exists e', encode_group e = Done e' /\
    enc_at room e' (pre ++ quad_of data) free (front ++ take 3 data) (drop 3 data) extra /\
    pbSaveBytes e' = pbSaveBytes e.
Proof.
  intros He [Hr Hs] Hne Hb Hx Hp. unfold encode_group.
  destruct data as [|a data]; [done|]. apply Forall_cons in Hb as [Ba Hb].
  destruct (next_at _ _ _ _ _ _ _ _ He Hs) as (e1 & -> & H1 & S1 & L1). cbn [obind].
  change (cbDataProcessed (count_byte e1)) with (cbDataProcessed e1). rewrite L1.
  destruct (group_indices a 0 0) as (I0 & I1 & _); [done|unfold byte_ok; lia|unfold byte_ok; lia|].
  rewrite I0, I1. unfold byte_ok in Ba.
  assert (Ra : 0 <= a / 4 < 64 /\ 0 <= a mod 4 < 4) by (Z.to_euclidean_division_equations; lia).
  rewrite <- S1. clear He S1 I0 I1. autorewrite with cnorm in Hs.
  destruct data as [|b data]; [|].
  { destruct (put_quad_at _ _ _ _ _ _ _ _ (a / 4) (a mod 4 * 16) 64 64 H1 Hr Hx Hp) as (e' & E & H' & S'); try lia.
    exists e'. done. }
  apply Forall_cons in Hb as [Bb Hb]. autorewrite with cnorm in Hs. pose proof (zlen_nonneg data).
  rewrite (proj2 (Z.ltb_lt _ _)) by (autorewrite with cnorm; lia).
  destruct (next_at _ _ _ _ _ _ _ _ H1) as (e2 & -> & H2 & S2 & L2); [autorewrite with cnorm; lia|]. cbn [obind].
  change (cbDataProcessed (count_byte e2)) with (cbDataProcessed e2). rewrite L2.
  destruct (group_indices a b 0) as (_ & _ & I2 & I3 & _); [done|done|unfold byte_ok; lia|].
  rewrite I2, I3. unfold byte_ok in Bb.
  assert (Rb : 0 <= b / 16 < 16 /\ 0 <= b mod 16 < 16) by (Z.to_euclidean_division_equations; lia).
  change (pbSaveBytes e1) with (pbSaveBytes (count_byte e1)). rewrite <- S2. clear H1 S2 I2 I3.
  rewrite <- app_assoc in H2. destruct data as [|c data].
  { destruct (put_quad_at _ _ _ _ _ _ _ _ (a / 4) (a mod 4 * 16 + b / 16) (b mod 16 * 4) 64 H2 Hr Hx Hp)
      as (e' & E & H' & S'); try lia.
    exists e'. done. }
  apply Forall_cons in Hb as [Bc Hb]. autorewrite with cnorm in Hs. pose proof (zlen_nonneg data).
  rewrite (proj2 (Z.ltb_lt _ _)) by (autorewrite with cnorm; lia).
  destruct (next_at _ _ _ _ _ _ _ _ H2) as (e3 & -> & H3 & S3 & L3); [autorewrite with cnorm; lia|]. cbn [obind].
  destruct (group_indices a b c) as (_ & _ & _ & _ & I4 & I5); [done..|].
  rewrite I4, I5. unfold byte_ok in Bc.
  assert (Rc : 0 <= c / 64 < 4 /\ 0 <= c mod 64 < 64) by (Z.to_euclidean_division_equations; lia).
  change (pbSaveBytes e2) with (pbSaveBytes (count_byte e2)). rewrite <- S3.
  rewrite <- app_assoc in H3.
  destruct (put_quad_at _ _ _ _ _ _ _ _ (a / 4) (a mod 4 * 16 + b / 16) (b mod 16 * 4 + c / 64) (c mod 64) H3 Hr Hx Hp)
    as (e' & E & H' & S'); try lia.
  exists e'. split; [exact E|]. split; [|exact S']. cbn [take drop app] in *. by rewrite !firstn_O || done.
Qed.

Lemma brk_at e (front : list Z) :
  pcbOffset e = zlen front -> brk (zlen front) = if line_full e then [13; 10] else [].
Proof. intros H. unfold brk, line_full. by rewrite H. Qed.

(** The room of a line break and of a group. *)
Lemma free_split (free : list Z) n : (n <= length free)%nat -> exists x, free = x ++ drop n free /\ length x = n.
Proof. intros H. exists (take n free). rewrite take_drop, length_take. split; [done|lia]. Qed.

(** One round of the loop. *)
Lemma round_at room e pre free front data extra :
  enc_at room e pre free front data extra -> enc_small room front data -> data <> [] -> Forall byte_ok data ->
  let b := brk (zlen front) in
  zlen pre + zlen b + 4 <= room -> zlen b + 4 <= zlen free ->
  exists e', (let* e := if line_full e then put e [13; 10] else Done e in encode_group e) = Done e' /\
    enc_at room e' (pre ++ b ++ quad_of data) (drop (length b + 4) free) (front ++ take 3 data) (drop 3 data) extra /\
    pbSaveBytes e' = pbSaveBytes e.
Proof.
  intros He Hs Hne Hb b Hroom Hfree. unfold zlen at 2 in Hroom. unfold zlen at 1 in Hfree.
  destruct (free_split free (length b)) as (x & Hx & Hlx); [unfold zlen in *; lia|].
  destruct (free_split (drop (length b) free) 4) as (y & Hy & Hly); [rewrite length_drop; unfold zlen in *; lia|].
  assert (H1 : exists e1, (if line_full e then put e [13; 10] else Done e) = Done e1 /\
    enc_at room e1 (pre ++ b) (drop (length b) free) front data extra /\ pbSaveBytes e1 = pbSaveBytes e).
  { pose proof He as [_ _ _ _ _ _ Ho _ _]. unfold b in *. rewrite (brk_at e front Ho) in *. destruct (line_full e).
    - rewrite Hx in He. apply (put_at _ _ _ _ _ _ _ _ [13; 10] He); [apply Hs|unfold zlen; by rewrite Hlx|].
      change (zlen [13; 10]) with 2. cbn [length] in Hroom. lia.
    - exists e. cbn [length]. by rewrite app_nil_r, drop_0. }
  destruct H1 as (e1 & -> & He1 & S1). cbn [obind]. rewrite Hy in He1.
  destruct (group_at _ _ _ _ _ _ _ _ He1 Hs Hne Hb) as (e2 & -> & He2 & S2);
    [unfold zlen; lia|autorewrite with cnorm; unfold zlen at 2; lia|].
  exists e2. rewrite <- app_assoc, drop_drop in He2. split; [done|]. split; [done|congruence].
Qed.

(** The loop stops when no group fits or no data is left. *)
Lemma loop_stops fuel room e pre free front data extra :
  enc_at room e pre free front data extra ->
  (data = [] \/ room - zlen pre < zlen (brk (zlen front)) + 4) -> (0 < fuel)%nat -> encode_loop fuel 1 e = Done e.
Proof.
  intros [_ _ Hsz _ _ Hl Ho _ _] Hst Hf. destruct fuel as [|fuel]; [lia|]. cbn [encode_loop]. rewrite Hl, Hsz.
  rewrite (brk_at e front Ho) in Hst. destruct Hst as [->|Hst]; [cbn; by rewrite andb_false_r|].
  destruct (4 <=? room - zlen pre) eqn:E; [cbn [andb]; btrue|done]. destruct (_ || _); [|done].
  destruct (line_full e); cbn [zlen] in Hst; [|change (zlen (@nil Z)) with 0 in Hst; lia].
  change (zlen [13; 10]) with 2 in Hst. by rewrite (proj2 (Z.ltb_lt _ _)) by lia.
Qed.

Lemma fit_stop s off l : s < zlen (brk off) + 4 -> fit s off l = ([], l).
Proof.
  intros H. destruct l as [|a l]; [done|]. rewrite fit_eq by done. by rewrite (proj2 (Z.ltb_lt _ _)) by lia.
Qed.

Lemma encode_loop_at n : forall fuel room e pre free front data extra out rest,
  (length data <= n)%nat -> enc_at room e pre free front data extra -> enc_small room front data ->
  Forall byte_ok data -> zlen pre <= room -> room - zlen pre < Z.of_nat fuel ->
  fit (room - zlen pre) (zlen front) data = (out, rest) -> zlen out <= zlen free ->
  exists e' used, encode_loop fuel 1 e = Done e' /\ data = used ++ rest /\
    enc_at room e' (pre ++ out) (drop (length out) free) (front ++ used) rest extra /\
    pbSaveBytes e' = pbSaveBytes e.
Proof.
  induction n as [|n IH]; intros fuel room e pre free front data extra out rest Hn He Hs Hb Hp Hf Hfit Hroom.
  { destruct data; [|cbn in Hn; lia]. injection Hfit as <- <-. exists e, []. rewrite !app_nil_r, drop_0.
    split; [|done]. eapply loop_stops; [done|by left|lia]. }
  destruct (decide (data = [])) as [->|Hne]; [by apply (IH fuel); cbn; try done; lia|].
  destruct (Z.ltb_spec (room - zlen pre) (zlen (brk (zlen front)) + 4)) as [Hlt|Hge].
  { rewrite fit_stop in Hfit by done. injection Hfit as <- <-. exists e, []. rewrite !app_nil_r, drop_0.
    split; [|done]. eapply loop_stops; [done|by right|lia]. }
  rewrite fit_eq in Hfit by done. rewrite (proj2 (Z.ltb_ge _ _)) in Hfit by lia.
  destruct (fit _ (zlen front + 3) _) as [o r] eqn:Hfo. injection Hfit as <- <-.
  set (b := brk (zlen front)) in *. pose proof (zlen_nonneg o). pose proof (zlen_nonneg b).
  pose proof (zlen_quad data Hne) as Hq. autorewrite with cnorm in Hroom.
  destruct (round_at _ _ _ _ _ _ _ He Hs Hne Hb) as (e1 & E1 & He1 & S1); [fold b; lia|fold b; lia|]. fold b in He1.
  assert (Hstep : encode_loop fuel 1 e = encode_loop (pred fuel) 1 e1).
  { destruct fuel as [|fuel]; [lia|]. cbn [encode_loop pred]. destruct He as [_ _ Hsz _ _ Hl Ho _ _].
    rewrite Hl, Hsz, (proj2 (Z.leb_le _ _)) by lia.
    assert (Hpos : 0 < zlen data) by (destruct data; [done|autorewrite with cnorm; pose proof (zlen_nonneg data); lia]).
    rewrite (proj2 (Z.ltb_lt _ _) Hpos), andb_false_r. cbn [andb orb Z.eqb Pos.eqb].
    rewrite (proj2 (andb_false_iff _ _)).
    2:{ unfold b in *. rewrite (brk_at e front Ho) in *. destruct (line_full e); [right|by left].
        change (zlen [13; 10]) with 2 in *. apply Z.ltb_ge. lia. }
    transitivity (obind (obind (if line_full e then put e [13; 10] else Done e) (fun e => encode_group e))
      (encode_loop fuel 1)); [by rewrite obind_assoc|by rewrite E1]. }
  assert (Htd : data = take 3 data ++ drop 3 data) by (by rewrite take_drop).
  assert (Hfo' : fit (room - zlen (pre ++ b ++ quad_of data)) (zlen (front ++ take 3 data)) (drop 3 data) = (o, r)).
  { destruct (decide (drop 3 data = [])) as [E|E]; [by rewrite E in *|].
    assert (length (drop 3 data) <> 0)%nat by (by rewrite length_zero_iff_nil). rewrite length_drop in *.
    rewrite <- Hfo. f_equal; autorewrite with cnorm; [lia|]. unfold zlen at 2. rewrite length_take. lia. }
  destruct (IH (pred fuel) room e1 (pre ++ b ++ quad_of data) (drop (length b + 4) free) (front ++ take 3 data)
    (drop 3 data) extra o r) as (e' & used & E' & Hu & He' & S'); try done.
  - rewrite length_drop. destruct data; [done|cbn in *; lia].
  - destruct Hs as [Hs1 Hs2]. split; [done|]. rewrite Htd in Hs2. autorewrite with cnorm in *. lia.
  - by apply Forall_drop.
  - autorewrite with cnorm. lia.
  - autorewrite with cnorm. lia.
  - unfold zlen in *. rewrite length_drop. lia.
  - exists e', (take 3 data ++ used). rewrite Hstep. split; [done|]. split; [by rewrite <- app_assoc, <- Hu|].
    split; [|congruence]. rewrite <- !app_assoc in He'. rewrite drop_drop in He'.
    replace (length (b ++ quad_of data ++ o)) with (length b + 4 + length o)%nat; [done|].
    rewrite !length_app. unfold zlen in *. lia.
Qed.

Lemma fit_full n : forall l s off, (length l <= n)%nat -> zlen (b64 off l) <= s -> fit s off l = (b64 off l, []).
Proof.
  induction n as [|n IH]; intros l s off Hn Hs; [by destruct l; [|cbn in Hn; lia]|].
  destruct (decide (l = [])) as [->|Hne]; [done|]. rewrite fit_eq by done. rewrite b64_eq in Hs |- * by done.
  autorewrite with cnorm in Hs. rewrite (zlen_quad l Hne) in Hs. pose proof (zlen_nonneg (b64 (off + 3) (drop 3 l))).
  rewrite (proj2 (Z.ltb_ge _ _)) by lia. rewrite IH; [done| |lia]. rewrite length_drop. destruct l; [done|cbn in *; lia].
Qed.

(** ** Whole messages *)

Definition no_saved : option (list Z) := Some [0; 0; 0; 0].

Lemma encode_once tgt tsize data extra out rest :
  0 <= tsize < 2 ^ 32 -> zlen data < 2 ^ 32 -> Forall byte_ok data ->
  fit tsize 0 data = (out, rest) -> zlen out <= zlen tgt ->
  exists e, mmidm_base64Encode tgt tsize (Some (data ++ extra)) (zlen data) 0 1 no_saved = Done e /\
    target e = out ++ drop (length out) tgt /\ cbCopySize e = zlen out /\ cbDataProcessed e = zlen rest /\
    pbData e = rest ++ drop (length rest) (data ++ extra) /\ pbSaveBytes e = no_saved.
Proof.
  intros Hts Hd Hb Hfit Hroom. unfold mmidm_base64Encode.
  set (e0 := {| target := tgt; pbTarget := 0; cbTargetSize := tsize; pbData := default [] (Some (data ++ extra)); |}).
  assert (H0 : enc_at tsize e0 [] tgt [] data extra) by (constructor; try done; change (zlen (@nil Z)) with 0; cbn; lia).
  destruct (encode_loop_at (length data) (S (Z.to_nat tsize)) tsize e0 [] tgt [] data extra out rest)
    as (e & used & -> & Hu & [Ht Hp Hs Hda Hso Hl Ho Hc Hsv] & S); try done.
  { change (zlen (@nil Z)) with 0. lia. } { change (zlen (@nil Z)) with 0. lia. }
  { change (zlen (@nil Z)) with 0. by rewrite Z.sub_0_r. }
  cbn [obind]. cbn [app] in *. unfold save_rest. rewrite S. cbn [obind Z.eqb andb e0 pbSaveBytes no_saved].
  unfold shift_rest. rewrite Hl. destruct (Z.ltb_spec 0 (zlen rest)) as [Hpos|Hz].
  - rewrite Hda, Hso, slice_app by done. cbn [obind].
    assert (Hpre : exists x y, used ++ rest ++ extra = x ++ y /\ length x = length rest).
    { exists (take (length rest) (used ++ rest ++ extra)), (drop (length rest) (used ++ rest ++ extra)).
      rewrite take_drop, length_take, !length_app. split; [done|lia]. }
    destruct Hpre as (x & y & Exy & Lx). rewrite Exy, (splice_app [] x y rest) by (unfold zlen; by rewrite ?Lx).
    cbn [obind app]. eexists. split; [reflexivity|]. cbn. split_and!; try done.
    rewrite Hu, <- app_assoc, Exy. by rewrite <- Lx, drop_app_length.
  - assert (rest = []) as -> by (destruct rest; [done|autorewrite with cnorm in *; pose proof (zlen_nonneg rest); lia]).
    exists e. split_and!; try done. rewrite Hda, Hu. cbn [app length]. by rewrite drop_0, app_nil_r.
Qed.

(** In the 80 characters of the credentials 57 bytes fit. *)
Lemma fit_80 l :
  fit 80 0 l = (b64 0 (take 57 l), drop 57 l) /\ zlen (b64 0 (take 57 l)) <= 2 * zlen l + 3.
Proof.
  do 58 (destruct l as [|? l]; [split; [reflexivity|vm_compute; discriminate]|]).
  split; [destruct l as [|? [|? l]]; reflexivity|]. transitivity 78; [vm_compute; discriminate|].
  autorewrite with cnorm. pose proof (zlen_nonneg l). lia.
Qed.

(** ** The decoder on encoded text *)

Lemma chr_table :
  forallb (fun n => match rd decode_table (chr (Z.of_nat n)) with Done c => c =? Z.of_nat n | _ => false end)
    (seq 0 64) = true.
Proof. vm_compute. reflexivity. Qed.

Lemma chr_decodes i : 0 <= i < 64 -> rd decode_table (chr i) = Done i.
Proof.
  intros Hi. pose proof chr_table as H. rewrite forallb_forall in H. specialize (H (Z.to_nat i)).
  rewrite Z2Nat.id in H by lia. destruct (rd decode_table (chr i)) as [c| |].
  - f_equal. apply Z.eqb_eq, H, in_seq. lia.
  - discriminate H. apply in_seq. lia.
  - discriminate H. apply in_seq. lia.
Qed.

(** A character of the alphabet. *)
Lemma decode_chr i src d :
  0 <= i < 64 ->
  decode_loop (chr i :: src) d =
    (let* r := decode_valid d i in match r with inl d => decode_loop src d | inr x => Done (inr x) end).
Proof.
  intros Hi. cbn [decode_loop]. rewrite chr_decodes by done. cbn [obind]. unfold BJNK, BPAD.
  rewrite !(proj2 (Z.eqb_neq _ _)) by lia. done.
Qed.

Lemma decode_brk off src d : decode_loop (brk off ++ src) d = decode_loop src d.
Proof. unfold brk. by destruct (_ && _). Qed.

(** Six bits and the neighbouring ones make the bytes again. *)
Lemma join_bits x y k : 0 <= k -> 0 <= x -> 0 <= y < 2 ^ k -> Z.lor (x * 2 ^ k) y = x * 2 ^ k + y.
Proof. intros Hk Hx Hy. rewrite Z.lor_comm, lor_disjoint by lia. lia. Qed.

Lemma byte_a a i : byte_ok a -> 0 <= i < 16 -> Z.lor (u8 (Z.shiftl (a / 4) 2)) (Z.shiftr (a mod 4 * 16 + i) 4) = a.
Proof.
  unfold byte_ok. intros Ha Hi. rewrite Z.shiftl_mul_pow2, Z.shiftr_div_pow2 by lia.
  assert (0 <= a / 4 < 64 /\ 0 <= a mod 4 < 4 /\ a = a / 4 * 4 + a mod 4) as (? & ? & E)
    by (Z.to_euclidean_division_equations; lia).
  rewrite u8_small by (unfold byte_ok; lia). change (2 ^ 4) with 16. rewrite Z.div_add_l, (Z.div_small i) by lia.
  rewrite join_bits by lia. change (2 ^ 2) with 4. lia.
Qed.

Lemma byte_b a b i :
  0 <= a < 4 -> byte_ok b -> 0 <= i < 4 ->
  Z.lor (u8 (Z.shiftl (a * 16 + b / 16) 4)) (Z.shiftr (b mod 16 * 4 + i) 2) = b.
Proof.
  unfold byte_ok. intros Ha Hb Hi. rewrite Z.shiftl_mul_pow2, Z.shiftr_div_pow2 by lia.
  assert (0 <= b / 16 < 16 /\ 0 <= b mod 16 < 16 /\ b = b / 16 * 16 + b mod 16) as (? & ? & E)
    by (Z.to_euclidean_division_equations; lia).
  replace (u8 ((a * 16 + b / 16) * 2 ^ 4)) with (b / 16 * 2 ^ 4).
  2:{ unfold u8, wrap. replace ((a * 16 + b / 16) * 2 ^ 4) with (b / 16 * 2 ^ 4 + a * 2 ^ 8) by lia.
      rewrite Z.mod_add by lia. symmetry. apply Z.mod_small. lia. }
  change (2 ^ 2) with 4. rewrite Z.div_add_l, (Z.div_small i) by lia. rewrite join_bits by lia. lia.
Qed.

Lemma byte_c b c :
  0 <= b < 16 -> byte_ok c -> Z.lor (u8 (Z.shiftl (b * 4 + c / 64) 6)) (c mod 64) = c.
Proof.
  unfold byte_ok. intros Hb Hc. rewrite Z.shiftl_mul_pow2 by lia.
  assert (0 <= c / 64 < 4 /\ 0 <= c mod 64 < 64 /\ c = c / 64 * 64 + c mod 64) as (? & ? & E)
    by (Z.to_euclidean_division_equations; lia).
  replace (u8 ((b * 4 + c / 64) * 2 ^ 6)) with (c / 64 * 2 ^ 6).
  2:{ unfold u8, wrap. replace ((b * 4 + c / 64) * 2 ^ 6) with (c / 64 * 2 ^ 6 + b * 2 ^ 8) by lia.
      rewrite Z.mod_add by lia. symmetry. apply Z.mod_small. lia. }
  rewrite join_bits by lia. lia.
Qed.

Section Decoding.
Context (dest0 : list Z) (L : Z).
Hypothesis (L_dest : L <= zlen dest0) (L_int : L < 2 ^ 31).

(** [A] has been copied out and [B] waits in the local buffer. *)
Record dec_at (d : decoder) (A B junk : list Z) : Prop := {
  da_dst : dst d = B ++ junk;
  da_junk : zlen B + zlen junk = 128;
  da_temp : temp_dst d = zlen B;
  da_rt : rt d = zlen A;
  da_dest : dest d = A ++ drop (length A) dest0;
  da_destl : destl d = L - zlen A;
  da_fit : zlen A + zlen B <= L
}.

(** Copying out. *)
Lemma flush_at d A B junk :
  dec_at d A B junk ->
  exists d', flush d = Done (inl d') /\ dec_at d' (A ++ B) [] (replicate 128 0) /\
    quantum d' = quantum d /\ cntr d' = cntr d.
Proof.
  intros [Hd Hj Ht Hr Hde Hl Hf]. pose proof (zlen_nonneg A). pose proof (zlen_nonneg B).
  unfold flush. rewrite Ht, Hl, Hd, Hr, Hde. rewrite (proj2 (Z.ltb_ge _ _)) by lia.
  rewrite slice_app_l by done. cbn [obind].
  assert (Hlen : (length A + length B <= length dest0)%nat) by (unfold zlen in *; lia).
  rewrite <- (take_drop (length B) (drop (length A) dest0)).
  rewrite (splice_app A (take (length B) (drop (length A) dest0))) by
    (try done; unfold zlen; rewrite length_take, length_drop; lia).
  cbn [obind]. eexists. split; [reflexivity|]. split; [|done].
  constructor; cbn; try done; autorewrite with cnorm; try lia.
  - rewrite u32_small by (unfold u32_ok; lia). done.
  - rewrite drop_drop, <- app_assoc, length_app. done.
Qed.

Lemma flush_if_at d A B junk :
  dec_at d A B junk ->
  exists d' junk', flush_if d = Done (inl d') /\ dec_at d' (A ++ B) [] junk'.
Proof.
  intros Hd. unfold flush_if. rewrite (da_temp _ _ _ _ Hd). destruct (Z.eqb_spec (zlen B) 0) as [E|E]; cbn [negb].
  - exists d, junk. split; [done|]. destruct B; [by rewrite app_nil_r|].
    autorewrite with cnorm in E. pose proof (zlen_nonneg B). lia.
  - destruct (flush_at _ _ _ _ Hd) as (d' & -> & H' & _). eauto.
Qed.

(** The first two characters of a quantum. *)
Lemma decode_two d A B j0 j1 junk i0 i1 src :
  dec_at d A B (j0 :: j1 :: junk) -> quantum d = 0 -> 0 <= i0 < 64 -> 0 <= i1 < 64 -> zlen A + zlen B + 1 <= L ->
  exists d', decode_loop (chr i0 :: chr i1 :: src) d = decode_loop src d' /\
    dec_at d' A (B ++ [Z.lor (u8 (Z.shiftl i0 2)) (Z.shiftr i1 4)]) (u8 (Z.shiftl i1 4) :: junk) /\
    quantum d' = 2 /\ cntr d' = cntr d.
Proof.
  intros [Hd Hj Ht Hr Hde Hl Hf] Hq H0 H1 Hroom. rewrite decode_chr by done. unfold decode_valid at 1.
  rewrite Hq, Hd, Ht. cbn [Z.eqb]. rewrite wr_app by done. cbn [obind].
  rewrite decode_chr by done. unfold decode_valid at 1. cbn [quantum set_dst Z.eqb Pos.eqb].
  unfold join_split. cbn [dst temp_dst set_dst]. rewrite rd_app by done. cbn [obind]. rewrite wr_app by done. cbn [obind].
  rewrite cons_middle, app_assoc, wr_app by (autorewrite with cnorm; lia). cbn [obind].
  eexists. split; [reflexivity|]. split; [|done].
  autorewrite with cnorm in Hj. constructor; cbn; try done; autorewrite with cnorm; lia.
Qed.

(** The third character. *)
Lemma decode_third d A B x j1 junk i2 src :
  dec_at d A B (x :: j1 :: junk) -> quantum d = 2 -> 0 <= i2 < 64 -> zlen A + zlen B + 1 <= L ->
  exists d', decode_loop (chr i2 :: src) d = decode_loop src d' /\
    dec_at d' A (B ++ [Z.lor x (Z.shiftr i2 2)]) (u8 (Z.shiftl i2 6) :: junk) /\
    quantum d' = 3 /\ cntr d' = cntr d.
Proof.
  intros [Hd Hj Ht Hr Hde Hl Hf] Hq H2 Hroom. rewrite decode_chr by done. unfold decode_valid at 1.
  rewrite Hq. cbn [Z.eqb Pos.eqb]. unfold join_split. rewrite Hd, Ht, rd_app by done. cbn [obind].
  rewrite wr_app by done. cbn [obind].
  rewrite cons_middle, app_assoc, wr_app by (autorewrite with cnorm; lia). cbn [obind].
  eexists. split; [reflexivity|]. split; [|done].
  autorewrite with cnorm in Hj. constructor; cbn; try done; autorewrite with cnorm; lia.
Qed.

(** A place between two quanta: [q] of them wait in the buffer. *)
Definition between_quanta (d : decoder) (B : list Z) : Prop :=
  exists q, 0 <= q < 41 /\ zlen B = 3 * q /\ cntr d = 4 * q /\ quantum d = 0.

(** The fourth character, which empties the buffer after 41 quanta. *)
Lemma decode_fourth d A B x junk i3 src q :
  dec_at d A B (x :: junk) -> quantum d = 3 -> 0 <= i3 < 64 -> zlen A + zlen B + 1 <= L ->
  0 <= q < 41 -> zlen B = 3 * q + 2 -> cntr d = 4 * q ->
  exists d' A' B' junk', decode_loop (chr i3 :: src) d = decode_loop src d' /\
    dec_at d' A' B' junk' /\ A' ++ B' = A ++ B ++ [Z.lor x i3] /\ between_quanta d' B'.
Proof.
  intros [Hd Hj Ht Hr Hde Hl Hf] Hqu H3 Hroom Hq HB Hc. rewrite decode_chr by done. unfold decode_valid at 1.
  rewrite Hqu. cbn [Z.eqb Pos.eqb]. rewrite Hd, Ht, rd_app by done. cbn [obind]. rewrite wr_app by done. cbn [obind].
  set (d1 := {| dst := B ++ Z.lor x i3 :: junk |}). autorewrite with cnorm in Hj.
  assert (H1 : dec_at d1 A (B ++ [Z.lor x i3]) junk).
  { constructor; cbn; try done; autorewrite with cnorm; try lia. by rewrite <- app_assoc. }
  assert (Hc1 : cntr d1 = 4 * (q + 1)) by (cbn; rewrite Hc, u32_small; unfold u32_ok; lia).
  destruct (Z.eqb_spec (cntr d1) num) as [E|E].
  - destruct (flush_at _ _ _ _ H1) as (d2 & -> & H2 & Q2 & _). cbn [obind].
    set (d3 := {| dst := dst d2 |}). exists d3, (A ++ B ++ [Z.lor x i3]), [], (replicate 128 0).
    split; [reflexivity|]. split; [destruct H2; by constructor|]. split; [by rewrite app_nil_r|].
    exists 0. cbn. rewrite Q2. split_and!; try done; lia.
  - exists d1, A, (B ++ [Z.lor x i3]), junk. split; [reflexivity|]. split; [done|]. split; [done|].
    exists (q + 1). change num with 164 in E. rewrite Hc1 in E. autorewrite with cnorm. split_and!; try done; lia.
Qed.

Lemma dec_at_quantum d A B junk e : dec_at d A B junk -> dec_at (set_quantum d e) A B junk.
Proof. intros [? ? ? ? ? ? ?]. by constructor. Qed.

Lemma junk_cells (B junk : list Z) (k : nat) :
  zlen B + zlen junk = 128 -> zlen B + Z.of_nat k <= 128 -> (k <= length junk)%nat.
Proof. unfold zlen. lia. Qed.

(** The end of a text with one or two padding characters. *)
Lemma decode_padding d A B junk e :
  dec_at d A B junk -> quantum d = e -> e = 2 \/ e = 3 ->
  exists d' junk', decode_loop (if e =? 2 then [61; 61] else [61]) d = Done (inl d') /\ dec_at d' (A ++ B) [] junk'.
Proof.
  intros Hd Hq He. assert (Hlast : forall c, dec_at c A B junk -> quantum c = 3 ->
    exists d' junk', decode_loop [61] c = Done (inl d') /\ dec_at d' (A ++ B) [] junk').
  { intros c Hc Hcq. cbn [decode_loop]. change (rd decode_table 61) with (Done 64). cbn [obind Z.eqb Pos.eqb BJNK BPAD].
    rewrite Hcq. cbn [Z.eqb Pos.eqb skip_tail obind]. by apply (flush_if_at _ A B junk), dec_at_quantum. }
  destruct He as [-> | ->]; [|by apply Hlast]. cbn [Z.eqb Pos.eqb].
  change (decode_loop [61; 61] d) with
    (if quantum d =? 3 then let* _ := skip_tail [61] in flush_if (set_quantum d (u16 (quantum d + 1)))
     else if quantum d =? 2 then decode_loop [61] (set_quantum d (u16 (quantum d + 1)))
     else Done (inr (dest (set_quantum d (u16 (quantum d + 1)))))).
  rewrite Hq. cbn [Z.eqb Pos.eqb]. by apply Hlast; [apply dec_at_quantum|].
Qed.

Lemma decode_b64 n : forall data off d A B junk,
  (length data <= n)%nat -> dec_at d A B junk -> between_quanta d B -> Forall byte_ok data ->
  zlen A + zlen B + zlen data <= L ->
  exists d' A' B' junk', decode_loop (b64 off data) d = Done (inl d') /\ dec_at d' A' B' junk' /\
    A' ++ B' = A ++ B ++ data.
Proof.
  induction n as [|n IH]; intros data off d A B junk Hn Hd (q & Hq & HB & Hc & Hqu) Hb Hroom.
  { destruct data; [|cbn in Hn; lia]. exists d, A, B, junk. by rewrite app_nil_r. }
  destruct data as [|a data]; [exists d, A, B, junk; by rewrite app_nil_r|].
  rewrite b64_eq, decode_brk by done. apply Forall_cons in Hb as [Ba Hb].
  pose proof (da_junk _ _ _ _ Hd) as Hj. autorewrite with cnorm in Hroom. pose proof (zlen_nonneg data).
  destruct junk as [|j0 [|j1 [|j2 junk]]]; [unfold zlen in *; cbn in Hj; lia..|].
  assert (Ra : 0 <= a / 4 < 64 /\ 0 <= a mod 4 < 4) by (unfold byte_ok in Ba; Z.to_euclidean_division_equations; lia).
  destruct data as [|b data].
  { cbn [quad_of drop b64 app]. destruct (decode_two d A B j0 j1 (j2 :: junk) (a / 4) (a mod 4 * 16) [61; 61] Hd Hqu)
      as (d1 & -> & K1 & Q1 & _); [lia|lia|lia|].
    replace (a mod 4 * 16) with (a mod 4 * 16 + 0) in K1 by lia. rewrite byte_a in K1 by (done || lia).
    destruct (decode_padding d1 A (B ++ [a]) _ 2 K1 Q1 (or_introl eq_refl)) as (d2 & j & E & K2).
    exists d2, (A ++ B ++ [a]), [], j. split; [exact E|]. by rewrite app_nil_r. }
  apply Forall_cons in Hb as [Bb Hb]. autorewrite with cnorm in Hroom. pose proof (zlen_nonneg data).
  assert (Rb : 0 <= b / 16 < 16 /\ 0 <= b mod 16 < 16) by (unfold byte_ok in Bb; Z.to_euclidean_division_equations; lia).
  destruct data as [|c data].
  { cbn [quad_of drop b64 app].
    destruct (decode_two d A B j0 j1 (j2 :: junk) (a / 4) (a mod 4 * 16 + b / 16) [chr (b mod 16 * 4); 61] Hd Hqu)
      as (d1 & -> & K1 & Q1 & _); [lia|lia|lia|]. rewrite byte_a in K1 by (done || lia).
    destruct (decode_third d1 A (B ++ [a]) _ j2 junk (b mod 16 * 4) [61] K1 Q1) as (d2 & -> & K2 & Q2 & _);
      [lia|autorewrite with cnorm; lia|].
    replace (b mod 16 * 4) with (b mod 16 * 4 + 0) in K2 by lia. rewrite byte_b in K2 by (done || lia).
    destruct (decode_padding d2 A _ _ 3 K2 Q2 (or_intror eq_refl)) as (d3 & j & E & K3).
    exists d3, (A ++ (B ++ [a]) ++ [b]), [], j. split; [exact E|]. split; [done|]. by rewrite app_nil_r, <- !app_assoc. }
  apply Forall_cons in Hb as [Bc Hb]. autorewrite with cnorm in Hroom. pose proof (zlen_nonneg data).
  assert (Rc : 0 <= c / 64 < 4 /\ 0 <= c mod 64 < 64) by (unfold byte_ok in Bc; Z.to_euclidean_division_equations; lia).
  cbn [quad_of drop app]. rewrite drop_0. set (src := b64 (off + 3) data).
  destruct (decode_two d A B j0 j1 (j2 :: junk) (a / 4) (a mod 4 * 16 + b / 16)
    (chr (b mod 16 * 4 + c / 64) :: chr (c mod 64) :: src) Hd Hqu) as (d1 & -> & K1 & Q1 & C1); [lia|lia|lia|].
  rewrite byte_a in K1 by (done || lia).
  destruct (decode_third d1 A (B ++ [a]) _ j2 junk (b mod 16 * 4 + c / 64) (chr (c mod 64) :: src) K1 Q1)
    as (d2 & -> & K2 & Q2 & C2); [lia|autorewrite with cnorm; lia|]. rewrite byte_b in K2 by (done || lia).
  destruct (decode_fourth d2 A ((B ++ [a]) ++ [b]) _ junk (c mod 64) src q K2 Q2) as (d3 & A3 & B3 & j3 & -> & K3 & E3 & Q3);
    [lia|autorewrite with cnorm; lia|lia|autorewrite with cnorm; lia|congruence|]. rewrite byte_c in E3 by (done || lia).
  destruct (IH data (off + 3) d3 A3 B3 j3) as (d' & A' & B' & j' & E' & H' & EE); try done.
  - cbn in Hn. lia.
  - apply (f_equal zlen) in E3. autorewrite with cnorm in E3. lia.
  - exists d', A', B', j'. split; [exact E'|]. split; [done|]. rewrite EE.
    rewrite (app_assoc A3), E3. by rewrite <- !app_assoc.
Qed.

Lemma decode_whole data off :
  Forall byte_ok data -> zlen data < L ->
  DM_Base64_decode (b64 off data) dest0 L = Done (zlen data, data ++ 0 :: drop (S (length data)) dest0).
Proof.
  intros Hb Hlen. pose proof (zlen_nonneg data). unfold DM_Base64_decode. set (d0 := {| dst := _ |}).
  assert (H0 : dec_at d0 [] [] (replicate 128 0)).
  { constructor; try done; cbn; change (zlen (@nil Z)) with 0; lia. }
  destruct (decode_b64 (length data) data off d0 [] [] (replicate 128 0)) as (d & A & B & j & -> & Hd & E); try done.
  { exists 0. change (zlen (@nil Z)) with 0. split_and!; try done; lia. }
  { change (zlen (@nil Z)) with 0. lia. }
  cbn [obind app] in *. destruct (flush_if_at _ _ _ _ Hd) as (d' & j' & -> & [_ _ _ Hr Hde Hl _]).
  rewrite E in *. cbn [obind]. rewrite Hl, (proj2 (Z.ltb_ge _ _)) by lia. rewrite Hr, Hde.
  destruct (drop (length data) dest0) as [|x tail] eqn:Et.
  { apply (f_equal length) in Et. rewrite length_drop in Et. unfold zlen in *. cbn in Et. lia. }
  rewrite wr_app by done. cbn [obind]. replace (s32 (zlen data)) with (zlen data).
  2:{ unfold s32. rewrite u32_small by (unfold u32_ok; lia). by rewrite (proj2 (Z.ltb_lt _ _)) by lia. }
  do 4 f_equal. replace (S (length data)) with (length data + 1)%nat by lia. rewrite <- drop_drop, Et. cbn. by rewrite drop_0.
Qed.
End Decoding.

(** ** Safety of the decoder *)

(** The buffer, the destination and what is left of it. *)
Record dec_room (d : decoder) : Prop := {
  dr_dst : zlen (dst d) = 128;
  dr_temp : 0 <= temp_dst d <= 128;
  dr_rt : 0 <= rt d /\ rt d + destl d <= zlen (dest d) < 2 ^ 31;
  dr_destl : 0 <= destl d
}.

(** In the loop, [q] quanta are complete and the place in the current one says how
    far the pointer is. *)
Definition in_quantum (d : decoder) : Prop :=
  0 <= quantum d <= 3 /\
  exists q, cntr d = 4 * q /\ 0 <= q < 41 /\ temp_dst d <= 3 * q + Z.max 0 (quantum d - 1).

(** What a step keeps: the length of the destination and the end of its room. *)
Definition kept_room (d d' : decoder) : Prop :=
  dec_room d' /\ zlen (dest d') = zlen (dest d) /\ rt d' + destl d' = rt d + destl d.

Lemma flush_safe d :
  dec_room d ->
  exists r, flush d = Done r /\
    match r with
    | inl d' => kept_room d d' /\ temp_dst d' = 0 /\ cntr d' = cntr d /\ quantum d' = quantum d
    | inr x => x = dest d
    end.
Proof.
  intros [H1 H2 [H3 H3'] H4]. unfold flush. destruct (Z.ltb_spec (destl d) (temp_dst d)) as [Hlt|Hge]; [by eexists|].
  rewrite slice_in by lia. cbn [obind].
  set (out := take _ _). assert (Ho : zlen out = temp_dst d).
  { unfold out. change (Z.to_nat 0) with 0%nat. rewrite drop_0. apply zlen_take. lia. }
  rewrite splice_in by lia. cbn [obind]. eexists. split; [reflexivity|]. cbv beta iota.
  assert (Hz : zlen (take (Z.to_nat (rt d)) (dest d) ++ out ++ drop (Z.to_nat (rt d) + length out) (dest d)) = zlen (dest d)).
  { autorewrite with cnorm. rewrite zlen_take by lia. unfold zlen in *. rewrite length_drop. lia. }
  split; [|done]. unfold kept_room. cbn [dest rt destl]. rewrite Hz. rewrite u32_small by (unfold u32_ok; lia).
  split; [constructor; cbn; rewrite ?Hz; try done; lia|]. split; [done|lia].
Qed.

Lemma valid_safe d c :
  dec_room d -> in_quantum d -> 0 <= c < 64 ->
  exists r, decode_valid d c = Done r /\
    match r with inl d' => kept_room d d' /\ in_quantum d' | inr x => x = dest d end.
Proof.
  intros Hr (Hq & q & Hc & Hqr & Ht) Hcr. pose proof Hr as [H1 H2 H3 H4]. unfold decode_valid, join_split.
  assert (Hw : forall i v, 0 <= i < 128 -> wr (dst d) i v = Done (<[Z.to_nat i := v]> (dst d))) by (intros; apply wr_in; lia).
  assert (Hz : forall i (v : Z), zlen (<[i := v]> (dst d)) = 128) by (intros; unfold zlen; rewrite length_insert; exact H1).
  destruct (Z.eqb_spec (quantum d) 0) as [E0|E0].
  { rewrite Hw by lia. eexists. split; [reflexivity|]. cbn. split; [split; [constructor; cbn; rewrite ?Hz; done|done]|].
    split; [cbn; lia|]. exists q. cbn. lia. }
  destruct (Z.eqb_spec (quantum d) 1) as [E1|E1]; [|destruct (Z.eqb_spec (quantum d) 2) as [E2|E2]].
  1,2: destruct (rd_lt (dst d) (temp_dst d)) as (x & -> & _); [lia|]; cbn [obind]; rewrite Hw by lia; cbn [obind];
    rewrite wr_in by (rewrite Hz; lia); eexists; (split; [reflexivity|]); cbn; (split; [split; [constructor; cbn; try done|done]|]);
    [unfold zlen; rewrite !length_insert; exact H1|lia|split; [cbn; lia|]; exists q; cbn; lia].
  rewrite (proj2 (Z.eqb_eq _ _)) by lia.
  destruct (rd_lt (dst d) (temp_dst d)) as (x & -> & _); [lia|]. cbn [obind]. rewrite Hw by lia. cbn [obind].
  set (d1 := {| dst := _ |}). assert (Hc1 : cntr d1 = 4 * (q + 1)) by (cbn; rewrite Hc, u32_small; unfold u32_ok; lia).
  assert (Hr1 : dec_room d1) by (constructor; cbn; rewrite ?Hz; try done; lia).
  destruct (Z.eqb_spec (cntr d1) num) as [E|E].
  - destruct (flush_safe d1 Hr1) as (r & -> & Hf). cbn [obind]. destruct r as [d2|x2]; [|by eexists].
    destruct Hf as ((R2 & Z2 & K2) & T2 & C2 & Q2). eexists. split; [reflexivity|]. cbn.
    split; [split; [destruct R2; by constructor|done]|]. split; [cbn; rewrite Q2; cbn; lia|].
    exists 0. cbn. rewrite T2. lia.
  - eexists. split; [reflexivity|]. cbn. split; [done|]. split; [cbn; lia|]. exists (q + 1).
    change num with 164 in E. rewrite Hc1 in E. split; [exact Hc1|]. split; [lia|]. cbn. lia.
Qed.

Lemma table_values ch :
  byte_ok ch -> exists c, rd decode_table ch = Done c /\ (c = BJNK \/ c = BPAD \/ 0 <= c < 64).
Proof.
  intros Hb. assert (H : forallb (fun n => match rd decode_table (Z.of_nat n) with
    | Done c => (c =? BJNK) || (c =? BPAD) || ((0 <=? c) && (c <? 64)) | _ => false end) (seq 0 256) = true)
    by (vm_compute; reflexivity).
  rewrite forallb_forall in H. specialize (H (Z.to_nat ch)). unfold byte_ok in Hb. rewrite Z2Nat.id in H by lia.
  assert (Hin : In (Z.to_nat ch) (seq 0 256)) by (apply in_seq; lia). specialize (H Hin).
  destruct (rd decode_table ch) as [c| |]; try discriminate H. exists c. split; [done|]. btrue.
  destruct H as [H|H]; btrue; [destruct H as [H|H]; btrue|]; auto.
Qed.

Lemma skip_tail_done src : Forall byte_ok src -> skip_tail src = Done tt.
Proof.
  induction 1 as [|ch src Hb Hs IH]; [done|]. cbn [skip_tail]. destruct (table_values ch Hb) as (c & -> & _).
  cbn [obind]. by destruct (_ || _).
Qed.

Lemma flush_if_safe d :
  dec_room d ->
  exists r, flush_if d = Done r /\ match r with inl d' => kept_room d d' | inr x => x = dest d end.
Proof.
  intros Hr. unfold flush_if. destruct (negb _); [|exists (inl d); by split].
  destruct (flush_safe d Hr) as (r & -> & H). exists r. split; [done|]. by destruct r as [d'|x]; [destruct H|].
Qed.

Lemma kept_trans d d1 d2 : kept_room d d1 -> kept_room d1 d2 -> kept_room d d2.
Proof. intros (_ & ? & ?) (? & ? & ?). split; [done|]. split; congruence. Qed.

Lemma decode_loop_safe src : forall d,
  Forall byte_ok src -> dec_room d -> in_quantum d ->
  exists r, decode_loop src d = Done r /\
    match r with inl d' => kept_room d d' | inr x => zlen x = zlen (dest d) end.
Proof.
  induction src as [|ch src IH]; intros d Hb Hr Hq; [exists (inl d); by split|].
  apply Forall_cons in Hb as [Hc Hb]. cbn [decode_loop]. destruct (table_values ch Hc) as (c & -> & Hv). cbn [obind].
  destruct (Z.eqb_spec c BJNK) as [->|NJ]; [by apply IH|].
  destruct (Z.eqb_spec c BPAD) as [->|NP].
  - set (d1 := set_quantum d (u16 (quantum d + 1))). assert (Hr1 : dec_room d1) by (destruct Hr; by constructor).
    destruct (flush_if_safe d1 Hr1) as (r1 & E1 & K1). destruct (Z.eqb_spec (quantum d) 3) as [E3|N3].
    { rewrite skip_tail_done by done. cbn [obind]. exists r1. split; [done|].
      destruct r1 as [d2|x]; [done|by rewrite K1]. }
    destruct (Z.eqb_spec (quantum d) 2) as [E2|N2]; [|by eexists].
    destruct src as [|nx src']; [|destruct (nx =? 61); [|by eexists]].
    { rewrite E1. cbn [obind]. eexists. split; [reflexivity|]. destruct r1 as [d2|x]; [apply K1|by rewrite K1]. }
    destruct (IH d1 Hb Hr1) as (r & -> & K); [|by eexists].
    destruct Hq as (Hq & q & Hcn & Hqr & Ht). unfold d1. rewrite E2. change (u16 (2 + 1)) with 3. split; [cbn; lia|]. exists q. cbn. rewrite E2 in Ht. lia.
  - destruct (valid_safe d c Hr Hq) as (r & -> & K); [destruct Hv as [?|[?|?]]; congruence || done|]. cbn [obind].
    destruct r as [d1|x]; [|eexists; split; [reflexivity|by rewrite K]]. destruct K as [K1 Q1].
    destruct (IH d1 Hb (proj1 K1) Q1) as (r & -> & K2). exists r. split; [done|].
    destruct r as [d2|x]; [by eapply kept_trans|]. rewrite K2. apply K1.
Qed.

(** ** Claims *)

(** C34. Encoding a message in one call, with room for it, and decoding the
    characters written returns the message, its length and a NUL after it, and
    leaves the rest of the destination; the line breaks of the encoder are
    skipped. *)
Theorem base64_roundtrip (tgt data extra dest0 : list Z) (tsize L : Z) :
  Forall byte_ok data -> zlen data < 2 ^ 31 -> zlen (b64 0 data) <= tsize -> tsize <= zlen tgt -> tsize < 2 ^ 32 ->
  zlen data < L -> L <= zlen dest0 -> L < 2 ^ 31 ->
  exists e, mmidm_base64Encode tgt tsize (Some (data ++ extra)) (zlen data) 0 1 no_saved = Done e /\
    cbDataProcessed e = 0 /\
    DM_Base64_decode (take (Z.to_nat (cbCopySize e)) (target e)) dest0 L =
      Done (zlen data, data ++ 0 :: drop (S (length data)) dest0).
Proof.
  intros Hb Hd Hs Ht Hts Hl Hd0 Hi. pose proof (zlen_nonneg (b64 0 data)).
  destruct (encode_once tgt tsize data extra (b64 0 data) []) as (e & E & Et & Ec & El & _ & _);
    [lia|lia|done|by eapply fit_full|lia|].
  exists e. split; [exact E|]. split; [exact El|]. rewrite Ec, Et. unfold zlen at 1. rewrite Nat2Z.id, take_app_length.
  by apply decode_whole.
Qed.

(** The basic credentials: the string in the buffer is replaced by the base64
    of its first 57 bytes (a longer string is cut without notice) and a NUL; the
    call stays inside the buffer exactly when the buffer is longer than the
    encoding. *)
Theorem base64_cred_replaces (heap : Z -> option (list Z)) (block data extra : list Z) :
  (forall n b, heap n = Some b -> zlen b = n) -> heap (zlen data * 2 + 4) = Some block ->
  Forall byte_ok data -> 0 < zlen data -> zlen data * 2 + 4 < 2 ^ 32 ->
  let coded := b64 0 (take 57 data) in
  if zlen coded <? zlen (data ++ extra)
  then exists tail, mmidm_calc_b64_cred heap (data ++ extra) (zlen data) = Done (coded ++ 0 :: tail) /\
         zlen coded + 1 + zlen tail = zlen (data ++ extra)
  else mmidm_calc_b64_cred heap (data ++ extra) (zlen data) = Undef.
Proof.
  intros Hheap Hblk Hb Hpos Hlen coded. destruct (fit_80 data) as [Hfit Hsz]. fold coded in Hfit, Hsz.
  apply Hheap in Hblk as Hbl. pose proof (zlen_nonneg coded) as Hc0. unfold mmidm_calc_b64_cred.
  rewrite (proj2 (Z.eqb_neq _ _)) by lia. rewrite u32_small by (unfold u32_ok; lia). rewrite Hblk.
  destruct (encode_once block 80 data extra coded (drop 57 data)) as (e & E & Et & Ec & El & Ed & _); [lia|lia|done|done|lia|].
  unfold no_saved in E. rewrite E. cbn [obind]. rewrite Ec, Et.
  assert (Hlb : (length coded < length block)%nat) by (unfold zlen in *; lia).
  destruct (drop (length coded) block) as [|x rest] eqn:Edr.
  { apply (f_equal length) in Edr. rewrite length_drop in Edr. cbn in Edr. lia. }
  rewrite wr_app by done. cbn [obind]. rewrite slice_app_l by done. cbn [obind].
  assert (Hlp : zlen (pbData e) = zlen (data ++ extra)).
  { rewrite Ed. autorewrite with cnorm. unfold zlen. rewrite !length_drop, length_app. lia. }
  destruct (Z.ltb_spec (zlen coded) (zlen (data ++ extra))) as [Hfit'|Hno].
  - destruct (free_split (pbData e) (length coded)) as (y & Ey & Ly); [unfold zlen in *; lia|].
    rewrite Ey, (splice_app [] y (drop (length coded) (pbData e)) coded) by (try done; unfold zlen; by rewrite Ly).
    cbn [obind app].
    destruct (drop (length coded) (pbData e)) as [|z tl] eqn:Etl.
    { rewrite app_nil_r in Ey. subst y. unfold zlen in *. lia. }
    rewrite wr_app by done. exists tl. split; [done|]. rewrite <- Hlp, Ey. autorewrite with cnorm. unfold zlen. lia.
  - destruct (decide (zlen coded = zlen (pbData e))) as [Eq|Nq].
    + rewrite splice_all by done. cbn [obind]. apply wr_oob. lia.
    + by rewrite splice_oob by lia.
Qed.

(** C35. The decoder stays inside its 128-byte buffer and inside the destination
    for every input of bytes, keeps the length of the destination, and returns
    -1 or a length below the room it was given. *)
Theorem base64_decode_safe (src dest0 : list Z) (L : Z) :
  Forall byte_ok src -> 0 <= L <= zlen dest0 -> zlen dest0 < 2 ^ 31 ->
  exists r x, DM_Base64_decode src dest0 L = Done (r, x) /\ zlen x = zlen dest0 /\ -1 <= r < Z.max L 0.
Proof.
  intros Hb HL Hz. unfold DM_Base64_decode. set (d0 := {| dst := _ |}).
  assert (H0 : dec_room d0) by (constructor; cbn; try done; lia).
  assert (Q0 : in_quantum d0) by (split; [cbn; lia|]; exists 0; cbn; lia).
  destruct (decode_loop_safe src d0 Hb H0 Q0) as (r & -> & K). cbn [obind].
  destruct r as [d|x]; [|exists (-1), x; split_and!; try done; lia]. destruct K as (R & Zd & S).
  destruct (flush_if_safe d R) as (r & -> & K). cbn [obind]. cbn in Zd, S.
  destruct r as [d'|x]; [|exists (-1), x; rewrite K; split_and!; try done; lia]. destruct K as ([R1 R2 R3 R4] & Zd' & S').
  destruct (Z.ltb_spec (destl d') 1); [exists (-1), (dest d'); split_and!; try done; lia|].
  rewrite wr_in by lia. cbn [obind]. exists (s32 (rt d')), (<[Z.to_nat (rt d') := 0]> (dest d')).
  split; [done|]. split; [unfold zlen in *; rewrite length_insert; lia|].
  unfold s32. rewrite u32_small by (unfold u32_ok; lia). rewrite (proj2 (Z.ltb_lt _ _)) by lia. lia.
Qed.

(** A block of fewer than three bytes that is not the last overwrites the bytes
    saved by the block before it: they are never encoded. *)
Theorem base64_saved_lost (tgt : list Z) (tsize off x y z p q : Z) :
  exists e, mmidm_base64Encode tgt tsize (Some [p; q]) 2 off 0 (Some [2; x; y; z]) = Done e /\
    pbSaveBytes e = Some [2; p; q; z] /\ cbCopySize e = 0 /\ cbDataProcessed e = 0 /\ target e = tgt.
Proof.
  unfold mmidm_base64Encode. cbn [default encode_loop]. cbn [cbTargetSize cbDataProcessed Z.eqb Z.leb Z.ltb Z.compare Pos.compare Pos.compare_cont andb orb].
  rewrite andb_false_r. cbn. eexists. split; [reflexivity|]. done.
Qed.

(** The prototype says that 2 marks the last block; the loop knows only 0 and 1,
    and with 2 it encodes nothing. *)
Theorem base64_last_block_ignored (tgt data : list Z) (tsize off : Z) (save : option (list Z)) :
  0 < zlen data ->
  exists e, mmidm_base64Encode tgt tsize (Some data) (zlen data) off 2 save = Done e /\
    cbCopySize e = 0 /\ target e = tgt /\ cbDataProcessed e = zlen data /\ pbData e = data.
Proof.
  intros Hpos. unfold mmidm_base64Encode. cbn [encode_loop cbTargetSize cbDataProcessed default Z.eqb Pos.eqb].
  rewrite !andb_false_r. cbn [orb obind]. set (e0 := {| target := tgt |}).
  assert (Hs : save_rest 2 e0 = Done e0) by (unfold save_rest; by destruct (pbSaveBytes e0)).
  rewrite Hs. cbn [obind]. unfold shift_rest. cbn [cbDataProcessed pbData pbSourceData e0].
  rewrite (proj2 (Z.ltb_lt _ _) Hpos). rewrite slice_all. cbn [obind]. rewrite splice_all by done. cbn [obind].
  eexists. split; [reflexivity|]. done.
Qed.

(** ** Witnesses *)

Lemma base64_roundtrip_witness :
  exists e, mmidm_base64Encode (replicate 20 7) 20 (Some (bytes_of "user:pa" ++ [1; 2])) (zlen (bytes_of "user:pa")) 0 1 no_saved
      = Done e /\
    cbDataProcessed e = 0 /\
    DM_Base64_decode (take (Z.to_nat (cbCopySize e)) (target e)) (replicate 9 5) 9 =
      Done (zlen (bytes_of "user:pa"), bytes_of "user:pa" ++ 0 :: drop (S (length (bytes_of "user:pa"))) (replicate 9 5)).
Proof.
  apply (base64_roundtrip (replicate 20 7) (bytes_of "user:pa") [1; 2] (replicate 9 5) 20 9);
    try (vm_compute; first [reflexivity|discriminate]).
  repeat constructor; discriminate.
Defined.

Definition seven_heap (n : Z) : option (list Z) := if 0 <=? n then Some (replicate (Z.to_nat n) 7) else None.

Lemma base64_cred_replaces_witness :
  let coded := b64 0 (take 57 (bytes_of "user:pa")) in
  if zlen coded <? zlen (bytes_of "user:pa" ++ replicate 9 5)
  then exists tail, mmidm_calc_b64_cred seven_heap (bytes_of "user:pa" ++ replicate 9 5) (zlen (bytes_of "user:pa")) =
           Done (coded ++ 0 :: tail) /\
         zlen coded + 1 + zlen tail = zlen (bytes_of "user:pa" ++ replicate 9 5)
  else mmidm_calc_b64_cred seven_heap (bytes_of "user:pa" ++ replicate 9 5) (zlen (bytes_of "user:pa")) = Undef.
Proof.
  apply (base64_cred_replaces seven_heap (replicate 18 7) (bytes_of "user:pa") (replicate 9 5));
    try (vm_compute; first [reflexivity|discriminate]).
  - intros n b. unfold seven_heap. destruct (Z.leb_spec 0 n); [|done]. intros [= <-]. rewrite zlen_replicate. lia.
  - repeat constructor; discriminate.
Defined.

Lemma base64_decode_safe_witness :
  exists r x, DM_Base64_decode [61; 200; 65; 66; 61] (replicate 4 5) 2 = Done (r, x) /\
    zlen x = zlen (replicate 4 5) /\ -1 <= r < Z.max 2 0.
Proof.
  apply (base64_decode_safe [61; 200; 65; 66; 61] (replicate 4 5) 2); try (vm_compute; split; congruence || reflexivity).
  repeat constructor; discriminate.
Defined.
