(* ===== verification/DmNum.v ===== *)
(** * libs/libdm/src/sprd_dm_md5_b64.c: numbers in text

    [MMIDM_IU32toa] prints a 32-bit number and [MMIDM_atoIU32] reads one.  The
    printer takes every radix but 16 for ten, the reader every radix but 10 for
    sixteen.  Strings are byte lists that hold their NUL; reading past the list is
    undefined. *)

From S2P Require Import Prelude CString.

Definition MAX_IU32_DIV_TEN : Z := 0xffffffff / 10.
Definition MAX_IU32_MOD_TEN : Z := 0xffffffff mod 10.

(** [int16]. *)
Definition s16 (x : Z) : Z := let y := u16 x in if y <? 2 ^ 15 then y else y - 2 ^ 16.

(** ** Reading *)

(** The decimal loop; the number, the digits parsed and the character that ended
    it. *)
Fixpoint dec_loop (s : list Z) (myVal digitsParsed : Z) : outcome (Z * Z * Z) :=
  match s with
  | [] => Undef
  | nextChr :: s' =>
      if (48 <=? nextChr) && (nextChr <=? 57) then
        if (MAX_IU32_DIV_TEN <? myVal) ||
           ((myVal =? MAX_IU32_DIV_TEN) && (48 + MAX_IU32_MOD_TEN <? nextChr))
        then Done (myVal, digitsParsed, nextChr)
        else dec_loop s' (u32 (u32 (myVal * 10) + (nextChr - 48))) (s16 (digitsParsed + 1))
      else Done (myVal, digitsParsed, nextChr)
  end.

(** The value of a hexadecimal digit. *)
Definition hex_digit (c : Z) : option Z :=
  if (48 <=? c) && (c <=? 57) then Some (c - 48)
  else if (65 <=? c) && (c <=? 70) then Some (c - 65 + 10)
  else if (97 <=? c) && (c <=? 102) then Some (c - 97 + 10)
  else None.

Fixpoint hex_loop (s : list Z) (myVal digitsParsed : Z) : outcome (Z * Z * Z) :=
  match s with
  | [] => Undef
  | cVal :: s' =>
      if cVal =? 0 then Done (myVal, digitsParsed, cVal)
      else
        match hex_digit cVal with
        | None => Done (myVal, digitsParsed, cVal)
        | Some d =>
            let myVal := Z.lor (u32 (Z.shiftl myVal 4)) d in
            if 8 <? digitsParsed then Done (myVal, s16 (digitsParsed + 1), cVal)
            else hex_loop s' myVal (s16 (digitsParsed + 1))
        end
  end.

(** The prefix [0x]; the second character is read only after a zero. *)
Definition skip_0x (s : list Z) : outcome (list Z) :=
  let* c0 := rd s 0 in
  if c0 =? 48 then
    let* c1 := rd s 1 in
    Done (if (c1 =? 120) || (c1 =? 88) then drop 2 s else s)
  else Done s.

(** The number returned and what is stored in [*success]; a null string stores
    nothing. *)
Definition MMIDM_atoIU32 (string : option (list Z)) (radix : Z) : outcome (Z * option bool) :=
  match string with
  | None => Done (0, None)
  | Some s =>
      if radix =? 10 then
        let* (myVal, digitsParsed, nextChr) := dec_loop s 0 0 in
        Done (myVal, Some ((nextChr =? 0) && (0 <? digitsParsed)))
      else
        let* s := skip_0x s in
        let* (myVal, digitsParsed, cVal) := hex_loop s 0 0 in
        Done (myVal, Some ((0 <? digitsParsed) && (digitsParsed <? 9) && (cVal =? 0)))
  end.

(** ** Printing *)

(** [do { v >>= 4; ++i } while (v != 0)] and the decimal loop; eleven rounds are
    enough for 32 bits. *)
Fixpoint count_hex (fuel : nat) (v i : Z) : outcome Z :=
  match fuel with
  | O => Fuel
  | S fuel =>
      let v := Z.shiftr v 4 in
      if v =? 0 then Done (i + 1) else count_hex fuel v (i + 1)
  end.

Fixpoint count_dec (fuel : nat) (v i : Z) : outcome Z :=
  match fuel with
  | O => Fuel
  | S fuel =>
      let v := v / 10 in
      if v =? 0 then Done (i + 1) else count_dec fuel v (i + 1)
  end.

(** The digits from the last place [n - 1] down to the first. *)
Fixpoint write_hex (n : nat) (value : Z) (string : list Z) : outcome (list Z) :=
  match n with
  | O => Done string
  | S n' =>
      let ch := 48 + Z.land value 0xF in
      let ch := if 57 <? ch then ch + 65 - (57 + 1) else ch in
      let* string := wr string (Z.of_nat n') ch in
      write_hex n' (Z.shiftr value 4) string
  end.

Fixpoint write_dec (n : nat) (value : Z) (string : list Z) : outcome (list Z) :=
  match n with
  | O => Done string
  | S n' =>
      let* string := wr string (Z.of_nat n') (48 + value mod 10) in
      write_dec n' (value / 10) string
  end.

Definition MMIDM_IU32toa (value : Z) (string : option (list Z)) (radix : Z) : outcome (option (list Z)) :=
  match string with
  | None => Done None
  | Some s =>
      let* i := if radix =? 16 then count_hex 11 value 0 else count_dec 11 value 0 in
      let* s := wr s i 0 in
      let* s := if radix =? 16 then write_hex (Z.to_nat i) value s else write_dec (Z.to_nat i) value s in
      Done (Some s)
  end.

Example print_hex : MMIDM_IU32toa 0xBEEF (Some (replicate 6 7)) 16 = Done (Some (bytes_of "BEEF" ++ [0; 7])).
Proof. reflexivity. Qed.

Example print_read_32 :
  (let* s := MMIDM_IU32toa 25 (Some (replicate 6 7)) 32 in MMIDM_atoIU32 s 32) = Done (0x25, Some true).
Proof. reflexivity. Qed.

(** ** Digits *)

(** The last [n] digits of [v] in base [b], the first one first. *)
Fixpoint digits_n (b : Z) (n : nat) (v : Z) : list Z :=
  match n with
  | O => []
  | S n' => digits_n b n' (v / b) ++ [v mod b]
  end.

(** The number of a list of digits. *)
Definition number (b : Z) (ds : list Z) : Z := fold_left (fun a d => a * b + d) ds 0.

(** The number of digits printed: the least that suffice, and at least one. *)
Definition digit_count (b v : Z) (n : nat) : Prop :=
  (0 < n)%nat /\ v < b ^ Z.of_nat n /\ (n = 1%nat \/ b ^ (Z.of_nat n - 1) <= v).

Lemma number_snoc b ds d : number b (ds ++ [d]) = number b ds * b + d.
Proof. unfold number. by rewrite fold_left_app. Qed.

Lemma length_digits b n v : length (digits_n b n v) = n.
Proof. revert v. induction n as [|n IH]; intros v; [done|]. cbn. rewrite length_app, IH. cbn. lia. Qed.

Lemma digits_range b n v : 0 < b -> Forall (fun d => 0 <= d < b) (digits_n b n v).
Proof.
  intros Hb. revert v. induction n as [|n IH]; intros v; [by constructor|]. cbn. apply Forall_app.
  split; [apply IH|]. constructor; [|by constructor]. by apply Z.mod_pos_bound.
Qed.

Lemma number_digits b n v : 1 < b -> 0 <= v < b ^ Z.of_nat n -> number b (digits_n b n v) = v.
Proof.
  intros Hb. revert v. induction n as [|n IH]; intros v Hv.
  - change (b ^ Z.of_nat 0) with 1 in Hv. cbn. lia.
  - cbn [digits_n]. rewrite number_snoc. rewrite Nat2Z.inj_succ, Z.pow_succ_r in Hv by lia.
    rewrite IH; [rewrite (Z.div_mod v b) at 3; lia|]. split; [apply Z.div_pos; lia|].
    apply Z.div_lt_upper_bound; lia.
Qed.

Lemma digits_head b n v :
  1 < b -> b ^ (Z.of_nat n) <= v < b ^ (Z.of_nat (S n)) ->
  exists d ds, digits_n b (S n) v = d :: ds /\ 0 < d.
Proof.
  intros Hb. revert v. induction n as [|n IH]; intros v Hv.
  - exists (v mod b), []. split; [done|]. change (b ^ Z.of_nat 0) with 1 in Hv. change (b ^ Z.of_nat 1) with (b ^ 1) in Hv.
    rewrite Z.pow_1_r in Hv. rewrite Z.mod_small by lia. lia.
  - destruct (IH (v / b)) as (d & ds & E & Hd).
    + rewrite !Nat2Z.inj_succ, !Z.pow_succ_r in Hv by lia. rewrite Nat2Z.inj_succ, Z.pow_succ_r by lia.
      split; [apply Z.div_le_lower_bound|apply Z.div_lt_upper_bound]; lia.
    + exists d, (ds ++ [v mod b]). split; [|done].
      change (digits_n b (S (S n)) v) with (digits_n b (S n) (v / b) ++ [v mod b]). by rewrite E.
Qed.

(** ** The printer *)

(** Both counting loops, with the base as an argument. *)
Fixpoint count (b : Z) (fuel : nat) (v i : Z) : outcome Z :=
  match fuel with
  | O => Fuel
  | S fuel => if v / b =? 0 then Done (i + 1) else count b fuel (v / b) (i + 1)
  end.

Lemma count_dec_eq fuel v i : count_dec fuel v i = count 10 fuel v i.
Proof. revert v i. induction fuel as [|fuel IH]; intros v i; [done|]. cbn. by rewrite IH. Qed.

Lemma count_hex_eq fuel v i : count_hex fuel v i = count 16 fuel v i.
Proof.
  revert v i. induction fuel as [|fuel IH]; intros v i; [done|]. cbn -[Z.shiftr Z.div].
  rewrite IH, Z.shiftr_div_pow2 by lia. done.
Qed.

Lemma count_digits b fuel v i :
  1 < b -> (0 < fuel)%nat -> 0 <= v < b ^ Z.of_nat fuel ->
  exists n, count b fuel v i = Done (i + Z.of_nat n) /\ digit_count b v n /\ (n <= fuel)%nat.
Proof.
  intros Hb. revert v i. induction fuel as [|fuel IH]; intros v i Hf Hv; [lia|]. cbn [count].
  assert (0 <= v / b) as Hp by (apply Z.div_pos; lia).
  rewrite Nat2Z.inj_succ, Z.pow_succ_r in Hv by lia.
  destruct (Z.eqb_spec (v / b) 0) as [E|E].
  - exists 1%nat. split_and!; [done| |lia]. split_and!; [lia| |by left].
    change (b ^ Z.of_nat 1) with (b ^ 1). rewrite Z.pow_1_r. apply Z.div_small_iff in E; lia.
  - assert (0 < fuel)%nat as Hf'.
    { destruct fuel; [|lia]. change (b ^ Z.of_nat 0) with 1 in Hv. destruct E. apply Z.div_small. lia. }
    destruct (IH (v / b) (i + 1) Hf') as (n & En & (H0 & H1 & H2) & Hn).
    { split; [done|]. apply Z.div_lt_upper_bound; lia. }
    exists (S n). rewrite En. split_and!; [f_equal; lia| |lia]. split_and!; [lia| |right].
    + rewrite Nat2Z.inj_succ, Z.pow_succ_r by lia.
      apply Z.lt_le_trans with (b * (v / b) + b); [|nia]. pose proof (Z.div_mod v b). pose proof (Z.mod_pos_bound v b). lia.
    + replace (Z.of_nat (S n) - 1) with (Z.of_nat n) by lia.
      pose proof (Z.mul_div_le v b). destruct H2 as [->|H2].
      * change (b ^ Z.of_nat 1) with (b ^ 1). rewrite Z.pow_1_r. nia.
      * replace (Z.of_nat n) with (Z.succ (Z.of_nat n - 1)) by lia. rewrite Z.pow_succ_r by lia. nia.
Qed.

(** The characters of the digits, upper case above nine. *)
Definition digit_char (d : Z) : Z := if d <? 10 then 48 + d else 55 + d.
Definition text_n (b : Z) (n : nat) (v : Z) : list Z := digit_char <$> digits_n b n v.

Lemma length_text b n v : length (text_n b n v) = n.
Proof. unfold text_n. by rewrite length_fmap, length_digits. Qed.

Lemma insert_place (n : nat) (c : Z) s :
  (S n <= length s)%nat -> drop n (<[n := c]> s) = c :: drop (S n) s.
Proof.
  intros Hn. rewrite <- (take_drop n s) at 1. rewrite insert_app_r_alt by (rewrite length_take; lia).
  rewrite length_take. replace (n - n `min` length s)%nat with 0%nat by lia.
  rewrite drop_app_ge by (rewrite length_take; lia). rewrite length_take.
  replace (n - n `min` length s)%nat with 0%nat by lia. rewrite drop_0.
  destruct (drop n s) as [|x t] eqn:E.
  - apply (f_equal length) in E. rewrite length_drop in E. cbn in E. lia.
  - cbn. f_equal. replace (S n) with (n + 1)%nat by lia. by rewrite <- drop_drop, E.
Qed.

Lemma wr_place (n : nat) (c : Z) s : (S n <= length s)%nat -> wr s (Z.of_nat n) c = Done (<[n := c]> s).
Proof.
  intros Hn. unfold wr, zlen. guard_true ((0 <=? Z.of_nat n) && (Z.of_nat n <? Z.of_nat (length s))).
  by rewrite Nat2Z.id.
Qed.

Lemma write_dec_text n v s :
  0 <= v -> (n <= length s)%nat -> write_dec n v s = Done (text_n 10 n v ++ drop n s).
Proof.
  revert v s. induction n as [|n IH]; intros v s Hv Hn; [done|]. cbn [write_dec].
  rewrite wr_place by done. cbn [obind].
  rewrite IH; [|by apply Z.div_pos|rewrite length_insert; lia].
  rewrite insert_place by done. unfold text_n. cbn [digits_n]. rewrite fmap_app, <- app_assoc.
  do 2 f_equal. cbn [fmap list_fmap app]. f_equal. pose proof (Z.mod_pos_bound v 10). unfold digit_char.
  by guard_true (v mod 10 <? 10).
Qed.

Lemma write_hex_text n v s :
  0 <= v -> (n <= length s)%nat -> write_hex n v s = Done (text_n 16 n v ++ drop n s).
Proof.
  revert v s. induction n as [|n IH]; intros v s Hv Hn; [done|]. cbn [write_hex].
  rewrite Z.shiftr_div_pow2 by lia. assert (Z.land v 15 = v mod 16) as -> by (change 15 with (Z.ones 4); by rewrite Z.land_ones).
  rewrite wr_place by done. cbn [obind]. change (2 ^ 4) with 16.
  rewrite IH; [|by apply Z.div_pos|rewrite length_insert; lia].
  rewrite insert_place by done. unfold text_n. cbn [digits_n]. rewrite fmap_app, <- app_assoc.
  do 2 f_equal. cbn [fmap list_fmap app]. f_equal. unfold digit_char.
  destruct (Z.ltb_spec 57 (48 + v mod 16)), (Z.ltb_spec (v mod 16) 10); lia.
Qed.

(** What the printer leaves in a buffer of at least eleven bytes: the digits, their
    NUL, and the rest of the buffer as it was. *)
Lemma IU32toa_text v s radix :
  u32_ok v -> 11 <= zlen s ->
  let b := if radix =? 16 then 16 else 10 in
  exists n, MMIDM_IU32toa v (Some s) radix = Done (Some (text_n b n v ++ 0 :: drop (S n) s)) /\
            digit_count b v n /\ (n <= 10)%nat.
Proof.
  intros Hv Hs b. unfold u32_ok in Hv. unfold zlen in Hs.
  assert (exists n, count b 11 v 0 = Done (0 + Z.of_nat n) /\ digit_count b v n /\ (n <= 11)%nat)
    as (n & En & Hc & _).
  { apply count_digits; [subst b; cif; lia|lia|subst b; cif; cbn; lia]. }
  assert (n <= 10)%nat as Hn.
  { destruct Hc as (_ & _ & [->|H]); [lia|]. destruct (Nat.le_gt_cases n 10) as [|Hg]; [done|exfalso].
    assert (10 ^ 10 <= b ^ (Z.of_nat n - 1)); [|lia].
    transitivity (b ^ 10); [apply Z.pow_le_mono_l|apply Z.pow_le_mono_r]; subst b; try cif; lia. }
  exists n. split_and!; [|done|done]. unfold MMIDM_IU32toa. subst b. rewrite count_hex_eq, count_dec_eq.
  destruct (radix =? 16); rewrite En; cbn [obind]; rewrite Z.add_0_l, wr_place by lia; cbn [obind]; rewrite Nat2Z.id.
  - rewrite write_hex_text by (rewrite ?length_insert; lia). cbn [obind]. by rewrite insert_place by lia.
  - rewrite write_dec_text by (rewrite ?length_insert; lia). cbn [obind]. by rewrite insert_place by lia.
Qed.

(** ** The reader *)

Definition value_from (b a : Z) (ds : list Z) : Z := fold_left (fun a d => a * b + d) ds a.

Lemma value_from_ge b a ds : 1 < b -> 0 <= a -> Forall (fun d => 0 <= d) ds -> a <= value_from b a ds.
Proof.
  intros Hb. revert a. induction ds as [|d ds IH]; intros a Ha Hd; cbn; [lia|].
  apply Forall_cons in Hd as [Hd Hds]. specialize (IH (a * b + d)). unfold value_from in *. etransitivity; [|apply IH; [nia|done]]. nia.
Qed.

Definition is_digit (c : Z) : bool := (48 <=? c) && (c <=? 57).

Lemma s16_id x : 0 <= x < 2 ^ 15 -> s16 x = x.
Proof. intros H. unfold s16, u16, wrap. rewrite Z.mod_small by lia. by guard_true (x <? 2 ^ 15). Qed.

(** The loop on the characters [cs] before a NUL: it reaches the NUL exactly when
    they are digits of a number of 32 bits. *)
Lemma dec_loop_spec cs rest a k :
  0 <= a < 2 ^ 32 -> 0 <= k -> k + zlen cs < 2 ^ 15 -> Forall (fun c => c <> 0) cs ->
  exists x d c, dec_loop (cs ++ 0 :: rest) a k = Done (x, d, c) /\ 0 <= x < 2 ^ 32 /\ k <= d /\
    (c = 0 -> forallb is_digit cs = true /\ x = value_from 10 a ((fun c => c - 48) <$> cs) /\ d = k + zlen cs) /\
    (c <> 0 -> forallb is_digit cs = false \/ 2 ^ 32 <= value_from 10 a ((fun c => c - 48) <$> cs)).
Proof.
  revert a k. induction cs as [|c cs IH]; intros a k Ha Hk Hl Hz.
  - exists a, k, 0. cbn. split_and!; try done; try lia. intros _. split_and!; try done. unfold zlen. cbn. lia.
  - apply Forall_cons in Hz as [Hc Hz]. cbn [app dec_loop].
    assert (zlen (c :: cs) = 1 + zlen cs) as El by (unfold zlen; cbn; lia).
    assert (0 <= zlen cs) by (unfold zlen; lia).
    fold (is_digit c). destruct (is_digit c) eqn:Ed.
    2:{ exists a, k, c. split_and!; try done; try lia. intros _. left. cbn. by rewrite Ed. }
    assert (48 <= c <= 57) as Hd by (unfold is_digit in Ed; btrue; lia).
    destruct ((MAX_IU32_DIV_TEN <? a) || ((a =? MAX_IU32_DIV_TEN) && (48 + MAX_IU32_MOD_TEN <? c))) eqn:Eo.
    + exists a, k, c. split_and!; try done; try lia. intros _.
      destruct (forallb is_digit cs) eqn:Ef; [right|left; cbn; by rewrite Ed, Ef].
      cbn [fmap list_fmap]. change (value_from 10 a (c - 48 :: ?l)) with (value_from 10 (a * 10 + (c - 48)) l).
      transitivity (a * 10 + (c - 48)).
      * change MAX_IU32_DIV_TEN with 429496729 in Eo. change MAX_IU32_MOD_TEN with 5 in Eo.
        btrue. destruct Eo as [E|E]; btrue; lia.
      * apply value_from_ge; [lia|lia|]. apply Forall_fmap. apply Forall_forall. intros x Hx. cbn.
        rewrite List.forallb_forall in Ef. apply list_elem_of_In in Hx. specialize (Ef x Hx).
        unfold is_digit in Ef. btrue. lia.
    + change MAX_IU32_DIV_TEN with 429496729 in Eo. change MAX_IU32_MOD_TEN with 5 in Eo. btrue.
      assert (0 <= a * 10 + (c - 48) < 2 ^ 32) as Hr by (destruct H1; btrue; lia).
      assert (u32 (u32 (a * 10) + (c - 48)) = a * 10 + (c - 48)) as Eu.
      { unfold u32, wrap. rewrite (Z.mod_small (a * 10)) by lia. by apply Z.mod_small. }
      rewrite Eu, s16_id by lia.
      destruct (IH (a * 10 + (c - 48)) (k + 1)) as (x & d & c' & E & Hx & Hd' & Hy & Hn); [lia..|done|].
      exists x, d, c'. split_and!; [done|lia|lia|lia| |].
      * intros E0. destruct (Hy E0) as (H3 & H4 & H5). cbn. rewrite Ed, H3. split_and!; [done|done|lia].
      * intros E0. cbn. rewrite Ed. by apply Hn.
Qed.

Definition is_hex (c : Z) : bool := match hex_digit c with Some _ => true | None => false end.
Definition hex_val (c : Z) : Z := default 0 (hex_digit c).

Lemma hex_digit_range c d : hex_digit c = Some d -> 0 <= d < 16.
Proof. unfold hex_digit. repeat cif; intros [= <-]; lia. Qed.

Lemma hex_shift a d : 0 <= a -> a < 2 ^ 28 -> 0 <= d < 16 -> Z.lor (u32 (Z.shiftl a 4)) d = a * 16 + d.
Proof.
  intros Ha Hl Hd. rewrite Z.shiftl_mul_pow2 by lia. unfold u32, wrap. rewrite Z.mod_small by lia.
  rewrite Z.lor_comm, lor_disjoint by lia. lia.
Qed.

(** The loop on the characters before a NUL: it reaches the NUL with a number of at
    most eight digits exactly when they are that many hexadecimal digits. *)
Lemma hex_loop_spec cs rest a k :
  0 <= k <= 9 -> (k <= 8 -> 0 <= a < 16 ^ k) -> Forall (fun c => c <> 0) cs ->
  exists x d c, hex_loop (cs ++ 0 :: rest) a k = Done (x, d, c) /\ k <= d /\
    (c = 0 -> forallb is_hex cs = true /\ d = k + zlen cs /\
              (d <= 8 -> x = value_from 16 a (hex_val <$> cs))) /\
    (c <> 0 -> forallb is_hex cs = false \/ 9 <= k + zlen cs).
Proof.
  revert a k. induction cs as [|c cs IH]; intros a k Hk Ha Hz.
  - exists a, k, 0. cbn. split_and!; try done; try lia. unfold zlen. cbn. intros _. split_and!; [done|lia|done].
  - apply Forall_cons in Hz as [Hc Hz]. cbn [app hex_loop]. guard_false (c =? 0).
    assert (zlen (c :: cs) = 1 + zlen cs) as El by (unfold zlen; cbn; lia).
    assert (0 <= zlen cs) by (unfold zlen; lia).
    destruct (hex_digit c) as [d|] eqn:Ed.
    2:{ exists a, k, c. split_and!; try done; try lia. intros _. left. cbn. unfold is_hex. by rewrite Ed. }
    rewrite s16_id by lia. destruct (Z.ltb_spec 8 k) as [H8|H8].
    { exists (Z.lor (u32 (Z.shiftl a 4)) d), (k + 1), c. split_and!; try done; try lia. }
    assert (is_hex c = true /\ hex_val c = d) as [Eh Ev] by (unfold is_hex, hex_val; by rewrite Ed).
    destruct (IH (Z.lor (u32 (Z.shiftl a 4)) d) (k + 1)) as (x & d' & c' & E & Hd & Hy & Hn); [lia| |done|].
    { intros H7. rewrite hex_shift; [|lia| |by eapply hex_digit_range].
      - pose proof (hex_digit_range _ _ Ed). rewrite Z.pow_add_r by lia. lia.
      - apply Z.lt_le_trans with (16 ^ k); [lia|]. change (2 ^ 28) with (16 ^ 7). apply Z.pow_le_mono_r; lia. }
    exists x, d', c'. split_and!; [done|lia| |].
    + intros E0. destruct (Hy E0) as (H3 & H4 & H5). cbn. rewrite Eh, H3, Ev. split_and!; [done|lia|].
      intros H9. rewrite (H5 H9), hex_shift; [done|lia| |by eapply hex_digit_range].
      apply Z.lt_le_trans with (16 ^ k); [lia|]. change (2 ^ 28) with (16 ^ 7). apply Z.pow_le_mono_r; lia.
    + intros E0. cbn. rewrite Eh. destruct (Hn E0) as [->|]; [by left|right; lia].
Qed.

Definition has_0x (cs : list Z) : bool :=
  match cs with c0 :: c1 :: _ => (c0 =? 48) && ((c1 =? 120) || (c1 =? 88)) | _ => false end.

(** What the reader is to accept. *)
Definition numeral (radix : Z) (cs : list Z) : option Z :=
  if radix =? 10 then
    let v := number 10 ((fun c => c - 48) <$> cs) in
    if (0 <? zlen cs) && forallb is_digit cs && (v <? 2 ^ 32) then Some v else None
  else
    let cs := if has_0x cs then drop 2 cs else cs in
    if (0 <? zlen cs) && (zlen cs <=? 8) && forallb is_hex cs then Some (number 16 (hex_val <$> cs)) else None.

Lemma skip_0x_text cs rest :
  Forall (fun c => c <> 0) cs ->
  skip_0x (cs ++ 0 :: rest) = Done ((if has_0x cs then drop 2 cs else cs) ++ 0 :: rest).
Proof.
  intros Hz. unfold skip_0x, rd. change (Z.to_nat 0) with 0%nat. change (Z.to_nat 1) with 1%nat.
  destruct cs as [|c0 [|c1 cs]]; cbn; [done|by destruct (c0 =? 48); cbn|].
  destruct (c0 =? 48); cbn; [|done]. by destruct ((c1 =? 120) || (c1 =? 88)).
Qed.

(** What the reader returns for the characters before a NUL. *)
Lemma atoIU32_numeral cs rest radix :
  Forall (fun c => c <> 0) cs -> zlen cs < 2 ^ 15 ->
  exists x, MMIDM_atoIU32 (Some (cs ++ 0 :: rest)) radix = Done (x, Some (bool_decide (is_Some (numeral radix cs)))) /\
            forall v, numeral radix cs = Some v -> x = v.
Proof.
  intros Hz Hl. unfold MMIDM_atoIU32, numeral. destruct (radix =? 10) eqn:E10.
  - destruct (dec_loop_spec cs rest 0 0) as (x & d & c & -> & Hx & Hd & Hy & Hn); [lia..|done|].
    exists x. cbn [obind]. destruct (Z.eqb_spec c 0) as [Ec|Ec]; cbn [andb].
    + destruct (Hy Ec) as (-> & -> & ->). rewrite Z.add_0_l, andb_true_r.
      change (value_from 10 0) with (number 10) in *. 
      guard_true (number 10 ((fun c => c - 48) <$> cs) <? 2 ^ 32). rewrite andb_true_r.
      destruct (0 <? zlen cs); split; try done. by intros v [= <-].
    + destruct (Hn Ec) as [->|Hv].
      * rewrite andb_false_r. done.
      * change (value_from 10 0) with (number 10) in *.
        guard_false (number 10 ((fun c => c - 48) <$> cs) <? 2 ^ 32). by rewrite andb_false_r.
  - rewrite skip_0x_text by done. cbn [obind]. set (hs := if has_0x cs then drop 2 cs else cs).
    assert (Forall (fun c => c <> 0) hs) as Hz' by (subst hs; destruct (has_0x cs); [by apply Forall_drop|done]).
    destruct (hex_loop_spec hs rest 0 0) as (x & d & c & -> & Hd & Hy & Hn); [lia|lia|done|].
    exists x. cbn [obind]. destruct (Z.eqb_spec c 0) as [Ec|Ec].
    + destruct (Hy Ec) as (-> & -> & Hx). rewrite Z.add_0_l, !andb_true_r in *.
      replace (zlen hs <? 9) with (zlen hs <=? 8) by (destruct (Z.leb_spec (zlen hs) 8), (Z.ltb_spec (zlen hs) 9); lia).
      destruct ((0 <? zlen hs) && (zlen hs <=? 8)) eqn:E; split; try done. btrue. intros v [= <-]. by apply Hx.
    + rewrite andb_false_r. destruct (Hn Ec) as [->|Hv]; [by rewrite andb_false_r|].
      guard_false (zlen hs <=? 8). by rewrite andb_false_r.
Qed.

Lemma fmap_id_on (f : Z -> Z) l : Forall (fun x => f x = x) l -> f <$> l = l.
Proof. intros H. rewrite <- (list_fmap_id l) at 2. by apply Forall_fmap_ext_1. Qed.

Lemma digit_char_hex d : 0 <= d < 16 -> hex_digit (digit_char d) = Some d.
Proof.
  intros Hd. unfold digit_char, hex_digit. destruct (Z.ltb_spec d 10).
  - guard_true ((48 <=? 48 + d) && (48 + d <=? 57)). f_equal. lia.
  - guard_false ((48 <=? 55 + d) && (55 + d <=? 57)). guard_true ((65 <=? 55 + d) && (55 + d <=? 70)). f_equal. lia.
Qed.

(** Printed text is read back digit by digit. *)
Lemma text_chars b n v :
  b = 10 \/ b = 16 ->
  Forall (fun c => 48 <= c < 48 + b + 7) (text_n b n v) /\ forallb is_hex (text_n b n v) = true /\
  hex_val <$> text_n b n v = digits_n b n v.
Proof.
  intros Hb. assert (Forall (fun d => 0 <= d < b) (digits_n b n v)) as Hr' by (apply digits_range; lia).
  assert (Forall (fun d => 0 <= d < 16) (digits_n b n v)) as Hr.
  { eapply Forall_impl; [exact Hr'|]. intros d Hd. cbn in *. lia. }
  unfold text_n. split_and!.
  - apply Forall_fmap. eapply Forall_impl; [exact Hr'|]. intros d Hd. cbn in *. unfold digit_char. cif; lia.
  - apply List.forallb_forall. intros c Hc. apply list_elem_of_In, list_elem_of_fmap in Hc as (d & -> & Hd).
    rewrite Forall_forall in Hr. unfold is_hex. by rewrite digit_char_hex by (by apply Hr).
  - rewrite <- list_fmap_compose. apply fmap_id_on. eapply Forall_impl; [exact Hr|].
    intros d Hd. cbn. unfold hex_val. by rewrite digit_char_hex.
Qed.

Lemma text_no_0x b n v : b = 10 \/ b = 16 -> has_0x (text_n b n v) = false.
Proof.
  intros Hb. destruct (text_chars b n v Hb) as (Hr & _). destruct (text_n b n v) as [|c0 [|c1 t]]; try done.
  apply Forall_cons in Hr as [_ Hr]. apply Forall_cons in Hr as [Hr _]. cbn.
  guard_false (c1 =? 120). 
  replace ((c1 =? 88)) with false by (symmetry; apply Z.eqb_neq; lia). by rewrite andb_false_r.
Qed.

Lemma text_digits n v :
  forallb is_digit (text_n 10 n v) = true /\ (fun c => c - 48) <$> text_n 10 n v = digits_n 10 n v.
Proof.
  assert (Forall (fun d => 0 <= d < 10) (digits_n 10 n v)) as Hr by (apply digits_range; lia). unfold text_n. split.
  - apply List.forallb_forall. intros c Hc. apply list_elem_of_In, list_elem_of_fmap in Hc as (d & -> & Hd).
    rewrite Forall_forall in Hr. specialize (Hr d Hd). unfold is_digit, digit_char. guard_true (d <? 10).
    apply andb_true_iff. lia.
  - rewrite <- list_fmap_compose. apply fmap_id_on. eapply Forall_impl; [exact Hr|].
    intros d Hd. cbn in *. unfold digit_char. guard_true (d <? 10). lia.
Qed.

(** The printed text is the numeral of the value, in the radix it was printed in. *)
Lemma numeral_text b n v :
  b = 10 \/ b = 16 -> u32_ok v -> digit_count b v n -> numeral b (text_n b n v) = Some v.
Proof.
  intros Hb Hv (H0 & H1 & H2). unfold u32_ok in Hv. unfold numeral. rewrite text_no_0x by done. unfold zlen.
  rewrite length_text. assert (number b (digits_n b n v) = v) as Ev by (apply number_digits; lia).
  destruct Hb as [->| ->]; cbn [Z.eqb Pos.eqb].
  - destruct (text_digits n v) as [-> ->]. rewrite Ev. guard_true (v <? 2 ^ 32). by guard_true (0 <? Z.of_nat n).
  - destruct (text_chars 16 n v) as (_ & -> & ->); [by right|]. rewrite Ev. guard_true (0 <? Z.of_nat n).
    assert (Z.of_nat n <= 8); [|by guard_true (Z.of_nat n <=? 8)].
    destruct H2 as [->|H2]; [done|]. apply Z.nlt_ge. intros Hn.
    assert (16 ^ 8 <= 16 ^ (Z.of_nat n - 1)) by (apply Z.pow_le_mono_r; lia). lia.
Qed.

Lemma text_nonzero b n v : b = 10 \/ b = 16 -> Forall (fun c => c <> 0) (text_n b n v).
Proof. intros Hb. destruct (text_chars b n v Hb) as (Hr & _). eapply Forall_impl; [exact Hr|]. cbn. lia. Qed.

(** ** The properties *)

(** C36. Printing and reading: every 32-bit number printed into a buffer of at least
    eleven bytes is written inside the buffer with its NUL, without leading zeros,
    leaves the bytes behind the NUL as they were, and is read back by the reader
    in the radix that was printed (sixteen for radix 16, ten for every other). *)
Theorem number_roundtrip v buf radix :
  u32_ok v -> 11 <= zlen buf ->
  exists txt, MMIDM_IU32toa v (Some buf) radix = Done (Some (txt ++ 0 :: drop (S (length txt)) buf)) /\
    (txt = [48] \/ exists c t, txt = c :: t /\ c <> 48) /\
    MMIDM_atoIU32 (Some (txt ++ 0 :: drop (S (length txt)) buf)) (if radix =? 16 then 16 else 10) = Done (v, Some true).
Proof.
  intros Hv Hb. destruct (IU32toa_text v buf radix Hv Hb) as (n & E & Hc & Hn).
  set (b := if radix =? 16 then 16 else 10) in *. assert (b = 10 \/ b = 16) as Hb' by (subst b; cif; lia).
  exists (text_n b n v). rewrite length_text. split_and!; [exact E| |].
  - destruct Hc as (H0 & H1 & H2). destruct n as [|n]; [lia|]. unfold u32_ok in Hv.
    destruct (decide (b ^ Z.of_nat n <= v)) as [Hl|Hl].
    + right. destruct (digits_head b n v) as (d & ds & Ed & Hd); [lia|lia|].
      unfold text_n. rewrite Ed. exists (digit_char d), (digit_char <$> ds). split; [done|].
      unfold digit_char. cif; lia.
    + left. destruct H2 as [[= ->]|H2]; [|replace (Z.of_nat (S n) - 1) with (Z.of_nat n) in H2 by lia; lia].
      change (b ^ Z.of_nat 0) with 1 in Hl. unfold text_n. by replace v with 0 by lia.
  - destruct (atoIU32_numeral (text_n b n v) (drop (S n) buf) b) as (x & -> & Hx).
    + by apply text_nonzero.
    + unfold zlen. rewrite length_text. lia.
    + rewrite (numeral_text b n v) in * by done. by rewrite (Hx v).
Qed.

Theorem number_roundtrip_witness :
  u32_ok 4294967295 /\
  exists txt, MMIDM_IU32toa 4294967295 (Some (replicate 11 7)) 10 = Done (Some (txt ++ 0 :: drop (S (length txt)) (replicate 11 7))) /\
    (txt = [48] \/ exists c t, txt = c :: t /\ c <> 48) /\
    MMIDM_atoIU32 (Some (txt ++ 0 :: drop (S (length txt)) (replicate 11 7))) 10 = Done (4294967295, Some true).
Proof. split; [unfold u32_ok; lia|]. apply (number_roundtrip 4294967295 (replicate 11 7) 10); [unfold u32_ok; lia|by vm_compute]. Defined.

(** The reader: it stores TRUE exactly for the numerals it is to accept, a nonempty
    string of decimal digits whose value fits in 32 bits, or one to eight
    hexadecimal digits after an optional 0x, and returns their value; it reads no
    byte behind the NUL. *)
Theorem atoIU32_exact cs rest radix :
  Forall (fun c => c <> 0) cs -> zlen cs < 2 ^ 15 ->
  exists x ok, MMIDM_atoIU32 (Some (cs ++ 0 :: rest)) radix = Done (x, Some ok) /\
    (ok = true <-> exists v, numeral radix cs = Some v) /\ (forall v, numeral radix cs = Some v -> x = v).
Proof.
  intros Hz Hl. destruct (atoIU32_numeral cs rest radix Hz Hl) as (x & E & Hx).
  eexists x, _. split_and!; [exact E| |exact Hx]. by rewrite bool_decide_eq_true.
Qed.

Theorem atoIU32_exact_witness :
  zlen (bytes_of "4294967296") < 2 ^ 15 /\
  exists x ok, MMIDM_atoIU32 (Some (bytes_of "4294967296" ++ [0])) 10 = Done (x, Some ok) /\
    (ok = true <-> exists v, numeral 10 (bytes_of "4294967296") = Some v) /\
    (forall v, numeral 10 (bytes_of "4294967296") = Some v -> x = v).
Proof.
  split; [by vm_compute|]. apply (atoIU32_exact (bytes_of "4294967296") [] 10); [|by vm_compute].
  vm_compute. repeat constructor; discriminate.
Defined.

Lemma value_from_base a a' ds :
  0 <= a' < a -> Forall (fun d => 0 <= d) ds -> value_from 10 a' ds < value_from 16 a ds.
Proof.
  revert a a'. induction ds as [|d ds IH]; intros a a' Ha Hd; [cbn; lia|].
  apply Forall_cons in Hd as [Hd Hds]. apply IH; [lia|done].
Qed.

(** Radix 32: the printer prints decimal digits and the reader reads hexadecimal
    ones, so a number printed and read with radix 32, as the message numbers of a
    session are, comes back as itself exactly when it has one digit. *)
Theorem radix_32_mismatch v buf :
  u32_ok v -> 11 <= zlen buf ->
  exists s x ok, MMIDM_IU32toa v (Some buf) 32 = Done (Some s) /\ MMIDM_atoIU32 (Some s) 32 = Done (x, Some ok) /\
    (ok = true /\ x = v <-> v < 10).
Proof.
  intros Hv Hb. destruct (IU32toa_text v buf 32 Hv Hb) as (n & E & Hc & Hn). cbn [Z.eqb Pos.eqb] in *.
  destruct (atoIU32_numeral (text_n 10 n v) (drop (S n) buf) 32) as (x & Er & Hx).
  { apply text_nonzero. by left. } { unfold zlen. rewrite length_text. lia. }
  eexists _, x, _. split_and!; [exact E|exact Er|]. rewrite bool_decide_eq_true.
  destruct (text_chars 10 n v) as (_ & Eh & Ev); [by left|]. revert Hx. unfold numeral. cbn [Z.eqb Pos.eqb].
  rewrite text_no_0x by (by left). rewrite Eh, Ev, andb_true_r. unfold zlen. rewrite length_text.
  destruct Hc as (H0 & H1 & H2). unfold u32_ok in Hv. intros Hx. split.
  - intros [Hs ->]. destruct ((0 <? Z.of_nat n) && (Z.of_nat n <=? 8)) eqn:El; [|by destruct Hs].
    specialize (Hx _ eq_refl). apply Z.nle_gt. intros H10. destruct n as [|n]; [lia|].
    assert (10 ^ Z.of_nat n <= v) as Hp.
    { destruct H2 as [[= ->]|H2]; [change (10 ^ Z.of_nat 0) with 1; lia|].
      by replace (Z.of_nat (S n) - 1) with (Z.of_nat n) in H2 by lia. }
    destruct n as [|n]; [cbn in H1; lia|].
    destruct (digits_head 10 (S n) v) as (d & ds & Ed & Hd); [lia|lia|].
    pose proof (length_digits 10 (S (S n)) v) as Hlen. pose proof (digits_range 10 (S (S n)) v ltac:(lia)) as Hr.
    pose proof (number_digits 10 (S (S n)) v ltac:(lia) ltac:(lia)) as Hnum. rewrite Ed in *.
    destruct ds as [|d2 ds]; [cbn in Hlen; lia|].
    apply Forall_cons in Hr as [_ Hr]. apply Forall_cons in Hr as [Hr2 Hr].
    change (value_from 10 (d * 10 + d2) ds = v) in Hnum. change (v = value_from 16 (d * 16 + d2) ds) in Hx.
    enough (value_from 10 (d * 10 + d2) ds < value_from 16 (d * 16 + d2) ds) by lia.
    apply value_from_base; [lia|]. eapply Forall_impl; [exact Hr|]. cbn. lia.
  - intros H10. assert (n = 1%nat) as ->.
    { destruct H2 as [|H2]; [done|]. destruct (decide (n = 1%nat)); [done|].
      assert (10 ^ 1 <= 10 ^ (Z.of_nat n - 1)) by (apply Z.pow_le_mono_r; lia). lia. }
    cbn -[Z.modulo] in *. split; [done|]. apply Hx. f_equal. unfold number. cbn -[Z.modulo]. rewrite Z.mod_small; lia.
Qed.

Theorem radix_32_mismatch_witness :
  11 <= zlen (replicate 11 7) /\
  exists s x ok, MMIDM_IU32toa 10 (Some (replicate 11 7)) 32 = Done (Some s) /\ MMIDM_atoIU32 (Some s) 32 = Done (x, Some ok) /\
    (ok = true /\ x = 10 <-> 10 < 10).
Proof. split; [by vm_compute|]. apply (radix_32_mismatch 10 (replicate 11 7)); [unfold u32_ok; lia|by vm_compute]. Defined.
