(* ===== verification/JpegStream.v ===== *)
(** * libs/libcamera/jpeg/jpeg_fw_8830: the byte stream of the header parser

    jpegdec_bitstream.c and jpegdec_malloc.c.  The parser reads bytes from a buffer,
    which a callback of the caller refills when there is one, and takes its tables
    from a pool that was cleared when parsing began.  A parser returns a value, or
    fails as the code does with [JPEG_FAILED], and keeps the state in both cases. *)

From S2P Require Import Prelude JpegCodec.

(** ** State *)

(** The members of [JPEG_DEC_INPUT_PARA_T] that parsing sets. *)
Record input := mk_input {
  progressive_mode : bool;
  input_height : Z;
  input_width : Z;
  input_mcu_info : mcu_format;
  quant_level : quality;
  header_len : Z
}.

(** Everything but the stream: the codec, the caller's structure, the pool
    ([s_extra_mem_size], [s_used_extra_mem]) and [g_huff_tbl_malloced]. *)
Record core := mk_core {
  codec : JPEG_CODEC_T;
  inp : input;
  s_extra_mem_size : Z;
  s_used_extra_mem : Z;
  g_huff_tbl_malloced : bool
}.

Definition set_codec (c : JPEG_CODEC_T) (k : core) : core :=
  mk_core c (inp k) (s_extra_mem_size k) (s_used_extra_mem k) (g_huff_tbl_malloced k).
Definition set_inp (i : input) (k : core) : core :=
  mk_core (codec k) i (s_extra_mem_size k) (s_used_extra_mem k) (g_huff_tbl_malloced k).
Definition set_used (u : Z) (k : core) : core :=
  mk_core (codec k) (inp k) (s_extra_mem_size k) u (g_huff_tbl_malloced k).
Definition set_malloced (b : bool) (k : core) : core :=
  mk_core (codec k) (inp k) (s_extra_mem_size k) (s_used_extra_mem k) b.

(** The static variables of jpegdec_bitstream.c; [s_inter_buf_ptr] is an offset into
    the buffer. *)
Record stream := mk_stream {
  s_inter_buf_bitstream : list Z;
  s_inter_buf_bitstream_len : Z;
  s_inter_buf_ptr : Z;
  s_jremain_byte_num : Z;
  s_header_len : Z;
  s_file_offset : Z
}.

(** ** Parsers *)
Definition parser (A : Type) : Type := stream -> core -> outcome (option A * stream * core).

Definition pret {A} (a : A) : parser A := fun s k => Done (Some a, s, k).
Definition pfail {A} : parser A := fun s k => Done (None, s, k).
Definition pbind {A B} (m : parser A) (f : A -> parser B) : parser B := fun s k =>
  let* (r, s, k) := m s k in
  match r with Some a => f a s k | None => Done (None, s, k) end.
Definition plift {A} (o : outcome A) : parser A := fun s k => let* a := o in Done (Some a, s, k).
Definition pget {A} (f : core -> A) : parser A := fun s k => Done (Some (f k), s, k).
Definition pupd (f : core -> core) : parser unit := fun s k => Done (Some tt, s, f k).

(** The outcome of a call that the caller inspects. *)
Definition ptry {A} (m : parser A) : parser (option A) := fun s k =>
  let* (r, s, k) := m s k in Done (Some r, s, k).

Declare Scope jpeg_scope.
Delimit Scope jpeg_scope with jpeg.
Notation "'let?' p ':=' m 'in' k" := (pbind m (fun p => k))
  (at level 10, p pattern, m at level 100, k at level 200) : jpeg_scope.
Notation "m ';;;' k" := (pbind m (fun _ : unit => k)) (at level 90, right associativity) : jpeg_scope.
#[global] Open Scope jpeg_scope.

Definition pcodec (f : JPEG_CODEC_T -> JPEG_CODEC_T) : parser unit := pupd (fun k => set_codec (f (codec k)) k).

(** ** The pool *)

(** [JpegDec_ExtraMemAlloc].  The assertions are compiled out; a block that does not
    fit reaches past the pool and is taken as undefined.  The pool is cleared, so
    the users below start from zero bytes. *)
Definition JpegDec_ExtraMemAlloc (mem_size : Z) : parser unit := fun s k =>
  let mem_size := Z.land (u32 (mem_size + 3)) (2 ^ 32 - 4) in
  if s_extra_mem_size k - s_used_extra_mem k <? mem_size then Undef
  else Done (Some tt, s, set_used (s_used_extra_mem k + mem_size) k).

(** [JpegDec_InitMem] on a buffer at an address; without one, or with less than four bytes,
    the code keeps the pool of an earlier picture, which is not modelled. *)
Definition JpegDec_InitMem (dec_buf : option (Z * Z)) (k : core) : outcome core :=
  match dec_buf with
  | None => Undef
  | Some (buf_ptr, buf_size) =>
      if (buf_ptr =? 0) || (buf_size <? 4) then Undef
      else
        let addr := Z.shiftl (Z.shiftr (u32 (buf_ptr + 3)) 2) 2 in
        let diff := u32 (addr - buf_ptr) in
        Done (mk_core (codec k) (inp k) (u32 (buf_size - diff)) 0 (g_huff_tbl_malloced k))
  end.

(** ** Reading bytes *)

(** The callback is asked for a buffer of bytes at the current file offset. *)
Definition refill (rd : Z -> Z -> list Z) (s : stream) : outcome stream :=
  let got := rd (s_file_offset s) (s_inter_buf_bitstream_len s) in
  let* buf := splice (s_inter_buf_bitstream s) 0 got in
  Done (mk_stream buf (s_inter_buf_bitstream_len s) 0 (zlen got) (s_header_len s) (u32 (s_file_offset s + zlen got))).

Definition get_char : parser Z := fun s k =>
  let* s :=
    if s_jremain_byte_num s =? 0 then
      match read (codec k) with Some rd => refill rd s | None => Done s end
    else Done s in
  if 0 <? s_jremain_byte_num s then
    let* v := rd (s_inter_buf_bitstream s) (s_inter_buf_ptr s) in
    Done (Some v,
      mk_stream (s_inter_buf_bitstream s) (s_inter_buf_bitstream_len s) (s_inter_buf_ptr s + 1)
        (s_jremain_byte_num s - 1) (u32 (s_header_len s + 1)) (s_file_offset s), k)
  else Done (None, s, k).

Definition get_short_word : parser Z :=
  let? value0 := get_char in
  let? value1 := get_char in
  pret (Z.lor (Z.shiftl value0 8) value1).

Definition skip_n_byte (n : Z) : parser unit := fun s k =>
  if n <=? s_jremain_byte_num s then
    Done (Some tt,
      mk_stream (s_inter_buf_bitstream s) (s_inter_buf_bitstream_len s) (s_inter_buf_ptr s + n)
        (s_jremain_byte_num s - n) (s_header_len s) (s_file_offset s), k)
  else Done (None, s, k).

(** The bytes 'S', 'J', 'P', 'G'; a byte is read when those before it match. *)
Fixpoint starts_with (id : list Z) (s : stream) (at_ : Z) : outcome bool :=
  match id with
  | [] => Done true
  | c :: id =>
      let* b := rd (s_inter_buf_bitstream s) at_ in
      if c =? b then starts_with id s (at_ + 1) else Done false
  end.

Definition is_res_jpg_file (s : stream) : outcome bool := starts_with [83; 74; 80; 71] s (s_inter_buf_ptr s).

(** The loop of [get_header_len]: [n] bytes from [ptr] on. *)
Fixpoint stuffed (n : nat) (ptr : Z) (s : stream) (len : Z) : outcome Z :=
  match n with
  | O => Done len
  | S n =>
      let* b := rd (s_inter_buf_bitstream s) ptr in
      let* len :=
        if b =? 0xff then
          let* b1 := rd (s_inter_buf_bitstream s) (ptr + 1) in
          Done (if b1 =? 0 then u32 (len - 1) else len)
        else Done len in
      stuffed n (ptr + 1) s len
  end.

Definition get_header_len (s : stream) : outcome (Z * stream) :=
  let wordAlign_len := Z.shiftl (Z.shiftr (s_header_len s) 2) 2 in
  let unligned_byte := s_header_len s - wordAlign_len in
  let* len :=
    if 1 <? unligned_byte
    then stuffed (Z.to_nat unligned_byte) (s_inter_buf_ptr s - unligned_byte) s (s_header_len s)
    else Done (s_header_len s) in
  Done (len, mk_stream (s_inter_buf_bitstream s) (s_inter_buf_bitstream_len s) (s_inter_buf_ptr s)
               (s_jremain_byte_num s) len (s_file_offset s)).

(** [JpegDec_InitBitream]: the caller's buffer, or one of three kilobytes from the pool
    that the callback fills. *)
Definition JpegDec_InitBitream (read_bitstream : option (Z -> Z -> list Z)) (bitstream : list Z) (bitstream_len : Z)
    (k : core) : outcome (stream * core) :=
  match read_bitstream with
  | None => Done (mk_stream bitstream bitstream_len 0 bitstream_len 0 0, k)
  | Some rd =>
      let len := 3 * 1024 in
      let s := mk_stream (replicate (Z.to_nat len) 0) len 0 len 0 0 in
      let* (_, s, k) := JpegDec_ExtraMemAlloc len s k in
      let k := set_codec (set_read (Some rd) (codec k)) k in
      let* s := refill rd s in
      Done (s, k)
  end.

(** ** What the stream holds *)

(** A callback that reads a file. *)
Definition file_reader (rd : Z -> Z -> list Z) (file : list Z) : Prop :=
  forall off n, 0 <= off -> 0 <= n -> rd off n = take (Z.to_nat n) (drop (Z.to_nat off) file).

Definition behind (rd : Z -> Z -> list Z) (s : stream) (tail : list Z) : Prop :=
  exists file, file_reader rd file /\ zlen file < 2 ^ 32 /\ 0 <= s_file_offset s <= zlen file /\
    0 < s_inter_buf_bitstream_len s <= zlen (s_inter_buf_bitstream s) /\ tail = drop (Z.to_nat (s_file_offset s)) file.

(** [l] are the bytes still to come: the rest of the buffer, then the rest of the file
    behind the callback. *)
Record holds (s : stream) (k : core) (l : list Z) : Prop := {
  holds_ptr : 0 <= s_inter_buf_ptr s;
  holds_remain : 0 <= s_jremain_byte_num s;
  holds_in : s_inter_buf_ptr s + s_jremain_byte_num s <= zlen (s_inter_buf_bitstream s);
  holds_len : u32_ok (s_header_len s);
  holds_left : exists tail,
    l = take (Z.to_nat (s_jremain_byte_num s)) (drop (Z.to_nat (s_inter_buf_ptr s)) (s_inter_buf_bitstream s)) ++ tail /\
    match read (codec k) with None => tail = [] | Some rd => behind rd s tail end
}.

Lemma holds_core s k k' l : read (codec k') = read (codec k) -> holds s k l -> holds s k' l.
Proof. intros E [H1 H2 H3 H4 H5]. split; try done. by rewrite E. Qed.

Lemma refill_holds rd s k l :
  read (codec k) = Some rd -> s_jremain_byte_num s = 0 -> holds s k l ->
  exists s', refill rd s = Done s' /\ holds s' k l /\ s_header_len s' = s_header_len s /\
    (l = [] \/ 0 < s_jremain_byte_num s').
Proof.
  intros Er E0 [H1 H2 H3 H4 (tail & -> & Hb)]. rewrite Er in Hb. destruct Hb as (file & Hr & Hf & Ho & Hl & ->).
  rewrite E0. change (Z.to_nat 0) with 0%nat. rewrite take_0. cbn [app]. unfold refill.
  rewrite Hr by lia. set (got := take _ _).
  assert (zlen got <= s_inter_buf_bitstream_len s) as Hg1 by (subst got; unfold zlen; rewrite length_take; lia).
  assert (s_file_offset s + zlen got <= zlen file) as Hg2
    by (subst got; unfold zlen in *; rewrite length_take, length_drop; lia).
  assert (0 <= zlen got) as Hg0 by apply zlen_nonneg.
  unfold splice. guard_true ((0 <=? 0) && (0 + zlen got <=? zlen (s_inter_buf_bitstream s))). cbn [obind].
  eexists. split; [reflexivity|]. split; [|split; [done|]].
  - split; cbn [s_inter_buf_ptr s_jremain_byte_num s_inter_buf_bitstream s_header_len]; try done; try lia.
    + change (Z.to_nat 0) with 0%nat. rewrite take_0, zlen_app. pose proof (zlen_nonneg (drop (0 + length got) (s_inter_buf_bitstream s))).
      cbn [app]. rewrite zlen_app. change (zlen []) with 0. lia.
    + change (Z.to_nat 0) with 0%nat. rewrite take_0, drop_0. cbn [app].
      exists (drop (Z.to_nat (s_file_offset s + zlen got)) file). split.
      * unfold zlen at 1. rewrite Nat2Z.id, take_app_length. subst got.
        rewrite <- (take_drop (Z.to_nat (s_inter_buf_bitstream_len s)) (drop (Z.to_nat (s_file_offset s)) file)) at 1. f_equal.
        rewrite drop_drop. unfold zlen in *. rewrite length_take, length_drop in *.
        destruct (Nat.le_gt_cases (Z.to_nat (s_inter_buf_bitstream_len s)) (length file - Z.to_nat (s_file_offset s))).
        -- f_equal. lia.
        -- rewrite !drop_ge; [done|lia|lia].
      * rewrite Er. exists file. cbn. split_and!; try done; try lia.
        -- rewrite u32_small; [lia|unfold u32_ok; lia].
        -- rewrite u32_small; [lia|unfold u32_ok; lia].
        -- change (Z.to_nat 0) with 0%nat. rewrite zlen_app. unfold zlen in *. rewrite length_drop. lia.
        -- rewrite u32_small; [done|unfold u32_ok; lia].
  - cbn. destruct (decide (drop (Z.to_nat (s_file_offset s)) file = [])) as [En|En]; [by left|right].
    subst got. destruct (drop (Z.to_nat (s_file_offset s)) file) as [|x t]; [done|].
    destruct (Z.to_nat (s_inter_buf_bitstream_len s)) eqn:El; [lia|]. cbn. unfold zlen. cbn. lia.
Qed.

Lemma zlen_take_le {A} (n : nat) (l : list A) : zlen (take n l) <= zlen l.
Proof. unfold zlen. rewrite length_take. lia. Qed.

(** Passing [n] bytes: the count of header bytes grows by [n], and the buffer stays
    when it holds them. *)
Record moved (n : Z) (s s' : stream) : Prop := {
  moved_len : s_header_len s' = u32 (s_header_len s + n);
  moved_in : n <= s_jremain_byte_num s ->
    s_inter_buf_bitstream s' = s_inter_buf_bitstream s /\ s_inter_buf_ptr s' = s_inter_buf_ptr s + n /\
    s_jremain_byte_num s' = s_jremain_byte_num s - n
}.

Lemma moved_refl s k l : holds s k l -> moved 0 s s.
Proof.
  intros H. split; [|intros _; split_and!; [done|lia|lia]].
  rewrite Z.add_0_r. symmetry. apply u32_small. by destruct H.
Qed.

Lemma moved_trans a b s1 s2 s3 : 0 <= a -> 0 <= b -> moved a s1 s2 -> moved b s2 s3 -> moved (a + b) s1 s3.
Proof.
  intros Ha Hb [E1 F1] [E2 F2]. split.
  - rewrite E2, E1, u32_u32_add. f_equal. lia.
  - intros H. destruct F1 as (B1 & P1 & R1); [lia|]. destruct F2 as (B2 & P2 & R2); [lia|].
    split_and!; [congruence|lia|lia].
Qed.

(** Taking a byte that is in the buffer. *)
Lemma buffered_char s k l :
  holds s k l -> 0 < s_jremain_byte_num s ->
  exists c l', l = c :: l' /\ rd (s_inter_buf_bitstream s) (s_inter_buf_ptr s) = Done c /\
    holds (mk_stream (s_inter_buf_bitstream s) (s_inter_buf_bitstream_len s) (s_inter_buf_ptr s + 1)
             (s_jremain_byte_num s - 1) (u32 (s_header_len s + 1)) (s_file_offset s)) k l'.
Proof.
  intros [H1 H2 H3 H4 (tail & -> & Hb)] Hr.
  destruct (rd_lt (s_inter_buf_bitstream s) (s_inter_buf_ptr s)) as (c & Er & El); [lia|].
  rewrite (drop_S _ c (Z.to_nat (s_inter_buf_ptr s))) by done.
  destruct (Z.to_nat (s_jremain_byte_num s)) as [|n] eqn:En; [lia|]. cbn [take app].
  exists c, (take n (drop (S (Z.to_nat (s_inter_buf_ptr s))) (s_inter_buf_bitstream s)) ++ tail).
  split_and!; [done|done|]. split; cbn; try done; try lia.
  - apply u32_range.
  - exists tail. split; [|done]. f_equal. f_equal; [lia|]. f_equal. lia.
Qed.

Lemma get_char_cons s k c l :
  holds s k (c :: l) ->
  exists s', get_char s k = Done (Some c, s', k) /\ holds s' k l /\ moved 1 s s'.
Proof.
  intros H. unfold get_char.
  assert (exists s0, (if s_jremain_byte_num s =? 0
      then match read (codec k) with Some rd => refill rd s | None => Done s end else Done s) = Done s0 /\
    holds s0 k (c :: l) /\ s_header_len s0 = s_header_len s /\ 0 < s_jremain_byte_num s0 /\
    (1 <= s_jremain_byte_num s -> s0 = s)) as (s0 & -> & H0 & E0 & P0 & N0).
  { destruct (Z.eqb_spec (s_jremain_byte_num s) 0) as [Ez|Ez].
    - destruct (read (codec k)) as [rd|] eqn:Er.
      + destruct (refill_holds rd s k (c :: l) Er Ez H) as (s' & ? & ? & ? & [?|?]); [done|].
        exists s'. split_and!; try done. lia.
      + destruct H as [_ _ _ _ (tail & E & Hb)]. rewrite Er in Hb. subst tail. rewrite Ez in E.
        change (Z.to_nat 0) with 0%nat in E. by rewrite take_0 in E.
    - exists s. split_and!; try done. destruct H. lia. }
  cbn [obind]. guard_true (0 <? s_jremain_byte_num s0).
  destruct (buffered_char s0 k (c :: l) H0 P0) as (c' & l' & [= <- <-] & -> & H'). cbn [obind].
  eexists. split; [reflexivity|]. split; [exact H'|]. split; cbn; [by rewrite E0|].
  intros Hin. by rewrite (N0 Hin).
Qed.

Lemma get_char_nil s k :
  holds s k [] -> exists s', get_char s k = Done (None, s', k) /\ holds s' k [] /\ s_header_len s' = s_header_len s.
Proof.
  intros H. unfold get_char.
  assert (forall s0, holds s0 k [] -> s_jremain_byte_num s0 = 0) as Hz.
  { intros s0 H0. destruct (Z.lt_total 0 (s_jremain_byte_num s0)) as [Hp|[|]]; [|done|destruct H0; lia].
    by destruct (buffered_char s0 k [] H0 Hp) as (c & l' & ? & _). }
  rewrite (Hz s H). cbn [Z.eqb].
  assert (exists s0, match read (codec k) with Some rd => refill rd s | None => Done s end = Done s0 /\
    holds s0 k [] /\ s_header_len s0 = s_header_len s) as (s0 & -> & H0 & E0).
  { destruct (read (codec k)) as [rd|] eqn:Er; [|by exists s].
    destruct (refill_holds rd s k [] Er (Hz s H) H) as (s' & ? & ? & ? & _). by exists s'. }
  cbn [obind]. rewrite (Hz s0 H0). by exists s0.
Qed.

(** ** Parsing known bytes

    [parses m bs k k' a]: on a stream that begins with [bs], the parser takes exactly
    these bytes, returns [a] and turns [k] into [k']. *)
Definition parses {A} (m : parser A) (bs : list Z) (k k' : core) (a : A) : Prop :=
  forall s l, holds s k (bs ++ l) ->
  exists s', m s k = Done (Some a, s', k') /\ holds s' k' l /\ moved (zlen bs) s s'.

Lemma parses_ret {A} (a : A) k : parses (pret a) [] k k a.
Proof.
  intros s l H. exists s. split_and!; try done. by apply (moved_refl s k l).
Qed.

Lemma parses_bind {A B} (m : parser A) (f : A -> parser B) b1 b2 k k1 k2 a r :
  parses m b1 k k1 a -> parses (f a) b2 k1 k2 r -> parses (pbind m f) (b1 ++ b2) k k2 r.
Proof.
  intros Hm Hf s l H. rewrite <- app_assoc in H. destruct (Hm s _ H) as (s1 & E1 & H1 & L1).
  destruct (Hf s1 l H1) as (s2 & E2 & H2 & L2). exists s2. unfold pbind. rewrite E1. cbn [obind].
  split_and!; try done. rewrite zlen_app. by apply (moved_trans _ _ s s1 s2); [apply zlen_nonneg..| |].
Qed.

Lemma parses_get {A} (f : core -> A) k : parses (pget f) [] k k (f k).
Proof. apply (parses_ret (f k) k). Qed.

Lemma parses_upd f k : read (codec (f k)) = read (codec k) -> parses (pupd f) [] k (f k) tt.
Proof.
  intros E s l H. exists s. split_and!; [done|by apply (holds_core s k)|]. by apply (moved_refl s k l).
Qed.

Lemma parses_lift {A} (o : outcome A) a k : o = Done a -> parses (plift o) [] k k a.
Proof. intros -> s l H. apply (parses_ret a k s l H). Qed.

Lemma parses_char c k : parses get_char [c] k k c.
Proof. intros s l H. destruct (get_char_cons s k c l H) as (s' & ? & ? & ?). by exists s'. Qed.

Lemma parses_short a b k : byte_ok b -> parses get_short_word [a; b] k k (a * 256 + b).
Proof.
  intros Hb. unfold get_short_word. eapply (parses_bind _ _ [a] [b]); [apply parses_char|].
  eapply (parses_bind _ _ [b] []); [apply parses_char|].
  replace (Z.lor (Z.shiftl a 8) b) with (a * 256 + b); [apply parses_ret|].
  unfold byte_ok in Hb. rewrite Z.shiftl_mul_pow2, Z.lor_comm, lor_disjoint by lia. lia.
Qed.

Lemma land_le x m : 0 <= x -> 0 <= Z.land x m <= x.
Proof.
  intros Hx. apply Z.ldiff_le; [done|]. apply Z.bits_inj'. intros i Hi.
  rewrite Z.ldiff_spec, Z.land_spec, Z.bits_0. by destruct (Z.testbit x i), (Z.testbit m i).
Qed.

Lemma parses_alloc n k :
  0 <= n < 2 ^ 31 -> s_used_extra_mem k + n + 3 <= s_extra_mem_size k ->
  exists u, parses (JpegDec_ExtraMemAlloc n) [] k (set_used u k) tt /\ s_used_extra_mem k <= u <= s_used_extra_mem k + n + 3.
Proof.
  intros Hn Hs. exists (s_used_extra_mem k + Z.land (u32 (n + 3)) (2 ^ 32 - 4)).
  assert (0 <= Z.land (u32 (n + 3)) (2 ^ 32 - 4) <= n + 3) as Hr.
  { rewrite u32_small by (unfold u32_ok; lia). apply land_le. lia. }
  split; [|lia]. intros s l H. unfold JpegDec_ExtraMemAlloc.
  guard_false (s_extra_mem_size k - s_used_extra_mem k <? Z.land (u32 (n + 3)) (2 ^ 32 - 4)).
  exists s. split_and!; [done|by apply (holds_core s k)|]. by apply (moved_refl s k l).
Qed.

(** The same rules by the next byte of the input. *)
Lemma parses_then_char {B} (f : Z -> parser B) c bs k k' r :
  parses (f c) bs k k' r -> parses (pbind get_char f) (c :: bs) k k' r.
Proof. intros H. apply (parses_bind _ _ [c] bs k k k' c); [apply parses_char|done]. Qed.

Lemma parses_then_short {B} (f : Z -> parser B) a b bs k k' r :
  byte_ok b -> parses (f (a * 256 + b)) bs k k' r -> parses (pbind get_short_word f) (a :: b :: bs) k k' r.
Proof. intros Hb H. apply (parses_bind _ _ [a; b] bs k k k' (a * 256 + b)); [by apply parses_short|done]. Qed.

Lemma parses_then {A B} (m : parser A) (f : A -> parser B) bs k k1 k' a r :
  parses m [] k k1 a -> parses (f a) bs k1 k' r -> parses (pbind m f) bs k k' r.
Proof. intros Hm Hf. by apply (parses_bind m f [] bs k k1 k' a). Qed.

Lemma parses_then_get {A B} (g : core -> A) (f : A -> parser B) bs k k' r :
  parses (f (g k)) bs k k' r -> parses (pbind (pget g) f) bs k k' r.
Proof. intros H. eapply parses_then; [apply parses_get|done]. Qed.

Lemma parses_then_lift {A B} (o : outcome A) (f : A -> parser B) a bs k k' r :
  o = Done a -> parses (f a) bs k k' r -> parses (pbind (plift o) f) bs k k' r.
Proof. intros E H. eapply parses_then; [by apply parses_lift|done]. Qed.

Lemma parses_then_upd {B} g (f : unit -> parser B) bs k k' r :
  read (codec (g k)) = read (codec k) -> parses (f tt) bs (g k) k' r -> parses (pbind (pupd g) f) bs k k' r.
Proof. intros E H. eapply parses_then; [by apply parses_upd|done]. Qed.

Lemma parses_last {A B} (m : parser A) (f : A -> parser B) bs k k' r a :
  parses m bs k k' a -> f a = pret r -> parses (pbind m f) bs k k' r.
Proof.
  intros Hm Hf. rewrite <- (app_nil_r bs). eapply parses_bind; [exact Hm|]. rewrite Hf. apply parses_ret.
Qed.

(** What follows a call that cannot fail here. *)
Lemma parses_try {A} (m : parser A) bs k k' a : parses m bs k k' a -> parses (ptry m) bs k k' (Some a).
Proof.
  intros H s l Hs. destruct (H s l Hs) as (s' & E & H' & L). exists s'. unfold ptry. rewrite E. done.
Qed.

Lemma parses_eq {A} (m : parser A) bs k k1 k2 a : k1 = k2 -> parses m bs k k1 a -> parses m bs k k2 a.
Proof. by intros ->. Qed.
