(* ===== verification/JpegParse.v ===== *)
(** * libs/libcamera/jpeg/jpeg_fw_8830/src/jpegdec_parse.c: the header parser

    From the first bytes of a picture to the start of its scan: markers, frame header,
    scan header, tables.  Every function of the file is a [parser]; a table in the
    codec is undefined to use before it is allocated, and an index outside an array
    is undefined.  The two loops over the stream run on fuel: each round of either
    takes a byte of the stream. *)

From S2P Require Import Prelude JpegCodec JpegStream.

(** [int8]. *)
Definition s8 (x : Z) : Z := let y := u8 x in if y <? 128 then y else y - 256.

(** [GetNextMarker]: [after] tells whether the last byte was an 0xFF; a stuffed 0xFF00
    starts the search again. *)
Fixpoint GetNextMarker (fuel : nat) (after : bool) : parser Z :=
  match fuel with
  | O => fun _ _ => Fuel
  | S fuel =>
      let? c := get_char in
      if after then
        if c =? 0xFF then GetNextMarker fuel true
        else if c =? 0 then GetNextMarker fuel false
        else pret c
      else GetNextMarker fuel (c =? 0xFF)
  end.

(** ** The frame header *)

Definition pcomp (ci : Z) (f : jpeg_component_info -> jpeg_component_info) : parser unit :=
  let? comps := pget (fun k => comp_info (codec k)) in
  match comps with
  | None => plift Undef
  | Some cs =>
      let? p := plift (rd cs ci) in
      let? cs := plift (wr cs ci (f p)) in
      pcodec (set_comp_info (Some cs))
  end.

Definition pmap (i : Z) (f : TBL_MAP_T -> TBL_MAP_T) : parser unit :=
  let? maps := pget (fun k => tbl_map (codec k)) in
  let? p := plift (rd maps i) in
  let? maps := plift (wr maps i (f p)) in
  pcodec (set_tbl_map maps).

(** One round of the loop over the components. *)
Definition sof_component (ci : Z) : parser unit :=
  let? c := get_char in
  let yuv_id := s8 c in
  pcomp ci (fun p => mk_comp (u8 yuv_id) ci (h_samp_factor p) (v_samp_factor p) (MCU_width p) (MCU_height p)) ;;;
  let yuv_id := s8 (yuv_id - 1) in
  if (yuv_id <? 0) || (2 <? yuv_id) then pfail else
  let? c := get_char in
  let h := Z.land (Z.shiftr c 4) 0x0F in
  let v := Z.land c 0x0F in
  pcomp ci (fun p => mk_comp (component_id p) (component_index p) h v (if ci =? 0 then h else 1) (if ci =? 0 then v else 1)) ;;;
  let? c := get_char in
  if 2 <? c then pfail else
  pmap yuv_id (fun m => mk_map (dc_huff_tbl_id m) (ac_huff_tbl_id m) c).

Fixpoint sof_components (n : nat) (ci : Z) : parser unit :=
  match n with
  | O => pret tt
  | S n => sof_component ci ;;; sof_components n (ci + 1)
  end.

(** [(h_samp_factor << 4) | v_samp_factor] of a component.  A frame of no components
    has a block of no bytes: the first component is read from the cleared bytes of
    the pool behind it. *)
Definition samp (i : Z) : parser Z :=
  let? k := pget id in
  match comp_info (codec k) with
  | None => plift Undef
  | Some cs =>
      let? p :=
        if zlen cs =? 0 then
          plift (if s_extra_mem_size k - s_used_extra_mem k <? 16 then Undef else Done no_comp)
        else plift (rd cs i) in
      pret (u8 (Z.lor (Z.shiftl (h_samp_factor p) 4) (v_samp_factor p)))
  end.

Definition mcu_of (c : Z) : option mcu_format :=
  if c =? 0x11 then Some JPEG_FW_YUV444
  else if c =? 0x21 then Some JPEG_FW_YUV422
  else if c =? 0x41 then Some JPEG_FW_YUV411
  else if c =? 0x14 then Some JPEG_FW_YUV411_R
  else if c =? 0x22 then Some JPEG_FW_YUV420
  else if c =? 0x12 then Some JPEG_FW_YUV422_R
  else None.

Definition pinput (f : input -> input) : parser unit := pupd (fun k => set_inp (f (inp k)) k).
Definition set_mcu (m : mcu_format) (i : input) : input :=
  mk_input (progressive_mode i) (input_height i) (input_width i) m (quant_level i) (header_len i).
Definition set_size (h w : Z) (i : input) : input :=
  mk_input (progressive_mode i) h w (input_mcu_info i) (quant_level i) (header_len i).
Definition set_progressive (b : bool) (i : input) : input :=
  mk_input b (input_height i) (input_width i) (input_mcu_info i) (quant_level i) (header_len i).
Definition set_quant_level (q : quality) (i : input) : input :=
  mk_input (progressive_mode i) (input_height i) (input_width i) (input_mcu_info i) q (header_len i).
Definition set_header_len (n : Z) (i : input) : input :=
  mk_input (progressive_mode i) (input_height i) (input_width i) (input_mcu_info i) (quant_level i) n.

(** The sampling ratios and the format they give. *)
Definition sof_format (component_num : Z) : parser unit :=
  let? c := samp 0 in
  if component_num =? 1 then pinput (set_mcu JPEG_FW_YUV400) else
  match mcu_of c with
  | None => pfail
  | Some m =>
      pinput (set_mcu m) ;;;
      let? c := samp 1 in
      if negb (c =? 0x11) then pfail else
      if 2 <? component_num then
        let? c := samp 2 in
        if negb (c =? 0x11) then pfail else pret tt
      else pret tt
  end.

Definition GetSOF (isProgressive : bool) : parser unit :=
  pinput (set_progressive isProgressive) ;;;
  let? length := get_short_word in
  if length <? 8 then pfail else
  let? c := get_char in
  if negb (c =? 8) then pfail else
  let? h := get_short_word in
  let? w := get_short_word in
  pinput (set_size h w) ;;;
  let? component_num := get_char in
  if negb (length =? component_num * 3 + 8) then pfail else
  pcodec (set_num_components component_num) ;;;
  JpegDec_ExtraMemAlloc (component_num * 16) ;;;
  pcodec (set_comp_info (Some (replicate (Z.to_nat component_num) no_comp))) ;;;
  sof_components (Z.to_nat component_num) 0 ;;;
  sof_format component_num.

(** ** The scan header *)

(** The search for the component: [comp_id_map[i] = cc] when it is found. *)
Definition sos_find (i cc : Z) : parser unit :=
  let? c := pget codec in
  let? found := plift (
    if num_components c =? 0 then Done false
    else match comp_info c with
      | None => Undef
      | Some cs => Done (existsb (fun p => component_id p =? cc) (take (Z.to_nat (num_components c)) cs))
      end) in
  if found then
    let? m := plift (wr (comp_id_map c) i cc) in
    pcodec (set_comp_id_map m)
  else pret tt.

Definition sos_component (i yuv_id : Z) : parser unit :=
  let? cc := get_char in
  let? c := get_char in
  if negb (cc =? yuv_id) then pfail else
  pmap i (fun m => mk_map (Z.land (Z.shiftr c 4) 0x0F) (Z.land c 0x0F) (quant_tbl_id m)) ;;;
  sos_find i cc.

Fixpoint sos_components (n : nat) (i yuv_id : Z) : parser unit :=
  match n with
  | O => pret tt
  | S n => sos_component i yuv_id ;;; sos_components n (i + 1) (u8 (yuv_id + 1))
  end.

Definition GetSOS : parser unit :=
  let? length := get_short_word in
  if length <? 3 then pfail else
  let? n := get_char in
  if negb (length - 3 =? n * 2 + 3) then pfail else
  pcodec (set_comps_in_scan n) ;;;
  sos_components (Z.to_nat n) 0 1 ;;;
  let? c := get_char in
  let? cc := get_char in
  pcodec (fun d => set_Se cc (set_Ss c d)) ;;;
  let? c := get_char in
  pcodec (fun d => set_Al (Z.land c 15) (set_Ah (Z.land (Z.shiftr c 4) 15) d)) ;;;
  pcodec (set_next_restart_num 0) ;;;
  pcodec (fun d => set_input_scan_number (u8 (input_scan_number d + 1)) d).

(** ** Other segments *)
Fixpoint skip_chars (n : nat) : parser unit :=
  match n with
  | O => pret tt
  | S n => let? _ := get_char in skip_chars n
  end.

Definition SkipVariable : parser unit :=
  let? length := get_short_word in
  if length <? 2 then pfail else skip_chars (Z.to_nat (length - 2)).

Definition GetDRI : parser unit :=
  let? length := get_short_word in
  if negb (length =? 4) then pfail else
  let? restart_interval := get_short_word in
  pcodec (fun d => set_next_restart_num 0 (set_restart_to_go restart_interval (set_restart_interval restart_interval d))).

(** A segment too short for a JFIF header is left in the stream. *)
Definition JFIF_LEN : Z := 14.

Definition GetAPP0 : parser unit :=
  let? length := get_short_word in
  if length <? 2 then pfail else
  let length := length - 2 in
  if JFIF_LEN <=? length then
    skip_chars (Z.to_nat JFIF_LEN) ;;; skip_chars (Z.to_nat (length - JFIF_LEN))
  else pret tt.

(** ** Huffman tables *)
Fixpoint huff_alloc (n : nat) : parser unit :=
  match n with
  | O => pret tt
  | S n =>
      JpegDec_ExtraMemAlloc (MAX_BITS_SIZE + 1) ;;; JpegDec_ExtraMemAlloc (AC_SYMBOL_NUM + 1) ;;;
      JpegDec_ExtraMemAlloc (MAX_BITS_SIZE + 1) ;;; JpegDec_ExtraMemAlloc (AC_SYMBOL_NUM + 1) ;;; huff_alloc n
  end.

Definition fresh_huff : HUFF_TBL_T :=
  mk_huff (Some (replicate (Z.to_nat (MAX_BITS_SIZE + 1)) 0)) (Some (replicate (Z.to_nat (AC_SYMBOL_NUM + 1)) 0)).

Definition huff_malloc : parser unit :=
  let? done := pget g_huff_tbl_malloced in
  if done then pret tt
  else
    huff_alloc (Z.to_nat NUM_HUFF_TBLS) ;;;
    pcodec (set_dc_huff_tbl (replicate (Z.to_nat NUM_HUFF_TBLS) fresh_huff)) ;;;
    pcodec (set_ac_huff_tbl (replicate (Z.to_nat NUM_HUFF_TBLS) fresh_huff)) ;;;
    pupd (set_malloced true).

Definition huff_tables (ac : bool) (d : JPEG_CODEC_T) : list HUFF_TBL_T := if ac then ac_huff_tbl d else dc_huff_tbl d.
Definition set_huff_tables (ac : bool) (l : list HUFF_TBL_T) (d : JPEG_CODEC_T) : JPEG_CODEC_T :=
  if ac then set_ac_huff_tbl l d else set_dc_huff_tbl l d.

(** Assignments through the two pointers of a table. *)
Definition put_bits (ac : bool) (index i c : Z) : parser unit :=
  let? l := pget (fun k => huff_tables ac (codec k)) in
  let? t := plift (rd l index) in
  match bits t with
  | None => plift Undef
  | Some b =>
      let? b := plift (wr b i c) in
      let? l := plift (wr l index (mk_huff (Some b) (huffval t))) in
      pcodec (set_huff_tables ac l)
  end.

Definition put_huffval (ac : bool) (index i c : Z) : parser unit :=
  let? l := pget (fun k => huff_tables ac (codec k)) in
  let? t := plift (rd l index) in
  match huffval t with
  | None => plift Undef
  | Some b =>
      let? b := plift (wr b i c) in
      let? l := plift (wr l index (mk_huff (bits t) (Some b))) in
      pcodec (set_huff_tables ac l)
  end.

Definition default_bits (ac : bool) (index : Z) : list Z :=
  if ac then (if index =? 0 then jpeg_fw_lum_ac_bits_default else jpeg_fw_chr_ac_bits_default)
  else (if index =? 0 then jpeg_fw_lum_dc_bits_default else jpeg_fw_chr_dc_bits_default).
Definition default_huffval (ac : bool) (index : Z) : list Z :=
  if ac then (if index =? 0 then jpeg_fw_lum_ac_huffvalue_default else jpeg_fw_chr_ac_huffvalue_default)
  else (if index =? 0 then jpeg_fw_lum_dc_huffvalue_default else jpeg_fw_chr_dc_huffvalue_default).

(** [if (x != default) using_default_huff_tab = FALSE]. *)
Definition check_default (x y : Z) : parser unit :=
  if negb (x =? y) then pcodec (set_using_default_huff_tab false) else pret tt.

Fixpoint read_bits (n : nat) (ac : bool) (index i count : Z) : parser Z :=
  match n with
  | O => pret count
  | S n =>
      let? c := get_char in
      put_bits ac index i c ;;;
      let? d := plift (rd (default_bits ac index) i) in
      check_default c d ;;;
      read_bits n ac index (i + 1) (u16 (count + c))
  end.

Fixpoint read_huffval (n : nat) (ac : bool) (index i : Z) : parser unit :=
  match n with
  | O => pret tt
  | S n =>
      let? c := get_char in
      put_huffval ac index i c ;;;
      let? d := plift (rd (default_huffval ac index) i) in
      check_default c d ;;;
      read_huffval n ac index (i + 1)
  end.

(** One table: its number of symbols. *)
Definition huff_table : parser Z :=
  let? c := get_char in
  let index := Z.land c 0x13 in
  let ac := negb (Z.land index 0x10 =? 0) in
  let index := if ac then index - 0x10 else index in
  put_bits ac index 0 0 ;;;
  let? count := read_bits 16 ac index 1 0 in
  if 256 <? count then pfail else
  read_huffval (Z.to_nat count) ac index 0 ;;;
  pret count.

Fixpoint huff_loop (fuel : nat) (length : Z) : parser unit :=
  match fuel with
  | O => fun _ _ => Fuel
  | S fuel =>
      if length <=? 0 then pret tt
      else
        let? count := huff_table in
        if length <? 1 + 16 + count then pfail else huff_loop fuel (length - (1 + 16 + count))
  end.

Definition GetHuffTbl : parser unit :=
  huff_malloc ;;;
  let? length := get_short_word in
  if length <? 2 then pfail else huff_loop (Z.to_nat length) (length - 2).

(** ** Quantisation tables *)
Definition put_quant (n i c : Z) : parser unit :=
  let? l := pget (fun k => quant_tbl (codec k)) in
  let? t := plift (rd l n) in
  match t with
  | None => plift Undef
  | Some t =>
      let? at_ := plift (rd jpeg_fw_zigzag_order i) in
      let? t := plift (wr t at_ c) in
      let? l := plift (wr l n (Some t)) in
      pcodec (set_quant_tbl l)
  end.

(** The loop over the 64 entries, which the code unrolls four times. *)
Fixpoint read_quant (m : nat) (prec n j : Z) : parser unit :=
  match m with
  | O => pret tt
  | S m =>
      let? c := if prec =? 0 then get_char else get_short_word in
      put_quant n j (u8 c) ;;;
      read_quant m prec n (j + 1)
  end.

(** One table: its precision and number. *)
Definition quant_table : parser (Z * Z) :=
  let? n := get_char in
  let prec := Z.shiftr n 4 in
  let n := Z.land n 0x0F in
  if 2 <? n then pfail else
  JpegDec_ExtraMemAlloc 64 ;;;
  let? l := pget (fun k => quant_tbl (codec k)) in
  let? l := plift (wr l n (Some (replicate 64 0))) in
  pcodec (set_quant_tbl l) ;;;
  read_quant 64 prec n 0 ;;;
  pret (prec, n).

Fixpoint quant_loop (fuel : nat) (length : Z) (two : bool) : parser bool :=
  match fuel with
  | O => fun _ _ => Fuel
  | S fuel =>
      if length <=? 0 then pret two
      else
        let? (prec, n) := quant_table in
        let two := two || (1 <? n) in
        if length <? 64 + 1 + 64 * prec then pfail else quant_loop fuel (length - (64 + 1 + 64 * prec)) two
  end.

Definition GetQuantTbl : parser unit :=
  pcodec (set_using_default_quant_tab false) ;;;
  let? length := get_short_word in
  if length <? 2 then pfail else
  let? two := quant_loop (Z.to_nat length) (length - 2) false in
  if two then
    let? l := pget (fun k => quant_tbl (codec k)) in
    let? u := plift (rd l 1) in
    let? v := plift (rd l 2) in
    match u, v with
    | Some u, Some v => if bool_decide (u = v) then pret tt else pfail
    | _, _ => plift Undef
    end
  else pret tt.

(** ** Markers until the scan *)
Definition unexpected (c : Z) : bool :=
  existsb (Z.eqb c) [M_SOF3; M_SOF5; M_SOF6; M_SOF7; M_JPG; M_SOF9; M_SOF10; M_SOF11; M_SOF13; M_SOF14; M_SOF15; M_DAC; M_TEM]
  || ((M_RST0 <=? c) && (c <=? M_RST7)).

(** The segment of a marker that does not end the loop. *)
Definition segment (c : Z) : parser unit :=
  if (c =? M_SOF0) || (c =? M_SOF1) then GetSOF false
  else if c =? M_SOF2 then GetSOF true
  else if c =? M_DHT then GetHuffTbl
  else if c =? M_DQT then GetQuantTbl
  else if c =? M_APP0 then GetAPP0
  else if c =? M_DRI then GetDRI
  else if unexpected c then pfail
  else SkipVariable.

(** [ProcessTables]; [fuel] bounds the markers and, for each, the search for it. *)
Fixpoint ProcessTables (fuel : nat) : parser Z :=
  match fuel with
  | O => fun _ _ => Fuel
  | S fuel' =>
      let? m := ptry (GetNextMarker fuel false) in
      match m with
      | None => pret M_ERROR
      | Some c =>
          if (c =? M_SOI) || (c =? M_EOI) || (c =? M_SOS) then pret c
          else
            let? r := ptry (segment c) in
            match r with
            | None => pret M_ERROR
            | Some _ => ProcessTables fuel'
            end
      end
  end.

(** The search for the start of the picture. *)
Fixpoint find_SOI (fuel : nat) : parser unit :=
  match fuel with
  | O => fun _ _ => Fuel
  | S fuel' =>
      let? c := GetNextMarker fuel false in
      if c =? M_EOI then pfail
      else if c =? M_SOI then pret tt
      else find_SOI fuel'
  end.

Definition ParseHead (fuel : nat) : parser unit :=
  find_SOI fuel ;;;
  let? c := ProcessTables fuel in
  if c =? M_SOS then GetSOS else pfail.

(** ** Pictures in the resource format *)
Definition res_format (format : Z) : option mcu_format :=
  if format =? 0 then Some JPEG_FW_YUV420
  else if format =? 1 then Some JPEG_FW_YUV411
  else if format =? 2 then Some JPEG_FW_YUV444
  else if format =? 3 then Some JPEG_FW_YUV422
  else if format =? 4 then Some JPEG_FW_YUV400
  else None.

Definition res_quality (q : Z) : option quality :=
  if q =? 0 then Some JPEG_QUALITY_LOW
  else if q =? 1 then Some JPEG_QUALITY_MIDDLE_LOW
  else if q =? 2 then Some JPEG_QUALITY_MIDDLE
  else if q =? 3 then Some JPEG_QUALITY_MIDDLE_HIGH
  else if q =? 4 then Some JPEG_QUALITY_HIGH
  else None.

Definition ParseHead_Res : parser unit :=
  skip_n_byte 4 ;;;
  let? h := get_short_word in
  let? w := get_short_word in
  pinput (set_size h w) ;;;
  pcodec (set_num_components 3) ;;;
  let? format := get_short_word in
  match res_format format with
  | None => pfail
  | Some m =>
      pinput (set_mcu m) ;;;
      (if format =? 4 then pcodec (set_num_components 1) else pret tt) ;;;
      let? q := get_short_word in
      match res_quality q with
      | None => pfail
      | Some q => pinput (set_quant_level q)
      end
  end.

(** [JPEG_FWParseHead] (jpegdec_interface.c): [true] is [JPEG_SUCCESS]. *)
Definition JPEG_FWParseHead (fuel : nat) (dec_buf : option (Z * Z)) (read_bitstream : option (Z -> Z -> list Z))
    (bitstream : list Z) (bitstream_len : Z) (i : input) : outcome (bool * stream * core) :=
  let* k := JpegDec_InitMem dec_buf (mk_core codec_zero i 0 0 false) in
  let k := set_codec (set_using_default_quant_tab true (set_using_default_huff_tab true (codec k))) k in
  let k := set_codec (set_restart_to_go 0x3ffff (set_restart_interval 0x3ffff (codec k))) k in
  let* (s, k) := JpegDec_InitBitream read_bitstream bitstream bitstream_len k in
  let* res := is_res_jpg_file s in
  if res then
    let k := set_codec (set_is_res_file true (codec k)) k in
    let* (r, s, k) := ParseHead_Res s k in
    Done (bool_decide (is_Some r), s, set_inp (set_header_len 12 (inp k)) k)
  else
    let* (r, s, k) := ParseHead fuel s k in
    let* (n, s) := get_header_len s in
    Done (bool_decide (is_Some r), s, set_inp (set_header_len n (inp k)) k).
