(* ===== verification/JpegHeader.v ===== *)
(** * libs/libcamera/jpeg/jpeg_fw_8830/src/jpegenc_header.c: the header writer

    The encoder writes the header of a picture through the bitstream module of the
    hardware: a write register takes a value and its width.  What the module stores
    is the concatenation of the values, the most significant bit first ([write_nbits]
    of the simulation build).  Before some writes the code polls the module and gives
    up when it is not ready; the results of these polls are a script, and a script that
    has run out is ready.  The polls whose result the code ignores have no effect here.

    The second half derives which bytes a writer produces. *)

From S2P Require Import Prelude JpegCodec JpegStream JpegParse.

(** ** Writers *)
Definition regs : Type := list (Z * Z).

(** Script of polls and writes so far; [false] is [JPEG_FAILED]. *)
Definition writer : Type := list bool -> regs -> outcome (bool * list bool * regs).

Definition wthen (m n : writer) : writer := fun p w =>
  let* (ok, p, w) := m p w in if ok then n p w else Done (false, p, w).
Notation "m '>>>' n" := (wthen m n) (at level 90, right associativity).
Definition wdone : writer := fun p w => Done (true, p, w).

(** [if (JPG_READ_REG_POLL (...)) return JPEG_FAILED]. *)
Definition poll : writer := fun p w =>
  match p with
  | [] => Done (true, [], w)
  | ready :: p => Done (ready, p, w)
  end.

Definition put (nbits val : Z) : writer := fun p w => Done (true, p, w ++ [(nbits, val)]).

Definition JPEGFW_PutC (ch : Z) : writer := put 8 (u8 ch).
Definition JPEGFW_PutW (w : Z) : writer := put 16 (u16 w).

Definition PutMarker (mark : Z) : writer := JPEGFW_PutC 0xFF >>> JPEGFW_PutC mark.

(** [PutC (p[i])] for [i] from [i] on, through a pointer. *)
Fixpoint put_table (n : nat) (p : list Z) (at_ : Z -> outcome Z) (i : Z) : writer :=
  match n with
  | O => wdone
  | S n => fun q w =>
      let* j := at_ i in
      let* v := rd p j in
      (JPEGFW_PutC v >>> put_table n p at_ (i + 1)) q w
  end.

Definition through {A} (p : option A) (m : A -> writer) : writer :=
  match p with Some a => m a | None => fun _ _ => Undef end.

(** ** Segments *)
Definition PutAPP0 : writer :=
  poll >>>
  PutMarker M_APP0 >>>
  JPEGFW_PutW (2 + 4 + 1 + 2 + 1 + 2 + 2 + 1 + 1) >>>
  JPEGFW_PutC 74 >>> JPEGFW_PutC 70 >>> JPEGFW_PutC 73 >>> JPEGFW_PutC 70 >>> JPEGFW_PutC 0 >>>
  JPEGFW_PutC 1 >>> JPEGFW_PutC 1 >>> JPEGFW_PutC 0 >>>
  JPEGFW_PutW 1 >>> JPEGFW_PutW 1 >>> JPEGFW_PutC 0 >>> JPEGFW_PutC 0.

Definition sof_entry (c : JPEG_CODEC_T) (i : Z) : writer := fun p w =>
  let* r := rd (ratio c) i in
  let* m := rd (tbl_map c) i in
  (JPEGFW_PutC (i + 1) >>>
   JPEGFW_PutC (Z.lor (Z.shiftl (h_ratio r) 4) (v_ratio r)) >>>
   JPEGFW_PutC (quant_tbl_id m)) p w.

Definition PutSOF0 (c : JPEG_CODEC_T) : writer :=
  poll >>>
  PutMarker M_SOF0 >>>
  JPEGFW_PutW (3 * 3 + 2 + 5 + 1) >>>
  JPEGFW_PutC 8 >>>
  JPEGFW_PutW (height c) >>>
  JPEGFW_PutW (width c) >>>
  JPEGFW_PutC 3 >>>
  sof_entry c 0 >>> sof_entry c 1 >>> sof_entry c 2.

Definition sos_entry (c : JPEG_CODEC_T) (i : Z) : writer := fun p w =>
  let* m := rd (tbl_map c) i in
  (JPEGFW_PutC (i + 1) >>> JPEGFW_PutC (Z.lor (Z.shiftl (dc_huff_tbl_id m) 4) (ac_huff_tbl_id m))) p w.

Definition PutSOS (c : JPEG_CODEC_T) : writer :=
  poll >>>
  PutMarker M_SOS >>>
  JPEGFW_PutW (2 * 3 + 2 + 1 + 3) >>>
  JPEGFW_PutC 3 >>>
  sos_entry c 0 >>> sos_entry c 1 >>> sos_entry c 2 >>>
  JPEGFW_PutC 0 >>> JPEGFW_PutC 63 >>> JPEGFW_PutC 0.

Definition put_quant_tbl (c : JPEG_CODEC_T) (i : Z) : writer := fun p w =>
  let* quant := rd (quant_tbl c) i in
  (poll >>>
   PutMarker M_DQT >>>
   JPEGFW_PutW (64 + 1 + 2) >>>
   JPEGFW_PutC i >>>
   poll >>> through quant (fun q => put_table 32 q (rd jpeg_fw_zigzag_order) 0) >>>
   poll >>> through quant (fun q => put_table 32 q (rd jpeg_fw_zigzag_order) 32)) p w.

Definition PutQuantTbl (c : JPEG_CODEC_T) : writer := put_quant_tbl c 0 >>> put_quant_tbl c 1.

(** [for (i = 1, count = 0; i <= 16; i++) count += bits[i]]. *)
Fixpoint count_symbols (n : nat) (bits : list Z) (i count : Z) : outcome Z :=
  match n with
  | O => Done count
  | S n => let* b := rd bits i in count_symbols n bits (i + 1) (u16 (count + b))
  end.

(** The blocks of 32 symbols, each after a poll. *)
Fixpoint put_blocks (n : nat) (huffval : list Z) (i : Z) : writer :=
  match n with
  | O => wdone
  | S n => poll >>> put_table 32 huffval Done i >>> put_blocks n huffval (i + 32)
  end.

Definition PutOneHuffTbl (index : Z) (t : HUFF_TBL_T) : writer :=
  through (bits t) (fun b => fun p w =>
    let* count := count_symbols 16 b 1 0 in
    (poll >>>
     PutMarker M_DHT >>>
     JPEGFW_PutW (2 + 1 + 16 + count) >>>
     JPEGFW_PutC index >>>
     put_table 16 b Done 1 >>>
     through (huffval t) (fun v =>
       put_blocks (Z.to_nat (count / 32)) v 0 >>>
       poll >>>
       put_table (Z.to_nat (count mod 32)) v Done (32 * (count / 32)))) p w).

Definition put_huff (index : Z) (l : list HUFF_TBL_T) (i : Z) : writer := fun p w =>
  let* t := rd l i in PutOneHuffTbl index t p w.

Definition PutHuffTbl (c : JPEG_CODEC_T) : writer :=
  put_huff 0x00 (dc_huff_tbl c) JPEG_FW_LUM_ID >>>
  put_huff 0x10 (ac_huff_tbl c) JPEG_FW_LUM_ID >>>
  put_huff 0x01 (dc_huff_tbl c) JPEG_FW_CHR_ID >>>
  put_huff 0x11 (ac_huff_tbl c) JPEG_FW_CHR_ID.

Definition WriteDRI (c : JPEG_CODEC_T) : writer :=
  poll >>>
  (if negb (restart_interval c =? 0)
   then PutMarker M_DRI >>> JPEGFW_PutW 4 >>> JPEGFW_PutW (u16 (restart_interval c))
   else wdone).

(** [JPEG_HWWriteHead] (jpegenc_interface.c) and [JPEG_HWWriteHeadForThumbnail]: they
    write the same header. *)
Definition JPEG_HWWriteHead (c : JPEG_CODEC_T) : writer :=
  poll >>>
  PutMarker M_SOI >>>
  PutAPP0 >>>
  PutQuantTbl c >>>
  PutSOF0 c >>>
  PutHuffTbl c >>>
  WriteDRI c >>>
  PutSOS c.

Definition JPEG_HWWriteTailForThumbnail : writer := poll >>> PutMarker M_EOI.

(** A restart marker; the counter returns to the first after the eighth. *)
Definition OutPutRstMarker (c : JPEG_CODEC_T) : outcome (JPEG_CODEC_T * regs) :=
  let c := if M_RST7 <? RST_Count c then set_RST_Count M_RST0 c else c in
  let* (_, _, w) := (JPEGFW_PutC 0xFF >>> JPEGFW_PutC (RST_Count c)) [] [] in
  Done (set_RST_Count (u8 (RST_Count c + 1)) c, w).

(** ** The bytes of the writes *)
Definition reg_bytes (w : Z * Z) : list Z :=
  let '(nbits, v) := w in if nbits =? 8 then [v] else [v / 256; v mod 256].
Definition written (w : regs) : list Z := w ≫= reg_bytes.

(** ** What a writer writes

    [writes m bs]: when every poll finds the module ready, [m] succeeds and adds the
    bytes [bs]. *)
Definition writes (m : writer) (bs : list Z) : Prop :=
  forall p w, Forall (eq true) p ->
  exists p' r, m p w = Done (true, p', w ++ r) /\ Forall (eq true) p' /\ written r = bs.

Lemma written_app a b : written (a ++ b) = written a ++ written b.
Proof. apply bind_app. Qed.

Lemma writes_then m n a b : writes m a -> writes n b -> writes (m >>> n) (a ++ b).
Proof.
  intros Hm Hn p w Hp. destruct (Hm p w Hp) as (p1 & r1 & E1 & H1 & W1).
  destruct (Hn p1 (w ++ r1) H1) as (p2 & r2 & E2 & H2 & W2). exists p2, (r1 ++ r2).
  unfold wthen. rewrite E1. cbn [obind]. rewrite E2, app_assoc, written_app, W1, W2. done.
Qed.

Lemma writes_done : writes wdone [].
Proof. intros p w Hp. exists p, []. by rewrite app_nil_r. Qed.

Lemma writes_poll : writes poll [].
Proof.
  intros [|b p] w Hp; cbn; [exists [], []; by rewrite app_nil_r|].
  apply Forall_cons in Hp as [<- Hp]. exists p, []. by rewrite app_nil_r.
Qed.

Lemma writes_C c : byte_ok c -> writes (JPEGFW_PutC c) [c].
Proof. intros Hc p w Hp. exists p, [(8, c)]. unfold JPEGFW_PutC. by rewrite u8_small. Qed.

Lemma writes_W v : 0 <= v < 65536 -> writes (JPEGFW_PutW v) [v / 256; v mod 256].
Proof.
  intros Hv p w Hp. exists p, [(16, v)]. unfold JPEGFW_PutW. by rewrite u16_small.
Qed.

Lemma writes_marker m : byte_ok m -> writes (PutMarker m) [255; m].
Proof. intros Hm. apply (writes_then _ _ [255] [m]); apply writes_C; [unfold byte_ok; lia|done]. Qed.

Lemma writes_eq m a b : a = b -> writes m a -> writes m b.
Proof. by intros ->. Qed.

Lemma writes_bind {A} (o : outcome A) (f : A -> writer) a bs :
  o = Done a -> writes (f a) bs -> writes (fun p w => let* x := o in f x p w) bs.
Proof. by intros ->. Qed.

Lemma writes_table vs p at_ i :
  Forall byte_ok vs ->
  (forall j v, vs !! j = Some v -> exists x, at_ (i + Z.of_nat j) = Done x /\ rd p x = Done v) ->
  writes (put_table (length vs) p at_ i) vs.
Proof.
  revert i. induction vs as [|v vs IH]; intros i Hb Hj; cbn [length put_table]; [apply writes_done|].
  apply Forall_cons in Hb as [Hv Hb]. destruct (Hj 0%nat v eq_refl) as (x & Ex & Er). rewrite Z.add_0_r in Ex.
  apply (writes_bind (at_ i) (fun j => fun q w => let* v := rd p j in (JPEGFW_PutC v >>> put_table (length vs) p at_ (i + 1)) q w) x); [done|].
  apply (writes_bind (rd p x) (fun v => JPEGFW_PutC v >>> put_table (length vs) p at_ (i + 1)) v); [done|].
  apply (writes_then _ _ [v] vs); [by apply writes_C|]. apply IH; [done|]. intros j v' Hl.
  destruct (Hj (S j) v' Hl) as (x' & E' & R'). exists x'. split; [|done]. rewrite <- E'. f_equal. lia.
Qed.

(** Consecutive entries of an array. *)
Lemma writes_slice vs p (i : nat) :
  Forall byte_ok vs -> take (length vs) (drop i p) = vs -> writes (put_table (length vs) p Done (Z.of_nat i)) vs.
Proof.
  intros Hb Hs. apply writes_table; [done|]. intros j v Hj. eexists. split; [reflexivity|].
  apply rd_Some; [lia|]. replace (Z.to_nat (Z.of_nat i + Z.of_nat j)) with (i + j)%nat by lia.
  rewrite <- lookup_drop. rewrite <- Hs in Hj. rewrite <- Hj. symmetry. apply lookup_take_lt.
  rewrite <- Hs. apply lookup_lt_Some in Hj. done.
Qed.

Lemma writes_blocks n vs p (i : nat) :
  Forall byte_ok vs -> length vs = (32 * n)%nat -> take (length vs) (drop i p) = vs ->
  writes (put_blocks n p (Z.of_nat i)) vs.
Proof.
  revert vs i. induction n as [|n IH]; intros vs i Hb Hl Hs; cbn [put_blocks].
  - destruct vs; [apply writes_done|cbn in Hl; lia].
  - assert (take 32 vs = take 32 (drop i p)) as Ea by (rewrite <- Hs, take_take; f_equal; lia).
    assert (drop 32 vs = take (32 * n) (drop (i + 32) p)) as Eb.
    { rewrite <- drop_drop, take_drop_commute. rewrite <- Hs. do 2 f_equal. lia. }
    assert (length (take 32 vs) = 32%nat) as La by (rewrite length_take; lia).
    assert (length (drop 32 vs) = (32 * n)%nat) as Lb by (rewrite length_drop; lia).
    rewrite <- (take_drop 32 vs) in Hb. apply Forall_app in Hb as [Ha Hb].
    apply (writes_eq _ (take 32 vs ++ drop 32 vs)); [apply take_drop|].
    apply (writes_then _ _ []); [apply writes_poll|]. apply writes_then.
    + rewrite <- La at 1. apply writes_slice; [done|]. by rewrite La, Ea.
    + replace (Z.of_nat i + 32) with (Z.of_nat (i + 32)) by lia. apply IH; [done|done|]. by rewrite Lb, Eb.
Qed.
