(* ===== verification/JpegRoundtrip.v ===== *)
(** * Headers read back: jpegenc_header.c against jpegdec_parse.c

    For each segment, what the parser makes of its bytes; for each segment, the bytes
    the writer produces; and the round trip of a whole header. *)

From S2P Require Import Prelude JpegCodec JpegStream JpegParse JpegHeader.

(** ** Parsing the segments *)
Ltac pbytes := unfold byte_ok in *; lia.

Lemma parses_upd_all g k : (forall k, read (codec (g k)) = read (codec k)) -> parses (pupd g) [] k (g k) tt.
Proof. intros E. by apply parses_upd. Qed.

(** The side condition for every state, so that it is checked on a variable. *)
Lemma parses_then_all {B} g (f : unit -> parser B) bs k k' r :
  (forall k, read (codec (g k)) = read (codec k)) -> parses (f tt) bs (g k) k' r -> parses (pbind (pupd g) f) bs k k' r.
Proof. intros E. by apply parses_then_upd. Qed.

Ltac pstep :=
  lazymatch goal with
  | |- parses (pbind get_char _) _ _ _ _ => apply parses_then_char
  | |- parses (pbind get_short_word _) _ _ _ _ => apply parses_then_short; [pbytes|]
  | |- parses (pbind (pget _) _) _ _ _ _ => apply parses_then_get
  | |- parses (pbind (pcodec ?f) _) _ _ _ _ =>
      apply (parses_then_all (fun k => set_codec (f (codec k)) k)); [intros; reflexivity|]; cbn beta
  | |- parses (pbind (pinput ?f) _) _ _ _ _ =>
      apply (parses_then_all (fun k => set_inp (f (inp k)) k)); [intros; reflexivity|]; cbn beta
  end.

Lemma parses_marker f m k : m <> 0 -> m <> 255 -> parses (GetNextMarker (S (S f)) false) [255; m] k k m.
Proof.
  intros H0 H1. cbn [GetNextMarker]. pstep. cbn [Z.eqb Pos.eqb]. pstep.
  rewrite (proj2 (Z.eqb_neq m 255)), (proj2 (Z.eqb_neq m 0)) by done. apply parses_ret.
Qed.

Lemma parses_skip bs k : parses (skip_chars (length bs)) bs k k tt.
Proof. induction bs as [|c bs IH]; cbn [skip_chars length]; [apply parses_ret|]. by pstep. Qed.

Definition app0_bytes : list Z := [0; 16; 74; 70; 73; 70; 0; 1; 1; 0; 0; 1; 0; 1; 0; 0].

Lemma parses_APP0 k : parses GetAPP0 app0_bytes k k tt.
Proof.
  unfold GetAPP0, app0_bytes. pstep. cbn -[skip_chars].
  rewrite <- (app_nil_r [74; 70; 73; 70; 0; 1; 1; 0; 0; 1; 0; 1; 0; 0]).
  eapply parses_bind; [apply (parses_skip [74; 70; 73; 70; 0; 1; 1; 0; 0; 1; 0; 1; 0; 0])|]. apply parses_ret.
Qed.

(** *** Quantisation tables *)
Definition zz (j : nat) : nat := Z.to_nat (nth j jpeg_fw_zigzag_order 0).

Fixpoint fill (bs : list Z) (j : nat) (t : list Z) : list Z :=
  match bs with
  | [] => t
  | c :: bs => fill bs (S j) (<[zz j := c]> t)
  end.

(** A table in the order of the zigzag. *)
Definition zigzag (q : list Z) : list Z := (fun j => nth (zz j) q 0) <$> seq 0 64.

Arguments zigzag : simpl never.

Lemma fill_zigzag q : length q = 64%nat -> fill (zigzag q) 0 (replicate 64 0) = q.
Proof. intros Hq. do 64 (destruct q as [|? q]; [discriminate Hq|]). destruct q; [|discriminate Hq]. reflexivity. Qed.

Lemma zigzag_order j : (j < 64)%nat -> rd jpeg_fw_zigzag_order (Z.of_nat j) = Done (Z.of_nat (zz j)) /\ (zz j < 64)%nat.
Proof. intros Hj. do 64 (destruct j as [|j]; [split; [reflexivity|cbv; lia]|]). lia. Qed.

Definition with_quant (n : nat) (t : list Z) (k : core) : core :=
  set_codec (set_quant_tbl (<[n := Some t]> (quant_tbl (codec k))) (codec k)) k.

Lemma codec_eta c : set_quant_tbl (quant_tbl c) c = c.
Proof. by destruct c. Qed.
Lemma core_eta k : set_codec (codec k) k = k.
Proof. by destruct k. Qed.

Lemma parses_read_quant n bs j t k :
  Forall byte_ok bs -> quant_tbl (codec k) !! n = Some (Some t) -> length t = 64%nat -> (j + length bs <= 64)%nat ->
  parses (read_quant (length bs) 0 (Z.of_nat n) (Z.of_nat j)) bs k (with_quant n (fill bs j t) k) tt.
Proof.
  revert j t k. induction bs as [|c bs IH]; intros j t k Hb Hn Ht Hj; cbn [length read_quant fill].
  - unfold with_quant. rewrite list_insert_id by done. rewrite codec_eta, core_eta. apply parses_ret.
  - apply Forall_cons in Hb as [Hc Hb]. cbn [length] in Hj. destruct (zigzag_order j) as [Ez Hz]; [lia|].
    cbn [Z.eqb]. pstep. rewrite (u8_small c) by done. unfold put_quant.
    assert (rd (quant_tbl (codec k)) (Z.of_nat n) = Done (Some t)) as Er by (apply rd_Some; [lia|by rewrite Nat2Z.id]).
    assert (n < length (quant_tbl (codec k)))%nat by (by eapply lookup_lt_Some).
    eapply parses_then.
    { pstep. eapply parses_then_lift; [exact Er|]. cbn beta iota. eapply parses_then_lift; [exact Ez|].
      eapply parses_then_lift; [rewrite wr_in by (unfold zlen; lia); rewrite Nat2Z.id; reflexivity|].
      eapply parses_then_lift; [rewrite wr_in by (unfold zlen; lia); rewrite Nat2Z.id; reflexivity|].
      apply parses_upd. reflexivity. }
    replace (Z.of_nat j + 1) with (Z.of_nat (S j)) by lia.
    eset (k1 := set_codec _ k). specialize (IH (S j) (<[zz j := c]> t) k1).
    replace (with_quant n (fill bs (S j) (<[zz j:=c]> t)) k) with (with_quant n (fill bs (S j) (<[zz j:=c]> t)) k1).
    + apply IH; try done; [|by rewrite length_insert|lia]. cbn. by apply list_lookup_insert_eq.
    + unfold with_quant, k1. cbn. by rewrite list_insert_insert_eq.
Qed.

Definition dqt_bytes (n : Z) (q : list Z) : list Z := [0; 67; n] ++ zigzag q.

Lemma length_zigzag q : length (zigzag q) = 64%nat.
Proof. unfold zigzag. by rewrite length_fmap, length_seq. Qed.

Lemma zigzag_bytes q : Forall byte_ok q -> Forall byte_ok (zigzag q).
Proof.
  intros H. apply Forall_fmap, Forall_forall. intros j _. cbn.
  destruct (Nat.lt_ge_cases (zz j) (length q)) as [Hl|Hl].
  - rewrite Forall_forall in H. apply H. apply list_elem_of_In, nth_In. done.
  - rewrite nth_overflow by done. unfold byte_ok. lia.
Qed.

Definition no_default_quant (k : core) : core := set_codec (set_using_default_quant_tab false (codec k)) k.

(** What is left of the pool. *)
Definition room (k : core) : Z := s_extra_mem_size k - s_used_extra_mem k.

Lemma quant_loop_S fuel length two :
  quant_loop (S fuel) length two =
    (if length <=? 0 then pret two
     else
       let? (prec, n) := quant_table in
       let two := two || (1 <? n) in
       if length <? 64 + 1 + 64 * prec then pfail else quant_loop fuel (length - (64 + 1 + 64 * prec)) two).
Proof. reflexivity. Qed.

Lemma parses_DQT n q k :
  (n < 2)%nat -> length (quant_tbl (codec k)) = 3%nat -> length q = 64%nat -> Forall byte_ok q -> 67 <= room k ->
  exists u, parses GetQuantTbl (dqt_bytes (Z.of_nat n) q) k (with_quant n q (no_default_quant (set_used u k))) tt /\
    u <= s_used_extra_mem k + 67.
Proof.
  intros Hn Hl Hq Hb Hr. unfold room in Hr. unfold GetQuantTbl, dqt_bytes. cbn [app].
  set (k1 := no_default_quant k).
  destruct (parses_alloc 64 k1) as (u & Ha & Hu); [lia|cbn; lia|]. exists u. split; [|cbn in Hu; lia].
  apply parses_then_upd; [reflexivity|]. fold (no_default_quant k) k1. pstep.
  change (0 * 256 + 67) with 67. cbn [Z.ltb Z.compare Pos.compare Pos.compare_cont].
  change (Z.to_nat 67) with 67%nat. change (67 - 2) with 65.
  rewrite <- (app_nil_r (Z.of_nat n :: zigzag q)).
  eapply (parses_bind _ _ _ _ _ _ _ false).
  - rewrite quant_loop_S. cbn [Z.leb Z.compare].
    rewrite <- (app_nil_r (Z.of_nat n :: zigzag q)).
    eapply (parses_bind _ _ _ _ _ _ _ (0, Z.of_nat n)).
    + unfold quant_table. pstep.
      assert (Z.shiftr (Z.of_nat n) 4 = 0 /\ Z.land (Z.of_nat n) 15 = Z.of_nat n) as [-> ->].
      { assert (n = 0 \/ n = 1)%nat as [->| ->] by lia; done. }
      guard_false (2 <? Z.of_nat n). eapply parses_then; [exact Ha|]. pstep.
      eapply parses_then_lift; [rewrite wr_in by (unfold zlen; cbn; lia); rewrite Nat2Z.id; reflexivity|].
      pstep. eapply parses_last; [|reflexivity].
      rewrite <- (length_zigzag q). change 0 with (Z.of_nat 0).
      eapply (parses_read_quant n (zigzag q) 0 (replicate 64 0)); [by apply zigzag_bytes| | |].
      * cbn. apply list_lookup_insert_eq. lia.
      * done.
      * rewrite length_zigzag. lia.
    + cbn beta iota. guard_false (1 <? Z.of_nat n). apply parses_ret.
  - cbn beta iota. rewrite fill_zigzag by done.
    match goal with |- parses _ _ ?a ?b _ => assert (a = b) as -> end; [|apply parses_ret].
    unfold with_quant, no_default_quant. cbn. by rewrite list_insert_insert_eq.
Qed.

(** *** The frame header *)
Definition sof_bytes (h w r : Z) (q0 q1 q2 : Z) : list Z :=
  [0; 17; 8; h / 256; h mod 256; w / 256; w mod 256; 3; 1; r; q0; 2; 0x11; q1; 3; 0x11; q2].

Definition frame_comps (r : Z) : list jpeg_component_info :=
  [mk_comp 1 0 (r / 16) (r mod 16) (r / 16) (r mod 16); mk_comp 2 1 1 1 1 1; mk_comp 3 2 1 1 1 1].

Definition with_quant_id (m : TBL_MAP_T) (q : Z) : TBL_MAP_T := mk_map (dc_huff_tbl_id m) (ac_huff_tbl_id m) q.

Definition with_frame (h w r : Z) (m : mcu_format) (maps : list TBL_MAP_T) (k : core) : core :=
  set_inp (set_mcu m (set_size h w (set_progressive false (inp k))))
    (set_codec (set_tbl_map maps (set_comp_info (Some (frame_comps r)) (set_num_components 3 (codec k)))) k).

Lemma high_low r : byte_ok r -> Z.land (Z.shiftr r 4) 15 = r / 16 /\ Z.land r 15 = r mod 16 /\
  u8 (Z.lor (Z.shiftl (r / 16) 4) (r mod 16)) = r.
Proof.
  unfold byte_ok. intros Hr. change 15 with (Z.ones 4). rewrite !Z.land_ones, Z.shiftr_div_pow2 by lia. change (2 ^ 4) with 16.
  pose proof (Z.div_mod r 16). pose proof (Z.mod_pos_bound r 16). assert (0 <= r / 16 < 16) by (Z.to_euclidean_division_equations; lia).
  split_and!; [by apply Z.mod_small|done|].
  rewrite Z.shiftl_mul_pow2, Z.lor_comm, lor_disjoint by lia. rewrite u8_small; unfold byte_ok; lia.
Qed.

Lemma split_u16 h : 0 <= h < 65536 -> h / 256 * 256 + h mod 256 = h /\ byte_ok (h mod 256).
Proof. intros H. unfold byte_ok. Z.to_euclidean_division_equations. lia. Qed.

Lemma parses_pcomp ci f cs p k :
  comp_info (codec k) = Some cs -> cs !! ci = Some p ->
  parses (pcomp (Z.of_nat ci) f) [] k (set_codec (set_comp_info (Some (<[ci := f p]> cs)) (codec k)) k) tt.
Proof.
  intros Hcs Hp. unfold pcomp. pstep. rewrite Hcs. assert (ci < length cs)%nat by (by eapply lookup_lt_Some).
  eapply parses_then_lift; [apply rd_Some; [lia|by rewrite Nat2Z.id]|].
  eapply parses_then_lift; [rewrite wr_in by (unfold zlen; lia); rewrite Nat2Z.id; reflexivity|].
  apply (parses_upd (fun k => set_codec (set_comp_info (Some (<[ci := f p]> cs)) (codec k)) k)). reflexivity.
Qed.

Lemma parses_pmap i f m k :
  tbl_map (codec k) !! i = Some m ->
  parses (pmap (Z.of_nat i) f) [] k (set_codec (set_tbl_map (<[i := f m]> (tbl_map (codec k))) (codec k)) k) tt.
Proof.
  intros Hm. unfold pmap. pstep. assert (i < length (tbl_map (codec k)))%nat by (by eapply lookup_lt_Some).
  eapply parses_then_lift; [apply rd_Some; [lia|by rewrite Nat2Z.id]|].
  eapply parses_then_lift; [rewrite wr_in by (unfold zlen; lia); rewrite Nat2Z.id; reflexivity|].
  apply (parses_upd (fun k0 => set_codec (set_tbl_map (<[i := f m]> (tbl_map (codec k))) (codec k0)) k0)). reflexivity.
Qed.

Definition frame_comp (ci : nat) (id r : Z) : jpeg_component_info :=
  let c := Z.of_nat ci in
  mk_comp id c (r / 16) (r mod 16) (if c =? 0 then r / 16 else 1) (if c =? 0 then r mod 16 else 1).

Lemma parses_sof_component ci id r q cs p m k :
  (id < 3)%nat -> byte_ok r -> 0 <= q <= 2 ->
  comp_info (codec k) = Some cs -> cs !! ci = Some p -> tbl_map (codec k) !! id = Some m ->
  parses (sof_component (Z.of_nat ci)) [Z.of_nat id + 1; r; q] k
    (set_codec (set_tbl_map (<[id := with_quant_id m q]> (tbl_map (codec k)))
       (set_comp_info (Some (<[ci := frame_comp ci (Z.of_nat id + 1) r]> cs)) (codec k))) k) tt.
Proof.
  intros Hid Hr Hq Hcs Hp Hm. destruct (high_low r Hr) as (Ea & Eb & _). unfold sof_component. pstep.
  assert (s8 (Z.of_nat id + 1) = Z.of_nat id + 1 /\ u8 (Z.of_nat id + 1) = Z.of_nat id + 1 /\
    s8 (Z.of_nat id + 1 - 1) = Z.of_nat id) as (E1 & E2 & E3).
  { assert (id = 0 \/ id = 1 \/ id = 2)%nat as [->|[->| ->]] by lia; done. }
  assert (ci < length cs)%nat by (by eapply lookup_lt_Some).
  rewrite E1, E2, E3. eapply parses_then; [by apply (parses_pcomp ci _ cs p)|].
  replace ((Z.of_nat id <? 0) || (2 <? Z.of_nat id)) with false by (symmetry; apply orb_false_iff; lia).
  pstep. rewrite Ea, Eb. eapply parses_then.
  { eapply (parses_pcomp ci); [reflexivity|]. by apply list_lookup_insert_eq. }
  pstep. guard_false (2 <? q).
  rewrite list_insert_insert_eq. eapply parses_eq; [|by apply (parses_pmap id (fun m => with_quant_id m q) m)]. reflexivity.
Qed.

Lemma parses_samp cs i p k :
  comp_info (codec k) = Some cs -> cs !! i = Some p ->
  parses (samp (Z.of_nat i)) [] k k (u8 (Z.lor (Z.shiftl (h_samp_factor p) 4) (v_samp_factor p))).
Proof.
  intros Hcs Hp. unfold samp. pstep. cbn [id]. rewrite Hcs. assert (i < length cs)%nat by (by eapply lookup_lt_Some).
  rewrite (proj2 (Z.eqb_neq (zlen cs) 0)) by (unfold zlen; lia).
  eapply parses_then_lift; [apply rd_Some; [lia|by rewrite Nat2Z.id]|]. apply parses_ret.
Qed.

Lemma parses_SOF h w r m q0 q1 q2 m0 m1 m2 k :
  0 <= h < 65536 -> 0 <= w < 65536 -> byte_ok r -> mcu_of r = Some m -> 0 <= q0 <= 2 -> 0 <= q1 <= 2 -> 0 <= q2 <= 2 ->
  tbl_map (codec k) = [m0; m1; m2] -> 51 <= room k ->
  exists u, parses (GetSOF false) (sof_bytes h w r q0 q1 q2) k
      (with_frame h w r m [with_quant_id m0 q0; with_quant_id m1 q1; with_quant_id m2 q2] (set_used u k)) tt /\
    u <= s_used_extra_mem k + 51.
Proof.
  intros Hh Hw Hr Hm H0 H1 H2 Hmap Hroom. unfold room in Hroom. unfold GetSOF, sof_bytes.
  destruct (split_u16 h Hh) as [Eh Bh]. destruct (split_u16 w Hw) as [Ew Bw]. destruct (high_low r Hr) as (Ea & Eb & Ec).
  set (k1 := set_codec (set_num_components 3 (codec k)) (set_inp (set_size h w (set_progressive false (inp k))) k)).
  destruct (parses_alloc 48 k1) as (u & Ha & Hu); [lia|cbn; lia|]. exists u. split; [|cbn in Hu; lia].
  pstep. pstep. change (0 * 256 + 17 <? 8) with false. cbn iota. pstep. change (negb (8 =? 8)) with false. cbn iota.
  apply parses_then_short; [done|]. rewrite Eh. apply parses_then_short; [done|]. rewrite Ew. pstep. pstep.
  change (negb (0 * 256 + 17 =? 3 * 3 + 8)) with false. cbn iota. change (3 * 16) with 48.
  pstep. eapply parses_then; [exact Ha|]. pstep. change (Z.to_nat 3) with 3%nat. cbn [sof_components replicate].
  rewrite <- (app_nil_r [1; r; q0; 2; 17; q1; 3; 17; q2]).
  eapply (parses_bind _ _ _ _ _ _ _ tt).
  - eapply (parses_bind _ _ [1; r; q0] [2; 17; q1; 3; 17; q2]).
    { eapply (parses_sof_component 0 0 r q0 [no_comp; no_comp; no_comp] no_comp m0); [lia|pbytes|lia|reflexivity|reflexivity|change (tbl_map (codec k) !! 0%nat = Some m0); by rewrite Hmap]. }
    eapply (parses_bind _ _ [2; 17; q1] [3; 17; q2]).
    { eapply (parses_sof_component 1 1 17 q1 _ no_comp m1); [lia|pbytes|lia|reflexivity|reflexivity|change (<[0%nat := with_quant_id m0 q0]> (tbl_map (codec k)) !! 1%nat = Some m1); by rewrite Hmap]. }
    eapply parses_last; [|reflexivity].
    eapply (parses_sof_component 2 2 17 q2 _ no_comp m2); [lia|pbytes|lia|reflexivity|reflexivity|change (<[1%nat := with_quant_id m1 q1]> (<[0%nat := with_quant_id m0 q0]> (tbl_map (codec k))) !! 2%nat = Some m2); by rewrite Hmap].
  - unfold sof_format. eapply parses_then; [eapply (parses_samp _ 0); reflexivity|]. cbn [frame_comp h_samp_factor v_samp_factor].
    rewrite Ec. change (3 =? 1) with false. cbn iota. rewrite Hm. pstep.
    eapply parses_then; [eapply (parses_samp _ 1); reflexivity|]. match goal with |- context [negb ?b] => replace (negb b) with false by reflexivity end. cbn iota. change (2 <? 3) with true. cbn iota.
    eapply parses_then; [eapply (parses_samp _ 2); reflexivity|]. match goal with |- context [negb ?b] => replace (negb b) with false by reflexivity end. cbn iota.
    match goal with |- parses _ _ ?a ?b _ => assert (a = b) as -> end; [|apply parses_ret].
    unfold with_frame. cbn. by rewrite Hmap.
Qed.

(** *** Huffman tables *)

(** Whether the symbols read so far are those of the default table. *)
Fixpoint agree (f : bool) (xs ds : list Z) : bool :=
  match xs, ds with
  | x :: xs, d :: ds => agree (f && (x =? d)) xs ds
  | _, _ => f
  end.

Definition with_table (ac : bool) (n : nat) (t : HUFF_TBL_T) (f : bool) (k : core) : core :=
  set_codec (set_using_default_huff_tab f (set_huff_tables ac (<[n := t]> (huff_tables ac (codec k))) (codec k))) k.

Lemma with_table_id ac n t k :
  huff_tables ac (codec k) !! n = Some t -> with_table ac n t (using_default_huff_tab (codec k)) k = k.
Proof. intros H. unfold with_table. rewrite list_insert_id by done. by destruct k as [[] ? ? ? ?], ac. Qed.

Lemma with_table_twice ac n t u f g k : with_table ac n u g (with_table ac n t f k) = with_table ac n u g k.
Proof. unfold with_table. destruct ac; cbn; by rewrite list_insert_insert_eq. Qed.

Lemma with_table_lookup ac n t f k :
  (n < length (huff_tables ac (codec k)))%nat -> huff_tables ac (codec (with_table ac n t f k)) !! n = Some t.
Proof. intros H. destruct ac; cbn; by apply list_lookup_insert_eq. Qed.

Lemma with_table_flag ac n t f k : using_default_huff_tab (codec (with_table ac n t f k)) = f.
Proof. by destruct ac. Qed.

Lemma with_table_read ac n t f k : read (codec (with_table ac n t f k)) = read (codec k).
Proof. by destruct ac. Qed.

Lemma parses_check_default x y k :
  parses (check_default x y) [] k
    (set_codec (set_using_default_huff_tab (using_default_huff_tab (codec k) && (x =? y)) (codec k)) k) tt.
Proof.
  unfold check_default. destruct (x =? y); cbn [negb].
  - rewrite andb_true_r. eapply parses_eq; [|apply parses_ret]. by destruct k as [[] ? ? ? ?].
  - rewrite andb_false_r. apply (parses_upd (fun k => set_codec (set_using_default_huff_tab false (codec k)) k)). reflexivity.
Qed.

(** The assignments of either loop. *)
Lemma parses_put_bits ac n i c b v k :
  huff_tables ac (codec k) !! n = Some (mk_huff (Some b) v) -> (i < length b)%nat ->
  parses (put_bits ac (Z.of_nat n) (Z.of_nat i) c) [] k
    (with_table ac n (mk_huff (Some (<[i := c]> b)) v) (using_default_huff_tab (codec k)) k) tt.
Proof.
  intros Ht Hi. assert (n < length (huff_tables ac (codec k)))%nat by (by eapply lookup_lt_Some).
  unfold put_bits. pstep. eapply parses_then_lift; [apply rd_Some; [lia|by rewrite Nat2Z.id]|]. cbn [bits huffval].
  eapply parses_then_lift; [rewrite wr_in by (unfold zlen; lia); rewrite Nat2Z.id; reflexivity|].
  eapply parses_then_lift; [rewrite wr_in by (unfold zlen; lia); rewrite Nat2Z.id; reflexivity|].
  match goal with |- parses (pcodec ?f) _ _ _ _ =>
    eapply parses_eq; [|apply (parses_upd (fun k => set_codec (f (codec k)) k)); by destruct ac] end.
  unfold with_table. by destruct k as [[] ? ? ? ?], ac.
Qed.

Lemma parses_put_huffval ac n i c b v k :
  huff_tables ac (codec k) !! n = Some (mk_huff b (Some v)) -> (i < length v)%nat ->
  parses (put_huffval ac (Z.of_nat n) (Z.of_nat i) c) [] k
    (with_table ac n (mk_huff b (Some (<[i := c]> v))) (using_default_huff_tab (codec k)) k) tt.
Proof.
  intros Ht Hi. assert (n < length (huff_tables ac (codec k)))%nat by (by eapply lookup_lt_Some).
  unfold put_huffval. pstep. eapply parses_then_lift; [apply rd_Some; [lia|by rewrite Nat2Z.id]|]. cbn [bits huffval].
  eapply parses_then_lift; [rewrite wr_in by (unfold zlen; lia); rewrite Nat2Z.id; reflexivity|].
  eapply parses_then_lift; [rewrite wr_in by (unfold zlen; lia); rewrite Nat2Z.id; reflexivity|].
  match goal with |- parses (pcodec ?f) _ _ _ _ =>
    eapply parses_eq; [|apply (parses_upd (fun k => set_codec (f (codec k)) k)); by destruct ac] end.
  unfold with_table. by destruct k as [[] ? ? ? ?], ac.
Qed.

(** Consecutive assignments from place [i] on. *)
Definition overlay (i : nat) (bs t : list Z) : list Z := take i t ++ bs ++ drop (i + length bs) t.

Lemma overlay_nil i t : overlay i [] t = t.
Proof. unfold overlay. cbn. by rewrite Nat.add_0_r, take_drop. Qed.

Lemma overlay_cons i c bs t : (i < length t)%nat -> overlay (S i) bs (<[i := c]> t) = overlay i (c :: bs) t.
Proof.
  intros Hi. unfold overlay. cbn [length app].
  rewrite (take_S_r (<[i := c]> t) i c) by (by apply list_lookup_insert_eq).
  rewrite take_insert_ge by done. rewrite <- app_assoc. cbn [app]. do 2 f_equal. f_equal.
  rewrite drop_insert_lt by lia. f_equal. lia.
Qed.

Lemma length_overlay i bs t : (i + length bs <= length t)%nat -> length (overlay i bs t) = length t.
Proof. intros H. unfold overlay. rewrite !length_app, length_take, length_drop. lia. Qed.

(** The sum of code counts, as the code adds them. *)
Definition sum16 (bs : list Z) (count : Z) : Z := fold_left (fun a c => u16 (a + c)) bs count.

(** A comparison after an assignment. *)
Lemma parses_checked ac n t c d f k :
  parses (check_default c d) [] (with_table ac n t f k) (with_table ac n t (f && (c =? d)) k) tt.
Proof. eapply parses_eq; [|apply parses_check_default]. unfold with_table. by destruct ac. Qed.

Lemma parses_read_bits ac n bs i b v count ds k :
  huff_tables ac (codec k) !! n = Some (mk_huff (Some b) v) -> (i + length bs <= length b)%nat ->
  drop i (default_bits ac (Z.of_nat n)) = ds -> (length bs <= length ds)%nat ->
  parses (read_bits (length bs) ac (Z.of_nat n) (Z.of_nat i) count) bs k
    (with_table ac n (mk_huff (Some (overlay i bs b)) v) (agree (using_default_huff_tab (codec k)) bs ds) k) (sum16 bs count).
Proof.
  revert i b count ds k. induction bs as [|c bs IH]; intros i b count ds k Ht Hi Hd Hl; cbn [length read_bits].
  - rewrite overlay_nil. cbn [agree]. rewrite with_table_id by done. apply parses_ret.
  - cbn [length] in *. destruct ds as [|d ds]; [cbn in Hl; lia|]. cbn [length] in Hl.
    assert (n < length (huff_tables ac (codec k)))%nat by (by eapply lookup_lt_Some).
    pstep. eapply parses_then; [apply parses_put_bits; [done|lia]|].
    eapply parses_then_lift.
    { apply rd_Some; [lia|]. rewrite Nat2Z.id, <- (Nat.add_0_r i), <- lookup_drop, Hd. reflexivity. }
    eapply parses_then; [apply parses_checked|]. replace (Z.of_nat i + 1) with (Z.of_nat (S i)) by lia.
    eapply parses_eq; [|apply (IH (S i) (<[i := c]> b) (u16 (count + c)) ds); [by apply with_table_lookup|rewrite length_insert; lia| |lia]].
    + rewrite with_table_twice, with_table_flag, overlay_cons by lia. reflexivity.
    + replace (S i) with (i + 1)%nat by lia. by rewrite <- drop_drop, Hd.
Qed.

Lemma parses_read_huffval ac n bs i b v ds k :
  huff_tables ac (codec k) !! n = Some (mk_huff b (Some v)) -> (i + length bs <= length v)%nat ->
  drop i (default_huffval ac (Z.of_nat n)) = ds -> (length bs <= length ds)%nat ->
  parses (read_huffval (length bs) ac (Z.of_nat n) (Z.of_nat i)) bs k
    (with_table ac n (mk_huff b (Some (overlay i bs v))) (agree (using_default_huff_tab (codec k)) bs ds) k) tt.
Proof.
  revert i v ds k. induction bs as [|c bs IH]; intros i v ds k Ht Hi Hd Hl; cbn [length read_huffval].
  - rewrite overlay_nil. cbn [agree]. rewrite with_table_id by done. apply parses_ret.
  - cbn [length] in *. destruct ds as [|d ds]; [cbn in Hl; lia|]. cbn [length] in Hl.
    assert (n < length (huff_tables ac (codec k)))%nat by (by eapply lookup_lt_Some).
    pstep. eapply parses_then; [apply parses_put_huffval; [done|lia]|].
    eapply parses_then_lift.
    { apply rd_Some; [lia|]. rewrite Nat2Z.id, <- (Nat.add_0_r i), <- lookup_drop, Hd. reflexivity. }
    eapply parses_then; [apply parses_checked|]. replace (Z.of_nat i + 1) with (Z.of_nat (S i)) by lia.
    eapply parses_eq; [|apply (IH (S i) (<[i := c]> v) ds); [by apply with_table_lookup|rewrite length_insert; lia| |lia]].
    + rewrite with_table_twice, with_table_flag, overlay_cons by lia. reflexivity.
    + replace (S i) with (i + 1)%nat by lia. by rewrite <- drop_drop, Hd.
Qed.

Lemma parses_huff_alloc n k :
  560 * Z.of_nat n <= room k ->
  exists u, parses (huff_alloc n) [] k (set_used u k) tt /\ s_used_extra_mem k <= u <= s_used_extra_mem k + 560 * Z.of_nat n.
Proof.
  revert k. induction n as [|n IH]; intros k Hr; cbn [huff_alloc].
  - exists (s_used_extra_mem k). split; [|lia]. eapply parses_eq; [|apply parses_ret]. by destruct k.
  - unfold room in Hr. change (MAX_BITS_SIZE + 1) with 17. change (AC_SYMBOL_NUM + 1) with 257.
    destruct (parses_alloc 17 k) as (u1 & A1 & B1); [lia|lia|].
    destruct (parses_alloc 257 (set_used u1 k)) as (u2 & A2 & B2); [lia|cbn; lia|]. cbn in B2.
    destruct (parses_alloc 17 (set_used u2 k)) as (u3 & A3 & B3); [lia|cbn; lia|]. cbn in B3.
    destruct (parses_alloc 257 (set_used u3 k)) as (u4 & A4 & B4); [lia|cbn; lia|]. cbn in B4.
    destruct (IH (set_used u4 k)) as (u5 & A5 & B5); [unfold room; cbn; lia|]. cbn in B5.
    exists u5. split; [|lia]. eapply parses_then; [exact A1|]. eapply parses_then; [exact A2|].
    eapply parses_then; [exact A3|]. eapply parses_then; [exact A4|]. exact A5.
Qed.

(** After the first Huffman segment. *)
Definition malloced (u : Z) (k : core) : core :=
  set_malloced true (set_codec (set_ac_huff_tbl (replicate 4 fresh_huff) (set_dc_huff_tbl (replicate 4 fresh_huff) (codec k))) (set_used u k)).

Lemma parses_malloc k :
  g_huff_tbl_malloced k = false -> 2240 <= room k ->
  exists u, parses huff_malloc [] k (malloced u k) tt /\ u <= s_used_extra_mem k + 2240.
Proof.
  intros Hm Hr. destruct (parses_huff_alloc 4 k) as (u & A & B); [lia|]. exists u. split; [|lia].
  unfold huff_malloc. pstep. rewrite Hm. change (Z.to_nat NUM_HUFF_TBLS) with 4%nat.
  eapply parses_then; [exact A|]. pstep. pstep. apply (parses_upd (set_malloced true)). reflexivity.
Qed.

Lemma parses_malloc_again k : g_huff_tbl_malloced k = true -> parses huff_malloc [] k k tt.
Proof. intros Hm. unfold huff_malloc. pstep. rewrite Hm. apply parses_ret. Qed.

Definition dht_bytes (index : Z) (bs vs : list Z) : list Z :=
  let len := 19 + zlen vs in [len / 256; len mod 256; index] ++ bs ++ vs.

Definition dht_index (ac : bool) (n : nat) : Z := (if ac then 16 else 0) + Z.of_nat n.

(** A table of the file: 16 counts, and as many symbols as they count. *)
Definition huff_ok (ac : bool) (bs vs : list Z) : Prop :=
  length bs = 16%nat /\ sum16 bs 0 = zlen vs /\ zlen vs <= (if ac then 256 else 12).

Lemma default_lengths ac n :
  length (default_bits ac n) = 17%nat /\ zlen (default_huffval ac n) = if ac then 256 else 12.
Proof. unfold default_bits, default_huffval. destruct ac, (n =? 0); done. Qed.

Definition parsed_huff (bs vs old : list Z) : HUFF_TBL_T :=
  mk_huff (Some (0 :: bs)) (Some (vs ++ drop (length vs) old)).

Definition agree_table (f ac : bool) (n : nat) (bs vs : list Z) : bool :=
  agree (agree f bs (tail (default_bits ac (Z.of_nat n)))) vs (default_huffval ac (Z.of_nat n)).

Lemma parses_huff_table ac n bs vs b v k :
  (n < 2)%nat -> huff_ok ac bs vs -> huff_tables ac (codec k) !! n = Some (mk_huff (Some b) (Some v)) ->
  length b = 17%nat -> length v = 257%nat ->
  parses huff_table (dht_index ac n :: bs ++ vs) k
    (with_table ac n (parsed_huff bs vs v) (agree_table (using_default_huff_tab (codec k)) ac n bs vs) k) (zlen vs).
Proof.
  intros Hn (Hb & Hs & Hv) Ht Lb Lv. destruct (default_lengths ac (Z.of_nat n)) as [Db Dv].
  assert (n < length (huff_tables ac (codec k)))%nat by (by eapply lookup_lt_Some).
  unfold huff_table. pstep.
  assert (negb (Z.land (Z.land (dht_index ac n) 19) 16 =? 0) = ac /\
    (if ac then Z.land (dht_index ac n) 19 - 16 else Z.land (dht_index ac n) 19) = Z.of_nat n) as [E1 E2].
  { assert (n = 0 \/ n = 1)%nat as [->| ->] by lia; by destruct ac. }
  rewrite E1, E2. destruct b as [|b0 b]; [done|].
  eapply parses_then; [apply (parses_put_bits ac n 0 0 (b0 :: b) (Some v)); [done|cbn; lia]|]. cbn [insert list_insert].
  eapply parses_bind.
  { rewrite <- Hb. change 1 with (Z.of_nat 1). eapply parses_read_bits; [by apply with_table_lookup|cbn in *; lia|reflexivity|].
    rewrite length_drop, Db. lia. }
  rewrite Hs, with_table_flag, with_table_twice. assert (zlen vs <= 256) by (destruct ac; lia). guard_false (256 <? zlen vs).
  eapply parses_last; [|reflexivity]. unfold zlen at 1. rewrite Nat2Z.id.
  eapply parses_eq; [|eapply (parses_read_huffval ac n vs 0); [by apply with_table_lookup| |reflexivity|]].
  - rewrite with_table_twice, with_table_flag. unfold parsed_huff, agree_table, overlay. cbn [take drop app Nat.add length].
    rewrite drop_0, drop_ge by (cbn in *; lia). by rewrite app_nil_r.
  - unfold zlen in *. destruct ac; lia.
  - rewrite drop_0. unfold zlen in *. destruct ac; lia.
Qed.

Lemma huff_loop_S fuel length :
  huff_loop (S fuel) length =
    (if length <=? 0 then pret tt
     else
       let? count := huff_table in
       if length <? 1 + 16 + count then pfail else huff_loop fuel (length - (1 + 16 + count))).
Proof. reflexivity. Qed.

Lemma parses_DHT ac n bs vs b v k k1 :
  parses huff_malloc [] k k1 tt ->
  (n < 2)%nat -> huff_ok ac bs vs -> huff_tables ac (codec k1) !! n = Some (mk_huff (Some b) (Some v)) ->
  length b = 17%nat -> length v = 257%nat ->
  parses GetHuffTbl (dht_bytes (dht_index ac n) bs vs) k
    (with_table ac n (parsed_huff bs vs v) (agree_table (using_default_huff_tab (codec k1)) ac n bs vs) k1) tt.
Proof.
  intros Hm Hn Hok Ht Lb Lv. unfold GetHuffTbl, dht_bytes. cbn [app]. eapply parses_then; [exact Hm|].
  assert (0 <= zlen vs <= 256) as Hz by (pose proof (zlen_nonneg vs); destruct Hok as (_ & _ & Hle); destruct ac; lia).
  destruct (split_u16 (19 + zlen vs)) as [El Bl]; [lia|]. apply parses_then_short; [done|]. rewrite El.
  guard_false (19 + zlen vs <? 2). replace (Z.to_nat (19 + zlen vs)) with (S (S (17 + length vs))) by (unfold zlen in *; lia).
  rewrite huff_loop_S. guard_false (19 + zlen vs - 2 <=? 0).
  rewrite <- (app_nil_r (dht_index ac n :: bs ++ vs)).
  eapply parses_bind; [by apply (parses_huff_table ac n bs vs b v)|].
  guard_false (19 + zlen vs - 2 <? 1 + 16 + zlen vs). rewrite huff_loop_S.
  guard_true (19 + zlen vs - 2 - (1 + 16 + zlen vs) <=? 0). apply parses_ret.
Qed.

(** *** Restart interval and scan header *)
Definition with_restart (n : Z) (k : core) : core :=
  set_codec (set_next_restart_num 0 (set_restart_to_go n (set_restart_interval n (codec k)))) k.

Lemma parses_DRI n k : 0 <= n < 65536 -> parses GetDRI [0; 4; n / 256; n mod 256] k (with_restart n k) tt.
Proof.
  intros Hn. destruct (split_u16 n Hn) as [En Bn]. unfold GetDRI. pstep. change (negb (0 * 256 + 4 =? 4)) with false. cbn iota.
  apply parses_then_short; [done|]. rewrite En.
  apply (parses_upd (fun k => with_restart n k)). reflexivity.
Qed.

Definition sos_bytes (t0 t1 t2 : Z) : list Z := [0; 12; 3; 1; t0; 2; t1; 3; t2; 0; 63; 0].

Definition with_huff_ids (m : TBL_MAP_T) (t : Z) : TBL_MAP_T := mk_map (t / 16) (t mod 16) (quant_tbl_id m).

Definition with_scan (maps : list TBL_MAP_T) (k : core) : core :=
  set_codec (set_input_scan_number (u8 (input_scan_number (codec k) + 1)) (set_next_restart_num 0
    (set_Al 0 (set_Ah 0 (set_Se 63 (set_Ss 0 (set_comp_id_map [1; 2; 3] (set_tbl_map maps (set_comps_in_scan 3 (codec k)))))))))) k.

Lemma parses_sos_component i t cs m ids k :
  (i < 3)%nat -> byte_ok t -> num_components (codec k) = zlen cs -> 0 < zlen cs -> comp_info (codec k) = Some cs ->
  existsb (fun p => component_id p =? Z.of_nat i + 1) cs = true -> tbl_map (codec k) !! i = Some m ->
  comp_id_map (codec k) = ids -> length ids = 3%nat ->
  parses (sos_component (Z.of_nat i) (Z.of_nat i + 1)) [Z.of_nat i + 1; t] k
    (set_codec (set_comp_id_map (<[i := Z.of_nat i + 1]> ids) (set_tbl_map (<[i := with_huff_ids m t]> (tbl_map (codec k))) (codec k))) k) tt.
Proof.
  intros Hi Ht Hn Hp Hc He Hm Hids Li. destruct (high_low t Ht) as (Ea & Eb & _). unfold sos_component. pstep. pstep.
  rewrite Z.eqb_refl. cbn [negb]. rewrite Ea, Eb.
  eapply parses_then; [by apply (parses_pmap i (fun m => with_huff_ids m t) m)|].
  unfold sos_find. pstep. cbn [set_codec codec set_tbl_map num_components comp_info comp_id_map]. rewrite Hn, Hc.
  rewrite (proj2 (Z.eqb_neq (zlen cs) 0)) by lia. eapply parses_then_lift; [reflexivity|].
  rewrite take_ge by (unfold zlen; lia). rewrite He.
  eapply parses_then_lift; [rewrite Hids, wr_in by (unfold zlen; lia); rewrite Nat2Z.id; reflexivity|].
  match goal with |- parses (pcodec ?f) _ _ _ _ =>
    eapply parses_eq; [|apply (parses_upd_all (fun k => set_codec (f (codec k)) k)); intros; reflexivity] end.
  reflexivity.
Qed.

Lemma parses_SOS t0 t1 t2 r m0 m1 m2 k :
  byte_ok t0 -> byte_ok t1 -> byte_ok t2 -> num_components (codec k) = 3 -> comp_info (codec k) = Some (frame_comps r) ->
  tbl_map (codec k) = [m0; m1; m2] -> length (comp_id_map (codec k)) = 3%nat ->
  parses GetSOS (sos_bytes t0 t1 t2) k (with_scan [with_huff_ids m0 t0; with_huff_ids m1 t1; with_huff_ids m2 t2] k) tt.
Proof.
  intros H0 H1 H2 Hn Hc Hm Hi. unfold GetSOS, sos_bytes. pstep. change (0 * 256 + 12 <? 3) with false. cbn iota. pstep.
  change (negb (0 * 256 + 12 - 3 =? 3 * 2 + 3)) with false. cbn iota. pstep. change (Z.to_nat 3) with 3%nat. cbn [sos_components].
  destruct (comp_id_map (codec k)) as [|i0 [|i1 [|i2 [|]]]] eqn:Ei; try discriminate Hi.
  eapply (parses_bind _ _ [1; t0; 2; t1; 3; t2] [0; 63; 0] _ _ _ tt).
  - eapply (parses_bind _ _ [1; t0] [2; t1; 3; t2]).
    { eapply (parses_sos_component 0 t0 (frame_comps r) m0 [i0; i1; i2]); [lia|done|exact Hn|reflexivity|exact Hc|reflexivity| |exact Ei|reflexivity].
      change (tbl_map (codec k) !! 0%nat = Some m0). by rewrite Hm. }
    eapply (parses_bind _ _ [2; t1] [3; t2]).
    { eapply (parses_sos_component 1 t1 (frame_comps r) m1); [lia|done|exact Hn|reflexivity|exact Hc|reflexivity| |reflexivity|reflexivity].
      change (<[0%nat := with_huff_ids m0 t0]> (tbl_map (codec k)) !! 1%nat = Some m1). by rewrite Hm. }
    eapply parses_last; [|reflexivity].
    eapply (parses_sos_component 2 t2 (frame_comps r) m2); [lia|done|exact Hn|reflexivity|exact Hc|reflexivity| |reflexivity|reflexivity].
    change (<[1%nat := with_huff_ids m1 t1]> (<[0%nat := with_huff_ids m0 t0]> (tbl_map (codec k))) !! 2%nat = Some m2). by rewrite Hm.
  - pstep. pstep. pstep. pstep. pstep. pstep.
    match goal with |- parses (pcodec ?f) _ _ _ _ =>
      eapply parses_eq; [|apply (parses_upd_all (fun k => set_codec (f (codec k)) k)); intros; reflexivity] end.
    unfold with_scan. cbn. by rewrite Hm.
Qed.

(** ** Writing the segments *)
Ltac wstep :=
  lazymatch goal with
  | |- writes (wthen poll _) ?bs => apply (writes_then _ _ [] bs); [apply writes_poll|]
  | |- writes (wthen (JPEGFW_PutC ?c) _) (_ :: ?bs) => apply (writes_then _ _ [c] bs); [apply writes_C; pbytes|]
  | |- writes (JPEGFW_PutC ?c) _ => apply writes_C; pbytes
  | |- writes (wthen (PutMarker ?c) _) (_ :: _ :: ?bs) =>
      apply (writes_then _ _ [255; c] bs); [apply writes_marker; split; discriminate || reflexivity|]
  | |- writes (wthen (JPEGFW_PutW ?v) _) (_ :: _ :: ?bs) =>
      apply (writes_then _ _ [v / 256; v mod 256] bs); [apply writes_W; lia|]
  | |- writes (JPEGFW_PutW ?v) _ => apply writes_W; lia
  | |- writes (fun p w => ?m p w) ?bs => change (writes m bs)
  end.

Lemma writes_APP0 : writes PutAPP0 (255 :: M_APP0 :: app0_bytes).
Proof. unfold PutAPP0, app0_bytes. repeat wstep. Qed.

(** Half a table in the order of the zigzag. *)
Lemma writes_zigzag q (i n : nat) :
  length q = 64%nat -> Forall byte_ok q -> (i + n <= 64)%nat ->
  writes (put_table n q (rd jpeg_fw_zigzag_order) (Z.of_nat i)) (take n (drop i (zigzag q))).
Proof.
  intros Lq Hb Hi. pose proof (zigzag_bytes q Hb) as Hz. pose proof (length_zigzag q) as Lz.
  assert (length (take n (drop i (zigzag q))) = n) as Ln by (rewrite length_take, length_drop; lia).
  rewrite <- Ln at 1. apply writes_table; [by apply Forall_take, Forall_drop|].
  intros j v Hj. assert (j < n)%nat by (apply lookup_lt_Some in Hj; rewrite Ln in Hj; lia).
  rewrite lookup_take_lt, lookup_drop in Hj by lia. unfold zigzag in Hj. rewrite list_lookup_fmap, lookup_seq_lt in Hj by lia.
  cbn in Hj. injection Hj as <-. destruct (zigzag_order (i + j)) as [Ez Hl]; [lia|].
  exists (Z.of_nat (zz (i + j))). rewrite <- Nat2Z.inj_add. split; [done|].
  apply rd_Some; [lia|]. rewrite Nat2Z.id. by destruct (nth_lookup_or_length q (zz (i + j)) 0); [|lia].
Qed.

Lemma writes_DQT c n q :
  (n < 2)%nat -> quant_tbl c !! n = Some (Some q) -> length q = 64%nat -> Forall byte_ok q ->
  writes (put_quant_tbl c (Z.of_nat n)) (255 :: M_DQT :: dqt_bytes (Z.of_nat n) q).
Proof.
  intros Hn Hq Lq Hb. unfold put_quant_tbl, dqt_bytes. cbn [app].
  eapply (writes_bind (rd (quant_tbl c) (Z.of_nat n))); [apply rd_Some; [lia|by rewrite Nat2Z.id]|]. cbn [through].
  do 6 wstep.
  rewrite <- (take_drop 32 (zigzag q)). apply writes_then.
  - apply (writes_zigzag q 0 32); [done|done|lia].
  - wstep. rewrite <- (take_ge (drop 32 (zigzag q)) 32) by (rewrite length_drop, length_zigzag; lia).
    apply (writes_zigzag q 32 32); [done|done|lia].
Qed.

Lemma nibbles a b : 0 <= a < 16 -> 0 <= b < 16 ->
  Z.lor (Z.shiftl a 4) b = a * 16 + b /\ (a * 16 + b) / 16 = a /\ (a * 16 + b) mod 16 = b.
Proof.
  intros Ha Hb. rewrite Z.shiftl_mul_pow2, Z.lor_comm, lor_disjoint by lia. split; [lia|].
  Z.to_euclidean_division_equations. lia.
Qed.

(** The byte of two factors. *)
Definition pair_byte (a b : Z) : Z := a * 16 + b.

Lemma writes_sof_entry c i a b m :
  ratio c !! i = Some (mk_ratio a b) -> tbl_map c !! i = Some m -> (i < 3)%nat ->
  0 <= a < 16 -> 0 <= b < 16 -> 0 <= quant_tbl_id m <= 2 ->
  writes (sof_entry c (Z.of_nat i)) [Z.of_nat i + 1; pair_byte a b; quant_tbl_id m].
Proof.
  intros Hr Hm Hi Ha Hb Hq. unfold sof_entry.
  eapply (writes_bind (rd (ratio c) (Z.of_nat i))); [apply rd_Some; [lia|by rewrite Nat2Z.id]|].
  eapply (writes_bind (rd (tbl_map c) (Z.of_nat i))); [apply rd_Some; [lia|by rewrite Nat2Z.id]|].
  cbn [h_ratio v_ratio]. destruct (nibbles a b Ha Hb) as [-> _]. unfold pair_byte. repeat wstep.
Qed.

Lemma writes_SOF c a b m0 m1 m2 :
  ratio c = [mk_ratio a b; mk_ratio 1 1; mk_ratio 1 1] -> tbl_map c = [m0; m1; m2] ->
  0 <= a < 16 -> 0 <= b < 16 -> 0 <= height c < 65536 -> 0 <= width c < 65536 ->
  Forall (fun m => 0 <= quant_tbl_id m <= 2) [m0; m1; m2] ->
  writes (PutSOF0 c) (255 :: M_SOF0 ::
    sof_bytes (height c) (width c) (pair_byte a b) (quant_tbl_id m0) (quant_tbl_id m1) (quant_tbl_id m2)).
Proof.
  intros Hr Hm Ha Hb Hh Hw Hq. apply Forall_cons in Hq as [Q0 Hq]. apply Forall_cons in Hq as [Q1 Hq].
  apply Forall_cons in Hq as [Q2 _]. unfold PutSOF0, sof_bytes. do 7 wstep.
  apply (writes_then _ _ [1; pair_byte a b; quant_tbl_id m0] [2; 17; quant_tbl_id m1; 3; 17; quant_tbl_id m2]).
  { apply (writes_sof_entry c 0 a b m0); rewrite ?Hr, ?Hm; done || lia. }
  apply (writes_then _ _ [2; 17; quant_tbl_id m1]).
  { apply (writes_sof_entry c 1 1 1 m1); rewrite ?Hr, ?Hm; done || lia. }
  apply (writes_sof_entry c 2 1 1 m2); rewrite ?Hr, ?Hm; done || lia.
Qed.

Lemma writes_sos_entry c i m :
  tbl_map c !! i = Some m -> (i < 3)%nat -> 0 <= dc_huff_tbl_id m < 16 -> 0 <= ac_huff_tbl_id m < 16 ->
  writes (sos_entry c (Z.of_nat i)) [Z.of_nat i + 1; pair_byte (dc_huff_tbl_id m) (ac_huff_tbl_id m)].
Proof.
  intros Hm Hi Ha Hb. unfold sos_entry.
  eapply (writes_bind (rd (tbl_map c) (Z.of_nat i))); [apply rd_Some; [lia|by rewrite Nat2Z.id]|].
  destruct (nibbles _ _ Ha Hb) as [-> _]. unfold pair_byte. repeat wstep.
Qed.

Definition scan_byte (m : TBL_MAP_T) : Z := pair_byte (dc_huff_tbl_id m) (ac_huff_tbl_id m).

Lemma writes_SOS c m0 m1 m2 :
  tbl_map c = [m0; m1; m2] ->
  Forall (fun m => 0 <= dc_huff_tbl_id m < 16 /\ 0 <= ac_huff_tbl_id m < 16) [m0; m1; m2] ->
  writes (PutSOS c) (255 :: M_SOS :: sos_bytes (scan_byte m0) (scan_byte m1) (scan_byte m2)).
Proof.
  intros Hm Hq. apply Forall_cons in Hq as [Q0 Hq]. apply Forall_cons in Hq as [Q1 Hq].
  apply Forall_cons in Hq as [Q2 _]. unfold PutSOS, sos_bytes. do 4 wstep.
  apply (writes_then _ _ [1; scan_byte m0] [2; scan_byte m1; 3; scan_byte m2; 0; 63; 0]).
  { apply (writes_sos_entry c 0 m0); rewrite ?Hm; done || lia. }
  apply (writes_then _ _ [2; scan_byte m1] [3; scan_byte m2; 0; 63; 0]).
  { apply (writes_sos_entry c 1 m1); rewrite ?Hm; done || lia. }
  apply (writes_then _ _ [3; scan_byte m2] [0; 63; 0]).
  { apply (writes_sos_entry c 2 m2); rewrite ?Hm; done || lia. }
  repeat wstep.
Qed.

Lemma count_symbols_sum bs b0 rest count (i : nat) b :
  drop i b = bs ++ rest -> b0 = Z.of_nat i -> count_symbols (length bs) b b0 count = Done (sum16 bs count).
Proof.
  revert i b0 count. induction bs as [|c bs IH]; intros i b0 count Hd ->; cbn [length count_symbols]; [done|].
  assert (b !! i = Some c) as Hl by (rewrite <- (Nat.add_0_r i), <- lookup_drop, Hd; reflexivity).
  rewrite (rd_Some b (Z.of_nat i) c) by (lia || by rewrite Nat2Z.id). cbn [obind].
  rewrite (IH (S i)); [done| |lia]. replace (S i) with (i + 1)%nat by lia. by rewrite <- drop_drop, Hd.
Qed.

Definition dri_bytes (n : Z) : list Z := if n =? 0 then [] else [255; M_DRI; 0; 4; n / 256; n mod 256].

Lemma writes_DRI c : 0 <= restart_interval c < 65536 -> writes (WriteDRI c) (dri_bytes (restart_interval c)).
Proof.
  intros Hn. unfold WriteDRI, dri_bytes. wstep. destruct (Z.eqb_spec (restart_interval c) 0) as [E|E]; cbn [negb].
  - apply writes_done.
  - replace (u16 (restart_interval c)) with (restart_interval c) by (symmetry; by apply u16_small).
    repeat wstep.
Qed.

(** The table [t] of the encoder holds the counts [bs] and the symbols [vs]. *)
Definition table_of (t : HUFF_TBL_T) (bs vs : list Z) : Prop :=
  exists b0 rest, bits t = Some (b0 :: bs) /\ huffval t = Some (vs ++ rest).

Lemma split_div n : (0 < n)%nat -> forall m : nat, m = (n * (m / n) + m mod n)%nat /\ (m mod n < n)%nat.
Proof. intros Hn m. split; [apply Nat.div_mod_eq|apply Nat.mod_upper_bound; lia]. Qed.

Lemma writes_symbols vs rest :
  Forall byte_ok vs ->
  writes (put_blocks (Z.to_nat (zlen vs / 32)) (vs ++ rest) 0 >>> poll >>>
          put_table (Z.to_nat (zlen vs mod 32)) (vs ++ rest) Done (32 * (zlen vs / 32))) vs.
Proof.
  intros Hb. set (n := (length vs / 32)%nat). destruct (split_div 32) with (m := length vs) as [Hd Hm]; [lia|]. fold n in Hd.
  assert (Z.to_nat (zlen vs / 32) = n) as -> by (unfold zlen, n; rewrite (Z2Nat.inj_div _ 32), Nat2Z.id by lia; done).
  assert (Z.to_nat (zlen vs mod 32) = length vs mod 32)%nat as -> by (unfold zlen; rewrite (Z2Nat.inj_mod _ 32), Nat2Z.id by lia; done).
  assert (32 * (zlen vs / 32) = Z.of_nat (32 * n)) as -> by (unfold zlen, n; rewrite Nat2Z.inj_mul, Nat2Z.inj_div; done).
  assert (length (take (32 * n) vs) = 32 * n)%nat as La by (rewrite length_take; lia).
  assert (length (drop (32 * n) vs) = length vs mod 32)%nat as Lb by (rewrite length_drop; lia).
  rewrite <- (take_drop (32 * n) vs) in Hb. apply Forall_app in Hb as [Ha Hb].
  apply (writes_eq _ (take (32 * n) vs ++ drop (32 * n) vs)); [apply take_drop|]. apply writes_then.
  - apply (writes_blocks n _ _ 0); [done|done|]. rewrite La, drop_0. by rewrite take_app_le by lia.
  - apply (writes_then _ _ []); [apply writes_poll|]. rewrite <- Lb. apply writes_slice; [done|].
    by rewrite drop_app_le, take_app_length by lia.
Qed.

Lemma writes_DHT ac n t bs vs :
  (n < 2)%nat -> table_of t bs vs -> huff_ok ac bs vs -> Forall byte_ok bs -> Forall byte_ok vs ->
  writes (PutOneHuffTbl (dht_index ac n) t) (255 :: M_DHT :: dht_bytes (dht_index ac n) bs vs).
Proof.
  intros Hn (b0 & rest & Hb & Hv) (Lb & Hs & Hz) Bb Bv. pose proof (zlen_nonneg vs).
  assert (zlen vs <= 256) by (destruct ac; lia).
  unfold PutOneHuffTbl, dht_bytes. rewrite Hb, Hv. cbn [through app].
  eapply (writes_bind (count_symbols 16 (b0 :: bs) 1 0)).
  { rewrite <- Lb. apply (count_symbols_sum bs 1 [] 0 1 (b0 :: bs)); [|done]. cbn. by rewrite drop_0, app_nil_r. }
  rewrite Hs. replace (2 + 1 + 16 + zlen vs) with (19 + zlen vs) by lia. do 4 wstep.
  apply (writes_then _ _ [dht_index ac n]); [apply writes_C; unfold dht_index, byte_ok; destruct ac; lia|].
  apply writes_then; [|by apply writes_symbols].
  rewrite <- Lb. apply (writes_slice bs (b0 :: bs) 1); [done|]. cbn. rewrite drop_0. apply take_ge. lia.
Qed.

Lemma writes_put_huff ac n l t bs vs :
  l !! n = Some t -> (n < 2)%nat -> table_of t bs vs -> huff_ok ac bs vs -> Forall byte_ok bs -> Forall byte_ok vs ->
  writes (put_huff (dht_index ac n) l (Z.of_nat n)) (255 :: M_DHT :: dht_bytes (dht_index ac n) bs vs).
Proof.
  intros Hl Hn Ht Hok Bb Bv. unfold put_huff.
  eapply (writes_bind (rd l (Z.of_nat n))); [apply rd_Some; [lia|by rewrite Nat2Z.id]|]. by apply writes_DHT.
Qed.
