(* ===== verification/JpegImage.v ===== *)
(** * Whole headers: what the encoder wrote, the parser reads back

    The segments of JpegRoundtrip composed: a picture's parameters, the bytes of its
    header, and the codec after [JPEG_FWParseHead]. *)

From S2P Require Import Prelude JpegCodec JpegStream JpegParse JpegHeader JpegRoundtrip.

(** ** Pictures *)

(** What a header says; a Huffman table is its counts and its symbols. *)
Record picture := mk_picture {
  pic_height : Z;
  pic_width : Z;
  pic_h : Z;
  pic_v : Z;
  pic_mcu : mcu_format;
  pic_map0 : TBL_MAP_T;
  pic_map1 : TBL_MAP_T;
  pic_map2 : TBL_MAP_T;
  pic_quant0 : list Z;
  pic_quant1 : list Z;
  pic_dc0 : list Z * list Z;
  pic_ac0 : list Z * list Z;
  pic_dc1 : list Z * list Z;
  pic_ac1 : list Z * list Z;
  pic_restart : Z
}.

Definition quant_ok (q : list Z) : Prop := length q = 64%nat /\ Forall byte_ok q.
Definition table_ok (ac : bool) (t : list Z * list Z) : Prop :=
  huff_ok ac t.1 t.2 /\ Forall byte_ok t.1 /\ Forall byte_ok t.2.
Definition map_ok (m : TBL_MAP_T) : Prop :=
  0 <= quant_tbl_id m <= 2 /\ 0 <= dc_huff_tbl_id m < 16 /\ 0 <= ac_huff_tbl_id m < 16.

Record pic_ok (p : picture) : Prop := {
  ok_height : 0 <= pic_height p < 65536;
  ok_width : 0 <= pic_width p < 65536;
  ok_h : 0 <= pic_h p < 16;
  ok_v : 0 <= pic_v p < 16;
  ok_mcu : mcu_of (pair_byte (pic_h p) (pic_v p)) = Some (pic_mcu p);
  ok_map0 : map_ok (pic_map0 p);
  ok_map1 : map_ok (pic_map1 p);
  ok_map2 : map_ok (pic_map2 p);
  ok_quant0 : quant_ok (pic_quant0 p);
  ok_quant1 : quant_ok (pic_quant1 p);
  ok_dc0 : table_ok false (pic_dc0 p);
  ok_ac0 : table_ok true (pic_ac0 p);
  ok_dc1 : table_ok false (pic_dc1 p);
  ok_ac1 : table_ok true (pic_ac1 p);
  ok_restart : 0 <= pic_restart p < 65536
}.

(** The encoder's codec holds the parameters of [p]. *)
Record encodes (c : JPEG_CODEC_T) (p : picture) : Prop := {
  enc_height : height c = pic_height p;
  enc_width : width c = pic_width p;
  enc_ratio : ratio c = [mk_ratio (pic_h p) (pic_v p); mk_ratio 1 1; mk_ratio 1 1];
  enc_maps : tbl_map c = [pic_map0 p; pic_map1 p; pic_map2 p];
  enc_quant0 : quant_tbl c !! 0%nat = Some (Some (pic_quant0 p));
  enc_quant1 : quant_tbl c !! 1%nat = Some (Some (pic_quant1 p));
  enc_dc0 : exists t, dc_huff_tbl c !! 0%nat = Some t /\ table_of t (pic_dc0 p).1 (pic_dc0 p).2;
  enc_ac0 : exists t, ac_huff_tbl c !! 0%nat = Some t /\ table_of t (pic_ac0 p).1 (pic_ac0 p).2;
  enc_dc1 : exists t, dc_huff_tbl c !! 1%nat = Some t /\ table_of t (pic_dc1 p).1 (pic_dc1 p).2;
  enc_ac1 : exists t, ac_huff_tbl c !! 1%nat = Some t /\ table_of t (pic_ac1 p).1 (pic_ac1 p).2;
  enc_restart : restart_interval c = pic_restart p
}.

(** ** The bytes of a header *)
Definition dht_segment (ac : bool) (n : nat) (t : list Z * list Z) : list Z := dht_bytes (dht_index ac n) t.1 t.2.

Definition tables_bytes (p : picture) (rest : list Z) : list Z :=
  255 :: M_APP0 :: app0_bytes ++
  255 :: M_DQT :: dqt_bytes 0 (pic_quant0 p) ++
  255 :: M_DQT :: dqt_bytes 1 (pic_quant1 p) ++
  255 :: M_SOF0 :: sof_bytes (pic_height p) (pic_width p) (pair_byte (pic_h p) (pic_v p))
    (quant_tbl_id (pic_map0 p)) (quant_tbl_id (pic_map1 p)) (quant_tbl_id (pic_map2 p)) ++
  255 :: M_DHT :: dht_segment false 0 (pic_dc0 p) ++
  255 :: M_DHT :: dht_segment true 0 (pic_ac0 p) ++
  255 :: M_DHT :: dht_segment false 1 (pic_dc1 p) ++
  255 :: M_DHT :: dht_segment true 1 (pic_ac1 p) ++
  dri_bytes (pic_restart p) ++ rest.

Definition scan_bytes (p : picture) : list Z :=
  sos_bytes (scan_byte (pic_map0 p)) (scan_byte (pic_map1 p)) (scan_byte (pic_map2 p)).

Definition header_bytes (p : picture) : list Z := 255 :: M_SOI :: tables_bytes p (255 :: M_SOS :: scan_bytes p).

(** The header writer produces them. *)
Lemma writes_assoc m n o bs : writes (m >>> n >>> o) bs -> writes ((m >>> n) >>> o) bs.
Proof.
  intros H p w Hp. destruct (H p w Hp) as (p' & r & E & H'). exists p', r. split; [|done]. rewrite <- E.
  unfold wthen. destruct (m p w) as [[[[] p1] w1]| |]; [|done..]. cbn [obind]. by destruct (n p1 w1) as [[[[] ?] ?]| |].
Qed.

Lemma writes_head c p : pic_ok p -> encodes c p -> writes (JPEG_HWWriteHead c) (header_bytes p).
Proof.
  intros Hp [Eh Ew Er Em E0 E1 (d0 & Ld0 & Td0) (a0 & La0 & Ta0) (d1 & Ld1 & Td1) (a1 & La1 & Ta1) En].
  destruct Hp as [Hh Hw Ha Hb Hm M0 M1 M2 [Q0 B0] [Q1 B1] (D0 & Dc0 & Dv0) (A0 & Ac0 & Av0) (D1 & Dc1 & Dv1) (A1 & Ac1 & Av1) Hr].
  unfold JPEG_HWWriteHead, header_bytes, tables_bytes. wstep. wstep.
  apply (writes_then _ _ (255 :: M_APP0 :: app0_bytes)); [apply writes_APP0|].
  apply writes_assoc, (writes_then _ _ (255 :: M_DQT :: dqt_bytes 0 _)); [by apply (writes_DQT c 0); [lia|..]|].
  apply (writes_then _ _ (255 :: M_DQT :: dqt_bytes 1 _)); [by apply (writes_DQT c 1); [lia|..]|].
  rewrite <- Eh, <- Ew in *. apply (writes_then _ _ (255 :: M_SOF0 :: sof_bytes _ _ _ _ _ _)).
  { apply writes_SOF; try done. unfold map_ok in *. repeat constructor; lia. }
  apply writes_assoc, (writes_then _ _ (255 :: M_DHT :: dht_segment false 0 _)); [by eapply (writes_put_huff false 0); [| lia|..]|].
  apply writes_assoc, (writes_then _ _ (255 :: M_DHT :: dht_segment true 0 _)); [by eapply (writes_put_huff true 0); [| lia|..]|].
  apply writes_assoc, (writes_then _ _ (255 :: M_DHT :: dht_segment false 1 _)); [by eapply (writes_put_huff false 1); [| lia|..]|].
  apply (writes_then _ _ (255 :: M_DHT :: dht_segment true 1 _)); [by eapply (writes_put_huff true 1); [| lia|..]|].
  apply writes_then; [rewrite <- En in *; by apply writes_DRI|].
  apply writes_SOS; [done|]. unfold map_ok in *. repeat constructor; lia.
Qed.

(** ** What the parser has decoded *)
Record decoded := mk_decoded {
  d_input : input;
  d_quant : list (option (list Z));
  d_maps : list TBL_MAP_T;
  d_ids : list Z;
  d_components : Z;
  d_comps : option (list jpeg_component_info);
  d_dc : list HUFF_TBL_T;
  d_ac : list HUFF_TBL_T;
  d_malloced : bool;
  d_restart : Z;
  d_default_huff : bool;
  d_default_quant : bool;
  d_scan : Z
}.

Definition decode (k : core) : decoded :=
  mk_decoded (inp k) (quant_tbl (codec k)) (tbl_map (codec k)) (comp_id_map (codec k)) (num_components (codec k))
    (comp_info (codec k)) (dc_huff_tbl (codec k)) (ac_huff_tbl (codec k)) (g_huff_tbl_malloced k)
    (restart_interval (codec k)) (using_default_huff_tab (codec k)) (using_default_quant_tab (codec k))
    (comps_in_scan (codec k)).

(** A segment at its marker, then the rest. *)
Lemma parses_segment f m bs rest k k1 k2 c :
  m <> 0 -> m <> 255 -> (m =? M_SOI) || (m =? M_EOI) || (m =? M_SOS) = false ->
  parses (segment m) bs k k1 tt -> parses (ProcessTables (S f)) rest k1 k2 c ->
  parses (ProcessTables (S (S f))) (255 :: m :: bs ++ rest) k k2 c.
Proof.
  intros H0 H1 Hm Hs Hr. cbn [ProcessTables].
  apply (parses_bind _ _ [255; m] (bs ++ rest) k k k2 (Some m)); [by apply parses_try, parses_marker|].
  rewrite Hm. apply (parses_bind _ _ bs rest k k1 k2 (Some tt)); [by apply parses_try|done].
Qed.

Lemma parses_last_marker f k : parses (ProcessTables (S (S f))) [255; M_SOS] k k M_SOS.
Proof.
  cbn [ProcessTables]. apply (parses_bind _ _ [255; M_SOS] [] k k k (Some M_SOS)); [by apply parses_try, parses_marker|].
  apply parses_ret.
Qed.

(** The segments with what they add to [decode], and what they take from the pool. *)
Lemma segment_quant n q k :
  (n < 2)%nat -> quant_ok q -> length (quant_tbl (codec k)) = 3%nat -> 67 <= room k ->
  exists k1, parses (segment M_DQT) (dqt_bytes (Z.of_nat n) q) k k1 tt /\ room k - 67 <= room k1 /\
    decode k1 = let d := decode k in
      mk_decoded (d_input d) (<[n := Some q]> (d_quant d)) (d_maps d) (d_ids d) (d_components d) (d_comps d) (d_dc d)
        (d_ac d) (d_malloced d) (d_restart d) (d_default_huff d) false (d_scan d).
Proof.
  intros Hn [Lq Bq] Hl Hr. destruct (parses_DQT n q k Hn Hl Lq Bq Hr) as (u & P & U).
  eexists. split; [exact P|]. split; [|reflexivity]. unfold room. cbn. lia.
Qed.

Lemma segment_frame h w a b m m0 m1 m2 q0 q1 q2 k :
  0 <= h < 65536 -> 0 <= w < 65536 -> 0 <= a < 16 -> 0 <= b < 16 -> mcu_of (pair_byte a b) = Some m ->
  0 <= q0 <= 2 -> 0 <= q1 <= 2 -> 0 <= q2 <= 2 -> tbl_map (codec k) = [m0; m1; m2] -> 51 <= room k ->
  exists k1, parses (segment M_SOF0) (sof_bytes h w (pair_byte a b) q0 q1 q2) k k1 tt /\ room k - 51 <= room k1 /\
    decode k1 = let d := decode k in
      mk_decoded (set_mcu m (set_size h w (set_progressive false (d_input d)))) (d_quant d)
        [with_quant_id m0 q0; with_quant_id m1 q1; with_quant_id m2 q2] (d_ids d) 3
        (Some (frame_comps (pair_byte a b))) (d_dc d) (d_ac d) (d_malloced d) (d_restart d) (d_default_huff d)
        (d_default_quant d) (d_scan d).
Proof.
  intros Hh Hw Ha Hb Hm H0 H1 H2 Hk Hr.
  destruct (parses_SOF h w (pair_byte a b) m q0 q1 q2 m0 m1 m2 k) as (u & P & U); try done;
    [unfold pair_byte, byte_ok; lia|].
  eexists. split; [exact P|]. split; [|reflexivity]. unfold room. cbn. lia.
Qed.

(** The table [n] of the codec after a Huffman segment. *)
Definition put_table_at (ac : bool) (n : nat) (t : HUFF_TBL_T) (f : bool) (d : decoded) : decoded :=
  mk_decoded (d_input d) (d_quant d) (d_maps d) (d_ids d) (d_components d) (d_comps d)
    (if ac then d_dc d else <[n := t]> (d_dc d)) (if ac then <[n := t]> (d_ac d) else d_ac d) (d_malloced d) (d_restart d) f
    (d_default_quant d) (d_scan d).

Definition fresh_tables (d : decoded) : decoded :=
  mk_decoded (d_input d) (d_quant d) (d_maps d) (d_ids d) (d_components d) (d_comps d)
    (replicate 4 fresh_huff) (replicate 4 fresh_huff) true (d_restart d) (d_default_huff d) (d_default_quant d) (d_scan d).

Lemma segment_huff ac n t k b v :
  (n < 2)%nat -> table_ok ac t -> g_huff_tbl_malloced k = true ->
  huff_tables ac (codec k) !! n = Some (mk_huff (Some b) (Some v)) -> length b = 17%nat -> length v = 257%nat ->
  exists k1, parses (segment M_DHT) (dht_segment ac n t) k k1 tt /\ room k1 = room k /\
    decode k1 = put_table_at ac n (parsed_huff t.1 t.2 v) (agree_table (d_default_huff (decode k)) ac n t.1 t.2) (decode k).
Proof.
  intros Hn (Hok & _) Hm Ht Lb Lv. eexists. split.
  { apply (parses_DHT ac n t.1 t.2 b v k k); [by apply parses_malloc_again|done..]. }
  split; by destruct ac.
Qed.

Lemma segment_first_huff n t k :
  (n < 2)%nat -> table_ok false t -> g_huff_tbl_malloced k = false -> 2240 <= room k ->
  exists k1, parses (segment M_DHT) (dht_segment false n t) k k1 tt /\ room k - 2240 <= room k1 /\
    decode k1 = put_table_at false n (parsed_huff t.1 t.2 (replicate 257 0)) (agree_table (d_default_huff (decode k)) false n t.1 t.2)
      (fresh_tables (decode k)).
Proof.
  intros Hn (Hok & _) Hm Hr. destruct (parses_malloc k Hm Hr) as (u & P & U). eexists. split.
  { apply (parses_DHT false n t.1 t.2 (replicate 17 0) (replicate 257 0) k (malloced u k)); try done.
    cbn. by do 2 (destruct n as [|n]; [done|]); lia. }
  split; [|reflexivity]. unfold room. cbn. lia.
Qed.

(** Whether a table of the file is the default one. *)
Definition is_default (ac : bool) (n : nat) (t : list Z * list Z) : bool :=
  bool_decide (t.1 = tail (default_bits ac (Z.of_nat n))) &&
  bool_decide (t.2 = take (length t.2) (default_huffval ac (Z.of_nat n))).

Lemma agree_take f xs ds : (length xs <= length ds)%nat -> agree f xs ds = f && bool_decide (xs = take (length xs) ds).
Proof.
  revert f ds. induction xs as [|x xs IH]; intros f [|d ds] H; cbn in *; try lia; try (by rewrite andb_true_r).
  rewrite IH by lia. rewrite <- andb_assoc. f_equal.
  destruct (Z.eqb_spec x d) as [->|Hn]; cbn.
  - apply bool_decide_ext. split; [by intros <-|by intros [= <-]].
  - symmetry. apply bool_decide_eq_false_2. by intros [= ? _].
Qed.

Lemma agree_default f ac n t : table_ok ac t -> agree_table f ac n t.1 t.2 = f && is_default ac n t.
Proof.
  intros ((Lb & _ & Lv) & _). destruct (default_lengths ac (Z.of_nat n)) as [Db Dv]. unfold agree_table, is_default.
  destruct (default_bits ac (Z.of_nat n)) as [|d0 ds]; [done|]. cbn [tail] in *. injection Db as Db.
  rewrite !agree_take by (unfold zlen in *; destruct ac; lia). rewrite <- andb_assoc. do 3 f_equal.
  by rewrite take_ge by lia.
Qed.

(** A stored table: the symbols of the file, then the zeros of the pool. *)
Definition stored (t : list Z * list Z) : HUFF_TBL_T := parsed_huff t.1 t.2 (replicate 257 0).

(** The restart interval of a file without one. *)
Definition read_restart (n : Z) : Z := if n =? 0 then 0x3ffff else n.

Definition read_back (p : picture) (i : input) : decoded :=
  mk_decoded (set_mcu (pic_mcu p) (set_size (pic_height p) (pic_width p) (set_progressive false i)))
    [Some (pic_quant0 p); Some (pic_quant1 p); None]
    [pic_map0 p; pic_map1 p; pic_map2 p] [1; 2; 3] 3 (Some (frame_comps (pair_byte (pic_h p) (pic_v p))))
    [stored (pic_dc0 p); stored (pic_dc1 p); fresh_huff; fresh_huff]
    [stored (pic_ac0 p); stored (pic_ac1 p); fresh_huff; fresh_huff] true (read_restart (pic_restart p))
    (is_default false 0 (pic_dc0 p) && is_default true 0 (pic_ac0 p) && is_default false 1 (pic_dc1 p) && is_default true 1 (pic_ac1 p))
    false 3.

(** The codec as [JPEG_FWParseHead] sets it up. *)
Definition start (i : input) : decoded :=
  mk_decoded i (replicate 3 None) (replicate 3 no_map) (replicate 3 0) 0 None (replicate 4 no_huff) (replicate 4 no_huff)
    false 0x3ffff true true 0.

(** From the frame header on. *)
Definition before_tables (p : picture) (i : input) : decoded :=
  mk_decoded (set_mcu (pic_mcu p) (set_size (pic_height p) (pic_width p) (set_progressive false i)))
    [Some (pic_quant0 p); Some (pic_quant1 p); None]
    [with_quant_id no_map (quant_tbl_id (pic_map0 p)); with_quant_id no_map (quant_tbl_id (pic_map1 p));
     with_quant_id no_map (quant_tbl_id (pic_map2 p))] (replicate 3 0) 3
    (Some (frame_comps (pair_byte (pic_h p) (pic_v p)))) (replicate 4 no_huff) (replicate 4 no_huff) false 0x3ffff true false 0.

Lemma parses_frame p i k :
  pic_ok p -> decode k = start i -> 185 <= room k ->
  exists k1, decode k1 = before_tables p i /\ room k - 185 <= room k1 /\
    forall f rest k' c, parses (ProcessTables (S f)) rest k1 k' c ->
    parses (ProcessTables (S (S (S (S (S f))))))
      (255 :: M_APP0 :: app0_bytes ++ 255 :: M_DQT :: dqt_bytes 0 (pic_quant0 p) ++ 255 :: M_DQT :: dqt_bytes 1 (pic_quant1 p) ++
       255 :: M_SOF0 :: sof_bytes (pic_height p) (pic_width p) (pair_byte (pic_h p) (pic_v p))
         (quant_tbl_id (pic_map0 p)) (quant_tbl_id (pic_map1 p)) (quant_tbl_id (pic_map2 p)) ++ rest) k k' c.
Proof.
  intros Hp Hk Hr. pose proof (ok_map0 p Hp) as [M0 _]. pose proof (ok_map1 p Hp) as [M1 _]. pose proof (ok_map2 p Hp) as [M2 _].
  destruct (segment_quant 0 (pic_quant0 p) k) as (k1 & P1 & R1 & D1);
    [lia|apply Hp|by rewrite (f_equal d_quant Hk : quant_tbl (codec k) = _)|lia|]. rewrite Hk in D1. cbn in D1.
  destruct (segment_quant 1 (pic_quant1 p) k1) as (k2 & P2 & R2 & D2);
    [lia|apply Hp|by rewrite (f_equal d_quant D1 : quant_tbl (codec k1) = _)|lia|]. rewrite D1 in D2. cbn in D2.
  destruct (segment_frame (pic_height p) (pic_width p) (pic_h p) (pic_v p) (pic_mcu p) no_map no_map no_map
    (quant_tbl_id (pic_map0 p)) (quant_tbl_id (pic_map1 p)) (quant_tbl_id (pic_map2 p)) k2) as (k3 & P3 & R3 & D3);
    try apply Hp; try done; [exact (f_equal d_maps D2)|lia|]. rewrite D2 in D3. cbn in D3.
  exists k3. split; [exact D3|]. split; [lia|]. intros f rest k' c Hrest.
  apply (parses_segment _ M_APP0 app0_bytes _ k k); [done..|apply parses_APP0|].
  apply (parses_segment _ M_DQT _ _ k k1); [done..|exact P1|].
  apply (parses_segment _ M_DQT _ _ k1 k2); [done..|exact P2|].
  by apply (parses_segment _ M_SOF0 _ _ k2 k3).
Qed.

(** The four Huffman segments. *)
Definition after_tables (p : picture) (i : input) : decoded :=
  let d := before_tables p i in
  mk_decoded (d_input d) (d_quant d) (d_maps d) (d_ids d) (d_components d) (d_comps d)
    [stored (pic_dc0 p); stored (pic_dc1 p); fresh_huff; fresh_huff]
    [stored (pic_ac0 p); stored (pic_ac1 p); fresh_huff; fresh_huff] true 0x3ffff
    (is_default false 0 (pic_dc0 p) && is_default true 0 (pic_ac0 p) && is_default false 1 (pic_dc1 p) && is_default true 1 (pic_ac1 p))
    false 0.

Lemma parses_tables p i k :
  pic_ok p -> decode k = before_tables p i -> 2240 <= room k ->
  exists k1, decode k1 = after_tables p i /\
    forall f rest k' c, parses (ProcessTables (S f)) rest k1 k' c ->
    parses (ProcessTables (S (S (S (S (S f))))))
      (255 :: M_DHT :: dht_segment false 0 (pic_dc0 p) ++ 255 :: M_DHT :: dht_segment true 0 (pic_ac0 p) ++
       255 :: M_DHT :: dht_segment false 1 (pic_dc1 p) ++ 255 :: M_DHT :: dht_segment true 1 (pic_ac1 p) ++ rest) k k' c.
Proof.
  intros Hp Hk Hr.
  destruct (segment_first_huff 0 (pic_dc0 p) k) as (k1 & P1 & _ & D1);
    [lia|apply Hp|exact (f_equal d_malloced Hk)|lia|]. rewrite Hk, agree_default in D1 by apply Hp.
  destruct (segment_huff true 0 (pic_ac0 p) k1 (replicate 17 0) (replicate 257 0)) as (k2 & P2 & _ & D2);
    [lia|apply Hp|exact (f_equal d_malloced D1)|exact (f_equal (fun d => d_ac d !! 0%nat) D1)|done..|].
  rewrite D1, agree_default in D2 by apply Hp.
  destruct (segment_huff false 1 (pic_dc1 p) k2 (replicate 17 0) (replicate 257 0)) as (k3 & P3 & _ & D3);
    [lia|apply Hp|exact (f_equal d_malloced D2)|exact (f_equal (fun d => d_dc d !! 1%nat) D2)|done..|].
  rewrite D2, agree_default in D3 by apply Hp.
  destruct (segment_huff true 1 (pic_ac1 p) k3 (replicate 17 0) (replicate 257 0)) as (k4 & P4 & _ & D4);
    [lia|apply Hp|exact (f_equal d_malloced D3)|exact (f_equal (fun d => d_ac d !! 1%nat) D3)|done..|].
  rewrite D3, agree_default in D4 by apply Hp.
  exists k4. split; [exact D4|]. intros f rest k' c Hrest.
  apply (parses_segment _ M_DHT _ _ k k1); [done..|exact P1|].
  apply (parses_segment _ M_DHT _ _ k1 k2); [done..|exact P2|].
  apply (parses_segment _ M_DHT _ _ k2 k3); [done..|exact P3|].
  by apply (parses_segment _ M_DHT _ _ k3 k4).
Qed.

Lemma parses_restart n k :
  0 <= n < 65536 ->
  exists k1, (decode k1 = let d := decode k in
      mk_decoded (d_input d) (d_quant d) (d_maps d) (d_ids d) (d_components d) (d_comps d) (d_dc d) (d_ac d) (d_malloced d)
        (if n =? 0 then d_restart d else n) (d_default_huff d) (d_default_quant d) (d_scan d)) /\
    forall f rest k' c, (forall f, parses (ProcessTables (S (S f))) rest k1 k' c) ->
    parses (ProcessTables (S (S (S f)))) (dri_bytes n ++ rest) k k' c.
Proof.
  intros Hn. unfold dri_bytes. destruct (n =? 0).
  - exists k. split; [reflexivity|]. intros f rest k' c H. apply H.
  - exists (with_restart n k). split; [reflexivity|]. intros f rest k' c H.
    apply (parses_segment _ M_DRI [0; 4; n / 256; n mod 256] _ k (with_restart n k)); [done..|by apply parses_DRI|apply H].
Qed.

(** The scan header at the end. *)
Lemma parses_scan p i k n :
  pic_ok p ->
  decode k = (let d := after_tables p i in
    mk_decoded (d_input d) (d_quant d) (d_maps d) (d_ids d) (d_components d) (d_comps d) (d_dc d) (d_ac d) (d_malloced d)
      n (d_default_huff d) (d_default_quant d) (d_scan d)) ->
  exists k1, parses GetSOS (scan_bytes p) k k1 tt /\
    (read_restart (pic_restart p) = n -> decode k1 = read_back p i).
Proof.
  intros Hp Hk. destruct (ok_map0 p Hp) as (_ & A0 & B0), (ok_map1 p Hp) as (_ & A1 & B1), (ok_map2 p Hp) as (_ & A2 & B2).
  assert (forall m, 0 <= dc_huff_tbl_id m < 16 -> 0 <= ac_huff_tbl_id m < 16 ->
    byte_ok (scan_byte m) /\ with_huff_ids (with_quant_id no_map (quant_tbl_id m)) (scan_byte m) = m) as Hs.
  { intros [d a q] Hd Ha. cbn in *. unfold scan_byte, pair_byte, byte_ok. cbn [dc_huff_tbl_id ac_huff_tbl_id].
    destruct (nibbles d a Hd Ha) as (_ & E1 & E2). split; [lia|]. unfold with_huff_ids. by rewrite E1, E2. }
  destruct (Hs _ A0 B0) as [S0 E0], (Hs _ A1 B1) as [S1 E1], (Hs _ A2 B2) as [S2 E2].
  eexists. split.
  { eapply (parses_SOS _ _ _ (pair_byte (pic_h p) (pic_v p))); [done..| | | |].
    - exact (f_equal d_components Hk).
    - exact (f_equal d_comps Hk).
    - exact (f_equal d_maps Hk).
    - by rewrite (f_equal d_ids Hk : comp_id_map (codec k) = _). }
  intros <-. rewrite E0, E1, E2. unfold decode in *. cbn. injection Hk. intros. unfold read_back. by repeat f_equal.
Qed.

(** ** The whole header *)
Lemma parses_body p i k :
  pic_ok p -> decode k = start i -> 2425 <= room k ->
  exists k1 k2, (forall f, parses (ProcessTables (11 + f)) (tables_bytes p [255; M_SOS]) k k1 M_SOS) /\
    parses GetSOS (scan_bytes p) k1 k2 tt /\ decode k2 = read_back p i.
Proof.
  intros Hp Hk Hr. destruct (parses_frame p i k Hp Hk) as (k1 & D1 & R1 & P1); [lia|].
  destruct (parses_tables p i k1 Hp D1) as (k2 & D2 & P2); [lia|].
  destruct (parses_restart (pic_restart p) k2 (ok_restart p Hp)) as (k3 & D3 & P3). rewrite D2 in D3.
  destruct (parses_scan p i k3 _ Hp D3) as (k4 & P4 & D4). exists k3, k4. split; [|split; [exact P4|by apply D4]].
  intros f. apply P1, P2, P3. intros f'. apply parses_last_marker.
Qed.

(** A header with more segments, which the parser skips, between its start and its tables. *)
Definition header_with (seg : list Z) (p : picture) : list Z := 255 :: M_SOI :: seg ++ tables_bytes p (255 :: M_SOS :: scan_bytes p).

Lemma parses_head_with seg n p i k f :
  (forall f rest k' c, parses (ProcessTables (S f)) rest k k' c -> parses (ProcessTables (n + S f)) (seg ++ rest) k k' c) ->
  pic_ok p -> decode k = start i -> 2425 <= room k ->
  exists k1, parses (ParseHead (n + (11 + f))) (header_with seg p) k k1 tt /\ decode k1 = read_back p i.
Proof.
  intros Hseg Hp Hk Hr. destruct (parses_body p i k Hp Hk Hr) as (k1 & k2 & P1 & P2 & D2). exists k2. split; [|done].
  unfold ParseHead, header_with. apply (parses_bind _ _ [255; M_SOI] _ k k k2 tt).
  - replace (n + (11 + f))%nat with (S (S (n + (9 + f)))) by lia. cbn [find_SOI].
    apply (parses_bind _ _ [255; M_SOI] [] k k k M_SOI); [by apply parses_marker|]. apply parses_ret.
  - replace (seg ++ tables_bytes p (255 :: M_SOS :: scan_bytes p)) with ((seg ++ tables_bytes p [255; M_SOS]) ++ scan_bytes p)
      by (rewrite <- app_assoc; f_equal; unfold tables_bytes; cbn [app]; rewrite <- ?app_assoc; repeat (cbn [app]; rewrite <- app_assoc); reflexivity).
    apply (parses_bind _ _ _ _ k k1 k2 M_SOS); [|exact P2]. apply (Hseg (10 + f)%nat), P1.
Qed.

(** ** [JPEG_FWParseHead] *)

(** Where the file comes from: the caller's buffer, or the callback. *)
Definition source (read_bitstream : option (Z -> Z -> list Z)) (bitstream : list Z) (bitstream_len : Z) (file : list Z) : Prop :=
  match read_bitstream with
  | None => bitstream = file /\ bitstream_len = zlen file
  | Some rd => file_reader rd file /\ zlen file < 2 ^ 32
  end.

(** A buffer with room for the tables of a header and the stream buffer. *)
Definition pool_ok (ptr size : Z) : Prop := 0 < ptr < 2 ^ 32 - 3 /\ 5503 <= size < 2 ^ 32.

Lemma align4 ptr : 0 < ptr < 2 ^ 32 - 3 -> 0 <= u32 (Z.shiftl (Z.shiftr (u32 (ptr + 3)) 2) 2 - ptr) <= 3.
Proof.
  intros H. rewrite (u32_small (ptr + 3)) by (unfold u32_ok; lia). rewrite Z.shiftr_div_pow2, Z.shiftl_mul_pow2 by lia.
  change (2 ^ 2) with 4. assert (0 <= (ptr + 3) / 4 * 4 - ptr <= 3) by (Z.to_euclidean_division_equations; lia).
  rewrite u32_small by (unfold u32_ok; lia). done.
Qed.

Lemma init_mem ptr size k :
  pool_ok ptr size -> exists k', JpegDec_InitMem (Some (ptr, size)) k = Done k' /\ decode k' = decode k /\
    read (codec k') = read (codec k) /\ 5500 <= room k' /\ s_used_extra_mem k' = 0.
Proof.
  intros [Hp Hs]. unfold JpegDec_InitMem. guard_false ((ptr =? 0) || (size <? 4)). pose proof (align4 ptr Hp) as Ha.
  eexists. split; [reflexivity|]. split_and!; [done|done| |done]. unfold room. cbn [s_extra_mem_size s_used_extra_mem].
  rewrite u32_small by (unfold u32_ok; lia). lia.
Qed.

(** The stream before the first byte. *)
Definition opened (s : stream) (k : core) (file : list Z) : Prop :=
  holds s k file /\ s_header_len s = 0 /\ s_inter_buf_ptr s = 0 /\ Z.min (zlen file) 3072 <= s_jremain_byte_num s.

Lemma init_bitstream rb buf n file k :
  source rb buf n file -> read (codec k) = None -> 5500 <= room k -> 0 <= s_used_extra_mem k ->
  exists s k', JpegDec_InitBitream rb buf n k = Done (s, k') /\ opened s k' file /\ decode k' = decode k /\ 2425 <= room k' /\
    (rb = None -> s_jremain_byte_num s = zlen file).
Proof.
  intros Hs Hn Hr Hu. unfold JpegDec_InitBitream. destruct rb as [rd|].
  - destruct Hs as [Hf Hl]. change (3 * 1024) with 3072.
    unfold JpegDec_ExtraMemAlloc. change (Z.land (u32 (3072 + 3)) (2 ^ 32 - 4)) with 3072.
    unfold room in Hr. guard_false (s_extra_mem_size k - s_used_extra_mem k <? 3072). cbn [obind].
    set (k1 := set_codec _ _). set (s0 := mk_stream (replicate (Z.to_nat 3072) 0) 3072 0 0 0 0).
    change (refill rd (mk_stream (replicate (Z.to_nat 3072) 0) 3072 0 3072 0 0)) with (refill rd s0).
    assert (holds s0 k1 file) as Hh.
    { split; cbn; try (done || lia). exists file. split; [done|]. exists file. split_and!; try (done || (cbn; lia)). pose proof (zlen_nonneg file). cbn. lia. }
    destruct (refill_holds rd s0 k1 file eq_refl eq_refl Hh) as (s & Es & Hs & Eh & _). rewrite Es. cbn [obind].
    exists s, k1. split; [done|]. split; [|split; [done|split; [unfold room; cbn; lia|done]]].
    unfold refill in Es. cbn [s_file_offset s_inter_buf_bitstream_len s0] in Es.
    destruct (splice _ _ _) as [b| |]; try done. injection Es as <-. split_and!; try done.
    cbn [s_jremain_byte_num]. rewrite Hf by lia. unfold zlen. rewrite length_take, length_drop. lia.
  - destruct Hs as [-> ->]. exists (mk_stream file (zlen file) 0 (zlen file) 0 0), k. split; [done|].
    split; [|split; [done|split; [lia|done]]]. pose proof (zlen_nonneg file). split_and!; [|done|done|cbn; lia].
    split; cbn; try (done || lia). exists []. rewrite Hn. split; [|done].
    rewrite app_nil_r, drop_0. unfold zlen. by rewrite Nat2Z.id, firstn_all.
Qed.

(** Bytes of the buffer are bytes of the file. *)
Lemma opened_byte s k file (j : nat) b :
  opened s k file -> file !! j = Some b -> Z.of_nat j < s_jremain_byte_num s ->
  rd (s_inter_buf_bitstream s) (Z.of_nat j) = Done b.
Proof.
  intros ([H1 H2 H3 H4 (tail & -> & _)] & _ & E & _) Hj Hl. apply rd_Some; [lia|]. rewrite Nat2Z.id.
  rewrite E in *. change (Z.to_nat 0) with 0%nat in Hj. rewrite drop_0 in Hj.
  assert (j < length (s_inter_buf_bitstream s))%nat by (unfold zlen in *; lia).
  rewrite lookup_app_l in Hj by (rewrite length_take; lia). by rewrite lookup_take_lt in Hj by lia.
Qed.

Lemma stuffed_clean n ptr s len :
  (forall j, 0 <= j < Z.of_nat n -> exists b, rd (s_inter_buf_bitstream s) (ptr + j) = Done b /\ b <> 255) ->
  stuffed n ptr s len = Done len.
Proof.
  revert ptr. induction n as [|n IH]; intros ptr H; cbn [stuffed]; [done|].
  destruct (H 0) as (b & Eb & Hb); [lia|]. rewrite Z.add_0_r in Eb. rewrite Eb. cbn [obind].
  rewrite (proj2 (Z.eqb_neq b 255)) by done. cbn [obind]. apply IH. intros j Hj.
  destruct (H (j + 1)) as (b' & E' & ?); [lia|]. exists b'. split; [|done]. rewrite <- E'. f_equal. lia.
Qed.

Lemma header_ends seg p : exists pre, header_with seg p = pre ++ [0; 63; 0].
Proof.
  exists (255 :: M_SOI :: seg ++ tables_bytes p (255 :: M_SOS :: take 9 (scan_bytes p))).
  unfold header_with, tables_bytes, scan_bytes, sos_bytes. cbn [app take]. repeat (rewrite <- app_assoc; cbn [app]). reflexivity.
Qed.

Lemma header_size p : pic_ok p -> 0 < zlen (header_bytes p) <= 3072.
Proof.
  intros Hp. destruct (ok_dc0 p Hp) as ((L0 & _ & V0) & _), (ok_dc1 p Hp) as ((L1 & _ & V1) & _),
    (ok_ac0 p Hp) as ((L2 & _ & V2) & _), (ok_ac1 p Hp) as ((L3 & _ & V3) & _).
  unfold header_bytes, tables_bytes, scan_bytes, sos_bytes, dht_segment, dht_bytes, dqt_bytes, sof_bytes, app0_bytes, dri_bytes.
  unfold zlen in *. destruct (pic_restart p =? 0); repeat (progress (rewrite ?length_app; cbn [length app]));
    rewrite ?length_zigzag; cbn [length] in *; lia.
Qed.

(** The parser has the header in its buffer: a short one, or one in memory. *)
Definition in_sight (rb : option (Z -> Z -> list Z)) (hdr : list Z) : Prop :=
  0 < zlen hdr < 2 ^ 32 /\ (zlen hdr <= 3072 \/ rb = None).

(** Nothing is taken off the length: the last bytes of a header are no stuffed ones. *)
Lemma header_len_exact seg p s s' k data (hdr := header_with seg p) :
  0 < zlen hdr < 2 ^ 32 -> zlen hdr <= s_jremain_byte_num s -> opened s k (hdr ++ data) -> moved (zlen hdr) s s' ->
  exists s2, get_header_len s' = Done (zlen hdr, s2).
Proof.
  intros Hz Hj Ho [El Em]. pose proof Ho as (_ & E0 & E1 & _).
  pose proof (zlen_nonneg data). destruct Em as (Eb & Ep & _); [lia|].
  rewrite E0, Z.add_0_l, u32_small in El by (unfold u32_ok; lia). rewrite E1, Z.add_0_l in Ep.
  unfold get_header_len. rewrite El. set (n := zlen hdr) in *.
  assert (0 <= n - Z.shiftl (Z.shiftr n 2) 2 <= 3) as Hn.
  { rewrite Z.shiftr_div_pow2, Z.shiftl_mul_pow2 by lia. change (2 ^ 2) with 4. Z.to_euclidean_division_equations. lia. }
  set (u := n - Z.shiftl (Z.shiftr n 2) 2) in *. destruct (1 <? u); [|cbn; eauto].
  rewrite stuffed_clean; [cbn; eauto|]. intros j Hj'. rewrite Eb, Ep. rewrite Z2Nat.id in Hj' by lia.
  destruct (header_ends seg p) as [pre Ee]. fold hdr in Ee.
  assert (n = zlen pre + 3) as Hpre by (unfold n; rewrite Ee, zlen_app; done).
  assert (exists b, (hdr ++ data) !! Z.to_nat (n - u + j) = Some b /\ b <> 255) as (b & Hb & ?).
  { rewrite Ee, <- app_assoc. rewrite lookup_app_r by (unfold zlen in *; lia).
    assert (Z.to_nat (n - u + j) - length pre < 3)%nat as Hl by (unfold zlen in *; lia).
    destruct (Z.to_nat (n - u + j) - length pre)%nat as [|[|[|]]]; [by eexists..|lia]. }
  exists b. split; [|done]. replace (n - u + j) with (Z.of_nat (Z.to_nat (n - u + j))) by (unfold zlen in *; lia).
  apply (opened_byte s k (hdr ++ data)); [done|done|unfold zlen in *; lia].
Qed.

(** A header does not begin like a resource file. *)
Lemma header_not_res seg p s k data : opened s k (header_with seg p ++ data) -> is_res_jpg_file s = Done false.
Proof.
  intros Ho. pose proof Ho as (_ & _ & E & Hj). unfold is_res_jpg_file. rewrite E. cbn [starts_with].
  change 0 with (Z.of_nat 0). rewrite (opened_byte s k (header_with seg p ++ data) 0 255 Ho eq_refl); [done|].
  unfold header_with, zlen in Hj. cbn [app length] in Hj. lia.
Qed.

Definition with_header_len (n : Z) (d : decoded) : decoded :=
  mk_decoded (set_header_len n (d_input d)) (d_quant d) (d_maps d) (d_ids d) (d_components d) (d_comps d) (d_dc d) (d_ac d)
    (d_malloced d) (d_restart d) (d_default_huff d) (d_default_quant d) (d_scan d).

Lemma header_with_parsed seg g p rb buf n data ptr size i f :
  (forall k f rest k' c, parses (ProcessTables (S f)) rest k k' c -> parses (ProcessTables (g + S f)) (seg ++ rest) k k' c) ->
  pic_ok p -> in_sight rb (header_with seg p) -> source rb buf n (header_with seg p ++ data) -> pool_ok ptr size ->
  exists s k, JPEG_FWParseHead (g + (11 + f)) (Some (ptr, size)) rb buf n i = Done (true, s, k) /\
    decode k = with_header_len (zlen (header_with seg p)) (read_back p i).
Proof.
  intros Hseg Hp [Hz Hv] Hs Hm. unfold JPEG_FWParseHead.
  destruct (init_mem ptr size (mk_core codec_zero i 0 0 false) Hm) as (k0 & -> & D0 & N0 & R0 & U0). cbn [obind].
  set (k1 := set_codec (set_restart_to_go _ _) _).
  destruct (init_bitstream rb buf n _ k1 Hs) as (s & k2 & -> & O2 & D2 & R2 & J2); [exact N0|exact R0|change (0 <= s_used_extra_mem k0); lia|].
  cbn [obind]. rewrite (header_not_res seg p s k2 data O2). cbn [obind].
  assert (decode k2 = start i) as Hst.
  { rewrite D2. unfold decode in D0 |- *. injection D0. intros. unfold k1. cbn. unfold start. by repeat f_equal. }
  destruct (parses_head_with seg g p i k2 f (Hseg k2) Hp Hst R2) as (k3 & P3 & D3).
  destruct (P3 s data) as (s3 & -> & _ & M3); [apply O2|]. cbn [obind].
  assert (zlen (header_with seg p) <= s_jremain_byte_num s) as Hj.
  { pose proof (zlen_nonneg data). destruct O2 as (_ & _ & _ & Hj). rewrite zlen_app in *. destruct Hv as [Hv | Hv]; [|rewrite (J2 Hv)]; lia. }
  destruct (header_len_exact seg p s s3 k2 data Hz Hj O2 M3) as (s4 & ->). cbn [obind].
  eexists s4, _. split; [reflexivity|]. rewrite <- D3. reflexivity.
Qed.

Lemma header_parsed p rb buf n data ptr size i f :
  pic_ok p -> source rb buf n (header_bytes p ++ data) -> pool_ok ptr size ->
  exists s k, JPEG_FWParseHead (11 + f) (Some (ptr, size)) rb buf n i = Done (true, s, k) /\
    decode k = with_header_len (zlen (header_bytes p)) (read_back p i).
Proof.
  intros Hp Hs Hm. pose proof (header_size p Hp). apply (header_with_parsed [] 0 p rb buf n data ptr size i f); try done.
  change (header_with [] p) with (header_bytes p). split; [lia|]. left. lia.
Qed.

(** C5. What [JPEG_HWWriteHead] writes for a codec that holds the parameters of a picture,
    [JPEG_FWParseHead] reads back: from the caller's buffer or through the callback, and
    whatever follows the header, it succeeds, and the size, the format, both kinds of
    tables, the table map, the sampling factors, the restart interval and the length of
    the header are those of the picture. *)
Theorem header_roundtrip c p polls :
  pic_ok p -> encodes c p -> Forall (eq true) polls ->
  exists polls' w, JPEG_HWWriteHead c polls [] = Done (true, polls', w) /\
    forall rb buf n data ptr size i f, source rb buf n (written w ++ data) -> pool_ok ptr size ->
    exists s k, JPEG_FWParseHead (11 + f) (Some (ptr, size)) rb buf n i = Done (true, s, k) /\
      decode k = with_header_len (zlen (written w)) (read_back p i).
Proof.
  intros Hp Hc Hpolls. destruct (writes_head c p Hp Hc polls [] Hpolls) as (polls' & w & E & _ & Hw).
  exists polls', w. split; [exact E|]. rewrite Hw. intros. by eapply header_parsed.
Qed.

(** A picture to try. *)
Definition sample_picture : picture :=
  mk_picture 480 640 2 2 JPEG_FW_YUV420 (mk_map 0 0 0) (mk_map 1 1 1) (mk_map 1 1 1)
    (replicate 64 16) (replicate 64 17)
    ([0; 1; 5; 1; 1; 1; 1; 1; 1; 0; 0; 0; 0; 0; 0; 0], [0; 1; 2; 3; 4; 5; 6; 7; 8; 9; 10; 11])
    ([0; 2; 1; 0; 0; 0; 0; 0; 0; 0; 0; 0; 0; 0; 0; 0], [1; 2; 3])
    ([0; 3; 1; 1; 1; 1; 1; 1; 1; 1; 1; 0; 0; 0; 0; 0], [0; 1; 2; 3; 4; 5; 6; 7; 8; 9; 10; 11])
    ([0; 2; 1; 0; 0; 0; 0; 0; 0; 0; 0; 0; 0; 0; 0; 0], [0; 1; 17]) 4.

Definition sample_codec : JPEG_CODEC_T :=
  let p := sample_picture in
  let t (x : list Z * list Z) := mk_huff (Some (0 :: x.1)) (Some x.2) in
  mk_codec (pic_restart p) 0 0 (pic_width p) (pic_height p) [mk_ratio 2 2; mk_ratio 1 1; mk_ratio 1 1] M_RST0
    [pic_map0 p; pic_map1 p; pic_map2 p] 3 [t (pic_dc0 p); t (pic_dc1 p); no_huff; no_huff]
    [t (pic_ac0 p); t (pic_ac1 p); no_huff; no_huff] [Some (pic_quant0 p); Some (pic_quant1 p); None]
    None false false [0; 0; 0] None 0 0 0 0 0 0 false.

Lemma bytes_check l : forallb (fun x => (0 <=? x) && (x <? 256)) l = true -> Forall byte_ok l.
Proof.
  intros H. apply Forall_forall. intros x Hx%list_elem_of_In. rewrite forallb_forall in H. specialize (H x Hx).
  unfold byte_ok. lia.
Qed.

Lemma sample_ok : pic_ok sample_picture /\ encodes sample_codec sample_picture.
Proof.
  assert (forall ac t, length t.1 = 16%nat -> sum16 t.1 0 = zlen t.2 -> zlen t.2 <= 12 ->
    forallb (fun x => (0 <=? x) && (x <? 256)) t.1 = true -> forallb (fun x => (0 <=? x) && (x <? 256)) t.2 = true -> table_ok ac t) as Ht.
  { intros ac t H1 H2 H3 H4 H5. split_and!; [|by apply bytes_check..]. split_and!; [done..|]. destruct ac; lia. }
  split; split; try done; try (by split; [done|apply bytes_check]); try (by apply Ht);
    try (split_and!; cbn; lia); by eexists; split; [reflexivity|]; eexists _, []; rewrite app_nil_r.
Qed.

Lemma header_roundtrip_witness :
  (exists polls' w, JPEG_HWWriteHead sample_codec [true; true] [] = Done (true, polls', w)) /\
  exists polls' w, JPEG_HWWriteHead sample_codec [true; true] [] = Done (true, polls', w) /\
    forall rb buf n data ptr size i f, source rb buf n (written w ++ data) -> pool_ok ptr size ->
    exists s k, JPEG_FWParseHead (11 + f) (Some (ptr, size)) rb buf n i = Done (true, s, k) /\
      decode k = with_header_len (zlen (written w)) (read_back sample_picture i).
Proof.
  split; [do 2 eexists; vm_compute; reflexivity|].
  apply (header_roundtrip sample_codec sample_picture [true; true]); [apply sample_ok|apply sample_ok|repeat constructor].
Defined.
