(* ===== verification/JpegEncoder.v ===== *)
(** * libs/libcamera/jpeg/jpeg_fw_8830/src: setting up the encoder

    jpegenc_init.c, jpegenc_malloc.c, the start of jpegenc_interface.c, jpegenc_frame.c
    and the register driver of libs/libcamera/vsp/sc8830.  The codec is checked against
    the caller's parameters, its geometry and tables are chosen, and the registers of
    the hardware are written.  A register is its offset from [JPG_CTRL_BASE]; the
    device behind the registers is the parameter [hw], which answers a read from the
    writes it has seen.  The polls whose result the code drops have no effect here, nor
    have the reads of the trace messages. *)

From S2P Require Import Prelude JpegCodec JpegStream JpegParse JpegHeader JpegRoundtrip JpegImage.

(** ** Data *)
Record YUV_FORMAT_T := mk_yuv {
  y_data_ptr : Z;
  u_data_ptr : Z;
  v_data_ptr : Z;
  yuv_mcu_info : Z;
  yuv_out_mcu_info : Z;
  input_endian : Z
}.

Record JPEG_ENC_INPUT_PARA_T := mk_para {
  p_width : Z;
  p_height : Z;
  stream_buf0 : Z;
  stream_buf1 : Z;
  bitstream_buf_len : Z;
  yuv_0_info : YUV_FORMAT_T;
  yuv_1_info : YUV_FORMAT_T;
  enc_buf : Z * Z;
  p_quant_level : Z;
  p_work_mode : Z;
  p_mbio_bfr0_valid : bool;
  p_mbio_bfr1_valid : bool;
  p_bsm_buf0_valid : bool;
  p_bsm_buf1_valid : bool;
  p_is_first_slice : bool;
  p_is_last_slice : bool;
  p_restart_interval : Z
}.

(** The members of [JPEG_CODEC_T] that the encoder sets; [enc_codec] holds those that the
    header code shares with the decoder. *)
Record JPEG_ENC_T := mk_enc {
  enc_codec : JPEG_CODEC_T;
  work_mode : Z;
  is_first_slice : bool;
  is_last_slice : bool;
  enc_mcu_info : Z;
  compress_level : Z;
  YUV_Info_0 : YUV_FORMAT_T;
  YUV_Info_1 : YUV_FORMAT_T;
  uv_interleaved : bool;
  stream_0 : Z;
  stream_1 : Z;
  pingpang_buf_len : Z;
  mcu_height : Z;
  mcu_width : Z;
  mcu_num_x : Z;
  mcu_num_y : Z;
  c_width : Z;
  c_height : Z;
  mbio_bfr0_valid : bool;
  mbio_bfr1_valid : bool;
  bsm_buf0_valid : bool;
  bsm_buf1_valid : bool;
  g_stream_buf_ptr : Z;
  quant_tbl_new : list (option (list Z));
  quant_tbl_shift : list (option (list Z))
}.

Definition set_enc_codec (v : JPEG_CODEC_T) (e : JPEG_ENC_T) : JPEG_ENC_T :=
  mk_enc v (work_mode e) (is_first_slice e) (is_last_slice e) (enc_mcu_info e) (compress_level e)
    (YUV_Info_0 e) (YUV_Info_1 e) (uv_interleaved e) (stream_0 e) (stream_1 e)
    (pingpang_buf_len e) (mcu_height e) (mcu_width e) (mcu_num_x e) (mcu_num_y e) (c_width e)
    (c_height e) (mbio_bfr0_valid e) (mbio_bfr1_valid e) (bsm_buf0_valid e) (bsm_buf1_valid e)
    (g_stream_buf_ptr e) (quant_tbl_new e) (quant_tbl_shift e).
Definition set_is_first_slice (v : bool) (e : JPEG_ENC_T) : JPEG_ENC_T :=
  mk_enc (enc_codec e) (work_mode e) v (is_last_slice e) (enc_mcu_info e) (compress_level e)
    (YUV_Info_0 e) (YUV_Info_1 e) (uv_interleaved e) (stream_0 e) (stream_1 e)
    (pingpang_buf_len e) (mcu_height e) (mcu_width e) (mcu_num_x e) (mcu_num_y e) (c_width e)
    (c_height e) (mbio_bfr0_valid e) (mbio_bfr1_valid e) (bsm_buf0_valid e) (bsm_buf1_valid e)
    (g_stream_buf_ptr e) (quant_tbl_new e) (quant_tbl_shift e).
Definition set_is_last_slice (v : bool) (e : JPEG_ENC_T) : JPEG_ENC_T :=
  mk_enc (enc_codec e) (work_mode e) (is_first_slice e) v (enc_mcu_info e) (compress_level e)
    (YUV_Info_0 e) (YUV_Info_1 e) (uv_interleaved e) (stream_0 e) (stream_1 e)
    (pingpang_buf_len e) (mcu_height e) (mcu_width e) (mcu_num_x e) (mcu_num_y e) (c_width e)
    (c_height e) (mbio_bfr0_valid e) (mbio_bfr1_valid e) (bsm_buf0_valid e) (bsm_buf1_valid e)
    (g_stream_buf_ptr e) (quant_tbl_new e) (quant_tbl_shift e).
Definition set_YUV_Info_0 (v : YUV_FORMAT_T) (e : JPEG_ENC_T) : JPEG_ENC_T :=
  mk_enc (enc_codec e) (work_mode e) (is_first_slice e) (is_last_slice e) (enc_mcu_info e)
    (compress_level e) v (YUV_Info_1 e) (uv_interleaved e) (stream_0 e) (stream_1 e)
    (pingpang_buf_len e) (mcu_height e) (mcu_width e) (mcu_num_x e) (mcu_num_y e) (c_width e)
    (c_height e) (mbio_bfr0_valid e) (mbio_bfr1_valid e) (bsm_buf0_valid e) (bsm_buf1_valid e)
    (g_stream_buf_ptr e) (quant_tbl_new e) (quant_tbl_shift e).
Definition set_YUV_Info_1 (v : YUV_FORMAT_T) (e : JPEG_ENC_T) : JPEG_ENC_T :=
  mk_enc (enc_codec e) (work_mode e) (is_first_slice e) (is_last_slice e) (enc_mcu_info e)
    (compress_level e) (YUV_Info_0 e) v (uv_interleaved e) (stream_0 e) (stream_1 e)
    (pingpang_buf_len e) (mcu_height e) (mcu_width e) (mcu_num_x e) (mcu_num_y e) (c_width e)
    (c_height e) (mbio_bfr0_valid e) (mbio_bfr1_valid e) (bsm_buf0_valid e) (bsm_buf1_valid e)
    (g_stream_buf_ptr e) (quant_tbl_new e) (quant_tbl_shift e).
Definition set_uv_interleaved (v : bool) (e : JPEG_ENC_T) : JPEG_ENC_T :=
  mk_enc (enc_codec e) (work_mode e) (is_first_slice e) (is_last_slice e) (enc_mcu_info e)
    (compress_level e) (YUV_Info_0 e) (YUV_Info_1 e) v (stream_0 e) (stream_1 e)
    (pingpang_buf_len e) (mcu_height e) (mcu_width e) (mcu_num_x e) (mcu_num_y e) (c_width e)
    (c_height e) (mbio_bfr0_valid e) (mbio_bfr1_valid e) (bsm_buf0_valid e) (bsm_buf1_valid e)
    (g_stream_buf_ptr e) (quant_tbl_new e) (quant_tbl_shift e).
Definition set_mbio_bfr0_valid (v : bool) (e : JPEG_ENC_T) : JPEG_ENC_T :=
  mk_enc (enc_codec e) (work_mode e) (is_first_slice e) (is_last_slice e) (enc_mcu_info e)
    (compress_level e) (YUV_Info_0 e) (YUV_Info_1 e) (uv_interleaved e) (stream_0 e)
    (stream_1 e) (pingpang_buf_len e) (mcu_height e) (mcu_width e) (mcu_num_x e) (mcu_num_y e)
    (c_width e) (c_height e) v (mbio_bfr1_valid e) (bsm_buf0_valid e) (bsm_buf1_valid e)
    (g_stream_buf_ptr e) (quant_tbl_new e) (quant_tbl_shift e).
Definition set_mbio_bfr1_valid (v : bool) (e : JPEG_ENC_T) : JPEG_ENC_T :=
  mk_enc (enc_codec e) (work_mode e) (is_first_slice e) (is_last_slice e) (enc_mcu_info e)
    (compress_level e) (YUV_Info_0 e) (YUV_Info_1 e) (uv_interleaved e) (stream_0 e)
    (stream_1 e) (pingpang_buf_len e) (mcu_height e) (mcu_width e) (mcu_num_x e) (mcu_num_y e)
    (c_width e) (c_height e) (mbio_bfr0_valid e) v (bsm_buf0_valid e) (bsm_buf1_valid e)
    (g_stream_buf_ptr e) (quant_tbl_new e) (quant_tbl_shift e).
Definition set_bsm_buf0_valid (v : bool) (e : JPEG_ENC_T) : JPEG_ENC_T :=
  mk_enc (enc_codec e) (work_mode e) (is_first_slice e) (is_last_slice e) (enc_mcu_info e)
    (compress_level e) (YUV_Info_0 e) (YUV_Info_1 e) (uv_interleaved e) (stream_0 e)
    (stream_1 e) (pingpang_buf_len e) (mcu_height e) (mcu_width e) (mcu_num_x e) (mcu_num_y e)
    (c_width e) (c_height e) (mbio_bfr0_valid e) (mbio_bfr1_valid e) v (bsm_buf1_valid e)
    (g_stream_buf_ptr e) (quant_tbl_new e) (quant_tbl_shift e).
Definition set_bsm_buf1_valid (v : bool) (e : JPEG_ENC_T) : JPEG_ENC_T :=
  mk_enc (enc_codec e) (work_mode e) (is_first_slice e) (is_last_slice e) (enc_mcu_info e)
    (compress_level e) (YUV_Info_0 e) (YUV_Info_1 e) (uv_interleaved e) (stream_0 e)
    (stream_1 e) (pingpang_buf_len e) (mcu_height e) (mcu_width e) (mcu_num_x e) (mcu_num_y e)
    (c_width e) (c_height e) (mbio_bfr0_valid e) (mbio_bfr1_valid e) (bsm_buf0_valid e) v
    (g_stream_buf_ptr e) (quant_tbl_new e) (quant_tbl_shift e).
Definition set_g_stream_buf_ptr (v : Z) (e : JPEG_ENC_T) : JPEG_ENC_T :=
  mk_enc (enc_codec e) (work_mode e) (is_first_slice e) (is_last_slice e) (enc_mcu_info e)
    (compress_level e) (YUV_Info_0 e) (YUV_Info_1 e) (uv_interleaved e) (stream_0 e)
    (stream_1 e) (pingpang_buf_len e) (mcu_height e) (mcu_width e) (mcu_num_x e) (mcu_num_y e)
    (c_width e) (c_height e) (mbio_bfr0_valid e) (mbio_bfr1_valid e) (bsm_buf0_valid e)
    (bsm_buf1_valid e) v (quant_tbl_new e) (quant_tbl_shift e).
Definition set_quant_tbl_new (v : list (option (list Z))) (e : JPEG_ENC_T) : JPEG_ENC_T :=
  mk_enc (enc_codec e) (work_mode e) (is_first_slice e) (is_last_slice e) (enc_mcu_info e)
    (compress_level e) (YUV_Info_0 e) (YUV_Info_1 e) (uv_interleaved e) (stream_0 e)
    (stream_1 e) (pingpang_buf_len e) (mcu_height e) (mcu_width e) (mcu_num_x e) (mcu_num_y e)
    (c_width e) (c_height e) (mbio_bfr0_valid e) (mbio_bfr1_valid e) (bsm_buf0_valid e)
    (bsm_buf1_valid e) (g_stream_buf_ptr e) v (quant_tbl_shift e).
Definition set_quant_tbl_shift (v : list (option (list Z))) (e : JPEG_ENC_T) : JPEG_ENC_T :=
  mk_enc (enc_codec e) (work_mode e) (is_first_slice e) (is_last_slice e) (enc_mcu_info e)
    (compress_level e) (YUV_Info_0 e) (YUV_Info_1 e) (uv_interleaved e) (stream_0 e)
    (stream_1 e) (pingpang_buf_len e) (mcu_height e) (mcu_width e) (mcu_num_x e) (mcu_num_y e)
    (c_width e) (c_height e) (mbio_bfr0_valid e) (mbio_bfr1_valid e) (bsm_buf0_valid e)
    (bsm_buf1_valid e) (g_stream_buf_ptr e) (quant_tbl_new e) v.

(** [JPEG_MCU_FORMAT_E] as numbers. *)
Definition YUV420 : Z := 0.
Definition YUV422 : Z := 3.
Definition JPEG_QUALITY_MAX : Z := 5.
Definition ALONE_MODE : Z := 0.
Definition SWITCH_MODE : Z := 1.

(** ** Tables *)
Definition jpeg_fw_new_lum_quant_tbl_default : list (list Z) := [
   [3277; 2341; 2731; 3277; 2341; 2731; 2114; 3542; 2341; 2341; 2048; 2979; 2048; 3745; 3641; 3972;
    2048; 2048; 3277; 2341; 2731; 3855; 3197; 3855; 2048; 3277; 2521; 3855; 2114; 2521; 2731; 3542;
    2979; 2521; 2979; 3855; 3197; 4033; 2114; 2849; 2341; 3121; 3972; 3449; 2675; 2114; 3855; 2383;
    2260; 3449; 2789; 2521; 2114; 3591; 3641; 2149; 3048; 2383; 2300; 2222; 3913; 2185; 2114; 2222];
   [2731; 2048; 2048; 2731; 3277; 2048; 3277; 2731; 3277; 3277; 2731; 2048; 3277; 2849; 2731; 2979;
    2731; 3277; 2731; 3277; 2048; 2849; 2341; 2979; 2731; 2341; 3641; 2731; 3277; 3745; 2048; 2621;
    2341; 3641; 2185; 2979; 2427; 2979; 3197; 2114; 3277; 2341; 2979; 2521; 2048; 1560; 2913; 3542;
    3277; 2521; 2114; 3745; 3197; 2731; 2731; 3277; 2260; 3542; 3449; 1680; 2913; 3277; 3197; 3277];
   [3277; 2731; 2731; 3277; 2341; 2731; 2185; 3641; 2048; 2048; 2048; 2731; 2048; 3855; 3641; 3855;
    2048; 2048; 3277; 2341; 2731; 3855; 3641; 3855; 2048; 3277; 2341; 3641; 2185; 2521; 2731; 3449;
    3277; 2341; 2979; 3855; 3277; 3972; 2114; 2849; 2341; 2979; 3855; 3449; 2731; 2114; 3855; 2341;
    2185; 3449; 2849; 2521; 2114; 3641; 3641; 2185; 2979; 2341; 2260; 2260; 3855; 2185; 2114; 2185];
   [2731; 2048; 2048; 2731; 3277; 2048; 3277; 2731; 2048; 2048; 2731; 2048; 3277; 2731; 2731; 2979;
    2731; 2731; 2731; 3277; 2048; 2979; 2341; 2979; 2731; 2731; 2048; 2731; 3277; 3855; 2048; 2731;
    2048; 2048; 2341; 2979; 2341; 2979; 3121; 2185; 3277; 2341; 2979; 2521; 2048; 3121; 2849; 3641;
    3277; 2521; 2048; 3855; 3121; 2731; 2731; 3277; 2341; 3641; 3449; 3277; 2979; 3277; 3121; 3277];
   [2048; 2048; 2048; 2048; 2048; 2048; 3277; 2731; 2048; 2048; 2048; 2048; 2731; 2731; 2731; 2731;
    2048; 2048; 2048; 2048; 2048; 2731; 2341; 2731; 2048; 2048; 2048; 2731; 3277; 3641; 2048; 2731;
    2048; 2048; 2048; 2731; 2341; 2979; 3277; 2048; 2048; 2048; 2731; 2731; 2048; 3277; 2979; 3641;
    3277; 2731; 2048; 3641; 3277; 2731; 2731; 3277; 2341; 3641; 3277; 3277; 2979; 3277; 3277; 3277]].

Definition jpeg_fw_new_lum_quant_tbl_default_shift : list (list Z) := [
   [15; 14; 14; 15; 15; 16; 16; 17; 14; 14; 14; 15; 15; 17; 17; 17;
    14; 14; 15; 15; 16; 17; 17; 17; 14; 15; 15; 16; 16; 17; 17; 17;
    15; 15; 16; 17; 17; 18; 17; 17; 15; 16; 17; 17; 17; 17; 18; 17;
    16; 17; 17; 17; 17; 18; 18; 17; 17; 17; 17; 17; 18; 17; 17; 17];
   [14; 13; 13; 14; 15; 15; 16; 16; 14; 14; 14; 14; 15; 16; 16; 16;
    14; 14; 14; 15; 15; 16; 16; 16; 14; 14; 15; 15; 16; 17; 16; 16;
    14; 15; 15; 16; 16; 17; 17; 16; 15; 15; 16; 16; 16; 16; 17; 17;
    16; 16; 16; 17; 17; 17; 17; 17; 16; 17; 17; 16; 17; 17; 17; 17];
   [14; 13; 13; 14; 14; 15; 15; 16; 13; 13; 13; 14; 14; 16; 16; 16;
    13; 13; 14; 14; 15; 16; 16; 16; 13; 14; 14; 15; 15; 16; 16; 16;
    14; 14; 15; 16; 16; 17; 16; 16; 14; 15; 16; 16; 16; 16; 17; 16;
    15; 16; 16; 16; 16; 17; 17; 16; 16; 16; 16; 16; 17; 16; 16; 16];
   [13; 12; 12; 13; 14; 14; 15; 15; 12; 12; 13; 13; 14; 15; 15; 15;
    13; 13; 13; 14; 14; 15; 15; 15; 13; 13; 13; 14; 15; 16; 15; 15;
    13; 13; 14; 15; 15; 16; 16; 15; 14; 14; 15; 15; 15; 16; 16; 16;
    15; 15; 15; 16; 16; 16; 16; 16; 15; 16; 16; 16; 16; 16; 16; 16];
   [12; 11; 11; 12; 12; 13; 14; 14; 11; 11; 11; 12; 13; 14; 14; 14;
    11; 11; 12; 12; 13; 14; 14; 14; 11; 12; 12; 13; 14; 15; 14; 14;
    12; 12; 13; 14; 14; 15; 15; 14; 12; 13; 14; 14; 14; 15; 15; 15;
    14; 14; 14; 15; 15; 15; 15; 15; 14; 15; 15; 15; 15; 15; 15; 15]].

Definition jpeg_fw_new_chr_quant_tbl_default : list (list Z) := [
   [3277; 2341; 2731; 3277; 2341; 2731; 2114; 3542; 2341; 2341; 2048; 2979; 2048; 3745; 3641; 3972;
    2048; 2048; 3277; 2341; 2731; 3855; 3197; 3855; 2048; 3277; 2521; 3855; 2114; 2521; 2731; 3542;
    2979; 2521; 2979; 3855; 3197; 4033; 2114; 2849; 2341; 3121; 3972; 3449; 2675; 2114; 3855; 2383;
    2260; 3449; 2789; 2521; 2114; 3591; 3641; 2149; 3048; 2383; 2300; 2222; 3913; 2185; 2114; 2222];
   [2731; 2048; 2048; 2731; 3277; 2048; 3277; 2731; 3277; 3277; 2731; 2048; 3277; 2849; 2731; 2979;
    2731; 3277; 2731; 3277; 2048; 2849; 2341; 2979; 2731; 2341; 3641; 2731; 3277; 3745; 2048; 2621;
    2341; 3641; 2185; 2979; 2427; 2979; 3197; 2114; 3277; 2341; 2979; 2521; 2048; 1560; 2913; 3542;
    3277; 2521; 2114; 3745; 3197; 2731; 2731; 3277; 2260; 3542; 3449; 1680; 2913; 3277; 3197; 3277];
   [3277; 2731; 2731; 3277; 2341; 2731; 2185; 3641; 2048; 2048; 2048; 2731; 2048; 3855; 3641; 3855;
    2048; 2048; 3277; 2341; 2731; 3855; 3641; 3855; 2048; 3277; 2341; 3641; 2185; 2521; 2731; 3449;
    3277; 2341; 2979; 3855; 3277; 3972; 2114; 2849; 2341; 2979; 3855; 3449; 2731; 2114; 3855; 2341;
    2185; 3449; 2849; 2521; 2114; 3641; 3641; 2185; 2979; 2341; 2260; 2260; 3855; 2185; 2114; 2185];
   [2731; 2048; 2048; 2731; 3277; 2048; 3277; 2731; 2048; 2048; 2731; 2048; 3277; 2731; 2731; 2979;
    2731; 2731; 2731; 3277; 2048; 2979; 2341; 2979; 2731; 2731; 2048; 2731; 3277; 3855; 2048; 2731;
    2048; 2048; 2341; 2979; 2341; 2979; 3121; 2185; 3277; 2341; 2979; 2521; 2048; 3121; 2849; 3641;
    3277; 2521; 2048; 3855; 3121; 2731; 2731; 3277; 2341; 3641; 3449; 3277; 2979; 3277; 3121; 3277];
   [2048; 2048; 2048; 2048; 2048; 2048; 3277; 2731; 2048; 2048; 2048; 2048; 2731; 2731; 2731; 2731;
    2048; 2048; 2048; 2048; 2048; 2731; 2341; 2731; 2048; 2048; 2048; 2731; 3277; 3641; 2048; 2731;
    2048; 2048; 2048; 2731; 2341; 2979; 3277; 2048; 2048; 2048; 2731; 2731; 2048; 3277; 2979; 3641;
    3277; 2731; 2048; 3641; 3277; 2731; 2731; 3277; 2341; 3641; 3277; 3277; 2979; 3277; 3277; 3277]].

Definition jpeg_fw_new_chr_quant_tbl_default_shift : list (list Z) := [
   [15; 14; 14; 15; 15; 16; 16; 17; 14; 14; 14; 15; 15; 17; 17; 17;
    14; 14; 15; 15; 16; 17; 17; 17; 14; 15; 15; 16; 16; 17; 17; 17;
    15; 15; 16; 17; 17; 18; 17; 17; 15; 16; 17; 17; 17; 17; 18; 17;
    16; 17; 17; 17; 17; 18; 18; 17; 17; 17; 17; 17; 18; 17; 17; 17];
   [14; 13; 13; 14; 15; 15; 16; 16; 14; 14; 14; 14; 15; 16; 16; 16;
    14; 14; 14; 15; 15; 16; 16; 16; 14; 14; 15; 15; 16; 17; 16; 16;
    14; 15; 15; 16; 16; 17; 17; 16; 15; 15; 16; 16; 16; 16; 17; 17;
    16; 16; 16; 17; 17; 17; 17; 17; 16; 17; 17; 16; 17; 17; 17; 17];
   [14; 13; 13; 14; 14; 15; 15; 16; 13; 13; 13; 14; 14; 16; 16; 16;
    13; 13; 14; 14; 15; 16; 16; 16; 13; 14; 14; 15; 15; 16; 16; 16;
    14; 14; 15; 16; 16; 17; 16; 16; 14; 15; 16; 16; 16; 16; 17; 16;
    15; 16; 16; 16; 16; 17; 17; 16; 16; 16; 16; 16; 17; 16; 16; 16];
   [13; 12; 12; 13; 14; 14; 15; 15; 12; 12; 13; 13; 14; 15; 15; 15;
    13; 13; 13; 14; 14; 15; 15; 15; 13; 13; 13; 14; 15; 16; 15; 15;
    13; 13; 14; 15; 15; 16; 16; 15; 14; 14; 15; 15; 15; 16; 16; 16;
    15; 15; 15; 16; 16; 16; 16; 16; 15; 16; 16; 16; 16; 16; 16; 16];
   [12; 11; 11; 12; 12; 13; 14; 14; 11; 11; 11; 12; 13; 14; 14; 14;
    11; 11; 12; 12; 13; 14; 14; 14; 11; 12; 12; 13; 14; 15; 14; 14;
    12; 12; 13; 14; 14; 15; 15; 14; 12; 13; 14; 14; 14; 15; 15; 15;
    14; 14; 14; 15; 15; 15; 15; 15; 14; 15; 15; 15; 15; 15; 15; 15]].

Definition jpeg_fw_ASIC_DCT_Matrix : list Z := [
   0; 32; 16; 48; 8; 40; 24; 56; 4; 36; 20; 52; 12; 44; 28; 60;
   2; 34; 18; 50; 10; 42; 26; 58; 6; 38; 22; 54; 14; 46; 30; 62;
   1; 33; 17; 49; 9; 41; 25; 57; 5; 37; 21; 53; 13; 45; 29; 61;
   3; 35; 19; 51; 11; 43; 27; 59; 7; 39; 23; 55; 15; 47; 31; 63].

(** ** Parameters *)
Definition no_yuv : YUV_FORMAT_T := mk_yuv 0 0 0 0 0 0.

Definition supported (y : YUV_FORMAT_T) : bool := (yuv_mcu_info y =? YUV422) || (yuv_mcu_info y =? YUV420).

(** The sampling ratios of the two formats. *)
Definition init_ratio (mcu : Z) : option (list SAMPLE_RATIO_T) :=
  if mcu =? YUV420 then Some [mk_ratio 2 2; mk_ratio 1 1; mk_ratio 1 1]
  else if mcu =? YUV422 then Some [mk_ratio 2 1; mk_ratio 1 1; mk_ratio 1 1]
  else None.

Definition JPEG_FW_MAX3 (a b c : Z) : Z := Z.max (Z.max a b) c.

Definition max_ratio (f : SAMPLE_RATIO_T -> Z) (r : list SAMPLE_RATIO_T) : Z :=
  let at_ i := f (nth i r (mk_ratio 0 0)) in JPEG_FW_MAX3 (at_ 0%nat) (at_ 1%nat) (at_ 2%nat).

(** The codec after the assignments up to the sampling ratios. *)
Definition enc_loaded (p : JPEG_ENC_INPUT_PARA_T) : JPEG_CODEC_T :=
  let dc := [mk_huff (Some jpeg_fw_lum_dc_bits_default) (Some jpeg_fw_lum_dc_huffvalue_default);
             mk_huff (Some jpeg_fw_chr_dc_bits_default) (Some jpeg_fw_chr_dc_huffvalue_default); no_huff; no_huff] in
  let ac := [mk_huff (Some jpeg_fw_lum_ac_bits_default) (Some jpeg_fw_lum_ac_huffvalue_default);
             mk_huff (Some jpeg_fw_chr_ac_bits_default) (Some jpeg_fw_chr_ac_huffvalue_default); no_huff; no_huff] in
  mk_codec (p_restart_interval p) 0 0 (u16 (p_width p)) (u16 (p_height p)) (replicate 3 (mk_ratio 0 0)) M_RST0
    (replicate 3 no_map) 0 dc ac (replicate 3 None) None false false (replicate 3 0) None 0 0 0 0 0 0 false.

Definition set_ratio (r : list SAMPLE_RATIO_T) (c : JPEG_CODEC_T) : JPEG_CODEC_T :=
  mk_codec (restart_interval c) (restart_to_go c) (next_restart_num c) (width c) (height c) r (RST_Count c)
    (tbl_map c) (num_components c) (dc_huff_tbl c) (ac_huff_tbl c) (quant_tbl c) (read c)
    (using_default_huff_tab c) (using_default_quant_tab c) (comp_id_map c) (comp_info c)
    (comps_in_scan c) (Ss c) (Se c) (Ah c) (Al c) (input_scan_number c) (is_res_file c).

(** [JpegEnc_InitParam]; [false] is [JPEG_FAILED].  The level it checks is the one of the
    codec before the call. *)
Definition JpegEnc_InitParam (p : JPEG_ENC_INPUT_PARA_T) (e : JPEG_ENC_T) : bool * JPEG_ENC_T :=
  if negb (supported (yuv_0_info p)) && negb (supported (yuv_1_info p)) then (false, e)
  else if JPEG_QUALITY_MAX <? compress_level e then (false, e)
  else if (p_width p <? 1) || (p_height p <? 1) then (false, e)
  else
    let c := enc_loaded p in
    let mcu := u8 (yuv_mcu_info (yuv_0_info p)) in
    let loaded c mh mw nx ny cw ch :=
      mk_enc c (p_work_mode p) (p_is_first_slice p) (p_is_last_slice p) mcu (p_quant_level p)
        (yuv_0_info p) (yuv_1_info p) false (stream_buf0 p) (stream_buf1 p) (s32 (bitstream_buf_len p)) mh mw nx ny cw ch
        true false false false 0 (replicate 3 None) (replicate 3 None) in
    match init_ratio mcu with
    | None => (false, loaded c 0 0 0 0 0 0)
    | Some r =>
        let mh := u16 (8 * max_ratio v_ratio r) in
        let mw := u16 (8 * max_ratio h_ratio r) in
        let nx := u16 ((width c + mw - 1) / mw) in
        let ny := u16 ((height c + mh - 1) / mh) in
        (true, loaded (set_ratio r c) mh mw nx ny (u16 (nx * mw)) (u16 (ny * mh)))
    end.

(** [JPEGFW_InitHuffTblWithDefaultValue] (jpegcodec_global.c). *)
Definition JPEGFW_InitHuffTblWithDefaultValue (c : JPEG_CODEC_T) : JPEG_CODEC_T :=
  let at_ i d a := mk_map d a (quant_tbl_id (nth i (tbl_map c) no_map)) in
  set_tbl_map [at_ 0%nat 0 0; at_ 1%nat 1 1; at_ 2%nat 1 1] c.

(** ** Registers *)
Definition GLB_CTRL : Z := 0x00.
Definition MB_CFG : Z := 0x04.
Definition GLB_PITCH : Z := 0x0C.
Definition GLB_INT_EN : Z := 0x24.
Definition GLB_FRM_ADDR (i : Z) : Z := 0x40 + 4 * i.
Definition BUS_GAP : Z := 0x60.
Definition JPG_MEMO0 : Z := 0x300.
Definition HUFFMAN_TBL : Z := 0x2000.
Definition MBIO_CFG : Z := 0x4000.
Definition MBIO_MCU_NUM : Z := 0x400C.
Definition MBIO_BUF_STS : Z := 0x4010.
Definition MBIO_CTRL : Z := 0x4018.
Definition BSM_CFG0 : Z := 0x4400.
Definition BSM_CFG2 : Z := 0x4408.
Definition VLC_TOTAL_MCU : Z := 0x4C00.
Definition DCT_CFG : Z := 0x5000.
Definition DCT_CFG_DONE : Z := 0x5040.

(** The writes so far, the last one last. *)
Definition writes_log : Type := list (Z * Z).

Definition JPG_WRITE_REG (addr v : Z) (l : writes_log) : writes_log := l ++ [(addr, u32 v)].

(** The last value written to a register. *)
Definition last_written (addr : Z) (l : list (Z * Z)) : option Z :=
  snd <$> last (filter (fun w => w.1 = addr) l).

(** [JpegEnc_InitMem] (jpegenc_malloc.c): the pool of the encoder, its size and use. *)
Record enc_pool := mk_pool { pool_ptr : Z; pool_size : Z; pool_used : Z }.
Definition JpegEnc_InitMem (b : Z * Z) : enc_pool := mk_pool b.1 b.2 0.

Section device.
Context (hw : writes_log -> Z -> Z).

Definition JPG_READ_REG (addr : Z) (l : writes_log) : Z := hw l addr.

(** [JPG_Reset] calls the function the application registered; the writes it causes are
    the device's. *)
Context (reset : writes_log -> writes_log).

Definition open_jpg_iram (l : writes_log) : writes_log :=
  JPG_WRITE_REG GLB_CTRL (Z.lor (JPG_READ_REG GLB_CTRL l) (Z.shiftl 1 2)) l.

Definition close_jpg_iram (l : writes_log) : writes_log :=
  JPG_WRITE_REG GLB_CTRL (Z.land (JPG_READ_REG GLB_CTRL l) (2 ^ 32 - 1 - 4)) l.

Fixpoint write_table (base : Z) (vs : list Z) (l : writes_log) : writes_log :=
  match vs with
  | [] => l
  | v :: vs => write_table (base + 4) vs (JPG_WRITE_REG base v l)
  end.

Definition configure_huff_tab (tab : list Z) (l : writes_log) : writes_log :=
  close_jpg_iram (write_table HUFFMAN_TBL tab (open_jpg_iram l)).

(** [JpegEnc_HwTopRegCfg]. *)
Definition JpegEnc_HwTopRegCfg (e : JPEG_ENC_T) (l : writes_log) : JPEG_ENC_T * writes_log :=
  let int_mask := JPG_READ_REG GLB_INT_EN l in
  let l := reset l in
  let l := JPG_WRITE_REG GLB_PITCH (Z.land (c_width e) 0x1fff) l in
  let l := JPG_WRITE_REG GLB_INT_EN (Z.lor int_mask 11) l in
  let l := JPG_WRITE_REG (GLB_FRM_ADDR 0) (y_data_ptr (YUV_Info_0 e)) l in
  let l := JPG_WRITE_REG (GLB_FRM_ADDR 1) (u_data_ptr (YUV_Info_0 e)) l in
  let l := JPG_WRITE_REG (GLB_FRM_ADDR 6) (v_data_ptr (YUV_Info_0 e)) l in
  let l := JPG_WRITE_REG (GLB_FRM_ADDR 0) (y_data_ptr (YUV_Info_1 e)) l in
  let l := JPG_WRITE_REG (GLB_FRM_ADDR 1) (u_data_ptr (YUV_Info_1 e)) l in
  let l := JPG_WRITE_REG (GLB_FRM_ADDR 6) (v_data_ptr (YUV_Info_1 e)) l in
  let l := JPG_WRITE_REG (GLB_FRM_ADDR 4) (stream_0 e) l in
  let l := JPG_WRITE_REG (GLB_FRM_ADDR 5) (stream_1 e) l in
  let l := JPG_WRITE_REG GLB_CTRL (Z.lor (Z.shiftl 1 6) 7) l in
  let e := set_uv_interleaved (v_data_ptr (YUV_Info_0 e) =? 0) e in
  let l := JPG_WRITE_REG MB_CFG
    (Z.lor (Z.lor (Z.lor (Z.shiftl (Z.b2z (negb (uv_interleaved e))) 27) (Z.shiftl (enc_mcu_info e) 24))
                  (Z.shiftl (Z.land (mcu_num_y e) 0x3ff) 12))
           (Z.land (mcu_num_x e) 0x3ff)) l in
  let l := JPG_WRITE_REG BUS_GAP 0 l in
  (e, l).

(** [JpegEnc_HwTopUpdateYUVAddr]. *)
Definition JpegEnc_HwTopUpdateYUVAddr (y u : Z) (e : JPEG_ENC_T) (l : writes_log) : JPEG_ENC_T * writes_log :=
  let at_ i := mk_yuv y u (v_data_ptr i) (yuv_mcu_info i) (yuv_out_mcu_info i) (input_endian i) in
  let e := set_YUV_Info_1 (at_ (YUV_Info_1 e)) (set_YUV_Info_0 (at_ (YUV_Info_0 e)) e) in
  let l := JPG_WRITE_REG (GLB_FRM_ADDR 0) (y_data_ptr (YUV_Info_0 e)) l in
  let l := JPG_WRITE_REG (GLB_FRM_ADDR 1) (u_data_ptr (YUV_Info_0 e)) l in
  let l := JPG_WRITE_REG (GLB_FRM_ADDR 6) (v_data_ptr (YUV_Info_0 e)) l in
  let l := JPG_WRITE_REG (GLB_FRM_ADDR 2) (y_data_ptr (YUV_Info_1 e)) l in
  let l := JPG_WRITE_REG (GLB_FRM_ADDR 3) (u_data_ptr (YUV_Info_1 e)) l in
  let l := JPG_WRITE_REG (GLB_FRM_ADDR 7) (v_data_ptr (YUV_Info_1 e)) l in
  (e, l).

(** [JpegEnc_HwSubModuleCfg]; [pingpang_buf_len + 3] is an [int]. *)
Definition JpegEnc_HwSubModuleCfg (e : JPEG_ENC_T) (l : writes_log) : outcome writes_log :=
  if 2 ^ 31 <=? pingpang_buf_len e + 3 then Undef
  else
    let cmd := Z.shiftr (pingpang_buf_len e + 3) 2 in
    let cmd := if 0x1FFFFF <? cmd then 0x1FFFFF else cmd in
    let l := JPG_WRITE_REG BSM_CFG0 cmd l in
    let l := JPG_WRITE_REG VLC_TOTAL_MCU (Z.land (mcu_num_y e * mcu_num_x e) 0xfffff) l in
    let l := JPG_WRITE_REG DCT_CFG (Z.lor (Z.lor (Z.shiftl 1 8) (Z.shiftl 1 1)) 1) l in
    let l := JPG_WRITE_REG DCT_CFG_DONE 1 l in
    let l := JPG_WRITE_REG MBIO_CFG 2 l in
    Done l.

(** Half a word of the quantisation memory: the scaled reciprocal and its shift. *)
Definition quant_half (recip shift : list Z) (index : Z) : outcome Z :=
  let* r := rd recip index in
  let* s := rd shift index in
  Done (u16 (Z.lor (Z.shiftl r 4) (u16 (s - 11)))).

(** The loop over pairs of entries; [n] rounds from entry [i] on. *)
Fixpoint quant_words (n : nat) (recip shift : list Z) (i addr : Z) (l : writes_log) : outcome (Z * writes_log) :=
  match n with
  | O => Done (addr, l)
  | S n =>
      let* index1 := rd jpeg_fw_ASIC_DCT_Matrix i in
      let* index2 := rd jpeg_fw_ASIC_DCT_Matrix (i + 1) in
      let* tmp1 := quant_half recip shift index1 in
      let* tmp2 := quant_half recip shift index2 in
      quant_words n recip shift (i + 2) (addr + 4)
        (JPG_WRITE_REG addr (Z.lor (Z.shiftl tmp2 16) (Z.land tmp1 0xFFFF)) l)
  end.

(** [JpegEnc_QTableCfg]; the level indexes arrays of five. *)
Definition JpegEnc_QTableCfg (e : JPEG_ENC_T) (l : writes_log) : outcome (JPEG_ENC_T * writes_log) :=
  let c := enc_codec e in
  let at_ i q := mk_map (dc_huff_tbl_id (nth i (tbl_map c) no_map)) (ac_huff_tbl_id (nth i (tbl_map c) no_map)) q in
  let c := set_tbl_map [at_ 0%nat 0; at_ 1%nat 1; at_ 2%nat 1] c in
  let level := compress_level e in
  let* lum := rd jpeg_fw_lum_quant_tbl_default level in
  let* chr := rd jpeg_fw_chr_quant_tbl_default level in
  let* lum_new := rd jpeg_fw_new_lum_quant_tbl_default level in
  let* chr_new := rd jpeg_fw_new_chr_quant_tbl_default level in
  let* lum_shift := rd jpeg_fw_new_lum_quant_tbl_default_shift level in
  let* chr_shift := rd jpeg_fw_new_chr_quant_tbl_default_shift level in
  let e := set_enc_codec (set_quant_tbl (<[1%nat := Some chr]> (<[0%nat := Some lum]> (quant_tbl c))) c) e in
  let e := set_quant_tbl_new (<[1%nat := Some chr_new]> (<[0%nat := Some lum_new]> (quant_tbl_new e))) e in
  let e := set_quant_tbl_shift (<[1%nat := Some chr_shift]> (<[0%nat := Some lum_shift]> (quant_tbl_shift e))) e in
  let l := open_jpg_iram l in
  let* (addr, l) := quant_words 32 lum_new lum_shift 0 JPG_MEMO0 l in
  let* (_, l) := quant_words 32 chr_new chr_shift 0 addr l in
  Done (e, close_jpg_iram l).

(** [JPEG_HWEncInit]. *)
Definition JPEG_HWEncInit (p : JPEG_ENC_INPUT_PARA_T) (e : JPEG_ENC_T) (m : enc_pool) (l : writes_log) :
    outcome (bool * JPEG_ENC_T * enc_pool * writes_log) :=
  let e := set_is_last_slice (p_is_last_slice p) (set_is_first_slice (p_is_first_slice p) e) in
  let '(ok, e, m) :=
    if p_is_first_slice p then
      let m := JpegEnc_InitMem (enc_buf p) in
      let '(ok, e) := JpegEnc_InitParam p e in (ok, e, m)
    else (true, e, m) in
  if negb ok then Done (false, e, m, l)
  else
    let e := set_g_stream_buf_ptr (stream_buf1 p) e in
    let e := set_mbio_bfr0_valid (p_mbio_bfr0_valid p) e in
    let e := set_mbio_bfr1_valid (p_mbio_bfr1_valid p) e in
    let e := set_bsm_buf0_valid (p_bsm_buf0_valid p) e in
    let e := set_bsm_buf1_valid (p_bsm_buf1_valid p) e in
    let (e, l) := JpegEnc_HwTopRegCfg e l in
    let* l := JpegEnc_HwSubModuleCfg e l in
    let e := set_enc_codec (JPEGFW_InitHuffTblWithDefaultValue (enc_codec e)) e in
    let l := configure_huff_tab g_huff_tab_enc l in
    let* (e, l) := JpegEnc_QTableCfg e l in
    Done (true, e, m, l).

(** [START_HW_ENCODE]. *)
Definition START_HW_ENCODE (total_mcu_num : Z) (e : JPEG_ENC_T) (l : writes_log) : writes_log :=
  let cmd := if work_mode e =? ALONE_MODE then Z.land (mcu_num_y e * mcu_num_x e) 0xfffff else Z.land total_mcu_num 0xfffff in
  let l := JPG_WRITE_REG VLC_TOTAL_MCU cmd l in
  let l := JPG_WRITE_REG MBIO_MCU_NUM (Z.land total_mcu_num 0xfffff) l in
  let l := JPG_WRITE_REG MBIO_BUF_STS 1 l in
  JPG_WRITE_REG MBIO_CTRL 1 l.

(** [JPEG_HWEncStart]; a codec that was not set up divides by zero. *)
Definition JPEG_HWEncStart (raw_width raw_height : Z) (e : JPEG_ENC_T) (l : writes_log) : outcome (bool * writes_log) :=
  if (Z.land raw_width 0xf =? 0) && (Z.land raw_height 0x7 =? 0) then
    if (mcu_height e =? 0) || (mcu_width e =? 0) then Undef
    else Done (true, START_HW_ENCODE (u16 ((raw_height / mcu_height e) * (raw_width / mcu_width e))) e l)
  else Done (false, l).

End device.

(** ** Geometry *)

(** The smallest multiple of [m] that is at least [n]. *)
Definition rounded_up (n m x : Z) : Prop := n <= x < n + m /\ x mod m = 0.

Lemma round_up n m : 0 < m -> rounded_up n m ((n + m - 1) / m * m).
Proof.
  intros Hm. unfold rounded_up. split; [|apply Z.mod_mul; lia].
  pose proof (Z.div_mod (n + m - 1) m). pose proof (Z.mod_pos_bound (n + m - 1) m). lia.
Qed.

(** The format of a picture as the parser names it. *)
Definition mcu_name (mcu : Z) : mcu_format := if mcu =? YUV420 then JPEG_FW_YUV420 else JPEG_FW_YUV422.

(** Parameters the encoder takes, and a codec whose last level was in range. *)
Record para_ok (p : JPEG_ENC_INPUT_PARA_T) (e : JPEG_ENC_T) : Prop := {
  para_width : 1 <= p_width p < 65536;
  para_height : 1 <= p_height p < 65536;
  para_mcu : supported (yuv_0_info p) = true;
  para_restart : 0 <= p_restart_interval p < 65536;
  para_level : 0 <= p_quant_level p < JPEG_QUALITY_MAX;
  para_len : 0 <= bitstream_buf_len p < 2 ^ 31 - 3;
  para_last : compress_level e <= JPEG_QUALITY_MAX
}.

Lemma supported_ratio p :
  supported (yuv_0_info p) = true ->
  u8 (yuv_mcu_info (yuv_0_info p)) = yuv_mcu_info (yuv_0_info p) /\
  exists v, (v = 1 \/ v = 2) /\ init_ratio (yuv_mcu_info (yuv_0_info p)) = Some [mk_ratio 2 v; mk_ratio 1 1; mk_ratio 1 1] /\
    mcu_of (pair_byte 2 v) = Some (mcu_name (yuv_mcu_info (yuv_0_info p))).
Proof.
  unfold supported. intros H. apply orb_true_iff in H as [H|H]; apply Z.eqb_eq in H; rewrite H; (split; [done|]).
  - exists 1. split; [by left|]. done.
  - exists 2. split; [by right|]. done.
Qed.

Lemma init_param_ok p e :
  para_ok p e ->
  exists v e', JpegEnc_InitParam p e = (true, e') /\ (v = 1 \/ v = 2) /\
    mcu_of (pair_byte 2 v) = Some (mcu_name (yuv_mcu_info (yuv_0_info p))) /\
    enc_codec e' = set_ratio [mk_ratio 2 v; mk_ratio 1 1; mk_ratio 1 1] (enc_loaded p) /\
    compress_level e' = p_quant_level p /\ pingpang_buf_len e' = bitstream_buf_len p /\
    mcu_width e' = 16 /\ mcu_height e' = 8 * v /\
    mcu_num_x e' = (p_width p + 15) / 16 /\ mcu_num_y e' = (p_height p + (8 * v - 1)) / (8 * v) /\
    c_width e' = u16 (mcu_num_x e' * 16) /\ c_height e' = u16 (mcu_num_y e' * (8 * v)).
Proof.
  intros [Hw Hh Hm Hr Hl Hb Hc]. destruct (supported_ratio p Hm) as (Eu & v & Hv & Er & Emc).
  unfold JpegEnc_InitParam. rewrite Hm. cbn [negb andb]. rewrite (proj2 (Z.ltb_ge JPEG_QUALITY_MAX (compress_level e))) by lia.
  replace ((p_width p <? 1) || (p_height p <? 1)) with false by (symmetry; apply orb_false_iff; lia).
  rewrite Eu, Er. eexists v, _. split; [reflexivity|]. cbn [enc_codec compress_level pingpang_buf_len mcu_width mcu_height mcu_num_x mcu_num_y c_width c_height].
  assert (s32 (bitstream_buf_len p) = bitstream_buf_len p) as Es.
  { unfold s32. cbn. rewrite u32_small by (unfold u32_ok; lia). guard_true (bitstream_buf_len p <? 2 ^ 31). done. }
  change (width (enc_loaded p)) with (u16 (p_width p)). change (height (enc_loaded p)) with (u16 (p_height p)).
  rewrite Es, (u16_small (p_width p)), (u16_small (p_height p)) by lia.
  assert (u16 (8 * max_ratio v_ratio [mk_ratio 2 v; mk_ratio 1 1; mk_ratio 1 1]) = 8 * v) as -> by (by destruct Hv as [-> | ->]).
  change (u16 (8 * max_ratio h_ratio [mk_ratio 2 v; mk_ratio 1 1; mk_ratio 1 1])) with 16.
  assert (0 < 8 * v) by lia. rewrite !u16_small by (Z.to_euclidean_division_equations; nia).
  split_and!; try done; f_equal; lia.
Qed.

(** ** The quantisation memory *)

(** The writes of the loop do not depend on those before. *)
Lemma quant_words_app n recip shift i addr l :
  quant_words n recip shift i addr l = let* (a, w) := quant_words n recip shift i addr [] in Done (a, l ++ w).
Proof.
  revert i addr l. induction n as [|n IH]; intros i addr l; cbn [quant_words obind]; [by rewrite app_nil_r|].
  destruct (rd jpeg_fw_ASIC_DCT_Matrix i) as [x1| |]; [|done..]. cbn [obind].
  destruct (rd jpeg_fw_ASIC_DCT_Matrix (i + 1)) as [x2| |]; [|done..]. cbn [obind].
  destruct (quant_half recip shift x1) as [t1| |]; [|done..]. cbn [obind].
  destruct (quant_half recip shift x2) as [t2| |]; [|done..]. cbn [obind].
  rewrite IH, (IH _ _ (JPG_WRITE_REG addr _ [])).
  destruct (quant_words n recip shift (i + 2) (addr + 4) []) as [[a w]| |]; [|done..]. cbn [obind].
  unfold JPG_WRITE_REG. by rewrite <- app_assoc.
Qed.

(** A pair of tables of a level: the divisors, their scaled reciprocals and the shifts. *)
Definition level_tables (chroma : bool) (level : nat) : option (list Z * list Z * list Z) :=
  let at_ (t : list (list Z)) := t !! level in
  if chroma then
    q ← at_ jpeg_fw_chr_quant_tbl_default; r ← at_ jpeg_fw_new_chr_quant_tbl_default;
    s ← at_ jpeg_fw_new_chr_quant_tbl_default_shift; Some (q, r, s)
  else
    q ← at_ jpeg_fw_lum_quant_tbl_default; r ← at_ jpeg_fw_new_lum_quant_tbl_default;
    s ← at_ jpeg_fw_new_lum_quant_tbl_default_shift; Some (q, r, s).

(** The word at position [i / 2] of a table's 32 words holds entry [i] in its low or high
    half: twelve bits of reciprocal above four bits of shift, less eleven. *)
Definition word_half (w : Z) (i : nat) : Z := Z.land (Z.shiftr w (16 * Z.of_nat (i mod 2))) 0xFFFF.

Definition half_divides (h q : Z) : Prop :=
  let r := Z.shiftr h 4 in
  let s := Z.land h 15 + 11 in
  0 < q /\ 0 < r < 4096 /\ 2 * Z.abs (r * q - 2 ^ s) <= q.

#[export] Instance half_divides_dec h q : Decision (half_divides h q).
Proof. unfold half_divides. cbn zeta. apply _. Defined.

Definition entry_divides (base : Z) (ws : writes_log) (q : list Z) (i : nat) : Prop :=
  exists w d, ws !! (i / 2)%nat = Some (base + 4 * Z.of_nat (i / 2), w) /\
    q !! Z.to_nat (nth i jpeg_fw_ASIC_DCT_Matrix 0) = Some d /\ half_divides (word_half w i) d.

Definition entry_check (base : Z) (ws : writes_log) (q : list Z) (i : nat) : bool :=
  match ws !! (i / 2)%nat, q !! Z.to_nat (nth i jpeg_fw_ASIC_DCT_Matrix 0) with
  | Some (a, w), Some d => (a =? base + 4 * Z.of_nat (i / 2)) && bool_decide (half_divides (word_half w i) d)
  | _, _ => false
  end.

Lemma entry_check_true base ws q i : entry_check base ws q i = true -> entry_divides base ws q i.
Proof.
  unfold entry_check, entry_divides. destruct (ws !! (i / 2)%nat) as [[a w]|]; [|done].
  destruct (q !! _) as [d|]; [|done]. intros H. apply andb_true_iff in H as [Ha Hd]. apply Z.eqb_eq in Ha as ->.
  apply bool_decide_eq_true in Hd. by exists w, d.
Qed.

Definition table_words (r s : list Z) (base : Z) : writes_log :=
  match quant_words 32 r s 0 base [] with Done (_, w) => w | _ => [] end.

Lemma level_words chroma level :
  (level < 5)%nat -> exists q r s, level_tables chroma level = Some (q, r, s) /\ quant_ok q /\
    forall base, base = JPG_MEMO0 \/ base = JPG_MEMO0 + 128 ->
    quant_words 32 r s 0 base [] = Done (base + 128, table_words r s base) /\
    length (table_words r s base) = 32%nat /\ forall i, (i < 64)%nat -> entry_divides base (table_words r s base) q i.
Proof.
  intros Hl.
  assert (match level_tables chroma level with
    | Some (q, r, s) => (length q =? 64)%nat && forallb (fun x => bool_decide (byte_ok x)) q && forallb (fun base =>
        match quant_words 32 r s 0 base [] with
        | Done (a, w) => (a =? base + 128) && (length w =? 32)%nat && forallb (entry_check base w q) (seq 0 64)
        | _ => false
        end) [JPG_MEMO0; JPG_MEMO0 + 128]
    | None => false end = true) as H.
  { unfold byte_ok. do 5 (destruct level as [|level]; [destruct chroma; vm_compute; reflexivity|]). lia. }
  destruct (level_tables chroma level) as [[[q r] s]|]; [|done]. exists q, r, s. split; [done|].
  apply andb_true_iff in H as [H H2]. apply andb_true_iff in H as [H0 H1]. split.
  { split; [by apply Nat.eqb_eq|]. apply Forall_forall. intros x Hx. rewrite forallb_forall in H1.
    apply (bool_decide_eq_true_1 (byte_ok x)), H1. by apply list_elem_of_In. }
  intros base Hb. rewrite forallb_forall in H2. specialize (H2 base ltac:(cbn; destruct Hb as [-> | ->]; auto)).
  unfold table_words. destruct (quant_words 32 r s 0 base []) as [[a w]| |]; [|done..].
  apply andb_true_iff in H2 as [H2 H5]. apply andb_true_iff in H2 as [H3 H4].
  apply Z.eqb_eq in H3 as ->. apply Nat.eqb_eq in H4. split_and!; [done|done|]. intros i Hi.
  apply entry_check_true. rewrite forallb_forall in H5. apply H5. apply in_seq. lia.
Qed.

Lemma level_rd chroma (level : nat) q r s :
  level_tables chroma level = Some (q, r, s) ->
  if chroma
  then rd jpeg_fw_chr_quant_tbl_default (Z.of_nat level) = Done q /\ rd jpeg_fw_new_chr_quant_tbl_default (Z.of_nat level) = Done r /\
       rd jpeg_fw_new_chr_quant_tbl_default_shift (Z.of_nat level) = Done s
  else rd jpeg_fw_lum_quant_tbl_default (Z.of_nat level) = Done q /\ rd jpeg_fw_new_lum_quant_tbl_default (Z.of_nat level) = Done r /\
       rd jpeg_fw_new_lum_quant_tbl_default_shift (Z.of_nat level) = Done s.
Proof.
  unfold level_tables. destruct chroma; intros H;
    apply bind_Some in H as (q' & Eq & H); apply bind_Some in H as (r' & Er & H); apply bind_Some in H as (s' & Es & H);
    injection H as <- <- <-; split_and!; (apply rd_Some; [lia|by rewrite Nat2Z.id]).
Qed.

(** The quantisation tables of the codec and of the memory, by level. *)
Lemma qtable_cfg hw e l level :
  compress_level e = Z.of_nat level -> (level < 5)%nat ->
  exists ql rl sl qc rc sc, level_tables false level = Some (ql, rl, sl) /\ level_tables true level = Some (qc, rc, sc) /\
    quant_ok ql /\ quant_ok qc /\ exists e',
    JpegEnc_QTableCfg hw e l = Done (e', close_jpg_iram hw (open_jpg_iram hw l ++ table_words rl sl JPG_MEMO0 ++ table_words rc sc (JPG_MEMO0 + 128))) /\
    enc_codec e' = (let c := enc_codec e in
      let at_ i q := mk_map (dc_huff_tbl_id (nth i (tbl_map c) no_map)) (ac_huff_tbl_id (nth i (tbl_map c) no_map)) q in
      set_quant_tbl (<[1%nat := Some qc]> (<[0%nat := Some ql]> (quant_tbl c))) (set_tbl_map [at_ 0%nat 0; at_ 1%nat 1; at_ 2%nat 1] c)).
Proof.
  intros El Hl. destruct (level_words false level Hl) as (ql & rl & sl & El0 & Ql & Wl).
  destruct (level_words true level Hl) as (qc & rc & sc & Ec0 & Qc & Wc). exists ql, rl, sl, qc, rc, sc.
  split_and!; [done..|]. destruct (level_rd false level ql rl sl El0) as (E1 & E2 & E3).
  destruct (level_rd true level qc rc sc Ec0) as (F1 & F2 & F3). unfold JpegEnc_QTableCfg.
  rewrite El, E1, F1, E2, F2, E3, F3. cbn [obind]. rewrite quant_words_app.
  destruct (Wl JPG_MEMO0) as (-> & _); [by left|]. cbn [obind]. rewrite quant_words_app.
  destruct (Wc (JPG_MEMO0 + 128)) as (-> & _); [by right|]. cbn [obind]. rewrite <- app_assoc.
  eexists. split; [reflexivity|]. reflexivity.
Qed.

(** C30. At every quality level the quantisation memory divides by the tables of the header:
    [JpegEnc_QTableCfg] writes 64 words between opening and closing the memory, and each
    half word is a reciprocal of twelve bits and a shift that approximate the inverse of
    the entry of the table, in the order of the hardware, to half a unit of the divisor. *)
Theorem quant_memory_divides hw e l level :
  compress_level e = Z.of_nat level -> (level < 5)%nat -> length (quant_tbl (enc_codec e)) = 3%nat ->
  exists e' wl wc ql qc,
    JpegEnc_QTableCfg hw e l = Done (e', close_jpg_iram hw (open_jpg_iram hw l ++ wl ++ wc)) /\
    length wl = 32%nat /\ length wc = 32%nat /\
    quant_tbl (enc_codec e') !! 0%nat = Some (Some ql) /\ quant_tbl (enc_codec e') !! 1%nat = Some (Some qc) /\
    forall i, (i < 64)%nat -> entry_divides JPG_MEMO0 wl ql i /\ entry_divides (JPG_MEMO0 + 128) wc qc i.
Proof.
  intros El Hl Hq. destruct (qtable_cfg hw e l level El Hl) as (ql & rl & sl & qc & rc & sc & E1 & E2 & _ & _ & e' & Ee & Ec).
  destruct (level_words false level Hl) as (q1 & r1 & s1 & F1 & _ & Wl). rewrite E1 in F1. injection F1 as <- <- <-.
  destruct (level_words true level Hl) as (q2 & r2 & s2 & F2 & _ & Wc). rewrite E2 in F2. injection F2 as <- <- <-.
  destruct (Wl JPG_MEMO0) as (_ & L1 & D1); [by left|]. destruct (Wc (JPG_MEMO0 + 128)) as (_ & L2 & D2); [by right|].
  do 5 eexists. split; [exact Ee|]. rewrite Ec. split_and!; [done|done| | |]; cbn [set_quant_tbl quant_tbl].
  - rewrite list_lookup_insert_ne by done. by apply list_lookup_insert_eq; cbn; lia.
  - apply list_lookup_insert_eq. rewrite length_insert. cbn. lia.
  - intros i Hi. split; [by apply D1|by apply D2].
Qed.

(** ** From the caller's parameters to the picture *)
Definition tables_of (b v : list Z) (n : nat) : list Z * list Z := (tail b, take n v).

Definition pic_of (p : JPEG_ENC_INPUT_PARA_T) (v : Z) (ql qc : list Z) : picture :=
  mk_picture (p_height p) (p_width p) 2 v (mcu_name (yuv_mcu_info (yuv_0_info p)))
    (mk_map 0 0 0) (mk_map 1 1 1) (mk_map 1 1 1) ql qc
    (tables_of jpeg_fw_lum_dc_bits_default jpeg_fw_lum_dc_huffvalue_default 12)
    (tables_of jpeg_fw_lum_ac_bits_default jpeg_fw_lum_ac_huffvalue_default 162)
    (tables_of jpeg_fw_chr_dc_bits_default jpeg_fw_chr_dc_huffvalue_default 12)
    (tables_of jpeg_fw_chr_ac_bits_default jpeg_fw_chr_ac_huffvalue_default 162) (p_restart_interval p).

Lemma default_table_ok ac n :
  table_ok ac (tables_of (default_bits ac n) (default_huffval ac n) (if ac then 162 else 12)%nat).
Proof.
  unfold table_ok, huff_ok, tables_of, default_bits, default_huffval.
  destruct ac, (n =? 0); cbn [fst snd]; split_and!; try (apply bytes_check); vm_compute; (reflexivity || discriminate).
Qed.

Lemma pic_of_ok p e v ql qc :
  para_ok p e -> (v = 1 \/ v = 2) -> mcu_of (pair_byte 2 v) = Some (mcu_name (yuv_mcu_info (yuv_0_info p))) ->
  quant_ok ql -> quant_ok qc -> pic_ok (pic_of p v ql qc).
Proof.
  intros [Hw Hh Hm Hr Hl Hb Hc] Hv Hmc Hq0 Hq1. split; try done; cbn; try (unfold map_ok; cbn; lia); try lia.
  - apply (default_table_ok false 0).
  - apply (default_table_ok true 0).
  - apply (default_table_ok false 1).
  - apply (default_table_ok true 1).
Qed.

Lemma table_of_default b0 bs v n : table_of (mk_huff (Some (b0 :: bs)) (Some v)) bs (take n v).
Proof. exists b0, (drop n v). cbn. by rewrite take_drop. Qed.

Lemma enc_init_ok hw reset p e m l :
  para_ok p e -> p_is_first_slice p = true ->
  exists v e' m' l' ql qc rl rc sl sc, JPEG_HWEncInit hw reset p e m l = Done (true, e', m', l') /\
    level_tables false (Z.to_nat (p_quant_level p)) = Some (ql, rl, sl) /\
    level_tables true (Z.to_nat (p_quant_level p)) = Some (qc, rc, sc) /\
    pic_ok (pic_of p v ql qc) /\ encodes (enc_codec e') (pic_of p v ql qc).
Proof.
  intros Hp Hf. unfold JPEG_HWEncInit. rewrite Hf.
  set (e0 := set_is_last_slice _ _). assert (para_ok p e0) as Hp0 by (destruct Hp; by split).
  destruct (init_param_ok p e0 Hp0) as (v & e1 & -> & Hv & Hmc & Ec & El & Eb & _). cbn [negb].
  match goal with |- context [JpegEnc_HwTopRegCfg hw reset ?e l] => set (e2 := e) end.
  destruct (JpegEnc_HwTopRegCfg hw reset e2 l) as [e3 l3] eqn:E3.
  assert (enc_codec e3 = enc_codec e1 /\ pingpang_buf_len e3 = bitstream_buf_len p /\ compress_level e3 = p_quant_level p) as (C3 & B3 & L3).
  { unfold JpegEnc_HwTopRegCfg in E3. injection E3 as <- _. done. }
  unfold JpegEnc_HwSubModuleCfg. rewrite B3. destruct Hp as [Hw Hh Hm Hr Hl Hb Hc].
  guard_false (2 ^ 31 <=? bitstream_buf_len p + 3). cbn [obind].
  match goal with |- context [JpegEnc_QTableCfg hw ?e ?l] => destruct (qtable_cfg hw e l (Z.to_nat (p_quant_level p)))
    as (ql & rl & sl & qc & rc & sc & T0 & T1 & Q0 & Q1 & e' & -> & Ee) end.
  { cbn. rewrite L3, Z2Nat.id; lia. }
  { change JPEG_QUALITY_MAX with 5 in Hl. lia. }
  cbn [obind]. exists v, e', (JpegEnc_InitMem (enc_buf p)). do 7 eexists. split; [reflexivity|].
  split; [exact T0|]. split; [exact T1|]. split.
  { apply (pic_of_ok p e); done || by split. }
  rewrite Ee. cbn [enc_codec set_enc_codec]. rewrite C3, Ec.
  split; try done; cbn; try (apply u16_small; lia).
  - eexists. split; [reflexivity|]. apply (table_of_default 0 _ jpeg_fw_lum_dc_huffvalue_default 12).
  - eexists. split; [reflexivity|]. apply (table_of_default 0 _ jpeg_fw_lum_ac_huffvalue_default 162).
  - eexists. split; [reflexivity|]. apply (table_of_default 0 _ jpeg_fw_chr_dc_huffvalue_default 12).
  - eexists. split; [reflexivity|]. apply (table_of_default 0 _ jpeg_fw_chr_ac_huffvalue_default 162).
Qed.

(** C27. Setting up the encoder for a first slice with parameters in range succeeds, the
    header it then writes parses, and what the parser finds is what the caller asked for:
    size, format, quantisation tables of the level, default Huffman tables, restart
    interval. *)
Theorem encoded_header hw reset p e m l polls :
  para_ok p e -> p_is_first_slice p = true -> Forall (eq true) polls ->
  exists e' m' l' ql qc polls' w,
    JPEG_HWEncInit hw reset p e m l = Done (true, e', m', l') /\
    rd jpeg_fw_lum_quant_tbl_default (p_quant_level p) = Done ql /\
    rd jpeg_fw_chr_quant_tbl_default (p_quant_level p) = Done qc /\
    JPEG_HWWriteHead (enc_codec e') polls [] = Done (true, polls', w) /\
    forall rb buf n data ptr size i f, source rb buf n (written w ++ data) -> pool_ok ptr size ->
    exists s k, JPEG_FWParseHead (11 + f) (Some (ptr, size)) rb buf n i = Done (true, s, k) /\
      input_width (inp k) = p_width p /\ input_height (inp k) = p_height p /\
      input_mcu_info (inp k) = mcu_name (yuv_mcu_info (yuv_0_info p)) /\ header_len (inp k) = zlen (written w) /\
      quant_tbl (codec k) = [Some ql; Some qc; None] /\ using_default_huff_tab (codec k) = true /\
      restart_interval (codec k) = read_restart (p_restart_interval p).
Proof.
  intros Hp Hf Hpolls.
  destruct (enc_init_ok hw reset p e m l Hp Hf) as (v & e' & m' & l' & ql & qc & rl & rc & sl & sc & Ei & T0 & T1 & Hok & Henc).
  destruct (writes_head (enc_codec e') _ Hok Henc polls [] Hpolls) as (polls' & w & E & _ & Hw).
  exists e', m', l', ql, qc, polls', w. apply level_rd in T0 as (T0 & _), T1 as (T1 & _). pose proof (para_level p e Hp) as Hl.
  rewrite Z2Nat.id in T0, T1 by lia. split_and!; [done..|]. rewrite Hw. intros rb buf n data ptr size i f Hs Hpool.
  destruct (header_parsed _ rb buf n data ptr size i f Hok Hs Hpool) as (s & k & -> & Hd). exists s, k. split; [done|].
  pose proof (f_equal d_input Hd) as Hin. cbn in Hin. rewrite Hin.
  split_and!; [done..|exact (f_equal d_quant Hd)|exact (f_equal d_default_huff Hd)|exact (f_equal d_restart Hd)].
Qed.

(** Parameters of a camera picture. *)
Definition sample_para : JPEG_ENC_INPUT_PARA_T :=
  let y := mk_yuv 0x1000 0x2000 0 YUV420 YUV420 0 in
  mk_para 640 480 0x10000 0x20000 0x8000 y y (0, 0) 3 ALONE_MODE true false true false true true 0.

Definition sample_enc : JPEG_ENC_T :=
  mk_enc codec_zero 0 false false 0 0 no_yuv no_yuv false 0 0 0 0 0 0 0 0 0 false false false false 0
    (replicate 3 None) (replicate 3 None).

Lemma sample_para_ok : para_ok sample_para sample_enc.
Proof. split; cbn; (done || (unfold JPEG_QUALITY_MAX; lia) || lia). Qed.

Lemma encoded_header_witness :
  p_is_first_slice sample_para = true /\
  exists e' m' l' ql qc polls' w,
    JPEG_HWEncInit (fun _ _ => 0) id sample_para sample_enc (mk_pool 0 0 0) [] = Done (true, e', m', l') /\
    rd jpeg_fw_lum_quant_tbl_default 3 = Done ql /\
    rd jpeg_fw_chr_quant_tbl_default 3 = Done qc /\
    JPEG_HWWriteHead (enc_codec e') [] [] = Done (true, polls', w) /\
    forall rb buf n data ptr size i f, source rb buf n (written w ++ data) -> pool_ok ptr size ->
    exists s k, JPEG_FWParseHead (11 + f) (Some (ptr, size)) rb buf n i = Done (true, s, k) /\
      input_width (inp k) = 640 /\ input_height (inp k) = 480 /\
      input_mcu_info (inp k) = JPEG_FW_YUV420 /\ header_len (inp k) = zlen (written w) /\
      quant_tbl (codec k) = [Some ql; Some qc; None] /\ using_default_huff_tab (codec k) = true /\
      restart_interval (codec k) = 0x3ffff.
Proof.
  split; [reflexivity|].
  apply (encoded_header (fun _ _ => 0) id sample_para sample_enc (mk_pool 0 0 0) [] []);
    [apply sample_para_ok|reflexivity|constructor].
Defined.

(** For pictures up to 65520 in either direction the coded size is the picture rounded
    up to whole units, the product of their number and their size, and the number of
    units does not overflow. *)
Theorem init_geometry p e :
  para_ok p e -> p_width p <= 65520 -> p_height p <= 65520 ->
  exists e', JpegEnc_InitParam p e = (true, e') /\
    rounded_up (p_width p) (mcu_width e') (c_width e') /\ rounded_up (p_height p) (mcu_height e') (c_height e') /\
    c_width e' = mcu_num_x e' * mcu_width e' /\ c_height e' = mcu_num_y e' * mcu_height e' /\
    mcu_num_x e' * mcu_num_y e' < 2 ^ 31.
Proof.
  intros Hp Hw Hh. destruct (init_param_ok p e Hp) as (v & e' & E & Hv & _ & _ & _ & _ & Mw & Mh & Nx & Ny & Cw & Ch).
  destruct Hp as [Hw1 Hh1 _ _ _ _ _]. exists e'. split; [exact E|]. rewrite Cw, Ch, Mw, Mh, Nx, Ny.
  assert (forall n m, 1 <= n <= 65520 -> m = 8 \/ m = 16 -> 0 <= (n + (m - 1)) / m * m < 65536 /\ (n + (m - 1)) / m <= 8190) as Hb.
  { intros n m Hn [-> | ->]; Z.to_euclidean_division_equations; lia. }
  destruct (Hb (p_width p) 16) as [B1 B2]; [lia|by right|]. destruct (Hb (p_height p) (8 * v)) as [B3 B4]; [lia|lia|].
  change (16 - 1) with 15 in *.
  rewrite !u16_small by lia. split_and!; try done.
  - replace (p_width p + 15) with (p_width p + 16 - 1) by lia. by apply round_up.
  - replace (p_height p + (8 * v - 1)) with (p_height p + 8 * v - 1) by lia. apply round_up. lia.
  - assert (0 <= (p_width p + 15) / 16) by (apply Z.div_pos; lia).
    assert (0 <= (p_height p + (8 * v - 1)) / (8 * v)) by (apply Z.div_pos; lia). nia.
Qed.

Lemma init_geometry_witness :
  p_width sample_para <= 65520 /\
  exists e', JpegEnc_InitParam sample_para sample_enc = (true, e') /\
    rounded_up 640 (mcu_width e') (c_width e') /\ rounded_up 480 (mcu_height e') (c_height e') /\
    c_width e' = mcu_num_x e' * mcu_width e' /\ c_height e' = mcu_num_y e' * mcu_height e' /\
    mcu_num_x e' * mcu_num_y e' < 2 ^ 31.
Proof.
  split; [cbn; lia|]. apply (init_geometry sample_para sample_enc); [apply sample_para_ok|cbn; lia|cbn; lia].
Defined.

Lemma quant_memory_divides_witness :
  compress_level sample_enc = 0 /\
  exists e' wl wc ql qc,
    JpegEnc_QTableCfg (fun _ _ => 7) sample_enc [] = Done (e', close_jpg_iram (fun _ _ => 7) (open_jpg_iram (fun _ _ => 7) [] ++ wl ++ wc)) /\
    length wl = 32%nat /\ length wc = 32%nat /\
    quant_tbl (enc_codec e') !! 0%nat = Some (Some ql) /\ quant_tbl (enc_codec e') !! 1%nat = Some (Some qc) /\
    forall i, (i < 64)%nat -> entry_divides JPG_MEMO0 wl ql i /\ entry_divides (JPG_MEMO0 + 128) wc qc i.
Proof.
  split; [reflexivity|]. apply (quant_memory_divides (fun _ _ => 7) sample_enc [] 0); [reflexivity|lia|reflexivity].
Defined.

(** ** Where the code is not what it means *)

Lemma last_written_write a b v l :
  last_written a (JPG_WRITE_REG b v l) = if b =? a then Some (u32 v) else last_written a l.
Proof.
  unfold last_written, JPG_WRITE_REG. rewrite list.filter_app, filter_cons, filter_nil. cbn [fst].
  destruct (Z.eqb_spec b a) as [E|E].
  - rewrite decide_True by done. by rewrite last_snoc.
  - rewrite decide_False by done. by rewrite app_nil_r.
Qed.

(** The addresses of the second frame buffer go to the registers of the first, and the
    registers of the second are not written. *)
Lemma second_buffer_lost hw e l :
  let (_, l') := JpegEnc_HwTopRegCfg hw id e l in
  last_written (GLB_FRM_ADDR 0) l' = Some (u32 (y_data_ptr (YUV_Info_1 e))) /\
  last_written (GLB_FRM_ADDR 2) l' = last_written (GLB_FRM_ADDR 2) l.
Proof.
  unfold JpegEnc_HwTopRegCfg, id. cbn zeta iota. rewrite !last_written_write. done.
Qed.

(** A width of more than 65520 rounds up past sixteen bits. *)
Lemma wide_picture_wraps :
  let y := mk_yuv 0 0 0 YUV422 0 0 in
  let p := mk_para 65530 480 0 0 0 y y (0, 0) 3 ALONE_MODE true false true false true true 0 in
  c_width (JpegEnc_InitParam p sample_enc).2 = 0.
Proof. reflexivity. Qed.
