(* ===== verification/JpegTotal.v ===== *)
(** * The header parser ends on every file

    The loops of jpegdec_parse.c that look for markers run until the stream ends.  Each
    round takes a byte of it, so with more fuel than the file has bytes the model never
    runs out, and the fuel does not show in what [JPEG_FWParseHead] does. *)

From S2P Require Import Prelude JpegCodec JpegStream JpegParse JpegRoundtrip JpegImage.

(** ** Progress

    [progress N d Q m]: on a stream with at most [N] bytes left, [m] does not run out of
    fuel; when it succeeds it has taken at least [d] bytes and its value satisfies [Q]. *)
Definition feeds (s : stream) (k : core) (l : list Z) : Prop := holds s k l /\ Forall byte_ok l.

Definition progress {A} (N d : nat) (Q : A -> Prop) (m : parser A) : Prop :=
  forall s k l, feeds s k l -> (length l <= N)%nat ->
  match m s k with
  | Done (Some a, s', k') => Q a /\ exists l', feeds s' k' l' /\ (length l' + d <= length l)%nat
  | Done (None, s', k') => exists l', feeds s' k' l' /\ (length l' <= length l)%nat
  | Undef => True
  | Fuel => False
  end.

Definition anything {A} (_ : A) : Prop := True.

Lemma feeds_core s k k' l : read (codec k') = read (codec k) -> feeds s k l -> feeds s k' l.
Proof. intros E [H Hb]. split; [by apply (holds_core s k)|done]. Qed.

Lemma progress_weaken {A} N d d' (Q Q' : A -> Prop) m :
  (d' <= d)%nat -> (forall a, Q a -> Q' a) -> progress N d Q m -> progress N d' Q' m.
Proof.
  intros Hd HQ H s k l Hs Hl. specialize (H s k l Hs Hl). destruct (m s k) as [[[[a|] s'] k']| |]; try done.
  destruct H as (Ha & l' & ? & ?). split; [by apply HQ|]. exists l'. split; [done|lia].
Qed.

Lemma progress_any {A} N d (Q : A -> Prop) m : progress N d Q m -> progress N 0 anything m.
Proof. by apply progress_weaken; [lia|]. Qed.

Lemma progress_ret {A} N (Q : A -> Prop) a : Q a -> progress N 0 Q (pret a).
Proof. intros Ha s k l Hs _. split; [done|]. exists l. split; [done|lia]. Qed.

Lemma progress_fail {A} N d (Q : A -> Prop) : progress N d Q pfail.
Proof. intros s k l Hs _. by exists l. Qed.

Lemma progress_bind {A B} N d1 d2 (Q : A -> Prop) (R : B -> Prop) m f :
  progress N d1 Q m -> (forall a, Q a -> progress (N - d1) d2 R (f a)) -> progress N (d1 + d2) R (pbind m f).
Proof.
  intros Hm Hf s k l Hs Hl. specialize (Hm s k l Hs Hl). unfold pbind.
  destruct (m s k) as [[[[a|] s1] k1]| |]; cbn [obind]; try done.
  destruct Hm as (Ha & l1 & H1 & L1). specialize (Hf a Ha s1 k1 l1 H1 ltac:(lia)).
  destruct (f a s1 k1) as [[[[b|] s2] k2]| |]; try done.
  - destruct Hf as (Hb & l2 & H2 & L2). split; [done|]. exists l2. split; [done|lia].
  - destruct Hf as (l2 & H2 & L2). exists l2. split; [done|lia].
Qed.

(** The usual case: what is taken first is all that is counted. *)
Lemma progress_then {A B} N d (Q : A -> Prop) (R : B -> Prop) m f :
  progress N d Q m -> (forall a, Q a -> progress (N - d) 0 R (f a)) -> progress N d R (pbind m f).
Proof. intros Hm Hf. rewrite <- (Nat.add_0_r d). by apply (progress_bind N d 0 Q). Qed.

Lemma progress_then0 {A B} N d (Q : A -> Prop) (R : B -> Prop) m f :
  progress N 0 Q m -> (forall a, Q a -> progress N d R (f a)) -> progress N d R (pbind m f).
Proof. intros Hm Hf. apply (progress_bind N 0 d Q R m f Hm). intros a Ha. rewrite Nat.sub_0_r. by apply Hf. Qed.

Lemma progress_char N : progress N 1 byte_ok get_char.
Proof.
  intros s k [|c l] [Hs Hb] Hl.
  - destruct (get_char_nil s k Hs) as (s' & -> & H' & _). by exists [].
  - destruct (get_char_cons s k c l Hs) as (s' & -> & H' & _). apply Forall_cons in Hb as [Hc Hb].
    split; [done|]. exists l. split; [done|cbn; lia].
Qed.

Lemma progress_get {A} N (f : core -> A) : progress N 0 anything (pget f).
Proof. intros s k l Hs _. split; [done|]. exists l. split; [done|lia]. Qed.

Lemma progress_upd N f : (forall k, read (codec (f k)) = read (codec k)) -> progress N 0 anything (pupd f).
Proof. intros Hf s k l Hs _. split; [done|]. exists l. split; [by apply (feeds_core s k)|lia]. Qed.

Lemma progress_lift {A} N (o : outcome A) : o <> Fuel -> progress N 0 anything (plift o).
Proof. intros Ho s k l Hs _. unfold plift. destruct o; cbn; try done. split; [done|]. exists l. split; [done|lia]. Qed.

Lemma progress_alloc N n : progress N 0 anything (JpegDec_ExtraMemAlloc n).
Proof.
  intros s k l Hs _. unfold JpegDec_ExtraMemAlloc. cbn zeta.
  destruct (s_extra_mem_size k - s_used_extra_mem k <? _); [done|]. split; [done|]. exists l.
  split; [by apply (feeds_core s k)|lia].
Qed.

Lemma progress_short N : progress N 1 anything get_short_word.
Proof.
  unfold get_short_word. apply (progress_then N 1 byte_ok); [apply progress_char|]. intros a _.
  apply (progress_then0 _ _ anything); [apply (progress_any _ 1 byte_ok), progress_char|]. intros b _. by apply progress_ret.
Qed.

Lemma progress_try {A} N d (Q : A -> Prop) m :
  progress N d Q m -> progress N 0 (fun r => match r with Some a => Q a | None => True end) (ptry m).
Proof.
  intros H s k l Hs Hl. specialize (H s k l Hs Hl). unfold ptry. destruct (m s k) as [[[[a|] s'] k']| |]; cbn [obind]; try done.
  - destruct H as (Ha & l' & ? & ?). split; [done|]. exists l'. split; [done|lia].
  - destruct H as (l' & ? & ?). split; [done|]. exists l'. split; [done|lia].
Qed.

(** ** Arrays are not fuel *)
Lemma rd_not_fuel {A} (l : list A) i : rd l i <> Fuel.
Proof. unfold rd. repeat case_match; done. Qed.

Lemma wr_not_fuel {A} (l : list A) i v : wr l i v <> Fuel.
Proof. unfold wr. repeat case_match; done. Qed.

(** One step: an atom, a sequence, or a choice. *)
Ltac pgo :=
  lazymatch goal with
  | |- progress _ 0 _ (pret _) => apply progress_ret; try done
  | |- progress _ _ _ pfail => apply progress_fail
  | |- progress _ 0 anything get_char => apply (progress_any _ 1 byte_ok), progress_char
  | |- progress _ 0 anything get_short_word => apply (progress_any _ 1 anything), progress_short
  | |- progress _ _ _ (plift Undef) => by intros ? ? ? ? ?
  | |- progress _ 0 anything (plift _) => apply progress_lift
  | |- progress _ 0 anything (pget _) => apply progress_get
  | |- progress _ 0 anything (pupd _) => apply progress_upd; intros; reflexivity
  | |- progress _ 0 anything (pcodec _) => apply progress_upd; intros; reflexivity
  | |- progress _ 0 anything (pinput _) => apply progress_upd; intros; reflexivity
  | |- progress _ 0 anything (JpegDec_ExtraMemAlloc _) => apply progress_alloc
  | |- progress _ 0 _ (pbind _ _) => apply (progress_then0 _ 0 anything); [|intros ? _]
  | |- progress _ _ _ (match ?x with _ => _ end) => destruct x
  | |- rd _ _ <> Fuel => apply rd_not_fuel
  | |- wr _ _ _ <> Fuel => apply wr_not_fuel
  end.

Ltac pall := cbn beta; repeat (pgo; cbn beta).

(** ** The functions of the parser *)
Lemma progress_marker fuel after N : (N < fuel)%nat -> progress N 1 anything (GetNextMarker fuel after).
Proof.
  revert after N. induction fuel as [|fuel IH]; intros after N Hf; [lia|]. cbn [GetNextMarker].
  destruct N as [|N].
  - intros s k l [Hs _] Hl. destruct l; [|cbn in Hl; lia]. unfold pbind.
    destruct (get_char_nil s k Hs) as (s' & -> & H' & _). cbn [obind]. by exists [].
  - apply (progress_then _ 1 byte_ok); [apply progress_char|]. intros c _. cbn [Nat.sub]. rewrite Nat.sub_0_r.
    assert (forall b, progress N 0 anything (GetNextMarker fuel b)) as Hn by (intros b; eapply progress_any, IH; lia).
    destruct after; [|apply Hn]. destruct (c =? 0xFF); [apply Hn|]. destruct (c =? 0); [apply Hn|by apply progress_ret].
Qed.

Lemma progress_pcomp N ci f : progress N 0 anything (pcomp ci f).
Proof. unfold pcomp. pall. Qed.
Lemma progress_pmap N i f : progress N 0 anything (pmap i f).
Proof. unfold pmap. pall. Qed.

Lemma progress_sof_components N n ci : progress N 0 anything (sof_components n ci).
Proof.
  revert ci. induction n as [|n IH]; intros ci; cbn [sof_components]; [pall|]. apply (progress_then0 _ _ anything); [|intros _ _; apply IH].
  unfold sof_component. repeat (pgo || apply progress_pcomp || apply progress_pmap; cbn beta).
Qed.

Lemma progress_samp N i : progress N 0 anything (samp i).
Proof. unfold samp. pall. all: case_match; done || pall. Qed.

Lemma progress_SOF N b : progress N 0 anything (GetSOF b).
Proof.
  unfold GetSOF, sof_format. repeat (apply progress_sof_components || apply progress_samp || pgo; cbn beta).
Qed.

Lemma progress_sos_components N n i y : progress N 0 anything (sos_components n i y).
Proof.
  revert i y. induction n as [|n IH]; intros i y; cbn [sos_components]; [pall|].
  apply (progress_then0 _ _ anything); [|intros _ _; apply IH]. unfold sos_component, sos_find.
  repeat (apply progress_pmap || pgo; cbn beta); repeat case_match; done.
Qed.

Lemma progress_SOS N : progress N 0 anything GetSOS.
Proof. unfold GetSOS. repeat (apply progress_sos_components || pgo; cbn beta). Qed.

Lemma progress_skip N n : progress N 0 anything (skip_chars n).
Proof. induction n as [|n IH]; cbn [skip_chars]; [pall|]. pgo; [pall|apply IH]. Qed.

Lemma progress_SkipVariable N : progress N 0 anything SkipVariable.
Proof. unfold SkipVariable. repeat (apply progress_skip || pgo; cbn beta). Qed.

Lemma progress_DRI N : progress N 0 anything GetDRI.
Proof. unfold GetDRI. pall. Qed.

Lemma progress_APP0 N : progress N 0 anything GetAPP0.
Proof. unfold GetAPP0. repeat (apply progress_skip || pgo; cbn beta). Qed.

Lemma progress_huff_malloc N : progress N 0 anything huff_malloc.
Proof.
  assert (forall n, progress N 0 anything (huff_alloc n)) as Ha.
  { induction n as [|n IH]; cbn [huff_alloc]; repeat (apply IH || pgo; cbn beta). }
  unfold huff_malloc. repeat (apply Ha || pgo; cbn beta).
Qed.

(** An update of a table of either kind. *)
Lemma progress_set_tables N ac l : progress N 0 anything (pcodec (set_huff_tables ac l)).
Proof. apply progress_upd. intros k. by destruct ac. Qed.

Lemma progress_put_bits N ac n i c : progress N 0 anything (put_bits ac n i c).
Proof. unfold put_bits. repeat (apply progress_set_tables || pgo; cbn beta). Qed.
Lemma progress_put_huffval N ac n i c : progress N 0 anything (put_huffval ac n i c).
Proof. unfold put_huffval. repeat (apply progress_set_tables || pgo; cbn beta). Qed.
Lemma progress_check N x y : progress N 0 anything (check_default x y).
Proof. unfold check_default. pall. Qed.

Lemma progress_read_bits N n ac index i count : 0 <= count -> progress N 0 (fun c => 0 <= c) (read_bits n ac index i count).
Proof.
  revert i count. induction n as [|n IH]; intros i count Hc; cbn [read_bits]; [by apply progress_ret|].
  repeat (apply progress_put_bits || apply progress_check || pgo; cbn beta). apply IH. apply u16_range.
Qed.

Lemma progress_read_huffval N n ac index i : progress N 0 anything (read_huffval n ac index i).
Proof.
  revert i. induction n as [|n IH]; intros i; cbn [read_huffval]; [pall|].
  repeat (apply IH || apply progress_put_huffval || apply progress_check || pgo; cbn beta).
Qed.

Lemma progress_huff_table N : progress N 0 (fun c => 0 <= c) huff_table.
Proof.
  unfold huff_table. pgo; [pall|]. pgo; [apply progress_put_bits|].
  apply (progress_then0 _ _ (fun c => 0 <= c)); [by apply progress_read_bits|]. intros c Hc. pgo; [apply progress_fail|].
  pgo; [apply progress_read_huffval|by apply progress_ret].
Qed.

Lemma progress_huff_loop N fuel length : Z.max 0 length < Z.of_nat fuel -> progress N 0 anything (huff_loop fuel length).
Proof.
  revert length. induction fuel as [|fuel IH]; intros length Hf; [lia|]. cbn [huff_loop].
  destruct (Z.leb_spec length 0); [pall|].
  apply (progress_then0 _ _ (fun c => 0 <= c)); [apply progress_huff_table|]. intros c Hc. pgo; [apply progress_fail|]. apply IH. lia.
Qed.

Lemma progress_DHT N : progress N 0 anything GetHuffTbl.
Proof.
  unfold GetHuffTbl. pgo; [apply progress_huff_malloc|]. pgo; [pall|].
  match goal with |- context [?x <? 2] => destruct (Z.ltb_spec x 2) end; [apply progress_fail|]. apply progress_huff_loop.
  lia.
Qed.

Lemma progress_put_quant N n i c : progress N 0 anything (put_quant n i c).
Proof. unfold put_quant. pall. Qed.

Lemma progress_read_quant N m prec n j : progress N 0 anything (read_quant m prec n j).
Proof.
  revert j. induction m as [|m IH]; intros j; cbn [read_quant]; repeat (apply IH || apply progress_put_quant || pgo; cbn beta).
Qed.

(** The precision is what is above four bits of a byte of the file. *)
Lemma progress_quant_table N : progress N 0 (fun r => 0 <= r.1) quant_table.
Proof.
  unfold quant_table.
  apply (progress_then0 _ _ byte_ok); [eapply progress_weaken; [|intros ? H; exact H|apply (progress_char N)]; lia|].
  intros c [Hc _]. assert (0 <= Z.shiftr c 4) by (by apply Z.shiftr_nonneg).
  repeat (apply progress_read_quant || pgo; cbn beta).
Qed.

Lemma progress_quant_loop N fuel length two : Z.max 0 length < Z.of_nat fuel -> progress N 0 anything (quant_loop fuel length two).
Proof.
  revert length two. induction fuel as [|fuel IH]; intros length two Hf; [lia|]. cbn [quant_loop].
  destruct (Z.leb_spec length 0); [pall|].
  apply (progress_then0 _ _ (fun r => 0 <= r.1)); [apply progress_quant_table|]. intros [prec n] Hp. cbn in Hp.
  cbn zeta. pgo; [apply progress_fail|]. apply IH. lia.
Qed.

Lemma progress_DQT N : progress N 0 anything GetQuantTbl.
Proof.
  unfold GetQuantTbl. pgo; [pall|]. pgo; [pall|].
  match goal with |- context [?x <? 2] => destruct (Z.ltb_spec x 2) end; [apply progress_fail|].
  pgo; [apply progress_quant_loop; lia|]. pall.
Qed.

Lemma progress_segment N c : progress N 0 anything (segment c).
Proof.
  unfold segment. repeat (apply progress_SOF || apply progress_DHT || apply progress_DQT || apply progress_APP0 ||
    apply progress_DRI || apply progress_SkipVariable || pgo).
Qed.

Lemma progress_tables fuel N : (N < fuel)%nat -> progress N 0 anything (ProcessTables fuel).
Proof.
  revert N. induction fuel as [|fuel IH]; intros N Hf; [lia|]. cbn [ProcessTables].
  intros s k l Hs Hl. pose proof (progress_marker (S fuel) false N Hf s k l Hs Hl) as Hm.
  unfold pbind at 1, ptry at 1. destruct (GetNextMarker (S fuel) false s k) as [[[[c|] s1] k1]| |]; cbn [obind]; try done.
  - destruct Hm as (_ & l1 & H1 & L1).
    assert (progress (N - 1) 0 anything
      (if (c =? M_SOI) || (c =? M_EOI) || (c =? M_SOS) then pret c
       else let? r := ptry (segment c) in match r with None => pret M_ERROR | Some _ => ProcessTables fuel end)) as Hr.
    { destruct ((c =? M_SOI) || (c =? M_EOI) || (c =? M_SOS)); [pall|].
      pgo; [|destruct a; [apply IH; lia|pall]].
      eapply progress_any, progress_try, (progress_segment (N - 1) c). }
    specialize (Hr s1 k1 l1 H1 ltac:(lia)).
    match goal with |- match ?x with _ => _ end => destruct x as [[[[b|] s2] k2]| |] end; try done.
    + destruct Hr as (_ & l2 & ? & ?). split; [done|]. exists l2. split; [done|lia].
    + destruct Hr as (l2 & ? & ?). exists l2. split; [done|lia].
  - destruct Hm as (l1 & H1 & L1). split; [done|]. exists l1. split; [done|lia].
Qed.

Lemma progress_find fuel N : (N < fuel)%nat -> progress N 0 anything (find_SOI fuel).
Proof.
  revert N. induction fuel as [|fuel IH]; intros N Hf; [lia|]. cbn [find_SOI]. destruct N as [|N].
  - intros s k l [Hs Hb] Hl. destruct l; [|cbn in Hl; lia]. unfold pbind at 1. cbn [GetNextMarker]. unfold pbind.
    destruct (get_char_nil s k Hs) as (s' & -> & H' & _). cbn [obind]. by exists [].
  - apply (progress_any _ 1 anything), (progress_then _ 1 anything); [by apply progress_marker|].
    intros c _. cbn [Nat.sub]. rewrite Nat.sub_0_r. pgo; [apply progress_fail|]. pgo; [pall|]. apply IH. lia.
Qed.

Lemma progress_head fuel N : (N < fuel)%nat -> progress N 0 anything (ParseHead fuel).
Proof.
  intros Hf. unfold ParseHead. pgo; [by apply progress_find|]. pgo; [by apply progress_tables|].
  pgo; [apply progress_SOS|apply progress_fail].
Qed.

(** ** Resource pictures and the whole call *)
Lemma skip_holds n s k l :
  0 <= n -> holds s k l ->
  match skip_n_byte n s k with
  | Done (_, s', k') => exists l', holds s' k' l' /\ (length l' <= length l)%nat /\ (Forall byte_ok l -> Forall byte_ok l')
  | Undef | Fuel => False
  end.
Proof.
  intros Hn Hs. unfold skip_n_byte. destruct (Z.leb_spec n (s_jremain_byte_num s)); [|by exists l].
  destruct Hs as [H1 H2 H3 H4 (tail & -> & Hb)].
  exists (drop (Z.to_nat n) (take (Z.to_nat (s_jremain_byte_num s)) (drop (Z.to_nat (s_inter_buf_ptr s)) (s_inter_buf_bitstream s))) ++ tail).
  split_and!.
  - split; cbn; try done; try lia. exists tail. split; [|done]. f_equal.
    rewrite skipn_firstn_comm, drop_drop. f_equal; [lia|]. f_equal. lia.
  - rewrite !length_app, length_drop. lia.
  - rewrite !Forall_app. intros [? ?]. split; [by apply Forall_drop|done].
Qed.

Lemma progress_res N : progress N 0 anything ParseHead_Res.
Proof.
  unfold ParseHead_Res. pgo.
  - intros s k l [Hs Hb] Hl. pose proof (skip_holds 4 s k l ltac:(lia) Hs) as H.
    destruct (skip_n_byte 4 s k) as [[[[[]|] s'] k']| |]; [| |done..]; destruct H as (l' & ? & ? & ?).
    + split; [done|]. exists l'. split; [by split; auto|lia].
    + exists l'. split; [by split; auto|done].
  - pall.
Qed.

Lemma starts_with_not_fuel id s at_ : starts_with id s at_ <> Fuel.
Proof.
  revert at_. induction id as [|c id IH]; intros at_; cbn [starts_with]; [done|].
  destruct (rd _ at_) eqn:E; cbn [obind]; [|done|by apply rd_not_fuel in E]. by destruct (c =? a).
Qed.

Lemma stuffed_not_fuel n ptr s len : stuffed n ptr s len <> Fuel.
Proof.
  revert ptr len. induction n as [|n IH]; intros ptr len; cbn [stuffed]; [done|].
  destruct (rd _ ptr) as [b| |] eqn:E; cbn [obind]; [|done|by apply rd_not_fuel in E].
  destruct (b =? 255); cbn [obind]; [|apply IH].
  destruct (rd _ (ptr + 1)) as [c| |] eqn:E1; cbn [obind]; [apply IH|done|by apply rd_not_fuel in E1].
Qed.

(** ** Pictures in the resource format are always answered

    [returns m]: on any stream [m] comes to a result. *)
Definition returns {A} (m : parser A) : Prop :=
  forall s k l, feeds s k l -> exists r s' k' l', m s k = Done (r, s', k') /\ feeds s' k' l'.

Lemma returns_bind {A B} (m : parser A) (f : A -> parser B) : returns m -> (forall a, returns (f a)) -> returns (pbind m f).
Proof.
  intros Hm Hf s k l Hs. unfold pbind. destruct (Hm s k l Hs) as (r & s1 & k1 & l1 & -> & H1). cbn [obind].
  destruct r as [a|]; [by apply (Hf a s1 k1 l1)|by exists None, s1, k1, l1].
Qed.
Lemma returns_ret {A} (a : A) : returns (pret a).
Proof. intros s k l Hs. by exists (Some a), s, k, l. Qed.
Lemma returns_fail {A} : returns (@pfail A).
Proof. intros s k l Hs. by exists None, s, k, l. Qed.
Lemma returns_upd f : (forall k, read (codec (f k)) = read (codec k)) -> returns (pupd f).
Proof. intros Hf s k l Hs. exists (Some tt), s, (f k), l. split; [done|]. by apply (feeds_core s k). Qed.
Lemma returns_short : returns get_short_word.
Proof.
  assert (Hc : returns get_char).
  { intros s k [|c l] [Hs Hb].
    - destruct (get_char_nil s k Hs) as (s' & -> & H' & _). by exists None, s', k, [].
    - destruct (get_char_cons s k c l Hs) as (s' & -> & H' & _). apply Forall_cons in Hb as [_ Hb]. by exists (Some c), s', k, l. }
  apply returns_bind; [exact Hc|]. intros a. apply returns_bind; [exact Hc|]. intros b. apply returns_ret.
Qed.

Lemma returns_res : returns ParseHead_Res.
Proof.
  unfold ParseHead_Res. apply returns_bind.
  { intros s k l [Hs Hb]. pose proof (skip_holds 4 s k l ltac:(lia) Hs) as H.
    destruct (skip_n_byte 4 s k) as [[[r s'] k']| |]; [|done..]. destruct H as (l' & ? & ? & ?). exists r, s', k', l'. split; [done|]. split; auto. }
  intros _. repeat (apply returns_bind; [first [apply returns_short|by apply returns_upd]|intros ?]).
  destruct (res_format _); [|apply returns_fail]. apply returns_bind; [by apply returns_upd|]. intros _.
  apply returns_bind; [case_match; [by apply returns_upd|apply returns_ret]|]. intros _. apply returns_bind; [apply returns_short|]. intros q.
  destruct (res_quality q); [by apply returns_upd|apply returns_fail].
Qed.

(** Four bytes in the buffer are compared. *)
Lemma is_res_four s rest : s_inter_buf_ptr s = 0 -> s_inter_buf_bitstream s = [83; 74; 80; 71] ++ rest -> is_res_jpg_file s = Done true.
Proof. intros Hp Hb. unfold is_res_jpg_file. rewrite Hp. cbn [starts_with]. by rewrite Hb. Qed.

(** ** The fuel does not show

    [same N m m']: on a stream with at most [N] bytes left the two do the same. *)
Definition same {A} (N : nat) (m m' : parser A) : Prop :=
  forall s k l, feeds s k l -> (length l <= N)%nat -> m s k = m' s k.

Lemma same_refl {A} N (m : parser A) : same N m m.
Proof. by intros s k l _ _. Qed.

Lemma same_bind {A B} N d (Q : A -> Prop) (m m' : parser A) (f f' : A -> parser B) :
  progress N d Q m -> same N m m' -> (forall a, same (N - d) (f a) (f' a)) -> same N (pbind m f) (pbind m' f').
Proof.
  intros Hp Hm Hf s k l Hs Hl. unfold pbind. rewrite <- (Hm s k l Hs Hl). specialize (Hp s k l Hs Hl).
  destruct (m s k) as [[[[a|] s1] k1]| |]; cbn [obind]; try done.
  destruct Hp as (_ & l1 & H1 & L1). apply (Hf a s1 k1 l1 H1). lia.
Qed.

Lemma same_marker N : forall f f' after, (N < f)%nat -> (N < f')%nat -> same N (GetNextMarker f after) (GetNextMarker f' after).
Proof.
  induction N as [|N IH]; intros [|f] [|f'] after Hf Hf'; try lia; cbn [GetNextMarker].
  - intros s k l [Hs _] Hl. destruct l; [|cbn in Hl; lia]. unfold pbind. by destruct (get_char_nil s k Hs) as (s' & -> & _).
  - apply (same_bind _ 1 byte_ok); [apply progress_char|apply same_refl|]. intros c. cbn [Nat.sub]. rewrite Nat.sub_0_r.
    destruct after; [|apply IH; lia]. destruct (c =? 255); [apply IH; lia|]. destruct (c =? 0); [apply IH; lia|apply same_refl].
Qed.

Lemma same_find N : forall f f', (N < f)%nat -> (N < f')%nat -> same N (find_SOI f) (find_SOI f').
Proof.
  induction N as [|N IH]; intros [|f] [|f'] Hf Hf'; try lia; cbn [find_SOI].
  - intros s k l [Hs _] Hl. destruct l; [|cbn in Hl; lia]. unfold pbind. cbn [GetNextMarker]. unfold pbind.
    by destruct (get_char_nil s k Hs) as (s' & -> & _).
  - apply (same_bind _ 1 anything); [by apply progress_marker|by apply same_marker|]. intros c. cbn [Nat.sub]. rewrite Nat.sub_0_r.
    repeat case_match; try apply same_refl. apply IH; lia.
Qed.

Lemma same_tables N : forall f f', (N < f)%nat -> (N < f')%nat -> same N (ProcessTables f) (ProcessTables f').
Proof.
  induction N as [|N IH]; intros [|f] [|f'] Hf Hf' s k l Hs Hl; try lia; cbn [ProcessTables]; unfold pbind at 1 3, ptry at 1 3.
  - destruct Hs as [Hs _]. destruct l; [|cbn in Hl; lia]. cbn [GetNextMarker]. unfold pbind at 1 3.
    by destruct (get_char_nil s k Hs) as (s' & -> & _).
  - rewrite <- (same_marker (S N) (S f) (S f') false Hf Hf' s k l Hs Hl). pose proof (progress_marker (S f) false (S N) Hf s k l Hs Hl) as Hm.
    destruct (GetNextMarker (S f) false s k) as [[[[c|] s1] k1]| |]; cbn [obind]; try done. destruct Hm as (_ & l1 & H1 & L1).
    destruct ((c =? M_SOI) || (c =? M_EOI) || (c =? M_SOS)); [done|].
    refine (same_bind N 0 _ _ _ _ _ (progress_any _ _ _ _ (progress_try N 0 anything _ (progress_segment N c))) (same_refl _ _) _ s1 k1 l1 H1 _); [|lia].
    intros [r|]; rewrite Nat.sub_0_r; [apply IH; lia|apply same_refl].
Qed.

Lemma same_head N f f' : (N < f)%nat -> (N < f')%nat -> same N (ParseHead f) (ParseHead f').
Proof.
  intros Hf Hf'. unfold ParseHead. apply (same_bind _ 0 anything); [by apply progress_find|by apply same_find|]. intros _. rewrite Nat.sub_0_r.
  apply (same_bind _ 0 anything); [by apply progress_tables|by apply same_tables|]. intros c. apply same_refl.
Qed.

(** What is parsed, from where the callers' functions have set the decoder up. *)
Lemma parse_head_split rb buf n file ptr size i :
  source rb buf n file -> Forall byte_ok file -> pool_ok ptr size ->
  exists s k, feeds s k file /\ (forall rest, file = [83; 74; 80; 71] ++ rest -> is_res_jpg_file s = Done true) /\ forall fuel, JPEG_FWParseHead fuel (Some (ptr, size)) rb buf n i =
    let* res := is_res_jpg_file s in
    if res then
      let* (r, s, k) := ParseHead_Res s (set_codec (set_is_res_file true (codec k)) k) in
      Done (bool_decide (is_Some r), s, set_inp (set_header_len 12 (inp k)) k)
    else
      let* (r, s, k) := ParseHead fuel s k in
      let* (n, s) := get_header_len s in
      Done (bool_decide (is_Some r), s, set_inp (set_header_len n (inp k)) k).
Proof.
  intros Hs Hb Hm. unfold JPEG_FWParseHead.
  destruct (init_mem ptr size (mk_core codec_zero i 0 0 false) Hm) as (k0 & -> & D0 & N0 & R0 & U0). cbn [obind].
  set (k1 := set_codec (set_restart_to_go _ _) _).
  destruct (init_bitstream rb buf n _ k1 Hs) as (s & k2 & -> & (O2 & _ & P2 & J2) & _); [exact N0|exact R0|change (0 <= s_used_extra_mem k0); lia|].
  exists s, k2. split; [done|]. split; [|done]. intros rest Hf. destruct O2 as [H1 H2 H3 H4 (tail & E & _)].
  rewrite P2 in *. change (Z.to_nat 0) with 0%nat in E. rewrite drop_0 in E.
  assert (Hl : 4 <= s_jremain_byte_num s) by (rewrite Hf, zlen_app in J2; change (zlen [83; 74; 80; 71]) with 4 in J2; pose proof (zlen_nonneg rest); lia).
  apply (is_res_four s (drop 4 (s_inter_buf_bitstream s))); [done|]. rewrite <- (take_drop 4 (s_inter_buf_bitstream s)) at 1. f_equal.
  apply (f_equal (take 4)) in E. rewrite Hf in E. change (take 4 ([83; 74; 80; 71] ++ rest)) with [83; 74; 80; 71] in E.
  rewrite take_app_le, take_take in E by (rewrite length_take; unfold zlen in *; lia).
  rewrite Nat.min_l in E by lia. by rewrite <- E.
Qed.

(** C28. No file, from the caller's buffer or through the callback, makes the header parser run for
    ever: its loops take a byte of the file in each round, so with any fuel above the length of the
    file the model does not run out of it, and its result is the same for all of them.  For
    a picture in the resource format, one that starts with SJPG, it comes to a result whatever
    follows.  For the other files this is a statement about termination only: on some malformed
    headers the parser ends at an access outside a buffer ([malformed_headers]), and that a picture
    with a well-formed header is parsed is [header_roundtrip]. *)
Theorem parse_head_terminates rb buf n file ptr size i fuel :
  source rb buf n file -> Forall byte_ok file -> pool_ok ptr size -> (length file < fuel)%nat ->
  JPEG_FWParseHead fuel (Some (ptr, size)) rb buf n i <> Fuel /\
  JPEG_FWParseHead fuel (Some (ptr, size)) rb buf n i = JPEG_FWParseHead (S (length file)) (Some (ptr, size)) rb buf n i /\
  forall rest, file = [83; 74; 80; 71] ++ rest -> exists r, JPEG_FWParseHead fuel (Some (ptr, size)) rb buf n i = Done r.
Proof.
  intros Hs Hb Hm Hf. destruct (parse_head_split rb buf n file ptr size i Hs Hb Hm) as (s & k & Hk & Hres & E). rewrite !E. clear E.
  apply and_assoc. split.
  2: { intros rest Hr. rewrite (Hres rest Hr). cbn [obind].
       destruct (returns_res s (set_codec (set_is_res_file true (codec k)) k) file) as (r & s' & k' & l' & -> & _);
         [by apply (feeds_core s k)|]. cbn [obind]. by eexists. }
  destruct (is_res_jpg_file s) as [res| |] eqn:Er; cbn [obind]; [|done|by apply starts_with_not_fuel in Er]. destruct res.
  - split; [|done]. pose proof (progress_res (length file) s (set_codec (set_is_res_file true (codec k)) k) file) as H.
    destruct (ParseHead_Res s _) as [[[r s'] k']| |]; cbn [obind]; [done|done|].
    exfalso. apply H; [|done]. by apply (feeds_core s k).
  - rewrite <- (same_head (length file) fuel (S (length file)) Hf ltac:(lia) s k file Hk ltac:(lia)). split; [|done].
    pose proof (progress_head fuel (length file) Hf s k file Hk ltac:(lia)) as H.
    destruct (ParseHead _ s k) as [[[r s'] k']| |]; cbn [obind]; [|done|done].
    unfold get_header_len. cbn zeta. destruct (1 <? _); [|done].
    destruct (stuffed _ _ s' _) eqn:Es; cbn [obind]; [done|done|by apply stuffed_not_fuel in Es].
Qed.

Lemma parse_head_terminates_witness :
  let i := mk_input false 0 0 JPEG_FW_YUV444 JPEG_QUALITY_LOW 0 in
  JPEG_FWParseHead 100 (Some (4096, 8192)) None [255; 216; 255; 254; 0; 2] 6 i <> Fuel /\
  JPEG_FWParseHead 100 (Some (4096, 8192)) None [255; 216; 255; 254; 0; 2] 6 i =
  JPEG_FWParseHead 7 (Some (4096, 8192)) None [255; 216; 255; 254; 0; 2] 6 i /\
  forall rest, [255; 216; 255; 254; 0; 2] = [83; 74; 80; 71] ++ rest ->
    exists r, JPEG_FWParseHead 100 (Some (4096, 8192)) None [255; 216; 255; 254; 0; 2] 6 i = Done r.
Proof.
  apply (parse_head_terminates None [255; 216; 255; 254; 0; 2] 6 [255; 216; 255; 254; 0; 2] 4096 8192).
  - split; reflexivity.
  - repeat constructor; discriminate.
  - split; split; (reflexivity || discriminate).
  - cbn. lia.
Defined.

(** ** Headers the parser does not guard against *)
Definition try_head (file : list Z) : outcome (bool * Z) :=
  let* (ok, _, k) := JPEG_FWParseHead (S (length file)) (Some (4096, 8192)) None file (zlen file)
    (mk_input false 0 0 JPEG_FW_YUV444 JPEG_QUALITY_LOW 0) in
  Done (ok, input_width (inp k)).

(** A DC table of thirteen symbols is compared past the end of the default one; a scan of
    four components is written past the table map; a third quantisation table without a
    second is compared through a null pointer; a file of two bytes of the resource
    identifier is read past its end. *)
Lemma malformed_headers :
  try_head ([255; M_SOI; 255; M_DHT; 0; 32; 0; 0; 0; 0; 13] ++ replicate 12 0 ++ replicate 13 1) = Undef /\
  try_head [255; M_SOI; 255; M_SOS; 0; 14; 4; 1; 0; 2; 0; 3; 0; 4; 0; 0; 63; 0] = Undef /\
  try_head ([255; M_SOI; 255; M_DQT; 0; 67; 2] ++ replicate 64 1) = Undef /\
  try_head [83; 74] = Undef.
Proof. vm_compute. done. Qed.

(** A scan header without a frame header is a picture; a short APP0 segment is not skipped
    but searched for markers. *)
Lemma lenient_headers :
  try_head [255; M_SOI; 255; M_SOS; 0; 8; 1; 1; 0; 0; 63; 0] = Done (true, 0) /\
  try_head [255; M_SOI; 255; M_APP0; 0; 6; 255; M_SOS; 0; 8; 1; 1; 0; 0; 63; 0] = Done (true, 0).
Proof. vm_compute. done. Qed.
