(* ===== verification/JpegHuff.v ===== *)
(** * libs/libcamera/jpeg/jpeg_fw_8830/src/jpegdec_vld.c: Huffman codes

    The decoder derives from the counts of a Huffman table, for each code length, whether
    it is used, the place of its first symbol and its largest code, and packs the symbols
    of all tables in one memory; the hardware decodes with these.  The codes are compared
    with the canonical ones, and the ready-made registers and memories of
    jpegcodec_table.c with what the code computes for the default tables. *)

From S2P Require Import Prelude JpegCodec JpegStream JpegParse JpegRoundtrip JpegImage JpegEncoder.

(** ** [JPEGFW_FixHuffTbl] *)

(** [for (i = 1; i <= bits[l]; i++) huffsize[p++] = l]. *)
Fixpoint size_run (n : nat) (l p : Z) (huffsize : list Z) : outcome (Z * list Z) :=
  match n with
  | O => Done (p, huffsize)
  | S n => let* huffsize := wr huffsize p l in size_run n l (u16 (p + 1)) huffsize
  end.

Fixpoint size_loop (n : nat) (bits : list Z) (l p : Z) (huffsize : list Z) : outcome (Z * list Z) :=
  match n with
  | O => Done (p, huffsize)
  | S n =>
      let* c := rd bits l in
      let* (p, huffsize) := size_run (Z.to_nat c) l p huffsize in
      size_loop n bits (l + 1) p huffsize
  end.

(** [while (huffsize[p] == si) huffcode[p++] = code++]. *)
Fixpoint code_run (fuel : nat) (huffsize : list Z) (si p code : Z) (huffcode : list Z) : outcome (Z * Z * list Z) :=
  match fuel with
  | O => Fuel
  | S fuel =>
      let* x := rd huffsize p in
      if x =? si then
        let* huffcode := wr huffcode p code in
        code_run fuel huffsize si (u16 (p + 1)) (u16 (code + 1)) huffcode
      else Done (p, code, huffcode)
  end.

(** The loop around it; a size is at most sixteen. *)
Fixpoint code_loop (fuel : nat) (huffsize : list Z) (si p code : Z) (huffcode : list Z) : outcome (list Z) :=
  match fuel with
  | O => Fuel
  | S fuel =>
      let* x := rd huffsize p in
      if x =? 0 then Done huffcode
      else
        let* (p, code, huffcode) := code_run (S (length huffsize)) huffsize si p code huffcode in
        code_loop fuel huffsize (u16 (si + 1)) p (u16 (Z.shiftl code 1)) huffcode
  end.

(** The index of the first symbol and the largest code of each length. *)
Fixpoint max_loop (n : nat) (bits huffcode : list Z) (l p : Z) (valptr maxcode : list Z) : outcome (list Z * list Z) :=
  match n with
  | O => Done (valptr, maxcode)
  | S n =>
      let* b := rd bits l in
      if negb (b =? 0) then
        let* valptr := wr valptr l (u8 p) in
        let p := u16 (p + b) in
        let* m := rd huffcode (p - 1) in
        let* maxcode := wr maxcode l m in
        max_loop n bits huffcode (l + 1) p valptr maxcode
      else
        let* maxcode := wr maxcode l (-1) in
        max_loop n bits huffcode (l + 1) p valptr maxcode
  end.

(** The word of a length: bit 31 active, bits 23 to 16 the base, bits 15 to 0 the largest
    code. *)
Fixpoint active_loop (n : nat) (valptr maxcode : list Z) (l : Z) (words : list Z) : outcome (list Z) :=
  match n with
  | O => Done words
  | S n =>
      let* m := rd maxcode l in
      if negb (m =? -1) then
        let* base_addr := rd valptr l in
        let* words := wr words l (Z.lor (Z.lor (Z.shiftl 1 31) (Z.shiftl base_addr 16)) m) in
        active_loop n valptr maxcode (l + 1) words
      else
        let* max_code :=
          if 1 <? l then
            let* m := rd maxcode (l - 1) in
            if negb (m =? -1) then Done (u32 ((m + 1) * 2))
            else let* w := rd words (l - 1) in Done (Z.land w 0xffff * 2)
          else Done 0 in
        let* words := wr words l max_code in
        active_loop n valptr maxcode (l + 1) words
  end.

(** From the counts to the words; [words] is the row of [s_active_base_max]. *)
Definition fix_words (b : list Z) (words : list Z) : outcome (list Z) :=
  let* (p, huffsize) := size_loop 16 b 1 0 (replicate 257 0) in
  let* huffsize := wr huffsize p 0 in
  let* si := rd huffsize 0 in
  let* huffcode := code_loop 17 huffsize si 0 0 (replicate 257 0xFFFF) in
  let* (valptr, maxcode) := max_loop 16 b huffcode 1 0 (replicate 17 0) (replicate 17 0) in
  active_loop 16 valptr maxcode 1 words.

(** Its work areas come from the pool. *)
Definition JPEGFW_FixHuffTbl (htbl : HUFF_TBL_T) (words : list Z) : parser (list Z) :=
  JpegDec_ExtraMemAlloc (AC_SYMBOL_NUM + 1) ;;;
  JpegDec_ExtraMemAlloc (2 * (AC_SYMBOL_NUM + 1)) ;;;
  JpegDec_ExtraMemAlloc (4 * (MAX_BITS_SIZE + 1)) ;;;
  JpegDec_ExtraMemAlloc (MAX_BITS_SIZE + 1) ;;;
  match bits htbl with
  | None => plift Undef
  | Some b => plift (fix_words b words)
  end.

(** [s_active_base_max]: luma DC, luma AC, chroma DC, chroma AC. *)
Record active_base_max := mk_abm { abm_luma_dc : list Z; abm_luma_ac : list Z; abm_chroma_dc : list Z; abm_chroma_ac : list Z }.

Definition pfix (ac : bool) (id : Z) (words : list Z) : parser (list Z) :=
  let? c := pget codec in
  let? t := plift (rd (huff_tables ac c) id) in
  JPEGFW_FixHuffTbl t words.

Definition JPEGFW_InitHuffTbl (a : active_base_max) : parser active_base_max :=
  let? w0 := pfix false JPEG_FW_LUM_ID (abm_luma_dc a) in
  let? w1 := pfix true JPEG_FW_LUM_ID (abm_luma_ac a) in
  let? n := pget (fun k => num_components (codec k)) in
  if negb (n =? 1) then
    let? w2 := pfix false JPEG_FW_CHR_ID (abm_chroma_dc a) in
    let? w3 := pfix true JPEG_FW_CHR_ID (abm_chroma_ac a) in
    pret (mk_abm w0 w1 w2 w3)
  else pret (mk_abm w0 w1 (abm_chroma_dc a) (abm_chroma_ac a)).

(** ** The symbol memory *)
Definition g_DC_offset : list Z := [0; 0; 2; 6; 14; 26; 38; 50; 62; 74; 86; 98; 110; 122; 134; 146; 158].

(** The symbols of one length; [v] is the place of the next symbol in the table. *)
Fixpoint dc_run (n : nat) (shift : Z) (huffval : list Z) (v at_ : Z) (tab : list Z) : outcome (Z * list Z) :=
  match n with
  | O => Done (v, tab)
  | S n =>
      let* x := rd huffval v in
      let* t := rd tab at_ in
      let* tab := wr tab at_ (Z.lor (u32 (Z.shiftl x shift)) t) in
      dc_run n shift huffval (v + 1) (at_ + 1) tab
  end.

Fixpoint dc_loop (n : nat) (shift : Z) (huffval bits : list Z) (i v : Z) (tab : list Z) : outcome (list Z) :=
  match n with
  | O => Done tab
  | S n =>
      let* number := rd bits i in
      let* start := rd g_DC_offset i in
      let* (v, tab) := dc_run (Z.to_nat number) shift huffval v start tab in
      dc_loop n shift huffval bits (i + 1) v tab
  end.

Definition build_hufftab_DC (tab huffval bits : list Z) (beChroma : bool) : outcome (list Z) :=
  dc_loop 16 (if beChroma then 24 else 16) huffval bits 1 0 tab.

Fixpoint ac_loop (n : nat) (shift : Z) (huffval : list Z) (i : Z) (tab : list Z) : outcome (list Z) :=
  match n with
  | O => Done tab
  | S n =>
      let* t := rd tab i in
      let* x := rd huffval i in
      let* tab := wr tab i (Z.lor t (Z.shiftl x shift)) in
      ac_loop n shift huffval (i + 1) tab
  end.

Definition build_hufftab_AC (tab huffval : list Z) (beChroma : bool) : outcome (list Z) :=
  ac_loop 162 (if beChroma then 8 else 0) huffval 0 tab.

(** A table of the codec through its pointers. *)
Definition table_at {A} (ac : bool) (c : JPEG_CODEC_T) (id : Z) (f : list Z -> list Z -> outcome A) : outcome A :=
  let* t := rd (huff_tables ac c) id in
  match bits t, huffval t with
  | Some b, Some v => f b v
  | _, _ => Undef
  end.

(** [JPEGFW_build_hufftab_jpegDec]: the new [g_huffTab]. *)
Definition JPEGFW_build_hufftab_jpegDec (c : JPEG_CODEC_T) : outcome (list Z) :=
  let tab := replicate 162 0 in
  let* tab := table_at false c JPEG_FW_LUM_ID (fun b v => build_hufftab_DC tab v b false) in
  let* tab := table_at true c JPEG_FW_LUM_ID (fun _ v => build_hufftab_AC tab v false) in
  if negb (num_components c =? 1) then
    let* tab := table_at false c JPEG_FW_CHR_ID (fun b v => build_hufftab_DC tab v b true) in
    table_at true c JPEG_FW_CHR_ID (fun _ v => build_hufftab_AC tab v true)
  else Done tab.

(** ** Registers *)
Definition JPG_VLD : Z := 0x4800.
Definition DC_VALID_OFFSET : Z := 0x84.
Definition AC_VALID_OFFSET : Z := 0x88.
Definition Luma_DC_LUT_OFFSET : Z := 0x8C.
Definition Chroma_DC_LUT_OFFSET : Z := 0xCC.
Definition Luma_AC_LUT_OFFSET : Z := 0x10C.
Definition Chroma_AC_LUT_OFFSET : Z := 0x14C.

(** Sixteen registers from the words of the lengths. *)
Fixpoint max_regs (n : nat) (f : Z -> Z) (words : list Z) (i base : Z) (l : writes_log) : outcome writes_log :=
  match n with
  | O => Done l
  | S n => let* w := rd words (i + 1) in max_regs n f words (i + 1) base (JPG_WRITE_REG (base + 4 * i) (f w) l)
  end.

Definition configure_maxReg_DC (words : list Z) (beChroma : bool) : writes_log -> outcome writes_log :=
  max_regs 16 (fun w => Z.land w 0xffff) words 0 (JPG_VLD + if beChroma then Chroma_DC_LUT_OFFSET else Luma_DC_LUT_OFFSET).

Definition configure_maxReg_AC (words : list Z) (beChroma : bool) : writes_log -> outcome writes_log :=
  max_regs 16 (fun w => Z.lor (Z.shiftl (Z.land w 0xffff) 8) (Z.land (Z.shiftr w 16) 0xff)) words 0
    (JPG_VLD + if beChroma then Chroma_AC_LUT_OFFSET else Luma_AC_LUT_OFFSET).

Fixpoint valid_loop (n : nat) (words : list Z) (i valid : Z) : outcome Z :=
  match n with
  | O => Done valid
  | S n => let* w := rd words (i + 1) in valid_loop n words (i + 1) (Z.lor valid (Z.shiftl (Z.shiftr w 31) (15 - i)))
  end.

Definition collect_valid_bits (words : list Z) : outcome Z := valid_loop 16 words 0 0.

Definition JPEGFW_configure_validReg (a : active_base_max) (l : writes_log) : outcome writes_log :=
  let* valid0 := collect_valid_bits (abm_luma_dc a) in
  let* valid1 := collect_valid_bits (abm_chroma_dc a) in
  let l := JPG_WRITE_REG (JPG_VLD + DC_VALID_OFFSET) (Z.lor (Z.shiftl valid0 16) valid1) l in
  let* valid2 := collect_valid_bits (abm_luma_ac a) in
  let* valid3 := collect_valid_bits (abm_chroma_ac a) in
  Done (JPG_WRITE_REG (JPG_VLD + AC_VALID_OFFSET) (Z.lor (Z.shiftl valid2 16) valid3) l).

(** [for (i = 2; i < 66; i++)] of the default branch. *)
Fixpoint default_regs (n : nat) (i : Z) (l : writes_log) : outcome writes_log :=
  match n with
  | O => Done l
  | S n =>
      let* v := rd jpeg_fw_vld_default_max_code i in
      default_regs n (i + 1) (JPG_WRITE_REG (JPG_VLD + DC_VALID_OFFSET + i * 4) v l)
  end.

(** [JPEGFW_configure_vld_reg_jpegDec]: [g_huffTab] and the writes. *)
Definition JPEGFW_configure_vld_reg_jpegDec (c : JPEG_CODEC_T) (a : active_base_max) (g_huffTab : list Z) (l : writes_log) :
    outcome (list Z * writes_log) :=
  if negb (using_default_huff_tab c) then
    let* l := JPEGFW_configure_validReg a l in
    let* l := configure_maxReg_DC (abm_luma_dc a) false l in
    let* l := configure_maxReg_DC (abm_chroma_dc a) true l in
    let* l := configure_maxReg_AC (abm_luma_ac a) false l in
    let* l := configure_maxReg_AC (abm_chroma_ac a) true l in
    Done (g_huffTab, l)
  else
    let* v := rd jpeg_fw_vld_default_max_code 0 in
    let l := JPG_WRITE_REG (JPG_VLD + DC_VALID_OFFSET) v l in
    let* v := rd jpeg_fw_vld_default_max_code 1 in
    let l := JPG_WRITE_REG (JPG_VLD + AC_VALID_OFFSET) v l in
    let* l := default_regs 64 2 l in
    Done (jpeg_fw_vld_default_huffTab, l).

(** ** Canonical codes

    From the counts of the lengths [l], [l + 1], ..: the codes of a length follow each
    other, and the first of the next length is twice the one after the last. *)
Fixpoint canon_codes (l c : Z) (ns : list Z) : list (Z * Z) :=
  match ns with
  | [] => []
  | n :: ns => ((fun x => (x, l)) <$> seqZ c n) ++ canon_codes (l + 1) (2 * (c + n)) ns
  end.

(** The codes fit their lengths. *)
Fixpoint kraft (l c : Z) (ns : list Z) : Prop :=
  match ns with
  | [] => True
  | n :: ns => c + n <= 2 ^ l /\ kraft (l + 1) (2 * (c + n)) ns
  end.

(** The word of a length with [n] codes from [c] on, the first symbol at place [p]. *)
Definition canon_word (n c p : Z) : Z := if n =? 0 then c else 2 ^ 31 + p * 2 ^ 16 + (c + n - 1).

Fixpoint canon_words (c p : Z) (ns : list Z) : list Z :=
  match ns with
  | [] => []
  | n :: ns => canon_word n c p :: canon_words (2 * (c + n)) (p + n) ns
  end.

Definition counts_ok (ns : list Z) : Prop := length ns = 16%nat /\ Forall byte_ok ns /\ kraft 1 0 ns.

Fixpoint total (ns : list Z) : Z := match ns with [] => 0 | n :: ns => n + total ns end.

Fixpoint sizes (l : Z) (ns : list Z) : list Z :=
  match ns with [] => [] | n :: ns => replicate (Z.to_nat n) l ++ sizes (l + 1) ns end.

Lemma total_nonneg ns : Forall byte_ok ns -> 0 <= total ns.
Proof. induction 1 as [|n ns Hn _ IH]; cbn; unfold byte_ok in *; lia. Qed.

Lemma zlen_sizes l ns : Forall byte_ok ns -> zlen (sizes l ns) = total ns.
Proof.
  intros H. revert l. induction H as [|n ns Hn _ IH]; intros l; cbn; [done|]. rewrite zlen_app, IH.
  unfold zlen, byte_ok in *. rewrite length_replicate. lia.
Qed.

Lemma zlen_codes l c ns : Forall byte_ok ns -> zlen (canon_codes l c ns) = total ns.
Proof.
  intros H. revert l c. induction H as [|n ns Hn _ IH]; intros l c; cbn; [done|]. rewrite zlen_app, IH.
  unfold zlen, byte_ok in *. rewrite length_fmap, length_seqZ. lia.
Qed.

(** The arrays at a place. *)
Lemma app_cons_assoc {A} (pre : list A) x suf : pre ++ x :: suf = (pre ++ [x]) ++ suf.
Proof. by rewrite <- app_assoc. Qed.

Lemma zlen_snoc {A} (pre : list A) x : zlen (pre ++ [x]) = zlen pre + 1.
Proof. by rewrite zlen_app. Qed.

(** *** Sizes *)
Lemma size_run_ok n l pre m :
  zlen pre + Z.of_nat n < 65536 ->
  size_run n l (zlen pre) (pre ++ replicate (n + m) 0) = Done (zlen pre + Z.of_nat n, pre ++ replicate n l ++ replicate m 0).
Proof.
  revert pre. induction n as [|n IH]; intros pre Hp; cbn [size_run Nat.add replicate app].
  - by rewrite Z.add_0_r.
  - rewrite wr_app by done. cbn [obind]. pose proof (zlen_nonneg pre). rewrite u16_small by lia.
    rewrite (app_cons_assoc pre l (replicate (n + m) 0)), (app_cons_assoc pre l (replicate n l ++ _)). rewrite <- (zlen_snoc pre l).
    rewrite IH by (rewrite zlen_snoc; lia). rewrite zlen_snoc. do 2 f_equal. lia.
Qed.

Lemma size_loop_ok ns b l pre m bpre :
  b = bpre ++ ns -> l = zlen bpre -> Forall byte_ok ns -> zlen pre + total ns < 65536 ->
  size_loop (length ns) b l (zlen pre) (pre ++ replicate (Z.to_nat (total ns) + m) 0) =
    Done (zlen pre + total ns, pre ++ sizes l ns ++ replicate m 0).
Proof.
  intros Hb Hl Hn. revert l bpre Hb Hl pre. induction Hn as [|n ns Hn Hns IH]; intros l bpre Hb Hl pre Hp; cbn [length size_loop total sizes].
  - by rewrite Z.add_0_r.
  - cbn [total] in Hp. pose proof (total_nonneg ns Hns) as Ht. unfold byte_ok in Hn. rewrite Hb, rd_app by done. cbn [obind].
    replace (Z.to_nat (n + total ns) + m)%nat with (Z.to_nat n + (Z.to_nat (total ns) + m))%nat by lia.
    rewrite size_run_ok by lia. cbn [obind].
    assert (zlen pre + Z.of_nat (Z.to_nat n) = zlen (pre ++ replicate (Z.to_nat n) l)) as ->
      by (rewrite zlen_app; unfold zlen; rewrite length_replicate; lia).
    rewrite app_assoc. assert (zlen (pre ++ replicate (Z.to_nat n) l) = zlen pre + n) as Ez
      by (rewrite zlen_app; unfold zlen; rewrite length_replicate; lia).
    rewrite <- Hb, (IH (l + 1) (bpre ++ [n])); [|rewrite <- app_assoc; done|rewrite zlen_snoc; lia|lia].
    rewrite Ez, <- !app_assoc. do 2 f_equal. lia.
Qed.

(** *** Codes *)
Lemma seqZ_S c n : seqZ c (Z.of_nat (S n)) = c :: seqZ (c + 1) (Z.of_nat n).
Proof. rewrite seqZ_cons by lia. f_equal. f_equal; lia. Qed.

Lemma code_run_ok fuel n l spre tl cpre m c :
  (n < fuel)%nat -> match tl with [] => False | x :: _ => x <> l end -> zlen cpre = zlen spre ->
  0 <= c < 65536 -> c + Z.of_nat n <= 65536 -> zlen spre + Z.of_nat n < 65536 ->
  code_run fuel (spre ++ replicate n l ++ tl) l (zlen spre) c (cpre ++ replicate (n + m) 0xFFFF) =
    Done (zlen spre + Z.of_nat n, u16 (c + Z.of_nat n), cpre ++ seqZ c (Z.of_nat n) ++ replicate m 0xFFFF).
Proof.
  revert n spre cpre c. induction fuel as [|fuel IH]; intros n spre cpre c Hf Htl Hz Hc Hn Hp; [lia|].
  cbn [code_run]. destruct n as [|n]; cbn [replicate app Nat.add].
  - destruct tl as [|x tl]; [done|]. rewrite rd_app by done. cbn [obind]. rewrite (proj2 (Z.eqb_neq x l)) by done.
    rewrite !Z.add_0_r, u16_small by lia. done.
  - rewrite rd_app by done. cbn [obind]. rewrite Z.eqb_refl, wr_app by done. cbn [obind].
    pose proof (zlen_nonneg spre). rewrite u16_small by lia.
    rewrite (app_cons_assoc spre l (replicate n l ++ tl)), (app_cons_assoc cpre c (replicate (n + m) _)), <- (zlen_snoc spre l).
    destruct (decide (n = 0%nat)) as [->|Hn0].
    + cbn [replicate app Nat.add]. destruct fuel as [|fuel]; [lia|]. cbn [code_run]. destruct tl as [|x tl]; [done|].
      rewrite rd_app by done. cbn [obind]. rewrite (proj2 (Z.eqb_neq x l)) by done.
      rewrite seqZ_S, zlen_snoc. change (seqZ (c + 1) (Z.of_nat 0)) with (@nil Z). cbn [app]. by rewrite <- app_assoc.
    + rewrite (u16_small (c + 1)) by lia. rewrite IH; [|lia|done|rewrite !zlen_snoc; lia|lia|lia|rewrite zlen_snoc; lia].
      rewrite seqZ_S, zlen_snoc, <- app_assoc. cbn [app].
      replace (c + 1 + Z.of_nat n) with (c + Z.of_nat (S n)) by lia.
      by replace (zlen spre + 1 + Z.of_nat n) with (zlen spre + Z.of_nat (S n)) by lia.
Qed.

Lemma kraft_full l ns : 0 <= l -> Forall byte_ok ns -> forall c, 2 ^ l <= c -> kraft l c ns -> sizes l ns = [].
Proof.
  intros Hl Hn. revert l Hl. induction Hn as [|n ns Hn _ IH]; intros l Hl c Hc Hk; [done|]. cbn [kraft] in Hk. destruct Hk as [Hk1 Hk].
  unfold byte_ok in Hn. assert (n = 0) as -> by lia. cbn [sizes Z.to_nat replicate app].
  apply (IH (l + 1) ltac:(lia) (2 * (c + 0))); [rewrite Z.pow_add_r by lia; lia|done].
Qed.

Lemma sizes_head l ns : Forall byte_ok ns -> match sizes l ns with [] => True | x :: _ => l <= x end.
Proof.
  intros Hn. revert l. induction Hn as [|n ns Hn _ IH]; intros l; cbn [sizes]; [done|].
  destruct (Z.to_nat n); cbn [replicate app]; [|lia]. specialize (IH (l + 1)). destruct (sizes (l + 1) ns); [done|lia].
Qed.

Definition codes_of (l c : Z) (ns : list Z) : list Z := (canon_codes l c ns).*1.

Lemma codes_cons l c n ns : codes_of l c (n :: ns) = seqZ c n ++ codes_of (l + 1) (2 * (c + n)) ns.
Proof. unfold codes_of. cbn [canon_codes]. rewrite fmap_app, <- list_fmap_compose. cbn. f_equal. apply list_fmap_id. Qed.

Lemma codes_nil l c ns : Forall byte_ok ns -> sizes l ns = [] -> codes_of l c ns = [].
Proof.
  intros Hn Hs. apply nil_length_inv. assert (zlen (codes_of l c ns) = 0) as Hz.
  { unfold codes_of, zlen. rewrite length_fmap. change (zlen (canon_codes l c ns) = 0). rewrite zlen_codes, <- (zlen_sizes l), Hs by done. done. }
  unfold zlen in Hz. lia.
Qed.

Lemma code_loop_ok ns l c fuel spre cpre z m code :
  Forall byte_ok ns -> kraft l c ns -> 1 <= l -> l + zlen ns <= 17 -> 0 <= c -> (length ns < fuel)%nat ->
  zlen cpre = zlen spre -> zlen spre + total ns < 257 -> sizes l ns = [] \/ code = c ->
  code_loop fuel (spre ++ sizes l ns ++ replicate (S z) 0) l (zlen spre) code (cpre ++ replicate (Z.to_nat (total ns) + m) 0xFFFF) =
    Done (cpre ++ codes_of l c ns ++ replicate m 0xFFFF).
Proof.
  intros Hn. revert l c fuel spre cpre code. induction Hn as [|n ns Hn Hns IH]; intros l c fuel spre cpre code Hk Hl Hlen Hc Hf Hz Hp Hcode.
  - destruct fuel as [|fuel]; [cbn in Hf; lia|]. cbn [code_loop sizes app replicate]. rewrite rd_app by done. done.
  - destruct fuel as [|fuel]; [lia|]. cbn [length] in Hf. cbn [code_loop]. pose proof (zlen_nonneg ns) as Hz0. pose proof (zlen_nonneg spre).
    replace (zlen (n :: ns)) with (zlen ns + 1) in Hlen by (unfold zlen; cbn; lia).
    destruct (sizes l (n :: ns)) as [|x xs] eqn:Es.
    { cbn [app replicate]. rewrite rd_app by done. cbn [obind Z.eqb]. rewrite codes_nil by (try done; by constructor).
      assert (total (n :: ns) = 0) as -> by (rewrite <- (zlen_sizes l), Es by (by constructor); done). done. }
    destruct Hcode as [? | ->]; [done|]. pose proof (sizes_head l (n :: ns) (Forall_cons_2 _ _ _ Hn Hns)) as Hx. rewrite Es in Hx.
    assert (c < 2 ^ l) as Hcl.
    { destruct (Z.lt_ge_cases c (2 ^ l)) as [|Hge]; [done|]. exfalso.
      assert (sizes l (n :: ns) = []) as E0 by (apply (kraft_full l (n :: ns)) with c; [lia|by constructor|done|done]).
      by rewrite E0 in Es. }
    cbn [kraft] in Hk. destruct Hk as [Hk1 Hk]. unfold byte_ok in Hn. cbn [total] in *. pose proof (total_nonneg ns Hns) as Ht.
    assert (2 ^ l <= 2 ^ 16) as Hpow by (apply Z.pow_le_mono_r; lia). change (2 ^ 16) with 65536 in Hpow.
    cbn [app]. rewrite rd_app by done. cbn [obind]. rewrite (proj2 (Z.eqb_neq x 0)) by lia.
    rewrite app_comm_cons, <- Es. cbn [sizes]. rewrite <- app_assoc.
    replace (Z.to_nat (n + total ns) + m)%nat with (Z.to_nat n + (Z.to_nat (total ns) + m))%nat by lia.
    rewrite code_run_ok; [|rewrite !length_app, length_replicate; lia| |done|lia|lia|lia].
    2:{ pose proof (sizes_head (l + 1) ns Hns). destruct (sizes (l + 1) ns); cbn; lia. }
    rewrite Z2Nat.id by lia. cbn [obind]. rewrite (u16_small (l + 1)) by lia.
    rewrite (app_assoc spre), (app_assoc cpre).
    assert (zlen spre + n = zlen (spre ++ replicate (Z.to_nat n) l)) as Ez
      by (rewrite zlen_app; unfold zlen; rewrite length_replicate; lia).
    rewrite Ez, codes_cons, <- (app_assoc (seqZ c n)), (app_assoc cpre). apply IH; [done|lia|lia|lia|lia| | |].
    + rewrite <- Ez, zlen_app. unfold zlen at 2. rewrite length_seqZ. lia.
    + lia.
    + destruct (sizes (l + 1) ns) as [|y ys] eqn:Ey; [by left|right].
      assert (2 * (c + n) < 2 ^ (l + 1)) as Hlt.
      { destruct (Z.lt_ge_cases (2 * (c + n)) (2 ^ (l + 1))) as [|Hge]; [done|]. exfalso.
        assert (sizes (l + 1) ns = []) as E0 by (apply (kraft_full (l + 1) ns) with (2 * (c + n)); [lia|done|done|done]).
        by rewrite E0 in Ey. }
      assert (2 ^ (l + 1) <= 2 ^ 16) as Hp2.
      { apply Z.pow_le_mono_r; [lia|]. destruct ns as [|? ns]; [done|]. unfold zlen in Hlen. cbn in Hlen. lia. }
      change (2 ^ 16) with 65536 in Hp2. rewrite Z.shiftl_mul_pow2 by lia. rewrite (u16_small (c + n)) by lia. rewrite u16_small; lia.
Qed.

(** The loop begins at the first size in use. *)
Lemma code_start ns l fuel si z m :
  Forall byte_ok ns -> kraft l 0 ns -> 1 <= l -> l + zlen ns <= 17 -> (length ns < fuel)%nat -> total ns < 257 ->
  rd (sizes l ns ++ replicate (S z) 0) 0 = Done si ->
  code_loop fuel (sizes l ns ++ replicate (S z) 0) si 0 0 (replicate (Z.to_nat (total ns) + m) 0xFFFF) =
    Done (codes_of l 0 ns ++ replicate m 0xFFFF).
Proof.
  intros Hn. revert l fuel. induction Hn as [|n ns Hn Hns IH]; intros l fuel Hk Hl Hlen Hf Ht Hsi.
  - destruct fuel as [|fuel]; [lia|]. done.
  - replace (zlen (n :: ns)) with (zlen ns + 1) in Hlen by (unfold zlen; cbn; lia). cbn [length] in Hf.
    destruct (decide (n = 0)) as [->|Hn0].
    + cbn [sizes Z.to_nat replicate app total] in *. rewrite codes_cons. change (seqZ 0 0) with (@nil Z). cbn [app].
      change (2 * (0 + 0)) with 0. apply IH; try done; try lia. by destruct Hk.
    + unfold byte_ok in Hn. assert (si = l) as ->.
      { cbn [sizes] in Hsi. destruct (Z.to_nat n) eqn:En; [lia|]. cbn in Hsi. by injection Hsi. }
      apply (code_loop_ok (n :: ns) l 0 fuel [] []); try done; [by constructor|unfold zlen in *; cbn; lia|by right].
Qed.

(** *** Largest codes *)
Fixpoint firsts (p : Z) (ns : list Z) : list Z :=
  match ns with [] => [] | n :: ns => (if n =? 0 then 0 else p) :: firsts (p + n) ns end.

Fixpoint maxima (c : Z) (ns : list Z) : list Z :=
  match ns with [] => [] | n :: ns => (if n =? 0 then -1 else c + n - 1) :: maxima (2 * (c + n)) ns end.

Lemma max_loop_ok ns b hc l c bpre cpre ctl vpre mpre :
  Forall byte_ok ns -> b = bpre ++ ns -> l = zlen bpre -> hc = cpre ++ codes_of l c ns ++ ctl ->
  zlen vpre = l -> zlen mpre = l -> zlen cpre + total ns <= 256 ->
  max_loop (length ns) b hc l (zlen cpre) (vpre ++ replicate (length ns) 0) (mpre ++ replicate (length ns) 0) =
    Done (vpre ++ firsts (zlen cpre) ns, mpre ++ maxima c ns).
Proof.
  intros Hn. revert l c bpre cpre vpre mpre.
  induction Hn as [|n ns Hn Hns IH]; intros l c bpre cpre vpre mpre Hb Hl Hh Hv Hm Ht; cbn [length max_loop replicate firsts maxima]; [done|].
  pose proof (zlen_nonneg cpre) as Hc0. cbn [total] in Ht. pose proof (total_nonneg ns Hns) as Ht0. unfold byte_ok in Hn.
  assert (rd b l = Done n) as -> by (rewrite Hb; by apply rd_app). cbn [obind].
  rewrite codes_cons, <- app_assoc in Hh. destruct (Z.eqb_spec n 0) as [->|Hn0]; cbn [negb].
  - rewrite wr_app by done. cbn [obind]. rewrite (app_cons_assoc mpre), (app_cons_assoc vpre), Z.add_0_r.
    rewrite Z.add_0_r in Hh. rewrite (IH (l + 1) (2 * c) (bpre ++ [0]) cpre); try done; try lia.
    + by rewrite Z.add_0_r, <- !app_assoc.
    + by rewrite Hb, <- app_assoc.
    + rewrite zlen_snoc. lia.
    + rewrite zlen_snoc. lia.
    + rewrite zlen_snoc. lia.
  - rewrite wr_app by done. cbn [obind]. rewrite u8_small by (unfold byte_ok; lia). rewrite u16_small by lia.
    assert (rd hc (zlen cpre + n - 1) = Done (c + n - 1)) as ->.
    { rewrite Hh. apply rd_Some; [lia|]. rewrite lookup_app_r by (unfold zlen; lia).
      rewrite lookup_app_l by (rewrite length_seqZ; unfold zlen; lia). apply lookup_seqZ.
      unfold zlen in *. split; lia. }
    cbn [obind]. rewrite wr_app by done. cbn [obind]. rewrite (app_cons_assoc mpre), (app_cons_assoc vpre).
    assert (zlen cpre + n = zlen (cpre ++ seqZ c n)) as Ez by (rewrite zlen_app; unfold zlen; rewrite length_seqZ; lia).
    rewrite Ez, (IH (l + 1) (2 * (c + n)) (bpre ++ [n])); try done.
    + by rewrite <- !app_assoc.
    + by rewrite Hb, <- app_assoc.
    + rewrite zlen_snoc. lia.
    + by rewrite <- app_assoc.
    + rewrite zlen_snoc. lia.
    + rewrite zlen_snoc. lia.
    + lia.
Qed.

(** *** Words *)
Lemma word_lor p m : 0 <= p < 256 -> 0 <= m < 65536 ->
  Z.lor (Z.lor (Z.shiftl 1 31) (Z.shiftl p 16)) m = 2 ^ 31 + p * 2 ^ 16 + m.
Proof.
  intros Hp Hm. rewrite (Z.lor_comm (Z.lor _ _)). rewrite !Z.shiftl_mul_pow2 by lia.
  replace (Z.lor (1 * 2 ^ 31) (p * 2 ^ 16)) with ((2 ^ 15 + p) * 2 ^ 16).
  - rewrite lor_disjoint by lia. lia.
  - rewrite Z.lor_comm. rewrite (lor_disjoint 31) by lia. lia.
Qed.

(** What the word or the largest code before gives for the next length. *)
Definition carried (words maxcode : list Z) (l c : Z) : Prop :=
  (l = 1 /\ c = 0) \/
  1 < l /\ exists m, rd maxcode (l - 1) = Done m /\
    if m =? -1 then exists w, rd words (l - 1) = Done w /\ Z.land w 0xffff * 2 = c else (m + 1) * 2 = c.

Lemma short_code l c (ns : list Z) : ns <> [] -> l + 1 + zlen ns <= 17 -> 1 <= l -> 0 <= c -> c + 0 <= 2 ^ l -> 0 <= c < 2 ^ 16.
Proof.
  intros Hne Hlen Hl Hc Hk. destruct ns as [|? ns]; [done|]. assert (2 ^ l < 2 ^ 16); [|lia].
  apply Z.pow_lt_mono_r; [lia|lia|]. unfold zlen in Hlen. cbn in Hlen. lia.
Qed.

Lemma active_loop_ok ns l c p vpre mpre valptr maxcode wpre wtl :
  Forall byte_ok ns -> kraft l c ns -> 1 <= l -> l + zlen ns <= 17 -> 0 <= c -> 0 <= p -> p + total ns <= 256 ->
  valptr = vpre ++ firsts p ns -> maxcode = mpre ++ maxima c ns -> zlen vpre = l -> zlen mpre = l ->
  zlen wpre = l -> length wtl = length ns -> (ns <> [] -> carried (wpre ++ wtl) maxcode l c) ->
  active_loop (length ns) valptr maxcode l (wpre ++ wtl) = Done (wpre ++ canon_words c p ns).
Proof.
  intros Hn. revert l c p vpre mpre wpre wtl.
  induction Hn as [|n ns Hn Hns IH]; intros l c p vpre mpre wpre wtl Hk Hl Hlen Hc Hp Ht Hv Hm Lv Lm Lw Ltl Hcar; cbn [length active_loop].
  - destruct wtl; [|done]. done.
  - destruct wtl as [|w0 wtl]; [done|]. cbn [length] in Ltl. injection Ltl as Ltl.
    replace (zlen (n :: ns)) with (zlen ns + 1) in Hlen by (unfold zlen; cbn; lia). cbn [total] in Ht. cbn [kraft] in Hk. destruct Hk as [Hk1 Hk].
    pose proof (zlen_nonneg ns). pose proof (total_nonneg ns Hns). unfold byte_ok in Hn.
    assert (2 ^ l <= 65536) as Hpow by (change 65536 with (2 ^ 16); apply Z.pow_le_mono_r; lia).
    specialize (Hcar ltac:(done)). cbn [firsts maxima] in Hv, Hm. rewrite Hm, rd_app by done. cbn [obind canon_words]. unfold canon_word.
    destruct (Z.eqb_spec n 0) as [->|Hn0].
    + cbn [Z.eqb negb Pos.eqb].
      assert ((if 1 <? l
         then let* m := rd (mpre ++ -1 :: maxima (2 * (c + 0)) ns) (l - 1) in
              if negb (m =? -1) then Done (u32 ((m + 1) * 2)) else let* w := rd (wpre ++ w0 :: wtl) (l - 1) in Done (Z.land w 0xffff * 2)
         else Done 0) = Done c) as ->.
      { rewrite <- Hm. destruct Hcar as [[-> ->]|(Hl1 & m & Em & Hcar)]; [done|]. guard_true (1 <? l). rewrite Em. cbn [obind].
        destruct (m =? -1); cbn [negb].
        - destruct Hcar as (w & -> & <-). done.
        - rewrite u32_small by (unfold u32_ok; lia). by f_equal. }
      cbn [obind]. rewrite wr_app by done. cbn [obind]. rewrite (app_cons_assoc wpre c wtl), <- Hm.
      rewrite (IH (l + 1) (2 * (c + 0)) (p + 0) (vpre ++ [0]) (mpre ++ [-1]) (wpre ++ [c]) wtl); try done; try lia.
      * by rewrite <- app_assoc.
      * by rewrite Hv, <- app_assoc.
      * by rewrite Hm, <- app_assoc.
      * rewrite zlen_snoc. lia.
      * rewrite zlen_snoc. lia.
      * rewrite zlen_snoc. lia.
      * intros Hne. right. split; [lia|]. exists (-1). split; [rewrite Hm; apply rd_app; lia|]. cbn. exists c.
        split; [rewrite <- app_assoc; apply rd_app; lia|]. change 65535 with (Z.ones 16).
        rewrite Z.land_ones, Z.mod_small by (try apply (short_code l c ns); lia || done). lia.
    + rewrite (proj2 (Z.eqb_neq (c + n - 1) (-1))) by lia. cbn [negb].
      assert (rd valptr l = Done p) as -> by (rewrite Hv; by apply rd_app). cbn [obind].
      rewrite word_lor, wr_app by (done || lia). cbn [obind]. rewrite (app_cons_assoc wpre _ wtl), <- Hm.
      rewrite (IH (l + 1) (2 * (c + n)) (p + n) (vpre ++ [p]) (mpre ++ [c + n - 1])); try done; try lia.
      * by rewrite <- app_assoc.
      * by rewrite Hv, <- app_assoc.
      * by rewrite Hm, <- app_assoc.
      * rewrite zlen_snoc. lia.
      * rewrite zlen_snoc. lia.
      * rewrite zlen_snoc. lia.
      * intros _. right. split; [lia|]. exists (c + n - 1). split; [rewrite Hm; apply rd_app; lia|].
        rewrite (proj2 (Z.eqb_neq (c + n - 1) (-1))) by lia. lia.
Qed.

(** ** The words of a table *)
Lemma total_sum ns count : Forall byte_ok ns -> 0 <= count -> count + total ns < 65536 -> sum16 ns count = count + total ns.
Proof.
  intros Hn. revert count. induction Hn as [|n ns Hn Hns IH]; intros count Hc Ht; cbn in *; [lia|].
  pose proof (total_nonneg ns Hns). unfold byte_ok in Hn. rewrite u16_small by lia. unfold sum16 in IH. rewrite IH; lia.
Qed.

Lemma fix_words_ok b0 ns w0 wtl :
  counts_ok ns -> total ns <= 256 -> length wtl = 16%nat ->
  fix_words (b0 :: ns) (w0 :: wtl) = Done (w0 :: canon_words 0 0 ns).
Proof.
  intros (Ln & Hb & Hk) Ht Lw. pose proof (total_nonneg ns Hb) as Ht0. unfold fix_words.
  set (z := (256 - Z.to_nat (total ns))%nat).
  assert (forall x : Z, replicate 257 x = [] ++ replicate (Z.to_nat (total ns) + S z) x) as Er by (intros x; cbn [app]; f_equal; lia).
  rewrite !Er. rewrite <- Ln at 1. change 0 with (zlen (@nil Z)) at 1.
  rewrite (size_loop_ok ns (b0 :: ns) 1 [] _ [b0]); try done; [|change (zlen []) with 0; lia].
  change (zlen (@nil Z)) with 0. rewrite Z.add_0_l. cbn [obind app]. change (replicate (S z) 0) with (0 :: replicate z 0).
  rewrite wr_app by (by apply zlen_sizes). cbn [obind]. change (0 :: replicate z 0) with (replicate (S z) 0).
  assert (exists si, rd (sizes 1 ns ++ replicate (S z) 0) 0 = Done si) as [si Hsi].
  { destruct (rd_lt (sizes 1 ns ++ replicate (S z) 0) 0) as (si & E & _); [|by exists si].
    rewrite zlen_app, zlen_sizes by done. unfold zlen. rewrite length_replicate. lia. }
  rewrite Hsi. cbn [obind]. rewrite (code_start ns 1 17 si z (S z)); try done; try lia; [|unfold zlen; lia].
  cbn [obind]. change (replicate 17 0) with ([0] ++ replicate 16 0). rewrite <- Ln.
  change 0 with (zlen (@nil Z)) at 2.
  rewrite (max_loop_ok ns (b0 :: ns) _ 1 0 [b0] [] (replicate (S z) 65535) [0] [0]); try done.
  cbn [obind]. change (zlen (@nil Z)) with 0.
  apply (active_loop_ok ns 1 0 0 [0] [0] _ _ [w0] wtl); try done; try lia; [unfold zlen; lia|]. intros _. by left.
Qed.

(** *** No code is the beginning of another *)
Lemma canon_bounds l c ns x lx :
  Forall byte_ok ns -> 0 <= l -> (x, lx) ∈ canon_codes l c ns -> l <= lx /\ c * 2 ^ (lx - l) <= x.
Proof.
  intros Hn. revert l c. induction Hn as [|n ns Hn _ IH]; intros l c Hl Hx; cbn [canon_codes] in Hx; [by apply not_elem_of_nil in Hx|].
  unfold byte_ok in Hn. apply elem_of_app in Hx as [Hx|Hx].
  - apply list_elem_of_fmap in Hx as (y & [= -> ->] & Hy%elem_of_seqZ). rewrite Z.sub_diag. lia.
  - apply IH in Hx as [Hlx Hx]; [|lia]. split; [lia|]. replace (lx - l) with (lx - (l + 1) + 1) by lia.
    rewrite Z.pow_add_r by lia. pose proof (Z.pow_pos_nonneg 2 (lx - (l + 1))). nia.
Qed.

Lemma canon_prefix_free l c ns (i j : nat) x y lx ly :
  Forall byte_ok ns -> 0 <= l ->
  canon_codes l c ns !! i = Some (x, lx) -> canon_codes l c ns !! j = Some (y, ly) -> (i < j)%nat ->
  lx <= ly /\ x < y / 2 ^ (ly - lx).
Proof.
  intros Hn. revert l c i j. induction Hn as [|n ns Hn Hns IH]; intros l c i j Hl Hi Hj Hij; [done|].
  unfold byte_ok in Hn. cbn [canon_codes] in Hi, Hj.
  set (g := (fun x => (x, l)) <$> seqZ c n) in *. assert (length g = Z.to_nat n) as Lg by (unfold g; by rewrite length_fmap, length_seqZ).
  destruct (Nat.lt_ge_cases i (length g)) as [Hig|Hig].
  - rewrite lookup_app_l in Hi by done. unfold g in Hi. rewrite list_lookup_fmap in Hi.
    destruct (seqZ c n !! i) as [x'|] eqn:Ex; [|done]. injection Hi as <- <-. apply lookup_seqZ in Ex as [-> Hin].
    destruct (Nat.lt_ge_cases j (length g)) as [Hjg|Hjg].
    + rewrite lookup_app_l in Hj by done. unfold g in Hj. rewrite list_lookup_fmap in Hj.
      destruct (seqZ c n !! j) as [y'|] eqn:Ey; [|done]. injection Hj as <- <-. apply lookup_seqZ in Ey as [-> Hjn].
      rewrite Z.sub_diag, Z.div_1_r. lia.
    + rewrite lookup_app_r in Hj by done. apply list_elem_of_lookup_2, canon_bounds in Hj as [Hly Hy]; [|done|lia].
      split; [lia|]. apply Z.lt_le_trans with (c + n); [lia|]. apply Z.div_le_lower_bound; [apply Z.pow_pos_nonneg; lia|].
      replace (ly - l) with (ly - (l + 1) + 1) by lia. rewrite Z.pow_add_r by lia. lia.
  - rewrite lookup_app_r in Hi by done. rewrite lookup_app_r in Hj by lia. apply (IH (l + 1) _ _ _ ltac:(lia) Hi Hj). lia.
Qed.

(** An allocation that fits. *)
Lemma alloc_fits n s k :
  0 <= n < 2 ^ 31 -> n + 3 <= room k ->
  exists u, JpegDec_ExtraMemAlloc n s k = Done (Some tt, s, set_used u k) /\ s_used_extra_mem k <= u <= s_used_extra_mem k + n + 3.
Proof.
  intros Hn Hr. unfold JpegDec_ExtraMemAlloc, room in *. rewrite u32_small by (unfold u32_ok; lia).
  pose proof (land_le (n + 3) (2 ^ 32 - 4) ltac:(lia)) as Hl.
  guard_false (s_extra_mem_size k - s_used_extra_mem k <? Z.land (n + 3) (2 ^ 32 - 4)).
  eexists. split; [reflexivity|]. lia.
Qed.

(** The allocations and the words. *)
Lemma fix_huff_ok b0 ns v w0 wtl s k :
  counts_ok ns -> total ns <= 256 -> length wtl = 16%nat -> 868 <= room k ->
  exists u, JPEGFW_FixHuffTbl (mk_huff (Some (b0 :: ns)) v) (w0 :: wtl) s k =
    Done (Some (w0 :: canon_words 0 0 ns), s, set_used u k) /\ u <= s_used_extra_mem k + 868.
Proof.
  intros Hok Ht Lw Hr. unfold JPEGFW_FixHuffTbl, pbind. change (AC_SYMBOL_NUM + 1) with 257. change (2 * 257) with 514.
  change (MAX_BITS_SIZE + 1) with 17. change (4 * 17) with 68. unfold room in Hr.
  destruct (alloc_fits 257 s k) as (u1 & -> & B1); [lia|unfold room; lia|]. cbn [obind].
  destruct (alloc_fits 514 s (set_used u1 k)) as (u2 & -> & B2); [lia|unfold room; cbn; lia|]. cbn [obind]. cbn in B2.
  destruct (alloc_fits 68 s (set_used u2 (set_used u1 k))) as (u3 & -> & B3); [lia|unfold room; cbn; lia|]. cbn [obind]. cbn in B3.
  destruct (alloc_fits 17 s (set_used u3 (set_used u2 (set_used u1 k)))) as (u4 & -> & B4); [lia|unfold room; cbn; lia|].
  cbn [obind bits]. cbn in B4. unfold plift. rewrite fix_words_ok by done. exists u4. split; [done|lia].
Qed.

(** C29. For counts that fit a prefix code, [JPEGFW_FixHuffTbl] returns the words of the
    canonical code: for each length whether it is used, the place of its first symbol and
    its largest code; and no canonical code is the beginning of another. *)
Theorem fix_huff_canonical b0 ns v w0 wtl s k :
  counts_ok ns -> total ns <= 256 -> length wtl = 16%nat -> 868 <= room k ->
  (exists u, JPEGFW_FixHuffTbl (mk_huff (Some (b0 :: ns)) v) (w0 :: wtl) s k =
     Done (Some (w0 :: canon_words 0 0 ns), s, set_used u k)) /\
  forall (i j : nat) x y lx ly, canon_codes 1 0 ns !! i = Some (x, lx) -> canon_codes 1 0 ns !! j = Some (y, ly) -> (i < j)%nat ->
    lx <= ly /\ x < y / 2 ^ (ly - lx).
Proof.
  intros Hok Ht Lw Hr. split; [|intros i j x y lx ly; apply canon_prefix_free; [apply Hok|lia]].
  destruct (fix_huff_ok b0 ns v w0 wtl s k Hok Ht Lw Hr) as (u & E & _). by exists u.
Qed.

Lemma fix_huff_canonical_witness :
  counts_ok (tail jpeg_fw_lum_dc_bits_default) /\
  (exists u, JPEGFW_FixHuffTbl (mk_huff (Some jpeg_fw_lum_dc_bits_default) None) (replicate 17 0)
       (mk_stream [] 0 0 0 0 0) (mk_core codec_zero (mk_input false 0 0 JPEG_FW_YUV444 JPEG_QUALITY_LOW 0) 1000 0 false) =
     Done (Some (0 :: canon_words 0 0 (tail jpeg_fw_lum_dc_bits_default)), mk_stream [] 0 0 0 0 0,
       set_used u (mk_core codec_zero (mk_input false 0 0 JPEG_FW_YUV444 JPEG_QUALITY_LOW 0) 1000 0 false))) /\
  forall (i j : nat) x y lx ly, canon_codes 1 0 (tail jpeg_fw_lum_dc_bits_default) !! i = Some (x, lx) ->
    canon_codes 1 0 (tail jpeg_fw_lum_dc_bits_default) !! j = Some (y, ly) -> (i < j)%nat -> lx <= ly /\ x < y / 2 ^ (ly - lx).
Proof.
  assert (counts_ok (tail jpeg_fw_lum_dc_bits_default)) as H.
  { split_and!; [reflexivity|apply bytes_check; reflexivity|vm_compute; intuition discriminate]. }
  split; [exact H|].
  apply (fix_huff_canonical 0 (tail jpeg_fw_lum_dc_bits_default) None 0 (replicate 16 0)); [exact H|vm_compute; discriminate|reflexivity|vm_compute; discriminate].
Defined.

(** ** The ready-made tables *)

(** A codec with the tables of jpegcodec_table.c. *)
Definition has_default_tables (c : JPEG_CODEC_T) : Prop :=
  forall (ac : bool) (n : nat), (n < 2)%nat ->
  huff_tables ac c !! n = Some (mk_huff (Some (default_bits ac (Z.of_nat n))) (Some (default_huffval ac (Z.of_nat n)))).

Definition rows_ok (a : active_base_max) : Prop :=
  Forall (fun r => length r = 17%nat) [abm_luma_dc a; abm_luma_ac a; abm_chroma_dc a; abm_chroma_ac a].

Definition default_row (ac : bool) (n : nat) (r : list Z) : list Z :=
  take 1 r ++ canon_words 0 0 (tail (default_bits ac (Z.of_nat n))).

Lemma default_counts ac n : counts_ok (tail (default_bits ac n)) /\ total (tail (default_bits ac n)) <= 256.
Proof.
  unfold default_bits. destruct ac, (n =? 0); (split; [|vm_compute; discriminate]);
    (split_and!; [reflexivity|apply bytes_check; reflexivity|vm_compute; intuition discriminate]).
Qed.

Lemma default_bits_cons ac n : exists b0, default_bits ac n = b0 :: tail (default_bits ac n).
Proof. unfold default_bits. destruct ac, (n =? 0); by eexists. Qed.

Lemma pfix_default ac n r s k :
  (n < 2)%nat -> has_default_tables (codec k) -> length r = 17%nat -> 868 <= room k ->
  exists u, pfix ac (Z.of_nat n) r s k = Done (Some (default_row ac n r), s, set_used u k) /\ u <= s_used_extra_mem k + 868.
Proof.
  intros Hn Hd Hr Hroom. unfold pfix, pbind, pget, plift. cbn [obind].
  rewrite (rd_Some (huff_tables ac (codec k)) (Z.of_nat n) _ ltac:(lia) ltac:(rewrite Nat2Z.id; exact (Hd ac n Hn))). cbn [obind].
  destruct (default_counts ac (Z.of_nat n)) as [Hok Ht]. destruct (default_bits_cons ac (Z.of_nat n)) as [b0 Eb].
  destruct r as [|w0 r]; [done|]. injection Hr as Hr. rewrite Eb. by apply fix_huff_ok.
Qed.

Lemma default_build c :
  has_default_tables c -> num_components c <> 1 -> JPEGFW_build_hufftab_jpegDec c = Done jpeg_fw_vld_default_huffTab.
Proof.
  intros Hd Hn. unfold JPEGFW_build_hufftab_jpegDec, table_at.
  assert (forall ac (n : nat), (n < 2)%nat -> rd (huff_tables ac c) (Z.of_nat n) =
    Done (mk_huff (Some (default_bits ac (Z.of_nat n))) (Some (default_huffval ac (Z.of_nat n))))) as Hr.
  { intros ac n H. apply rd_Some; [lia|]. rewrite Nat2Z.id. by apply Hd. }
  pose proof (Hr false 0%nat ltac:(lia)) as H0. pose proof (Hr true 0%nat ltac:(lia)) as H1.
  pose proof (Hr false 1%nat ltac:(lia)) as H2. pose proof (Hr true 1%nat ltac:(lia)) as H3.
  change (Z.of_nat 0) with JPEG_FW_LUM_ID in *. change (Z.of_nat 1) with JPEG_FW_CHR_ID in *.
  rewrite H0, H1, H2, H3. rewrite (proj2 (Z.eqb_neq (num_components c) 1)) by done. vm_compute. reflexivity.
Qed.

(** The registers and the symbol memory that jpegcodec_table.c holds ready for the
    default Huffman tables are those the code computes from the tables: both branches of
    [JPEGFW_configure_vld_reg_jpegDec] write the same values in the same order. *)
Theorem default_tables_ready a s k g l :
  has_default_tables (codec k) -> num_components (codec k) <> 1 -> rows_ok a -> 3472 <= room k ->
  exists a' k', JPEGFW_InitHuffTbl a s k = Done (Some a', s, k') /\
    JPEGFW_build_hufftab_jpegDec (codec k) = Done jpeg_fw_vld_default_huffTab /\
    JPEGFW_configure_vld_reg_jpegDec (set_using_default_huff_tab false (codec k)) a' jpeg_fw_vld_default_huffTab l =
      JPEGFW_configure_vld_reg_jpegDec (set_using_default_huff_tab true (codec k)) a' g l.
Proof.
  intros Hd Hn Ha Hr. unfold rows_ok in Ha. rewrite !Forall_cons in Ha. destruct Ha as (A0 & A1 & A2 & A3 & _).
  unfold room in Hr. unfold JPEGFW_InitHuffTbl, pbind.
  destruct (pfix_default false 0 (abm_luma_dc a) s k) as (u1 & E1 & B1); [lia|done|done|unfold room; lia|].
  change (Z.of_nat 0) with JPEG_FW_LUM_ID in E1. rewrite E1. cbn [obind].
  destruct (pfix_default true 0 (abm_luma_ac a) s (set_used u1 k)) as (u2 & E2 & B2); [lia|done|done|unfold room; cbn; lia|].
  change (Z.of_nat 0) with JPEG_FW_LUM_ID in E2. rewrite E2. cbn [obind pget]. cbn in B2.
  change (num_components (codec (set_used u2 (set_used u1 k)))) with (num_components (codec k)).
  rewrite (proj2 (Z.eqb_neq (num_components (codec k)) 1)) by done. cbn [negb].
  destruct (pfix_default false 1 (abm_chroma_dc a) s (set_used u2 (set_used u1 k))) as (u3 & E3 & B3); [lia|done|done|unfold room; cbn; lia|].
  change (Z.of_nat 1) with JPEG_FW_CHR_ID in E3. rewrite E3. cbn [obind]. cbn in B3.
  destruct (pfix_default true 1 (abm_chroma_ac a) s (set_used u3 (set_used u2 (set_used u1 k)))) as (u4 & E4 & _); [lia|done|done|unfold room; cbn; lia|].
  change (Z.of_nat 1) with JPEG_FW_CHR_ID in E4. rewrite E4. cbn [obind].
  do 2 eexists. split; [reflexivity|]. split; [by apply default_build|].
  destruct a as [[|r0 ?] [|r1 ?] [|r2 ?] [|r3 ?]]; try discriminate. vm_compute. reflexivity.
Qed.

Lemma default_tables_ready_witness :
  num_components (enc_loaded sample_para) <> 1 /\
  let k := mk_core (enc_loaded sample_para) (mk_input false 0 0 JPEG_FW_YUV444 JPEG_QUALITY_LOW 0) 4000 0 true in
  let s := mk_stream [] 0 0 0 0 0 in
  let r := replicate 17 0 in
  exists a' k', JPEGFW_InitHuffTbl (mk_abm r r r r) s k = Done (Some a', s, k') /\
    JPEGFW_build_hufftab_jpegDec (codec k) = Done jpeg_fw_vld_default_huffTab /\
    JPEGFW_configure_vld_reg_jpegDec (set_using_default_huff_tab false (codec k)) a' jpeg_fw_vld_default_huffTab [] =
      JPEGFW_configure_vld_reg_jpegDec (set_using_default_huff_tab true (codec k)) a' [] [].
Proof.
  split; [discriminate|]. apply default_tables_ready; [|discriminate|repeat constructor|vm_compute; discriminate].
  intros [] n Hn; destruct n as [|[|n]]; [reflexivity|reflexivity|lia|reflexivity|reflexivity|lia].
Defined.

(** The code of a symbol in a default table of AC coefficients, with its length. *)
Definition code_of (chroma : bool) (sym : Z) : option (Z * Z) :=
  let n := if chroma then 1 else 0 in
  e ← list_find (fun e => e.1 = sym) (zip (default_huffval true n) (canon_codes 1 0 (tail (default_bits true n))));
  Some e.2.2.

Definition enc_entry (run size : nat) : Prop :=
  exists cl ll cc lc, code_of false (Z.of_nat (16 * run + size)) = Some (cl, ll) /\
    code_of true (Z.of_nat (16 * run + size)) = Some (cc, lc) /\
    g_huff_tab_enc !! (10 * run + size - 1)%nat = Some (cc * 2 ^ (16 - lc) * 2 ^ 16 + cl * 2 ^ (16 - ll)).

Definition enc_check (run size : nat) : bool :=
  match code_of false (Z.of_nat (16 * run + size)), code_of true (Z.of_nat (16 * run + size)) with
  | Some (cl, ll), Some (cc, lc) =>
      bool_decide (g_huff_tab_enc !! (10 * run + size - 1)%nat = Some (cc * 2 ^ (16 - lc) * 2 ^ 16 + cl * 2 ^ (16 - ll)))
  | _, _ => false
  end.

(** The code memory of the encoder agrees with the Huffman tables of the header: for
    every run and size, its entry holds the canonical codes of the symbol in the chroma
    and the luma table, aligned to the left of their half words. *)
Theorem encoder_codes run size : (run < 16)%nat -> (1 <= size <= 10)%nat -> enc_entry run size.
Proof.
  intros Hr Hs.
  assert (forallb (fun r => forallb (enc_check r) (seq 1 10)) (seq 0 16) = true) as H by (vm_compute; reflexivity).
  rewrite forallb_forall in H. specialize (H run ltac:(apply in_seq; lia)). rewrite forallb_forall in H.
  specialize (H size ltac:(apply in_seq; lia)). unfold enc_check, enc_entry in *.
  destruct (code_of false _) as [[cl ll]|]; [|done]. destruct (code_of true _) as [[cc lc]|]; [|done].
  apply bool_decide_eq_true in H. by exists cl, ll, cc, lc.
Qed.

Lemma encoder_codes_witness : code_of false 1 = Some (0, 2) /\ enc_entry 0 1.
Proof. split; [vm_compute; reflexivity|]. apply (encoder_codes 0 1); lia. Defined.
