(* ===== verification/ExifTypes.v ===== *)
(** * libs/libcamera/sc8830/inc/jpeg_exif_header.h: what a picture's EXIF data says

    The records of the header, field by field: a pointer that may be null is an
    [option], an array a list, a bit field a boolean of the [_VALID_T] record whose name
    begins with [v_].  The second half says what the C types guarantee: the widths of the
    integers and the lengths of the arrays.  The tags are those of jpeg_exif_type.h. *)

From S2P Require Import Prelude.

(** ** Types of values *)
Definition IFD_BYTE : Z := 1.
Definition IFD_ASCII : Z := 2.
Definition IFD_SHORT : Z := 3.
Definition IFD_LONG : Z := 4.
Definition IFD_RATIONAL : Z := 5.
Definition IFD_UNDEFINED : Z := 7.
Definition IFD_SLONG : Z := 9.
Definition IFD_SRATIONAL : Z := 10.

(** ** Tags *)
Definition IFD_GPSVERSIONID : Z := 0x00.
Definition IFD_GPSLATITUDEREF : Z := 0x01.
Definition IFD_GPSLATITUDE : Z := 0x02.
Definition IFD_GPSLONGITUDEREF : Z := 0x03.
Definition IFD_GPSLONGITUDE : Z := 0x04.
Definition IFD_GPSALTITUDEREF : Z := 0x05.
Definition IFD_GPSALTITUDE : Z := 0x06.
Definition IFD_GPSTIMESTAMP : Z := 0x07.
Definition IFD_GPSSATELLITES : Z := 0x08.
Definition IFD_GPSSTATUS : Z := 0x09.
Definition IFD_GPSMEASUREMODE : Z := 0x0a.
Definition IFD_GPSDOP : Z := 0x0b.
Definition IFD_GPSSPEEDREF : Z := 0x0c.
Definition IFD_GPSSPEED : Z := 0x0d.
Definition IFD_GPSTRACKREF : Z := 0x0e.
Definition IFD_GPSTRACK : Z := 0x0f.
Definition IFD_GPSIMGDIRECTIONREF : Z := 0x10.
Definition IFD_GPSIMGDIRECTION : Z := 0x11.
Definition IFD_GPSMAPDATUM : Z := 0x12.
Definition IFD_GPSDESTLATITUDEREF : Z := 0x13.
Definition IFD_GPSDESTLATITUDE : Z := 0x14.
Definition IFD_GPSDESTLONGITUDEREF : Z := 0x15.
Definition IFD_GPSDESTLONGITUDE : Z := 0x16.
Definition IFD_GPSDESTBEARINGREF : Z := 0x17.
Definition IFD_GPSDESTBEARING : Z := 0x18.
Definition IFD_GPSDESTDISTANCEREF : Z := 0x19.
Definition IFD_GPSDESTDISTANCE : Z := 0x1a.
Definition IFD_GPSPROCESSINGMETHOD : Z := 0x1b.
Definition IFD_GPSAREAINFORMATION : Z := 0x1c.
Definition IFD_GPSDATESTAMP : Z := 0x1d.
Definition IFD_GPSDIFFERENTIAL : Z := 0x1e.
Definition IFD_IMAGEWIDTH : Z := 0x100.
Definition IFD_IMAGELENGTH : Z := 0x101.
Definition IFD_COMPRESSION : Z := 0x103.
Definition IFD_IMAGEDESCRIPTION : Z := 0x10e.
Definition IFD_MAKE : Z := 0x10f.
Definition IFD_MODEL : Z := 0x110.
Definition IFD_ORIENTATION : Z := 0x112.
Definition IFD_XRESOLUTION : Z := 0x11A.
Definition IFD_YRESOLUTION : Z := 0x11B.
Definition IFD_RESOLUTIONUNIT : Z := 0x128.
Definition IFD_TRANSFERFUNCTION : Z := 0x12D.
Definition IFD_SOFTWARE : Z := 0x131.
Definition IFD_DATETIME : Z := 0x132.
Definition IFD_ARTIST : Z := 0x13B.
Definition IFD_WHITEPOINT : Z := 0x13E.
Definition IFD_PRIMARYCHROMATICITIES : Z := 0x13F.
Definition IFD_JPEGINTERCHANGEFORMAT : Z := 0x201.
Definition IFD_JPEGINTERCHANGEFORMATLENGTH : Z := 0x202.
Definition IFD_YCBCRCOEFFICIENTS : Z := 0x211.
Definition IFD_YCBCRPOSITION : Z := 0x213.
Definition IFD_REFERENCEBLACKWHITE : Z := 0x214.
Definition IFD_COPYRIGHT : Z := 0x8298.
Definition IFD_EXIFIFDPOINTER : Z := 0x8769.
Definition IFD_GPSIFDPOINTER : Z := 0x8825.
Definition IFD_EXPOSURETIME : Z := 0x829A.
Definition IFD_FNUMBER : Z := 0x829D.
Definition IFD_EXPOSUREPROGRAM : Z := 0x8822.
Definition IFD_SPECTRALSENSITIVITY : Z := 0x8824.
Definition IFD_ISOSPEEDRATINGS : Z := 0x8827.
Definition IFD_OECF : Z := 0x8828.
Definition IFD_EXIFVERSION : Z := 0x9000.
Definition IFD_DATETIMEORIGINAL : Z := 0x9003.
Definition IFD_DATETIMEDIGITILIZED : Z := 0x9004.
Definition IFD_COMPONENTSCONFIGURATION : Z := 0x9101.
Definition IFD_COMPRESSEDBITSPERPIXEL : Z := 0x9102.
Definition IFD_SHUTTERSPEEDVALUE : Z := 0x9201.
Definition IFD_APERTUREVALUE : Z := 0x9202.
Definition IFD_BRIGHTNESSVALUE : Z := 0x9203.
Definition IFD_EXPOSUREBIASVALUE : Z := 0x9204.
Definition IFD_MAXAPERTUREVALUE : Z := 0x9205.
Definition IFD_SUBJECTDISTANCE : Z := 0x9206.
Definition IFD_METERINGMODE : Z := 0x9207.
Definition IFD_LIGHTSOURCE : Z := 0x9208.
Definition IFD_FLASH : Z := 0x9209.
Definition IFD_FOCALLENGTH : Z := 0x920A.
Definition IFD_SUBJECTAREA : Z := 0x9214.
Definition IFD_MAKERNOTE : Z := 0x927C.
Definition IFD_USERCOMMENT : Z := 0x9286.
Definition IFD_SUBSECTIME : Z := 0x9290.
Definition IFD_SUBSECTIMEORIGINAL : Z := 0x9291.
Definition IFD_SUBSECTIMEDIGITILIZED : Z := 0x9292.
Definition IFD_FLASHPIXVERSION : Z := 0xA000.
Definition IFD_COLORSPACE : Z := 0xA001.
Definition IFD_PIXELXDIMENSION : Z := 0xA002.
Definition IFD_PIXELYDIMENSION : Z := 0xA003.
Definition IFD_RELATEDSOUNDFILE : Z := 0xA004.
Definition IFD_INTEROPERABILITYIFDPOINTER : Z := 0xA005.
Definition IFD_FLASHENERGY : Z := 0xA20B.
Definition IFD_SPATIALFREQUENCYRESPONSE : Z := 0xA20C.
Definition IFD_FOCALPLANEXRESOLUTION : Z := 0xA20E.
Definition IFD_FOCALPLANEYRESOLUTION : Z := 0xA20F.
Definition IFD_FOCALPLANERESOLUTIONUNIT : Z := 0xA210.
Definition IFD_SUBJECTLOCATION : Z := 0xA214.
Definition IFD_EXPOSUREINDEX : Z := 0xA215.
Definition IFD_SENSINGMETHOD : Z := 0xA217.
Definition IFD_FILESOURCE : Z := 0xA300.
Definition IFD_SCENETYPE : Z := 0xA301.
Definition IFD_CFAPATTERN : Z := 0xA302.
Definition IFD_CUSTOMRENDERED : Z := 0xA401.
Definition IFD_EXPOSUREMODE : Z := 0xA402.
Definition IFD_WHITEBALANCE : Z := 0xA403.
Definition IFD_DIGITALZOOMRATIO : Z := 0xA404.
Definition IFD_FOCALLENGTHIN35MMFILM : Z := 0xA405.
Definition IFD_SCENECAPTURETYPE : Z := 0xA406.
Definition IFD_GAINCONTROL : Z := 0xA407.
Definition IFD_CONTRAST : Z := 0xA408.
Definition IFD_SATURATION : Z := 0xA409.
Definition IFD_SHARPNESS : Z := 0xA40A.
Definition IFD_DEVICESETTINGDESCRIPTION : Z := 0xA40B.
Definition IFD_SUBJECTDISTANCERANGE : Z := 0xA40C.
Definition IFD_IMAGEUNIQUEID : Z := 0xa420.
Definition IFD_INTEROPERABILITYINDEX : Z := 0x0001.
Definition IFD_INTEROPERABILITYVERSION : Z := 0x0002.

(** ** Records *)
Record EXIF_RATIONAL_T := mk_EXIF_RATIONAL_T {
  numerator : Z;
  denominator : Z
}.

Record EXIF_SRATIONAL_T := mk_EXIF_SRATIONAL_T {
  s_numerator : Z;
  s_denominator : Z
}.

Record EXIF_CUSTOM_T := mk_EXIF_CUSTOM_T {
  c_type : Z;
  c_ptr : list Z;
  c_count : Z;
  c_size : Z
}.

Record EXIF_PRI_BASIC_T := mk_EXIF_PRI_BASIC_T {
  YCbCrPositioning : Z;
  XResolution : EXIF_RATIONAL_T;
  YResolution : EXIF_RATIONAL_T;
  ResolutionUnit : Z;
  ImageWidth : Z;
  ImageLength : Z
}.

Record EXIF_PRI_DATA_STRUCT_VALID_T := mk_EXIF_PRI_DATA_STRUCT_VALID_T {
  v_Orientation : bool;
  v_Reserved : bool
}.

Record EXIF_PRI_DATA_STRUCT_T := mk_EXIF_PRI_DATA_STRUCT_T {
  data_struct_valid : EXIF_PRI_DATA_STRUCT_VALID_T;
  Orientation : Z;
  Reserved : Z
}.

Record EXIF_PRI_DATA_CHAR_VALID_T := mk_EXIF_PRI_DATA_CHAR_VALID_T {
  v_TransferFunction : bool;
  v_WhitePoint : bool;
  v_PrimaryChromaticities : bool;
  v_YCbCrCoefficients : bool;
  v_ReferenceBlackWhite : bool
}.

Record EXIF_PRI_DATA_CHAR_T := mk_EXIF_PRI_DATA_CHAR_T {
  data_char_valid : EXIF_PRI_DATA_CHAR_VALID_T;
  TransferFunction : list Z;
  WhitePoint : list EXIF_RATIONAL_T;
  PrimaryChromaticities : list EXIF_RATIONAL_T;
  YCbCrCoefficients : list EXIF_RATIONAL_T;
  ReferenceBlackWhite : list EXIF_RATIONAL_T
}.

Record EXIF_PRI_DESC_VALID_T := mk_EXIF_PRI_DESC_VALID_T {
  v_DateTime : bool;
  v_ImageDescription : bool;
  v_Make : bool;
  v_Model : bool;
  v_Software : bool;
  v_Artist : bool;
  v_Copyright : bool
}.

Record EXIF_PRI_DESC_T := mk_EXIF_PRI_DESC_T {
  desc_valid : EXIF_PRI_DESC_VALID_T;
  DateTime : list Z;
  ImageDescription : list Z;
  Make : list Z;
  Model : list Z;
  Software : list Z;
  Artist : list Z;
  Copyright : list Z
}.

Record EXIF_PRIMARY_INFO_T := mk_EXIF_PRIMARY_INFO_T {
  pri_basic : EXIF_PRI_BASIC_T;
  data_struct_ptr : option EXIF_PRI_DATA_STRUCT_T;
  data_char_ptr : option EXIF_PRI_DATA_CHAR_T;
  img_desc_ptr : option EXIF_PRI_DESC_T;
  pri_reserved : Z
}.

Record EXIF_SPEC_BASIC_T := mk_EXIF_SPEC_BASIC_T {
  ColorSpace : Z;
  ComponentsConfiguration : list Z;
  PixelXDimension : Z;
  PixelYDimension : Z
}.

Record EXIF_SPEC_VERSION_T := mk_EXIF_SPEC_VERSION_T {
  ver_ExifVersion : list Z;
  ver_FlashpixVersion : list Z
}.

Record EXIF_SPEC_IMG_CONFIG_VALID_T := mk_EXIF_SPEC_IMG_CONFIG_VALID_T {
  v_CompressedBitsPerPixel : bool
}.

Record EXIF_SPEC_IMG_CONFIG_T := mk_EXIF_SPEC_IMG_CONFIG_T {
  img_config_valid : EXIF_SPEC_IMG_CONFIG_VALID_T;
  CompressedBitsPerPixel : EXIF_RATIONAL_T
}.

Record EXIF_SPEC_USER_VALID_T := mk_EXIF_SPEC_USER_VALID_T {
  v_MakerNote : bool;
  v_UserComment : bool
}.

Record EXIF_SPEC_USER_T := mk_EXIF_SPEC_USER_T {
  user_valid : EXIF_SPEC_USER_VALID_T;
  MakerNote : EXIF_CUSTOM_T;
  UserComment : EXIF_CUSTOM_T
}.

Record EXIF_SPEC_RELATED_FILE_VALID_T := mk_EXIF_SPEC_RELATED_FILE_VALID_T {
  v_RelatedSoundFile : bool
}.

Record EXIF_SPEC_RELATED_FILE_T := mk_EXIF_SPEC_RELATED_FILE_T {
  related_file_valid : EXIF_SPEC_RELATED_FILE_VALID_T;
  RelatedSoundFile : list Z
}.

Record EXIF_SPEC_DATE_TIME_VALID_T := mk_EXIF_SPEC_DATE_TIME_VALID_T {
  v_DateTimeOriginal : bool;
  v_DateTimeDigitized : bool;
  v_SubSecTime : bool;
  v_SubSecTimeOriginal : bool;
  v_SubSecTimeDigitized : bool
}.

Record EXIF_SPEC_DATE_TIME_T := mk_EXIF_SPEC_DATE_TIME_T {
  date_time_valid : EXIF_SPEC_DATE_TIME_VALID_T;
  DateTimeOriginal : list Z;
  DateTimeDigitized : list Z;
  SubSecTime : list Z;
  SubSecTimeOriginal : list Z;
  SubSecTimeDigitized : list Z
}.

Record EXIF_SPEC_PIC_TAKING_COND_VALID_T := mk_EXIF_SPEC_PIC_TAKING_COND_VALID_T {
  v_ExposureTime : bool;
  v_FNumber : bool;
  v_ExposureProgram : bool;
  v_SpectralSensitivity : bool;
  v_ISOSpeedRatings : bool;
  v_OECF : bool;
  v_ShutterSpeedValue : bool;
  v_ApertureValue : bool;
  v_BrightnessValue : bool;
  v_ExposureBiasValue : bool;
  v_MaxApertureValue : bool;
  v_SubjectDistance : bool;
  v_MeteringMode : bool;
  v_LightSource : bool;
  v_Flash : bool;
  v_FocalLength : bool;
  v_SubjectArea : bool;
  v_FlashEnergy : bool;
  v_SpatialFrequencyResponse : bool;
  v_FocalPlaneXResolution : bool;
  v_FocalPlaneYResolution : bool;
  v_FocalPlaneResolutionUnit : bool;
  v_SubjectLocation : bool;
  v_ExposureIndex : bool;
  v_SensingMethod : bool;
  v_FileSource : bool;
  v_SceneType : bool;
  v_CFAPattern : bool;
  v_CustomRendered : bool;
  v_ExposureMode : bool;
  v_WhiteBalance : bool;
  v_DigitalZoomRatio : bool;
  v_FocalLengthIn35mmFilm : bool;
  v_SceneCaptureType : bool;
  v_GainControl : bool;
  v_Contrast : bool;
  v_Saturation : bool;
  v_Sharpness : bool;
  v_DeviceSettingDescription : bool;
  v_SubjectDistanceRange : bool
}.

Record EXIF_SPEC_PIC_TAKING_COND_T := mk_EXIF_SPEC_PIC_TAKING_COND_T {
  cond_valid : EXIF_SPEC_PIC_TAKING_COND_VALID_T;
  ExposureTime : EXIF_RATIONAL_T;
  FNumber : EXIF_RATIONAL_T;
  ExposureProgram : Z;
  SpectralSensitivity : list Z;
  ISOSpeedRatings : EXIF_CUSTOM_T;
  OECF : EXIF_CUSTOM_T;
  ShutterSpeedValue : EXIF_SRATIONAL_T;
  ApertureValue : EXIF_RATIONAL_T;
  BrightnessValue : EXIF_SRATIONAL_T;
  ExposureBiasValue : EXIF_SRATIONAL_T;
  MaxApertureValue : EXIF_RATIONAL_T;
  SubjectDistance : EXIF_RATIONAL_T;
  MeteringMode : Z;
  LightSource : Z;
  Flash : Z;
  FocalLength : EXIF_RATIONAL_T;
  SubjectArea : EXIF_CUSTOM_T;
  FlashEnergy : EXIF_RATIONAL_T;
  SpatialFrequencyResponse : EXIF_CUSTOM_T;
  FocalPlaneXResolution : EXIF_RATIONAL_T;
  FocalPlaneYResolution : EXIF_RATIONAL_T;
  FocalPlaneResolutionUnit : Z;
  SubjectLocation : list Z;
  ExposureIndex : EXIF_RATIONAL_T;
  SensingMethod : Z;
  FileSource : Z;
  SceneType : Z;
  CFAPattern : EXIF_CUSTOM_T;
  CustomRendered : Z;
  ExposureMode : Z;
  WhiteBalance : Z;
  DigitalZoomRatio : EXIF_RATIONAL_T;
  FocalLengthIn35mmFilm : Z;
  SceneCaptureType : Z;
  GainControl : Z;
  Contrast : Z;
  Saturation : Z;
  Sharpness : Z;
  DeviceSettingDescription : EXIF_CUSTOM_T;
  SubjectDistanceRange : Z
}.

Record EXIF_SPEC_OTHER_VALID_T := mk_EXIF_SPEC_OTHER_VALID_T {
  v_ImageUniqueID : bool
}.

Record EXIF_SPEC_OTHER_T := mk_EXIF_SPEC_OTHER_T {
  other_valid : EXIF_SPEC_OTHER_VALID_T;
  ImageUniqueID : list Z
}.

Record EXIF_SPECIFIC_INFO_T := mk_EXIF_SPECIFIC_INFO_T {
  spec_basic : EXIF_SPEC_BASIC_T;
  version_ptr : option EXIF_SPEC_VERSION_T;
  img_config_ptr : option EXIF_SPEC_IMG_CONFIG_T;
  user_ptr : option EXIF_SPEC_USER_T;
  related_file_ptr : option EXIF_SPEC_RELATED_FILE_T;
  date_time_ptr : option EXIF_SPEC_DATE_TIME_T;
  pic_taking_cond_ptr : option EXIF_SPEC_PIC_TAKING_COND_T;
  other_ptr : option EXIF_SPEC_OTHER_T
}.

Record EXIF_GPS_VALID_T := mk_EXIF_GPS_VALID_T {
  v_GPSVersionID : bool;
  v_GPSLatitudeRef : bool;
  v_GPSLatitude : bool;
  v_GPSLongitudeRef : bool;
  v_GPSLongitude : bool;
  v_GPSAltitudeRef : bool;
  v_GPSAltitude : bool;
  v_GPSTimeStamp : bool;
  v_GPSSatellites : bool;
  v_GPSStatus : bool;
  v_GPSMeasureMode : bool;
  v_GPSDOP : bool;
  v_GPSSpeedRef : bool;
  v_GPSSpeed : bool;
  v_GPSTrackRef : bool;
  v_GPSTrack : bool;
  v_GPSImgDirectionRef : bool;
  v_GPSImgDirection : bool;
  v_GPSMapDatum : bool;
  v_GPSDestLatitudeRef : bool;
  v_GPSDestLatitude : bool;
  v_GPSDestLongitudeRef : bool;
  v_GPSDestLongitude : bool;
  v_GPSDestBearingRef : bool;
  v_GPSDestBearing : bool;
  v_GPSDestDistanceRef : bool;
  v_GPSDestDistance : bool;
  v_GPSProcessingMethod : bool;
  v_GPSAreaInformation : bool;
  v_GPSDateStamp : bool;
  v_GPSDifferential : bool
}.

Record EXIF_GPS_INFO_T := mk_EXIF_GPS_INFO_T {
  gps_valid : EXIF_GPS_VALID_T;
  GPSVersionID : list Z;
  GPSLatitudeRef : list Z;
  GPSLatitude : list EXIF_RATIONAL_T;
  GPSLongitudeRef : list Z;
  GPSLongitude : list EXIF_RATIONAL_T;
  GPSAltitudeRef : Z;
  GPSAltitude : EXIF_RATIONAL_T;
  GPSTimeStamp : list EXIF_RATIONAL_T;
  GPSSatellites : list Z;
  GPSStatus : list Z;
  GPSMeasureMode : list Z;
  GPSDOP : EXIF_RATIONAL_T;
  GPSSpeedRef : list Z;
  GPSSpeed : EXIF_RATIONAL_T;
  GPSTrackRef : list Z;
  GPSTrack : EXIF_RATIONAL_T;
  GPSImgDirectionRef : list Z;
  GPSImgDirection : EXIF_RATIONAL_T;
  GPSMapDatum : list Z;
  GPSDestLatitudeRef : list Z;
  GPSDestLatitude : list EXIF_RATIONAL_T;
  GPSDestLongitudeRef : list Z;
  GPSDestLongitude : list EXIF_RATIONAL_T;
  GPSDestBearingRef : list Z;
  GPSDestBearing : EXIF_RATIONAL_T;
  GPSDestDistanceRef : list Z;
  GPSDestDistance : EXIF_RATIONAL_T;
  GPSProcessingMethod : EXIF_CUSTOM_T;
  GPSAreaInformation : EXIF_CUSTOM_T;
  GPSDateStamp : list Z;
  GPSDifferential : Z
}.

Record EXIF_INTEROPERABILITY_VALID_T := mk_EXIF_INTEROPERABILITY_VALID_T {
  v_InteroperabilityIndex : bool
}.

Record EXIF_INTEROPERABILITY_INFO_T := mk_EXIF_INTEROPERABILITY_INFO_T {
  inter_valid : EXIF_INTEROPERABILITY_VALID_T;
  InteroperabilityIndex : EXIF_CUSTOM_T
}.

Record JINF_EXIF_INFO_T := mk_JINF_EXIF_INFO_T {
  primary : EXIF_PRIMARY_INFO_T;
  spec_ptr : option EXIF_SPECIFIC_INFO_T;
  gps_ptr : option EXIF_GPS_INFO_T;
  inter_ptr : option EXIF_INTEROPERABILITY_INFO_T
}.

(** ** What the types guarantee *)
Create HintDb exif.

Definition array_of {A} (n : nat) (P : A -> Prop) (l : list A) : Prop := length l = n /\ Forall P l.
Definition opt_ok {A} (P : A -> Prop) (o : option A) : Prop := match o with Some a => P a | None => True end.

Record rational_ok (r : EXIF_RATIONAL_T) : Prop := {
  rational_ok_numerator : u32_ok (numerator r);
  rational_ok_denominator : u32_ok (denominator r)
}.
#[export] Hint Resolve rational_ok_numerator rational_ok_denominator : exif.

Record srational_ok (s : EXIF_SRATIONAL_T) : Prop := {
  srational_ok_s_numerator : - 2 ^ 31 <= s_numerator s < 2 ^ 31;
  srational_ok_s_denominator : - 2 ^ 31 <= s_denominator s < 2 ^ 31
}.
#[export] Hint Resolve srational_ok_s_numerator srational_ok_s_denominator : exif.

Record custom_ok (c : EXIF_CUSTOM_T) : Prop := {
  custom_ok_c_ptr : array_of 256 byte_ok (c_ptr c);
  custom_ok_c_count : u32_ok (c_count c);
  custom_ok_c_size : u32_ok (c_size c)
}.
#[export] Hint Resolve custom_ok_c_ptr custom_ok_c_count custom_ok_c_size : exif.

Record pri_basic_ok (p : EXIF_PRI_BASIC_T) : Prop := {
  pri_basic_ok_YCbCrPositioning : 0 <= YCbCrPositioning p < 65536;
  pri_basic_ok_XResolution : rational_ok (XResolution p);
  pri_basic_ok_YResolution : rational_ok (YResolution p);
  pri_basic_ok_ResolutionUnit : 0 <= ResolutionUnit p < 65536;
  pri_basic_ok_ImageWidth : u32_ok (ImageWidth p);
  pri_basic_ok_ImageLength : u32_ok (ImageLength p)
}.
#[export] Hint Resolve pri_basic_ok_YCbCrPositioning pri_basic_ok_XResolution pri_basic_ok_YResolution pri_basic_ok_ResolutionUnit pri_basic_ok_ImageWidth pri_basic_ok_ImageLength : exif.

Record data_struct_ok (d : EXIF_PRI_DATA_STRUCT_T) : Prop := {
  data_struct_ok_Orientation : 0 <= Orientation d < 65536;
  data_struct_ok_Reserved : 0 <= Reserved d < 65536
}.
#[export] Hint Resolve data_struct_ok_Orientation data_struct_ok_Reserved : exif.

Record data_char_ok (d : EXIF_PRI_DATA_CHAR_T) : Prop := {
  data_char_ok_TransferFunction : array_of 768 (fun x => 0 <= x < 65536) (TransferFunction d);
  data_char_ok_WhitePoint : array_of 2 rational_ok (WhitePoint d);
  data_char_ok_PrimaryChromaticities : array_of 6 rational_ok (PrimaryChromaticities d);
  data_char_ok_YCbCrCoefficients : array_of 3 rational_ok (YCbCrCoefficients d);
  data_char_ok_ReferenceBlackWhite : array_of 6 rational_ok (ReferenceBlackWhite d)
}.
#[export] Hint Resolve data_char_ok_TransferFunction data_char_ok_WhitePoint data_char_ok_PrimaryChromaticities data_char_ok_YCbCrCoefficients data_char_ok_ReferenceBlackWhite : exif.

Record desc_ok (d : EXIF_PRI_DESC_T) : Prop := {
  desc_ok_DateTime : array_of 20 byte_ok (DateTime d);
  desc_ok_ImageDescription : array_of 256 byte_ok (ImageDescription d);
  desc_ok_Make : array_of 256 byte_ok (Make d);
  desc_ok_Model : array_of 256 byte_ok (Model d);
  desc_ok_Software : array_of 256 byte_ok (Software d);
  desc_ok_Artist : array_of 256 byte_ok (Artist d);
  desc_ok_Copyright : array_of 256 byte_ok (Copyright d)
}.
#[export] Hint Resolve desc_ok_DateTime desc_ok_ImageDescription desc_ok_Make desc_ok_Model desc_ok_Software desc_ok_Artist desc_ok_Copyright : exif.

Record primary_info_ok (p : EXIF_PRIMARY_INFO_T) : Prop := {
  primary_info_ok_pri_basic : pri_basic_ok (pri_basic p);
  primary_info_ok_data_struct_ptr : opt_ok data_struct_ok (data_struct_ptr p);
  primary_info_ok_data_char_ptr : opt_ok data_char_ok (data_char_ptr p);
  primary_info_ok_img_desc_ptr : opt_ok desc_ok (img_desc_ptr p);
  primary_info_ok_pri_reserved : u32_ok (pri_reserved p)
}.
#[export] Hint Resolve primary_info_ok_pri_basic primary_info_ok_data_struct_ptr primary_info_ok_data_char_ptr primary_info_ok_img_desc_ptr primary_info_ok_pri_reserved : exif.

Record spec_basic_ok (s : EXIF_SPEC_BASIC_T) : Prop := {
  spec_basic_ok_ColorSpace : 0 <= ColorSpace s < 65536;
  spec_basic_ok_ComponentsConfiguration : array_of 4 byte_ok (ComponentsConfiguration s);
  spec_basic_ok_PixelXDimension : u32_ok (PixelXDimension s);
  spec_basic_ok_PixelYDimension : u32_ok (PixelYDimension s)
}.
#[export] Hint Resolve spec_basic_ok_ColorSpace spec_basic_ok_ComponentsConfiguration spec_basic_ok_PixelXDimension spec_basic_ok_PixelYDimension : exif.

Record version_ok (v : EXIF_SPEC_VERSION_T) : Prop := {
  version_ok_ver_ExifVersion : array_of 4 byte_ok (ver_ExifVersion v);
  version_ok_ver_FlashpixVersion : array_of 4 byte_ok (ver_FlashpixVersion v)
}.
#[export] Hint Resolve version_ok_ver_ExifVersion version_ok_ver_FlashpixVersion : exif.

Record img_config_ok (i : EXIF_SPEC_IMG_CONFIG_T) : Prop := {
  img_config_ok_CompressedBitsPerPixel : rational_ok (CompressedBitsPerPixel i)
}.
#[export] Hint Resolve img_config_ok_CompressedBitsPerPixel : exif.

Record user_ok (u : EXIF_SPEC_USER_T) : Prop := {
  user_ok_MakerNote : custom_ok (MakerNote u);
  user_ok_UserComment : custom_ok (UserComment u)
}.
#[export] Hint Resolve user_ok_MakerNote user_ok_UserComment : exif.

Record related_file_ok (r : EXIF_SPEC_RELATED_FILE_T) : Prop := {
  related_file_ok_RelatedSoundFile : array_of 13 byte_ok (RelatedSoundFile r)
}.
#[export] Hint Resolve related_file_ok_RelatedSoundFile : exif.

Record date_time_ok (d : EXIF_SPEC_DATE_TIME_T) : Prop := {
  date_time_ok_DateTimeOriginal : array_of 20 byte_ok (DateTimeOriginal d);
  date_time_ok_DateTimeDigitized : array_of 20 byte_ok (DateTimeDigitized d);
  date_time_ok_SubSecTime : array_of 256 byte_ok (SubSecTime d);
  date_time_ok_SubSecTimeOriginal : array_of 256 byte_ok (SubSecTimeOriginal d);
  date_time_ok_SubSecTimeDigitized : array_of 256 byte_ok (SubSecTimeDigitized d)
}.
#[export] Hint Resolve date_time_ok_DateTimeOriginal date_time_ok_DateTimeDigitized date_time_ok_SubSecTime date_time_ok_SubSecTimeOriginal date_time_ok_SubSecTimeDigitized : exif.

Record cond_ok (c : EXIF_SPEC_PIC_TAKING_COND_T) : Prop := {
  cond_ok_ExposureTime : rational_ok (ExposureTime c);
  cond_ok_FNumber : rational_ok (FNumber c);
  cond_ok_ExposureProgram : 0 <= ExposureProgram c < 65536;
  cond_ok_SpectralSensitivity : array_of 256 byte_ok (SpectralSensitivity c);
  cond_ok_ISOSpeedRatings : custom_ok (ISOSpeedRatings c);
  cond_ok_OECF : custom_ok (OECF c);
  cond_ok_ShutterSpeedValue : srational_ok (ShutterSpeedValue c);
  cond_ok_ApertureValue : rational_ok (ApertureValue c);
  cond_ok_BrightnessValue : srational_ok (BrightnessValue c);
  cond_ok_ExposureBiasValue : srational_ok (ExposureBiasValue c);
  cond_ok_MaxApertureValue : rational_ok (MaxApertureValue c);
  cond_ok_SubjectDistance : rational_ok (SubjectDistance c);
  cond_ok_MeteringMode : 0 <= MeteringMode c < 65536;
  cond_ok_LightSource : 0 <= LightSource c < 65536;
  cond_ok_Flash : 0 <= Flash c < 65536;
  cond_ok_FocalLength : rational_ok (FocalLength c);
  cond_ok_SubjectArea : custom_ok (SubjectArea c);
  cond_ok_FlashEnergy : rational_ok (FlashEnergy c);
  cond_ok_SpatialFrequencyResponse : custom_ok (SpatialFrequencyResponse c);
  cond_ok_FocalPlaneXResolution : rational_ok (FocalPlaneXResolution c);
  cond_ok_FocalPlaneYResolution : rational_ok (FocalPlaneYResolution c);
  cond_ok_FocalPlaneResolutionUnit : 0 <= FocalPlaneResolutionUnit c < 65536;
  cond_ok_SubjectLocation : array_of 2 (fun x => 0 <= x < 65536) (SubjectLocation c);
  cond_ok_ExposureIndex : rational_ok (ExposureIndex c);
  cond_ok_SensingMethod : 0 <= SensingMethod c < 65536;
  cond_ok_FileSource : byte_ok (FileSource c);
  cond_ok_SceneType : byte_ok (SceneType c);
  cond_ok_CFAPattern : custom_ok (CFAPattern c);
  cond_ok_CustomRendered : 0 <= CustomRendered c < 65536;
  cond_ok_ExposureMode : 0 <= ExposureMode c < 65536;
  cond_ok_WhiteBalance : 0 <= WhiteBalance c < 65536;
  cond_ok_DigitalZoomRatio : rational_ok (DigitalZoomRatio c);
  cond_ok_FocalLengthIn35mmFilm : 0 <= FocalLengthIn35mmFilm c < 65536;
  cond_ok_SceneCaptureType : 0 <= SceneCaptureType c < 65536;
  cond_ok_GainControl : 0 <= GainControl c < 65536;
  cond_ok_Contrast : 0 <= Contrast c < 65536;
  cond_ok_Saturation : 0 <= Saturation c < 65536;
  cond_ok_Sharpness : 0 <= Sharpness c < 65536;
  cond_ok_DeviceSettingDescription : custom_ok (DeviceSettingDescription c);
  cond_ok_SubjectDistanceRange : 0 <= SubjectDistanceRange c < 65536
}.
#[export] Hint Resolve cond_ok_ExposureTime cond_ok_FNumber cond_ok_ExposureProgram cond_ok_SpectralSensitivity cond_ok_ISOSpeedRatings cond_ok_OECF cond_ok_ShutterSpeedValue cond_ok_ApertureValue cond_ok_BrightnessValue cond_ok_ExposureBiasValue cond_ok_MaxApertureValue cond_ok_SubjectDistance cond_ok_MeteringMode cond_ok_LightSource cond_ok_Flash cond_ok_FocalLength cond_ok_SubjectArea cond_ok_FlashEnergy cond_ok_SpatialFrequencyResponse cond_ok_FocalPlaneXResolution cond_ok_FocalPlaneYResolution cond_ok_FocalPlaneResolutionUnit cond_ok_SubjectLocation cond_ok_ExposureIndex cond_ok_SensingMethod cond_ok_FileSource cond_ok_SceneType cond_ok_CFAPattern cond_ok_CustomRendered cond_ok_ExposureMode cond_ok_WhiteBalance cond_ok_DigitalZoomRatio cond_ok_FocalLengthIn35mmFilm cond_ok_SceneCaptureType cond_ok_GainControl cond_ok_Contrast cond_ok_Saturation cond_ok_Sharpness cond_ok_DeviceSettingDescription cond_ok_SubjectDistanceRange : exif.

Record other_ok (o : EXIF_SPEC_OTHER_T) : Prop := {
  other_ok_ImageUniqueID : array_of 33 byte_ok (ImageUniqueID o)
}.
#[export] Hint Resolve other_ok_ImageUniqueID : exif.

Record spec_info_ok (s : EXIF_SPECIFIC_INFO_T) : Prop := {
  spec_info_ok_spec_basic : spec_basic_ok (spec_basic s);
  spec_info_ok_version_ptr : opt_ok version_ok (version_ptr s);
  spec_info_ok_img_config_ptr : opt_ok img_config_ok (img_config_ptr s);
  spec_info_ok_user_ptr : opt_ok user_ok (user_ptr s);
  spec_info_ok_related_file_ptr : opt_ok related_file_ok (related_file_ptr s);
  spec_info_ok_date_time_ptr : opt_ok date_time_ok (date_time_ptr s);
  spec_info_ok_pic_taking_cond_ptr : opt_ok cond_ok (pic_taking_cond_ptr s);
  spec_info_ok_other_ptr : opt_ok other_ok (other_ptr s)
}.
#[export] Hint Resolve spec_info_ok_spec_basic spec_info_ok_version_ptr spec_info_ok_img_config_ptr spec_info_ok_user_ptr spec_info_ok_related_file_ptr spec_info_ok_date_time_ptr spec_info_ok_pic_taking_cond_ptr spec_info_ok_other_ptr : exif.

Record gps_ok (g : EXIF_GPS_INFO_T) : Prop := {
  gps_ok_GPSVersionID : array_of 4 byte_ok (GPSVersionID g);
  gps_ok_GPSLatitudeRef : array_of 2 byte_ok (GPSLatitudeRef g);
  gps_ok_GPSLatitude : array_of 3 rational_ok (GPSLatitude g);
  gps_ok_GPSLongitudeRef : array_of 2 byte_ok (GPSLongitudeRef g);
  gps_ok_GPSLongitude : array_of 3 rational_ok (GPSLongitude g);
  gps_ok_GPSAltitudeRef : byte_ok (GPSAltitudeRef g);
  gps_ok_GPSAltitude : rational_ok (GPSAltitude g);
  gps_ok_GPSTimeStamp : array_of 3 rational_ok (GPSTimeStamp g);
  gps_ok_GPSSatellites : array_of 256 byte_ok (GPSSatellites g);
  gps_ok_GPSStatus : array_of 2 byte_ok (GPSStatus g);
  gps_ok_GPSMeasureMode : array_of 2 byte_ok (GPSMeasureMode g);
  gps_ok_GPSDOP : rational_ok (GPSDOP g);
  gps_ok_GPSSpeedRef : array_of 2 byte_ok (GPSSpeedRef g);
  gps_ok_GPSSpeed : rational_ok (GPSSpeed g);
  gps_ok_GPSTrackRef : array_of 2 byte_ok (GPSTrackRef g);
  gps_ok_GPSTrack : rational_ok (GPSTrack g);
  gps_ok_GPSImgDirectionRef : array_of 2 byte_ok (GPSImgDirectionRef g);
  gps_ok_GPSImgDirection : rational_ok (GPSImgDirection g);
  gps_ok_GPSMapDatum : array_of 256 byte_ok (GPSMapDatum g);
  gps_ok_GPSDestLatitudeRef : array_of 2 byte_ok (GPSDestLatitudeRef g);
  gps_ok_GPSDestLatitude : array_of 3 rational_ok (GPSDestLatitude g);
  gps_ok_GPSDestLongitudeRef : array_of 2 byte_ok (GPSDestLongitudeRef g);
  gps_ok_GPSDestLongitude : array_of 3 rational_ok (GPSDestLongitude g);
  gps_ok_GPSDestBearingRef : array_of 2 byte_ok (GPSDestBearingRef g);
  gps_ok_GPSDestBearing : rational_ok (GPSDestBearing g);
  gps_ok_GPSDestDistanceRef : array_of 2 byte_ok (GPSDestDistanceRef g);
  gps_ok_GPSDestDistance : rational_ok (GPSDestDistance g);
  gps_ok_GPSProcessingMethod : custom_ok (GPSProcessingMethod g);
  gps_ok_GPSAreaInformation : custom_ok (GPSAreaInformation g);
  gps_ok_GPSDateStamp : array_of 11 byte_ok (GPSDateStamp g);
  gps_ok_GPSDifferential : 0 <= GPSDifferential g < 65536
}.
#[export] Hint Resolve gps_ok_GPSVersionID gps_ok_GPSLatitudeRef gps_ok_GPSLatitude gps_ok_GPSLongitudeRef gps_ok_GPSLongitude gps_ok_GPSAltitudeRef gps_ok_GPSAltitude gps_ok_GPSTimeStamp gps_ok_GPSSatellites gps_ok_GPSStatus gps_ok_GPSMeasureMode gps_ok_GPSDOP gps_ok_GPSSpeedRef gps_ok_GPSSpeed gps_ok_GPSTrackRef gps_ok_GPSTrack gps_ok_GPSImgDirectionRef gps_ok_GPSImgDirection gps_ok_GPSMapDatum gps_ok_GPSDestLatitudeRef gps_ok_GPSDestLatitude gps_ok_GPSDestLongitudeRef gps_ok_GPSDestLongitude gps_ok_GPSDestBearingRef gps_ok_GPSDestBearing gps_ok_GPSDestDistanceRef gps_ok_GPSDestDistance gps_ok_GPSProcessingMethod gps_ok_GPSAreaInformation gps_ok_GPSDateStamp gps_ok_GPSDifferential : exif.

Record inter_ok (i : EXIF_INTEROPERABILITY_INFO_T) : Prop := {
  inter_ok_InteroperabilityIndex : custom_ok (InteroperabilityIndex i)
}.
#[export] Hint Resolve inter_ok_InteroperabilityIndex : exif.

Record exif_info_ok (e : JINF_EXIF_INFO_T) : Prop := {
  exif_info_ok_primary : primary_info_ok (primary e);
  exif_info_ok_spec_ptr : opt_ok spec_info_ok (spec_ptr e);
  exif_info_ok_gps_ptr : opt_ok gps_ok (gps_ptr e);
  exif_info_ok_inter_ptr : opt_ok inter_ok (inter_ptr e)
}.
#[export] Hint Resolve exif_info_ok_primary exif_info_ok_spec_ptr exif_info_ok_gps_ptr exif_info_ok_inter_ptr : exif.
