(* ===== verification/ExifStream.v ===== *)
(** * libs/libcamera/jpeg/jpeg_fw_8830/src/jpeg_stream.c: positioned writing

    The EXIF writer fills a buffer out of order, through a context with a current
    position.  A pointer into the buffer is its distance from [write_buf]; [None] is the
    null pointer.  With a [write_file_func] the buffer is a window on a file, which the
    callback receives piece by piece; the model logs what it is handed.

    The second half says which bytes a writer leaves where, for contexts without a
    callback. *)

From S2P Require Import Prelude.

Record JPEG_WRITE_STREAM_CONTEXT_T := mk_wctx {
  write_buf : option (list Z);
  write_buf_size : Z;
  write_ptr : option Z;
  write_file_func : option (list Z -> Z -> Z -> bool * Z);
  write_file_size : Z;
  handed : list (Z * list Z)
}.

Definition set_write_ptr (p : option Z) (c : JPEG_WRITE_STREAM_CONTEXT_T) : JPEG_WRITE_STREAM_CONTEXT_T :=
  mk_wctx (write_buf c) (write_buf_size c) p (write_file_func c) (write_file_size c) (handed c).
Definition set_write_buf (b : list Z) (c : JPEG_WRITE_STREAM_CONTEXT_T) : JPEG_WRITE_STREAM_CONTEXT_T :=
  mk_wctx (Some b) (write_buf_size c) (write_ptr c) (write_file_func c) (write_file_size c) (handed c).
Definition set_file (size : Z) (log : list (Z * list Z)) (c : JPEG_WRITE_STREAM_CONTEXT_T) : JPEG_WRITE_STREAM_CONTEXT_T :=
  mk_wctx (write_buf c) (write_buf_size c) (write_ptr c) (write_file_func c) size log.

(** Code that works on the context. *)
Definition swriter (A : Type) : Type := JPEG_WRITE_STREAM_CONTEXT_T -> outcome (A * JPEG_WRITE_STREAM_CONTEXT_T).
Definition sret {A} (a : A) : swriter A := fun c => Done (a, c).
Definition sbind {A B} (m : swriter A) (k : A -> swriter B) : swriter B := fun c => let* (a, c) := m c in k a c.
Notation "'let!' p ':=' m 'in' k" := (sbind m (fun p => k))
  (at level 10, p pattern, m at level 100, k at level 200) : c_scope.

(** [JPEG_WRITE_DATA (m, ..., return e)]: go on when the write succeeded. *)
Definition or_return {A} (m : swriter bool) (e : A) (k : swriter A) : swriter A :=
  sbind m (fun ok => if ok then k else sret e).

(** A step of the undefined kind. *)
Definition slift {A} (m : outcome A) : swriter A := fun c => let* a := m in Done (a, c).

Definition Jpeg_WriteStreamToFile : swriter bool := fun c =>
  match write_file_func c, write_buf c with
  | Some f, Some b =>
      let write_size := match write_ptr c with Some p => if 0 <? p then p else 0 | None => 0 end in
      let* data := slice b 0 write_size in
      let actual_write_size := snd (f data (write_file_size c) write_size) in
      Done (actual_write_size =? write_size,
            set_file (u32 (write_file_size c + actual_write_size)) (handed c ++ [(write_file_size c, data)])
              (set_write_ptr (Some 0) c))
  | _, _ => Done (false, c)
  end.

Definition Jpeg_SetWritePos (offset : Z) : swriter bool := fun c =>
  match write_file_func c with
  | Some _ =>
      if (offset <? write_file_size c) || (u32 (write_file_size c + write_buf_size c) <=? offset) then
        let* (ok, c) := Jpeg_WriteStreamToFile c in
        if ok then Done (true, set_file offset (handed c) (set_write_ptr (Some 0) c)) else Done (false, c)
      else Done (true, set_write_ptr (Some (offset - write_file_size c)) c)
  | None =>
      if write_buf_size c <? offset then Done (false, c) else Done (true, set_write_ptr (Some offset) c)
  end.

Definition Jpeg_GetWritePos : swriter Z := fun c =>
  let write_pos :=
    match write_ptr c with
    | Some p => if (0 <=? p) && (p <=? write_buf_size c) then p else 0
    | None => 0
    end in
  Done (match write_file_func c with Some _ => u32 (write_pos + write_file_size c) | None => write_pos end, c).

(** [*context_ptr->write_ptr++ = c] *)
Definition put_byte (v : Z) : swriter unit := fun c =>
  match write_buf c, write_ptr c with
  | Some b, Some p => let* b := wr b p v in Done (tt, set_write_ptr (Some (p + 1)) (set_write_buf b c))
  | _, _ => Undef
  end.

(** After a flush the code tests the pointer it read before the flush. *)
Definition Jpeg_WriteC (v : Z) : swriter bool := fun c =>
  let c :=
    match write_ptr c with
    | Some _ => c
    | None => set_write_ptr (match write_buf c with Some _ => Some 0 | None => None end) c
    end in
  match write_ptr c with
  | None => Done (false, c)
  | Some p =>
      let* (ok, c) := if write_buf_size c <=? p then Jpeg_WriteStreamToFile c else Done (true, c) in
      if ok then
        if write_buf_size c <? p + 1 then Done (false, c)
        else let* (_, c) := put_byte (u8 v) c in Done (true, c)
      else Done (false, c)
  end.

Definition Jpeg_WriteW (w : Z) : swriter bool :=
  or_return (Jpeg_WriteC (u8 (Z.shiftr w 8))) false (Jpeg_WriteC (u8 w)).

Definition Jpeg_WriteL (l : Z) : swriter bool := fun c =>
  match write_ptr c with
  | None => Done (false, c)
  | Some p =>
      if write_buf_size c <? p + 4 then Done (false, c)
      else
        (let! _ := put_byte (u8 (Z.shiftr l 24)) in
         let! _ := put_byte (u8 (Z.shiftr l 16)) in
         let! _ := put_byte (u8 (Z.shiftr l 8)) in
         let! _ := put_byte (u8 l) in
         sret true) c
  end.

(** The loop over the block, [n] bytes from byte [i] on. *)
Fixpoint write_bytes (n : nat) (block : list Z) (i : Z) : swriter bool :=
  match n with
  | O => sret true
  | S n =>
      let! v := slift (rd block i) in
      or_return (Jpeg_WriteC v) false (write_bytes n block (i + 1))
  end.

Definition Jpeg_WriteBlock (block : option (list Z)) (block_size : Z) : swriter bool := fun c =>
  match write_ptr c, block with
  | Some _, Some b => write_bytes (Z.to_nat block_size) b 0 c
  | _, _ => Done (false, c)
  end.

(** ** Reading position

    The reader's half of the file that is compiled: where the stream stands.  The
    addresses are those of the target, 32 bits wide. *)
Record JPEG_READ_STREAM_CONTEXT_T := mk_rctx {
  has_read_file_func : bool;
  read_file_size : Z;
  stream_buf : Z;
  stream_buf_size : Z;
  stream_ptr : Z;
  stream_left_size : Z
}.

Definition set_stream (r p l : Z) (c : JPEG_READ_STREAM_CONTEXT_T) : JPEG_READ_STREAM_CONTEXT_T :=
  mk_rctx (has_read_file_func c) r (stream_buf c) (stream_buf_size c) p l.

Definition in_buf (c : JPEG_READ_STREAM_CONTEXT_T) : Z * Z :=
  if stream_buf c <=? stream_ptr c
  then (u32 (stream_ptr c - stream_buf c), u32 (u32 (stream_ptr c - stream_buf c) + stream_left_size c))
  else (0, 0).

Definition consumed (c : JPEG_READ_STREAM_CONTEXT_T) (bytes_in_buf : Z) : Z :=
  if bytes_in_buf <=? read_file_size c then read_file_size c - bytes_in_buf else 0.

Definition Jpeg_GetStreamPos (c : JPEG_READ_STREAM_CONTEXT_T) : Z * JPEG_READ_STREAM_CONTEXT_T :=
  if has_read_file_func c && negb (stream_buf c =? 0) then
    let '(offset_in_buf, bytes_in_buf) := in_buf c in
    (u32 (consumed c bytes_in_buf + offset_in_buf), c)
  else if (stream_buf c <=? stream_ptr c) && (stream_ptr c <=? u32 (stream_buf c + stream_buf_size c)) then
    (u32 (stream_ptr c - stream_buf c), c)
  else (stream_buf_size c, set_stream (read_file_size c) (u32 (stream_buf c + stream_buf_size c)) 0 c).

Definition Jpeg_SetStreamPos (offset : Z) (c : JPEG_READ_STREAM_CONTEXT_T) : JPEG_READ_STREAM_CONTEXT_T :=
  if has_read_file_func c && negb (stream_buf c =? 0) then
    let stop := u32 (stream_buf c + stream_buf_size c) in
    let c := if stop <? stream_ptr c then set_stream (read_file_size c) stop (stream_left_size c) c else c in
    let '(_, bytes_in_buf) := in_buf c in
    let consumed_file_size := consumed c bytes_in_buf in
    if (offset <? consumed_file_size) || (u32 (consumed_file_size + bytes_in_buf) <=? offset)
    then set_stream offset 0 0 c
    else
      let p := u32 (stream_buf c + (offset - consumed_file_size)) in
      set_stream (read_file_size c) p (u32 (bytes_in_buf - u32 (p - stream_buf c))) c
  else
    let offset := if stream_buf_size c <? offset then stream_buf_size c else offset in
    set_stream (read_file_size c) (u32 (stream_buf c + offset)) (stream_buf_size c - offset) c.

(** * Which bytes a writer leaves where *)

(** ** Big-endian encodings *)
Definition be_bytes (n : nat) (x : Z) : list Z := rev (le_bytes n x).
Definition be_val (l : list Z) : Z := le_val (rev l).

Lemma zlen_be_bytes n x : zlen (be_bytes n x) = Z.of_nat n.
Proof. unfold be_bytes, zlen. by rewrite length_rev, length_le_bytes. Qed.

Lemma length_be_bytes n x : length (be_bytes n x) = n.
Proof. unfold be_bytes. by rewrite length_rev, length_le_bytes. Qed.

Lemma be_val_be_bytes n x : 0 <= x < 256 ^ Z.of_nat n -> be_val (be_bytes n x) = x.
Proof.
  intros Hx. unfold be_val, be_bytes. rewrite rev_involutive, le_val_le_bytes. by apply Z.mod_small.
Qed.

Lemma be_bytes_ok n x : Forall byte_ok (be_bytes n x).
Proof. unfold be_bytes. apply Forall_rev, le_bytes_ok. Qed.

#[export] Hint Rewrite zlen_be_bytes length_be_bytes : cnorm.
#[export] Hint Resolve be_bytes_ok : cbounds.

(** ** Contents of a buffer *)
Definition bytes_at (b : list Z) (off : Z) (bs : list Z) : Prop := slice b off (zlen bs) = Done bs.

Lemma bytes_at_lookup b off bs :
  bytes_at b off bs <-> 0 <= off /\ off + zlen bs <= zlen b /\
    forall i, (i < length bs)%nat -> b !! (Z.to_nat off + i)%nat = bs !! i.
Proof.
  unfold bytes_at. split.
  - intros H. apply slice_inv in H as (H1 & _ & H2 & _ & H3). split_and!; [done..|]. intros i Hi.
    rewrite H3. unfold zlen. rewrite Nat2Z.id, lookup_take_lt, lookup_drop by lia. done.
  - intros (H1 & H2 & H3). pose proof (zlen_nonneg bs). rewrite slice_in by lia. f_equal.
    apply list_eq. intros i. unfold zlen in *. rewrite Nat2Z.id. destruct (decide (i < length bs)%nat) as [Hi|Hi].
    + rewrite lookup_take_lt, lookup_drop by lia. by apply H3.
    + rewrite !lookup_ge_None_2; [done|lia|]. rewrite length_take, length_drop. lia.
Qed.

(** The bytes outside [P] are unchanged. *)
Definition frame (P : Z -> Prop) (b b' : list Z) : Prop :=
  length b' = length b /\ forall i : nat, ~ P (Z.of_nat i) -> b' !! i = b !! i.

Definition range (lo hi : Z) : Z -> Prop := fun i => lo <= i < hi.

Lemma frame_refl P b : frame P b b.
Proof. done. Qed.

Lemma frame_trans (P Q R : Z -> Prop) b1 b2 b3 :
  frame P b1 b2 -> frame Q b2 b3 -> (forall i, P i \/ Q i -> R i) -> frame R b1 b3.
Proof.
  intros [L1 F1] [L2 F2] H. split; [congruence|]. intros i Hi. rewrite F2, F1; [done|..]; intros ?; apply Hi, H; auto.
Qed.

Lemma frame_weaken (P Q : Z -> Prop) b b' : frame P b b' -> (forall i, P i -> Q i) -> frame Q b b'.
Proof. intros [L F] H. split; [done|]. intros i Hi. apply F. auto. Qed.

Lemma frame_zlen P b b' : frame P b b' -> zlen b' = zlen b.
Proof. intros [H _]. unfold zlen. by rewrite H. Qed.

Lemma bytes_at_frame (P : Z -> Prop) b b' off bs :
  bytes_at b off bs -> frame P b b' -> (forall i, off <= i < off + zlen bs -> ~ P i) -> bytes_at b' off bs.
Proof.
  intros H F Hd. apply bytes_at_lookup in H as (H1 & H2 & H3). pose proof (frame_zlen _ _ _ F) as E. destruct F as [L F].
  apply bytes_at_lookup. split_and!; [done|lia|]. intros i Hi. rewrite F; [by apply H3|].
  apply Hd. unfold zlen. lia.
Qed.

Lemma splice_bytes_at b off bs b' : splice b off bs = Done b' -> bytes_at b' off bs.
Proof.
  intros H. pose proof (splice_inv _ _ _ _ H) as (H1 & H2 & H3 & _). apply bytes_at_lookup.
  split_and!; [done|lia|]. intros i Hi. rewrite (splice_lookup _ _ _ _ _ H).
  rewrite decide_True by lia. f_equal. lia.
Qed.

Lemma splice_frame b off bs b' : splice b off bs = Done b' -> frame (range off (off + zlen bs)) b b'.
Proof.
  intros H. pose proof (splice_inv _ _ _ _ H) as (H1 & H2 & H3 & _). split; [unfold zlen in H3; lia|].
  intros i Hi. rewrite (splice_lookup _ _ _ _ _ H). rewrite decide_False; [done|].
  unfold range, zlen in Hi. lia.
Qed.

Lemma bytes_at_app b off x y : bytes_at b off (x ++ y) <-> bytes_at b off x /\ bytes_at b (off + zlen x) y.
Proof.
  rewrite !bytes_at_lookup, zlen_app. pose proof (zlen_nonneg x). pose proof (zlen_nonneg y). split.
  - intros (H1 & H2 & H3). split_and!; try lia; intros i Hi.
    + rewrite H3, lookup_app_l by (rewrite ?length_app; lia). done.
    + unfold zlen. replace (Z.to_nat (off + Z.of_nat (length x)) + i)%nat with (Z.to_nat off + (length x + i))%nat by lia.
      rewrite H3, lookup_app_r by (rewrite ?length_app; lia). f_equal. lia.
  - intros ((H1 & H2 & H3) & H4 & H5 & H6). split_and!; try lia. intros i Hi. rewrite length_app in Hi.
    destruct (decide (i < length x)%nat).
    + rewrite lookup_app_l by lia. by apply H3.
    + rewrite lookup_app_r by lia. rewrite <- H6 by lia. f_equal. unfold zlen. lia.
Qed.

(** ** Contexts without a callback *)
Definition mem (b : list Z) (p : Z) : JPEG_WRITE_STREAM_CONTEXT_T := mk_wctx (Some b) (zlen b) (Some p) None 0 [].

(** [m] returns [a] and leaves [bs] at the current position. *)
Definition emits {A} (m : swriter A) (a : A) (bs : list Z) : Prop :=
  forall b p, 0 <= p -> p + zlen bs <= zlen b ->
  exists b' : list Z, splice b p bs = Done b' /\ m (mem b p) = Done (a, mem b' (p + zlen bs)).

Lemma splice_concat {A} (b : list A) p (x y b1 : list A) :
  splice b p x = Done b1 -> p + zlen (x ++ y) <= zlen b -> splice b p (x ++ y) = splice b1 (p + zlen x) y.
Proof.
  intros H Hl. pose proof (splice_inv _ _ _ _ H) as (H1 & H2 & H3 & E). rewrite zlen_app in Hl.
  pose proof (zlen_nonneg x). pose proof (zlen_nonneg y).
  rewrite !splice_in by (rewrite ?zlen_app; lia). f_equal. apply list_eq. intros i.
  rewrite E. unfold zlen in *. rewrite length_app. rewrite <- app_assoc.
  replace (Z.to_nat (p + Z.of_nat (length x))) with (Z.to_nat p + length x)%nat by lia.
  rewrite (app_assoc (take (Z.to_nat p) b) x (drop _ b)).
  rewrite take_app_length' by (rewrite length_app, length_take; lia).
  rewrite drop_app_ge by (rewrite length_app, length_take; lia). rewrite drop_drop, <- !app_assoc.
  rewrite length_app, length_take. by replace (_ + _ + (_ - _))%nat with (Z.to_nat p + (length x + length y))%nat by lia.
Qed.

Lemma emits_ret {A} (a : A) : emits (sret a) a [].
Proof.
  intros b p Hp Hl. rewrite zlen_nil in *. exists b. rewrite Z.add_0_r. split; [|done].
  rewrite splice_in by (rewrite ?zlen_nil; lia). f_equal. cbn. by rewrite Nat.add_0_r, take_drop.
Qed.

Lemma emits_bind {A B} (m : swriter A) (k : A -> swriter B) a c x y :
  emits m a x -> emits (k a) c y -> emits (sbind m k) c (x ++ y).
Proof.
  intros Hm Hk b p Hp Hl. pose proof Hl as Hl'. rewrite zlen_app in Hl. pose proof (zlen_nonneg y).
  destruct (Hm b p Hp) as (b1 & S1 & E1); [lia|]. pose proof (splice_inv _ _ _ _ S1) as (_ & _ & L1 & _).
  pose proof (zlen_nonneg x). destruct (Hk b1 (p + zlen x)) as (b2 & S2 & E2); [lia|lia|].
  exists b2. split; [by rewrite (splice_concat b p x y b1)|]. unfold sbind. rewrite E1. cbn [obind].
  rewrite E2, zlen_app. by rewrite Z.add_assoc.
Qed.

Lemma emits_or_return {A} (m : swriter bool) (e : A) k a x y :
  emits m true x -> emits k a y -> emits (or_return m e k) a (x ++ y).
Proof. intros Hm Hk. unfold or_return. by eapply emits_bind. Qed.

Lemma put_byte_emits v : emits (put_byte v) tt [v].
Proof.
  intros b p Hp Hl. change (zlen [v]) with 1 in *. unfold put_byte, mem. cbn [write_buf write_ptr].
  rewrite wr_in by lia. cbn [obind]. exists (<[Z.to_nat p := v]> b). split.
  - rewrite splice_in by (change (zlen [v]) with 1; lia). f_equal. cbn [length app]. unfold zlen in Hl.
    rewrite insert_take_drop by lia. by rewrite Nat.add_1_r.
  - unfold set_write_ptr, set_write_buf. cbn. unfold zlen. by rewrite length_insert.
Qed.

Lemma WriteC_emits v : emits (Jpeg_WriteC v) true [u8 v].
Proof.
  intros b p Hp Hl. destruct (put_byte_emits (u8 v) b p Hp Hl) as (b' & S & E). exists b'. split; [done|].
  change (zlen [u8 v]) with 1 in *. unfold Jpeg_WriteC. cbn [write_ptr write_buf_size mem].
  guard_false (zlen b <=? p). cbn [obind]. cbn [write_buf_size mem]. guard_false (zlen b <? p + 1). by rewrite E.
Qed.

Lemma byte_of_shift w n : 0 <= n -> u8 (Z.shiftr w n) = (w / 2 ^ n) mod 256.
Proof. intros. unfold u8, wrap. by rewrite Z.shiftr_div_pow2. Qed.

Lemma WriteW_emits w : emits (Jpeg_WriteW w) true (be_bytes 2 w).
Proof.
  unfold Jpeg_WriteW. change (be_bytes 2 w) with ([w / 256 mod 256] ++ [w mod 256]).
  pose proof (byte_of_shift w 8 ltac:(lia)) as E. change (2 ^ 8) with 256 in E.
  apply emits_or_return.
  - rewrite <- E. rewrite <- (u8_small (u8 _)) at 2 by apply u8_range. apply WriteC_emits.
  - change (w mod 256) with (u8 w). rewrite <- (u8_small (u8 w)) at 2 by apply u8_range. apply WriteC_emits.
Qed.

Lemma WriteL_emits l : emits (Jpeg_WriteL l) true (be_bytes 4 l).
Proof.
  assert (be_bytes 4 l = [u8 (Z.shiftr l 24)] ++ [u8 (Z.shiftr l 16)] ++ [u8 (Z.shiftr l 8)] ++ [u8 l] ++ []) as E.
  { rewrite !byte_of_shift by lia. unfold be_bytes. cbn [le_bytes rev app]. rewrite !Z.div_div by lia. reflexivity. }
  intros b p Hp Hl. unfold Jpeg_WriteL. cbn [write_ptr write_buf_size mem].
  pose proof Hl as Hl4. rewrite zlen_be_bytes in Hl4. guard_false (zlen b <? p + 4). rewrite E in *. clear E Hl4.
  revert b p Hp Hl. repeat (eapply emits_bind; [apply put_byte_emits|]). apply emits_ret.
Qed.

Lemma write_bytes_emits block n i :
  Forall byte_ok block -> 0 <= i -> i + Z.of_nat n <= zlen block ->
  emits (write_bytes n block i) true (take n (drop (Z.to_nat i) block)).
Proof.
  intros Hb. revert i. induction n as [|n IH]; intros i Hi Hl; cbn [write_bytes].
  - rewrite take_0. apply emits_ret.
  - destruct (rd_lt block i) as (v & Hv & Hk); [lia|]. rewrite (drop_S _ v) by done. cbn [take].
    change (v :: take n (drop (S (Z.to_nat i)) block)) with ([] ++ [v] ++ take n (drop (S (Z.to_nat i)) block)).
    eapply (emits_bind _ _ v). { intros b p Hp Hq. destruct (emits_ret v b p Hp Hq) as (b' & ? & ?). exists b'. split; [done|].
      unfold slift. by rewrite Hv. }
    apply emits_or_return.
    + rewrite <- (u8_small v) at 2 by (by eapply Forall_lookup_1 in Hk; [|exact Hb]). apply WriteC_emits.
    + replace (S (Z.to_nat i)) with (Z.to_nat (i + 1)) by lia. apply IH; lia.
Qed.

Lemma WriteBlock_emits block n :
  Forall byte_ok block -> 0 <= n <= zlen block -> emits (Jpeg_WriteBlock (Some block) n) true (take (Z.to_nat n) block).
Proof.
  intros Hb Hn b p Hp Hl. unfold Jpeg_WriteBlock. cbn [write_ptr mem].
  exact (write_bytes_emits block (Z.to_nat n) 0 Hb ltac:(lia) ltac:(lia) b p Hp Hl).
Qed.

Lemma SetWritePos_mem b p off : 0 <= off <= zlen b -> Jpeg_SetWritePos off (mem b p) = Done (true, mem b off).
Proof. intros H. unfold Jpeg_SetWritePos. cbn [write_file_func mem write_buf_size]. by guard_false (zlen b <? off). Qed.

Lemma GetWritePos_mem b p : 0 <= p <= zlen b -> Jpeg_GetWritePos (mem b p) = Done (p, mem b p).
Proof.
  intros H. unfold Jpeg_GetWritePos. cbn [write_ptr write_file_func mem write_buf_size].
  by guard_true ((0 <=? p) && (p <=? zlen b)).
Qed.

(** Moving to a position and writing there. *)
Lemma emits_at {A} (m : swriter A) a bs b p off :
  emits m a bs -> 0 <= off -> off + zlen bs <= zlen b ->
  exists b', sbind (Jpeg_SetWritePos off) (fun _ => m) (mem b p) = Done (a, mem b' (off + zlen bs)) /\
    bytes_at b' off bs /\ frame (range off (off + zlen bs)) b b'.
Proof.
  intros Hm Ho Hl. pose proof (zlen_nonneg bs). destruct (Hm b off Ho Hl) as (b' & S & E). exists b'.
  unfold sbind. rewrite SetWritePos_mem by lia. cbn [obind]. split; [done|].
  split; [by eapply splice_bytes_at|by apply splice_frame].
Qed.
