(* ===== verification/ExifWriter.v ===== *)
(** * libs/libcamera/jpeg/jpeg_fw_8830/src/exif_writer.c: the APP1 segment

    A directory (IFD) is a count, entries of twelve bytes and the position of the next
    directory.  A value of at most four bytes is in its entry, a longer one follows the
    directory.  The code reserves room for the largest number of entries, writes the
    entries and the values each at their own position, and goes back to write the count.

    The fields that the code reads through [void *] pointers are memory: the bytes of the
    object, in the little-endian order of the target.  The code fills one [IFD_INFO_T] per
    entry; every block sets all the fields the writers read, so that the model builds a
    fresh record ([value_bytes] is never read). *)

From S2P Require Import Prelude JpegCodec ExifTypes ExifStream.

(** ** Memory of the fields *)
Definition mem_short (x : Z) : list Z := le_bytes 2 x.
Definition mem_long (x : Z) : list Z := le_bytes 4 x.
Definition mem_rational (r : EXIF_RATIONAL_T) : list Z := le_bytes 4 (numerator r) ++ le_bytes 4 (denominator r).
Definition mem_srational (r : EXIF_SRATIONAL_T) : list Z := le_bytes 4 (s_numerator r) ++ le_bytes 4 (s_denominator r).

Definition get_short (ptr : list Z) (i : Z) : outcome Z := let* s := slice ptr (2 * i) 2 in Done (le_val s).
Definition get_long (ptr : list Z) (i : Z) : outcome Z := let* s := slice ptr (4 * i) 4 in Done (le_val s).

Fixpoint _GetAsciiStringSize (string_ptr : list Z) : outcome Z :=
  match string_ptr with
  | [] => Undef
  | c :: string_ptr => if c =? 0 then Done 0 else let* n := _GetAsciiStringSize string_ptr in Done (n + 1)
  end.

(** ** Entries *)

(** [value_offset] is the union: four bytes. *)
Record IFD_INFO_T := mk_ifd {
  tag : Z;
  type : Z;
  count : Z;
  value_offset : list Z;
  value_ptr : list Z
}.

Definition set_value_offset (v : list Z) (i : IFD_INFO_T) : IFD_INFO_T :=
  mk_ifd (tag i) (type i) (count i) v (value_ptr i).

Definition IFD_HEAD_LENGTH : Z := 12.
Definition JPEG_ALIGN_4 (x : Z) : Z := u32 (Z.shiftl (Z.shiftr (u32 (x + 3)) 2) 2).

(** The word that [Jpeg_WriteIFD] writes last. *)
Definition offset_value (i : IFD_INFO_T) : outcome Z :=
  let v := value_offset i in
  if ((type i =? IFD_BYTE) || (type i =? IFD_ASCII) || (type i =? IFD_UNDEFINED)) && (count i <=? 4) then
    let* b0 := rd v 0 in
    let* b1 := rd v 1 in
    let* b2 := rd v 2 in
    let* b3 := rd v 3 in
    Done (u32 (Z.lor (Z.lor (Z.lor (Z.shiftl b0 24) (Z.shiftl b1 16)) (Z.shiftl b2 8)) b3))
  else if (type i =? IFD_SHORT) && (count i <=? 2) then
    let* s0 := get_short v 0 in
    let* s1 := get_short v 1 in
    Done (u32 (Z.lor (Z.shiftl s0 16) s1))
  else get_long v 0.

Definition Jpeg_WriteIFD (i : IFD_INFO_T) : swriter bool :=
  or_return (Jpeg_WriteW (tag i)) false (
  or_return (Jpeg_WriteW (type i)) false (
  or_return (Jpeg_WriteL (count i)) false (
  let! v := slift (offset_value i) in
  or_return (Jpeg_WriteL v) false (sret true)))).

(** The positions a directory is written at: of the next entry and of the next value. *)
Definition offsets : Type := Z * Z.

(** The first half of every writer: the entry at its position; [k] gets the position
    after it. *)
Definition write_head {A} (i : IFD_INFO_T) (ifd_offset : Z) (e : A) (k : Z -> swriter A) : swriter A :=
  or_return (Jpeg_SetWritePos ifd_offset) e (
  or_return (Jpeg_WriteIFD i) e (
  let! ifd_offset := Jpeg_GetWritePos in
  k ifd_offset)).

(** The second half: the values at theirs; [on_error] is what a failed write returns. *)
Definition write_values (m : swriter bool) (old : offsets) (ifd_offset : Z) (on_error : bool) : swriter (bool * offsets) :=
  or_return (Jpeg_SetWritePos (snd old)) (false, old) (
  or_return m (on_error, old) (
  let! value_offset := Jpeg_GetWritePos in
  sret (true, (ifd_offset, JPEG_ALIGN_4 value_offset)))).

Fixpoint write_rationals (n : nat) (ptr : list Z) (i : Z) : swriter bool :=
  match n with
  | O => sret true
  | S n =>
      let! num := slift (get_long ptr (2 * i)) in
      or_return (Jpeg_WriteL num) false (
      let! den := slift (get_long ptr (2 * i + 1)) in
      or_return (Jpeg_WriteL den) false (write_rationals n ptr (i + 1)))
  end.

Definition Jpeg_WriteRationalIFD (i : IFD_INFO_T) (o : offsets) : swriter (bool * offsets) :=
  write_head i (fst o) (false, o) (fun ifd_offset =>
  write_values (write_rationals (Z.to_nat (count i)) (value_ptr i) 0) o ifd_offset false).

Fixpoint write_longs (n : nat) (ptr : list Z) (i : Z) : swriter bool :=
  match n with
  | O => sret true
  | S n =>
      let! v := slift (get_long ptr i) in
      or_return (Jpeg_WriteL v) false (write_longs n ptr (i + 1))
  end.

Definition Jpeg_WriteLongIFD (i : IFD_INFO_T) (o : offsets) : swriter (bool * offsets) :=
  let! i :=
    if count i <=? 1
    then let! v := slift (get_long (value_ptr i) 0) in sret (set_value_offset (le_bytes 4 v) i)
    else sret i in
  write_head i (fst o) (false, o) (fun ifd_offset =>
  if 1 <? count i
  then write_values (write_longs (Z.to_nat (count i)) (value_ptr i) 0) o ifd_offset false
  else sret (true, (ifd_offset, snd o))).

Fixpoint write_shorts (n : nat) (ptr : list Z) (i : Z) : swriter bool :=
  match n with
  | O => sret true
  | S n =>
      let! v := slift (get_short ptr i) in
      or_return (Jpeg_WriteW v) false (write_shorts n ptr (i + 1))
  end.

(** A failed write of a value returns [JPEG_FAILED], which is 255, as a [BOOLEAN]. *)
Definition Jpeg_WriteShortIFD (i : IFD_INFO_T) (o : offsets) : swriter (bool * offsets) :=
  let! i :=
    if count i <=? 2 then
      let! s0 := slift (get_short (value_ptr i) 0) in
      if count i =? 2
      then let! s1 := slift (get_short (value_ptr i) 1) in sret (set_value_offset (le_bytes 2 s0 ++ le_bytes 2 s1) i)
      else sret (set_value_offset (le_bytes 2 s0 ++ [0; 0]) i)
    else sret i in
  write_head i (fst o) (false, o) (fun ifd_offset =>
  if 2 <? count i
  then write_values (write_shorts (Z.to_nat (count i)) (value_ptr i) 0) o ifd_offset true
  else sret (true, (ifd_offset, snd o))).

(** The switch that falls through: [byte_value[i++] = *ptr++], [n] times. *)
Fixpoint copy_bytes (n : nat) (ptr value : list Z) (i : Z) : outcome (list Z) :=
  match n with
  | O => Done value
  | S n =>
      let* v := rd ptr i in
      let* value := wr value i v in
      copy_bytes n ptr value (i + 1)
  end.

(** Here too a failed write returns 255. *)
Definition Jpeg_WriteByteIFD (i : IFD_INFO_T) (o : offsets) : swriter (bool * offsets) :=
  let! i :=
    if count i <=? 4
    then let! v := slift (copy_bytes (Z.to_nat (count i)) (value_ptr i) (value_offset i) 0) in sret (set_value_offset v i)
    else sret i in
  write_head i (fst o) (false, o) (fun ifd_offset =>
  if 4 <? count i
  then write_values (write_bytes (Z.to_nat (count i)) (value_ptr i) 0) o ifd_offset true
  else sret (true, (ifd_offset, snd o))).

(** ** Blocks

    The body of a directory is a sequence of blocks of one shape: when the field is
    there, fill in the entry, call a writer, count the entry. *)
Inductive ifd_writer := WriteRational | WriteLong | WriteShort | WriteByte.

Definition Jpeg_Write (w : ifd_writer) : IFD_INFO_T -> offsets -> swriter (bool * offsets) :=
  match w with
  | WriteRational => Jpeg_WriteRationalIFD
  | WriteLong => Jpeg_WriteLongIFD
  | WriteShort => Jpeg_WriteShortIFD
  | WriteByte => Jpeg_WriteByteIFD
  end.

(** [b_here] is the short that some blocks put into the union instead of the position. *)
Record block := mk_block {
  b_valid : bool;
  b_tag : Z;
  b_type : Z;
  b_count : outcome Z;
  b_here : option Z;
  b_value : list Z;
  b_writer : ifd_writer
}.

Record ifd_state := mk_state {
  ifd_offset : Z;
  ifd_value_offset : Z;
  entries : Z
}.

Definition block_info (ifh_offset : Z) (b : block) (n : Z) (s : ifd_state) : IFD_INFO_T :=
  mk_ifd (b_tag b) (b_type b) n
    (match b_here b with Some v => le_bytes 2 v ++ [0; 0] | None => le_bytes 4 (u32 (ifd_value_offset s - ifh_offset)) end)
    (b_value b).

(** [None]: the function returns [JPEG_FAILED]. *)
Definition write_block (ifh_offset : Z) (b : block) (s : ifd_state) : swriter (option ifd_state) :=
  if b_valid b then
    let! n := slift (b_count b) in
    let! (ok, (o, v)) := Jpeg_Write (b_writer b) (block_info ifh_offset b n s) (ifd_offset s, ifd_value_offset s) in
    sret (if ok then Some (mk_state o v (u16 (entries s + 1))) else None)
  else sret (Some s).

Definition and_then {A B} (m : swriter (option A)) (k : A -> swriter (option B)) : swriter (option B) :=
  sbind m (fun r => match r with Some a => k a | None => sret None end).

Fixpoint write_blocks (ifh_offset : Z) (bs : list block) (s : ifd_state) : swriter (option ifd_state) :=
  match bs with
  | [] => sret (Some s)
  | b :: bs => and_then (write_block ifh_offset b s) (write_blocks ifh_offset bs)
  end.

(** The room for [max] entries, and where the values begin. *)
Definition open_ifd (begin_offset max : Z) : swriter (option ifd_state) :=
  let! _ := Jpeg_SetWritePos begin_offset in
  or_return (Jpeg_WriteW max) None (
  let! o := Jpeg_GetWritePos in
  sret (Some (mk_state o (JPEG_ALIGN_4 (u32 (o + max * IFD_HEAD_LENGTH + 4))) 0))).

(** The position of the next directory after the entries, and the count before them. *)
Definition close_ifd (begin_offset next : Z) (s : ifd_state) : swriter (option Z) :=
  let! _ := Jpeg_SetWritePos (ifd_offset s) in
  or_return (Jpeg_WriteL next) None (
  let! _ := Jpeg_SetWritePos begin_offset in
  or_return (Jpeg_WriteW (entries s)) None (sret (Some (ifd_value_offset s)))).

(** The entry that points to a directory at the next position of a value. *)
Definition pointer_block (ifh_offset : Z) (t : Z) (s : ifd_state) : block :=
  mk_block true t IFD_LONG (Done 1) None (mem_long (u32 (ifd_value_offset s - ifh_offset))) WriteLong.

(** ** Fields *)
Definition no_block : block := mk_block false 0 0 (Done 0) None [] WriteByte.

(** [PNULL != p && ...] *)
Definition on {A} (p : option A) (f : A -> block) : block := match p with Some a => f a | None => no_block end.

Definition rationals (v : bool) (t n : Z) (l : list EXIF_RATIONAL_T) : block :=
  mk_block v t IFD_RATIONAL (Done n) None (concat (map mem_rational l)) WriteRational.
Definition srational (v : bool) (t : Z) (r : EXIF_SRATIONAL_T) : block :=
  mk_block v t IFD_SRATIONAL (Done 1) None (mem_srational r) WriteRational.
Definition shorts (v : bool) (t n : Z) (l : list Z) : block :=
  mk_block v t IFD_SHORT (Done n) None (concat (map mem_short l)) WriteShort.
Definition short_here (v : bool) (t x : Z) : block :=
  mk_block v t IFD_SHORT (Done 1) (Some x) (mem_short x) WriteShort.
Definition long (v : bool) (t x : Z) : block :=
  mk_block v t IFD_LONG (Done 1) None (mem_long x) WriteLong.
Definition bytes (v : bool) (t ty n : Z) (l : list Z) : block :=
  mk_block v t ty (Done n) None l WriteByte.
Definition ascii (v : bool) (t : Z) (l : list Z) : block :=
  mk_block v t IFD_ASCII (let* n := _GetAsciiStringSize l in Done (n + 1)) None l WriteByte.
(** [ptr] of a custom field is an array and never null. *)
Definition custom (v : bool) (t ty : Z) (c : EXIF_CUSTOM_T) (w : ifd_writer) : block :=
  mk_block (v && (0 <? c_count c)) t ty (Done (c_count c)) None (c_ptr c) w.

(** ** The interoperability directory *)
Definition inter_blocks (i : EXIF_INTEROPERABILITY_INFO_T) : list block :=
  [custom (v_InteroperabilityIndex (inter_valid i)) IFD_INTEROPERABILITYINDEX IFD_ASCII (InteroperabilityIndex i) WriteByte].

Definition Jpeg_WriteExifInteroperabilityInfo (inter_ptr : EXIF_INTEROPERABILITY_INFO_T) (ifh_offset begin_offset : Z) : swriter (option Z) :=
  and_then (open_ifd begin_offset 1) (fun s =>
  and_then (write_blocks ifh_offset (inter_blocks inter_ptr) s) (fun s =>
  close_ifd begin_offset 0 s)).

(** ** The EXIF directory *)
Definition exif_version : list Z := [48; 50; 50; 48].
Definition flashpix_version : list Z := [48; 49; 48; 48].

Definition spec_blocks_1 (s : EXIF_SPECIFIC_INFO_T) : list block :=
  let c := pic_taking_cond_ptr s in
  let d := date_time_ptr s in
  [ on c (fun c => rationals (v_ExposureTime (cond_valid c)) IFD_EXPOSURETIME 1 [ExposureTime c]);
    on c (fun c => rationals (v_FNumber (cond_valid c)) IFD_FNUMBER 1 [FNumber c]);
    on c (fun c => shorts (v_ExposureProgram (cond_valid c)) IFD_EXPOSUREPROGRAM 1 [ExposureProgram c]);
    on c (fun c => ascii (v_SpectralSensitivity (cond_valid c)) IFD_SPECTRALSENSITIVITY (SpectralSensitivity c));
    on c (fun c => custom (v_ISOSpeedRatings (cond_valid c)) IFD_ISOSPEEDRATINGS IFD_SHORT (ISOSpeedRatings c) WriteShort);
    on c (fun c => custom (v_OECF (cond_valid c)) IFD_OECF IFD_UNDEFINED (OECF c) WriteByte);
    bytes true IFD_EXIFVERSION IFD_UNDEFINED 4 exif_version;
    on d (fun d => bytes (v_DateTimeOriginal (date_time_valid d)) IFD_DATETIMEORIGINAL IFD_ASCII 20 (DateTimeOriginal d));
    on d (fun d => bytes (v_DateTimeDigitized (date_time_valid d)) IFD_DATETIMEDIGITILIZED IFD_ASCII 20 (DateTimeDigitized d)) ].

Definition spec_blocks_2 (s : EXIF_SPECIFIC_INFO_T) : list block :=
  let c := pic_taking_cond_ptr s in
  [ bytes true IFD_COMPONENTSCONFIGURATION IFD_UNDEFINED 4 (ComponentsConfiguration (spec_basic s));
    on (img_config_ptr s) (fun g => rationals (v_CompressedBitsPerPixel (img_config_valid g)) IFD_COMPRESSEDBITSPERPIXEL 1 [CompressedBitsPerPixel g]);
    on c (fun c => srational (v_ShutterSpeedValue (cond_valid c)) IFD_SHUTTERSPEEDVALUE (ShutterSpeedValue c));
    on c (fun c => rationals (v_ApertureValue (cond_valid c)) IFD_APERTUREVALUE 1 [ApertureValue c]);
    on c (fun c => srational (v_BrightnessValue (cond_valid c)) IFD_BRIGHTNESSVALUE (BrightnessValue c));
    on c (fun c => srational (v_ExposureBiasValue (cond_valid c)) IFD_EXPOSUREBIASVALUE (ExposureBiasValue c));
    on c (fun c => rationals (v_MaxApertureValue (cond_valid c)) IFD_MAXAPERTUREVALUE 1 [MaxApertureValue c]);
    on c (fun c => rationals (v_SubjectDistance (cond_valid c)) IFD_SUBJECTDISTANCE 1 [SubjectDistance c]);
    on c (fun c => shorts (v_MeteringMode (cond_valid c)) IFD_METERINGMODE 1 [MeteringMode c]) ].

(** The subject area has shorts and is written as rationals; the maker note and the
    comment are written whatever their valid bits. *)
Definition spec_blocks_3 (s : EXIF_SPECIFIC_INFO_T) : list block :=
  let c := pic_taking_cond_ptr s in
  let d := date_time_ptr s in
  [ on c (fun c => shorts (v_LightSource (cond_valid c)) IFD_LIGHTSOURCE 1 [LightSource c]);
    on c (fun c => shorts (v_Flash (cond_valid c)) IFD_FLASH 1 [Flash c]);
    on c (fun c => rationals (v_FocalLength (cond_valid c)) IFD_FOCALLENGTH 1 [FocalLength c]);
    on c (fun c => custom (v_SubjectArea (cond_valid c)) IFD_SUBJECTAREA IFD_SHORT (SubjectArea c) WriteRational);
    on (user_ptr s) (fun u => custom true IFD_MAKERNOTE IFD_UNDEFINED (MakerNote u) WriteByte);
    on (user_ptr s) (fun u => custom true IFD_USERCOMMENT IFD_UNDEFINED (UserComment u) WriteByte);
    on d (fun d => ascii (v_SubSecTime (date_time_valid d)) IFD_SUBSECTIME (SubSecTime d));
    on d (fun d => ascii (v_SubSecTimeOriginal (date_time_valid d)) IFD_SUBSECTIMEORIGINAL (SubSecTimeOriginal d));
    on d (fun d => ascii (v_SubSecTimeDigitized (date_time_valid d)) IFD_SUBSECTIMEDIGITILIZED (SubSecTimeDigitized d)) ].

Definition spec_blocks_4 (s : EXIF_SPECIFIC_INFO_T) : list block :=
  [ bytes true IFD_FLASHPIXVERSION IFD_UNDEFINED 4 flashpix_version;
    shorts true IFD_COLORSPACE 1 [ColorSpace (spec_basic s)];
    long true IFD_PIXELXDIMENSION (PixelXDimension (spec_basic s));
    long true IFD_PIXELYDIMENSION (PixelYDimension (spec_basic s));
    on (related_file_ptr s) (fun r => bytes (v_RelatedSoundFile (related_file_valid r)) IFD_RELATEDSOUNDFILE IFD_ASCII 13 (RelatedSoundFile r)) ].

Definition spec_blocks_5 (s : EXIF_SPECIFIC_INFO_T) : list block :=
  let c := pic_taking_cond_ptr s in
  [ on c (fun c => rationals (v_FlashEnergy (cond_valid c)) IFD_FLASHENERGY 1 [FlashEnergy c]);
    on c (fun c => custom (v_SpatialFrequencyResponse (cond_valid c)) IFD_SPATIALFREQUENCYRESPONSE IFD_UNDEFINED (SpatialFrequencyResponse c) WriteByte);
    on c (fun c => rationals (v_FocalPlaneXResolution (cond_valid c)) IFD_FOCALPLANEXRESOLUTION 1 [FocalPlaneXResolution c]);
    on c (fun c => rationals (v_FocalPlaneYResolution (cond_valid c)) IFD_FOCALPLANEYRESOLUTION 1 [FocalPlaneYResolution c]);
    on c (fun c => shorts (v_FocalPlaneResolutionUnit (cond_valid c)) IFD_FOCALPLANERESOLUTIONUNIT 1 [FocalPlaneResolutionUnit c]);
    on c (fun c => shorts (v_SubjectLocation (cond_valid c)) IFD_SUBJECTLOCATION 2 (SubjectLocation c));
    on c (fun c => rationals (v_ExposureIndex (cond_valid c)) IFD_EXPOSUREINDEX 1 [ExposureIndex c]);
    on c (fun c => shorts (v_SensingMethod (cond_valid c)) IFD_SENSINGMETHOD 1 [SensingMethod c]);
    on c (fun c => bytes (v_FileSource (cond_valid c)) IFD_FILESOURCE IFD_UNDEFINED 1 [FileSource c]) ].

Definition spec_blocks_6 (s : EXIF_SPECIFIC_INFO_T) : list block :=
  let c := pic_taking_cond_ptr s in
  [ on c (fun c => bytes (v_SceneType (cond_valid c)) IFD_SCENETYPE IFD_UNDEFINED 1 [SceneType c]);
    on c (fun c => custom (v_CFAPattern (cond_valid c)) IFD_CFAPATTERN IFD_UNDEFINED (CFAPattern c) WriteByte);
    on c (fun c => shorts (v_CustomRendered (cond_valid c)) IFD_CUSTOMRENDERED 1 [CustomRendered c]);
    on c (fun c => shorts (v_ExposureMode (cond_valid c)) IFD_EXPOSUREMODE 1 [ExposureMode c]);
    on c (fun c => shorts (v_WhiteBalance (cond_valid c)) IFD_WHITEBALANCE 1 [WhiteBalance c]);
    on c (fun c => rationals (v_DigitalZoomRatio (cond_valid c)) IFD_DIGITALZOOMRATIO 1 [DigitalZoomRatio c]);
    on c (fun c => shorts (v_FocalLengthIn35mmFilm (cond_valid c)) IFD_FOCALLENGTHIN35MMFILM 1 [FocalLengthIn35mmFilm c]);
    on c (fun c => shorts (v_SceneCaptureType (cond_valid c)) IFD_SCENECAPTURETYPE 1 [SceneCaptureType c]);
    on c (fun c => shorts (v_GainControl (cond_valid c)) IFD_GAINCONTROL 1 [GainControl c]) ].

Definition spec_blocks_7 (s : EXIF_SPECIFIC_INFO_T) : list block :=
  let c := pic_taking_cond_ptr s in
  [ on c (fun c => shorts (v_Contrast (cond_valid c)) IFD_CONTRAST 1 [Contrast c]);
    on c (fun c => shorts (v_Saturation (cond_valid c)) IFD_SATURATION 1 [Saturation c]);
    on c (fun c => shorts (v_Sharpness (cond_valid c)) IFD_SHARPNESS 1 [Sharpness c]);
    on c (fun c => custom (v_DeviceSettingDescription (cond_valid c)) IFD_DEVICESETTINGDESCRIPTION IFD_UNDEFINED (DeviceSettingDescription c) WriteByte);
    on c (fun c => shorts (v_SubjectDistanceRange (cond_valid c)) IFD_SUBJECTDISTANCERANGE 1 [SubjectDistanceRange c]);
    on (other_ptr s) (fun o => bytes (v_ImageUniqueID (other_valid o)) IFD_IMAGEUNIQUEID IFD_ASCII 33 (ImageUniqueID o)) ].

(** An entry [t] that points to the directory which [m] writes behind it. *)
Definition write_pointer (ifh_offset t : Z) (m : Z -> swriter (option Z)) (s : ifd_state) : swriter (option ifd_state) :=
  let s := mk_state (ifd_offset s) (JPEG_ALIGN_4 (ifd_value_offset s)) (entries s) in
  and_then (write_block ifh_offset (pointer_block ifh_offset t s) s) (fun s =>
  and_then (m (ifd_value_offset s)) (fun stop =>
  sret (Some (mk_state (ifd_offset s) stop (entries s))))).

Definition Jpeg_WriteExifSpecInfo (spec_ptr : EXIF_SPECIFIC_INFO_T) (inter_ptr : option EXIF_INTEROPERABILITY_INFO_T)
    (ifh_offset begin_offset : Z) : swriter (option Z) :=
  and_then (open_ifd begin_offset 57) (fun s =>
  and_then (write_blocks ifh_offset
    (spec_blocks_1 spec_ptr ++ spec_blocks_2 spec_ptr ++ spec_blocks_3 spec_ptr ++ spec_blocks_4 spec_ptr) s) (fun s =>
  and_then
    (match inter_ptr with
     | Some inter => write_pointer ifh_offset IFD_INTEROPERABILITYIFDPOINTER (Jpeg_WriteExifInteroperabilityInfo inter ifh_offset) s
     | None => sret (Some s)
     end) (fun s =>
  and_then (write_blocks ifh_offset (spec_blocks_5 spec_ptr ++ spec_blocks_6 spec_ptr ++ spec_blocks_7 spec_ptr) s) (fun s =>
  close_ifd begin_offset 0 s)))).

(** ** The GPS directory *)
Definition gps_blocks_1 (g : EXIF_GPS_INFO_T) : list block :=
  let v := gps_valid g in
  [ bytes (v_GPSVersionID v) IFD_GPSVERSIONID IFD_BYTE 4 (GPSVersionID g);
    bytes (v_GPSLatitudeRef v) IFD_GPSLATITUDEREF IFD_ASCII 2 (GPSLatitudeRef g);
    rationals (v_GPSLatitude v) IFD_GPSLATITUDE 3 (GPSLatitude g);
    bytes (v_GPSLongitudeRef v) IFD_GPSLONGITUDEREF IFD_ASCII 2 (GPSLongitudeRef g);
    rationals (v_GPSLongitude v) IFD_GPSLONGITUDE 3 (GPSLongitude g);
    bytes (v_GPSAltitudeRef v) IFD_GPSALTITUDEREF IFD_BYTE 1 [GPSAltitudeRef g];
    rationals (v_GPSAltitude v) IFD_GPSALTITUDE 1 [GPSAltitude g];
    rationals (v_GPSTimeStamp v) IFD_GPSTIMESTAMP 3 (GPSTimeStamp g);
    ascii (v_GPSSatellites v) IFD_GPSSATELLITES (GPSSatellites g) ].

Definition gps_blocks_2 (g : EXIF_GPS_INFO_T) : list block :=
  let v := gps_valid g in
  [ bytes (v_GPSStatus v) IFD_GPSSTATUS IFD_ASCII 2 (GPSStatus g);
    bytes (v_GPSMeasureMode v) IFD_GPSMEASUREMODE IFD_ASCII 2 (GPSMeasureMode g);
    rationals (v_GPSDOP v) IFD_GPSDOP 1 [GPSDOP g];
    bytes (v_GPSSpeedRef v) IFD_GPSSPEEDREF IFD_ASCII 2 (GPSSpeedRef g);
    rationals (v_GPSSpeed v) IFD_GPSSPEED 1 [GPSSpeed g];
    bytes (v_GPSTrackRef v) IFD_GPSTRACKREF IFD_ASCII 2 (GPSTrackRef g);
    rationals (v_GPSTrack v) IFD_GPSTRACK 1 [GPSTrack g];
    bytes (v_GPSImgDirectionRef v) IFD_GPSIMGDIRECTIONREF IFD_ASCII 2 (GPSImgDirectionRef g);
    rationals (v_GPSImgDirection v) IFD_GPSIMGDIRECTION 1 [GPSImgDirection g] ].

(** The longitude of the destination is written under the valid bit of its latitude. *)
Definition gps_blocks_3 (g : EXIF_GPS_INFO_T) : list block :=
  let v := gps_valid g in
  [ ascii (v_GPSMapDatum v) IFD_GPSMAPDATUM (GPSMapDatum g);
    bytes (v_GPSDestLatitudeRef v) IFD_GPSDESTLATITUDEREF IFD_ASCII 2 (GPSDestLatitudeRef g);
    rationals (v_GPSDestLatitude v) IFD_GPSDESTLATITUDE 3 (GPSDestLatitude g);
    bytes (v_GPSDestLongitudeRef v) IFD_GPSDESTLONGITUDEREF IFD_ASCII 2 (GPSDestLongitudeRef g);
    rationals (v_GPSDestLatitude v) IFD_GPSDESTLONGITUDE 3 (GPSDestLongitude g);
    bytes (v_GPSDestBearingRef v) IFD_GPSDESTBEARINGREF IFD_ASCII 2 (GPSDestBearingRef g);
    rationals (v_GPSDestBearing v) IFD_GPSDESTBEARING 1 [GPSDestBearing g];
    bytes (v_GPSDestDistanceRef v) IFD_GPSDESTDISTANCEREF IFD_ASCII 2 (GPSDestDistanceRef g);
    rationals (v_GPSDestDistance v) IFD_GPSDESTDISTANCE 1 [GPSDestDistance g] ].

Definition gps_blocks_4 (g : EXIF_GPS_INFO_T) : list block :=
  let v := gps_valid g in
  [ custom (v_GPSProcessingMethod v) IFD_GPSPROCESSINGMETHOD IFD_UNDEFINED (GPSProcessingMethod g) WriteByte;
    custom (v_GPSAreaInformation v) IFD_GPSAREAINFORMATION IFD_UNDEFINED (GPSAreaInformation g) WriteByte;
    bytes (v_GPSDateStamp v) IFD_GPSDATESTAMP IFD_ASCII 11 (GPSDateStamp g);
    shorts (v_GPSDifferential v) IFD_GPSDIFFERENTIAL 1 [GPSDifferential g] ].

Definition Jpeg_WriteExifGPSInfo (gps_ptr : EXIF_GPS_INFO_T) (ifh_offset begin_offset : Z) : swriter (option Z) :=
  and_then (open_ifd begin_offset 31) (fun s =>
  and_then (write_blocks ifh_offset (gps_blocks_1 gps_ptr ++ gps_blocks_2 gps_ptr ++ gps_blocks_3 gps_ptr ++ gps_blocks_4 gps_ptr) s) (fun s =>
  close_ifd begin_offset 0 s)).

(** ** The directory of an image *)
Definition primary_blocks_1 (p : EXIF_PRIMARY_INFO_T) : list block :=
  let d := img_desc_ptr p in
  [ on (data_struct_ptr p) (fun s => short_here (v_Reserved (data_struct_valid s)) IFD_COMPRESSION (Reserved s));
    on d (fun d => ascii (v_ImageDescription (desc_valid d)) IFD_IMAGEDESCRIPTION (ImageDescription d));
    on d (fun d => ascii (v_Make (desc_valid d)) IFD_MAKE (Make d));
    on d (fun d => ascii (v_Model (desc_valid d)) IFD_MODEL (Model d));
    on (data_struct_ptr p) (fun s => short_here (v_Orientation (data_struct_valid s)) IFD_ORIENTATION (Orientation s));
    rationals true IFD_XRESOLUTION 1 [XResolution (pri_basic p)];
    rationals true IFD_YRESOLUTION 1 [YResolution (pri_basic p)];
    short_here true IFD_RESOLUTIONUNIT (ResolutionUnit (pri_basic p));
    on (data_char_ptr p) (fun c => shorts (v_TransferFunction (data_char_valid c)) IFD_TRANSFERFUNCTION (3 * 256) (TransferFunction c)) ].

Definition primary_blocks_2 (p : EXIF_PRIMARY_INFO_T) : list block :=
  let d := img_desc_ptr p in
  let c := data_char_ptr p in
  [ on d (fun d => ascii (v_Software (desc_valid d)) IFD_SOFTWARE (Software d));
    on d (fun d => bytes (v_DateTime (desc_valid d)) IFD_DATETIME IFD_ASCII 20 (DateTime d));
    on d (fun d => ascii (v_Artist (desc_valid d)) IFD_ARTIST (Artist d));
    on c (fun c => rationals (v_WhitePoint (data_char_valid c)) IFD_WHITEPOINT 2 (WhitePoint c));
    on c (fun c => rationals (v_PrimaryChromaticities (data_char_valid c)) IFD_PRIMARYCHROMATICITIES 6 (PrimaryChromaticities c)) ].

(** The position of the thumbnail is not known yet.  Width and length are longs that are
    written as shorts. *)
Definition primary_blocks_3 (p : EXIF_PRIMARY_INFO_T) (thumbnail : option (list Z * Z)) : list block :=
  let d := img_desc_ptr p in
  let c := data_char_ptr p in
  [ on thumbnail (fun _ => long true IFD_JPEGINTERCHANGEFORMAT 0);
    on thumbnail (fun t => long true IFD_JPEGINTERCHANGEFORMATLENGTH (snd t));
    on c (fun c => rationals (v_YCbCrCoefficients (data_char_valid c)) IFD_YCBCRCOEFFICIENTS 3 (YCbCrCoefficients c));
    shorts true IFD_YCBCRPOSITION 1 [YCbCrPositioning (pri_basic p)];
    mk_block true IFD_IMAGEWIDTH IFD_LONG (Done 1) None (mem_long (ImageWidth (pri_basic p))) WriteShort;
    mk_block true IFD_IMAGELENGTH IFD_LONG (Done 1) None (mem_long (ImageLength (pri_basic p))) WriteShort;
    on c (fun c => rationals (v_ReferenceBlackWhite (data_char_valid c)) IFD_REFERENCEBLACKWHITE 6 (ReferenceBlackWhite c));
    on d (fun d => ascii (v_Copyright (desc_valid d)) IFD_COPYRIGHT (Copyright d)) ].

(** The picture itself, and its position into the entry left for it. *)
Definition write_thumbnail (ifh_offset thumbnail_ifd_offset : Z) (t : list Z * Z) (s : ifd_state) : swriter (option ifd_state) :=
  let thumbnail_offset := u32 (ifd_value_offset s - ifh_offset) in
  let! _ := Jpeg_SetWritePos (ifd_value_offset s) in
  or_return (Jpeg_WriteBlock (Some (fst t)) (snd t)) None (
  let! v := Jpeg_GetWritePos in
  let! _ := Jpeg_SetWritePos thumbnail_ifd_offset in
  let! (ok, (_, v)) := Jpeg_WriteLongIFD
    (mk_ifd IFD_JPEGINTERCHANGEFORMAT IFD_LONG 1 (le_bytes 4 thumbnail_offset) (mem_long thumbnail_offset)) (thumbnail_ifd_offset, v) in
  sret (if ok then Some (mk_state (ifd_offset s) v (entries s)) else None)).

(** [thumbnail]: its bytes and its size, when the pointers are not null and the size is
    positive. *)
Definition Jpeg_WriteExifIFD (primary_ptr : EXIF_PRIMARY_INFO_T) (spec_ptr : option EXIF_SPECIFIC_INFO_T)
    (gps_ptr : option EXIF_GPS_INFO_T) (inter_ptr : option EXIF_INTEROPERABILITY_INFO_T) (thumbnail : option (list Z * Z))
    (is_next_ifd_exist : bool) (ifh_offset begin_offset : Z) : swriter (option Z) :=
  and_then (open_ifd begin_offset 24) (fun s =>
  and_then (write_blocks ifh_offset (primary_blocks_1 primary_ptr ++ primary_blocks_2 primary_ptr) s) (fun s =>
  let thumbnail_ifd_offset := ifd_offset s in
  and_then (write_blocks ifh_offset (primary_blocks_3 primary_ptr thumbnail) s) (fun s =>
  and_then
    (match spec_ptr with
     | Some spec => write_pointer ifh_offset IFD_EXIFIFDPOINTER (Jpeg_WriteExifSpecInfo spec inter_ptr ifh_offset) s
     | None => sret (Some s)
     end) (fun s =>
  and_then
    (match gps_ptr with
     | Some gps => write_pointer ifh_offset IFD_GPSIFDPOINTER (Jpeg_WriteExifGPSInfo gps ifh_offset) s
     | None => sret (Some s)
     end) (fun s =>
  and_then
    (match thumbnail with
     | Some t => write_thumbnail ifh_offset thumbnail_ifd_offset t s
     | None => sret (Some s)
     end) (fun s =>
  close_ifd begin_offset (if is_next_ifd_exist then u32 (ifd_value_offset s - ifh_offset) else 0) s)))))).

(** ** The segment *)
Inductive JPEG_RET_E := JPEG_SUCCESS | JPEGE_INVALID_ARGUMENT | JPEG_MEMORY_NOT_ENOUGH | JPEG_FAILED.

Definition EXIF_BIG_ENDIAN : Z := 0x4D4D.
Definition EXIF_IFH_FIX_VALUE : Z := 0x002a.
Definition M_MARKER : Z := 0xFF.
Definition M_APP1 : Z := 0xE1.

Definition Jpeg_WriteIFH (begin_offset : Z) : swriter (option Z) :=
  let! _ := Jpeg_SetWritePos begin_offset in
  or_return (Jpeg_WriteW EXIF_BIG_ENDIAN) None (
  or_return (Jpeg_WriteW EXIF_IFH_FIX_VALUE) None (
  or_return (Jpeg_WriteL 8) None (
  let! p := Jpeg_GetWritePos in sret (Some p)))).

Definition Jpeg_WriteSOIMarker (begin_offset : Z) : swriter (option Z) :=
  let! _ := Jpeg_SetWritePos begin_offset in
  or_return (Jpeg_WriteC M_MARKER) None (
  or_return (Jpeg_WriteC M_SOI) None (
  let! p := Jpeg_GetWritePos in sret (Some p))).

Definition exif_id : list Z := [69; 120; 105; 102; 0; 0].

Definition Jpeg_WriteAPP1Header (begin_offset app1_length : Z) : swriter (option Z) :=
  let! _ := Jpeg_SetWritePos begin_offset in
  or_return (Jpeg_WriteC M_MARKER) None (
  or_return (Jpeg_WriteC M_APP1) None (
  or_return (Jpeg_WriteW app1_length) None (
  or_return (write_bytes 6 exif_id 0) None (
  let! p := Jpeg_GetWritePos in sret (Some p))))).

(** What IFD1 says of the thumbnail. *)
Definition ifd1_primary : EXIF_PRIMARY_INFO_T :=
  mk_EXIF_PRIMARY_INFO_T (mk_EXIF_PRI_BASIC_T 1 (mk_EXIF_RATIONAL_T 72 1) (mk_EXIF_RATIONAL_T 72 1) 2 0 0)
    (Some (mk_EXIF_PRI_DATA_STRUCT_T (mk_EXIF_PRI_DATA_STRUCT_VALID_T true true) 1 6)) None None 0.

(** The two directories; the end of what they take. *)
Definition write_directories (exif : JINF_EXIF_INFO_T) (thumbnail : option (list Z * Z)) : swriter (option Z) :=
  and_then (Jpeg_WriteIFH 10) (fun begin_offset =>
  and_then
    (Jpeg_WriteExifIFD (primary exif) (spec_ptr exif) (gps_ptr exif) (inter_ptr exif) None
      (match thumbnail with Some _ => true | None => false end) 10 begin_offset) (fun begin_offset =>
  match thumbnail with
  | Some _ => Jpeg_WriteExifIFD ifd1_primary None None None thumbnail false 10 begin_offset
  | None => sret (Some begin_offset)
  end)).

(** [thumbnail_buf_ptr] and [thumbnail_size] make a thumbnail when neither is null.  The
    length is the low sixteen bits of the end. *)
Definition Jpeg_WriteAPP1 (target_buf : option (list Z)) (target_buf_size : Z) (exif_info_ptr : option JINF_EXIF_INFO_T)
    (thumbnail_buf_ptr : option (list Z)) (thumbnail_size : Z) : outcome (JPEG_RET_E * option (list Z) * Z) :=
  match exif_info_ptr, target_buf with
  | None, _ => Done (JPEGE_INVALID_ARGUMENT, target_buf, 0)
  | Some _, None => Done (JPEG_MEMORY_NOT_ENOUGH, target_buf, 0)
  | Some exif, Some buf =>
      if target_buf_size <? 10 then Done (JPEG_MEMORY_NOT_ENOUGH, target_buf, 0)
      else
        let context := mk_wctx (Some buf) target_buf_size (Some 0) None 0 [] in
        let thumbnail :=
          match thumbnail_buf_ptr with
          | Some t => if 0 <? thumbnail_size then Some (t, thumbnail_size) else None
          | None => None
          end in
        let* (stop, c) := write_directories exif thumbnail context in
        match stop with
        | None => Done (JPEG_FAILED, write_buf c, 0)
        | Some end_offset =>
            let app1_length := u16 (u16 end_offset - 2) in
            let* (ok, c) := Jpeg_WriteAPP1Header 0 app1_length c in
            Done (if ok then JPEG_SUCCESS else JPEG_FAILED, write_buf c, app1_length + 2)
        end
  end.
