(* ===== verification/ExifReader.v ===== *)
(** * A reader of EXIF data

    The reference the writer is checked against: the directories of TIFF 6.0 as EXIF 2.2
    uses them, in the big-endian order ("MM").  A value of at most four bytes is in the
    entry, a longer one at its position from the header of the directories.

    The second half is the relation between a buffer and the entries in it that the
    proofs about the writer use. *)

From S2P Require Import Prelude ExifTypes ExifStream ExifWriter.

(** ** Entries *)
Record entry := mk_entry {
  e_tag : Z;
  e_type : Z;
  e_values : list Z
}.

(** Bytes of a word and words of an item. *)
Definition shape (t : Z) : option (nat * nat) :=
  if (t =? IFD_BYTE) || (t =? IFD_ASCII) || (t =? IFD_UNDEFINED) then Some (1%nat, 1%nat)
  else if t =? IFD_SHORT then Some (2%nat, 1%nat)
  else if (t =? IFD_LONG) || (t =? IFD_SLONG) then Some (4%nat, 1%nat)
  else if (t =? IFD_RATIONAL) || (t =? IFD_SRATIONAL) then Some (4%nat, 2%nat)
  else None.

Definition signed (t : Z) (x : Z) : Z := if (t =? IFD_SLONG) || (t =? IFD_SRATIONAL) then s32 x else x.

(** [n] words of [u] bytes. *)
Fixpoint words (val : list Z -> Z) (n u : nat) (l : list Z) : list Z :=
  match n with
  | O => []
  | S n => val (take u l) :: words val n u (drop u l)
  end.

Definition get (b : list Z) (off n : Z) : option (list Z) := match slice b off n with Done l => Some l | _ => None end.
Definition get_word (b : list Z) (off n : Z) : option Z := be_val <$> get b off n.

Definition read_entry (b : list Z) (ifh slot : Z) : option entry :=
  t ← get_word b slot 2;
  ty ← get_word b (slot + 2) 2;
  n ← get_word b (slot + 4) 4;
  v ← get b (slot + 8) 4;
  '(u, k) ← shape ty;
  let size := n * Z.of_nat (u * k) in
  data ← if size <=? 4 then get v 0 size else get b (ifh + be_val v) size;
  Some (mk_entry t ty (signed ty <$> words be_val (Z.to_nat n * k) u data)).

Fixpoint read_entries (b : list Z) (ifh : Z) (n : nat) (slot : Z) : option (list entry) :=
  match n with
  | O => Some []
  | S n =>
      e ← read_entry b ifh slot;
      es ← read_entries b ifh n (slot + 12);
      Some (e :: es)
  end.

(** ** Directories *)

(** The entries and the position of the next directory. *)
Definition read_ifd (b : list Z) (ifh off : Z) : option (list entry * Z) :=
  n ← get_word b off 2;
  es ← read_entries b ifh (Z.to_nat n) (off + 2);
  next ← get_word b (off + 2 + 12 * n) 4;
  Some (es, next).

(** The value of a tag, and the entries without it. *)
Definition has_tag (t : Z) (e : entry) : bool := e_tag e =? t.
Definition find_tag (t : Z) (es : list entry) : option Z := e ← list_find (has_tag t) es; head (e_values (snd e)).
Definition drop_tag (t : Z) (es : list entry) : list entry := filter (fun e => negb (has_tag t e)) es.

(** The directory a tag points to, if the tag is there. *)
Definition read_sub (b : list Z) (ifh t : Z) (es : list entry) : option (option (list entry)) :=
  match find_tag t es with
  | None => Some None
  | Some v => d ← read_ifd b ifh (ifh + v); Some (Some (fst d))
  end.

(** What EXIF data says. *)
Record exif_data := mk_data {
  ifd0 : list entry;
  exif_ifd : option (list entry);
  inter_ifd : option (list entry);
  gps_ifd : option (list entry);
  ifd1 : option (list entry * list Z)
}.

(** A thumbnail is where its two tags say. *)
Definition read_thumbnail (b : list Z) (ifh : Z) (es : list entry) : option (list Z) :=
  off ← find_tag IFD_JPEGINTERCHANGEFORMAT es;
  n ← find_tag IFD_JPEGINTERCHANGEFORMATLENGTH es;
  get b (ifh + off) n.

Definition read_tiff (b : list Z) (ifh : Z) : option exif_data :=
  order ← get_word b ifh 2;
  fix_value ← get_word b (ifh + 2) 2;
  off ← get_word b (ifh + 4) 4;
  if (order =? 0x4D4D) && (fix_value =? 42) then
    d0 ← read_ifd b ifh (ifh + off);
    let es := fst d0 in
    ex ← read_sub b ifh IFD_EXIFIFDPOINTER es;
    gp ← read_sub b ifh IFD_GPSIFDPOINTER es;
    it ← match ex with Some xs => read_sub b ifh IFD_INTEROPERABILITYIFDPOINTER xs | None => Some None end;
    d1 ← (if snd d0 =? 0 then Some None
          else d ← read_ifd b ifh (ifh + snd d0);
               t ← read_thumbnail b ifh (fst d);
               Some (Some (drop_tag IFD_JPEGINTERCHANGEFORMAT (fst d), t)));
    Some (mk_data (drop_tag IFD_EXIFIFDPOINTER (drop_tag IFD_GPSIFDPOINTER es))
      (drop_tag IFD_INTEROPERABILITYIFDPOINTER <$> ex) it gp d1)
  else None.

(** An APP1 segment: marker, length, identifier and directories. *)
Definition read_app1 (seg : list Z) : option exif_data :=
  h ← get seg 0 10;
  if decide (h = [0xFF; 0xE1] ++ be_bytes 2 (zlen seg - 2) ++ [69; 120; 105; 102; 0; 0]) then read_tiff seg 10 else None.

(** * Entries in a buffer *)

(** ** Words *)
Lemma words_take val n u l : words val n u (take (n * u) l) = words val n u l.
Proof.
  revert l. induction n as [|n IH]; intros l; cbn [words]; [done|]. rewrite take_take, Nat.min_l by lia. f_equal.
  rewrite <- IH. rewrite <- (IH (drop u l)). by rewrite skipn_firstn_comm, take_take, Nat.min_l by lia.
Qed.

Lemma length_words val n u l : length (words val n u l) = n.
Proof. revert l. induction n; intros; cbn; auto. Qed.

(** Words written in one order and read in another. *)
Lemma words_be n u l : Forall byte_ok l -> (n * u <= length l)%nat -> words be_val n u (concat (be_bytes u <$> words le_val n u l)) = words le_val n u l.
Proof.
  intros Hb. revert l Hb. induction n as [|n IH]; intros l Hb Hl; cbn [words]; [done|]. cbn [fmap list_fmap concat].
  rewrite take_app_length', drop_app_length' by (by rewrite length_be_bytes). f_equal.
  - apply be_val_be_bytes. assert (length (take u l) = u) as E by (rewrite length_take; lia).
    pose proof (le_val_range (take u l) (Forall_take _ _ _ Hb)) as Hr. unfold zlen in Hr. by rewrite E in Hr.
  - apply IH; [by apply Forall_drop|]. rewrite length_drop. lia.
Qed.

Lemma length_concat_be u l : length (concat (be_bytes u <$> l)) = (length l * u)%nat.
Proof. induction l; cbn; [done|]. rewrite length_app, length_be_bytes. cbn in IHl. lia. Qed.

Lemma words_le u ws : Forall (fun x => 0 <= x < 256 ^ Z.of_nat u) ws -> words le_val (length ws) u (concat (le_bytes u <$> ws)) = ws.
Proof.
  induction 1 as [|x ws Hx _ IH]; cbn [words length]; [done|]. cbn [fmap list_fmap concat].
  rewrite take_app_length', drop_app_length' by (by rewrite length_le_bytes). f_equal; [|exact IH].
  rewrite le_val_le_bytes. by apply Z.mod_small.
Qed.

Lemma words_bytes n l : (n <= length l)%nat -> words le_val n 1 l = take n l.
Proof.
  revert l. induction n as [|n IH]; intros [|x l] Hl; cbn [length] in Hl; [done..|lia|].
  cbn [words]. change (drop 1 (x :: l)) with l. change (take 1 (x :: l)) with [x]. rewrite IH by lia. cbn [le_val firstn]. f_equal. lia.
Qed.

(** ** Reading what is there *)
Lemma get_bytes_at b off bs n : bytes_at b off bs -> zlen bs = n -> get b off n = Some bs.
Proof. unfold bytes_at, get. by intros H <-; rewrite H. Qed.

Lemma get_word_at b off n m x :
  bytes_at b off (be_bytes n x) -> Z.of_nat n = m -> 0 <= x < 256 ^ m -> get_word b off m = Some x.
Proof.
  intros H <- Hx. unfold get_word. rewrite (get_bytes_at _ _ _ _ H) by apply zlen_be_bytes. cbn.
  by rewrite be_val_be_bytes.
Qed.

(** The twelve bytes of an entry. *)
Definition head_bytes (t ty n : Z) (v : list Z) : list Z := be_bytes 2 t ++ be_bytes 2 ty ++ be_bytes 4 n ++ v.

Lemma zlen_head_bytes t ty n v : zlen v = 4 -> zlen (head_bytes t ty n v) = 12.
Proof. intros Hv. unfold head_bytes. rewrite !zlen_app, !zlen_be_bytes, Hv. done. Qed.

(** The entry [e] is in the buffer at [slot], its value in the entry or within
    [lo .. hi]. *)
Definition stored (b : list Z) (ifh lo hi slot : Z) (e : entry) : Prop :=
  exists n v u k, zlen v = 4 /\ 0 <= e_tag e < 65536 /\ 0 <= e_type e < 65536 /\ u32_ok n /\ shape (e_type e) = Some (u, k) /\
    bytes_at b slot (head_bytes (e_tag e) (e_type e) n v) /\
    let size := n * Z.of_nat (u * k) in
    exists data, e_values e = signed (e_type e) <$> words be_val (Z.to_nat n * k) u data /\
      if size <=? 4 then get v 0 size = Some data
      else zlen data = size /\ bytes_at b (ifh + be_val v) data /\ lo <= ifh + be_val v /\ ifh + be_val v + size <= hi.

Lemma stored_read b ifh lo hi slot e : stored b ifh lo hi slot e -> read_entry b ifh slot = Some e.
Proof.
  intros (n & v & u & k & Lv & Ht & Hy & Hn & Hs & H & data & Ed & Hd). unfold head_bytes in H.
  rewrite !bytes_at_app, !zlen_be_bytes in H. destruct H as (H1 & H2 & H3 & H4).
  replace (slot + Z.of_nat 2 + Z.of_nat 2) with (slot + 4) in * by lia. replace (slot + 4 + Z.of_nat 4) with (slot + 8) in * by lia.
  change (Z.of_nat 2) with 2 in *.
  unfold read_entry. rewrite (get_word_at _ _ 2 2 _ H1 eq_refl) by done. cbn [mbind option_bind].
  rewrite (get_word_at _ _ 2 2 _ H2 eq_refl) by done. cbn [mbind option_bind].
  rewrite (get_word_at _ _ 4 4 _ H3 eq_refl) by done. cbn [mbind option_bind].
  rewrite (get_bytes_at _ _ _ _ H4) by done. cbn [mbind option_bind]. rewrite Hs. cbn [mbind option_bind].
  destruct (n * Z.of_nat (u * k) <=? 4).
  - rewrite Hd. cbn [mbind option_bind]. rewrite <- Ed. by destruct e.
  - destruct Hd as (Ld & Hd & _). rewrite (get_bytes_at _ _ _ _ Hd) by done. cbn [mbind option_bind]. rewrite <- Ed. by destruct e.
Qed.

Lemma stored_frame (P : Z -> Prop) b b' ifh lo hi hi' slot e :
  stored b ifh lo hi slot e -> frame P b b' -> hi <= hi' ->
  (forall i, slot <= i < slot + 12 \/ lo <= i < hi -> ~ P i) -> stored b' ifh lo hi' slot e.
Proof.
  intros (n & v & u & k & Lv & Ht & Hy & Hn & Hs & H & data & Ed & Hd) F Hh HP.
  exists n, v, u, k. do 5 (split; [done|]). split.
  { eapply bytes_at_frame; [done..|]. intros i. rewrite zlen_head_bytes by done. intros. apply HP. lia. }
  exists data. split; [done|]. destruct (_ <=? 4); [done|]. destruct Hd as (Ld & Hd & Hl & Hr). split_and!; [done| |lia|lia].
  eapply bytes_at_frame; [done..|]. intros i. rewrite Ld. intros. apply HP. lia.
Qed.

(** ** A directory in a buffer *)
Definition entries_at (b : list Z) (ifh lo hi slot : Z) (es : list entry) : Prop :=
  forall j e, es !! j = Some e -> stored b ifh lo hi (slot + 12 * Z.of_nat j) e.

Lemma entries_read b ifh lo hi slot es : entries_at b ifh lo hi slot es -> read_entries b ifh (length es) slot = Some es.
Proof.
  revert slot. induction es as [|e es IH]; intros slot H; cbn [read_entries length]; [done|].
  pose proof (H 0%nat e eq_refl) as H0. rewrite Z.mul_0_r, Z.add_0_r in H0. rewrite (stored_read _ _ _ _ _ _ H0). cbn [mbind option_bind].
  rewrite IH; [done|]. intros j e' Hj. replace (slot + 12 + 12 * Z.of_nat j) with (slot + 12 * Z.of_nat (S j)) by lia. by apply H.
Qed.

(** A whole directory within [off .. hi]. *)
Definition ifd_at (b : list Z) (ifh off hi : Z) (es : list entry) (next : Z) : Prop :=
  exists lo, 0 <= off /\ zlen es < 65536 /\ u32_ok next /\ off + 6 + 12 * zlen es <= lo <= hi /\
    bytes_at b off (be_bytes 2 (zlen es)) /\ entries_at b ifh lo hi (off + 2) es /\
    bytes_at b (off + 2 + 12 * zlen es) (be_bytes 4 next).

Lemma ifd_read b ifh off hi es next : ifd_at b ifh off hi es next -> read_ifd b ifh off = Some (es, next).
Proof.
  intros (lo & Ho & Hn & Hx & Hl & H1 & H2 & H3). unfold read_ifd.
  rewrite (get_word_at _ _ 2 2 _ H1 eq_refl) by (pose proof (zlen_nonneg es); lia). cbn [mbind option_bind].
  replace (Z.to_nat (zlen es)) with (length es) by (unfold zlen; lia). rewrite (entries_read _ _ _ _ _ _ H2). cbn [mbind option_bind].
  by rewrite (get_word_at _ _ 4 4 _ H3 eq_refl) by done.
Qed.

Lemma ifd_frame (P : Z -> Prop) b b' ifh off hi es next :
  ifd_at b ifh off hi es next -> frame P b b' -> (forall i, off <= i < hi -> ~ P i) -> ifd_at b' ifh off hi es next.
Proof.
  intros (lo & Ho & Hn & Hx & Hl & H1 & H2 & H3) F HP. exists lo. split_and!; try done; try lia.
  - eapply bytes_at_frame; [done..|]. intros i. rewrite zlen_be_bytes. intros. apply HP. pose proof (zlen_nonneg es). lia.
  - intros j e Hj. pose proof (H2 j e Hj) as Hs. apply lookup_lt_Some in Hj as Hlt. eapply stored_frame; [done..|].
    intros i Hi. apply HP. unfold zlen in *. lia.
  - eapply bytes_at_frame; [done..|]. intros i. rewrite zlen_be_bytes. intros. apply HP. pose proof (zlen_nonneg es). lia.
Qed.

(** ** A buffer cut off behind a directory *)
Lemma bytes_at_take b off bs n : bytes_at b off bs -> off + zlen bs <= n -> bytes_at (take (Z.to_nat n) b) off bs.
Proof.
  intros (H1 & H2 & H3)%bytes_at_lookup Hn. apply bytes_at_lookup. unfold zlen in *. rewrite length_take. split_and!; [done|lia|].
  intros i Hi. rewrite lookup_take_lt by lia. by apply H3.
Qed.

Lemma stored_take b ifh lo hi slot e n :
  stored b ifh lo hi slot e -> slot + 12 <= n -> hi <= n -> stored (take (Z.to_nat n) b) ifh lo hi slot e.
Proof.
  intros (c & v & u & k & Lv & Ht & Hy & Hn & Hs & H & data & Ed & Hd) Hl Hh.
  exists c, v, u, k. do 5 (split; [done|]). split; [apply bytes_at_take; [done|]; rewrite zlen_head_bytes by done; lia|].
  exists data. split; [done|]. destruct (_ <=? 4); [done|]. destruct Hd as (Ld & Hd & Hlo & Hr). split_and!; [done| |lia|lia].
  apply bytes_at_take; [done|lia].
Qed.

Lemma ifd_take b ifh off hi es next n : ifd_at b ifh off hi es next -> hi <= n -> ifd_at (take (Z.to_nat n) b) ifh off hi es next.
Proof.
  intros (lo & Ho & Hn & Hx & Hl & H1 & H2 & H3) Hh. exists lo. pose proof (zlen_nonneg es). split_and!; try done; try lia.
  - apply bytes_at_take; [done|]. rewrite zlen_be_bytes. lia.
  - intros j e Hj. pose proof (H2 j e Hj) as Hs. apply lookup_lt_Some in Hj as Hlt. unfold zlen in *. apply stored_take; [done|lia|lia].
  - apply bytes_at_take; [done|]. rewrite zlen_be_bytes. lia.
Qed.

(** ** Tags *)
Definition clean (t : Z) (es : list entry) : Prop := Forall (fun e => has_tag t e = false) es.

Lemma find_tag_clean t es rest : clean t es -> find_tag t (es ++ rest) = find_tag t rest.
Proof.
  induction 1 as [|e es He _ IH]; [done|]. rewrite <- IH. unfold find_tag. cbn [app list_find]. rewrite decide_False by (by rewrite He; intros []).
  by destruct (list_find (has_tag t) (es ++ rest)) as [[? ?]|].
Qed.

Lemma find_tag_hit t ty x vals es : find_tag t (mk_entry t ty (x :: vals) :: es) = Some x.
Proof. unfold find_tag. cbn [list_find]. unfold has_tag. cbn [e_tag]. rewrite Z.eqb_refl. done. Qed.

Lemma drop_tag_app t es1 es2 : drop_tag t (es1 ++ es2) = drop_tag t es1 ++ drop_tag t es2.
Proof. apply list.filter_app. Qed.

Lemma drop_tag_clean t es : clean t es -> drop_tag t es = es.
Proof.
  induction 1 as [|e es He _ IH]; [done|]. unfold drop_tag in *. rewrite filter_cons_True by (by rewrite He). by rewrite IH.
Qed.

Lemma drop_tag_hit t ty vals es : drop_tag t (mk_entry t ty vals :: es) = drop_tag t es.
Proof. unfold drop_tag. rewrite filter_cons_False; [done|]. unfold has_tag. cbn [e_tag]. rewrite Z.eqb_refl. auto. Qed.
