(* ===== verification/ExifDirectory.v ===== *)
(** * What the EXIF writer leaves in the buffer

    Entry by entry and directory by directory: the writers of ExifWriter store, in the
    sense of ExifReader, the entries that the fields describe, and change no byte outside
    the entry, the values and the directories they write. *)

From S2P Require Import Prelude ExifTypes ExifStream ExifWriter ExifReader.

(** ** Encodings *)
Lemma le_bytes_le_val l : Forall byte_ok l -> le_bytes (length l) (le_val l) = l.
Proof.
  induction 1 as [|x l Hx _ IH]; cbn [length le_bytes le_val]; [done|]. unfold byte_ok in Hx.
  rewrite Z.mul_comm, Z_mod_plus_full, Z.mod_small by lia. f_equal. rewrite Z.div_add, Z.div_small by lia. exact IH.
Qed.

Lemma be_bytes_be_val l n : Forall byte_ok l -> length l = n -> be_bytes n (be_val l) = l.
Proof.
  intros Hl <-. unfold be_bytes, be_val. rewrite <- (length_rev l), le_bytes_le_val by (by apply Forall_rev). apply rev_involutive.
Qed.

(** Shifting bytes together is reading them as a big-endian number. *)
Lemma shift_or x y n : 0 <= n -> 0 <= y < 2 ^ n -> Z.lor (Z.shiftl x n) y = x * 2 ^ n + y.
Proof. intros. rewrite Z.shiftl_mul_pow2, Z.lor_comm, lor_disjoint by lia. lia. Qed.

Lemma word_of_bytes b0 b1 b2 b3 :
  byte_ok b0 -> byte_ok b1 -> byte_ok b2 -> byte_ok b3 ->
  be_bytes 4 (u32 (Z.lor (Z.lor (Z.lor (Z.shiftl b0 24) (Z.shiftl b1 16)) (Z.shiftl b2 8)) b3)) = [b0; b1; b2; b3].
Proof.
  unfold byte_ok. intros H0 H1 H2 H3.
  assert (Z.lor (Z.lor (Z.lor (Z.shiftl b0 24) (Z.shiftl b1 16)) (Z.shiftl b2 8)) b3 = be_val [b0; b1; b2; b3]) as ->.
  { replace (Z.shiftl b0 24) with (Z.shiftl (Z.shiftl b0 8) 16) by (by rewrite Z.shiftl_shiftl).
    rewrite <- Z.shiftl_lor, (shift_or b0 b1) by lia.
    replace (Z.shiftl _ 16) with (Z.shiftl (Z.shiftl (b0 * 2 ^ 8 + b1) 8) 8) by (by rewrite Z.shiftl_shiftl).
    rewrite <- Z.shiftl_lor, (shift_or _ b2), shift_or by lia. unfold be_val. cbn [rev app le_val]. lia. }
  rewrite u32_small; [|unfold u32_ok, be_val; cbn [rev app le_val]; lia].
  apply be_bytes_be_val; [|done]. repeat constructor; unfold byte_ok; lia.
Qed.

Lemma two_shorts s0 s1 :
  0 <= s0 < 65536 -> 0 <= s1 < 65536 -> be_bytes 4 (u32 (Z.lor (Z.shiftl s0 16) s1)) = be_bytes 2 s0 ++ be_bytes 2 s1.
Proof.
  intros H0 H1. rewrite shift_or by lia. rewrite u32_small by (unfold u32_ok; lia).
  unfold be_bytes. cbn [le_bytes rev app]. rewrite !Z.div_div by lia.
  repeat (f_equal; [Z.to_euclidean_division_equations; lia|]). f_equal. Z.to_euclidean_division_equations. lia.
Qed.

Lemma words_be_bytes n l : (n <= length l)%nat -> words be_val n 1 l = take n l.
Proof.
  revert l. induction n as [|n IH]; intros [|x l] Hl; cbn [length] in Hl; [done..|lia|].
  cbn [words]. change (drop 1 (x :: l)) with l. change (take 1 (x :: l)) with [x]. rewrite IH by lia.
  unfold be_val. cbn [rev app le_val firstn]. f_equal. lia.
Qed.

Lemma JPEG_ALIGN_4_ge x : 0 <= x < 2 ^ 32 - 3 -> x <= JPEG_ALIGN_4 x <= x + 3.
Proof.
  intros Hx. unfold JPEG_ALIGN_4. rewrite (u32_small (x + 3)) by (unfold u32_ok; lia).
  rewrite Z.shiftr_div_pow2, Z.shiftl_mul_pow2 by lia. change (2 ^ 2) with 4.
  rewrite u32_small; [|unfold u32_ok]; Z.to_euclidean_division_equations; lia.
Qed.

(** ** Values *)
Lemma emits_lift {A B} (m : outcome A) (k : A -> swriter B) a c y :
  m = Done a -> emits (k a) c y -> emits (sbind (slift m) k) c y.
Proof. intros ->. done. Qed.

Lemma slice_word {A} (ptr : list A) u i :
  (0 < u)%nat -> 0 <= i -> (Z.of_nat u) * (i + 1) <= zlen ptr ->
  slice ptr (Z.of_nat u * i) (Z.of_nat u) = Done (take u (drop (u * Z.to_nat i) ptr)).
Proof.
  intros Hu Hi Hl. rewrite slice_in by nia. rewrite Nat2Z.id. do 3 f_equal. lia.
Qed.

Lemma get_long_at ptr i : 0 <= i -> 4 * (i + 1) <= zlen ptr -> get_long ptr i = Done (le_val (take 4 (drop (4 * Z.to_nat i) ptr))).
Proof. intros Hi Hl. unfold get_long. pose proof (slice_word ptr 4 i) as H. cbv [Z.of_nat Pos.of_succ_nat Pos.succ] in H. by rewrite H by lia. Qed.

Lemma get_short_at ptr i : 0 <= i -> 2 * (i + 1) <= zlen ptr -> get_short ptr i = Done (le_val (take 2 (drop (2 * Z.to_nat i) ptr))).
Proof. intros Hi Hl. unfold get_short. pose proof (slice_word ptr 2 i) as H. cbv [Z.of_nat Pos.of_succ_nat Pos.succ] in H. by rewrite H by lia. Qed.

Lemma write_longs_emits n ptr i :
  0 <= i -> 4 * (i + Z.of_nat n) <= zlen ptr ->
  emits (write_longs n ptr i) true (concat (be_bytes 4 <$> words le_val n 4 (drop (4 * Z.to_nat i) ptr))).
Proof.
  revert i. induction n as [|n IH]; intros i Hi Hl; cbn [write_longs words fmap list_fmap concat]; [apply emits_ret|].
  eapply emits_lift; [apply get_long_at; lia|].
  apply emits_or_return; [apply WriteL_emits|]. rewrite drop_drop.
  replace (4 * Z.to_nat i + 4)%nat with (4 * Z.to_nat (i + 1))%nat by lia. apply IH; lia.
Qed.

Lemma write_rationals_emits n ptr i :
  0 <= i -> 8 * (i + Z.of_nat n) <= zlen ptr ->
  emits (write_rationals n ptr i) true (concat (be_bytes 4 <$> words le_val (2 * n) 4 (drop (8 * Z.to_nat i) ptr))).
Proof.
  revert i. induction n as [|n IH]; intros i Hi Hl; [apply emits_ret|]. cbn [write_rationals].
  replace (2 * S n)%nat with (S (S (2 * n))) by lia. cbn [words fmap list_fmap concat]. rewrite !drop_drop.
  eapply emits_lift; [apply get_long_at; lia|].
  replace (4 * Z.to_nat (2 * i))%nat with (8 * Z.to_nat i)%nat by lia.
  apply emits_or_return; [apply WriteL_emits|].
  eapply emits_lift; [apply get_long_at; lia|].
  replace (4 * Z.to_nat (2 * i + 1))%nat with (8 * Z.to_nat i + 4)%nat by lia.
  apply emits_or_return; [apply WriteL_emits|].
  replace (8 * Z.to_nat i + 4 + 4)%nat with (8 * Z.to_nat (i + 1))%nat by lia. apply IH; lia.
Qed.

Lemma write_shorts_emits n ptr i :
  0 <= i -> 2 * (i + Z.of_nat n) <= zlen ptr ->
  emits (write_shorts n ptr i) true (concat (be_bytes 2 <$> words le_val n 2 (drop (2 * Z.to_nat i) ptr))).
Proof.
  revert i. induction n as [|n IH]; intros i Hi Hl; cbn [write_shorts words fmap list_fmap concat]; [apply emits_ret|].
  eapply emits_lift; [apply get_short_at; lia|].
  apply emits_or_return; [apply WriteW_emits|]. rewrite drop_drop.
  replace (2 * Z.to_nat i + 2)%nat with (2 * Z.to_nat (i + 1))%nat by lia. apply IH; lia.
Qed.

Lemma copy_bytes_all n ptr pre rest i :
  zlen pre = i -> (n <= length rest)%nat -> i + Z.of_nat n <= zlen ptr ->
  copy_bytes n ptr (pre ++ rest) i = Done (pre ++ take n (drop (Z.to_nat i) ptr) ++ drop n rest).
Proof.
  revert pre rest i. induction n as [|n IH]; intros pre rest i Hp Hr Hl; cbn [copy_bytes]; [by rewrite drop_0|].
  pose proof (zlen_nonneg pre). destruct rest as [|x rest]; cbn [length] in Hr; [lia|].
  destruct (rd_lt ptr i) as (v & Hv & Hk); [lia|]. rewrite Hv. cbn [obind]. rewrite wr_app by done. cbn [obind].
  replace (pre ++ v :: rest) with ((pre ++ [v]) ++ rest) by (by rewrite <- app_assoc).
  rewrite IH; [|rewrite zlen_app, zlen_cons, zlen_nil; lia|lia|lia]. rewrite (drop_S _ v (Z.to_nat i)) by done.
  rewrite <- app_assoc. cbn [app take drop]. by replace (Z.to_nat (i + 1)) with (S (Z.to_nat i)) by lia.
Qed.

(** ** The halves of a writer *)
Lemma WriteIFD_emits i w : offset_value i = Done w -> emits (Jpeg_WriteIFD i) true (head_bytes (tag i) (type i) (count i) (be_bytes 4 w)).
Proof.
  intros Hw. unfold Jpeg_WriteIFD, head_bytes.
  apply emits_or_return; [apply WriteW_emits|]. apply emits_or_return; [apply WriteW_emits|].
  apply emits_or_return; [apply WriteL_emits|]. eapply emits_lift; [done|].
  rewrite <- (app_nil_r (be_bytes 4 w)). apply emits_or_return; [apply WriteL_emits|apply emits_ret].
Qed.

Lemma write_head_at {A} i off (e : A) k b p w :
  offset_value i = Done w -> 0 <= off -> off + 12 <= zlen b ->
  exists b', write_head i off e k (mem b p) = k (off + 12) (mem b' (off + 12)) /\
    bytes_at b' off (head_bytes (tag i) (type i) (count i) (be_bytes 4 w)) /\ frame (range off (off + 12)) b b'.
Proof.
  intros Hw Ho Hl. pose proof (WriteIFD_emits i w Hw b off Ho) as H.
  rewrite zlen_head_bytes in H by apply zlen_be_bytes. destruct (H Hl) as (b' & S & E). exists b'.
  pose proof (splice_frame _ _ _ _ S) as F. rewrite zlen_head_bytes in F by apply zlen_be_bytes.
  pose proof (frame_zlen _ _ _ F) as L. split; [|split; [by eapply splice_bytes_at|done]].
  unfold write_head, or_return, sbind. rewrite SetWritePos_mem by lia. cbn [obind]. rewrite E. cbn [obind].
  rewrite GetWritePos_mem by lia. done.
Qed.

Lemma write_values_at m data o ifd err b p :
  emits m true data -> 0 <= snd o -> snd o + zlen data <= zlen b ->
  exists b', write_values m o ifd err (mem b p) = Done ((true, (ifd, JPEG_ALIGN_4 (snd o + zlen data))), mem b' (snd o + zlen data)) /\
    bytes_at b' (snd o) data /\ frame (range (snd o) (snd o + zlen data)) b b'.
Proof.
  intros Hm Ho Hl. pose proof (zlen_nonneg data). destruct (Hm b (snd o) Ho Hl) as (b' & S & E). exists b'.
  pose proof (splice_frame _ _ _ _ S) as F. pose proof (frame_zlen _ _ _ F) as L.
  split; [|split; [by eapply splice_bytes_at|done]].
  unfold write_values, or_return, sbind. rewrite SetWritePos_mem by lia. cbn [obind]. rewrite E. cbn [obind].
  rewrite GetWritePos_mem by lia. done.
Qed.

(** ** Writers of entries *)

(** The values a writer makes of the memory of a field. *)
Definition fits (w : ifd_writer) (ty n : Z) (value vals : list Z) : Prop :=
  match w with
  | WriteRational => (ty = IFD_RATIONAL \/ ty = IFD_SRATIONAL) /\ 1 <= n /\ 8 * n <= zlen value /\
      vals = signed ty <$> words le_val (2 * Z.to_nat n) 4 value
  | WriteLong => ty = IFD_LONG /\ n = 1 /\ 4 <= zlen value /\ vals = words le_val 1 4 value
  | WriteShort =>
      (ty = IFD_SHORT /\ 1 <= n /\ 2 * n <= zlen value /\ vals = words le_val (Z.to_nat n) 2 value) \/
      (ty = IFD_LONG /\ n = 1 /\ 2 <= zlen value /\ vals = words le_val 1 2 value)
  | WriteByte => (ty = IFD_BYTE \/ ty = IFD_ASCII \/ ty = IFD_UNDEFINED) /\ 1 <= n <= zlen value /\ vals = take (Z.to_nat n) value
  end.

(** The bytes of the values of an entry. *)
Definition value_size (ty : Z) (vals : list Z) : Z :=
  match shape ty with Some (u, _) => Z.of_nat u * zlen vals | None => 0 end.

(** The room they need after the directory. *)
Definition cost (e : entry) : Z :=
  let size := value_size (e_type e) (e_values e) in if size <=? 4 then 0 else size + 3.

Lemma cost_nonneg e : 0 <= cost e.
Proof.
  unfold cost, value_size. cif; [lia|]. destruct (shape (e_type e)) as [[u k]|]; [|lia]. pose proof (zlen_nonneg (e_values e)). lia.
Qed.

Section entry.
Context (ifh lo o v p : Z) (b : list Z).
Hypotheses (Ho : 0 <= o) (Hlo : o + 12 <= lo) (Hv : lo <= v) (Hi : 0 <= ifh <= v) (Hb : zlen b < 2 ^ 32 - 3).

(** What a call that ends in the outcome [r] has stored. *)
Definition stores (r : outcome ((bool * offsets) * JPEG_WRITE_STREAM_CONTEXT_T)) (room : Z) (e : entry) : Prop :=
  exists b' p' v', r = Done ((true, (o + 12, v')), mem b' p') /\ v <= v' <= v + room /\
    stored b' ifh lo v' o e /\ frame (fun x => range o (o + 12) x \/ range v v' x) b b'.

(** Values after the directory. *)
Lemma stores_far i m err (e : bool * offsets) u k data :
  get_long (value_offset i) 0 = Done (v - ifh) -> offset_value i = get_long (value_offset i) 0 ->
  0 <= tag i < 65536 -> 0 <= type i < 65536 -> shape (type i) = Some (u, k) -> 0 <= count i -> 4 < count i * Z.of_nat (u * k) ->
  emits m true data -> zlen data = count i * Z.of_nat (u * k) -> v + zlen data + 3 <= zlen b ->
  stores (write_head i o e (fun off => write_values m (o, v) off err) (mem b p)) (zlen data + 3)
    (mk_entry (tag i) (type i) (signed (type i) <$> words be_val (Z.to_nat (count i) * k) u data)).
Proof.
  intros Hw Ew Ht Hy Hs Hc Hz Hm Hd Hl. rewrite Hw in Ew.
  destruct (write_head_at i o e (fun off => write_values m (o, v) off err) b p _ Ew Ho) as (b1 & E1 & B1 & F1); [lia|].
  pose proof (frame_zlen _ _ _ F1) as L1.
  destruct (write_values_at m data (o, v) (o + 12) err b1 (o + 12) Hm) as (b2 & E2 & B2 & F2); [cbn; lia|cbn; lia|]. cbn [snd] in *.
  pose proof (JPEG_ALIGN_4_ge (v + zlen data)) as Ha. pose proof (zlen_nonneg data).
  exists b2, (v + zlen data), (JPEG_ALIGN_4 (v + zlen data)). split; [by rewrite E1, E2|]. split; [lia|].
  assert (0 < Z.of_nat (u * k)) by (destruct (u * k)%nat; lia).
  assert (u32_ok (count i)) as Hn by (unfold u32_ok; nia). split.
  - exists (count i), (be_bytes 4 (v - ifh)), u, k. cbn [e_tag e_type e_values]. do 5 (split; [done|]). split.
    { eapply bytes_at_frame; [done..|]. intros x. rewrite zlen_head_bytes by done. unfold range. lia. }
    exists data. split; [done|]. guard_false (count i * Z.of_nat (u * k) <=? 4).
    rewrite be_val_be_bytes by (change (256 ^ Z.of_nat 4) with (2 ^ 32); lia). replace (ifh + (v - ifh)) with v by lia.
    split_and!; [done|done|lia|lia].
  - eapply frame_trans; [done..|]. unfold range. lia.
Qed.

(** A value in the entry. *)
Lemma stores_near i w (e : bool * offsets) u k data :
  offset_value i = Done w -> 0 <= tag i < 65536 -> 0 <= type i < 65536 -> shape (type i) = Some (u, k) -> 0 <= count i < 2 ^ 32 ->
  count i * Z.of_nat (u * k) <= 4 -> get (be_bytes 4 w) 0 (count i * Z.of_nat (u * k)) = Some data -> v <= zlen b ->
  stores (write_head i o e (fun off => sret (true, (off, v))) (mem b p)) 0
    (mk_entry (tag i) (type i) (signed (type i) <$> words be_val (Z.to_nat (count i) * k) u data)).
Proof.
  intros Ew Ht Hy Hs Hc Hz Hd Hl.
  destruct (write_head_at i o e (fun off => sret (true, (off, v))) b p _ Ew Ho) as (b1 & E1 & B1 & F1); [lia|].
  exists b1, (o + 12), v. split; [by rewrite E1|]. split; [lia|]. split.
  - exists (count i), (be_bytes 4 w), u, k. cbn [e_tag e_type e_values]. do 6 (split; [done|]). exists data. split; [done|].
    by guard_true (count i * Z.of_nat (u * k) <=? 4).
  - eapply frame_weaken; [done|]. auto.
Qed.

(** The union as a block sets it up: the position of the values, or anything when the
    value goes into the entry. *)
Definition union_ok (i : IFD_INFO_T) (size : Z) : Prop :=
  zlen (value_offset i) = 4 /\ Forall byte_ok (value_offset i) /\ (4 < size -> value_offset i = le_bytes 4 (u32 (v - ifh))).

Lemma union_position i size : union_ok i size -> 4 < size -> v <= zlen b -> get_long (value_offset i) 0 = Done (v - ifh).
Proof.
  intros (Hz & _ & Hf) Hs Hl. rewrite get_long_at by lia. rewrite Hf by done. cbn [Z.to_nat Nat.mul]. rewrite drop_0.
  rewrite take_ge by (by rewrite length_le_bytes). rewrite le_val_u32 by apply u32_range. by rewrite u32_small by (unfold u32_ok; lia).
Qed.

Lemma rational_stores i vals :
  fits WriteRational (type i) (count i) (value_ptr i) vals -> Forall byte_ok (value_ptr i) -> 0 <= tag i < 65536 ->
  union_ok i (value_size (type i) vals) -> v + value_size (type i) vals + 3 <= zlen b ->
  stores (Jpeg_WriteRationalIFD i (o, v) (mem b p)) (cost (mk_entry (tag i) (type i) vals)) (mk_entry (tag i) (type i) vals).
Proof.
  intros (Hy & Hn & Hz & ->) Hb8 Ht Hu Hl. set (ws := words le_val (2 * Z.to_nat (count i)) 4 (value_ptr i)) in *.
  assert (value_size (type i) (signed (type i) <$> ws) = 8 * count i /\ shape (type i) = Some (4%nat, 2%nat)) as [E Hs].
  { unfold value_size, zlen. rewrite length_fmap. unfold ws. rewrite length_words. destruct Hy as [-> | ->]; cbn; split; try done; lia. }
  unfold cost at 1. cbn [e_type e_values]. rewrite E in *. guard_false (8 * count i <=? 4).
  pose proof (write_rationals_emits (Z.to_nat (count i)) (value_ptr i) 0 ltac:(lia) ltac:(lia)) as Hm.
  change (8 * Z.to_nat 0)%nat with 0%nat in Hm. rewrite drop_0 in Hm. fold ws in Hm.
  assert (zlen (concat (be_bytes 4 <$> ws)) = 8 * count i) as Ed by (unfold zlen, ws; rewrite length_concat_be, length_words; lia).
  assert (0 <= type i < 65536) as Hy' by (by destruct Hy as [-> | ->]).
  pose proof (union_position i _ Hu ltac:(lia) ltac:(lia)) as Hw.
  assert (offset_value i = get_long (value_offset i) 0) as Ew by (unfold offset_value; by destruct Hy as [-> | ->]).
  pose proof (stores_far i _ false (false, (o, v)) 4 2 _ Hw Ew Ht Hy' Hs ltac:(lia) ltac:(lia) Hm ltac:(lia) ltac:(lia)) as H.
  rewrite Ed, (Nat.mul_comm _ 2) in H. unfold ws in H. rewrite words_be in H by (done || (unfold zlen in Hz; lia)). exact H.
Qed.

Lemma long_stores i vals :
  fits WriteLong (type i) (count i) (value_ptr i) vals -> Forall byte_ok (value_ptr i) -> 0 <= tag i < 65536 -> v <= zlen b ->
  stores (Jpeg_WriteLongIFD i (o, v) (mem b p)) (cost (mk_entry (tag i) (type i) vals)) (mk_entry (tag i) (type i) vals).
Proof.
  intros (Hy & Hn & Hz & ->) Hb8 Ht Hl. unfold cost at 1. cbn [e_type e_values]. rewrite Hy at 1 2. change (value_size IFD_LONG _ <=? 4) with true.
  cbv iota. unfold Jpeg_WriteLongIFD. rewrite Hn. change (1 <=? 1) with true. cbv iota.
  unfold sbind at 1 2. unfold slift. rewrite get_long_at by lia. cbn [obind Z.to_nat Nat.mul]. rewrite drop_0.
  set (x := le_val (take 4 (value_ptr i))). change (sret _ (mem b p)) with (Done (set_value_offset (le_bytes 4 x) i, mem b p)) at 1.
  cbn [obind]. set (j := set_value_offset _ i).
  assert (0 <= x < 2 ^ 32) as Hx.
  { pose proof (le_val_range (take 4 (value_ptr i)) (Forall_take _ _ _ Hb8)) as H. rewrite (zlen_take 4) in H by lia. exact H. }
  assert (offset_value j = Done x) as Ew.
  { unfold offset_value. change (type j) with (type i). rewrite Hy. change (value_offset j) with (le_bytes 4 x). cbn [andb orb].
    rewrite get_long_at by (rewrite ?zlen_le_bytes; lia). cbn [Z.to_nat Nat.mul]. rewrite drop_0, take_ge by (by rewrite length_le_bytes).
    by rewrite le_val_u32. }
  change (count j) with (count i). rewrite Hn. change (1 <? 1) with false. cbv iota.
  pose proof (stores_near j x (false, (o, v)) 4 1 (be_bytes 4 x) Ew Ht) as H.
  change (type j) with (type i) in H. change (tag j) with (tag i) in H. change (count j) with (count i) in H. rewrite Hy, Hn in *.
  specialize (H ltac:(done) eq_refl ltac:(done) ltac:(done)). cbn [fst snd].
  replace (words le_val 1 4 (value_ptr i)) with (signed IFD_LONG <$> words be_val (Z.to_nat 1 * 1) 4 (be_bytes 4 x)); [apply H; done|].
  cbn [words Z.to_nat Pos.to_nat Nat.mul fmap list_fmap]. change (Z.to_nat 1 * 1)%nat with 1%nat. cbn [words fmap list_fmap].
  unfold x. change (signed IFD_LONG ?z) with z. f_equal. rewrite take_ge by (by rewrite length_be_bytes). by apply be_val_be_bytes.
Qed.

Lemma le_word_range u l : (u <= length l)%nat -> Forall byte_ok l -> 0 <= le_val (take u l) < 256 ^ Z.of_nat u.
Proof.
  intros Hu Hl. pose proof (le_val_range (take u l) (Forall_take _ _ _ Hl)) as H. unfold zlen in H.
  by rewrite length_take, Nat.min_l in H by lia.
Qed.

(** The entry a writer of shorts makes when the value goes into it. *)
Lemma short_near i s0 s1 n u k :
  0 <= s0 < 65536 -> 0 <= s1 < 65536 -> value_offset i = le_bytes 2 s0 ++ le_bytes 2 s1 -> count i = n ->
  0 <= tag i < 65536 -> v <= zlen b -> shape (type i) = Some (u, k) ->
  (type i = IFD_SHORT /\ 1 <= n <= 2) \/ (type i = IFD_LONG /\ n = 1 /\ s1 = 0) ->
  stores (write_head i o (false, (o, v)) (fun off => sret (true, (off, v))) (mem b p)) 0
    (mk_entry (tag i) (type i) (take (Z.to_nat n) [s0; s1])).
Proof.
  intros H0 H1 Hvo Hn Ht Hl Hs Hc.
  assert (get_short (value_offset i) 0 = Done s0 /\ get_short (value_offset i) 1 = Done s1) as [G0 G1].
  { rewrite Hvo. rewrite !get_short_at by (rewrite ?zlen_app, ?zlen_le_bytes; lia).
    change (2 * Z.to_nat 0)%nat with 0%nat. change (2 * Z.to_nat 1)%nat with 2%nat.
    rewrite drop_0, take_app_length', drop_app_length' by (by rewrite length_le_bytes). rewrite take_ge by (by rewrite length_le_bytes).
    rewrite !le_val_le_bytes. by rewrite !Z.mod_small by (change (256 ^ Z.of_nat 2) with 65536; lia). }
  destruct Hc as [[Hy Hc] | (Hy & -> & ->)]; rewrite Hy in Hs; injection Hs as <- <-.
  - assert (offset_value i = Done (u32 (Z.lor (Z.shiftl s0 16) s1))) as Ew.
    { unfold offset_value. rewrite Hy, Hn. change ((_ || _ || _) && _) with false. cbv iota. change (IFD_SHORT =? IFD_SHORT) with true.
      guard_true (true && (n <=? 2)). by rewrite G0, G1. }
    pose proof (stores_near i _ (false, (o, v)) 2 1 (take (Z.to_nat (2 * n)) (be_bytes 2 s0 ++ be_bytes 2 s1)) Ew Ht) as H.
    rewrite Hy, Hn, two_shorts in H by done. change (Z.of_nat (2 * 1)) with 2 in H.
    specialize (H ltac:(done) eq_refl ltac:(lia) ltac:(lia)).
    rewrite Hy. replace (take (Z.to_nat n) [s0; s1]) with (signed IFD_SHORT <$> words be_val (Z.to_nat n * 1) 2 (take (Z.to_nat (2 * n)) (be_bytes 2 s0 ++ be_bytes 2 s1))).
    { apply H; [|done]. unfold get. rewrite slice_in by (rewrite ?zlen_app, ?zlen_be_bytes; lia). by rewrite Z.mul_comm. }
    rewrite Nat.mul_1_r. replace (Z.to_nat (2 * n)) with (Z.to_nat n * 2)%nat by lia. rewrite words_take.
    replace (signed IFD_SHORT <$> _) with (words be_val (Z.to_nat n) 2 (be_bytes 2 s0 ++ be_bytes 2 s1)) by (by rewrite (list_fmap_id _ : signed IFD_SHORT <$> _ = _)).
    assert (n = 1 \/ n = 2) as [-> | ->] by lia.
    + change (Z.to_nat 1) with 1%nat. cbn [words take firstn]. rewrite take_app_length' by (by rewrite length_be_bytes). by rewrite be_val_be_bytes.
    + change (Z.to_nat 2) with 2%nat. cbn [words take firstn]. rewrite take_app_length', drop_app_length' by (by rewrite length_be_bytes).
      rewrite take_ge by (by rewrite length_be_bytes). by rewrite !be_val_be_bytes.
  - assert (offset_value i = Done s0) as Ew.
    { unfold offset_value. rewrite Hy. change ((_ || _ || _) && _) with false. change ((IFD_LONG =? IFD_SHORT) && _) with false. cbv iota.
      rewrite Hvo. rewrite get_long_at by (rewrite ?zlen_app, ?zlen_le_bytes; lia). change (4 * Z.to_nat 0)%nat with 0%nat.
      rewrite drop_0, take_ge by (by rewrite length_app, !length_le_bytes). f_equal. cbn [le_bytes app le_val].
      Z.to_euclidean_division_equations. lia. }
    pose proof (stores_near i _ (false, (o, v)) 4 1 (be_bytes 4 s0) Ew Ht) as H. rewrite Hy, Hn in H.
    specialize (H ltac:(done) eq_refl ltac:(lia) ltac:(cbn; lia)). rewrite Hy.
    replace (take (Z.to_nat 1) [s0; 0]) with (signed IFD_LONG <$> words be_val (Z.to_nat 1 * 1) 4 (be_bytes 4 s0)).
    { apply H; [|done]. unfold get. change (1 * Z.of_nat (4 * 1)) with (Z.of_nat 4). rewrite <- (zlen_be_bytes 4 s0) at 1. by rewrite slice_all. }
    change (Z.to_nat 1 * 1)%nat with 1%nat. change (Z.to_nat 1) with 1%nat. cbn [words take firstn fmap list_fmap].
    change (signed IFD_LONG ?z) with z. rewrite take_ge by (by rewrite length_be_bytes). rewrite be_val_be_bytes; [done|].
    change (256 ^ Z.of_nat 4) with (2 ^ 32). lia.
Qed.

Lemma short_stores i vals :
  fits WriteShort (type i) (count i) (value_ptr i) vals -> Forall byte_ok (value_ptr i) -> 0 <= tag i < 65536 ->
  union_ok i (value_size (type i) vals) -> v + cost (mk_entry (tag i) (type i) vals) <= zlen b ->
  stores (Jpeg_WriteShortIFD i (o, v) (mem b p)) (cost (mk_entry (tag i) (type i) vals)) (mk_entry (tag i) (type i) vals).
Proof.
  intros Hf Hb8 Ht Hu Hl. assert (0 <= cost (mk_entry (tag i) (type i) vals)) as Hc0 by apply cost_nonneg.
  assert (1 <= count i /\ 2 * count i <= zlen (value_ptr i) /\ vals = words le_val (Z.to_nat (count i)) 2 (value_ptr i) /\
    (type i = IFD_SHORT \/ type i = IFD_LONG /\ count i = 1)) as (Hn & Hz & Ev & Hy).
  { destruct Hf as [(? & ? & ? & ?) | (? & Hn & ? & ?)]; [by auto|]. rewrite Hn. split_and!; [lia|lia|done|by right]. }
  assert (0 <= le_val (take 2 (value_ptr i)) < 65536) as Hs0 by (apply (le_word_range 2); [unfold zlen in Hz; lia|done]).
  assert (get_short (value_ptr i) 0 = Done (le_val (take 2 (value_ptr i)))) as G0 by (rewrite get_short_at by lia; by rewrite drop_0).
  unfold Jpeg_WriteShortIFD. destruct (Z.leb_spec (count i) 2) as [Hle|Hgt].
  - set (s0 := le_val (take 2 (value_ptr i))) in *. unfold sbind at 1. unfold sbind at 1. unfold slift. rewrite G0. cbn [obind].
    assert (exists s1, 0 <= s1 < 65536 /\ vals = take (Z.to_nat (count i)) [s0; s1] /\ (type i = IFD_LONG -> s1 = 0) /\
      (if count i =? 2 then (let! s1 := slift (get_short (value_ptr i) 1) in sret (set_value_offset (le_bytes 2 s0 ++ le_bytes 2 s1) i))
       else sret (set_value_offset (le_bytes 2 s0 ++ [0; 0]) i)) (mem b p) = Done (set_value_offset (le_bytes 2 s0 ++ le_bytes 2 s1) i, mem b p))
      as (s1 & Hs1 & Evals & Hz1 & E1).
    { assert (count i = 1 \/ count i = 2) as [Ec | Ec] by lia; rewrite Ec in *.
      - exists 0. split; [lia|]. split; [by rewrite Ev|]. done.
      - exists (le_val (take 2 (drop 2 (value_ptr i)))). split.
        { apply (le_word_range 2); [rewrite length_drop; unfold zlen in Hz; lia|by apply Forall_drop]. }
        split; [by rewrite Ev|]. split; [intros Hty; destruct Hy as [Hy | [_ ?]]; [rewrite Hy in Hty; discriminate|lia]|].
        change (2 =? 2) with true. cbv iota. unfold sbind, slift. by rewrite get_short_at by lia. }
    unfold slift in E1. rewrite E1. cbn [obind]. set (j := set_value_offset _ i). change (count j) with (count i). guard_false (2 <? count i). cbn [fst snd].
    assert (cost (mk_entry (tag i) (type i) vals) = 0) as Ec0.
    { unfold cost, value_size. cbn [e_type e_values]. unfold zlen. rewrite Ev, length_words.
      destruct Hy as [-> | [-> Hc1]]; cbn; cif; lia. }
    rewrite Ec0, Evals. destruct (shape (type i)) as [[u k]|] eqn:Es; [|destruct Hy as [Hy | [Hy _]]; by rewrite Hy in Es].
    apply (short_near j s0 s1 (count i) u k); try done; [lia|]. destruct Hy as [Hy | [Hy Hc1]]; [left; split; [done|lia]|right; auto].
  - destruct Hy as [Hy | [_ ?]]; [|lia]. change (sbind (sret i) ?k (mem b p)) with (k i (mem b p)). cbv beta. guard_true (2 <? count i). cbn [fst snd].
    set (ws := words le_val (Z.to_nat (count i)) 2 (value_ptr i)) in *.
    assert (value_size (type i) vals = 2 * count i) as Esz.
    { rewrite Ev, Hy. unfold value_size, zlen, ws. rewrite length_words. cbn. lia. }
    unfold cost in *. cbn [e_type e_values] in *. rewrite Esz in *. replace (2 * count i <=? 4) with false in * by lia.
    pose proof (write_shorts_emits (Z.to_nat (count i)) (value_ptr i) 0 ltac:(lia) ltac:(lia)) as Hm.
    change (2 * Z.to_nat 0)%nat with 0%nat in Hm. rewrite drop_0 in Hm. fold ws in Hm.
    assert (zlen (concat (be_bytes 2 <$> ws)) = 2 * count i) as Ed by (unfold zlen, ws; rewrite length_concat_be, length_words; lia).
    pose proof (union_position i _ Hu ltac:(lia) ltac:(lia)) as Hw.
    assert (offset_value i = get_long (value_offset i) 0) as Ew.
    { unfold offset_value. rewrite Hy. change ((_ || _ || _) && _) with false. cbv iota. by guard_false ((IFD_SHORT =? IFD_SHORT) && (count i <=? 2)). }
    pose proof (stores_far i _ true (false, (o, v)) 2 1 _ Hw Ew Ht ltac:(by rewrite Hy) ltac:(by rewrite Hy) ltac:(lia) ltac:(lia) Hm ltac:(lia) ltac:(lia)) as H.
    rewrite Ed, Nat.mul_1_r in H. unfold ws in H. rewrite words_be in H by (done || (unfold zlen in Hz; lia)).
    rewrite Ev. rewrite Hy in H |- *. by rewrite (list_fmap_id _ : signed IFD_SHORT <$> _ = _) in H.
Qed.

Lemma signed_bytes ty (l : list Z) : ty = IFD_BYTE \/ ty = IFD_ASCII \/ ty = IFD_UNDEFINED -> signed ty <$> l = l.
Proof. intros [-> | [-> | ->]]; apply list_fmap_id. Qed.

Lemma byte_stores i vals :
  fits WriteByte (type i) (count i) (value_ptr i) vals -> Forall byte_ok (value_ptr i) -> 0 <= tag i < 65536 ->
  union_ok i (value_size (type i) vals) -> v + cost (mk_entry (tag i) (type i) vals) <= zlen b ->
  stores (Jpeg_WriteByteIFD i (o, v) (mem b p)) (cost (mk_entry (tag i) (type i) vals)) (mk_entry (tag i) (type i) vals).
Proof.
  intros (Hy & Hn & ->) Hb8 Ht Hu Hl. pose proof (cost_nonneg (mk_entry (tag i) (type i) (take (Z.to_nat (count i)) (value_ptr i)))) as Hc0.
  assert (shape (type i) = Some (1%nat, 1%nat) /\ 0 <= type i < 65536) as [Hs Hy'] by (by destruct Hy as [-> | [-> | ->]]).
  assert (value_size (type i) (take (Z.to_nat (count i)) (value_ptr i)) = count i) as Esz.
  { unfold value_size. rewrite Hs, zlen_take by lia. lia. }
  unfold cost in *. cbn [e_type e_values] in *. rewrite Esz in *. unfold Jpeg_WriteByteIFD.
  assert (((type i =? IFD_BYTE) || (type i =? IFD_ASCII) || (type i =? IFD_UNDEFINED)) = true) as Eb by (by destruct Hy as [-> | [-> | ->]]).
  destruct (Z.leb_spec (count i) 4) as [Hle|Hgt].
  - destruct Hu as (Uz & Ub & _). unfold zlen in Uz. pose proof (copy_bytes_all (Z.to_nat (count i)) (value_ptr i) [] (value_offset i) 0 eq_refl) as Hcp.
    change (Z.to_nat 0) with 0%nat in Hcp. rewrite drop_0 in Hcp. cbn [app] in Hcp. set (vo := take _ _ ++ drop _ _) in Hcp.
    unfold sbind at 1. unfold sbind at 1. unfold slift. rewrite Hcp by lia. cbn [obind].
    change (sret ?x (mem b p)) with (Done (x, mem b p)) at 1. cbn [obind]. set (j := set_value_offset vo i).
    change (count j) with (count i). guard_false (4 <? count i). cbn [fst snd].
    assert (length vo = 4%nat) as Lv by (unfold vo, zlen in *; rewrite length_app, length_take, length_drop; lia).
    assert (Forall byte_ok vo) as Bv by (apply Forall_app; split; [by apply Forall_take|by apply Forall_drop]).
    assert (take (Z.to_nat (count i)) vo = take (Z.to_nat (count i)) (value_ptr i)) as Tv.
    { unfold vo. rewrite take_app_le by (rewrite length_take; unfold zlen in Hn; lia). by rewrite take_take, Nat.min_id. }
    destruct vo as [|b0 [|b1 [|b2 [|b3 [|]]]]]; try discriminate Lv. rewrite !Forall_cons in Bv. destruct Bv as (B0 & B1 & B2 & B3 & _).
    assert (offset_value j = Done (u32 (Z.lor (Z.lor (Z.lor (Z.shiftl b0 24) (Z.shiftl b1 16)) (Z.shiftl b2 8)) b3))) as Ew.
    { unfold offset_value. change (type j) with (type i). rewrite Eb. change (count j) with (count i). by guard_true (true && (count i <=? 4)). }
    pose proof (stores_near j _ (false, (o, v)) 1 1 (take (Z.to_nat (count i)) [b0; b1; b2; b3]) Ew Ht Hy' Hs) as H.
    change (type j) with (type i) in H. change (tag j) with (tag i) in H. change (count j) with (count i) in H.
    rewrite word_of_bytes in H by done. rewrite Tv in H. change (Z.of_nat (1 * 1)) with 1 in H.
    rewrite Nat.mul_1_r, words_be_bytes, take_take, Nat.min_id, signed_bytes in H by (done || (rewrite length_take; unfold zlen in Hn; lia)).
    apply H; try lia. unfold get. rewrite slice_in by (try lia; change (zlen [b0; b1; b2; b3]) with 4; lia).
    rewrite Z.mul_1_r. change (Z.to_nat 0) with 0%nat. by rewrite drop_0, Tv.
  - change (sbind (sret i) ?k (mem b p)) with (k i (mem b p)). cbv beta. guard_true (4 <? count i). cbn [fst snd].
    pose proof (write_bytes_emits (value_ptr i) (Z.to_nat (count i)) 0 Hb8 ltac:(lia) ltac:(lia)) as Hm.
    change (Z.to_nat 0) with 0%nat in Hm. rewrite drop_0 in Hm.
    assert (zlen (take (Z.to_nat (count i)) (value_ptr i)) = count i) as Ed by (by rewrite zlen_take by lia).
    pose proof (union_position i _ Hu ltac:(lia) ltac:(lia)) as Hw.
    assert (offset_value i = get_long (value_offset i) 0) as Ew.
    { unfold offset_value. rewrite Eb. guard_false (true && (count i <=? 4)). by destruct Hy as [-> | [-> | ->]]. }
    pose proof (stores_far i _ true (false, (o, v)) 1 1 _ Hw Ew Ht Hy' Hs ltac:(lia) ltac:(lia) Hm ltac:(lia) ltac:(lia)) as H.
    rewrite Ed, Nat.mul_1_r, words_be_bytes, take_take, Nat.min_id, signed_bytes in H by (done || (rewrite length_take; unfold zlen in Hn; lia)).
    exact H.
Qed.

(** Any writer. *)
Lemma writer_stores w i vals :
  fits w (type i) (count i) (value_ptr i) vals -> Forall byte_ok (value_ptr i) -> 0 <= tag i < 65536 ->
  union_ok i (value_size (type i) vals) -> v + cost (mk_entry (tag i) (type i) vals) <= zlen b ->
  stores (Jpeg_Write w i (o, v) (mem b p)) (cost (mk_entry (tag i) (type i) vals)) (mk_entry (tag i) (type i) vals).
Proof.
  intros Hf Hb8 Ht Hu Hl. pose proof (cost_nonneg (mk_entry (tag i) (type i) vals)). destruct w; cbn [Jpeg_Write].
  - apply rational_stores; try done. destruct Hf as (Hy & Hn & Hz & Ev). unfold cost in Hl. cbn [e_type e_values] in Hl.
    assert (4 < value_size (type i) vals) as Hs.
    { unfold value_size, zlen. rewrite Ev, length_fmap, length_words. destruct Hy as [-> | ->]; cbn; lia. }
    replace (_ <=? 4) with false in Hl by lia. lia.
  - apply long_stores; [done..|lia].
  - by apply short_stores.
  - by apply byte_stores.
Qed.
End entry.
