(* ===== verification/ExifLayout.v ===== *)
(** * Directories the EXIF writer lays out

    How the writers of ExifWriter fill a directory: one lemma per step (opening, a run of
    blocks, an entry that points to a directory, closing), each saying which entries and
    directories are in the buffer afterwards, how far the values reach and that nothing
    else has changed.  The steps compose through [grows] and [writes_dir]. *)

From S2P Require Import Prelude ExifTypes ExifStream ExifWriter ExifReader ExifDirectory.

(** ** What a block is to store *)

(** A field of the EXIF standard and its values, if it is there. *)
Record field := mk_field {
  f_tag : Z;
  f_type : Z;
  f_values : option (list Z)
}.

Definition field_entry (f : field) : option entry := mk_entry (f_tag f) (f_type f) <$> f_values f.
Definition entries_of (fs : list field) : list entry := omap field_entry fs.

(** The block [b] writes the field [f], with at most [k] bytes of values. *)
Definition gives (b : block) (f : field) (k : Z) : Prop :=
  0 <= k /\
  match f_values f with
  | None => b_valid b = false
  | Some vals =>
      b_valid b = true /\ b_tag b = f_tag f /\ b_type b = f_type f /\ 0 <= f_tag f < 65536 /\
      (exists n, b_count b = Done n /\ fits (b_writer b) (f_type f) n (b_value b) vals) /\ Forall byte_ok (b_value b) /\
      (is_Some (b_here b) -> value_size (f_type f) vals <= 4) /\ cost (mk_entry (f_tag f) (f_type f) vals) <= k
  end.

Inductive all_give : list block -> list field -> Z -> Prop :=
  | give_nil : all_give [] [] 0
  | give_cons b f k bs fs r : gives b f k -> all_give bs fs r -> all_give (b :: bs) (f :: fs) (k + r).

Lemma all_give_app bs1 fs1 r1 bs2 fs2 r2 :
  all_give bs1 fs1 r1 -> all_give bs2 fs2 r2 -> all_give (bs1 ++ bs2) (fs1 ++ fs2) (r1 + r2).
Proof.
  induction 1 as [|b f k bs fs r Hg _ IH]; intros H2; [done|]. cbn [app]. rewrite <- Z.add_assoc. constructor; [done|]. by apply IH.
Qed.

Lemma all_give_nonneg bs fs r : all_give bs fs r -> 0 <= r.
Proof. induction 1 as [|????? ? [? _]]; lia. Qed.

Lemma all_give_length bs fs r : all_give bs fs r -> zlen bs = zlen fs.
Proof. unfold zlen. induction 1; cbn [length]; lia. Qed.

Lemma entries_of_app x y : entries_of (x ++ y) = entries_of x ++ entries_of y.
Proof. apply omap_app. Qed.

Lemma zlen_entries_of fs : zlen (entries_of fs) <= zlen fs.
Proof. unfold zlen, entries_of. induction fs as [|f fs IH]; cbn; [lia|]. destruct (field_entry f); cbn in *; lia. Qed.

Section layout.
Context (ifh : Z) (Hifh : 0 <= ifh).

(** ** A directory being filled *)

(** A directory (its position, its entries and the position of the next) or plain bytes. *)
Inductive item :=
  | Dir (off : Z) (es : list entry) (next : Z)
  | Raw (off : Z) (bs : list Z).

Definition item_at (b : list Z) (lo hi : Z) (d : item) : Prop :=
  match d with
  | Dir off es next => lo <= off /\ exists h, h <= hi /\ ifd_at b ifh off h es next
  | Raw off bs => lo <= off /\ off + zlen bs <= hi /\ bytes_at b off bs
  end.

(** The items that are complete between [lo] and [hi]. *)
Definition area (b : list Z) (lo hi : Z) (ds : list item) : Prop := Forall (item_at b lo hi) ds.

Lemma area_frame (P : Z -> Prop) b b' lo hi ds :
  area b lo hi ds -> frame P b b' -> (forall i, lo <= i < hi -> ~ P i) -> area b' lo hi ds.
Proof.
  intros H F HP. eapply Forall_impl; [exact H|]. intros [off es next | off bs]; cbn.
  - intros (Hl & h & Hh & Hd). split; [done|]. exists h. split; [done|]. eapply ifd_frame; [done..|]. intros i Hi. apply HP. lia.
  - intros (Hl & Hh & Hd). do 2 (split; [done|]). eapply bytes_at_frame; [done..|]. intros i Hi. apply HP. lia.
Qed.

Lemma area_weaken b lo lo' hi hi' ds : area b lo hi ds -> lo' <= lo -> hi <= hi' -> area b lo' hi' ds.
Proof.
  intros H Hl Hh. eapply Forall_impl; [exact H|]. intros [off es next | off bs]; cbn.
  - intros (? & h & ? & ?). split; [lia|]. exists h. split; [lia|done].
  - intros (? & ? & ?). split_and!; [lia|lia|done].
Qed.

(** The directory at [begin] has the entries [es] so far, and values and items
    between [lo] and the position of the next value. *)
Record filling (begin lo : Z) (b : list Z) (s : ifd_state) (es : list entry) (ds : list item) : Prop := {
  fl_begin : ifh <= begin;
  fl_offset : ifd_offset s = begin + 2 + 12 * zlen es;
  fl_count : entries s = zlen es;
  fl_lo : begin + 6 + 12 * zlen es <= lo;
  fl_value : lo <= ifd_value_offset s <= zlen b;
  fl_room : lo - begin <= 65536;
  fl_width : zlen b < 2 ^ 32 - 3;
  fl_entries : entries_at b ifh lo (ifd_value_offset s) (begin + 2) es;
  fl_dirs : area b lo (ifd_value_offset s) ds
}.

Lemma filling_frame begin lo b b' s s' es ds (P : Z -> Prop) :
  filling begin lo b s es ds -> frame P b b' ->
  (forall i, P i -> ifd_offset s <= i < begin + 6 + 12 * (zlen es + 1) \/ ifd_value_offset s <= i) ->
  ifd_offset s' = ifd_offset s -> entries s' = entries s -> ifd_value_offset s <= ifd_value_offset s' <= zlen b ->
  (begin + 6 + 12 * (zlen es + 1) <= lo \/ forall i, P i -> ifd_value_offset s <= i) -> filling begin lo b' s' es ds.
Proof.
  intros [? Eo ? ? ? ? ? He Hd] F HP Eo' Ee' Hv Hc. pose proof (frame_zlen _ _ _ F). pose proof (zlen_nonneg es). split; try done; try lia.
  - intros j e Hj. apply lookup_lt_Some in Hj as Hlt. eapply stored_frame; [by apply He|done|lia|].
    intros i Hi Pi. specialize (HP i Pi). unfold zlen in *. destruct Hc as [Hc|Hc]; [|specialize (Hc i Pi)]; lia.
  - eapply area_weaken; [eapply (area_frame P); [done..|]|lia|lia].
    intros i Hi Pi. specialize (HP i Pi). destruct Hc as [Hc|Hc]; [|specialize (Hc i Pi)]; lia.
Qed.

(** [m] adds at most [n] entries, entries and items that satisfy [R], and at most
    [room] bytes. *)
Definition grows (m : ifd_state -> swriter (option ifd_state)) (n room : Z) (R : list entry -> list item -> Prop) : Prop :=
  forall begin lo s b p es ds, filling begin lo b s es ds -> begin + 6 + 12 * (zlen es + n) <= lo -> ifd_value_offset s + room <= zlen b ->
  exists s' b' p' es' ds', m s (mem b p) = Done (Some s', mem b' p') /\ filling begin lo b' s' (es ++ es') (ds ++ ds') /\ R es' ds' /\
    zlen es' <= n /\ ifd_value_offset s <= ifd_value_offset s' <= ifd_value_offset s + room /\ frame (fun x => range begin lo x \/ range (ifd_value_offset s) (ifd_value_offset s') x) b b'.

Lemma grows_ret : grows (fun s => sret (Some s)) 0 0 (fun es ds => es = [] /\ ds = []).
Proof.
  intros begin lo s b p es ds H _ _. exists s, b, p, [], []. rewrite !app_nil_r. rewrite zlen_nil. split_and!; try done; lia.
Qed.

Lemma grows_then m1 m2 n1 n2 r1 r2 R1 R2 :
  grows m1 n1 r1 R1 -> grows m2 n2 r2 R2 -> 0 <= n2 -> 0 <= r2 ->
  grows (fun s => and_then (m1 s) m2) (n1 + n2) (r1 + r2)
    (fun es ds => exists es1 ds1 es2 ds2, es = es1 ++ es2 /\ ds = ds1 ++ ds2 /\ R1 es1 ds1 /\ R2 es2 ds2).
Proof.
  intros H1 H2 Hn Hr begin lo s b p es ds Hf Hc Hl.
  destruct (H1 begin lo s b p es ds Hf) as (s1 & b1 & p1 & es1 & ds1 & E1 & F1 & Q1 & N1 & V1 & P1); [lia|lia|].
  pose proof (frame_zlen _ _ _ P1) as L1.
  destruct (H2 begin lo s1 b1 p1 _ _ F1) as (s2 & b2 & p2 & es2 & ds2 & E2 & F2 & Q2 & N2 & V2 & P2); [rewrite zlen_app; lia|lia|].
  exists s2, b2, p2, (es1 ++ es2), (ds1 ++ ds2). rewrite !app_assoc, zlen_app. split.
  { unfold and_then, sbind. rewrite E1. cbn [obind]. exact E2. }
  split; [done|]. split; [by exists es1, ds1, es2, ds2|]. split; [lia|]. split; [lia|].
  eapply frame_trans; [done..|]. unfold range. lia.
Qed.

Lemma grows_weaken m n room R n' room' (R' : list entry -> list item -> Prop) :
  grows m n room R -> n <= n' -> room <= room' -> (forall es ds, R es ds -> R' es ds) -> grows m n' room' R'.
Proof.
  intros H Hn Hr HR begin lo s b p es ds Hf Hc Hl.
  destruct (H begin lo s b p es ds Hf) as (s1 & b1 & p1 & es1 & ds1 & E1 & F1 & Q1 & N1 & V1 & P1); [lia|lia|].
  exists s1, b1, p1, es1, ds1. split_and!; auto; lia.
Qed.

(** ** Blocks *)

(** One more entry. *)
Lemma filling_snoc begin lo b b' s es ds e v' :
  filling begin lo b s es ds -> begin + 6 + 12 * (zlen es + 1) <= lo ->
  stored b' ifh lo v' (ifd_offset s) e -> ifd_value_offset s <= v' <= zlen b ->
  frame (fun x => range (ifd_offset s) (ifd_offset s + 12) x \/ range (ifd_value_offset s) v' x) b b' ->
  filling begin lo b' (mk_state (ifd_offset s + 12) v' (u16 (entries s + 1))) (es ++ [e]) ds.
Proof.
  intros Hf Hc Hs Hv F. pose proof (zlen_nonneg es). pose proof (frame_zlen _ _ _ F).
  pose proof (fl_offset _ _ _ _ _ _ Hf). pose proof (fl_count _ _ _ _ _ _ Hf). pose proof (fl_value _ _ _ _ _ _ Hf).
  pose proof (fl_room _ _ _ _ _ _ Hf). pose proof (fl_begin _ _ _ _ _ _ Hf).
  assert (filling begin lo b' (mk_state (ifd_offset s) v' (entries s)) es ds) as Hf'.
  { eapply filling_frame; [done|done| |done|done|cbn; lia|lia]. unfold range. cbn. lia. }
  destruct Hf' as [? ? ? ? ? ? ? He Hd]. cbn [ifd_offset ifd_value_offset entries] in *.
  split; cbn [ifd_offset ifd_value_offset entries]; rewrite ?zlen_app, ?zlen_cons, ?zlen_nil; try done; try lia.
  - rewrite u16_small by lia. lia.
  - intros j e' Hj. apply lookup_app_Some in Hj as [Hj | [Hj Hk]]; [by apply He|].
    destruct (j - length es)%nat as [|k] eqn:Ek; [|discriminate Hk]. injection Hk as <-.
    replace (begin + 2 + 12 * Z.of_nat j) with (ifd_offset s); [done|]. unfold zlen in *. lia.
Qed.

Lemma block_grows blk f k : gives blk f k -> grows (write_block ifh blk) 1 k (fun es ds => es = entries_of [f] /\ ds = []).
Proof.
  intros [Hk Hg] begin lo s b p es ds Hf Hc Hl. unfold write_block, entries_of. cbn [omap list_omap]. unfold field_entry.
  pose proof (fl_value _ _ _ _ _ _ Hf) as Hv. destruct (f_values f) as [vals|]; cbn [fmap option_fmap option_map].
  - destruct Hg as (-> & Et & Ey & Ht & (n & En & Hfit) & Hb8 & Hh & Hcost). unfold sbind at 1, slift. rewrite En. cbn [obind].
    unfold sbind at 1. set (i := block_info ifh blk n s).
    pose proof (fl_offset _ _ _ _ _ _ Hf). pose proof (fl_begin _ _ _ _ _ _ Hf). pose proof (fl_width _ _ _ _ _ _ Hf). pose proof (zlen_nonneg es).
    destruct (writer_stores ifh lo (ifd_offset s) (ifd_value_offset s) p b ltac:(lia) ltac:(lia) ltac:(lia) ltac:(lia) ltac:(lia) (b_writer blk) i vals)
      as (b' & p' & v' & E & Hv' & Hs & F).
    { cbn [i block_info type count value_ptr]. by rewrite Ey. }
    { done. }
    { cbn [i block_info tag]. by rewrite Et. }
    { unfold union_ok. cbn [i block_info type value_offset]. rewrite Ey. destruct (b_here blk) as [x|].
      - split_and!; [by rewrite zlen_app, zlen_le_bytes|apply Forall_app; split; [apply le_bytes_ok|by repeat constructor]|].
        specialize (Hh ltac:(done)). lia.
      - split_and!; [by rewrite zlen_le_bytes|apply le_bytes_ok|done]. }
    { cbn [i block_info type tag]. rewrite Ey, Et. lia. }
    cbn [i block_info type tag] in *. rewrite Ey, Et in *. fold i in E. rewrite E. cbn [obind].
    eexists _, b', p', [_], []. split; [reflexivity|]. rewrite app_nil_r. cbn [ifd_value_offset].
    split; [by apply (filling_snoc _ _ b); [..|lia|]|]. do 2 (split; [done|]). split; [lia|].
    eapply frame_weaken; [done|]. unfold range. lia.
  - rewrite Hg. exists s, b, p, [], []. rewrite !app_nil_r, zlen_nil. do 3 (split; [done|]). split; [lia|]. split; [lia|done].
Qed.

Lemma blocks_grow bs fs r : all_give bs fs r -> grows (write_blocks ifh bs) (zlen bs) r (fun es ds => es = entries_of fs /\ ds = []).
Proof.
  induction 1 as [|blk f k bs fs r Hg Ha IH]; cbn [write_blocks]; [apply grows_ret|].
  rewrite zlen_cons. pose proof (zlen_nonneg bs). pose proof (all_give_nonneg _ _ _ Ha).
  eapply grows_weaken; [eapply grows_then; [by apply block_grows|exact IH|lia|lia]|lia|lia|].
  intros es ds (es1 & ds1 & es2 & ds2 & -> & -> & [-> ->] & -> & ->). split; [|done].
  rewrite <- entries_of_app. done.
Qed.

(** ** Whole directories *)

(** [m] writes items that satisfy [R] where it is told to, in at most [room] bytes,
    and says where they end. *)
Definition writes_dir (m : Z -> swriter (option Z)) (room : Z) (R : Z -> Z -> list item -> Prop) : Prop :=
  forall begin b p, ifh <= begin -> begin + room <= zlen b -> zlen b < 2 ^ 32 - 3 ->
  exists ds stop b' p', m begin (mem b p) = Done (Some stop, mem b' p') /\ begin <= stop <= begin + room /\
    area b' begin stop ds /\ R begin stop ds /\ frame (range begin stop) b b'.

Lemma open_filling begin max b p :
  ifh <= begin -> 0 <= max <= 5000 -> begin + 12 * max + 9 <= zlen b -> zlen b < 2 ^ 32 - 3 ->
  exists lo s b' p', open_ifd begin max (mem b p) = Done (Some s, mem b' p') /\ filling begin lo b' s [] [] /\ ifd_value_offset s = lo /\
    begin + 6 + 12 * max <= lo <= begin + 9 + 12 * max /\ frame (range begin (begin + 2)) b b'.
Proof.
  intros Hb Hm Hl Hw. unfold open_ifd.
  destruct (WriteW_emits max b begin ltac:(lia)) as (b' & S & E); [rewrite zlen_be_bytes; lia|].
  pose proof (splice_frame _ _ _ _ S) as F. rewrite zlen_be_bytes in *. pose proof (frame_zlen _ _ _ F) as L.
  unfold sbind, or_return, sbind. rewrite SetWritePos_mem by lia. cbn [obind]. rewrite E. cbn [obind].
  rewrite GetWritePos_mem by lia. cbn [obind sret]. unfold IFD_HEAD_LENGTH. change (Z.of_nat 2) with 2 in *.
  rewrite (u32_small (begin + 2 + max * 12 + 4)) by (unfold u32_ok; lia).
  pose proof (JPEG_ALIGN_4_ge (begin + 2 + max * 12 + 4) ltac:(lia)) as Ha.
  exists (JPEG_ALIGN_4 (begin + 2 + max * 12 + 4)), (mk_state (begin + 2) (JPEG_ALIGN_4 (begin + 2 + max * 12 + 4)) 0), b', (begin + 2).
  split; [done|]. split; [|split; [done|split; [lia|done]]].
  split; cbn [ifd_offset ifd_value_offset entries]; change (zlen (@nil entry)) with 0; try done; try lia. constructor.
Qed.

Lemma close_area begin lo s b p es ds next :
  filling begin lo b s es ds -> u32_ok next ->
  exists b' p', close_ifd begin next s (mem b p) = Done (Some (ifd_value_offset s), mem b' p') /\
    area b' begin (ifd_value_offset s) (Dir begin es next :: ds) /\ frame (range begin lo) b b'.
Proof.
  intros Hf Hn. pose proof (zlen_nonneg es). destruct Hf as [? Eo Ee ? Hv ? ? He Hd]. unfold close_ifd.
  destruct (WriteL_emits next b (ifd_offset s) ltac:(lia)) as (b1 & S1 & E1); [rewrite zlen_be_bytes; lia|].
  pose proof (splice_frame _ _ _ _ S1) as F1. pose proof (splice_bytes_at _ _ _ _ S1) as B1. rewrite zlen_be_bytes in *. pose proof (frame_zlen _ _ _ F1) as L1.
  destruct (WriteW_emits (entries s) b1 begin ltac:(lia)) as (b2 & S2 & E2); [rewrite zlen_be_bytes; lia|].
  pose proof (splice_frame _ _ _ _ S2) as F2. pose proof (splice_bytes_at _ _ _ _ S2) as B2. rewrite zlen_be_bytes in *. pose proof (frame_zlen _ _ _ F2) as L2.
  change (Z.of_nat 4) with 4 in *. change (Z.of_nat 2) with 2 in *.
  assert (frame (range begin lo) b b2) as F by (eapply frame_trans; [exact F1|exact F2|]; unfold range; lia).
  assert (frame (fun i => range (ifd_offset s) (ifd_offset s + 4) i \/ range begin (begin + 2) i) b b2) as F' by (eapply frame_trans; [exact F1|exact F2|]; auto).
  exists b2, (begin + 2). split.
  { unfold sbind, or_return, sbind. rewrite SetWritePos_mem by lia. cbn [obind]. rewrite E1. cbn [obind].
    rewrite SetWritePos_mem by lia. cbn [obind]. rewrite E2. done. }
  split; [|done]. constructor.
  - split; [lia|]. exists (ifd_value_offset s). split; [lia|]. exists lo. rewrite <- Eo, <- Ee in *. split_and!; try done; try lia.
    + intros j e Hj. apply lookup_lt_Some in Hj as Hlt. eapply stored_frame; [by apply He|exact F'|lia|].
      intros i Hi. unfold range, zlen in *. lia.
    + eapply bytes_at_frame; [exact B1|exact F2|]. intros i. rewrite zlen_be_bytes. unfold range. lia.
  - eapply area_weaken; [eapply area_frame; [done|exact F|]|lia|lia]. unfold range. lia.
Qed.

(** The directories of the code: opened, filled and closed. *)
Lemma dir_writes max body n room R next :
  grows body n room R -> 0 <= n <= max -> max <= 5000 -> 0 <= room -> (forall s, u32_ok (next s)) ->
  writes_dir (fun begin => and_then (open_ifd begin max) (fun s => and_then (body s) (fun s => close_ifd begin (next s) s)))
    (12 * max + 9 + room) (fun begin stop ds => exists es ds' s, ds = Dir begin es (next s) :: ds' /\ stop = ifd_value_offset s /\ R es ds').
Proof.
  intros Hg Hn Hm Hr Hx begin b p Hb Hl Hw.
  destruct (open_filling begin max b p Hb ltac:(lia) ltac:(lia) Hw) as (lo & s & b1 & p1 & E1 & Hf & Ev & Hlo & F1).
  pose proof (frame_zlen _ _ _ F1) as L1.
  destruct (Hg begin lo s b1 p1 [] [] Hf) as (s2 & b2 & p2 & es & ds & E2 & Hf2 & HR & Hz & Hv & F2); [rewrite zlen_nil; lia|lia|].
  destruct (close_area begin lo s2 b2 p2 es ds (next s2) Hf2 (Hx s2)) as (b3 & p3 & E3 & HA & F3).
  exists (Dir begin es (next s2) :: ds), (ifd_value_offset s2), b3, p3. split.
  { unfold and_then, sbind. rewrite E1. cbn [obind]. rewrite E2. cbn [obind]. exact E3. }
  split; [lia|]. split; [done|]. split; [by exists es, ds, s2|].
  eapply (frame_trans _ _ _ b b2 b3); [eapply frame_trans; [exact F1|exact F2|intros i; exact id]|exact F3|]. unfold range. lia.
Qed.

Lemma writes_dir_weaken (m m' : Z -> swriter (option Z)) room room' (R R' : Z -> Z -> list item -> Prop) :
  writes_dir m room R -> (forall o c, m' o c = m o c) -> room <= room' -> (forall o h ds, R o h ds -> R' o h ds) -> writes_dir m' room' R'.
Proof.
  intros H Em Hr HR begin b p Hb Hl Hw. destruct (H begin b p Hb) as (ds & stop & b' & p' & E & Hs & HA & HQ & F); [lia|done|].
  exists ds, stop, b', p'. rewrite Em. split_and!; auto; lia.
Qed.

(** ** Pointers *)
Lemma long_gives v t x :
  0 <= t < 65536 -> u32_ok x -> gives (long v t x) (mk_field t IFD_LONG (if v then Some [x] else None)) 0.
Proof.
  intros Ht Hx. split; [lia|]. destruct v; cbn [f_values]; [|done]. do 4 (split; [done|]). split.
  { exists 1. split; [done|]. do 2 (split; [done|]). change (b_value (long true t x)) with (le_bytes 4 x). rewrite zlen_le_bytes. split; [done|].
    cbn [words]. rewrite take_ge by (by rewrite length_le_bytes). by rewrite le_val_u32. }
  split; [apply le_bytes_ok|]. split; [by intros [? ?]|done].
Qed.

Lemma pointer_grows t m room R :
  0 <= t < 65536 -> 0 <= room -> writes_dir m room R ->
  grows (write_pointer ifh t m) 1 (3 + room) (fun es ds => exists off stop, es = [mk_entry t IFD_LONG [off - ifh]] /\ R off stop ds).
Proof.
  intros Ht Hr Hm begin lo s b p es ds Hf Hc Hl. unfold write_pointer.
  pose proof (fl_value _ _ _ _ _ _ Hf). pose proof (fl_width _ _ _ _ _ _ Hf). pose proof (fl_begin _ _ _ _ _ _ Hf). pose proof (zlen_nonneg es).
  pose proof (JPEG_ALIGN_4_ge (ifd_value_offset s) ltac:(lia)) as Ha. set (v := JPEG_ALIGN_4 (ifd_value_offset s)) in *.
  set (s1 := mk_state (ifd_offset s) v (entries s)). assert (filling begin lo b s1 es ds) as Hf1.
  { eapply (filling_frame _ _ b b s s1 _ _ (fun _ => False)); [done|apply frame_refl|done|done|done|cbn; lia|by right]. }
  destruct (block_grows (pointer_block ifh t s1) (mk_field t IFD_LONG (Some [v - ifh])) 0) with (b := b) (p := p) (es := es) (ds := ds) (begin := begin) (lo := lo) (s := s1)
    as (s2 & b2 & p2 & es2 & ds2 & E2 & Hf2 & [-> ->] & Hz & Hv & F2); [|done|done|cbn; lia|].
  { replace (v - ifh) with (u32 (v - ifh)) by (apply u32_small; unfold u32_ok; lia). apply (long_gives true); [done|apply u32_range]. }
  cbn [ifd_value_offset s1] in Hv, F2. assert (ifd_value_offset s2 = v) as Ev2 by lia. rewrite Ev2 in *. pose proof (frame_zlen _ _ _ F2) as L2.
  destruct (Hm v b2 p2 ltac:(lia) ltac:(lia) ltac:(lia)) as (ds3 & stop & b3 & p3 & E3 & Hs & HA & HQ & F3).
  exists (mk_state (ifd_offset s2) stop (entries s2)), b3, p3, [mk_entry t IFD_LONG [v - ifh]], ds3. split.
  { unfold and_then, sbind. rewrite E2. cbn [obind]. rewrite Ev2, E3. done. }
  assert (frame (fun i => range v stop i) b2 b3) as F3' by done.
  assert (filling begin lo b3 (mk_state (ifd_offset s2) stop (entries s2)) (es ++ [mk_entry t IFD_LONG [v - ifh]]) (ds ++ [])) as Hf3.
  { eapply filling_frame; [exact Hf2|exact F3|unfold range; intros; right; lia|done|done|cbn; lia|right; unfold range; lia]. }
  rewrite app_nil_r in Hf3. split.
  { destruct Hf3 as [? ? ? ? ? ? ? ? Hd]. split; try done. apply Forall_app. split; [done|].
    eapply area_weaken; [exact HA|lia|cbn; lia]. }
  split; [by exists v, stop|]. split; [done|]. cbn [ifd_value_offset]. split; [lia|].
  eapply frame_trans; [exact F2|exact F3|]. unfold range. lia.
Qed.

Lemma grows_option {A} (x : option A) (m : A -> ifd_state -> swriter (option ifd_state)) n room (R : A -> list entry -> list item -> Prop) :
  (forall a, x = Some a -> grows (m a) n room (R a)) -> 0 <= n -> 0 <= room ->
  grows (fun s => match x with Some a => m a s | None => sret (Some s) end) n room
    (fun es ds => match x with Some a => R a es ds | None => es = [] /\ ds = [] end).
Proof.
  intros H Hn Hr. destruct x as [a|]; [by apply H|]. eapply grows_weaken; [apply grows_ret|done|done|done].
Qed.
End layout.
