(* ===== verification/ExifFields.v ===== *)
(** * The fields of EXIF data

    What a picture's EXIF data is to say, field by field in the terms of the EXIF
    standard: a tag, a type and the values, present when the program marks the field
    valid.  The second half shows that each block of the writer writes the field it
    stands for. *)

From S2P Require Import Prelude ExifTypes ExifStream ExifWriter ExifReader ExifDirectory ExifLayout.

(** ** Values *)
Definition present (v : bool) (vals : list Z) : option (list Z) := if v then Some vals else None.

Definition rational_values (l : list EXIF_RATIONAL_T) : list Z := concat ((fun r => [numerator r; denominator r]) <$> l).
Definition srational_values (r : EXIF_SRATIONAL_T) : list Z := [s_numerator r; s_denominator r].

(** A string up to and with its terminator. *)
Fixpoint text (l : list Z) : list Z :=
  match l with
  | [] => []
  | c :: l => if c =? 0 then [0] else c :: text l
  end.

(** The bytes of a field of variable size, when it is not empty. *)
Definition custom_bytes (v : bool) (c : EXIF_CUSTOM_T) : option (list Z) :=
  present (v && (0 <? c_count c)) (take (Z.to_nat (c_count c)) (c_ptr c)).

(** The same for shorts, which are in the memory of the target. *)
Definition custom_shorts (v : bool) (c : EXIF_CUSTOM_T) : option (list Z) :=
  present (v && (0 <? c_count c)) (words le_val (Z.to_nat (c_count c)) 2 (c_ptr c)).

(** ** Fields of a single kind *)
Definition Rational (t : Z) {A} (p : option A) (v : A -> bool) (x : A -> list EXIF_RATIONAL_T) : field :=
  mk_field t IFD_RATIONAL (a ← p; present (v a) (rational_values (x a))).
Definition SRational (t : Z) {A} (p : option A) (v : A -> bool) (x : A -> EXIF_SRATIONAL_T) : field :=
  mk_field t IFD_SRATIONAL (a ← p; present (v a) (srational_values (x a))).
Definition Short (t : Z) {A} (p : option A) (v : A -> bool) (x : A -> list Z) : field :=
  mk_field t IFD_SHORT (a ← p; present (v a) (x a)).
Definition Long (t : Z) {A} (p : option A) (v : A -> bool) (x : A -> Z) : field :=
  mk_field t IFD_LONG (a ← p; present (v a) [x a]).
Definition Bytes (t ty : Z) {A} (p : option A) (v : A -> bool) (x : A -> list Z) : field :=
  mk_field t ty (a ← p; present (v a) (x a)).
Definition Text (t : Z) {A} (p : option A) (v : A -> bool) (x : A -> list Z) : field :=
  mk_field t IFD_ASCII (a ← p; present (v a) (text (x a))).
Definition Custom (t ty : Z) {A} (p : option A) (v : A -> bool) (x : A -> EXIF_CUSTOM_T) : field :=
  mk_field t ty (a ← p; custom_bytes (v a) (x a)).

Definition Shorts (t : Z) {A} (p : option A) (v : A -> bool) (x : A -> EXIF_CUSTOM_T) : field :=
  mk_field t IFD_SHORT (a ← p; custom_shorts (v a) (x a)).

Definition always {A} (_ : A) : bool := true.

(** ** The interoperability directory *)
Definition inter_fields (i : EXIF_INTEROPERABILITY_INFO_T) : list field :=
  [ Custom IFD_INTEROPERABILITYINDEX IFD_ASCII (Some i) (v_InteroperabilityIndex ∘ inter_valid) InteroperabilityIndex ].

(** ** The EXIF directory *)
Definition spec_fields_1 (s : EXIF_SPECIFIC_INFO_T) : list field :=
  let c := pic_taking_cond_ptr s in
  let d := date_time_ptr s in
  [ Rational IFD_EXPOSURETIME c (v_ExposureTime ∘ cond_valid) (fun c => [ExposureTime c]);
    Rational IFD_FNUMBER c (v_FNumber ∘ cond_valid) (fun c => [FNumber c]);
    Short IFD_EXPOSUREPROGRAM c (v_ExposureProgram ∘ cond_valid) (fun c => [ExposureProgram c]);
    Text IFD_SPECTRALSENSITIVITY c (v_SpectralSensitivity ∘ cond_valid) SpectralSensitivity;
    Shorts IFD_ISOSPEEDRATINGS c (v_ISOSpeedRatings ∘ cond_valid) ISOSpeedRatings;
    Custom IFD_OECF IFD_UNDEFINED c (v_OECF ∘ cond_valid) OECF;
    Bytes IFD_EXIFVERSION IFD_UNDEFINED (Some s) always (fun _ => [48; 50; 50; 48]);
    Bytes IFD_DATETIMEORIGINAL IFD_ASCII d (v_DateTimeOriginal ∘ date_time_valid) DateTimeOriginal;
    Bytes IFD_DATETIMEDIGITILIZED IFD_ASCII d (v_DateTimeDigitized ∘ date_time_valid) DateTimeDigitized ].

Definition spec_fields_2 (s : EXIF_SPECIFIC_INFO_T) : list field :=
  let c := pic_taking_cond_ptr s in
  [ Bytes IFD_COMPONENTSCONFIGURATION IFD_UNDEFINED (Some (spec_basic s)) always ComponentsConfiguration;
    Rational IFD_COMPRESSEDBITSPERPIXEL (img_config_ptr s) (v_CompressedBitsPerPixel ∘ img_config_valid) (fun g => [CompressedBitsPerPixel g]);
    SRational IFD_SHUTTERSPEEDVALUE c (v_ShutterSpeedValue ∘ cond_valid) ShutterSpeedValue;
    Rational IFD_APERTUREVALUE c (v_ApertureValue ∘ cond_valid) (fun c => [ApertureValue c]);
    SRational IFD_BRIGHTNESSVALUE c (v_BrightnessValue ∘ cond_valid) BrightnessValue;
    SRational IFD_EXPOSUREBIASVALUE c (v_ExposureBiasValue ∘ cond_valid) ExposureBiasValue;
    Rational IFD_MAXAPERTUREVALUE c (v_MaxApertureValue ∘ cond_valid) (fun c => [MaxApertureValue c]);
    Rational IFD_SUBJECTDISTANCE c (v_SubjectDistance ∘ cond_valid) (fun c => [SubjectDistance c]);
    Short IFD_METERINGMODE c (v_MeteringMode ∘ cond_valid) (fun c => [MeteringMode c]) ].

Definition spec_fields_3 (s : EXIF_SPECIFIC_INFO_T) : list field :=
  let c := pic_taking_cond_ptr s in
  let d := date_time_ptr s in
  [ Short IFD_LIGHTSOURCE c (v_LightSource ∘ cond_valid) (fun c => [LightSource c]);
    Short IFD_FLASH c (v_Flash ∘ cond_valid) (fun c => [Flash c]);
    Rational IFD_FOCALLENGTH c (v_FocalLength ∘ cond_valid) (fun c => [FocalLength c]);
    Shorts IFD_SUBJECTAREA c (v_SubjectArea ∘ cond_valid) SubjectArea;
    Custom IFD_MAKERNOTE IFD_UNDEFINED (user_ptr s) (v_MakerNote ∘ user_valid) MakerNote;
    Custom IFD_USERCOMMENT IFD_UNDEFINED (user_ptr s) (v_UserComment ∘ user_valid) UserComment;
    Text IFD_SUBSECTIME d (v_SubSecTime ∘ date_time_valid) SubSecTime;
    Text IFD_SUBSECTIMEORIGINAL d (v_SubSecTimeOriginal ∘ date_time_valid) SubSecTimeOriginal;
    Text IFD_SUBSECTIMEDIGITILIZED d (v_SubSecTimeDigitized ∘ date_time_valid) SubSecTimeDigitized ].

Definition spec_fields_4 (s : EXIF_SPECIFIC_INFO_T) : list field :=
  [ Bytes IFD_FLASHPIXVERSION IFD_UNDEFINED (Some s) always (fun _ => [48; 49; 48; 48]);
    Short IFD_COLORSPACE (Some (spec_basic s)) always (fun b => [ColorSpace b]);
    Long IFD_PIXELXDIMENSION (Some (spec_basic s)) always PixelXDimension;
    Long IFD_PIXELYDIMENSION (Some (spec_basic s)) always PixelYDimension;
    Bytes IFD_RELATEDSOUNDFILE IFD_ASCII (related_file_ptr s) (v_RelatedSoundFile ∘ related_file_valid) RelatedSoundFile ].

Definition spec_fields_5 (s : EXIF_SPECIFIC_INFO_T) : list field :=
  let c := pic_taking_cond_ptr s in
  [ Rational IFD_FLASHENERGY c (v_FlashEnergy ∘ cond_valid) (fun c => [FlashEnergy c]);
    Custom IFD_SPATIALFREQUENCYRESPONSE IFD_UNDEFINED c (v_SpatialFrequencyResponse ∘ cond_valid) SpatialFrequencyResponse;
    Rational IFD_FOCALPLANEXRESOLUTION c (v_FocalPlaneXResolution ∘ cond_valid) (fun c => [FocalPlaneXResolution c]);
    Rational IFD_FOCALPLANEYRESOLUTION c (v_FocalPlaneYResolution ∘ cond_valid) (fun c => [FocalPlaneYResolution c]);
    Short IFD_FOCALPLANERESOLUTIONUNIT c (v_FocalPlaneResolutionUnit ∘ cond_valid) (fun c => [FocalPlaneResolutionUnit c]);
    Short IFD_SUBJECTLOCATION c (v_SubjectLocation ∘ cond_valid) SubjectLocation;
    Rational IFD_EXPOSUREINDEX c (v_ExposureIndex ∘ cond_valid) (fun c => [ExposureIndex c]);
    Short IFD_SENSINGMETHOD c (v_SensingMethod ∘ cond_valid) (fun c => [SensingMethod c]);
    Bytes IFD_FILESOURCE IFD_UNDEFINED c (v_FileSource ∘ cond_valid) (fun c => [FileSource c]) ].

Definition spec_fields_6 (s : EXIF_SPECIFIC_INFO_T) : list field :=
  let c := pic_taking_cond_ptr s in
  [ Bytes IFD_SCENETYPE IFD_UNDEFINED c (v_SceneType ∘ cond_valid) (fun c => [SceneType c]);
    Custom IFD_CFAPATTERN IFD_UNDEFINED c (v_CFAPattern ∘ cond_valid) CFAPattern;
    Short IFD_CUSTOMRENDERED c (v_CustomRendered ∘ cond_valid) (fun c => [CustomRendered c]);
    Short IFD_EXPOSUREMODE c (v_ExposureMode ∘ cond_valid) (fun c => [ExposureMode c]);
    Short IFD_WHITEBALANCE c (v_WhiteBalance ∘ cond_valid) (fun c => [WhiteBalance c]);
    Rational IFD_DIGITALZOOMRATIO c (v_DigitalZoomRatio ∘ cond_valid) (fun c => [DigitalZoomRatio c]);
    Short IFD_FOCALLENGTHIN35MMFILM c (v_FocalLengthIn35mmFilm ∘ cond_valid) (fun c => [FocalLengthIn35mmFilm c]);
    Short IFD_SCENECAPTURETYPE c (v_SceneCaptureType ∘ cond_valid) (fun c => [SceneCaptureType c]);
    Short IFD_GAINCONTROL c (v_GainControl ∘ cond_valid) (fun c => [GainControl c]) ].

Definition spec_fields_7 (s : EXIF_SPECIFIC_INFO_T) : list field :=
  let c := pic_taking_cond_ptr s in
  [ Short IFD_CONTRAST c (v_Contrast ∘ cond_valid) (fun c => [Contrast c]);
    Short IFD_SATURATION c (v_Saturation ∘ cond_valid) (fun c => [Saturation c]);
    Short IFD_SHARPNESS c (v_Sharpness ∘ cond_valid) (fun c => [Sharpness c]);
    Custom IFD_DEVICESETTINGDESCRIPTION IFD_UNDEFINED c (v_DeviceSettingDescription ∘ cond_valid) DeviceSettingDescription;
    Short IFD_SUBJECTDISTANCERANGE c (v_SubjectDistanceRange ∘ cond_valid) (fun c => [SubjectDistanceRange c]);
    Bytes IFD_IMAGEUNIQUEID IFD_ASCII (other_ptr s) (v_ImageUniqueID ∘ other_valid) ImageUniqueID ].

(** ** The GPS directory *)
Definition gps_fields_1 (g : EXIF_GPS_INFO_T) : list field :=
  [ Bytes IFD_GPSVERSIONID IFD_BYTE (Some g) (v_GPSVersionID ∘ gps_valid) GPSVersionID;
    Bytes IFD_GPSLATITUDEREF IFD_ASCII (Some g) (v_GPSLatitudeRef ∘ gps_valid) GPSLatitudeRef;
    Rational IFD_GPSLATITUDE (Some g) (v_GPSLatitude ∘ gps_valid) GPSLatitude;
    Bytes IFD_GPSLONGITUDEREF IFD_ASCII (Some g) (v_GPSLongitudeRef ∘ gps_valid) GPSLongitudeRef;
    Rational IFD_GPSLONGITUDE (Some g) (v_GPSLongitude ∘ gps_valid) GPSLongitude;
    Bytes IFD_GPSALTITUDEREF IFD_BYTE (Some g) (v_GPSAltitudeRef ∘ gps_valid) (fun g => [GPSAltitudeRef g]);
    Rational IFD_GPSALTITUDE (Some g) (v_GPSAltitude ∘ gps_valid) (fun g => [GPSAltitude g]);
    Rational IFD_GPSTIMESTAMP (Some g) (v_GPSTimeStamp ∘ gps_valid) GPSTimeStamp;
    Text IFD_GPSSATELLITES (Some g) (v_GPSSatellites ∘ gps_valid) GPSSatellites ].

Definition gps_fields_2 (g : EXIF_GPS_INFO_T) : list field :=
  [ Bytes IFD_GPSSTATUS IFD_ASCII (Some g) (v_GPSStatus ∘ gps_valid) GPSStatus;
    Bytes IFD_GPSMEASUREMODE IFD_ASCII (Some g) (v_GPSMeasureMode ∘ gps_valid) GPSMeasureMode;
    Rational IFD_GPSDOP (Some g) (v_GPSDOP ∘ gps_valid) (fun g => [GPSDOP g]);
    Bytes IFD_GPSSPEEDREF IFD_ASCII (Some g) (v_GPSSpeedRef ∘ gps_valid) GPSSpeedRef;
    Rational IFD_GPSSPEED (Some g) (v_GPSSpeed ∘ gps_valid) (fun g => [GPSSpeed g]);
    Bytes IFD_GPSTRACKREF IFD_ASCII (Some g) (v_GPSTrackRef ∘ gps_valid) GPSTrackRef;
    Rational IFD_GPSTRACK (Some g) (v_GPSTrack ∘ gps_valid) (fun g => [GPSTrack g]);
    Bytes IFD_GPSIMGDIRECTIONREF IFD_ASCII (Some g) (v_GPSImgDirectionRef ∘ gps_valid) GPSImgDirectionRef;
    Rational IFD_GPSIMGDIRECTION (Some g) (v_GPSImgDirection ∘ gps_valid) (fun g => [GPSImgDirection g]) ].

Definition gps_fields_3 (g : EXIF_GPS_INFO_T) : list field :=
  [ Text IFD_GPSMAPDATUM (Some g) (v_GPSMapDatum ∘ gps_valid) GPSMapDatum;
    Bytes IFD_GPSDESTLATITUDEREF IFD_ASCII (Some g) (v_GPSDestLatitudeRef ∘ gps_valid) GPSDestLatitudeRef;
    Rational IFD_GPSDESTLATITUDE (Some g) (v_GPSDestLatitude ∘ gps_valid) GPSDestLatitude;
    Bytes IFD_GPSDESTLONGITUDEREF IFD_ASCII (Some g) (v_GPSDestLongitudeRef ∘ gps_valid) GPSDestLongitudeRef;
    Rational IFD_GPSDESTLONGITUDE (Some g) (v_GPSDestLongitude ∘ gps_valid) GPSDestLongitude;
    Bytes IFD_GPSDESTBEARINGREF IFD_ASCII (Some g) (v_GPSDestBearingRef ∘ gps_valid) GPSDestBearingRef;
    Rational IFD_GPSDESTBEARING (Some g) (v_GPSDestBearing ∘ gps_valid) (fun g => [GPSDestBearing g]);
    Bytes IFD_GPSDESTDISTANCEREF IFD_ASCII (Some g) (v_GPSDestDistanceRef ∘ gps_valid) GPSDestDistanceRef;
    Rational IFD_GPSDESTDISTANCE (Some g) (v_GPSDestDistance ∘ gps_valid) (fun g => [GPSDestDistance g]) ].

Definition gps_fields_4 (g : EXIF_GPS_INFO_T) : list field :=
  [ Custom IFD_GPSPROCESSINGMETHOD IFD_UNDEFINED (Some g) (v_GPSProcessingMethod ∘ gps_valid) GPSProcessingMethod;
    Custom IFD_GPSAREAINFORMATION IFD_UNDEFINED (Some g) (v_GPSAreaInformation ∘ gps_valid) GPSAreaInformation;
    Bytes IFD_GPSDATESTAMP IFD_ASCII (Some g) (v_GPSDateStamp ∘ gps_valid) GPSDateStamp;
    Short IFD_GPSDIFFERENTIAL (Some g) (v_GPSDifferential ∘ gps_valid) (fun g => [GPSDifferential g]) ].

(** ** The directory of an image *)
Definition primary_fields_1 (p : EXIF_PRIMARY_INFO_T) : list field :=
  let d := img_desc_ptr p in
  [ Short IFD_COMPRESSION (data_struct_ptr p) (v_Reserved ∘ data_struct_valid) (fun s => [Reserved s]);
    Text IFD_IMAGEDESCRIPTION d (v_ImageDescription ∘ desc_valid) ImageDescription;
    Text IFD_MAKE d (v_Make ∘ desc_valid) Make;
    Text IFD_MODEL d (v_Model ∘ desc_valid) Model;
    Short IFD_ORIENTATION (data_struct_ptr p) (v_Orientation ∘ data_struct_valid) (fun s => [Orientation s]);
    Rational IFD_XRESOLUTION (Some (pri_basic p)) always (fun b => [XResolution b]);
    Rational IFD_YRESOLUTION (Some (pri_basic p)) always (fun b => [YResolution b]);
    Short IFD_RESOLUTIONUNIT (Some (pri_basic p)) always (fun b => [ResolutionUnit b]);
    Short IFD_TRANSFERFUNCTION (data_char_ptr p) (v_TransferFunction ∘ data_char_valid) TransferFunction ].

Definition primary_fields_2 (p : EXIF_PRIMARY_INFO_T) : list field :=
  let d := img_desc_ptr p in
  let c := data_char_ptr p in
  [ Text IFD_SOFTWARE d (v_Software ∘ desc_valid) Software;
    Bytes IFD_DATETIME IFD_ASCII d (v_DateTime ∘ desc_valid) DateTime;
    Text IFD_ARTIST d (v_Artist ∘ desc_valid) Artist;
    Rational IFD_WHITEPOINT c (v_WhitePoint ∘ data_char_valid) WhitePoint;
    Rational IFD_PRIMARYCHROMATICITIES c (v_PrimaryChromaticities ∘ data_char_valid) PrimaryChromaticities ].

(** [thumbnail]: its position and size. *)
Definition primary_fields_3 (p : EXIF_PRIMARY_INFO_T) (thumbnail : option (Z * Z)) : list field :=
  let d := img_desc_ptr p in
  let c := data_char_ptr p in
  [ Long IFD_JPEGINTERCHANGEFORMAT thumbnail always fst;
    Long IFD_JPEGINTERCHANGEFORMATLENGTH thumbnail always snd;
    Rational IFD_YCBCRCOEFFICIENTS c (v_YCbCrCoefficients ∘ data_char_valid) YCbCrCoefficients;
    Short IFD_YCBCRPOSITION (Some (pri_basic p)) always (fun b => [YCbCrPositioning b]);
    Long IFD_IMAGEWIDTH (Some (pri_basic p)) always ImageWidth;
    Long IFD_IMAGELENGTH (Some (pri_basic p)) always ImageLength;
    Rational IFD_REFERENCEBLACKWHITE c (v_ReferenceBlackWhite ∘ data_char_valid) ReferenceBlackWhite;
    Text IFD_COPYRIGHT d (v_Copyright ∘ desc_valid) Copyright ].

(** * Blocks and fields *)

Lemma gives_on {A} (p : option A) f t ty (g : A -> option (list Z)) k :
  (forall a, p = Some a -> gives (f a) (mk_field t ty (g a)) k) -> 0 <= k -> gives (on p f) (mk_field t ty (a ← p; g a)) k.
Proof. intros H Hk. destruct p as [a|]; cbn [on]; [exact (H a eq_refl)|]. split; [done|done]. Qed.

(** The common part: a block that is written when [v]. *)
Lemma gives_when (v : bool) t ty n here value w vals k :
  0 <= t < 65536 -> 0 <= k ->
  (v = true -> exists m, n = Done m /\ fits w ty m value vals /\ Forall byte_ok value /\
    (is_Some here -> value_size ty vals <= 4) /\ cost (mk_entry t ty vals) <= k) ->
  gives (mk_block v t ty n here value w) (mk_field t ty (present v vals)) k.
Proof.
  intros Ht Hk H. split; [done|]. destruct v; cbn [present f_values]; [|done]. destruct (H eq_refl) as (m & -> & Hf & Hb & Hh & Hc).
  do 4 (split; [done|]). split; [by exists m|]. done.
Qed.

Lemma cost_le t ty vals u k n : shape ty = Some (u, k) -> Z.of_nat u * zlen vals <= n -> 0 <= n -> cost (mk_entry t ty vals) <= n + 3.
Proof. intros Hs Hn H0. unfold cost, value_size. cbn [e_type e_values]. rewrite Hs. cif; lia. Qed.

(** ** Memory and values *)
Lemma rational_memory l : concat (map mem_rational l) = concat (le_bytes 4 <$> rational_values l).
Proof.
  unfold rational_values. induction l as [|r l IH]; [done|]. cbn [map concat fmap list_fmap].
  rewrite IH, (fmap_app (le_bytes 4)), concat_app. cbn [fmap list_fmap concat]. by rewrite app_nil_r.
Qed.

Lemma zlen_rational_values l : zlen (rational_values l) = 2 * zlen l.
Proof. unfold rational_values, zlen. induction l as [|r l IH]; [done|]. cbn [fmap list_fmap concat length app]. lia. Qed.

Lemma rational_values_ok l : Forall rational_ok l -> Forall (fun x => 0 <= x < 256 ^ Z.of_nat 4) (rational_values l).
Proof.
  unfold rational_values. induction 1 as [|r l [Hn Hd] _ IH]; [constructor|]. cbn [fmap list_fmap concat app].
  constructor; [exact Hn|]. constructor; [exact Hd|exact IH].
Qed.

Lemma concat_le_ok u ws : Forall byte_ok (concat (le_bytes u <$> ws)).
Proof. apply Forall_concat, Forall_fmap, Forall_true. intros x. apply le_bytes_ok. Qed.

Lemma zlen_concat_le u ws : zlen (concat (le_bytes u <$> ws)) = Z.of_nat u * zlen ws.
Proof.
  unfold zlen. induction ws as [|w ws IH]; [cbn; lia|]. cbn [fmap list_fmap concat]. rewrite length_app, length_le_bytes. cbn [length]. lia.
Qed.

(** ** Blocks of a single kind *)
Lemma rationals_gives v t n l :
  0 <= t < 65536 -> array_of (Z.to_nat n) rational_ok l -> 1 <= n ->
  gives (rationals v t n l) (mk_field t IFD_RATIONAL (present v (rational_values l))) (8 * n + 3).
Proof.
  intros Ht [Hl Hr] Hn. apply gives_when; [done|lia|]. intros _. exists n. split; [done|]. rewrite rational_memory.
  assert (zlen (rational_values l) = 2 * n) as Ez by (rewrite zlen_rational_values; unfold zlen; lia). split.
  - split; [by left|]. split; [done|]. rewrite zlen_concat_le, Ez. split; [lia|].
    replace (2 * Z.to_nat n)%nat with (length (rational_values l)) by (unfold zlen in Ez; lia).
    rewrite words_le by (by apply rational_values_ok). symmetry. apply (list_fmap_id (rational_values l)).
  - split; [apply concat_le_ok|]. split; [by intros [? ?]|]. eapply cost_le; [reflexivity|lia|lia].
Qed.

Lemma signed_le_bytes x : - 2 ^ 31 <= x < 2 ^ 31 -> signed IFD_SRATIONAL (le_val (le_bytes 4 x)) = x.
Proof.
  intros Hx. rewrite le_val_le_bytes. change (256 ^ Z.of_nat 4) with (2 ^ 32). change (signed IFD_SRATIONAL ?y) with (s32 y).
  unfold s32, u32, wrap. cif; Z.to_euclidean_division_equations; lia.
Qed.

Lemma srational_gives v t r :
  0 <= t < 65536 -> srational_ok r -> gives (srational v t r) (mk_field t IFD_SRATIONAL (present v (srational_values r))) 11.
Proof.
  intros Ht [Hn Hd]. apply gives_when; [done|lia|]. intros _. exists 1. split; [done|]. split.
  - split; [by right|]. split; [done|]. unfold mem_srational. rewrite zlen_app, !zlen_le_bytes. split; [done|].
    change (2 * Z.to_nat 1)%nat with 2%nat. cbn [words fmap list_fmap].
    rewrite take_app_length', drop_app_length' by (by rewrite length_le_bytes). rewrite take_ge by (by rewrite length_le_bytes).
    by rewrite !signed_le_bytes.
  - split; [apply Forall_app; split; apply le_bytes_ok|]. split; [by intros [? ?]|]. done.
Qed.

Lemma shorts_fit t n (here : option Z) l k :
  0 <= t < 65536 -> array_of (Z.to_nat n) (fun x => 0 <= x < 65536) l -> 1 <= n -> k = 2 * n + 3 -> (is_Some here -> n = 1) ->
  exists m, Done n = Done m /\ fits WriteShort IFD_SHORT m (concat (map mem_short l)) l /\ Forall byte_ok (concat (map mem_short l)) /\
    (is_Some here -> value_size IFD_SHORT l <= 4) /\ cost (mk_entry t IFD_SHORT l) <= k.
Proof.
  intros Ht [Hl Hr] Hn -> Hh. change (concat (map mem_short l)) with (concat (le_bytes 2 <$> l)).
  assert (zlen l = n) as Ez by (unfold zlen; lia). exists n. split; [done|]. split.
  - left. rewrite zlen_concat_le, Ez. do 3 (split; [done|]). replace (Z.to_nat n) with (length l). by rewrite words_le.
  - split; [apply concat_le_ok|]. split; [intros Hs; specialize (Hh Hs); unfold value_size; cbn; lia|].
    eapply cost_le; [reflexivity|lia|lia].
Qed.

Lemma shorts_gives v t n l :
  0 <= t < 65536 -> array_of (Z.to_nat n) (fun x => 0 <= x < 65536) l -> 1 <= n ->
  gives (shorts v t n l) (mk_field t IFD_SHORT (present v l)) (2 * n + 3).
Proof. intros Ht Hl Hn. apply gives_when; [done|lia|]. intros _. apply shorts_fit; done. Qed.

Lemma short_here_gives v t x :
  0 <= t < 65536 -> 0 <= x < 65536 -> gives (short_here v t x) (mk_field t IFD_SHORT (present v [x])) 5.
Proof.
  intros Ht Hx. apply gives_when; [done|lia|]. intros _. apply (shorts_fit t 1 (Some x) [x]); try done. split; [done|]. by constructor.
Qed.

Lemma bytes_fit t ty n l :
  0 <= t < 65536 -> ty = IFD_BYTE \/ ty = IFD_ASCII \/ ty = IFD_UNDEFINED -> Forall byte_ok l -> 1 <= n <= zlen l ->
  exists m, Done n = Done m /\ fits WriteByte ty m l (take (Z.to_nat n) l) /\ Forall byte_ok l /\
    (is_Some (@None Z) -> value_size ty (take (Z.to_nat n) l) <= 4) /\ cost (mk_entry t ty (take (Z.to_nat n) l)) <= n + 3.
Proof.
  intros Ht Hy Hb Hn. exists n. split; [done|]. split; [done|]. split; [done|]. split; [by intros [? ?]|].
  eapply (cost_le _ _ _ 1 1); [by destruct Hy as [-> | [-> | ->]]|rewrite zlen_take by lia; lia|lia].
Qed.

Lemma bytes_gives v t ty n l :
  0 <= t < 65536 -> ty = IFD_BYTE \/ ty = IFD_ASCII \/ ty = IFD_UNDEFINED -> array_of (Z.to_nat n) byte_ok l -> 1 <= n ->
  gives (bytes v t ty n l) (mk_field t ty (present v l)) (n + 3).
Proof.
  intros Ht Hy [Hl Hb] Hn. apply gives_when; [done|lia|]. intros _.
  pose proof (bytes_fit t ty n l Ht Hy Hb ltac:(unfold zlen; lia)) as H. by rewrite (take_ge l (Z.to_nat n)) in H by lia.
Qed.

Lemma string_size l : 0 ∈ l -> exists n, _GetAsciiStringSize l = Done n /\ 0 <= n < zlen l /\ text l = take (Z.to_nat (n + 1)) l.
Proof.
  induction l as [|c l IH]; intros Hin; [by apply not_elem_of_nil in Hin|]. cbn [_GetAsciiStringSize text]. rewrite zlen_cons. pose proof (zlen_nonneg l).
  destruct (Z.eqb_spec c 0) as [->|Hc]; [exists 0; split_and!; done || lia|].
  apply elem_of_cons in Hin as [?|Hin]; [done|]. destruct (IH Hin) as (n & En & Hn & Et). exists (n + 1). rewrite En. cbn [obind].
  split_and!; [done|lia|lia|]. replace (Z.to_nat (n + 1 + 1)) with (S (Z.to_nat (n + 1))) by lia. cbn [take firstn]. by rewrite <- Et.
Qed.

Lemma ascii_gives v t n l :
  0 <= t < 65536 -> array_of n byte_ok l -> (v = true -> 0 ∈ l) -> gives (ascii v t l) (mk_field t IFD_ASCII (present v (text l))) (Z.of_nat n + 3).
Proof.
  intros Ht [Hl Hb] Hz. apply gives_when; [done|lia|]. intros Hv. destruct (string_size l (Hz Hv)) as (m & -> & Hm & ->). cbn [obind].
  destruct (bytes_fit t IFD_ASCII (m + 1) l Ht) as (m' & E & H1 & H2 & H3 & H4); [auto|done|lia|].
  exists m'. do 4 (split; [done|]). unfold zlen in Hm. lia.
Qed.

Lemma custom_bytes_gives v t ty c :
  0 <= t < 65536 -> ty = IFD_BYTE \/ ty = IFD_ASCII \/ ty = IFD_UNDEFINED -> custom_ok c -> (v = true -> c_count c <= 256) ->
  gives (custom v t ty c WriteByte) (mk_field t ty (custom_bytes v c)) 259.
Proof.
  intros Ht Hy [[Hl Hb] Hc _] Hn. apply gives_when; [done|lia|]. intros [Hv Hp]%andb_true_iff. specialize (Hn Hv). unfold u32_ok in Hc.
  destruct (bytes_fit t ty (c_count c) (c_ptr c) Ht Hy Hb) as (m' & E & H1 & H2 & H3 & H4); [unfold zlen; lia|].
  exists m'. do 4 (split; [done|]). lia.
Qed.

Lemma custom_shorts_gives v t c :
  0 <= t < 65536 -> custom_ok c -> (v = true -> 2 * c_count c <= 256) ->
  gives (custom v t IFD_SHORT c WriteShort) (mk_field t IFD_SHORT (custom_shorts v c)) 259.
Proof.
  intros Ht [[Hl Hb] Hc _] Hn. apply gives_when; [done|lia|]. intros [Hv Hp]%andb_true_iff. specialize (Hn Hv). unfold u32_ok in Hc.
  exists (c_count c). split; [done|]. split; [left; split_and!; try done; unfold zlen; lia|]. split; [done|]. split; [by intros [? ?]|].
  eapply (cost_le _ _ _ 2 1 256); [done|unfold zlen; rewrite length_words; lia|lia].
Qed.

Lemma wide_short_gives t x :
  0 <= t < 65536 -> 0 <= x < 65536 ->
  gives (mk_block true t IFD_LONG (Done 1) None (mem_long x) WriteShort) (mk_field t IFD_LONG (Some [x])) 0.
Proof.
  intros Ht Hx. apply (gives_when true); [done|lia|]. intros _. exists 1. split; [done|]. split.
  - right. do 2 (split; [done|]). unfold mem_long. rewrite zlen_le_bytes. split; [done|]. cbn [words le_bytes take firstn le_val].
    f_equal. Z.to_euclidean_division_equations. lia.
  - split; [apply le_bytes_ok|]. split; [by intros [? ?]|done].
Qed.

(** * Data that can be written

    What the writer relies on beyond the types: strings end, fields of variable size fit
    their array, and the fields that it writes in its own way are as it takes them: no
    subject area, the longitude of the destination valid with its latitude, the maker
    note and the comment valid when they are not empty, sizes of sixteen bits. *)
Definition ends (v : bool) (l : list Z) : Prop := v = true -> 0 ∈ l.
Definition sized (u : Z) (v : bool) (c : EXIF_CUSTOM_T) : Prop := v = true -> u * c_count c <= 256.

Record primary_wf (p : EXIF_PRIMARY_INFO_T) : Prop := {
  pw_types : primary_info_ok p;
  pw_width : ImageWidth (pri_basic p) < 65536;
  pw_length : ImageLength (pri_basic p) < 65536;
  pw_desc : opt_ok (fun d => let v := desc_valid d in
    ends (v_ImageDescription v) (ImageDescription d) /\ ends (v_Make v) (Make d) /\ ends (v_Model v) (Model d) /\
    ends (v_Software v) (Software d) /\ ends (v_Artist v) (Artist d) /\ ends (v_Copyright v) (Copyright d)) (img_desc_ptr p)
}.

Record spec_wf (s : EXIF_SPECIFIC_INFO_T) : Prop := {
  sw_types : spec_info_ok s;
  sw_user : opt_ok (fun u => sized 1 true (MakerNote u) /\ sized 1 true (UserComment u) /\
    (0 < c_count (MakerNote u) -> v_MakerNote (user_valid u) = true) /\
    (0 < c_count (UserComment u) -> v_UserComment (user_valid u) = true)) (user_ptr s);
  sw_date_time : opt_ok (fun d => let v := date_time_valid d in
    ends (v_SubSecTime v) (SubSecTime d) /\ ends (v_SubSecTimeOriginal v) (SubSecTimeOriginal d) /\
    ends (v_SubSecTimeDigitized v) (SubSecTimeDigitized d)) (date_time_ptr s);
  sw_cond : opt_ok (fun c => let v := cond_valid c in
    ends (v_SpectralSensitivity v) (SpectralSensitivity c) /\ sized 2 (v_ISOSpeedRatings v) (ISOSpeedRatings c) /\
    sized 1 (v_OECF v) (OECF c) /\ (v_SubjectArea v = true -> c_count (SubjectArea c) = 0) /\
    sized 1 (v_SpatialFrequencyResponse v) (SpatialFrequencyResponse c) /\ sized 1 (v_CFAPattern v) (CFAPattern c) /\
    sized 1 (v_DeviceSettingDescription v) (DeviceSettingDescription c)) (pic_taking_cond_ptr s)
}.

Record gps_wf (g : EXIF_GPS_INFO_T) : Prop := {
  gw_types : gps_ok g;
  gw_satellites : ends (v_GPSSatellites (gps_valid g)) (GPSSatellites g);
  gw_datum : ends (v_GPSMapDatum (gps_valid g)) (GPSMapDatum g);
  gw_destination : v_GPSDestLongitude (gps_valid g) = v_GPSDestLatitude (gps_valid g);
  gw_method : sized 1 (v_GPSProcessingMethod (gps_valid g)) (GPSProcessingMethod g);
  gw_area : sized 1 (v_GPSAreaInformation (gps_valid g)) (GPSAreaInformation g)
}.

Definition inter_wf (i : EXIF_INTEROPERABILITY_INFO_T) : Prop :=
  inter_ok i /\ sized 1 (v_InteroperabilityIndex (inter_valid i)) (InteroperabilityIndex i).

Definition exif_wf (x : JINF_EXIF_INFO_T) : Prop :=
  primary_wf (primary x) /\ opt_ok spec_wf (spec_ptr x) /\ opt_ok gps_wf (gps_ptr x) /\ opt_ok inter_wf (inter_ptr x).

(** ** The blocks of each directory *)
Lemma opt_ok_Some {A} (P : A -> Prop) o a : opt_ok P o -> o = Some a -> P a.
Proof. by intros H ->. Qed.

Lemma array_one {A} (P : A -> Prop) x : P x -> array_of (Z.to_nat 1) P [x].
Proof. intros H. split; [done|]. by constructor. Qed.

Lemma sized_bytes v c : sized 1 v c -> v = true -> c_count c <= 256.
Proof. unfold sized. intros H Hv. specialize (H Hv). lia. Qed.

Lemma exif_version_ok : array_of (Z.to_nat 4) byte_ok exif_version.
Proof. split; [done|]. by repeat constructor. Qed.

Lemma flashpix_version_ok : array_of (Z.to_nat 4) byte_ok flashpix_version.
Proof. split; [done|]. by repeat constructor. Qed.

#[local] Hint Resolve array_one sized_bytes exif_version_ok flashpix_version_ok : exif.

(** A field that is not there, and one that is written whatever its valid bit. *)
Lemma absent_gives v t ty c w : (v = true -> c_count c = 0) -> gives (custom v t ty c w) (mk_field t ty (custom_shorts v c)) 0.
Proof.
  intros H. split; [done|]. unfold custom_shorts, custom. cbn [f_values b_valid]. destruct v; [|done]. by rewrite H.
Qed.

Lemma none_gives t ty : gives no_block (mk_field t ty None) 0.
Proof. done. Qed.

Lemma note_gives v t ty c :
  0 <= t < 65536 -> ty = IFD_BYTE \/ ty = IFD_ASCII \/ ty = IFD_UNDEFINED -> custom_ok c -> sized 1 true c -> (0 < c_count c -> v = true) ->
  gives (custom true t ty c WriteByte) (mk_field t ty (custom_bytes v c)) 259.
Proof.
  intros Ht Hy Hc Hs Hv. replace (custom_bytes v c) with (custom_bytes true c).
  - apply custom_bytes_gives; [done..|]. by apply sized_bytes.
  - unfold custom_bytes. destruct (Z.ltb_spec 0 (c_count c)) as [H|H]; [by rewrite Hv|by rewrite !andb_false_r].
Qed.

Ltac tag_range := split; [by vm_compute|reflexivity].

(** One block and its field. *)
Ltac give_here :=
  lazymatch goal with
  | |- gives (rationals _ _ _ _) _ _ => apply rationals_gives; [tag_range| |lia]
  | |- gives (srational _ _ _) _ _ => apply srational_gives; [tag_range|]
  | |- gives (shorts _ _ _ _) _ _ => apply shorts_gives; [tag_range| |lia]
  | |- gives (short_here _ _ _) _ _ => apply short_here_gives; [tag_range|]
  | |- gives (long _ _ _) _ _ => apply (long_gives true); [tag_range|]
  | |- gives (bytes _ _ _ _ _) _ _ => apply bytes_gives; [tag_range|by auto| |lia]
  | |- gives (ascii _ _ _) _ _ => eapply ascii_gives; [tag_range| |]
  | |- gives no_block _ _ => apply none_gives
  | |- gives (mk_block _ _ _ _ _ _ WriteShort) _ _ => apply wide_short_gives; [tag_range|]
  | |- gives (custom _ _ _ _ WriteRational) _ _ => apply absent_gives
  | |- gives (custom true _ _ _ WriteByte) _ _ => apply note_gives; [tag_range|by auto| | |]
  | |- gives (custom _ _ _ _ WriteByte) _ _ => apply custom_bytes_gives; [tag_range|by auto| |]
  | |- gives (custom _ _ _ _ WriteShort) _ _ => apply custom_shorts_gives; [tag_range| |]
  end.

Ltac give :=
  lazymatch goal with
  | |- gives (on _ _) _ _ => eapply gives_on; [let a := fresh "a" in let H := fresh "Ha" in intros a H; give_here|]
  | |- _ => give_here
  end.

Lemma inter_gives i : inter_wf i -> all_give (inter_blocks i) (inter_fields i) 259.
Proof.
  intros [[Hc] Hs]. change 259 with (259 + 0). constructor; [|constructor]. give; [done|by apply sized_bytes].
Qed.

(** A list of blocks and its fields; the facts the side conditions need are in the context. *)
Definition room_for (bs : list block) (fs : list field) (n : Z) : Prop := exists r, r <= n /\ all_give bs fs r.

Ltac of_pointer :=
  match goal with
  | H : opt_ok ?P ?o, E : ?o = Some _ |- _ => pose proof (opt_ok_Some P o _ H E); clear H
  end.

Ltac give_all :=
  eexists; split; cycle 1;
  [ repeat (eapply give_cons; [give; try lia; repeat of_pointer; cbn beta zeta in *; destruct_and?; eauto with exif|]); apply give_nil
  | cbn; lia ].

(** Everything about the structures that the pointers lead to. *)
Ltac open_wf :=
  repeat match goal with
  | H : spec_wf _ |- _ => destruct H
  | H : gps_wf _ |- _ => destruct H
  | H : primary_wf _ |- _ => destruct H
  | H : spec_info_ok _ |- _ => destruct H
  | H : primary_info_ok _ |- _ => destruct H
  end.

Lemma spec_gives_1 s : spec_wf s -> room_for (spec_blocks_1 s) (spec_fields_1 s) 900.
Proof. intros. open_wf. give_all. Qed.

Lemma spec_gives_2 s : spec_wf s -> room_for (spec_blocks_2 s) (spec_fields_2 s) 100.
Proof. intros. open_wf. give_all. Qed.

Lemma spec_gives_3 s : spec_wf s -> room_for (spec_blocks_3 s) (spec_fields_3 s) 1400.
Proof. intros. open_wf. give_all. Qed.

Lemma spec_gives_4 s : spec_wf s -> room_for (spec_blocks_4 s) (spec_fields_4 s) 100.
Proof. intros. open_wf. give_all. Qed.

Lemma spec_gives_5 s : spec_wf s -> room_for (spec_blocks_5 s) (spec_fields_5 s) 400.
Proof. intros. open_wf. give_all. Qed.

Lemma spec_gives_6 s : spec_wf s -> room_for (spec_blocks_6 s) (spec_fields_6 s) 400.
Proof. intros. open_wf. give_all. Qed.

Lemma spec_gives_7 s : spec_wf s -> room_for (spec_blocks_7 s) (spec_fields_7 s) 400.
Proof. intros. open_wf. give_all. Qed.

Lemma gps_gives_1 g : gps_wf g -> room_for (gps_blocks_1 g) (gps_fields_1 g) 500.
Proof. intros. open_wf. give_all. Qed.

Lemma gps_gives_2 g : gps_wf g -> room_for (gps_blocks_2 g) (gps_fields_2 g) 100.
Proof. intros. open_wf. give_all. Qed.

Lemma gps_gives_3 g : gps_wf g -> room_for (gps_blocks_3 g) (gps_fields_3 g) 500.
Proof.
  intros. open_wf. unfold gps_fields_3.
  replace (Rational IFD_GPSDESTLONGITUDE _ _ _) with (Rational IFD_GPSDESTLONGITUDE (Some g) (v_GPSDestLatitude ∘ gps_valid) GPSDestLongitude); [give_all|].
  unfold Rational, compose. cbn [mbind option_bind]. by rewrite gw_destination0.
Qed.

Lemma gps_gives_4 g : gps_wf g -> room_for (gps_blocks_4 g) (gps_fields_4 g) 600.
Proof. intros. open_wf. give_all. Qed.

Lemma primary_gives_1 p : primary_wf p -> room_for (primary_blocks_1 p) (primary_fields_1 p) 2500.
Proof. intros. open_wf. give_all. Qed.

Lemma primary_gives_2 p : primary_wf p -> room_for (primary_blocks_2 p) (primary_fields_2 p) 700.
Proof. intros. open_wf. give_all. Qed.

(** The position of the thumbnail is 0 at first. *)
Lemma primary_gives_3 p thumbnail :
  primary_wf p -> opt_ok (fun t => u32_ok (snd t)) thumbnail ->
  room_for (primary_blocks_3 p thumbnail) (primary_fields_3 p ((fun t => (0, snd t)) <$> thumbnail)) 500.
Proof.
  intros Hp Ht. assert (u32_ok 0) by done.
  assert (0 <= ImageWidth (pri_basic p) < 65536 /\ 0 <= ImageLength (pri_basic p) < 65536) as [? ?].
  { pose proof (pw_types p Hp) as [[] _ _ _ _]. pose proof (pw_width p Hp). pose proof (pw_length p Hp). unfold u32_ok in *. lia. }
  open_wf. unfold primary_blocks_3. destruct thumbnail as [[t n]|]; cbn [on opt_ok snd] in *; give_all.
Qed.
