(* ===== verification/ExifRoundtrip.v ===== *)
(** * The EXIF writer against the reader

    [Jpeg_WriteAPP1] writes a segment from which a reader of EXIF data gets exactly the
    fields of the program's structures and the thumbnail. *)

From S2P Require Import Prelude ExifTypes ExifStream ExifWriter ExifReader ExifDirectory ExifLayout ExifFields.

(** ** What the segment is to say *)
Definition spec_fields_head (s : EXIF_SPECIFIC_INFO_T) : list field := spec_fields_1 s ++ spec_fields_2 s ++ spec_fields_3 s ++ spec_fields_4 s.
Definition spec_fields_tail (s : EXIF_SPECIFIC_INFO_T) : list field := spec_fields_5 s ++ spec_fields_6 s ++ spec_fields_7 s.
Definition gps_fields (g : EXIF_GPS_INFO_T) : list field := gps_fields_1 g ++ gps_fields_2 g ++ gps_fields_3 g ++ gps_fields_4 g.
Definition primary_fields_head (p : EXIF_PRIMARY_INFO_T) : list field := primary_fields_1 p ++ primary_fields_2 p.

(** The directories and the thumbnail; the entries that are positions are the reader's
    business. *)
Definition expected (x : JINF_EXIF_INFO_T) (thumbnail : option (list Z)) : exif_data :=
  mk_data (entries_of (primary_fields_head (primary x) ++ primary_fields_3 (primary x) None))
    ((fun s => entries_of (spec_fields_head s ++ spec_fields_tail s)) <$> spec_ptr x)
    (match spec_ptr x with Some _ => (fun i => entries_of (inter_fields i)) <$> inter_ptr x | None => None end)
    ((fun g => entries_of (gps_fields g)) <$> gps_ptr x)
    ((fun t => (drop_tag IFD_JPEGINTERCHANGEFORMAT
                  (entries_of (primary_fields_head ifd1_primary ++ primary_fields_3 ifd1_primary (Some (0, zlen t)))), t)) <$> thumbnail).

(** * The directories *)

Lemma and_then_assoc {A B C} (m : swriter (option A)) (k1 : A -> swriter (option B)) (k2 : B -> swriter (option C)) c :
  and_then (and_then m k1) k2 c = and_then m (fun a => and_then (k1 a) k2) c.
Proof. unfold and_then, sbind. destruct (m c) as [[[a|] c'] | |]; done. Qed.

Lemma and_then_ext {A B} (m : swriter (option A)) (k1 k2 : A -> swriter (option B)) c :
  (forall a c, k1 a c = k2 a c) -> and_then m k1 c = and_then m k2 c.
Proof. intros H. unfold and_then, sbind. destruct (m c) as [[[a|] c'] | |]; cbn [obind]; auto. Qed.

Lemma room_app bs1 fs1 n1 bs2 fs2 n2 : room_for bs1 fs1 n1 -> room_for bs2 fs2 n2 -> room_for (bs1 ++ bs2) (fs1 ++ fs2) (n1 + n2).
Proof. intros (r1 & H1 & A1) (r2 & H2 & A2). exists (r1 + r2). split; [lia|]. by apply all_give_app. Qed.

Section directories.
Context (ifh : Z) (Hifh : 0 <= ifh).

Lemma blocks_grow_room bs fs n : room_for bs fs n -> grows ifh (write_blocks ifh bs) (zlen bs) n (fun es ds => es = entries_of fs /\ ds = []).
Proof. intros (r & Hr & Ha). eapply grows_weaken; [by apply (blocks_grow ifh Hifh _ _ _ Ha)|lia|done|done]. Qed.

Lemma inter_writes i :
  inter_wf i -> writes_dir ifh (Jpeg_WriteExifInteroperabilityInfo i ifh) 280 (fun o _ ds => ds = [Dir o (entries_of (inter_fields i)) 0]).
Proof.
  intros Hi. pose proof (blocks_grow ifh Hifh _ _ _ (inter_gives i Hi)) as Hg.
  eapply writes_dir_weaken; [by eapply (dir_writes ifh Hifh 1 _ 1 259 _ (fun _ => 0)); [exact Hg|..]|done|done|].
  by intros o h ds (es & ds' & s & -> & _ & -> & ->).
Qed.

(** What an optional pointer adds. *)
Definition pointed {A} (t : Z) (x : option A) (R : A -> Z -> list item -> Prop) (es : list entry) (ds : list item) : Prop :=
  match x with
  | Some a => exists off, es = [mk_entry t IFD_LONG [off - ifh]] /\ R a off ds
  | None => es = [] /\ ds = []
  end.

Lemma pointed_grows {A} (x : option A) t (m : A -> Z -> swriter (option Z)) room (R : A -> Z -> list item -> Prop) :
  0 <= t < 65536 -> 0 <= room -> (forall a, x = Some a -> writes_dir ifh (m a) room (fun o _ ds => R a o ds)) ->
  grows ifh (fun s => match x with Some a => write_pointer ifh t (m a) s | None => sret (Some s) end) 1
    (match x with Some _ => 3 + room | None => 0 end) (pointed t x R).
Proof.
  intros Ht Hr H. destruct x as [a|].
  - eapply grows_weaken; [by apply (pointer_grows ifh Hifh t (m a) room _ Ht Hr (H a eq_refl))|done|done|].
    intros es ds (off & stop & -> & HR). by exists off.
  - eapply grows_weaken; [apply grows_ret|done|done|done].
Qed.

Definition spec_dir (s : EXIF_SPECIFIC_INFO_T) (inter : option EXIF_INTEROPERABILITY_INFO_T) (o : Z) (ds : list item) : Prop :=
  exists es ds', ds = Dir o (entries_of (spec_fields_head s) ++ es ++ entries_of (spec_fields_tail s)) 0 :: ds' /\
    pointed IFD_INTEROPERABILITYIFDPOINTER inter (fun i off ds => ds = [Dir off (entries_of (inter_fields i)) 0]) es ds'.

Lemma spec_writes s inter :
  spec_wf s -> opt_ok inter_wf inter -> writes_dir ifh (Jpeg_WriteExifSpecInfo s inter ifh) 4676 (fun o _ ds => spec_dir s inter o ds).
Proof.
  intros Hs Hi.
  pose proof (blocks_grow_room _ _ _ (room_app _ _ _ _ _ _ (spec_gives_1 s Hs) (room_app _ _ _ _ _ _ (spec_gives_2 s Hs)
    (room_app _ _ _ _ _ _ (spec_gives_3 s Hs) (spec_gives_4 s Hs))))) as G1.
  pose proof (blocks_grow_room _ _ _ (room_app _ _ _ _ _ _ (spec_gives_5 s Hs) (room_app _ _ _ _ _ _ (spec_gives_6 s Hs) (spec_gives_7 s Hs)))) as G3.
  pose proof (pointed_grows inter IFD_INTEROPERABILITYIFDPOINTER (fun i => Jpeg_WriteExifInteroperabilityInfo i ifh) 280
    (fun i off ds => ds = [Dir off (entries_of (inter_fields i)) 0]) ltac:(done) ltac:(lia)) as G2.
  specialize (G2 (fun i Ei => inter_writes i (opt_ok_Some _ _ _ Hi Ei))).
  pose proof (grows_weaken ifh _ _ _ _ 1 283 _ G2 ltac:(lia) ltac:(destruct inter; lia) (fun _ _ H => H)) as G2'. clear G2.
  pose proof (grows_then ifh _ _ _ _ _ _ _ _ G1 G2') as G12. specialize (G12 ltac:(lia) ltac:(lia)).
  pose proof (grows_then ifh _ _ _ _ _ _ _ _ G12 G3) as G. specialize (G (zlen_nonneg _) ltac:(lia)).
  eapply writes_dir_weaken; [by eapply (dir_writes ifh Hifh 57 _ _ _ _ (fun _ => 0)); [exact G|..]| |done|].
  - intros o c. unfold Jpeg_WriteExifSpecInfo. apply and_then_ext. clear. intros st c.
    rewrite !and_then_assoc. apply and_then_ext. clear. intros st c. rewrite ?and_then_assoc. done.
  - intros o h ds (es & ds' & st & -> & _ & es12 & ds12 & es3 & ds3 & -> & -> & (es1 & ds1 & es2 & ds2 & -> & -> & [-> ->] & HP) & -> & ->).
    exists es2, ds2. rewrite <- app_assoc. cbn [app]. rewrite app_nil_r. done.
Qed.

Definition gps_dir (g : EXIF_GPS_INFO_T) (o : Z) (ds : list item) : Prop := ds = [Dir o (entries_of (gps_fields g)) 0].

Lemma gps_writes g : gps_wf g -> writes_dir ifh (Jpeg_WriteExifGPSInfo g ifh) 2081 (fun o _ ds => gps_dir g o ds).
Proof.
  intros Hg. pose proof (blocks_grow_room _ _ _ (room_app _ _ _ _ _ _ (gps_gives_1 g Hg) (room_app _ _ _ _ _ _ (gps_gives_2 g Hg)
    (room_app _ _ _ _ _ _ (gps_gives_3 g Hg) (gps_gives_4 g Hg))))) as G.
  eapply writes_dir_weaken; [by eapply (dir_writes ifh Hifh 31 _ _ _ _ (fun _ => 0)); [exact G|..]|done|done|].
  by intros o h ds (es & ds' & st & -> & _ & -> & ->).
Qed.

(** ** The thumbnail *)

(** An entry written over. *)
Lemma filling_replace begin lo b b' s es1 e es2 ds e' :
  filling ifh begin lo b s (es1 ++ e :: es2) ds ->
  stored b' ifh lo (ifd_value_offset s) (begin + 2 + 12 * zlen es1) e' ->
  frame (range (begin + 2 + 12 * zlen es1) (begin + 2 + 12 * zlen es1 + 12)) b b' ->
  filling ifh begin lo b' s (es1 ++ e' :: es2) ds.
Proof.
  intros [? Ho Hc Hl ? ? ? He Hd] Hs F. rewrite zlen_app, zlen_cons in Ho, Hc, Hl. pose proof (frame_zlen _ _ _ F). pose proof (zlen_nonneg es2).
  split; rewrite ?zlen_app, ?zlen_cons; try done; try lia.
  - intros j x Hj. destruct (decide (j = length es1)) as [->|Hne].
    { rewrite list_lookup_middle in Hj by done. injection Hj as <-. exact Hs. }
    assert ((es1 ++ e :: es2) !! j = Some x) as Hx.
    { destruct (decide (j < length es1)%nat); [by rewrite lookup_app_l in * by lia|]. rewrite lookup_app_r in * by lia.
      destruct (j - length es1)%nat eqn:E; [lia|done]. }
    apply lookup_lt_Some in Hx as Hlt. rewrite length_app in Hlt. cbn [length] in Hlt.
    eapply stored_frame; [by apply He|exact F|lia|]. intros i Hi. unfold range, zlen in *. lia.
  - eapply area_frame; [done|exact F|]. intros i Hi. unfold range, zlen in *. lia.
Qed.

Lemma thumbnail_fills begin lo s b p es1 x es2 ds t n :
  filling ifh begin lo b s (es1 ++ mk_entry IFD_JPEGINTERCHANGEFORMAT IFD_LONG [x] :: es2) ds ->
  Forall byte_ok t -> 0 <= n <= zlen t -> ifd_value_offset s + n <= zlen b ->
  exists s' b' p', write_thumbnail ifh (begin + 2 + 12 * zlen es1) (t, n) s (mem b p) = Done (Some s', mem b' p') /\
    filling ifh begin lo b' s' (es1 ++ mk_entry IFD_JPEGINTERCHANGEFORMAT IFD_LONG [ifd_value_offset s - ifh] :: es2)
      (ds ++ [Raw (ifd_value_offset s) (take (Z.to_nat n) t)]) /\
    ifd_value_offset s' = ifd_value_offset s + n /\
    frame (fun i => range begin lo i \/ range (ifd_value_offset s) (ifd_value_offset s') i) b b'.
Proof.
  intros Hf Ht Hn Hl. pose proof (fl_value _ _ _ _ _ _ _ Hf). pose proof (fl_begin _ _ _ _ _ _ _ Hf). pose proof (fl_width _ _ _ _ _ _ _ Hf).
  pose proof (fl_lo _ _ _ _ _ _ _ Hf) as Hlo. rewrite zlen_app, zlen_cons in Hlo. pose proof (zlen_nonneg es1). pose proof (zlen_nonneg es2).
  set (v := ifd_value_offset s) in *. set (slot := begin + 2 + 12 * zlen es1). assert (slot = begin + 2 + 12 * zlen es1) as Eslot by done.
  assert (zlen (take (Z.to_nat n) t) = n) as Ez by (rewrite zlen_take by lia; lia).
  destruct (WriteBlock_emits t n Ht Hn b v ltac:(lia)) as (b1 & S1 & E1); [lia|]. rewrite Ez in E1.
  pose proof (splice_frame _ _ _ _ S1) as F1. pose proof (splice_bytes_at _ _ _ _ S1) as B1. rewrite Ez in F1. pose proof (frame_zlen _ _ _ F1) as L1.
  set (i := mk_ifd IFD_JPEGINTERCHANGEFORMAT IFD_LONG 1 (le_bytes 4 (v - ifh)) (mem_long (v - ifh))).
  assert (u32 (v - ifh) = v - ifh) as Eu by (apply u32_small; unfold u32_ok; lia).
  destruct (long_stores ifh lo slot (v + n) slot b1 ltac:(lia) ltac:(lia) ltac:(lia) i [v - ifh]) as (b2 & p2 & v2 & E2 & Hv2 & Hs2 & F2).
  { cbn [i type count value_ptr fits]. do 2 (split; [done|]). unfold mem_long. rewrite zlen_le_bytes. split; [done|]. cbn [words].
    rewrite take_ge by (by rewrite length_le_bytes). by rewrite le_val_u32 by (unfold u32_ok; lia). }
  { apply le_bytes_ok. }
  { done. }
  { lia. }
  change (cost (mk_entry (tag i) (type i) [v - ifh])) with 0 in Hv2. assert (v2 = v + n) as -> by lia.
  assert (frame (range slot (slot + 12)) b1 b2) as F2' by (eapply frame_weaken; [exact F2|]; unfold range; lia).
  exists (mk_state (ifd_offset s) (v + n) (entries s)), b2, p2. split.
  { unfold write_thumbnail, sbind, or_return, sbind. fold v. rewrite SetWritePos_mem by lia. cbn [obind fst snd]. rewrite E1. cbn [obind].
    rewrite GetWritePos_mem by lia. cbn [obind]. rewrite SetWritePos_mem by lia. cbn [obind]. rewrite Eu. fold i. rewrite E2. done. }
  split; [|split; [done|eapply frame_trans; [exact F1|exact F2'|]; unfold range; cbn [ifd_value_offset]; lia]].
  assert (filling ifh begin lo b1 (mk_state (ifd_offset s) (v + n) (entries s)) (es1 ++ mk_entry IFD_JPEGINTERCHANGEFORMAT IFD_LONG [x] :: es2)
    (ds ++ [Raw v (take (Z.to_nat n) t)])) as Hf1.
  { eapply (filling_frame ifh _ _ b b1 s (mk_state (ifd_offset s) (v + n) (entries s))) in Hf; [|exact F1|..]; try done.
    - destruct Hf. split; try done. apply Forall_app. split; [done|]. constructor; [|constructor]. cbn. rewrite Ez. split_and!; [lia|lia|done].
    - intros j. unfold range. lia.
    - cbn. lia.
    - right. unfold range. lia. }
  eapply filling_replace; [exact Hf1|exact Hs2|exact F2'].
Qed.

(** ** The directory of an image *)
Definition thumbnail_ok (t : list Z * Z) : Prop := Forall byte_ok (fst t) /\ 0 <= snd t <= zlen (fst t) /\ u32_ok (snd t).
Definition thumbnail_bytes (t : list Z * Z) : list Z := take (Z.to_nat (snd t)) (fst t).

(** What the blocks before the thumbnail add. *)
Definition ifd_middle (p : EXIF_PRIMARY_INFO_T) (spec : option EXIF_SPECIFIC_INFO_T) (gps : option EXIF_GPS_INFO_T)
    (inter : option EXIF_INTEROPERABILITY_INFO_T) (fs : list field) (es : list entry) (ds : list item) : Prop :=
  exists es_s ds_s es_g ds_g, es = entries_of fs ++ es_s ++ es_g /\ ds = ds_s ++ ds_g /\
    pointed IFD_EXIFIFDPOINTER spec (fun s => spec_dir s inter) es_s ds_s /\ pointed IFD_GPSIFDPOINTER gps gps_dir es_g ds_g.

(** The position of the thumbnail is in the first of these fields. *)
Definition after_position (p : EXIF_PRIMARY_INFO_T) (n : Z) : list entry := entries_of (drop 1 (primary_fields_3 p (Some (0, n)))).

Lemma position_first p x n :
  entries_of (primary_fields_3 p (Some (x, n))) = mk_entry IFD_JPEGINTERCHANGEFORMAT IFD_LONG [x] :: after_position p n.
Proof. done. Qed.

Section image.
Context (p : EXIF_PRIMARY_INFO_T) (spec : option EXIF_SPECIFIC_INFO_T) (gps : option EXIF_GPS_INFO_T)
  (inter : option EXIF_INTEROPERABILITY_INFO_T) (thumbnail : option (list Z * Z)).
Hypotheses (Hp : primary_wf p) (Hspec : opt_ok spec_wf spec) (Hgps : opt_ok gps_wf gps) (Hinter : opt_ok inter_wf inter)
  (Hthumb : opt_ok thumbnail_ok thumbnail).

(** The bytes of the directories below. *)
Definition below : Z := match spec with Some _ => 4679 | None => 0 end + match gps with Some _ => 2084 | None => 0 end.

Definition write_middle (s : ifd_state) : swriter (option ifd_state) :=
  and_then (and_then (write_blocks ifh (primary_blocks_3 p thumbnail) s)
    (fun s => match spec with
              | Some spec => write_pointer ifh IFD_EXIFIFDPOINTER (Jpeg_WriteExifSpecInfo spec inter ifh) s
              | None => sret (Some s)
              end))
    (fun s => match gps with
              | Some gps => write_pointer ifh IFD_GPSIFDPOINTER (Jpeg_WriteExifGPSInfo gps ifh) s
              | None => sret (Some s)
              end).

Lemma middle_grows :
  grows ifh write_middle 10 (500 + below) (ifd_middle p spec gps inter (primary_fields_3 p ((fun t => (0, snd t)) <$> thumbnail))).
Proof.
  assert (opt_ok (fun t : list Z * Z => u32_ok (snd t)) thumbnail) as Ht by (destruct thumbnail; [apply Hthumb|done]).
  pose proof (blocks_grow_room _ _ _ (primary_gives_3 p thumbnail Hp Ht)) as G1.
  pose proof (pointed_grows spec IFD_EXIFIFDPOINTER (fun s => Jpeg_WriteExifSpecInfo s inter ifh) 4676 (fun s => spec_dir s inter)
    ltac:(tag_range) ltac:(lia) (fun s Es => spec_writes s inter (opt_ok_Some _ _ _ Hspec Es) Hinter)) as G2.
  pose proof (pointed_grows gps IFD_GPSIFDPOINTER (fun g => Jpeg_WriteExifGPSInfo g ifh) 2081 gps_dir
    ltac:(tag_range) ltac:(lia) (fun g Eg => gps_writes g (opt_ok_Some _ _ _ Hgps Eg))) as G3.
  pose proof (grows_then ifh _ _ _ _ _ _ _ _ G1 G2) as G12. specialize (G12 ltac:(lia) ltac:(destruct spec; lia)).
  pose proof (grows_then ifh _ _ _ _ _ _ _ _ G12 G3) as G. specialize (G ltac:(lia) ltac:(destruct gps; lia)).
  eapply grows_weaken; [exact G|done|unfold below; destruct spec, gps; lia|].
  intros es ds (es12 & ds12 & es3 & ds3 & -> & -> & (es1 & ds1 & es2 & ds2 & -> & -> & [-> ->] & H2) & H3).
  exists es2, ds2, es3, ds3. rewrite <- app_assoc. done.
Qed.

Definition write_image (s : ifd_state) : swriter (option ifd_state) :=
  and_then (write_blocks ifh (primary_blocks_1 p ++ primary_blocks_2 p) s) (fun s1 =>
  and_then (write_middle s1) (fun s =>
  match thumbnail with Some t => write_thumbnail ifh (ifd_offset s1) t s | None => sret (Some s) end)).

Definition image_items (pos : Z) (es : list entry) (ds : list item) : Prop :=
  exists ds', ds = ds' ++ match thumbnail with Some t => [Raw (ifh + pos) (thumbnail_bytes t)] | None => [] end /\
    ifd_middle p spec gps inter (primary_fields_head p ++ primary_fields_3 p ((fun t => (pos, snd t)) <$> thumbnail)) es ds'.

Definition thumbnail_room : Z := match thumbnail with Some t => snd t | None => 0 end.

Lemma image_grows : grows ifh write_image 24 (3700 + below + thumbnail_room) (fun es ds => exists pos, image_items pos es ds).
Proof.
  assert (0 <= thumbnail_room) as Htr by (unfold thumbnail_room; destruct thumbnail; [apply Hthumb|done]).
  intros begin lo s b q es ds Hf Hc Hl.
  destruct (blocks_grow_room _ _ _ (room_app _ _ _ _ _ _ (primary_gives_1 p Hp) (primary_gives_2 p Hp)) begin lo s b q es ds Hf)
    as (s1 & b1 & q1 & es1 & ds1 & E1 & Hf1 & [-> ->] & Hz1 & Hv1 & F1).
  { change (zlen (primary_blocks_1 p ++ primary_blocks_2 p)) with 14. lia. }
  { unfold below in *. destruct spec, gps; lia. }
  pose proof (frame_zlen _ _ _ F1) as L1. change (zlen (primary_blocks_1 p ++ primary_blocks_2 p)) with 14 in Hz1. rewrite app_nil_r in Hf1.
  destruct (middle_grows begin lo s1 b1 q1 _ _ Hf1) as (s2 & b2 & q2 & es2 & ds2 & E2 & Hf2 & HM & Hz2 & Hv2 & F2).
  { rewrite zlen_app. lia. }
  { lia. }
  pose proof (frame_zlen _ _ _ F2) as L2. pose proof (fl_offset _ _ _ _ _ _ _ Hf1) as Ho1.
  assert (frame (fun x => range begin lo x \/ range (ifd_value_offset s) (ifd_value_offset s2) x) b b2) as F12
    by (eapply frame_trans; [exact F1|exact F2|]; unfold range; lia).
  unfold write_image, and_then, sbind. rewrite E1. cbn [obind]. rewrite E2. cbn [obind].
  destruct HM as (es_s & ds_s & es_g & ds_g & -> & -> & HS & HG). unfold image_items, thumbnail_room in *. destruct thumbnail as [[t n]|].
  - destruct Hthumb as (Ht & Hn & _). cbn [fst snd] in *. cbn [fmap option_fmap option_map snd] in *.
    rewrite position_first in Hf2. cbn [app] in Hf2. rewrite app_assoc in Hf2.
    destruct (thumbnail_fills _ _ s2 b2 q2 _ _ _ _ t n Hf2 Ht Hn) as (s3 & b3 & q3 & E3 & Hf3 & Hv3 & F3); [lia|].
    rewrite <- Ho1 in E3. exists s3, b3, q3.
    exists (entries_of (primary_fields_head p ++ primary_fields_3 p (Some (ifd_value_offset s2 - ifh, n))) ++ es_s ++ es_g),
      ((ds_s ++ ds_g) ++ [Raw (ifd_value_offset s2) (thumbnail_bytes (t, n))]). split; [exact E3|]. split.
    { rewrite entries_of_app, position_first, !app_assoc. rewrite !app_assoc in Hf3. rewrite <- !app_assoc in *. exact Hf3. }
    split.
    { exists (ifd_value_offset s2 - ifh), (ds_s ++ ds_g). replace (ifh + (ifd_value_offset s2 - ifh)) with (ifd_value_offset s2) by lia.
      split; [done|]. by exists es_s, ds_s, es_g, ds_g. }
    split; [|split; [lia|eapply frame_trans; [exact F12|exact F3|]; unfold range; lia]].
    rewrite !zlen_app in *. rewrite entries_of_app, zlen_app. rewrite position_first in *. rewrite !zlen_cons in *. unfold primary_fields_head. lia.
  - exists s2, b2, q2, (entries_of (primary_fields_head p ++ primary_fields_3 p None) ++ es_s ++ es_g), (ds_s ++ ds_g).
    split; [done|]. rewrite entries_of_app. rewrite <- !app_assoc in Hf2 |- *. split; [exact Hf2|].
    split; [exists 0, (ds_s ++ ds_g); rewrite app_nil_r; split; [done|]; exists es_s, ds_s, es_g, ds_g; rewrite entries_of_app, <- app_assoc; done|].
    split; [|split; [lia|done]]. rewrite !zlen_app in *. cbn [fmap option_fmap option_map] in *. unfold primary_fields_head in *. rewrite ?entries_of_app, ?zlen_app in *. lia.
Qed.

Definition image_dir (is_next_ifd_exist : bool) (o stop : Z) (ds : list item) : Prop :=
  exists pos es ds', ds = Dir o es (if is_next_ifd_exist then u32 (stop - ifh) else 0) :: ds' /\ image_items pos es ds'.

Lemma image_writes next :
  writes_dir ifh (Jpeg_WriteExifIFD p spec gps inter thumbnail next ifh) (3997 + below + thumbnail_room) (image_dir next).
Proof.
  eapply writes_dir_weaken.
  - eapply (dir_writes ifh Hifh 24 _ 24 _ _ (fun s => if next then u32 (ifd_value_offset s - ifh) else 0)); [exact image_grows|lia|lia| |].
    + unfold below, thumbnail_room. destruct spec, gps, thumbnail; cbn in *; try lia; destruct Hthumb; lia.
    + intros s. destruct next; [apply u32_range|done].
  - intros o c. unfold Jpeg_WriteExifIFD. apply and_then_ext. clear. intros st c. unfold write_image.
    rewrite !and_then_assoc. apply and_then_ext. clear. intros st c. unfold write_middle. by rewrite !and_then_assoc.
  - lia.
  - intros o h ds (es & ds' & s & -> & -> & pos & HI). by exists pos, es, ds'.
Qed.
End image.
End directories.
