(* ===== verification/ExifApp1.v ===== *)
(** * The APP1 segment

    The directories that ExifRoundtrip places in the buffer, read back: the round trip of
    [Jpeg_WriteAPP1] and [read_app1]. *)

From S2P Require Import Prelude JpegCodec ExifTypes ExifStream ExifWriter ExifReader ExifDirectory ExifLayout ExifFields ExifRoundtrip.

(** ** Reading items *)
Lemma area_read b lo hi ds n off es next :
  area 10 b lo hi ds -> hi <= n -> Dir off es next ∈ ds -> read_ifd (take (Z.to_nat n) b) 10 off = Some (es, next).
Proof.
  intros H Hn Hin. unfold area in H. rewrite Forall_forall in H. destruct (H _ Hin) as (_ & h & Hh & Hd). eapply ifd_read, ifd_take; [done|lia].
Qed.

Lemma area_get b lo hi ds n off bs :
  area 10 b lo hi ds -> hi <= n -> Raw off bs ∈ ds -> get (take (Z.to_nat n) b) off (zlen bs) = Some bs.
Proof.
  intros H Hn Hin. unfold area in H. rewrite Forall_forall in H. destruct (H _ Hin) as (_ & Hh & Hd). eapply get_bytes_at; [apply bytes_at_take; [done|lia]|done].
Qed.

Lemma clean_fields t fs : forallb (fun f => negb (f_tag f =? t)) fs = true -> clean t (entries_of fs).
Proof.
  unfold clean, entries_of. induction fs as [|f fs IH]; cbn; [by constructor|]. intros [H1 H2]%andb_true_iff.
  unfold field_entry. destruct (f_values f); cbn; [|by apply IH]. constructor; [|by apply IH]. unfold has_tag. cbn [e_tag]. by destruct (f_tag f =? t).
Qed.

Lemma clean_app t es1 es2 : clean t es1 -> clean t es2 -> clean t (es1 ++ es2).
Proof. intros. by apply Forall_app. Qed.

Section pointed.
Context {A : Type} (t : Z) (x : option A) (R : A -> Z -> list item -> Prop) (es : list entry) (ds : list item).
Hypothesis (HP : pointed 10 t x R es ds).

Lemma pointed_clean t' : (t =? t') = false -> clean t' es.
Proof. intros Ht. destruct x; [|by destruct HP as [-> _]; constructor]. destruct HP as (off & -> & _). by repeat constructor. Qed.

Lemma pointed_drop : drop_tag t es = [].
Proof. destruct x; [|by destruct HP as [-> _]]. destruct HP as (off & -> & _). by rewrite drop_tag_hit. Qed.

(** The directory behind the pointer, among entries that are not it. *)
Lemma pointed_read b F G (Q : A -> list entry -> Prop) :
  clean t F -> clean t G -> (forall a off, R a off ds -> exists es', read_ifd b 10 off = Some (es', 0) /\ Q a es') ->
  exists sub, read_sub b 10 t (F ++ es ++ G) = Some sub /\ option_Forall2 Q x sub.
Proof.
  intros HF HG Hs. unfold read_sub. rewrite find_tag_clean by done. destruct x as [a|].
  - destruct HP as (off & -> & HR). destruct (Hs a off HR) as (es' & Hr & HQ). exists (Some es'). cbn [app]. rewrite find_tag_hit.
    replace (10 + (off - 10)) with off by lia. rewrite Hr. split; [done|by constructor].
  - destruct HP as [-> _]. exists None. rewrite app_nil_l, <- (app_nil_r G), find_tag_clean by done. split; [done|constructor].
Qed.
End pointed.

(** ** Directories *)
Definition image_fields (p : EXIF_PRIMARY_INFO_T) (thumbnail : option (Z * Z)) : list field := primary_fields_head p ++ primary_fields_3 p thumbnail.


(** The EXIF directory and what it leads to. *)
Lemma spec_read b o stop ds n s inter off :
  area 10 b o stop ds -> stop <= n -> spec_dir 10 s inter off ds ->
  exists es, read_ifd (take (Z.to_nat n) b) 10 off = Some (es, 0) /\
    drop_tag IFD_INTEROPERABILITYIFDPOINTER es = entries_of (spec_fields_head s ++ spec_fields_tail s) /\
    read_sub (take (Z.to_nat n) b) 10 IFD_INTEROPERABILITYIFDPOINTER es = Some ((fun i => entries_of (inter_fields i)) <$> inter).
Proof.
  intros Ha Hn (es & ds' & E & HP). exists (entries_of (spec_fields_head s) ++ es ++ entries_of (spec_fields_tail s)).
  assert (clean IFD_INTEROPERABILITYIFDPOINTER (entries_of (spec_fields_head s)) /\
    clean IFD_INTEROPERABILITYIFDPOINTER (entries_of (spec_fields_tail s))) as [C1 C2] by (split; apply clean_fields; reflexivity).
  split; [|split].
  - eapply area_read; [done|done|]. rewrite E. by left.
  - rewrite entries_of_app. revert C1 C2. generalize (entries_of (spec_fields_head s)), (entries_of (spec_fields_tail s)). intros F G C1 C2.
    by rewrite !drop_tag_app, (pointed_drop _ _ _ _ _ HP), !drop_tag_clean.
  - destruct (pointed_read _ _ _ _ _ HP (take (Z.to_nat n) b) _ _ (fun i es => es = entries_of (inter_fields i)) C1 C2) as (sub & -> & HQ).
    { intros i off' E'. eexists. split; [|done]. eapply area_read; [done|done|]. rewrite E, E'. right. by left. }
    by destruct HQ as [i ? ->|].
Qed.

(** IFD0 and the directories below it. *)
Lemma ifd0_read b x stop next ds n :
  area 10 b 18 stop ds -> stop <= n -> image_dir 10 (primary x) (spec_ptr x) (gps_ptr x) (inter_ptr x) None next 18 stop ds ->
  exists es ex, read_ifd (take (Z.to_nat n) b) 10 18 = Some (es, if next then u32 (stop - 10) else 0) /\
    drop_tag IFD_EXIFIFDPOINTER (drop_tag IFD_GPSIFDPOINTER es) = entries_of (image_fields (primary x) None) /\
    read_sub (take (Z.to_nat n) b) 10 IFD_EXIFIFDPOINTER es = Some ex /\
    drop_tag IFD_INTEROPERABILITYIFDPOINTER <$> ex = (fun s => entries_of (spec_fields_head s ++ spec_fields_tail s)) <$> spec_ptr x /\
    match ex with Some xs => read_sub (take (Z.to_nat n) b) 10 IFD_INTEROPERABILITYIFDPOINTER xs | None => Some None end =
      Some (match spec_ptr x with Some _ => (fun i => entries_of (inter_fields i)) <$> inter_ptr x | None => None end) /\
    read_sub (take (Z.to_nat n) b) 10 IFD_GPSIFDPOINTER es = Some ((fun g => entries_of (gps_fields g)) <$> gps_ptr x).
Proof.
  intros Ha Hn (pos & es & ds' & E & ds'' & E' & es_s & ds_s & es_g & ds_g & -> & -> & HS & HG). rewrite app_nil_r in E'. subst ds'.
  cbn [fmap option_fmap option_map] in *. fold (image_fields (primary x) None) in *. set (F := entries_of (image_fields (primary x) None)) in *.
  assert (area 10 b 18 stop ds_s /\ area 10 b 18 stop ds_g) as [As Ag].
  { rewrite E in Ha. apply Forall_cons in Ha as [_ Ha]. by apply Forall_app in Ha. }
  assert (clean IFD_EXIFIFDPOINTER F /\ clean IFD_GPSIFDPOINTER F) as [C1 C2] by (split; apply clean_fields; reflexivity).
  pose proof (pointed_clean _ _ _ _ _ HG IFD_EXIFIFDPOINTER eq_refl) as C3. pose proof (pointed_clean _ _ _ _ _ HS IFD_GPSIFDPOINTER eq_refl) as C4.
  assert (read_ifd (take (Z.to_nat n) b) 10 18 = Some (F ++ es_s ++ es_g, if next then u32 (stop - 10) else 0)) as H0
    by (eapply area_read; [exact Ha|done|]; rewrite E; by left).
  destruct (pointed_read _ _ _ _ _ HS (take (Z.to_nat n) b) F es_g (fun s es => drop_tag IFD_INTEROPERABILITYIFDPOINTER es =
    entries_of (spec_fields_head s ++ spec_fields_tail s) /\ read_sub (take (Z.to_nat n) b) 10 IFD_INTEROPERABILITYIFDPOINTER es =
    Some ((fun i => entries_of (inter_fields i)) <$> inter_ptr x)) C1 C3) as (ex & H1 & H2).
  { intros s off HR. by apply (spec_read _ _ _ _ _ _ _ _ As Hn HR). }
  destruct (pointed_read _ _ _ _ _ HG (take (Z.to_nat n) b) (F ++ es_s) [] (fun g es => es = entries_of (gps_fields g))) as (gp & H3 & H4).
  { by apply clean_app. }
  { constructor. }
  { intros g off HR. eexists. split; [|done]. eapply area_read; [exact Ag|done|]. rewrite HR. by left. }
  rewrite app_nil_r, <- app_assoc in H3. exists (F ++ es_s ++ es_g), ex. split; [done|]. split.
  { rewrite !drop_tag_app, (pointed_drop _ _ _ _ _ HG), (drop_tag_clean IFD_GPSIFDPOINTER F), (drop_tag_clean IFD_GPSIFDPOINTER es_s) by done.
    by rewrite (pointed_drop _ _ _ _ _ HS), app_nil_r, drop_tag_clean. }
  split; [done|]. rewrite H3. split; [|split].
  - destruct H2 as [s xs [Q1 Q2]|]; cbn [fmap option_fmap option_map]; [by rewrite Q1|done].
  - by destruct H2 as [s xs [Q1 Q2]|].
  - by destruct H4 as [g gs ->|].
Qed.

(** IFD1 and the thumbnail. *)
Lemma ifd1_read b o stop ds n t :
  area 10 b o stop ds -> stop <= n -> thumbnail_ok t -> image_dir 10 ifd1_primary None None None (Some t) false o stop ds ->
  exists es, read_ifd (take (Z.to_nat n) b) 10 o = Some (es, 0) /\ read_thumbnail (take (Z.to_nat n) b) 10 es = Some (thumbnail_bytes t) /\
    drop_tag IFD_JPEGINTERCHANGEFORMAT es =
      drop_tag IFD_JPEGINTERCHANGEFORMAT (entries_of (image_fields ifd1_primary (Some (0, zlen (thumbnail_bytes t))))).
Proof.
  intros Ha Hn (_ & Ht & _) (pos & es & ds' & E & ds'' & E' & es_s & ds_s & es_g & ds_g & -> & -> & [-> ->] & [-> ->]). cbn [app] in *. rewrite !app_nil_r in *.
  assert (zlen (thumbnail_bytes t) = snd t) as Ez by (unfold thumbnail_bytes; rewrite zlen_take by lia; lia).
  unfold image_fields. rewrite Ez. fold (thumbnail_bytes t) in *. cbn [fmap option_fmap option_map] in E.
  rewrite entries_of_app, position_first in E. rewrite entries_of_app, position_first.
  assert (clean IFD_JPEGINTERCHANGEFORMAT (entries_of (primary_fields_head ifd1_primary)) /\
    clean IFD_JPEGINTERCHANGEFORMATLENGTH (entries_of (primary_fields_head ifd1_primary))) as [C1 C2] by (split; apply clean_fields; reflexivity).
  set (F := entries_of (primary_fields_head ifd1_primary)) in *. rewrite E' in E.
  eexists. split; [eapply area_read; [exact Ha|done|]; rewrite E; by left|]. split; [|by rewrite !drop_tag_app, !drop_tag_hit].
  unfold read_thumbnail. rewrite !find_tag_clean by done. rewrite find_tag_hit. cbn [mbind option_bind].
  replace (find_tag IFD_JPEGINTERCHANGEFORMATLENGTH _) with (Some (snd t)) by done. cbn [mbind option_bind]. rewrite <- Ez.
  eapply area_get; [exact Ha|done|]. rewrite E. right. by left.
Qed.

(** ** The headers *)

(** [m] leaves [bs] at the current position and returns the position after it. *)
Definition emits_to (m : swriter (option Z)) (bs : list Z) : Prop :=
  forall b p, 0 <= p -> p + zlen bs <= zlen b ->
  exists b' : list Z, splice b p bs = Done b' /\ m (mem b p) = Done (Some (p + zlen bs), mem b' (p + zlen bs)).

Lemma emits_to_end : emits_to (let! p := Jpeg_GetWritePos in sret (Some p)) [].
Proof.
  intros b p Hp Hl. destruct (emits_ret tt b p Hp Hl) as (b' & S & E). exists b'. split; [done|]. injection E as Eb. rewrite zlen_nil in *.
  pose proof (splice_inv _ _ _ _ S) as (_ & _ & L & _). unfold sbind. rewrite GetWritePos_mem by lia. cbn [obind]. unfold sret. by rewrite Eb, Z.add_0_r.
Qed.

Lemma emits_to_step m k x y : emits m true x -> emits_to k y -> emits_to (or_return m None k) (x ++ y).
Proof.
  intros Hm Hk b p Hp Hl. pose proof (zlen_nonneg x). pose proof (zlen_nonneg y). pose proof Hl as Hl'. rewrite zlen_app in Hl.
  destruct (Hm b p Hp) as (b1 & S1 & E1); [lia|]. pose proof (splice_inv _ _ _ _ S1) as (_ & _ & L1 & _).
  destruct (Hk b1 (p + zlen x)) as (b2 & S2 & E2); [lia|lia|]. exists b2. rewrite (splice_concat b p x y b1 S1 Hl').
  split; [done|]. unfold or_return, sbind. rewrite E1. cbn [obind]. by rewrite E2, zlen_app, Z.add_assoc.
Qed.

Lemma emits_to_at m bs off b p :
  emits_to m bs -> 0 <= off -> off + zlen bs <= zlen b ->
  exists b', sbind (Jpeg_SetWritePos off) (fun _ => m) (mem b p) = Done (Some (off + zlen bs), mem b' (off + zlen bs)) /\
    bytes_at b' off bs /\ frame (range off (off + zlen bs)) b b'.
Proof.
  intros Hm Ho Hl. pose proof (zlen_nonneg bs). destruct (Hm b off Ho Hl) as (b' & S & E). exists b'.
  unfold sbind. rewrite SetWritePos_mem by lia. cbn [obind]. split; [done|]. split; [by eapply splice_bytes_at|by apply splice_frame].
Qed.

Definition tiff_header : list Z := be_bytes 2 0x4D4D ++ be_bytes 2 42 ++ be_bytes 4 8.

Lemma IFH_writes b p :
  18 <= zlen b -> exists b', Jpeg_WriteIFH 10 (mem b p) = Done (Some 18, mem b' 18) /\ bytes_at b' 10 tiff_header /\ frame (range 10 18) b b'.
Proof.
  intros Hl. apply (emits_to_at _ tiff_header 10); [|done|done]. unfold tiff_header. rewrite <- (app_nil_r (be_bytes 4 8)).
  apply emits_to_step; [apply WriteW_emits|]. apply emits_to_step; [apply WriteW_emits|]. apply emits_to_step; [apply WriteL_emits|apply emits_to_end].
Qed.

Definition app1_header (app1_length : Z) : list Z := [0xFF; 0xE1] ++ be_bytes 2 app1_length ++ [69; 120; 105; 102; 0; 0].

Lemma app1_header_length n : zlen (app1_header n) = 10.
Proof. unfold app1_header. by rewrite !zlen_app, zlen_be_bytes. Qed.

Lemma APP1Header_writes n b p :
  10 <= zlen b ->
  exists b', Jpeg_WriteAPP1Header 0 n (mem b p) = Done (Some 10, mem b' 10) /\ bytes_at b' 0 (app1_header n) /\ frame (range 0 10) b b'.
Proof.
  intros Hl.
  pose proof (emits_to_at (or_return (Jpeg_WriteC M_MARKER) None (or_return (Jpeg_WriteC M_APP1) None (or_return (Jpeg_WriteW n) None
    (or_return (write_bytes 6 exif_id 0) None (let! p := Jpeg_GetWritePos in sret (Some p)))))) (app1_header n) 0 b p) as H.
  rewrite app1_header_length in H. apply H; [|lia|lia]. unfold app1_header. change [0xFF; 0xE1] with ([0xFF] ++ [0xE1]). rewrite <- app_assoc.
  apply emits_to_step; [apply (WriteC_emits M_MARKER)|]. apply emits_to_step; [apply (WriteC_emits M_APP1)|].
  apply emits_to_step; [apply WriteW_emits|]. change [69; 120; 105; 102; 0; 0] with ([69; 120; 105; 102; 0; 0] ++ []).
  apply emits_to_step; [|apply emits_to_end]. apply (write_bytes_emits exif_id 6 0); [by repeat constructor|done|done].
Qed.

(** What IFD1 says is well-formed. *)
Lemma ifd1_primary_wf : primary_wf ifd1_primary.
Proof. by split. Qed.

(** ** The directories *)
Definition is_some {A} (o : option A) : bool := match o with Some _ => true | None => false end.

Lemma directories_write x thumbnail b p :
  exif_wf x -> opt_ok thumbnail_ok thumbnail -> 14775 + thumbnail_room thumbnail <= zlen b -> zlen b < 2 ^ 32 - 3 ->
  exists mid stop b' p' ds, write_directories x thumbnail (mem b p) = Done (Some stop, mem b' p') /\
    18 <= mid /\ mid <= stop /\ stop <= 14775 + thumbnail_room thumbnail /\ bytes_at b' 10 tiff_header /\ frame (range 10 stop) b b' /\
    area 10 b' 18 mid ds /\ image_dir 10 (primary x) (spec_ptr x) (gps_ptr x) (inter_ptr x) None (is_some thumbnail) 18 mid ds /\
    match thumbnail with
    | Some t => exists ds', area 10 b' mid stop ds' /\ image_dir 10 ifd1_primary None None None (Some t) false mid stop ds'
    | None => mid = stop
    end.
Proof.
  intros (Hp & Hs & Hg & Hi) Ht Hl Hw. assert (0 <= thumbnail_room thumbnail) as Hr by (destruct thumbnail; [apply Ht|done]).
  destruct (IFH_writes b p ltac:(lia)) as (b1 & E1 & B1 & F1). pose proof (frame_zlen _ _ _ F1) as L1.
  assert (0 <= below (spec_ptr x) (gps_ptr x) <= 6763) as Hb by (unfold below; destruct (spec_ptr x), (gps_ptr x); lia).
  destruct (image_writes 10 ltac:(lia) (primary x) (spec_ptr x) (gps_ptr x) (inter_ptr x) None Hp Hs Hg Hi I (is_some thumbnail) 18 b1 18 ltac:(lia))
    as (ds & mid & b2 & p2 & E2 & Hm & A2 & I2 & F2); [cbn [thumbnail_room]; lia|lia|]. cbn [thumbnail_room] in Hm. pose proof (frame_zlen _ _ _ F2) as L2.
  unfold write_directories, and_then, sbind. rewrite E1. cbn [obind]. fold (is_some thumbnail). rewrite E2. cbn [obind].
  assert (frame (range 10 mid) b b2) as F12 by (eapply frame_trans; [exact F1|exact F2|]; unfold range; lia).
  destruct thumbnail as [t|].
  - destruct (image_writes 10 ltac:(lia) ifd1_primary None None None (Some t) ifd1_primary_wf I I I Ht false mid b2 p2 ltac:(lia))
      as (ds' & stop & b3 & p3 & E3 & Hm' & A3 & I3 & F3); [cbn [thumbnail_room] in *; unfold below; lia|lia|]. cbn [thumbnail_room] in *. unfold below in Hm'.
    exists mid, stop, b3, p3, ds. split; [exact E3|]. do 3 (split; [lia|]). split.
    { eapply bytes_at_frame; [eapply bytes_at_frame; [exact B1|exact F2|]|exact F3|]; intros i; change (zlen tiff_header) with 8; unfold range; lia. }
    split; [eapply frame_trans; [exact F12|exact F3|]; unfold range; lia|].
    split; [eapply area_frame; [exact A2|exact F3|unfold range; lia]|]. split; [exact I2|]. by exists ds'.
  - exists mid, mid, b2, p2, ds. cbn [thumbnail_room]. split; [done|]. do 3 (split; [lia|]). split.
    { eapply bytes_at_frame; [exact B1|exact F2|]; intros i; change (zlen tiff_header) with 8; unfold range; lia. }
    done.
Qed.

(** ** The whole segment *)
Lemma tiff_read x thumbnail b mid stop ds :
  bytes_at b 10 tiff_header -> area 10 b 18 mid ds -> 18 <= mid -> mid <= stop -> mid < 2 ^ 32 -> opt_ok thumbnail_ok thumbnail ->
  image_dir 10 (primary x) (spec_ptr x) (gps_ptr x) (inter_ptr x) None (is_some thumbnail) 18 mid ds ->
  match thumbnail with
  | Some t => exists ds', area 10 b mid stop ds' /\ image_dir 10 ifd1_primary None None None (Some t) false mid stop ds'
  | None => mid = stop
  end ->
  read_tiff (take (Z.to_nat stop) b) 10 = Some (expected x (thumbnail_bytes <$> thumbnail)).
Proof.
  intros B A H18 Hm Hw Ht I2 H1. pose proof (bytes_at_take _ _ _ stop B) as B'. change (zlen tiff_header) with 8 in B'. specialize (B' ltac:(lia)).
  unfold tiff_header in B'. rewrite !bytes_at_app, !zlen_be_bytes in B'. destruct B' as (B1 & B2 & B3). change (10 + Z.of_nat 2) with 12 in *. change (12 + Z.of_nat 2) with 14 in *.
  destruct (ifd0_read b x mid (is_some thumbnail) ds stop A Hm I2) as (es & ex & R0 & R1 & R2 & R3 & R4 & R5).
  unfold read_tiff. rewrite (get_word_at _ _ 2 2 _ B1 eq_refl) by done. cbn [mbind option_bind]. change (10 + 2) with 12. change (10 + 4) with 14.
  rewrite (get_word_at _ _ 2 2 _ B2 eq_refl) by done. cbn [mbind option_bind]. rewrite (get_word_at _ _ 4 4 _ B3 eq_refl) by done. cbn [mbind option_bind].
  change ((0x4D4D =? 0x4D4D) && (42 =? 42)) with true. cbv iota. change (10 + 8) with 18. rewrite R0. cbn [mbind option_bind fst snd].
  rewrite R2. cbn [mbind option_bind]. rewrite R5. cbn [mbind option_bind]. rewrite R4. cbn [mbind option_bind]. rewrite R1, R3.
  unfold expected. fold (image_fields (primary x) None).
  destruct thumbnail as [t|]; cbn [is_some]; [|done]. destruct H1 as (ds' & A' & I').
  destruct (ifd1_read b mid stop ds' stop t A' ltac:(lia) Ht I') as (es1 & Q0 & Q1 & Q2). rewrite (u32_small (mid - 10)) by (unfold u32_ok; lia).
  guard_false (mid - 10 =? 0). replace (10 + (mid - 10)) with mid by lia. rewrite Q0. cbn [mbind option_bind fst]. rewrite Q1. cbn [mbind option_bind].
  rewrite Q2. done.
Qed.

(** The thumbnail as the callers pass it. *)
Definition thumbnail_arg (thumbnail_buf_ptr : option (list Z)) (thumbnail_size : Z) : option (list Z * Z) :=
  match thumbnail_buf_ptr with
  | Some t => if 0 <? thumbnail_size then Some (t, thumbnail_size) else None
  | None => None
  end.

Definition thumbnail_args_ok (thumbnail_buf_ptr : option (list Z)) (thumbnail_size : Z) : Prop :=
  0 <= thumbnail_size /\ opt_ok (fun t => Forall byte_ok t /\ thumbnail_size <= zlen t) thumbnail_buf_ptr.

Lemma thumbnail_arg_ok t n : n < 2 ^ 32 -> thumbnail_args_ok t n -> opt_ok thumbnail_ok (thumbnail_arg t n) /\ 0 <= thumbnail_room (thumbnail_arg t n) <= n.
Proof.
  intros Hw [Hn Ht]. unfold thumbnail_arg, thumbnail_room. destruct t as [t|]; [|cbn; lia]. destruct Ht as [Hb Hl].
  cif; cbn; [|lia]. split; [|lia]. split; [done|]. cbn. unfold u32_ok. lia.
Qed.

(** The segment in the buffer: enough for what the callers need. *)
Lemma APP1_writes x t n buf :
  exif_wf x -> thumbnail_args_ok t n -> n <= 50000 -> n + 20480 <= zlen buf -> zlen buf < 2 ^ 32 - 3 ->
  exists stop buf', Jpeg_WriteAPP1 (Some buf) (zlen buf) (Some x) t n = Done (JPEG_SUCCESS, Some buf', stop) /\
    18 <= stop <= 14775 + n /\ zlen buf' = zlen buf /\ frame (range 0 stop) buf buf' /\
    bytes_at buf' 0 (app1_header (stop - 2)) /\ read_tiff (take (Z.to_nat stop) buf') 10 = Some (expected x (thumbnail_bytes <$> thumbnail_arg t n)).
Proof.
  intros Hx Ha Hn Hl Hw. destruct (thumbnail_arg_ok t n ltac:(lia) Ha) as [Ht Hr].
  destruct (directories_write x (thumbnail_arg t n) buf 0 Hx Ht ltac:(lia) Hw) as (mid & stop & b1 & p1 & ds & E & H18 & Hm & Hs & B & F & A & I0 & H1).
  pose proof (frame_zlen _ _ _ F) as L1. unfold Jpeg_WriteAPP1. guard_false (zlen buf <? 10). fold (thumbnail_arg t n). fold (mem buf 0).
  rewrite E. cbn [obind]. assert (u16 (u16 stop - 2) = stop - 2) as El by (rewrite (u16_small stop) by lia; apply u16_small; lia). rewrite El.
  destruct (APP1Header_writes (stop - 2) b1 p1 ltac:(lia)) as (b2 & E2 & B2 & F2). pose proof (frame_zlen _ _ _ F2) as L2.
  rewrite E2. cbn [obind write_buf mem]. exists stop, b2. replace (stop - 2 + 2) with stop by lia. split; [done|]. split; [lia|]. split; [lia|].
  split; [eapply frame_trans; [exact F|exact F2|]; unfold range; lia|]. split; [exact B2|].
  eapply (tiff_read x _ b2 mid stop ds); [|eapply area_frame; [exact A|exact F2|unfold range; lia]|lia|lia|lia|done|done|].
  { eapply bytes_at_frame; [exact B|exact F2|]. unfold range. lia. }
  destruct (thumbnail_arg t n); [|done]. destruct H1 as (ds' & A' & I1). exists ds'. split; [|done].
  eapply area_frame; [exact A'|exact F2|unfold range; lia].
Qed.

(** ** What the writer takes the structures for

    The valid bits that the writer does not look at: a maker note or a comment that is not
    empty counts as valid, and the longitude of the destination is valid when its latitude
    is. *)
Definition written_user (u : EXIF_SPEC_USER_T) : EXIF_SPEC_USER_T :=
  mk_EXIF_SPEC_USER_T
    (mk_EXIF_SPEC_USER_VALID_T (v_MakerNote (user_valid u) || (0 <? c_count (MakerNote u)))
      (v_UserComment (user_valid u) || (0 <? c_count (UserComment u))))
    (MakerNote u) (UserComment u).

Definition written_spec (s : EXIF_SPECIFIC_INFO_T) : EXIF_SPECIFIC_INFO_T :=
  mk_EXIF_SPECIFIC_INFO_T
    (spec_basic s) (version_ptr s) (img_config_ptr s) (written_user <$> user_ptr s) (related_file_ptr s)
    (date_time_ptr s) (pic_taking_cond_ptr s) (other_ptr s).

Definition written_gps (g : EXIF_GPS_INFO_T) : EXIF_GPS_INFO_T :=
  let v := gps_valid g in
  mk_EXIF_GPS_INFO_T
    (mk_EXIF_GPS_VALID_T
      (v_GPSVersionID v) (v_GPSLatitudeRef v) (v_GPSLatitude v) (v_GPSLongitudeRef v) (v_GPSLongitude v)
      (v_GPSAltitudeRef v) (v_GPSAltitude v) (v_GPSTimeStamp v) (v_GPSSatellites v) (v_GPSStatus v)
      (v_GPSMeasureMode v) (v_GPSDOP v) (v_GPSSpeedRef v) (v_GPSSpeed v) (v_GPSTrackRef v) (v_GPSTrack v)
      (v_GPSImgDirectionRef v) (v_GPSImgDirection v) (v_GPSMapDatum v) (v_GPSDestLatitudeRef v) (v_GPSDestLatitude v)
      (v_GPSDestLongitudeRef v) (v_GPSDestLatitude v) (v_GPSDestBearingRef v) (v_GPSDestBearing v)
      (v_GPSDestDistanceRef v) (v_GPSDestDistance v) (v_GPSProcessingMethod v) (v_GPSAreaInformation v)
      (v_GPSDateStamp v) (v_GPSDifferential v))
    (GPSVersionID g) (GPSLatitudeRef g) (GPSLatitude g) (GPSLongitudeRef g) (GPSLongitude g) (GPSAltitudeRef g)
    (GPSAltitude g) (GPSTimeStamp g) (GPSSatellites g) (GPSStatus g) (GPSMeasureMode g) (GPSDOP g) (GPSSpeedRef g)
    (GPSSpeed g) (GPSTrackRef g) (GPSTrack g) (GPSImgDirectionRef g) (GPSImgDirection g) (GPSMapDatum g)
    (GPSDestLatitudeRef g) (GPSDestLatitude g) (GPSDestLongitudeRef g) (GPSDestLongitude g) (GPSDestBearingRef g)
    (GPSDestBearing g) (GPSDestDistanceRef g) (GPSDestDistance g) (GPSProcessingMethod g) (GPSAreaInformation g)
    (GPSDateStamp g) (GPSDifferential g).

Definition as_written (x : JINF_EXIF_INFO_T) : JINF_EXIF_INFO_T :=
  mk_JINF_EXIF_INFO_T (primary x) (written_spec <$> spec_ptr x) (written_gps <$> gps_ptr x) (inter_ptr x).

(** The writer does the same for both. *)
Lemma spec_as_written s inter ifh : Jpeg_WriteExifSpecInfo (written_spec s) inter ifh = Jpeg_WriteExifSpecInfo s inter ifh.
Proof. destruct s as [b v i [u|] r d c t]; reflexivity. Qed.

Lemma gps_as_written g ifh : Jpeg_WriteExifGPSInfo (written_gps g) ifh = Jpeg_WriteExifGPSInfo g ifh.
Proof. destruct g. reflexivity. Qed.

Lemma writer_as_written b n x t m : Jpeg_WriteAPP1 b n (Some (as_written x)) t m = Jpeg_WriteAPP1 b n (Some x) t m.
Proof.
  unfold Jpeg_WriteAPP1, write_directories, Jpeg_WriteExifIFD. destruct x as [p [s|] [g|] i]; cbn [as_written primary spec_ptr gps_ptr inter_ptr fmap option_fmap option_map];
    rewrite ?spec_as_written, ?gps_as_written; reflexivity.
Qed.

(** Nothing changes when the bits say so already. *)
Lemma as_written_id x : exif_wf x -> as_written x = x.
Proof.
  destruct x as [p s g i]. intros (_ & Hs & Hg & _). unfold as_written. cbn [primary spec_ptr gps_ptr inter_ptr] in *. f_equal.
  - destruct s as [[b v c [[[vm vu] m n]|] r d e o]|]; [| done..]. cbn in Hs. destruct Hs as [_ [_ [_ [Hm Hn]]] _ _]. cbn in Hm, Hn |- *.
    unfold written_spec, written_user. cbn. destruct (Z.ltb_spec 0 (c_count m)), (Z.ltb_spec 0 (c_count n));
      rewrite ?Hm, ?Hn, ?orb_false_r by done; done.
  - destruct g as [[[]]|]; [|done]. destruct Hg as [_ _ _ Hd _ _]. cbn in Hd. subst. done.
Qed.

(** C6. The APP1 segment that [Jpeg_WriteAPP1] writes says what the program's structures
    say.  With a buffer of the documented size (20 KB more than the thumbnail), a thumbnail
    of at most 50000 bytes, and data in which strings end within their arrays, fields of
    variable size fit their 256 bytes, the width and the length are below 65536
    ([width_truncated] is the other case) and no subject area is valid (it would be
    written as rationals), the writer succeeds, and a reader of EXIF data finds in the
    segment exactly the valid fields of every directory, in the order of the code, with
    their values, and the bytes of the thumbnail; nothing behind the segment is touched.
    Three valid bits are not looked at: a maker note and a user comment count as valid when
    they are not empty, and the destination's longitude when its latitude is valid, as
    [as_written] says ([longitude_lost]); where the bits say so too, what is read is
    exactly what the structures say. *)
Theorem exif_roundtrip x t n buf :
  exif_wf (as_written x) -> thumbnail_args_ok t n -> n <= 50000 -> n + 20480 <= zlen buf < 2 ^ 32 - 3 ->
  exists size buf', Jpeg_WriteAPP1 (Some buf) (zlen buf) (Some x) t n = Done (JPEG_SUCCESS, Some buf', size) /\
    read_app1 (take (Z.to_nat size) buf') = Some (expected (as_written x) (thumbnail_bytes <$> thumbnail_arg t n)) /\
    drop (Z.to_nat size) buf' = drop (Z.to_nat size) buf /\
    (exif_wf x -> as_written x = x).
Proof.
  intros Hx Ha Hn [Hl Hw]. rewrite <- writer_as_written.
  destruct (APP1_writes (as_written x) t n buf Hx Ha Hn Hl Hw) as (stop & buf' & E & Hs & L & F & B & R).
  exists stop, buf'. split; [done|]. assert (zlen (take (Z.to_nat stop) buf') = stop) as Ez by (rewrite zlen_take by lia; lia).
  split; [|split; [|apply as_written_id]].
  - unfold read_app1. rewrite (get_bytes_at _ _ _ 10 (bytes_at_take _ _ _ stop B ltac:(rewrite app1_header_length; lia))) by apply app1_header_length.
    cbn [mbind option_bind]. rewrite Ez, decide_True by done. exact R.
  - apply list_eq. intros i. rewrite !lookup_drop. destruct F as [_ F]. apply F. unfold range. lia.
Qed.

(** ** An example *)
Definition byteb (x : Z) : bool := (0 <=? x) && (x <? 256).

Lemma array_bytes n l : length l = n -> forallb byteb l = true -> array_of n byte_ok l.
Proof. intros Hl H. split; [done|]. apply Forall_forall. intros x Hx%list_elem_of_In. rewrite forallb_forall in H. specialize (H x Hx). unfold byteb, byte_ok in *. lia. Qed.

Definition example_gps : EXIF_GPS_INFO_T :=
  let r := mk_EXIF_RATIONAL_T 31 1 in
  let c := mk_EXIF_CUSTOM_T 0 (repeat 71 256) 5 5 in
  mk_EXIF_GPS_INFO_T (mk_EXIF_GPS_VALID_T true true true true true true true true true true true true true true true true true true true true true
      true true true true true true true true true true)
    (repeat 2 4) (repeat 0 2) (repeat r 3) (repeat 0 2) (repeat r 3) 1 r (repeat r 3) (repeat 0 256) (repeat 0 2) (repeat 0 2) r (repeat 0 2) r (repeat 0 2) r
    (repeat 0 2) r (repeat 0 256) (repeat 0 2) (repeat r 3) (repeat 0 2) (repeat r 3) (repeat 0 2) r (repeat 0 2) r c c (repeat 48 11) 7.

Definition example_exif : JINF_EXIF_INFO_T :=
  mk_JINF_EXIF_INFO_T
    (mk_EXIF_PRIMARY_INFO_T (mk_EXIF_PRI_BASIC_T 1 (mk_EXIF_RATIONAL_T 72 1) (mk_EXIF_RATIONAL_T 72 1) 2 3264 2448)
      (Some (mk_EXIF_PRI_DATA_STRUCT_T (mk_EXIF_PRI_DATA_STRUCT_VALID_T true false) 6 0)) None
      (Some (mk_EXIF_PRI_DESC_T (mk_EXIF_PRI_DESC_VALID_T true false true false false false false) (repeat 48 20) (repeat 0 256)
        ([83; 80] ++ repeat 0 254) (repeat 0 256) (repeat 0 256) (repeat 0 256) (repeat 0 256))) 0)
    (Some (mk_EXIF_SPECIFIC_INFO_T (mk_EXIF_SPEC_BASIC_T 1 (repeat 1 4) 3264 2448) None None None None None None None))
    (Some example_gps)
    (Some (mk_EXIF_INTEROPERABILITY_INFO_T (mk_EXIF_INTEROPERABILITY_VALID_T true) (mk_EXIF_CUSTOM_T 2 (repeat 82 256) 4 4))).

Ltac ok := solve [done | by apply array_bytes | split; done | split; [done|by repeat constructor]].

Lemma example_exif_wf : exif_wf example_exif.
Proof.
  split; [|split; [|split]]; cbn [example_exif primary spec_ptr gps_ptr inter_ptr opt_ok].
  - split; [split; [ok..|split; ok|ok]|done|done|]. cbn [img_desc_ptr opt_ok]. unfold ends. cbn [desc_valid v_Make Make].
    split_and!; try done. intros _. apply list_elem_of_lookup. by exists 2%nat.
  - split; try done. split; try done. split; ok.
  - split; try done; [split; try ok; split; ok|..]; intros _; by left.
  - split; [split; split; ok|done].
Qed.

Lemma exif_roundtrip_witness :
  exists size buf', Jpeg_WriteAPP1 (Some (repeat 0 (Z.to_nat 20490))) (zlen (repeat 0 (Z.to_nat 20490))) (Some example_exif) (Some [255; 216; 255; 217]) 4 =
      Done (JPEG_SUCCESS, Some buf', size) /\
    read_app1 (take (Z.to_nat size) buf') = Some (expected example_exif (Some [255; 216; 255; 217])) /\
    drop (Z.to_nat size) buf' = drop (Z.to_nat size) (repeat 0 (Z.to_nat 20490)) /\
    (exif_wf example_exif -> as_written example_exif = example_exif).
Proof.
  apply (exif_roundtrip example_exif (Some [255; 216; 255; 217]) 4 (repeat 0 (Z.to_nat 20490))).
  - exact example_exif_wf.
  - split; [lia|]. split; [by repeat constructor|done].
  - lia.
  - unfold zlen. rewrite repeat_length. lia.
Defined.

(** ** Where the segment does not say what the structures say

    The fields that [exif_wf] excludes, on examples. *)
Definition small_exif (width : Z) (c : option EXIF_PRI_DATA_CHAR_T) (g : option EXIF_GPS_INFO_T) : JINF_EXIF_INFO_T :=
  mk_JINF_EXIF_INFO_T
    (mk_EXIF_PRIMARY_INFO_T (mk_EXIF_PRI_BASIC_T 1 (mk_EXIF_RATIONAL_T 72 1) (mk_EXIF_RATIONAL_T 72 1) 2 width 2448) None c None 0)
    None g None.

(** What the writer returns and what a reader finds in the segment. *)
Definition try_exif (size : nat) (x : JINF_EXIF_INFO_T) : outcome (JPEG_RET_E * option exif_data) :=
  let* (ret, buf, n) := Jpeg_WriteAPP1 (Some (repeat 0 size)) (Z.of_nat size) (Some x) None 0 in
  Done (ret, b ← buf; read_app1 (take (Z.to_nat n) b)).

(** A width above 65535 loses its upper bits. *)
Lemma width_truncated : exists d, try_exif 600 (small_exif 70000 None None) = Done (JPEG_SUCCESS, Some d) /\ find_tag IFD_IMAGEWIDTH (ifd0 d) = Some 4464.
Proof. eexists. split; [vm_compute; reflexivity|reflexivity]. Qed.

(** A destination with a longitude and no latitude has no longitude in the segment. *)
Definition longitude_only : EXIF_GPS_INFO_T :=
  let g := example_gps in
  mk_EXIF_GPS_INFO_T (mk_EXIF_GPS_VALID_T false false false false false false false false false false false false false false false false false false
      false false false false true false false false false false false false false)
    (GPSVersionID g) (GPSLatitudeRef g) (GPSLatitude g) (GPSLongitudeRef g) (GPSLongitude g) (GPSAltitudeRef g) (GPSAltitude g) (GPSTimeStamp g)
    (GPSSatellites g) (GPSStatus g) (GPSMeasureMode g) (GPSDOP g) (GPSSpeedRef g) (GPSSpeed g) (GPSTrackRef g) (GPSTrack g) (GPSImgDirectionRef g)
    (GPSImgDirection g) (GPSMapDatum g) (GPSDestLatitudeRef g) (GPSDestLatitude g) (GPSDestLongitudeRef g) (GPSDestLongitude g) (GPSDestBearingRef g)
    (GPSDestBearing g) (GPSDestDistanceRef g) (GPSDestDistance g) (GPSProcessingMethod g) (GPSAreaInformation g) (GPSDateStamp g) (GPSDifferential g).

Lemma longitude_lost :
  v_GPSDestLongitude (gps_valid longitude_only) = true /\
  exists d, try_exif 1000 (small_exif 640 None (Some longitude_only)) = Done (JPEG_SUCCESS, Some d) /\ gps_ifd d = Some [].
Proof. split; [reflexivity|]. eexists. split; [vm_compute; reflexivity|reflexivity]. Qed.

(** A table that does not fit the buffer: the writer reports success, and the segment
    cannot be read. *)
Definition transfer_only : EXIF_PRI_DATA_CHAR_T :=
  mk_EXIF_PRI_DATA_CHAR_T (mk_EXIF_PRI_DATA_CHAR_VALID_T true false false false false) (repeat 5 768) [] [] [] [].

Lemma full_buffer_hidden :
  exists d, try_exif 600 (small_exif 640 (Some transfer_only) None) = Done (JPEG_SUCCESS, d) /\ d <> Some (expected (small_exif 640 (Some transfer_only) None) None).
Proof. eexists. split; [vm_compute; reflexivity|vm_compute; discriminate]. Qed.
