(* ===== verification/ExifImage.v ===== *)
(** * exif_writer.c, jpeg_codec.c: EXIF data in a picture

    [IMGJPEG_WriteExif] puts an APP1 segment into a picture, in memory or through a
    callback; [_jpeg_enc_wexif] is its caller.  The source picture and the space in front
    of it are one piece of memory, [ram], which begins at the address [base]; addresses
    are 32 bits wide and 0 is the null pointer.  The temporary buffer and the thumbnail
    are memory of their own. *)

From S2P Require Import Prelude JpegCodec JpegStream JpegParse JpegHeader JpegRoundtrip JpegImage.
From S2P Require Import ExifTypes ExifStream ExifWriter ExifReader ExifLayout ExifFields ExifRoundtrip ExifApp1.

Record JINF_WEXIF_IN_PARAM_T := mk_wexif {
  exif_info_ptr : option JINF_EXIF_INFO_T;
  src_jpeg_buf_ptr : Z;
  src_jpeg_size : Z;
  thumbnail_buf_ptr : option (list Z);
  thumbnail_buf_size : Z;
  temp_buf_ptr : option (list Z);
  temp_buf_size : Z;
  wrtie_file_func : option (list Z -> Z -> Z -> bool * Z);
  target_buf_ptr : Z;
  target_buf_size : Z
}.

Inductive JINF_RET_E := JINF_SUCCESS | JINF_MEMORY_NOT_ENOUGH | JINF_INVALID_JPEGE | JINF_FAILED.

(** [output_buf_ptr] and [output_size]. *)
Definition JINF_WEXIF_OUT_PARAM_T : Type := Z * Z.

Definition soi_marker : list Z := [M_MARKER; M_SOI].

(** [None]: the output parameters are not set. *)
Definition JPEG_AddExifToMemory (base : Z) (in_param : JINF_WEXIF_IN_PARAM_T) (ram : list Z)
    : outcome (JPEG_RET_E * list Z * option JINF_WEXIF_OUT_PARAM_T) :=
  let* (ret, app1_buf, app1_size) :=
    Jpeg_WriteAPP1 (temp_buf_ptr in_param) (temp_buf_size in_param) (exif_info_ptr in_param)
      (thumbnail_buf_ptr in_param) (thumbnail_buf_size in_param) in
  match ret, app1_buf with
  | JPEG_SUCCESS, Some app1_buf =>
      let free_buf_size := u32 (src_jpeg_buf_ptr in_param - target_buf_ptr in_param) in
      if free_buf_size <? app1_size then Done (JPEG_MEMORY_NOT_ENOUGH, ram, None)
      else
        let target := u32 (src_jpeg_buf_ptr in_param - app1_size) in
        let out := (target, u32 (app1_size + src_jpeg_size in_param)) in
        let* ram := splice ram (target - base) soi_marker in
        let* app1 := slice app1_buf 0 app1_size in
        let* ram := splice ram (target + 2 - base) app1 in
        Done (JPEG_SUCCESS, ram, Some out)
  | _, _ => Done (ret, ram, None)
  end.

(** A call of the callback, which the log keeps; [true]: it has written all. *)
Definition file_write (f : list Z -> Z -> Z -> bool * Z) (data : list Z) (offset : Z) (log : list (Z * list Z)) : bool * Z * list (Z * list Z) :=
  let '(ok, actual_write_size) := f data offset (zlen data) in
  (ok && (zlen data =? actual_write_size), actual_write_size, log ++ [(offset, data)]).

Definition JPEG_AddExifToFile (base : Z) (f : list Z -> Z -> Z -> bool * Z) (in_param : JINF_WEXIF_IN_PARAM_T) (ram : list Z)
    : outcome (JPEG_RET_E * list (Z * list Z)) :=
  let* (ret, app1_buf, app1_size) :=
    Jpeg_WriteAPP1 (temp_buf_ptr in_param) (temp_buf_size in_param) (exif_info_ptr in_param)
      (thumbnail_buf_ptr in_param) (thumbnail_buf_size in_param) in
  match ret, app1_buf with
  | JPEG_SUCCESS, Some app1_buf =>
      let '(ok, n, log) := file_write f soi_marker 0 [] in
      if negb ok then Done (JPEG_FAILED, log) else
      let write_offset := n in
      let* app1 := slice app1_buf 0 app1_size in
      let '(ok, n, log) := file_write f app1 write_offset log in
      if negb ok then Done (JPEG_FAILED, log) else
      let write_offset := u32 (write_offset + n) in
      let* main := slice ram (src_jpeg_buf_ptr in_param + 2 - base) (u32 (src_jpeg_size in_param - 2)) in
      let '(ok, n, log) := file_write f main write_offset log in
      Done (if ok then JPEG_SUCCESS else JPEG_FAILED, log)
  | _, _ => Done (ret, [])
  end.

Definition is_null {A} (p : option A) : bool := match p with Some _ => false | None => true end.

(** The pointers are refused only when all three are null. *)
Definition IMGJPEG_WriteExif (base : Z) (in_param_ptr : option JINF_WEXIF_IN_PARAM_T) (ram : list Z)
    : outcome (JINF_RET_E * list Z * option JINF_WEXIF_OUT_PARAM_T * list (Z * list Z)) :=
  match in_param_ptr with
  | None => Done (JINF_INVALID_JPEGE, ram, None, [])
  | Some in_param =>
      if is_null (exif_info_ptr in_param) && (src_jpeg_buf_ptr in_param =? 0) && is_null (temp_buf_ptr in_param)
      then Done (JINF_INVALID_JPEGE, ram, None, [])
      else
        match wrtie_file_func in_param with
        | Some f =>
            let* (ret, log) := JPEG_AddExifToFile base f in_param ram in
            Done (match ret with JPEG_SUCCESS => JINF_SUCCESS | _ => JINF_FAILED end, ram, None, log)
        | None =>
            if target_buf_ptr in_param =? 0 then Done (JINF_INVALID_JPEGE, ram, None, [])
            else if src_jpeg_buf_ptr in_param <=? target_buf_ptr in_param then Done (JINF_MEMORY_NOT_ENOUGH, ram, None, [])
            else
              let* (ret, ram, out) := JPEG_AddExifToMemory base in_param ram in
              Done (match ret with JPEG_SUCCESS => JINF_SUCCESS | _ => JINF_FAILED end, ram, out, [])
        end
  end.

(** ** The encoder's call (jpeg_codec.c) *)
Record jpeg_enc_exif_param := mk_enc_exif {
  exif_ptr : option JINF_EXIF_INFO_T;
  src_jpeg_addr_virt : Z;
  src_jpeg_size' : Z;
  thumbnail_addr_virt : option (list Z);
  thumbnail_size : Z;
  target_addr_virt : Z;
  target_size : Z
}.

Inductive wexif_ret := JPEG_CODEC_NO_MEM | wexif_code (ret : JINF_RET_E).

(** [malloc]: the memory of a size, or null.  [junk] is what the stack holds in the output
    parameters, which the code hands on when the writer has not set them. *)
Definition _jpeg_enc_wexif (malloc : Z -> option (list Z)) (junk : JINF_WEXIF_OUT_PARAM_T) (base : Z) (param_ptr : jpeg_enc_exif_param) (ram : list Z)
    : outcome (wexif_ret * list Z * option JINF_WEXIF_OUT_PARAM_T) :=
  let temp_buf_size := u32 (thumbnail_size param_ptr + 21 * 1024) in
  match malloc temp_buf_size with
  | None => Done (JPEG_CODEC_NO_MEM, ram, None)
  | Some temp =>
      let input_param := mk_wexif (exif_ptr param_ptr) (src_jpeg_addr_virt param_ptr) (src_jpeg_size' param_ptr)
        (thumbnail_addr_virt param_ptr) (thumbnail_size param_ptr) (Some temp) temp_buf_size None
        (target_addr_virt param_ptr) (target_size param_ptr) in
      let* (ret, ram, out, _) := IMGJPEG_WriteExif base (Some input_param) ram in
      Done (wexif_code ret, ram, Some (default junk out))
  end.

(** ** The string of a date and a time *)
Record JINF_DATE_T := mk_date { year : Z; month : Z; day : Z }.
Record JINF_TIME_T := mk_time { hour : Z; minute : Z; second : Z }.

(** [%0wd] of a [uint16]: at most five digits. *)
Fixpoint digits (fuel : nat) (n : Z) : list Z :=
  match fuel with
  | O => []
  | S fuel => (if n <? 10 then [] else digits fuel (n / 10)) ++ [48 + n mod 10]
  end.

Definition decimal (w : nat) (n : Z) : list Z := let l := digits 5 n in replicate (w - length l) 48 ++ l.

Definition date_time_text (d : JINF_DATE_T) (t : JINF_TIME_T) : list Z :=
  decimal 4 (year d) ++ [58] ++ decimal 2 (month d) ++ [58] ++ decimal 2 (day d) ++ [32] ++
  decimal 2 (hour t) ++ [58] ++ decimal 2 (minute t) ++ [58] ++ decimal 2 (second t).

Definition IMGJPEG_FormatDateTime (date_ptr : JINF_DATE_T) (time_ptr : JINF_TIME_T) (date_time_ptr : list Z) (date_time_size : Z)
    : outcome (JINF_RET_E * list Z) :=
  if date_time_size <? 20 then Done (JINF_MEMORY_NOT_ENOUGH, date_time_ptr)
  else
    let* s := splice date_time_ptr 0 (date_time_text date_ptr time_ptr ++ [0]) in
    Done (JINF_SUCCESS, s).

Lemma digits_length f n w : 0 <= n < 10 ^ Z.of_nat w -> (1 <= w)%nat -> (length (digits f n) <= w)%nat.
Proof.
  revert n w. induction f as [|f IH]; intros n w Hn Hw; cbn [digits length]; [lia|]. rewrite length_app. cbn [length].
  destruct (Z.ltb_spec n 10); cbn [length]; [lia|]. destruct w as [|w]; [lia|]. rewrite Nat2Z.inj_succ, Z.pow_succ_r in Hn by lia.
  destruct w as [|w]; [cbn in Hn; lia|]. assert (0 <= n / 10 < 10 ^ Z.of_nat (S w)) as H10 by (Z.to_euclidean_division_equations; lia). specialize (IH _ _ H10). lia.
Qed.

Lemma decimal_length w n : 0 <= n < 10 ^ Z.of_nat w -> (1 <= w)%nat -> length (decimal w n) = w.
Proof. intros Hn Hw. unfold decimal. pose proof (digits_length 5 n w Hn Hw). rewrite length_app, length_replicate. lia. Qed.

(** A date of four digits and numbers of two fill the twenty bytes that are asked for. *)
Lemma date_time_fits d t buf :
  0 <= year d < 10000 -> 0 <= month d < 100 -> 0 <= day d < 100 -> 0 <= hour t < 100 -> 0 <= minute t < 100 -> 0 <= second t < 100 ->
  zlen buf = 20 -> IMGJPEG_FormatDateTime d t buf (zlen buf) = Done (JINF_SUCCESS, date_time_text d t ++ [0]).
Proof.
  intros Hy Hm Hd Hh Hi Hs Hb. unfold IMGJPEG_FormatDateTime. rewrite Hb. change (20 <? 20) with false. cbv iota.
  rewrite splice_all; [done|]. rewrite Hb. unfold zlen, date_time_text. rewrite !length_app, (decimal_length 4), !(decimal_length 2) by (done || lia). done.
Qed.

(** A month of three digits already runs past them. *)
Lemma date_time_overruns : IMGJPEG_FormatDateTime (mk_date 2013 100 1) (mk_time 0 0 0) (replicate 20 0) 20 = Undef.
Proof. reflexivity. Qed.

(** * The picture with EXIF data *)

(** The call with arguments as the header file asks for them: well-formed data, a
    temporary buffer of the documented size, and the picture [soi_marker ++ pic] at
    [src_jpeg_buf_ptr] behind [pre] bytes of [ram]. *)
Record wexif_ok (base : Z) (i : JINF_WEXIF_IN_PARAM_T) (x : JINF_EXIF_INFO_T) (temp pre pic : list Z) : Prop := {
  wx_exif : exif_info_ptr i = Some x /\ exif_wf x;
  wx_thumbnail : thumbnail_args_ok (thumbnail_buf_ptr i) (thumbnail_buf_size i) /\ thumbnail_buf_size i <= 50000;
  wx_temp : temp_buf_ptr i = Some temp /\ temp_buf_size i = zlen temp /\ thumbnail_buf_size i + 20480 <= zlen temp < 2 ^ 32 - 3;
  wx_base : 0 < base;
  wx_src : src_jpeg_buf_ptr i = base + zlen pre /\ src_jpeg_size i = 2 + zlen pic;
  wx_target : base <= target_buf_ptr i /\ 14775 + thumbnail_buf_size i <= src_jpeg_buf_ptr i - target_buf_ptr i;
  wx_end : base + zlen pre + 2 + zlen pic < 2 ^ 32
}.

Section picture.
Context (base : Z) (i : JINF_WEXIF_IN_PARAM_T) (x : JINF_EXIF_INFO_T) (temp pre pic post : list Z).
Hypothesis (Hi : wexif_ok base i x temp pre pic).

Let thumb := (thumbnail_bytes <$> thumbnail_arg (thumbnail_buf_ptr i) (thumbnail_buf_size i)).

(** The segment in the temporary buffer. *)
Definition is_segment (seg : list Z) : Prop :=
  exists temp', Jpeg_WriteAPP1 (temp_buf_ptr i) (temp_buf_size i) (exif_info_ptr i) (thumbnail_buf_ptr i) (thumbnail_buf_size i) =
      Done (JPEG_SUCCESS, Some temp', zlen seg) /\
    slice temp' 0 (zlen seg) = Done seg /\ 18 <= zlen seg <= 14775 + thumbnail_buf_size i.

Lemma segment_written :
  exists seg, is_segment seg /\ (exists body, seg = app1_header (zlen seg - 2) ++ body) /\ read_app1 seg = Some (expected x thumb).
Proof.
  destruct (wx_exif _ _ _ _ _ _ Hi) as [_ Hx]. destruct (wx_thumbnail _ _ _ _ _ _ Hi) as [Ht Hn].
  destruct (wx_temp _ _ _ _ _ _ Hi) as (_ & _ & Hl & Hw).
  destruct (APP1_writes x _ _ temp Hx Ht Hn Hl Hw) as (size & buf & E & Hs & L & F & B & R).
  exists (take (Z.to_nat size) buf). assert (zlen (take (Z.to_nat size) buf) = size) as Ez by (rewrite zlen_take by lia; lia).
  pose proof (bytes_at_take _ _ _ size B ltac:(rewrite app1_header_length; lia)) as B'. rewrite Ez. split; [|split].
  - exists buf. rewrite Ez. destruct (wx_exif _ _ _ _ _ _ Hi) as [-> _]. destruct (wx_temp _ _ _ _ _ _ Hi) as (-> & -> & _). split; [done|].
    split; [by rewrite slice_in by lia|lia].
  - unfold bytes_at in B'. rewrite app1_header_length, slice_in in B' by (rewrite ?Ez; lia). injection B' as B'.
    change (Z.to_nat 0) with 0%nat in B'. rewrite drop_0 in B'. rewrite <- B'. eexists. by rewrite take_drop.
  - unfold read_app1. rewrite (get_bytes_at _ _ _ 10 B') by apply app1_header_length.
    cbn [mbind option_bind]. rewrite Ez, decide_True by done. exact R.
Qed.

(** In memory. *)
Lemma memory_written seg ram :
  is_segment seg -> wrtie_file_func i = None -> ram = pre ++ soi_marker ++ pic ++ post ->
  IMGJPEG_WriteExif base (Some i) ram =
      Done (JINF_SUCCESS, take (Z.to_nat (zlen pre - zlen seg)) pre ++ (soi_marker ++ seg ++ pic) ++ post,
        Some (src_jpeg_buf_ptr i - zlen seg, zlen (soi_marker ++ seg ++ pic)), []) /\ zlen seg <= zlen pre.
Proof.
  intros (temp' & E & Es & Hs) Hf ->. remember (zlen seg) as size eqn:Ez in *. symmetry in Ez.
  destruct (wx_exif _ _ _ _ _ _ Hi) as [Hx _]. destruct (wx_src _ _ _ _ _ _ Hi) as [Esrc Esz]. destruct (wx_target _ _ _ _ _ _ Hi) as [Ht1 Ht2].
  pose proof (wx_base _ _ _ _ _ _ Hi). pose proof (wx_end _ _ _ _ _ _ Hi). pose proof (zlen_nonneg pre). pose proof (zlen_nonneg pic). pose proof (zlen_nonneg post).
  split; [|lia].
  unfold IMGJPEG_WriteExif. rewrite Hx. cbn [is_null andb]. rewrite Hf. guard_false (target_buf_ptr i =? 0).
  guard_false (src_jpeg_buf_ptr i <=? target_buf_ptr i). unfold JPEG_AddExifToMemory. rewrite E. cbn [obind].
  rewrite (u32_small (_ - target_buf_ptr i)) by (unfold u32_ok; lia). guard_false (src_jpeg_buf_ptr i - target_buf_ptr i <? size).
  rewrite (u32_small (_ - size)) by (unfold u32_ok; lia). rewrite (u32_small (size + _)) by (unfold u32_ok; lia).
  rewrite Esrc, Esz. replace (base + zlen pre - size - base) with (zlen pre - size) by lia. replace (base + zlen pre - size + 2 - base) with (zlen pre - size + 2) by lia.
  set (h := take (Z.to_nat (zlen pre - size)) pre). set (t := drop (Z.to_nat (zlen pre - size)) pre).
  assert (zlen h = zlen pre - size) as Eh by (unfold h; rewrite zlen_take by lia; lia).
  assert (zlen t = size) as Et by (unfold t; unfold zlen in *; rewrite length_drop; lia).
  replace (pre ++ soi_marker ++ pic ++ post) with (h ++ take 2 t ++ drop 2 t ++ soi_marker ++ pic ++ post)
    by (rewrite (app_assoc (take 2 t)), take_drop; unfold h, t; by rewrite app_assoc, take_drop).
  rewrite <- Eh. rewrite (splice_app h (take 2 t) _ soi_marker) by (done || (rewrite (zlen_take 2) by lia; done)).
  cbn [obind]. rewrite Es. cbn [obind]. rewrite (app_assoc h soi_marker), (app_assoc (drop 2 t) soi_marker).
  replace (zlen h + 2) with (zlen (h ++ soi_marker)) by (rewrite zlen_app; done).
  rewrite (splice_app (h ++ soi_marker) (drop 2 t ++ soi_marker) _ seg)
    by (done || (unfold zlen in *; rewrite length_app, length_drop; change (length soi_marker) with 2%nat; lia)).
  cbn [obind]. rewrite !zlen_app. change (zlen soi_marker) with 2. rewrite <- !app_assoc. do 5 f_equal. lia.
Qed.

(** A callback that writes everything. *)
Definition accepts (f : list Z -> Z -> Z -> bool * Z) : Prop := forall data off, f data off (zlen data) = (true, zlen data).

Lemma file_write_accepts f data off log : accepts f -> file_write f data off log = (true, zlen data, log ++ [(off, data)]).
Proof. intros Hf. unfold file_write. rewrite Hf. by rewrite Z.eqb_refl. Qed.

Lemma file_written seg f ram :
  is_segment seg -> wrtie_file_func i = Some f -> accepts f -> ram = pre ++ soi_marker ++ pic ++ post ->
  IMGJPEG_WriteExif base (Some i) ram = Done (JINF_SUCCESS, ram, None, [(0, soi_marker); (2, seg); (2 + zlen seg, pic)]).
Proof.
  intros (temp' & E & Es & Hs) Hf Ha ->.
  destruct (wx_exif _ _ _ _ _ _ Hi) as [Hx _]. destruct (wx_src _ _ _ _ _ _ Hi) as [Esrc Esz].
  destruct (wx_thumbnail _ _ _ _ _ _ Hi) as [_ Hn]. pose proof (wx_base _ _ _ _ _ _ Hi). pose proof (wx_end _ _ _ _ _ _ Hi). pose proof (zlen_nonneg pre). pose proof (zlen_nonneg pic).
  unfold IMGJPEG_WriteExif. rewrite Hx. cbn [is_null andb]. rewrite Hf. unfold JPEG_AddExifToFile. rewrite E. cbn [obind].
  rewrite file_write_accepts by done. cbn [negb]. cbv iota. rewrite Es. cbn [obind]. rewrite file_write_accepts by done. cbn [negb]. cbv iota.
  change (zlen soi_marker) with 2. rewrite (u32_small (2 + zlen seg)) by (unfold u32_ok; lia). rewrite Esz, Esrc.
  replace (2 + zlen pic - 2) with (zlen pic) by lia. rewrite (u32_small (zlen pic)) by (unfold u32_ok; lia).
  rewrite (app_assoc pre), (slice_app (pre ++ soi_marker) pic post) by (rewrite ?zlen_app; change (zlen soi_marker) with 2; lia).
  cbn [obind]. rewrite file_write_accepts by done. done.
Qed.
End picture.

(** ** The parser on the new picture *)
Lemma parses_variable n bs k : zlen bs = n - 2 -> n < 65536 -> parses SkipVariable (be_bytes 2 n ++ bs) k k tt.
Proof.
  intros Hn Hw. pose proof (zlen_nonneg bs). unfold SkipVariable. change (be_bytes 2 n) with [n / 256 mod 256; n mod 256]. cbn [app].
  apply parses_then_short; [unfold byte_ok; Z.to_euclidean_division_equations; lia|].
  replace (n / 256 mod 256 * 256 + n mod 256) with n by (Z.to_euclidean_division_equations; lia). guard_false (n <? 2).
  replace (Z.to_nat (n - 2)) with (length bs) by (unfold zlen in Hn; lia). apply parses_skip.
Qed.

(** An APP1 segment between the start of the picture and its tables is skipped. *)
Lemma app1_skipped seg body k f rest k' c :
  seg = app1_header (zlen seg - 2) ++ body -> zlen seg < 65536 ->
  parses (ProcessTables (S f)) rest k k' c -> parses (ProcessTables (1 + S f)) (seg ++ rest) k k' c.
Proof.
  intros E Hl Hr. set (n := zlen seg) in *. assert (zlen body = n - 10) as Hb.
  { pose proof (f_equal zlen E) as Ez. rewrite zlen_app, app1_header_length in Ez. unfold n in *. lia. }
  rewrite E. unfold app1_header. rewrite <- !app_assoc. change ([255; 225] ++ ?l) with (255 :: M_APP1 :: l).
  rewrite (app_assoc [69; 120; 105; 102; 0; 0]), (app_assoc (be_bytes 2 (n - 2))).
  apply (parses_segment _ M_APP1 _ _ k k); [done..| |exact Hr].
  change (segment M_APP1) with SkipVariable. apply parses_variable; [rewrite zlen_app|]; change (zlen [69; 120; 105; 102; 0; 0]) with 6; lia.
Qed.

Lemma exif_header_parsed seg body p data ptr size i f :
  seg = app1_header (zlen seg - 2) ++ body -> zlen seg < 65536 -> pic_ok p -> pool_ok ptr size ->
  let file := header_with seg p ++ data in
  exists s k, JPEG_FWParseHead (12 + f) (Some (ptr, size)) None file (zlen file) i = Done (true, s, k) /\
    decode k = with_header_len (zlen (header_bytes p) + zlen seg) (read_back p i).
Proof.
  intros E Hl Hp Hm file. pose proof (header_size p Hp) as Hz.
  assert (zlen (header_with seg p) = zlen (header_bytes p) + zlen seg) as Ez
    by (unfold header_with, header_bytes; rewrite !zlen_cons, zlen_app; lia).
  destruct (header_with_parsed seg 1 p None file (zlen file) data ptr size i f) as (s & k & E1 & D); try done.
  - intros. by eapply app1_skipped.
  - split; [pose proof (zlen_nonneg seg); lia|by right].
  - exists s, k. split; [exact E1|]. by rewrite D, Ez.
Qed.

(** ** The encoder's call *)

(** C7. A picture that the encoder has written, with EXIF data put into it: when the
    allocation succeeds, [_jpeg_enc_wexif] returns success, and the memory from the
    address that it reports, for the size it reports, holds the picture with an APP1
    segment after its start: a reader of EXIF data finds in the segment exactly what the
    structures say, and the header parser still decodes the same picture, with a header
    that is longer by the segment; the rest of the memory is unchanged. *)
Theorem exif_picture malloc junk base x t n src target tsize pre p data post temp :
  exif_wf x -> thumbnail_args_ok t n -> n <= 50000 -> malloc (n + 21504) = Some temp -> zlen temp = n + 21504 ->
  pic_ok p -> 0 < base -> src = base + zlen pre -> base <= target -> 14775 + n <= src - target ->
  src + zlen (header_bytes p ++ data) < 2 ^ 32 ->
  exists seg ram', _jpeg_enc_wexif malloc junk base (mk_enc_exif (Some x) src (zlen (header_bytes p ++ data)) t n target tsize)
      (pre ++ (header_bytes p ++ data) ++ post) =
      Done (wexif_code JINF_SUCCESS, take (Z.to_nat (zlen pre - zlen seg)) pre ++ ram' ++ post, Some (src - zlen seg, zlen ram')) /\
    ram' = header_with seg p ++ data /\ read_app1 seg = Some (expected x (thumbnail_bytes <$> thumbnail_arg t n)) /\
    forall ptr size i f, pool_ok ptr size ->
    exists s k, JPEG_FWParseHead (12 + f) (Some (ptr, size)) None ram' (zlen ram') i = Done (true, s, k) /\
      decode k = with_header_len (zlen (header_bytes p) + zlen seg) (read_back p i).
Proof.
  intros Hx Ht Hn Hmal Htemp Hp Hbase -> Hta Hroom Hend.
  assert (0 <= n) as H0 by apply Ht. unfold _jpeg_enc_wexif. cbn [thumbnail_size].
  rewrite (u32_small (n + 21 * 1024)) by (unfold u32_ok; lia). change (21 * 1024) with 21504. rewrite Hmal.
  cbn [exif_ptr src_jpeg_addr_virt src_jpeg_size' thumbnail_addr_virt target_addr_virt target_size].
  set (pic := tables_bytes p (255 :: M_SOS :: scan_bytes p) ++ data).
  assert (header_bytes p ++ data = soi_marker ++ pic) as Epic by done. rewrite Epic in *. rewrite zlen_app in *. change (zlen soi_marker) with 2 in *.
  set (i := mk_wexif _ _ _ _ _ _ _ _ _ _).
  assert (wexif_ok base i x temp pre pic) as Hi.
  { split; unfold i; cbn [exif_info_ptr thumbnail_buf_ptr thumbnail_buf_size temp_buf_ptr temp_buf_size src_jpeg_buf_ptr src_jpeg_size target_buf_ptr];
      repeat match goal with |- _ /\ _ => split end; done || lia. }
  destruct (segment_written base i x temp pre pic Hi) as (seg & Hseg & [body Hb] & R).
  destruct (memory_written base i x temp pre pic post Hi seg (pre ++ soi_marker ++ pic ++ post) Hseg eq_refl eq_refl) as [E _].
  assert (18 <= zlen seg <= 14775 + n) as Hs by (destruct Hseg as (? & _ & _ & Hs); exact Hs).
  cbn [thumbnail_buf_size src_jpeg_buf_ptr thumbnail_buf_ptr i] in *. rewrite <- (app_assoc soi_marker), E. cbn [obind default].
  exists seg, (header_with seg p ++ data). assert (header_with seg p ++ data = soi_marker ++ seg ++ pic) as Eh.
  { unfold header_with, pic, soi_marker. cbn [app]. by rewrite <- app_assoc. }
  split; [by rewrite Eh|]. split; [done|]. split; [done|].
  intros ptr size inp f Hm. by apply (exif_header_parsed seg body p data ptr size inp f Hb ltac:(lia)).
Qed.

(** ** In memory and in a file *)

Definition without_callback (i : JINF_WEXIF_IN_PARAM_T) : JINF_WEXIF_IN_PARAM_T :=
  mk_wexif (exif_info_ptr i) (src_jpeg_buf_ptr i) (src_jpeg_size i) (thumbnail_buf_ptr i) (thumbnail_buf_size i) (temp_buf_ptr i) (temp_buf_size i)
    None (target_buf_ptr i) (target_buf_size i).

(** The pieces follow each other. *)
Fixpoint consecutive (off : Z) (log : list (Z * list Z)) : Prop :=
  match log with
  | [] => True
  | (o, data) :: log => o = off /\ consecutive (off + zlen data) log
  end.

(** C31. With a callback that takes everything, [IMGJPEG_WriteExif] hands over, in pieces
    that follow each other from the start of the file, exactly the bytes that it leaves in
    memory when it has none, and memory stays as it is. *)
Theorem exif_file_same base i f x temp pre pic post :
  wexif_ok base i x temp pre pic -> wrtie_file_func i = Some f -> accepts f ->
  exists log ram' addr size,
    IMGJPEG_WriteExif base (Some i) (pre ++ soi_marker ++ pic ++ post) = Done (JINF_SUCCESS, pre ++ soi_marker ++ pic ++ post, None, log) /\
    IMGJPEG_WriteExif base (Some (without_callback i)) (pre ++ soi_marker ++ pic ++ post) = Done (JINF_SUCCESS, ram', Some (addr, size), []) /\
    slice ram' (addr - base) size = Done (concat (log.*2)) /\ consecutive 0 log.
Proof.
  intros Hi Hf Ha. destruct (segment_written base i x temp pre pic Hi) as (seg & Hseg & _).
  assert (wexif_ok base (without_callback i) x temp pre pic) as Hi' by (destruct Hi; by split).
  pose proof (file_written base i x temp pre pic post Hi seg f _ Hseg Hf Ha eq_refl) as E1.
  destruct (memory_written base (without_callback i) x temp pre pic post Hi' seg _ Hseg eq_refl eq_refl) as [E2 Hl].
  eexists _, _, _, _. split; [exact E1|]. split; [exact E2|]. split; [|done].
  destruct (wx_src _ _ _ _ _ _ Hi) as [Esrc _]. pose proof (zlen_nonneg seg). cbn [src_jpeg_buf_ptr without_callback]. rewrite Esrc.
  cbn [fmap list_fmap snd concat]. rewrite app_nil_r. by apply slice_app; [rewrite zlen_take by lia; lia|].
Qed.

(** ** Examples *)
Definition zero_memory (n : Z) : list Z := replicate (Z.to_nat n) 0.

Lemma zlen_zero_memory n : 0 <= n -> zlen (zero_memory n) = n.
Proof. intros. unfold zlen, zero_memory. rewrite length_replicate. lia. Qed.

Definition example_thumbnail : list Z := [255; 216; 255; 217].

Lemma example_thumbnail_ok : thumbnail_args_ok (Some example_thumbnail) 4.
Proof. split; [lia|]. split; [by repeat constructor|done]. Qed.

(** The sample picture and ten bytes of data behind 20000 bytes of free memory at 4096. *)
Lemma exif_picture_witness :
  exists seg ram', _jpeg_enc_wexif (fun n => Some (zero_memory n)) (0, 0) 4096
      (mk_enc_exif (Some example_exif) (4096 + zlen (zero_memory 20000)) (zlen (header_bytes sample_picture ++ [7])) (Some example_thumbnail) 4 4096 20000)
      (zero_memory 20000 ++ (header_bytes sample_picture ++ [7]) ++ [9]) =
      Done (wexif_code JINF_SUCCESS, take (Z.to_nat (zlen (zero_memory 20000) - zlen seg)) (zero_memory 20000) ++ ram' ++ [9],
        Some (4096 + zlen (zero_memory 20000) - zlen seg, zlen ram')) /\
    ram' = header_with seg sample_picture ++ [7] /\ read_app1 seg = Some (expected example_exif (Some example_thumbnail)) /\
    forall ptr size i f, pool_ok ptr size ->
    exists s k, JPEG_FWParseHead (12 + f) (Some (ptr, size)) None ram' (zlen ram') i = Done (true, s, k) /\
      decode k = with_header_len (zlen (header_bytes sample_picture) + zlen seg) (read_back sample_picture i).
Proof.
  destruct sample_ok as [Hp _]. pose proof (header_size _ Hp).
  apply (exif_picture (fun n => Some (zero_memory n)) (0, 0) 4096 example_exif (Some example_thumbnail) 4 _ 4096 20000
    (zero_memory 20000) sample_picture [7] [9] (zero_memory 21508));
    rewrite ?zlen_app, ?zlen_zero_memory by lia; change (zlen [7]) with 1; try exact example_exif_wf; try exact example_thumbnail_ok; try done; lia.
Defined.

Definition example_call : JINF_WEXIF_IN_PARAM_T :=
  mk_wexif (Some example_exif) (4096 + 20000) 4 (Some example_thumbnail) 4 (Some (zero_memory 20484)) 20484
    (Some (fun data off size => (true, size))) 4096 20000.

Lemma exif_file_same_witness :
  exists log ram' addr size,
    IMGJPEG_WriteExif 4096 (Some example_call) (zero_memory 20000 ++ soi_marker ++ [255; 217] ++ []) =
      Done (JINF_SUCCESS, zero_memory 20000 ++ soi_marker ++ [255; 217] ++ [], None, log) /\
    IMGJPEG_WriteExif 4096 (Some (without_callback example_call)) (zero_memory 20000 ++ soi_marker ++ [255; 217] ++ []) =
      Done (JINF_SUCCESS, ram', Some (addr, size), []) /\
    slice ram' (addr - 4096) size = Done (concat (log.*2)) /\ consecutive 0 log.
Proof.
  eapply (exif_file_same 4096 example_call _ example_exif (zero_memory 20484) (zero_memory 20000) [255; 217] []).
  - split; unfold example_call;
      cbn [exif_info_ptr thumbnail_buf_ptr thumbnail_buf_size temp_buf_ptr temp_buf_size src_jpeg_buf_ptr src_jpeg_size target_buf_ptr];
      rewrite ?zlen_zero_memory by lia; change (zlen [255; 217]) with 2; try lia.
    + split; [done|exact example_exif_wf].
    + split; [exact example_thumbnail_ok|lia].
    + split; [done|lia].
  - reflexivity.
  - done.
Defined.
