(* ===== verification/EngFrame.v ===== *)
(** * apps/engmode: frames of the diagnostic channel

    A message travels between 0x7E flags, with 0x7D and 0x7E in it escaped.  This file models
    the framing of answers ([translate_packet] of adc_calibration.c), the removal of escapes,
    which eng_diag.c does in place over the buffer that the frame was received in, the
    hexadecimal text of binary data, and the CRC of crc16.c. *)

From S2P Require Import Prelude ModemCrc.

(** ** Framing (adc_calibration.c) *)
Definition escape (b : Z) : list Z :=
  if b =? 0x7E then [0x7D; 0x5E] else if b =? 0x7D then [0x7D; 0x5D] else [b].

Definition translate (src : list Z) : list Z := 0x7E :: flat_map escape src ++ [0x7E].

(** [size] bytes of [src] are framed into [dest], from its start. *)
Definition translate_packet (dest src : list Z) (size : Z) : outcome (list Z * Z) :=
  let* src := slice src 0 size in
  let* dest := splice dest 0 (translate src) in
  Done (dest, zlen (translate src)).

(** ** Removal of the escapes (eng_diag.c)

    At an escape the next byte, with bit 5 changed, takes its place, and what follows moves
    down by one, up to and including the byte after the data; the loop goes on with the
    shorter data.  The [memcpy] overlaps its source, and is taken to copy upwards. *)
Fixpoint decode_loop (fuel : nat) (buf : list Z) (i len : Z) : outcome (list Z) :=
  match fuel with
  | O => Fuel
  | S fuel =>
      if i <? len then
        let* b := rd buf i in
        if (b =? 0x7d) || (b =? 0x7e) then
          let* next := rd buf (i + 1) in
          let* buf := wr buf i (Z.lxor next 0x20) in
          let j := i + 1 in
          let* rest := slice buf (j + 1) (len - j) in
          let* buf := splice buf j rest in
          decode_loop fuel buf (i + 1) (len - 1)
        else decode_loop fuel buf (i + 1) len
      else Done buf
  end.

Definition eng_diag_decode7d7e (buf : list Z) (len : Z) : outcome (list Z) := decode_loop (S (Z.to_nat len)) buf 0 len.

(** The inverse, in place as well: what follows moves up by one.  [encode_shift] is the
    inner loop, from [j] down to [i + 2]. *)
Fixpoint encode_shift (n : nat) (buf : list Z) (j : Z) : outcome (list Z) :=
  match n with
  | O => Done buf
  | S n => let* b := rd buf (j - 1) in let* buf := wr buf j b in encode_shift n buf (j - 1)
  end.

Fixpoint encode_loop (fuel : nat) (buf : list Z) (i len extra_len : Z) : outcome (list Z * Z * Z) :=
  match fuel with
  | O => Fuel
  | S fuel =>
      if i <? len then
        let* b := rd buf i in
        if (b =? 0x7d) || (b =? 0x7e) then
          let tmp := Z.lxor b 0x20 in
          let* buf := wr buf i 0x7d in
          let* buf := encode_shift (Z.to_nat (len - (i + 1))) buf len in
          let* buf := wr buf (i + 1) tmp in
          encode_loop fuel buf (i + 1) (len + 1) (extra_len + 1)
        else encode_loop fuel buf (i + 1) len extra_len
      else Done (buf, len, extra_len)
  end.

Definition eng_diag_encode7d7e (buf : list Z) (len extra_len : Z) : outcome (list Z * Z * Z) :=
  encode_loop (S (2 * Z.to_nat len)) buf 0 len extra_len.

(** ** Hexadecimal text (eng_diag.c) *)
Definition hex_digit (semi_octet : Z) : Z := if semi_octet <=? 9 then semi_octet + 48 else semi_octet + 65 - 10.
Definition hex_value (c : Z) : Z := if (48 <=? c) && (c <=? 57) then c - 48 else u8 (c - 65 + 10).

Fixpoint bin2ascii_loop (n : nat) (dst src : list Z) (i : Z) : outcome (list Z) :=
  match n with
  | O => Done dst
  | S n =>
      let* b := rd src i in
      let* dst := wr dst (2 * i) (hex_digit (Z.shiftr (Z.land b 0xf0) 4)) in
      let* dst := wr dst (2 * i + 1) (hex_digit (Z.land b 0x0f)) in
      bin2ascii_loop n dst src (i + 1)
  end.
Definition bin2ascii (dst src : list Z) (size : Z) : outcome (list Z) := bin2ascii_loop (Z.to_nat size) dst src 0.

(** [size] counts characters; an odd size reads one more. *)
Fixpoint ascii2bin_loop (n : nat) (dst src : list Z) (i : Z) : outcome (list Z) :=
  match n with
  | O => Done dst
  | S n =>
      let* h := rd src (2 * i) in
      let* l := rd src (2 * i + 1) in
      let* dst := wr dst i (u8 (Z.lor (Z.shiftl (hex_value h) 4) (hex_value l))) in
      ascii2bin_loop n dst src (i + 1)
  end.
Definition ascii2bin (dst src : list Z) (size : Z) : outcome (list Z) := ascii2bin_loop (Z.to_nat ((size + 1) / 2)) dst src 0.

(** ** The CRC (crc16.c) *)
Definition crc16_table : list Z := [
  0x0000; 0xC0C1; 0xC181; 0x0140; 0xC301; 0x03C0; 0x0280; 0xC241;
  0xC601; 0x06C0; 0x0780; 0xC741; 0x0500; 0xC5C1; 0xC481; 0x0440;
  0xCC01; 0x0CC0; 0x0D80; 0xCD41; 0x0F00; 0xCFC1; 0xCE81; 0x0E40;
  0x0A00; 0xCAC1; 0xCB81; 0x0B40; 0xC901; 0x09C0; 0x0880; 0xC841;
  0xD801; 0x18C0; 0x1980; 0xD941; 0x1B00; 0xDBC1; 0xDA81; 0x1A40;
  0x1E00; 0xDEC1; 0xDF81; 0x1F40; 0xDD01; 0x1DC0; 0x1C80; 0xDC41;
  0x1400; 0xD4C1; 0xD581; 0x1540; 0xD701; 0x17C0; 0x1680; 0xD641;
  0xD201; 0x12C0; 0x1380; 0xD341; 0x1100; 0xD1C1; 0xD081; 0x1040;
  0xF001; 0x30C0; 0x3180; 0xF141; 0x3300; 0xF3C1; 0xF281; 0x3240;
  0x3600; 0xF6C1; 0xF781; 0x3740; 0xF501; 0x35C0; 0x3480; 0xF441;
  0x3C00; 0xFCC1; 0xFD81; 0x3D40; 0xFF01; 0x3FC0; 0x3E80; 0xFE41;
  0xFA01; 0x3AC0; 0x3B80; 0xFB41; 0x3900; 0xF9C1; 0xF881; 0x3840;
  0x2800; 0xE8C1; 0xE981; 0x2940; 0xEB01; 0x2BC0; 0x2A80; 0xEA41;
  0xEE01; 0x2EC0; 0x2F80; 0xEF41; 0x2D00; 0xEDC1; 0xEC81; 0x2C40;
  0xE401; 0x24C0; 0x2580; 0xE541; 0x2700; 0xE7C1; 0xE681; 0x2640;
  0x2200; 0xE2C1; 0xE381; 0x2340; 0xE101; 0x21C0; 0x2080; 0xE041;
  0xA001; 0x60C0; 0x6180; 0xA141; 0x6300; 0xA3C1; 0xA281; 0x6240;
  0x6600; 0xA6C1; 0xA781; 0x6740; 0xA501; 0x65C0; 0x6480; 0xA441;
  0x6C00; 0xACC1; 0xAD81; 0x6D40; 0xAF01; 0x6FC0; 0x6E80; 0xAE41;
  0xAA01; 0x6AC0; 0x6B80; 0xAB41; 0x6900; 0xA9C1; 0xA881; 0x6840;
  0x7800; 0xB8C1; 0xB981; 0x7940; 0xBB01; 0x7BC0; 0x7A80; 0xBA41;
  0xBE01; 0x7EC0; 0x7F80; 0xBF41; 0x7D00; 0xBDC1; 0xBC81; 0x7C40;
  0xB401; 0x74C0; 0x7580; 0xB541; 0x7700; 0xB7C1; 0xB681; 0x7640;
  0x7200; 0xB2C1; 0xB381; 0x7340; 0xB101; 0x71C0; 0x7080; 0xB041;
  0x5000; 0x90C1; 0x9181; 0x5140; 0x9301; 0x53C0; 0x5280; 0x9241;
  0x9601; 0x56C0; 0x5780; 0x9741; 0x5500; 0x95C1; 0x9481; 0x5440;
  0x9C01; 0x5CC0; 0x5D80; 0x9D41; 0x5F00; 0x9FC1; 0x9E81; 0x5E40;
  0x5A00; 0x9AC1; 0x9B81; 0x5B40; 0x9901; 0x59C0; 0x5880; 0x9841;
  0x8801; 0x48C0; 0x4980; 0x8941; 0x4B00; 0x8BC1; 0x8A81; 0x4A40;
  0x4E00; 0x8EC1; 0x8F81; 0x4F40; 0x8D01; 0x4DC0; 0x4C80; 0x8C41;
  0x4400; 0x84C1; 0x8581; 0x4540; 0x8701; 0x47C0; 0x4680; 0x8641;
  0x8201; 0x42C0; 0x4380; 0x8341; 0x4100; 0x81C1; 0x8081; 0x4040].

Definition crc16_step (crc byte : Z) : Z :=
  Z.lxor (Z.shiftr crc 8) (default 0 (crc16_table !! Z.to_nat (Z.land (Z.lxor crc byte) 0xff))).
Definition crc16 (crc : Z) (buffer : list Z) : Z := fold_left crc16_step buffer crc.

(** ** Properties of the framing *)

Ltac lists := repeat (progress (rewrite <- ?app_assoc; cbn [app])); reflexivity.

(** The bytes of [msg] that are sent escaped. *)
Definition escapes (msg : list Z) : nat := length (filter (fun b => b = 0x7E \/ b = 0x7D) msg).

Lemma esc_cases b :
  (b = 0x7E /\ escape b = [0x7D; 0x5E]) \/ (b = 0x7D /\ escape b = [0x7D; 0x5D]) \/
  (b <> 0x7E /\ b <> 0x7D /\ escape b = [b]).
Proof.
  unfold escape. destruct (Z.eqb_spec b 0x7E); [by left|]. right.
  destruct (Z.eqb_spec b 0x7D); [by left|by right].
Qed.

Lemma zlen_escaped msg : zlen (flat_map escape msg) = zlen msg + Z.of_nat (escapes msg).
Proof.
  unfold escapes. induction msg as [|b msg IH]; [done|]. cbn [flat_map].
  rewrite zlen_app, IH, zlen_cons, filter_cons.
  destruct (esc_cases b) as [[Hb ->]|[[Hb ->]|(H1 & H2 & ->)]];
    [rewrite (decide_True (P := _ \/ _)) by tauto|rewrite (decide_True (P := _ \/ _)) by tauto
    |rewrite (decide_False (P := _ \/ _)) by tauto];
    rewrite ?zlen_cons, zlen_nil; cbn [length]; lia.
Qed.

(** No flag is left inside an escaped message. *)
Lemma escaped_no_flag msg : ~ In 0x7E (flat_map escape msg).
Proof.
  rewrite in_flat_map. intros (b & _ & Hb).
  destruct (esc_cases b) as [[_ E]|[[_ E]|(H1 & _ & E)]]; rewrite E in Hb; cbn in Hb; lia.
Qed.

Lemma zlen_framed msg : zlen msg + 2 <= zlen (translate msg) <= 2 * zlen msg + 2.
Proof.
  unfold translate. rewrite zlen_cons, zlen_app, zlen_escaped, zlen_cons, zlen_nil. unfold escapes.
  pose proof (length_filter (fun b => b = 0x7E \/ b = 0x7D) msg). unfold zlen. lia.
Qed.

(** A packet is framed at the start of the destination, when the frame fits. *)
Lemma translate_packet_ok dest msg more : zlen (translate msg) <= zlen dest ->
  exists dest', translate_packet dest (msg ++ more) (zlen msg) = Done (dest', zlen (translate msg)) /\
    zlen dest' = zlen dest /\ slice dest' 0 (zlen (translate msg)) = Done (translate msg).
Proof.
  intros H. unfold translate_packet. rewrite slice_app_l by done. cbn [obind].
  rewrite splice_in by lia. cbn [obind]. change (Z.to_nat 0) with 0%nat. rewrite take_0. cbn [app Nat.add].
  eexists. split; [reflexivity|]. split; [|by apply slice_app_l].
  rewrite zlen_app. unfold zlen in *. rewrite length_drop. lia.
Qed.

(** One escape: the byte it stands for takes its place, and everything up to the byte after
    the data moves down. *)
Lemma decode_escape fuel pre c n data x rest i len :
  c = 0x7D \/ c = 0x7E -> zlen pre = i -> len = i + 2 + zlen data ->
  decode_loop (S fuel) (pre ++ c :: n :: data ++ x :: rest) i len =
  decode_loop fuel (pre ++ Z.lxor n 0x20 :: data ++ x :: x :: rest) (i + 1) (len - 1).
Proof.
  intros Hc Hi ->. pose proof (zlen_nonneg data). cbn [decode_loop].
  guard_true (i <? i + 2 + zlen data). rewrite (rd_app pre _ c i Hi). cbn [obind].
  replace ((c =? 0x7d) || (c =? 0x7e)) with true by (symmetry; apply orb_true_iff; rewrite !Z.eqb_eq; lia).
  assert (Hr : rd (pre ++ c :: n :: data ++ x :: rest) (i + 1) = Done n).
  { replace (pre ++ c :: n :: data ++ x :: rest) with ((pre ++ [c]) ++ n :: data ++ x :: rest)
      by (by rewrite <- app_assoc).
    apply rd_app. rewrite zlen_app, zlen_cons, zlen_nil. lia. }
  rewrite Hr. cbn [obind]. rewrite (wr_app pre _ c i _ Hi). cbn [obind].
  set (m := Z.lxor n 0x20).
  replace (pre ++ m :: n :: data ++ x :: rest) with ((pre ++ [m; n]) ++ (data ++ [x]) ++ rest)
    by (by rewrite <- !app_assoc).
  rewrite (slice_app (pre ++ [m; n])) by (rewrite ?zlen_app, ?zlen_cons, ?zlen_nil; lia). cbn [obind].
  replace ((pre ++ [m; n]) ++ (data ++ [x]) ++ rest) with ((pre ++ [m]) ++ (n :: data) ++ x :: rest)
    by (by rewrite <- !app_assoc).
  rewrite (splice_app (pre ++ [m])) by (rewrite ?zlen_app, ?zlen_cons, ?zlen_nil; lia). cbn [obind].
  f_equal. by rewrite <- !app_assoc.
Qed.

(** The end flag counts as an escape of the byte after the data. *)
Lemma decode_flag fuel pre c x rest i len :
  c = 0x7D \/ c = 0x7E -> zlen pre = i -> len = i + 1 ->
  decode_loop (S (S fuel)) (pre ++ c :: x :: rest) i len = Done (pre ++ Z.lxor x 0x20 :: x :: rest).
Proof.
  intros Hc Hi ->. cbn [decode_loop]. guard_true (i <? i + 1). rewrite (rd_app pre _ c i Hi). cbn [obind].
  replace ((c =? 0x7d) || (c =? 0x7e)) with true by (symmetry; apply orb_true_iff; rewrite !Z.eqb_eq; lia).
  assert (Hr : rd (pre ++ c :: x :: rest) (i + 1) = Done x).
  { replace (pre ++ c :: x :: rest) with ((pre ++ [c]) ++ x :: rest) by (by rewrite <- app_assoc).
    apply rd_app. rewrite zlen_app, zlen_cons, zlen_nil. lia. }
  rewrite Hr. cbn [obind]. rewrite (wr_app pre _ c i _ Hi). cbn [obind].
  set (m := Z.lxor x 0x20).
  replace (pre ++ m :: x :: rest) with ((pre ++ [m; x]) ++ [] ++ rest) by (by rewrite <- !app_assoc).
  rewrite (slice_app (pre ++ [m; x])) by (rewrite ?zlen_app, ?zlen_cons, ?zlen_nil; lia). cbn [obind].
  replace ((pre ++ [m; x]) ++ [] ++ rest) with ((pre ++ [m]) ++ [] ++ x :: rest) by (by rewrite <- !app_assoc).
  rewrite (splice_app (pre ++ [m])) by (rewrite ?zlen_app, ?zlen_cons, ?zlen_nil; lia). cbn [obind].
  guard_false (i + 1 <? i + 1 - 1). by rewrite <- !app_assoc.
Qed.

Lemma decode_plain fuel pre b rest i len :
  b <> 0x7D -> b <> 0x7E -> zlen pre = i -> i < len ->
  decode_loop (S fuel) (pre ++ b :: rest) i len = decode_loop fuel (pre ++ b :: rest) (i + 1) len.
Proof.
  intros H1 H2 Hi Hl. cbn [decode_loop]. guard_true (i <? len). rewrite (rd_app pre _ b i Hi). cbn [obind].
  replace ((b =? 0x7d) || (b =? 0x7e)) with false; [done|].
  symmetry. apply orb_false_iff. rewrite !Z.eqb_neq. lia.
Qed.

(** Everything that is left of a frame, at any point of the loop. *)
Lemma decode_rest msg : forall fuel pre x rest i len,
  zlen pre = i -> len = i + zlen (flat_map escape msg) + 1 -> (length msg < fuel)%nat ->
  decode_loop (S fuel) (pre ++ flat_map escape msg ++ 0x7E :: x :: rest) i len =
  Done (pre ++ msg ++ Z.lxor x 0x20 :: replicate (escapes msg) x ++ x :: rest).
Proof.
  unfold escapes. induction msg as [|b msg IH]; intros fuel pre x rest i len Hi Hl Hf.
  - destruct fuel as [|fuel]; [cbn in Hf; lia|]. cbn [flat_map app] in *. rewrite zlen_nil in Hl. rewrite decode_flag by (solve [auto] || lia).
    done.
  - destruct fuel as [|fuel]; [cbn in Hf; lia|]. cbn [length] in Hf.
    cbn [flat_map] in Hl |- *. rewrite zlen_app in Hl. rewrite filter_cons.
    pose proof (zlen_nonneg (flat_map escape msg)).
    assert (Hpre : zlen (pre ++ [b]) = i + 1) by (rewrite zlen_app, zlen_cons, zlen_nil; lia).
    destruct (esc_cases b) as [[Hb E]|[[Hb E]|(H1 & H2 & E)]]; rewrite E in Hl |- *;
      rewrite ?zlen_cons, zlen_nil in Hl; cbn [app].
    1,2: rewrite (decide_True (P := _ \/ _)) by tauto; cbn [length replicate app];
      replace (flat_map escape msg ++ 0x7E :: x :: rest) with ((flat_map escape msg ++ [0x7E]) ++ x :: rest)
        by (by rewrite <- app_assoc);
      rewrite decode_escape by (solve [auto] || (rewrite zlen_app, zlen_cons, zlen_nil; lia));
      replace (pre ++ Z.lxor _ 0x20 :: (flat_map escape msg ++ [0x7E]) ++ x :: x :: rest)
        with ((pre ++ [b]) ++ flat_map escape msg ++ 0x7E :: x :: x :: rest)
        by (subst b; rewrite <- !app_assoc; reflexivity);
      rewrite (IH fuel (pre ++ [b]) x (x :: rest) (i + 1)) by lia;
      rewrite <- app_assoc; cbn [app]; do 4 f_equal; f_equal;
      change (x :: ?r ++ ?t) with ((x :: r) ++ t); by rewrite replicate_cons_app, <- app_assoc.
    rewrite (decide_False (P := _ \/ _)) by tauto. rewrite decode_plain by lia.
    replace (pre ++ b :: flat_map escape msg ++ 0x7E :: x :: rest)
      with ((pre ++ [b]) ++ flat_map escape msg ++ 0x7E :: x :: rest) by (by rewrite <- app_assoc).
    rewrite (IH fuel (pre ++ [b]) x rest (i + 1)) by lia. by rewrite <- app_assoc.
Qed.

(** Unescaping what was framed gives the message back, from the first byte after the start
    flag.  The end flag is gone: in its place is the byte that followed the frame, with bit 5
    changed. *)
Lemma decode_framed msg x rest :
  eng_diag_decode7d7e (flat_map escape msg ++ 0x7E :: x :: rest) (zlen (flat_map escape msg) + 1) =
  Done (msg ++ Z.lxor x 0x20 :: replicate (escapes msg) x ++ x :: rest).
Proof.
  unfold eng_diag_decode7d7e. apply (decode_rest msg _ []); [done|lia|].
  rewrite zlen_escaped. unfold zlen. lia.
Qed.

(** ** The other encoder: [eng_diag_encode7d7e] *)
Lemma encode_shift_app n : forall pre a data c rest j,
  zlen data = Z.of_nat n -> j = zlen pre + 1 + zlen data ->
  encode_shift n (pre ++ a :: data ++ c :: rest) j = Done (pre ++ a :: take 1 (data ++ [c]) ++ data ++ rest).
Proof.
  induction n as [|n IH]; intros pre a data c rest j Hn ->.
  - destruct data; [|rewrite zlen_cons in Hn; pose proof (zlen_nonneg data); lia]. done.
  - destruct data as [|y data _] using rev_ind; [unfold zlen in Hn; cbn in Hn; lia|].
    rewrite zlen_app, zlen_cons, zlen_nil in *. cbn [encode_shift].
    replace (pre ++ a :: (data ++ [y]) ++ c :: rest) with ((pre ++ a :: data) ++ y :: c :: rest)
      by lists.
    rewrite rd_app by (rewrite zlen_app, zlen_cons; lia). cbn [obind].
    replace ((pre ++ a :: data) ++ y :: c :: rest) with ((pre ++ a :: data ++ [y]) ++ c :: rest)
      by lists.
    rewrite wr_app by (rewrite zlen_app, zlen_cons, zlen_app, zlen_cons, zlen_nil; lia). cbn [obind].
    replace ((pre ++ a :: data ++ [y]) ++ y :: rest) with (pre ++ a :: data ++ y :: y :: rest)
      by lists.
    rewrite IH by lia. do 3 f_equal. rewrite <- !app_assoc. destruct data; done.
Qed.

Lemma take_one (l : list Z) c : exists y, take 1 (l ++ [c]) = [y].
Proof. destruct l; by eexists. Qed.

Lemma encode_plain fuel pre b rest i len extra :
  b <> 0x7D -> b <> 0x7E -> zlen pre = i -> i < len ->
  encode_loop (S fuel) (pre ++ b :: rest) i len extra = encode_loop fuel (pre ++ b :: rest) (i + 1) len extra.
Proof.
  intros H1 H2 Hi Hl. cbn [encode_loop]. guard_true (i <? len). rewrite (rd_app pre _ b i Hi). cbn [obind].
  replace ((b =? 0x7d) || (b =? 0x7e)) with false; [done|].
  symmetry. apply orb_false_iff. rewrite !Z.eqb_neq. lia.
Qed.

(** The message is escaped in place, in a buffer with room after it. *)
Lemma encode_rest msg : forall fuel pre room rest i len extra,
  zlen pre = i -> len = i + zlen msg -> zlen room = Z.of_nat (escapes msg) ->
  (2 * length msg < fuel)%nat ->
  encode_loop fuel (pre ++ msg ++ room ++ rest) i len extra =
  Done (pre ++ flat_map escape msg ++ rest, len + Z.of_nat (escapes msg), extra + Z.of_nat (escapes msg)).
Proof.
  unfold escapes. induction msg as [|b msg IH]; intros fuel pre room rest i len extra Hi Hl Hr Hf.
  - rewrite zlen_nil in Hl. destruct fuel as [|fuel]; [cbn in Hf; lia|]. cbn [encode_loop].
    guard_false (i <? len). destruct room; [|rewrite zlen_cons in Hr; pose proof (zlen_nonneg room); cbn in Hr; lia].
    cbn. do 3 f_equal; lia.
  - destruct fuel as [|fuel]; [lia|]. cbn [length] in Hf. rewrite zlen_cons in Hl. rewrite filter_cons in Hr |- *.
    pose proof (zlen_nonneg msg). cbn [encode_loop]. guard_true (i <? len). cbn [app].
    rewrite (rd_app pre _ b i Hi). cbn [obind flat_map].
    destruct (esc_cases b) as [Hb|[Hb|(H1 & H2 & E)]].
    3:{ replace ((b =? 0x7d) || (b =? 0x7e)) with false by (symmetry; apply orb_false_iff; rewrite !Z.eqb_neq; lia).
        rewrite (decide_False (P := _ \/ _)) in Hr |- * by tauto. rewrite E.
        replace (pre ++ b :: msg ++ room ++ rest) with ((pre ++ [b]) ++ msg ++ room ++ rest) by lists.
        rewrite (IH fuel (pre ++ [b]) room rest (i + 1)) by (rewrite ?zlen_app, ?zlen_cons, ?zlen_nil; lia).
        do 3 f_equal. lists. }
    1,2: destruct Hb as [Hb E].
    all: rewrite (decide_True (P := _ \/ _)) in Hr |- * by tauto; cbn [length] in Hr |- *;
      replace ((b =? 0x7d) || (b =? 0x7e)) with true by (symmetry; apply orb_true_iff; rewrite !Z.eqb_eq; lia);
      destruct room as [|c room]; [rewrite zlen_nil in Hr; lia|]; rewrite zlen_cons in Hr;
      rewrite (wr_app pre _ b i _ Hi); cbn [obind app];
      rewrite (encode_shift_app _ pre 0x7D msg c) by lia; cbn [obind];
      destruct (take_one msg c) as [y ->]; cbn [app];
      replace (pre ++ 125 :: y :: msg ++ room ++ rest) with ((pre ++ [0x7D]) ++ y :: msg ++ room ++ rest) by lists;
      rewrite wr_app by (rewrite zlen_app, zlen_cons, zlen_nil; lia); cbn [obind];
      destruct fuel as [|fuel]; [lia|]; rewrite encode_plain by (subst b; (done || (rewrite ?zlen_app, ?zlen_cons, ?zlen_nil; lia)));
      replace ((pre ++ [125]) ++ Z.lxor b 32 :: msg ++ room ++ rest)
        with ((pre ++ [125; Z.lxor b 32]) ++ msg ++ room ++ rest) by lists;
      rewrite (IH fuel (pre ++ [125; Z.lxor b 32]) room rest (i + 1 + 1)) by (rewrite ?zlen_app, ?zlen_cons, ?zlen_nil; lia);
      rewrite E, Hb; f_equal; apply pair_equal_spec; split; [apply pair_equal_spec; split; [lists|lia]|lia].
Qed.

(** Both encoders escape alike: escaping in place, which [eng_diag_encode7d7e] does, writes
    what [translate_packet] writes between its flags. *)
Lemma encode_is_translate msg room rest extra : zlen room = Z.of_nat (escapes msg) ->
  eng_diag_encode7d7e (msg ++ room ++ rest) (zlen msg) extra =
  Done (flat_map escape msg ++ rest, zlen (flat_map escape msg), extra + Z.of_nat (escapes msg)).
Proof.
  intros Hr. unfold eng_diag_encode7d7e. rewrite zlen_escaped.
  apply (encode_rest msg _ []); [done|lia|done|unfold zlen; lia].
Qed.

(** ** Hexadecimal text *)
Lemma hex_digit_value d : 0 <= d < 16 -> hex_value (hex_digit d) = d.
Proof.
  intros Hd. unfold hex_digit. destruct (Z.leb_spec d 9); unfold hex_value.
  - guard_true ((48 <=? d + 48) && (d + 48 <=? 57)). lia.
  - guard_false ((48 <=? d + 65 - 10) && (d + 65 - 10 <=? 57)). rewrite u8_small; unfold byte_ok; lia.
Qed.

Definition hex_of (b : Z) : list Z := [hex_digit (Z.shiftr (Z.land b 0xf0) 4); hex_digit (Z.land b 0x0f)].

Lemma bin2ascii_rest src : forall spre dst dpre room rest i,
  zlen spre = i -> zlen dpre = 2 * i -> zlen room = 2 * zlen src -> dst = dpre ++ room ++ rest ->
  bin2ascii_loop (length src) dst (spre ++ src) i = Done (dpre ++ flat_map hex_of src ++ rest).
Proof.
  induction src as [|b src IH]; intros spre dst dpre room rest i Hi Hd Hr ->.
  - rewrite (zlen_nil (A := Z)) in Hr. destruct room; [done|rewrite zlen_cons in Hr; pose proof (zlen_nonneg room); lia].
  - rewrite zlen_cons in Hr. pose proof (zlen_nonneg src). cbn [length bin2ascii_loop].
    rewrite (rd_app spre _ b i Hi). cbn [obind].
    destruct room as [|y [|z room]]; rewrite ?zlen_cons, ?zlen_nil in Hr; [lia|lia|]. cbn [app].
    rewrite wr_app by lia. cbn [obind].
    replace (dpre ++ hex_digit (Z.shiftr (Z.land b 240) 4) :: z :: room ++ rest)
      with ((dpre ++ [hex_digit (Z.shiftr (Z.land b 240) 4)]) ++ z :: room ++ rest) by lists.
    rewrite wr_app by (rewrite zlen_app, zlen_cons, zlen_nil; lia). cbn [obind].
    replace (spre ++ b :: src) with ((spre ++ [b]) ++ src) by lists.
    rewrite (IH (spre ++ [b]) _ (dpre ++ hex_of b) room rest (i + 1)); [cbn [flat_map]; f_equal; lists|..].
    4: { unfold hex_of. lists. }
    all: rewrite ?zlen_app; unfold hex_of; rewrite ?zlen_cons, ?zlen_nil; lia.
Qed.

(** A fact about a byte that holds of each of the 256. *)
Lemma byte_sweep (P : Z -> bool) b :
  forallb (fun n => P (Z.of_nat n)) (seq 0 256) = true -> byte_ok b -> P b = true.
Proof.
  intros H [H1 H2]. rewrite forallb_forall in H. rewrite <- (Z2Nat.id b) by done. apply H, in_seq. lia.
Qed.

Lemma byte_nibbles b : byte_ok b ->
  0 <= Z.shiftr (Z.land b 0xf0) 4 < 16 /\ 0 <= Z.land b 0x0f < 16 /\
  u8 (Z.lor (Z.shiftl (Z.shiftr (Z.land b 0xf0) 4) 4) (Z.land b 0x0f)) = b.
Proof.
  intros Hb.
  pose proof (byte_sweep (fun b => (0 <=? Z.shiftr (Z.land b 0xf0) 4) && (Z.shiftr (Z.land b 0xf0) 4 <? 16) &&
    (0 <=? Z.land b 0x0f) && (Z.land b 0x0f <? 16) &&
    (u8 (Z.lor (Z.shiftl (Z.shiftr (Z.land b 0xf0) 4) 4) (Z.land b 0x0f)) =? b)) b ltac:(by vm_compute) Hb) as H.
  cbv beta in H. rewrite !andb_true_iff, !Z.leb_le, !Z.ltb_lt, Z.eqb_eq in H. tauto.
Qed.

Lemma ascii2bin_rest src : Forall byte_ok src -> forall spre dst dpre room rest txt i,
  zlen dpre = i -> zlen spre = 2 * i -> zlen room = zlen src -> dst = dpre ++ room ++ rest ->
  txt = spre ++ flat_map hex_of src ->
  ascii2bin_loop (length src) dst txt i = Done (dpre ++ src ++ rest).
Proof.
  induction 1 as [|b src Hb Hs IH]; intros spre dst dpre room rest txt i Hd Hi Hr -> ->.
  - rewrite (zlen_nil (A := Z)) in Hr. destruct room; [done|rewrite zlen_cons in Hr; pose proof (zlen_nonneg room); lia].
  - rewrite zlen_cons in Hr. pose proof (zlen_nonneg src). cbn [length ascii2bin_loop flat_map].
    change (hex_of b) with [hex_digit (Z.shiftr (Z.land b 0xf0) 4); hex_digit (Z.land b 0x0f)]. cbn [app]. set (h := hex_digit _). set (l := hex_digit (Z.land b 15)).
    rewrite (rd_app spre _ h) by lia. cbn [obind].
    replace (spre ++ h :: l :: flat_map hex_of src) with ((spre ++ [h]) ++ l :: flat_map hex_of src) by lists.
    rewrite (rd_app (spre ++ [h]) _ l) by (rewrite zlen_app, zlen_cons, zlen_nil; lia). cbn [obind].
    destruct room as [|y room]; rewrite ?zlen_cons, ?zlen_nil in Hr; [lia|]. cbn [app].
    rewrite wr_app by lia. cbn [obind]. destruct (byte_nibbles b Hb) as (Hh & Hlo & Hn).
    unfold h, l. rewrite !hex_digit_value, Hn by done.
    rewrite (IH (spre ++ hex_of b) _ (dpre ++ [b]) room rest _ (i + 1)); [f_equal; lists|..].
    4,5: unfold hex_of; lists.
    all: rewrite ?zlen_app; unfold hex_of; rewrite ?zlen_cons, ?zlen_nil; lia.
Qed.

(** Text that was made of binary data is turned back into it. *)
Lemma hex_roundtrip src dst txt : Forall byte_ok src -> zlen txt = 2 * zlen src -> zlen dst = zlen src ->
  (let* t := bin2ascii txt src (zlen src) in ascii2bin dst t (zlen t)) = Done src.
Proof.
  intros Hs Ht Hd. unfold bin2ascii. replace (Z.to_nat (zlen src)) with (length src) by (unfold zlen; lia).
  pose proof (bin2ascii_rest src [] txt [] txt [] 0) as E. cbn [app] in E. rewrite !app_nil_r in E.
  rewrite E by done. cbn [obind].
  assert (Hz : zlen (flat_map hex_of src) = 2 * zlen src).
  { clear. induction src as [|b src IH]; [done|]. cbn [flat_map]. rewrite zlen_app, IH, zlen_cons. unfold hex_of.
    rewrite ?zlen_cons, zlen_nil. lia. }
  unfold ascii2bin. rewrite Hz. replace ((2 * zlen src + 1) / 2) with (zlen src) by (Z.div_mod_to_equations; lia).
  replace (Z.to_nat (zlen src)) with (length src) by (unfold zlen; lia).
  pose proof (ascii2bin_rest src Hs [] dst [] dst [] (flat_map hex_of src) 0) as F. cbn [app] in F.
  rewrite !app_nil_r in F. by apply F.
Qed.

(** ** The CRC *)

(** The table is that of the modem loader, so the two programs compute the same CRC. *)
Lemma crc16_is_calculate_crc crc l : crc16 crc l = calculate_crc crc l.
Proof. reflexivity. Qed.

Lemma crc16_u16 l : forall crc, u16_ok crc -> u16_ok (crc16 crc l).
Proof.
  unfold crc16. induction l as [|b l IH]; intros crc Hc; [done|]. cbn [fold_left]. apply IH. unfold crc16_step.
  apply lxor_u16.
  - unfold u16_ok in *. rewrite Z.shiftr_div_pow2 by lia. Z.div_mod_to_equations. lia.
  - assert (Ht : forallb (fun x => (0 <=? x) && (x <? 65536)) crc16_table = true) by (by vm_compute).
    rewrite forallb_forall in Ht. destruct (crc16_table !! _) as [x|] eqn:E; cbn [default]; [|done].
    apply list_elem_of_lookup_2, list_elem_of_In, Ht in E. rewrite andb_true_iff, Z.leb_le, Z.ltb_lt in E. unfold u16_ok. cbn [default from_option id]. lia.
Qed.

(** The two bytes that carry the CRC, as the handlers write and check them. *)
Lemma crc16_bytes l : le_bytes 2 (crc16 0 l) = [Z.land (crc16 0 l) 0xff; Z.land (Z.shiftr (crc16 0 l) 8) 0xff].
Proof. cbn [le_bytes]. by rewrite !land_ff, Z.shiftr_div_pow2 by lia. Qed.

Lemma crc16_le_val l : le_val (le_bytes 2 (crc16 0 l)) = crc16 0 l.
Proof.
  rewrite le_val_le_bytes. pose proof (crc16_u16 l 0 ltac:(done)) as H. unfold u16_ok in H.
  apply Z.mod_small. cbn. lia.
Qed.
