(* ===== verification/EngText.v ===== *)
(** * apps/engmode: C strings and the tokeniser of AT commands

    What the diagnostic channel uses of the C library on NUL-terminated strings in a buffer,
    and eng_attok.c.  The tokeniser works in the buffer: [strsep] puts a NUL where a token
    ends.  A [char *] into the buffer is an index, or [None] for NULL; [long] has 32 bits. *)

From S2P Require Import Prelude CString.

(** ** The C library *)

(** The string that starts with the first element, or [None] when no NUL follows. *)
Fixpoint cstr (l : list Z) : option (list Z) :=
  match l with
  | [] => None
  | c :: l => if c =? 0 then Some [] else cons c <$> cstr l
  end.

Definition cstr_at (buf : list Z) (i : Z) : outcome (list Z) :=
  if 0 <=? i then match cstr (drop (Z.to_nat i) buf) with Some s => Done s | None => Undef end else Undef.

(** [strcpy (&dst[off], s)]. *)
Definition strcpy (dst : list Z) (off : Z) (s : list Z) : outcome (list Z) := splice dst off (s ++ [0]).

(** [strncmp (&buf[i], s, strlen (s)) == 0]. *)
Fixpoint has_prefix (buf : list Z) (i : Z) (s : list Z) : outcome bool :=
  match s with
  | [] => Done true
  | c :: s => let* b := rd buf i in if b =? c then has_prefix buf (i + 1) s else Done false
  end.

(** [strchr (&buf[i], c)], for [c] other than NUL. *)
Definition strchr (buf : list Z) (i c : Z) : outcome (option Z) :=
  let* s := cstr_at buf i in
  Done (match list_find (fun b => b = c) s with Some (k, _) => Some (i + Z.of_nat k) | None => None end).

Fixpoint starts_with (s p : list Z) : bool :=
  match p, s with
  | [], _ => true
  | c :: p, b :: s => (b =? c) && starts_with s p
  | _ :: _, [] => false
  end.
(** [strstr (s, p) != NULL]. *)
Fixpoint strstr (s p : list Z) : bool :=
  starts_with s p || match s with [] => false | _ :: s => strstr s p end.

Definition tolower (c : Z) : Z := if (65 <=? c) && (c <=? 90) then c + 32 else c.
(** [strcasestr (s, p) != NULL]. *)
Definition strcasestr (s p : list Z) : bool := strstr (tolower <$> s) (tolower <$> p).

Definition isspace (c : Z) : bool := (c =? 32) || ((9 <=? c) && (c <=? 13)).
Definition isdigit (c : Z) : bool := (48 <=? c) && (c <=? 57).
Definition isupper (c : Z) : bool := (65 <=? c) && (c <=? 90).

(** The string of bytes other than NUL, for [strtol], [atoi] and [isspace]. *)
Fixpoint string_of (s : list Z) : string :=
  match s with [] => EmptyString | c :: s => String (ascii_of_nat (Z.to_nat c)) (string_of s) end.

(** ** eng_attok.c *)

(** [strsep (p_cur, d)] for one delimiter: the token, the buffer, and where to go on. *)
Definition strsep (buf : list Z) (p_cur : option Z) (d : Z) : outcome (option Z * list Z * option Z) :=
  match p_cur with
  | None => Done (None, buf, None)
  | Some i =>
      let* e := strchr buf i d in
      match e with
      | None => Done (Some i, buf, None)
      | Some j => let* buf := wr buf j 0 in Done (Some i, buf, Some (j + 1))
      end
  end.

Definition at_tok_start (buf : list Z) (p_cur : option Z) : outcome (Z * option Z) :=
  match p_cur with
  | None => Done (-1, None)
  | Some i => let* e := strchr buf i 58 in
              Done (match e with Some j => (0, Some (j + 1)) | None => (-1, None) end)
  end.

Definition skipWhiteSpace (buf : list Z) (p_cur : option Z) : outcome (option Z) :=
  match p_cur with
  | None => Done None
  | Some i => let* s := cstr_at buf i in Done (Some (i + zlen s - Z.of_nat (String.length (skip_space (string_of s)))))
  end.

(** Past the next comma, or to the end of the string. *)
Definition skipNextComma (buf : list Z) (p_cur : option Z) : outcome (option Z) :=
  match p_cur with
  | None => Done None
  | Some i =>
      let* s := cstr_at buf i in
      let* e := strchr buf i 44 in
      Done (Some (match e with Some j => j + 1 | None => i + zlen s end))
  end.

Definition nextTok (buf : list Z) (p_cur : option Z) : outcome (option Z * list Z * option Z) :=
  let* p_cur := skipWhiteSpace buf p_cur in
  match p_cur with
  | None => Done (None, buf, None)
  | Some i =>
      let* c := rd buf i in
      if c =? 34 then
        let* (ret, buf, p_cur) := strsep buf (Some (i + 1)) 34 in
        let* p_cur := skipNextComma buf p_cur in
        Done (ret, buf, p_cur)
      else strsep buf (Some i) 44
  end.

(** The result code, the buffer, the position, and [*p_out], which is written only when there
    was a token. *)
Definition at_tok_nextint (buf : list Z) (p_cur : option Z) (p_out : Z) : outcome (Z * list Z * option Z * Z) :=
  match p_cur with
  | None => Done (-1, buf, None, p_out)
  | Some _ =>
      let* (ret, buf, p_cur) := nextTok buf p_cur in
      match ret with
      | None => Done (-1, buf, p_cur, p_out)
      | Some i =>
          let* s := cstr_at buf i in
          Done (match scan_d (string_of s) with Some _ => 0 | None => -1 end, buf, p_cur, strtol (string_of s) 10)
      end
  end.

Definition at_tok_hasmore (buf : list Z) (p_cur : option Z) : outcome bool :=
  match p_cur with
  | None => Done false
  | Some i => let* c := rd buf i in Done (negb (c =? 0))
  end.

(** ** at_tok_equel_start (eng_diag.c) *)
Definition at_tok_equel_start (buf : list Z) (p_cur : option Z) : outcome (Z * option Z) :=
  match p_cur with
  | None => Done (-1, None)
  | Some i => let* e := strchr buf i 61 in
              Done (match e with Some j => (0, Some (j + 1)) | None => (-1, None) end)
  end.

(** ** Facts about strings *)
Lemma cstr_app s l : Forall (fun c => c <> 0) s -> cstr (s ++ 0 :: l) = Some s.
Proof.
  induction 1 as [|c s Hc Hs IH]; [done|]. cbn [app cstr]. apply Z.eqb_neq in Hc. by rewrite Hc, IH.
Qed.

Lemma cstr_with_end l k : exists s, cstr (l ++ 0 :: k) = Some s.
Proof.
  induction l as [|c l [s IH]]; [by exists []|]. cbn. destruct (c =? 0); [by exists []|]. rewrite IH. by exists (c :: s).
Qed.

Lemma cstr_at_app pre s l i : Forall (fun c => c <> 0) s -> zlen pre = i ->
  cstr_at (pre ++ s ++ 0 :: l) i = Done s.
Proof.
  intros Hs <-. unfold cstr_at. pose proof (zlen_nonneg pre). guard_true (0 <=? zlen pre).
  unfold zlen. rewrite Nat2Z.id, drop_app_length. by rewrite cstr_app.
Qed.
