(* ===== verification/EngMac.v ===== *)
(** * apps/engmode: the Bluetooth and WiFi addresses

    The diagnostic tool stores the addresses of a phone with one command (type 0x5E, write)
    and asks for them with another (read).  This file models the files that hold them
    (eng_btwifiaddr.c), the check whether a command of this type is for the application
    processor ([is_btwifi_addr_need_to_handle]), and its handler ([eng_diag_btwifi]). *)

From S2P Require Import Prelude CString EngFrame EngText.

(** ** The header of a message (eng_diag.h): MSG_HEAD_T at offset [h] of a buffer *)
Definition MSG_HEAD_size : Z := 8.
Definition head_len (buf : list Z) (h : Z) : outcome Z := let* b := slice buf (h + 4) 2 in Done (le_val b).
Definition head_type (buf : list Z) (h : Z) : outcome Z := rd buf (h + 6).
Definition head_subtype (buf : list Z) (h : Z) : outcome Z := rd buf (h + 7).
Definition set_head_len (buf : list Z) (h v : Z) : outcome (list Z) := splice buf (h + 4) (le_bytes 2 v).
Definition set_head_subtype (buf : list Z) (h v : Z) : outcome (list Z) := wr buf (h + 7) v.

Definition DIAG_HEADER_LENGTH : Z := 8.
Definition DIAG_CMD_READ : Z := 0x80.
Definition DIAG_CMD_BTBIT : Z := 0x04.
Definition DIAG_CMD_WIFIBIT : Z := 0x40.

(** REF_NVWriteDirect_T: its size, and where the addresses are in it. *)
Definition DIRECT_size : Z := 106.
Definition DIRECT_btaddr : Z := 16.
Definition DIRECT_wifiaddr : Z := 66.

(** ** The files (eng_btwifiaddr.c) *)
Record macs : Type := {
  wifi_file : option (list Z);
  bt_file : option (list Z);
  rand_file : option (list Z);
  sys_mac_wifi : list Z;
  sys_mac_bluetooth : list Z;
  bdaddr_path : bool;
  set_mac : Z
}.

(** What the operating system answers: which files can be created or opened, how much of a
    text [write] takes (or -1), and the four numbers that [rand] gives after [srand]. *)
Record mac_env : Type := {
  creates_wifi : bool;
  creates_bt : bool;
  opens_wifi : bool;
  opens_bt : bool;
  opens_rand : bool;
  written : list Z -> Z;
  rands : Z * Z * Z * Z
}.

(** [%02x] of a byte. *)
Definition lhex (d : Z) : Z := if d <? 10 then d + 48 else d + 87.
Definition hex2 (b : Z) : list Z := [lhex (b / 16); lhex (b mod 16)].
(** [%02x:%02x:...] *)
Fixpoint mac_text (bs : list Z) : list Z :=
  match bs with [] => [] | [b] => hex2 b | b :: bs => hex2 b ++ 58 :: mac_text bs end.

Definition MAC_ERROR_EX : list Z := [58; 58; 58; 58; 58].
Definition MAC_ERROR : list Z := [70; 70; 58; 70; 70; 58; 70; 70; 58; 70; 70; 58; 70; 70; 58; 70; 70].

Definition mac_missing (s : list Z) : bool := strstr s MAC_ERROR || strstr s MAC_ERROR_EX || (zlen s =? 0).

(** "00:" and five bytes of two random numbers. *)
Definition rand_text (i j : Z) : list Z :=
  mac_text [0; u8 (Z.land (Z.shiftr i 8) 0xFF); u8 (Z.land (Z.shiftr i 16) 0xFF);
            u8 (Z.land j 0xFF); u8 (Z.land (Z.shiftr j 8) 0xFF); u8 (Z.land (Z.shiftr j 16) 0xFF)].

Definition mac_rand (e : mac_env) (m : macs) (btmac wifimac : list Z) : outcome (list Z * list Z) :=
  let fresh :=
    let '(i, j, i', j') := rands e in
    let* btmac := strcpy btmac 0 (rand_text i j) in
    let* wifimac := strcpy wifimac 0 (rand_text i' j') in
    Done (btmac, wifimac) in
  match rand_file m with
  | Some c =>
      if opens_rand e then
        let* buf := splice (replicate 80 0) 0 (take 80 c) in
        let* ptr := strchr buf 0 59 in
        match ptr with
        | Some k =>
            let* w := cstr_at wifimac 0 in
            let* wifimac := if mac_missing w then let* s := cstr_at buf (k + 1) in strcpy wifimac 0 s else Done wifimac in
            let* buf := wr buf k 0 in
            let* b := cstr_at btmac 0 in
            let* btmac := if mac_missing b then let* s := cstr_at buf 0 in strcpy btmac 0 s else Done btmac in
            Done (btmac, wifimac)
        | None => fresh
        end
      else fresh
  | None => fresh
  end.

Definition set_wifi_file (m : macs) (c : list Z) : macs :=
  {| wifi_file := Some c; bt_file := bt_file m; rand_file := rand_file m; sys_mac_wifi := sys_mac_wifi m;
     sys_mac_bluetooth := sys_mac_bluetooth m; bdaddr_path := bdaddr_path m; set_mac := set_mac m |}.
Definition set_bt_file (m : macs) (c : list Z) : macs :=
  {| wifi_file := wifi_file m; bt_file := Some c; rand_file := rand_file m; sys_mac_wifi := sys_mac_wifi m;
     sys_mac_bluetooth := sys_mac_bluetooth m; bdaddr_path := bdaddr_path m; set_mac := set_mac m |}.

(** A file that could be created is empty, and then holds what [write] took.  The result is
    that of the second file. *)
Definition write_mac2file (e : mac_env) (m : macs) (wifimac btmac : list Z) : macs * Z :=
  let '(m, ret) :=
    if creates_wifi e then (set_wifi_file m (take (Z.to_nat (written e wifimac)) wifimac), written e wifimac)
    else (m, -1) in
  let '(m, ret) :=
    if creates_bt e then (set_bt_file m (take (Z.to_nat (written e btmac)) btmac), written e btmac)
    else (m, -1) in
  (m, ret).

(** [wifi] tells ENG_WIFI_MAC from ENG_BT_MAC.  At most 32 bytes are put at the start of [mac];
    no NUL is added. *)
Definition eng_btwifimac_read (e : mac_env) (m : macs) (mac : list Z) (wifi : bool) : outcome (list Z * Z) :=
  match (if wifi then wifi_file m else bt_file m), (if wifi then opens_wifi e else opens_bt e) with
  | Some c, true =>
      let got := take 32 c in
      let* mac := splice mac 0 got in
      Done (mac, if zlen got <=? 0 then -1 else 0)
  | _, _ => Done (mac, -1)
  end.

(** An address that is not given is that of the file, or else a random one. *)
Definition given_or (e : mac_env) (m : macs) (mac : option (list Z)) (rnd : list Z) (wifi : bool) : outcome (list Z) :=
  match mac with
  | Some s => Done s
  | None => let* (rnd, _) := eng_btwifimac_read e m rnd wifi in cstr_at rnd 0
  end.

Definition eng_btwifimac_write (e : mac_env) (m : macs) (bt_mac wifi_mac : option (list Z)) : outcome (macs * Z) :=
  let* (bt_mac, wifi_mac) :=
    match bt_mac, wifi_mac with
    | Some b, Some w => Done (b, w)
    | _, _ =>
        let* (bt_rand, wifi_rand) := mac_rand e m (replicate 32 0) (replicate 32 0) in
        let* b := given_or e m bt_mac bt_rand false in
        let* w := given_or e m wifi_mac wifi_rand true in
        Done (b, w)
    end in
  let '(m, ret) := write_mac2file e m wifi_mac bt_mac in
  if 0 <? ret then
    Done ({| wifi_file := wifi_file m; bt_file := bt_file m; rand_file := rand_file m; sys_mac_wifi := wifi_mac;
             sys_mac_bluetooth := bt_mac; bdaddr_path := true; set_mac := set_mac m + 1 |}, ret)
  else Done (m, ret).

(** ** The handler (eng_diag.c) *)

(** The fields of a text between colons, as bytes from [off] on; two characters of each field
    count, of the last one all. *)
Fixpoint char2hex_loop (fuel : nat) (hexdata : list Z) (off : Z) (s : list Z) : outcome (list Z) :=
  match fuel with
  | O => Fuel
  | S fuel =>
      match list_find (fun c => c = 58) s with
      | Some (k, _) =>
          let* hexdata := wr hexdata off (u8 (strtol (string_of (take 2 s)) 16)) in
          char2hex_loop fuel hexdata (off + 1) (drop (S k) s)
      | None => wr hexdata off (u8 (strtol (string_of s) 16))
      end
  end.
Definition eng_diag_char2hex (hexdata : list Z) (off : Z) (s : list Z) : outcome (list Z) :=
  char2hex_loop (S (length s)) hexdata off s.

Definition swap (buf : list Z) (i j : Z) : outcome (list Z) :=
  let* tmp := rd buf i in
  let* b := rd buf j in
  let* buf := wr buf i b in
  wr buf j tmp.

(** 0: for the communication processor; 1: for this one; 2: for both. *)
Definition is_btwifi_addr_need_to_handle (buf : list Z) : outcome Z :=
  let* len := head_len buf 1 in
  let* b := slice buf (u32 (len - 2 + 1)) 2 in
  let recv_crc := le_val b in
  let* data := slice buf (1 + MSG_HEAD_size) (u32 (len - MSG_HEAD_size - 2)) in
  let crc := crc16 0 data in
  if negb (recv_crc =? crc) then Done 0
  else
    let* subtype := head_subtype buf 1 in
    if (Z.land subtype 0x80 =? 0) && (Z.land subtype 0x7f =? 0) then Done 0
    else
      let cmd_mask := Z.land subtype 0x7f in
      if negb (cmd_mask =? 0) && (negb (Z.land cmd_mask DIAG_CMD_BTBIT =? 0) || negb (Z.land cmd_mask DIAG_CMD_WIFIBIT =? 0)) then
        Done (if negb (Z.land cmd_mask (Z.lnot (Z.lor DIAG_CMD_BTBIT DIAG_CMD_WIFIBIT)) =? 0) then 2 else 1)
      else Done 0.

(** The addresses of a write command whose CRC is right are stored: [ret]. *)
Definition btwifi_store (e : mac_env) (m : macs) (buf : list Z) : outcome (macs * Z) :=
  let* crc1 := rd buf (DIAG_HEADER_LENGTH + DIRECT_size + 1) in
  let* crc2 := rd buf (DIAG_HEADER_LENGTH + DIRECT_size + 2) in
  let* direct := slice buf (DIAG_HEADER_LENGTH + 1) DIRECT_size in
  let crc := crc16 0 direct in
  if (crc1 =? Z.land crc 0xff) && (crc2 =? Z.land (Z.shiftr crc 8) 0xff) then
    let* subtype := head_subtype buf 1 in
    let* bt := slice direct DIRECT_btaddr 6 in
    let* wifi := slice direct DIRECT_wifiaddr 6 in
    eng_btwifimac_write e m
      (if 0 <? Z.land subtype DIAG_CMD_BTBIT then Some (mac_text (rev bt)) else None)
      (if 0 <? Z.land subtype DIAG_CMD_WIFIBIT then Some (mac_text wifi) else None)
  else Done (m, -1).

(** Clear the address bits of the header at [h]. *)
Definition clear_bits (buf : list Z) (h : Z) : outcome (list Z) :=
  let* s := head_subtype buf h in
  set_head_subtype buf h (Z.land s (Z.lnot (Z.lor DIAG_CMD_BTBIT DIAG_CMD_WIFIBIT))).

Definition btwifi_write (e : mac_env) (m : macs) (cp_ap : bool) (buf rsp : list Z) : outcome (macs * list Z * list Z * Z) :=
  let* (m, ret) := btwifi_store e m buf in
  if cp_ap then
    let* buf := clear_bits buf 1 in
    Done (m, buf, rsp, 0)
  else
    let* buf := set_head_subtype buf 1 (if ret <=? 0 then 0x00 else 0x01) in
    let* head := slice buf 1 MSG_HEAD_size in
    let* tmprsp := splice (replicate 512 0) 0 head in
    let* tmprsp := set_head_len tmprsp 0 (MSG_HEAD_size + 2) in
    let* len := head_len tmprsp 0 in
    let* (rsp, rlen) := translate_packet rsp tmprsp len in
    Done (m, buf, rsp, rlen).

(** One address of the files, in the answer at [off]. *)
Definition btwifi_fetch (e : mac_env) (m : macs) (tmprsp : list Z) (off : Z) (wifi : bool) : outcome (list Z) :=
  let* (mac, ret) := eng_btwifimac_read e m (replicate 32 0) wifi in
  if ret =? 0 then let* s := cstr_at mac 0 in eng_diag_char2hex tmprsp off s else Done tmprsp.

(** Both addresses, as the subtype asks for them. *)
Definition btwifi_addresses (e : mac_env) (m : macs) (subtype : Z) : outcome (list Z) :=
  let bt := MSG_HEAD_size + DIRECT_btaddr in
  let* tmprsp :=
    if 0 <? Z.land subtype DIAG_CMD_BTBIT then
      let* (mac, ret) := eng_btwifimac_read e m (replicate 32 0) false in
      if ret =? 0 then
        let* s := cstr_at mac 0 in
        let* t := eng_diag_char2hex (replicate 512 0) bt s in
        let* t := swap t bt (bt + 5) in
        let* t := swap t (bt + 1) (bt + 4) in
        swap t (bt + 2) (bt + 3)
      else Done (replicate 512 0)
    else Done (replicate 512 0) in
  if 0 <? Z.land subtype DIAG_CMD_WIFIBIT then btwifi_fetch e m tmprsp (MSG_HEAD_size + DIRECT_wifiaddr) true
  else Done tmprsp.

(** The header and the CRC of the answer to a read, and its frame. *)
Definition btwifi_answer (buf tmprsp rsp : list Z) : outcome (list Z * list Z * Z) :=
  let* buf := set_head_subtype buf 1 0x01 in
  let* head := slice buf 1 MSG_HEAD_size in
  let* tmprsp := splice tmprsp 0 head in
  let* direct := slice tmprsp MSG_HEAD_size DIRECT_size in
  let crc := crc16 0 direct in
  let* tmprsp := wr tmprsp (MSG_HEAD_size + DIRECT_size) (Z.land crc 0xff) in
  let* tmprsp := wr tmprsp (MSG_HEAD_size + DIRECT_size + 1) (Z.land (Z.shiftr crc 8) 0xff) in
  let* tmprsp := set_head_len tmprsp 0 (MSG_HEAD_size + DIRECT_size + 2) in
  let* (rsp, rlen) := translate_packet rsp tmprsp (MSG_HEAD_size + DIRECT_size + 2) in
  Done (buf, rsp, rlen).

Definition btwifi_read (e : mac_env) (m : macs) (buf rsp : list Z) : outcome (macs * list Z * list Z * Z) :=
  let* subtype := head_subtype buf 1 in
  let* tmprsp := btwifi_addresses e m subtype in
  let* (buf, rsp, rlen) := btwifi_answer buf tmprsp rsp in
  Done (m, buf, rsp, rlen).

(** The buffer of the command, the answer, and its length.  On a read the bits are cleared in
    the local copy, which is not used any more. *)
Definition eng_diag_btwifi (e : mac_env) (m : macs) (cp_ap : bool) (buf rsp : list Z) : outcome (macs * list Z * list Z * Z) :=
  let* subtype := head_subtype buf 1 in
  if Z.land subtype DIAG_CMD_READ =? 0 then btwifi_write e m cp_ap buf rsp else btwifi_read e m buf rsp.

(** ** The AT commands for the addresses (eng_cmd4linuxhdlr.c) *)
Definition OK_CRLF : list Z := [79; 75; 13; 10].
Definition ERROR_CRLF : list Z := [69; 82; 82; 79; 82; 13; 10].

(** The text between the first two quotes of a request, in an array of 64 bytes: [snprintf] is
    given the length of the text as its bound. *)
Definition quoted (req : list Z) : outcome (option (list Z)) :=
  match list_find (fun c => c = 34) req with
  | None => Done None
  | Some (i, _) =>
      let ptr := drop (S i) req in
      match list_find (fun c => c = 34) ptr with
      | None => Done None
      | Some (j, _) => let* address := strcpy (replicate 64 0) 0 (take j ptr) in
                       let* s := cstr_at address 0 in Done (Some s)
      end
  end.

(** The result code and the answer; without a quoted text there is none. *)
Definition eng_linuxcmd_setbtaddr (e : mac_env) (m : macs) (req rsp : list Z) : outcome (macs * list Z * Z) :=
  let* q := quoted req in
  match q with
  | None => Done (m, rsp, -1)
  | Some address =>
      let* (wifiaddr, _) := eng_btwifimac_read e m (replicate 32 0) true in
      let* w := cstr_at wifiaddr 0 in
      let* (m, _) := eng_btwifimac_write e m (Some address) (Some w) in
      let* rsp := strcpy rsp 0 OK_CRLF in
      Done (m, rsp, 0)
  end.

Definition eng_linuxcmd_setwifiaddr (e : mac_env) (m : macs) (req rsp : list Z) : outcome (macs * list Z * Z) :=
  let* q := quoted req in
  match q with
  | None => Done (m, rsp, -1)
  | Some address =>
      let* (btaddr, _) := eng_btwifimac_read e m (replicate 32 0) false in
      let* b := cstr_at btaddr 0 in
      let* (m, _) := eng_btwifimac_write e m (Some b) (Some address) in
      let* rsp := strcpy rsp 0 OK_CRLF in
      Done (m, rsp, 0)
  end.

Definition get_addr (e : mac_env) (m : macs) (rsp : list Z) (wifi : bool) : outcome (list Z * Z) :=
  let* (addr, ret) := eng_btwifimac_read e m (replicate 32 0) wifi in
  let* rsp :=
    if ret <? 0 then strcpy rsp 0 ERROR_CRLF
    else let* s := cstr_at addr 0 in strcpy rsp 0 (s ++ [13; 10] ++ OK_CRLF) in
  Done (rsp, 0).
Definition eng_linuxcmd_getbtaddr (e : mac_env) (m : macs) (rsp : list Z) : outcome (list Z * Z) := get_addr e m rsp false.
Definition eng_linuxcmd_getwifiaddr (e : mac_env) (m : macs) (rsp : list Z) : outcome (list Z * Z) := get_addr e m rsp true.

(** ** Addresses as text *)
Lemma hex2_value b : byte_ok b -> u8 (strtol (string_of (hex2 b)) 16) = b.
Proof.
  intros Hb. apply Z.eqb_eq.
  apply (byte_sweep (fun b => u8 (strtol (string_of (hex2 b)) 16) =? b)); [by vm_compute|done].
Qed.

Lemma hex2_chars b : byte_ok b -> Forall (fun c => c <> 58 /\ c <> 0) (hex2 b).
Proof.
  intros Hb.
  pose proof (byte_sweep (fun b => forallb (fun c => negb (c =? 58) && negb (c =? 0)) (hex2 b)) b
    ltac:(by vm_compute) Hb) as H.
  cbv beta in H. rewrite forallb_forall in H. apply List.Forall_forall. intros c Hc. specialize (H c Hc).
  rewrite andb_true_iff, !negb_true_iff, !Z.eqb_neq in H. lia.
Qed.

Lemma hex2_two b : exists x y, hex2 b = [x; y].
Proof. by do 2 eexists. Qed.

Lemma zlen_mac_text b bs : zlen (mac_text (b :: bs)) = 2 + 3 * zlen bs.
Proof.
  revert b. induction bs as [|c bs IH]; intros b; [done|]. change (mac_text (b :: c :: bs)) with (hex2 b ++ 58 :: mac_text (c :: bs)).
  rewrite zlen_app, zlen_cons, IH. change (zlen (hex2 b)) with 2. rewrite zlen_cons. lia.
Qed.

Lemma mac_text_no_nul bs : Forall byte_ok bs -> Forall (fun c => c <> 0) (mac_text bs).
Proof.
  induction 1 as [|b bs Hb Hbs IH]; [constructor|].
  assert (H2 : Forall (fun c => c <> 0) (hex2 b)) by (eapply Forall_impl; [by apply hex2_chars|cbn; tauto]).
  destruct bs as [|c bs]; [done|]. change (mac_text (b :: c :: bs)) with (hex2 b ++ 58 :: mac_text (c :: bs)).
  apply Forall_app. split; [done|]. constructor; [done|apply IH].
Qed.

Lemma find_colon b : byte_ok b ->
  list_find (fun c => c = 58) (hex2 b) = None /\
  forall r, list_find (fun c => c = 58) (hex2 b ++ 58 :: r) = Some (2%nat, 58).
Proof.
  intros Hb. pose proof (hex2_chars b Hb) as Hc. destruct (hex2_two b) as (u & v & E).
  rewrite E in *. inversion Hc as [|? ? [Hu _] Hc']. inversion Hc' as [|? ? [Hv _] _]. subst.
  split; [|intros r]; cbn [app list_find]; by rewrite !decide_False, ?decide_True by done.
Qed.

(** Reading the text of an address gives its bytes. *)
Lemma char2hex_text bs : bs <> [] -> Forall byte_ok bs -> forall fuel pre room rest off,
  (length bs <= fuel)%nat -> zlen pre = off -> length room = length bs ->
  char2hex_loop fuel (pre ++ room ++ rest) off (mac_text bs) = Done (pre ++ bs ++ rest).
Proof.
  intros Hne Hbs. induction Hbs as [|b bs Hb Hbs IH]; [done|]. intros fuel pre room rest off Hf Ho Hr. clear Hne.
  destruct fuel as [|fuel]; [cbn in Hf; lia|]. destruct room as [|y room]; [done|]. cbn [length] in Hf, Hr.
  destruct (find_colon b Hb) as [Hn Hs]. destruct bs as [|c bs]; cbn [char2hex_loop].
  - change (mac_text [b]) with (hex2 b). rewrite Hn, hex2_value by done. destruct room; [|done]. cbn [app]. by rewrite wr_app.
  - change (mac_text (b :: c :: bs)) with (hex2 b ++ 58 :: mac_text (c :: bs)). rewrite Hs.
    change (take 2 (hex2 b ++ _)) with (hex2 b). change (drop 3 (hex2 b ++ 58 :: ?l)) with l.
    rewrite hex2_value by done. cbn [app]. rewrite wr_app by done. cbn [obind].
    replace (pre ++ b :: room ++ rest) with ((pre ++ [b]) ++ room ++ rest) by lists.
    rewrite (IH ltac:(done) fuel (pre ++ [b])) by (rewrite ?zlen_app, ?zlen_cons, ?zlen_nil; cbn in *; lia). f_equal. lists.
Qed.

(** A text of up to 31 characters in a file is read as it is. *)
Lemma read_text (e : mac_env) (m : macs) (wifi : bool) s :
  (if wifi then wifi_file m else bt_file m) = Some s -> (if wifi then opens_wifi e else opens_bt e) = true ->
  Forall (fun c => c <> 0) s -> 0 < zlen s < 32 ->
  exists mac, eng_btwifimac_read e m (replicate 32 0) wifi = Done (mac, 0) /\ cstr_at mac 0 = Done s.
Proof.
  intros Hf Ho Hs Hl. unfold eng_btwifimac_read. rewrite Hf, Ho. unfold zlen in Hl.
  rewrite take_ge by lia. rewrite splice_in by (unfold zlen; rewrite ?length_replicate; lia). cbn [obind].
  replace (zlen s <=? 0) with false by (symmetry; apply Z.leb_gt; unfold zlen; lia).
  change (Z.to_nat 0) with 0%nat. rewrite take_0, drop_replicate. cbn [app Nat.add].
  eexists. split; [reflexivity|]. destruct (32 - length s)%nat as [|k] eqn:E; [lia|]. cbn [replicate].
  by apply (cstr_at_app [] s (replicate k 0)).
Qed.

(** The text of an address is such a text. *)
Lemma read_mac (e : mac_env) (m : macs) (wifi : bool) b bs :
  (if wifi then wifi_file m else bt_file m) = Some (mac_text (b :: bs)) ->
  (if wifi then opens_wifi e else opens_bt e) = true ->
  Forall byte_ok (b :: bs) -> length bs = 5%nat ->
  exists mac, eng_btwifimac_read e m (replicate 32 0) wifi = Done (mac, 0) /\ cstr_at mac 0 = Done (mac_text (b :: bs)).
Proof.
  intros Hf Ho Hb Hl. apply read_text; [done|done|by apply mac_text_no_nul|]. rewrite zlen_mac_text. unfold zlen. lia.
Qed.

(** ** Commands and answers *)

(** A message of this type: a sequence number of four bytes, the length of the message, the
    type and the subtype, the data, and its CRC. *)
Definition btwifi_msg (seq : list Z) (sub : Z) (direct : list Z) : list Z :=
  seq ++ le_bytes 2 116 ++ [0x5E; sub] ++ direct ++ le_bytes 2 (crc16 0 direct).

(** The answer to a write: the outcome is the subtype. *)
Definition btwifi_ack (seq : list Z) (sub : Z) : list Z := seq ++ le_bytes 2 10 ++ [0x5E; sub; 0; 0].

(** The data of an answer: the two addresses, and nothing else. *)
Definition btwifi_data (bt wifi : list Z) : list Z :=
  replicate 16 0 ++ bt ++ replicate 44 0 ++ wifi ++ replicate 34 0.

Section messages.
  Context (seq direct rest : list Z) (sub : Z).
  Context (Hseq : zlen seq = 4) (Hdir : zlen direct = 106).
Let buf : list Z := 0x7E :: btwifi_msg seq sub direct ++ rest.

Lemma msg_len : head_len buf 1 = Done 116.
Proof.
  unfold head_len, buf, btwifi_msg.
  replace (0x7E :: (seq ++ le_bytes 2 116 ++ [0x5E; sub] ++ direct ++ le_bytes 2 (crc16 0 direct)) ++ rest)
    with ((0x7E :: seq) ++ le_bytes 2 116 ++ ([0x5E; sub] ++ direct ++ le_bytes 2 (crc16 0 direct) ++ rest)) by lists.
  rewrite slice_app by (rewrite ?zlen_cons; lia || done). done.
Qed.

Lemma msg_type : head_type buf 1 = Done 0x5E.
Proof.
  unfold head_type, buf, btwifi_msg.
  replace (0x7E :: (seq ++ le_bytes 2 116 ++ [0x5E; sub] ++ direct ++ le_bytes 2 (crc16 0 direct)) ++ rest)
    with ((0x7E :: seq ++ le_bytes 2 116) ++ 0x5E :: (sub :: direct ++ le_bytes 2 (crc16 0 direct) ++ rest)) by lists.
  apply rd_app. rewrite zlen_cons, zlen_app, zlen_le_bytes. lia.
Qed.

Lemma msg_subtype : head_subtype buf 1 = Done sub.
Proof.
  unfold head_subtype, buf, btwifi_msg.
  replace (0x7E :: (seq ++ le_bytes 2 116 ++ [0x5E; sub] ++ direct ++ le_bytes 2 (crc16 0 direct)) ++ rest)
    with ((0x7E :: seq ++ le_bytes 2 116 ++ [0x5E]) ++ sub :: (direct ++ le_bytes 2 (crc16 0 direct) ++ rest)) by lists.
  apply rd_app. rewrite zlen_cons, !zlen_app, zlen_le_bytes, zlen_cons, zlen_nil. lia.
Qed.

Lemma msg_set_subtype v : set_head_subtype buf 1 v = Done (0x7E :: seq ++ le_bytes 2 116 ++ [0x5E; v] ++
  direct ++ le_bytes 2 (crc16 0 direct) ++ rest).
Proof.
  unfold set_head_subtype, buf, btwifi_msg.
  replace (0x7E :: (seq ++ le_bytes 2 116 ++ [0x5E; sub] ++ direct ++ le_bytes 2 (crc16 0 direct)) ++ rest)
    with ((0x7E :: seq ++ le_bytes 2 116 ++ [0x5E]) ++ sub :: (direct ++ le_bytes 2 (crc16 0 direct) ++ rest)) by lists.
  rewrite wr_app by (rewrite zlen_cons, !zlen_app, zlen_le_bytes, zlen_cons, zlen_nil; lia). f_equal. lists.
Qed.

Lemma msg_direct : slice buf 9 106 = Done direct.
Proof.
  unfold buf, btwifi_msg.
  replace (0x7E :: (seq ++ le_bytes 2 116 ++ [0x5E; sub] ++ direct ++ le_bytes 2 (crc16 0 direct)) ++ rest)
    with ((0x7E :: seq ++ le_bytes 2 116 ++ [0x5E; sub]) ++ direct ++ le_bytes 2 (crc16 0 direct) ++ rest) by lists.
  apply slice_app; [|done]. rewrite zlen_cons, !zlen_app, zlen_le_bytes, !zlen_cons, zlen_nil. lia.
Qed.

Lemma msg_crc : slice buf 115 2 = Done (le_bytes 2 (crc16 0 direct)).
Proof.
  unfold buf, btwifi_msg.
  replace (0x7E :: (seq ++ le_bytes 2 116 ++ [0x5E; sub] ++ direct ++ le_bytes 2 (crc16 0 direct)) ++ rest)
    with ((0x7E :: seq ++ le_bytes 2 116 ++ [0x5E; sub] ++ direct) ++ le_bytes 2 (crc16 0 direct) ++ rest) by lists.
  apply slice_app; [|apply zlen_le_bytes]. rewrite zlen_cons, !zlen_app, zlen_le_bytes, !zlen_cons, zlen_nil. lia.
Qed.

Lemma msg_crc_bytes : rd buf 115 = Done (Z.land (crc16 0 direct) 0xff) /\
  rd buf 116 = Done (Z.land (Z.shiftr (crc16 0 direct) 8) 0xff).
Proof.
  unfold buf, btwifi_msg. rewrite crc16_bytes.
  set (c1 := Z.land (crc16 0 direct) 255). set (c2 := Z.land (Z.shiftr (crc16 0 direct) 8) 255).
  replace (0x7E :: (seq ++ le_bytes 2 116 ++ [0x5E; sub] ++ direct ++ [c1; c2]) ++ rest)
    with ((0x7E :: seq ++ le_bytes 2 116 ++ [0x5E; sub] ++ direct) ++ c1 :: (c2 :: rest)) by lists.
  split; [apply rd_app|].
  2: replace ((0x7E :: seq ++ le_bytes 2 116 ++ [0x5E; sub] ++ direct) ++ c1 :: (c2 :: rest))
       with ((0x7E :: seq ++ le_bytes 2 116 ++ [0x5E; sub] ++ direct ++ [c1]) ++ c2 :: rest) by lists; apply rd_app.
  all: rewrite zlen_cons, !zlen_app, zlen_le_bytes, !zlen_cons, zlen_nil; lia.
Qed.

(** A message with the right CRC is for this processor when an address bit is set, and for the
    other as well when any other bit is. *)
Lemma msg_handled : Z.land sub 0x44 <> 0 ->
  is_btwifi_addr_need_to_handle buf = Done (if Z.land sub 0x3B =? 0 then 1 else 2).
Proof.
  intros Hs. unfold is_btwifi_addr_need_to_handle. rewrite msg_len. cbn [obind].
  change (u32 (116 - 2 + 1)) with 115. rewrite msg_crc. cbn [obind].
  change (u32 (116 - MSG_HEAD_size - 2)) with 106. change (1 + MSG_HEAD_size) with 9. rewrite msg_direct. cbn [obind].
  rewrite crc16_le_val, Z.eqb_refl. cbn [negb]. rewrite msg_subtype. cbn [obind].
  change DIAG_CMD_BTBIT with 4. change DIAG_CMD_WIFIBIT with 64. rewrite <- !Z.land_assoc.
  change (Z.land 0x7f 4) with 4. change (Z.land 0x7f 64) with 64.
  change (Z.land 0x7f (Z.lnot (Z.lor 4 64))) with 0x3B.
  assert (Hb : Z.land sub 4 <> 0 \/ Z.land sub 64 <> 0).
  { destruct (Z.eq_dec (Z.land sub 4) 0) as [E1|]; [|by left]. destruct (Z.eq_dec (Z.land sub 64) 0) as [E2|]; [|by right].
    exfalso. apply Hs. change 0x44 with (Z.lor 4 64). by rewrite Z.land_lor_distr_r, E1, E2. }
  assert (H7 : Z.land sub 0x7f <> 0).
  { intros E. destruct Hb as [Hb|Hb]; apply Hb; [change 4 with (Z.land 0x7f 4)|change 64 with (Z.land 0x7f 64)];
      by rewrite Z.land_assoc, E. }
  replace (Z.land sub 0x7f =? 0) with false by (symmetry; by apply Z.eqb_neq). rewrite andb_false_r. cbn [negb andb].
  replace (negb (Z.land sub 4 =? 0) || negb (Z.land sub 64 =? 0)) with true; [by destruct (Z.land sub 0x3B =? 0)|].
  symmetry. apply orb_true_iff. rewrite !negb_true_iff, !Z.eqb_neq. done.
Qed.
End messages.

(** ** The handler *)

(** The system creates the files and takes what is written. *)
Definition files_work (e : mac_env) : Prop :=
  creates_wifi e = true /\ creates_bt e = true /\ opens_wifi e = true /\ opens_bt e = true /\
  (forall s, written e s = zlen s).

(** What the files hold when both addresses were stored. *)
Definition stored (m : macs) (bt wifi : list Z) : Prop :=
  bt_file m = Some (mac_text (rev bt)) /\ wifi_file m = Some (mac_text wifi).

Lemma mac_write_both e m b w : files_work e -> 0 < zlen b ->
  exists m' ret, eng_btwifimac_write e m (Some b) (Some w) = Done (m', ret) /\ 0 < ret /\
    bt_file m' = Some b /\ wifi_file m' = Some w /\ sys_mac_bluetooth m' = b /\ sys_mac_wifi m' = w /\
    set_mac m' = set_mac m + 1.
Proof.
  intros (H1 & H2 & _ & _ & Hw) Hb. unfold eng_btwifimac_write, write_mac2file. cbn [obind].
  rewrite H1, H2, !Hw. guard_true (0 <? zlen b). unfold zlen. rewrite !Nat2Z.id, !firstn_all.
  do 2 eexists. split; [reflexivity|]. cbn. unfold zlen in Hb. done.
Qed.

Section handler.
  Context (e : mac_env) (seq rest : list Z) (Hseq : zlen seq = 4) (Hfiles : files_work e).

Lemma store_both m sub imei bt gps wifi tail :
  zlen imei = 16 -> zlen bt = 6 -> zlen gps = 44 -> zlen wifi = 6 -> zlen tail = 34 ->
  0 < Z.land sub 0x04 -> 0 < Z.land sub 0x40 ->
  exists m' ret,
    btwifi_store e m (0x7E :: btwifi_msg seq sub (imei ++ bt ++ gps ++ wifi ++ tail) ++ rest) = Done (m', ret) /\
    0 < ret /\ stored m' bt wifi.
Proof.
  intros Hi Hb Hg Hw Ht Hs1 Hs2. set (direct := imei ++ bt ++ gps ++ wifi ++ tail).
  assert (Hd : zlen direct = 106) by (unfold direct; rewrite !zlen_app; lia).
  unfold btwifi_store. destruct (msg_crc_bytes seq direct rest sub Hseq Hd) as [C1 C2].
  change (DIAG_HEADER_LENGTH + DIRECT_size + 1) with 115. change (DIAG_HEADER_LENGTH + DIRECT_size + 2) with 116.
  rewrite C1, C2. cbn [obind]. change (DIAG_HEADER_LENGTH + 1) with 9. change DIRECT_size with 106.
  rewrite msg_direct by done. cbn [obind]. rewrite !Z.eqb_refl. cbn [andb].
  rewrite msg_subtype by done. cbn [obind].
  assert (Sb : slice direct DIRECT_btaddr 6 = Done bt) by (by apply (slice_app imei bt)).
  assert (Sw : slice direct DIRECT_wifiaddr 6 = Done wifi).
  { unfold direct. replace (imei ++ bt ++ gps ++ wifi ++ tail) with ((imei ++ bt ++ gps) ++ wifi ++ tail) by lists.
    apply slice_app; [rewrite !zlen_app|]; unfold DIRECT_wifiaddr; lia. }
  rewrite Sb, Sw. cbn [obind]. change DIAG_CMD_BTBIT with 4. change DIAG_CMD_WIFIBIT with 64.
  guard_true (0 <? Z.land sub 4). guard_true (0 <? Z.land sub 64).
  destruct (mac_write_both e m (mac_text (rev bt)) (mac_text wifi) Hfiles) as (m' & ret & E & Hr & F1 & F2 & _).
  { destruct (rev bt) as [|x l] eqn:R; [|rewrite zlen_mac_text; pose proof (zlen_nonneg l); lia].
    apply (f_equal (@length Z)) in R. rewrite length_rev in R. unfold zlen in Hb. cbn in R. lia. }
  exists m', ret. split; [done|split; [done|by split]].
Qed.

(** The answer of a write, in an array with room for it. *)
Lemma write_answers m sub imei bt gps wifi tail rsp :
  zlen imei = 16 -> zlen bt = 6 -> zlen gps = 44 -> zlen wifi = 6 -> zlen tail = 34 ->
  0 < Z.land sub 0x04 -> 0 < Z.land sub 0x40 -> Z.land sub 0x80 = 0 -> zlen rsp = 512 ->
  exists m' buf' rsp' n,
    eng_diag_btwifi e m false (0x7E :: btwifi_msg seq sub (imei ++ bt ++ gps ++ wifi ++ tail) ++ rest) rsp =
      Done (m', buf', rsp', n) /\
    stored m' bt wifi /\ slice rsp' 0 n = Done (translate (btwifi_ack seq 1)).
Proof.
  intros Hi Hb Hg Hw Ht Hs1 Hs2 Hs3 Hrsp.
  destruct (store_both m sub imei bt gps wifi tail) as (m' & ret & E & Hr & Hst); try done.
  set (direct := imei ++ bt ++ gps ++ wifi ++ tail) in *.
  assert (Hd : zlen direct = 106) by (unfold direct; rewrite !zlen_app; lia).
  unfold eng_diag_btwifi. rewrite msg_subtype by done. cbn [obind]. change DIAG_CMD_READ with 0x80. rewrite Hs3.
  cbn [Z.eqb]. unfold btwifi_write. rewrite E. cbn [obind]. guard_false (ret <=? 0).
  rewrite msg_set_subtype by done. cbn [obind]. change MSG_HEAD_size with 8.
  set (r2 := direct ++ le_bytes 2 (crc16 0 direct) ++ rest).
  replace (0x7E :: seq ++ le_bytes 2 116 ++ [0x5E; 1] ++ r2)
    with ([0x7E] ++ (seq ++ le_bytes 2 116 ++ [0x5E; 1]) ++ r2) by lists.
  rewrite (slice_app [0x7E]) by (rewrite ?zlen_app, ?Hseq; done). cbn [obind].
  rewrite (splice_app [] (replicate 8 0) (replicate 504 0) (seq ++ le_bytes 2 116 ++ [0x5E; 1]))
    by (rewrite ?zlen_app, ?Hseq; done). cbn [obind app].
  unfold set_head_len.
  replace ((seq ++ le_bytes 2 116 ++ [0x5E; 1]) ++ replicate 504 0)
    with (seq ++ le_bytes 2 116 ++ ([0x5E; 1] ++ replicate 504 0)) by lists.
  rewrite (splice_app seq (le_bytes 2 116)) by (lia || done). cbn [obind].
  unfold head_len. rewrite (slice_app seq (le_bytes 2 (8 + 2))) by (lia || done). cbn [obind].
  change (le_val (le_bytes 2 (8 + 2))) with 10.
  replace (seq ++ le_bytes 2 (8 + 2) ++ [0x5E; 1] ++ replicate 504 0)
    with (btwifi_ack seq 1 ++ replicate 502 0) by (unfold btwifi_ack; lists).
  assert (Hz : zlen (btwifi_ack seq 1) = 10) by (unfold btwifi_ack; rewrite zlen_app, Hseq; done).
  destruct (translate_packet_ok rsp (btwifi_ack seq 1) (replicate 502 0)) as (rsp' & F & _ & G).
  { pose proof (zlen_framed (btwifi_ack seq 1)). lia. }
  rewrite Hz in F. rewrite F. cbn [obind]. do 4 eexists. by split; [reflexivity|].
Qed.

Lemma swap_app pre a mid b post i j : zlen pre = i -> j = i + 1 + zlen mid ->
  swap (pre ++ a :: mid ++ b :: post) i j = Done (pre ++ b :: mid ++ a :: post).
Proof.
  intros Hi ->. pose proof (zlen_nonneg mid). unfold swap. rewrite rd_app by done. cbn [obind].
  replace (pre ++ a :: mid ++ b :: post) with ((pre ++ a :: mid) ++ b :: post) by lists.
  rewrite rd_app by (rewrite zlen_app, zlen_cons; lia). cbn [obind].
  replace ((pre ++ a :: mid) ++ b :: post) with (pre ++ a :: mid ++ b :: post) by lists.
  rewrite wr_app by done. cbn [obind].
  replace (pre ++ b :: mid ++ b :: post) with ((pre ++ b :: mid) ++ b :: post) by lists.
  rewrite wr_app by (rewrite zlen_app, zlen_cons; lia). f_equal. lists.
Qed.

(** The three exchanges turn an address round. *)
Lemma swap_bt pre post bt : zlen pre = 24 -> length bt = 6%nat ->
  (let* t := swap (pre ++ rev bt ++ post) 24 (24 + 5) in let* t := swap t (24 + 1) (24 + 4) in swap t (24 + 2) (24 + 3)) =
  Done (pre ++ bt ++ post).
Proof.
  intros Hp Hb. destruct bt as [|a [|b [|c [|d [|x [|y [|]]]]]]]; try done. cbn [rev app].
  change (pre ++ y :: x :: d :: c :: b :: a :: post) with (pre ++ y :: [x; d; c; b] ++ a :: post).
  rewrite (swap_app pre y [x; d; c; b] a) by (lia || done). cbn [obind app].
  replace (pre ++ a :: x :: d :: c :: b :: y :: post) with ((pre ++ [a]) ++ x :: [d; c] ++ b :: y :: post) by lists.
  rewrite (swap_app (pre ++ [a]) x [d; c] b) by (rewrite ?zlen_app, ?Hp; done). cbn [obind].
  replace ((pre ++ [a]) ++ b :: [d; c] ++ x :: y :: post) with ((pre ++ [a; b]) ++ d :: [] ++ c :: x :: y :: post) by lists.
  rewrite (swap_app (pre ++ [a; b]) d [] c) by (rewrite ?zlen_app, ?Hp; done). f_equal. lists.
Qed.

(** What a read fetches: the Bluetooth address, turned round, and the WiFi address. *)
Lemma fetch_wifi m pre room post wifi : wifi_file m = Some (mac_text wifi) ->
  Forall byte_ok wifi -> length wifi = 6%nat -> length room = 6%nat -> zlen pre = 74 ->
  btwifi_fetch e m (pre ++ room ++ post) 74 true = Done (pre ++ wifi ++ post).
Proof.
  intros Hw Hok Hl Hr Hp.
  destruct wifi as [|b bs]; [done|]. destruct Hfiles as (_ & _ & Ho & _).
  destruct (read_mac e m true b bs Hw Ho Hok) as (mac & E & F); [cbn in Hl; lia|].
  unfold btwifi_fetch. rewrite E. cbn [obind Z.eqb]. rewrite F. cbn [obind]. unfold eng_diag_char2hex.
  apply char2hex_text; try done; [|lia].
  pose proof (zlen_mac_text b bs) as Hz. unfold zlen in Hz. cbn [length] in *. lia.
Qed.

Lemma fetch_bt m bt : bt_file m = Some (mac_text (rev bt)) -> Forall byte_ok bt -> length bt = 6%nat ->
  (let* (mac, ret) := eng_btwifimac_read e m (replicate 32 0) false in
   if ret =? 0 then
     let* s := cstr_at mac 0 in
     let* t := eng_diag_char2hex (replicate 512 0) 24 s in
     let* t := swap t 24 (24 + 5) in let* t := swap t (24 + 1) (24 + 4) in swap t (24 + 2) (24 + 3)
   else Done (replicate 512 0)) = Done (replicate 24 0 ++ bt ++ replicate 482 0).
Proof.
  intros Hf Hok Hl. assert (Hr : Forall byte_ok (rev bt)) by (by apply Forall_rev).
  assert (Hlr : length (rev bt) = 6%nat) by (by rewrite length_rev).
  destruct (rev bt) as [|b bs] eqn:R; [done|]. destruct Hfiles as (_ & _ & _ & Ho & _).
  destruct (read_mac e m false b bs Hf Ho Hr) as (mac & E & F); [cbn in Hlr; lia|].
  rewrite E. cbn [obind Z.eqb]. rewrite F. cbn [obind]. unfold eng_diag_char2hex.
  rewrite (char2hex_text (b :: bs) ltac:(done) Hr _ (replicate 24 0) (replicate 6 0) (replicate 482 0)).
  - cbn [obind]. rewrite <- R. by apply swap_bt.
  - pose proof (zlen_mac_text b bs) as Hz. unfold zlen in Hz. cbn [length] in *. lia.
  - done.
  - by rewrite Hlr.
Qed.

Lemma addresses_stored m sub bt wifi :
  stored m bt wifi -> Forall byte_ok bt -> Forall byte_ok wifi -> length bt = 6%nat -> length wifi = 6%nat ->
  0 < Z.land sub 0x04 -> 0 < Z.land sub 0x40 ->
  btwifi_addresses e m sub = Done (replicate 8 0 ++ btwifi_data bt wifi ++ replicate 398 0).
Proof.
  intros [Hb Hw] Okb Okw Lb Lw Hs1 Hs2. unfold btwifi_addresses.
  change DIAG_CMD_BTBIT with 4. change DIAG_CMD_WIFIBIT with 64.
  guard_true (0 <? Z.land sub 4). guard_true (0 <? Z.land sub 64).
  change (MSG_HEAD_size + DIRECT_btaddr) with 24. change (MSG_HEAD_size + DIRECT_wifiaddr) with 74.
  rewrite (fetch_bt m bt) by done. cbn [obind].
  replace (replicate 24 0 ++ bt ++ replicate 482 0) with ((replicate 24 0 ++ bt ++ replicate 44 0) ++ replicate 6 0 ++ replicate 432 0)
    by (by rewrite <- !app_assoc, <- !replicate_add).
  rewrite (fetch_wifi m _ _ _ wifi) by (done || (rewrite !zlen_app, !zlen_replicate; unfold zlen; lia)).
  unfold btwifi_data. by rewrite <- !app_assoc, <- !replicate_add.
Qed.

Lemma answer_framed sub direct data rsp : zlen direct = 106 -> zlen data = 106 -> zlen rsp = 512 ->
  exists buf' rsp' n,
    btwifi_answer (0x7E :: btwifi_msg seq sub direct ++ rest) (replicate 8 0 ++ data ++ replicate 398 0) rsp =
      Done (buf', rsp', n) /\
    slice rsp' 0 n = Done (translate (btwifi_msg seq 1 data)).
Proof.
  intros Hd Hdata Hrsp. unfold btwifi_answer.
  rewrite msg_set_subtype by done. cbn [obind]. change MSG_HEAD_size with 8. change DIRECT_size with 106.
  set (r2 := direct ++ le_bytes 2 (crc16 0 direct) ++ rest).
  replace (0x7E :: seq ++ le_bytes 2 116 ++ [0x5E; 1] ++ r2)
    with ([0x7E] ++ (seq ++ le_bytes 2 116 ++ [0x5E; 1]) ++ r2) by lists.
  rewrite (slice_app [0x7E]) by (rewrite ?zlen_app, ?Hseq; done). cbn [obind].
  change (splice (replicate 8 0 ++ ?t)) with (splice ([] ++ replicate 8 0 ++ t)).
  rewrite (splice_app [] (replicate 8 0))
    by (rewrite ?zlen_app, ?Hseq; done). cbn [obind app].
  rewrite slice_app by (rewrite ?zlen_app, ?Hseq; done). cbn [obind].
  set (head := seq ++ le_bytes 2 116 ++ [0x5E; 1]). set (crc := crc16 0 data).
  assert (Hh : zlen head = 8) by (unfold head; rewrite zlen_app, Hseq; done).
  replace (head ++ data ++ replicate 398 0) with ((head ++ data) ++ 0 :: 0 :: replicate 396 0) by lists.
  rewrite wr_app by (rewrite zlen_app; lia). cbn [obind].
  replace ((head ++ data) ++ Z.land crc 255 :: 0 :: replicate 396 0)
    with ((head ++ data ++ [Z.land crc 255]) ++ 0 :: replicate 396 0) by lists.
  rewrite wr_app by (rewrite !zlen_app, zlen_cons, zlen_nil; lia). cbn [obind].
  unfold set_head_len, head.
  replace (((seq ++ le_bytes 2 116 ++ [0x5E; 1]) ++ data ++ [Z.land crc 255]) ++ Z.land (Z.shiftr crc 8) 255 :: replicate 396 0)
    with (seq ++ le_bytes 2 116 ++ ([0x5E; 1] ++ data ++ [Z.land crc 255; Z.land (Z.shiftr crc 8) 255] ++ replicate 396 0)) by lists.
  rewrite splice_app by (lia || done). cbn [obind].
  replace (seq ++ le_bytes 2 (8 + 106 + 2) ++ ([0x5E; 1] ++ data ++ [Z.land crc 255; Z.land (Z.shiftr crc 8) 255] ++ replicate 396 0))
    with (btwifi_msg seq 1 data ++ replicate 396 0)
    by (unfold btwifi_msg; rewrite crc16_bytes; fold crc; lists).
  assert (Hz : zlen (btwifi_msg seq 1 data) = 8 + 106 + 2)
    by (unfold btwifi_msg; rewrite !zlen_app, Hseq, Hdata, !zlen_le_bytes; done).
  destruct (translate_packet_ok rsp (btwifi_msg seq 1 data) (replicate 396 0)) as (rsp' & F & _ & G).
  { pose proof (zlen_framed (btwifi_msg seq 1 data)). lia. }
  rewrite Hz in F. rewrite F. cbn [obind]. do 3 eexists. by split; [reflexivity|].
Qed.

(** The answer of a read: the addresses that are stored, with a CRC. *)
Lemma read_answers m cp sub direct bt wifi rsp :
  zlen direct = 106 -> stored m bt wifi -> Forall byte_ok bt -> Forall byte_ok wifi ->
  length bt = 6%nat -> length wifi = 6%nat ->
  0 < Z.land sub 0x04 -> 0 < Z.land sub 0x40 -> Z.land sub 0x80 <> 0 -> zlen rsp = 512 ->
  exists buf' rsp' n,
    eng_diag_btwifi e m cp (0x7E :: btwifi_msg seq sub direct ++ rest) rsp = Done (m, buf', rsp', n) /\
    slice rsp' 0 n = Done (translate (btwifi_msg seq 1 (btwifi_data bt wifi))).
Proof.
  intros Hd Hst Okb Okw Lb Lw Hs1 Hs2 Hs3 Hrsp.
  unfold eng_diag_btwifi. rewrite msg_subtype by done. cbn [obind]. change DIAG_CMD_READ with 0x80.
  replace (Z.land sub 0x80 =? 0) with false by (symmetry; by apply Z.eqb_neq).
  unfold btwifi_read. rewrite msg_subtype by done. cbn [obind].
  rewrite (addresses_stored m sub bt wifi) by done. cbn [obind].
  destruct (answer_framed sub direct (btwifi_data bt wifi) rsp) as (buf' & rsp' & n & E & F); try done.
  { unfold btwifi_data. rewrite !zlen_app, !zlen_replicate. unfold zlen. lia. }
  rewrite E. cbn [obind]. by exists buf', rsp', n.
Qed.
End handler.

(** ** The AT commands *)

Lemma quoted_text pre s post : Forall (fun c => c <> 34) pre -> Forall (fun c => c <> 34 /\ c <> 0) s -> zlen s < 64 ->
  quoted (pre ++ 34 :: s ++ 34 :: post) = Done (Some s).
Proof.
  intros Hp Hs Hl.
  assert (F : forall a b, Forall (fun c => c <> 34) a -> list_find (fun c => c = 34) (a ++ 34 :: b) = Some (length a, 34)).
  { intros a b Ha. apply list_find_Some. split_and!; [by rewrite lookup_app_r, Nat.sub_diag by lia|done|].
    intros j y Hj Hlt. rewrite lookup_app_l in Hj by done. by apply (Forall_lookup_1 _ _ _ _ Ha Hj). }
  unfold quoted. rewrite F by done. replace (pre ++ 34 :: s ++ 34 :: post) with ((pre ++ [34]) ++ s ++ 34 :: post) by lists.
  rewrite drop_app_length' by (rewrite length_app; cbn; lia).
  rewrite F by (eapply Forall_impl; [done|cbn; tauto]). rewrite take_app_length' by done.
  unfold strcpy. unfold zlen in Hl.
  rewrite splice_in by (unfold zlen; rewrite ?length_app, ?length_replicate; cbn [length]; lia). cbn [obind].
  change (Z.to_nat 0) with 0%nat. rewrite take_0. cbn [app]. rewrite <- app_assoc. cbn [app].
  change (cstr_at (s ++ ?t)) with (cstr_at ([] ++ s ++ t)).
  rewrite (cstr_at_app [] s) by (done || (eapply Forall_impl; [done|cbn; tauto])). done.
Qed.

(** An address set with an AT command is the one the other command gives, and the other address
    stays. *)
Lemma set_then_get e m pre s w post rsp rsp' : files_work e ->
  Forall (fun c => c <> 34) pre -> Forall (fun c => c <> 34 /\ c <> 0) s -> 0 < zlen s < 32 ->
  wifi_file m = Some w -> Forall (fun c => c <> 0) w -> 0 < zlen w < 32 -> zlen rsp = 512 -> zlen rsp' = 512 ->
  exists m' r r', eng_linuxcmd_setbtaddr e m (pre ++ 34 :: s ++ 34 :: post) rsp = Done (m', r, 0) /\
    wifi_file m' = Some w /\
    eng_linuxcmd_getbtaddr e m' rsp' = Done (r', 0) /\ cstr_at r' 0 = Done (s ++ [13; 10] ++ OK_CRLF).
Proof.
  intros Hfw Hp Hs Hl Hwf Hw Hwl Hr Hr'. pose proof Hfw as (_ & _ & How & Hob & _).
  assert (Hs0 : Forall (fun c => c <> 0) s) by (eapply Forall_impl; [done|cbn; tauto]).
  unfold eng_linuxcmd_setbtaddr. rewrite quoted_text by (done || lia). cbn [obind].
  destruct (read_text e m true w Hwf How Hw Hwl) as (mac & -> & Hc). cbn [obind]. rewrite Hc. cbn [obind].
  destruct (mac_write_both e m s w Hfw) as (m' & ret & -> & _ & F1 & F2 & _); [lia|]. cbn [obind].
  unfold strcpy at 1. rewrite splice_in by (change (zlen (OK_CRLF ++ [0])) with 5; lia). cbn [obind].
  do 3 eexists. split; [reflexivity|]. split; [done|]. unfold eng_linuxcmd_getbtaddr, get_addr.
  destruct (read_text e m' false s F1 Hob Hs0 Hl) as (mac' & E1 & E2). rewrite E1. cbn [obind].
  change (0 <? 0) with false. cbv iota. rewrite E2. cbn [obind].
  unfold strcpy. rewrite splice_in by (rewrite ?zlen_app; change (zlen [13; 10]) with 2; change (zlen OK_CRLF) with 4;
    change (zlen [0]) with 1; lia). cbn [obind]. split; [reflexivity|].
  change (Z.to_nat 0) with 0%nat. rewrite take_0.
  rewrite <- (app_assoc (s ++ [13; 10] ++ OK_CRLF)). cbn [app].
  apply (cstr_at_app [] (s ++ 13 :: 10 :: OK_CRLF)); [|done]. apply Forall_app. split; [done|]. by repeat constructor.
Qed.
