(* ===== verification/EngDiag.v ===== *)
(** * apps/engmode/eng_diag.c: what a diagnostic frame is for, and its answer

    [eng_diag_parse] removes the escapes of a frame, in place, and tells from its type and
    subtype who handles it: the communication processor ([CMD_COMMON]), this one, or both
    ([s_cp_ap_proc]).  [eng_diag] runs the handler and writes the answer to the diagnostic
    tool.  The address commands are handled by EngMac; the handlers of the other commands are
    operations of their own components, and an argument here. *)

From S2P Require Import Prelude CString EngFrame EngText EngMac.

(** ** Commands (eng_diag.h, calibration.h, eng_audio.h) *)
Inductive DIAG_CMD_TYPE : Type :=
| CMD_COMMON | CMD_USER_VER | CMD_USER_BTWIFI | CMD_USER_FACTORYMODE | CMD_USER_AUDIO | CMD_USER_RESET
| CMD_USER_GETVOLTAGE | CMD_USER_APCALI | CMD_USER_APCMD | CMD_USER_ADC | CMD_USER_PRODUCT_CTRL
| CMD_USER_DIRECT_PHSCHK | CMD_USER_MMICIT_READ | CMD_USER_DEEP_SLEEP | CMD_USER_FILE_OPER
| CMD_USER_SHUT_DOWN | CMD_USER_AUTOTEST | CMD_USER_AUTOTEST_PATH_CONFIRM | CMD_INVALID.
#[global] Instance cmd_eq_dec : EqDecision DIAG_CMD_TYPE.
Proof. solve_decision. Defined.

Definition RESET_MODE : Z := 8.
Definition DIAG_CMD_VER : Z := 0x00.
Definition DIAG_CMD_ASSERT : Z := 0x05.
Definition DIAG_CMD_CHANGEMODE : Z := 12.
Definition DIAG_CMD_FACTORYMODE : Z := 0x0D.
Definition DIAG_CMD_ADC_F : Z := 0x0F.
Definition DIAG_CMD_CURRENT_TEST : Z := 0x11.
Definition DIAG_CMD_GETVOLTAGE : Z := 0x1E.
Definition DIAG_CMD_AUTOTEST : Z := 0x38.
Definition DIAG_CMD_IMEIBTWIFI : Z := 0x5E.
Definition DIAG_CMD_DIRECT_PHSCHK : Z := 0x5F.
Definition DIAG_CMD_APCALI : Z := 0x62.
Definition DIAG_CMD_AT : Z := 0x68.
Definition DIAG_SUB_MMICIT_READ : Z := 0x1A.
Definition DIAG_AP_CMD_FILE_OPER : Z := 3.
Definition GET_ARM_VOLUME_MODE_COUNT : Z := 7.
Definition GET_AUDIO_ENHA_MODE_COUNT : Z := 0.
Definition SET_AUDIO_ENHA_DATA_TO_MEMORY : Z := 2.
Definition ENG_DIAG_SIZE : Z := 4096.

(** ** Commands for the application processor (eng_cmd4linuxhdlr.c) *)
Inductive eng_cmd_type : Type := CMD_INVALID_TYPE | CMD_TO_AP | CMD_TO_APCP.

Definition eng_linuxcmd : list (eng_cmd_type * string) := [
  (CMD_TO_AP, "AT+SENDKEY"); (CMD_TO_AP, "AT+GETICH?"); (CMD_TO_AP, "AT+ETSRESET"); (CMD_TO_AP, "AT+RPOWERON");
  (CMD_TO_AP, "AT+GETVBAT"); (CMD_TO_AP, "AT+STOPCHG"); (CMD_TO_AP, "AT+TESTMMI"); (CMD_TO_AP, "AT+BTTESTMODE");
  (CMD_TO_AP, "AT+GETBTADDR"); (CMD_TO_AP, "AT+SETBTADDR"); (CMD_TO_AP, "AT+GSNR"); (CMD_TO_AP, "AT+GSNW");
  (CMD_TO_AP, "AT+GETWIFIADDR"); (CMD_TO_AP, "AT+SETWIFIADDR"); (CMD_TO_AP, "AT+ETSCHECKRESET"); (CMD_TO_AP, "AT+SIMCHK");
  (CMD_TO_AP, "AT+FACTORYMODE"); (CMD_TO_APCP, "AT+SYSSLEEP"); (CMD_TO_AP, "AT+CHARGERTEST"); (CMD_TO_AP, "AT+SPBTTEST");
  (CMD_TO_AP, "AT+SPWIFITEST"); (CMD_TO_AP, "AT+SPGPSTEST"); (CMD_TO_AP, "+SPBTWIFICALI"); (CMD_TO_AP, "AT+BATTTEST");
  (CMD_TO_AP, "AT+TEMPTEST"); (CMD_TO_AP, "AT+RTCCTEST")]%string.

Fixpoint at2linux_from (s : list Z) (cmds : list (eng_cmd_type * string)) (i : Z) : Z :=
  match cmds with
  | [] => -1
  | (_, name) :: cmds =>
      if strcasestr s (bytes_of name) then
        if strcasestr s (bytes_of "AT+TEMPTEST") &&
           (strcasestr s (bytes_of "AT+TEMPTEST=1,0,1") || strcasestr s (bytes_of "AT+TEMPTEST=1,1,1") ||
            strcasestr s (bytes_of "AT+TEMPTEST=1,0,4") || strcasestr s (bytes_of "AT+TEMPTEST=1,1,4"))
        then -1 else i
      else at2linux_from s cmds (i + 1)
  end.
Definition eng_at2linux (s : list Z) : Z := at2linux_from s eng_linuxcmd 0.

(** An index of the table, or one past it, which is out of the array; as [unsigned], -1 is
    large. *)
Definition eng_cmd_get_type (cmd : Z) : outcome eng_cmd_type :=
  if u32 cmd <=? zlen eng_linuxcmd then let* c := rd eng_linuxcmd cmd in Done (fst c) else Done CMD_INVALID_TYPE.

(** ** The state *)
Inductive wres : Type := WOk (n : Z) | WBusy | WErr.
Inductive power_event : Type := Restart (name : list Z) | PowerOff | Suspend.

Section diag.
  Context {W : Type}.

(** The static variables of eng_diag.c, the address files, what the serial port answers to
    [write] and what was written to it, and the state [other] of the other components. *)
Record diag : Type := {
  g_is_data : Z;
  cmd_type : Z;
  eq_or_tun_type : Z;
  eq_mode_sel_type : Z;
  g_index : Z;
  s_cmd_index : Z;
  s_cp_ap_proc : bool;
  g_assert_cmd : bool;
  g_reset : Z;
  eng_diag_buf : list Z;
  eng_diag_len : Z;
  addresses : macs;
  pc_answers : list wres;
  pc_written : list (list Z);
  reopened : Z;
  power : list power_event;
  other : W
}.

(** The variables of the audio commands. *)
Definition set_audio (d : diag) (ct eq sel idx : Z) : diag :=
  {| g_is_data := g_is_data d; cmd_type := ct; eq_or_tun_type := eq; eq_mode_sel_type := sel; g_index := idx;
     s_cmd_index := s_cmd_index d; s_cp_ap_proc := s_cp_ap_proc d; g_assert_cmd := g_assert_cmd d; g_reset := g_reset d;
     eng_diag_buf := eng_diag_buf d; eng_diag_len := eng_diag_len d; addresses := addresses d;
     pc_answers := pc_answers d; pc_written := pc_written d; reopened := reopened d; power := power d; other := other d |}.
(** Where a command goes: its index, whether both processors get it, whether it is an assert. *)
Definition set_route (d : diag) (idx : Z) (cp_ap assert_ : bool) (reset : Z) : diag :=
  {| g_is_data := g_is_data d; cmd_type := cmd_type d; eq_or_tun_type := eq_or_tun_type d;
     eq_mode_sel_type := eq_mode_sel_type d; g_index := g_index d; s_cmd_index := idx; s_cp_ap_proc := cp_ap;
     g_assert_cmd := assert_; g_reset := reset; eng_diag_buf := eng_diag_buf d; eng_diag_len := eng_diag_len d;
     addresses := addresses d; pc_answers := pc_answers d; pc_written := pc_written d; reopened := reopened d;
     power := power d; other := other d |}.
Definition set_answer (d : diag) (buf : list Z) (len : Z) : diag :=
  {| g_is_data := g_is_data d; cmd_type := cmd_type d; eq_or_tun_type := eq_or_tun_type d;
     eq_mode_sel_type := eq_mode_sel_type d; g_index := g_index d; s_cmd_index := s_cmd_index d;
     s_cp_ap_proc := s_cp_ap_proc d; g_assert_cmd := g_assert_cmd d; g_reset := g_reset d; eng_diag_buf := buf;
     eng_diag_len := len; addresses := addresses d; pc_answers := pc_answers d; pc_written := pc_written d;
     reopened := reopened d; power := power d; other := other d |}.
Definition set_addresses (d : diag) (m : macs) : diag :=
  {| g_is_data := g_is_data d; cmd_type := cmd_type d; eq_or_tun_type := eq_or_tun_type d;
     eq_mode_sel_type := eq_mode_sel_type d; g_index := g_index d; s_cmd_index := s_cmd_index d;
     s_cp_ap_proc := s_cp_ap_proc d; g_assert_cmd := g_assert_cmd d; g_reset := g_reset d; eng_diag_buf := eng_diag_buf d;
     eng_diag_len := eng_diag_len d; addresses := m; pc_answers := pc_answers d; pc_written := pc_written d;
     reopened := reopened d; power := power d; other := other d |}.
Definition set_pc (d : diag) (answers : list wres) (out : list (list Z)) (re : Z) (p : list power_event) : diag :=
  {| g_is_data := g_is_data d; cmd_type := cmd_type d; eq_or_tun_type := eq_or_tun_type d;
     eq_mode_sel_type := eq_mode_sel_type d; g_index := g_index d; s_cmd_index := s_cmd_index d;
     s_cp_ap_proc := s_cp_ap_proc d; g_assert_cmd := g_assert_cmd d; g_reset := g_reset d; eng_diag_buf := eng_diag_buf d;
     eng_diag_len := eng_diag_len d; addresses := addresses d; pc_answers := answers; pc_written := out;
     reopened := re; power := p; other := other d |}.

(** ** Writing to the tool

    One [write]: how many bytes it took, or -1, and whether the port was busy. *)
Definition pc_write (d : diag) (bytes : list Z) : outcome (diag * Z * bool) :=
  match pc_answers d with
  | [] => Fuel
  | WOk n :: rs => Done (set_pc d rs (pc_written d ++ [take (Z.to_nat n) bytes]) (reopened d) (power d), n, false)
  | WBusy :: rs => Done (set_pc d rs (pc_written d) (reopened d) (power d), -1, true)
  | WErr :: rs => Done (set_pc d rs (pc_written d) (reopened d) (power d), -1, false)
  end.

(** Again while it is busy, 25 times at most. *)
Fixpoint write2pc_loop (tries : nat) (d : diag) (bytes : list Z) : outcome (diag * Z) :=
  let* (d, ret, busy) := pc_write d bytes in
  match tries with
  | O => Done (d, ret)
  | S tries => if busy then write2pc_loop tries d bytes else Done (d, ret)
  end.
Definition eng_diag_write2pc (d : diag) (buf : list Z) (len : Z) : outcome (diag * Z) :=
  let* bytes := slice buf 0 len in write2pc_loop 24 d bytes.

(** [restart_gser]: the port is closed and opened again. *)
Definition restart_gser (d : diag) : diag := set_pc d (pc_answers d) (pc_written d) (reopened d + 1) (power d).

(** ** Who handles a frame *)

(** The number of audio modes is that of the audio library. *)
Context (adev_get_audiomodenum4eng : Z).

Definition is_ap_at_cmd_need_to_handle (d : diag) (buf : list Z) : outcome (diag * bool) :=
  let* s := cstr_at buf (1 + MSG_HEAD_size) in
  let d := set_route d (eng_at2linux s) (s_cp_ap_proc d) (g_assert_cmd d) (g_reset d) in
  Done (d, negb (s_cmd_index d =? -1)).

Definition at_sadm_cmd_to_handle : list Z := [7; 8; 9; 10; 11; 12].
Definition at_spenha_cmd_to_handle : list Z := [0; 1; 2; 3; 4].

(** AT+SADM4AP=<command>,<index> *)
Definition audio_sadm (d : diag) (buf : list Z) (ptr : Z) : outcome (diag * list Z * bool) :=
  let* (_, p) := at_tok_equel_start buf (Some ptr) in
  let* (_, buf, p, ct) := at_tok_nextint buf p (cmd_type d) in
  let d := set_audio d ct (eq_or_tun_type d) (eq_mode_sel_type d) (g_index d) in
  if bool_decide (ct ∈ at_sadm_cmd_to_handle) then
    if negb (GET_ARM_VOLUME_MODE_COUNT =? ct) then
      match p with
      | None => Undef
      | Some p =>
          let* s := cstr_at buf p in
          let d := set_audio d ct (eq_or_tun_type d) (eq_mode_sel_type d) (atoi (string_of s)) in
          Done (d, buf, negb (adev_get_audiomodenum4eng <=? g_index d))
      end
    else Done (d, buf, true)
  else Done (d, buf, false).

(** AT+SPENHA=<type>,<command>,<index>,<mode> *)
Definition audio_spenha (d : diag) (buf : list Z) (ptr : Z) : outcome (diag * list Z * bool) :=
  let* (_, p) := at_tok_equel_start buf (Some ptr) in
  let* (_, buf, p, eq) := at_tok_nextint buf p (eq_or_tun_type d) in
  let* (_, buf, p, ct) := at_tok_nextint buf p (cmd_type d) in
  let d := set_audio d ct eq (eq_mode_sel_type d) (g_index d) in
  if bool_decide (ct ∈ at_spenha_cmd_to_handle) then
    if negb (GET_AUDIO_ENHA_MODE_COUNT =? ct) then
      let* (_, buf, p, idx) := at_tok_nextint buf p (g_index d) in
      if (adev_get_audiomodenum4eng <? idx) || (idx <=? 0) then
        Done (set_audio d ct eq (eq_mode_sel_type d) idx, buf, false)
      else if SET_AUDIO_ENHA_DATA_TO_MEMORY =? ct then
        match p with
        | None => Undef
        | Some p => let* c := rd buf p in Done (set_audio d ct eq (c - 48) (idx - 1), buf, true)
        end
      else Done (set_audio d ct eq (eq_mode_sel_type d) (idx - 1), buf, true)
    else Done (d, buf, true)
  else Done (d, buf, false).

Definition is_audio_at_cmd_need_to_handle (d : diag) (buf : list Z) : outcome (diag * list Z * bool) :=
  let ptr := 1 + MSG_HEAD_size in
  let* data :=
    if negb (g_is_data d =? 0) then
      let* at_ := has_prefix buf ptr (bytes_of "AT") in
      let* c := rd buf ptr in
      Done (negb at_ && (isdigit c || isupper c))
    else Done false in
  if data then Done (d, buf, true)
  else
    let* sadm := has_prefix buf ptr (bytes_of "AT+SADM4AP") in
    if sadm then audio_sadm d buf ptr
    else
      let* spenha := has_prefix buf ptr (bytes_of "AT+SPENHA") in
      if spenha then audio_spenha d buf ptr
      else
        let* calibr := has_prefix buf ptr (bytes_of "AT+CALIBR") in
        if calibr then
          let* (_, p) := at_tok_equel_start buf (Some ptr) in
          let* (_, buf, p, ct) := at_tok_nextint buf p (cmd_type d) in
          Done (set_audio d ct (eq_or_tun_type d) (eq_mode_sel_type d) (g_index d), buf, true)
        else
          let* peinfo := has_prefix buf ptr (bytes_of "AT+PEINFO") in
          Done (d, buf, peinfo).

Definition eng_diag_ap_req (buf : list Z) : outcome DIAG_CMD_TYPE :=
  let* c := slice buf (1 + MSG_HEAD_size) 2 in
  Done (if DIAG_AP_CMD_FILE_OPER =? le_val c then CMD_USER_FILE_OPER else CMD_USER_APCALI).

Definition parse_at (d : diag) (buf : list Z) : outcome (diag * list Z * DIAG_CMD_TYPE) :=
  let* (d, buf, audio) := is_audio_at_cmd_need_to_handle d buf in
  if audio then Done (d, buf, CMD_USER_AUDIO)
  else
    let* (d, ap) := is_ap_at_cmd_need_to_handle d buf in
    if ap then
      let* t := eng_cmd_get_type (s_cmd_index d) in
      let d := match t with
               | CMD_TO_APCP => set_route d (s_cmd_index d) true (g_assert_cmd d) (g_reset d)
               | _ => d
               end in
      Done (d, buf, CMD_USER_APCMD)
    else Done (d, buf, CMD_COMMON).

Definition parse_btwifi (d : diag) (buf : list Z) : outcome (diag * list Z * DIAG_CMD_TYPE) :=
  let* ret := is_btwifi_addr_need_to_handle buf in
  if negb (ret =? 0) then
    Done (if 2 =? ret then set_route d (s_cmd_index d) true (g_assert_cmd d) (g_reset d) else d, buf, CMD_USER_BTWIFI)
  else Done (d, buf, CMD_COMMON).

(** The command of the message of a frame without its escapes. *)
Definition classify (d : diag) (buf : list Z) : outcome (diag * list Z * DIAG_CMD_TYPE) :=
  let* type := head_type buf 1 in
  let* subtype := head_subtype buf 1 in
  if type =? DIAG_CMD_CHANGEMODE then
    Done (d, buf, if subtype =? RESET_MODE then CMD_USER_RESET else CMD_COMMON)
  else if type =? DIAG_CMD_FACTORYMODE then
    Done (d, buf, if subtype =? 0x07 then CMD_USER_FACTORYMODE
                  else if (0x2 <=? subtype) && (subtype <=? 0x4) then CMD_USER_PRODUCT_CTRL
                  else if subtype =? DIAG_SUB_MMICIT_READ then CMD_USER_MMICIT_READ
                  else CMD_COMMON)
  else if type =? DIAG_CMD_DIRECT_PHSCHK then Done (d, buf, CMD_USER_DIRECT_PHSCHK)
  else if type =? DIAG_CMD_ADC_F then Done (d, buf, CMD_USER_ADC)
  else if type =? DIAG_CMD_AT then parse_at d buf
  else if type =? DIAG_CMD_GETVOLTAGE then Done (d, buf, CMD_USER_GETVOLTAGE)
  else if type =? DIAG_CMD_APCALI then let* t := eng_diag_ap_req buf in Done (d, buf, t)
  else if type =? DIAG_CMD_AUTOTEST then
    Done (d, buf, if subtype =? 0x1c then CMD_USER_AUTOTEST_PATH_CONFIRM else CMD_USER_AUTOTEST)
  else if type =? DIAG_CMD_VER then Done (d, buf, if subtype =? 0x2 then CMD_USER_VER else CMD_COMMON)
  else if type =? DIAG_CMD_IMEIBTWIFI then parse_btwifi d buf
  else if type =? DIAG_CMD_CURRENT_TEST then
    Done (d, buf, if subtype =? 0x2 then CMD_USER_DEEP_SLEEP else if subtype =? 0xe then CMD_USER_SHUT_DOWN else CMD_COMMON)
  else if type =? DIAG_CMD_ASSERT then
    Done (if subtype =? 0x4 then set_route d (s_cmd_index d) (s_cp_ap_proc d) true (g_reset d) else d, buf, CMD_COMMON)
  else Done (d, buf, CMD_COMMON).

(** The escapes are removed from the second byte on. *)
Definition unescape (buf : list Z) (len : Z) : outcome (list Z) :=
  match buf with
  | [] => Undef
  | f :: rest => let* rest := eng_diag_decode7d7e rest (len - 1) in Done (f :: rest)
  end.

Definition eng_diag_parse (d : diag) (buf : list Z) (len : Z) : outcome (diag * list Z * DIAG_CMD_TYPE) :=
  let* buf := unescape buf len in classify d buf.
End diag.
Arguments diag : clear implicits.

(** ** Handling a command *)
Section handling.
  Context {W : Type} (modes : Z) (e : mac_env).
  (** The handler of a command of another component: it gets the message, its length and the
      array for the answer, and gives the message, the array and the length of the answer. *)
  Context (user_cmd : DIAG_CMD_TYPE -> diag W -> list Z -> Z -> list Z -> outcome (diag W * list Z * list Z * Z)).
  (** The property "ro.build.description". *)
  Context (sprdver : list Z).

Definition eng_diag_getver (rsp : list Z) : outcome (list Z * Z) :=
  let* rsp := strcpy rsp 0 sprdver in
  if 248 <? zlen sprdver then let* rsp := wr rsp 248 0 in Done (rsp, 248) else Done (rsp, zlen sprdver).

Definition eng_diag_bootreset (rsp : list Z) : outcome (list Z * Z) :=
  let* rsp := strcpy rsp 0 (bytes_of "OK") in Done (rsp, 2).

Definition emptyDiag : list Z := [0x7e; 0x00; 0x00; 0x00; 0x00; 0x08; 0x00; 0xd5; 0x00; 0x7e].

Definition power_off (d : diag W) (p : power_event) : diag W :=
  set_pc d (pc_answers d) (pc_written d) (reopened d) (power d ++ [p]).

Definition eng_diag_reboot (d : diag W) (reset : Z) : diag W :=
  if reset =? 1 then power_off d (Restart (bytes_of "cftreboot"))
  else if reset =? 2 then power_off d (Restart (bytes_of "recovery"))
  else d.

(** The answer of a command that frames its own: it is written as it is. *)
Definition direct_answer (d : diag W) (type : DIAG_CMD_TYPE) (buf : list Z) (len : Z) (clear : bool) : outcome (diag W * list Z * Z) :=
  let out := if clear then replicate (Z.to_nat (2 * ENG_DIAG_SIZE)) 0 else eng_diag_buf d in
  let* (d, buf, out, rlen) := user_cmd type d buf len out in
  let* (d, _) := eng_diag_write2pc (set_answer d out rlen) out rlen in
  Done (d, buf, 0).

(** The other answers: the data of the command, and the array with the answer. *)
Definition collect (d : diag W) (type : DIAG_CMD_TYPE) (buf : list Z) (len : Z) : outcome (diag W * list Z * list Z * Z) :=
  let rsp := replicate 512 0 in
  match type with
  | CMD_USER_VER => let* (rsp, rlen) := eng_diag_getver rsp in Done (d, buf, rsp, rlen)
  | CMD_USER_RESET =>
      let* (rsp, rlen) := eng_diag_bootreset rsp in
      Done (set_route d (s_cmd_index d) (s_cp_ap_proc d) (g_assert_cmd d) 1, buf, rsp, rlen)
  | CMD_USER_ADC => user_cmd type d buf len (replicate 32 0)
  | CMD_USER_AUDIO => user_cmd type d buf len (replicate (Z.to_nat (2 * ENG_DIAG_SIZE)) 0)
  | CMD_USER_APCMD =>
      let* (d, _, _) := pc_write d emptyDiag in
      user_cmd type d buf len rsp
  | CMD_USER_FACTORYMODE | CMD_USER_FILE_OPER => user_cmd type d buf len rsp
  | CMD_USER_SHUT_DOWN => Done (power_off d PowerOff, buf, rsp, 0)
  | _ => Done (d, buf, rsp, 0)
  end.

(** The frame of such an answer, without escapes. *)
Definition build_answer (d : diag W) (type : DIAG_CMD_TYPE) (buf out : list Z) (rlen : Z) : outcome (diag W) :=
  let plain := bool_decide (type = CMD_USER_AUDIO) || bool_decide (type = CMD_USER_APCMD) in
  let* head := slice buf 1 MSG_HEAD_size in
  let hlen := u16 (MSG_HEAD_size + rlen) in
  let* head := set_head_len head 0 hlen in
  let* b := wr (eng_diag_buf d) 0 0x7e in
  let* head :=
    if plain then
      let* head := splice head 0 (le_bytes 4 0) in
      let* head := wr head 6 0x9c in
      set_head_subtype head 0 0x00
    else Done head in
  let* head := if bool_decide (type = CMD_USER_ADC) then set_head_subtype head 0 0x00 else Done head in
  let* b := splice b 1 head in
  let* data := if bool_decide (type = CMD_USER_AUDIO) then cstr_at out 0 else Done out in
  let* b := splice b (MSG_HEAD_size + 1) data in
  let* b := wr b (hlen + 1) 0x7e in
  Done (set_answer d b (hlen + 2)).

(** The state, the message, and whether an OK is to follow. *)
Definition eng_diag_user_handle (d : diag W) (type : DIAG_CMD_TYPE) (buf : list Z) (len : Z) : outcome (diag W * list Z * Z) :=
  match type with
  | CMD_USER_BTWIFI =>
      let* (m, buf, rsp, rlen) := eng_diag_btwifi e (addresses d) (s_cp_ap_proc d) buf (replicate 512 0) in
      let* (d, _) := eng_diag_write2pc (set_addresses d m) rsp rlen in
      Done (d, buf, 0)
  | CMD_USER_AUTOTEST | CMD_USER_PRODUCT_CTRL | CMD_USER_DIRECT_PHSCHK => direct_answer d type buf len true
  | CMD_USER_GETVOLTAGE | CMD_USER_APCALI | CMD_USER_MMICIT_READ => direct_answer d type buf len false
  | CMD_USER_DEEP_SLEEP =>
      let d := power_off d Suspend in
      Done (set_route d (s_cmd_index d) true (g_assert_cmd d) (g_reset d), buf, 0)
  | _ =>
      let* (d, buf, out, rlen) := collect d type buf len in
      let* d := build_answer d type buf out rlen in
      let* (d, ret) := eng_diag_write2pc d (eng_diag_buf d) (eng_diag_len d) in
      let d := if ret <=? 0 then restart_gser d else d in
      let d := if negb (g_reset d =? 0) then eng_diag_reboot d (g_reset d) else d in
      Done (d, buf, if bool_decide (type = CMD_USER_AUDIO) || bool_decide (type = CMD_USER_APCMD) then 1 else 0)
  end.

(** The OK after the answer of an AT command: again up to ten times, with the port reopened. *)
Fixpoint write_again (times : nat) (d : diag W) : outcome (diag W) :=
  let* (d, ret) := eng_diag_write2pc d (eng_diag_buf d) (eng_diag_len d) in
  if ret <=? 0 then
    match times with O => Done (restart_gser d) | S times => write_again times (restart_gser d) end
  else Done d.

Definition ok_frame : list Z := 0x7e :: le_bytes 4 0 ++ le_bytes 2 14 ++ [0x9c; 0x00] ++ [13; 10; 79; 75; 13; 10] ++ [0x7e].

(** 1 when the frame is done with, 0 when it is to be sent to the communication processor. *)
Definition eng_diag (d : diag W) (buf : list Z) (len : Z) : outcome (diag W * list Z * Z) :=
  let* (d, buf, type) := eng_diag_parse modes d buf len in
  if bool_decide (type = CMD_COMMON) then Done (d, buf, 0)
  else
    let* (d, buf, ret_val) := eng_diag_user_handle d type buf len in
    let* d :=
      if negb (ret_val =? 0) then
        let* b := splice (eng_diag_buf d) 0 ok_frame in
        write_again 10 (set_answer d b (zlen ok_frame))
      else Done d in
    if s_cp_ap_proc d then Done (set_route d (s_cmd_index d) false (g_assert_cmd d) (g_reset d), buf, 0)
    else Done (d, buf, 1).
End handling.

(** ** Frames *)

(** A frame without its escapes: the message follows the start flag. *)
Lemma unescape_frame msg x rest :
  exists more, unescape (translate msg ++ x :: rest) (zlen (translate msg)) = Done (0x7E :: msg ++ more) /\
    zlen more = 2 + Z.of_nat (escapes msg) + zlen rest.
Proof.
  exists (Z.lxor x 0x20 :: replicate (escapes msg) x ++ x :: rest). split.
  - unfold unescape, translate. cbn [app].
    replace (zlen (0x7E :: flat_map escape msg ++ [0x7E]) - 1) with (zlen (flat_map escape msg) + 1)
      by (rewrite zlen_cons, zlen_app, zlen_cons, zlen_nil; lia).
    replace ((flat_map escape msg ++ [0x7E]) ++ x :: rest) with (flat_map escape msg ++ 0x7E :: x :: rest) by lists.
    by rewrite decode_framed.
  - rewrite zlen_cons, zlen_app, zlen_cons, zlen_replicate. lia.
Qed.

(** A frame with an address command whose CRC is right, for this processor only. *)
Lemma parse_btwifi_frame {W} modes (d : diag W) seq sub direct x rest :
  zlen seq = 4 -> zlen direct = 106 -> Z.land sub 0x44 <> 0 -> Z.land sub 0x3B = 0 ->
  exists more,
    eng_diag_parse modes d (translate (btwifi_msg seq sub direct) ++ x :: rest) (zlen (translate (btwifi_msg seq sub direct))) =
    Done (d, 0x7E :: btwifi_msg seq sub direct ++ more, CMD_USER_BTWIFI).
Proof.
  intros Hs Hd Hb Ho. destruct (unescape_frame (btwifi_msg seq sub direct) x rest) as (more & E & _).
  exists more. unfold eng_diag_parse. rewrite E. cbn [obind]. unfold classify.
  rewrite msg_type, msg_subtype by done. cbn [obind]. unfold parse_btwifi.
  rewrite msg_handled by done. rewrite Ho. reflexivity.
Qed.

(** A write that the port takes at once. *)
Lemma write2pc_ok {W} (d : diag W) buf len bytes n answers :
  slice buf 0 len = Done bytes -> pc_answers d = WOk n :: answers -> zlen bytes <= n ->
  eng_diag_write2pc d buf len = Done (set_pc d answers (pc_written d ++ [bytes]) (reopened d) (power d), n).
Proof.
  intros Hs Ha Hn. unfold eng_diag_write2pc. rewrite Hs. cbn [obind write2pc_loop].
  unfold pc_write. rewrite Ha. cbn [obind]. rewrite take_ge; [done|]. unfold zlen in Hn. lia.
Qed.

(** ** Addresses that were written are read back *)
Section addresses.
  Context {W : Type} (modes : Z) (e : mac_env) (Hfiles : files_work e).
  Context (user_cmd : DIAG_CMD_TYPE -> diag W -> list Z -> Z -> list Z -> outcome (diag W * list Z * list Z * Z)).
  Context (sprdver : list Z).

Lemma write_frame d seq imei bt gps wifi tail x rest n answers :
  let frame := translate (btwifi_msg seq 0x44 (imei ++ bt ++ gps ++ wifi ++ tail)) in
  zlen seq = 4 -> zlen imei = 16 -> zlen bt = 6 -> zlen gps = 44 -> zlen wifi = 6 -> zlen tail = 34 ->
  s_cp_ap_proc d = false -> pc_answers d = WOk n :: answers -> zlen (translate (btwifi_ack seq 1)) <= n ->
  exists d' buf', eng_diag modes e user_cmd sprdver d (frame ++ x :: rest) (zlen frame) = Done (d', buf', 1) /\
    stored (addresses d') bt wifi /\ pc_written d' = pc_written d ++ [translate (btwifi_ack seq 1)] /\
    pc_answers d' = answers /\ s_cp_ap_proc d' = false.
Proof.
  intros frame Hs Hi Hb Hg Hw Ht Hcp Ha Hn. unfold eng_diag.
  destruct (parse_btwifi_frame modes d seq 0x44 (imei ++ bt ++ gps ++ wifi ++ tail) x rest) as [more E];
    [done|rewrite !zlen_app; lia|done|done|].
  fold frame in E. rewrite E. cbn [obind]. rewrite bool_decide_false by done.
  unfold eng_diag_user_handle. rewrite Hcp.
  destruct (write_answers e seq more Hs Hfiles (addresses d) 0x44 imei bt gps wifi tail (replicate 512 0))
    as (m' & buf' & rsp' & k & F & Hst & Hsl); try done.
  rewrite F. cbn [obind]. rewrite (write2pc_ok _ _ _ _ n answers Hsl) by done. cbn [obind negb Z.eqb].
  cbn. rewrite Hcp. do 2 eexists. split; [reflexivity|]. done.
Qed.

Lemma read_frame d seq direct bt wifi x rest n answers :
  let frame := translate (btwifi_msg seq 0xC4 direct) in
  let answer := translate (btwifi_msg seq 1 (btwifi_data bt wifi)) in
  zlen seq = 4 -> zlen direct = 106 -> stored (addresses d) bt wifi -> Forall byte_ok bt -> Forall byte_ok wifi ->
  length bt = 6%nat -> length wifi = 6%nat ->
  s_cp_ap_proc d = false -> pc_answers d = WOk n :: answers -> zlen answer <= n ->
  exists d' buf', eng_diag modes e user_cmd sprdver d (frame ++ x :: rest) (zlen frame) = Done (d', buf', 1) /\
    addresses d' = addresses d /\ pc_written d' = pc_written d ++ [answer].
Proof.
  intros frame answer Hs Hd Hst Okb Okw Lb Lw Hcp Ha Hn. unfold eng_diag.
  destruct (parse_btwifi_frame modes d seq 0xC4 direct x rest) as [more E]; [done..|].
  fold frame in E. rewrite E. cbn [obind]. rewrite bool_decide_false by done.
  unfold eng_diag_user_handle. rewrite Hcp.
  destruct (read_answers e seq more Hs Hfiles (addresses d) false 0xC4 direct bt wifi (replicate 512 0))
    as (buf' & rsp' & k & F & Hsl); try done.
  rewrite F. cbn [obind]. rewrite (write2pc_ok _ _ _ _ n answers Hsl) by done. cbn [obind negb Z.eqb].
  cbn. rewrite Hcp. do 2 eexists. split; [reflexivity|]. done.
Qed.
End addresses.

(** An instance: the system takes everything, the other data holds flags and escapes. *)
Definition example_env : mac_env :=
  {| creates_wifi := true; creates_bt := true; opens_wifi := true; opens_bt := true; opens_rand := false;
     written := zlen; rands := (0, 0, 0, 0) |}.
Definition no_macs : macs :=
  {| wifi_file := None; bt_file := None; rand_file := None; sys_mac_wifi := []; sys_mac_bluetooth := [];
     bdaddr_path := false; set_mac := 0 |}.
Definition example_diag (answers : list wres) : diag unit :=
  {| g_is_data := 0; cmd_type := 0; eq_or_tun_type := 0; eq_mode_sel_type := 0; g_index := 0; s_cmd_index := -1;
     s_cp_ap_proc := false; g_assert_cmd := false; g_reset := 0; eng_diag_buf := replicate (Z.to_nat (2 * ENG_DIAG_SIZE)) 0;
     eng_diag_len := 0; addresses := no_macs; pc_answers := answers; pc_written := []; reopened := 0; power := [];
     other := tt |}.
Definition no_user_cmd {W} (t : DIAG_CMD_TYPE) (d : diag W) (buf : list Z) (len : Z) (out : list Z) :
  outcome (diag W * list Z * list Z * Z) := Done (d, buf, out, 0).

(** ** Frames for the communication processor *)

(** What classification may change: where the command goes and the variables of the audio
    commands, not the addresses, and nothing is written. *)
Definition same_effects {W} (d d' : diag W) : Prop :=
  addresses d' = addresses d /\ pc_written d' = pc_written d /\ pc_answers d' = pc_answers d /\
  power d' = power d /\ other d' = other d /\ eng_diag_buf d' = eng_diag_buf d.

(** Takes a computation that ended apart, and compares the states. *)
Ltac effects H :=
  repeat (first [progress (obind_inv H) | case_match | progress simplify_eq/=]; try done);
  repeat split; try done.

Lemma audio_effects {W} modes (d d' : diag W) buf buf' b :
  is_audio_at_cmd_need_to_handle modes d buf = Done (d', buf', b) -> same_effects d d'.
Proof.
  unfold is_audio_at_cmd_need_to_handle, audio_sadm, audio_spenha. intros H. effects H.
Qed.

Lemma effects_trans {W} (d d1 d2 : diag W) : same_effects d d1 -> same_effects d1 d2 -> same_effects d d2.
Proof. unfold same_effects. intuition congruence. Qed.

Lemma parse_effects {W} modes (d d' : diag W) buf len buf' t :
  eng_diag_parse modes d buf len = Done (d', buf', t) -> same_effects d d'.
Proof.
  unfold eng_diag_parse, classify. intros H. obind_inv H. obind_inv H. obind_inv H.
  repeat case_match; simplify_eq; try done.
  - unfold parse_at in H. obind_inv H. destruct a2 as [[d1 b1] audio]. apply audio_effects in E2.
    destruct audio; [by simplify_eq|]. apply (effects_trans _ d1); [done|]. clear E2.
    unfold is_ap_at_cmd_need_to_handle in H. obind_inv H. obind_inv E2. simplify_eq. case_match; simplify_eq/=; [|done].
    obind_inv H. case_match; by simplify_eq.
  - effects H.
  - unfold parse_btwifi in H. effects H.
Qed.

(** A frame that is for the communication processor alone has no effect here: nothing is
    answered, nothing is stored, and it is reported as to be sent on. *)
Lemma common_forwarded {W} modes e
    (user_cmd : DIAG_CMD_TYPE -> diag W -> list Z -> Z -> list Z -> outcome (diag W * list Z * list Z * Z)) sprdver
    (d d' : diag W) buf len buf' :
  eng_diag_parse modes d buf len = Done (d', buf', CMD_COMMON) ->
  eng_diag modes e user_cmd sprdver d buf len = Done (d', buf', 0) /\ same_effects d d'.
Proof.
  intros H. split; [|by eapply parse_effects]. unfold eng_diag. rewrite H. cbn [obind].
  by rewrite bool_decide_true.
Qed.


(** ** The end of an AT command

    [eng_diag_apcmd_hdlr] looks for the end flag of the frame, from its data on. *)
Fixpoint apcmd_scan (fuel : nat) (buf : list Z) (i : Z) : outcome Z :=
  match fuel with
  | O => Fuel
  | S fuel => let* c := rd buf i in if c =? 0x7e then Done i else apcmd_scan fuel buf (i + 1)
  end.

Lemma scan_overruns fuel : forall buf i, ~ In 0x7E (drop (Z.to_nat i) buf) -> 0 <= i -> (length buf - Z.to_nat i < fuel)%nat ->
  apcmd_scan fuel buf i = Undef.
Proof.
  induction fuel as [|fuel IH]; intros buf i Hin Hi Hf; [lia|]. cbn [apcmd_scan].
  destruct (decide (i < zlen buf)) as [Hl|Hl]; [|by rewrite rd_oob by lia].
  destruct (rd_lt buf i) as (c & E & Hc); [lia|]. rewrite E. cbn [obind].
  assert (Hd : drop (Z.to_nat i) buf = c :: drop (S (Z.to_nat i)) buf) by (by apply drop_S).
  rewrite Hd in Hin. replace (c =? 0x7e) with false by (symmetry; apply Z.eqb_neq; intros ->; apply Hin; by left).
  apply IH; [|lia|].
  - replace (Z.to_nat (i + 1)) with (S (Z.to_nat i)) by lia. intros H. apply Hin. by right.
  - unfold zlen in Hl. lia.
Qed.

(** The flag is not there any more when the handler looks for it: the frame of a message
    without a flag, in a clear buffer, is searched past the end of the buffer. *)
Lemma apcmd_scan_overruns msg k fuel : ~ In 0x7E msg -> (length msg + escapes msg + k + 3 < fuel)%nat ->
  exists buf, unescape (translate msg ++ 0 :: replicate k 0) (zlen (translate msg)) = Done buf /\
    apcmd_scan fuel buf (1 + MSG_HEAD_size) = Undef.
Proof.
  intros Hm Hf. unfold unescape, translate. cbn [app].
  replace (zlen (0x7E :: flat_map escape msg ++ [0x7E]) - 1) with (zlen (flat_map escape msg) + 1)
    by (rewrite zlen_cons, zlen_app, zlen_cons, zlen_nil; lia).
  replace ((flat_map escape msg ++ [0x7E]) ++ 0 :: replicate k 0) with (flat_map escape msg ++ 0x7E :: 0 :: replicate k 0) by lists.
  rewrite decode_framed. cbn [obind]. eexists. split; [reflexivity|].
  change (1 + MSG_HEAD_size) with 9. apply scan_overruns; [|lia|].
  - change (Z.to_nat 9) with 9%nat. cbn [drop]. intros H. apply list_elem_of_In in H.
    assert (H' : 0x7E ∈ msg ++ Z.lxor 0 32 :: replicate (escapes msg) 0 ++ 0 :: replicate k 0).
    { eapply subseteq_drop. exact H. }
    rewrite elem_of_app, elem_of_cons, elem_of_app, elem_of_cons in H'.
    destruct H' as [H'|[H'|[H'|[H'|H']]]]; [by apply Hm, list_elem_of_In|done| |done|];
      by apply elem_of_replicate in H' as [? _].
  - cbn [length]. rewrite length_app. cbn [length]. rewrite length_app. cbn [length]. rewrite !length_replicate. lia.
Qed.
