(* ===== verification/EngVdiag.v ===== *)
(** * apps/engmode/vdiag.c and vlog.c: the two threads of the diagnostic channel

    [eng_vdiag_wthread] reads what the diagnostic tool sends on the serial port, finds the
    frames in it, and gives each to [eng_diag]; what is not handled there is written to the
    modem.  [eng_vdiag_rthread] relays what the modem sends to the serial port.  What the first
    thread needs of the handler is the class [DiagHandler], of which EngDiag is an instance. *)

From S2P Require Import Prelude EngFrame EngMac EngDiag.

Definition DATA_BUF_SIZE : Z := 4096 * 4.
Definition DATA_EXT_DIAG_SIZE : Z := 4096 * 4.
Definition MAX_OPEN_TIMES : Z := 10.

(** What handles frames: [eng_diag_parse], with whether the frame is CMD_COMMON, and [eng_diag];
    both work in the buffer that the frame is in. *)
Class DiagHandler (St : Type) := {
  dh_parse : St -> list Z -> Z -> outcome (St * list Z * bool);
  dh_diag : St -> list Z -> Z -> outcome (St * list Z * Z)
}.

#[global] Instance eng_diag_handler {W : Type} (modes : Z) (e : mac_env)
    (user_cmd : DIAG_CMD_TYPE -> diag W -> list Z -> Z -> list Z -> outcome (diag W * list Z * list Z * Z))
    (sprdver : list Z) : DiagHandler (diag W) := {
  dh_parse d buf len := let* (d, buf, t) := eng_diag_parse modes d buf len in Done (d, buf, bool_decide (t = CMD_COMMON));
  dh_diag := eng_diag modes e user_cmd sprdver
}.

(** ** Finding frames *)
Definition empty_ext : list Z := replicate (Z.to_nat DATA_EXT_DIAG_SIZE) 0.

(** A frame starts with a flag and ends with the next one; what follows its end is left. *)
Fixpoint get_user_diag_buf (buf ext_data_buf : list Z) (ext_buf_len : Z) : outcome (list Z * Z * bool) :=
  match buf with
  | [] => Done (ext_data_buf, ext_buf_len, false)
  | b :: buf =>
      if (b =? 0x7e) && (ext_buf_len =? 0) then
        let* ext := wr ext_data_buf ext_buf_len b in
        get_user_diag_buf buf ext (ext_buf_len + 1)
      else if (0 <? ext_buf_len) && (ext_buf_len <? DATA_EXT_DIAG_SIZE) then
        let* ext := wr ext_data_buf ext_buf_len b in
        if b =? 0x7e then Done (ext, ext_buf_len + 1, true)
        else get_user_diag_buf buf ext (ext_buf_len + 1)
      else get_user_diag_buf buf ext_data_buf ext_buf_len
  end.

Inductive eng_diag_state : Type := ENG_DIAG_RECV_TO_AP | ENG_DIAG_RECV_TO_CP.

(** ** The thread that reads from the tool *)
Section vdiag.
  Context {St : Type} `{DiagHandler St}.

(** [modem_answers] is how much the modem has room for at each [write], negative when the call
    fails. *)
Record vdiag : Type := {
  ext_data_buf : list Z;
  ext_buf_len : Z;
  g_diag_status : eng_diag_state;
  g_ass_start : bool;
  modem_answers : list Z;
  modem_written : list Z;
  diag_state : St
}.

Definition set_ext (v : vdiag) (ext : list Z) (len : Z) (st : eng_diag_state) (s : St) : vdiag :=
  {| ext_data_buf := ext; ext_buf_len := len; g_diag_status := st; g_ass_start := g_ass_start v;
     modem_answers := modem_answers v; modem_written := modem_written v; diag_state := s |}.
Definition set_modem (v : vdiag) (ass : bool) (answers out : list Z) : vdiag :=
  {| ext_data_buf := ext_data_buf v; ext_buf_len := ext_buf_len v; g_diag_status := g_diag_status v; g_ass_start := ass;
     modem_answers := answers; modem_written := out; diag_state := diag_state v |}.

(** The loop around [write]: it goes on until everything is written. *)
Fixpoint modem_write (answers out bytes : list Z) : outcome (list Z * list Z) :=
  match answers with
  | [] => Fuel
  | room :: answers =>
      let w_cnt := if room <? 0 then 0 else Z.min room (zlen bytes) in
      let out := out ++ take (Z.to_nat w_cnt) bytes in
      let bytes := drop (Z.to_nat w_cnt) bytes in
      if 0 <? zlen bytes then modem_write answers out bytes else Done (answers, out)
  end.

(** Where the bytes of one [read] go: [None] when they are done with, else the bytes for the
    modem. *)
Definition route (v : vdiag) (log_data : list Z) : outcome (vdiag * option (list Z)) :=
  match g_diag_status v with
  | ENG_DIAG_RECV_TO_CP =>
      let* last := rd log_data (zlen log_data - 1) in
      Done (set_ext v (ext_data_buf v) (ext_buf_len v)
              (if 0x7E =? last then ENG_DIAG_RECV_TO_AP else ENG_DIAG_RECV_TO_CP) (diag_state v), Some log_data)
  | ENG_DIAG_RECV_TO_AP =>
      let* (ext, len, found) := get_user_diag_buf log_data (ext_data_buf v) (ext_buf_len v) in
      if found then
        let* backup := slice ext 0 len in
        let* (s, _, has_processed) := dh_diag (diag_state v) ext len in
        Done (set_ext v empty_ext 0 ENG_DIAG_RECV_TO_AP s, if 1 =? has_processed then None else Some backup)
      else if 0 =? len then Done (set_ext v ext len ENG_DIAG_RECV_TO_AP (diag_state v), Some log_data)
      else if DATA_EXT_DIAG_SIZE / 2 <=? len then
        let* (s, ext, common) := dh_parse (diag_state v) ext len in
        if common then
          let* backup := slice ext 0 len in
          Done (set_ext v empty_ext 0 ENG_DIAG_RECV_TO_CP s, Some backup)
        else Done (set_ext v ext len ENG_DIAG_RECV_TO_AP s, None)
      else Done (set_ext v ext len ENG_DIAG_RECV_TO_AP (diag_state v), None)
  end.

(** What [read] gives: bytes, or an error. *)
Inductive rres : Type := RBytes (bs : list Z) | RErr.

(** The bytes of a round: a second [read] when the first filled half of the buffer.  An error
    of the second takes one byte off the first. *)
Definition receive (r1 r2 : rres) : option (list Z) :=
  match r1 with
  | RErr => None
  | RBytes bs =>
      if zlen bs =? DATA_BUF_SIZE / 2 then
        match r2 with RBytes bs' => Some (bs ++ bs') | RErr => Some (take (length bs - 1) bs) end
      else if zlen bs <=? 0 then None else Some bs
  end.

(** One round of the thread; after an error the port is opened again, after [tries] failures.
    [None] when the thread ends. *)
Definition vdiag_round (v : vdiag) (r1 r2 : rres) (tries : Z) : outcome (option vdiag) :=
  match receive r1 r2 with
  | None => Done (if MAX_OPEN_TIMES <? tries then None else Some v)
  | Some log_data =>
      let* (v, dest) := route v log_data in
      match dest with
      | None => Done (Some v)
      | Some backup =>
          let ass := if zlen log_data =? 2 then match log_data !! 1%nat with Some c => c =? 0xa | None => false end else false in
          let* (answers, out) := modem_write (modem_answers v) (modem_written v) backup in
          Done (Some (set_modem v (g_ass_start v || ass) answers out))
      end
  end.

(** Rounds that each read one piece. *)
Fixpoint vdiag_reads (v : vdiag) (pieces : list (list Z)) : outcome (option vdiag) :=
  match pieces with
  | [] => Done (Some v)
  | p :: pieces =>
      let* r := vdiag_round v (RBytes p) RErr 0 in
      match r with Some v => vdiag_reads v pieces | None => Done None end
  end.
End vdiag.
Arguments vdiag : clear implicits.

(** ** Writing to the modem *)
Definition positives (answers : list Z) : nat := length (filter (fun w => 0 < w) answers).

Lemma positives_cons w ws : positives (w :: ws) = if decide (0 < w) then Datatypes.S (positives ws) else positives ws.
Proof. unfold positives. rewrite filter_cons. by case_decide. Qed.

(** Everything is written, in order, as soon as the modem has had room often enough. *)
Lemma modem_write_ok answers : forall out bytes, bytes <> [] -> (length bytes <= positives answers)%nat ->
  exists answers', modem_write answers out bytes = Done (answers', out ++ bytes) /\
    (positives answers - length bytes <= positives answers')%nat.
Proof.
  induction answers as [|w ws IH]; intros out bytes Hne Hl.
  - destruct bytes; [done|]. cbn in Hl. lia.
  - rewrite positives_cons in Hl |- *. cbn [modem_write].
    assert (Hb : 0 < zlen bytes) by (destruct bytes; [done|rewrite zlen_cons; pose proof (zlen_nonneg bytes); lia]).
    destruct (decide (0 < w)) as [Hw|Hw].
    + guard_false (w <? 0). set (k := Z.min w (zlen bytes)).
      assert (Hk : (1 <= Z.to_nat k <= length bytes)%nat) by (unfold k, zlen in *; lia).
      destruct (Z.ltb_spec 0 (zlen (drop (Z.to_nat k) bytes))) as [Hr|Hr].
      * destruct (IH (out ++ take (Z.to_nat k) bytes) (drop (Z.to_nat k) bytes)) as (ws' & E & Hp).
        { intros E. rewrite E in Hr. by cbn in Hr. }
        { rewrite length_drop. lia. }
        exists ws'. rewrite length_drop in Hp. split; [|lia]. rewrite E. f_equal.
        by rewrite <- app_assoc, take_drop.
      * exists ws. split; [|lia]. do 2 f_equal.
        unfold zlen in Hr. rewrite length_drop in Hr. by rewrite take_ge by lia.
    + assert (Hz : (if w <? 0 then 0 else Z.min w (zlen bytes)) = 0) by (destruct (Z.ltb_spec w 0); lia).
      rewrite Hz. change (Z.to_nat 0) with 0%nat. rewrite take_0, drop_0, app_nil_r. guard_true (0 <? zlen bytes).
      by apply IH.
Qed.

(** ** Frames in pieces *)

(** The receive buffer with a part of a frame. *)
Definition ext_of (part : list Z) : list Z := part ++ replicate (Z.to_nat DATA_EXT_DIAG_SIZE - length part) 0.

Lemma wr_ext part b : zlen part < DATA_EXT_DIAG_SIZE ->
  wr (ext_of part) (zlen part) b = Done (ext_of (part ++ [b])).
Proof.
  intros Hl. unfold ext_of. rewrite length_app. cbn [length].
  assert (Hn : (length part < Z.to_nat DATA_EXT_DIAG_SIZE)%nat) by (unfold zlen in Hl; lia).
  revert Hn. generalize (Z.to_nat DATA_EXT_DIAG_SIZE). intros n Hn.
  replace (n - length part)%nat with (Datatypes.S (n - (length part + 1)))%nat by lia.
  cbn [replicate]. rewrite wr_app by done. by rewrite <- app_assoc.
Qed.

(** Collecting [c], with [part] before it and [more] to come. *)
Lemma collect_piece body c : forall part more,
  part ++ c ++ more = 0x7E :: body ++ [0x7E] -> ~ In 0x7E body -> zlen body + 2 <= DATA_EXT_DIAG_SIZE ->
  c ++ more <> [] ->
  get_user_diag_buf c (ext_of part) (zlen part) = Done (ext_of (part ++ c), zlen (part ++ c), bool_decide (more = [])).
Proof.
  induction c as [|b c IH]; intros part more Heq Hin Hl Hne.
  - rewrite app_nil_r. cbn [get_user_diag_buf]. by rewrite bool_decide_false.
  - assert (Hlen : zlen (part ++ (b :: c) ++ more) = zlen body + 2)
      by (rewrite Heq, zlen_cons, zlen_app, zlen_cons, zlen_nil; lia).
    rewrite !zlen_app, zlen_cons in Hlen. pose proof (zlen_nonneg c). pose proof (zlen_nonneg more).
    replace (part ++ b :: c) with ((part ++ [b]) ++ c) by lists. cbn [get_user_diag_buf].
    assert (Hsucc : zlen part + 1 = zlen (part ++ [b])) by (rewrite zlen_app, zlen_cons, zlen_nil; lia).
    assert (Heq' : (part ++ [b]) ++ c ++ more = 0x7E :: body ++ [0x7E]) by (rewrite <- Heq; lists).
    destruct part as [|p part].
    + injection Heq as -> Heq. cbn [zlen length Z.of_nat Z.eqb Pos.eqb andb]. change 0 with (zlen (@nil Z)).
      rewrite wr_ext by done. cbn [obind app]. apply (IH [0x7E] more); [done|done|done|].
      rewrite Heq. by destruct body.
    + cbn [app] in Heq. injection Heq as -> Heq. rewrite zlen_cons in Hlen.
      assert (Hp : 0 < zlen (0x7E :: part)) by (rewrite zlen_cons; pose proof (zlen_nonneg part); lia).
      guard_false (zlen (0x7E :: part) =? 0). rewrite andb_false_r.
      rewrite zlen_cons in Hp |- *. guard_true ((0 <? 1 + zlen part) && (1 + zlen part <? DATA_EXT_DIAG_SIZE)).
      rewrite <- (zlen_cons 0x7E part). rewrite wr_ext by (rewrite zlen_cons; lia). cbn [obind]. rewrite Hsucc.
      destruct (decide (c ++ more = [])) as [Hend|Hend].
      * apply app_eq_nil in Hend as [-> ->]. apply app_inj_tail in Heq as [_ ->].
        by rewrite Z.eqb_refl, app_nil_r, bool_decide_true.
      * assert (Hb : b <> 0x7E).
        { intros ->. apply Hin. destruct (exists_last Hend) as (l & y & E). rewrite E in Heq.
          replace (part ++ 0x7E :: l ++ [y]) with ((part ++ 0x7E :: l) ++ [y]) in Heq by lists.
          apply app_inj_tail in Heq as [<- _]. apply in_app_iff. right. by left. }
        replace (b =? 0x7e) with false by (symmetry; by apply Z.eqb_neq). by apply IH.
Qed.

(** ** What the thread does, in terms of frames *)

(** What the tool sends: frames, each read in some pieces, and data outside frames. *)
Inductive item : Type :=
| Frame (body : list Z) (pieces : list (list Z))
| Raw (bytes : list Z).

Definition frame_of (body : list Z) : list Z := 0x7E :: body ++ [0x7E].
Definition piece_ok (p : list Z) : Prop := p <> [] /\ zlen p < DATA_BUF_SIZE / 2.

(** A frame is shorter than half the buffer, and no read goes over its end. *)
Definition item_ok (i : item) : Prop :=
  match i with
  | Frame body pieces =>
      ~ In 0x7E body /\ zlen (frame_of body) < DATA_EXT_DIAG_SIZE / 2 /\ concat pieces = frame_of body /\ Forall piece_ok pieces
  | Raw bytes => ~ In 0x7E bytes /\ piece_ok bytes
  end.
Definition pieces_of (i : item) : list (list Z) := match i with Frame _ pieces => pieces | Raw bytes => [bytes] end.

(** ** What one read makes of the part of a frame that is there *)

(** What is before and after the first flag. *)
Fixpoint split_flag (l : list Z) : option (list Z * list Z) :=
  match l with
  | [] => None
  | b :: l => if b =? 0x7E then Some ([], l) else match split_flag l with Some (x, y) => Some (b :: x, y) | None => None end
  end.

Inductive collected : Type :=
| Outside
| Part (part : list Z)
| Whole (frame : list Z).

(** The end of a frame ends what the read is good for. *)
Definition collect_on (part p : list Z) : collected :=
  match split_flag p with Some (x, _) => Whole (part ++ x ++ [0x7E]) | None => Part (part ++ p) end.

(** Outside a frame, a read without a flag is other data; the first flag of a read starts a
    frame, and what is before it is not used. *)
Definition collect (part p : list Z) : collected :=
  match part with
  | [] => match split_flag p with Some (_, rest) => collect_on [0x7E] rest | None => Outside end
  | _ => collect_on part p
  end.

(** No part of a frame that waits for its end fills half the buffer. *)
Fixpoint parts_short (part : list Z) (reads : list (list Z)) : bool :=
  match reads with
  | [] => true
  | p :: reads =>
      match collect part p with
      | Part l => (zlen l <? DATA_EXT_DIAG_SIZE / 2) && parts_short l reads
      | _ => parts_short [] reads
      end
  end.

Lemma split_flag_some l x y : split_flag l = Some (x, y) -> l = x ++ 0x7E :: y.
Proof.
  revert x. induction l as [|b l IH]; intros x E; [done|]. cbn [split_flag] in E.
  destruct (Z.eqb_spec b 0x7E) as [->|]; [by injection E as <- <-|].
  destruct (split_flag l) as [[x' y']|]; [|done]. injection E as <- <-. cbn [app]. by rewrite (IH x' eq_refl).
Qed.

Lemma split_flag_none l : split_flag l = None -> ~ In 0x7E l.
Proof.
  induction l as [|b l IH]; intros E; [by intros []|]. cbn [split_flag] in E. destruct (Z.eqb_spec b 0x7E); [done|].
  destruct (split_flag l) as [[? ?]|]; [done|]. intros [->|H]; [done|by apply IH].
Qed.

Lemma collect_inside p : forall part, part <> [] ->
  match collect_on part p with
  | Part l => zlen l <= DATA_EXT_DIAG_SIZE -> get_user_diag_buf p (ext_of part) (zlen part) = Done (ext_of l, zlen l, false)
  | Whole f => zlen f <= DATA_EXT_DIAG_SIZE -> get_user_diag_buf p (ext_of part) (zlen part) = Done (ext_of f, zlen f, true)
  | Outside => False
  end.
Proof.
  unfold collect_on. induction p as [|b p IH]; intros part Hne; cbn [split_flag get_user_diag_buf].
  { intros _. by rewrite app_nil_r. }
  assert (Hp : 0 < zlen part) by (destruct part; [done|]; rewrite zlen_cons; pose proof (zlen_nonneg part); lia).
  guard_false (zlen part =? 0). rewrite andb_false_r.
  specialize (IH (part ++ [b]) ltac:(by destruct part)).
  assert (Hs : zlen part + 1 = zlen (part ++ [b])) by (rewrite zlen_app, zlen_cons, zlen_nil; lia).
  destruct (Z.eqb_spec b 0x7E) as [->|Hb].
  - cbn [app]. intros Hl. rewrite zlen_app, zlen_cons, zlen_nil in Hl.
    guard_true ((0 <? zlen part) && (zlen part <? DATA_EXT_DIAG_SIZE)). rewrite wr_ext by lia. cbn [obind]. by rewrite Hs.
  - destruct (split_flag p) as [[x y]|]; intros Hl.
    + rewrite <- app_assoc in IH. cbn [app] in IH. pose proof Hl as Hl'. rewrite !zlen_app, !zlen_cons, zlen_nil in Hl'.
      pose proof (zlen_nonneg x).
      guard_true ((0 <? zlen part) && (zlen part <? DATA_EXT_DIAG_SIZE)). rewrite wr_ext by lia. cbn [obind]. rewrite Hs. by apply IH.
    + rewrite <- app_assoc in IH. cbn [app] in IH. pose proof Hl as Hl'. rewrite zlen_app, zlen_cons in Hl'. pose proof (zlen_nonneg p).
      guard_true ((0 <? zlen part) && (zlen part <? DATA_EXT_DIAG_SIZE)). rewrite wr_ext by lia. cbn [obind]. rewrite Hs. by apply IH.
Qed.

Lemma collect_idle p :
  match split_flag p with
  | Some (_, rest) => get_user_diag_buf p (ext_of []) 0 = get_user_diag_buf rest (ext_of [0x7E]) 1
  | None => get_user_diag_buf p (ext_of []) 0 = Done (ext_of [], 0, false)
  end.
Proof.
  induction p as [|b p IH]; [done|]. cbn [split_flag get_user_diag_buf]. rewrite Z.eqb_refl, andb_true_r.
  destruct (b =? 0x7E) eqn:E.
  - apply Z.eqb_eq in E as ->. pose proof (wr_ext [] 0x7E ltac:(done)) as W. change (zlen []) with 0 in W. rewrite W. done.
  - cbn [Z.ltb Z.compare andb]. by destruct (split_flag p) as [[x y]|].
Qed.

(** Where the bytes of a read go in the receive buffer. *)
Lemma collect_read part p :
  match collect part p with
  | Outside => part = [] /\ ~ In 0x7E p
  | Part l => zlen l <= DATA_EXT_DIAG_SIZE -> get_user_diag_buf p (ext_of part) (zlen part) = Done (ext_of l, zlen l, false)
  | Whole f => zlen f <= DATA_EXT_DIAG_SIZE -> get_user_diag_buf p (ext_of part) (zlen part) = Done (ext_of f, zlen f, true)
  end.
Proof.
  destruct part as [|b part]; [|pose proof (collect_inside p (b :: part) ltac:(done)) as Hc; cbn [collect]; by destruct (collect_on (b :: part) p)].
  unfold collect. change (zlen []) with 0. pose proof (collect_idle p) as Hi. destruct (split_flag p) as [[x rest]|] eqn:E.
  - pose proof (collect_inside rest [0x7E] ltac:(done)) as Hc. change (zlen [0x7E]) with 1 in Hc. rewrite Hi. by destruct (collect_on [0x7E] rest).
  - split; [done|]. by apply split_flag_none.
Qed.

Lemma collect_nonempty part p : match collect part p with Outside => True | Part l | Whole l => l <> [] end.
Proof.
  assert (Hon : forall q r, q <> [] -> match collect_on q r with Outside => True | Part l | Whole l => l <> [] end).
  { intros q r Hq. unfold collect_on. by destruct (split_flag r) as [[x y]|], q. }
  destruct part as [|b part]; [|by apply (Hon (b :: part) p)]. unfold collect.
  destruct (split_flag p) as [[x rest]|]; [by apply Hon|done].
Qed.

Lemma collect_length part p : match collect part p with Outside => True | Part l | Whole l => zlen l <= zlen part + zlen p end.
Proof.
  assert (Hon : forall q, match collect_on q p with Outside => True | Part l | Whole l => zlen l <= zlen q + zlen p end).
  { intros q. unfold collect_on. destruct (split_flag p) as [[x y]|] eqn:E; [|by rewrite zlen_app].
    apply split_flag_some in E as ->. rewrite !zlen_app, !zlen_cons, zlen_nil. pose proof (zlen_nonneg y). lia. }
  destruct part as [|b part]; [|apply Hon]. unfold collect. destruct (split_flag p) as [[x rest]|] eqn:E; [|done].
  apply split_flag_some in E as ->. rewrite zlen_app, zlen_cons. change (zlen []) with 0. pose proof (zlen_nonneg x). unfold collect_on.
  destruct (split_flag rest) as [[z y]|] eqn:E.
  - apply split_flag_some in E as ->. rewrite !zlen_app, !zlen_cons, zlen_nil. pose proof (zlen_nonneg y). lia.
  - rewrite zlen_app, zlen_cons, zlen_nil. lia.
Qed.

Section routing.
  Context {St : Type} `{DiagHandler St}.

(** What becomes of any reads: the handler's state, what the modem gets, and the part of a
    frame that waits. *)
Fixpoint by_reads (s : St) (out part : list Z) (reads : list (list Z)) : outcome (St * list Z * list Z) :=
  match reads with
  | [] => Done (s, out, part)
  | p :: reads =>
      match collect part p with
      | Outside => by_reads s (out ++ p) [] reads
      | Part l => by_reads s out l reads
      | Whole f =>
          let* (s, _, r) := dh_diag s (ext_of f) (zlen f) in
          by_reads s (if 1 =? r then out else out ++ f) [] reads
      end
  end.

(** Every frame goes to the handler once, and to the modem as it was received when the handler
    leaves it; other data goes to the modem. *)
Fixpoint deliver (s : St) (out : list Z) (items : list item) : outcome (St * list Z) :=
  match items with
  | [] => Done (s, out)
  | Frame body _ :: items =>
      let* (s, _, r) := dh_diag s (ext_of (frame_of body)) (zlen (frame_of body)) in
      deliver s (if 1 =? r then out else out ++ frame_of body) items
  | Raw bytes :: items => deliver s (out ++ bytes) items
  end.

(** What the modem has, and has room for. *)
Definition capacity (v : vdiag St) : nat := (length (modem_written v) + positives (modem_answers v))%nat.

(** The state between frames, and with a part of one. *)
Definition holding (part : list Z) (v : vdiag St) : Prop :=
  g_diag_status v = ENG_DIAG_RECV_TO_AP /\ ext_data_buf v = ext_of part /\ ext_buf_len v = zlen part.

Lemma holding_empty v : g_diag_status v = ENG_DIAG_RECV_TO_AP -> ext_data_buf v = empty_ext -> ext_buf_len v = 0 -> holding [] v.
Proof.
  intros H1 H2 H3. split; [done|]. split; [|done]. rewrite H2. unfold ext_of, empty_ext. cbn [length app]. by rewrite Nat.sub_0_r.
Qed.

Lemma receive_piece p r : piece_ok p -> receive (RBytes p) r = Some p.
Proof.
  intros [Hne Hl]. unfold receive. guard_false (zlen p =? DATA_BUF_SIZE / 2).
  destruct p; [done|]. rewrite zlen_cons. pose proof (zlen_nonneg p). by guard_false (1 + zlen p <=? 0).
Qed.

(** A piece that does not end the frame is kept. *)
Lemma round_part v body part p more :
  holding part v -> part ++ p ++ more = frame_of body -> ~ In 0x7E body -> zlen (frame_of body) < DATA_EXT_DIAG_SIZE / 2 ->
  piece_ok p -> more <> [] ->
  exists v', vdiag_round v (RBytes p) RErr 0 = Done (Some v') /\ holding (part ++ p) v' /\ diag_state v' = diag_state v /\
    modem_written v' = modem_written v /\ modem_answers v' = modem_answers v.
Proof.
  intros (Hs & He & Hlen) Heq Hin Hl Hp Hm. unfold vdiag_round. rewrite receive_piece by done.
  unfold route. rewrite Hs, He, Hlen. unfold frame_of in Hl, Heq. rewrite zlen_cons, zlen_app, zlen_cons, zlen_nil in Hl.
  change (DATA_EXT_DIAG_SIZE / 2) with 8192 in *.
  rewrite (collect_piece body p part more) by (done || (unfold DATA_EXT_DIAG_SIZE; lia) || (intros E; by apply app_eq_nil in E as [_ ?])).
  cbn [obind]. rewrite bool_decide_false by done.
  assert (Hz : 0 < zlen (part ++ p) < 8192).
  { apply (f_equal zlen) in Heq. rewrite !zlen_app, zlen_cons, zlen_app, zlen_cons, zlen_nil in Heq. rewrite zlen_app.
    pose proof (zlen_nonneg part). pose proof (zlen_nonneg more). destruct Hp as [Hne _]. destruct p as [|y p]; [done|].
    rewrite zlen_cons in *. pose proof (zlen_nonneg p). lia. }
  guard_false (0 =? zlen (part ++ p)). guard_false (8192 <=? zlen (part ++ p)).
  cbn [obind]. eexists. split; [reflexivity|]. done.
Qed.

(** The piece that ends the frame hands it over. *)
Lemma round_end v body part p s' b' r :
  holding part v -> part ++ p = frame_of body -> ~ In 0x7E body -> zlen (frame_of body) < DATA_EXT_DIAG_SIZE / 2 ->
  piece_ok p -> (1 =? r) = true \/ (length (frame_of body) <= positives (modem_answers v))%nat ->
  dh_diag (diag_state v) (ext_of (frame_of body)) (zlen (frame_of body)) = Done (s', b', r) ->
  exists v', vdiag_round v (RBytes p) RErr 0 = Done (Some v') /\ holding [] v' /\ diag_state v' = s' /\
    modem_written v' = (if 1 =? r then modem_written v else modem_written v ++ frame_of body) /\
    (capacity v <= capacity v')%nat.
Proof.
  intros (Hs & He & Hlen) Heq Hin Hl Hp Hroom Hd. unfold vdiag_round. rewrite receive_piece by done.
  unfold route. rewrite Hs, He, Hlen. change (DATA_EXT_DIAG_SIZE / 2) with 8192 in *.
  assert (Hl' : zlen body + 2 <= DATA_EXT_DIAG_SIZE).
  { unfold frame_of in Hl. rewrite zlen_cons, zlen_app, zlen_cons, zlen_nil in Hl. unfold DATA_EXT_DIAG_SIZE. lia. }
  rewrite (collect_piece body p part []) by (rewrite ?app_nil_r; (done || by destruct Hp)).
  cbn [obind]. rewrite bool_decide_true, Heq by done.
  assert (Hsl : slice (ext_of (frame_of body)) 0 (zlen (frame_of body)) = Done (frame_of body)) by (by apply slice_app_l).
  rewrite Hsl. cbn [obind]. rewrite Hd. cbn [obind]. destruct (1 =? r) eqn:Hr1.
  - eexists. split; [reflexivity|]. split; [by apply holding_empty|]. split; [done|]. split; [done|]. unfold capacity. cbn [set_ext modem_answers modem_written]. done.
  - destruct (modem_write_ok (modem_answers v) (modem_written v) (frame_of body)) as (ws & E & Hw);
      [done|by destruct Hroom|].
    cbn [set_ext modem_answers modem_written]. rewrite E. cbn [obind].
    eexists. split; [reflexivity|]. split; [by apply holding_empty|]. split; [done|]. split; [done|].
    unfold capacity. cbn [set_modem modem_answers modem_written]. rewrite length_app. lia.
Qed.

(** Bytes outside a frame go to the modem. *)
Lemma round_raw v bytes : holding [] v -> ~ In 0x7E bytes -> piece_ok bytes ->
  (length bytes <= positives (modem_answers v))%nat ->
  exists v', vdiag_round v (RBytes bytes) RErr 0 = Done (Some v') /\ holding [] v' /\ diag_state v' = diag_state v /\
    modem_written v' = modem_written v ++ bytes /\ (capacity v <= capacity v')%nat.
Proof.
  intros (Hs & He & Hlen) Hin Hp Hroom. unfold vdiag_round. rewrite receive_piece by done.
  unfold route. rewrite Hs, He, Hlen.
  assert (Hg : forall c, ~ In 0x7E c -> get_user_diag_buf c (ext_of []) (zlen (@nil Z)) = Done (ext_of [], 0, false)).
  { induction c as [|b c IH]; intros Hc; [done|]. cbn [get_user_diag_buf].
    replace (b =? 0x7e) with false by (symmetry; apply Z.eqb_neq; intros ->; apply Hc; by left).
    cbn [andb]. change (0 <? zlen (@nil Z)) with false. cbn [andb]. apply IH. intros ?. apply Hc. by right. }
  rewrite Hg by done. cbn [obind Z.eqb].
  destruct (modem_write_ok (modem_answers v) (modem_written v) bytes) as (ws & E & Hw); [apply Hp|done|].
  cbn [set_ext modem_answers modem_written]. rewrite E. cbn [obind].
  eexists. split; [reflexivity|]. split; [by split|]. split; [done|]. split; [done|].
  unfold capacity. cbn [set_modem modem_answers modem_written]. rewrite length_app. lia.
Qed.

(** The pieces of a frame, one after the other. *)
Lemma frame_pieces body pieces : forall v part s' b' r,
  holding part v -> part ++ concat pieces = frame_of body -> pieces <> [] -> ~ In 0x7E body ->
  zlen (frame_of body) < DATA_EXT_DIAG_SIZE / 2 -> Forall piece_ok pieces ->
  (1 =? r) = true \/ (length (frame_of body) <= positives (modem_answers v))%nat ->
  dh_diag (diag_state v) (ext_of (frame_of body)) (zlen (frame_of body)) = Done (s', b', r) ->
  exists v', vdiag_reads v pieces = Done (Some v') /\ holding [] v' /\ diag_state v' = s' /\
    modem_written v' = (if 1 =? r then modem_written v else modem_written v ++ frame_of body) /\
    (capacity v <= capacity v')%nat.
Proof.
  induction pieces as [|p pieces IH]; [done|]. intros v part s' b' r Hh Heq _ Hin Hl Hok Hroom Hd.
  inversion Hok as [|? ? Hp Hps]. subst. cbn [vdiag_reads concat] in *. destruct pieces as [|q pieces].
  - cbn [concat] in Heq. rewrite app_nil_r in Heq.
    destruct (round_end v body part p s' b' r) as (v' & E & Hv); try done. rewrite E. cbn [obind vdiag_reads]. by exists v'.
  - inversion Hps as [|? ? Hq _]. subst.
    destruct (round_part v body part p (concat (q :: pieces))) as (v' & E & Hh' & Hs & Hw & Ha); try done.
    { cbn [concat]. destruct Hq as [Hq _]. by destruct q. }
    rewrite E. cbn [obind]. rewrite <- Hw. rewrite <- Ha in Hroom. rewrite <- Hs in Hd.
    assert (Hcap : capacity v = capacity v') by (unfold capacity; by rewrite Hw, Ha). rewrite Hcap.
    eapply IH; try done. by rewrite <- app_assoc.
Qed.

Lemma reads_app a : forall (v : vdiag St) b v', vdiag_reads v a = Done (Some v') -> vdiag_reads v (a ++ b) = vdiag_reads v' b.
Proof.
  induction a as [|p a IH]; intros v b v' E; cbn [vdiag_reads app] in *; [by simplify_eq|].
  obind_inv E. cbn [obind]. destruct a0; [by apply IH|done].
Qed.

Lemma deliver_grows items : forall s out s' out',
  deliver s out items = Done (s', out') -> (length out <= length out')%nat.
Proof.
  induction items as [|[body ps|bytes] items IH]; intros s out s' out' E; cbn [deliver] in E; [by simplify_eq| |].
  - obind_inv E. destruct a as [[s1 b1] r]. apply IH in E. destruct (1 =? r); rewrite ?length_app in E; lia.
  - apply IH in E. rewrite length_app in E. lia.
Qed.

(** The rounds of the thread do what [deliver] says. *)
Lemma rounds_deliver items : forall v s' out',
  Forall item_ok items -> holding [] v -> (length out' <= capacity v)%nat ->
  deliver (diag_state v) (modem_written v) items = Done (s', out') ->
  exists v', vdiag_reads v (concat (pieces_of <$> items)) = Done (Some v') /\ holding [] v' /\
    diag_state v' = s' /\ modem_written v' = out'.
Proof.
  induction items as [|i items IH]; intros v s' out' Hok Hh Hroom Hd.
  { exists v. cbn in Hd. by simplify_eq. }
  inversion Hok as [|? ? Hi Hok']. subst. cbn [fmap list_fmap concat] in *.
  destruct i as [body pieces|bytes]; cbn [deliver pieces_of] in *.
  - obind_inv Hd. destruct a as [[s1 b1] r]. destruct Hi as (Hin & Hl & Hc & Hp).
    pose proof (deliver_grows _ _ _ _ _ Hd) as Hg.
    destruct (frame_pieces body pieces v [] s1 b1 r) as (v1 & E1 & Hh1 & Hs1 & Hw1 & Hr1); try done; [by intros ->| |].
    { destruct (1 =? r); [by left|right]. unfold capacity in Hroom. rewrite length_app in Hg. lia. }
    rewrite (reads_app _ v _ v1) by done. rewrite <- Hs1, <- Hw1 in Hd. apply IH; try done. lia.
  - destruct Hi as [Hin Hp]. pose proof (deliver_grows _ _ _ _ _ Hd) as Hg. rewrite length_app in Hg.
    destruct (round_raw v bytes) as (v1 & E1 & Hh1 & Hs1 & Hw1 & Hr1); try done; [unfold capacity in Hroom; lia|].
    cbn [app vdiag_reads]. rewrite E1. cbn [obind]. rewrite <- Hs1, <- Hw1 in Hd. apply IH; try done. lia.
Qed.

(** A read that hands over a frame. *)
Lemma round_whole v part p f s' b' r :
  holding part v -> piece_ok p -> collect part p = Whole f -> zlen part < DATA_EXT_DIAG_SIZE / 2 ->
  (1 =? r) = true \/ (length f <= positives (modem_answers v))%nat ->
  dh_diag (diag_state v) (ext_of f) (zlen f) = Done (s', b', r) ->
  exists v', vdiag_round v (RBytes p) RErr 0 = Done (Some v') /\ holding [] v' /\ diag_state v' = s' /\
    modem_written v' = (if 1 =? r then modem_written v else modem_written v ++ f) /\ (capacity v <= capacity v')%nat.
Proof.
  intros (Hs & He & Hlen) Hp Hc Hpart Hroom Hd. unfold vdiag_round. rewrite receive_piece by done.
  pose proof (collect_read part p) as Hr. pose proof (collect_nonempty part p) as Hn. pose proof (collect_length part p) as Hz.
  rewrite Hc in Hr, Hn, Hz. destruct Hp as [_ Hp]. change (DATA_BUF_SIZE / 2) with 8192 in Hp. change (DATA_EXT_DIAG_SIZE / 2) with 8192 in Hpart.
  unfold route. rewrite Hs, He, Hlen, Hr by (unfold DATA_EXT_DIAG_SIZE; lia). cbn [obind].
  assert (Hsl : slice (ext_of f) 0 (zlen f) = Done f) by (by apply slice_app_l).
  rewrite Hsl. cbn [obind]. rewrite Hd. cbn [obind]. destruct (1 =? r) eqn:Hr1.
  - eexists. split; [reflexivity|]. split; [by apply holding_empty|]. split; [done|]. split; [done|]. unfold capacity. cbn [set_ext modem_answers modem_written]. done.
  - destruct (modem_write_ok (modem_answers v) (modem_written v) f) as (ws & E & Hw); [done|by destruct Hroom|].
    cbn [set_ext modem_answers modem_written]. rewrite E. cbn [obind].
    eexists. split; [reflexivity|]. split; [by apply holding_empty|]. split; [done|]. split; [done|].
    unfold capacity. cbn [set_modem modem_answers modem_written]. rewrite length_app. lia.
Qed.

(** A read that leaves a part of a frame. *)
Lemma round_more v part p l :
  holding part v -> piece_ok p -> collect part p = Part l -> zlen l < DATA_EXT_DIAG_SIZE / 2 ->
  exists v', vdiag_round v (RBytes p) RErr 0 = Done (Some v') /\ holding l v' /\ diag_state v' = diag_state v /\
    modem_written v' = modem_written v /\ modem_answers v' = modem_answers v.
Proof.
  intros (Hs & He & Hlen) Hp Hc Hl. unfold vdiag_round. rewrite receive_piece by done.
  pose proof (collect_read part p) as Hr. pose proof (collect_nonempty part p) as Hn. rewrite Hc in Hr, Hn.
  change (DATA_EXT_DIAG_SIZE / 2) with 8192 in *.
  unfold route. rewrite Hs, He, Hlen, Hr by (unfold DATA_EXT_DIAG_SIZE; lia). cbn [obind].
  assert (0 < zlen l) by (destruct l; [done|]; rewrite zlen_cons; pose proof (zlen_nonneg l); lia).
  change (DATA_EXT_DIAG_SIZE / 2) with 8192. guard_false (0 =? zlen l). guard_false (8192 <=? zlen l). cbn [obind].
  eexists. split; [reflexivity|]. done.
Qed.

Lemma by_reads_grows reads : forall s out part s' out' part',
  by_reads s out part reads = Done (s', out', part') -> (length out <= length out')%nat.
Proof.
  induction reads as [|p reads IH]; intros s out part s' out' part' E; cbn [by_reads] in E; [by simplify_eq|].
  destruct (collect part p) as [|l|f].
  - apply IH in E. rewrite length_app in E. lia.
  - by apply IH in E.
  - obind_inv E. destruct a as [[s1 b1] r]. apply IH in E. destruct (1 =? r); rewrite ?length_app in E; lia.
Qed.

(** The rounds of the thread do what [by_reads] says. *)
Lemma reads_routed reads : forall v part s' out' part',
  Forall piece_ok reads -> parts_short part reads = true -> holding part v -> zlen part < DATA_EXT_DIAG_SIZE / 2 ->
  (length out' <= capacity v)%nat ->
  by_reads (diag_state v) (modem_written v) part reads = Done (s', out', part') ->
  exists v', vdiag_reads v reads = Done (Some v') /\ holding part' v' /\ diag_state v' = s' /\ modem_written v' = out'.
Proof.
  induction reads as [|p reads IH]; intros v part s' out' part' Hok Hsh Hh Hz Hroom Hd.
  { exists v. cbn in Hd. by simplify_eq. }
  inversion Hok as [|? ? Hp Hok']. subst. cbn [parts_short by_reads vdiag_reads] in *.
  pose proof (collect_read part p) as Hr. destruct (collect part p) as [|l|f] eqn:Hc.
  - destruct Hr as [-> Hin]. pose proof (by_reads_grows _ _ _ _ _ _ _ Hd) as Hg. rewrite length_app in Hg.
    destruct (round_raw v p) as (v1 & E1 & Hh1 & Hs1 & Hw1 & Hr1); try done; [unfold capacity in Hroom; lia|].
    rewrite E1. cbn [obind]. rewrite <- Hs1, <- Hw1 in Hd. apply (IH v1 []); try done. lia.
  - apply andb_true_iff in Hsh as [Hl Hsh]. apply Z.ltb_lt in Hl.
    destruct (round_more v part p l) as (v1 & E1 & Hh1 & Hs1 & Hw1 & Ha1); try done. rewrite E1. cbn [obind].
    rewrite <- Hs1, <- Hw1 in Hd. apply (IH v1 l); try done. unfold capacity in *. by rewrite Hw1, Ha1.
  - obind_inv Hd. destruct a as [[s1 b1] r]. pose proof (by_reads_grows _ _ _ _ _ _ _ Hd) as Hg.
    destruct (round_whole v part p f s1 b1 r) as (v1 & E1 & Hh1 & Hs1 & Hw1 & Hr1); try done.
    { destruct (1 =? r); [by left|right]. unfold capacity in Hroom. rewrite length_app in Hg. lia. }
    rewrite E1. cbn [obind]. rewrite <- Hs1, <- Hw1 in Hd. apply (IH v1 []); try done. lia.
Qed.
End routing.

(** C10. The thread of the diagnostic channel refines the routing of frames.  Take reads of
    fewer than 8192 bytes, cut anywhere, such that no part of a frame that waits for its end
    reaches 8192 bytes: the thread does what [by_reads] says.  Every frame that the reads
    complete is handed to the handler once, in order and alone in a clear buffer; what the
    handler leaves, and reads without a flag outside frames, is written to the modem unchanged
    and in order, however little the modem takes at a time; what a read brings after the end
    of a frame, or before the flag that starts one, is dropped ([after_end_dropped]).  When
    no read goes over the start or the end of a frame nothing is dropped: the thread does what
    [deliver] says of the frames and the other data, and its buffer is empty at the end. *)
Theorem frames_routed {St} `{DiagHandler St} (v : vdiag St) :
  holding [] v ->
  (forall reads s' out' part', Forall piece_ok reads -> parts_short [] reads = true -> (length out' <= capacity v)%nat ->
     by_reads (diag_state v) (modem_written v) [] reads = Done (s', out', part') ->
     exists v', vdiag_reads v reads = Done (Some v') /\ holding part' v' /\ diag_state v' = s' /\ modem_written v' = out') /\
  (forall items s' out', Forall item_ok items -> (length out' <= capacity v)%nat ->
     deliver (diag_state v) (modem_written v) items = Done (s', out') ->
     exists v', vdiag_reads v (concat (pieces_of <$> items)) = Done (Some v') /\ holding [] v' /\
       diag_state v' = s' /\ modem_written v' = out').
Proof.
  intros Hh. split.
  - intros reads s' out' part' Hok Hsh Hroom Hd. by apply (reads_routed reads v []).
  - intros items s' out' Hok Hroom Hd. by apply rounds_deliver.
Qed.

(** ** The handler of EngDiag *)

(** A clear buffer with a frame has a byte after it. *)
Lemma ext_of_frame f : zlen f < DATA_EXT_DIAG_SIZE -> exists rest, ext_of f = f ++ 0 :: rest.
Proof.
  intros Hl. unfold ext_of.
  assert (Hn : (length f < Z.to_nat DATA_EXT_DIAG_SIZE)%nat) by (unfold zlen in Hl; lia).
  revert Hn. generalize (Z.to_nat DATA_EXT_DIAG_SIZE). intros n Hn.
  destruct (n - length f)%nat as [|k] eqn:E; [lia|]. by exists (replicate k 0).
Qed.

Lemma address_item seq sub direct ps : zlen seq = 4 -> zlen direct = 106 -> Forall piece_ok ps ->
  concat ps = translate (btwifi_msg seq sub direct) -> item_ok (Frame (flat_map escape (btwifi_msg seq sub direct)) ps).
Proof.
  intros Hs Hd Hp Hc. split; [apply escaped_no_flag|]. split; [|done].
  change (frame_of (flat_map escape ?m)) with (translate m).
  pose proof (zlen_framed (btwifi_msg seq sub direct)) as Hz. change (DATA_EXT_DIAG_SIZE / 2) with 8192.
  assert (zlen (btwifi_msg seq sub direct) = 116); [|lia].
  unfold btwifi_msg. rewrite !zlen_app, Hs, Hd, !zlen_le_bytes. done.
Qed.

Section serial.
  Context {W : Type} (modes : Z) (e : mac_env) (Hfiles : files_work e).
  Context (user_cmd : DIAG_CMD_TYPE -> diag W -> list Z -> Z -> list Z -> outcome (diag W * list Z * list Z * Z)).
  Context (sprdver : list Z).
  #[local] Existing Instance eng_diag_handler.

(** What [deliver] makes of a frame that stores addresses and one that asks for them. *)
Lemma deliver_addresses (d : diag W) out seq seq' imei bt gps wifi tail direct ps ps' n n' answers :
  let msg := btwifi_msg seq 0x44 (imei ++ bt ++ gps ++ wifi ++ tail) in
  let msg' := btwifi_msg seq' 0xC4 direct in
  let ack := translate (btwifi_ack seq 1) in
  let answer := translate (btwifi_msg seq' 1 (btwifi_data bt wifi)) in
  zlen seq = 4 -> zlen seq' = 4 ->
  zlen imei = 16 -> zlen bt = 6 -> zlen gps = 44 -> zlen wifi = 6 -> zlen tail = 34 -> zlen direct = 106 ->
  Forall byte_ok bt -> Forall byte_ok wifi ->
  s_cp_ap_proc d = false -> pc_answers d = WOk n :: WOk n' :: answers -> zlen ack <= n -> zlen answer <= n' ->
  exists d', deliver (H := eng_diag_handler modes e user_cmd sprdver) d out
      [Frame (flat_map escape msg) ps; Frame (flat_map escape msg') ps'] = Done (d', out) /\
    pc_written d' = pc_written d ++ [ack; answer].
Proof.
  intros msg msg' ack answer Hs Hs' Hi Hb Hg Hw Ht Hd Okb Okw Hcp Ha Hn Hn'. cbn [deliver dh_diag eng_diag_handler].
  change (frame_of (flat_map escape ?m)) with (translate m).
  assert (Hsz : forall m, zlen m = 116 -> zlen (translate m) < DATA_EXT_DIAG_SIZE).
  { intros m Hm. pose proof (zlen_framed m). unfold DATA_EXT_DIAG_SIZE. lia. }
  destruct (ext_of_frame (translate msg)) as [r1 ->].
  { apply Hsz. unfold msg, btwifi_msg. rewrite !zlen_app, !zlen_le_bytes, !zlen_cons, zlen_nil. lia. }
  destruct (write_frame modes e Hfiles user_cmd sprdver d seq imei bt gps wifi tail 0 r1 n (WOk n' :: answers))
    as (d1 & b1 & E1 & Hst & Hw1 & Ha1 & Hcp1); try done.
  fold msg in E1. rewrite E1. cbn [obind Z.eqb Pos.eqb].
  destruct (ext_of_frame (translate msg')) as [r2 ->].
  { apply Hsz. unfold msg', btwifi_msg. rewrite !zlen_app, !zlen_le_bytes, !zlen_cons, zlen_nil. lia. }
  destruct (read_frame modes e Hfiles user_cmd sprdver d1 seq' direct bt wifi 0 r2 n' answers)
    as (d2 & b2 & E2 & _ & Hw2); try done.
  1,2: unfold zlen in Hb, Hw; lia.
  fold msg' in E2. rewrite E2. cbn [obind Z.eqb Pos.eqb]. exists d2. split; [done|]. by rewrite Hw2, Hw1, <- app_assoc.
Qed.
End serial.

(** C9. The addresses of a phone, from the serial port on: the bytes of a frame that stores a
    Bluetooth and a WiFi address, and of a later frame that asks for them, read in any pieces,
    are answered with an acknowledgement, and with those two addresses in their places, a right
    CRC, and nothing else; flags and escapes in the data, and the other data of the frames, do
    not matter, and nothing is sent to the modem. *)
Theorem addresses_over_serial {W} modes e
    (user_cmd : DIAG_CMD_TYPE -> diag W -> list Z -> Z -> list Z -> outcome (diag W * list Z * list Z * Z))
    sprdver (v : vdiag (diag W)) seq seq' imei bt gps wifi tail direct ps ps' n n' answers :
  let ack := translate (btwifi_ack seq 1) in
  let answer := translate (btwifi_msg seq' 1 (btwifi_data bt wifi)) in
  files_work e -> zlen seq = 4 -> zlen seq' = 4 ->
  zlen imei = 16 -> zlen bt = 6 -> zlen gps = 44 -> zlen wifi = 6 -> zlen tail = 34 -> zlen direct = 106 ->
  Forall byte_ok bt -> Forall byte_ok wifi -> holding [] v ->
  s_cp_ap_proc (diag_state v) = false -> pc_answers (diag_state v) = WOk n :: WOk n' :: answers ->
  zlen ack <= n -> zlen answer <= n' -> Forall piece_ok ps -> Forall piece_ok ps' ->
  concat ps = translate (btwifi_msg seq 0x44 (imei ++ bt ++ gps ++ wifi ++ tail)) ->
  concat ps' = translate (btwifi_msg seq' 0xC4 direct) ->
  exists v', vdiag_reads (H := eng_diag_handler modes e user_cmd sprdver) v (ps ++ ps') = Done (Some v') /\
    holding [] v' /\ modem_written v' = modem_written v /\
    pc_written (diag_state v') = pc_written (diag_state v) ++ [ack; answer].
Proof.
  intros ack answer Hfiles Hs Hs' Hi Hb Hg Hw Ht Hd Okb Okw Hh Hcp Ha Hn Hn' Hp Hp' Hc Hc'.
  destruct (deliver_addresses modes e Hfiles user_cmd sprdver (diag_state v) (modem_written v) seq seq' imei bt gps wifi tail
    direct ps ps' n n' answers) as (d' & Hd' & Hw'); try done.
  assert (Hcap : (length (modem_written v) <= capacity v)%nat) by (unfold capacity; lia).
  epose proof (rounds_deliver (H := eng_diag_handler modes e user_cmd sprdver) _ v d' (modem_written v) _ Hh Hcap Hd')
    as (v' & E & Hh' & Hs1 & Hm).
  Unshelve.
  2: { constructor; [|constructor; [|constructor]]; apply address_item; try done. rewrite !zlen_app. lia. }
  cbn [fmap list_fmap pieces_of concat] in E. rewrite app_nil_r in E. exists v'. by rewrite Hs1, Hw'.
Qed.

(** An instance: a thread that waits for a frame, and a modem that takes three bytes at a time
    after an error. *)
Definition idle_vdiag (answers : list wres) : vdiag (diag unit) :=
  {| ext_data_buf := empty_ext; ext_buf_len := 0; g_diag_status := ENG_DIAG_RECV_TO_AP; g_ass_start := false;
     modem_answers := [-1; 3; 0; 3; 3; 3]; modem_written := []; diag_state := example_diag answers |}.

Lemma idle_holding answers : holding [] (idle_vdiag answers).
Proof. by apply holding_empty. Qed.

Definition write_msg : list Z := btwifi_msg [1; 0; 0; 0] 0x44 (replicate 16 0x7D ++ [0x7E; 2; 3; 4; 5; 6] ++ replicate 44 9 ++
  [0x7D; 0x7E; 10; 11; 12; 13] ++ replicate 34 0x7E).
Definition read_msg : list Z := btwifi_msg [0x7E; 0; 0; 0] 0xC4 (replicate 106 0).
(** A frame in two reads. *)
Definition in_two (f : list Z) : list (list Z) := [take 70 f; drop 70 f].

Lemma in_two_ok f : (70 < length f < 1000)%nat -> Forall piece_ok (in_two f) /\ concat (in_two f) = f.
Proof.
  intros Hl. unfold in_two. cbn [concat]. rewrite app_nil_r, take_drop. split; [|done].
  assert (Hp : forall p : list Z, (0 < length p < 1000)%nat -> piece_ok p).
  { intros p Hp. split; [by intros ->; cbn in Hp; lia|]. change (DATA_BUF_SIZE / 2) with 8192. unfold zlen. lia. }
  constructor; [|constructor; [|constructor]]; apply Hp; rewrite ?length_take, ?length_drop; lia.
Qed.

(** The addresses 06:05:04:03:02:7e and 7d:7e:0a:0b:0c:0d. *)
Lemma addresses_over_serial_witness :
  exists v', vdiag_reads (H := eng_diag_handler 0 example_env no_user_cmd []) (idle_vdiag [WOk 512; WOk 512])
      (in_two (translate write_msg) ++ in_two (translate read_msg)) = Done (Some v') /\
    holding [] v' /\ modem_written v' = [] /\
    pc_written (diag_state v') = [] ++ [translate (btwifi_ack [1; 0; 0; 0] 1);
      translate (btwifi_msg [0x7E; 0; 0; 0] 1 (btwifi_data [0x7E; 2; 3; 4; 5; 6] [0x7D; 0x7E; 10; 11; 12; 13]))].
Proof.
  destruct (in_two_ok (translate write_msg)) as [O1 C1]; [vm_compute; lia|].
  destruct (in_two_ok (translate read_msg)) as [O2 C2]; [vm_compute; lia|].
  apply (addresses_over_serial 0 example_env no_user_cmd [] (idle_vdiag [WOk 512; WOk 512]) [1; 0; 0; 0] [0x7E; 0; 0; 0]
    (replicate 16 0x7D) [0x7E; 2; 3; 4; 5; 6] (replicate 44 9) [0x7D; 0x7E; 10; 11; 12; 13] (replicate 34 0x7E)
    (replicate 106 0) (in_two (translate write_msg)) (in_two (translate read_msg)) 512 512 []); try exact C1; try exact C2;
    try exact O1; try exact O2; try apply idle_holding; try reflexivity.
  1: by repeat split.
  1,2: repeat constructor; by vm_compute.
  1,2: by vm_compute.
Defined.

(** A frame that stores the addresses, and then data outside frames. *)
Lemma frames_routed_witness :
  exists v', vdiag_reads (H := eng_diag_handler 0 example_env no_user_cmd []) (idle_vdiag [WOk 512])
      (concat (pieces_of <$> [Frame (flat_map escape write_msg) (in_two (translate write_msg)); Raw [65; 84; 13; 10]])) =
      Done (Some v') /\
    holding [] v' /\ stored (addresses (diag_state v')) [0x7E; 2; 3; 4; 5; 6] [0x7D; 0x7E; 10; 11; 12; 13] /\
    modem_written v' = [65; 84; 13; 10].
Proof.
  destruct (in_two_ok (translate write_msg)) as [O1 C1]; [vm_compute; lia|].
  destruct (ext_of_frame (translate write_msg)) as [r1 X1]; [vm_compute; reflexivity|].
  destruct (write_frame 0 example_env ltac:(by repeat split) no_user_cmd [] (example_diag [WOk 512]) [1; 0; 0; 0]
    (replicate 16 0x7D) [0x7E; 2; 3; 4; 5; 6] (replicate 44 9) [0x7D; 0x7E; 10; 11; 12; 13] (replicate 34 0x7E) 0 r1 512 [])
    as (d1 & b1 & E1 & Hst & _); try reflexivity; [by vm_compute|].
  destruct (frames_routed (H := eng_diag_handler 0 example_env no_user_cmd []) (idle_vdiag [WOk 512]) (idle_holding _)) as [_ Hitems].
  destruct (Hitems [Frame (flat_map escape write_msg) (in_two (translate write_msg)); Raw [65; 84; 13; 10]] d1 [65; 84; 13; 10])
    as (v' & E & Hh & Hs & Hm); [| vm_compute; lia | |].
  - constructor; [apply address_item; [reflexivity|reflexivity|exact O1|exact C1]|]. constructor; [|constructor].
    split; [intros H; cbn in H; lia|]. split; [done|]. by vm_compute.
  - cbn [deliver dh_diag eng_diag_handler]. change (frame_of (flat_map escape write_msg)) with (translate write_msg).
    rewrite X1. cbn [diag_state idle_vdiag]. unfold write_msg in E1 |- *. rewrite E1. reflexivity.
  - exists v'. rewrite Hs. split; [exact E|]. split; [exact Hh|]. split; [exact Hst|exact Hm].
Defined.

(** ** What is lost *)

(** Bytes that a read brings after the end of a frame are dropped: the round is the same
    without them. *)
Lemma after_end_dropped {St} `{DiagHandler St} (v : vdiag St) body junk :
  holding [] v -> ~ In 0x7E body -> zlen (frame_of body) < DATA_EXT_DIAG_SIZE / 2 ->
  zlen (frame_of body ++ junk) < DATA_BUF_SIZE / 2 -> zlen (frame_of body ++ junk) <> 2 ->
  zlen (frame_of body) <> 2 ->
  vdiag_round v (RBytes (frame_of body ++ junk)) RErr 0 = vdiag_round v (RBytes (frame_of body)) RErr 0.
Proof.
  intros (Hs & He & Hlen) Hin Hl Hj H2 H3.
  assert (Hmore : forall c ext len e l, get_user_diag_buf c ext len = Done (e, l, true) ->
    get_user_diag_buf (c ++ junk) ext len = Done (e, l, true)).
  { induction c as [|b c IH]; intros ext len e l E; [done|]. cbn [app get_user_diag_buf] in *.
    repeat case_match; try done; try (by apply IH); obind_inv E; cbn [obind]; try (by apply IH). }
  assert (Hp : piece_ok (frame_of body ++ junk)) by (split; [done|lia]).
  assert (Hp' : piece_ok (frame_of body)) by (split; [done|rewrite zlen_app in Hj; pose proof (zlen_nonneg junk); lia]).
  change (DATA_EXT_DIAG_SIZE / 2) with 8192 in Hl. pose proof Hl as Hl'. unfold frame_of in Hl'.
  rewrite zlen_cons, zlen_app, zlen_cons, zlen_nil in Hl'.
  pose proof (collect_piece body (frame_of body) [] []) as C. cbn [app] in C.
  specialize (C ltac:(by rewrite app_nil_r) Hin ltac:(unfold DATA_EXT_DIAG_SIZE; lia) ltac:(done)).
  rewrite bool_decide_true in C by done.
  unfold vdiag_round. rewrite !receive_piece by done. unfold route. rewrite Hs, He, Hlen, C, (Hmore _ _ _ _ _ C).
  cbn [obind]. guard_false (zlen (frame_of body ++ junk) =? 2). by guard_false (zlen (frame_of body) =? 2).
Qed.
