(* ===== verification/EngRelay.v ===== *)
(** * apps/engmode/vlog.c: the relays from the modem to the tool

    Two threads copy what the modem sends to a serial port: [eng_vlog_thread] the log channel,
    [eng_vdiag_rthread] the diagnostic channel.  Both read into the one static array
    [log_data].  This file models the two threads as steps over that array: when a thread reads
    only while the other has nothing to write, which is so while the log is off, each port gets
    exactly what its channel sent; while it is on nothing in the code makes them do so, and a
    port can get the other channel's bytes. *)

From S2P Require Import Prelude.

Definition DATA_BUF_SIZE : Z := 4096 * 32.

(** The two threads. *)
Inductive who : Type := Log | Diag.
#[global] Instance who_eq_dec : EqDecision who.
Proof. solve_decision. Defined.

(** A thread reads, or has bytes of [log_data] left to write; [split] when the next write is to
    leave 32 bytes. *)
Inductive phase : Type := Reading | Writing (offset r_cnt : Z) (split : bool).

Record thread : Type := { at_ : phase; received : list Z; sent : list Z }.
Record relay : Type := { log_data : list Z; vlog : thread; rthread : thread; dumpmemlen : Z * Z; ass_start : bool }.

Definition get (r : relay) (w : who) : thread := match w with Log => vlog r | Diag => rthread r end.
Definition other (w : who) : who := match w with Log => Diag | Diag => Log end.
Definition put (r : relay) (w : who) (t : thread) : relay :=
  {| log_data := log_data r; vlog := if decide (w = Log) then t else vlog r;
     rthread := if decide (w = Diag) then t else rthread r; dumpmemlen := dumpmemlen r; ass_start := ass_start r |}.

(** A word of the array, least significant byte first. *)
Definition word (l : list Z) (i : Z) : outcome Z := let* b := slice l i 4 in Done (le_val b).

(** The count of dumped bytes: a message of 12 bytes whose third word is the exclusive or of
    the first two ends a dump.  Each thread has a count of its own. *)
Definition dump_mem_len_print (log_data : list Z) (r_cnt dumplen : Z) (g_ass_start : bool) : outcome (Z * bool) :=
  let* (dumplen, g_ass_start) :=
    if r_cnt =? 12 then
      let* head := word log_data 0 in
      let* len := word log_data 4 in
      let* tail := word log_data 8 in
      Done (if tail =? Z.lxor len head then (0, false) else (dumplen, g_ass_start))
    else Done (dumplen, g_ass_start) in
  Done (if g_ass_start then dumplen + r_cnt else dumplen, g_ass_start).

Definition dumped (r : relay) (w : who) : Z := match w with Log => fst (dumpmemlen r) | Diag => snd (dumpmemlen r) end.
Definition set_dumped (r : relay) (w : who) (n : Z) : Z * Z :=
  match w with Log => (n, snd (dumpmemlen r)) | Diag => (fst (dumpmemlen r), n) end.

(** In calibration over USB, a transfer of a multiple of 64 bytes is split. *)
Definition split_flag (cali usb : bool) (r_cnt : Z) : bool := (r_cnt mod 64 =? 0) && cali && usb.

(** The array is cleared and [bytes] are read into it. *)
Definition do_read (cali usb : bool) (r : relay) (w : who) (bytes : list Z) : outcome relay :=
  match at_ (get r w) with
  | Reading =>
      let* data := splice (replicate (Z.to_nat DATA_BUF_SIZE) 0) 0 bytes in
      let* (n, ass) := dump_mem_len_print data (zlen bytes) (dumped r w) (ass_start r) in
      let t := {| at_ := Writing 0 (zlen bytes) (split_flag cali usb (zlen bytes));
                  received := received (get r w) ++ bytes; sent := sent (get r w) |} in
      Done {| log_data := data; vlog := if decide (w = Log) then t else vlog r;
              rthread := if decide (w = Diag) then t else rthread r; dumpmemlen := set_dumped r w n; ass_start := ass |}
  | Writing _ _ _ => Undef
  end.

(** One [write] of which the port takes at most [room] bytes. *)
Definition do_write (r : relay) (w : who) (room : Z) : outcome relay :=
  match at_ (get r w) with
  | Reading => Undef
  | Writing offset r_cnt split =>
      let w_cnt := Z.min room (if split then r_cnt - 32 else r_cnt) in
      let* bytes := slice (log_data r) offset w_cnt in
      Done (put r w {| at_ := if 0 <? r_cnt - w_cnt then Writing (offset + w_cnt) (r_cnt - w_cnt) false else Reading;
                       received := received (get r w); sent := sent (get r w) ++ bytes |})
  end.

Section steps.
  Context (cali usb : bool).

(** A step of a thread: a read of some bytes, a write, or a write that failed, after which it
    is tried again.  The log thread waits at a semaphore, and reads only while [armlog] is
    set. *)
Inductive step (armlog : bool) : relay -> relay -> Prop :=
| step_read r w bytes r' : (w = Log -> armlog = true) -> 0 < zlen bytes <= DATA_BUF_SIZE -> do_read cali usb r w bytes = Done r' -> step armlog r r'
| step_write r w room r' : 0 <= room -> do_write r w room = Done r' -> step armlog r r'
| step_again r : step armlog r r.

(** The steps in which a thread reads only while the other has nothing to write. *)
Inductive step_alone : relay -> relay -> Prop :=
| alone_read r w bytes r' : at_ (get r (other w)) = Reading -> 0 < zlen bytes <= DATA_BUF_SIZE ->
    do_read cali usb r w bytes = Done r' -> step_alone r r'
| alone_write r w room r' : 0 <= room -> do_write r w room = Done r' -> step_alone r r'
| alone_again r : step_alone r r.

Definition start : relay :=
  {| log_data := replicate (Z.to_nat DATA_BUF_SIZE) 0; vlog := {| at_ := Reading; received := []; sent := [] |};
     rthread := {| at_ := Reading; received := []; sent := [] |}; dumpmemlen := (0, 0); ass_start := false |}.

(** What a thread has still to write is what it received and did not send. *)
Definition pending (r : relay) (t : thread) : Prop :=
  match at_ t with
  | Reading => received t = sent t
  | Writing offset r_cnt split =>
      (if split then 64 <= r_cnt else 0 < r_cnt) /\
      exists rest, slice (log_data r) offset r_cnt = Done rest /\ received t = sent t ++ rest
  end.
Definition relay_inv (r : relay) : Prop :=
  (forall w, pending r (get r w)) /\ (at_ (vlog r) = Reading \/ at_ (rthread r) = Reading).
End steps.

(** ** One step *)
Lemma read_result cali usb r w bytes r' : do_read cali usb r w bytes = Done r' ->
  at_ (get r w) = Reading /\
  log_data r' = bytes ++ drop (length bytes) (replicate (Z.to_nat DATA_BUF_SIZE) 0) /\
  get r' w = {| at_ := Writing 0 (zlen bytes) (split_flag cali usb (zlen bytes));
                received := received (get r w) ++ bytes; sent := sent (get r w) |} /\
  get r' (other w) = get r (other w).
Proof.
  unfold do_read. destruct (at_ (get r w)) eqn:Ha; [|done]. intros H. obind_inv H. obind_inv H. destruct a0 as [n ass].
  simplify_eq. split; [done|]. apply splice_inv in E as (_ & _ & _ & ->). change (Z.to_nat 0) with 0%nat.
  rewrite take_0. cbn [app Nat.add]. by destruct w.
Qed.

Lemma write_result r w room r' : do_write r w room = Done r' ->
  exists offset r_cnt split bytes, at_ (get r w) = Writing offset r_cnt split /\
    let w_cnt := Z.min room (if split then r_cnt - 32 else r_cnt) in
    slice (log_data r) offset w_cnt = Done bytes /\ log_data r' = log_data r /\
    get r' w = {| at_ := if 0 <? r_cnt - w_cnt then Writing (offset + w_cnt) (r_cnt - w_cnt) false else Reading;
                  received := received (get r w); sent := sent (get r w) ++ bytes |} /\
    get r' (other w) = get r (other w).
Proof.
  unfold do_write. destruct (at_ (get r w)) as [|offset r_cnt split] eqn:Ha; [done|]. intros H. obind_inv H. simplify_eq.
  exists offset, r_cnt, split, a. by destruct w.
Qed.

Lemma slice_split {A} (l : list A) off n k a b : 0 <= k <= n ->
  slice l off n = Done a -> slice l off k = Done b -> exists c, a = b ++ c /\ slice l (off + k) (n - k) = Done c.
Proof.
  intros Hk Ha Hb. apply slice_inv in Ha as (H1 & H2 & H3 & _ & ->). apply slice_inv in Hb as (_ & _ & _ & _ & ->).
  exists (take (Z.to_nat (n - k)) (drop (Z.to_nat (off + k)) l)). split; [|apply slice_in; lia].
  rewrite <- (take_drop (Z.to_nat k) (take (Z.to_nat n) (drop (Z.to_nat off) l))) at 1.
  rewrite take_take, skipn_firstn_comm, drop_drop. f_equal; [f_equal; lia|]. f_equal; [lia|f_equal; lia].
Qed.

Lemma pending_same r r' t : log_data r' = log_data r -> pending r t -> pending r' t.
Proof. intros E. unfold pending. by rewrite E. Qed.

Lemma pending_reading r r' t : at_ t = Reading -> pending r t -> pending r' t.
Proof. intros E. unfold pending. by rewrite E. Qed.

Lemma both_threads (P : thread -> Prop) r w : P (get r w) -> P (get r (other w)) -> forall w', P (get r w').
Proof. intros H1 H2 w'. by destruct w, w'. Qed.

Lemma one_reading r w : at_ (get r (other w)) = Reading -> at_ (vlog r) = Reading \/ at_ (rthread r) = Reading.
Proof. destruct w; [by right|by left]. Qed.

Lemma split_64 cali usb n : 0 < n -> split_flag cali usb n = true -> 64 <= n.
Proof. unfold split_flag. rewrite !andb_true_iff, Z.eqb_eq. intros Hn [[H _] _]. Z.div_mod_to_equations. lia. Qed.

Lemma read_inv cali usb r w bytes r' : relay_inv r -> at_ (get r (other w)) = Reading -> 0 < zlen bytes ->
  do_read cali usb r w bytes = Done r' -> relay_inv r'.
Proof.
  intros [Hp _] Ho Hb E. apply read_result in E as (Ha & Hd & Hw & Hother).
  split; [|apply (one_reading r' w); by rewrite Hother].
  apply (both_threads (pending r') r' w); [|rewrite Hother; by apply (pending_reading r)].
  rewrite Hw. unfold pending. cbn [at_ received sent]. split.
  - destruct (split_flag cali usb (zlen bytes)) eqn:Hs; [by apply split_64 in Hs|done].
  - exists bytes. split; [rewrite Hd; by apply slice_app_l|]. specialize (Hp w). unfold pending in Hp. rewrite Ha in Hp. by rewrite Hp.
Qed.

Lemma write_inv r w room r' : relay_inv r -> 0 <= room -> do_write r w room = Done r' -> relay_inv r'.
Proof.
  intros [Hp Hone] Hroom E. apply write_result in E as (off & n & split & bytes & Ha & Hs & Hd & Hw & Hother).
  assert (Ho : at_ (get r (other w)) = Reading) by (destruct w, Hone; cbn in *; congruence).
  split; [|apply (one_reading r' w); by rewrite Hother].
  apply (both_threads (pending r') r' w); [|rewrite Hother; by apply (pending_reading r)].
  specialize (Hp w). unfold pending in Hp. rewrite Ha in Hp. destruct Hp as (Hn & rest & Hrest & Hrec).
  set (k := Z.min room (if split then n - 32 else n)) in *.
  assert (Hk : 0 <= k <= n) by (unfold k; destruct split; lia).
  destruct (slice_split _ _ _ _ _ _ Hk Hrest Hs) as (c & -> & Hc).
  rewrite Hw. unfold pending. cbn [at_ received sent]. destruct (Z.ltb_spec 0 (n - k)).
  - split; [done|]. exists c. split; [by rewrite Hd|]. by rewrite Hrec, <- app_assoc.
  - replace (n - k) with 0 in Hc by lia. apply slice_inv in Hc as (_ & _ & _ & _ & ->). by rewrite Hrec, take_0, app_nil_r.
Qed.

Lemma read_ok cali usb r w bytes : at_ (get r w) = Reading -> 0 < zlen bytes < 12 ->
  exists r', do_read cali usb r w bytes = Done r'.
Proof.
  intros Ha Hb. unfold do_read. rewrite Ha. rewrite splice_in.
  - cbn [obind]. unfold dump_mem_len_print. guard_false (zlen bytes =? 12). cbn [obind]. by eexists.
  - lia.
  - rewrite zlen_replicate, Z2Nat.id by done. unfold DATA_BUF_SIZE. lia.
Qed.

Lemma write_ok r w room off n split : at_ (get r w) = Writing off n split -> pending r (get r w) -> 0 <= room ->
  exists r', do_write r w room = Done r'.
Proof.
  intros Ha Hp Hr. unfold do_write, pending in *. rewrite Ha in *. destruct Hp as (Hn & rest & Hs & _).
  apply slice_inv in Hs as (H1 & H2 & H3 & _). rewrite slice_in; [cbn [obind]; by eexists|..]; destruct split; lia.
Qed.

Lemma start_inv : relay_inv start.
Proof. split; [by intros []|by left]. Qed.

Lemma small_read (bytes : list Z) : 0 < zlen bytes < 12 -> 0 < zlen bytes <= DATA_BUF_SIZE.
Proof. unfold DATA_BUF_SIZE. lia. Qed.

(** C23. The relays: when a thread reads only while the other has nothing left to write, then in
    every reachable state each serial port has got a prefix of what its channel sent, all of it
    when the thread reads again, whatever the port takes at each write, split or not; and a
    thread that has bytes left can always write. *)
Theorem relay_exact cali usb r : rtc (step_alone cali usb) start r ->
  forall w, exists rest, received (get r w) = sent (get r w) ++ rest /\
    match at_ (get r w) with
    | Reading => rest = []
    | Writing _ _ _ => rest <> [] /\ forall room, 0 <= room -> exists r', do_write r w room = Done r'
    end.
Proof.
  intros Hr.
  assert (Hinv : relay_inv r).
  { pose proof start_inv as H0.
    revert H0. generalize dependent start. intros x0 Hr H0.
    induction Hr as [|x y z Hs _ IH]; [done|]. apply IH. destruct Hs as [x w bytes y Ho Hb E| |];
      [refine (read_inv _ _ _ _ _ _ _ Ho _ E); [done|lia]|by eapply write_inv|done]. }
  intros w. destruct Hinv as [Hp _]. specialize (Hp w). pose proof Hp as Hp'. unfold pending in Hp.
  destruct (at_ (get r w)) as [|off n split] eqn:Ha; [exists []; by rewrite app_nil_r|].
  destruct Hp as (Hn & rest & Hs & Hrec). exists rest. split; [done|]. split.
  - intros ->. apply slice_inv in Hs as (_ & _ & _ & Hz & _). rewrite zlen_nil in Hz. destruct split; lia.
  - intros room Hroom. by eapply write_ok.
Qed.

(** Three bytes of the log channel, of which the port took one. *)
Lemma relay_exact_witness : exists r, rtc (step_alone true true) start r /\ received (get r Log) = [5; 6; 7] /\
  forall w, exists rest, received (get r w) = sent (get r w) ++ rest /\
    match at_ (get r w) with
    | Reading => rest = []
    | Writing _ _ _ => rest <> [] /\ forall room, 0 <= room -> exists r', do_write r w room = Done r'
    end.
Proof.
  assert (Hz : 0 < zlen [5; 6; 7] < 12) by (unfold zlen; cbn [length]; lia).
  destruct (read_ok true true start Log [5; 6; 7] eq_refl Hz) as [r1 E1].
  pose proof (alone_read true true start Log [5; 6; 7] r1 eq_refl (small_read _ Hz) E1) as S1.
  pose proof (read_inv true true start Log [5; 6; 7] r1 start_inv eq_refl (proj1 Hz) E1) as [P1 _].
  destruct (read_result _ _ _ _ _ _ E1) as (_ & _ & Hg1 & _).
  destruct (write_ok r1 Log 1 0 3 false) as [r2 E2]; [rewrite Hg1; reflexivity|apply P1|lia|].
  destruct (write_result _ _ _ _ E2) as (o & k & sp & bs & _ & _ & _ & Hg2 & _).
  pose proof (rtc_l _ _ _ _ S1 (rtc_once _ _ (alone_write true true r1 Log 1 r2 ltac:(lia) E2))) as R.
  exists r2. split; [exact R|]. split; [rewrite Hg2; cbn [received]; rewrite Hg1; reflexivity|].
  exact (relay_exact true true r2 R).
Defined.

(** While the log is off there is nothing to wait for: every run is such a run, so that the
    diagnostic port gets what the modem sent. *)
Lemma log_off_alone cali usb r : rtc (step cali usb false) start r -> rtc (step_alone cali usb) start r.
Proof.
  assert (H : forall x y, rtc (step cali usb false) x y -> at_ (vlog x) = Reading ->
    rtc (step_alone cali usb) x y); [|intros Hr; by apply H].
  induction 1 as [|x y z Hs _ IH]; intros Hx; [done|].
  assert (Hy : at_ (vlog y) = Reading).
  { destruct Hs as [x w bytes y Hw Hb E|x w room y Hroom E|]; [| |done].
    - destruct w; [by specialize (Hw eq_refl)|]. apply read_result in E as (_ & _ & _ & Ho).
      by change (vlog y) with (get y (other Diag)); rewrite Ho.
    - apply write_result in E as (o & n & sp & bs & Ha & _ & _ & _ & Ho). destruct w; [cbn in Ha; congruence|].
      by change (vlog y) with (get y (other Diag)); rewrite Ho. }
  eapply rtc_l; [|by apply IH]. destruct Hs as [x w bytes y Hw Hb E|x w room y Hroom E|].
  - destruct w; [by specialize (Hw eq_refl)|]. by apply (alone_read _ _ x Diag bytes).
  - by apply (alone_write _ _ x w room).
  - apply alone_again.
Qed.

(** Without that, a port can get the bytes of the other channel: the diagnostic thread read
    [1; 2], then the log thread read [3; 4] into the same array, and the diagnostic port got
    [3; 4]. *)
Lemma shared_buffer_race : exists r, rtc (step false false true) start r /\
  at_ (get r Diag) = Reading /\ received (get r Diag) = [1; 2] /\ sent (get r Diag) = [3; 4].
Proof.
  assert (Hz : 0 < zlen [1; 2] < 12) by (unfold zlen; cbn [length]; lia).
  assert (Hz' : 0 < zlen [3; 4] < 12) by (unfold zlen; cbn [length]; lia).
  destruct (read_ok false false start Diag [1; 2] eq_refl Hz) as [r1 E1].
  destruct (read_result _ _ _ _ _ _ E1) as (_ & _ & Hg1 & Ho1). change (other Diag) with Log in Ho1.
  destruct (read_ok false false r1 Log [3; 4]) as [r2 E2]; [rewrite Ho1; reflexivity|exact Hz'|].
  destruct (read_result _ _ _ _ _ _ E2) as (_ & Hd2 & _ & Ho2). change (other Log) with Diag in Ho2. rewrite Hg1 in Ho2.
  change (split_flag false false (zlen [1; 2])) with false in Ho2. change (zlen [1; 2]) with 2 in Ho2.
  assert (Hs : slice (log_data r2) 0 2 = Done [3; 4]) by (rewrite Hd2; apply slice_app_l; reflexivity).
  destruct (do_write r2 Diag 2) as [r3| |] eqn:E3; unfold do_write in E3; rewrite Ho2 in E3; cbn [at_] in E3;
    change (Z.min 2 2) with 2 in E3; rewrite Hs in E3; try discriminate E3.
  exists r3. split; [|injection E3 as <-; repeat split; reflexivity].
  refine (rtc_l _ _ _ _ (step_read _ _ true start Diag [1; 2] r1 (fun _ => eq_refl) (small_read _ Hz) E1) _).
  refine (rtc_l _ _ _ _ (step_read _ _ true r1 Log [3; 4] r2 (fun _ => eq_refl) (small_read _ Hz') E2) _).
  apply rtc_once, (step_write _ _ true r2 Diag 2); [lia|]. unfold do_write. rewrite Ho2. cbn [at_].
  change (Z.min 2 2) with 2. rewrite Hs. exact E3.
Qed.
