(* ===== verification/WcndMac.v ===== *)
(** * apps/wcnd: the files of the WiFi and Bluetooth addresses

    Before it serves anybody the connectivity daemon sees to it that the drivers find an
    address: that of the factory file when it holds one, else the one already configured, else
    a random one ([generate_wifi_mac], [generate_bt_mac] of wcnd.c).  The factory files are
    those the diagnostic tool writes (EngMac); the last theorem puts the two programs
    together. *)

From S2P Require Import Prelude CString EngFrame EngText EngMac EngDiag EngVdiag.

Definition WCND_WIFI_CONFIG_FILE_PATH : string := "/data/misc/wifi/wifimac.txt".
Definition WCND_WIFI_FACTORY_CONFIG_FILE_PATH : string := "/productinfo/wifimac.txt".
Definition WCND_BT_CONFIG_FILE_PATH : string := "/data/misc/bluedroid/btmac.txt".
Definition WCND_BT_FACTORY_CONFIG_FILE_PATH : string := "/productinfo/btmac.txt".
Definition MAC_LEN : Z := 6.

(** The files, by their paths, and the commands given to [system]. *)
Record disk : Type := { files : gmap string (list Z); chmods : list string }.

(** Which files the daemon may open for reading and for writing, and what [rand] gives after
    the seed of the moment. *)
Record mac_host : Type := { can_read : string -> bool; can_write : string -> bool; rand_nums : nat -> Z }.

Definition is_zero_ether_addr (mac : list Z) : outcome bool :=
  let* m0 := rd mac 0 in let* m1 := rd mac 1 in let* m2 := rd mac 2 in
  let* m3 := rd mac 3 in let* m4 := rd mac 4 in let* m5 := rd mac 5 in
  Done (Z.lor (Z.lor (Z.lor (Z.lor (Z.lor m0 m1) m2) m3) m4) m5 =? 0).

(** [mac[0] &= 0xFE; mac[0] |= 0x02]. *)
Definition get_random_mac (h : mac_host) : list Z :=
  let mac := (fun i => Z.land (rand_nums h i) 0xFF) <$> seq 0 6 in
  match mac with m0 :: rest => Z.lor (Z.land m0 0xFE) 0x02 :: rest | [] => [] end.

(** ** fscanf with %02x *)
Fixpoint skip_blanks (s : list Z) : list Z :=
  match s with c :: r => if isspace c then skip_blanks r else s | [] => [] end.

Definition hexval (c : Z) : option Z :=
  if (48 <=? c) && (c <=? 57) then Some (c - 48)
  else if (65 <=? c) && (c <=? 70) then Some (c - 55)
  else if (97 <=? c) && (c <=? 102) then Some (c - 87)
  else None.

(** One field of at most two characters, a sign included.  Of [0x] the zero is taken, and the
    [x] stays. *)
Definition scan_02x (s : list Z) : option (Z * list Z) :=
  match skip_blanks s with
  | [] => None
  | c :: r =>
      match hexval c with
      | Some v =>
          match r with
          | d :: r' => match hexval d with Some w => Some (16 * v + w, r') | None => Some (v, r) end
          | [] => Some (v, r)
          end
      | None =>
          if (c =? 43) || (c =? 45) then
            match r with
            | d :: r' => match hexval d with Some w => Some (u32 (if c =? 45 then - w else w), r') | None => None end
            | [] => None
            end
          else None
      end
  end.

(** [n] fields with colons between them, stored from [&mac_src[i]] on: how many were stored.
    Each store writes the four bytes of an [unsigned int], though [mac_src] holds bytes: the
    last one writes three bytes above the array, so [frame] is the array and what the compiler
    put above it. *)
Fixpoint scan_mac (n : nat) (i : Z) (s frame : list Z) : outcome (Z * list Z) :=
  match n with
  | O => Done (0, frame)
  | S n =>
      match scan_02x s with
      | None => Done (0, frame)
      | Some (v, r) =>
          let* frame := splice frame i (le_bytes 4 v) in
          match n, r with
          | S _, 58 :: r => let* (k, frame) := scan_mac n (i + 1) r frame in Done (k + 1, frame)
          | _, _ => Done (1, frame)
          end
      end
  end.

(** ** The files *)
Definition fopen_r (h : mac_host) (fs : disk) (path : string) : option (list Z) :=
  if can_read h path then files fs !! path else None.

(** [mac] is left alone when the file cannot be opened. *)
Definition read_mac_from_file (h : mac_host) (fs : disk) (path : string) (above mac : list Z) : outcome (list Z) :=
  match fopen_r h fs path with
  | None => Done mac
  | Some text =>
      let* (k, frame) := scan_mac 6 0 text (replicate 6 0 ++ above) in
      if k =? 6 then slice frame 0 MAC_LEN else Done (replicate 6 0)
  end.

(** [fopen (path, "w")], [fputs] and the [chmod 666] that follows it. *)
Definition put_file (h : mac_host) (fs : disk) (path : string) (text : list Z) : disk :=
  if can_write h path then {| files := <[path := text]> (files fs); chmods := chmods fs ++ [path] |} else fs.

Definition write_mac_to_file (h : mac_host) (fs : disk) (path : string) (mac : list Z) : disk :=
  put_file h fs path (mac_text (take 6 mac)).

Definition is_file_exists (fs : disk) (path : string) : bool := bool_decide (is_Some (files fs !! path)).

(** [fgets (buf, n + 1, f)]: up to the end of the line, with it, and at most [n] bytes. *)
Fixpoint fgets (n : nat) (text : list Z) : list Z :=
  match n, text with
  | S n, c :: text => if c =? 10 then [c] else c :: fgets n text
  | _, _ => []
  end.

(** The first line of the file, as far as a string goes.  Nothing is read from an empty file,
    and then [buf] has the values [junk] of the stack. *)
Definition force_replace_file (h : mac_host) (fs : disk) (dst src : string) (junk : list Z) : outcome disk :=
  match fopen_r h fs src with
  | None => Done fs
  | Some text =>
      let* s := cstr_at (match text with [] => junk | _ => fgets 99 text ++ [0] end) 0 in
      Done (put_file h fs dst s)
  end.

(** ** The addresses

    [fix_mac] is what is done to a random address: nothing for WiFi, [mac[0] = 0] for
    Bluetooth.  [mac] is not initialised. *)
Definition generate_mac (factory config : string) (fix_mac : list Z -> list Z) (h : mac_host) (fs : disk) (above mac junk : list Z) : outcome disk :=
  let fresh := write_mac_to_file h fs config (fix_mac (get_random_mac h)) in
  let configured mac :=
    if is_file_exists fs config then
      let* mac := read_mac_from_file h fs config above mac in
      let* zero := is_zero_ether_addr mac in
      Done (if zero then fresh else fs)
    else Done fresh in
  if is_file_exists fs factory then
    let* mac := read_mac_from_file h fs factory above mac in
    let* zero := is_zero_ether_addr mac in
    if zero then configured mac else force_replace_file h fs config factory junk
  else configured mac.

Definition generate_wifi_mac : mac_host -> disk -> list Z -> list Z -> list Z -> outcome disk :=
  generate_mac WCND_WIFI_FACTORY_CONFIG_FILE_PATH WCND_WIFI_CONFIG_FILE_PATH id.

Definition clear_first (mac : list Z) : list Z := match mac with _ :: rest => 0 :: rest | [] => [] end.
Definition generate_bt_mac : mac_host -> disk -> list Z -> list Z -> list Z -> outcome disk :=
  generate_mac WCND_BT_FACTORY_CONFIG_FILE_PATH WCND_BT_CONFIG_FILE_PATH clear_first.

(** ** What a text says

    The fields of an address, without the memory they are stored in. *)
Fixpoint fields (n : nat) (s : list Z) : option (list Z) :=
  match n with
  | O => Some []
  | S n =>
      match scan_02x s with
      | None => None
      | Some (v, r) =>
          match n, r with
          | O, _ => Some [u8 v]
          | S _, 58 :: r => cons (u8 v) <$> fields n r
          | S _, _ => None
          end
      end
  end.

(** The address of a text, if there is one other than zero. *)
Definition mac_of (text : list Z) : option (list Z) :=
  match fields 6 text with
  | Some m => if decide (m = replicate 6 0) then None else Some m
  | None => None
  end.

Definition configured (fs : disk) (path : string) : option (list Z) := files fs !! path ≫= mac_of.

Lemma u8_mod v : u8 v = v mod 256.
Proof. done. Qed.

Lemma scan_mac_ok n : forall i s frame vs, fields n s = Some vs -> 0 <= i -> zlen frame = i + Z.of_nat n + 3 ->
  exists frame', scan_mac n i s frame = Done (Z.of_nat n, frame') /\ zlen frame' = zlen frame /\
    take (Z.to_nat i + n) frame' = take (Z.to_nat i) frame ++ vs.
Proof.
  induction n as [|n IH]; intros i s frame vs Hf Hi Hl.
  { injection Hf as <-. exists frame. rewrite Nat.add_0_r, app_nil_r. done. }
  cbn [fields] in Hf. cbn [scan_mac]. destruct (scan_02x s) as [[v r]|]; [|done].
  rewrite splice_in by (rewrite ?zlen_le_bytes; lia). cbn [obind].
  set (f1 := take (Z.to_nat i) frame ++ le_bytes 4 v ++ drop (Z.to_nat i + length (le_bytes 4 v)) frame).
  assert (Hl1 : zlen f1 = zlen frame).
  { unfold f1, zlen in *. rewrite !length_app, length_take, length_drop, length_le_bytes. lia. }
  assert (Ht : take (Z.to_nat i + 1) f1 = take (Z.to_nat i) frame ++ [u8 v]).
  { unfold f1. assert (length (take (Z.to_nat i) frame) = Z.to_nat i) by (unfold zlen in *; rewrite length_take; lia).
    rewrite take_app, H, take_take, (Nat.add_comm _ 1), Nat.add_sub, Nat.min_r by lia. by rewrite u8_mod. }
  destruct n as [|n].
  { injection Hf as <-. exists f1. split; [done|]. split; [done|]. exact Ht. }
  destruct r as [|c r]; [done|]. destruct (decide (c = 58)) as [->|Hc].
  2: { exfalso. clear -Hf Hc. repeat (case_match; try done; try lia). }
  destruct (fields (S n) r) as [vs'|] eqn:Hf'; [|done]. injection Hf as <-.
  destruct (IH (i + 1) r f1 vs' Hf') as (f2 & E & Hl2 & Ht2); [lia|lia|].
  rewrite E. cbn [obind]. exists f2. split; [f_equal; f_equal; lia|]. split; [congruence|].
  replace (Z.to_nat i + S (S n))%nat with (Z.to_nat (i + 1) + S n)%nat by lia. rewrite Ht2.
  replace (Z.to_nat (i + 1)) with (Z.to_nat i + 1)%nat by lia. rewrite Ht, <- app_assoc. done.
Qed.

Lemma scan_mac_short n : forall i s frame, fields n s = None -> 0 <= i -> zlen frame = i + Z.of_nat n + 3 ->
  exists k frame', scan_mac n i s frame = Done (k, frame') /\ k < Z.of_nat n.
Proof.
  induction n as [|n IH]; intros i s frame Hf Hi Hl; [done|].
  cbn [fields] in Hf. cbn [scan_mac]. destruct (scan_02x s) as [[v r]|]; [|exists 0, frame; split; [done|lia]].
  rewrite splice_in by (rewrite ?zlen_le_bytes; lia). cbn [obind].
  destruct n as [|n]; [done|]. destruct r as [|c r]; [exists 1; eexists; split; [done|lia]|].
  destruct (decide (c = 58)) as [->|Hc].
  2: { exists 1. eexists. split; [|lia]. clear -Hc. repeat (case_match; try done; try lia). }
  destruct (fields (S n) r) as [vs'|] eqn:Hf'; [done|].
  destruct (IH (i + 1) r (take (Z.to_nat i) frame ++ le_bytes 4 v ++ drop (Z.to_nat i + length (le_bytes 4 v)) frame) Hf')
    as (k & f2 & E & Hk); [lia| |].
  { unfold zlen in *. rewrite !length_app, length_take, length_drop, length_le_bytes. lia. }
  rewrite E. cbn [obind]. exists (k + 1), f2. split; [done|lia].
Qed.

Lemma length_fields n : forall s vs, fields n s = Some vs -> length vs = n.
Proof.
  induction n as [|n IH]; intros s vs H; [by injection H as <-|]. cbn [fields] in H.
  destruct (scan_02x s) as [[v r]|]; [|done]. destruct n as [|n]; [by injection H as <-|].
  repeat (case_match; try done). apply fmap_Some in H as (vs' & H & ->). cbn [length]. f_equal. by eapply IH.
Qed.

Lemma read_mac_exact h fs path above mac text : fopen_r h fs path = Some text -> zlen above = 3 ->
  read_mac_from_file h fs path above mac = Done (default (replicate 6 0) (fields 6 text)).
Proof.
  intros Ho Ha. unfold read_mac_from_file. rewrite Ho.
  assert (Hl : zlen (replicate 6 0 ++ above) = 9) by (rewrite zlen_app, zlen_replicate; lia).
  destruct (fields 6 text) as [vs|] eqn:Hf.
  - destruct (scan_mac_ok 6 0 text _ vs Hf ltac:(lia) Hl) as (f & E & Hlf & Ht). rewrite E. cbn [obind].
    change (Z.of_nat 6 =? 6) with true. cbn iota. rewrite slice_in by (unfold MAC_LEN; lia).
    change (Z.to_nat 0 + 6)%nat with (Z.to_nat MAC_LEN) in Ht. cbn [default from_option]. by rewrite drop_0, Ht.
  - destruct (scan_mac_short 6 0 text _ Hf ltac:(lia) Hl) as (k & f & E & Hk). rewrite E. cbn [obind].
    by guard_false (k =? 6).
Qed.

Lemma is_zero_exact mac : length mac = 6%nat -> is_zero_ether_addr mac = Done (bool_decide (mac = replicate 6 0)).
Proof.
  intros H. do 6 (destruct mac as [|? mac]; [done|]). destruct mac; [|done].
  change (is_zero_ether_addr _) with (Done (Z.lor (Z.lor (Z.lor (Z.lor (Z.lor z z0) z1) z2) z3) z4 =? 0)). f_equal.
  apply eq_true_iff_eq. rewrite Z.eqb_eq, bool_decide_eq_true, !Z.lor_eq_0_iff. split; [by intros [[[[[-> ->] ->] ->] ->] ->]|].
  intros [=]. tauto.
Qed.

(** The test after a file was read: whether its text has an address. *)
Lemma read_tested h fs path above mac text : fopen_r h fs path = Some text -> zlen above = 3 ->
  exists m, read_mac_from_file h fs path above mac = Done m /\ is_zero_ether_addr m = Done (bool_decide (mac_of text = None)).
Proof.
  intros Ho Ha. rewrite (read_mac_exact _ _ _ _ _ _ Ho Ha). eexists. split; [done|]. unfold mac_of.
  destruct (fields 6 text) as [vs|] eqn:Hf; cbn [default from_option]; [|done].
  rewrite is_zero_exact by (by eapply length_fields).
  destruct (decide (vs = replicate 6 0)) as [->|Hn]; [done|]. by rewrite bool_decide_false.
Qed.

(** ** What the configuration file holds afterwards *)

(** The part of the factory file that is copied. *)
Definition line_of (text : list Z) : list Z := default [] (cstr (fgets 99 text ++ [0])).

Section generate.
  Context (factory config : string) (fix_mac : list Z -> list Z) (h : mac_host) (above mac junk : list Z).
  Context (Hread : forall p, can_read h p = true) (Hwrite : can_write h config = true) (Habove : zlen above = 3).

Lemma fopen_all fs p : fopen_r h fs p = files fs !! p.
Proof. unfold fopen_r. by rewrite Hread. Qed.

Lemma put_config fs text : files (put_file h fs config text) = <[config := text]> (files fs).
Proof. unfold put_file. by rewrite Hwrite. Qed.

Lemma generate_cases fs :
  exists fs', generate_mac factory config fix_mac h fs above mac junk = Done fs' /\
  match configured fs factory, configured fs config with
  | Some _, _ => files fs' = <[config := line_of (default [] (files fs !! factory))]> (files fs)
  | None, Some _ => fs' = fs
  | None, None => files fs' = <[config := mac_text (take 6 (fix_mac (get_random_mac h)))]> (files fs)
  end.
Proof.
  assert (Hconf : forall mac, exists fs',
    (if is_file_exists fs config then
       let* mac := read_mac_from_file h fs config above mac in let* zero := is_zero_ether_addr mac in
       Done (if zero then write_mac_to_file h fs config (fix_mac (get_random_mac h)) else fs)
     else Done (write_mac_to_file h fs config (fix_mac (get_random_mac h)))) = Done fs' /\
    match configured fs config with
    | Some _ => fs' = fs
    | None => files fs' = <[config := mac_text (take 6 (fix_mac (get_random_mac h)))]> (files fs)
    end).
  { intros mac'. unfold is_file_exists, configured. destruct (files fs !! config) as [text|] eqn:Ec; cbn [mbind option_bind].
    - rewrite bool_decide_true by done.
      destruct (read_tested h fs config above mac' text ltac:(by rewrite fopen_all) Habove) as (m & -> & Hz).
      cbn [obind]. rewrite Hz. eexists. split; [done|]. destruct (mac_of text); [by rewrite bool_decide_false|].
      rewrite bool_decide_true by done. apply put_config.
    - rewrite bool_decide_false by (by intros [? ?]). eexists. split; [done|]. apply put_config. }
  unfold generate_mac. unfold configured at 1.
  destruct (files fs !! factory) as [text|] eqn:Ef; cbn [mbind option_bind].
  - assert (is_file_exists fs factory = true) as -> by (unfold is_file_exists; rewrite Ef; by apply bool_decide_true).
    destruct (read_tested h fs factory above mac text ltac:(by rewrite fopen_all) Habove) as (m & -> & Hz).
    cbn [obind]. rewrite Hz. cbn [obind]. destruct (mac_of text) eqn:Em.
    + rewrite bool_decide_false by done. unfold force_replace_file. rewrite fopen_all, Ef.
      destruct text as [|c text]; [done|]. unfold cstr_at. change (Z.to_nat 0) with 0%nat. rewrite drop_0. cbn [Z.leb Z.compare].
      destruct (cstr_with_end (fgets 99 (c :: text)) []) as [s Hs]. rewrite Hs. cbn [obind]. eexists. split; [done|].
      rewrite put_config.
      assert (line_of (c :: text) = s) as Hline by (unfold line_of; by rewrite Hs).
      by rewrite <- Hline.
    + rewrite bool_decide_true by done. apply Hconf.
  - assert (is_file_exists fs factory = false) as ->; [|apply Hconf].
    unfold is_file_exists. rewrite Ef. apply bool_decide_false. by intros [? ?].
Qed.
End generate.

(** ** The text of an address *)
Lemma scan_hex2 b r : byte_ok b -> scan_02x (hex2 b ++ r) = Some (b, r).
Proof.
  intros Hb. pose proof (byte_sweep (fun b => negb (isspace (lhex (b / 16))) &&
    match hexval (lhex (b / 16)), hexval (lhex (b mod 16)) with Some v, Some w => 16 * v + w =? b | _, _ => false end) b
    ltac:(by vm_compute) Hb) as H. cbv beta in H. unfold hex2, scan_02x. cbn [app skip_blanks].
  destruct (isspace (lhex (b / 16))); [done|]. cbn [negb andb] in H.
  destruct (hexval (lhex (b / 16))); [|done]. destruct (hexval (lhex (b mod 16))); [|done]. by apply Z.eqb_eq in H as ->.
Qed.

Lemma mac_text_cons b b' bs : mac_text (b :: b' :: bs) = hex2 b ++ 58 :: mac_text (b' :: bs).
Proof. done. Qed.

Lemma fields_step n b r : byte_ok b -> fields (S (S n)) (hex2 b ++ 58 :: r) = cons b <$> fields (S n) r.
Proof. intros Hb. cbn [fields]. rewrite scan_hex2 by done. by rewrite u8_small. Qed.

Lemma fields_mac_text bs : forall r, bs <> [] -> Forall byte_ok bs -> fields (length bs) (mac_text bs ++ r) = Some bs.
Proof.
  induction bs as [|b bs IH]; intros r Hn Hb; [done|]. apply Forall_cons in Hb as [Hb Hbs]. destruct bs as [|b' bs].
  { cbn [length fields mac_text]. rewrite scan_hex2 by done. by rewrite u8_small. }
  rewrite mac_text_cons, <- app_assoc. cbn [length app]. rewrite fields_step by done.
  change (S (length bs)) with (length (b' :: bs)). by rewrite IH.
Qed.

Lemma mac_of_text m r : length m = 6%nat -> Forall byte_ok m -> m <> replicate 6 0 -> mac_of (mac_text m ++ r) = Some m.
Proof.
  intros Hl Hb Hn. unfold mac_of. rewrite <- Hl at 1. rewrite fields_mac_text by (done || by destruct m). by rewrite decide_False.
Qed.

Lemma mac_of_text_only m : length m = 6%nat -> Forall byte_ok m -> m <> replicate 6 0 -> mac_of (mac_text m) = Some m.
Proof. rewrite <- (app_nil_r (mac_text m)). apply mac_of_text. Qed.

(** The whole text of an address is copied. *)
Lemma line_of_text m : length m = 6%nat -> Forall byte_ok m -> line_of (mac_text m) = mac_text m.
Proof.
  intros Hl Hb. unfold line_of.
  assert (Hc : Forall (fun c => c <> 0 /\ c <> 10) (mac_text m)).
  { clear Hl. induction Hb as [|b bs Hb Hbs IH]; [done|].
    assert (Hh : Forall (fun c => c <> 0 /\ c <> 10) (hex2 b)).
    { unfold hex2, lhex. destruct Hb. repeat constructor; case_match; btrue; Z.div_mod_to_equations; lia. }
    destruct bs as [|b' bs]; [done|]. rewrite mac_text_cons. apply Forall_app. split; [done|]. by constructor. }
  assert (Hlen : (length (mac_text m) <= 99)%nat).
  { do 6 (destruct m as [|? m]; [done|]). destruct m; [|done]. cbn. lia. }
  assert (Hg : forall n t, (length t <= n)%nat -> Forall (fun c => c <> 0 /\ c <> 10) t -> fgets n t = t).
  { induction n as [|n IH]; intros t Ht Hf; destruct t as [|c t]; cbn in *; try done; [lia|].
    apply Forall_cons in Hf as [[_ Hf] Hf']. apply Z.eqb_neq in Hf as ->. f_equal. apply IH; [lia|done]. }
  rewrite Hg by done. rewrite cstr_app; [done|]. eapply Forall_impl; [exact Hc|]. by intros ? [].
Qed.

Lemma random_mac_ok h : length (get_random_mac h) = 6%nat /\ Forall byte_ok (get_random_mac h) /\
  (forall m0 rest, get_random_mac h = m0 :: rest -> Z.testbit m0 0 = false /\ Z.testbit m0 1 = true).
Proof.
  assert (Hb : forall i, byte_ok (Z.land (rand_nums h i) 255)).
  { intros i. rewrite land_ff. unfold byte_ok. apply Z.mod_pos_bound. lia. }
  assert (H0 : forall x, byte_ok x -> byte_ok (Z.lor (Z.land x 254) 2) /\
    Z.testbit (Z.lor (Z.land x 254) 2) 0 = false /\ Z.testbit (Z.lor (Z.land x 254) 2) 1 = true).
  { intros x Hx. pose proof (byte_sweep (fun x => (0 <=? Z.lor (Z.land x 254) 2) && (Z.lor (Z.land x 254) 2 <? 256) &&
      negb (Z.testbit (Z.lor (Z.land x 254) 2) 0) && Z.testbit (Z.lor (Z.land x 254) 2) 1) x ltac:(by vm_compute) Hx) as H.
    cbv beta in H. rewrite !andb_true_iff, negb_true_iff, Z.leb_le, Z.ltb_lt in H. unfold byte_ok. tauto. }
  unfold get_random_mac. cbn [seq fmap list_fmap]. split; [done|]. split.
  - constructor; [by apply H0|]. repeat constructor; apply Hb.
  - intros m0 rest [= <- _]. by apply H0.
Qed.

(** After the start of the daemon the WiFi driver finds an address, and which: that of the
    factory file when it has one, on its first line; else the one that was configured, and the
    files are as they were; else a random one, of a single station and locally administered. *)
Theorem wifi_address_configured h fs above mac junk :
  let factory := WCND_WIFI_FACTORY_CONFIG_FILE_PATH in
  let config := WCND_WIFI_CONFIG_FILE_PATH in
  (forall p, can_read h p = true) -> can_write h config = true -> zlen above = 3 ->
  (forall text m, files fs !! factory = Some text -> mac_of text = Some m -> mac_of (line_of text) = Some m) ->
  exists fs' m, generate_wifi_mac h fs above mac junk = Done fs' /\ configured fs' config = Some m /\
    (forall p, p <> config -> files fs' !! p = files fs !! p) /\
    match configured fs factory, configured fs config with
    | Some f, _ => m = f
    | None, Some c => m = c /\ fs' = fs
    | None, None => exists m0 rest, m = m0 :: rest /\ Z.testbit m0 0 = false /\ Z.testbit m0 1 = true
    end.
Proof.
  intros factory config Hr Hw Ha Hline.
  destruct (generate_cases factory config id h above mac junk Hr Hw Ha fs) as (fs' & E & Hcase).
  assert (Hother : forall p text, files fs' = <[config := text]> (files fs) -> p <> config -> files fs' !! p = files fs !! p).
  { intros p text Hf Hp. by rewrite Hf, lookup_insert_ne. }
  unfold generate_wifi_mac. destruct (configured fs factory) as [f|] eqn:Ef.
  - exists fs', f. split; [done|]. split; [|split; [eauto|done]].
    unfold configured in *. rewrite Hcase, lookup_insert_eq. cbn [mbind option_bind].
    destruct (files fs !! factory) as [text|] eqn:Et; [|done]. cbn [default from_option mbind option_bind] in *. by apply Hline.
  - destruct (configured fs config) as [c|] eqn:Ec.
    + subst fs'. exists fs, c. done.
    + destruct (random_mac_ok h) as (Hl & Hb & Hbits). exists fs', (get_random_mac h).
      split; [done|]. split; [|split; [eauto|]].
      * unfold configured. rewrite Hcase, lookup_insert_eq. cbn [mbind option_bind id].
        rewrite firstn_all2 by lia. apply mac_of_text_only; [done..|].
        intros H. destruct (Hbits 0 (replicate 5 0) H) as [_ H1]. done.
      * destruct (get_random_mac h) as [|m0 rest]; [done|]. exists m0, rest. split; [done|]. by apply (Hbits m0 rest).
Qed.

(** The two calls at the start of [main]; [rand] is seeded anew for each. *)
Definition generate_macs (hw hb : mac_host) (fs : disk) (above mac junk : list Z) : outcome disk :=
  let* fs := generate_wifi_mac hw fs above mac junk in
  generate_bt_mac hb fs above mac junk.

(** A factory file with the text of an address is copied. *)
Lemma factory_copied factory config fix_mac h above mac junk fs m :
  (forall p, can_read h p = true) -> can_write h config = true -> zlen above = 3 ->
  length m = 6%nat -> Forall byte_ok m -> m <> replicate 6 0 -> files fs !! factory = Some (mac_text m) ->
  exists fs', generate_mac factory config fix_mac h fs above mac junk = Done fs' /\ files fs' = <[config := mac_text m]> (files fs).
Proof.
  intros Hr Hw Ha Hl Hb Hn Hf.
  destruct (generate_cases factory config fix_mac h above mac junk Hr Hw Ha fs) as (fs' & E & Hcase). exists fs'. split; [done|].
  unfold configured in Hcase. rewrite Hf in Hcase. cbn [mbind option_bind from_option id] in Hcase.
  rewrite mac_of_text_only in Hcase by done. by rewrite Hcase, line_of_text.
Qed.

(** C11. From the tool to the drivers: when a frame that stores the addresses arrives over the
    serial port, in any pieces, and the daemon is started afterwards, the files of the drivers
    hold these addresses. *)
Theorem stored_addresses_used {W} modes e
    (user_cmd : DIAG_CMD_TYPE -> diag W -> list Z -> Z -> list Z -> outcome (diag W * list Z * list Z * Z))
    sprdver (v : vdiag (diag W)) seq imei bt gps wifi tail ps n answers hw hb above mac junk :
  files_work e -> zlen seq = 4 ->
  zlen imei = 16 -> zlen bt = 6 -> zlen gps = 44 -> zlen wifi = 6 -> zlen tail = 34 ->
  Forall byte_ok bt -> Forall byte_ok wifi -> bt <> replicate 6 0 -> wifi <> replicate 6 0 -> holding [] v ->
  s_cp_ap_proc (diag_state v) = false -> pc_answers (diag_state v) = WOk n :: answers ->
  zlen (translate (btwifi_ack seq 1)) <= n -> Forall piece_ok ps ->
  concat ps = translate (btwifi_msg seq 0x44 (imei ++ bt ++ gps ++ wifi ++ tail)) ->
  (forall p, can_read hw p = true /\ can_read hb p = true) ->
  can_write hw WCND_WIFI_CONFIG_FILE_PATH = true -> can_write hb WCND_BT_CONFIG_FILE_PATH = true -> zlen above = 3 ->
  exists v', vdiag_reads (H := eng_diag_handler modes e user_cmd sprdver) v ps = Done (Some v') /\
    forall fs, files fs !! WCND_WIFI_FACTORY_CONFIG_FILE_PATH = wifi_file (addresses (diag_state v')) ->
      files fs !! WCND_BT_FACTORY_CONFIG_FILE_PATH = bt_file (addresses (diag_state v')) ->
      exists fs', generate_macs hw hb fs above mac junk = Done fs' /\
        configured fs' WCND_WIFI_CONFIG_FILE_PATH = Some wifi /\ configured fs' WCND_BT_CONFIG_FILE_PATH = Some (rev bt).
Proof.
  intros Hfiles Hs Hi Hb Hg Hw Ht Okb Okw Nb Nw Hh Hcp Ha Hn Hp Hc Hr Ww Wb Hab.
  set (direct := imei ++ bt ++ gps ++ wifi ++ tail) in *.
  assert (Hd : zlen direct = 106) by (unfold direct; rewrite !zlen_app; lia).
  set (msg := btwifi_msg seq 0x44 direct) in *.
  destruct (ext_of_frame (translate msg)) as [r1 X1].
  { pose proof (zlen_framed msg). unfold DATA_EXT_DIAG_SIZE. assert (zlen msg = 116); [|lia].
    unfold msg, btwifi_msg. rewrite !zlen_app, Hs, Hd, !zlen_le_bytes. done. }
  destruct (write_frame modes e Hfiles user_cmd sprdver (diag_state v) seq imei bt gps wifi tail 0 r1 n answers)
    as (d' & b' & E & [Sb Sw] & _); try done. fold direct msg in E.
  assert (Hcap : (length (modem_written v) <= capacity v)%nat) by (unfold capacity; lia).
  assert (Hdel : deliver (H := eng_diag_handler modes e user_cmd sprdver) (diag_state v) (modem_written v)
    [Frame (flat_map escape msg) ps] = Done (d', modem_written v)).
  { cbn [deliver dh_diag eng_diag_handler]. change (frame_of (flat_map escape ?m)) with (translate m). by rewrite X1, E. }
  epose proof (rounds_deliver (H := eng_diag_handler modes e user_cmd sprdver) _ v d' (modem_written v) _ Hh Hcap Hdel)
    as (v' & Er & _ & Hs1 & _).
  Unshelve. 2: { constructor; [|constructor]. by apply address_item. }
  cbn [fmap list_fmap pieces_of concat] in Er. rewrite app_nil_r in Er. exists v'. split; [done|]. rewrite Hs1, Sb, Sw.
  intros fs Fw Fb. unfold generate_macs, generate_wifi_mac, generate_bt_mac.
  assert (length wifi = 6%nat /\ length (rev bt) = 6%nat) as [Lw Lb] by (rewrite length_rev; unfold zlen in *; lia).
  destruct (factory_copied WCND_WIFI_FACTORY_CONFIG_FILE_PATH WCND_WIFI_CONFIG_FILE_PATH id hw above mac junk fs wifi)
    as (fs1 & E1 & F1); try done; [by intros p; apply Hr|].
  rewrite E1. cbn [obind].
  destruct (factory_copied WCND_BT_FACTORY_CONFIG_FILE_PATH WCND_BT_CONFIG_FILE_PATH clear_first hb above mac junk fs1 (rev bt))
    as (fs2 & E2 & F2); try done.
  1: by intros p; apply Hr. 1: by apply Forall_rev.
  1: by intros H; apply Nb; rewrite <- (rev_involutive bt), H. 1: by rewrite F1, lookup_insert_ne.
  exists fs2. split; [done|]. unfold configured. rewrite F2, lookup_insert_eq, lookup_insert_ne, F1, lookup_insert_eq by done.
  cbn [mbind option_bind]. rewrite !mac_of_text_only; try done; [by apply Forall_rev|]. by intros H; apply Nb; rewrite <- (rev_involutive bt), H.
Qed.

(** ** Where the copy loses the address *)

(** Only the first line is copied, while [fscanf] looks past blank lines: the address of a
    factory file that starts with one is found valid and does not reach the driver. *)
Lemma blank_line_loses_address h fs above mac junk m :
  (forall p, can_read h p = true) -> can_write h WCND_WIFI_CONFIG_FILE_PATH = true -> zlen above = 3 ->
  length m = 6%nat -> Forall byte_ok m -> m <> replicate 6 0 ->
  files fs !! WCND_WIFI_FACTORY_CONFIG_FILE_PATH = Some (10 :: mac_text m) ->
  configured fs WCND_WIFI_FACTORY_CONFIG_FILE_PATH = Some m /\
  exists fs', generate_wifi_mac h fs above mac junk = Done fs' /\ configured fs' WCND_WIFI_CONFIG_FILE_PATH = None.
Proof.
  intros Hr Hw Ha Hl Hb Hn Hf.
  assert (Hm : configured fs WCND_WIFI_FACTORY_CONFIG_FILE_PATH = Some m).
  { unfold configured. rewrite Hf. cbn [mbind option_bind]. rewrite <- mac_of_text_only by done.
    unfold mac_of. by replace (fields 6 (10 :: mac_text m)) with (fields 6 (mac_text m)). }
  split; [done|]. destruct (generate_cases WCND_WIFI_FACTORY_CONFIG_FILE_PATH WCND_WIFI_CONFIG_FILE_PATH id h above mac junk Hr Hw Ha fs)
    as (fs' & E & Hcase). exists fs'. split; [done|]. rewrite Hm, Hf in Hcase. unfold configured. by rewrite Hcase, lookup_insert_eq.
Qed.

(** ** Concrete values *)
Definition example_host : mac_host :=
  {| can_read := fun _ => true; can_write := fun _ => true; rand_nums := fun i => Z.of_nat (i * 300 + 77) |}.

(** The last field is stored in the array and in the three bytes above it. *)
Example stores_above_array : scan_mac 6 0 (mac_text [1; 2; 3; 4; 5; 6]) (replicate 6 0 ++ [7; 8; 9]) =
  Done (6, [1; 2; 3; 4; 5; 6; 0; 0; 0]).
Proof. by vm_compute. Qed.

Lemma wifi_address_configured_witness :
  exists fs' m, generate_wifi_mac example_host {| files := {[WCND_WIFI_FACTORY_CONFIG_FILE_PATH := mac_text [2; 0; 0; 0; 0; 9]]}; chmods := [] |}
      [1; 2; 3] [] [] = Done fs' /\ configured fs' WCND_WIFI_CONFIG_FILE_PATH = Some m /\ m = [2; 0; 0; 0; 0; 9].
Proof.
  destruct (wifi_address_configured example_host
    {| files := {[WCND_WIFI_FACTORY_CONFIG_FILE_PATH := mac_text [2; 0; 0; 0; 0; 9]]}; chmods := [] |} [1; 2; 3] [] [])
    as (fs' & m & E & Hm & _ & Hf); try done.
  - intros text m [= <-] Hm. exact Hm.
  - exists fs', m. split; [exact E|]. split; [exact Hm|exact Hf].
Defined.

Lemma stored_addresses_used_witness :
  exists v', vdiag_reads (H := eng_diag_handler 0 example_env no_user_cmd []) (idle_vdiag [WOk 512]) (in_two (translate write_msg)) = Done (Some v') /\
    forall fs, files fs !! WCND_WIFI_FACTORY_CONFIG_FILE_PATH = wifi_file (addresses (diag_state v')) ->
      files fs !! WCND_BT_FACTORY_CONFIG_FILE_PATH = bt_file (addresses (diag_state v')) ->
      exists fs', generate_macs example_host example_host fs [1; 2; 3] [] [] = Done fs' /\
        configured fs' WCND_WIFI_CONFIG_FILE_PATH = Some [0x7D; 0x7E; 10; 11; 12; 13] /\
        configured fs' WCND_BT_CONFIG_FILE_PATH = Some [6; 5; 4; 3; 2; 0x7E].
Proof.
  destruct (in_two_ok (translate write_msg)) as [O1 C1]; [vm_compute; lia|].
  apply (stored_addresses_used 0 example_env no_user_cmd [] (idle_vdiag [WOk 512]) [1; 0; 0; 0]
    (replicate 16 0x7D) [0x7E; 2; 3; 4; 5; 6] (replicate 44 9) [0x7D; 0x7E; 10; 11; 12; 13] (replicate 34 0x7E)
    (in_two (translate write_msg)) 512 [] example_host example_host [1; 2; 3] [] []);
    try exact C1; try exact O1; try apply idle_holding; try reflexivity.
  1: by repeat split.
  1,2: repeat constructor; by vm_compute.
  1,2: done.
  1: by vm_compute.
  intros p. split; reflexivity.
Defined.
