(* ===== verification/WcndManager.v ===== *)
(** * apps/wcnd: the manager of the connectivity processor

    wcnd.c keeps the clients that want to know about CP2, the processor of WiFi, Bluetooth and
    FM, and resets it when a client asks for it.  This file models the manager with its
    clients, the notifications, the reset with the download of the image, the test whether CP2
    is alive, and what is done when CP2 fails; WcndCommand models the commands of the clients,
    WcndThreads the threads.

    What the rest of the phone answers is a [host]: functions of the number of calls made so
    far, so that a theorem about every host is one about every behaviour of the kernel, of CP2
    and of the clients.  What the daemon does is the list of its [event]s.  A call that the
    code repeats while it is interrupted by a signal counts once. *)

From S2P Require Import Prelude CString EngText.

Definition WCN_LOOP_IFACE : string := "/dev/spipe_wcn0".
Definition WCN_ASSERT_IFACE : string := "/dev/spipe_wcn2".
Definition WCN_STOP_IFACE : string := "/proc/cpwcn/stop".
Definition WCN_START_IFACE : string := "/proc/cpwcn/start".
Definition WCN_DOWNLOAD_IFACE : string := "/proc/cpwcn/modem".
Definition WCN_WATCHDOG_IFACE : string := "/proc/cpwcn/wdtirq".
Definition WCN_ATCMD_IFACE : string := "/dev/spipe_wcn5".
Definition PARTITION_PATH_PROP_KEY : string := "ro.product.partitionpath".
Definition WCND_MODEM_ENABLE_PROP_KEY : string := "ro.modem.wcn.enable".
Definition WCND_RESET_PROP_KEY : string := "persist.sys.sprd.wcnreset".
Definition WCND_SLOG_ENABLE_PROP_KEY : string := "persist.sys.sprd.wcnlog".
Definition WCND_SLOG_RESULT_PROP_KEY : string := "persist.sys.sprd.wcnlog.result".
Definition WCND_ENGCTRL_PROP_KEY : string := "persist.sys.engpc.disable".
Definition WCN_IMAGE_NAME : string := "wcnmodem".
Definition WCN_IMAGE_SIZE : Z := 10 * 1024 * 1024.
Definition WCND_CP2_EXCEPTION_STRING : list Z := bytes_of "WCN-CP2-EXCEPTION".
Definition WCND_CP2_RESET_START_STRING : list Z := bytes_of "WCN-CP2-RESET-START".
Definition WCND_CP2_RESET_END_STRING : list Z := bytes_of "WCN-CP2-RESET-END".
Definition WCND_CP2_ALIVE_STRING : list Z := bytes_of "WCN-CP2-ALIVE".
Definition WCND_MAX_CLIENT_NUM : nat := 10.
Definition WCND_MAX_CMD_EXECUTER_NUM : nat := 10.
Definition LOOP_TEST_CHAR : list Z := bytes_of "hi".
Definition RDWR_FD_FAIL : Z := -2.
Definition GENERIC_FAIL : Z := -1.

(** The two executers of the program. *)
Inductive WcnCmdExecuter : Type := wcn_cmdexecuter | wcn_eng_cmdexecuter.
#[global] Instance WcnCmdExecuter_eq_dec : EqDecision WcnCmdExecuter.
Proof. solve_decision. Defined.

(** The names of the devices are constants, set once by [init]; a lock is held where the code
    holds it, which WcndThreads makes explicit. *)
Record WcndManager : Type := {
  inited : bool;
  client_fds : list Z;
  listen_fd : Z;
  wcn_image_file_size : Z;
  notify_count : Z;
  cmdexecuter_list : list (option WcnCmdExecuter);
  doing_reset : bool;
  is_cp2_error : bool
}.

Definition set_client_fds (m : WcndManager) (fds : list Z) : WcndManager :=
  {| inited := inited m; client_fds := fds; listen_fd := listen_fd m; wcn_image_file_size := wcn_image_file_size m;
     notify_count := notify_count m; cmdexecuter_list := cmdexecuter_list m; doing_reset := doing_reset m; is_cp2_error := is_cp2_error m |}.
Definition set_notify_count (m : WcndManager) (n : Z) : WcndManager :=
  {| inited := inited m; client_fds := client_fds m; listen_fd := listen_fd m; wcn_image_file_size := wcn_image_file_size m;
     notify_count := n; cmdexecuter_list := cmdexecuter_list m; doing_reset := doing_reset m; is_cp2_error := is_cp2_error m |}.
Definition set_doing_reset (m : WcndManager) (b : bool) : WcndManager :=
  {| inited := inited m; client_fds := client_fds m; listen_fd := listen_fd m; wcn_image_file_size := wcn_image_file_size m;
     notify_count := notify_count m; cmdexecuter_list := cmdexecuter_list m; doing_reset := b; is_cp2_error := is_cp2_error m |}.
Definition set_cp2_error (m : WcndManager) (b : bool) : WcndManager :=
  {| inited := inited m; client_fds := client_fds m; listen_fd := listen_fd m; wcn_image_file_size := wcn_image_file_size m;
     notify_count := notify_count m; cmdexecuter_list := cmdexecuter_list m; doing_reset := doing_reset m; is_cp2_error := b |}.
Definition set_executers (m : WcndManager) (l : list (option WcnCmdExecuter)) : WcndManager :=
  {| inited := inited m; client_fds := client_fds m; listen_fd := listen_fd m; wcn_image_file_size := wcn_image_file_size m;
     notify_count := notify_count m; cmdexecuter_list := l; doing_reset := doing_reset m; is_cp2_error := is_cp2_error m |}.

(** ** The host *)
Inductive event : Type :=
| ESend (fd : Z) (data : list Z) (ret : Z)
| EClose (fd : Z)
| EDev (path : string) (data : list Z)
| ESet (key value : string)
| ESleep (ms : Z).

(** What the [n]-th call finds: whether a device opens, what [write] and [read] return on a
    device (a negative number, or [None], for an error), what [select] returns and whether it
    set the descriptor, how many bytes of a file one [read] gives (at least one before its end;
    negative for an error), what [write] and [read] return on the socket of a client, what
    [accept] returns, which sockets a [select] over all of them finds ready, and what other
    programs did to the properties.  [image] is the file of the image for its path. *)
Record host : Type := {
  h_open : nat -> string -> bool;
  h_write : nat -> string -> list Z -> Z;
  h_read : nat -> string -> option (list Z);
  h_select : nat -> string -> Z * bool;
  h_chunk : nat -> Z;
  h_seek : nat -> bool;
  h_send : nat -> Z -> list Z -> Z;
  h_recv : nat -> Z -> option (list Z);
  h_accept : nat -> Z;
  h_ready : nat -> Z * (Z -> bool);
  h_props : nat -> gmap string string -> gmap string string;
  image : string -> option (list Z)
}.

Record world : Type := { mgr : WcndManager; props : gmap string string; calls : nat; trace : list event }.

Definition with_mgr (w : world) (m : WcndManager) : world :=
  {| mgr := m; props := props w; calls := calls w; trace := trace w |}.
Definition tick (w : world) : world := {| mgr := mgr w; props := props w; calls := S (calls w); trace := trace w |}.
Definition emit (w : world) (e : event) : world :=
  {| mgr := mgr w; props := props w; calls := calls w; trace := trace w ++ [e] |}.

Section manager.
  Context (h : host).

(** ** System calls *)
Definition open_dev (w : world) (path : string) : bool * world := (h_open h (calls w) path, tick w).

(** The bytes that a [write] took. *)
Definition taken (ret : Z) (data : list Z) : list Z := take (Z.to_nat ret) data.

Definition write_dev (w : world) (path : string) (data : list Z) : Z * world :=
  let ret := h_write h (calls w) path data in (ret, emit (tick w) (EDev path (taken ret data))).

(** At most [n] bytes. *)
Definition read_dev (w : world) (path : string) (n : nat) : option (list Z) * world :=
  (take n <$> h_read h (calls w) path, tick w).

Definition send (w : world) (fd : Z) (data : list Z) : Z * world :=
  let ret := h_send h (calls w) fd data in (ret, emit (tick w) (ESend fd data ret)).

Definition usleep (w : world) (ms : Z) : world := emit w (ESleep ms).

Definition property_get (w : world) (key dflt : string) : string * world :=
  let p := h_props h (calls w) (props w) in
  (default dflt (p !! key), {| mgr := mgr w; props := p; calls := S (calls w); trace := trace w |}).
Definition property_set (w : world) (key value : string) : world :=
  {| mgr := mgr w; props := <[key := value]> (props w); calls := calls w; trace := trace w ++ [ESet key value] |}.

(** ** Clients *)

(** [snprintf (buffer, 255, ...)]. *)
Definition snprintf255 (s : list Z) : list Z := take 254 s.

Definition send_back_cmd_result (w : world) (client_fd : Z) (str : option (list Z)) (isOK : bool) : Z * world :=
  if client_fd <? 0 then (-1, w)
  else
    let ok := bytes_of (if isOK then "OK" else "FAIL") in
    let buffer := snprintf255 (match str with None => ok | Some s => ok ++ 32 :: s end) in
    let '(ret, w) := send w client_fd (buffer ++ [0]) in
    if ret <? 0 then (-1, w) else (0, w).

(** The first free entry gets the descriptor; when there is none, the last one. *)
Fixpoint store_from (fds : list Z) (fd : Z) : option (list Z) :=
  match fds with
  | [] => None
  | f :: fds => if f =? -1 then Some (fd :: fds) else if f =? fd then Some (f :: fds) else cons f <$> store_from fds fd
  end.
Definition store_client_fd (fds : list Z) (fd : Z) : list Z :=
  match store_from fds fd with
  | Some fds => fds
  | None => <[(WCND_MAX_CLIENT_NUM - 1)%nat := fd]> fds
  end.

Definition send_msg (w : world) (client_fd : Z) (msg : list Z) : Z * world :=
  let w := with_mgr w (set_notify_count (mgr w) (s32 (notify_count (mgr w) + 1))) in
  let '(ret, w) := send w client_fd (msg ++ [0]) in
  if ret <? 0 then (RDWR_FD_FAIL, w) else (ret, w).

(** The clients from an entry of the table on, and what is left of it. *)
Fixpoint notify_from (w : world) (fds : list Z) (info : list Z) : list Z * world :=
  match fds with
  | [] => ([], w)
  | fd :: fds =>
      let '(fd, w) :=
        if 0 <=? fd then
          let '(ret, w) := send_msg w fd info in
          if ret =? RDWR_FD_FAIL then (-1, emit w (EClose fd)) else (fd, w)
        else (fd, w) in
      let '(fds, w) := notify_from w fds info in (fd :: fds, w)
  end.
Definition send_notify_to_client (w : world) (info : list Z) : world :=
  let '(fds, w) := notify_from w (client_fds (mgr w)) info in
  with_mgr w (set_client_fds (mgr w) fds).

(** ** The image *)

(** One [read] of a file at [pos]. *)
Definition read_file (w : world) (src : list Z) (pos n : Z) : option (list Z) * world :=
  let k := h_chunk h (calls w) in
  (if k <? 0 then None else Some (take (Z.to_nat (Z.min n (Z.max 1 k))) (drop (Z.to_nat pos) src)), tick w).

Fixpoint write_loop (fuel : nat) (w : world) (src : list Z) (pos : Z) (dst : string) (size : Z) : outcome (Z * world) :=
  match fuel with
  | O => Fuel
  | S fuel =>
      if 0 <? size then
        let rsize := Z.min size 8192 in
        let '(got, w) := read_file w src pos rsize in
        match got with
        | None => Done (-1, w)
        | Some buf =>
            let rrsize := zlen buf in
            if rrsize =? 0 then Done (0, w)
            else if (rrsize <? 0) || (rsize <? rrsize) then Done (-1, w)
            else
              let '(wsize, w) := write_dev w dst buf in
              if negb (wsize =? rrsize) then Done (-1, w)
              else write_loop fuel w src (pos + rrsize) dst (size - rrsize)
        end
      else Done (0, w)
  end.

(** The descriptors are open files here. *)
Definition write_image (w : world) (src : list Z) (src_offset : Z) (dst : string) (size : Z) : outcome (Z * world) :=
  let '(ok1, w) := (h_seek h (calls w), tick w) in
  if negb ok1 then Done (-1, w)
  else
    let '(ok2, w) := (h_seek h (calls w), tick w) in
    if negb ok2 then Done (-1, w)
    else write_loop (S (length src)) w src src_offset dst size.

(** ** The reset of CP2 *)

(** [echo 1 > path]. *)
Definition echo_1 (w : world) (path : string) : Z * world :=
  let '(ok, w) := open_dev w path in
  if negb ok then (-1, w)
  else let '(len, w) := write_dev w path [49] in if negb (len =? 1) then (-1, w) else (0, w).
Definition stop_cp2 (w : world) : Z * world := echo_1 w WCN_STOP_IFACE.
Definition start_cp2 (w : world) : Z * world := echo_1 w WCN_START_IFACE.

Definition download_image_to_cp2 (w : world) : outcome (Z * world) :=
  let '(ok, w) := open_dev w WCN_DOWNLOAD_IFACE in
  if negb ok then Done (-1, w)
  else
    let '(path, w) := property_get w PARTITION_PATH_PROP_KEY "" in
    match image h (path +:+ WCN_IMAGE_NAME) with
    | None => Done (-1, w)
    | Some src =>
        let* (ret, w) := write_image w src 0 WCN_DOWNLOAD_IFACE (wcn_image_file_size (mgr w)) in
        Done (if ret <? 0 then (-1, w) else (0, w))
    end.

(** [read] may fill all the 32 bytes of [buffer], which is then no string. *)
Definition is_cp2_alive_ok (w : world) : outcome (Z * world) :=
  let '(ok, w) := open_dev w WCN_LOOP_IFACE in
  if negb ok then Done (-1, w)
  else
    let '(len, w) := write_dev w WCN_LOOP_IFACE LOOP_TEST_CHAR in
    if len <? 0 then Done (-1, w)
    else
      let '((rc, isset), w) := (h_select h (calls w) WCN_LOOP_IFACE, tick w) in
      if (rc <? 0) || (rc =? 0) || negb isset then Done (-1, w)
      else
        let '(got, w) := read_dev w WCN_LOOP_IFACE 32 in
        let* buffer := splice (replicate 32 0) 0 (default [] got) in
        match got with
        | None | Some [] => Done (-1, w)
        | Some _ => let* s := cstr_at buffer 0 in Done (if strstr s LOOP_TEST_CHAR then 0 else -1, w)
        end.

(** [n] tests are left. *)
Fixpoint polling_test (n : nat) (w : world) : outcome (Z * world) :=
  match n with
  | O => Done (-1, w)
  | S n =>
      let* (ret, w) := is_cp2_alive_ok w in
      if ret <? 0 then polling_test n (usleep w 1000) else Done (0, w)
  end.

Definition MAX_LOOP_TEST_COUNT : nat := 2.
Definition RESET_FAIL_RETRY_COUNT : nat := 3.

(** [count++ > MAX] lets through one test more than [MAX]. *)
Definition reset_cp2 (w : world) : outcome (Z * world) :=
  let '(ret, w) := stop_cp2 w in
  if ret <? 0 then Done (-1, w)
  else
    let w := usleep w 100 in
    let* (ret, w) := download_image_to_cp2 w in
    if ret <? 0 then Done (-1, w)
    else
      let w := usleep w 100 in
      let '(ret, w) := start_cp2 w in
      if ret <? 0 then Done (-1, w)
      else polling_test (S MAX_LOOP_TEST_COUNT) (usleep w 1000).

(** ** The properties that steer it *)
Definition pre_send_cp2_exception_notify (w : world) : world := property_set w WCND_SLOG_RESULT_PROP_KEY "0".

Fixpoint wait_naps (n : nat) (w : world) : world :=
  match n with
  | O => w
  | S n =>
      let w := usleep w 200 in
      let '(value, w) := property_get w WCND_SLOG_RESULT_PROP_KEY "" in
      if (value =? "1")%string then w else wait_naps n w
  end.
(** 300 seconds in naps of 200 milliseconds. *)
Definition wait_for_dump_logs (w : world) : world :=
  let '(value, w) := property_get w WCND_SLOG_ENABLE_PROP_KEY "0" in
  if atoi value =? 0 then w else wait_naps 1500 w.

Definition check_if_reset_enable (w : world) : bool * world :=
  let '(value, w) := property_get w WCND_RESET_PROP_KEY "0" in (negb (atoi value =? 0), w).
Definition check_if_wcnmodem_enable (w : world) : bool * world :=
  let '(value, w) := property_get w WCND_MODEM_ENABLE_PROP_KEY "1" in (negb (atoi value =? 0), w).

(** [n] attempts are left. *)
Fixpoint do_cp2reset (n : nat) (w : world) : outcome (Z * world) :=
  match n with
  | O => Done (0, with_mgr w (set_doing_reset (mgr w) false))
  | S n =>
      let w := send_notify_to_client w WCND_CP2_RESET_START_STRING in
      let* (ret, w) := reset_cp2 w in
      let w := send_notify_to_client w WCND_CP2_RESET_END_STRING in
      if ret <? 0 then do_cp2reset n (usleep w 2000)
      else
        let w := send_notify_to_client w WCND_CP2_ALIVE_STRING in
        let w := with_mgr w (set_doing_reset (mgr w) false) in
        Done (0, with_mgr w (set_cp2_error (mgr w) false))
  end.

Definition do_cp2_reset_process (w : world) : outcome (Z * world) :=
  let '(enabled, w) := check_if_reset_enable w in
  if negb enabled then Done (0, w)
  else
    let w := with_mgr w (set_doing_reset (mgr w) true) in
    let w := wait_for_dump_logs w in
    do_cp2reset (S RESET_FAIL_RETRY_COUNT) w.

(** ** What is done when CP2 fails *)

(** Both handlers: the flag, the message of CP2, and the notification unless a reset is going
    on.  [read] may fill all the 200 bytes of [rdbuffer], which is then no string. *)
Definition handle_exception (w : world) (path : string) : outcome (Z * world) :=
  let w := with_mgr w (set_cp2_error (mgr w) true) in
  let '(got, w) := read_dev w path 200 in
  let* rdbuffer := splice (replicate 200 0) 0 (default [] got) in
  if doing_reset (mgr w) then Done (0, w)
  else
    let w := pre_send_cp2_exception_notify w in
    let* s := cstr_at rdbuffer 0 in
    Done (0, send_notify_to_client w (snprintf255 (WCND_CP2_EXCEPTION_STRING ++ 32 :: s))).
Definition handle_cp2_assert (w : world) : outcome (Z * world) := handle_exception w WCN_ASSERT_IFACE.
Definition handle_cp2_watchdog_exception (w : world) : outcome (Z * world) := handle_exception w WCN_WATCHDOG_IFACE.

Definition handle_cp2_loop_check_fail (w : world) : world :=
  let w := with_mgr w (set_cp2_error (mgr w) true) in
  if doing_reset (mgr w) then w
  else
    let w := pre_send_cp2_exception_notify w in
    send_notify_to_client w (snprintf255 (WCND_CP2_EXCEPTION_STRING ++ 32 :: bytes_of "CP2 LOOP CHECK FAIL")).

(** One round of [cp2_loop_check_thread]. *)
Definition loop_check_round (w : world) : outcome world :=
  let w := usleep w 5000 in
  if is_cp2_error (mgr w) then Done w
  else
    let* (ret, w) := is_cp2_alive_ok w in
    Done (if ret <? 0 then usleep (handle_cp2_loop_check_fail w) 20000 else w).

(** One round of [cp2_listen_thread]: what [select] returns, and which device is ready. *)
Definition cp2_listen_round (w : world) (rc : Z) (assert_set watchdog_set : bool) : outcome world :=
  if rc <? 0 then Done (usleep w 1000)
  else if rc =? 0 then Done w
  else
    let* w := if assert_set then let* (_, w) := handle_cp2_assert w in Done w else Done w in
    let* w := if watchdog_set then let* (_, w) := handle_cp2_watchdog_exception w in Done w else Done w in
    Done (usleep w 1000).
End manager.

(** ** What a trace shows *)

(** What a client got of each message that was sent to it: the bytes that its socket took, the
    NUL at the end one of them when it took them all. *)
Definition heard (fd : Z) (tr : list event) : list (list Z) :=
  omap (fun e => match e with
                 | ESend f data ret => if (f =? fd) && (0 <=? ret) then Some (taken ret data) else None
                 | _ => None
                 end) tr.
(** What was written to devices. *)
Definition dev_writes (tr : list event) : list (string * list Z) :=
  omap (fun e => match e with EDev path data => Some (path, data) | _ => None end) tr.
(** No client is written to or closed. *)
Definition quiet (e : event) : Prop := match e with ESend _ _ _ | EClose _ => False | _ => True end.

Lemma heard_app fd a b : heard fd (a ++ b) = heard fd a ++ heard fd b.
Proof. apply omap_app. Qed.
Lemma dev_writes_app a b : dev_writes (a ++ b) = dev_writes a ++ dev_writes b.
Proof. apply omap_app. Qed.
Lemma heard_quiet fd tr : Forall quiet tr -> heard fd tr = [].
Proof. induction 1 as [|e tr He _ IH]; [done|]. by destruct e. Qed.
#[export] Hint Rewrite heard_app dev_writes_app : cnorm.

(** [w'] comes after [w]: the events [t] happened, and only what [keep] allows changed. *)
Definition after (w w' : world) (t : list event) : Prop := trace w' = trace w ++ t.
Lemma after_refl w : after w w [].
Proof. unfold after. by rewrite app_nil_r. Qed.
Lemma after_same w w' : trace w' = trace w -> after w w' [].
Proof. unfold after. by rewrite app_nil_r. Qed.
Lemma after_trans w1 w2 w3 t u : after w1 w2 t -> after w2 w3 u -> after w1 w3 (t ++ u).
Proof. unfold after. intros -> ->. by rewrite app_assoc. Qed.

(** A client whose socket takes every message whole: [send_msg] writes a message once, and does
    not write again what the socket did not take ([short_write_cuts]). *)
Definition reliable (h : host) (fd : Z) : Prop := forall n data, h_send h n fd data = zlen data.
(** Answers of the loop device that fit the array they are read into, as strings. *)
Definition short_answers (h : host) : Prop := forall n l, h_read h n WCN_LOOP_IFACE = Some l -> (length l < 32)%nat.

(** The entries of the table: free, or descriptors, each once. *)
Definition table_ok (fds : list Z) : Prop :=
  length fds = WCND_MAX_CLIENT_NUM /\ Forall (fun fd => -1 <= fd) fds /\ NoDup (filter (fun fd => 0 <= fd) fds).

(** ** Notifications *)
Section notify.
  Context (h : host).

Lemma send_msg_spec w fd msg :
  let ret := h_send h (calls w) fd (msg ++ [0]) in
  exists w', send_msg h w fd msg = ((if ret <? 0 then RDWR_FD_FAIL else ret), w') /\
    after w w' [ESend fd (msg ++ [0]) ret] /\ mgr w' = set_notify_count (mgr w) (notify_count (mgr w')).
Proof.
  intros ret. unfold send_msg, send. cbn [calls with_mgr]. fold ret. eexists. by case_match.
Qed.

(** The manager as it was, but for the table and the count of notifications. *)
Definition same_but_table (m m' : WcndManager) : Prop :=
  m' = set_notify_count (set_client_fds m (client_fds m')) (notify_count m').
Lemma same_but_table_trans a b c : same_but_table a b -> same_but_table b c -> same_but_table a c.
Proof. unfold same_but_table. intros Hb Hc. rewrite Hc, Hb. done. Qed.
Lemma same_but_table_refl a : same_but_table a a.
Proof. by destruct a. Qed.

Definition closed (tr : list event) : list Z := omap (fun e => match e with EClose fd => Some fd | _ => None end) tr.
Lemma closed_app a b : closed (a ++ b) = closed a ++ closed b.
Proof. apply omap_app. Qed.

(** What a notification [info] did to entries [fds] of the table, with the events [t]: an entry
    stays, or its client failed, was closed and the entry is free; and each client that does not
    fail gets the message once. *)
Record notified (info : list Z) (fds fds' : list Z) (t : list event) : Prop := {
  nt_entries : Forall2 (fun fd fd' => fd' = fd \/ 0 <= fd /\ fd' = -1) fds fds';
  nt_closed : filter (fun fd => 0 <= fd) fds ≡ₚ closed t ++ filter (fun fd => 0 <= fd) fds';
  nt_others : forall fd, 0 <= fd -> ~ In fd fds -> heard fd t = [];
  nt_heard : forall fd, 0 <= fd -> In fd fds -> NoDup (filter (fun fd => 0 <= fd) fds) -> reliable h fd ->
    heard fd t = [info ++ [0]] /\ In fd fds';
  nt_devices : dev_writes t = []
}.

Lemma notified_app info a a' t b b' u :
  notified info a a' t -> notified info b b' u -> notified info (a ++ b) (a' ++ b') (t ++ u).
Proof.
  intros [E1 C1 O1 H1 D1] [E2 C2 O2 H2 D2]. constructor.
  - by apply Forall2_app.
  - rewrite closed_app, !filter_app, C1, C2. solve_Permutation.
  - intros fd Hfd Hin. rewrite heard_app, O1, O2; try done; intros H; apply Hin, in_app_iff; auto.
  - intros fd Hfd Hin Hnd Hrel. rewrite filter_app in Hnd. apply NoDup_app in Hnd as (N1 & Nd & N2).
    assert (Hboth : In fd a -> ~ In fd b).
    { intros Ha Hb. apply (Nd fd); apply list_elem_of_filter; (split; [done|by apply list_elem_of_In]). }
    rewrite heard_app, in_app_iff. apply in_app_iff in Hin as [Hin|Hin].
    + destruct (H1 fd Hfd Hin N1 Hrel) as [-> Hi]. rewrite O2 by auto. auto.
    + destruct (H2 fd Hfd Hin N2 Hrel) as [-> Hi]. rewrite O1 by (auto || by intros ?%Hboth). auto.
  - by rewrite dev_writes_app, D1, D2.
Qed.

(** One client: [ret] is what [write] returns. *)
Lemma notified_one info fd ret n : 0 <= fd -> ret = h_send h n fd (info ++ [0]) ->
  let t := ESend fd (info ++ [0]) ret :: (if ret <? 0 then [EClose fd] else []) in
  notified info [fd] [if ret <? 0 then -1 else fd] t.
Proof.
  intros Hfd Hret t. subst t. destruct (Z.ltb_spec ret 0) as [Hr|Hr]; constructor; cbn; try done.
  - constructor; [by right|constructor].
  - by rewrite decide_True, decide_False by lia.
  - intros f Hf Hin. guard_false (0 <=? ret). by rewrite andb_false_r.
  - intros f Hf [<-|[]] _ Hrel. specialize (Hrel n (info ++ [0])). pose proof (zlen_nonneg (info ++ [0])). lia.
  - constructor; [by left|constructor].
  - intros f Hf Hin. destruct (Z.eqb_spec fd f) as [->|]; [|done]. destruct Hin. by left.
  - intros f Hf [<-|[]] _ Hrel. rewrite Z.eqb_refl. guard_true (0 <=? ret). split; [|by left].
    rewrite Hret, (Hrel n (info ++ [0])). unfold taken, zlen. by rewrite Nat2Z.id, firstn_all.
Qed.

Lemma notify_from_spec info fds : forall w, exists fds' w' t,
  notify_from h w fds info = (fds', w') /\ after w w' t /\
  mgr w' = set_notify_count (mgr w) (notify_count (mgr w')) /\ notified info fds fds' t.
Proof.
  induction fds as [|fd fds IH]; intros w.
  { exists [], w, []. split_and!; [done|apply after_refl|by destruct (mgr w)|by constructor]. }
  cbn [notify_from]. destruct (Z.leb_spec 0 fd) as [Hfd|Hfd].
  - destruct (send_msg_spec w fd info) as (w1 & E & A1 & M1). rewrite E.
    set (ret := h_send h (calls w) fd (info ++ [0])) in *.
    set (fail := ret <? 0). set (w2 := if fail then emit w1 (EClose fd) else w1).
    assert (A2 : after w w2 (ESend fd (info ++ [0]) ret :: (if fail then [EClose fd] else []))).
    { unfold after, w2 in *. destruct fail; [cbn; rewrite A1; by rewrite <- app_assoc|done]. }
    destruct (IH w2) as (fds' & w' & t & E' & A & M & N).
    exists ((if fail then -1 else fd) :: fds'), w', ((ESend fd (info ++ [0]) ret :: (if fail then [EClose fd] else [])) ++ t).
    split.
    { unfold w2, fail in *. destruct (Z.ltb_spec ret 0); [by rewrite Z.eqb_refl, E'|].
      assert ((ret =? RDWR_FD_FAIL) = false) as -> by (unfold RDWR_FD_FAIL; lia). by rewrite E'. }
    split; [by eapply after_trans|]. split; [rewrite M; unfold w2; by destruct fail; cbn [mgr emit]; rewrite M1|].
    by apply (notified_app info [fd] [_]); [apply (notified_one info fd ret (calls w))|].
  - destruct (IH w) as (fds' & w' & t & E' & A & M & N). rewrite E'.
    exists (fd :: fds'), w', t. split; [done|]. split; [done|]. split; [done|].
    apply (notified_app info [fd] [fd] [] fds fds' t); [|done]. constructor; try done.
    + constructor; [by left|constructor].
    + intros f Hf [<-|[]]. lia.
Qed.
End notify.

(** A whole notification. *)
Lemma notify_spec h w info : table_ok (client_fds (mgr w)) ->
  let w' := send_notify_to_client h w info in
  exists t, after w w' t /\ same_but_table (mgr w) (mgr w') /\ table_ok (client_fds (mgr w')) /\
    notified h info (client_fds (mgr w)) (client_fds (mgr w')) t.
Proof.
  intros (Hl & Hge & Hnd) w'. unfold w', send_notify_to_client.
  destruct (notify_from_spec h info (client_fds (mgr w)) w) as (fds' & w1 & t & E & A & M & N). rewrite E. exists t.
  split; [exact A|]. split; [cbn [mgr with_mgr]; rewrite M; by destruct (mgr w)|]. cbn [mgr with_mgr client_fds set_client_fds].
  split; [|done]. destruct N as [En Hp _ _ _]. split; [by rewrite <- (Forall2_length _ _ _ En)|]. split.
  - apply Forall_forall. intros x Hx. apply list_elem_of_lookup in Hx as [i Hi].
    destruct (Forall2_lookup_r _ _ _ _ _ En Hi) as (y & Hy & [->|[_ ->]]); [|lia].
    rewrite Forall_lookup in Hge. by eapply Hge.
  - rewrite Hp in Hnd. by apply NoDup_app in Hnd as (_ & _ & ?).
Qed.

(** ** The download *)
Section reset.
  Context (h : host).

Lemma drop_piece {A} n (l : list A) : drop (length (take n l)) l = drop n l.
Proof.
  rewrite length_take. destruct (Nat.le_ge_cases n (length l)); [f_equal; lia|]. rewrite !drop_ge by lia. done.
Qed.
Lemma take_piece {A} n m (l : list A) : (n <= m)%nat -> take n l ++ take (m - length (take n l)) (drop n l) = take m l.
Proof.
  intros H. rewrite length_take. rewrite <- (take_drop n (take m l)), take_take, skipn_firstn_comm, (Nat.min_l n m) by lia.
  f_equal. destruct (Nat.le_ge_cases n (length l)); [f_equal; lia|]. rewrite !take_ge; rewrite ?length_drop; try done; lia.
Qed.

(** The loop ends.  When it reports success, the pieces written are, in order, what the file
    holds from [pos] on, up to [size] bytes. *)
Lemma write_loop_spec fuel src dst : forall w pos size,
  0 <= pos -> (length (drop (Z.to_nat pos) src) < fuel)%nat ->
  exists ret w' pieces, write_loop h fuel w src pos dst size = Done (ret, w') /\ mgr w' = mgr w /\
    after w w' (EDev dst <$> pieces) /\ (ret = 0 \/ ret = -1) /\
    (ret = 0 -> concat pieces = take (Z.to_nat size) (drop (Z.to_nat pos) src)).
Proof.
  induction fuel as [|fuel IH]; intros w pos size Hp Hf; [lia|]. cbn [write_loop].
  destruct (Z.ltb_spec 0 size) as [Hs|Hs].
  2: { exists 0, w, []. split; [done|]. split; [done|]. split; [by apply after_same|]. split; [by left|]. intros _.
       by replace (Z.to_nat size) with 0%nat by lia. }
  unfold read_file. set (k := h_chunk h (calls w)). destruct (Z.ltb_spec k 0) as [Hk|Hk].
  { exists (-1), (tick w), []. split; [done|]. split; [done|]. split; [by apply after_same|]. split; [by right|done]. }
  set (n := Z.to_nat (Z.min (Z.min size 8192) (Z.max 1 k))). assert (Hn : (0 < n)%nat) by lia.
  set (rest := drop (Z.to_nat pos) src) in *.
  set (buf := take n rest). assert (Hb : length buf = Nat.min n (length rest)) by apply length_take.
  destruct (Z.eqb_spec (zlen buf) 0) as [E0|E0].
  { exists 0, (tick w), []. split; [done|]. split; [done|]. split; [by apply after_same|]. split; [by left|]. intros _.
    unfold zlen in E0. assert (length rest = 0%nat) as H%nil_length_inv by lia. rewrite H. by rewrite take_nil. }
  assert ((zlen buf <? 0) || (Z.min size 8192 <? zlen buf) = false) as -> by (unfold zlen in *; lia).
  unfold write_dev. set (wsize := h_write h (calls (tick w)) dst buf).
  destruct (Z.eqb_spec wsize (zlen buf)) as [Ew|Ew]; cbn [negb].
  2: { eexists (-1), _, [_]. split; [done|]. split; [done|]. split; [done|]. split; [by right|done]. }
  assert (Ht : taken wsize buf = buf) by (unfold taken; rewrite Ew; unfold zlen; rewrite Nat2Z.id; apply firstn_all).
  assert (Hdrop : drop (Z.to_nat (pos + zlen buf)) src = drop n rest).
  { rewrite Z2Nat.inj_add by (pose proof (zlen_nonneg buf); lia). unfold zlen. rewrite Nat2Z.id, <- drop_drop. apply drop_piece. }
  destruct (IH (emit (tick (tick w)) (EDev dst (taken wsize buf))) (pos + zlen buf) (size - zlen buf))
    as (ret & w' & pieces & E & M & A & Hr & Hc).
  { pose proof (zlen_nonneg buf). lia. }
  { rewrite Hdrop, length_drop. unfold zlen in E0. lia. }
  exists ret, w', (buf :: pieces). split; [exact E|]. split; [exact M|].
  split; [rewrite Ht in A; by refine (after_trans w _ w' [EDev dst buf] _ _ A)|]. split; [done|].
  intros H0. cbn [concat]. rewrite (Hc H0), Hdrop, Z2Nat.inj_sub by (pose proof (zlen_nonneg buf); lia).
  unfold zlen. rewrite Nat2Z.id. apply take_piece. lia.
Qed.

(** A part of the reset that leaves the manager and the clients alone. *)
Definition calm (w w' : world) (t : list event) : Prop := mgr w' = mgr w /\ after w w' t /\ Forall quiet t.
Lemma calm_trans w1 w2 w3 t u : calm w1 w2 t -> calm w2 w3 u -> calm w1 w3 (t ++ u).
Proof.
  intros (M1 & A1 & Q1) (M2 & A2 & Q2). split; [congruence|]. split; [by eapply after_trans|by apply Forall_app].
Qed.
Lemma calm_same w w' : mgr w' = mgr w -> trace w' = trace w -> calm w w' [].
Proof. intros M T. split; [done|]. by split; [apply after_same|]. Qed.
Lemma calm_one w w' e : mgr w' = mgr w -> trace w' = trace w ++ [e] -> quiet e -> calm w w' [e].
Proof. intros M T Q. split; [done|]. split; [done|]. by constructor. Qed.

Lemma calm_sleep w n : calm w (usleep w n) [ESleep n].
Proof. by apply calm_one. Qed.

(** A result of a step of the reset: 0 or -1, and [good] of the events when it is 0. *)
Definition step_spec (w : world) (r : Z * world) (good : list event -> Prop) : Prop :=
  exists t, calm w (snd r) t /\ (fst r = 0 /\ good t \/ fst r = -1).

Lemma step_fails w w' t good : calm w w' t -> step_spec w (-1, w') good.
Proof. intros C. exists t. split; [done|by right]. Qed.

Lemma step_after w w1 t r good : calm w w1 t -> step_spec w1 r (fun u => good (t ++ u)) -> step_spec w r good.
Proof. intros C (u & Cu & Hr). exists (t ++ u). split; [by eapply calm_trans|done]. Qed.

Lemma echo_1_spec w path : step_spec w (echo_1 h w path) (fun t => dev_writes t = [(path, [49])]).
Proof.
  unfold echo_1, open_dev. destruct (h_open h (calls w) path); cbn [negb]; [|by eapply step_fails, calm_same].
  unfold write_dev. destruct (Z.eqb_spec (h_write h (calls (tick w)) path [49]) 1) as [->|Hn]; cbn [negb].
  - exists [EDev path [49]]. split; [by apply calm_one|by left].
  - by eapply step_fails, calm_one.
Qed.

Definition downloaded (w : world) (t : list event) : Prop :=
  exists p src pieces, image h (p +:+ WCN_IMAGE_NAME) = Some src /\
    concat pieces = take (Z.to_nat (wcn_image_file_size (mgr w))) src /\
    dev_writes t = pair WCN_DOWNLOAD_IFACE <$> pieces.

Lemma dev_pieces path pieces : dev_writes (EDev path <$> pieces) = pair path <$> pieces.
Proof. induction pieces as [|x l IH]; [done|]. cbn. by rewrite <- IH. Qed.
Lemma quiet_pieces path pieces : Forall quiet (EDev path <$> pieces).
Proof. induction pieces; by constructor. Qed.

Lemma write_image_spec w src dst size : exists r, write_image h w src 0 dst size = Done r /\
  step_spec w r (fun t => exists pieces, concat pieces = take (Z.to_nat size) src /\ dev_writes t = pair dst <$> pieces).
Proof.
  unfold write_image. destruct (h_seek h (calls w)); cbn [negb]; [|eexists; split; [done|by eapply step_fails, calm_same]].
  destruct (h_seek h (calls (tick w))); cbn [negb]; [|eexists; split; [done|by eapply step_fails, calm_same]].
  destruct (write_loop_spec (S (length src)) src dst (tick (tick w)) 0 size) as (ret & w' & pieces & E & M & A & Hr & Hc).
  { lia. } { change (Z.to_nat 0) with 0%nat. rewrite drop_0. lia. }
  exists (ret, w'). split; [done|]. exists (EDev dst <$> pieces).
  split; [split; [exact M|]; split; [exact A|apply quiet_pieces]|]. destruct Hr as [-> | ->]; [left|by right].
  split; [done|]. exists pieces. split; [by apply Hc|apply dev_pieces].
Qed.

Lemma download_spec w : exists r, download_image_to_cp2 h w = Done r /\ step_spec w r (downloaded w).
Proof.
  unfold download_image_to_cp2, open_dev.
  destruct (h_open h (calls w) WCN_DOWNLOAD_IFACE); cbn [negb]; [|eexists; split; [done|by eapply step_fails, calm_same]].
  unfold property_get. match goal with |- context [image h (?p +:+ _)] => set (path := p) end.
  destruct (image h (path +:+ WCN_IMAGE_NAME)) as [src|] eqn:Es; [|eexists; split; [done|by eapply step_fails, calm_same]].
  match goal with |- context [write_image h ?w1 _ _ _ _] => set (wp := w1) end.
  destruct (write_image_spec wp src WCN_DOWNLOAD_IFACE (wcn_image_file_size (mgr wp))) as ([ret w'] & E & t & C & Hr).
  rewrite E. cbn [obind]. eexists. split; [done|]. exists t. cbn [fst snd] in *. split; [by destruct (ret <? 0)|].
  destruct Hr as [[-> (pieces & Hc & Hd)] | ->]; [left|by right]. split; [done|]. by exists path, src, pieces.
Qed.

Lemma alive_spec w : short_answers h -> exists r, is_cp2_alive_ok h w = Done r /\
  exists t, calm w (snd r) t /\ (fst r = 0 \/ fst r = -1) /\ Forall (fun x => fst x = WCN_LOOP_IFACE) (dev_writes t).
Proof.
  intros Hs. unfold is_cp2_alive_ok, open_dev.
  destruct (h_open h (calls w) WCN_LOOP_IFACE); cbn [negb].
  2: { eexists. split; [done|]. exists []. split; [by apply calm_same|]. split; [by right|done]. }
  unfold write_dev. match goal with |- context [emit ?a ?b] => set (w1 := emit a b); set (e := b) end.
  assert (Hc : forall w', mgr w' = mgr w1 -> trace w' = trace w1 -> forall r, r = 0 \/ r = -1 ->
    exists t, calm w (snd (r, w')) t /\ (fst (r, w') = 0 \/ fst (r, w') = -1) /\ Forall (fun x => fst x = WCN_LOOP_IFACE) (dev_writes t)).
  { intros w' M T r Hr. exists [e]. split; [by apply calm_one; rewrite ?M, ?T|]. split; [done|]. by repeat constructor. }
  case_match; [eexists; split; [done|by apply Hc; auto]|].
  destruct (h_select h (calls w1) WCN_LOOP_IFACE) as [rc isset].
  case_match; [eexists; split; [done|by apply Hc; auto]|]. unfold read_dev.
  destruct (h_read h (calls (tick w1)) WCN_LOOP_IFACE) as [l|] eqn:El; cbn [fmap option_fmap option_map default from_option id].
  2: { rewrite splice_in by done. cbn [obind]. eexists. split; [done|]. by apply Hc; auto. }
  apply Hs in El. rewrite firstn_all2 by lia. rewrite splice_in by (rewrite ?zlen_replicate; unfold zlen; lia). cbn [obind].
  destruct l as [|c l]; [eexists; split; [done|by apply Hc; auto]|].
  change (Z.to_nat 0) with 0%nat. rewrite take_0, Nat.add_0_l, drop_replicate. cbn [app].
  destruct (32 - length (c :: l))%nat as [|k] eqn:Ek; [lia|]. unfold cstr_at. change (Z.to_nat 0) with 0%nat. rewrite drop_0.
  cbn [Z.leb Z.compare replicate]. destruct (cstr_with_end (c :: l) (replicate k 0)) as [s Es].
  cbn [app] in Es. rewrite Es. cbn [obind]. eexists. split; [done|]. apply Hc; try done. case_match; auto.
Qed.

Lemma polling_spec n : short_answers h -> forall w, exists r, polling_test h n w = Done r /\
  exists t, calm w (snd r) t /\ (fst r = 0 \/ fst r = -1) /\ Forall (fun x => fst x = WCN_LOOP_IFACE) (dev_writes t).
Proof.
  intros Hs. induction n as [|n IH]; intros w; cbn [polling_test].
  { eexists. split; [done|]. exists []. split; [by apply calm_same|]. split; [by right|done]. }
  destruct (alive_spec w Hs) as ([ret w1] & E & t & C & Hr & D). rewrite E. cbn [obind fst snd] in *.
  destruct Hr as [-> | ->]; cbn [Z.ltb Z.compare].
  { eexists. split; [done|]. exists t. split; [exact C|]. split; [by left|done]. }
  destruct (IH (usleep w1 1000)) as (r & E1 & u & Cu & Hr & Du). exists r. split; [done|].
  exists (t ++ [ESleep 1000] ++ u). split; [|split; [done|rewrite dev_writes_app; by apply Forall_app]].
  eapply calm_trans; [exact C|]. eapply calm_trans; [apply calm_sleep|exact Cu].
Qed.

(** CP2 was stopped, got the first bytes of the image in order and nothing else, was started,
    and then only the loop device was written to. *)
Definition booted (size : Z) (t : list event) : Prop :=
  exists p src pieces polls, image h (p +:+ WCN_IMAGE_NAME) = Some src /\
    concat pieces = take (Z.to_nat size) src /\
    dev_writes t = (WCN_STOP_IFACE, [49]) :: (pair WCN_DOWNLOAD_IFACE <$> pieces) ++ (WCN_START_IFACE, [49]) :: polls /\
    Forall (fun x => fst x = WCN_LOOP_IFACE) polls.

Lemma reset_cp2_spec w : short_answers h ->
  exists r, reset_cp2 h w = Done r /\ step_spec w r (booted (wcn_image_file_size (mgr w))).
Proof.
  intros Hs. unfold reset_cp2, stop_cp2, start_cp2.
  destruct (echo_1 h w WCN_STOP_IFACE) as [r1 w1] eqn:E1. pose proof (echo_1_spec w WCN_STOP_IFACE) as (t1 & C1 & H1).
  rewrite E1 in C1, H1. cbn [fst snd] in *. destruct H1 as [[-> D1] | ->]; cbn [Z.ltb Z.compare];
    [|eexists; split; [done|by eapply step_fails]].
  destruct (download_spec (usleep w1 100)) as ([r2 w2] & E2 & t2 & C2 & H2). rewrite E2. cbn [obind fst snd] in *.
  assert (C12 : calm w w2 (t1 ++ [ESleep 100] ++ t2))
    by (eapply calm_trans; [exact C1|]; eapply calm_trans; [apply calm_sleep|exact C2]).
  destruct H2 as [[-> D2] | ->]; cbn [Z.ltb Z.compare]; [|eexists; split; [done|by eapply step_fails]].
  destruct (echo_1 h (usleep w2 100) WCN_START_IFACE) as [r3 w3] eqn:E3.
  pose proof (echo_1_spec (usleep w2 100) WCN_START_IFACE) as (t3 & C3 & H3). rewrite E3 in C3, H3. cbn [fst snd] in *.
  assert (C13 : calm w w3 ((t1 ++ [ESleep 100] ++ t2) ++ [ESleep 100] ++ t3))
    by (eapply calm_trans; [exact C12|]; eapply calm_trans; [apply calm_sleep|exact C3]).
  destruct H3 as [[-> D3] | ->]; cbn [Z.ltb Z.compare]; [|eexists; split; [done|by eapply step_fails]].
  destruct (polling_spec (S MAX_LOOP_TEST_COUNT) Hs (usleep w3 1000)) as (r & E4 & t4 & C4 & H4 & D4).
  exists r. split; [done|]. eexists. split; [eapply calm_trans; [exact C13|]; eapply calm_trans; [apply calm_sleep|exact C4]|].
  destruct H4 as [-> | ->]; [left|by right]. split; [done|]. destruct D2 as (p & src & pieces & Hi & Hp & D2).
  assert (M1 : mgr w1 = mgr w) by (apply C1). cbn [usleep emit mgr] in Hp. rewrite M1 in Hp.
  exists p, src, pieces, (dev_writes t4). split; [done|]. split; [done|]. split; [|done].
  rewrite !dev_writes_app, D1, D2, D3. cbn. by rewrite <- app_assoc.
Qed.

(** ** The whole process *)
Definition msg (s : list Z) : list Z := s ++ [0].

(** What a client hears of [k] failed attempts, and of one that succeeds. *)
Definition failed_attempts (k : nat) : list (list Z) :=
  concat (replicate k [msg WCND_CP2_RESET_START_STRING; msg WCND_CP2_RESET_END_STRING]).
Definition success : list (list Z) :=
  [msg WCND_CP2_RESET_START_STRING; msg WCND_CP2_RESET_END_STRING; msg WCND_CP2_ALIVE_STRING].

(** The clients that do not fail and are connected. *)
Definition listening (w : world) (fd : Z) : Prop := 0 <= fd /\ In fd (client_fds (mgr w)) /\ reliable h fd.

(** [w'] comes after [w], each listening client has heard [l fd] and still listens. *)
Definition told (w w' : world) (t : list event) (l : list (list Z)) : Prop :=
  after w w' t /\ table_ok (client_fds (mgr w')) /\
  forall fd, listening w fd -> heard fd t = l /\ listening w' fd.

Lemma told_trans w1 w2 w3 t u l l' : told w1 w2 t l -> told w2 w3 u l' -> told w1 w3 (t ++ u) (l ++ l').
Proof.
  intros (A1 & _ & H1) (A2 & T2 & H2). split; [by eapply after_trans|]. split; [done|].
  intros fd Hl. apply H1 in Hl as [E1 Hl]. apply H2 in Hl as [E2 Hl]. by rewrite heard_app, E1, E2.
Qed.
Lemma told_calm w w' t : table_ok (client_fds (mgr w)) -> calm w w' t -> told w w' t [].
Proof.
  intros T (M & A & Q). split; [done|]. unfold listening. rewrite M. split; [done|]. intros fd Hl. by rewrite heard_quiet.
Qed.
Lemma told_notify w info : table_ok (client_fds (mgr w)) -> let w' := send_notify_to_client h w info in
  exists t, told w w' t [msg info] /\ same_but_table (mgr w) (mgr w') /\ dev_writes t = [].
Proof.
  intros T w'. destruct (notify_spec h w info T) as (t & A & S & T' & N). exists t. split; [|by destruct N].
  split; [done|]. split; [done|]. intros fd (Hfd & Hin & Hrel).
  destruct (nt_heard _ _ _ _ _ N fd Hfd Hin) as [Hh Hi]; [apply T|done|]. by split.
Qed.

(** One attempt: the two notifications and the reset between them. *)
Lemma attempt_spec w : table_ok (client_fds (mgr w)) -> short_answers h ->
  exists ret w1 t, reset_cp2 h (send_notify_to_client h w WCND_CP2_RESET_START_STRING) = Done (ret, w1) /\
    let w2 := send_notify_to_client h w1 WCND_CP2_RESET_END_STRING in
    told w w2 t [msg WCND_CP2_RESET_START_STRING; msg WCND_CP2_RESET_END_STRING] /\ same_but_table (mgr w) (mgr w2) /\
    (ret = 0 /\ booted (wcn_image_file_size (mgr w)) t \/ ret = -1).
Proof.
  intros T Hs. destruct (told_notify w WCND_CP2_RESET_START_STRING T) as (t1 & H1 & S1 & D1).
  set (ws := send_notify_to_client h w WCND_CP2_RESET_START_STRING) in *.
  destruct (reset_cp2_spec ws Hs) as ([ret w1] & E & t2 & C2 & Hr). cbn [fst snd] in *.
  assert (Tw : table_ok (client_fds (mgr ws))) by (apply H1).
  assert (M : mgr w1 = mgr ws) by (apply C2). assert (T1 : table_ok (client_fds (mgr w1))) by (by rewrite M).
  destruct (told_notify w1 WCND_CP2_RESET_END_STRING T1) as (t3 & H3 & S3 & D3).
  exists ret, w1, (t1 ++ t2 ++ t3). split; [done|]. cbv zeta.
  split; [eapply (told_trans _ _ _ _ _ [_] [_]); [exact H1|]; by eapply (told_trans _ _ _ _ _ []); [apply told_calm|]|].
  rewrite M in S3. split; [by eapply same_but_table_trans|]. destruct Hr as [[-> Hb] | ->]; [left|by right]. split; [done|].
  unfold same_but_table in S1. rewrite S1 in Hb. unfold booted in *. rewrite !dev_writes_app, D1, D3, app_nil_r. exact Hb.
Qed.

Lemma do_cp2reset_spec n : short_answers h -> forall w, table_ok (client_fds (mgr w)) ->
  exists w' k (ok : bool) t, do_cp2reset h n w = Done (0, w') /\ (k <= n)%nat /\
    told w w' t (failed_attempts k ++ if ok then success else []) /\ doing_reset (mgr w') = false /\
    if ok then is_cp2_error (mgr w') = false /\ (k < n)%nat /\
      exists a b, t = a ++ b /\ booted (wcn_image_file_size (mgr w)) b
    else k = n /\ is_cp2_error (mgr w') = is_cp2_error (mgr w).
Proof.
  intros Hs. induction n as [|n IH]; intros w T; cbn [do_cp2reset].
  { eexists _, 0%nat, false, []. split; [done|]. split; [lia|]. split; [|done].
    split; [by apply after_same|]. split; [done|]. intros fd Hl. by split. }
  destruct (attempt_spec w T Hs) as (ret & w1 & t & E & H & Sm & Hr). rewrite E. cbn [obind]. cbv zeta in *.
  set (w2 := send_notify_to_client h w1 WCND_CP2_RESET_END_STRING) in *.
  assert (T2 : table_ok (client_fds (mgr w2))) by (apply H).
  destruct Hr as [[-> Hb] | ->]; cbn [Z.ltb Z.compare].
  - destruct (told_notify w2 WCND_CP2_ALIVE_STRING T2) as (t3 & H3 & _ & D3).
    eexists _, 0%nat, true, (t ++ t3). split; [done|]. split; [lia|].
    split; [exact (told_trans _ _ _ _ _ [_; _] [_] H H3)|]. split; [done|]. split; [done|]. split; [lia|].
    exists [], (t ++ t3). split; [done|]. unfold booted in *. by rewrite dev_writes_app, D3, app_nil_r.
  - destruct (IH (usleep w2 2000)) as (w' & k & ok & t' & E' & Hk & H' & Hd & Hok); [done|].
    assert (H2 : told w (usleep w2 2000) (t ++ [ESleep 2000]) (failed_attempts 1)).
    { eapply (told_trans _ _ _ _ _ [_; _] []); [exact H|]. by apply told_calm, calm_sleep. }
    exists w', (S k), ok, ((t ++ [ESleep 2000]) ++ t'). split; [done|]. split; [lia|].
    split; [exact (told_trans _ _ _ _ _ _ _ H2 H')|]. split; [done|]. unfold same_but_table in Sm. destruct ok.
    + destruct Hok as (He & Hk' & a & b & -> & Hb). split; [done|]. split; [lia|].
      exists ((t ++ [ESleep 2000]) ++ a), b. split; [by rewrite app_assoc|]. cbn [usleep emit mgr] in Hb. by rewrite Sm in Hb.
    + destruct Hok as [-> He]. split; [done|]. cbn [usleep emit mgr] in He. by rewrite He, Sm.
Qed.

Lemma property_get_calm w key dflt : calm w (snd (property_get h w key dflt)) [].
Proof. by apply calm_same. Qed.

Lemma wait_naps_calm n : forall w, exists t, calm w (wait_naps h n w) t.
Proof.
  induction n as [|n IH]; intros w; cbn [wait_naps]; [exists []; by apply calm_same|].
  pose proof (property_get_calm (usleep w 200) WCND_SLOG_RESULT_PROP_KEY "") as C.
  destruct (property_get h (usleep w 200) WCND_SLOG_RESULT_PROP_KEY "") as [value w1]. cbn [snd] in C.
  destruct (value =? "1")%string.
  - eexists. eapply calm_trans; [apply calm_sleep|exact C].
  - destruct (IH w1) as [t Ct]. eexists. eapply calm_trans; [apply calm_sleep|]. by eapply calm_trans.
Qed.

Lemma wait_for_dump_logs_calm w : exists t, calm w (wait_for_dump_logs h w) t.
Proof.
  unfold wait_for_dump_logs. pose proof (property_get_calm w WCND_SLOG_ENABLE_PROP_KEY "0") as C.
  destruct (property_get h w WCND_SLOG_ENABLE_PROP_KEY "0") as [value w1]. cbn [snd] in C.
  destruct (atoi value =? 0); [by eexists|]. destruct (wait_naps_calm 1500 w1) as [t Ct]. eexists. by eapply calm_trans.
Qed.
End reset.

(** When the reset is switched off nothing happens. *)
Lemma reset_off h w : fst (check_if_reset_enable h w) = false ->
  exists w', do_cp2_reset_process h w = Done (0, w') /\ after w w' [] /\ mgr w' = mgr w.
Proof.
  unfold do_cp2_reset_process, check_if_reset_enable. pose proof (property_get_calm h w WCND_RESET_PROP_KEY "0") as (M & A & _).
  destruct (property_get h w WCND_RESET_PROP_KEY "0") as [value w1]. cbn [snd fst] in *. intros ->. cbn [negb]. by exists w1.
Qed.

Lemma reset_on h w : short_answers h -> table_ok (client_fds (mgr w)) -> fst (check_if_reset_enable h w) = true ->
  exists w' t k (ok : bool), do_cp2_reset_process h w = Done (0, w') /\ told h w w' t (failed_attempts k ++ if ok then success else []) /\
    doing_reset (mgr w') = false /\
    if ok then (k < 4)%nat /\ is_cp2_error (mgr w') = false /\
      exists a b, t = a ++ b /\ booted h (wcn_image_file_size (mgr w)) b
    else k = 4%nat /\ is_cp2_error (mgr w') = is_cp2_error (mgr w).
Proof.
  intros Hs T. unfold do_cp2_reset_process, check_if_reset_enable.
  pose proof (property_get_calm h w WCND_RESET_PROP_KEY "0") as C.
  destruct (property_get h w WCND_RESET_PROP_KEY "0") as [value w1]. cbn [snd fst] in *. intros ->. cbn [negb].
  destruct C as (M & A & _). set (w2 := with_mgr w1 (set_doing_reset (mgr w1) true)).
  destruct (wait_for_dump_logs_calm h w2) as (t1 & M1 & A1 & Q1).
  assert (T1 : table_ok (client_fds (mgr (wait_for_dump_logs h w2)))) by (rewrite M1; cbn; by rewrite M).
  destruct (do_cp2reset_spec h (S RESET_FAIL_RETRY_COUNT) Hs _ T1) as (w' & k & ok & t & E & Hk & (A' & T' & H') & Hd & Hok).
  exists w', (t1 ++ t), k, ok. split; [done|]. split; [|split; [done|]].
  - split; [by apply (after_trans w w1 w' [] (t1 ++ t) A), (after_trans _ _ _ _ _ A1)|]. split; [done|].
    intros fd Hl. rewrite heard_app, (heard_quiet _ _ Q1). apply H'. unfold listening in *. rewrite M1. cbn. by rewrite M.
  - rewrite M1 in Hok. unfold w2 in Hok. cbn in Hok. rewrite M in Hok. destruct ok; [|done].
    destruct Hok as (He & Hk' & a & b & -> & Hb). split; [done|]. split; [done|]. exists (t1 ++ a), b. by rewrite app_assoc.
Qed.

(** C12. As long as each answer of the loop device is shorter than the 32 bytes of the array it is
    read into (an answer of 32 bytes is read past its end: [long_answers_overrun]), the reset
    ends after at most four attempts, whatever else the calls of the system return.  When it is
    switched off nothing happens.  Else every connected client whose socket takes each message
    whole (a message that is taken in part is cut: [short_write_cuts]) hears the start and the
    end of every attempt and, when one succeeds, that CP2 is alive, and nothing else; CP2 then
    got, between its stop and its start, exactly the beginning of the image, and is no longer in
    error.  When all four attempts fail the mark of the error is as before.  No reset is going
    on afterwards. *)
Theorem reset_process h w : short_answers h -> table_ok (client_fds (mgr w)) ->
  let '(enabled, _) := check_if_reset_enable h w in
  exists w' t, do_cp2_reset_process h w = Done (0, w') /\ after w w' t /\ table_ok (client_fds (mgr w')) /\
  if enabled then
    doing_reset (mgr w') = false /\
    exists k (ok : bool),
      (forall fd, listening h w fd -> heard fd t = failed_attempts k ++ (if ok then success else []) /\ listening h w' fd) /\
      if ok then (k < 4)%nat /\ is_cp2_error (mgr w') = false /\
        exists a b, t = a ++ b /\ booted h (wcn_image_file_size (mgr w)) b
      else k = 4%nat /\ is_cp2_error (mgr w') = is_cp2_error (mgr w)
  else t = [] /\ mgr w' = mgr w.
Proof.
  intros Hs T. destruct (check_if_reset_enable h w) as [[] w1] eqn:E; apply (f_equal fst) in E; cbn [fst] in E.
  - destruct (reset_on h w Hs T E) as (w' & t & k & ok & -> & (A & T' & H) & Hd & Hok). exists w', t. eauto 8.
  - destruct (reset_off h w E) as (w' & -> & A & M). exists w', []. by rewrite M.
Qed.

(** An assert, or an exception of the watchdog, outside a reset: the flag is set and every
    client that listens hears of it; during a reset only the flag is set.  [text] is what CP2
    says. *)
Theorem exception_announced h w path text : table_ok (client_fds (mgr w)) ->
  default [] (h_read h (calls w) path) = text -> (length text < 200)%nat -> Forall (fun c => c <> 0) text ->
  exists w' t, handle_exception h w path = Done (0, w') /\ after w w' t /\ table_ok (client_fds (mgr w')) /\
    is_cp2_error (mgr w') = true /\
    if doing_reset (mgr w) then t = []
    else forall fd, listening h w fd ->
      heard fd t = [msg (WCND_CP2_EXCEPTION_STRING ++ 32 :: text)] /\ listening h w' fd.
Proof.
  intros T Ht Hl Hnz. unfold handle_exception, read_dev. cbn [calls with_mgr].
  assert (Hgot : default [] (take 200 <$> h_read h (calls w) path) = text).
  { destruct (h_read h (calls w) path); cbn in *; subst; [by rewrite firstn_all2 by lia|done]. }
  rewrite Hgot. rewrite splice_in by (rewrite ?zlen_replicate; unfold zlen; lia). cbn [obind doing_reset mgr tick with_mgr set_cp2_error].
  destruct (doing_reset (mgr w)).
  { eexists _, []. split; [done|]. split; [by apply after_same|]. done. }
  change (Z.to_nat 0) with 0%nat. rewrite take_0, Nat.add_0_l, drop_replicate. cbn [app].
  destruct (200 - length text)%nat as [|k] eqn:Ek; [lia|]. cbn [replicate].
  pose proof (cstr_at_app [] text (replicate k 0) 0 Hnz eq_refl) as Hc. cbn [app] in Hc. rewrite Hc. cbn [obind].
  match goal with |- context [send_notify_to_client h ?a _] => set (w1 := a) end.
  assert (T1 : table_ok (client_fds (mgr w1))) by done.
  assert (Hsn : snprintf255 (WCND_CP2_EXCEPTION_STRING ++ 32 :: text) = WCND_CP2_EXCEPTION_STRING ++ 32 :: text).
  { unfold snprintf255. apply firstn_all2. rewrite length_app. cbn. lia. }
  rewrite Hsn. destruct (told_notify h w1 (WCND_CP2_EXCEPTION_STRING ++ 32 :: text) T1) as (t & (A & T' & H) & S & _).
  eexists _, (ESet WCND_SLOG_RESULT_PROP_KEY "0" :: t). split; [done|].
  split; [by refine (after_trans w w1 _ [_] t _ A)|]. split; [done|]. unfold same_but_table in S. rewrite S at 1.
  split; [done|]. exact H.
Qed.

(** ** Concrete values *)

(** A host where everything works, with a file of 20 bytes that is read in pieces of 7; the
    loop device answers at the second test. *)
Definition works : host := {|
  h_open := fun _ _ => true; h_write := fun _ _ data => zlen data; h_read := fun n p =>
    if (p =? WCN_LOOP_IFACE)%string then (if Nat.ltb n 26 then Some [120] else Some [104; 105; 10]) else Some (bytes_of "PS assert");
  h_select := fun _ _ => (1, true); h_chunk := fun _ => 7; h_seek := fun _ => true; h_send := fun _ _ data => zlen data;
  h_recv := fun _ _ => None; h_accept := fun _ => 9; h_ready := fun _ => (1, fun _ => true); h_props := fun _ p => p;
  image := fun _ => Some (Z.of_nat <$> seq 100 20) |}.
Definition example_mgr : WcndManager := {|
  inited := true; client_fds := [7; -1; 9; -1; -1; -1; -1; -1; -1; -1]; listen_fd := 3; wcn_image_file_size := WCN_IMAGE_SIZE;
  notify_count := 0; cmdexecuter_list := Some wcn_cmdexecuter :: Some wcn_eng_cmdexecuter :: replicate 8 None;
  doing_reset := false; is_cp2_error := true |}.
Definition example_world : world := {|
  mgr := example_mgr; props := {[WCND_RESET_PROP_KEY := "1"]}; calls := 0; trace := [] |}.

Lemma works_short : short_answers works.
Proof.
  intros n l. change (h_read works n WCN_LOOP_IFACE) with (if Nat.ltb n 26 then Some [120] else Some [104; 105; 10]).
  destruct (Nat.ltb n 26); intros [= <-]; cbn; lia.
Qed.
Lemma works_reliable fd : reliable works fd.
Proof. by intros n data. Qed.
Lemma example_table : table_ok (client_fds (mgr example_world)).
Proof. split; [done|]. split; [by repeat constructor|]. cbn. repeat constructor; set_solver. Qed.

Example example_reset_log :
  (let* (_, w) := do_cp2_reset_process works example_world in
   Done (heard 9 (trace w), is_cp2_error (mgr w), concat (snd <$> filter (fun x => fst x = WCN_DOWNLOAD_IFACE) (dev_writes (trace w))))) =
  Done (success, false, Z.of_nat <$> seq 100 20).
Proof. by vm_compute. Qed.

Lemma reset_process_witness :
  exists w' t, do_cp2_reset_process works example_world = Done (0, w') /\ after example_world w' t /\ table_ok (client_fds (mgr w')) /\
    doing_reset (mgr w') = false /\
    exists k (ok : bool),
      (forall fd, listening works example_world fd -> heard fd t = failed_attempts k ++ (if ok then success else []) /\ listening works w' fd) /\
      if ok then (k < 4)%nat /\ is_cp2_error (mgr w') = false /\
        exists a b, t = a ++ b /\ booted works (wcn_image_file_size (mgr example_world)) b
      else k = 4%nat /\ is_cp2_error (mgr w') = is_cp2_error (mgr example_world).
Proof. exact (reset_process works example_world works_short example_table). Defined.

Lemma exception_announced_witness :
  exists w' t, handle_exception works example_world WCN_ASSERT_IFACE = Done (0, w') /\ after example_world w' t /\
    table_ok (client_fds (mgr w')) /\ is_cp2_error (mgr w') = true /\
    forall fd, listening works example_world fd ->
      heard fd t = [msg (WCND_CP2_EXCEPTION_STRING ++ 32 :: bytes_of "PS assert")] /\ listening works w' fd.
Proof.
  apply (exception_announced works example_world WCN_ASSERT_IFACE (bytes_of "PS assert") example_table); [reflexivity|cbn; lia|].
  repeat constructor; discriminate.
Defined.

(** An answer of 32 bytes of the loop device, or a message of 200 bytes of CP2, is no string in
    the array it is read into. *)
Definition talkative : host := {|
  h_open := h_open works; h_write := h_write works; h_read := fun _ _ => Some (replicate 256 120);
  h_select := h_select works; h_chunk := h_chunk works; h_seek := h_seek works; h_send := h_send works;
  h_recv := h_recv works; h_accept := h_accept works; h_ready := h_ready works; h_props := h_props works; image := image works |}.
Lemma long_answers_overrun : is_cp2_alive_ok talkative example_world = Undef /\ handle_cp2_assert talkative example_world = Undef.
Proof. by vm_compute. Qed.

(** A socket that takes three bytes of a message: [send_msg] does not write the others, and the
    client stays connected. *)
Definition narrow : host := {|
  h_open := h_open works; h_write := h_write works; h_read := h_read works;
  h_select := h_select works; h_chunk := h_chunk works; h_seek := h_seek works; h_send := fun _ _ _ => 3;
  h_recv := h_recv works; h_accept := h_accept works; h_ready := h_ready works; h_props := h_props works; image := image works |}.
Lemma short_write_cuts : let w := send_notify_to_client narrow example_world WCND_CP2_ALIVE_STRING in
  heard 7 (trace w) = [take 3 WCND_CP2_ALIVE_STRING] /\ client_fds (mgr w) = client_fds (mgr example_world).
Proof. by vm_compute. Qed.
