(* ===== verification/WcndCommand.v ===== *)
(** * apps/wcnd: the commands of the clients

    A client writes commands to its socket, each with a NUL at its end: the name of an executer
    and arguments, with quotes and escapes.  This file models how what was read is cut into
    commands and a command into arguments (wcnd.c), the two executers (wcnd.c and
    wcnd_eng_cmd_executer.c), a round of the thread that serves the clients, and the start of
    the daemon. *)

From S2P Require Import Prelude CString EngText WcndManager.

(** ** AT commands *)
Section commands.
  Context (h : host).

(** [n] reads are left; a string is what comes before the first NUL. *)
Fixpoint at_response (n : nat) (w : world) : list Z * world :=
  match n with
  | O => (bytes_of "Fail: No data available", w)
  | S n =>
      let '(got, w) := read_dev h w WCN_ATCMD_IFACE 254 in
      match got with
      | None | Some [] => at_response n (usleep w 300)
      | Some l => (default [] (cstr (l ++ [0])), w)
      end
  end.

Definition wcn_process_atcmd (w : world) (client_fd : Z) (atcmd : list Z) : outcome (Z * world) :=
  let* buffer := splice (replicate 255 0) 0 (snprintf255 atcmd) in
  let* (buffer, atcmd_len) :=
    if zlen atcmd <? 254 then
      let* c := rd buffer (zlen atcmd - 1) in
      if negb (c =? 13) then let* buffer := wr buffer (zlen atcmd) 13 in Done (buffer, zlen atcmd + 1)
      else Done (buffer, zlen atcmd)
    else Done (buffer, zlen atcmd) in
  let '(ok, w) := open_dev h w WCN_ATCMD_IFACE in
  if negb ok then Done (-1, w)
  else
    let* data := slice buffer 0 atcmd_len in
    let '(len, w) := write_dev h w WCN_ATCMD_IFACE data in
    if len <? 0 then Done (-1, w)
    else
      let '(buffer, w) := at_response 6 (usleep w 100) in
      if client_fd <=? 0 then Done (-1, w)
      else
        let '(ret, w) := send h w client_fd (buffer ++ [0]) in
        Done (if ret <? 0 then -1 else 0, w).

(** ** The executers

    [argv] is what follows the name of the executer. *)
Definition wcn_runcommand (w : world) (client_fd : Z) (argv : list (list Z)) : outcome world :=
  match argv with
  | [] => Done (snd (send_back_cmd_result h w client_fd (Some (bytes_of "Missing argument")) false))
  | a :: _ =>
      if decide (a = bytes_of "reset") then
        let '(_, w) := send_back_cmd_result h w client_fd None true in
        let* (_, w) := do_cp2_reset_process h w in Done w
      else if decide (a = bytes_of "test") then Done (snd (send_back_cmd_result h w client_fd None true))
      else if strstr a (bytes_of "at+") then let* (_, w) := wcn_process_atcmd w client_fd a in Done w
      else Done (snd (send_back_cmd_result h w client_fd (Some (bytes_of "Not support cmd")) false))
  end.

(** The commands of the WiFi and Bluetooth test tools (apps/engmode/iwnpi and apps/engmode/bt),
    which are linked into the daemon and are not modelled. *)
  Context (iwnpi_runcommand bt_runcommand : world -> Z -> list (list Z) -> outcome world).

Definition eng_runcommand (w : world) (client_fd : Z) (argv : list (list Z)) : outcome world :=
  let missing := Done (snd (send_back_cmd_result h w client_fd (Some (bytes_of "Missing argument")) false)) in
  match argv with
  | [] => missing
  | a :: rest =>
      if decide (a = bytes_of "iwnpi") then match rest with [] => missing | _ => iwnpi_runcommand w client_fd rest end
      else if decide (a = bytes_of "bt") then match rest with [] => missing | _ => bt_runcommand w client_fd rest end
      else Done (snd (send_back_cmd_result h w client_fd (Some (bytes_of "Not support cmd")) false))
  end.

Definition executer_name (e : WcnCmdExecuter) : list Z :=
  match e with wcn_cmdexecuter => bytes_of "wcn" | wcn_eng_cmdexecuter => bytes_of "eng" end.
Definition runcommand (e : WcnCmdExecuter) : world -> Z -> list (list Z) -> outcome world :=
  match e with wcn_cmdexecuter => wcn_runcommand | wcn_eng_cmdexecuter => eng_runcommand end.

(** The first free entry of the list, unless the executer is in it already. *)
Fixpoint register_in (l : list (option WcnCmdExecuter)) (e : WcnCmdExecuter) : option (list (option WcnCmdExecuter)) :=
  match l with
  | [] => None
  | None :: l => Some (Some e :: l)
  | Some x :: l => if decide (x = e) then Some (Some x :: l) else cons (Some x) <$> register_in l e
  end.
Definition wcnd_register_cmdexecuter (m : WcndManager) (e : WcnCmdExecuter) : Z * WcndManager :=
  if inited m then
    match register_in (cmdexecuter_list m) e with
    | Some l => (0, set_executers m l)
    | None => (-1, m)
    end
  else (-1, m).

(** ** A command is cut into arguments *)
Definition too_long : list Z := bytes_of "Command too long".
Definition WCND_CMD_ARGS_MAX : Z := 16.

(** [p] is left of the command, [q] is what [tmp] holds so far, of at most 254 characters.  A
    backslash after a backslash is taken in the first branch.  [haveCmdNum] is never set. *)
Fixpoint tokens (p q : list Z) (esc quote : bool) (argv : list (list Z)) : list Z + list (list Z) :=
  let full := 254 <=? zlen q in
  match p with
  | [] =>
      if WCND_CMD_ARGS_MAX <=? zlen argv then inl too_long
      else if quote then inl (bytes_of "Unclosed quotes error")
      else inr (argv ++ [q])
  | c :: p =>
      if c =? 92 then
        if esc then (if full then inl too_long else tokens p (q ++ [92]) false quote argv)
        else tokens p q true quote argv
      else if esc then
        if c =? 34 then (if full then inl too_long else tokens p (q ++ [34]) false quote argv)
        else inl (bytes_of "Unsupported escape sequence")
      else if c =? 34 then tokens p q false (negb quote) argv
      else if full then inl too_long
      else if negb quote && (c =? 32) then
        if WCND_CMD_ARGS_MAX <=? zlen argv then inl too_long else tokens p [] false quote (argv ++ [q])
      else tokens p (q ++ [c]) false quote argv
  end.

Fixpoint find_handler (l : list (option WcnCmdExecuter)) (name : list Z) : option WcnCmdExecuter :=
  match l with
  | [] => None
  | Some e :: l => if decide (name = executer_name e) then Some e else find_handler l name
  | None :: l => find_handler l name
  end.

(** The executer named by the first argument runs on the others. *)
Definition run_args (w : world) (client_fd : Z) (argv : list (list Z)) : outcome world :=
  match argv with
  | [] => Undef
  | name :: args =>
      match find_handler (cmdexecuter_list (mgr w)) name with
      | None => Done (snd (send_back_cmd_result h w client_fd (Some (bytes_of "Command not recognized")) false))
      | Some e => runcommand e w client_fd args
      end
  end.

Definition dispatch_command2 (w : world) (client_fd : Z) (data : list Z) : outcome world :=
  match tokens data [] false false [] with
  | inl err => Done (snd (send_back_cmd_result h w client_fd (Some err) false))
  | inr argv => run_args w client_fd argv
  end.

(** ** What was read is cut into commands *)
Fixpoint skip_spaces (fuel : nat) (buffer : list Z) (count : Z) : outcome Z :=
  match fuel with
  | O => Fuel
  | S fuel => let* c := rd buffer count in if c =? 32 then skip_spaces fuel buffer (count + 1) else Done count
  end.

(** [n] characters are left; a command starts at [start]. *)
Fixpoint dispatch_loop (n : nat) (w : world) (client_fd : Z) (buffer : list Z) (count start : Z) : outcome (world * Z * Z) :=
  match n with
  | O => Done (w, count, start)
  | S n =>
      let* c := rd buffer count in
      let* (w, start) :=
        if c =? 0 then
          let* w := if start <? count then let* s := cstr_at buffer start in dispatch_command2 w client_fd s else Done w in
          Done (w, count + 1)
        else Done (w, start) in
      dispatch_loop n w client_fd buffer (count + 1) start
  end.

Definition dispatch_command (w : world) (client_fd : Z) (data : list Z) (data_len : Z) : outcome world :=
  if 255 <=? data_len then Done w
  else
    let* d := slice data 0 data_len in
    let* buffer := splice (replicate 255 0) 0 d in
    let* count := skip_spaces 255 buffer 0 in
    let* (w, count, start) := dispatch_loop (Z.to_nat (data_len - count)) w client_fd buffer count count in
    let* last := rd buffer data_len in
    if negb (last =? 0) then Done w
    else if start <? count then let* s := cstr_at buffer start in dispatch_command2 w client_fd s
    else Done w.

(** The last of the 255 bytes is kept for a NUL, and counted. *)
Definition process_active_client_fd (w : world) (fd : Z) : outcome (Z * world) :=
  let got := take 254 <$> h_recv h (calls w) fd in
  let w := tick w in
  match got with
  | None | Some [] => Done (RDWR_FD_FAIL, w)
  | Some l =>
      let* buffer := splice (replicate 255 0) 0 l in
      let* w := dispatch_command w fd buffer (zlen l + 1) in
      Done (0, w)
  end.

(** ** A round of the thread that serves the clients *)

(** The entry of a client is freed, and its socket closed. *)
Fixpoint zap (fds : list Z) (fd : Z) : option (list Z) :=
  match fds with
  | [] => None
  | f :: fds => if f =? fd then Some (-1 :: fds) else cons f <$> zap fds fd
  end.
Definition zap_client (w : world) (fd : Z) : world :=
  match zap (client_fds (mgr w)) fd with
  | Some fds => with_mgr (emit w (EClose fd)) (set_client_fds (mgr w) fds)
  | None => w
  end.

Fixpoint process_pending (w : world) (pending : list Z) : outcome world :=
  match pending with
  | [] => Done w
  | fd :: pending =>
      let* w :=
        if fd =? -1 then Done w
        else
          let* (ret, w) := process_active_client_fd w fd in
          Done (if ret =? RDWR_FD_FAIL then zap_client w fd else w) in
      process_pending w pending
  end.

(** The clients of the table that are ready, in a table of their own. *)
Definition pending_fds (isset : Z -> bool) (fds : list Z) : list Z :=
  foldl (fun pending fd => if negb (fd =? -1) && isset fd then store_client_fd pending fd else pending)
    (replicate WCND_MAX_CLIENT_NUM (-1)) fds.

(** [select] leaves a descriptor set only if it was set before the call. *)
Definition client_round (w : world) : outcome world :=
  let asked := listen_fd (mgr w) :: client_fds (mgr w) in
  let '(rc, ready) := h_ready h (calls w) in
  let isset fd := ready fd && bool_decide (fd ∈ asked) in
  let w := tick w in
  if rc <? 0 then Done (usleep w 1000)
  else if rc =? 0 then Done w
  else
    let c := h_accept h (calls w) in
    if isset (listen_fd (mgr w)) && (c <? 0) then Done (usleep (tick w) 1000)
    else
      let w :=
        if isset (listen_fd (mgr w)) then
          with_mgr (tick w) (set_client_fds (mgr w) (store_client_fd (client_fds (mgr w)) c))
        else w in
      process_pending w (pending_fds isset (client_fds (mgr w))).

(** ** The start *)

(** [sock] is what [socket_local_server] returns. *)
Definition init (w : world) (sock : Z) : Z * world :=
  let fds := replicate WCND_MAX_CLIENT_NUM (-1) in
  let made i size := {| inited := i; client_fds := fds; listen_fd := sock; wcn_image_file_size := size; notify_count := 0;
    cmdexecuter_list := replicate WCND_MAX_CMD_EXECUTER_NUM None; doing_reset := false; is_cp2_error := false |} in
  if sock <? 0 then (-1, with_mgr w (made false 0))
  else
    let w := with_mgr w (made false WCN_IMAGE_SIZE) in
    let '(value, w) := property_get h w WCND_RESET_PROP_KEY "" in
    let w := if (String.length value =? 0)%nat then property_set w WCND_RESET_PROP_KEY "1" else w in
    (0, with_mgr w (made true WCN_IMAGE_SIZE)).

Definition start_engineer_service (w : world) : world :=
  let '(prop, w) := property_get h w WCND_ENGCTRL_PROP_KEY "0" in
  if (prop =? "1")%string then w
  else
    let w := property_set w "ctl.start" "engservicewcn" in
    let w := property_set w "ctl.start" "engmodemclientwcn" in
    property_set w "ctl.start" "engpcclientwcn".

(** [strstr] on the value. *)
Definition check_disable_cp2_log (w : world) : outcome (Z * world) :=
  let '(value, w) := property_get h w "ro.build.type" "userdebug" in
  if strstr (bytes_of value) (bytes_of "userdebug") then Done (0, w)
  else wcn_process_atcmd w (-1) (bytes_of "AT+ARMLOG=0" ++ [13]).

(** The threads that run. *)
Inductive thread : Type := client_listen_thread | cp2_listen_thread | cp2_loop_check_thread.

(** [threads_made t] is whether [pthread_create] succeeds.  A thread that watches CP2 is not
    wanted when CP2 is disabled. *)
Definition start_cp2_listener (w : world) (made : bool) (t : thread) : Z * list thread * world :=
  let '(enabled, w) := check_if_wcnmodem_enable h w in
  if negb enabled then (0, [], w) else if made then (0, [t], w) else (-1, [], w).

(** After the addresses (WcndMac).  [main] returns -1, or sleeps for ever with the threads. *)
Definition main (w : world) (sock : Z) (threads_made : thread -> bool) : outcome (option (list thread) * world) :=
  let '(ret, w) := init w sock in
  if ret <? 0 then Done (None, w)
  else if negb (threads_made client_listen_thread) then Done (None, w)
  else
    let '(ret, listener, w) := start_cp2_listener w (threads_made cp2_listen_thread) cp2_listen_thread in
    if ret <? 0 then Done (None, w)
    else
      let '(_, checker, w) := start_cp2_listener w (threads_made cp2_loop_check_thread) cp2_loop_check_thread in
      let w := start_engineer_service w in
      let w := with_mgr w (snd (wcnd_register_cmdexecuter (mgr w) wcn_cmdexecuter)) in
      let w := with_mgr w (snd (wcnd_register_cmdexecuter (mgr w) wcn_eng_cmdexecuter)) in
      let* (_, w) := check_disable_cp2_log w in
      Done (Some (client_listen_thread :: listener ++ checker), w).
End commands.

(** ** Printing a command

    Each argument in quotes, with a backslash before a quote and before a backslash. *)
Definition escaped (s : list Z) : list Z := flat_map (fun c => if (c =? 34) || (c =? 92) then [92; c] else [c]) s.
Definition quoted (s : list Z) : list Z := 34 :: escaped s ++ [34].
Fixpoint command_line (args : list (list Z)) : list Z :=
  match args with [] => [] | [a] => quoted a | a :: args => quoted a ++ 32 :: command_line args end.

Lemma tokens_escaped s : forall rest q argv, zlen q + zlen s <= 254 ->
  tokens (escaped s ++ rest) q false true argv = tokens rest (q ++ s) false true argv.
Proof.
  induction s as [|c s IH]; intros rest q argv Hl; [by rewrite app_nil_r|]. rewrite zlen_cons in Hl. pose proof (zlen_nonneg s).
  assert (Hq : (254 <=? zlen q) = false) by lia.
  assert (Hnext : tokens (escaped s ++ rest) (q ++ [c]) false true argv = tokens rest (q ++ c :: s) false true argv).
  { rewrite IH by (rewrite zlen_app, zlen_cons, zlen_nil; lia). by rewrite <- app_assoc. }
  cbn [escaped flat_map]. destruct (Z.eqb_spec c 34) as [->|H34]; [cbn; by rewrite Hq|].
  destruct (Z.eqb_spec c 92) as [->|H92]; [cbn; by rewrite Hq|]. cbn [orb app tokens].
  apply Z.eqb_neq in H34 as ->. apply Z.eqb_neq in H92 as ->. rewrite Hq. cbn [negb andb]. exact Hnext.
Qed.

Lemma tokens_quoted s rest argv : zlen s <= 254 -> tokens (quoted s ++ rest) [] false false argv = tokens rest s false false argv.
Proof.
  intros Hl. unfold quoted. cbn [app tokens Z.eqb Pos.eqb negb]. rewrite <- app_assoc, tokens_escaped by (rewrite zlen_nil; lia). done.
Qed.

Lemma tokens_line args : forall argv, args <> [] -> zlen argv + zlen args <= WCND_CMD_ARGS_MAX ->
  Forall (fun a => zlen a <= 253) args ->
  tokens (command_line args) [] false false argv = inr (argv ++ args).
Proof.
  induction args as [|a args IH]; intros argv Hn Hl Hf; [done|]. apply Forall_cons in Hf as [Ha Hf]. rewrite zlen_cons in Hl.
  destruct args as [|b args].
  { cbn [command_line]. rewrite zlen_nil in Hl. rewrite <- (app_nil_r (quoted a)), tokens_quoted by lia. cbn [tokens].
    by guard_false (WCND_CMD_ARGS_MAX <=? zlen argv). }
  change (command_line (a :: b :: args)) with (quoted a ++ 32 :: command_line (b :: args)).
  pose proof (zlen_nonneg (b :: args)). rewrite tokens_quoted by lia. cbn [tokens Z.eqb Pos.eqb negb andb].
  guard_false (254 <=? zlen a). rewrite zlen_cons in *. pose proof (zlen_nonneg args). guard_false (WCND_CMD_ARGS_MAX <=? zlen argv).
  rewrite IH; [by rewrite <- app_assoc|done|rewrite zlen_app, !zlen_cons, zlen_nil; lia|done].
Qed.

Lemma tokens_too_many args : forall argv, zlen argv <= WCND_CMD_ARGS_MAX < zlen argv + zlen args ->
  Forall (fun a => zlen a <= 253) args -> tokens (command_line args) [] false false argv = inl too_long.
Proof.
  induction args as [|a args IH]; intros argv Hl Hf; [rewrite zlen_nil in Hl; lia|]. apply Forall_cons in Hf as [Ha Hf].
  rewrite zlen_cons in Hl. destruct args as [|b args].
  { cbn [command_line]. rewrite zlen_nil in Hl. rewrite <- (app_nil_r (quoted a)), tokens_quoted by lia. cbn [tokens].
    by guard_true (WCND_CMD_ARGS_MAX <=? zlen argv). }
  change (command_line (a :: b :: args)) with (quoted a ++ 32 :: command_line (b :: args)).
  rewrite tokens_quoted by lia. cbn [tokens Z.eqb Pos.eqb negb andb]. guard_false (254 <=? zlen a).
  destruct (Z.leb_spec WCND_CMD_ARGS_MAX (zlen argv)); [done|].
  apply IH; [rewrite zlen_app, zlen_cons, zlen_nil; lia|done].
Qed.

(** An argument is never longer than the command. *)
Lemma tokens_bound p : forall q esc quote argv out n, tokens p q esc quote argv = inr out ->
  zlen q + zlen p <= n -> Forall (fun a => zlen a <= n) argv -> Forall (fun a => zlen a <= n) out /\ out <> [].
Proof.
  induction p as [|c p IH]; intros q esc quote argv out n H Hl Hf; cbn [tokens] in H.
  { repeat case_match; try done. injection H as <-. rewrite zlen_nil in Hl. split; [|by destruct argv].
    apply Forall_app. split; [done|]. constructor; [lia|done]. }
  rewrite zlen_cons in Hl. pose proof (zlen_nonneg q). pose proof (zlen_nonneg p).
  repeat case_match; try done; eapply IH; try exact H; rewrite ?zlen_app, ?zlen_cons, ?zlen_nil; try lia; try done.
  apply Forall_app. split; [done|]. constructor; [lia|done].
Qed.

(** ** Cutting what was read

    The commands in [rest], when [cur] of the first has been seen: each ends with a NUL. *)
Fixpoint segments (cur rest : list Z) : list (list Z) :=
  match rest with
  | [] => []
  | c :: rest => if c =? 0 then (if decide (cur = []) then [] else [cur]) ++ segments [] rest else segments (cur ++ [c]) rest
  end.
Fixpoint drop_spaces (l : list Z) : list Z := match l with 32 :: l => drop_spaces l | _ => l end.

(** All the commands of a text, a NUL after it. *)
Definition commands_in (text : list Z) : list (list Z) := segments [] (drop_spaces text ++ [0]).

Section cutting.
  Context (h : host) (iwnpi bt : world -> Z -> list (list Z) -> outcome world).

Fixpoint run_commands (w : world) (fd : Z) (cmds : list (list Z)) : outcome world :=
  match cmds with
  | [] => Done w
  | c :: cmds => let* w := dispatch_command2 h iwnpi bt w fd c in run_commands w fd cmds
  end.

Lemma dispatch_loop_spec fd rest : forall w pre cur tail, Forall (fun c => c <> 0) cur -> last (cur ++ rest) = Some 0 ->
  let n := zlen pre + zlen cur + zlen rest in
  dispatch_loop h iwnpi bt (length rest) w fd (pre ++ cur ++ rest ++ tail) (zlen pre + zlen cur) (zlen pre) =
  let* w := run_commands w fd (segments cur rest) in Done (w, n, n).
Proof.
  induction rest as [|c rest IH]; intros w pre cur tail Hc Hlast n.
  { rewrite app_nil_r in Hlast. apply last_Some in Hlast as [l' ->]. apply Forall_app in Hc as [_ Hc].
    by apply Forall_cons in Hc as [? _]. }
  cbn [length dispatch_loop segments app].
  rewrite (app_assoc pre), (rd_app (pre ++ cur) (rest ++ tail)) by (by rewrite zlen_app). cbn [obind].
  destruct (Z.eqb_spec c 0) as [->|Hc0].
  - assert (Hrest : forall w, dispatch_loop h iwnpi bt (length rest) w fd ((pre ++ cur) ++ 0 :: rest ++ tail)
        (zlen pre + zlen cur + 1) (zlen pre + zlen cur + 1) = let* w := run_commands w fd (segments [] rest) in Done (w, n, n)).
    { intros w1. destruct rest as [|c' rest'].
      { cbn [length dispatch_loop segments run_commands obind]. unfold n. rewrite zlen_cons, zlen_nil. do 3 f_equal; lia. }
      replace ((pre ++ cur) ++ 0 :: (c' :: rest') ++ tail) with (((pre ++ cur) ++ [0]) ++ [] ++ (c' :: rest') ++ tail)
        by (by rewrite <- (app_assoc (pre ++ cur))).
      replace (zlen pre + zlen cur + 1) with (zlen ((pre ++ cur) ++ [0])) by (rewrite !zlen_app, zlen_cons, zlen_nil; lia).
      rewrite <- (Z.add_0_r (zlen ((pre ++ cur) ++ [0]))) at 1. change 0 with (zlen (@nil Z)) at 2.
      rewrite IH; [|done|].
      { replace (zlen ((pre ++ cur) ++ [0]) + zlen (@nil Z) + zlen (c' :: rest')) with n; [done|].
        unfold n. rewrite !zlen_app, !zlen_cons, !zlen_nil. lia. }
      rewrite last_app in Hlast. change (last (0 :: c' :: rest')) with (last (c' :: rest')) in Hlast. cbn [app].
      destruct (last (c' :: rest')) eqn:El; [done|]. by apply last_None in El. }
    destruct (decide (cur = [])) as [->|Hne].
    + rewrite zlen_nil, Z.add_0_r, Z.ltb_irrefl in *. cbn [obind app]. apply Hrest.
    + assert (0 < zlen cur) by (destruct cur; [done|rewrite zlen_cons; pose proof (zlen_nonneg cur); lia]).
      guard_true (zlen pre <? zlen pre + zlen cur). rewrite <- app_assoc, cstr_at_app by done. cbn [obind app run_commands].
      destruct (dispatch_command2 h iwnpi bt w fd cur) as [w1| |]; cbn [obind]; [|done..]. rewrite app_assoc. apply Hrest.
  - cbn [obind]. specialize (IH w pre (cur ++ [c]) tail). replace ((pre ++ cur) ++ c :: rest ++ tail)
      with (pre ++ (cur ++ [c]) ++ rest ++ tail) by (by rewrite <- !app_assoc).
    assert (Hz : zlen pre + zlen (cur ++ [c]) = zlen pre + zlen cur + 1) by (rewrite zlen_app, zlen_cons, zlen_nil; lia).
    cbv zeta in IH. rewrite Hz in IH. rewrite IH.
    + replace (zlen pre + zlen cur + 1 + zlen rest) with n; [done|]. unfold n. rewrite zlen_cons. lia.
    + apply Forall_app. split; [done|by constructor].
    + by rewrite <- app_assoc.
Qed.

Lemma drop_spaces_suffix l : exists sp, l = sp ++ drop_spaces l /\ Forall (fun c => c = 32) sp.
Proof.
  induction l as [|c l (sp & E & H)]; [by exists []|]. destruct (decide (c = 32)) as [->|Hc].
  - exists (32 :: sp). cbn [drop_spaces app]. split; [by f_equal|by constructor].
  - exists []. split; [|done]. cbn [app drop_spaces]. clear -Hc. repeat (case_match; try done; try lia).
Qed.

Lemma drop_spaces_head l c r : drop_spaces l = c :: r -> c <> 32.
Proof.
  induction l as [|d l IH]; [done|]. destruct (decide (d = 32)) as [->|Hd]; [exact IH|].
  intros H ->. cbn [drop_spaces] in H. clear IH. repeat (case_match; try done; try lia); simplify_eq.
Qed.

Lemma skip_spaces_spec sp : forall fuel pre rest, Forall (fun c => c = 32) sp -> (length sp < fuel)%nat ->
  (forall r, rest <> 32 :: r) -> rest <> [] ->
  skip_spaces fuel (pre ++ sp ++ rest) (zlen pre) = Done (zlen (pre ++ sp)).
Proof.
  induction sp as [|c sp IH]; intros fuel pre rest Hs Hf Hh Hn; (destruct fuel as [|fuel]; [cbn in Hf; lia|]); cbn [skip_spaces].
  - destruct rest as [|d rest]; [done|]. cbn [app]. rewrite rd_app by done. cbn [obind].
    destruct (Z.eqb_spec d 32) as [->|]; [by destruct (Hh rest)|]. by rewrite app_nil_r.
  - apply Forall_cons in Hs as [-> Hs]. cbn [app]. rewrite rd_app by done. cbn [obind Z.eqb Pos.eqb].
    specialize (IH fuel (pre ++ [32]) rest Hs ltac:(cbn in Hf; lia) Hh Hn).
    rewrite zlen_app, zlen_cons, zlen_nil, <- !app_assoc in IH. exact IH.
Qed.

(** What was read, of at most 253 bytes, is run command by command. *)
Lemma dispatch_command_spec w fd text : zlen text <= 253 ->
  dispatch_command h iwnpi bt w fd (text ++ replicate (255 - length text) 0) (zlen text + 1) =
  run_commands w fd (commands_in text).
Proof.
  intros Hl. assert (Hn : (length text <= 253)%nat) by (unfold zlen in Hl; lia).
  destruct (254 - length text)%nat as [|k] eqn:Ek; [lia|].
  replace (255 - length text)%nat with (S (S k)) by lia. cbn [replicate]. unfold dispatch_command.
  guard_false (255 <=? zlen text + 1).
  replace (text ++ 0 :: 0 :: replicate k 0) with ((text ++ [0]) ++ 0 :: replicate k 0) by (by rewrite <- app_assoc).
  assert (Hz : zlen (text ++ [0]) = zlen text + 1) by (by rewrite zlen_app).
  rewrite slice_app_l by done. cbn [obind].
  assert (splice (replicate 255 0) 0 (text ++ [0]) = Done ((text ++ [0]) ++ 0 :: replicate k 0)) as ->.
  { rewrite splice_in by (rewrite ?zlen_replicate; lia). change (Z.to_nat 0) with 0%nat. rewrite take_0, drop_replicate, length_app.
    cbn [length app]. by replace (255 - (0 + (length text + 1)))%nat with (S k) by lia. }
  cbn [obind]. destruct (drop_spaces_suffix text) as (sp & E & Hsp). set (ds := drop_spaces text) in *.
  assert (Hb : (text ++ [0]) ++ 0 :: replicate k 0 = [] ++ sp ++ (ds ++ [0]) ++ 0 :: replicate k 0).
  { rewrite E at 1. by rewrite <- !app_assoc. }
  rewrite Hb. change 0 with (zlen (@nil Z)) at 4. rewrite (skip_spaces_spec sp 255 []); [|done| | |by destruct ds].
  2: { apply (f_equal (@length Z)) in E. rewrite length_app in E. lia. }
  2: { intros r Hr. destruct ds as [|c ds'] eqn:Ed; [done|]. injection Hr as -> _. by apply (drop_spaces_head text 32 ds'). }
  cbn [obind app]. assert (Hlen : zlen text = zlen sp + zlen ds) by (by rewrite E at 1; rewrite zlen_app).
  replace (Z.to_nat (zlen text + 1 - zlen sp)) with (length (ds ++ [0])) by (rewrite length_app; unfold zlen in *; cbn; lia).
  pose proof (dispatch_loop_spec fd (ds ++ [0]) w sp [] (0 :: replicate k 0) ltac:(done) ltac:(cbn [app]; by rewrite last_snoc)) as D.
  cbv zeta in D. change (zlen (@nil Z)) with 0 in D. rewrite !Z.add_0_r in D. cbn [app] in D. rewrite D. change (segments [] (ds ++ [0])) with (commands_in text).
  destruct (run_commands w fd (commands_in text)) as [w1| |]; cbn [obind]; [|done..].
  rewrite (app_assoc sp), rd_app by (rewrite !zlen_app, zlen_cons, zlen_nil; lia). cbn [obind Z.eqb negb]. by rewrite Z.ltb_irrefl.
Qed.

Lemma process_spec w fd text : h_recv h (calls w) fd = Some text -> text <> [] -> zlen text <= 253 ->
  process_active_client_fd h iwnpi bt w fd = let* w := run_commands (tick w) fd (commands_in text) in Done (0, w).
Proof.
  intros Hr Hn Hl. unfold process_active_client_fd. rewrite Hr. cbn [fmap option_fmap option_map].
  rewrite firstn_all2 by (unfold zlen in Hl; lia). destruct text as [|c text]; [done|]. set (l := c :: text) in *.
  rewrite splice_in by (rewrite ?zlen_replicate; lia). cbn [obind]. change (Z.to_nat 0) with 0%nat.
  rewrite take_0, Nat.add_0_l, drop_replicate. cbn [app]. by rewrite dispatch_command_spec.
Qed.

(** A read that fills the buffer is dropped whole, and the client gets no answer. *)
Lemma full_read_dropped w fd text : h_recv h (calls w) fd = Some text -> 254 <= zlen text ->
  process_active_client_fd h iwnpi bt w fd = Done (0, tick w).
Proof.
  intros Hr Hl. unfold process_active_client_fd. rewrite Hr. cbn [fmap option_fmap option_map].
  assert (Ht : zlen (take 254 text) = 254) by (unfold zlen in *; rewrite length_take; lia).
  destruct (take 254 text) as [|c l] eqn:E; [done|]. rewrite splice_in by (rewrite ?zlen_replicate; lia). cbn [obind].
  rewrite Ht. done.
Qed.
End cutting.

(** ** What a client writes is what runs *)
Section served.
  Context (h : host) (iwnpi bt : world -> Z -> list (list Z) -> outcome world).

(** A packet of commands: each printed, and a NUL after it. *)
Definition packet (cmds : list (list (list Z))) : list Z := concat ((fun args => command_line args ++ [0]) <$> cmds).

Fixpoint run_all (w : world) (fd : Z) (cmds : list (list (list Z))) : outcome world :=
  match cmds with
  | [] => Done w
  | args :: cmds => let* w := run_args h iwnpi bt w fd args in run_all w fd cmds
  end.

Lemma segments_one s : forall cur rest, Forall (fun c => c <> 0) s -> cur ++ s <> [] ->
  segments cur (s ++ 0 :: rest) = (cur ++ s) :: segments [] rest.
Proof.
  induction s as [|c s IH]; intros cur rest Hs Hn; cbn [app segments].
  - rewrite app_nil_r in *. by rewrite decide_False.
  - apply Forall_cons in Hs as [Hc Hs]. apply Z.eqb_neq in Hc as ->. rewrite IH, <- app_assoc; [done|done|].
    rewrite <- app_assoc. by destruct cur.
Qed.

Definition args_ok (args : list (list Z)) : Prop :=
  args <> [] /\ zlen args <= WCND_CMD_ARGS_MAX /\ Forall (Forall (fun c => c <> 0)) args.

Lemma command_line_shape args : args_ok args -> exists r, command_line args = 34 :: r /\
  Forall (fun c => c <> 0) (command_line args) /\ Forall (fun a => zlen a < zlen (command_line args)) args.
Proof.
  intros (Hn & _ & Hz). induction args as [|a args IH]; [done|]. apply Forall_cons in Hz as [Ha Hz].
  assert (Hq : Forall (fun c => c <> 0) (quoted a) /\ zlen a < zlen (quoted a)).
  { unfold quoted, escaped. clear -Ha. rewrite zlen_cons, zlen_app. change (zlen [34]) with 1.
    assert (H : Forall (fun c => c <> 0) (flat_map (fun c => if (c =? 34) || (c =? 92) then [92; c] else [c]) a) /\
      zlen a <= zlen (flat_map (fun c => if (c =? 34) || (c =? 92) then [92; c] else [c]) a)).
    { induction Ha as [|c s Hc Hs [IH1 IH2]]; [by cbn|]. cbn [flat_map]. rewrite zlen_app, zlen_cons.
      destruct ((c =? 34) || (c =? 92)); [change (zlen [92; c]) with 2|change (zlen [c]) with 1];
        (split; [by repeat constructor|lia]). }
    destruct H. split; [|lia]. constructor; [done|]. apply Forall_app. split; [done|by repeat constructor]. }
  destruct Hq as [Hq Hlt]. destruct args as [|b args].
  - eexists. split; [done|]. cbn [command_line]. split; [done|]. by repeat constructor.
  - destruct IH as (r & _ & Hc & Hb); [done|done|].
    change (command_line (a :: b :: args)) with (quoted a ++ 32 :: command_line (b :: args)).
    eexists. split; [done|]. rewrite zlen_app, zlen_cons. pose proof (zlen_nonneg (command_line (b :: args))).
    split; [apply Forall_app; split; [done|by constructor]|]. constructor; [lia|].
    eapply Forall_impl; [exact Hb|]. intros x Hx. cbv beta in Hx. pose proof (zlen_nonneg (quoted a)). lia.
Qed.

(** A command of more than 16 arguments does not run, and the client is told. *)
Lemma too_many_arguments_refused w fd args : WCND_CMD_ARGS_MAX < zlen args -> Forall (fun a => zlen a <= 253) args ->
  dispatch_command2 h iwnpi bt w fd (command_line args) = Done (snd (send_back_cmd_result h w fd (Some too_long) false)).
Proof. intros Hn Hf. unfold dispatch_command2. by rewrite tokens_too_many by (rewrite ?zlen_nil; unfold WCND_CMD_ARGS_MAX in *; done || lia). Qed.

Lemma packet_commands cmds : Forall args_ok cmds -> commands_in (packet cmds) = command_line <$> cmds.
Proof.
  intros H. unfold commands_in.
  assert (Hd : drop_spaces (packet cmds) = packet cmds).
  { destruct H as [|args cmds Ha _]; [done|]. destruct (command_line_shape args Ha) as (r & E & _).
    unfold packet. cbn [fmap list_fmap concat]. by rewrite E. }
  rewrite Hd. clear Hd. induction H as [|args cmds Ha Hs IH]; [done|].
  destruct (command_line_shape args Ha) as (r & E & Hc & _). unfold packet in *. cbn [fmap list_fmap concat].
  rewrite <- !app_assoc. cbn [app]. rewrite segments_one by (done || by rewrite E). by rewrite IH.
Qed.

(** C14. Commands of at most 16 arguments each, the name of the executer counted, none of which
    holds a NUL, that a client prints into one packet, each argument in quotes, are run one after
    the other, each by the executer it names and on exactly the arguments that were printed,
    whatever other characters they hold, when the packet is one read of at most 253 bytes.  (A
    packet that fills the buffer of 254 bytes is dropped without an answer, [full_read_dropped],
    and a command of more than 16 arguments is answered as too long,
    [too_many_arguments_refused].) *)
Theorem client_commands_run w fd cmds : cmds <> [] -> Forall args_ok cmds -> zlen (packet cmds) <= 253 ->
  h_recv h (calls w) fd = Some (packet cmds) ->
  process_active_client_fd h iwnpi bt w fd = let* w' := run_all (tick w) fd cmds in Done (0, w').
Proof.
  intros Hn Hok Hl Hr.
  assert (Hne : packet cmds <> []).
  { destruct Hok as [|args l Ha _]; [done|]. destruct (command_line_shape args Ha) as (r & E & _).
    unfold packet. cbn [fmap list_fmap concat]. by rewrite E. }
  rewrite (process_spec h iwnpi bt w fd (packet cmds) Hr Hne Hl), packet_commands by done. f_equal.
  clear Hr Hne Hn. generalize (tick w). unfold packet in Hl. induction Hok as [|args cmds Ha Hs IH]; intros w1; [done|].
  cbn [fmap list_fmap concat run_commands run_all] in *. rewrite !zlen_app in Hl.
  pose proof (zlen_nonneg (command_line args)). pose proof (zlen_nonneg (concat ((fun a => command_line a ++ [0]) <$> cmds))).
  change (zlen [0]) with 1 in Hl. destruct (command_line_shape args Ha) as (r & _ & _ & Hb).
  unfold dispatch_command2. destruct Ha as (Hn & Hm & _).
  rewrite tokens_line; [|done|rewrite zlen_nil; lia|eapply Forall_impl; [exact Hb|]; intros x Hx; cbv beta in Hx; lia].
  cbn [app]. destruct (run_args h iwnpi bt w1 fd args); cbn [obind]; [|done..]. apply IH. lia.
Qed.
End served.

(** ** The table of the clients *)
Lemma table_sublist fds fds' : table_ok fds -> length fds' = length fds -> Forall (fun fd => -1 <= fd) fds' ->
  sublist (filter (fun fd => 0 <= fd) fds') (filter (fun fd => 0 <= fd) fds) -> table_ok fds'.
Proof.
  intros (Hl & _ & Hn) Hl' Hf Hs. split; [congruence|]. split; [done|]. by eapply sublist_NoDup.
Qed.

Lemma zap_spec fds : forall fd fds', zap fds fd = Some fds' -> Forall (fun x => -1 <= x) fds ->
  length fds' = length fds /\ Forall (fun x => -1 <= x) fds' /\
  sublist (filter (fun x => 0 <= x) fds') (filter (fun x => 0 <= x) fds).
Proof.
  induction fds as [|f fds IH]; intros fd fds' H Hf; [done|]. apply Forall_cons in Hf as [Hf0 Hf]. cbn [zap] in H.
  destruct (f =? fd).
  - injection H as <-. split; [done|]. split; [by constructor|]. rewrite (filter_cons_False _ (-1)) by lia.
    rewrite filter_cons. case_decide; [by apply sublist_cons|done].
  - destruct (zap fds fd) as [l|] eqn:E; [|done]. injection H as <-. destruct (IH _ _ E Hf) as (Hl & Hfl & Hs).
    split; [cbn; by rewrite Hl|]. split; [by constructor|]. rewrite !filter_cons. case_decide; [by apply sublist_skip|done].
Qed.

Lemma zap_client_table w fd : table_ok (client_fds (mgr w)) -> table_ok (client_fds (mgr (zap_client w fd))).
Proof.
  intros T. unfold zap_client. destruct (zap (client_fds (mgr w)) fd) as [fds|] eqn:E; [|done].
  destruct (zap_spec _ _ _ E) as (Hl & Hf & Hs); [apply T|]. by eapply table_sublist.
Qed.

Lemma store_from_spec fds : forall fd fds', store_from fds fd = Some fds' -> ~ In fd fds -> 0 <= fd ->
  length fds' = length fds /\ (Forall (fun x => -1 <= x) fds -> Forall (fun x => -1 <= x) fds') /\
  filter (fun x => 0 <= x) fds' ≡ₚ fd :: filter (fun x => 0 <= x) fds.
Proof.
  induction fds as [|f fds IH]; intros fd fds' H Hin Hfd; [done|]. cbn [store_from] in H.
  destruct (Z.eqb_spec f (-1)) as [->|Hf].
  - injection H as <-. split; [done|]. split; [intros H%Forall_cons; constructor; [lia|tauto]|].
    rewrite filter_cons_True by done. by rewrite filter_cons_False by lia.
  - destruct (Z.eqb_spec f fd) as [->|]; [destruct Hin; by left|].
    destruct (store_from fds fd) as [l|] eqn:E; [|done]. injection H as <-.
    destruct (IH _ _ E ltac:(intros ?; apply Hin; by right) Hfd) as (Hl & Hfl & Hp). split; [cbn; by rewrite Hl|].
    split; [intros H%Forall_cons; constructor; tauto|]. rewrite !filter_cons. case_decide; [|done]. rewrite Hp. apply perm_swap.
Qed.

(** A new client is entered, in a full table in the place of the last one. *)
Lemma store_table fds fd : table_ok fds -> ~ In fd fds -> 0 <= fd -> table_ok (store_client_fd fds fd).
Proof.
  intros (Hl & Hf & Hn) Hin Hfd. unfold store_client_fd.
  assert (Hni : fd ∉ filter (fun x => 0 <= x) fds) by (rewrite list_elem_of_filter, list_elem_of_In; tauto).
  destruct (store_from fds fd) as [fds'|] eqn:E.
  - destruct (store_from_spec _ _ _ E Hin Hfd) as (Hl' & Hf' & Hp). split; [congruence|]. split; [by apply Hf'|].
    rewrite Hp. by constructor.
  - split; [by rewrite length_insert|]. split; [apply Forall_insert; [done|lia]|].
    destruct (rev fds) as [|x r] eqn:Er; [apply (f_equal (@length Z)) in Er; rewrite length_rev in Er; by rewrite Er in Hl|].
    apply (f_equal (@rev Z)) in Er. rewrite rev_involutive in Er. cbn [rev] in Er. subst fds. rewrite length_app in Hl.
    replace (WCND_MAX_CLIENT_NUM - 1)%nat with (length (rev r) + 0)%nat
      by (rewrite <- Hl; change (length [x]) with 1%nat; lia). rewrite insert_app_r. cbn [list_insert insert].
    rewrite filter_app in *. apply NoDup_app in Hn as (N1 & _ & _). apply NoDup_app. split; [done|].
    rewrite filter_cons_True by done. split; [|apply NoDup_singleton].
    intros y Hy Hy'%list_elem_of_singleton. subst y. apply Hni, elem_of_app. by left.
Qed.

(** ** No input of a client does harm *)
Lemma send_back_mgr h w fd str ok : mgr (snd (send_back_cmd_result h w fd str ok)) = mgr w.
Proof. unfold send_back_cmd_result, send. destruct (fd <? 0); [done|]. by destruct (_ <? 0). Qed.

Lemma at_response_mgr h n : forall w, mgr (snd (at_response h n w)) = mgr w.
Proof.
  induction n as [|n IH]; intros w; [done|]. cbn [at_response]. unfold read_dev.
  destruct (h_read h (calls w) WCN_ATCMD_IFACE) as [l|]; cbn [fmap option_fmap option_map]; [|by rewrite IH].
  destruct (take 254 l); [by rewrite IH|done].
Qed.

(** An AT command that is not empty and fits the buffer. *)
Lemma atcmd_safe h w fd a : 0 < zlen a <= 254 -> exists r w', wcn_process_atcmd h w fd a = Done (r, w') /\ mgr w' = mgr w.
Proof.
  intros Ha. unfold wcn_process_atcmd, snprintf255. rewrite firstn_all2 by (unfold zlen in Ha; lia).
  rewrite splice_in by (rewrite ?zlen_replicate; lia). cbn [obind].
  set (buf := take _ _ ++ _ ++ _). assert (Hb : zlen buf = 255).
  { unfold buf, zlen in *. change (Z.to_nat 0) with 0%nat. rewrite take_0, drop_replicate, !length_app, length_replicate. cbn. lia. }
  assert (Hbuf : exists buf' n, (if zlen a <? 254 then
      let* c := rd buf (zlen a - 1) in
      if negb (c =? 13) then let* b := wr buf (zlen a) 13 in Done (b, zlen a + 1) else Done (buf, zlen a)
    else Done (buf, zlen a)) = Done (buf', n) /\ zlen buf' = 255 /\ 0 <= n <= 255).
  { destruct (Z.ltb_spec (zlen a) 254); [|exists buf, (zlen a); split; [done|lia]].
    destruct (rd_lt buf (zlen a - 1) ltac:(lia)) as (c & -> & _). cbn [obind].
    destruct (negb (c =? 13)); [|exists buf, (zlen a); split; [done|lia]]. rewrite wr_in by lia. cbn [obind].
    eexists _, _. split; [done|]. split; [|lia]. unfold zlen. rewrite length_insert. exact Hb. }
  destruct Hbuf as (buf' & n & -> & Hb' & Hn). cbn [obind]. unfold open_dev.
  destruct (h_open h (calls w) WCN_ATCMD_IFACE); cbn [negb]; [|by do 2 eexists]. rewrite slice_in by lia. cbn [obind].
  unfold write_dev. case_match; [by do 2 eexists|]. match goal with |- context [at_response h 6 ?w1] => set (w0 := w1) end.
  pose proof (at_response_mgr h 6 w0) as M. destruct (at_response h 6 w0) as [s w1]. cbn [snd] in M.
  case_match; [by do 2 eexists|]. unfold send. do 2 eexists. split; [done|]. exact M.
Qed.

Lemma strstr_nonempty a p : p <> [] -> strstr a p = true -> a <> [].
Proof. intros Hp H ->. cbn in H. by destruct p. Qed.

Section safe.
  Context (h : host) (iwnpi bt : world -> Z -> list (list Z) -> outcome world).

(** An operation that ends without an overrun and leaves a table of clients. *)
Definition safe (m : outcome world) : Prop := exists w', m = Done w' /\ table_ok (client_fds (mgr w')).

(** The arguments of a command, when they name one of the test tools, are ones on which that tool
    is safe. *)
Definition tool_fine (argv : list (list Z)) : Prop :=
  match argv with
  | name :: tool :: a :: rest =>
      name = bytes_of "eng" -> forall w fd, table_ok (client_fds (mgr w)) ->
        (tool = bytes_of "iwnpi" -> safe (iwnpi w fd (a :: rest))) /\ (tool = bytes_of "bt" -> safe (bt w fd (a :: rest)))
  | _ => True
  end.
Definition command_fine (cmd : list Z) : Prop := forall argv, tokens cmd [] false false [] = inr argv -> tool_fine argv.

(** So are those of each command that a client sends: nothing is asked of the tools where no
    client names them. *)
Definition tools_fine : Prop := forall n fd text, h_recv h n fd = Some text -> Forall command_fine (commands_in text).

Lemma safe_done w : table_ok (client_fds (mgr w)) -> safe (Done w).
Proof. intros T. by exists w. Qed.
Lemma safe_bind m k : safe m -> (forall w, table_ok (client_fds (mgr w)) -> safe (k w)) -> safe (obind m k).
Proof. intros (w & -> & T) Hk. by apply Hk. Qed.
Lemma safe_answer w fd str ok : table_ok (client_fds (mgr w)) -> safe (Done (snd (send_back_cmd_result h w fd str ok))).
Proof. intros T. apply safe_done. by rewrite send_back_mgr. Qed.

  Context (Hs : short_answers h) (Htools : tools_fine).

Lemma wcn_safe w fd argv : table_ok (client_fds (mgr w)) -> Forall (fun a => zlen a <= 254) argv -> safe (wcn_runcommand h w fd argv).
Proof.
  intros T Hl. unfold wcn_runcommand. destruct argv as [|a argv]; [by apply safe_answer|].
  apply Forall_cons in Hl as [Ha _]. case_decide.
  { pose proof (send_back_mgr h w fd None true) as M. destruct (send_back_cmd_result h w fd None true) as [r w1]. cbn [snd] in M.
    assert (T1 : table_ok (client_fds (mgr w1))) by (by rewrite M).
    destruct (fst (check_if_reset_enable h w1)) eqn:En.
    - destruct (reset_on h w1 Hs T1 En) as (w' & t & k & ok & -> & (_ & T' & _) & _). cbn [obind]. by apply safe_done.
    - destruct (reset_off h w1 En) as (w' & -> & _ & M'). cbn [obind]. apply safe_done. by rewrite M'. }
  case_decide; [by apply safe_answer|]. destruct (strstr a (bytes_of "at+")) eqn:Est; [|by apply safe_answer].
  pose proof (strstr_nonempty a (bytes_of "at+") ltac:(done) Est) as Hne.
  destruct (atcmd_safe h w fd a) as (r & w' & -> & M).
  { split; [|done]. destruct a; [done|]. rewrite zlen_cons. pose proof (zlen_nonneg a). lia. }
  cbn [obind]. apply safe_done. by rewrite M.
Qed.

Lemma eng_safe w fd argv : table_ok (client_fds (mgr w)) -> tool_fine (bytes_of "eng" :: argv) ->
  safe (eng_runcommand h iwnpi bt w fd argv).
Proof.
  intros T Ht. unfold eng_runcommand. destruct argv as [|a [|b argv]]; [by apply safe_answer|repeat case_decide; by apply safe_answer|].
  destruct (Ht eq_refl w fd T) as [Hi Hb]. repeat case_decide; [by apply Hi|by apply Hb|by apply safe_answer].
Qed.

Lemma find_handler_name l name e : find_handler l name = Some e -> name = executer_name e.
Proof.
  induction l as [|[x|] l IH]; cbn [find_handler]; [done| |done]. case_decide; [by intros [= ->]|done].
Qed.

Lemma dispatch2_safe w fd data : table_ok (client_fds (mgr w)) -> zlen data <= 254 -> command_fine data ->
  safe (dispatch_command2 h iwnpi bt w fd data).
Proof.
  intros T Hl Hc. unfold dispatch_command2. destruct (tokens data [] false false []) as [err|argv] eqn:E; [by apply safe_answer|].
  destruct (tokens_bound _ _ _ _ _ _ 254 E) as [Hf Hn]; [rewrite zlen_nil; lia|done|].
  destruct argv as [|name args]; [done|]. apply Forall_cons in Hf as [_ Hf]. cbn [run_args].
  destruct (find_handler (cmdexecuter_list (mgr w)) name) as [e|] eqn:Ef; [|by apply safe_answer].
  apply find_handler_name in Ef as ->. destruct e; [by apply wcn_safe|]. apply eng_safe; [done|exact (Hc _ E)].
Qed.

Lemma segments_bound rest : forall cur n, zlen cur + zlen rest <= n -> Forall (fun s => zlen s <= n) (segments cur rest).
Proof.
  induction rest as [|c rest IH]; intros cur n Hl; [done|]. cbn [segments]. rewrite zlen_cons in Hl.
  pose proof (zlen_nonneg rest). pose proof (zlen_nonneg cur). destruct (c =? 0).
  - apply Forall_app. split; [case_decide; constructor; [lia|done]|]. apply IH. rewrite zlen_nil. lia.
  - apply IH. rewrite zlen_app. change (zlen [c]) with 1. lia.
Qed.

Lemma run_commands_safe fd cmds : forall w, table_ok (client_fds (mgr w)) -> Forall (fun s => zlen s <= 254) cmds ->
  Forall command_fine cmds -> safe (run_commands h iwnpi bt w fd cmds).
Proof.
  induction cmds as [|c cmds IH]; intros w T Hl Hf; [by apply safe_done|]. apply Forall_cons in Hl as [Hc Hl].
  apply Forall_cons in Hf as [Hfc Hf]. cbn [run_commands].
  apply safe_bind; [by apply dispatch2_safe|]. intros w1 T1. by apply IH.
Qed.

Lemma process_safe w fd : table_ok (client_fds (mgr w)) ->
  exists r w', process_active_client_fd h iwnpi bt w fd = Done (r, w') /\ table_ok (client_fds (mgr w')).
Proof.
  intros T. destruct (h_recv h (calls w) fd) as [l|] eqn:E.
  2: { unfold process_active_client_fd. rewrite E. by do 2 eexists. }
  destruct (decide (l = [])) as [->|Hn]; [unfold process_active_client_fd; rewrite E; by do 2 eexists|].
  destruct (Z.le_gt_cases 254 (zlen l)); [rewrite (full_read_dropped _ _ _ _ _ _ E) by lia; by do 2 eexists|].
  rewrite (process_spec _ _ _ _ _ _ E) by (done || lia).
  destruct (run_commands_safe fd (commands_in l) (tick w)) as (w' & -> & T'); [done| |by eapply Htools|cbn [obind]; by do 2 eexists].
  apply segments_bound. rewrite zlen_nil, zlen_app. change (zlen [0]) with 1.
  destruct (drop_spaces_suffix l) as (sp & El & _). apply (f_equal zlen) in El. rewrite zlen_app in El.
  pose proof (zlen_nonneg sp). lia.
Qed.

Lemma pending_safe pending : forall w, table_ok (client_fds (mgr w)) -> safe (process_pending h iwnpi bt w pending).
Proof.
  induction pending as [|fd pending IH]; intros w T; [by apply safe_done|]. cbn [process_pending].
  apply safe_bind; [|done]. destruct (fd =? -1); [by apply safe_done|].
  destruct (process_safe w fd T) as (r & w' & -> & T'). cbn [obind]. apply safe_done. destruct (r =? RDWR_FD_FAIL); [|done].
  by apply zap_client_table.
Qed.
End safe.

(** In whatever order the sockets of the clients become ready, and whatever the calls of the
    system return, a round of the thread that serves them ends, without an access outside a
    buffer, and the table stays one of distinct descriptors.  A descriptor that [accept] returns
    is not that of a connected client. *)
Lemma client_round_ok h iwnpi bt w :
  short_answers h -> tools_fine h iwnpi bt -> table_ok (client_fds (mgr w)) ->
  ~ In (h_accept h (S (calls w))) (client_fds (mgr w)) -> safe (client_round h iwnpi bt w).
Proof.
  intros Hs Ht T Ha. unfold client_round.
  destruct (h_ready h (calls w)) as [rc ready]. repeat (case_match; [by apply safe_done|]).
  cbn [calls tick mgr] in *. apply pending_safe; try done.
  destruct (ready (listen_fd (mgr w)) && bool_decide (listen_fd (mgr w) ∈ listen_fd (mgr w) :: client_fds (mgr w))); [|done].
  cbn. apply store_table; [done|done|]. cbn [andb] in *. btrue. lia.
Qed.

(** ** The daemon

    What CP2 says fits the arrays it is read into, as strings: the answers of the loop device one
    of 32 bytes, the messages of an assert and of the watchdog one of 200. *)
Definition answers_fit (h : host) : Prop :=
  short_answers h /\ forall n p l, h_read h n p = Some l -> p <> WCN_ATCMD_IFACE -> (length l < 200)%nat.

Lemma exception_safe h w path : answers_fit h -> path <> WCN_ATCMD_IFACE -> table_ok (client_fds (mgr w)) ->
  exists r w', handle_exception h w path = Done (r, w') /\ table_ok (client_fds (mgr w')).
Proof.
  intros [_ Hf] Hp T. unfold handle_exception, read_dev. cbn [calls with_mgr].
  set (text := default [] (take 200 <$> h_read h (calls w) path)).
  assert (Hl : (length text < 200)%nat).
  { unfold text. destruct (h_read h (calls w) path) as [l|] eqn:E; cbn; [|lia]. apply Hf in E; [|done]. rewrite length_take. lia. }
  rewrite splice_in by (rewrite ?zlen_replicate; unfold zlen; lia). cbn [obind doing_reset mgr tick with_mgr set_cp2_error].
  destruct (doing_reset (mgr w)); [by do 2 eexists|].
  change (Z.to_nat 0) with 0%nat. rewrite take_0, Nat.add_0_l, drop_replicate. cbn [app].
  destruct (200 - length text)%nat as [|k] eqn:Ek; [lia|]. cbn [replicate]. destruct (cstr_with_end text (replicate k 0)) as [s Es].
  unfold cstr_at. change (Z.to_nat 0) with 0%nat. rewrite drop_0, Es. cbn [Z.leb Z.compare obind].
  match goal with |- context [send_notify_to_client h ?a ?b] => destruct (told_notify h a b T) as (t & (_ & T' & _) & _) end.
  do 2 eexists. by split.
Qed.

Lemma cp2_listen_safe h w rc a b : answers_fit h -> table_ok (client_fds (mgr w)) -> safe (cp2_listen_round h w rc a b).
Proof.
  intros Hf T. unfold cp2_listen_round. repeat (case_match; [by apply safe_done|]).
  apply safe_bind.
  - destruct a; [|by apply safe_done]. destruct (exception_safe h w WCN_ASSERT_IFACE Hf ltac:(done) T) as (r & w' & E & T').
    unfold handle_cp2_assert. rewrite E. by apply safe_done.
  - intros w1 T1. apply safe_bind; [|by intros w2 T2; apply safe_done]. destruct b; [|by apply safe_done].
    destruct (exception_safe h w1 WCN_WATCHDOG_IFACE Hf ltac:(done) T1) as (r & w' & E & T').
    unfold handle_cp2_watchdog_exception. rewrite E. by apply safe_done.
Qed.

Lemma loop_check_safe h w : short_answers h -> table_ok (client_fds (mgr w)) -> safe (loop_check_round h w).
Proof.
  intros Hs T. unfold loop_check_round. case_match; [by apply safe_done|].
  destruct (alive_spec h (usleep w 5000) Hs) as ([r w1] & -> & t & (M & _) & _). cbn [obind fst snd] in *. apply safe_done.
  destruct (r <? 0); [|by rewrite M]. unfold handle_cp2_loop_check_fail. cbn [mgr with_mgr doing_reset set_cp2_error].
  destruct (doing_reset (mgr w1)); [cbn; by rewrite M|].
  match goal with |- context [send_notify_to_client h ?a ?b] =>
    destruct (told_notify h a b) as (t' & (_ & T' & _) & _); [cbn; by rewrite M|exact T'] end.
Qed.

Section daemon.
  Context (h : host) (iwnpi bt : world -> Z -> list (list Z) -> outcome world).

(** A round of one of the threads. *)
Inductive daemon_step : world -> world -> Prop :=
| step_client w w' : ~ In (h_accept h (S (calls w))) (client_fds (mgr w)) -> client_round h iwnpi bt w = Done w' -> daemon_step w w'
| step_cp2 w rc a b w' : cp2_listen_round h w rc a b = Done w' -> daemon_step w w'
| step_loop w w' : loop_check_round h w = Done w' -> daemon_step w w'.

Lemma init_table w sock : table_ok (client_fds (mgr (snd (init h w sock)))).
Proof.
  assert (T : table_ok (replicate WCND_MAX_CLIENT_NUM (-1))) by (split; [done|]; split; [by repeat constructor|constructor]).
  unfold init. destruct (sock <? 0); [exact T|]. unfold property_get. by destruct (_ =? 0)%nat.
Qed.

Lemma start_mgr w made t : mgr (snd (start_cp2_listener h w made t)) = mgr w.
Proof.
  unfold start_cp2_listener, check_if_wcnmodem_enable, property_get. by destruct (negb _); [|destruct made].
Qed.

Lemma service_mgr w : mgr (start_engineer_service h w) = mgr w.
Proof. unfold start_engineer_service, property_get. by destruct (_ =? _)%string. Qed.

Lemma register_fds m e : client_fds (snd (wcnd_register_cmdexecuter m e)) = client_fds m.
Proof. unfold wcnd_register_cmdexecuter. by destruct (inited m); [destruct (register_in _ _)|]. Qed.

Lemma main_table w sock made threads w' : main h w sock made = Done (Some threads, w') -> table_ok (client_fds (mgr w')).
Proof.
  unfold main. pose proof (init_table w sock) as T. destruct (init h w sock) as [r w1]. cbn [snd] in T.
  destruct (r <? 0); [done|]. destruct (made client_listen_thread); [|done]. cbn [negb].
  pose proof (start_mgr w1 (made cp2_listen_thread) cp2_listen_thread) as M2.
  destruct (start_cp2_listener h w1 _ cp2_listen_thread) as [[r2 l2] w2]. cbn [snd] in M2. destruct (r2 <? 0); [done|].
  pose proof (start_mgr w2 (made cp2_loop_check_thread) cp2_loop_check_thread) as M3.
  destruct (start_cp2_listener h w2 _ cp2_loop_check_thread) as [[r3 l3] w3]. cbn [snd] in M3.
  match goal with |- context [check_disable_cp2_log h ?a] => set (w4 := a) end.
  assert (T4 : table_ok (client_fds (mgr w4))).
  { unfold w4. cbn [mgr with_mgr]. by rewrite !register_fds, service_mgr, M3, M2. }
  intros H. obind_inv H. destruct a as [r5 w5]. injection H as _ <-. revert E. unfold check_disable_cp2_log, property_get.
  destruct (strstr _ _); [by intros [= _ <-]|].
  match goal with |- wcn_process_atcmd h ?a ?b ?c = _ -> _ => destruct (atcmd_safe h a b c) as (r6 & w6 & -> & M); [by vm_compute|] end.
  intros [= _ <-]. by rewrite M.
Qed.
End daemon.

(** C13. Once it has started, the daemon serves for ever: after any sequence of rounds of its
    three threads the clients of the table are distinct, and the next round of each thread ends
    without an access outside a buffer.  The clients may send any bytes, and the calls of the
    system may fail and return anything, with three conditions.  [accept] returns no descriptor of
    a connected client.  What CP2 says fits the arrays it is
    read into: the answers of the loop device are shorter than 32 bytes, the messages of an assert
    and of the watchdog shorter than 200 (longer ones overrun them: [long_answers_overrun]).  And
    a command that a client sends to a test tool, [eng iwnpi] or [eng bt], is one on which that
    tool, which is not modelled, is itself safe; where no client names a tool nothing is asked of
    them ([no_tools_named]).  A round is one step here; the threads' accesses to the flags they
    share are interleaved one by one in WcndThreads. *)
Theorem daemon_safe h iwnpi bt w0 sock made threads w1 w :
  answers_fit h -> tools_fine h iwnpi bt ->
  main h w0 sock made = Done (Some threads, w1) -> rtc (daemon_step h iwnpi bt) w1 w ->
  table_ok (client_fds (mgr w)) /\
  (~ In (h_accept h (S (calls w))) (client_fds (mgr w)) -> safe (client_round h iwnpi bt w)) /\
  safe (loop_check_round h w) /\ forall rc a b, safe (cp2_listen_round h w rc a b).
Proof.
  intros Hf Ht Hm Hr. apply main_table in Hm.
  assert (T : table_ok (client_fds (mgr w))).
  { induction Hr as [|x y z Hs _ IH]; [done|]. apply IH. destruct Hs as [w w' Ha E|w rc a b w' E|w w' E].
    - destruct (client_round_ok h iwnpi bt w) as (w2 & E2 & T2); try done; [apply Hf|]. by rewrite E in E2; simplify_eq.
    - destruct (cp2_listen_safe h w rc a b Hf Hm) as (w2 & E2 & T2). by rewrite E in E2; simplify_eq.
    - destruct (loop_check_safe h w ltac:(apply Hf) Hm) as (w2 & E2 & T2). by rewrite E in E2; simplify_eq. }
  split; [done|]. split; [intros Ha; by apply client_round_ok; try done; apply Hf|].
  split; [apply loop_check_safe; [apply Hf|done]|]. intros rc a b. by apply cp2_listen_safe.
Qed.

(** Where no command that a client sends has [eng] as its name, nothing is asked of the tools:
    they may do anything. *)
Lemma no_tools_named h iwnpi bt :
  (forall n fd text cmd argv, h_recv h n fd = Some text -> In cmd (commands_in text) ->
     tokens cmd [] false false [] = inr argv -> head argv <> Some (bytes_of "eng")) ->
  tools_fine h iwnpi bt.
Proof.
  intros H n fd text Hr. apply Forall_forall. intros cmd Hc%list_elem_of_In argv E. specialize (H _ _ _ _ _ Hr Hc E).
  destruct argv as [|name [|tool [|a rest]]]; cbn; try done. intros ->. by destruct H.
Qed.

(** ** Concrete values *)
Definition no_tool (w : world) (fd : Z) (argv : list (list Z)) : outcome world := Done w.
(** A tool that is never safe. *)
Definition bad_tool (w : world) (fd : Z) (argv : list (list Z)) : outcome world := Undef.

Definition works_with (l : list Z) : host := {|
  h_open := h_open works; h_write := h_write works; h_read := h_read works; h_select := h_select works; h_chunk := h_chunk works;
  h_seek := h_seek works; h_send := h_send works; h_recv := fun _ _ => Some l; h_accept := fun _ => 11; h_ready := h_ready works;
  h_props := h_props works; image := image works |}.
Lemma works_with_fit l : answers_fit (works_with l).
Proof.
  split; [apply works_short|]. intros n p k. change (h_read (works_with l) n p) with (if (p =? WCN_LOOP_IFACE)%string then
    if Nat.ltb n 26 then Some [120] else Some [104; 105; 10] else Some (bytes_of "PS assert")).
  intros H _. destruct (p =? WCN_LOOP_IFACE)%string; [destruct (Nat.ltb n 26)|]; injection H as <-; cbn; lia.
Qed.

Definition example_cmds : list (list (list Z)) :=
  [[bytes_of "eng"; bytes_of "iwnpi"; [97; 32; 34; 92]]; [bytes_of "wcn"; bytes_of "reset"]].

(** A client asks for a reset, without quotes: what it and another client hear. *)
Example reset_command :
  (let* (_, w) := process_active_client_fd (works_with (bytes_of " wcn reset" ++ [0])) no_tool no_tool example_world 7 in
   Done (heard 7 (trace w), heard 9 (trace w), is_cp2_error (mgr w))) = Done (msg (bytes_of "OK") :: success, success, false).
Proof. by vm_compute. Qed.

Lemma client_commands_run_witness :
  process_active_client_fd (works_with (packet example_cmds)) no_tool no_tool example_world 7 =
  let* w' := run_all (works_with (packet example_cmds)) no_tool no_tool (tick example_world) 7 example_cmds in Done (0, w').
Proof.
  apply (client_commands_run (works_with (packet example_cmds)) no_tool no_tool example_world 7 example_cmds);
    [discriminate| |vm_compute; discriminate|reflexivity].
  repeat constructor; try discriminate.
Defined.

(** The client that asks for a reset, served with tools that are never safe. *)
Definition asking : host := works_with (bytes_of " wcn reset" ++ [0]).
Lemma asking_fine : tools_fine asking bad_tool bad_tool.
Proof.
  apply no_tools_named. intros n fd text cmd argv [= <-] [<-|[]] [= <-]. discriminate.
Qed.
Definition started : world :=
  match main asking example_world 3 (fun _ => true) with Done (_, w) => w | _ => example_world end.
Lemma daemon_safe_witness :
  table_ok (client_fds (mgr started)) /\
  (~ In (h_accept asking (S (calls started))) (client_fds (mgr started)) -> safe (client_round asking bad_tool bad_tool started)) /\
  safe (loop_check_round asking started) /\ forall rc a b, safe (cp2_listen_round asking started rc a b).
Proof.
  apply (daemon_safe asking bad_tool bad_tool example_world 3 (fun _ => true)
    [client_listen_thread; cp2_listen_thread; cp2_loop_check_thread] started started (works_with_fit _) asking_fine);
    [vm_compute; reflexivity|reflexivity].
Defined.
