(* ===== verification/WcndThreads.v ===== *)
(** * apps/wcnd: the threads and their flags

    Three threads share [doing_reset] and [is_cp2_error] without a lock: the thread of the
    clients, which runs the reset, the one that hears of asserts and of the watchdog, and the
    one that tests CP2 every five seconds.  Here a step is one access to a flag or one
    notification, and the steps interleave in every way.  What WcndManager shows of a reset is
    the run of its thread alone. *)

From S2P Require Import Prelude CString WcndManager.

(** What the clients are told, in order. *)
Inductive notice : Type := Start | End_ | Alive | Exception_.
#[global] Instance notice_eq_dec : EqDecision notice.
Proof. solve_decision. Defined.

(** Where [do_cp2_reset_process] is: between resets; before attempt [n] of the loop; in
    [reset_cp2]; after it, with its result; after the notice of its end; after the notice that CP2
    is alive; with [doing_reset] cleared and [is_cp2_error] not yet. *)
Inductive reset_pc : Type := RIdle | RAttempt (n : nat) | RStarted (n : nat) | RTested (n : nat) (ok : bool) | REnded (n : nat) (ok : bool) | RAlive | RClear.

(** Where a handler of a failure is: between failures; in [is_cp2_alive_ok] (only the thread of
    the loop test); with the flag set, before the test of [doing_reset]; before the notice. *)
Inductive handler_pc : Type := HIdle | HTesting | HFlagged | HNotify.
#[global] Instance handler_pc_eq_dec : EqDecision handler_pc.
Proof. solve_decision. Defined.

Inductive watcher : Type := Cp2Listener | LoopCheck.
#[global] Instance watcher_eq_dec : EqDecision watcher.
Proof. solve_decision. Defined.

(** [broken] is not in the program: CP2 failed after it was last found alive by a reset. *)
Record flags : Type := {
  doing : bool;
  error : bool;
  said : list notice;
  reset : reset_pc;
  handler : watcher -> handler_pc;
  broken : bool
}.

Definition set_reset (s : flags) (d e : bool) (say : list notice) (r : reset_pc) (b : bool) : flags :=
  {| doing := d; error := e; said := said s ++ say; reset := r; handler := handler s; broken := b |}.
Definition set_handler (s : flags) (x : watcher) (e : bool) (say : list notice) (p : handler_pc) (b : bool) : flags :=
  {| doing := doing s; error := e; said := said s ++ say; reset := reset s;
     handler := fun y => if decide (y = x) then p else handler s y; broken := b |}.

(** The time between the test that found CP2 alive and the end of the reset. *)
Definition in_window (r : reset_pc) : bool := match r with RTested _ true | REnded _ true | RAlive | RClear => true | _ => false end.

(** A step of the thread that runs the reset. *)
Inductive reset_step : flags -> flags -> Prop :=
| reset_begins s : reset s = RIdle -> reset_step s (set_reset s true (error s) [] (RAttempt 0) (broken s))
| reset_gives_up s n : reset s = RAttempt n -> (RESET_FAIL_RETRY_COUNT < n)%nat ->
    reset_step s (set_reset s false (error s) [] RIdle (broken s))
| reset_starts s n : reset s = RAttempt n -> (n <= RESET_FAIL_RETRY_COUNT)%nat ->
    reset_step s (set_reset s (doing s) (error s) [Start] (RStarted (S n)) (broken s))
| reset_tests s n ok : reset s = RStarted n ->
    reset_step s (set_reset s (doing s) (error s) [] (RTested n ok) (if ok then false else broken s))
| reset_ends s n ok : reset s = RTested n ok -> reset_step s (set_reset s (doing s) (error s) [End_] (REnded n ok) (broken s))
| reset_again s n : reset s = REnded n false -> reset_step s (set_reset s (doing s) (error s) [] (RAttempt n) (broken s))
| reset_alive s n : reset s = REnded n true -> reset_step s (set_reset s (doing s) (error s) [Alive] RAlive (broken s))
| reset_done s : reset s = RAlive -> reset_step s (set_reset s false (error s) [] RClear (broken s))
| reset_clears s : reset s = RClear -> reset_step s (set_reset s (doing s) false [] RIdle (broken s)).

(** A step of the thread that tests CP2, up to the result of the test. *)
Inductive loop_step : flags -> flags -> Prop :=
| loop_tests s : handler s LoopCheck = HIdle -> error s = false ->
    loop_step s (set_handler s LoopCheck (error s) [] HTesting (broken s))
| loop_passes s : handler s LoopCheck = HTesting -> loop_step s (set_handler s LoopCheck (error s) [] HIdle (broken s)).

(** A step of a handler of a failure, in either thread that watches.  Without [late], CP2 does not
    fail between the test that found it alive and the end of the reset. *)
Inductive handler_step (late : bool) : flags -> flags -> Prop :=
| cp2_fails s x : handler s x = match x with Cp2Listener => HIdle | LoopCheck => HTesting end ->
    (in_window (reset s) = true -> late = true) ->
    handler_step late s (set_handler s x true [] HFlagged true)
| handler_silent s x : handler s x = HFlagged -> doing s = true -> handler_step late s (set_handler s x (error s) [] HIdle (broken s))
| handler_goes_on s x : handler s x = HFlagged -> doing s = false -> handler_step late s (set_handler s x (error s) [] HNotify (broken s))
| handler_notifies s x : handler s x = HNotify -> handler_step late s (set_handler s x (error s) [Exception_] HIdle (broken s)).

(** A step of any of the threads. *)
Inductive step (late : bool) (s s' : flags) : Prop :=
| by_reset : reset_step s s' -> step late s s'
| by_loop : loop_step s s' -> step late s s'
| by_handler : handler_step late s s' -> step late s s'.

Definition start : flags :=
  {| doing := false; error := false; said := []; reset := RIdle; handler := fun _ => HIdle; broken := false |}.

(** ** What holds in every interleaving *)

(** The notices of resets, in the order in which they may come: [Start], [End_], and [Alive]
    only after an [End_]. *)
Inductive reset_said : list notice -> option notice -> Prop :=
| rs_nil : reset_said [] None
| rs_start l o : reset_said l o -> o <> Some Start -> reset_said (l ++ [Start]) (Some Start)
| rs_end l : reset_said l (Some Start) -> reset_said (l ++ [End_]) (Some End_)
| rs_alive l : reset_said l (Some End_) -> reset_said (l ++ [Alive]) (Some Alive)
| rs_exception l o : reset_said l o -> reset_said (l ++ [Exception_]) o.

(** [doing_reset] tells whether a reset is going on, and the notices follow its place. *)
Definition flag_of (r : reset_pc) : bool := match r with RIdle | RClear => false | _ => true end.
Definition heard_at (r : reset_pc) (o : option notice) : Prop :=
  match r with
  | RStarted _ | RTested _ _ => o = Some Start
  | REnded _ _ => o = Some End_
  | RAlive | RClear => o = Some Alive
  | RAttempt 0 | RIdle => o <> Some Start
  | RAttempt _ => o = Some End_
  end.
Definition order_inv (s : flags) : Prop := doing s = flag_of (reset s) /\ exists o, reset_said (said s) o /\ heard_at (reset s) o.

Lemma order_step late s s' : step late s s' -> order_inv s -> order_inv s'.
Proof.
  unfold order_inv. intros Hs [Hd (o & Hr & Hh)]. destruct Hs as [Hs|Hs|Hs]; destruct Hs; cbn; rewrite ?app_nil_r;
    repeat match goal with H : reset _ = _ |- _ => rewrite H in *; cbn in * end.
  - split; [done|]. by exists o.
  - split; [done|]. exists o. split; [done|]. unfold RESET_FAIL_RETRY_COUNT in *. destruct n; [lia|]. by subst o.
  - split; [done|]. exists (Some Start). split; [|done]. apply (rs_start _ o); [done|]. destruct n; [done|by subst o].
  - split; [done|]. by exists o.
  - split; [done|]. exists (Some End_). split; [|done]. subst o. by constructor.
  - split; [done|]. exists o. split; [done|]. subst o. by destruct n.
  - split; [done|]. exists (Some Alive). split; [|done]. subst o. by constructor.
  - split; [done|]. by exists o.
  - split; [done|]. exists o. split; [done|]. by subst o.
  - split; [done|]. by exists o.
  - split; [done|]. by exists o.
  - split; [done|]. by exists o.
  - split; [done|]. by exists o.
  - split; [done|]. by exists o.
  - split; [done|]. exists o. split; [by constructor|done].
Qed.

(** A handler is at work on a failure. *)
Definition busy (p : handler_pc) : bool := match p with HFlagged | HNotify => true | _ => false end.

(** While CP2 is broken the flag says so; and when no handler is at work any more, a reset is
    going on or the last the clients heard is not that CP2 is alive. *)
Definition known (s : flags) : Prop :=
  broken s = true -> error s = true /\
    ((forall x, busy (handler s x) = false) -> doing s = true \/ exists n, last (said s) = Some n /\ n <> Alive).
Definition keep_inv (s : flags) : Prop := order_inv s /\ known s /\ (in_window (reset s) = true -> broken s = false).

Lemma said_last l o : reset_said l o -> o = Some End_ -> exists n, last l = Some n /\ n <> Alive.
Proof.
  induction 1 as [|l o' H IH Hn|l H IH|l H IH|l o' H IH]; intros He; try done; rewrite last_snoc.
  - by exists End_.
  - by exists Exception_.
Qed.

(** The handlers that are not at work stay so. *)
Lemma handlers_idle s x p : busy p = false ->
  (forall y, busy (if decide (y = x) then p else handler s y) = false) -> busy (handler s x) = false ->
  forall y, busy (handler s y) = false.
Proof. intros Hp H Hx y. specialize (H y). by destruct (decide (y = x)) as [->|Hn]. Qed.

Lemma keep_step s s' : step false s s' -> keep_inv s -> keep_inv s'.
Proof.
  intros Hs (Ho & Hk & Hw). split; [by eapply order_step|]. destruct Ho as [Hd (o & Hr & Hh)]. unfold known in *.
  destruct Hs as [Hs|Hs|Hs]; destruct Hs; cbn; rewrite ?app_nil_r;
    repeat match goal with H : reset _ = _ |- _ => rewrite H in *; cbn in * end.
  - split; [|done]. intros Hb. destruct (Hk Hb) as [He _]. split; [done|by left].
  - split; [|done]. intros Hb. destruct (Hk Hb) as [He _]. split; [done|]. intros _. right.
    unfold RESET_FAIL_RETRY_COUNT in *. destruct n; [lia|]. by eapply said_last.
  - split; [|done]. intros Hb. destruct (Hk Hb) as [He _]. split; [done|]. by left.
  - destruct ok; [done|]. split; [|done]. intros Hb. destruct (Hk Hb) as [He _]. split; [done|]. by left.
  - split; [|exact Hw]. intros Hb. destruct (Hk Hb) as [He _]. split; [done|]. by left.
  - split; [|done]. intros Hb. destruct (Hk Hb) as [He _]. split; [done|]. by left.
  - split; [|done]. intros Hb. by rewrite Hw in Hb.
  - split; [|done]. intros Hb. by rewrite Hw in Hb.
  - split; [|done]. intros Hb. by rewrite Hw in Hb.
  - split; [|done]. intros Hb. destruct (Hk Hb) as [He _]. congruence.
  - split; [|done]. intros Hb. destruct (Hk Hb) as [He Hl]. split; [done|]. intros Hx. apply Hl.
    apply (handlers_idle s LoopCheck HIdle); [done|exact Hx|]. by rewrite H.
  - split; [|intros Hi; by apply H0 in Hi]. intros _. split; [done|]. intros Hx. specialize (Hx x). by destruct (decide (x = x)).
  - split; [|done]. intros Hb. destruct (Hk Hb) as [He _]. split; [done|]. intros _. by left.
  - split; [|done]. intros Hb. destruct (Hk Hb) as [He _]. split; [done|]. intros Hx. specialize (Hx x). by destruct (decide (x = x)).
  - split; [|done]. intros Hb. destruct (Hk Hb) as [He _]. split; [done|]. intros _. right. exists Exception_. by rewrite last_snoc.
Qed.

Lemma rtc_keeps (P : flags -> Prop) late : (forall s s', step late s s' -> P s -> P s') ->
  forall s s', rtc (step late) s s' -> P s -> P s'.
Proof. intros HP s s' Hr. induction Hr as [|a b c Hs _ IH]; [done|]. intros Ha. by apply IH, (HP a b). Qed.

(** C15. In every interleaving [doing_reset] is set exactly while a reset is going on, and the
    clients hear [Start] and [End_] in turn and [Alive] only after an [End_].  And when CP2 does
    not fail between the test that ends a reset and the end of the reset, no failure is lost:
    until a reset finds CP2 alive the error flag stays set, and once the handlers are done
    either a reset is going on or the clients did not hear last that CP2 is alive. *)
Theorem failures_known late s : rtc (step late) start s -> order_inv s /\ (late = false -> known s).
Proof.
  intros Hr.
  assert (Hstart : keep_inv start) by (split; [split; [done|]; exists None; split; [constructor|done]|done]).
  split.
  - apply (rtc_keeps order_inv late (order_step late) start s Hr), Hstart.
  - intros ->. apply (rtc_keeps keep_inv false keep_step start s Hr Hstart).
Qed.

(** ** A failure at the end of a reset *)

(** CP2 fails after the test that ends a reset: the listener sees [doing_reset] and says
    nothing, and then the flag is cleared.  Nobody knows. *)
Lemma late_failure_lost : exists s, rtc (step true) start s /\ (forall x, handler s x = HIdle) /\ reset s = RIdle /\
  broken s = true /\ error s = false /\ said s = [Start; End_; Alive].
Proof.
  eexists. split.
  { eapply rtc_l; [apply by_reset; by apply reset_begins|].
    eapply rtc_l; [apply by_reset; by eapply reset_starts; [reflexivity|unfold RESET_FAIL_RETRY_COUNT; lia]|].
    eapply rtc_l; [apply by_reset; by eapply (reset_tests _ _ true)|]. eapply rtc_l; [apply by_reset; by eapply reset_ends|].
    eapply rtc_l; [apply by_handler; by eapply (cp2_fails _ _ Cp2Listener)|].
    eapply rtc_l; [apply by_handler; by eapply (handler_silent _ _ Cp2Listener)|].
    eapply rtc_l; [apply by_reset; by eapply reset_alive|]. eapply rtc_l; [apply by_reset; by eapply reset_done|].
    eapply rtc_l; [apply by_reset; by eapply reset_clears|]. apply rtc_refl. }
  split; [by intros [] |done].
Qed.

(** ** The thread of the reset alone *)
Definition message (n : notice) : list Z :=
  msg (match n with
       | Start => WCND_CP2_RESET_START_STRING | End_ => WCND_CP2_RESET_END_STRING
       | Alive => WCND_CP2_ALIVE_STRING | Exception_ => WCND_CP2_EXCEPTION_STRING
       end).

Lemma attempts_alone late k : forall n s, reset s = RAttempt n -> (n + k <= S RESET_FAIL_RETRY_COUNT)%nat ->
  exists s' l, rtc (step late) s s' /\ reset s' = RAttempt (n + k) /\ handler s' = handler s /\
    said s' = said s ++ l /\ message <$> l = failed_attempts k.
Proof.
  induction k as [|k IH]; intros n s Hr Hk.
  { exists s, []. rewrite Nat.add_0_r, app_nil_r. split; [apply rtc_refl|done]. }
  set (s1 := set_reset s (doing s) (error s) [Start] (RStarted (S n)) (broken s)).
  set (s1' := set_reset s1 (doing s1) (error s1) [] (RTested (S n) false) (broken s1)).
  set (s2 := set_reset s1' (doing s1') (error s1') [End_] (REnded (S n) false) (broken s1')).
  set (s3 := set_reset s2 (doing s2) (error s2) [] (RAttempt (S n)) (broken s2)).
  destruct (IH (S n) s3) as (s' & l & R & Hp & Hh & Hsaid & Hm); [done|lia|].
  exists s', (Start :: End_ :: l). split.
  { eapply rtc_l; [apply by_reset; by apply (reset_starts s n); [|lia]|]. eapply rtc_l; [apply by_reset; by apply (reset_tests s1 (S n) false)|].
    eapply rtc_l; [apply by_reset; by apply (reset_ends s1' (S n) false)|]. eapply rtc_l; [apply by_reset; by apply (reset_again s2 (S n))|]. exact R. }
  split; [by rewrite Hp, Nat.add_succ_r|]. split; [done|]. split.
  { rewrite Hsaid. cbn. rewrite app_nil_r, <- !app_assoc. done. }
  cbn [fmap list_fmap]. rewrite Hm. done.
Qed.

(** Run alone, the thread says what [reset_process] of WcndManager says it does: [k] attempts
    that fail, and a last one that succeeds, or four that fail. *)
Theorem reset_alone late s k (ok : bool) : reset s = RIdle -> (if ok then k < 4 else k = 4)%nat ->
  exists s' l, rtc (step late) s s' /\ reset s' = RIdle /\ handler s' = handler s /\ doing s' = false /\
    said s' = said s ++ l /\ message <$> l = failed_attempts k ++ (if ok then success else []).
Proof.
  intros Hr Hk. set (s0 := set_reset s true (error s) [] (RAttempt 0) (broken s)).
  destruct (attempts_alone late k 0 s0) as (s1 & l & R & Hp & Hh & Hs & Hm); [done|destruct ok; unfold RESET_FAIL_RETRY_COUNT; lia|].
  cbn [Nat.add] in Hp. assert (R0 : rtc (step late) s s1) by (eapply rtc_l; [apply by_reset; by apply reset_begins|exact R]).
  cbn in Hs. rewrite app_nil_r in Hs. destruct ok.
  - set (s2 := set_reset s1 (doing s1) (error s1) [Start] (RStarted (S k)) (broken s1)).
    set (s2' := set_reset s2 (doing s2) (error s2) [] (RTested (S k) true) false).
    set (s3 := set_reset s2' (doing s2') (error s2') [End_] (REnded (S k) true) (broken s2')).
    set (s4 := set_reset s3 (doing s3) (error s3) [Alive] RAlive (broken s3)).
    set (s5 := set_reset s4 false (error s4) [] RClear (broken s4)).
    exists (set_reset s5 (doing s5) false [] RIdle (broken s5)), (l ++ [Start; End_; Alive]). split.
    { etrans; [exact R0|]. eapply rtc_l; [apply by_reset; by apply (reset_starts s1 k); [|unfold RESET_FAIL_RETRY_COUNT; lia]|].
      eapply rtc_l; [apply by_reset; by apply (reset_tests s2 (S k) true)|]. eapply rtc_l; [apply by_reset; by apply (reset_ends s2' (S k) true)|].
      eapply rtc_l; [apply by_reset; by apply (reset_alive s3 (S k))|]. eapply rtc_l; [apply by_reset; by apply (reset_done s4)|].
      eapply rtc_l; [apply by_reset; by apply (reset_clears s5)|]. apply rtc_refl. }
    split; [done|]. split; [done|]. split; [done|]. split; [cbn; by rewrite Hs, !app_nil_r, <- !app_assoc|].
    by rewrite fmap_app, Hm.
  - exists (set_reset s1 false (error s1) [] RIdle (broken s1)), l. split.
    { etrans; [exact R0|]. eapply rtc_l; [|apply rtc_refl]. apply by_reset, (reset_gives_up s1 k); [done|]. unfold RESET_FAIL_RETRY_COUNT. lia. }
    split; [done|]. split; [done|]. split; [done|]. split; [cbn; by rewrite Hs, app_nil_r|]. by rewrite Hm, app_nil_r.
Qed.

Lemma failures_known_witness : let s := set_handler start Cp2Listener true [] HFlagged true in
  order_inv s /\ (false = false -> known s).
Proof.
  apply (failures_known false). eapply rtc_l; [|apply rtc_refl]. apply by_handler. by apply (cp2_fails false start Cp2Listener).
Defined.
