(* ===== verification/AgpsQueue.v ===== *)
(** * apps/aGPS/lib/atc.c: the work queue

    A singly linked list of cells with a pointer to its last cell.  The heap is a finite map from
    addresses to cells; a [malloc] returns an address that is not in use, or NULL, which the code
    does not test.  The cells are shown to implement a list of data: [work_queue_add] puts at the
    end, [work_queue_pop] takes from the front, [work_queue_delete] takes a cell out. *)

From S2P Require Import Prelude.

Definition loc : Type := positive.

Section queue.
  Context {D : Type}.

(** [time_queued] is written and never read. *)
Record work_item : Type := { next : option loc; data : D }.
Record work_queue : Type := { head : option loc; tail : option loc; item_count : Z }.

Definition load (h : gmap loc work_item) (p : option loc) : outcome (loc * work_item) :=
  match p with
  | None => Undef
  | Some p => match h !! p with Some c => Done (p, c) | None => Undef end
  end.

Definition work_queue_new : work_queue := {| head := None; tail := None; item_count := 0 |}.

Definition work_queue_add (h : gmap loc work_item) (q : option work_queue) (m : option loc) (d : D) : outcome (option loc * gmap loc work_item * option work_queue) :=
  match q, m with
  | None, _ => Done (None, h, None)
  | Some _, None => Undef
  | Some q, Some p =>
      let h := <[p := {| next := None; data := d |}]> h in
      match head q with
      | None => Done (Some p, h, Some {| head := Some p; tail := Some p; item_count := 1 |})
      | Some _ =>
          let* (t, c) := load h (tail q) in
          Done (Some p, <[t := {| next := Some p; data := data c |}]> h,
                Some {| head := head q; tail := Some p; item_count := s32 (item_count q + 1) |})
      end
  end.

Definition set_ends (q : work_queue) (hd tl : option loc) : work_queue := {| head := hd; tail := tl; item_count := item_count q |}.
(** A queue without a first cell has no last one. *)
Definition clear_tail (q : work_queue) : work_queue := match head q with None => set_ends q None None | Some _ => q end.

Definition work_queue_pop (h : gmap loc work_item) (q : option work_queue) : outcome (option D * gmap loc work_item * option work_queue) :=
  match q with
  | None => Done (None, h, None)
  | Some q =>
      match head q with
      | None => Done (None, h, Some q)
      | Some _ =>
          let* (p, c) := load h (head q) in
          Done (Some (data c), delete p h, Some (clear_tail (set_ends q (next c) (tail q))))
      end
  end.

(** The cell before [item], and [item]'s own. *)
Fixpoint locate (fuel : nat) (h : gmap loc work_item) (prev : loc) (curr : option loc) (item : loc) : outcome (option (loc * work_item)) :=
  match fuel with
  | O => Fuel
  | S fuel =>
      match curr with
      | None => Done None
      | Some _ =>
          let* (p, c) := load h curr in
          if decide (p = item) then Done (Some (prev, c)) else locate fuel h p (next c) item
      end
  end.

Definition work_queue_delete (h : gmap loc work_item) (q : option work_queue) (item : option loc) : outcome (option D * gmap loc work_item * option work_queue) :=
  match q, item with
  | None, _ => Done (None, h, None)
  | Some q, None => Done (None, h, Some q)
  | Some q, Some it =>
      match head q with
      | None => Done (None, h, Some q)
      | Some _ =>
          let* (_, ic) := load h item in
          let* (hp, hc) := load h (head q) in
          if decide (hp = it) then
            Done (Some (data ic), delete it h, Some (clear_tail (set_ends q (next ic) (tail q))))
          else
            let* r := locate (S (size h)) h hp (next hc) it in
            match r with
            | None => Done (None, h, Some q)
            | Some (prev, c) =>
                let* (_, pc) := load h (Some prev) in
                let h := <[prev := {| next := next c; data := data pc |}]> h in
                let q := set_ends q (head q) (if decide (tail q = Some it) then Some prev else tail q) in
                Done (Some (data ic), delete it h, Some (clear_tail q))
            end
      end
  end.

(** ** The list of a queue *)

(** The cells [l] from [p] on, up to the pointer [e]. *)
Fixpoint segment (h : gmap loc work_item) (p : option loc) (l : list (loc * D)) (e : option loc) : Prop :=
  match l with
  | [] => p = e
  | (a, d) :: l => p = Some a /\ exists n, h !! a = Some {| next := n; data := d |} /\ segment h n l e
  end.

Record represents (h : gmap loc work_item) (q : work_queue) (l : list (loc * D)) : Prop := {
  rp_cells : segment h (head q) l None;
  rp_distinct : NoDup l.*1;
  rp_tail : tail q = last l.*1
}.

Lemma segment_app h l1 : forall p l2 e, segment h p (l1 ++ l2) e <-> exists m, segment h p l1 m /\ segment h m l2 e.
Proof.
  induction l1 as [|[a d] l1 IH]; intros p l2 e; cbn [segment app].
  - split; [intros H; by exists p|]. by intros (m & -> & H).
  - split.
    + intros (-> & n & Hn & H). apply IH in H as (m & H1 & H2). exists m. split; [|done]. split; [done|]. by exists n.
    + intros (m & (-> & n & Hn & H1) & H2). split; [done|]. exists n. split; [done|]. apply IH. by exists m.
Qed.

Lemma segment_heap h h' l : (forall a, a ∈ l.*1 -> h' !! a = h !! a) -> forall p e, segment h p l e -> segment h' p l e.
Proof.
  induction l as [|[a d] l IH]; intros Hh p e; [done|]. cbn [segment]. intros (-> & n & Hn & H). split; [done|]. exists n.
  split; [rewrite Hh; [done|cbn; left]|]. apply IH; [|done]. intros b Hb. apply Hh. cbn. by right.
Qed.

Lemma segment_in h l : forall p e a, segment h p l e -> a ∈ l.*1 -> is_Some (h !! a).
Proof.
  induction l as [|[b d] l IH]; intros p e a H Ha; cbn in Ha; [by apply not_elem_of_nil in Ha|].
  destruct H as (_ & n & Hn & H). apply elem_of_cons in Ha as [-> | Ha]; [by eexists|by eapply IH].
Qed.

Lemma segment_insert h b c l p e : b ∉ l.*1 -> segment h p l e -> segment (<[b := c]> h) p l e.
Proof. intros Hb. apply segment_heap. intros a Ha. apply lookup_insert_ne. by intros ->. Qed.
Lemma segment_delete h b l p e : b ∉ l.*1 -> segment h p l e -> segment (delete b h) p l e.
Proof. intros Hb. apply segment_heap. intros a Ha. apply lookup_delete_ne. by intros ->. Qed.

Lemma new_represents h : represents h work_queue_new [].
Proof. split; [done|constructor|done]. Qed.

(** The cells before the last of [l] and the last. *)
Lemma last_cell {A B} (l : list (A * B)) : l <> [] -> exists l1 a d, l = l1 ++ [(a, d)] /\ last l.*1 = Some a.
Proof.
  intros H. destruct (exists_last H) as (l1 & [a d] & ->). exists l1, a, d. split; [done|]. rewrite fmap_app. apply last_snoc.
Qed.

Lemma nodup_split {A B} (l1 l2 : list (A * B)) a d : NoDup ((l1 ++ (a, d) :: l2).*1) ->
  (a ∉ l1.*1) /\ (a ∉ l2.*1) /\ NoDup ((l1 ++ l2).*1).
Proof.
  rewrite fmap_app, fmap_cons. cbn. intros (H1 & H2 & H3)%NoDup_app. apply NoDup_cons in H3 as [H3 H4].
  split; [intros Ha; apply (H2 _ Ha); left|]. split; [done|]. rewrite fmap_app. apply NoDup_app. split_and!; [done| |done].
  intros x Hx Hx2. apply (H2 _ Hx). by right.
Qed.

Lemma add_spec h q l p d : represents h q l -> h !! p = None -> exists h' q',
  work_queue_add h (Some q) (Some p) d = Done (Some p, h', Some q') /\ represents h' q' (l ++ [(p, d)]) /\
  (forall a, a <> p -> is_Some (h' !! a) <-> is_Some (h !! a)).
Proof.
  intros [Hc Hn Ht] Hp. unfold work_queue_add.
  assert (Hpl : p ∉ l.*1) by (intros Hin; destruct (segment_in _ _ _ _ _ Hc Hin) as [c Hc']; by rewrite Hp in Hc').
  destruct (decide (l = [])) as [->|Hl].
  { cbn in Hc. rewrite Hc. eexists _, _. split; [done|]. split; [|by intros a Ha; rewrite lookup_insert_ne].
    split; [|apply NoDup_singleton|done]. cbn. split; [done|]. exists None. by rewrite lookup_insert_eq. }
  destruct (last_cell l Hl) as (l1 & a & d1 & El & Hlast). rewrite Hlast in Ht.
  assert (Hhd : exists x, head q = Some x) by (destruct l as [|[x dx] l]; [done|]; destruct Hc as [Hc _]; by exists x).
  destruct Hhd as [x Hx]. rewrite Hx, Ht. cbn [load].
  assert (Hap : a <> p) by (intros ->; apply Hpl; rewrite El, fmap_app; apply elem_of_app; right; left).
  rewrite lookup_insert_ne by done. rewrite El in Hc. apply segment_app in Hc as (m & Hc1 & Hm & n & Ha & Hn'). cbn in Hn'. subst n m.
  rewrite Ha. cbn [obind data]. eexists _, _. split; [done|].
  rewrite El in Hn. apply nodup_split in Hn as (Ha1 & _ & Hn1). rewrite app_nil_r in Hn1.
  assert (Hp1 : p ∉ l1.*1) by (intros Hin; apply Hpl; rewrite El, fmap_app; apply elem_of_app; by left). split; [split|].
  - cbn [head]. rewrite Hx in Hc1. rewrite El. apply segment_app. exists (Some p). split.
    + apply segment_app. exists (Some a). split; [by do 2 (apply segment_insert; [done|])|]. cbn. split; [done|]. eexists.
      by rewrite lookup_insert_eq.
    + cbn. split; [done|]. exists None. by rewrite lookup_insert_ne, lookup_insert_eq.
  - rewrite fmap_app. apply NoDup_app. split; [|split; [|apply NoDup_singleton]].
    + rewrite El, fmap_app. apply NoDup_app. split; [done|]. split; [|apply NoDup_singleton].
      intros b Hb ->%list_elem_of_singleton. done.
    + intros b Hb ->%list_elem_of_singleton. done.
  - rewrite fmap_app. symmetry. apply last_snoc.
  - intros b Hb. destruct (decide (b = a)) as [->|Hba]; [rewrite lookup_insert_eq, Ha; split; by eexists|].
    by rewrite !lookup_insert_ne.
Qed.

(** Without its first cell. *)
Lemma behead h q a d l c : represents h q ((a, d) :: l) -> h !! a = Some c ->
  represents (delete a h) (clear_tail (set_ends q (next c) (tail q))) l /\ data c = d.
Proof.
  intros [(Hh & n & Ha & Hc) Hn Ht] Hac. rewrite Ha in Hac. injection Hac as <-. split; [|done]. cbn in Hn.
  apply NoDup_cons in Hn as [Hal Hn]. cbn [next].
  assert (Hd : segment (delete a h) n l None) by (by apply segment_delete). destruct l as [|[b e] l].
  - cbn in Hd. subst n. split; [done|constructor|done].
  - destruct Hd as [-> Hd]. split; [by split|done|]. cbn. by rewrite Ht.
Qed.

Lemma pop_spec h q l : represents h q l ->
  match l with
  | [] => work_queue_pop h (Some q) = Done (None, h, Some q)
  | (a, d) :: l => exists q', work_queue_pop h (Some q) = Done (Some d, delete a h, Some q') /\ represents (delete a h) q' l
  end.
Proof.
  intros Hr. assert (Hc := rp_cells _ _ _ Hr). unfold work_queue_pop. destruct l as [|[a d] l]; [cbn in Hc; by rewrite Hc|].
  destruct Hc as (Hh & n & Ha & Hc). rewrite Hh. cbn [load]. rewrite Ha. cbn [obind].
  destruct (behead _ _ _ _ _ _ Hr Ha) as [Hb _]. by eexists.
Qed.

(** The walk finds the cell, or that there is none. *)
Lemma locate_spec h item l : forall fuel prev p, segment h p l None -> (length l < fuel)%nat ->
  locate fuel h prev p item = Done None /\ item ∉ l.*1 \/
  exists l1 l2 d c, l = l1 ++ (item, d) :: l2 /\ item ∉ l1.*1 /\ h !! item = Some c /\
    locate fuel h prev p item = Done (Some (default prev (last l1.*1), c)).
Proof.
  induction l as [|[a d] l IH]; intros fuel prev p H Hf; (destruct fuel as [|fuel]; [cbn in Hf; lia|]); cbn [locate].
  { cbn in H. rewrite H. left. split; [done|]. by apply not_elem_of_nil. }
  destruct H as (-> & n & Ha & H). cbn [load]. rewrite Ha. cbn [obind next]. destruct (decide (a = item)) as [->|Hne].
  - right. exists [], l, d. eexists. split; [done|]. split; [by apply not_elem_of_nil|]. by split.
  - destruct (IH fuel a n H ltac:(cbn in Hf; lia)) as [[-> Hni]|(l1 & l2 & d' & c & -> & Hni & Hc & ->)].
    + left. split; [done|]. cbn. by apply not_elem_of_cons.
    + right. exists ((a, d) :: l1), l2, d', c. split; [done|]. split; [cbn; by apply not_elem_of_cons|]. split; [done|].
      do 3 f_equal. destruct l1 as [|[b e] l1]; [done|]. cbn [fmap list_fmap fst]. rewrite (last_cons_cons a b).
      by destruct (last (b :: l1.*1)) eqn:E; [|apply last_None in E].
Qed.

Lemma segment_size h l : forall p e, segment h p l e -> NoDup l.*1 -> (length l <= size h)%nat.
Proof.
  intros p e H Hn. rewrite <- (length_fmap fst), <- (size_list_to_set (C := gset loc)) by done. rewrite <- size_dom.
  apply subseteq_size. intros a Ha. apply elem_of_list_to_set in Ha. apply elem_of_dom. by eapply segment_in.
Qed.

(** Taking a cell out from behind another. *)
Lemma unlink h q l1 b e a d l2 c pc : represents h q (l1 ++ (b, e) :: (a, d) :: l2) -> h !! a = Some c -> h !! b = Some pc ->
  let q' := set_ends q (head q) (if decide (tail q = Some a) then Some b else tail q) in
  represents (delete a (<[b := {| next := next c; data := data pc |}]> h)) q' (l1 ++ (b, e) :: l2) /\ data c = d.
Proof.
  intros [Hc Hn Ht] Ha Hb q'. apply segment_app in Hc as (m & Hc1 & -> & n & Hb' & -> & n' & Ha' & Hc2).
  rewrite Hb in Hb'. injection Hb' as ->. rewrite Ha in Ha'. injection Ha' as ->. split; [|done]. cbn [next data].
  replace (l1 ++ (b, e) :: (a, d) :: l2) with ((l1 ++ [(b, e)]) ++ (a, d) :: l2) in Hn, Ht by (by rewrite <- app_assoc).
  destruct (nodup_split _ _ _ _ Hn) as (Ha1 & Ha2 & Hn2). rewrite <- app_assoc in Hn2. cbn [app] in Hn2.
  destruct (nodup_split _ _ _ _ Hn2) as (Hb1 & Hb2 & _). rewrite fmap_app, elem_of_app in Ha1.
  assert (Hal1 : a ∉ l1.*1) by tauto.
  assert (Hab : a <> b) by (intros ->; apply Ha1; right; left). split; [|done|].
  - cbn [head q' set_ends]. apply segment_app. exists (Some b). split; [by apply segment_delete, segment_insert|].
    split; [done|]. exists n'. split; [by rewrite lookup_delete_ne, lookup_insert_eq|]. by apply segment_delete, segment_insert.
  - cbn [tail q' set_ends]. rewrite Ht, !fmap_app, !fmap_cons. cbn [fst]. destruct l2 as [|[x y] l2].
    + rewrite !last_app_cons. by rewrite decide_True.
    + rewrite !fmap_cons, !last_app_cons. cbn [fst]. rewrite !last_cons_cons. rewrite decide_False; [done|].
      intros E. apply last_Some in E as [k E]. apply Ha2. rewrite fmap_cons. cbn [fst]. rewrite E. apply elem_of_app. right. left.
Qed.

Lemma delete_spec h q l it : represents h q l -> is_Some (h !! it) ->
  work_queue_delete h (Some q) (Some it) = Done (None, h, Some q) /\ it ∉ l.*1 \/
  exists l1 d l2 h' q', l = l1 ++ (it, d) :: l2 /\ work_queue_delete h (Some q) (Some it) = Done (Some d, h', Some q') /\
    represents h' q' (l1 ++ l2) /\ (forall a, is_Some (h' !! a) <-> a <> it /\ is_Some (h !! a)).
Proof.
  intros Hr [ic Hic]. assert (Hc := rp_cells _ _ _ Hr). assert (Hs := segment_size _ _ _ _ Hc (rp_distinct _ _ _ Hr)).
  unfold work_queue_delete. destruct l as [|[a d] l].
  { cbn in Hc. rewrite Hc. left. split; [done|]. by apply not_elem_of_nil. }
  destruct Hc as (Hh & n & Ha & Hc). rewrite Hh. cbn [load]. rewrite Hic, Ha. cbn [obind next].
  assert (Hdom : forall (h' : gmap loc work_item) b, is_Some (delete it h' !! b) <-> b <> it /\ is_Some (h' !! b)).
  { intros h' b. rewrite lookup_delete_is_Some. naive_solver. }
  destruct (decide (a = it)) as [->|Hne].
  { right. destruct (behead _ _ _ _ _ _ Hr Hic) as [Hb Hd]. exists [], d, l, (delete it h). eexists.
    split; [done|]. split; [by rewrite Hd|]. split; [done|]. by intros b. }
  destruct (locate_spec h it l (S (size h)) a n Hc) as [[-> Hni]|(l1 & l2 & d' & c & -> & Hni & Hc' & ->)]; [cbn in Hs; lia| |].
  { left. split; [done|]. cbn. by apply not_elem_of_cons. }
  right. rewrite Hic in Hc'. injection Hc' as ->. cbn [obind].
  assert (Hp : exists k b e pc, (a, d) :: l1 = k ++ [(b, e)] /\ default a (last l1.*1) = b /\ h !! b = Some pc).
  { destruct (last_cell ((a, d) :: l1) ltac:(done)) as (k & b & e & Ek & Hl). exists k, b, e.
    assert (Hb : is_Some (h !! b)).
    { apply (segment_in h ((a, d) :: l1 ++ (it, d') :: l2) (Some a) None); [split; [done|]; by exists n|].
      change ((a, d) :: l1 ++ (it, d') :: l2) with (((a, d) :: l1) ++ (it, d') :: l2).
      rewrite Ek, !fmap_app, !elem_of_app. left. right. left. }
    destruct Hb as [pc Hb]. exists pc. split; [done|]. split; [|done]. rewrite fmap_cons in Hl. cbn [fst] in Hl.
    destruct l1.*1 as [|x y]; [by injection Hl|]. rewrite last_cons_cons in Hl. by rewrite Hl. }
  destruct Hp as (k & b & e & pc & Ek & -> & Hb). rewrite Hb. cbn [obind].
  assert (Hr' : represents h q (k ++ (b, e) :: (it, d') :: l2)).
  { replace (k ++ (b, e) :: (it, d') :: l2) with ((a, d) :: l1 ++ (it, d') :: l2); [done|].
    change ((a, d) :: l1 ++ (it, d') :: l2) with (((a, d) :: l1) ++ (it, d') :: l2). by rewrite Ek, <- app_assoc. }
  destruct (unlink h q k b e it d' l2 c pc Hr' Hic Hb) as [Hu Hd]. rewrite <- Hh in *.
  exists ((a, d) :: l1), d', l2. do 2 eexists. split; [done|]. split; [by rewrite Hd|].
  replace (((a, d) :: l1) ++ l2) with (k ++ (b, e) :: l2) by (by rewrite Ek, <- app_assoc). split.
  - unfold clear_tail. cbn [head set_ends]. rewrite Hh in *. exact Hu.
  - intros x. rewrite Hdom. destruct (decide (x = b)) as [->|Hxb]; [rewrite lookup_insert_eq, Hb; naive_solver|by rewrite lookup_insert_ne].
Qed.

(** ** Sequences of calls *)

(** An addition has the address that [malloc] returned. *)
Inductive call : Type := CAdd (p : loc) (d : D) | CPop | CDelete (p : loc).

Definition run_call (h : gmap loc work_item) (q : option work_queue) (c : call) : outcome (option D * gmap loc work_item * option work_queue) :=
  match c with
  | CAdd p d => let* (_, h, q) := work_queue_add h q (Some p) d in Done (None, h, q)
  | CPop => work_queue_pop h q
  | CDelete p => work_queue_delete h q (Some p)
  end.
Fixpoint run_calls (h : gmap loc work_item) (q : option work_queue) (cs : list call) : outcome (list (option D) * gmap loc work_item * option work_queue) :=
  match cs with
  | [] => Done ([], h, q)
  | c :: cs =>
      let* (r, h, q) := run_call h q c in
      let* (rs, h, q) := run_calls h q cs in
      Done (r :: rs, h, q)
  end.

(** The same on a list: [None] when an address in use is given out again, or a cell is deleted
    that is not in the queue. *)
Definition list_call (l : list (loc * D)) (c : call) : option (option D * list (loc * D)) :=
  match c with
  | CAdd p d => if decide (p ∈ l.*1) then None else Some (None, l ++ [(p, d)])
  | CPop => Some (match l with [] => (None, []) | (_, d) :: l => (Some d, l) end)
  | CDelete p =>
      match list_find (fun x => x.1 = p) l with
      | None => None
      | Some (i, (_, d)) => Some (Some d, take i l ++ drop (S i) l)
      end
  end.
Fixpoint list_calls (l : list (loc * D)) (cs : list call) : option (list (option D) * list (loc * D)) :=
  match cs with
  | [] => Some ([], l)
  | c :: cs => '(r, l) ← list_call l c; '(rs, l) ← list_calls l cs; Some (r :: rs, l)
  end.

(** The queue's cells are all there are. *)
Record whole (h : gmap loc work_item) (q : work_queue) (l : list (loc * D)) : Prop := {
  wh_rep : represents h q l;
  wh_dom : forall a, is_Some (h !! a) <-> a ∈ l.*1
}.

Lemma add_whole h q l p d : whole h q l -> p ∉ l.*1 -> exists h' q',
  work_queue_add h (Some q) (Some p) d = Done (Some p, h', Some q') /\ whole h' q' (l ++ [(p, d)]).
Proof.
  intros [Hr Hd] Hp. assert (Hn : h !! p = None) by (apply eq_None_not_Some; by rewrite Hd).
  destruct (add_spec h q l p d Hr Hn) as (h' & q' & E & Hr' & Hk). exists h', q'. split; [done|]. split; [done|].
  intros a. rewrite fmap_app, elem_of_app. cbn. rewrite list_elem_of_singleton. destruct (decide (a = p)) as [->|Hap].
  - split; [by right|]. intros _. apply (segment_in _ _ _ _ _ (rp_cells _ _ _ Hr')). rewrite fmap_app, elem_of_app. right. left.
  - rewrite Hk, Hd by done. naive_solver.
Qed.

Lemma queue_call_refines h q l c r l' : whole h q l -> list_call l c = Some (r, l') ->
  exists h' q', run_call h (Some q) c = Done (r, h', Some q') /\ whole h' q' l'.
Proof.
  intros Hw E. destruct c as [p d| |p]; cbn [run_call list_call] in *.
  - case_decide as Hp; [done|]. injection E as <- <-. destruct (add_whole h q l p d Hw Hp) as (h' & q' & -> & Hw').
    cbn [obind]. by exists h', q'.
  - destruct Hw as [Hr Hd]. pose proof (pop_spec h q l Hr) as Hp. destruct l as [|[a d] l]; injection E as <- <-.
    + rewrite Hp. by exists h, q.
    + destruct Hp as (q' & -> & Hr'). exists (delete a h), q'. split; [done|]. split; [done|]. intros b.
      rewrite lookup_delete_is_Some, Hd. cbn. rewrite elem_of_cons. pose proof (rp_distinct _ _ _ Hr) as Hn. cbn in Hn.
      apply NoDup_cons in Hn as [Hn _]. naive_solver.
  - destruct (list_find _ l) as [[i [p' d]]|] eqn:Ef; [|done]. injection E as <- <-.
    apply list_find_Some in Ef as (Hi & Hp & _). cbn in Hp. subst p'. destruct Hw as [Hr Hd].
    assert (Hin : p ∈ l.*1) by (apply list_elem_of_fmap; exists (p, d); split; [done|]; by eapply list_elem_of_lookup_2).
    destruct (delete_spec h q l p Hr) as [[_ Hno]|(l1 & d' & l2 & h' & q' & -> & -> & Hr' & Hk)]; [by apply Hd|done|].
    pose proof (rp_distinct _ _ _ Hr) as Hn. destruct (nodup_split _ _ _ _ Hn) as (Hn1 & Hn2 & _).
    assert (i = length l1) as ->.
    { apply (NoDup_lookup _ i (length l1) p Hn); rewrite list_lookup_fmap; [by rewrite Hi|].
      by rewrite lookup_app_r, Nat.sub_diag by lia. }
    rewrite lookup_app_r, Nat.sub_diag in Hi by lia. injection Hi as ->.
    rewrite take_app_length, (drop_app_ge l1) by lia. replace (S (length l1) - length l1)%nat with 1%nat by lia. cbn [drop].
    rewrite drop_0. exists h', q'. split; [done|]. split; [done|]. intros a. rewrite Hk, Hd, !fmap_app, fmap_cons, !elem_of_app. cbn [fst].
    rewrite elem_of_cons. naive_solver.
Qed.

(** C18. The cells in the heap implement the list: every sequence of calls that gives [malloc]'s
    addresses out only when they are free, and deletes only cells of the queue, runs without a
    wild access, returns what the list returns, and leaves just the cells of the list. *)
Theorem queue_implements_list cs rs l : list_calls [] cs = Some (rs, l) ->
  exists h q, run_calls ∅ (Some work_queue_new) cs = Done (rs, h, Some q) /\ represents h q l /\ dom h = list_to_set (l.*1).
Proof.
  assert (Hgen : forall cs h q l rs l', whole h q l -> list_calls l cs = Some (rs, l') ->
    exists h' q', run_calls h (Some q) cs = Done (rs, h', Some q') /\ whole h' q' l').
  { clear. induction cs as [|c cs IH]; intros h q l rs l' Hw E; cbn [run_calls list_calls] in *.
    - injection E as <- <-. by exists h, q.
    - destruct (list_call l c) as [[r l1]|] eqn:Ec; [|done]. cbn in E.
      destruct (queue_call_refines _ _ _ _ _ _ Hw Ec) as (h1 & q1 & -> & Hw1). cbn [obind].
      destruct (list_calls l1 cs) as [[rs1 l2]|] eqn:Es; [|done]. cbn in E. injection E as <- <-.
      destruct (IH _ _ _ _ _ Hw1 Es) as (h' & q' & -> & Hw'). cbn [obind]. by exists h', q'. }
  intros E. destruct (Hgen cs ∅ work_queue_new [] rs l) as (h & q & Er & [Hr Hd]); [|done|].
  { split; [apply new_represents|]. intros a. rewrite lookup_empty. split; [by intros []|]. by intros ?%not_elem_of_nil. }
  exists h, q. split; [done|]. split; [done|]. apply set_eq. intros a. by rewrite elem_of_dom, elem_of_list_to_set.
Qed.
End queue.
Arguments work_item : clear implicits.
Arguments call : clear implicits.

(** Additions, a cell taken out from the middle, one from the front; the count of items still says
    three when one is left. *)
Definition some_calls : list (call Z) := [CAdd 1%positive 10; CAdd 2%positive 20; CAdd 3%positive 30; CDelete 2%positive; CPop].
Lemma queue_implements_list_witness : list_calls [] some_calls = Some ([None; None; None; Some 20; Some 10], [(3%positive, 30)]) /\
  exists h q, run_calls ∅ (Some work_queue_new) some_calls = Done ([None; None; None; Some 20; Some 10], h, Some q) /\
    represents h q [(3%positive, 30)] /\ dom h = list_to_set ([(3%positive, 30)].*1).
Proof. split; [reflexivity|]. apply (queue_implements_list some_calls). reflexivity. Defined.

Example count_stays : (let* (_, h, q) := run_calls ∅ (Some work_queue_new) some_calls in Done (item_count <$> q)) = Done (Some 3).
Proof. reflexivity. Qed.
