(* ===== verification/AgpsParser.v ===== *)
(** * apps/aGPS/lib/parser.c: the fields of AT responses

    The parser works in the buffer that holds the line: a [char *] is an index, or [None] for
    NULL, and [strsep] puts a NUL where a field ends (EngText). *)

From S2P Require Import Prelude CString EngFrame EngText EngMac.

(** ** Strings *)
Fixpoint strStartsWith (line prefix : list Z) : bool :=
  match line, prefix with
  | c :: line, p :: prefix => if c =? p then strStartsWith line prefix else false
  | _, [] => true
  | [], _ :: _ => false
  end.

(** The loop stops at the end of [dst], so that nothing is found in an empty string. *)
Fixpoint find_from (dst src : list Z) (index : Z) : Z :=
  match dst with
  | [] => -1
  | _ :: rest => if starts_with dst src then index else find_from rest src (index + 1)
  end.
Definition FindString (dst src : list Z) : Z := find_from dst src 0.

Definition at_tok_start (buf : list Z) (cur : Z) : outcome (Z * Z) :=
  let* s := cstr_at buf cur in
  let ret := FindString s [58] in
  Done (if ret <? 0 then (-1, cur) else (0, cur + ret + 1)).

(** ** Fields *)

(** Past the blanks. *)
Fixpoint skip_blank (fuel : nat) (buf : list Z) (i : Z) : outcome Z :=
  match fuel with
  | O => Fuel
  | S fuel => let* c := rd buf i in if isspace c then skip_blank fuel buf (i + 1) else Done i
  end.

(** The field, the buffer, and where to go on. *)
Definition get_current_tok (buf : list Z) (cur : option Z) : outcome (option Z * list Z * option Z) :=
  match cur with
  | None => Done (None, buf, None)
  | Some i =>
      let* i := skip_blank (S (length buf)) buf i in
      let* c := rd buf i in
      if (c =? 34) || (c =? 10) then
        let* (tmp, buf, cur) := strsep buf (Some (i + 1)) c in
        let* (_, buf, cur) := strsep buf cur 44 in
        Done (tmp, buf, cur)
      else strsep buf (Some i) 44
  end.

(** The result, the buffer, where to go on, and the number when there is one. *)
Definition parse_nextint (buf : list Z) (cur : option Z) : outcome (Z * list Z * option Z * option Z) :=
  match cur with
  | None => Done (-1, buf, None, None)
  | Some _ =>
      let* (tok, buf, cur) := get_current_tok buf cur in
      match tok with
      | None => Done (-2, buf, cur, None)
      | Some i => let* s := cstr_at buf i in Done (0, buf, cur, Some (strtol (string_of s) 10))
      end
  end.

Definition parse_nextstr (buf : list Z) (cur : option Z) : outcome (option Z * list Z * option Z) := get_current_tok buf cur.

(** ** Hexadecimal data *)

(** A character that is no digit and no capital counts from ['a']. *)
Definition semi (c : Z) : Z :=
  if (48 <=? c) && (c <=? 57) then c - 48
  else if (c <=? 70) && (65 <=? c) then 10 + c - 65
  else 10 + c - 97.
Definition SemiByteCharsToByte (chHigh chLow : Z) : Z := Z.lor (u8 (semi chHigh * 16)) (u8 (semi chLow)).

(** [i] characters were read and [o] bytes written. *)
Fixpoint hex_loop (fuel : nat) (sIn sOut : list Z) (cbIn cbOut i o : Z) : outcome (list Z * Z) :=
  match fuel with
  | O => Fuel
  | S fuel =>
      if (i <? cbIn - 1) && (o <? cbOut) then
        let* a := rd sIn i in
        let* b := rd sIn (i + 1) in
        let* sOut := wr sOut o (SemiByteCharsToByte a b) in
        hex_loop fuel sIn sOut cbIn cbOut (i + 2) (o + 1)
      else Done (sOut, o)
  end.
Definition GSMHexToGSM (sIn : list Z) (cbIn : Z) (sOut : list Z) (cbOut : Z) : outcome (list Z * Z) :=
  hex_loop (S (Z.to_nat cbIn)) sIn sOut cbIn cbOut 0 0.

(** ** Facts *)
Lemma starts_with_refl p : forall r, strStartsWith (p ++ r) p = true.
Proof. induction p as [|c p IH]; intros r; [by destruct r|]. cbn. by rewrite Z.eqb_refl, IH. Qed.

(** What [%02x] prints is read back. *)
Lemma semi_hex2 b : byte_ok b -> SemiByteCharsToByte (lhex (b / 16)) (lhex (b mod 16)) = b.
Proof.
  intros Hb. apply Z.eqb_eq.
  exact (byte_sweep (fun b => SemiByteCharsToByte (lhex (b / 16)) (lhex (b mod 16)) =? b) b ltac:(by vm_compute) Hb).
Qed.

Lemma zlen_hex bs : zlen (flat_map hex2 bs) = 2 * zlen bs.
Proof. induction bs as [|b bs IH]; [done|]. cbn [flat_map]. rewrite zlen_app, zlen_cons, IH. change (zlen (hex2 b)) with 2. lia. Qed.

Lemma hex_pairs_spec bs : forall fuel pre post done_ room rest cbIn cbOut,
  Forall byte_ok bs -> (length bs < fuel)%nat -> zlen pre = 2 * zlen done_ -> cbIn = zlen pre + 2 * zlen bs ->
  length room = length bs -> zlen done_ + zlen bs <= cbOut ->
  hex_loop fuel (pre ++ flat_map hex2 bs ++ post) (done_ ++ room ++ rest) cbIn cbOut (zlen pre) (zlen done_) =
  Done (done_ ++ bs ++ rest, zlen done_ + zlen bs).
Proof.
  induction bs as [|b bs IH]; intros fuel pre post done_ room rest cbIn cbOut Hb Hf Hp -> Hr Ho;
    (destruct fuel as [|fuel]; [cbn in Hf; lia|]); cbn [hex_loop].
  { destruct room; [|done]. change (zlen []) with 0. guard_false ((zlen pre <? zlen pre + 2 * 0 - 1) && (zlen done_ <? cbOut)).
    cbn [app]. by rewrite Z.add_0_r. }
  apply Forall_cons in Hb as [Hb Hbs]. destruct room as [|r room]; [done|]. rewrite zlen_cons in *. pose proof (zlen_nonneg bs).
  guard_true ((zlen pre <? zlen pre + 2 * (1 + zlen bs) - 1) && (zlen done_ <? cbOut)).
  cbn [flat_map]. unfold hex2 at 1 2 3. cbn [app]. rewrite rd_app by done. cbn [obind].
  assert (Hrd : forall x y l, rd (pre ++ x :: y :: l) (zlen pre + 1) = Done y).
  { intros x y l. change (pre ++ x :: y :: l) with (pre ++ [x] ++ y :: l). rewrite app_assoc. apply rd_app. by rewrite zlen_app. }
  rewrite Hrd. cbn [obind].
  rewrite wr_app by done. cbn [obind]. rewrite semi_hex2 by done.
  specialize (IH fuel (pre ++ hex2 b) post (done_ ++ [b]) room rest (zlen pre + 2 * (1 + zlen bs)) cbOut Hbs).
  rewrite !zlen_app in IH. change (zlen (hex2 b)) with 2 in IH. change (zlen [b]) with 1 in IH.
  rewrite <- !app_assoc in IH. cbn [app] in IH. rewrite <- app_assoc. rewrite IH; [do 2 f_equal; lia|cbn in Hf; lia|lia|lia|by injection Hr|lia].
Qed.

(** The bytes are put at the start of the destination. *)
Lemma hex_to_bytes bs post room rest cbOut : Forall byte_ok bs -> length room = length bs -> zlen bs <= cbOut ->
  GSMHexToGSM (flat_map hex2 bs ++ post) (2 * zlen bs) (room ++ rest) cbOut = Done (bs ++ rest, zlen bs).
Proof.
  intros Hb Hr Ho. unfold GSMHexToGSM.
  pose proof (hex_pairs_spec bs (S (Z.to_nat (2 * zlen bs))) [] post [] room rest (2 * zlen bs) cbOut Hb) as H.
  change (zlen []) with 0 in H. cbn [app] in H. rewrite !Z.add_0_l in H. apply H; try done. unfold zlen. lia.
Qed.

(** A field that ends with a comma. *)
Definition plain (s : list Z) : Prop := Forall (fun c => c <> 0 /\ c <> 44) s /\
  (exists c r, s = c :: r /\ isspace c = false /\ c <> 34).

Lemma list_find_none (s : list Z) c : Forall (fun x => x <> c) s -> list_find (fun b => b = c) s = None.
Proof. intros H. apply list_find_None. eapply Forall_impl; [exact H|]. done. Qed.

Lemma strchr_app pre s c rest i : Forall (fun x => x <> 0 /\ x <> c) s -> c <> 0 -> zlen pre = i ->
  (exists l r, rest = l ++ 0 :: r /\ Forall (fun x => x <> 0) l) -> strchr (pre ++ s ++ c :: rest) i c = Done (Some (i + zlen s)).
Proof.
  intros Hs Hc Hi (l & r & -> & Hl). unfold strchr.
  replace (pre ++ s ++ c :: l ++ 0 :: r) with (pre ++ (s ++ c :: l) ++ 0 :: r) by (by rewrite <- (app_assoc s)).
  rewrite cstr_at_app; [|apply Forall_app; split; [eapply Forall_impl; [exact Hs|]; by intros ? []|by constructor]|done].
  cbn [obind]. rewrite list_find_app_r; [|apply list_find_none; eapply Forall_impl; [exact Hs|]; by intros ? []].
  cbn [list_find]. rewrite decide_True by done. done.
Qed.

(** A string follows: a NUL comes later. *)
Definition tail_ok (rest : list Z) : Prop := exists l r, rest = l ++ 0 :: r /\ Forall (fun x => x <> 0) l.

Lemma skip_blank_spec bl : forall fuel pre c rest, Forall (fun x => isspace x = true) bl -> isspace c = false ->
  (length bl < fuel)%nat -> skip_blank fuel (pre ++ bl ++ c :: rest) (zlen pre) = Done (zlen pre + zlen bl).
Proof.
  induction bl as [|b bl IH]; intros fuel pre c rest Hb Hc Hf; (destruct fuel as [|fuel]; [cbn in Hf; lia|]); cbn [skip_blank app].
  - rewrite rd_app by done. cbn [obind]. rewrite Hc. by rewrite Z.add_0_r.
  - apply Forall_cons in Hb as [Hb Hbl]. rewrite rd_app by done. cbn [obind]. rewrite Hb.
    specialize (IH fuel (pre ++ [b]) c rest Hbl Hc ltac:(cbn in Hf; lia)). rewrite zlen_app, <- app_assoc in IH.
    change (zlen [b]) with 1 in IH. cbn [app] in IH. rewrite IH, zlen_cons. f_equal. lia.
Qed.

Lemma strsep_at pre s c rest : Forall (fun x => x <> 0 /\ x <> c) s -> c <> 0 -> tail_ok rest ->
  strsep (pre ++ s ++ c :: rest) (Some (zlen pre)) c =
  Done (Some (zlen pre), pre ++ s ++ 0 :: rest, Some (zlen pre + zlen s + 1)).
Proof.
  intros Hs Hc Ht. unfold strsep. rewrite strchr_app by done. cbn [obind].
  rewrite (app_assoc pre), wr_app by (by rewrite zlen_app). cbn [obind]. by rewrite <- app_assoc.
Qed.

Lemma string_after pre s rest : Forall (fun x => x <> 0) s -> cstr_at (pre ++ s ++ 0 :: rest) (zlen pre) = Done s.
Proof. intros H. by apply cstr_at_app. Qed.

(** A number, with blanks before it and a comma after it. *)
Lemma nextint_spec pre bl s rest : Forall (fun x => isspace x = true) bl -> plain s -> tail_ok rest ->
  parse_nextint (pre ++ bl ++ s ++ 44 :: rest) (Some (zlen pre)) =
  Done (0, pre ++ bl ++ s ++ 0 :: rest, Some (zlen (pre ++ bl ++ s ++ [0])), Some (strtol (string_of s) 10)).
Proof.
  intros Hb (Hs & c & r & -> & Hc & Hq) Ht. unfold parse_nextint, get_current_tok.
  change ((c :: r) ++ 44 :: rest) with (c :: r ++ 44 :: rest).
  rewrite skip_blank_spec by (done || rewrite !length_app; lia). cbn [obind].
  assert (Hl : zlen pre + zlen bl = zlen (pre ++ bl)) by (by rewrite zlen_app). rewrite Hl.
  rewrite (app_assoc pre bl), rd_app by done. cbn [obind].
  assert ((c =? 34) || (c =? 10) = false) as ->.
  { apply orb_false_iff. split; [by apply Z.eqb_neq|]. apply Z.eqb_neq. by intros ->. }
  change (c :: r ++ 44 :: rest) with ((c :: r) ++ 44 :: rest). rewrite strsep_at by done. cbn [obind].
  rewrite string_after by (eapply Forall_impl; [exact Hs|]; by intros ? []). cbn [obind].
  do 2 f_equal. { rewrite <- app_assoc. do 3 f_equal. rewrite !zlen_app. change (zlen [0]) with 1. lia. }
Qed.

(** The last field, in quotes. *)
Lemma nextstr_spec pre bl s r : Forall (fun x => isspace x = true) bl -> Forall (fun x => x <> 0 /\ x <> 34) s ->
  parse_nextstr (pre ++ bl ++ 34 :: s ++ 34 :: 0 :: r) (Some (zlen pre)) =
  Done (Some (zlen pre + zlen bl + 1), pre ++ bl ++ 34 :: s ++ 0 :: 0 :: r, None).
Proof.
  intros Hb Hs. unfold parse_nextstr, get_current_tok.
  rewrite skip_blank_spec by (done || rewrite !length_app; lia). cbn [obind].
  assert (Hl : zlen pre + zlen bl = zlen (pre ++ bl)) by (by rewrite zlen_app). rewrite Hl.
  rewrite (app_assoc pre bl), rd_app by done. cbn [obind orb Z.eqb Pos.eqb].
  assert (Hl1 : zlen (pre ++ bl) + 1 = zlen ((pre ++ bl) ++ [34])) by (rewrite (zlen_app (pre ++ bl)); done). rewrite Hl1.
  replace ((pre ++ bl) ++ 34 :: s ++ 34 :: 0 :: r) with (((pre ++ bl) ++ [34]) ++ s ++ 34 :: 0 :: r) by (by rewrite <- !app_assoc).
  rewrite strsep_at by (done || by exists [], r). cbn [obind]. set (q := zlen _ + zlen s + 1).
  unfold strsep, strchr.
  replace (((pre ++ bl) ++ [34]) ++ s ++ 0 :: 0 :: r) with ((((pre ++ bl) ++ [34]) ++ s ++ [0]) ++ [] ++ 0 :: r)
    by (by rewrite <- !app_assoc).
  rewrite cstr_at_app; [|done|unfold q; rewrite (zlen_app _ (s ++ [0])), (zlen_app s); change (zlen [0]) with 1; lia].
  cbn [obind list_find]. by rewrite <- !app_assoc.
Qed.

(** The last field, a number. *)
Lemma nextint_last pre bl s r : Forall (fun x => isspace x = true) bl -> plain s ->
  parse_nextint (pre ++ bl ++ s ++ 0 :: r) (Some (zlen pre)) =
  Done (0, pre ++ bl ++ s ++ 0 :: r, None, Some (strtol (string_of s) 10)).
Proof.
  intros Hb (Hs & c & t & -> & Hc & Hq). unfold parse_nextint, get_current_tok.
  change ((c :: t) ++ 0 :: r) with (c :: t ++ 0 :: r).
  rewrite skip_blank_spec by (done || rewrite !length_app; lia). cbn [obind].
  assert (Hl : zlen pre + zlen bl = zlen (pre ++ bl)) by (by rewrite zlen_app). rewrite Hl.
  rewrite (app_assoc pre bl), rd_app by done. cbn [obind].
  assert ((c =? 34) || (c =? 10) = false) as ->.
  { apply orb_false_iff. split; [by apply Z.eqb_neq|]. apply Z.eqb_neq. by intros ->. }
  assert (Hnz : Forall (fun x => x <> 0) (c :: t)) by (eapply Forall_impl; [exact Hs|]; by intros ? []).
  change (c :: t ++ 0 :: r) with ((c :: t) ++ 0 :: r). unfold strsep, strchr. rewrite string_after by done. cbn [obind].
  rewrite list_find_none by (eapply Forall_impl; [exact Hs|]; by intros ? []). cbn [obind].
  rewrite string_after by done. done.
Qed.

(** A field in quotes, with a comma after it. *)
Lemma nextstr_mid pre bl s rest : Forall (fun x => isspace x = true) bl -> Forall (fun x => x <> 0 /\ x <> 34) s -> tail_ok rest ->
  parse_nextstr (pre ++ bl ++ 34 :: s ++ 34 :: 44 :: rest) (Some (zlen pre)) =
  Done (Some (zlen (pre ++ bl ++ [34])), (pre ++ bl ++ [34]) ++ s ++ 0 :: 0 :: rest, Some (zlen (pre ++ bl ++ 34 :: s ++ [0; 0]))).
Proof.
  intros Hb Hs Ht. unfold parse_nextstr, get_current_tok.
  rewrite skip_blank_spec by (done || rewrite !length_app; lia). cbn [obind].
  assert (Hl : zlen pre + zlen bl = zlen (pre ++ bl)) by (by rewrite zlen_app). rewrite Hl.
  rewrite (app_assoc pre bl), rd_app by done. cbn [obind orb Z.eqb Pos.eqb].
  assert (Hl1 : zlen (pre ++ bl) + 1 = zlen (pre ++ bl ++ [34])) by (rewrite app_assoc, (zlen_app (pre ++ bl)); done). rewrite Hl1.
  replace ((pre ++ bl) ++ 34 :: s ++ 34 :: 44 :: rest) with ((pre ++ bl ++ [34]) ++ s ++ 34 :: 44 :: rest) by (by rewrite <- !app_assoc).
  set (p := pre ++ bl ++ [34]). assert (Ht' : tail_ok (44 :: rest)).
  { destruct Ht as (l & r & -> & Hl0). exists (44 :: l), r. split; [done|]. by constructor. }
  rewrite strsep_at by done. cbn [obind].
  replace (p ++ s ++ 0 :: 44 :: rest) with ((p ++ s ++ [0]) ++ [] ++ 44 :: rest) by (by rewrite <- !app_assoc).
  assert (Hq : zlen p + zlen s + 1 = zlen (p ++ s ++ [0])) by (rewrite !zlen_app; change (zlen [0]) with 1; lia). rewrite Hq.
  rewrite strsep_at by done. cbn [obind app]. rewrite <- !app_assoc. do 3 f_equal. unfold p. rewrite !zlen_app, !zlen_cons, !zlen_app.
  change (zlen [34]) with 1. change (zlen [0]) with 1. change (zlen [0; 0]) with 2. change (zlen (@nil Z)) with 0. lia.
Qed.

(** The prefix of a message ends with its first colon. *)
Lemma first_colon p : forall r i, Forall (fun x => x <> 58) p -> find_from (p ++ 58 :: r) [58] i = i + zlen p.
Proof.
  induction p as [|c p IH]; intros r i Hp; cbn [app find_from starts_with].
  - rewrite Z.eqb_refl. assert (starts_with r [] = true) as -> by (by destruct r). change (zlen (@nil Z)) with 0. cbn [andb]. lia.
  - apply Forall_cons in Hp as [Hc Hp]. apply Z.eqb_neq in Hc as ->. cbn [andb]. rewrite IH, zlen_cons by done. lia.
Qed.

Lemma tok_start_spec p s r : Forall (fun x => x <> 58) p -> Forall (fun x => x <> 0) (p ++ 58 :: s) ->
  at_tok_start ((p ++ 58 :: s) ++ 0 :: r) 0 = Done (0, zlen (p ++ [58])).
Proof.
  intros Hp Hn. unfold at_tok_start. pose proof (string_after [] (p ++ 58 :: s) r Hn) as E. cbn [app] in E.
  change (zlen []) with 0 in E. rewrite E. cbn [obind]. unfold FindString. rewrite first_colon by done. pose proof (zlen_nonneg p).
  guard_false (0 + zlen p <? 0). rewrite zlen_app. change (zlen [58]) with 1. do 2 f_equal.
Qed.
