(* ===== verification/AgpsChannel.v ===== *)
(** * apps/aGPS/lib/atc.c: the channel for AT commands

    A thread reads lines from the modem: the final response of a command is kept for the thread
    that waits for it, every other line goes to the callbacks registered for its prefix.  This
    file models the buffer of the lines, their classification, the commands, the callbacks (their
    queue is a list here, which the cells of AgpsQueue implement) and the two channels there can
    be. *)

From S2P Require Import Prelude AgpsQueue CString EngText AgpsParser.

Definition MAX_AT_RESPONSE : Z := 8 * 1024.

(** ** Lines *)

(** [s_ATBuffer] and [s_ATBufferCur]. *)
Record line_buffer : Type := { s_ATBuffer : list Z; s_ATBufferCur : Z }.

Definition newline (c : Z) : bool := (c =? 13) || (c =? 10).

Fixpoint eol_from (fuel : nat) (buf : list Z) (cur : Z) : outcome (option Z) :=
  match fuel with
  | O => Fuel
  | S fuel =>
      let* c := rd buf cur in
      if c =? 0 then Done None else if newline c then Done (Some cur) else eol_from fuel buf (cur + 1)
  end.

(** The prompt ["> "] at the end of the data counts as a line, without an end. *)
Definition findNextEOL (buf : list Z) (cur : Z) : outcome (option Z) :=
  let* c0 := rd buf cur in
  let* prompt :=
    if c0 =? 62 then
      let* c1 := rd buf (cur + 1) in
      if c1 =? 32 then let* c2 := rd buf (cur + 2) in Done (c2 =? 0) else Done false
    else Done false in
  if prompt then Done (Some (cur + 2)) else eol_from (S (length buf)) buf cur.

Fixpoint skip_newlines (fuel : nat) (buf : list Z) (cur : Z) : outcome Z :=
  match fuel with
  | O => Fuel
  | S fuel => let* c := rd buf cur in if newline c then skip_newlines fuel buf (cur + 1) else Done cur
  end.

(** What the device still holds: the pieces that successive reads return when there is room for
    them.  Of a piece too long for the room the rest is left.  No piece means the end of the
    file, or an error. *)
Definition read_piece (script : list (list Z)) (room : Z) : list Z * list (list Z) :=
  match script with
  | [] => ([], [])
  | l :: script =>
      let r := drop (Z.to_nat room) l in
      (take (Z.to_nat room) l, if decide (r = []) then script else r :: script)
  end.

(** Reading until there is the end of a line. *)
Fixpoint read_more (fuel : nat) (buf : list Z) (cur p_read : Z) (script : list (list Z)) : outcome (option Z * list Z * Z * list (list Z)) :=
  match fuel with
  | O => Fuel
  | S fuel =>
      let* (buf, cur, p_read) :=
        if MAX_AT_RESPONSE - p_read =? 0 then let* buf := wr buf 0 0 in Done (buf, 0, 0) else Done (buf, cur, p_read) in
      let '(l, script) := read_piece script (MAX_AT_RESPONSE - p_read) in
      if zlen l <=? 0 then Done (None, buf, cur, script)
      else
        let* buf := splice buf p_read l in
        let* buf := wr buf (p_read + zlen l) 0 in
        let* cur := skip_newlines (S (length buf)) buf cur in
        let* p_eol := findNextEOL buf cur in
        match p_eol with
        | Some e => Done (Some e, buf, cur, script)
        | None => read_more fuel buf cur (p_read + zlen l) script
        end
  end.

(** What is in the buffer: the end of a line in it, or where to read on. *)
Definition readline_start (b : line_buffer) : outcome (option Z * list Z * Z * Z) :=
  let buf := s_ATBuffer b in
  let cur := s_ATBufferCur b in
  let* c := rd buf cur in
  if c =? 0 then let* buf := wr buf 0 0 in Done (None, buf, 0, 0)
  else
    let* cur := skip_newlines (S (length buf)) buf cur in
    let* p_eol := findNextEOL buf cur in
    match p_eol with
    | Some e => Done (Some e, buf, cur, 0)
    | None => let* s := cstr_at buf cur in let* buf := splice buf 0 (s ++ [0]) in Done (None, buf, 0, zlen s)
    end.

(** The end of the line becomes a NUL, and the next call goes on after it. *)
Definition take_line (r : option Z * list Z * Z * list (list Z)) : outcome (option (list Z) * line_buffer * list (list Z)) :=
  let '(p_eol, buf, cur, script) := r in
  match p_eol with
  | None => Done (None, {| s_ATBuffer := buf; s_ATBufferCur := cur |}, script)
  | Some e =>
      let* buf := wr buf e 0 in
      let* line := cstr_at buf cur in
      Done (Some line, {| s_ATBuffer := buf; s_ATBufferCur := e + 1 |}, script)
  end.

(** The line, when there is one. *)
Definition readline (b : line_buffer) (script : list (list Z)) : outcome (option (list Z) * line_buffer * list (list Z)) :=
  let* (p_eol, buf, cur, p_read) := readline_start b in
  let* r :=
    match p_eol with
    | Some e => Done (Some e, buf, cur, script)
    | None => read_more (S (length (concat script))) buf cur p_read script
    end in
  take_line r.

(** ** Final responses *)
Definition s_finalResponsesError : list (list Z) :=
  bytes_of <$> ["ERROR"; "+CMS ERROR:"; "+CME ERROR:"; "NO CARRIER"; "NO ANSWER"; "NO DIALTONE"].
Definition s_finalResponsesSuccess : list (list Z) := bytes_of <$> ["OK"; "CONNECT"].
Definition isFinalResponseError (line : list Z) : bool := existsb (strStartsWith line) s_finalResponsesError.
Definition isFinalResponseSuccess (line : list Z) : bool := existsb (strStartsWith line) s_finalResponsesSuccess.
Definition isFinalResponse (line : list Z) : bool := isFinalResponseSuccess line || isFinalResponseError line.

Section channel.
  Context {App : Type}.

(** A callback works in the memory of the line, with its NUL; what it does to the rest of the
    program is a function of its state. *)
Definition at_response_cb : Type := list Z -> App -> outcome (list Z * App).

(** The nodes are those of the queue, from its head on. *)
Record at_unso_node : Type := { prefix : list Z; cb : option at_response_cb }.

Record at_channel : Type := {
  fd : Z;
  lines : line_buffer;
  queue : list at_unso_node;
  success : bool;
  finalResponse : option (list Z)
}.

Definition set_lines (a : at_channel) (b : line_buffer) : at_channel :=
  {| fd := fd a; lines := b; queue := queue a; success := success a; finalResponse := finalResponse a |}.
Definition set_response (a : at_channel) (s : bool) (r : option (list Z)) : at_channel :=
  {| fd := fd a; lines := lines a; queue := queue a; success := s; finalResponse := r |}.

Definition handleFinalResponse (a : at_channel) (line : list Z) : at_channel := set_response a (success a) (Some line).

(** Every node whose prefix the line has; a later node sees the line as the earlier left it.
    What is left of it nobody reads. *)
Fixpoint match_nodes (nodes : list at_unso_node) (buf : list Z) (x : App) : outcome App :=
  match nodes with
  | [] => Done x
  | n :: nodes =>
      let* line := cstr_at buf 0 in
      let* (buf, x) := match strStartsWith line (prefix n), cb n with true, Some f => f buf x | _, _ => Done (buf, x) end in
      match_nodes nodes buf x
  end.
(** The same over the cells of the queue, as the code walks them. *)
Fixpoint match_cells (fuel : nat) (h : gmap loc (work_item at_unso_node)) (curr : option loc) (buf : list Z) (x : App) : outcome App :=
  match fuel with
  | O => Fuel
  | S fuel =>
      match curr with
      | None => Done x
      | Some _ =>
          let* (_, c) := load h curr in
          let* line := cstr_at buf 0 in
          let* (buf, x) := match strStartsWith line (prefix (data c)), cb (data c) with true, Some f => f buf x | _, _ => Done (buf, x) end in
          match_cells fuel h (next c) buf x
      end
  end.
Definition match_unsolicited_cb (a : at_channel) (x : App) (line : list Z) : outcome App := match_nodes (queue a) (line ++ [0]) x.

Definition processLine (a : at_channel) (x : App) (line : list Z) : outcome (at_channel * App) :=
  if isFinalResponseSuccess line then Done (handleFinalResponse (set_response a true (finalResponse a)) line, x)
  else if isFinalResponseError line then Done (handleFinalResponse (set_response a false (finalResponse a)) line, x)
  else let* x := match_unsolicited_cb a x line in Done (a, x).

(** The thread ends when [readline] returns NULL. *)
Fixpoint readerLoop (fuel : nat) (a : at_channel) (x : App) (script : list (list Z)) : outcome (at_channel * App) :=
  match fuel with
  | O => Fuel
  | S fuel =>
      let* (line, b, script) := readline (lines a) script in
      match line with
      | None => Done (set_lines a b, x)
      | Some line => let* (a, x) := processLine (set_lines a b) x line in readerLoop fuel a x script
      end
  end.

(** ** Commands *)

(** What [write] returns: how many bytes, EAGAIN, or another error. *)
Inductive wrote : Type := WTook (n : Z) | WAgain | WError.

(** The bytes that went out and the answers left; the answers are of the device, and running
    out of them is waiting for ever. *)
Fixpoint write_text (script : list wrote) (s : list Z) : outcome (Z * list Z * list wrote) :=
  if zlen s <=? 0 then Done (0, [], script)
  else
    match script with
    | [] => Fuel
    | WError :: script => Done (-2, [], script)
    | WAgain :: script => write_text script s
    | WTook n :: script =>
        let k := Z.to_nat (Z.min n (zlen s)) in
        let* (ret, out, script) := write_text script (drop k s) in
        Done (ret, take k s ++ out, script)
    end.
(** The return at the end of the command. *)
Fixpoint write_cr (script : list wrote) : outcome (Z * list Z * list wrote) :=
  match script with
  | [] => Fuel
  | WError :: script => Done (-3, [], script)
  | WAgain :: script => write_cr script
  | WTook n :: script => if n =? 0 then write_cr script else Done (0, [13], script)
  end.
Definition writeline (script : list wrote) (s : list Z) : outcome (Z * list Z * list wrote) :=
  let* (ret, out, script) := write_text script s in
  if ret <? 0 then Done (ret, out, script)
  else let* (ret, out', script) := write_cr script in Done (ret, out ++ out', script).

(** Seconds and nanoseconds [msec] after the time of day. *)
Definition setTimespecRelative (tv_sec tv_usec msec : Z) : Z * Z := (tv_sec + Z.quot msec 1000, (tv_usec + Z.rem msec 1000 * 1000) * 1000).

(** The wait of a command: [meanwhile] are the lines that the reader takes up before the wait
    ends.  It ends at once when there is a response already. *)
Fixpoint process_lines (a : at_channel) (x : App) (ls : list (list Z)) : outcome (at_channel * App) :=
  match ls with
  | [] => Done (a, x)
  | l :: ls => let* (a, x) := processLine a x l in process_lines a x ls
  end.
Definition await (a : at_channel) (x : App) (meanwhile : list (list Z)) (timed_out : bool) : outcome (Z * at_channel * App) :=
  let* (err, a, x) :=
    match finalResponse a with
    | Some _ => Done (false, a, x)
    | None => let* (a, x) := process_lines a x meanwhile in Done (timed_out, a, x)
    end in
  if err then Done (-2, a, x)
  else
    let a := match finalResponse a with Some _ => set_response a (success a) None | None => a end in
    Done (if success a then 0 else -3, a, x).

(** The command, as it is sent and answered. *)
Definition send_on (a : at_channel) (x : App) (at_ : list Z) (sync : bool) (script : list wrote) (meanwhile : list (list Z)) (timed_out : bool)
    : outcome (Z * list Z * at_channel * App) :=
  let* (ret, out, _) := if fd a <? 0 then Done (-1, [], script) else writeline script at_ in
  if ret <? 0 then Done (ret, out, a, x)
  else if sync then let* (ret, a, x) := await a x meanwhile timed_out in Done (ret, out, a, x)
  else Done (ret, out, a, x).

(** ** The channels *)

(** The memory of the two channels is static, and zero. *)
Definition closed : at_channel :=
  {| fd := 0; lines := {| s_ATBuffer := replicate (Z.to_nat (MAX_AT_RESPONSE + 1)) 0; s_ATBufferCur := 0 |};
     queue := []; success := false; finalResponse := None |}.

(** [opened] is what [open] returns.  A new channel has an empty queue, and its reader runs; the
    channel that was taken, or none. *)
Definition open_channel (a : at_channel) (opened : Z) : at_channel :=
  if opened <? 0 then {| fd := opened; lines := lines a; queue := queue a; success := success a; finalResponse := finalResponse a |}
  else {| fd := opened; lines := {| s_ATBuffer := s_ATBuffer (lines a); s_ATBufferCur := 0 |};
     queue := []; success := success a; finalResponse := finalResponse a |}.
Definition atc_init (atcs : list at_channel) (opened : Z) : option nat * list at_channel :=
  match list_find (fun a => fd a <= 0) atcs with
  | None => (None, atcs)
  | Some (i, a) => (if opened <? 0 then None else Some i, <[i := open_channel a opened]> atcs)
  end.

(** The first channel, which is opened when it is not. *)
Definition atc_try_init (atcs : list at_channel) (opened : Z) : option nat * list at_channel :=
  match atcs with
  | a :: _ => if fd a <=? 0 then atc_init atcs opened else (Some O, atcs)
  | [] => (None, atcs)
  end.

Definition atc_send (atcs : list at_channel) (x : App) (opened : Z) (at_ : list Z) (sync : bool)
    (script : list wrote) (meanwhile : list (list Z)) (timed_out : bool) : outcome (Z * list Z * list at_channel * App) :=
  let '(c, atcs) := atc_try_init atcs opened in
  match c with
  | None => Done (-1, [], atcs, x)
  | Some i =>
      match atcs !! i with
      | None => Undef
      | Some a =>
          let* (ret, out, a, x) := send_on a x at_ sync script meanwhile timed_out in
          Done (ret, out, <[i := a]> atcs, x)
      end
  end.
Definition at_send (atcs : list at_channel) (x : App) (opened : Z) (at_ : list Z)
    : list wrote -> list (list Z) -> bool -> outcome (Z * list Z * list at_channel * App) := atc_send atcs x opened at_ true.
Definition at_send_async (atcs : list at_channel) (x : App) (opened : Z) (at_ : list Z) (script : list wrote)
    : outcome (Z * list Z * list at_channel * App) := atc_send atcs x opened at_ false script [] false.

(** A node at the end of the queue. *)
Definition add_node (n : at_unso_node) (a : at_channel) : at_channel :=
  {| fd := fd a; lines := lines a; queue := queue a ++ [n]; success := success a; finalResponse := finalResponse a |}.
Definition atc_register_unsolicited (atcs : list at_channel) (opened : Z) (prefix_unso : list Z) (f : option at_response_cb)
    : Z * list at_channel :=
  let '(c, atcs) := atc_try_init atcs opened in
  match c with
  | None => (-1, atcs)
  | Some i => (0, alter (add_node {| prefix := prefix_unso; cb := f |}) i atcs)
  end.
Definition register_unsolicited : list at_channel -> Z -> list Z -> option at_response_cb -> Z * list at_channel := atc_register_unsolicited.
End channel.
Arguments at_response_cb : clear implicits.
Arguments at_unso_node : clear implicits.
Arguments at_channel : clear implicits.

(** ** The lines of a stream *)

(** Data without NULs and without the prompt. *)
Definition text_ok (s : list Z) : Prop := Forall (fun c => c <> 0 /\ c <> 62) s.

Lemma skip_newlines_spec nl : forall fuel pre c rest, Forall (fun x => newline x = true) nl -> newline c = false ->
  (length nl < fuel)%nat -> skip_newlines fuel (pre ++ nl ++ c :: rest) (zlen pre) = Done (zlen pre + zlen nl).
Proof.
  induction nl as [|b nl IH]; intros fuel pre c rest Hb Hc Hf; (destruct fuel as [|fuel]; [cbn in Hf; lia|]); cbn [skip_newlines app].
  - rewrite rd_app by done. cbn [obind]. rewrite Hc. by rewrite Z.add_0_r.
  - apply Forall_cons in Hb as [Hb Hbl]. rewrite rd_app by done. cbn [obind]. rewrite Hb.
    specialize (IH fuel (pre ++ [b]) c rest Hbl Hc ltac:(cbn in Hf; lia)). rewrite zlen_app, <- app_assoc in IH.
    change (zlen [b]) with 1 in IH. cbn [app] in IH. rewrite IH, zlen_cons. f_equal. lia.
Qed.

Lemma eol_from_spec s : forall fuel pre c rest, Forall (fun x => newline x = false /\ x <> 0) s -> (c = 0 \/ newline c = true) ->
  (length s < fuel)%nat ->
  eol_from fuel (pre ++ s ++ c :: rest) (zlen pre) = Done (if c =? 0 then None else Some (zlen pre + zlen s)).
Proof.
  induction s as [|b s IH]; intros fuel pre c rest Hs Hc Hf; (destruct fuel as [|fuel]; [cbn in Hf; lia|]); cbn [eol_from app].
  - rewrite rd_app by done. cbn [obind]. rewrite Z.add_0_r. destruct Hc as [-> | Hc]; [done|]. rewrite Hc. by destruct (c =? 0).
  - apply Forall_cons in Hs as [[Hn Hz] Hs]. rewrite rd_app by done. cbn [obind]. rewrite Hn. apply Z.eqb_neq in Hz as ->.
    specialize (IH fuel (pre ++ [b]) c rest Hs Hc ltac:(cbn in Hf; lia)). rewrite zlen_app, <- app_assoc in IH.
    change (zlen [b]) with 1 in IH. cbn [app] in IH. rewrite IH, zlen_cons. destruct (c =? 0); [done|]. do 2 f_equal. lia.
Qed.

Lemma find_eol_spec pre s c rest : Forall (fun x => newline x = false /\ x <> 0 /\ x <> 62) s -> (c = 0 \/ newline c = true) ->
  findNextEOL (pre ++ s ++ c :: rest) (zlen pre) = Done (if c =? 0 then None else Some (zlen pre + zlen s)).
Proof.
  intros Hs Hc. unfold findNextEOL.
  assert (Hh : exists d, rd (pre ++ s ++ c :: rest) (zlen pre) = Done d /\ (d =? 62) = false).
  { destruct Hs as [|d s (_ & _ & Hd) _].
    - exists c. split; [by apply rd_app|]. destruct Hc as [-> | Hc]; [done|]. destruct (Z.eqb_spec c 62) as [->|]; done.
    - exists d. split; [by apply rd_app|]. by apply Z.eqb_neq. }
  destruct Hh as (d & -> & Hd). cbn [obind]. rewrite Hd. cbn [obind]. apply eol_from_spec; [|done|rewrite !length_app; lia].
  eapply Forall_impl; [exact Hs|]. tauto.
Qed.

(** A line of a stream: newlines, the line, its end. *)
Record line_in (nl line : list Z) (c : Z) : Prop := {
  li_nl : Forall (fun x => newline x = true) nl;
  li_line : Forall (fun x => newline x = false) line;
  li_nonempty : line <> [];
  li_end : newline c = true;
  li_text : text_ok line;
  li_fits : zlen nl + zlen line < MAX_AT_RESPONSE
}.

Lemma line_chars line : Forall (fun x => newline x = false) line -> text_ok line ->
  Forall (fun x => newline x = false /\ x <> 0 /\ x <> 62) line.
Proof. intros H1 H2. unfold text_ok in H2. rewrite Forall_forall in *. intros x Hx. specialize (H1 x Hx). specialize (H2 x Hx). tauto. Qed.

Lemma newline_nonzero c : newline c = true -> (c =? 0) = false.
Proof. intros H. destruct (Z.eqb_spec c 0) as [->|]; done. Qed.

(** Looking for a line in the data [D] of the buffer, of a stream that goes on with [X]: it is
    there as a whole, or its beginning is. *)
Lemma scan_spec nl line c rest P D X junk : line_in nl line c -> D ++ X = nl ++ line ++ c :: rest ->
  let buf := P ++ D ++ 0 :: junk in
  (exists r, D = nl ++ line ++ c :: r /\ rest = r ++ X /\
    skip_newlines (S (length buf)) buf (zlen P) = Done (zlen P + zlen nl) /\
    findNextEOL buf (zlen P + zlen nl) = Done (Some (zlen P + zlen nl + zlen line))) \/
  (exists nl1 nl2 line1 line2, D = nl1 ++ line1 /\ nl = nl1 ++ nl2 /\ line = line1 ++ line2 /\ (line1 = [] \/ nl2 = []) /\
    X = nl2 ++ line2 ++ c :: rest /\
    skip_newlines (S (length buf)) buf (zlen P) = Done (zlen P + zlen nl1) /\
    findNextEOL buf (zlen P + zlen nl1) = Done None).
Proof.
  intros [Hnl Hline Hne Hc Ht _] E buf.
  assert (Hhead : exists d l, line = d :: l /\ newline d = false).
  { destruct line as [|d l]; [done|]. apply Forall_cons in Hline as [? _]. by exists d, l. }
  assert (Hpartial : forall nl1 nl2 line1 line2, D = nl1 ++ line1 -> nl = nl1 ++ nl2 -> line = line1 ++ line2 ->
    skip_newlines (S (length buf)) buf (zlen P) = Done (zlen P + zlen nl1) /\ findNextEOL buf (zlen P + zlen nl1) = Done None).
  { intros nl1 nl2 line1 line2 -> -> ->. unfold buf. apply Forall_app in Hnl as [Hnl _]. apply Forall_app in Hline as [Hl1 _].
    apply Forall_app in Ht as [Ht _]. split.
    - rewrite <- (app_assoc nl1). destruct line1 as [|d l1].
      + cbn [app]. apply skip_newlines_spec; [done..|]. rewrite !length_app. lia.
      + apply Forall_cons in Hl1 as [Hd _]. cbn [app]. apply skip_newlines_spec; [done..|]. rewrite !length_app. lia.
    - rewrite <- zlen_app, <- (app_assoc nl1), (app_assoc P nl1).
      rewrite (find_eol_spec (P ++ nl1) line1 0); [done|by apply line_chars|by left]. }
  apply app_eq_inv in E as [(k & HD & E)|(k & Hk & HX)].
  - symmetry in E. apply app_eq_inv in E as [(k' & Hk & E)|(k' & Hline' & HX)].
    + destruct k' as [|x r].
      { right. rewrite app_nil_r in Hk. subst k. exists nl, [], line, [].
        destruct (Hpartial nl [] line [] HD) as [H1 H2]; [by rewrite app_nil_r..|]. rewrite !app_nil_r.
        split; [done|]. split; [done|]. split; [done|]. split; [by right|]. by rewrite E. }
      left. injection E as <- ->. exists r. subst k D. split; [done|]. split; [done|]. destruct Hhead as (d & l & -> & Hd). unfold buf. split.
      * rewrite <- !app_assoc. cbn [app]. apply skip_newlines_spec; [done..|]. rewrite !length_app. lia.
      * rewrite <- zlen_app, <- !app_assoc, (app_assoc P nl). cbn [app].
        change (d :: l ++ c :: r ++ 0 :: junk) with ((d :: l) ++ c :: r ++ 0 :: junk).
        rewrite find_eol_spec; [by rewrite newline_nonzero|by apply line_chars|by right].
    + right. exists nl, [], k, k'. destruct (Hpartial nl [] k k') as [H1 H2]; try done; [by rewrite app_nil_r|].
      rewrite app_nil_r. split_and!; try done. by right.
  - right. exists D, k, [], line. destruct (Hpartial D k [] line) as [H1 H2]; try done; [by rewrite app_nil_r|].
    rewrite app_nil_r. split_and!; try done. by left.
Qed.

(** New data after the data [D], with a NUL. *)
Lemma append_data D junk l : zlen D + zlen l <= MAX_AT_RESPONSE -> zlen (D ++ 0 :: junk) = MAX_AT_RESPONSE + 1 ->
  exists junk', (let* buf := splice (D ++ 0 :: junk) (zlen D) l in wr buf (zlen D + zlen l) 0) = Done ((D ++ l) ++ 0 :: junk') /\
    zlen ((D ++ l) ++ 0 :: junk') = MAX_AT_RESPONSE + 1.
Proof.
  intros Hl Hz. pose proof (zlen_nonneg D). pose proof (zlen_nonneg l).
  rewrite splice_in by lia. cbn [obind]. unfold zlen at 1. rewrite Nat2Z.id, take_app_length.
  replace (Z.to_nat (zlen D)) with (length D) by (unfold zlen; lia).
  rewrite drop_app_add. set (tail := drop (length l) (0 :: junk)).
  assert (Ht : zlen tail = MAX_AT_RESPONSE + 1 - zlen D - zlen l).
  { unfold tail, zlen in *. rewrite length_drop. rewrite length_app in Hz. lia. }
  destruct tail as [|x junk'] eqn:E; [change (zlen []) with 0 in Ht; lia|]. exists junk'.
  rewrite app_assoc, wr_app by (by rewrite zlen_app). split; [done|].
  rewrite !zlen_app, zlen_cons in *. lia.
Qed.

Lemma concat_piece l script room : l <> [] -> Forall (fun x => x <> []) script -> 0 < room ->
  let '(p, script') := read_piece (l :: script) room in
  p <> [] /\ zlen p <= room /\ p ++ concat script' = concat (l :: script) /\ Forall (fun x => x <> []) script'.
Proof.
  intros Hl Hs Hr. cbn [read_piece]. split.
  { destruct l; [done|]. destruct (Z.to_nat room) eqn:E; [lia|]. done. }
  split; [unfold zlen; rewrite length_take; lia|]. case_decide as Hd.
  - split; [|done]. rewrite <- (take_drop (Z.to_nat room) l) at 2. cbn [concat]. by rewrite Hd, app_nil_r.
  - split; [|by constructor]. cbn [concat]. rewrite app_assoc. by rewrite take_drop.
Qed.

Lemma read_more_spec fuel : forall nl line c rest D cur junk script,
  line_in nl line c -> D ++ concat script = nl ++ line ++ c :: rest -> Forall (fun x => x <> []) script ->
  (exists nl1 nl2 line1 line2, D = nl1 ++ line1 /\ nl = nl1 ++ nl2 /\ line = line1 ++ line2) ->
  zlen (D ++ 0 :: junk) = MAX_AT_RESPONSE + 1 -> (exists a D1 nl1, D = a ++ D1 /\ nl = a ++ nl1 /\ cur = zlen a) ->
  (length (concat script) < fuel)%nat ->
  exists r junk' script', read_more fuel (D ++ 0 :: junk) cur (zlen D) script =
      Done (Some (zlen nl + zlen line), (nl ++ line ++ c :: r) ++ 0 :: junk', zlen nl, script') /\
    r ++ concat script' = rest /\ Forall (fun x => x <> []) script' /\
    zlen ((nl ++ line ++ c :: r) ++ 0 :: junk') = MAX_AT_RESPONSE + 1.
Proof.
  induction fuel as [|fuel IH]; intros nl line c rest D cur junk script Hli E Hs Hpart Hz (a & D1 & nlr & HD & Hnl & ->) Hf; [lia|].
  cbn [read_more].
  assert (HlD : zlen D < MAX_AT_RESPONSE).
  { destruct Hpart as (n1 & n2 & l1 & l2 & -> & -> & ->). pose proof (li_fits _ _ _ Hli) as H.
    rewrite !zlen_app in *. pose proof (zlen_nonneg n2). pose proof (zlen_nonneg l2). lia. }
  guard_false (MAX_AT_RESPONSE - zlen D =? 0). cbn [obind].
  destruct script as [|p script].
  { exfalso. cbn [concat] in E. rewrite app_nil_r in E. apply (f_equal zlen) in E.
    destruct Hpart as (n1 & n2 & l1 & l2 & -> & -> & ->). rewrite !zlen_app, zlen_cons in E.
    pose proof (zlen_nonneg n2). pose proof (zlen_nonneg l2). pose proof (zlen_nonneg rest). lia. }
  apply Forall_cons in Hs as [Hp Hs].
  pose proof (concat_piece p script (MAX_AT_RESPONSE - zlen D) Hp Hs ltac:(lia)) as Hc.
  destruct (read_piece (p :: script) (MAX_AT_RESPONSE - zlen D)) as [l script']. destruct Hc as (Hl & Hroom & Hcat & Hs').
  assert (Hpos : 0 < zlen l) by (destruct l; [done|rewrite zlen_cons; pose proof (zlen_nonneg l); lia]).
  guard_false (zlen l <=? 0).
  destruct (append_data D junk l ltac:(lia) Hz) as (junk' & Ea & Hz'). rewrite <- obind_assoc, Ea. cbn [obind].
  rewrite <- Hcat, app_assoc in E.
  assert (HD1 : (D1 ++ l) ++ concat script' = nlr ++ line ++ c :: rest).
  { subst D nl. rewrite <- !app_assoc in E. apply app_inv_head in E. by rewrite <- app_assoc. }
  assert (Hli1 : line_in nlr line c).
  { destruct Hli as [F1 F2 F3 F4 F5 F6]. subst nl. apply Forall_app in F1 as [_ F1]. rewrite zlen_app in F6.
    constructor; try done. pose proof (zlen_nonneg a). lia. }
  assert (Hbuf : (D ++ l) ++ 0 :: junk' = a ++ (D1 ++ l) ++ 0 :: junk') by (subst D; by rewrite <- !app_assoc).
  destruct (scan_spec nlr line c rest a (D1 ++ l) (concat script') junk' Hli1 HD1)
    as [(r & Er & Hrest & H1 & H2)|(n1 & n2 & l1 & l2 & Er & En & El & _ & _ & H1 & H2)].
  - rewrite Hbuf, H1. cbn [obind]. rewrite H2. cbn [obind]. exists r, junk', script'.
    rewrite Er in *. subst nl. rewrite zlen_app. rewrite <- !app_assoc in *. by rewrite Hbuf in Hz'.
  - rewrite Hbuf, H1. cbn [obind]. rewrite H2, <- Hbuf, <- (zlen_app D l). cbn [obind].
    destruct (IH nl line c rest (D ++ l) (zlen a + zlen n1) junk' script') as (r & j & s & Ex & Hx); try done.
    + exists (a ++ n1), n2, l1, l2. subst D nl. rewrite <- !app_assoc. by rewrite Er, En.
    + exists (a ++ n1), l1, n2. subst D nl. rewrite <- !app_assoc, zlen_app. by rewrite Er, En.
    + apply (f_equal (@length Z)) in Hcat. rewrite length_app in Hcat. unfold zlen in Hpos. lia.
    + by exists r, j, s.
Qed.

(** [pend] is what the buffer holds from its position on. *)
Definition holds (b : line_buffer) (pend : list Z) : Prop :=
  exists pre junk, s_ATBuffer b = pre ++ pend ++ 0 :: junk /\ s_ATBufferCur b = zlen pre /\
    zlen (s_ATBuffer b) = MAX_AT_RESPONSE + 1 /\ Forall (fun c => c <> 0) pend.

Lemma take_line_spec P nl line c r junk script : text_ok line -> Forall (fun x => x <> 0) r ->
  zlen (P ++ (nl ++ line ++ c :: r) ++ 0 :: junk) = MAX_AT_RESPONSE + 1 ->
  exists b, take_line (Some (zlen P + zlen nl + zlen line), P ++ (nl ++ line ++ c :: r) ++ 0 :: junk, zlen P + zlen nl, script) =
    Done (Some line, b, script) /\ holds b r.
Proof.
  intros Ht Hr Hz. unfold take_line. set (pre := P ++ nl).
  assert (Hpre : zlen P + zlen nl = zlen pre) by (by rewrite <- zlen_app). rewrite Hpre.
  replace (P ++ (nl ++ line ++ c :: r) ++ 0 :: junk) with ((pre ++ line) ++ c :: r ++ 0 :: junk) in *
    by (unfold pre; by rewrite <- !app_assoc).
  rewrite wr_app by (by rewrite zlen_app). cbn [obind]. rewrite <- (app_assoc pre), string_after.
  2: { eapply Forall_impl; [exact Ht|]. by intros ? []. }
  cbn [obind]. eexists. split; [done|]. exists (pre ++ line ++ [0]), junk. cbn [s_ATBuffer s_ATBufferCur].
  split; [by rewrite <- !app_assoc|]. split; [rewrite !zlen_app; change (zlen [0]) with 1; lia|].
  split; [|done]. rewrite <- Hz. rewrite !zlen_app, !zlen_cons, zlen_app, zlen_cons. lia.
Qed.

(** Reading on, from data without the end of the line. *)
Lemma read_on D junk script nl line c rest : line_in nl line c -> D ++ concat script = nl ++ line ++ c :: rest ->
  Forall (fun x => x <> []) script -> Forall (fun x => x <> 0) rest ->
  (exists n1 n2 l1 l2, D = n1 ++ l1 /\ nl = n1 ++ n2 /\ line = l1 ++ l2) -> zlen (D ++ 0 :: junk) = MAX_AT_RESPONSE + 1 ->
  exists b' pend' script',
    (let* r := read_more (S (length (concat script))) (D ++ 0 :: junk) 0 (zlen D) script in take_line r) =
      Done (Some line, b', script') /\ holds b' pend' /\ pend' ++ concat script' = rest /\ Forall (fun x => x <> []) script'.
Proof.
  intros Hli E Hs Hrest Hpart Hz.
  destruct (read_more_spec (S (length (concat script))) nl line c rest D 0 junk script Hli E Hs Hpart Hz)
    as (r & j & s' & Ex & Hr & Hs' & Hz'); [by exists [], D, nl|lia|].
  rewrite Ex. cbn [obind]. assert (Hr0 : Forall (fun x => x <> 0) r) by (rewrite <- Hr in Hrest; by apply Forall_app in Hrest as [? _]).
  destruct (take_line_spec [] nl line c r j s' (li_text _ _ _ Hli) Hr0 Hz') as (b' & Eb & Hh).
  change (zlen []) with 0 in Eb. rewrite !Z.add_0_l in Eb. cbn [app] in Eb. rewrite Eb. do 3 eexists. by split_and!.
Qed.

(** The data is moved to the start of the buffer. *)
Lemma move_up pre s r junk : zlen (pre ++ (s ++ r) ++ 0 :: junk) = MAX_AT_RESPONSE + 1 ->
  exists junk', splice (pre ++ (s ++ r) ++ 0 :: junk) 0 (r ++ [0]) = Done (r ++ 0 :: junk') /\
    zlen (r ++ 0 :: junk') = MAX_AT_RESPONSE + 1.
Proof.
  intros Hz. set (buf := pre ++ (s ++ r) ++ 0 :: junk) in *.
  assert (Hl : zlen (r ++ [0]) <= zlen buf).
  { unfold buf. rewrite !zlen_app. change (zlen [0]) with 1. rewrite zlen_cons.
    pose proof (zlen_nonneg pre). pose proof (zlen_nonneg s). pose proof (zlen_nonneg junk). lia. }
  rewrite splice_in by lia. change (Z.to_nat 0) with 0%nat. rewrite take_0, Nat.add_0_l. cbn [app].
  exists (drop (length (r ++ [0])) buf). rewrite <- app_assoc. split; [done|].
  rewrite zlen_app, zlen_cons. rewrite zlen_app in Hl. change (zlen [0]) with 1 in Hl.
  unfold zlen in *. rewrite length_drop, length_app. cbn [length]. lia.
Qed.

(** A call returns the next line of the stream, whatever the pieces in which it comes. *)
Lemma readline_spec b pend script nl line c rest : holds b pend -> line_in nl line c ->
  pend ++ concat script = nl ++ line ++ c :: rest -> Forall (fun x => x <> []) script -> Forall (fun x => x <> 0) rest ->
  exists b' pend' script', readline b script = Done (Some line, b', script') /\ holds b' pend' /\
    pend' ++ concat script' = rest /\ Forall (fun x => x <> []) script'.
Proof.
  intros (pre & junk & Hb & Hcur & Hz & Hp) Hli E Hs Hrest. unfold readline, readline_start. rewrite Hb, Hcur.
  destruct (decide (pend = [])) as [->|Hpend].
  - cbn [app] in E. cbn [app]. rewrite rd_app by done. cbn [obind Z.eqb].
    rewrite wr_in by (rewrite Hb in Hz; cbn [app] in Hz; rewrite Hz; unfold MAX_AT_RESPONSE; lia). cbn [obind].
    rewrite Hb in Hz. destruct pre as [|x pre].
    + apply (read_on [] junk script nl line c rest); try done. by exists [], nl, [], line.
    + apply (read_on [] (pre ++ 0 :: junk) script nl line c rest); try done. by exists [], nl, [], line.
  - destruct pend as [|d pend]; [done|]. set (p := d :: pend) in *.
    assert (Hd : rd (pre ++ p ++ 0 :: junk) (zlen pre) = Done d) by (by apply rd_app). rewrite Hd. cbn [obind].
    apply Forall_cons in Hp as [Hd0 Hp]. apply Z.eqb_neq in Hd0 as ->. rewrite Hb in Hz.
    destruct (scan_spec nl line c rest pre p (concat script) junk Hli E)
      as [(r & Er & Hr & H1 & H2)|(n1 & n2 & l1 & l2 & Er & En & El & Ho & HX & H1 & H2)].
    + rewrite H1. cbn [obind]. rewrite H2. cbn [obind].
      assert (Hr0 : Forall (fun x => x <> 0) r) by (rewrite Hr in Hrest; by apply Forall_app in Hrest as [? _]).
      rewrite Er in *. destruct (take_line_spec pre nl line c r junk script (li_text _ _ _ Hli) Hr0 Hz) as (b' & Eb & Hh).
      rewrite Eb. do 3 eexists. by split_and!.
    + rewrite H1. cbn [obind]. rewrite H2. cbn [obind]. rewrite Er in *.
      assert (Hc : cstr_at (pre ++ (n1 ++ l1) ++ 0 :: junk) (zlen pre + zlen n1) = Done l1).
      { rewrite <- zlen_app, <- (app_assoc n1), (app_assoc pre). apply string_after.
        pose proof (li_text _ _ _ Hli) as Ht. rewrite El in Ht. apply Forall_app in Ht as [Ht _].
        eapply Forall_impl; [exact Ht|]. by intros ? []. }
      rewrite Hc. cbn [obind]. destruct (move_up pre n1 l1 junk Hz) as (junk' & -> & Hz'). cbn [obind].
      apply (read_on l1 junk' script n2 line c rest); [| |done|done|by exists [], n2, l1, l2|done].
      * destruct Hli as [F1 F2 F3 F4 F5 F6]. rewrite En in F1, F6. apply Forall_app in F1 as [_ F1]. rewrite zlen_app in F6.
        constructor; try done. pose proof (zlen_nonneg n1). lia.
      * rewrite HX, El. destruct Ho as [-> | ->]; [done|]. cbn [app]. by rewrite <- app_assoc.
Qed.

(** ** The end of a stream: only newlines are left *)
Lemma skip_all P D junk : Forall (fun x => newline x = true) D -> let buf := P ++ D ++ 0 :: junk in
  skip_newlines (S (length buf)) buf (zlen P) = Done (zlen (P ++ D)) /\ findNextEOL buf (zlen (P ++ D)) = Done None.
Proof.
  intros H buf. unfold buf. split.
  - rewrite skip_newlines_spec by (done || rewrite !length_app; lia). by rewrite zlen_app.
  - rewrite (app_assoc P). exact (find_eol_spec (P ++ D) [] 0 junk ltac:(done) ltac:(by left)).
Qed.

Lemma read_more_end fuel : forall a D junk script, Forall (fun x => newline x = true) (D ++ concat script) ->
  zlen (a ++ D ++ concat script) < MAX_AT_RESPONSE -> Forall (fun x => x <> []) script ->
  zlen ((a ++ D) ++ 0 :: junk) = MAX_AT_RESPONSE + 1 -> (length (concat script) < fuel)%nat ->
  exists buf cur, read_more fuel ((a ++ D) ++ 0 :: junk) (zlen a) (zlen (a ++ D)) script = Done (None, buf, cur, []).
Proof.
  induction fuel as [|fuel IH]; intros a D junk script Hn Hl Hs Hz Hf; [lia|]. cbn [read_more].
  assert (HlD : zlen (a ++ D) < MAX_AT_RESPONSE) by (rewrite app_assoc, zlen_app in Hl; pose proof (zlen_nonneg (concat script)); lia).
  guard_false (MAX_AT_RESPONSE - zlen (a ++ D) =? 0). cbn [obind]. destruct script as [|p script]; [by do 2 eexists|].
  apply Forall_cons in Hs as [Hp Hs]. pose proof (concat_piece p script (MAX_AT_RESPONSE - zlen (a ++ D)) Hp Hs ltac:(lia)) as Hc.
  destruct (read_piece (p :: script) (MAX_AT_RESPONSE - zlen (a ++ D))) as [l script']. destruct Hc as (Hne & Hroom & Hcat & Hs').
  assert (Hpos : 0 < zlen l) by (destruct l; [done|rewrite zlen_cons; pose proof (zlen_nonneg l); lia]).
  guard_false (zlen l <=? 0).
  destruct (append_data (a ++ D) junk l ltac:(lia) Hz) as (junk' & Ea & Hz'). rewrite <- obind_assoc, Ea. cbn [obind].
  rewrite <- Hcat in *. rewrite (app_assoc D) in Hn, Hl. assert (Hn' := Hn). apply Forall_app in Hn' as [Hnl _].
  assert (Hbuf : ((a ++ D) ++ l) ++ 0 :: junk' = a ++ (D ++ l) ++ 0 :: junk') by (by rewrite <- !app_assoc).
  destruct (skip_all a (D ++ l) junk' Hnl) as [H1 H2]. rewrite Hbuf, H1. cbn [obind]. rewrite H2. cbn [obind].
  rewrite <- zlen_app, <- Hbuf, app_assoc.
  destruct (IH (((a ++ D) ++ l)) [] junk' script') as (buf & cur & Ex); rewrite ?app_nil_r in *.
  - cbn [app]. by apply Forall_app in Hn as [_ Hn].
  - cbn [app]. by rewrite <- !app_assoc in *.
  - done.
  - done.
  - rewrite length_app in Hf. unfold zlen in Hpos. lia.
  - by do 2 eexists.
Qed.

Lemma readline_end b pend script : holds b pend -> Forall (fun x => newline x = true) (pend ++ concat script) ->
  zlen (pend ++ concat script) < MAX_AT_RESPONSE -> Forall (fun x => x <> []) script ->
  exists b', readline b script = Done (None, b', []).
Proof.
  intros (pre & junk & Hb & Hcur & Hz & Hp) Hn Hl Hs. unfold readline, readline_start. rewrite Hb, Hcur. rewrite Hb in Hz.
  assert (Hend : forall junk0, zlen (0 :: junk0) = MAX_AT_RESPONSE + 1 -> Forall (fun x => newline x = true) (concat script) ->
    zlen (concat script) < MAX_AT_RESPONSE ->
    exists b', (let* r := read_more (S (length (concat script))) (0 :: junk0) 0 0 script in take_line r) = Done (None, b', [])).
  { intros junk0 Hz0 Hn0 Hl0.
    destruct (read_more_end (S (length (concat script))) [] [] junk0 script Hn0 Hl0 Hs Hz0 ltac:(lia)) as (buf & cur & Ex).
    cbn [app] in Ex. change (zlen []) with 0 in Ex. rewrite Ex. by eexists. }
  assert (Hn' := Hn). apply Forall_app in Hn' as [Hnp Hns].
  assert (Hls : zlen (concat script) < MAX_AT_RESPONSE) by (rewrite zlen_app in Hl; pose proof (zlen_nonneg pend); lia).
  destruct pend as [|d pend].
  - cbn [app]. rewrite rd_app by done. cbn [obind Z.eqb]. cbn [app] in Hz.
    rewrite wr_in by (rewrite Hz; unfold MAX_AT_RESPONSE; lia). cbn [obind]. destruct pre as [|x pre]; by apply Hend.
  - set (p := d :: pend) in *. assert (Hd : rd (pre ++ p ++ 0 :: junk) (zlen pre) = Done d) by (by apply rd_app). rewrite Hd. cbn [obind].
    apply Forall_cons in Hp as [Hd0 _]. apply Z.eqb_neq in Hd0 as ->. destruct (skip_all pre p junk Hnp) as [H1 H2].
    rewrite H1. cbn [obind]. rewrite H2. cbn [obind].
    assert (Hc : cstr_at (pre ++ p ++ 0 :: junk) (zlen (pre ++ p)) = Done []).
    { rewrite (app_assoc pre). exact (string_after (pre ++ p) [] junk ltac:(done)). }
    rewrite Hc. cbn [obind]. pose proof (move_up pre p [] junk) as Hm. rewrite app_nil_r in Hm.
    destruct (Hm Hz) as (junk' & -> & Hz'). cbn [obind app]. by apply Hend.
Qed.

(** ** The thread that reads *)
Section reader.
  Context {App : Type}.

Lemma processLine_lines (a : at_channel App) x b l :
  processLine (set_lines a b) x l = let* (a', x) := processLine a x l in Done (set_lines a' b, x).
Proof.
  unfold processLine, match_unsolicited_cb. destruct (isFinalResponseSuccess l); [done|]. destruct (isFinalResponseError l); [done|].
  cbn [queue set_lines]. by destruct (match_nodes (queue a) (l ++ [0]) x).
Qed.

Lemma process_lines_lines ls : forall (a : at_channel App) x b,
  process_lines (set_lines a b) x ls = let* (a', x) := process_lines a x ls in Done (set_lines a' b, x).
Proof.
  induction ls as [|l ls IH]; intros a x b; [done|]. cbn [process_lines]. rewrite processLine_lines.
  destruct (processLine a x l) as [[a1 x1]| |]; cbn [obind]; [apply IH|done..].
Qed.

(** The text of the lines: newlines before each, and its end. *)
Definition stream (items : list (list Z * list Z * Z)) : list Z := concat ((fun '(nl, line, c) => nl ++ line ++ [c]) <$> items).
Definition lines_of (items : list (list Z * list Z * Z)) : list (list Z) := (fun '(_, line, _) => line) <$> items.
Definition item_ok (i : list Z * list Z * Z) : Prop := let '(nl, line, c) := i in line_in nl line c.

Lemma stream_nonzero items tail : Forall item_ok items -> Forall (fun x => newline x = true) tail ->
  Forall (fun x => x <> 0) (stream items ++ tail).
Proof.
  intros Hi Ht. assert (Hnl : forall l, Forall (fun x => newline x = true) l -> Forall (fun x => x <> 0) l).
  { intros l H. eapply Forall_impl; [exact H|]. intros x Hx ->. done. }
  apply Forall_app. split; [|by apply Hnl]. induction Hi as [|[[nl line] c] items [H1 _ _ H2 H3 _] _ IH]; [done|].
  unfold stream in *. cbn [fmap list_fmap concat]. apply Forall_app. split; [|done]. apply Forall_app. split; [by apply Hnl|].
  apply Forall_app. split; [eapply Forall_impl; [exact H3|]; by intros ? []|]. constructor; [|done]. by intros ->.
Qed.

Lemma reader_spec items tail : Forall item_ok items -> Forall (fun x => newline x = true) tail -> zlen tail < MAX_AT_RESPONSE ->
  forall (a : at_channel App) x pend script, holds (lines a) pend -> Forall (fun x => x <> []) script ->
  pend ++ concat script = stream items ++ tail ->
  exists b', readerLoop (S (length items)) a x script = let* (a', x') := process_lines a x (lines_of items) in Done (set_lines a' b', x').
Proof.
  intros Hi Ht Hl. induction Hi as [|[[nl line] c] items Hli Hi IH]; intros a x pend script Hh Hs E.
  { cbn [length readerLoop lines_of fmap list_fmap process_lines obind]. cbn [stream fmap list_fmap concat app] in E.
    destruct (readline_end (lines a) pend script Hh) as (b' & ->); [by rewrite E..|done|]. cbn [obind]. by exists b'. }
  unfold stream in E. cbn [fmap list_fmap concat] in E. rewrite <- !app_assoc in E. cbn [app] in E.
  destruct (readline_spec (lines a) pend script nl line c (stream items ++ tail) Hh Hli E Hs) as (b1 & p1 & s1 & Er & Hh1 & E1 & Hs1).
  { by apply stream_nonzero. }
  cbn [length]. set (n := S (length items)) in *. cbn [readerLoop]. rewrite Er. cbn [obind]. rewrite processLine_lines.
  unfold lines_of. cbn [fmap list_fmap process_lines]. destruct (processLine a x line) as [[a1 x1]| |]; cbn [obind].
  - destruct (IH (set_lines a1 b1) x1 p1 s1 Hh1 Hs1 E1) as (b2 & E2). rewrite E2. exists b2. rewrite process_lines_lines.
    unfold lines_of. by destruct (process_lines a1 x1 _) as [[]| |].
  - by exists b1.
  - by exists b1.
Qed.

(** A queue whose cells hold the nodes [l] runs the callbacks of that list; the cells come from
    the additions of AgpsQueue. *)
Lemma match_cells_spec h l : forall p buf (x : App), segment h p l None ->
  match_cells (S (length l)) h p buf x = match_nodes l.*2 buf x.
Proof.
  induction l as [|[a n] l IH]; intros p buf x Hs; [cbn in Hs; by rewrite Hs|]. destruct Hs as (-> & m & Ha & Hs).
  cbn [length]. set (k := S (length l)) in *. cbn [match_cells fmap list_fmap match_nodes load]. rewrite Ha. cbn [obind data next snd].
  destruct (cstr_at buf 0) as [line| |]; cbn [obind]; [|done..].
  destruct (match strStartsWith line (prefix n) with true => _ | false => _ end) as [[b y]| |]; cbn [obind]; [by apply IH|done..].
Qed.

(** A line that has the prefix of one node only, also as the node's callback leaves it. *)
Lemma match_one ns1 (n : at_unso_node App) ns2 f buf buf' l l' x x' :
  cstr_at buf 0 = Done l -> Forall (fun n => strStartsWith l (prefix n) = false) ns1 ->
  strStartsWith l (prefix n) = true -> cb n = Some f -> f buf x = Done (buf', x') ->
  cstr_at buf' 0 = Done l' -> Forall (fun n => strStartsWith l' (prefix n) = false) ns2 ->
  match_nodes (ns1 ++ n :: ns2) buf x = Done x'.
Proof.
  intros Hl H1 Hn Hcb Hf Hl' H2. induction H1 as [|m ns1 Hm _ IH]; cbn [match_nodes app]; rewrite Hl; cbn [obind].
  - rewrite Hn, Hcb, Hf. cbn [obind]. induction H2 as [|m ns2 Hm _ IH]; [done|]. cbn [match_nodes]. rewrite Hl'. cbn [obind]. rewrite Hm. exact IH.
  - by rewrite Hm.
Qed.

(** ** Commands *)

(** The device takes a part, or asks to wait. *)
Definition takes (w : wrote) : Prop := match w with WTook n => 0 < n | WAgain => True | WError => False end.
(** How many parts it takes. *)
Fixpoint parts (script : list wrote) : nat :=
  match script with [] => O | WTook _ :: script => S (parts script) | _ :: script => parts script end.

Lemma write_text_spec script : forall s, Forall takes script -> (length s <= parts script)%nat ->
  exists script', write_text script s = Done (0, s, script') /\ Forall takes script' /\ (parts script <= parts script' + length s)%nat.
Proof.
  induction script as [|w script IH]; intros s Hw Hp.
  { destruct s; [|cbn in Hp; lia]. by exists []. }
  cbn [write_text]. destruct (Z.leb_spec (zlen s) 0) as [H0|H0].
  { destruct s; [|rewrite zlen_cons in H0; pose proof (zlen_nonneg s); lia]. exists (w :: script). split_and!; [done..|lia]. }
  apply Forall_cons in Hw as [Hw Hws]. destruct w as [n| |]; [|by apply IH|done]. cbn [takes parts] in *.
  set (k := Z.to_nat (Z.min n (zlen s))). assert (Hk : (1 <= k <= length s)%nat) by (unfold k, zlen in *; lia).
  destruct (IH (drop k s) Hws) as (s' & -> & Hs & Hl); [rewrite length_drop; lia|]. cbn [obind].
  exists s'. rewrite take_drop. split_and!; [done..|]. rewrite length_drop in Hl. lia.
Qed.

Lemma write_cr_spec script : Forall takes script -> (0 < parts script)%nat -> exists script', write_cr script = Done (0, [13], script').
Proof.
  induction script as [|[n| |] script IH]; intros Hw Hp; [cbn in Hp; lia| | |]; apply Forall_cons in Hw as [Hw Hws]; cbn [write_cr].
  - cbn in Hw. guard_false (n =? 0). by eexists.
  - by apply IH.
  - done.
Qed.

(** A command goes out as it is, with a return, whatever the parts in which the device takes it. *)
Lemma writeline_spec script s : Forall takes script -> (length s < parts script)%nat ->
  exists script', writeline script s = Done (0, s ++ [13], script').
Proof.
  intros Hw Hp. unfold writeline. destruct (write_text_spec script s Hw ltac:(lia)) as (s1 & -> & H1 & H2). cbn [obind Z.ltb Z.compare].
  destruct (write_cr_spec s1 H1 ltac:(lia)) as (s2 & ->). cbn [obind]. by exists s2.
Qed.

(** Up to an error of the device a command goes out as it is; when the error comes first, what
    went out is a beginning of the command. *)
Lemma write_text_error post pre : forall s, Forall takes pre ->
  (exists pre', write_text (pre ++ WError :: post) s = Done (0, s, pre' ++ WError :: post) /\ Forall takes pre') \/
  exists out script', write_text (pre ++ WError :: post) s = Done (-2, out, script') /\ out `prefix_of` s.
Proof.
  induction pre as [|w pre IH]; intros s Hw; cbn [app write_text].
  { destruct (Z.leb_spec (zlen s) 0) as [H0|H0].
    - destruct s; [|rewrite zlen_cons in H0; pose proof (zlen_nonneg s); lia]. left. by exists [].
    - right. exists [], post. split; [done|apply prefix_nil]. }
  destruct (Z.leb_spec (zlen s) 0) as [H0|H0].
  { destruct s; [|rewrite zlen_cons in H0; pose proof (zlen_nonneg s); lia]. left. by exists (w :: pre). }
  apply Forall_cons in Hw as [Hw Hws]. destruct w as [n| |]; [|by apply IH|done].
  set (k := Z.to_nat (Z.min n (zlen s))).
  destruct (IH (drop k s) Hws) as [(p' & -> & Hp)|(out & s' & -> & Ho)]; cbn [obind].
  - left. exists p'. by rewrite take_drop.
  - right. do 2 eexists. split; [done|]. rewrite <- (take_drop k s) at 2. by apply prefix_app.
Qed.

Lemma write_cr_error post pre : Forall takes pre ->
  (exists script', write_cr (pre ++ WError :: post) = Done (0, [13], script')) \/
  exists script', write_cr (pre ++ WError :: post) = Done (-3, [], script').
Proof.
  induction pre as [|[n| |] pre IH]; intros Hw; cbn [app write_cr]; [right; by eexists| | |]; apply Forall_cons in Hw as [Hw Hws].
  - cbn in Hw. guard_false (n =? 0). left. by eexists.
  - by apply IH.
  - done.
Qed.

Lemma writeline_error post pre s : Forall takes pre ->
  (exists script', writeline (pre ++ WError :: post) s = Done (0, s ++ [13], script')) \/
  exists ret out script', writeline (pre ++ WError :: post) s = Done (ret, out, script') /\ (ret = -2 \/ ret = -3) /\ out `prefix_of` s.
Proof.
  intros Hw. unfold writeline. destruct (write_text_error post pre s Hw) as [(p' & -> & Hp)|(out & s' & -> & Ho)]; cbn [obind Z.ltb Z.compare].
  - destruct (write_cr_error post p' Hp) as [[s' ->]|[s' ->]]; cbn [obind]; [left; by eexists|right].
    do 3 eexists. split; [done|]. split; [by right|]. by rewrite app_nil_r.
  - right. do 3 eexists. split; [done|]. split; [by left|done].
Qed.

(** Lines that are no final response leave the response alone. *)
Lemma process_unsolicited ls : Forall (fun l => isFinalResponse l = false) ls -> forall (a : at_channel App) x a' x',
  process_lines a x ls = Done (a', x') -> a' = a.
Proof.
  induction 1 as [|l ls Hl _ IH]; intros a x a' x' E; cbn [process_lines] in E; [by injection E|].
  apply orb_false_iff in Hl as [H1 H2]. unfold processLine in E. rewrite H1, H2 in E.
  destruct (match_unsolicited_cb a x l) as [x1| |]; cbn [obind] in E; [|done..]. by eapply IH.
Qed.

Lemma process_lines_app ls1 : forall ls2 (a : at_channel App) x,
  process_lines a x (ls1 ++ ls2) = let* (a, x) := process_lines a x ls1 in process_lines a x ls2.
Proof.
  induction ls1 as [|l ls1 IH]; intros ls2 a x; [done|]. cbn [app process_lines].
  destruct (processLine a x l) as [[a1 x1]| |]; cbn [obind]; [apply IH|done..].
Qed.

(** How a wait ends that starts with the channel [a]: [response] is the final response that comes
    during it, if one comes.  A response from before is taken for the command's own and nothing is
    waited for; a wait that times out returns -2 and leaves a response, if one came, for the next
    command; a wait that is woken without a response returns the result of the command before. *)
Definition response_code (ok : bool) : Z := if ok then 0 else -3.
Definition responded (a : at_channel App) (response : option (list Z)) : at_channel App :=
  match response with Some f => set_response a (isFinalResponseSuccess f) (Some f) | None => a end.
Definition wait_result (a : at_channel App) (response : option (list Z)) (timed_out : bool) : Z * at_channel App :=
  match finalResponse a, response with
  | Some _, _ => (response_code (success a), set_response a (success a) None)
  | None, _ => if timed_out then (-2, responded a response)
               else match response with
                    | Some f => (response_code (isFinalResponseSuccess f), set_response a (isFinalResponseSuccess f) None)
                    | None => (response_code (success a), a)
                    end
  end.

(** The line of the response, when one comes. *)
Definition answer (response : option (list Z)) : list (list Z) := match response with Some f => [f] | None => [] end.

(** The lines before the response go to the callbacks, in a wait that takes them up. *)
Lemma await_spec (a : at_channel App) x before response timed_out x' :
  Forall (fun l => isFinalResponse l = false) before -> process_lines a x before = Done (a, x') ->
  (forall f, response = Some f -> isFinalResponse f = true) ->
  await a x (before ++ answer response) timed_out =
  let '(ret, a') := wait_result a response timed_out in
  Done (ret, a', match finalResponse a with Some _ => x | None => x' end).
Proof.
  intros Hb Hx Hf. unfold await, wait_result. destruct (finalResponse a) as [r|] eqn:Hr; cbn [obind]; [by rewrite Hr|].
  rewrite process_lines_app, Hx. cbn [obind]. destruct response as [f|]; cbn [answer process_lines obind].
  - specialize (Hf f eq_refl). unfold isFinalResponse in Hf. unfold processLine, responded. destruct (isFinalResponseSuccess f).
    + by destruct timed_out.
    + cbn [orb] in Hf. rewrite Hf. by destruct timed_out.
  - rewrite Hr. by destruct timed_out.
Qed.

(** A response from before is taken for the command's own, and no line is waited for. *)
Lemma send_stale (a : at_channel App) x cmd script ls t f : 0 < fd a -> finalResponse a = Some f ->
  Forall takes script -> (length cmd < parts script)%nat ->
  send_on a x cmd true script ls t = Done (if success a then 0 else -3, cmd ++ [13], set_response a (success a) None, x).
Proof.
  intros Hfd Hr Hs Hp. unfold send_on, await. guard_false (fd a <? 0).
  destruct (writeline_spec script cmd Hs Hp) as (s' & ->). cbn [obind Z.ltb Z.compare]. rewrite Hr. cbn [obind]. by rewrite Hr.
Qed.

(** The response to a command that timed out, when it comes late, answers the next command,
    whatever that one's own response is. *)
Lemma late_response_taken (a : at_channel App) x cmd1 cmd2 script1 script2 f ls t : 0 < fd a -> finalResponse a = None ->
  Forall takes script1 -> (length cmd1 < parts script1)%nat -> Forall takes script2 -> (length cmd2 < parts script2)%nat ->
  isFinalResponse f = true ->
  send_on a x cmd1 true script1 [] true = Done (-2, cmd1 ++ [13], a, x) /\
  exists a', processLine a x f = Done (a', x) /\
    send_on a' x cmd2 true script2 ls t =
      Done (if isFinalResponseSuccess f then 0 else -3, cmd2 ++ [13], set_response a (isFinalResponseSuccess f) None, x).
Proof.
  intros Hfd Hr H1 P1 H2 P2 Hf. split.
  - unfold send_on, await. guard_false (fd a <? 0). destruct (writeline_spec script1 cmd1 H1 P1) as (s' & ->).
    cbn [obind Z.ltb Z.compare]. by rewrite Hr.
  - exists (set_response a (isFinalResponseSuccess f) (Some f)). split.
    + unfold processLine. unfold isFinalResponse in Hf. destruct (isFinalResponseSuccess f); [done|]. cbn [orb] in Hf. by rewrite Hf.
    + by rewrite (send_stale _ x cmd2 script2 ls t f).
Qed.

(** A wait that ends without a response returns the result of the command before. *)
Lemma early_wakeup (a : at_channel App) x : finalResponse a = None -> await a x [] false = Done (if success a then 0 else -3, a, x).
Proof. intros Hr. unfold await. rewrite Hr. cbn [process_lines obind]. by rewrite Hr. Qed.
End reader.

(** The nanoseconds stay below a second for waits of whole seconds, and not for others. *)
Lemma timespec_whole sec usec n : 0 <= usec < 1000000 -> 0 <= n -> 0 <= snd (setTimespecRelative sec usec (n * 1000)) < 1000000000.
Proof. intros Hu Hn. cbn [setTimespecRelative snd]. rewrite Z.rem_mul by lia. lia. Qed.
Example timespec_half : setTimespecRelative 100 700000 1500 = (101, 1200000000).
Proof. reflexivity. Qed.

(** After a prompt, which has no end, the next line starts past the NUL, with what an earlier line
    left there. *)
Example prompt_leaves_junk :
  (let* (l1, b, script) := readline (lines (@closed unit)) [bytes_of "+ABCDEFGH" ++ [13; 10]; bytes_of "> "; bytes_of "OK" ++ [13]] in
   let* (l2, b, script) := readline b script in
   let* (l3, b, script) := readline b script in
   Done (l1, l2, l3)) = Done (Some (bytes_of "+ABCDEFGH"), Some (bytes_of "> "), Some (bytes_of "CDEFGHOK")).
Proof. by vm_compute. Qed.
