(* ===== verification/AgpsAgent.v ===== *)
(** * apps/aGPS/generic/sprd_agps_agent.c: the agent between the modem and the GPS stack

    The GPS stack registers its functions (the hook); the messages of the modem are parsed in the
    buffer of the line and reported to them, and the stack's requests become AT commands.  A call
    of a hook function is a [hook_call] in the log of the agent; the functions are the stack's,
    and only their results are used. *)

From S2P Require Import Prelude CString EngFrame EngText EngMac DmNum AgpsParser AgpsChannel.

(** ** Data *)
Definition CI_DEV_MAX_APGS_MSG_SIZE : Z := 8192.

Record agps_user_notify_params_t : Type := {
  handle_id : Z; ni_type : Z; notify_type : Z;
  requestorID_len : Z; requestorID_dcs : Z; requestorID : list Z;
  clientName_len : Z; clientName_dcs : Z; clientName : list Z
}.

(** An array is passed as a whole, with the size that the modem gave for it. *)
Inductive hook_call : Type :=
| CpPayload (ota_type rrc_state sessionPriority : Z) (p_msg_data : list Z) (msg_size : Z)
| MeasTerm
| RrcState (rrc_state : Z)
| E911Notify
| CpReset (type : Z)
| MtlrNotify (params : agps_user_notify_params_t).

(** The functions, NULL or with their results. *)
Record agps_c_plane_hook : Type := {
  hook_size : Z;
  cppayload_cb : option (Z -> Z -> Z -> list Z -> Z -> Z);
  meas_term_cb : option Z;
  rrc_state_cb : option (Z -> Z);
  e911notify_cb : option Z;
  cp_reset_cb : option (Z -> Z);
  mtlr_notify_cb : option (agps_user_notify_params_t -> Z)
}.
(** A [size_t] and six pointers. *)
Definition sizeof_hook : Z := 28.

(** The static hook is zero at first. *)
Definition no_hook : agps_c_plane_hook :=
  {| hook_size := 0; cppayload_cb := None; meas_term_cb := None; rrc_state_cb := None; e911notify_cb := None;
     cp_reset_cb := None; mtlr_notify_cb := None |}.

Record agent : Type := { c_plane_stack_hook : agps_c_plane_hook; calls : list hook_call }.

Definition log (x : agent) (c : hook_call) : agent := {| c_plane_stack_hook := c_plane_stack_hook x; calls := calls x ++ [c] |}.

(** A call through a NULL pointer is undefined. *)
Definition invoke {A} (f : option A) (r : A -> Z) (x : agent) (c : hook_call) : outcome (Z * agent) :=
  match f with None => Undef | Some f => Done (r f, log x c) end.
(** The handlers fail when the function returns zero. *)
Definition check {A} (buf : list Z) (f : option A) (r : A -> Z) (x : agent) (c : hook_call) : outcome (Z * list Z * agent) :=
  let* (ret, x) := invoke f r x c in Done (if ret =? 0 then -1 else 0, buf, x).

(** The prefixes, in the order of the registrations. *)
Definition AT_PREFIX_table : list (list Z) :=
  bytes_of <$> ["+SPAGPSDL:"; "+SPAGPSEND"; "+SPAGPSSTATE:"; "+SPAGPSNILR"; "+SPAGPSMTLR:"; "+SPAGPSRESET:"; "AT+SPLN="; "AT+SPAGPSUL="].
Definition AT_PREFIX (i : nat) : list Z := nth i AT_PREFIX_table [].

(** ** Messages of the modem *)

(** [n] numbers, up to the first error. *)
Fixpoint parse_ints (n : nat) (buf : list Z) (cur : option Z) : outcome (Z * list Z * option Z * list Z) :=
  match n with
  | O => Done (0, buf, cur, [])
  | S n =>
      let* (err, buf, cur, v) := parse_nextint buf cur in
      match v with
      | None => Done (err, buf, cur, [])
      | Some v => let* (err, buf, cur, vs) := parse_ints n buf cur in Done (err, buf, cur, v :: vs)
      end
  end.

(** The numbers after the prefix. *)
Definition start_ints (n : nat) (buf : list Z) : outcome (Z * list Z * option Z * list Z) :=
  let* (err, cur) := at_tok_start buf 0 in
  if err <? 0 then Done (err, buf, Some cur, []) else parse_ints n buf (Some cur).

(** A string of hexadecimal digits, in an array whose contents were [array]. *)
Definition parse_hex (array buf : list Z) (cur : option Z) : outcome (list Z * list Z * option Z) :=
  let* (tmpData, buf, cur) := parse_nextstr buf cur in
  match tmpData with
  | None => Undef
  | Some i =>
      let* s := cstr_at buf i in
      let* (array, _) := GSMHexToGSM s (zlen s) array CI_DEV_MAX_APGS_MSG_SIZE in
      Done (array, buf, cur)
  end.

Section handlers.
  (** What the arrays on the stack hold before they are written. *)
  Context (garbage : list Z).

(** The result, the line, and the agent. *)
Definition handle_ReportDownlinkData (buf : list Z) (x : agent) : outcome (Z * list Z * agent) :=
  let* (err, buf, cur, vs) := start_ints 4 buf in
  match vs with
  | [type; rrc_state; session_priority; pdu_len] =>
      let* (pdu_data, buf, cur) := parse_hex garbage buf cur in
      check buf (cppayload_cb (c_plane_stack_hook x))
        (fun f => f (u32 type) (u32 rrc_state) (u32 session_priority) pdu_data (u32 pdu_len)) x
        (CpPayload (u32 type) (u32 rrc_state) (u32 session_priority) pdu_data (u32 pdu_len))
  | _ => Done (err, buf, x)
  end.

Definition handle_NotifyStopSession (x : agent) : outcome (Z * agent) :=
  invoke (meas_term_cb (c_plane_stack_hook x)) s32 x MeasTerm.

Definition handle_NotifyStateChange (buf : list Z) (x : agent) : outcome (Z * list Z * agent) :=
  let* (err, buf, cur, vs) := start_ints 1 buf in
  match vs with
  | [rrc_state] => check buf (rrc_state_cb (c_plane_stack_hook x)) (fun f => f (u32 rrc_state)) x (RrcState (u32 rrc_state))
  | _ => Done (err, buf, x)
  end.

Definition handle_NotifyNILocateReq (x : agent) : outcome (Z * agent) :=
  invoke (e911notify_cb (c_plane_stack_hook x)) s32 x E911Notify.

Definition handle_NotifyMTLR (buf : list Z) (x : agent) : outcome (Z * list Z * agent) :=
  let* (err, buf, cur, vs) := start_ints 5 buf in
  match vs with
  | [handle_id; ni_type; notify_type; clientName_len; clientName_dcs] =>
      let* (clientName, buf, cur) := parse_hex garbage buf cur in
      let* (err, buf, cur, vs) := parse_ints 2 buf cur in
      match vs with
      | [requestorID_len; requestorID_dcs] =>
          let* (requestorID, buf, cur) := parse_hex garbage buf cur in
          let p := {| handle_id := handle_id; ni_type := ni_type; notify_type := notify_type;
                      requestorID_len := requestorID_len; requestorID_dcs := requestorID_dcs; requestorID := requestorID;
                      clientName_len := clientName_len; clientName_dcs := clientName_dcs; clientName := clientName |} in
          check buf (mtlr_notify_cb (c_plane_stack_hook x)) (fun f => f p) x (MtlrNotify p)
      | _ => Done (err, buf, x)
      end
  | _ => Done (err, buf, x)
  end.

(** The number is written as an [int] over a [short]: its low half is the type. *)
Definition handle_ResetPosInfo (buf : list Z) (x : agent) : outcome (Z * list Z * agent) :=
  let* (err, buf, cur, vs) := start_ints 1 buf in
  match vs with
  | [type] => check buf (cp_reset_cb (c_plane_stack_hook x)) (fun f => f (s16 type)) x (CpReset (s16 type))
  | _ => Done (err, buf, x)
  end.

(** What the handlers return is not used. *)
Definition my_at_response_cb (buf : list Z) (x : agent) : outcome (list Z * agent) :=
  let* at_ := cstr_at buf 0 in
  if strStartsWith at_ (AT_PREFIX 0) then let* (_, buf, x) := handle_ReportDownlinkData buf x in Done (buf, x)
  else if strStartsWith at_ (AT_PREFIX 1) then let* (_, x) := handle_NotifyStopSession x in Done (buf, x)
  else if strStartsWith at_ (AT_PREFIX 2) then let* (_, buf, x) := handle_NotifyStateChange buf x in Done (buf, x)
  else if strStartsWith at_ (AT_PREFIX 3) then let* (_, x) := handle_NotifyNILocateReq x in Done (buf, x)
  else if strStartsWith at_ (AT_PREFIX 4) then let* (_, buf, x) := handle_NotifyMTLR buf x in Done (buf, x)
  else if strStartsWith at_ (AT_PREFIX 5) then let* (_, buf, x) := handle_ResetPosInfo buf x in Done (buf, x)
  else Done (buf, x).

(** [opened] is what [open] would return. *)
Definition register_RecvCommand (atcs : list (at_channel agent)) (opened : Z) : list (at_channel agent) :=
  fold_left (fun atcs p => snd (register_unsolicited atcs opened (bytes_of p) (Some my_at_response_cb)))
    ["+SPAGPSDL:"; "+SPAGPSEND"; "+SPAGPSSTATE:"; "+SPAGPSNILR"; "+SPAGPSMTLR:"; "+SPAGPSRESET:"] atcs.

Definition agps_c_plane_stack_init (atcs : list (at_channel agent)) (x : agent) (opened : Z) (hook : option agps_c_plane_hook)
    : Z * list (at_channel agent) * agent :=
  let '(atc, atcs) := atc_init atcs opened in
  match atc with
  | None => (-1, atcs, x)
  | Some _ =>
      let '(rc, x) :=
        match hook with
        | Some h => if hook_size h =? sizeof_hook then (0, {| c_plane_stack_hook := h; calls := calls x |}) else (-2, x)
        | None => (-2, x)
        end in
      (rc, register_RecvCommand atcs opened, x)
  end.
End handlers.

(** ** Requests of the stack *)

(** [%d] and [%lu] of 32 bits. *)
Fixpoint udigits (fuel : nat) (n : Z) : list Z :=
  match fuel with
  | O => []
  | S fuel => if n <? 10 then [48 + n] else udigits fuel (n / 10) ++ [48 + n mod 10]
  end.
Definition udec (n : Z) : list Z := udigits 10 n.
Definition dec (n : Z) : list Z := if n <? 0 then 45 :: udec (- n) else udec n.

(** The text in [ATcmd], which has [size] bytes. *)
Definition in_array (size : Z) (text : list Z) : outcome (list Z) := if size <? zlen text + 1 then Undef else Done text.

Definition ul_text (isfinal ota_type rrc_msg_type msg_size : Z) (msg : list Z) : list Z :=
  bytes_of "AT+SPAGPSUL=" ++ dec isfinal ++ [44] ++ dec (s32 ota_type) ++ [44] ++ dec (s32 rrc_msg_type) ++ [44] ++
  dec (s32 msg_size) ++ [44; 34] ++ flat_map hex2 msg ++ [34].

(** The channel's answers are the arguments of [at_send]. *)
Definition agps_c_plane_stack_network_ulreq (atcs : list (at_channel agent)) (x : agent) (opened : Z)
    (ota_type rrc_msg_type isfinal : Z) (p_msg_data : list Z) (msg_size : Z)
    (script : list wrote) (meanwhile : list (list Z)) (timed_out : bool) : outcome (Z * list Z * list (at_channel agent) * agent) :=
  let* msg := slice p_msg_data 0 msg_size in
  let* ATcmd := in_array (16 * 1024) (ul_text isfinal ota_type rrc_msg_type msg_size msg) in
  let* x := if isfinal =? 0 then Done x else let* (_, x) := handle_NotifyStopSession x in Done x in
  let* (ret, out, atcs, x) := at_send atcs x opened ATcmd script meanwhile timed_out in
  Done (u32 ret, out, atcs, x).

Definition agps_c_plane_stack_lcsverificationresp (atcs : list (at_channel agent)) (x : agent) (opened : Z)
    (notifId present verificationResponse : Z)
    (script : list wrote) (meanwhile : list (list Z)) (timed_out : bool) : outcome (Z * list Z * list (at_channel agent) * agent) :=
  let* ATcmd := in_array 50 (if present =? 0 then [] else bytes_of "AT+CMTLRA=" ++ udec verificationResponse ++ [44; 32] ++ udec notifId) in
  let* (ret, out, atcs, x) := at_send atcs x opened ATcmd script meanwhile timed_out in
  Done (u32 ret, out, atcs, x).

(** ** Numbers in text *)
Definition digit (c : Z) : Prop := 48 <= c <= 57.
Definition value (acc : Z) (l : list Z) : Z := fold_left (fun a c => a * 10 + (c - 48)) l acc.

Lemma digit_cases c (P : Z -> Prop) : digit c -> P 48 -> P 49 -> P 50 -> P 51 -> P 52 -> P 53 -> P 54 -> P 55 -> P 56 -> P 57 -> P c.
Proof.
  intros Hc **. assert (c = 48 \/ c = 49 \/ c = 50 \/ c = 51 \/ c = 52 \/ c = 53 \/ c = 54 \/ c = 55 \/ c = 56 \/ c = 57) as Hd
    by (unfold digit in Hc; lia).
  by repeat destruct Hd as [-> | Hd]; [..|subst c].
Qed.

Lemma digits_value l : forall acc, Forall digit l -> digits 10 acc (string_of l) = value acc l.
Proof.
  induction l as [|c l IH]; intros acc Hl; [done|]. apply Forall_cons in Hl as [Hc Hl]. cbn [string_of digits value fold_left].
  assert (digit_val (ascii_of_nat (Z.to_nat c)) = Some (c - 48)) as ->.
  { by apply (digit_cases c (fun c => digit_val (ascii_of_nat (Z.to_nat c)) = Some (c - 48)) Hc). }
  unfold digit in Hc. guard_true (c - 48 <? 10). by apply IH.
Qed.

Lemma udigits_S fuel n : udigits (S fuel) n = if n <? 10 then [48 + n] else udigits fuel (n / 10) ++ [48 + n mod 10].
Proof. done. Qed.

Lemma udigits_spec fuel : forall n, 0 <= n < 10 ^ Z.of_nat (S fuel) ->
  Forall digit (udigits (S fuel) n) /\ value 0 (udigits (S fuel) n) = n /\ udigits (S fuel) n <> [].
Proof.
  induction fuel as [|fuel IH]; intros n Hn; rewrite udigits_S; destruct (Z.ltb_spec n 10) as [H|H].
  - split_and!; [constructor; [unfold digit; lia|done]|unfold value; cbn [fold_left]; lia|done].
  - change (10 ^ Z.of_nat 1) with 10 in Hn. lia.
  - split_and!; [constructor; [unfold digit; lia|done]|unfold value; cbn [fold_left]; lia|done].
  - destruct (IH (n / 10)) as (H1 & H2 & H3).
    { rewrite Nat2Z.inj_succ, Z.pow_succ_r in Hn by lia. split; [apply Z.div_pos; lia|]. apply Z.div_lt_upper_bound; lia. }
    pose proof (Z.mod_pos_bound n 10 ltac:(lia)). split_and!.
    + apply Forall_app. split; [done|]. constructor; [unfold digit; lia|done].
    + unfold value in *. rewrite fold_left_app, H2. cbn [fold_left]. rewrite (Z.div_mod n 10) at 3 by lia. lia.
    + by destruct (udigits (S fuel) (n / 10)).
Qed.

Lemma skip_prefix_ten s : skip_prefix 10 s = s.
Proof. unfold skip_prefix. cbn [Z.eqb Pos.eqb andb]. by repeat case_match. Qed.

Definition int_ok (n : Z) : Prop := - 2 ^ 31 <= n < 2 ^ 31.

Lemma udec_spec n : 0 <= n <= 2 ^ 31 -> Forall digit (udec n) /\ value 0 (udec n) = n /\ udec n <> [].
Proof. intros H. apply udigits_spec. change (10 ^ Z.of_nat 10) with 10000000000. lia. Qed.

Lemma digits_start l : Forall digit l -> l <> [] ->
  strtol (string_of l) 10 = Z.min (2 ^ 31 - 1) (digits 10 0 (string_of l)).
Proof.
  intros Hl Hne. transitivity (Z.min (2 ^ 31 - 1) (digits 10 0 (skip_prefix 10 (string_of l)))); [|by rewrite skip_prefix_ten].
  destruct l as [|c l]; [done|]. apply Forall_cons in Hl as [Hc _]. cbn [string_of].
  pattern c. apply digit_cases; [done|reflexivity..].
Qed.

(** [strtol] reads what [%d] prints. *)
Lemma dec_read n : int_ok n -> strtol (string_of (dec n)) 10 = n.
Proof.
  unfold int_ok. intros Hn. unfold dec. destruct (Z.ltb_spec n 0) as [H|H].
  - destruct (udec_spec (- n) ltac:(lia)) as (H1 & H2 & H3).
    transitivity (Z.max (- 2 ^ 31) (- digits 10 0 (skip_prefix 10 (string_of (udec (- n)))))); [reflexivity|].
    rewrite skip_prefix_ten, digits_value, H2 by done. lia.
  - destruct (udec_spec n ltac:(lia)) as (H1 & H2 & H3). rewrite digits_start, digits_value, H2 by done. lia.
Qed.

(** The characters of a number. *)
Lemma dec_chars n : int_ok n -> Forall (fun c => c = 45 \/ digit c) (dec n) /\ dec n <> [].
Proof.
  unfold int_ok. intros Hn. assert (Hd : forall m, 0 <= m <= 2 ^ 31 -> Forall (fun c => c = 45 \/ digit c) (udec m)).
  { intros m Hm. destruct (udec_spec m Hm) as (H & _). eapply Forall_impl; [exact H|]. by right. }
  unfold dec. destruct (Z.ltb_spec n 0).
  - split; [|done]. constructor; [by left|]. apply Hd. lia.
  - split; [apply Hd; lia|]. by destruct (udec_spec n ltac:(lia)) as (_ & _ & ?).
Qed.

Lemma dec_plain n : int_ok n -> plain (dec n).
Proof.
  intros Hn. destruct (dec_chars n Hn) as [H Hne].
  assert (Hc : forall c, c = 45 \/ digit c -> (c <> 0 /\ c <> 44) /\ isspace c = false /\ c <> 34).
  { intros c [-> | Hc]; [done|]. unfold digit, isspace in *. lia. }
  split; [eapply Forall_impl; [exact H|]; intros c Hx; by apply Hc|]. destruct (dec n) as [|c r]; [done|].
  apply Forall_cons in H as [Hx _]. exists c, r. split; [done|]. by apply Hc.
Qed.

(** ** The fields of a message *)

(** Blanks before each field. *)
Definition blanks (bl : list Z) : Prop := Forall (fun c => c = 32) bl.
Definition fields (bl : list Z) (e : Z) (ns : list Z) : list Z := concat ((fun n => bl ++ dec n ++ [e]) <$> ns).
Definition quoted (bl bs : list Z) : list Z := bl ++ [34] ++ flat_map hex2 bs ++ [34].
(** The bytes at the start of an array. *)
Definition filled (garbage bs : list Z) : list Z := bs ++ drop (length bs) garbage.

Lemma blanks_space bl : blanks bl -> Forall (fun c => isspace c = true) bl.
Proof. intros H. eapply Forall_impl; [exact H|]. by intros c ->. Qed.

(** What a line may consist of. *)
Definition line_char (c : Z) : Prop := c <> 0 /\ c <> 62 /\ newline c = false.
Lemma line_char_nonzero l : Forall line_char l -> Forall (fun c => c <> 0) l.
Proof. intros H. eapply Forall_impl; [exact H|]. by intros c []. Qed.

Lemma dec_line n : int_ok n -> Forall line_char (dec n).
Proof.
  intros Hn. destruct (dec_chars n Hn) as [H _]. eapply Forall_impl; [exact H|]. intros c [-> | Hc]; [done|].
  unfold digit, line_char, newline in *. lia.
Qed.
Lemma blanks_line bl : blanks bl -> Forall line_char bl.
Proof. intros H. eapply Forall_impl; [exact H|]. by intros c ->. Qed.

Lemma fields_line bl ns : blanks bl -> Forall int_ok ns -> Forall line_char (fields bl 44 ns).
Proof.
  intros Hb Hn. unfold fields. induction Hn as [|n ns Hn _ IH]; [done|]. cbn [fmap list_fmap concat]. apply Forall_app. split; [|done].
  apply Forall_app. split; [by apply blanks_line|]. apply Forall_app. split; [by apply dec_line|]. by constructor.
Qed.

Lemma hex_chars bs : Forall byte_ok bs -> Forall (fun c => line_char c /\ c <> 34) (flat_map hex2 bs).
Proof.
  induction 1 as [|b bs Hb _ IH]; [done|]. cbn [flat_map]. apply Forall_app. split; [|done].
  pose proof (byte_sweep (fun b => forallb (fun c => negb (c =? 0) && negb (c =? 62) && negb (newline c) && negb (c =? 34)) (hex2 b))
    b ltac:(by vm_compute) Hb) as Hs. apply Forall_forall. intros c Hc. rewrite forallb_forall in Hs.
  specialize (Hs c (proj1 (list_elem_of_In _ _) Hc)). unfold line_char. btrue. naive_solver.
Qed.

Lemma quoted_line bl bs : blanks bl -> Forall byte_ok bs -> Forall line_char (quoted bl bs).
Proof.
  intros Hb Hbs. unfold quoted. apply Forall_app. split; [by apply blanks_line|]. apply Forall_app. split; [by constructor|].
  apply Forall_app. split; [|by constructor]. eapply Forall_impl; [by apply hex_chars|]. by intros c [].
Qed.

Lemma tail_ok_app l rest : Forall (fun c => c <> 0) l -> tail_ok rest -> tail_ok (l ++ rest).
Proof. intros Hl (k & r & -> & Hk). exists (l ++ k), r. split; [by rewrite <- app_assoc|]. by apply Forall_app. Qed.

Lemma parse_ints_spec bl ns : blanks bl -> Forall int_ok ns -> forall pre rest, tail_ok rest ->
  parse_ints (length ns) (pre ++ fields bl 44 ns ++ rest) (Some (zlen pre)) =
  Done (0, pre ++ fields bl 0 ns ++ rest, Some (zlen (pre ++ fields bl 0 ns)), ns).
Proof.
  intros Hb Hn. induction Hn as [|n ns Hn Hns IH]; intros pre rest Ht.
  { cbn [length parse_ints fields fmap list_fmap concat app]. by rewrite app_nil_r. }
  cbn [length parse_ints]. change (fields bl 44 (n :: ns)) with ((bl ++ dec n ++ [44]) ++ fields bl 44 ns).
  change (fields bl 0 (n :: ns)) with ((bl ++ dec n ++ [0]) ++ fields bl 0 ns). rewrite <- !app_assoc. cbn [app].
  rewrite nextint_spec; [|by apply blanks_space|by apply dec_plain|].
  2: { apply tail_ok_app; [|done]. apply line_char_nonzero. by apply fields_line. }
  cbn [obind]. rewrite dec_read by done.
  specialize (IH (pre ++ bl ++ dec n ++ [0]) rest Ht). rewrite <- !app_assoc in IH. cbn [app] in IH. rewrite IH. done.
Qed.

Lemma start_ints_spec bl p ns rest : blanks bl -> Forall int_ok ns -> Forall (fun x => x <> 58) p -> Forall (fun x => x <> 0) p ->
  Forall (fun x => x <> 0) rest ->
  start_ints (length ns) (((p ++ [58]) ++ fields bl 44 ns ++ rest) ++ [0]) =
  Done (0, ((p ++ [58]) ++ fields bl 0 ns ++ rest) ++ [0], Some (zlen ((p ++ [58]) ++ fields bl 0 ns)), ns).
Proof.
  intros Hb Hn Hp Hp0 Hr. unfold start_ints. pose proof (tok_start_spec p (fields bl 44 ns ++ rest) [] Hp) as E.
  replace (p ++ 58 :: fields bl 44 ns ++ rest) with ((p ++ [58]) ++ fields bl 44 ns ++ rest) in E by (by rewrite <- app_assoc).
  rewrite E.
  2: { apply Forall_app. split; [apply Forall_app; split; [done|by constructor]|]. apply Forall_app. split; [|done].
       apply line_char_nonzero. by apply fields_line. }
  cbn [obind Z.ltb Z.compare]. rewrite <- (app_assoc (p ++ [58])), <- (app_assoc (fields bl 44 ns)).
  rewrite parse_ints_spec; [by rewrite <- !app_assoc|done|done|]. apply tail_ok_app; [done|]. by exists [], [].
Qed.

Lemma hex_string bs : Forall byte_ok bs -> Forall (fun x => x <> 0 /\ x <> 34) (flat_map hex2 bs).
Proof. intros H. eapply Forall_impl; [by apply hex_chars|]. by intros c [[] ?]. Qed.

(** The text is decoded into the array. *)
Lemma decode_hex garbage bs : Forall byte_ok bs -> zlen bs <= CI_DEV_MAX_APGS_MSG_SIZE -> zlen garbage = CI_DEV_MAX_APGS_MSG_SIZE ->
  GSMHexToGSM (flat_map hex2 bs) (zlen (flat_map hex2 bs)) garbage CI_DEV_MAX_APGS_MSG_SIZE = Done (filled garbage bs, zlen bs).
Proof.
  intros Hb Hl Hg. rewrite zlen_hex. rewrite <- (app_nil_r (flat_map hex2 bs)).
  rewrite <- (take_drop (length bs) garbage) at 1. apply hex_to_bytes; [done| |done].
  rewrite length_take. unfold zlen in *. lia.
Qed.

Lemma hex_mid garbage bl bs pre rest : blanks bl -> Forall byte_ok bs -> zlen bs <= CI_DEV_MAX_APGS_MSG_SIZE ->
  zlen garbage = CI_DEV_MAX_APGS_MSG_SIZE -> tail_ok rest ->
  parse_hex garbage (pre ++ quoted bl bs ++ 44 :: rest) (Some (zlen pre)) =
  Done (filled garbage bs, (pre ++ bl ++ 34 :: flat_map hex2 bs ++ [0; 0]) ++ rest, Some (zlen (pre ++ bl ++ 34 :: flat_map hex2 bs ++ [0; 0]))).
Proof.
  intros Hbl Hb Hl Hg Ht. unfold parse_hex, quoted. rewrite <- !app_assoc. cbn [app].
  rewrite nextstr_mid by (done || by apply blanks_space || by apply hex_string). cbn [obind].
  rewrite string_after by (eapply Forall_impl; [by apply hex_string|]; by intros ? []). cbn [obind].
  rewrite decode_hex by done. cbn [obind]. rewrite <- !app_assoc. cbn [app]. rewrite <- ?app_assoc. done.
Qed.

Lemma hex_last garbage bl bs pre : blanks bl -> Forall byte_ok bs -> zlen bs <= CI_DEV_MAX_APGS_MSG_SIZE ->
  zlen garbage = CI_DEV_MAX_APGS_MSG_SIZE -> exists buf,
  parse_hex garbage (pre ++ quoted bl bs ++ [0]) (Some (zlen pre)) = Done (filled garbage bs, pre ++ buf, None).
Proof.
  intros Hbl Hb Hl Hg. unfold parse_hex, quoted. rewrite <- !app_assoc. cbn [app].
  rewrite nextstr_spec by (by apply blanks_space || by apply hex_string). cbn [obind]. eexists.
  assert (Hz : zlen pre + zlen bl + 1 = zlen (pre ++ bl ++ [34])) by (rewrite !zlen_app; change (zlen [34]) with 1; lia). rewrite Hz.
  replace (pre ++ bl ++ 34 :: flat_map hex2 bs ++ [0; 0]) with ((pre ++ bl ++ [34]) ++ flat_map hex2 bs ++ 0 :: [0])
    by (by rewrite <- !app_assoc).
  rewrite string_after by (eapply Forall_impl; [by apply hex_string|]; by intros ? []). cbn [obind].
  rewrite decode_hex by done. cbn [obind]. rewrite <- !app_assoc. reflexivity.
Qed.

(** ** Messages *)
Inductive message : Type :=
| MDownlink (type rrc_state session_priority : Z) (pdu : list Z)
| MEnd
| MState (rrc_state : Z)
| MNilr
| MMtlr (id ni notify client_dcs : Z) (client : list Z) (requestor_dcs : Z) (requestor : list Z)
| MReset (type : Z).

Definition name_of (m : message) : list Z :=
  match m with
  | MDownlink _ _ _ _ => bytes_of "+SPAGPSDL" ++ [58]
  | MEnd => bytes_of "+SPAGPSEND"
  | MState _ => bytes_of "+SPAGPSSTATE" ++ [58]
  | MNilr => bytes_of "+SPAGPSNILR"
  | MMtlr _ _ _ _ _ _ _ => bytes_of "+SPAGPSMTLR" ++ [58]
  | MReset _ => bytes_of "+SPAGPSRESET" ++ [58]
  end.
Definition body (bl : list Z) (m : message) : list Z :=
  match m with
  | MDownlink t r p d => fields bl 44 [t; r; p; zlen d] ++ quoted bl d
  | MEnd | MNilr => []
  | MState n | MReset n => bl ++ dec n
  | MMtlr id ni nt cd c rd r =>
      fields bl 44 [id; ni; nt; zlen c; cd] ++ quoted bl c ++ 44 :: fields bl 44 [zlen r; rd] ++ quoted bl r
  end.
(** The line of a message. *)
Definition text (bl : list Z) (m : message) : list Z := name_of m ++ body bl m.

(** What the stack is to be told. *)
Definition reported (garbage : list Z) (m : message) : hook_call :=
  match m with
  | MDownlink t r p d => CpPayload (u32 t) (u32 r) (u32 p) (filled garbage d) (zlen d)
  | MEnd => MeasTerm
  | MState n => RrcState (u32 n)
  | MNilr => E911Notify
  | MMtlr id ni nt cd c rd r => MtlrNotify
      {| handle_id := id; ni_type := ni; notify_type := nt; requestorID_len := zlen r; requestorID_dcs := rd;
         requestorID := filled garbage r; clientName_len := zlen c; clientName_dcs := cd; clientName := filled garbage c |}
  | MReset n => CpReset n
  end.

Definition data_ok (d : list Z) : Prop := Forall byte_ok d /\ zlen d <= CI_DEV_MAX_APGS_MSG_SIZE.
Definition message_ok (m : message) : Prop :=
  match m with
  | MDownlink t r p d => Forall int_ok [t; r; p] /\ data_ok d
  | MEnd | MNilr => True
  | MState n => int_ok n
  | MMtlr id ni nt cd c rd r => Forall int_ok [id; ni; nt; cd; rd] /\ data_ok c /\ data_ok r
  | MReset n => - 2 ^ 15 <= n < 2 ^ 15
  end.

(** Every function of the hook is there. *)
Definition full (h : agps_c_plane_hook) : Prop :=
  is_Some (cppayload_cb h) /\ is_Some (meas_term_cb h) /\ is_Some (rrc_state_cb h) /\ is_Some (e911notify_cb h) /\
  is_Some (cp_reset_cb h) /\ is_Some (mtlr_notify_cb h).

Lemma length_ok d : data_ok d -> int_ok (zlen d) /\ u32 (zlen d) = zlen d.
Proof.
  intros [_ H]. unfold CI_DEV_MAX_APGS_MSG_SIZE, int_ok in *. pose proof (zlen_nonneg d). split; [lia|]. unfold u32, wrap. apply Z.mod_small. lia.
Qed.

Lemma s16_short n : - 2 ^ 15 <= n < 2 ^ 15 -> s16 n = n.
Proof.
  intros H. unfold s16, u16, wrap. destruct (Z.ltb_spec n 0).
  - assert (n mod 2 ^ 16 = n + 2 ^ 16) as -> by (symmetry; apply (Z.mod_unique _ _ (-1)); lia).
    guard_false (n + 2 ^ 16 <? 2 ^ 15). lia.
  - rewrite Z.mod_small by lia. by guard_true (n <? 2 ^ 15).
Qed.

(** A line cut short by a handler still begins as the message does. *)
Definition same_start (m : message) (buf : list Z) : Prop :=
  exists s r, buf = (name_of m ++ s) ++ 0 :: r /\ Forall (fun c => c <> 0) (name_of m ++ s).

Lemma name_nonzero m : Forall (fun c => c <> 0) (name_of m).
Proof. destruct m; repeat constructor; done. Qed.

Lemma cut_fields m bl n ns rest : blanks bl -> int_ok n -> same_start m (name_of m ++ fields bl 0 (n :: ns) ++ rest).
Proof.
  intros Hb Hn. exists (bl ++ dec n), (fields bl 0 ns ++ rest). split.
  - change (fields bl 0 (n :: ns)) with ((bl ++ dec n ++ [0]) ++ fields bl 0 ns). by rewrite <- !app_assoc.
  - apply Forall_app. split; [apply name_nonzero|]. apply line_char_nonzero, Forall_app. split; [by apply blanks_line|by apply dec_line].
Qed.

Lemma whole_line m s : Forall (fun c => c <> 0) s -> same_start m ((name_of m ++ s) ++ [0]).
Proof. intros H. exists s, []. split; [done|]. apply Forall_app. split; [apply name_nonzero|done]. Qed.

Lemma start_int_last bl p n : blanks bl -> int_ok n -> Forall (fun x => x <> 58) p -> Forall (fun x => x <> 0) p ->
  start_ints 1 (((p ++ [58]) ++ bl ++ dec n) ++ [0]) = Done (0, ((p ++ [58]) ++ bl ++ dec n) ++ [0], None, [n]).
Proof.
  intros Hb Hn Hp Hp0. unfold start_ints. pose proof (tok_start_spec p (bl ++ dec n) [] Hp) as E.
  replace (p ++ 58 :: bl ++ dec n) with ((p ++ [58]) ++ bl ++ dec n) in E by (by rewrite <- app_assoc). rewrite E.
  2: { apply Forall_app. split; [apply Forall_app; split; [done|by constructor]|]. apply line_char_nonzero, Forall_app.
       split; [by apply blanks_line|by apply dec_line]. }
  cbn [obind Z.ltb Z.compare parse_ints]. rewrite <- (app_assoc (p ++ [58])), <- (app_assoc bl).
  rewrite nextint_last; [|by apply blanks_space|by apply dec_plain]. cbn [obind]. by rewrite dec_read.
Qed.

(** The line has none of the other prefixes. *)
Ltac only_prefix k := repeat match goal with |- context [strStartsWith ?l (AT_PREFIX ?j)] =>
  lazymatch j with k => fail | _ => change (strStartsWith l (AT_PREFIX j)) with false end end.

Section messages.
  Context (garbage bl : list Z).
  Hypothesis Hg : zlen garbage = CI_DEV_MAX_APGS_MSG_SIZE.
  Hypothesis Hbl : blanks bl.

Lemma downlink_spec t r p d x (m := MDownlink t r p d) : full (c_plane_stack_hook x) -> message_ok m ->
  exists ret buf, handle_ReportDownlinkData garbage (text bl m ++ [0]) x = Done (ret, buf, log x (reported garbage m)) /\ same_start m buf.
Proof.
  intros (Hf & _) [Hn Hd]. destruct (length_ok d Hd) as [Hi Hu]. unfold handle_ReportDownlinkData.
  assert (Hns : Forall int_ok [t; r; p; zlen d]) by (change [t; r; p; zlen d] with ([t; r; p] ++ [zlen d]); apply Forall_app; split; [done|by constructor]).
  assert (E : start_ints 4 (text bl m ++ [0]) = Done (0, (name_of m ++ fields bl 0 [t; r; p; zlen d] ++ quoted bl d) ++ [0],
    Some (zlen (name_of m ++ fields bl 0 [t; r; p; zlen d])), [t; r; p; zlen d])).
  { apply (start_ints_spec bl (bytes_of "+SPAGPSDL") [t; r; p; zlen d] (quoted bl d) Hbl Hns); [repeat constructor; done..|].
    apply line_char_nonzero, quoted_line; [done|]. apply Hd. }
  rewrite E. cbn [obind]. rewrite <- !app_assoc, (app_assoc (name_of m)). destruct Hd as [Hb Hl].
  destruct (hex_last garbage bl d (name_of m ++ fields bl 0 [t; r; p; zlen d]) Hbl Hb Hl Hg) as (buf & ->). cbn [obind]. rewrite Hu.
  destruct Hf as [f Hf]. unfold check, invoke. rewrite Hf. eexists _, _. split; [done|]. rewrite <- app_assoc. apply cut_fields; [done|].
  by apply Forall_cons in Hn as [? _].
Qed.

Lemma state_spec n x (m := MState n) : full (c_plane_stack_hook x) -> message_ok m ->
  exists ret buf, handle_NotifyStateChange (text bl m ++ [0]) x = Done (ret, buf, log x (reported garbage m)) /\ same_start m buf.
Proof.
  intros (_ & _ & [f Hf] & _) Hn. unfold handle_NotifyStateChange.
  change (text bl m) with ((bytes_of "+SPAGPSSTATE" ++ [58]) ++ bl ++ dec n).
  rewrite (start_int_last bl (bytes_of "+SPAGPSSTATE") n Hbl Hn) by (repeat constructor; done). cbn [obind].
  unfold check, invoke. rewrite Hf. eexists _, _. split; [done|]. apply (whole_line m).
  apply line_char_nonzero, Forall_app. split; [by apply blanks_line|by apply dec_line].
Qed.

Lemma reset_spec n x (m := MReset n) : full (c_plane_stack_hook x) -> message_ok m ->
  exists ret buf, handle_ResetPosInfo (text bl m ++ [0]) x = Done (ret, buf, log x (reported garbage m)) /\ same_start m buf.
Proof.
  intros (_ & _ & _ & _ & [f Hf] & _) Hn. unfold handle_ResetPosInfo. cbn in Hn.
  assert (Hi : int_ok n) by (unfold int_ok; lia).
  change (text bl m) with ((bytes_of "+SPAGPSRESET" ++ [58]) ++ bl ++ dec n).
  rewrite (start_int_last bl (bytes_of "+SPAGPSRESET") n Hbl Hi) by (repeat constructor; done). cbn [obind].
  unfold check, invoke. rewrite Hf, s16_short by done. eexists _, _. split; [done|]. apply (whole_line m).
  apply line_char_nonzero, Forall_app. split; [by apply blanks_line|by apply dec_line].
Qed.

Lemma mtlr_spec id ni nt cd c rd r x (m := MMtlr id ni nt cd c rd r) : full (c_plane_stack_hook x) -> message_ok m ->
  exists ret buf, handle_NotifyMTLR garbage (text bl m ++ [0]) x = Done (ret, buf, log x (reported garbage m)) /\ same_start m buf.
Proof.
  intros (_ & _ & _ & _ & _ & [f Hf]) (Hn & Hc & Hr). destruct (length_ok c Hc) as [Hci _]. destruct (length_ok r Hr) as [Hri _].
  unfold handle_NotifyMTLR. rewrite !Forall_cons in Hn. destruct Hn as (H1 & H2 & H3 & H4 & H5 & _).
  assert (Hns : Forall int_ok [id; ni; nt; zlen c; cd]) by (rewrite !Forall_cons; naive_solver).
  assert (Hms : Forall int_ok [zlen r; rd]) by (rewrite !Forall_cons; naive_solver).
  set (rest := fields bl 44 [zlen r; rd] ++ quoted bl r).
  assert (Hrest : Forall line_char rest) by (apply Forall_app; split; [by apply fields_line|apply quoted_line; [done|apply Hr]]).
  assert (Hq : Forall line_char (quoted bl c ++ 44 :: rest)) by (apply Forall_app; split; [apply quoted_line; [done|apply Hc]|by constructor]).
  pose proof (start_ints_spec bl (bytes_of "+SPAGPSMTLR") _ (quoted bl c ++ 44 :: rest) Hbl Hns ltac:(repeat constructor; done)
    ltac:(repeat constructor; done) (line_char_nonzero _ Hq)) as E.
  change (start_ints 5 (text bl m ++ [0]) = Done (0, (name_of m ++ fields bl 0 [id; ni; nt; zlen c; cd] ++ quoted bl c ++ 44 :: rest) ++ [0],
    Some (zlen (name_of m ++ fields bl 0 [id; ni; nt; zlen c; cd])), [id; ni; nt; zlen c; cd])) in E.
  rewrite E. cbn [obind]. clear E. set (fs := fields bl 0 [id; ni; nt; zlen c; cd]).
  replace ((name_of m ++ fs ++ quoted bl c ++ 44 :: rest) ++ [0]) with ((name_of m ++ fs) ++ quoted bl c ++ 44 :: rest ++ [0])
    by (by rewrite <- !app_assoc).
  destruct Hc as [Hcb Hcl]. destruct Hr as [Hrb Hrl].
  rewrite hex_mid; [|done..|apply tail_ok_app; [by apply line_char_nonzero|by exists [], []]]. cbn [obind].
  set (pre := (name_of m ++ fs) ++ bl ++ 34 :: flat_map hex2 c ++ [0; 0]). unfold rest. rewrite <- (app_assoc (fields bl 44 _)).
  assert (Ht : tail_ok (quoted bl r ++ [0])) by (apply tail_ok_app; [by apply line_char_nonzero, quoted_line|by exists [], []]).
  pose proof (parse_ints_spec bl [zlen r; rd] Hbl Hms pre (quoted bl r ++ [0]) Ht) as E. cbn [length] in E.
  rewrite E. cbn [obind]. rewrite app_assoc.
  destruct (hex_last garbage bl r (pre ++ fields bl 0 [zlen r; rd]) Hbl Hrb Hrl Hg) as (buf & ->). cbn [obind].
  unfold check, invoke. rewrite Hf. eexists _, _. split; [done|]. unfold pre, fs. rewrite <- !app_assoc. by apply cut_fields.
Qed.

Lemma body_line m : message_ok m -> Forall line_char (body bl m).
Proof.
  assert (Hi : forall n, int_ok n -> Forall line_char (bl ++ dec n)).
  { intros n Hn. apply Forall_app. split; [by apply blanks_line|by apply dec_line]. }
  destruct m as [t r p d| |n| |id ni nt cd c rd r|n]; cbn [message_ok body]; [| done |by apply Hi|done| |].
  - intros [Hn Hd]. apply Forall_app. split; [|apply quoted_line; [done|apply Hd]]. apply fields_line; [done|].
    rewrite !Forall_cons in *. destruct (length_ok d Hd). naive_solver.
  - intros (Hn & Hc & Hr). destruct (length_ok c Hc), (length_ok r Hr), Hc, Hr. rewrite !Forall_cons in Hn.
    apply Forall_app. split; [apply fields_line; [done|rewrite !Forall_cons; naive_solver]|].
    apply Forall_app. split; [by apply quoted_line|]. constructor; [done|].
    apply Forall_app. split; [apply fields_line; [done|rewrite !Forall_cons; naive_solver]|by apply quoted_line].
  - intros Hn. apply Hi. unfold int_ok. lia.
Qed.

Lemma text_line m : message_ok m -> Forall line_char (text bl m).
Proof. intros Hm. apply Forall_app. split; [destruct m; repeat constructor; done|by apply body_line]. Qed.

Lemma text_string m : message_ok m -> cstr_at (text bl m ++ [0]) 0 = Done (text bl m).
Proof. intros Hm. apply (string_after [] (text bl m) []). by apply line_char_nonzero, text_line. Qed.

Lemma unchanged m : message_ok m -> same_start m (text bl m ++ [0]).
Proof. intros Hm. apply whole_line. by apply line_char_nonzero, body_line. Qed.

(** The callback reports the message. *)
Lemma callback_spec m x : full (c_plane_stack_hook x) -> message_ok m ->
  exists buf, my_at_response_cb garbage (text bl m ++ [0]) x = Done (buf, log x (reported garbage m)) /\ same_start m buf.
Proof.
  intros Hf Hm. unfold my_at_response_cb. rewrite text_string by done. cbn [obind].
  assert (Hs : strStartsWith (text bl m) (name_of m) = true) by apply starts_with_refl.
  assert (Hu := unchanged m Hm). destruct m as [t r p d| |n| |id ni nt cd c rd r|n].
  - change (AT_PREFIX 0) with (name_of (MDownlink t r p d)). rewrite Hs.
    destruct (downlink_spec t r p d x Hf Hm) as (ret & buf & -> & Hb). by exists buf.
  - only_prefix 1%nat. change (AT_PREFIX 1) with (name_of MEnd). rewrite Hs.
    destruct Hf as (_ & [f Hf] & _). unfold handle_NotifyStopSession, invoke. rewrite Hf. by eexists.
  - only_prefix 2%nat. change (AT_PREFIX 2) with (name_of (MState n)). rewrite Hs.
    destruct (state_spec n x Hf Hm) as (ret & buf & -> & Hb). by exists buf.
  - only_prefix 3%nat. change (AT_PREFIX 3) with (name_of MNilr). rewrite Hs.
    destruct Hf as (_ & _ & _ & [f Hf] & _). unfold handle_NotifyNILocateReq, invoke. rewrite Hf. by eexists.
  - only_prefix 4%nat. change (AT_PREFIX 4) with (name_of (MMtlr id ni nt cd c rd r)). rewrite Hs.
    destruct (mtlr_spec id ni nt cd c rd r x Hf Hm) as (ret & buf & -> & Hb). by exists buf.
  - only_prefix 5%nat. change (AT_PREFIX 5) with (name_of (MReset n)). rewrite Hs.
    destruct (reset_spec n x Hf Hm) as (ret & buf & -> & Hb). by exists buf.
Qed.

(** The nodes that the agent registers. *)
Definition nodes : list (at_unso_node agent) :=
  (fun p => {| prefix := bytes_of p; cb := Some (my_at_response_cb garbage) |}) <$>
  ["+SPAGPSDL:"; "+SPAGPSEND"; "+SPAGPSSTATE:"; "+SPAGPSNILR"; "+SPAGPSMTLR:"; "+SPAGPSRESET:"].
Definition kind_of (m : message) : nat :=
  match m with MDownlink _ _ _ _ => 0 | MEnd => 1 | MState _ => 2 | MNilr => 3 | MMtlr _ _ _ _ _ _ _ => 4 | MReset _ => 5 end.

Lemma nodes_split m : exists ns1 ns2, nodes = ns1 ++ {| prefix := name_of m; cb := Some (my_at_response_cb garbage) |} :: ns2 /\
  forall s, Forall (fun n => strStartsWith (name_of m ++ s) (prefix n) = false) (ns1 ++ ns2).
Proof.
  exists (take (kind_of m) nodes), (drop (S (kind_of m)) nodes). split; [by destruct m|].
  intros s. destruct m; repeat (constructor; [reflexivity|]); constructor.
Qed.

Lemma dispatch_spec m x : full (c_plane_stack_hook x) -> message_ok m ->
  match_nodes nodes (text bl m ++ [0]) x = Done (log x (reported garbage m)).
Proof.
  intros Hf Hm. destruct (callback_spec m x Hf Hm) as (buf & E & s & r & -> & Hz). destruct (nodes_split m) as (ns1 & ns2 & -> & Hn).
  eapply match_one.
  - by apply text_string.
  - specialize (Hn (body bl m)). by apply Forall_app in Hn as [? _].
  - apply starts_with_refl.
  - done.
  - exact E.
  - apply (string_after [] (name_of m ++ s) r Hz).
  - specialize (Hn s). by apply Forall_app in Hn as [_ ?].
Qed.

Lemma message_not_final m : isFinalResponse (text bl m) = false.
Proof. destruct m; reflexivity. Qed.

Definition log_all (x : agent) (cs : list hook_call) : agent := {| c_plane_stack_hook := c_plane_stack_hook x; calls := calls x ++ cs |}.

Lemma messages_spec ms : forall (a : at_channel agent) x, queue a = nodes -> full (c_plane_stack_hook x) -> Forall message_ok ms ->
  process_lines a x (text bl <$> ms) = Done (a, log_all x (reported garbage <$> ms)).
Proof.
  induction ms as [|m ms IH]; intros a x Hq Hf Hm.
  { cbn [fmap list_fmap process_lines]. unfold log_all. rewrite app_nil_r. by destruct x. }
  apply Forall_cons in Hm as [Hm Hms]. cbn [fmap list_fmap process_lines]. unfold processLine, match_unsolicited_cb.
  pose proof (message_not_final m) as Hnf. apply orb_false_iff in Hnf as [-> ->]. rewrite Hq, dispatch_spec by done. cbn [obind].
  rewrite IH by done. unfold log_all, log. cbn [calls c_plane_stack_hook]. by rewrite <- app_assoc.
Qed.
End messages.

(** ** The agent as a whole *)
Lemma init_spec garbage opened h x : 0 < opened -> hook_size h = sizeof_hook -> exists a,
  agps_c_plane_stack_init garbage [closed; closed] x opened (Some h) = (0, [a; closed], {| c_plane_stack_hook := h; calls := calls x |}) /\
  fd a = opened /\ queue a = nodes garbage /\ holds (lines a) [] /\ finalResponse a = None.
Proof.
  intros Ho Hh. set (a := {| fd := opened; lines := lines (@closed agent); queue := nodes garbage; success := false; finalResponse := None |}).
  exists a. split_and!; [|done..| |done].
  - unfold agps_c_plane_stack_init. rewrite Hh, Z.eqb_refl.
    assert (Ei : atc_init [@closed agent; closed] opened =
      (Some O, [{| fd := opened; lines := lines (@closed agent); queue := []; success := false; finalResponse := None |}; closed])).
    { unfold atc_init. cbn [list_find]. rewrite decide_True by done. unfold open_channel. by guard_false (opened <? 0). }
    rewrite Ei. unfold register_RecvCommand. cbn [fold_left].
    assert (Er : forall (q : list (at_unso_node agent)) p f, register_unsolicited
      [{| fd := opened; lines := lines (@closed agent); queue := q; success := false; finalResponse := None |}; closed] opened p f =
      (0, [{| fd := opened; lines := lines (@closed agent); queue := q ++ [{| prefix := p; cb := f |}]; success := false; finalResponse := None |}; closed])).
    { intros q p f. unfold register_unsolicited, atc_register_unsolicited, atc_try_init. cbn [fd]. by guard_false (opened <=? 0). }
    do 6 (rewrite Er; cbn [snd]). reflexivity.
  - exists [], (replicate (Z.to_nat MAX_AT_RESPONSE) 0). unfold a. cbn [lines closed s_ATBuffer s_ATBufferCur app].
    split_and!; [|done| |constructor].
    + change (Z.to_nat (MAX_AT_RESPONSE + 1)) with (S (Z.to_nat MAX_AT_RESPONSE)). reflexivity.
    + unfold zlen. by rewrite length_replicate, Z2Nat.id by done.
Qed.

(** Messages in a stream: newlines, the message, and the end of its line. *)
Definition sent (bl : list Z) (items : list (list Z * message * Z)) : list Z :=
  concat ((fun '(nl, m, c) => nl ++ text bl m ++ [c]) <$> items).
Definition sent_ok (bl : list Z) (i : list Z * message * Z) : Prop :=
  let '(nl, m, c) := i in
  message_ok m /\ Forall (fun x => newline x = true) nl /\ newline c = true /\ zlen nl + zlen (text bl m) < MAX_AT_RESPONSE.
Definition messages_of (items : list (list Z * message * Z)) : list message := (fun '(_, m, _) => m) <$> items.

Lemma sent_items bl items : blanks bl -> Forall (sent_ok bl) items ->
  exists its, Forall item_ok its /\ sent bl items = stream its /\ lines_of its = text bl <$> messages_of items /\ length its = length items.
Proof.
  intros Hb Hi. exists ((fun '(nl, m, c) => (nl, text bl m, c)) <$> items).
  induction Hi as [|[[nl m] c] items (Hm & Hn & Hc & Hl) _ (I1 & I2 & I3 & I4)]; [by repeat constructor|].
  unfold sent, stream, lines_of, messages_of in *. cbn [fmap list_fmap concat length] in *. split_and!.
  - constructor; [|done]. pose proof (text_line bl Hb m Hm) as Ht. constructor; try done.
    + eapply Forall_impl; [exact Ht|]. by intros x (_ & _ & ?).
    + by destruct m.
    + eapply Forall_impl; [exact Ht|]. by intros x (? & ? & _).
  - by rewrite I2.
  - by rewrite I3.
  - by rewrite I4.
Qed.

(** C16. After [agps_c_plane_stack_init], whatever the pieces in which the modem's messages arrive,
    every message calls its function of the hook once, in the order of the messages and with the
    values and the data that the message carries; then the reader ends with the device. *)
Theorem messages_delivered garbage bl opened h x items tail script :
  zlen garbage = CI_DEV_MAX_APGS_MSG_SIZE -> blanks bl -> 0 < opened -> hook_size h = sizeof_hook -> full h ->
  Forall (sent_ok bl) items -> Forall (fun c => newline c = true) tail -> zlen tail < MAX_AT_RESPONSE ->
  Forall (fun piece => piece <> []) script -> concat script = sent bl items ++ tail ->
  exists a x' a' x'', agps_c_plane_stack_init garbage [closed; closed] x opened (Some h) = (0, [a; closed], x') /\
    readerLoop (S (length items)) a x' script = Done (a', x'') /\
    calls x'' = calls x ++ (reported garbage <$> messages_of items).
Proof.
  intros Hg Hb Ho Hs Hf Hi Ht Htl Hp E. destruct (init_spec garbage opened h x Ho Hs) as (a & Ea & _ & Hq & Hh & _).
  destruct (sent_items bl items Hb Hi) as (its & Hits & Es & El & Elen).
  set (x' := {| c_plane_stack_hook := h; calls := calls x |}) in *.
  assert (Hm : Forall message_ok (messages_of items)).
  { apply Forall_fmap. eapply Forall_impl; [exact Hi|]. intros [[nl m] c] H. apply H. }
  destruct (reader_spec its tail Hits Ht Htl a x' [] script Hh Hp) as (b & Er); [by rewrite <- Es|].
  rewrite El, (messages_spec garbage bl Hg Hb (messages_of items) a x' Hq Hf Hm) in Er. cbn [obind] in Er. exists a, x'. do 2 eexists. split; [done|].
  rewrite <- Elen. by split.
Qed.

(** ** Uplink *)
Lemma length_udigits fuel : forall n, (length (udigits fuel n) <= fuel)%nat.
Proof.
  induction fuel as [|fuel IH]; intros n; [done|]. rewrite udigits_S. destruct (n <? 10); [cbn; lia|]. rewrite length_app. cbn [length].
  specialize (IH (n / 10)). lia.
Qed.
Lemma zlen_dec n : zlen (dec n) <= 11.
Proof.
  unfold dec, udec, zlen. destruct (n <? 0); [cbn [length]; pose proof (length_udigits 10 (- n))|pose proof (length_udigits 10 n)]; lia.
Qed.

Lemma ul_fits f o r n d : zlen d <= CI_DEV_MAX_APGS_MSG_SIZE - 32 -> in_array (16 * 1024) (ul_text f o r n d) = Done (ul_text f o r n d).
Proof.
  intros Hd. unfold in_array, ul_text. set (t := bytes_of _ ++ _).
  assert (Hl : zlen t <= 12 + 11 + 1 + 11 + 1 + 11 + 1 + 11 + 2 + 2 * zlen d + 1).
  { unfold t. rewrite !zlen_app, zlen_hex. change (zlen (bytes_of "AT+SPAGPSUL=")) with 12. change (zlen [44]) with 1. change (zlen [44; 34]) with 2.
    change (zlen [34]) with 1. pose proof (zlen_dec f). pose proof (zlen_dec (s32 o)). pose proof (zlen_dec (s32 r)). pose proof (zlen_dec (s32 n)). lia. }
  unfold CI_DEV_MAX_APGS_MSG_SIZE in Hd. by guard_false (16 * 1024 <? zlen t + 1).
Qed.

(** The final request ends the session. *)
Definition after_final (isfinal : Z) (x : agent) : agent := if isfinal =? 0 then x else log x MeasTerm.

(** What the stack is told during the wait: the messages, unless a response from before ended the
    wait at once. *)
Definition told (garbage : list Z) (a : at_channel agent) (x : agent) (ms : list message) : agent :=
  match finalResponse a with Some _ => x | None => log_all x (reported garbage <$> ms) end.

(** C17. An uplink request of at most 8160 bytes of payload (one of 8192 overruns the array of the
    command: [uplink_overruns]), on an open channel and with every function of the hook set.  The
    stack is told of the end of the session when the request is the final one.  Then the request
    goes out in one line, with the bytes of the payload as hexadecimal digits, whatever the parts
    in which the device takes it; or, only when the device fails, a beginning of it goes out, the
    code of the failed write is the result and nothing is waited for.  After the whole line the
    result is, in this order: that of a final response left from before, when there is one (the
    case of [late_response_taken]: no line is waited for); -2 when the wait times out, and a
    response that came is left; that of the first final response during the wait; and, when the
    wait is woken without one, that of the command before.  The lines that come before the
    response are well-formed messages of the modem and are delivered, in order. *)
Theorem uplink_sent garbage bl a rest x opened ota rrc isfinal data pre post ms response timed_out :
  zlen garbage = CI_DEV_MAX_APGS_MSG_SIZE -> blanks bl -> 0 < fd a -> queue a = nodes garbage ->
  full (c_plane_stack_hook x) -> zlen data <= CI_DEV_MAX_APGS_MSG_SIZE - 32 -> Forall message_ok ms ->
  (forall f, response = Some f -> isFinalResponse f = true) -> Forall takes pre ->
  let cmd := ul_text isfinal ota rrc (zlen data) data in
  let x1 := after_final isfinal x in
  let request script :=
    agps_c_plane_stack_network_ulreq (a :: rest) x opened ota rrc isfinal data (zlen data) script ((text bl <$> ms) ++ answer response) timed_out in
  let whole := let '(ret, a') := wait_result a response timed_out in Done (u32 ret, cmd ++ [13], a' :: rest, told garbage a x1 ms) in
  ((length cmd < parts pre)%nat -> request pre = whole) /\
  (request (pre ++ WError :: post) = whole \/
   exists ret out, request (pre ++ WError :: post) = Done (u32 ret, out, a :: rest, x1) /\ (ret = -2 \/ ret = -3) /\ out `prefix_of` cmd).
Proof.
  intros Hg Hb Hfd Hq Hf Hl Hm Hres Hs cmd x1 request whole.
  assert (Hx : (if isfinal =? 0 then Done x else let* (_, x) := handle_NotifyStopSession x in Done x) = Done x1).
  { unfold x1, after_final. destruct (isfinal =? 0); [done|]. unfold handle_NotifyStopSession, invoke. by destruct Hf as (_ & [g ->] & _). }
  assert (Hreq : forall script, request script =
    let* (ret, out, a', x') := send_on a x1 cmd true script ((text bl <$> ms) ++ answer response) timed_out in
    Done (u32 ret, out, a' :: rest, x')).
  { intros script. unfold request, agps_c_plane_stack_network_ulreq. rewrite slice_all. cbn [obind]. rewrite ul_fits by done. cbn [obind].
    rewrite Hx. cbn [obind]. unfold at_send, atc_send, atc_try_init. guard_false (fd a <=? 0). cbn [lookup list_lookup]. fold cmd.
    by destruct (send_on a x1 cmd true script _ timed_out) as [[[[? ?] ?] ?]| |]. }
  assert (Hw : await a x1 ((text bl <$> ms) ++ answer response) timed_out =
    let '(ret, a') := wait_result a response timed_out in Done (ret, a', told garbage a x1 ms)).
  { unfold told. apply await_spec; [|apply messages_spec; try done; unfold x1, after_final; by destruct (isfinal =? 0)|done].
    apply Forall_fmap. apply Forall_true. intros m. apply message_not_final. }
  assert (Hwhole : forall script script', writeline script cmd = Done (0, cmd ++ [13], script') -> request script = whole).
  { intros script script' E. rewrite Hreq. unfold send_on, whole. guard_false (fd a <? 0). rewrite E. cbn [obind Z.ltb Z.compare]. rewrite Hw.
    by destruct (wait_result a response timed_out). }
  split.
  - intros Hp. destruct (writeline_spec pre cmd Hs Hp) as (s' & E). by eapply Hwhole.
  - destruct (writeline_error post pre cmd Hs) as [(s' & E)|(ret & out & s' & E & Hr & Ho)]; [left; by eapply Hwhole|right].
    exists ret, out. split; [|done]. rewrite Hreq. unfold send_on. guard_false (fd a <? 0). rewrite E. cbn [obind].
    by guard_true (ret <? 0).
Qed.

(** ** Concrete runs *)
Definition zeros : list Z := replicate (Z.to_nat CI_DEV_MAX_APGS_MSG_SIZE) 0.
Definition some_hook : agps_c_plane_hook :=
  {| hook_size := 28; cppayload_cb := Some (fun _ _ _ _ _ => 1); meas_term_cb := Some 1; rrc_state_cb := Some (fun _ => 1);
     e911notify_cb := Some 1; cp_reset_cb := Some (fun _ => 1); mtlr_notify_cb := Some (fun _ => 0) |}.
Definition started : agent := {| c_plane_stack_hook := some_hook; calls := [] |}.
Lemma some_hook_full : full some_hook.
Proof. repeat split; by eexists. Qed.
Lemma zlen_zeros : zlen zeros = CI_DEV_MAX_APGS_MSG_SIZE.
Proof. reflexivity. Qed.

(** Two messages and a half of a newline pair, in three pieces. *)
Definition some_items : list (list Z * message * Z) :=
  [([13; 10], MDownlink 1 2 (-3) [171; 205], 13); ([10; 13; 10], MMtlr 7 0 1 15 [65] 15 [66; 67], 13)].
Definition some_script : list (list Z) :=
  let s := sent [32] some_items ++ [10] in [take 5 s; take 40 (drop 5 s); drop 45 s].
Lemma messages_delivered_witness : Forall (sent_ok [32]) some_items /\ Forall (fun piece => piece <> []) some_script /\
  exists a x' a' x'', agps_c_plane_stack_init zeros [closed; closed] started 3 (Some some_hook) = (0, [a; closed], x') /\
    readerLoop 3 a x' some_script = Done (a', x'') /\ calls x'' = [] ++ (reported zeros <$> messages_of some_items).
Proof.
  assert (Hi : Forall (sent_ok [32]) some_items).
  { repeat constructor; cbn; unfold int_ok, byte_ok; try lia; try done; vm_compute; done. }
  assert (Hs : Forall (fun piece => piece <> []) some_script) by (repeat constructor; done).
  split; [exact Hi|]. split; [exact Hs|].
  exact (messages_delivered zeros [32] 3 some_hook started some_items [10] some_script zlen_zeros ltac:(by constructor) ltac:(lia)
    ltac:(done) some_hook_full Hi ltac:(by constructor) ltac:(by vm_compute) Hs ltac:(reflexivity)).
Defined.

Definition some_channel : at_channel agent :=
  {| fd := 3; lines := {| s_ATBuffer := [0]; s_ATBufferCur := 0 |}; queue := nodes zeros; success := false; finalResponse := None |}.
Definition some_writes : list wrote := WAgain :: replicate 60 (WTook 1).
Lemma uplink_sent_witness :
  ul_text 1 1 0 2 [171; 205] = bytes_of "AT+SPAGPSUL=1,1,0,2," ++ [34] ++ bytes_of "abcd" ++ [34] /\
  agps_c_plane_stack_network_ulreq [some_channel] started 3 1 0 1 [171; 205] 2 some_writes [bytes_of "+SPAGPSSTATE: 3"; bytes_of "OK"] false =
  Done (0, ul_text 1 1 0 2 [171; 205] ++ [13], [set_response some_channel true None], log_all (after_final 1 started) [RrcState 3]).
Proof.
  split; [reflexivity|].
  refine (proj1 (uplink_sent zeros [32] some_channel [] started 3 1 0 1 [171; 205] some_writes [] [MState 3] (Some (bytes_of "OK")) false zlen_zeros
    ltac:(by constructor) ltac:(done) ltac:(done) some_hook_full ltac:(by vm_compute)
    ltac:(constructor; [cbn; unfold int_ok; lia|constructor]) _ ltac:(repeat constructor)) ltac:(vm_compute; lia)).
  intros f [= <-]. reflexivity.
Defined.

(** The numbers of a message are not compared with its data: 9000 bytes are announced in an array
    of 8192, of which one was decoded. *)
Example length_not_checked :
  (let* (_, _, x) := handle_ReportDownlinkData zeros (bytes_of "+SPAGPSDL: 1,2,3,9000," ++ [34] ++ bytes_of "ab" ++ [34; 0]) started in
   Done ((fun c => match c with CpPayload _ _ _ d n => (take 2 d, zlen d, n) | _ => ([], 0, 0) end) <$> calls x)) =
  Done [([171; 0], 8192, 9000)].
Proof. by vm_compute. Qed.

(** A message without its data reads through NULL. *)
Example data_missing : handle_ReportDownlinkData zeros (bytes_of "+SPAGPSDL: 1,2,3,4" ++ [0]) started = Undef.
Proof. by vm_compute. Qed.

(** A payload of the size that the array for downlink data has does not fit the array of the
    command. *)
Example uplink_overruns : agps_c_plane_stack_network_ulreq [some_channel] started 3 1 0 0 zeros 8192 some_writes [] false = Undef.
Proof. by vm_compute. Qed.

(** Without a verification response an empty command goes out. *)
Example empty_command :
  (let* (ret, out, _, _) := agps_c_plane_stack_lcsverificationresp [some_channel] started 3 5 0 1 some_writes [bytes_of "OK"] false in
   Done (ret, out)) = Done (0, [13]) /\
  (let* (ret, out, _, _) := agps_c_plane_stack_lcsverificationresp [some_channel] started 3 5 1 1 some_writes [bytes_of "OK"] false in
   Done (ret, out)) = Done (0, bytes_of "AT+CMTLRA=1, 5" ++ [13]).
Proof. split; by vm_compute. Qed.

(** A second [agps_c_plane_stack_init] opens the second channel and registers the callbacks once
    more with the first: the lines that the second channel reads have none. *)
Example second_init :
  (let '(_, atcs, x) := agps_c_plane_stack_init zeros [closed; closed] started 3 (Some some_hook) in
   let '(rc, atcs, _) := agps_c_plane_stack_init zeros atcs x 4 (Some some_hook) in
   (rc, (fun a => (fd a, length (queue a))) <$> atcs)) = (0, [(3, 12%nat); (4, 0%nat)]).
Proof. by vm_compute. Qed.
